(* ===== verification/_CoqProject ===== *)
-Q . S2P
Prelude.v
Join.v
GoStrings.v
Blueprint.v
DbRows.v
Db.v
DbSpec.v
DbTxn.v
DbConc.v
DbFrame.v
Engine.v
CloudJoin.v
Backoff.v
Cloud.v
CloudLoop.v
Providers.v
Foreman.v
MinionServer.v
GoNet.v
Ip.v
NatRules.v
Dns.v
Ec2.v
Ec2Spec.v
Ec2Machines.v
Ec2Sim.v
Gce.v
Slots.v
GceSpec.v
GceIps.v
GceSim.v
Droplets.v
DropletsSpec.v
DropletsSim.v
Vagrant.v
VagrantSpec.v
VagrantSim.v
Ovn.v
Ovsdb.v
OvsServer.v
Acl.v
Network.v
Openflow.v
Etcd.v
EtcdSync.v
NatRound.v
Keys.v
EtcdElect.v
Kube.v
KubeSpec.v
KubeDeploy.v
KubeRound.v
KubeStatus.v
KubeLoops.v
Docker.v
Supervisor.v
SupervisorSpec.v
SupervisorRounds.v
SupervisorSim.v
Registry.v
RegistrySpec.v
RegistrySim.v
Credentials.v
CredentialsSim.v
DaemonStart.v
Cni.v
CniSpec.v
CniSim.v
Api.v
ApiSpec.v
Cli.v
CliSpec.v
Show.v
Counters.v
DebugLogs.v
Inspect.v
ApiSim.v
