(* ===== verification/Prelude.v ===== *)
(** * Kelda: a verification library

    Kelda deploys containers on virtual machines of several cloud providers
    from a blueprint.  The daemon keeps a database of machines, boots and stops
    them through the providers' APIs and hands each of them a configuration;
    the minions on the machines turn the blueprint into containers, addresses,
    connections, DNS names, NAT rules, an OVN network and Kubernetes
    deployments.  This library models the Go code under src/ as executable Rocq
    definitions and proves what each part promises.

    ** How the parts interact

    All state that the parts share is in the database (src/db): every part is a
    loop that waits for a trigger on some tables, reads them in a transaction,
    and brings rows, or something outside (a provider, iptables, OVN), in line
    with them.  The difference between what there is and what should be is
    computed by src/join.  On the daemon: the cloud loops (src/cloud) reconcile
    the machine table with the providers and the blueprint, and the foreman
    (src/cloud/foreman) talks to the minions, src/cloud/credentials.go installs
    their certificates, and the API (src/api) serves the command line (src/cli)
    and asks the leader of the cluster for what only it knows.  On a minion: the server
    (src/minion/server.go) stores the configuration, the policy engine
    (src/minion/engine.go) splits the blueprint into tables, src/minion/network
    allocates addresses and configures DNS, NAT, OVN and OpenFlow,
    src/minion/etcd elects a leader and copies the leader's tables to the other
    minions, src/minion/kubernetes runs the containers, the CNI plugin
    (src/minion/network/cni) connects each to the switch, src/minion/registry
    builds images, and src/minion/supervisor runs the system containers of all this
    with src/minion/docker.

    ** Files

    - [Prelude]: Go outcomes, errors and the state monad with its weakest
      preconditions [wp], map iteration orders ([MapOrder]), shared lemmas.
    - [Join]: src/join/join.go.  [GoStrings]: src/util/str/str.go and the parts
      of Go's strings, sort and fmt packages in use.
    - [Blueprint]: the types of src/blueprint/blueprint.go.
    - [DbRows]: the row types of src/db with their orders, roles, providers.
      [Db]: db.go and table.go as state passing over a [store], with the
      operations of the ten tables.  [DbSpec]: the refinement of the store to
      maps from IDs to rows.  [DbTxn]: transactions run from arbitrary code.
      [DbConc]: goroutines, locks and channels as a step relation.
      [DbFrame]: what loops of inserts, commits and removes do to one table.
    - [Engine]: src/minion/engine.go.
    - [CloudJoin]: src/cloud/join.go and desiredMachines of cloud.go.
      [Backoff]: BackoffWaitFor of src/util/util.go.  [Cloud]:
      src/cloud/cloud.go.  [CloudLoop]: its goroutines as a step relation.
    - [Providers]: src/cloud/cfg/cfg.go, encodings, and what the providers share.
      [Ec2]: src/cloud/amazon/amazon.go.  [Ec2Spec], [Ec2Machines]: EC2 and the
      theorems on ACLs and on machines.  [Gce]: src/cloud/google/google.go.
      [Slots]: resources with operations in flight.  [GceSpec], [GceIps]: GCE
      and the theorems on ACLs and on floating IPs.  [Droplets]:
      src/cloud/digitalocean/digitalocean.go.  [DropletsSpec]: DigitalOcean and
      the theorems on ACLs and on booting.  [Vagrant]: src/cloud/vagrant.
      [VagrantSpec]: the theorem on its machines.  [Ec2Sim], [GceSim],
      [DropletsSim], [VagrantSim]: clients and hosts that satisfy the laws.
    - [Foreman]: src/cloud/foreman/foreman.go.  [MinionServer]:
      src/minion/server.go.
    - [GoNet]: Go's net package: IPv4 parsing, printing, CIDR.  [Ip]:
      src/minion/ipdef/ipdef.go and src/minion/network/ip.go.
    - [NatRules], [NatRound]: src/minion/network/nat.go, the rules and a turn of
      the loop.  [Dns]: src/minion/network/dns.go.  [Keys]: src/minion/keys.go.
    - [Ovn]: the types and the client interface of src/minion/ovsdb/ovsdb.go as
      a class, and the laws the network code relies on.  [Ovsdb]: the methods of
      the client, as the transactions they send.  [OvsServer]: a database server
      after RFC 7047, and the proof that client and server keep those laws.
    - [Acl]: src/minion/network/acl.go.  [Network]: network.go, load_balancer.go
      and route.go of src/minion/network.  [Openflow]:
      src/minion/network/openflow.
    - [Etcd]: src/minion/etcd.  [EtcdSync]: its synchronisation of tables.
      [EtcdElect]: the election as a step relation of several masters.
    - [Kube]: src/minion/kubernetes.  [KubeSpec]: the laws of the API server,
      placement, node labels and secrets.  [KubeDeploy]: pods, and bringing
      named objects in line.  [KubeRound]: a turn of the deploying loop.
      [KubeStatus]: a turn of the status loop.  [KubeLoops]: the theorems about
      the loops, and an API server that satisfies the laws.
    - [Docker]: src/minion/docker/docker.go.  [Supervisor]:
      src/minion/supervisor.  [SupervisorSpec]: the Docker daemon's laws and
      joinContainers.  [SupervisorRounds]: the rounds of a master and a worker.
      [SupervisorSim]: a daemon that satisfies the laws, and the theorems.
      [Registry]: src/minion/registry/registry.go with its goroutines.
      [RegistrySpec], [RegistrySim]: the theorem on a round, and an instance.
    - [Credentials]: src/cloud/credentials.go.  [CredentialsSim]: an instance.
      [DaemonStart]: src/cli/command/daemon.go and src/connection/tls/io/io.go.
    - [Cni]: src/minion/network/cni/cni.go.  [CniSpec]: links, namespaces and
      ovs-vsctl, and the theorem.  [CniSim]: a simulated host.
    - [Api]: src/api (common.go, client, util, server).  [ApiSpec]: a network of
      servers and the theorems.  [Cli]: the commands of src/cli/command but for
      show.go ([Show]), debug.go ([DebugLogs]) and inspect ([Inspect]).  [CliSpec]: the theorems on run
      and stop.  [Counters]: src/counter/counter.go.  [ApiSim]: a simulated
      network, terminal and file system.

    ** What the theorems show

    - The joins match every element at most once, lose nothing and strictly
      prefer lower scores ([Join]).
    - The database operations implement finite maps ([DbSpec]); transactions
      keep it well-formed, leave other tables alone and notify every watcher
      ([DbTxn]); the sorted lock order excludes deadlock, while registering a
      trigger can block for ever ([DbConc]).
    - A round of the policy engine makes the tables match the blueprint and is
      idempotent ([Engine]).
    - The machine table follows the provider's listing, and the plan computed
      from the blueprint boots and stops exactly the difference ([CloudJoin]);
      whatever a provider answers, a round of a cloud returns and stays in its
      region ([Cloud]); waiting ends ([Backoff]).  The goroutines of the clouds follow
      the namespace and miss no change of the database ([CloudLoop]).
    - Each provider makes its firewall exactly the ACLs it is given, Amazon and
      DigitalOcean boot exactly the machines asked for, Amazon stops exactly
      them, and Google assigns free floating IPs ([Ec2Spec], [Ec2Machines],
      [GceSpec], [GceIps], [DropletsSpec]); Vagrant machines that are booted are
      listed, and gone when stopped ([VagrantSpec]).
    - The foreman keeps one thread per machine and sends only configurations
      that are ready ([Foreman]); what a minion answers to one that was set is
      determined field by field ([MinionServer]).
    - Addresses are allocated in the subnet, without duplicates ([Ip]); iptables
      chains, DNS answers and OVN's switches, load balancers and ACLs end up
      as the tables say ([NatRound], [Dns], [Network]), and the OVSDB client
      does what [Network] relies on ([OvsServer]).  The OpenFlow tables forward
      packets as the package's documentation says ([Openflow]).
    - Of the masters, no two hold the leader's lease at a time ([EtcdElect]); a
      minion's tables follow the leader's, and stay as they are when etcd cannot
      be read ([EtcdSync]).
    - The cluster runs the containers of the database, where the placement rules
      allow it, and their status is read back; pods do not depend on Go's map
      orders; secrets can be read after they are set ([KubeLoops]).
    - The system containers of a machine converge to those of its role and stay
      so ([SupervisorSim]); every image is built or tried again, under every
      interleaving of the builders ([RegistrySpec]).
    - A round installs the credentials that machines lack ([Credentials]), and
      the daemon's own survive restarts ([DaemonStart]).  A
      pod is connected or an error returned, and removing it undoes whatever
      connecting it did ([CniSpec]).
    - A deployment is checked and becomes the blueprint, and queries about the
      cluster are answered by its leader ([ApiSpec]); [kelda run] deploys only
      with consent and [kelda stop] empties the blueprint ([CliSpec]); every
      container is shown once, on its machine ([Show]); a debug archive without
      error is complete ([DebugLogs]); the picture of a blueprint is exact
      ([Inspect]).
    - What counters show, under every interleaving ([Counters]).
    - Where the code does not do what it means to, a theorem says what it does:
      blocked trigger registration ([DbConc]), the order of machine scores
      ([CloudJoin]), masquerading and blacklisted addresses ([NatRules], [Ip]),
      floating IPs that Google never moves ([GceIps]), colliding patch ports and
      lost switch ports ([Openflow], [OvsServer]),
      deployments deleted because of one bad volume and config maps that
      collide ([KubeLoops]), keys that are never installed ([Credentials], [DaemonStart]),
      machines destroyed elsewhere ([VagrantSpec]), a
      provider that crashes the daemon ([ApiSpec]), errors lost between
      goroutines ([Show]), logs removed before they are archived ([DebugLogs]).

    ** Conventions, bounds and fuel

    A Go function that may panic returns an [outcome]; an [error] result is a
    [result]; code that reads or writes shared state is in [M S A], a function
    from a state to an [outcome].  [wp m s Q] says that [m] returns from [s]
    (it does not panic) with a result and a state that satisfy [Q], so theorems
    about [wp] include totality.  Go's map iteration order is a parameter
    ([MapOrder]) that may answer differently on every loop (a tick counts
    them).  Go's [int] is an unbounded [Z] except where the code computes on
    fixed-width values (IPv4 addresses and masks are 32 bit).  Nil and empty
    slices are identified, and so are nil and empty maps.  Durations are
    nanoseconds in [Z].  Lower-casing is that of ASCII.  Logging, and the
    incrementing of counters by the other components, are left out.

    Loops that are not structural have fuel.  [BackoffWaitFor] gets one step
    per second of the timeout plus two, 302 for the waits of five minutes and
    182 for Google's of three, which its theorem shows to be enough because each round sleeps at least a
    second.  [allocateIP] gets two more steps than the subnet has used
    addresses, since each step but the last finds a used one.  The loops over
    pages of a DigitalOcean listing get as much as there are pages.  [ruleKey]'s
    options get the length of the rule, IPv4 parsing four octets, hexadecimal
    printing 16 digits.  A round of the registry gets five steps per image, which
    its theorem shows to be enough under every scheduler.  The loops of [setupWorker]
    retry until a command succeeds and get the number of tries as fuel, and so does
    [waitForConfig].

    ** What is outside

    Code outside src/ is a parameter: the providers as the cloud loop sees them
    ([CloudWorld]), the clients of EC2, GCE and DigitalOcean ([EC2Client],
    [GCEClient], [DOClient]), the execution of the boot script's template, the
    order in which goroutines' results arrive ([Schedule]), the gRPC
    connection to a minion ([MinionWorld]), iptables ([IPTables]), the OVSDB
    connection ([OvsTransact]), ovs-ofctl ([Ofctl]), the etcd client
    ([KeysAPI]), JSON ([JSON], [JsonRows]), the Kubernetes API server ([KubeAPI]),
    the Docker daemon ([DockerAPI]), the host of a minion ([Host]), SFTP ([Sftp]),
    netlink and ovs-vsctl ([Nl], [RouteTable]), the vagrant command ([VagrantHost]),
    the daemon's files and key generation ([DaemonHost]), the API's connections ([ApiNet]), SSH ([Ssh]), the
    user's files and commands ([LocalHost]), the scheduler of the builders, sorting
    algorithms that are not stable ([GoSort]), SHA-1 and SHA-256, IPv6 parsing,
    name resolution and random numbers.  What the code relies on is stated as
    laws of a class, with a simulated instance where a theorem uses them.

    Not modelled: TLS, SSH and netlink (library calls and I/O); parsing of
    command-line flags, the start of the minion's goroutines and the interactive
    configuration of a provider (process glue); the JSON-RPC and watch
    connections; generated code; and the endless loops around the modelled rounds
    other than those of the clouds. *)

From stdpp Require Export prelude gmap strings list fin_maps sorting pretty.

#[export] Set Default Goal Selector "!".

(** ** Go outcomes, errors and the state monad

    A Go call either returns or panics; a function with an [error] result
    returns a value or an error message. *)

Inductive outcome (A : Type) : Type :=
  | Ok (a : A)
  | Panic (msg : string).
Arguments Ok {_} _.
Arguments Panic {_} _.

Inductive result (A : Type) : Type :=
  | Val (a : A)
  | Err (msg : string).
Arguments Val {_} _.
Arguments Err {_} _.
#[export] Instance result_eq_dec {A} `{EqDecision A} : EqDecision (result A).
Proof. solve_decision. Defined.

#[export] Instance outcome_ret : MRet outcome := @Ok.
#[export] Instance outcome_bind : MBind outcome := λ A B f m,
  match m with Ok a => f a | Panic e => Panic e end.

(** Code that reads and writes a state [S] and may panic. *)
Definition M (S A : Type) : Type := S → outcome (A * S).

#[export] Instance M_ret {S} : MRet (M S) := λ A a s, Ok (a, s).
#[export] Instance M_bind {S} : MBind (M S) := λ A B f m s,
  match m s with Ok (a, s') => f a s' | Panic e => Panic e end.

Definition panic {S A} (msg : string) : M S A := λ _, Panic msg.
Definition get {S} : M S S := λ s, Ok (s, s).
Definition put {S} (s : S) : M S unit := λ _, Ok ((), s).
Definition modify {S} (f : S → S) : M S unit := λ s, Ok ((), f s).

(** A value computed by code that may panic but has no state. *)
Definition lift {S A} (o : outcome A) : M S A := λ s,
  match o with Ok a => Ok (a, s) | Panic e => Panic e end.

(** [for _, x := range xs { f(x) }] *)
Fixpoint forM_ {S A} (xs : list A) (f : A → M S unit) : M S unit :=
  match xs with
  | [] => mret ()
  | x :: xs => f x ≫= λ _, forM_ xs f
  end.

(** A loop that appends one result per iteration. *)
Fixpoint mapM_st {S A B} (f : A → M S B) (xs : list A) : M S (list B) :=
  match xs with
  | [] => mret []
  | x :: xs => f x ≫= λ y, mapM_st f xs ≫= λ ys, mret (y :: ys)
  end.

Declare Scope go_scope.
Delimit Scope go_scope with go.
Open Scope go_scope.
Notation "'let!' x := m 'in' k" := (mbind (λ x, k) m)
  (at level 10, x pattern, m at level 100, k at level 200) : go_scope.
Notation "m ';;;' k" := (mbind (λ _, k) m)
  (at level 199, right associativity) : go_scope.

(** ** Early returns and pointers *)

(** [a, err := m; if err != nil { return err }] *)
Definition tryM {S A B} (m : M S (result A)) (k : A → M S (result B)) : M S (result B) :=
  let! r := m in match r with Val a => k a | Err e => mret (Err e) end.
Notation "'let?' x := m 'in' k" := (tryM m (λ x, k))
  (at level 10, x pattern, m at level 100, k at level 200) : go_scope.


(** [*ptr] *)
Definition deref {A} (ptr : option A) : outcome A :=
  match ptr with Some a => Ok a | None => Panic "nil pointer dereference" end.

(** ** Total-correctness reasoning

    [wp m s Q]: [m] run in [s] does not panic, and its result and final state
    satisfy [Q]. *)
Definition wp {S A} (m : M S A) (s : S) (Q : A → S → Prop) : Prop :=
  match m s with Ok (a, s') => Q a s' | Panic _ => False end.

Section wp.
Context {S : Type}.

Lemma wp_ret {A} (a : A) (s : S) Q : Q a s → wp (mret a) s Q.
Proof. done. Qed.

Lemma wp_bind {A B} (m : M S A) (f : A → M S B) s Q :
  wp m s (λ a s', wp (f a) s' Q) → wp (m ≫= f) s Q.
Proof. unfold wp, mbind, M_bind. destruct (m s) as [[a s']|]; naive_solver. Qed.

Lemma wp_mono {A} (m : M S A) s (P Q : A → S → Prop) :
  wp m s P → (∀ a s', P a s' → Q a s') → wp m s Q.
Proof. unfold wp. destruct (m s) as [[a s']|]; naive_solver. Qed.

Lemma wp_and {A} (m : M S A) s (P Q : A → S → Prop) :
  wp m s P → wp m s Q → wp m s (λ a s', P a s' ∧ Q a s').
Proof. unfold wp. destruct (m s) as [[a s']|]; naive_solver. Qed.

Lemma wp_lift {A} (o : outcome A) (a : A) (s : S) Q :
  o = Ok a → Q a s → wp (lift o) s Q.
Proof. intros ->. done. Qed.

Lemma wp_run {A} (m : M S A) s Q :
  wp m s Q → ∃ a s', m s = Ok (a, s') ∧ Q a s'.
Proof. unfold wp. destruct (m s) as [[a s']|]; naive_solver. Qed.

Lemma wp_of_run {A} (m : M S A) s a s' (Q : A → S → Prop) :
  m s = Ok (a, s') → Q a s' → wp m s Q.
Proof. unfold wp. by intros ->. Qed.

(** Loop rule: an invariant over the processed prefix and the rest. *)
Lemma wp_forM {A} (f : A → M S unit) (I : list A → S → Prop) xs s Q :
  I xs s →
  (∀ x ys s, I (x :: ys) s → wp (f x) s (λ _ s', I ys s')) →
  (∀ s', I [] s' → Q () s') →
  wp (forM_ xs f) s Q.
Proof.
  intros HI Hstep HQ. revert s HI. induction xs as [|x xs IH]; intros s HI; simpl.
  - apply wp_ret; auto.
  - apply wp_bind. eapply wp_mono; [by apply Hstep|]. intros [] s' ?. auto.
Qed.

(** As [wp_forM], with the elements already processed as well. *)
Lemma wp_forM_prefix {A} (f : A → M S unit) (I : list A → S → Prop) xs s Q :
  I [] s →
  (∀ done x rest s, xs = done ++ x :: rest → I done s →
     wp (f x) s (λ _ s', I (done ++ [x]) s')) →
  (∀ s', I xs s' → Q () s') →
  wp (forM_ xs f) s Q.
Proof.
  intros HI Hstep HQ.
  apply (wp_forM f (λ ys s, ∃ done, xs = done ++ ys ∧ I done s)).
  - by exists [].
  - intros x ys s0 (dn & Hxs & Hdn).
    eapply wp_mono; [by eapply Hstep|]. intros [] s1 ?.
    exists (dn ++ [x]). by rewrite <-app_assoc.
  - intros s' (dn & -> & Hdn). rewrite app_nil_r in *. auto.
Qed.
End wp.

Lemma wp_try {S A B} (m : M S (result A)) (k : A → M S (result B)) s Q :
  wp m s (λ r s', match r with Val a => wp (k a) s' Q | Err e => Q (Err e) s' end) → wp (tryM m k) s Q.
Proof. intros Hm. unfold tryM. apply wp_bind. eapply wp_mono; [exact Hm|]. by intros [a|e] s' ?. Qed.

(** Code that works on one half of a state. *)
Definition onFst {S W A} (m : M S A) : M (S * W) A := λ st,
  match m st.1 with Ok (a, s) => Ok (a, (s, st.2)) | Panic e => Panic e end.
Definition onSnd {S W A} (m : M W A) : M (S * W) A := λ st,
  match m st.2 with Ok (a, w) => Ok (a, (st.1, w)) | Panic e => Panic e end.

Lemma wp_onFst {S W A} (m : M S A) (st : S * W) Q :
  wp m st.1 (λ a s, Q a (s, st.2)) → wp (onFst m) st Q.
Proof. unfold wp, onFst. by destruct (m st.1) as [[a s]|]. Qed.

Lemma wp_onSnd {S W A} (m : M W A) (st : S * W) Q :
  wp m st.2 (λ a w, Q a (st.1, w)) → wp (onSnd m) st Q.
Proof. unfold wp, onSnd. by destruct (m st.2) as [[a w]|]. Qed.

(** Step through the monadic structure of a goal [wp m s Q]. *)
Ltac wp_bind := apply wp_bind.
Ltac wp_ret := apply wp_ret.
Ltac wp_use lem := eapply wp_mono; [eapply lem|].

(** ** Map iteration order

    Go iterates over a map in an unspecified order that may differ from one
    loop to the next.  A [MapOrder] is a source of such orders: [range n m] is
    the order the [n]-th loop of a run sees.  Every theorem is stated for an
    arbitrary [MapOrder]. *)
Class MapOrder := {
  range : ∀ {K V} `{Countable K}, nat → gmap K V → list (K * V);
  range_perm : ∀ {K V} `{Countable K} n (m : gmap K V), range n m ≡ₚ map_to_list m;
}.

(** One particular order, used to run the model on concrete inputs. *)
#[export] Instance fixed_order : MapOrder | 100.
Proof.
  refine {| range := λ K V _ _ _ m, map_to_list m |}. done.
Defined.

Section range.
Context `{MapOrder} {K V : Type} `{Countable K}.
Implicit Types m : gmap K V.

Lemma elem_of_range n m k v : (k, v) ∈ range n m ↔ m !! k = Some v.
Proof. by rewrite range_perm, elem_of_map_to_list. Qed.

Lemma NoDup_range_fst n m : NoDup (range n m).*1.
Proof. rewrite range_perm. apply NoDup_fst_map_to_list. Qed.

Lemma range_vals n m x : x ∈ (range n m).*2 ↔ ∃ k, m !! k = Some x.
Proof.
  rewrite list_elem_of_fmap. split.
  - intros ([k v] & -> & Hin). exists k. by apply elem_of_range in Hin.
  - intros [k Hk]. exists (k, x). by rewrite elem_of_range.
Qed.
End range.

(** Go's [map[K]struct{}] as a set, in the order a loop sees it. *)
Definition range_set `{MapOrder} {K} `{Countable K} (n : nat) (X : gset K) : list K :=
  (range n (gset_to_gmap () X)).*1.

Lemma range_set_perm `{MapOrder} {K} `{Countable K} n (X : gset K) :
  range_set n X ≡ₚ elements X.
Proof.
  unfold range_set. rewrite range_perm.
  apply NoDup_Permutation; [apply NoDup_fst_map_to_list|apply NoDup_elements|].
  intros x. rewrite elem_of_elements, list_elem_of_fmap. split.
  - intros ([k []] & -> & Hin). apply elem_of_map_to_list, lookup_gset_to_gmap_Some in Hin.
    by destruct Hin.
  - intros Hx. exists (x, ()). split; [done|].
    by apply elem_of_map_to_list, lookup_gset_to_gmap_Some.
Qed.

Lemma elem_of_range_set `{MapOrder} {K} `{Countable K} n (X : gset K) x :
  x ∈ range_set n X ↔ x ∈ X.
Proof. by rewrite range_set_perm, elem_of_elements. Qed.

(** ** Lists *)

Section lists.
Context {A : Type}.
Implicit Types l k : list A.

Lemma filter_perm (P : A → Prop) `{∀ x, Decision (P x)} l k :
  l ≡ₚ k → filter P l ≡ₚ filter P k.
Proof. by intros ->. Qed.

Lemma filter_split (P : A → Prop) `{∀ x, Decision (P x)} l :
  l ≡ₚ filter P l ++ filter (λ x, ¬ P x) l.
Proof.
  induction l as [|x l IH]; [done|]. rewrite !filter_cons.
  destruct (decide (P x)) as [HP|HP].
  - rewrite (decide_False (P:=¬ P x)) by tauto. simpl. by rewrite <-IH.
  - rewrite (decide_True (P:=¬ P x)) by done. by rewrite <-Permutation_middle, <-IH.
Qed.

Lemma filter_all (P : A → Prop) `{∀ x, Decision (P x)} l :
  (∀ x, x ∈ l → P x) → filter P l = l.
Proof.
  induction l as [|x l IH]; intros HP; [done|].
  rewrite filter_cons_True by (apply HP; set_solver). f_equal. apply IH. set_solver.
Qed.

Lemma filter_first (P : A → Prop) `{∀ x, Decision (P x)} l k x :
  filter P l = x :: k → P x ∧ x ∈ l.
Proof. intros Hl. apply (list_elem_of_filter P). rewrite Hl. by left. Qed.

Lemma filter_nil_not (P : A → Prop) `{∀ x, Decision (P x)} l x :
  filter P l = [] → x ∈ l → ¬ P x.
Proof.
  intros Hl Hx HP. assert (x ∈ filter P l) as Hin by (by apply list_elem_of_filter).
  rewrite Hl in Hin. by apply elem_of_nil in Hin.
Qed.

Lemma filter_none (P : A → Prop) `{∀ x, Decision (P x)} l :
  (∀ x, x ∈ l → ¬ P x) → filter P l = [].
Proof.
  induction l as [|x l IH]; intros HP; [done|].
  rewrite filter_cons_False by (apply HP; set_solver). apply IH. set_solver.
Qed.

Lemma concat_perm (l k : list (list A)) : l ≡ₚ k → concat l ≡ₚ concat k.
Proof.
  induction 1 as [|x l k _ IH|x y l|l1 l2 l3 _ IH1 _ IH2]; simpl; [done|by rewrite IH| |by rewrite IH1].
  rewrite !app_assoc. apply Permutation_app_tail, Permutation_app_comm.
Qed.

Lemma elem_of_concat (x : A) (ls : list (list A)) : x ∈ concat ls ↔ ∃ l, l ∈ ls ∧ x ∈ l.
Proof. induction ls as [|l ls IH]; simpl; [set_solver|]. rewrite elem_of_app, IH. set_solver. Qed.

Lemma NoDup_fmap_inj_on {B} (f : A → B) l :
  NoDup l → (∀ x y, x ∈ l → y ∈ l → f x = f y → x = y) → NoDup (f <$> l).
Proof.
  induction 1 as [|x l Hx Hl IH]; intros Hinj; csimpl; constructor.
  - intros (y & Hf & Hy)%list_elem_of_fmap. apply Hx.
    replace x with y; [done|]. symmetry. apply Hinj; set_solver.
  - apply IH. intros ????. apply Hinj; set_solver.
Qed.

Lemma NoDup_fmap_elem {B} (f : A → B) l x y :
  NoDup (f <$> l) → x ∈ l → y ∈ l → f x = f y → x = y.
Proof.
  induction l as [|z l IH]; csimpl; [set_solver|].
  rewrite NoDup_cons. intros [Hz Hnd] Hx Hy Hf.
  apply elem_of_cons in Hx as [->|Hx]; apply elem_of_cons in Hy as [->|Hy];
    [done| | |by apply IH].
  - destruct Hz. rewrite Hf. by apply list_elem_of_fmap_2.
  - destruct Hz. rewrite <-Hf. by apply list_elem_of_fmap_2.
Qed.

Lemma filter_fmap {B} (P : B → Prop) `{∀ x, Decision (P x)} (g : A → B) (l : list A) :
  filter P (g <$> l) = g <$> filter (λ x, P (g x)) l.
Proof.
  induction l as [|x l IH]; [done|]. csimpl. rewrite !filter_cons, IH. by destruct (decide _).
Qed.

Lemma Forall2_impl_l {B} (P Q : A → B → Prop) l (k : list B) :
  Forall2 P l k → (∀ x y, x ∈ l → P x y → Q x y) → Forall2 Q l k.
Proof. induction 1 as [|x y l k Hxy _ IH]; intros HPQ; constructor; [|apply IH; intros]; apply HPQ; set_solver. Qed.
End lists.

(** ** Automation *)

Create HintDb kelda.
#[export] Hint Resolve wp_ret : kelda.

Tactic Notation "case_bool" "as" simple_intropattern(pat) :=
  match goal with
  | |- context [bool_decide ?P] => destruct (bool_decide_reflect P) as pat
  end.
Tactic Notation "case_bool" := case_bool as [?|?].

(** Evaluate the boolean tests that the hypotheses decide. *)
Ltac solve_bd := first [done | congruence | lia | tauto].
Ltac simpl_bd :=
  repeat match goal with
  | |- context [bool_decide ?P] =>
    first [ rewrite (bool_decide_eq_true_2 P) by solve_bd
          | rewrite (bool_decide_eq_false_2 P) by solve_bd ]
  end.

(** Prove a decidable closed goal by evaluation. *)
Ltac vm_decide :=
  match goal with
  | |- ?P => let d := constr:(_ : Decision P) in
             refine (@bool_decide_unpack P d _); vm_compute; exact I
  end.
