(* ===== verification/Join.v ===== *)
(** * Package join: matching the elements of two slices

    Models [src/join/join.go]: [Join], the greedy score-driven matching the
    cloud code uses to pair machines, and [HashJoin], the key-driven join the
    minion uses to reconcile desired state with the database, OVSDB and
    iptables.  Both are polymorphic here as they are over [interface{}] in Go;
    the indices, the two "paired" sets and the list of scored pairs are the
    ones of the source. *)

From S2P Require Import Prelude.

(** ** Stable sort

    [sort.SliceStable] with the comparison [key x < key y]: an element goes
    after the ones that are not greater than it. *)
Section stable_sort.
Context {A : Type} (key : A → Z).

Fixpoint insert_stable (x : A) (l : list A) : list A :=
  match l with
  | [] => [x]
  | y :: l' => if bool_decide (key x < key y)%Z then x :: y :: l'
               else y :: insert_stable x l'
  end.

Definition SliceStable (l : list A) : list A :=
  foldl (λ acc x, insert_stable x acc) [] l.

Lemma insert_stable_perm x l : insert_stable x l ≡ₚ x :: l.
Proof.
  induction l as [|y l IH]; simpl; [done|]. case_bool; [done|].
  rewrite IH. by constructor.
Qed.

Lemma SliceStable_perm l : SliceStable l ≡ₚ l.
Proof.
  unfold SliceStable.
  assert (∀ acc, foldl (λ acc x, insert_stable x acc) acc l ≡ₚ acc ++ l) as H; [|by rewrite H].
  induction l as [|x l IH]; intros acc; simpl; [by rewrite app_nil_r|].
  rewrite IH, insert_stable_perm. by rewrite <-Permutation_middle.
Qed.

Let le (x y : A) : Prop := (key x ≤ key y)%Z.

Lemma insert_stable_sorted x l :
  StronglySorted le l → StronglySorted le (insert_stable x l).
Proof.
  induction 1 as [|y l Hl IH Hy]; simpl; [repeat constructor|].
  case_bool.
  - constructor; [by constructor|]. constructor; [unfold le; lia|].
    eapply Forall_impl; [exact Hy|]. unfold le. intros; lia.
  - constructor; [done|]. rewrite insert_stable_perm. constructor; [unfold le; lia|done].
Qed.

Lemma SliceStable_sorted l : StronglySorted le (SliceStable l).
Proof.
  unfold SliceStable.
  assert (∀ acc, StronglySorted le acc →
    StronglySorted le (foldl (λ acc x, insert_stable x acc) acc l)) as H;
    [|apply H; constructor].
  induction l as [|x l IH]; intros acc Hacc; simpl; [done|].
  by apply IH, insert_stable_sorted.
Qed.
End stable_sort.

(** ** Join *)

Record scoredPair := ScoredPair { sp_left : nat; sp_right : nat; sp_score : Z }.

Record joinState (A B : Type) := JoinState {
  js_pairs : list (A * B);
  pairedLefts : gset nat;
  pairedRights : gset nat;
  scoredPairs : list scoredPair;
}.
Arguments JoinState {_ _} _ _ _ _.
Arguments js_pairs {_ _} _.
Arguments pairedLefts {_ _} _.
Arguments pairedRights {_ _} _.
Arguments scoredPairs {_ _} _.

Section Join.
Context {A B : Type} (score : A → B → outcome Z).

(** The body of [OuterPairing] for one left element: [rs] is the rest of the
    right slice, starting at index [j]. *)
Fixpoint Join_inner (i : nat) (lVal : A) (j : nat) (rs : list B)
    (st : joinState A B) : outcome (joinState A B) :=
  match rs with
  | [] => Ok st
  | rVal :: rs' =>
    if bool_decide (j ∈ pairedRights st) then Join_inner i lVal (S j) rs' st
    else
      let! s := score lVal rVal in
      if bool_decide (s = 0)%Z then
        Ok (JoinState (js_pairs st ++ [(lVal, rVal)])
              ({[i]} ∪ pairedLefts st) ({[j]} ∪ pairedRights st) (scoredPairs st))
      else if bool_decide (0 < s)%Z then
        Join_inner i lVal (S j) rs'
          (JoinState (js_pairs st) (pairedLefts st) (pairedRights st)
             (scoredPairs st ++ [ScoredPair i j s]))
      else Join_inner i lVal (S j) rs' st
  end.

Fixpoint Join_outer (i : nat) (ls : list A) (rs : list B)
    (st : joinState A B) : outcome (joinState A B) :=
  match ls with
  | [] => Ok st
  | lVal :: ls' =>
    let! st' := Join_inner i lVal 0 rs st in Join_outer (S i) ls' rs st'
  end.

(** The second loop: collect the best pairs in the sorted order. *)
Fixpoint Join_collect (ls : list A) (rs : list B) (sps : list scoredPair)
    (st : joinState A B) : outcome (joinState A B) :=
  match sps with
  | [] => Ok st
  | sp :: sps' =>
    if bool_decide (size (pairedLefts st) = length ls)
       || bool_decide (size (pairedRights st) = length rs) then Ok st
    else if bool_decide (sp_left sp ∈ pairedLefts st) then Join_collect ls rs sps' st
    else if bool_decide (sp_right sp ∈ pairedRights st) then Join_collect ls rs sps' st
    else
      match ls !! sp_left sp, rs !! sp_right sp with
      | Some lVal, Some rVal =>
        Join_collect ls rs sps'
          (JoinState (js_pairs st ++ [(lVal, rVal)])
             ({[sp_left sp]} ∪ pairedLefts st) ({[sp_right sp]} ∪ pairedRights st)
             (scoredPairs st))
      | _, _ => Panic "reflect: slice index out of range"
      end
  end.

(** The elements whose index (counted from [i]) was not paired, in order. *)
Fixpoint lonely {T} (paired : gset nat) (i : nat) (l : list T) : list T :=
  match l with
  | [] => []
  | x :: l' => if bool_decide (i ∈ paired) then lonely paired (S i) l'
               else x :: lonely paired (S i) l'
  end.

Definition Join (lSlice : list A) (rSlice : list B)
    : outcome (list (A * B) * list A * list B) :=
  let! st := Join_outer 0 lSlice rSlice (JoinState [] ∅ ∅ []) in
  let! st' := Join_collect lSlice rSlice (SliceStable sp_score (scoredPairs st)) st in
  Ok (js_pairs st', lonely (pairedLefts st') 0 lSlice, lonely (pairedRights st') 0 rSlice).
End Join.

(** ** What Join computes

    The matching is described by [ms], the list of index pairs in the order in
    which they were made. *)
Section Join_spec.
Context {A B : Type} (score : A → B → outcome Z) (f : A → B → Z).
Context (ls : list A) (rs : list B).

(** The score of the elements at two indices. *)
Definition F (i j : nat) : Z :=
  match ls !! i, rs !! j with Some a, Some b => f a b | _, _ => (-1)%Z end.

Record matching (ms : list (nat * nat)) (st : joinState A B) : Prop := {
  mt_vals : Forall2 (λ ij ab, ls !! ij.1 = Some ab.1 ∧ rs !! ij.2 = Some ab.2)
              ms (js_pairs st);
  mt_lefts : pairedLefts st = list_to_set ms.*1;
  mt_rights : pairedRights st = list_to_set ms.*2;
  mt_nodup1 : NoDup ms.*1;
  mt_nodup2 : NoDup ms.*2;
  mt_sps : Forall (λ sp, F (sp_left sp) (sp_right sp) = sp_score sp ∧ (0 < sp_score sp)%Z)
             (scoredPairs st);
}.

(** The pair [(i, j)] of score [s] is not a better choice for both sides. *)
Definition settled (ms : list (nat * nat)) (i j : nat) (s : Z) : Prop :=
  (∃ j', (i, j') ∈ ms ∧ F i j' ≤ s)%Z ∨ (∃ i', (i', j) ∈ ms ∧ F i' j ≤ s)%Z.

(** Phase-one coverage of a pair of indices. *)
Definition covered (st : joinState A B) (i j : nat) : Prop :=
  i ∈ pairedLefts st ∨ j ∈ pairedRights st ∨ (F i j < 0)%Z ∨
  ScoredPair i j (F i j) ∈ scoredPairs st.

Lemma settled_app ms ms' i j s : settled ms i j s → settled (ms ++ ms') i j s.
Proof. unfold settled. set_solver. Qed.

Lemma F_lookup i j a b : ls !! i = Some a → rs !! j = Some b → F i j = f a b.
Proof. unfold F. by intros -> ->. Qed.

(** Adding a pair of unpaired indices keeps a matching. *)
Lemma matching_snoc ms st i j a b :
  matching ms st → ls !! i = Some a → rs !! j = Some b →
  i ∉ pairedLefts st → j ∉ pairedRights st →
  matching (ms ++ [(i, j)])
    (JoinState (js_pairs st ++ [(a, b)]) ({[i]} ∪ pairedLefts st)
       ({[j]} ∪ pairedRights st) (scoredPairs st)).
Proof.
  intros [Hv Hl Hr H1 H2 Hs] Hi Hj Hil Hjr. rewrite Hl in Hil. rewrite Hr in Hjr.
  split; simpl; rewrite ?fmap_app; simpl.
  - apply Forall2_app; auto.
  - rewrite Hl, list_to_set_app_L. set_solver.
  - rewrite Hr, list_to_set_app_L. set_solver.
  - apply NoDup_app. split_and!; [done|set_solver|apply NoDup_singleton].
  - apply NoDup_app. split_and!; [done|set_solver|apply NoDup_singleton].
  - done.
Qed.

(** The loops only add to the paired sets and to the scored pairs. *)
Record extends (st st' : joinState A B) : Prop := {
  ext_l : pairedLefts st ⊆ pairedLefts st';
  ext_r : pairedRights st ⊆ pairedRights st';
  ext_s : scoredPairs st ⊆ scoredPairs st';
}.

Lemma extends_trans st1 st2 st3 : extends st1 st2 → extends st2 st3 → extends st1 st3.
Proof. intros [] []. split; set_solver. Qed.

Lemma extends_refl st : extends st st.
Proof. by split. Qed.

Lemma covered_mono st st' i j : extends st st' → covered st i j → covered st' i j.
Proof. intros []. unfold covered. set_solver. Qed.

Definition zeros (ms : list (nat * nat)) : Prop := ∀ i j, (i, j) ∈ ms → F i j = 0%Z.

Lemma drop_cons_lookup {T} (l : list T) j x l' :
  drop j l = x :: l' → l !! j = Some x ∧ drop (S j) l = l'.
Proof.
  intros H. split.
  - rewrite <-(Nat.add_0_r j), <-lookup_drop, H. done.
  - rewrite <-Nat.add_1_r, <-drop_drop, H. done.
Qed.

Lemma drop_nil_length {T} (l : list T) j : drop j l = [] → length l ≤ j.
Proof. intros H. apply (f_equal length) in H. rewrite length_drop in H. simpl in H. lia. Qed.

Context (Hscore : ∀ a b, a ∈ ls → b ∈ rs → score a b = Ok (f a b)).

(** One left element of the first loop. *)
Lemma Join_inner_spec i a j rs' st ms :
  ls !! i = Some a → drop j rs = rs' → matching ms st → zeros ms →
  i ∉ pairedLefts st → (∀ j', j' < j → covered st i j') →
  ∃ st' ms', Join_inner score i a j rs' st = Ok st' ∧ matching ms' st' ∧ zeros ms' ∧
    extends st st' ∧ pairedLefts st' ⊆ {[i]} ∪ pairedLefts st ∧
    (∀ j', j' < length rs → covered st' i j').
Proof.
  intros Hi. revert j st. induction rs' as [|b rs' IH]; intros j st Hdrop Hm Hz Hil Hcov; simpl.
  { exists st, ms. apply drop_nil_length in Hdrop.
    split_and!; auto using extends_refl with lia. set_solver. }
  destruct (drop_cons_lookup _ _ _ _ Hdrop) as [Hj Hdrop'].
  pose proof (F_lookup _ _ _ _ Hi Hj) as HF.
  case_bool as [Hp|Hp].
  { apply IH; auto. intros j' Hj'. destruct (decide (j' = j)) as [->|]; [|apply Hcov; lia].
    right; left; done. }
  rewrite Hscore by (apply list_elem_of_lookup; eauto). simpl.
  case_bool as [H0|H0]; [|case_bool as [Hpos|Hneg]].
  - eexists _, (ms ++ [(i, j)]). split_and!; [done|by apply matching_snoc|..].
    + intros i' j' [?|[= -> ->]%list_elem_of_singleton]%elem_of_app; [auto|congruence].
    + split; simpl; set_solver.
    + simpl. set_solver.
    + intros j' _. left. simpl. set_solver.
  - destruct (IH (S j) (JoinState (js_pairs st) (pairedLefts st) (pairedRights st)
             (scoredPairs st ++ [ScoredPair i j (f a b)]))) as (st' & ms' & Hst' & Hm' & Hz' & Hext & Hsub & Hc);
      auto.
    + destruct Hm; split; simpl; auto. apply Forall_app; split; [done|].
      repeat constructor; simpl; [congruence|done].
    + intros j' Hj'. destruct (decide (j' = j)) as [->|].
      * right; right; right. simpl. rewrite HF. set_solver.
      * eapply covered_mono; [|apply Hcov; lia]. split; simpl; set_solver.
    + exists st', ms'. split_and!; auto. eapply extends_trans; [|done]. split; simpl; set_solver.
  - apply IH; auto. intros j' Hj'. destruct (decide (j' = j)) as [->|]; [|apply Hcov; lia].
    right; right; left. lia.
Qed.

(** The first loop: it makes only matches of score zero, and covers every pair. *)
Lemma Join_outer_spec i ls' st ms :
  drop i ls = ls' → matching ms st → zeros ms →
  (∀ i', i ≤ i' → i' ∉ pairedLefts st) →
  (∀ i' j', i' < i → j' < length rs → covered st i' j') →
  ∃ st' ms', Join_outer score i ls' rs st = Ok st' ∧ matching ms' st' ∧ zeros ms' ∧
    (∀ i' j', i' < length ls → j' < length rs → covered st' i' j').
Proof.
  revert i st ms. induction ls' as [|a ls' IH]; intros i st ms Hdrop Hm Hz Hil Hcov; simpl.
  { exists st, ms. apply drop_nil_length in Hdrop. split_and!; auto with lia. }
  destruct (drop_cons_lookup _ _ _ _ Hdrop) as [Hi Hdrop'].
  destruct (Join_inner_spec i a 0 rs st ms) as (st1 & ms1 & -> & Hm1 & Hz1 & He & Hsub & Hc);
    auto with lia.
  simpl. apply (IH _ _ ms1); auto.
  - intros i' Hi'. assert (i' ∉ pairedLefts st) by (apply Hil; lia).
    assert (i' ≠ i) by lia. set_solver.
  - intros i' j' Hi' Hj'. destruct (decide (i' = i)) as [->|]; [auto|].
    eapply covered_mono; [done|]. apply Hcov; lia.
Qed.

(** When as many lefts are paired as there are, each of them is. *)
Lemma all_paired (ps : list nat) (n i : nat) :
  NoDup ps → (∀ p, p ∈ ps → p < n) → length ps = n → i < n → i ∈ ps.
Proof.
  intros Hnd Hlt Hlen Hi. destruct (decide (i ∈ ps)) as [|Hni]; [done|].
  assert (length (i :: ps) ≤ length (seq 0 n)) as Hle.
  { apply submseteq_length, NoDup_submseteq; [by constructor|].
    intros p [->|Hp]%elem_of_cons; apply elem_of_seq; [lia|]. apply Hlt in Hp. lia. }
  rewrite length_seq in Hle. simpl in Hle. lia.
Qed.

Lemma matching_bounds ms st ij :
  matching ms st → ij ∈ ms → ij.1 < length ls ∧ ij.2 < length rs.
Proof.
  intros [Hv _ _ _ _ _] [k Hk]%list_elem_of_lookup.
  destruct (Forall2_lookup_l _ _ _ _ _ Hv Hk) as (ab & _ & Ha & Hb).
  by split; eapply lookup_lt_Some.
Qed.

Lemma paired_size_l ms st i :
  matching ms st → size (pairedLefts st) = length ls → i < length ls → i ∈ ms.*1.
Proof.
  intros Hm Hsz Hi. apply (all_paired _ (length ls)); [by apply Hm|..|done].
  - intros p (ij & -> & Hin)%list_elem_of_fmap. by eapply matching_bounds in Hin as [].
  - by rewrite <-Hsz, (mt_lefts _ _ Hm), size_list_to_set by apply Hm.
Qed.

Lemma paired_size_r ms st j :
  matching ms st → size (pairedRights st) = length rs → j < length rs → j ∈ ms.*2.
Proof.
  intros Hm Hsz Hj. apply (all_paired _ (length rs)); [by apply Hm|..|done].
  - intros p (ij & -> & Hin)%list_elem_of_fmap. by eapply matching_bounds in Hin as [].
  - by rewrite <-Hsz, (mt_rights _ _ Hm), size_list_to_set by apply Hm.
Qed.

(** Every pair made so far scores at most [s]. *)
Definition below (ms : list (nat * nat)) (s : Z) : Prop :=
  ∀ i j, (i, j) ∈ ms → (F i j ≤ s)%Z.

Definition nonneg (ms : list (nat * nat)) : Prop := ∀ i j, (i, j) ∈ ms → (0 ≤ F i j)%Z.

Lemma settled_left ms i j s : below ms s → i ∈ ms.*1 → settled ms i j s.
Proof. intros Hb ([i' j'] & -> & Hin)%list_elem_of_fmap. left. eauto. Qed.

Lemma settled_right ms i j s : below ms s → j ∈ ms.*2 → settled ms i j s.
Proof. intros Hb ([i' j'] & -> & Hin)%list_elem_of_fmap. right. eauto. Qed.

Lemma F_pos_lookup i j : (0 ≤ F i j)%Z → is_Some (ls !! i) ∧ is_Some (rs !! j).
Proof. unfold F. destruct (ls !! i), (rs !! j); simpl; first [by eauto|lia]. Qed.

Lemma F_pos_lt i j : (0 ≤ F i j)%Z → i < length ls ∧ j < length rs.
Proof. intros [? ?]%F_pos_lookup. by rewrite <-!lookup_lt_is_Some. Qed.

(** The second loop: it settles every scored pair it is given. *)
Lemma Join_collect_spec sps st ms :
  StronglySorted (λ x y, (sp_score x ≤ sp_score y)%Z) sps →
  Forall (λ sp, F (sp_left sp) (sp_right sp) = sp_score sp ∧ (0 < sp_score sp)%Z) sps →
  matching ms st → nonneg ms → Forall (λ sp, below ms (sp_score sp)) sps →
  ∃ st' ms', Join_collect ls rs sps st = Ok st' ∧ matching ms' st' ∧ nonneg ms' ∧
    ms `prefix_of` ms' ∧
    (∀ sp, sp ∈ sps → settled ms' (sp_left sp) (sp_right sp) (sp_score sp)).
Proof.
  intros Hsort. revert st ms.
  induction Hsort as [|sp sps Hsort IH Hle]; intros st ms Hsps Hm Hnn Hb; simpl.
  { exists st, ms. split_and!; auto. set_solver. }
  apply Forall_cons in Hsps as [[HF Hpos] Hsps]. apply Forall_cons in Hb as [Hb0 Hb].
  destruct (F_pos_lt (sp_left sp) (sp_right sp)) as [Hi Hj]; [lia|].
  destruct (bool_decide _ || bool_decide _) eqn:Hfull.
  { exists st, ms. split_and!; [done..|].
    assert (∀ sp', sp' ∈ sp :: sps → below ms (sp_score sp') ∧
      sp_left sp' < length ls ∧ sp_right sp' < length rs) as Hall.
    { intros sp' [->|Hin]%elem_of_cons; [auto|]. rewrite Forall_forall in Hb, Hsps.
      destruct (Hsps _ Hin). split; [auto|]. apply F_pos_lt; lia. }
    intros sp' (Hb' & ? & ?)%Hall.
    apply orb_true_iff in Hfull as [Hf%bool_decide_eq_true|Hf%bool_decide_eq_true].
    - apply settled_left, (paired_size_l _ st); auto.
    - apply settled_right, (paired_size_r _ st); auto. }
  assert (∀ st1 ms1, matching ms1 st1 → nonneg ms1 → ms `prefix_of` ms1 →
    Forall (λ sp, below ms1 (sp_score sp)) sps →
    settled ms1 (sp_left sp) (sp_right sp) (sp_score sp) →
    ∃ st' ms', Join_collect ls rs sps st1 = Ok st' ∧ matching ms' st' ∧ nonneg ms' ∧
      ms `prefix_of` ms' ∧
      (∀ sp', sp' ∈ sp :: sps → settled ms' (sp_left sp') (sp_right sp') (sp_score sp')))
    as Hnext.
  { intros st1 ms1 Hm1 Hnn1 Hp1 Hb1 Hs1.
    destruct (IH st1 ms1) as (st' & ms' & Hst' & Hm' & Hnn' & Hp' & Hs'); auto.
    exists st', ms'. split_and!; auto; [by etrans|].
    intros sp' [->|?]%elem_of_cons; [|auto].
    destruct Hp' as [k ->]. by apply settled_app. }
  case_bool as [Hl|Hl]; [|case_bool as [Hr|Hr]].
  - apply (Hnext st ms); auto. apply settled_left; [done|].
    rewrite (mt_lefts _ _ Hm) in Hl. by apply elem_of_list_to_set in Hl.
  - apply (Hnext st ms); auto. apply settled_right; [done|].
    rewrite (mt_rights _ _ Hm) in Hr. by apply elem_of_list_to_set in Hr.
  - destruct (F_pos_lookup (sp_left sp) (sp_right sp)) as [[a Ha] [b Hb']]; [lia|].
    rewrite Ha, Hb'. apply (Hnext _ (ms ++ [(sp_left sp, sp_right sp)])).
    + by apply matching_snoc.
    + intros i j [?|[= -> ->]%list_elem_of_singleton]%elem_of_app; [auto|lia].
    + by eexists.
    + rewrite Forall_forall in Hb, Hle |- *. intros sp' Hin i j.
      intros [?|[= -> ->]%list_elem_of_singleton]%elem_of_app; [by apply (Hb _ Hin)|].
      rewrite HF. by apply Hle.
    + left. exists (sp_right sp). rewrite HF. split; [set_solver|done].
Qed.

(** Everything there is to know about [Join], over indices. *)
Lemma Join_matching :
  ∃ st ms, Join score ls rs =
      Ok (js_pairs st, lonely (pairedLefts st) 0 ls, lonely (pairedRights st) 0 rs) ∧
    matching ms st ∧ nonneg ms ∧
    (∀ i j, (0 ≤ F i j)%Z → settled ms i j (F i j)).
Proof.
  destruct (Join_outer_spec 0 ls (JoinState [] ∅ ∅ []) []) as (st1 & ms1 & H1 & Hm1 & Hz1 & Hc1);
    [done|split; simpl; by constructor|intros ??; set_solver|set_solver|lia|].
  destruct (Join_collect_spec (SliceStable sp_score (scoredPairs st1)) st1 ms1)
    as (st2 & ms2 & H2 & Hm2 & Hnn2 & Hp2 & Hs2).
  - apply SliceStable_sorted.
  - rewrite SliceStable_perm. apply Hm1.
  - done.
  - intros i j Hin. by rewrite (Hz1 _ _ Hin).
  - rewrite SliceStable_perm. eapply Forall_impl; [apply (mt_sps _ _ Hm1)|].
    intros sp [_ Hpos] i j Hin. rewrite (Hz1 _ _ Hin). lia.
  - exists st2, ms2. split_and!; [|done|done|].
    { unfold Join. rewrite H1. simpl. by rewrite H2. }
    intros i j HF. destruct (F_pos_lt _ _ HF) as [Hi Hj].
    destruct Hp2 as [k ->].
    assert (below ms1 (F i j)) by (intros i' j' Hin; by rewrite (Hz1 _ _ Hin)).
    destruct (Hc1 i j Hi Hj) as [Hl|[Hr|[Hn|Hsp]]].
    + apply settled_app, settled_left; [done|].
      rewrite (mt_lefts _ _ Hm1) in Hl. by apply elem_of_list_to_set in Hl.
    + apply settled_app, settled_right; [done|].
      rewrite (mt_rights _ _ Hm1) in Hr. by apply elem_of_list_to_set in Hr.
    + lia.
    + apply (Hs2 (ScoredPair i j (F i j))). by rewrite SliceStable_perm.
Qed.
End Join_spec.

(** ** Consequences over values *)

Section lonely.
Context {T : Type}.
Implicit Types l vals : list T.

Lemma omap_lookup_seq l i l' :
  drop i l = l' → omap (λ k, l !! k) (seq i (length l')) = l'.
Proof.
  revert i. induction l' as [|x l' IH]; intros i Hd; simpl; [done|].
  destruct (drop_cons_lookup _ _ _ _ Hd) as [Hx Hd']. rewrite Hx. simpl. f_equal. auto.
Qed.

Lemma lonely_omap P l i l' :
  drop i l = l' →
  lonely P i l' = omap (λ k, l !! k) (filter (.∉ P) (seq i (length l'))).
Proof.
  revert i. induction l' as [|x l' IH]; intros i Hd; simpl; [done|].
  destruct (drop_cons_lookup _ _ _ _ Hd) as [Hx Hd'].
  rewrite filter_cons. case_bool as [Hin|Hni].
  - rewrite decide_False by auto. auto.
  - rewrite decide_True by auto. csimpl. rewrite Hx. f_equal. auto.
Qed.

(** The values at distinct indices and the lonely ones make up the slice. *)
Lemma lonely_perm (idxs : list nat) vals l :
  NoDup idxs → Forall2 (λ i v, l !! i = Some v) idxs vals →
  vals ++ lonely (list_to_set idxs) 0 l ≡ₚ l.
Proof.
  intros Hnd Hv.
  assert (vals = omap (λ k, l !! k) idxs) as ->.
  { clear Hnd. induction Hv as [|i v idxs vals Hi Hv IH]; csimpl; [done|].
    rewrite Hi. by f_equal. }
  rewrite (lonely_omap _ l 0 l) by done. rewrite <-omap_app.
  trans (omap (λ k, l !! k) (seq 0 (length l)));
    [|by rewrite omap_lookup_seq]. apply omap_Permutation.
  apply NoDup_Permutation; [|apply NoDup_seq|].
  - apply NoDup_app. split_and!; [done| |apply NoDup_filter, NoDup_seq].
    intros i Hi [Hn _]%list_elem_of_filter. set_solver.
  - intros i. rewrite elem_of_app, list_elem_of_filter, elem_of_list_to_set.
    destruct (decide (i ∈ idxs)) as [Hi|Hi]; [|tauto].
    split; [intros _|tauto]. apply elem_of_seq.
    apply list_elem_of_lookup in Hi as [k Hk].
    destruct (Forall2_lookup_l _ _ _ _ _ Hv Hk) as (v & _ & Hl).
    apply lookup_lt_Some in Hl. lia.
Qed.

Lemma elem_of_lonely P l i x : x ∈ lonely P i l → ∃ k, i ≤ k ∧ k ∉ P ∧ l !! (k - i) = Some x.
Proof.
  revert i. induction l as [|y l IH]; intros i; simpl; [set_solver|].
  assert (x ∈ lonely P (S i) l → ∃ k, i ≤ k ∧ k ∉ P ∧ (y :: l) !! (k - i) = Some x) as Hrec.
  { intros (k & Hk & HP & Hl)%IH. exists k. split_and!; [lia|done|].
    by replace (k - i) with (S (k - S i)) by lia. }
  case_bool as [Hin|Hni]; [done|].
  intros [->|?]%elem_of_cons; [|auto]. exists i. by rewrite Nat.sub_diag.
Qed.
End lonely.

Section Join_results.
Context {A B : Type} (score : A → B → outcome Z) (f : A → B → Z).
Context (ls : list A) (rs : list B).
Context (Hscore : ∀ a b, a ∈ ls → b ∈ rs → score a b = Ok (f a b)).

(** The facts clients use: no panic, a partition of both slices, only
    acceptable pairs, and no acceptable pair left apart. *)
Lemma Join_ok : ∃ pairs ll lr,
  Join score ls rs = Ok (pairs, ll, lr) ∧
  pairs.*1 ++ ll ≡ₚ ls ∧ pairs.*2 ++ lr ≡ₚ rs ∧
  (∀ a b, (a, b) ∈ pairs → 0 ≤ f a b)%Z ∧
  (∀ a b, a ∈ ll → b ∈ lr → f a b < 0)%Z.
Proof.
  destruct (Join_matching score f ls rs Hscore) as (st & ms & HJ & Hm & Hnn & Hset).
  eexists _, _, _. split; [exact HJ|]. destruct Hm as [Hv Hl Hr H1 H2 _].
  rewrite Hl, Hr. split_and!.
  - apply lonely_perm; [done|]. apply Forall2_fmap_2. eapply Forall2_impl; [exact Hv|].
    by intros ?? [? _].
  - apply lonely_perm; [done|]. apply Forall2_fmap_2. eapply Forall2_impl; [exact Hv|].
    by intros ?? [_ ?].
  - intros a b [k Hk]%list_elem_of_lookup.
    destruct (Forall2_lookup_r _ _ _ _ _ Hv Hk) as ([i j] & Hij & Ha & Hb). simpl in *.
    rewrite <-(F_lookup f ls rs i j a b Ha Hb). apply Hnn. by eapply list_elem_of_lookup_2.
  - intros a b (i & _ & Hi & Ha)%elem_of_lonely (j & _ & Hj & Hb)%elem_of_lonely.
    rewrite Nat.sub_0_r in Ha, Hb. rewrite <-(F_lookup f ls rs i j a b Ha Hb).
    apply Z.nle_gt. intros Hpos.
    destruct (Hset i j Hpos) as [(j' & Hin & _)|(i' & Hin & _)].
    + apply Hi, elem_of_list_to_set, list_elem_of_fmap. by exists (i, j').
    + apply Hj, elem_of_list_to_set, list_elem_of_fmap. by exists (i', j).
Qed.

(** The priority of low scores, on values. *)
Lemma Join_best pairs ll lr a b :
  Join score ls rs = Ok (pairs, ll, lr) → a ∈ ls → b ∈ rs → (0 ≤ f a b)%Z →
  (∃ b', (a, b') ∈ pairs ∧ f a b' ≤ f a b)%Z ∨ (∃ a', (a', b) ∈ pairs ∧ f a' b ≤ f a b)%Z.
Proof.
  destruct (Join_matching score f ls rs Hscore) as (st & ms & HJ & Hm & Hnn & Hset).
  rewrite HJ. intros [= <- _ _] [i Hi]%list_elem_of_lookup [j Hj]%list_elem_of_lookup Hpos.
  pose proof (F_lookup f ls rs i j a b Hi Hj) as HF. rewrite <-HF in Hpos |- *.
  destruct (Hset i j Hpos) as [(j' & Hin & Hle)|(i' & Hin & Hle)]; [left|right];
    apply list_elem_of_lookup in Hin as [k Hk];
    destruct (Forall2_lookup_l _ _ _ _ _ (mt_vals _ _ _ _ _ Hm) Hk) as ([a' b'] & Hp & Ha & Hb);
    simpl in Ha, Hb; apply list_elem_of_lookup_2 in Hp.
  - assert (a' = a) as -> by congruence. exists b'.
    by rewrite <-(F_lookup f ls rs i j' a b' Ha Hb).
  - assert (b' = b) as -> by congruence. exists a'.
    by rewrite <-(F_lookup f ls rs i' j a' b Ha Hb).
Qed.
End Join_results.

(** ** HashJoin

    [lKey] and [rKey] compute the join keys; a nil key function is the
    identity.  [n] selects the order of the final loop over [joinTable]. *)
Section HashJoin.
Context `{MapOrder} {A B K : Type} `{Countable K}.

(** The first loop: a later element replaces an earlier one with its key. *)
Definition buildTable (lKey : A → K) (lSlice : list A) : gmap K A :=
  foldl (λ t lElem, <[lKey lElem := lElem]> t) ∅ lSlice.

(** The second loop: query the table with the right elements. *)
Fixpoint probeTable (rKey : B → K) (joinTable : gmap K A) (rSlice : list B)
    : list (A * B) * list B * gmap K A :=
  match rSlice with
  | [] => ([], [], joinTable)
  | rElem :: rest =>
    match joinTable !! rKey rElem with
    | Some entry =>
      let '(pairs, lonelyRights, t) := probeTable rKey (delete (rKey rElem) joinTable) rest in
      ((entry, rElem) :: pairs, lonelyRights, t)
    | None =>
      let '(pairs, lonelyRights, t) := probeTable rKey joinTable rest in
      (pairs, rElem :: lonelyRights, t)
    end
  end.

Definition HashJoin (n : nat) (lSlice : list A) (rSlice : list B)
    (lKey : A → K) (rKey : B → K) : list (A * B) * list A * list B :=
  let '(pairs, lonelyRights, joinTable) :=
    probeTable rKey (buildTable lKey lSlice) rSlice in
  (pairs, (range n joinTable).*2, lonelyRights).

Definition vals (t : gmap K A) : list A := (map_to_list t).*2.

Lemma elem_of_vals t a : a ∈ vals t ↔ ∃ k, t !! k = Some a.
Proof.
  unfold vals. rewrite list_elem_of_fmap. split.
  - intros ([k v] & -> & Hin%elem_of_map_to_list). eauto.
  - intros [k Hk%elem_of_map_to_list]. by exists (k, a).
Qed.

Lemma vals_delete t k a : t !! k = Some a → vals t ≡ₚ a :: vals (delete k t).
Proof.
  intros Hk. unfold vals. rewrite <-(insert_id _ _ _ Hk) at 1.
  rewrite <-insert_delete_eq, map_to_list_insert by apply lookup_delete_eq. done.
Qed.

Lemma vals_insert_submseteq t k a : vals (<[k:=a]> t) ⊆+ a :: vals t.
Proof.
  rewrite (vals_delete _ k a) by apply lookup_insert_eq.
  rewrite delete_insert_eq. apply submseteq_skip.
  destruct (t !! k) as [a'|] eqn:Hk.
  - rewrite (vals_delete _ _ _ Hk). by apply submseteq_cons.
  - by rewrite delete_id.
Qed.

(** A table whose entries sit under their own key. *)
Definition keyed (lKey : A → K) (t : gmap K A) : Prop :=
  ∀ k a, t !! k = Some a → lKey a = k.

Lemma keyed_NoDup lKey t : keyed lKey t → NoDup (lKey <$> vals t).
Proof.
  intros Hk. unfold vals. rewrite <-list_fmap_compose.
  assert ((lKey ∘ snd) <$> map_to_list t = (map_to_list t).*1) as ->;
    [|apply NoDup_fst_map_to_list].
  apply list_fmap_ext. intros i [k a] Hin%list_elem_of_lookup_2%elem_of_map_to_list.
  by apply Hk.
Qed.

Lemma buildTable_snoc lKey l a :
  buildTable lKey (l ++ [a]) = <[lKey a := a]> (buildTable lKey l).
Proof. unfold buildTable. by rewrite foldl_app. Qed.

Lemma buildTable_keyed lKey l : keyed lKey (buildTable lKey l).
Proof.
  induction l as [|a l IH] using rev_ind; intros k a'; [done|].
  rewrite buildTable_snoc, lookup_insert_Some. intros [[<- <-]|[_ ?]]; auto.
Qed.

Lemma buildTable_vals lKey l : vals (buildTable lKey l) ⊆+ l.
Proof.
  induction l as [|a l IH] using rev_ind; [done|].
  rewrite buildTable_snoc. etrans; [apply vals_insert_submseteq|].
  rewrite Permutation_app_comm. simpl. by apply submseteq_skip.
Qed.

Lemma buildTable_dom lKey l k :
  is_Some (buildTable lKey l !! k) ↔ k ∈ lKey <$> l.
Proof.
  induction l as [|a l IH] using rev_ind.
  { unfold buildTable; simpl. rewrite lookup_empty. split; [by intros [? ?]|set_solver]. }
  rewrite buildTable_snoc, fmap_app, elem_of_app. csimpl.
  rewrite lookup_insert_is_Some', IH. set_solver.
Qed.

Lemma probeTable_spec (lKey : A → K) (rKey : B → K) t rs pairs lr t' :
  keyed lKey t → probeTable rKey t rs = (pairs, lr, t') →
  keyed lKey t' ∧ vals t ≡ₚ pairs.*1 ++ vals t' ∧ pairs.*2 ++ lr ≡ₚ rs ∧
  (∀ a b, (a, b) ∈ pairs → lKey a = rKey b) ∧
  (∀ b, b ∈ rs → t' !! rKey b = None) ∧
  (∀ b, b ∈ lr → is_Some (t !! rKey b) → ∃ a b', (a, b') ∈ pairs ∧ rKey b' = rKey b).
Proof.
  revert t pairs lr t'. induction rs as [|r rs IH]; intros t pairs lr t' Hk Hp; simpl in Hp.
  { simplify_eq. simpl. split_and!; auto; set_solver. }
  destruct (t !! rKey r) as [e|] eqn:He.
  - destruct (probeTable rKey (delete (rKey r) t) rs) as [[ps lr'] t''] eqn:Hrec. simplify_eq.
    assert (keyed lKey (delete (rKey r) t)) as Hkd.
    { intros k a [_ ?]%lookup_delete_Some. by apply Hk. }
    destruct (IH _ _ _ _ Hkd Hrec) as (Hk' & Hv & Hr & Hpr & Hno & Hlr).
    assert (t' !! rKey r = None) as Hr0.
    { destruct (t' !! rKey r) as [a|] eqn:Ha; [|done]. exfalso.
      assert (a ∈ vals (delete (rKey r) t)) as (k & Hk1)%elem_of_vals.
      { rewrite Hv. apply elem_of_app. right. apply elem_of_vals. eauto. }
      pose proof (Hkd _ _ Hk1) as <-. rewrite (Hk' _ _ Ha) in Hk1.
      by rewrite lookup_delete_eq in Hk1. }
    csimpl. split_and!; [done| | | | |].
    + by rewrite (vals_delete _ _ _ He), Hv.
    + by rewrite Hr.
    + intros a b [[= -> ->]|?]%elem_of_cons; [by apply Hk|auto].
    + intros b [->|?]%elem_of_cons; auto.
    + intros b Hb Hs. destruct (decide (rKey b = rKey r)) as [Heq|Hne].
      * exists e, r. split; [set_solver|done].
      * destruct (Hlr b Hb) as (a & b' & ? & ?); [by rewrite lookup_delete_ne|].
        exists a, b'. split; [set_solver|done].
  - destruct (probeTable rKey t rs) as [[ps lr'] t''] eqn:Hrec. simplify_eq.
    destruct (IH _ _ _ _ Hk Hrec) as (Hk' & Hv & Hr & Hpr & Hno & Hlr).
    split_and!; auto.
    + by rewrite <-Permutation_middle, Hr.
    + intros b [->|?]%elem_of_cons; [|auto].
      destruct (t' !! rKey r) as [a|] eqn:Ha; [|done]. exfalso.
      assert (a ∈ vals t) as (k & Hk1)%elem_of_vals.
      { rewrite Hv. apply elem_of_app. right. apply elem_of_vals. eauto. }
      pose proof (Hk _ _ Hk1) as <-. rewrite (Hk' _ _ Ha) in Hk1. congruence.
    + intros b [->|?]%elem_of_cons Hs; [|auto]. rewrite He in Hs. by destruct Hs.
Qed.

(** What [HashJoin] promises its callers. *)
Record hash_joined (ls : list A) (rs : list B) (lKey : A → K) (rKey : B → K)
    (pairs : list (A * B)) (ll : list A) (lr : list B) : Prop := {
  hj_lefts : pairs.*1 ++ ll ⊆+ ls;
  hj_left_keys : ∀ a, a ∈ ls → ∃ a', a' ∈ pairs.*1 ++ ll ∧ lKey a' = lKey a;
  hj_left_nodup : NoDup (lKey <$> pairs.*1 ++ ll);
  hj_rights : pairs.*2 ++ lr ≡ₚ rs;
  hj_pair : ∀ a b, (a, b) ∈ pairs → lKey a = rKey b;
  hj_lonely_left : ∀ a b, a ∈ ll → b ∈ rs → lKey a ≠ rKey b;
  hj_lonely_right : ∀ b, b ∈ lr → rKey b ∈ lKey <$> ls →
    ∃ a b', (a, b') ∈ pairs ∧ rKey b' = rKey b;
}.

Lemma HashJoin_ok n ls rs lKey rKey pairs ll lr :
  HashJoin n ls rs lKey rKey = (pairs, ll, lr) →
  hash_joined ls rs lKey rKey pairs ll lr.
Proof.
  unfold HashJoin.
  destruct (probeTable rKey (buildTable lKey ls) rs) as [[ps lr'] t'] eqn:Hp.
  intros [= <- <- <-].
  pose proof (buildTable_keyed lKey ls) as Hk.
  destruct (probeTable_spec _ _ _ _ _ _ _ Hk Hp) as (Hk' & Hv & Hr & Hpr & Hno & Hlr).
  assert ((range n t').*2 ≡ₚ vals t') as Hvals by (unfold vals; by rewrite range_perm).
  split; rewrite ?Hvals, <-?Hv; auto using buildTable_vals, keyed_NoDup.
  - intros a Ha. assert (is_Some (buildTable lKey ls !! lKey a)) as [a' Ha'].
    { apply buildTable_dom. by apply list_elem_of_fmap_2. }
    exists a'. rewrite Hvals, <-Hv. split; [apply elem_of_vals; eauto|by apply Hk].
  - intros a b Ha Hb Heq. rewrite Hvals in Ha. apply elem_of_vals in Ha as [k Ha].
    pose proof (Hk' _ _ Ha) as <-. rewrite Heq, Hno in Ha; done.
  - intros b Hb Hin. apply Hlr; [done|]. by apply buildTable_dom.
Qed.

(** With distinct keys on both sides, a lonely right element has no partner. *)
Lemma hash_joined_lonely_right ls rs lKey rKey pairs ll lr b :
  hash_joined ls rs lKey rKey pairs ll lr → NoDup (rKey <$> rs) →
  b ∈ lr → rKey b ∉ lKey <$> ls.
Proof.
  intros Hj Hnd Hb Hin. destruct (hj_lonely_right _ _ _ _ _ _ _ Hj b Hb Hin) as (a & b' & Hp & Heq).
  rewrite <-(hj_rights _ _ _ _ _ _ _ Hj), fmap_app in Hnd.
  apply NoDup_app in Hnd as (_ & Hd & _).
  apply (Hd (rKey b')); [apply list_elem_of_fmap_2, list_elem_of_fmap; by exists (a, b')|].
  rewrite Heq. by apply list_elem_of_fmap_2.
Qed.

(** With distinct keys on the left, no left element is dropped. *)
Lemma hash_joined_lefts ls rs lKey rKey pairs ll lr :
  hash_joined ls rs lKey rKey pairs ll lr → NoDup (lKey <$> ls) →
  pairs.*1 ++ ll ≡ₚ ls.
Proof.
  intros Hj Hnd. apply (anti_symm submseteq); [apply Hj|].
  apply NoDup_submseteq; [by eapply NoDup_fmap_1|].
  intros a Ha. destruct (hj_left_keys _ _ _ _ _ _ _ Hj a Ha) as (a' & Ha' & Heq).
  replace a with a'; [done|].
  eapply (NoDup_fmap_elem lKey ls); [done| |done|done].
  eapply elem_of_submseteq; [exact Ha'|apply Hj].
Qed.
End HashJoin.

(** ** Properties *)

Lemma lonely_sublist {T} P i (l : list T) : lonely P i l `sublist_of` l.
Proof.
  revert i. induction l as [|x l IH]; intros i; simpl; [done|].
  case_bool; by constructor.
Qed.

(** C20: [Join] strictly prioritises lower scores.  It never panics when the
    score function does not, it matches each index at most once, and for every
    pair of elements with a non-negative score [s], at least one of the two is
    matched with a score of at most [s]: no two elements that the score
    function accepts would both prefer each other to what they got. *)
Theorem Join_prioritises_low_scores {A B} (score : A → B → outcome Z) (f : A → B → Z)
    (ls : list A) (rs : list B) :
  (∀ a b, a ∈ ls → b ∈ rs → score a b = Ok (f a b)) →
  ∃ (ms : list (nat * nat)) pairs ll lr,
    Join score ls rs = Ok (pairs, ll, lr) ∧
    Forall2 (λ ij ab, ls !! ij.1 = Some ab.1 ∧ rs !! ij.2 = Some ab.2) ms pairs ∧
    NoDup ms.*1 ∧ NoDup ms.*2 ∧
    ∀ i j a b, ls !! i = Some a → rs !! j = Some b → (0 ≤ f a b)%Z →
      (∃ j' b', (i, j') ∈ ms ∧ rs !! j' = Some b' ∧ (f a b' ≤ f a b)%Z) ∨
      (∃ i' a', (i', j) ∈ ms ∧ ls !! i' = Some a' ∧ (f a' b ≤ f a b)%Z).
Proof.
  intros Hscore. destruct (Join_matching score f ls rs Hscore) as (st & ms & HJ & Hm & Hnn & Hset).
  exists ms. eexists _, _, _. split; [exact HJ|]. split_and!; [apply Hm..|].
  intros i j a b Ha Hb Hpos. rewrite <-(F_lookup f ls rs i j a b Ha Hb) in Hpos |- *.
  destruct (Hset i j Hpos) as [(j' & Hin & Hle)|(i' & Hin & Hle)]; [left|right];
    destruct (F_pos_lookup f ls rs _ _ (Hnn _ _ Hin)) as [[a' Ha'] [b' Hb']].
  - exists j', b'. by rewrite <-(F_lookup f ls rs i j' a b' Ha Hb').
  - exists i', a'. by rewrite <-(F_lookup f ls rs i' j a' b Ha' Hb).
Qed.

(** [Join] loses and duplicates nothing: the paired and the lonely
    elements are together a permutation of each input slice, the lonely ones
    in their original order; a negative score is never matched, and a lonely
    left and a lonely right element always have a negative score. *)
Theorem Join_partition {A B} (score : A → B → outcome Z) (f : A → B → Z)
    (ls : list A) (rs : list B) :
  (∀ a b, a ∈ ls → b ∈ rs → score a b = Ok (f a b)) →
  ∃ pairs ll lr, Join score ls rs = Ok (pairs, ll, lr) ∧
    pairs.*1 ++ ll ≡ₚ ls ∧ pairs.*2 ++ lr ≡ₚ rs ∧
    ll `sublist_of` ls ∧ lr `sublist_of` rs ∧
    (∀ a b, (a, b) ∈ pairs → 0 ≤ f a b)%Z ∧
    (∀ a b, a ∈ ll → b ∈ lr → f a b < 0)%Z.
Proof.
  intros Hscore.
  destruct (Join_ok score f ls rs Hscore) as (pairs & ll & lr & HJ & Hl & Hr & Hp & Hn).
  destruct (Join_matching score f ls rs Hscore) as (st & ms & HJ' & _).
  rewrite HJ in HJ'. simplify_eq.
  eexists _, _, _. split_and!; eauto using lonely_sublist.
Qed.

(** [HashJoin] for any keys and any map order: pairs have equal keys, the
    right slice is partitioned, the left slice is partitioned up to elements
    whose key repeats (one element per key is kept), a lonely left element's
    key occurs nowhere on the right, and a lonely right element whose key does
    occur on the left lost it to another right element with the same key. *)
Theorem HashJoin_correct `{MapOrder} {A B K} `{Countable K} n
    (ls : list A) (rs : list B) (lKey : A → K) (rKey : B → K) :
  let '(pairs, ll, lr) := HashJoin n ls rs lKey rKey in
  pairs.*2 ++ lr ≡ₚ rs ∧ pairs.*1 ++ ll ⊆+ ls ∧
  NoDup (lKey <$> pairs.*1 ++ ll) ∧
  (∀ a, a ∈ ls → ∃ a', a' ∈ pairs.*1 ++ ll ∧ lKey a' = lKey a) ∧
  (∀ a b, (a, b) ∈ pairs → lKey a = rKey b) ∧
  (∀ a b, a ∈ ll → b ∈ rs → lKey a ≠ rKey b) ∧
  (∀ b, b ∈ lr → rKey b ∈ lKey <$> ls → ∃ a b', (a, b') ∈ pairs ∧ rKey b' = rKey b).
Proof.
  destruct (HashJoin n ls rs lKey rKey) as [[pairs ll] lr] eqn:Hj.
  apply HashJoin_ok in Hj as []. by split_and!.
Qed.

(** ** Witnesses *)

Definition demo_score (a b : Z) : outcome Z :=
  if bool_decide (a = 100)%Z then Panic "invalid" else Ok (Z.abs (a - b) - 1)%Z.

Lemma demo_score_ok a b :
  a ∈ [1; 5; 9]%Z → b ∈ [2; 7; 30]%Z → demo_score a b = Ok (Z.abs (a - b) - 1)%Z.
Proof. unfold demo_score. intros Ha _. case_bool as [->|]; [|done]. set_solver. Qed.

Lemma Join_prioritises_low_scores_witness :
  ∃ (ms : list (nat * nat)) pairs ll lr,
    Join demo_score [1; 5; 9]%Z [2; 7; 30]%Z = Ok (pairs, ll, lr) ∧ NoDup ms.*1.
Proof.
  destruct (Join_prioritises_low_scores demo_score (λ a b, Z.abs (a - b) - 1)%Z
    [1; 5; 9]%Z [2; 7; 30]%Z demo_score_ok) as (ms & p & ll & lr & HJ & _ & Hnd & _).
  by exists ms, p, ll, lr.
Defined.

Lemma Join_partition_witness :
  ∃ pairs ll lr, Join demo_score [1; 5; 9]%Z [2; 7; 30]%Z = Ok (pairs, ll, lr) ∧
    pairs.*1 ++ ll ≡ₚ [1; 5; 9]%Z.
Proof.
  destruct (Join_partition demo_score (λ a b, Z.abs (a - b) - 1)%Z
    [1; 5; 9]%Z [2; 7; 30]%Z demo_score_ok) as (p & ll & lr & HJ & Hp & _).
  by exists p, ll, lr.
Defined.

(** The best pair is taken first although it comes last in the slices. *)
Example Join_example :
  Join demo_score [1; 5; 9]%Z [2; 7; 30]%Z =
    Ok ([(1, 2); (5, 7); (9, 30)]%Z, [], []).
Proof. reflexivity. Qed.

(** A repeated left key: only the last element with it is kept. *)
Example HashJoin_example :
  HashJoin 0 [(1, "a"); (2, "b"); (3, "a")] [(7, "a"); (8, "a"); (9, "c")]
    (λ x : nat * string, x.2) (λ x : nat * string, x.2) =
  ([((3, "a"), (7, "a"))], [(2, "b")], [(8, "a"); (9, "c")]).
Proof. vm_compute. reflexivity. Qed.
