(* ===== verification/GoStrings.v ===== *)
(** * Go strings: the parts of the standard library the code uses, and util/str

    The first half models what the sources use of Go's [strings], [sort] and
    [fmt] packages; the second half translates [src/util/str/str.go].  A Go
    string is a byte string, [String.string] here, and [<] on strings is the
    lexicographic order on bytes. *)

From Stdlib Require Export Ascii.
From S2P Require Import Prelude.

(** ** Standard library *)

(** [a < b] on strings. *)
Definition strLess (a b : string) : bool := String.ltb a b.

(** [strings.Join] *)
Fixpoint Join_strings (sep : string) (l : list string) : string :=
  match l with
  | [] => ""
  | [s] => s
  | s :: l' => s +:+ sep +:+ Join_strings sep l'
  end.

(** [strings.Split] with a one-byte separator. *)
Fixpoint Split (sep : ascii) (s : string) : list string :=
  match s with
  | EmptyString => [""]
  | String a s' =>
    if bool_decide (a = sep) then "" :: Split sep s'
    else match Split sep s' with
         | x :: xs => String a x :: xs
         | [] => [String a ""]
         end
  end.

(** [sort.Strings]: the elements are totally ordered, so the sorted list is unique. *)
Definition Strings_sort (l : list string) : list string := merge_sort String.le l.

(** [fmt.Sprintf("%v", strs)] (and ["%s"]) on a slice of strings. *)
Definition fmtSlice (l : list string) : string := "[" +:+ Join_strings " " l +:+ "]".

(** [fmt.Sprintf("%d", z)] *)
Definition fmtInt (z : Z) : string := pretty z.

(** [strings.Replace(s, from, to, -1)] on single bytes. *)
Fixpoint ReplaceChar (from to : ascii) (s : string) : string :=
  match s with
  | EmptyString => ""
  | String c s => String (if bool_decide (c = from) then to else c) (ReplaceChar from to s)
  end.

(** [strconv.Atoi]: an optional sign and decimal digits, within 64 bits. *)
Definition digitOf (c : ascii) : option Z :=
  let n := Z.of_nat (nat_of_ascii c) in
  if bool_decide (48 ≤ n ≤ 57)%Z then Some (n - 48)%Z else None.
Fixpoint atoiDigits (acc : Z) (s : string) : option Z :=
  match s with
  | EmptyString => Some acc
  | String c s => match digitOf c with Some d => atoiDigits (acc * 10 + d)%Z s | None => None end
  end.
Definition atoiUnsigned (s : string) : option Z := match s with EmptyString => None | _ => atoiDigits 0 s end.
Definition Atoi (s : string) : result Z :=
  let z := match s with
           | String "-" s => Z.opp <$> atoiUnsigned s
           | String "+" s => atoiUnsigned s
           | _ => atoiUnsigned s
           end in
  match z with
  | None => Err "invalid syntax"
  | Some z => if bool_decide (- 2 ^ 63 ≤ z < 2 ^ 63)%Z then Val z else Err "value out of range"
  end.

(** [path.Base]: the last element of the path, slashes at its end aside. *)
Definition pathBase (p : string) : string :=
  if bool_decide (p = "") then "."
  else default "/" (last (filter (λ x, x ≠ "") (Split "/" p))).

(** [filepath.Clean]: no empty, "." or inner ".." elements. *)
Definition cleanStep (rooted : bool) (acc : list string) (e : string) : list string :=
  if bool_decide (e = "" ∨ e = ".") then acc
  else if bool_decide (e = "..") then
    match acc with
    | [] => if rooted then [] else [".."]
    | x :: acc' => if bool_decide (x = "..") then ".." :: acc else acc'
    end
  else e :: acc.
Definition isAbs (p : string) : bool := match p with String "/" _ => true | _ => false end.
Definition pathClean (p : string) : string :=
  let body := Join_strings "/" (reverse (foldl (cleanStep (isAbs p)) [] (Split "/" p))) in
  if isAbs p then "/" +:+ body else if bool_decide (body = "") then "." else body.
(** [filepath.Join] of two elements. *)
Definition pathJoin (a b : string) : string :=
  if bool_decide (a = "") then (if bool_decide (b = "") then "" else pathClean b)
  else if bool_decide (b = "") then pathClean a else pathClean (a +:+ "/" +:+ b).
(** [filepath.Rel] of "/" and an absolute path, and of "." and a relative one. *)
Definition pathRel (p : string) : string :=
  match pathClean p with
  | String "/" "" => "."
  | String "/" p => p
  | p => p
  end.

Example pathClean_example :
  pathClean "/a//b/../c/." = "/a/c" ∧ pathClean "../x/.." = ".." ∧ pathClean "" = "." ∧ pathRel "/etc/hosts" = "etc/hosts" ∧
  pathRel "a/./b" = "a/b".
Proof. done. Qed.

(** What precedes and what follows the last [c]. *)
Fixpoint cutLast (c : ascii) (s : string) : option (string * string) :=
  match s with
  | EmptyString => None
  | String a s =>
    match cutLast c s with
    | Some (x, y) => Some (String a x, y)
    | None => if bool_decide (a = c) then Some ("", s) else None
    end
  end.
(** [strings.TrimPrefix] with a one-byte prefix. *)
Definition trimPrefixChar (c : ascii) (s : string) : string :=
  match s with String a s' => if bool_decide (a = c) then s' else s | EmptyString => "" end.

(** [strings.ToLower] on ASCII text. *)
Definition lowerChar (c : ascii) : ascii :=
  let n := nat_of_ascii c in
  if bool_decide (65 ≤ n ≤ 90) then ascii_of_nat (n + 32) else c.
Fixpoint ToLower (s : string) : string :=
  match s with EmptyString => "" | String c s' => String (lowerChar c) (ToLower s') end.

(** [strings.HasPrefix] and what follows the prefix. *)
Fixpoint stripPrefix (p s : string) : option string :=
  match p, s with
  | "", _ => Some s
  | String a p, String b s => if bool_decide (a = b) then stripPrefix p s else None
  | _, "" => None
  end.
Definition hasPrefix (s p : string) : bool := bool_decide (is_Some (stripPrefix p s)).

(** [strings.Split] for a separator of several bytes; [skip] bytes of it are still to come. *)
Fixpoint splitOn (sep : string) (skip : nat) (s : string) : list string :=
  match s with
  | "" => [""]
  | String a s' =>
    match skip with
    | S k => splitOn sep k s'
    | 0 =>
      match stripPrefix sep s with
      | Some _ => "" :: splitOn sep (String.length sep - 1) s'
      | None => match splitOn sep 0 s' with x :: xs => String a x :: xs | [] => [] end
      end
    end
  end.

(** ** Package str *)

Definition SliceFilterOut (slice : list string) (item : string) : list string :=
  filter (λ s, s ≠ item) slice.

Fixpoint SliceContains (slice : list string) (item : string) : bool :=
  match slice with
  | [] => false
  | s :: slice' => if bool_decide (s = item) then true else SliceContains slice' item
  end.

(** The element-wise comparison loop of [SliceCmp]; [y] is at least as long as
    [x] when it is called, otherwise Go would panic. *)
Fixpoint SliceCmp_loop (x y : list string) : Z :=
  match x, y with
  | v :: x', w :: y' =>
    if strLess v w then (-1)%Z else if strLess w v then 1%Z else SliceCmp_loop x' y'
  | _, _ => 0%Z
  end.

Definition SliceCmp (x y : list string) : Z :=
  if bool_decide (length x < length y) then (-1)%Z
  else if bool_decide (length y < length x) then 1%Z
  else SliceCmp_loop x y.

Definition SliceEq (x y : list string) : bool := bool_decide (SliceCmp x y = 0%Z).

(** The loop of [MapEq] visits [x] in the order [n]. *)
Definition MapEq `{MapOrder} (n : nat) (x y : gmap string string) : bool :=
  if bool_decide (size x ≠ size y) then false
  else forallb (λ kv, match y !! kv.1 with
                      | Some yVal => bool_decide (kv.2 = yVal)
                      | None => false
                      end) (range n x).

Definition MapAsString `{MapOrder} (n : nat) (m : gmap string string) : string :=
  fmtSlice (Strings_sort ((λ kv, kv.1 +:+ "=" +:+ kv.2) <$> range n m)).

(** ** Lemmas *)

Lemma strLess_irrefl a : strLess a a = false.
Proof.
  unfold strLess, String.ltb. pose proof (String.compare_antisym a a) as H.
  by destruct (String.compare a a).
Qed.

Lemma strLess_asym a b : strLess a b = true → strLess b a = false.
Proof.
  unfold strLess, String.ltb. rewrite (String.compare_antisym b a).
  by destruct (String.compare a b).
Qed.

Lemma strLess_total a b : strLess a b = false → strLess b a = false → a = b.
Proof.
  unfold strLess, String.ltb. rewrite (String.compare_antisym b a).
  destruct (String.compare a b) eqn:E; try done. intros _ _. by apply String.compare_eq_iff.
Qed.

Lemma strLess_le a b : strLess a b = true ↔ String.le a b ∧ a ≠ b.
Proof.
  unfold strLess, String.le, String.ltb, String.leb.
  destruct (String.compare a b) eqn:E; split; try done.
  - apply String.compare_eq_iff in E as ->. by intros [_ ?].
  - intros _. split; [done|]. intros ->. pose proof (String.compare_antisym b b) as H.
    rewrite E in H. done.
  - by intros [? _].
Qed.

Lemma strLess_trans a b c : strLess a b = true → strLess b c = true → strLess a c = true.
Proof.
  rewrite !strLess_le. intros [Hab Nab] [Hbc Nbc]. split; [by etrans|].
  intros ->. apply Nab. by apply (anti_symm String.le).
Qed.

(** A string without a given byte. *)
Fixpoint lacks (c : ascii) (s : string) : Prop :=
  match s with EmptyString => True | String a s' => a ≠ c ∧ lacks c s' end.

Lemma Split_nonempty c s : Split c s ≠ [].
Proof. destruct s as [|a s]; simpl; [done|]. case_bool; [done|]. by destruct (Split c s). Qed.

Lemma Split_cons c x s : lacks c x → Split c (x +:+ String c s) = x :: Split c s.
Proof.
  induction x as [|a x IH]; simpl; [intros _; by simpl_bd|]. intros [Ha Hx].
  change (Split c (String a (x +:+ String c s)) = String a x :: Split c s). simpl. simpl_bd.
  by rewrite (IH Hx).
Qed.

Lemma Split_lacks c x : lacks c x → Split c x = [x].
Proof. induction x as [|a x IH]; simpl; [done|]. intros [Ha Hx]. simpl_bd. by rewrite (IH Hx). Qed.

(** Splitting undoes joining. *)
Lemma Split_Join c (l : list string) :
  l ≠ [] → Forall (lacks c) l → Split c (Join_strings (String c "") l) = l.
Proof.
  intros Hl Hf. induction Hf as [|x l Hx Hf IH]; [done|].
  destruct l as [|y l]; [by apply Split_lacks|].
  change (Split c (x +:+ String c (Join_strings (String c "") (y :: l))) = x :: y :: l).
  by rewrite Split_cons, IH.
Qed.

Lemma elem_of_SliceContains l x : SliceContains l x = true ↔ x ∈ l.
Proof.
  induction l as [|y l IH]; simpl; [set_solver|]. case_bool; set_solver.
Qed.

Lemma elem_of_SliceFilterOut l x item : x ∈ SliceFilterOut l item ↔ x ≠ item ∧ x ∈ l.
Proof. unfold SliceFilterOut. by rewrite list_elem_of_filter. Qed.

Lemma Strings_sort_perm l : Strings_sort l ≡ₚ l.
Proof. apply merge_sort_Permutation. Qed.

(** Sorting forgets the order. *)
Lemma Strings_sort_unique l k : l ≡ₚ k → Strings_sort l = Strings_sort k.
Proof.
  intros Hp. apply (Sorted_unique String.le); [apply Sorted_merge_sort, _..|].
  by rewrite !Strings_sort_perm.
Qed.

Lemma SliceCmp_loop_eq x y : length x = length y → SliceCmp_loop x y = 0%Z → x = y.
Proof.
  revert y. induction x as [|v x IH]; intros [|w y] Hlen; simpl; try done.
  destruct (strLess v w) eqn:E1; [done|]. destruct (strLess w v) eqn:E2; [done|].
  intros H. f_equal; [by apply strLess_total|]. apply IH; [simpl in *; lia|done].
Qed.

Lemma SliceCmp_loop_refl x : SliceCmp_loop x x = 0%Z.
Proof. induction x; simpl; [done|]. by rewrite !strLess_irrefl. Qed.

Lemma SliceCmp_eq x y : SliceCmp x y = 0%Z ↔ x = y.
Proof.
  unfold SliceCmp. split.
  - repeat case_bool; try done. apply SliceCmp_loop_eq. lia.
  - intros ->. repeat case_bool; try lia. apply SliceCmp_loop_refl.
Qed.

Lemma SliceCmp_loop_antisym x y : SliceCmp_loop y x = (- SliceCmp_loop x y)%Z.
Proof.
  revert y. induction x as [|v x IH]; intros [|w y]; simpl; try done.
  destruct (strLess v w) eqn:E1.
  - by rewrite (strLess_asym _ _ E1).
  - destruct (strLess w v); [done|]. apply IH.
Qed.

Lemma SliceCmp_antisym x y : SliceCmp y x = (- SliceCmp x y)%Z.
Proof.
  unfold SliceCmp. repeat case_bool; try lia. apply SliceCmp_loop_antisym.
Qed.

Lemma SliceCmp_loop_range x y :
  SliceCmp_loop x y = (-1)%Z ∨ SliceCmp_loop x y = 0%Z ∨ SliceCmp_loop x y = 1%Z.
Proof.
  revert y. induction x as [|v x IH]; intros [|w y]; simpl; auto.
  destruct (strLess v w); auto. destruct (strLess w v); auto.
Qed.

Lemma SliceCmp_range x y : SliceCmp x y = (-1)%Z ∨ SliceCmp x y = 0%Z ∨ SliceCmp x y = 1%Z.
Proof. unfold SliceCmp. repeat case_bool; auto. apply SliceCmp_loop_range. Qed.

Lemma SliceCmp_loop_trans x y z :
  length x = length y → length y = length z →
  SliceCmp_loop x y = (-1)%Z → SliceCmp_loop y z = (-1)%Z → SliceCmp_loop x z = (-1)%Z.
Proof.
  revert y z. induction x as [|u x IH]; intros [|v y] [|w z] H1 H2; simpl in *; try done.
  destruct (strLess u v) eqn:E1.
  - intros _. destruct (strLess v w) eqn:E2.
    + by rewrite (strLess_trans _ _ _ E1 E2).
    + destruct (strLess w v) eqn:E3; [done|].
      rewrite <-(strLess_total _ _ E2 E3). by rewrite E1.
  - destruct (strLess v u) eqn:E2; [done|]. rewrite <-(strLess_total _ _ E1 E2). clear E1 E2.
    destruct (strLess u w); [done|]. destruct (strLess w u); [done|].
    intros. eapply IH; [| |done|done]; lia.
Qed.

Lemma SliceCmp_trans x y z :
  SliceCmp x y = (-1)%Z → SliceCmp y z = (-1)%Z → SliceCmp x z = (-1)%Z.
Proof.
  unfold SliceCmp. repeat case_bool; try done; try lia.
  intros. eapply (SliceCmp_loop_trans x y z); auto; lia.
Qed.

Lemma MapEq_spec `{MapOrder} n x y : MapEq n x y = true ↔ x = y.
Proof.
  unfold MapEq. case_bool as [Hsz|Hsz].
  { split; [done|]. by intros ->. }
  apply dec_stable in Hsz. rewrite <-Is_true_true, forallb_True, Forall_forall. split.
  - intros Hall. assert (x ⊆ y) as Hsub.
    { apply map_subseteq_spec. intros k v Hk. apply (elem_of_range n) in Hk.
      specialize (Hall _ Hk). simpl in Hall. destruct (y !! k) as [w|]; [|done].
      apply bool_decide_unpack in Hall. by subst. }
    apply map_eq. intros k. destruct (y !! k) as [v|] eqn:Hy.
    + destruct (x !! k) as [w|] eqn:Hx; [by rewrite <-Hy; symmetry; eapply lookup_weaken|].
      exfalso. assert (size (<[k:=v]> x) ≤ size y) as Hle.
      { rewrite <-!size_dom. apply subseteq_size. rewrite dom_insert_L.
        apply subseteq_dom in Hsub. apply elem_of_dom_2 in Hy. set_solver. }
      rewrite map_size_insert_None in Hle by done. lia.
    + destruct (x !! k) as [w|] eqn:Hx; [|done].
      eapply lookup_weaken in Hx; [|done]. congruence.
  - intros -> [k v] Hin%elem_of_range. simpl. rewrite Hin. by apply bool_decide_pack.
Qed.

(** ** Concatenation *)

Lemma app_assoc_s (a b c : string) : (a +:+ b) +:+ c = a +:+ (b +:+ c).
Proof.
  induction a as [|x a IH]; [done|].
  change (String x ((a +:+ b) +:+ c) = String x (a +:+ (b +:+ c))). by rewrite IH.
Qed.

Lemma app_nil_s (a : string) : a +:+ "" = a.
Proof. induction a as [|x a IH]; [done|]. change (String x (a +:+ "") = String x a). by rewrite IH. Qed.

Lemma length_app_s (a b : string) : String.length (a +:+ b) = String.length a + String.length b.
Proof.
  induction a as [|x a IH]; [done|].
  change (S (String.length (a +:+ b)) = S (String.length a) + String.length b). by rewrite IH.
Qed.

Lemma app_inj_s (a b x y : string) :
  String.length a = String.length b → a +:+ x = b +:+ y → a = b ∧ x = y.
Proof.
  revert b. induction a as [|c a IH]; intros [|d b]; simpl; [done|done|done|].
  intros [= Hlen] Heq. change (String c (a +:+ x) = String d (b +:+ y)) in Heq.
  injection Heq as -> Heq. destruct (IH b Hlen Heq) as [-> ->]. done.
Qed.

Lemma app_inj_r (a b x y : string) :
  String.length x = String.length y → a +:+ x = b +:+ y → a = b ∧ x = y.
Proof.
  intros Hlen Heq. apply app_inj_s; [|done].
  apply (f_equal String.length) in Heq. rewrite !length_app_s in Heq. lia.
Qed.

Lemma lacks_app c a b : lacks c (a +:+ b) ↔ lacks c a ∧ lacks c b.
Proof.
  induction a as [|x a IH]; [simpl; tauto|].
  change (x ≠ c ∧ lacks c (a +:+ b) ↔ (x ≠ c ∧ lacks c a) ∧ lacks c b). tauto.
Qed.

(** What precedes the first separator is determined. *)
Lemma cut_eq c x y s t :
  lacks c x → lacks c y → x +:+ String c s = y +:+ String c t → x = y ∧ s = t.
Proof.
  intros Hx Hy Heq. pose proof (f_equal (Split c) Heq) as Hs. rewrite !Split_cons in Hs by done.
  injection Hs as -> _. split; [done|]. apply app_inj_s in Heq as [_ Heq]; [|done].
  by injection Heq.
Qed.

(** Numbers are written with digits and a sign. *)
Lemma lacks_pretty_go c x s :
  (∀ d, pretty_N_char d ≠ c) → lacks c s → lacks c (pretty_N_go x s).
Proof.
  intros Hc. revert s. induction (N.lt_wf_0 x) as [x _ IH]; intros s Hs.
  destruct (decide (x = 0%N)) as [->|Hx]; [by rewrite pretty_N_go_0|].
  rewrite pretty_N_go_step by lia. apply IH; [apply N.div_lt; lia|]. by split.
Qed.

Lemma lacks_pretty_N c (n : N) : (∀ d, pretty_N_char d ≠ c) → lacks c (pretty n).
Proof.
  intros Hc. unfold pretty, pretty_N. case_decide; [|by apply lacks_pretty_go].
  split; [|done]. intros <-. by apply (Hc 0%N).
Qed.

Lemma lacks_fmtInt_any c z :
  (∀ d, pretty_N_char d ≠ c) → c ≠ "-"%char → lacks c (fmtInt z).
Proof.
  intros Hc Hm. unfold fmtInt.
  destruct z as [|p|p]; [by apply (lacks_pretty_N c 0%N)|by apply (lacks_pretty_N c (N.pos p))|].
  split; [by intros <-|by apply (lacks_pretty_N c (N.pos p))].
Qed.

Lemma lacks_fmtInt_nonneg c z : (∀ d, pretty_N_char d ≠ c) → (0 ≤ z)%Z → lacks c (fmtInt z).
Proof.
  intros Hc Hz. unfold fmtInt.
  destruct z as [|p|p]; [by apply (lacks_pretty_N c 0%N)|by apply (lacks_pretty_N c (N.pos p))|lia].
Qed.

Lemma ReplaceChar_app c d a b : ReplaceChar c d (a +:+ b) = ReplaceChar c d a +:+ ReplaceChar c d b.
Proof.
  induction a as [|x a IH]; [done|].
  change (String (if bool_decide (x = c) then d else x) (ReplaceChar c d (a +:+ b)) =
    String (if bool_decide (x = c) then d else x) (ReplaceChar c d a +:+ ReplaceChar c d b)). by rewrite IH.
Qed.

Lemma ReplaceChar_lacks c d s : lacks c s → ReplaceChar c d s = s.
Proof. induction s as [|x s IH]; [done|]. intros [? ?]. simpl. rewrite bool_decide_false, IH by done. done. Qed.

(** Printing a number and reading it back. *)
Lemma digitOf_char d : (d < 10)%N → digitOf (pretty_N_char d) = Some (Z.of_N d).
Proof. intros Hd. destruct d as [|p]; [done|]. do 4 (destruct p as [p|p|]; try done; try lia). Qed.

Lemma atoi_pretty_go n s : atoiDigits 0 (pretty_N_go n s) = atoiDigits (Z.of_N n) s.
Proof.
  revert s. induction (N.lt_wf_0 n) as [n _ IH]; intros s.
  destruct (decide (n = 0%N)) as [->|Hn]; [by rewrite pretty_N_go_0|].
  rewrite pretty_N_go_step by lia. rewrite IH by (apply N.div_lt; lia). simpl.
  rewrite digitOf_char by (apply N.mod_lt; lia). f_equal.
  rewrite N2Z.inj_div, N2Z.inj_mod. pose proof (Z.div_mod (Z.of_N n) 10 ltac:(lia)). lia.
Qed.

Lemma Atoi_fmtInt z : (0 ≤ z < 2 ^ 63)%Z → Atoi (fmtInt z) = Val z.
Proof.
  intros Hz. assert (∀ n : N, (Z.of_N n < 2 ^ 63)%Z → Atoi (pretty n) = Val (Z.of_N n)) as HN.
  { intros n Hn. unfold pretty, pretty_N. case_decide as Hn0; [by subst|].
    pose proof (atoi_pretty_go n "") as Hgo. simpl in Hgo.
    assert (lacks "-" (pretty_N_go n "") ∧ lacks "+" (pretty_N_go n "")) as [Hm Hp].
    { split; apply lacks_pretty_go; try done; intros d; unfold pretty_N_char; repeat case_match; done. }
    destruct (pretty_N_go n "") as [|c s]; [injection Hgo; lia|]. unfold Atoi.
    assert (∀ X Y : option Z, match c with "-"%char => X | "+"%char => Y | _ => atoiUnsigned (String c s) end
      = atoiUnsigned (String c s)) as Hc.
    { intros X Y. destruct Hm as [Hm _], Hp as [Hp _]. destruct c as [[] [] [] [] [] [] [] []]; done. }
    rewrite Hc. unfold atoiUnsigned. rewrite Hgo. rewrite bool_decide_true by lia. done. }
  destruct z as [|p|p]; [apply (HN 0%N)|apply (HN (N.pos p))|]; simpl in *; lia.
Qed.

Lemma length_Split_app c s t : length (Split c (s +:+ String c t)) = length (Split c s) + length (Split c t).
Proof.
  induction s as [|a s IH].
  - change ("" +:+ String c t) with (String c t). simpl. by rewrite bool_decide_true.
  - change (String a s +:+ String c t) with (String a (s +:+ String c t)). simpl. case_bool; [simpl; by rewrite IH|].
    pose proof (Split_nonempty c s). pose proof (Split_nonempty c (s +:+ String c t)).
    destruct (Split c s), (Split c (s +:+ String c t)); simpl in *; done.
Qed.

(** What follows the last separator. *)
Lemma last_Split c x : lacks c x → ∀ s, last (Split c (s +:+ String c x)) = Some x.
Proof.
  intros Hx. induction s as [|a s IH].
  - change ("" +:+ String c x) with (String c x). simpl. rewrite bool_decide_true by done.
    by rewrite Split_lacks.
  - change (String a s +:+ String c x) with (String a (s +:+ String c x)). simpl.
    destruct (Split c (s +:+ String c x)) as [|y l] eqn:Hs; [by apply Split_nonempty in Hs|].
    case_bool; [by rewrite last_cons_cons|]. destruct l as [|z l]; [|by rewrite !last_cons_cons in *].
    exfalso. apply (f_equal length) in Hs. rewrite length_Split_app in Hs. pose proof (Split_nonempty c s).
    destruct (Split c s), (Split c x) eqn:Hx'; simpl in Hs; [done..|by apply Split_nonempty in Hx'|lia].
Qed.

Lemma pathBase_app p x : lacks "/" x → x ≠ "" → pathBase (p +:+ "/" +:+ x) = x.
Proof.
  intros Hx Hne. unfold pathBase. rewrite bool_decide_false by (destruct p; done).
  pose proof (last_Split "/" x Hx p) as Hl. change ("/" +:+ x) with (String "/" x).
  apply last_Some in Hl as [l ->]. rewrite filter_app, filter_cons_True by done. by rewrite last_app.
Qed.

(** A list of words is determined by its text. *)
Lemma fmtSlice_inj l k s t :
  Forall (λ w, w ≠ "" ∧ lacks " " w ∧ lacks "]" w) l → Forall (λ w, w ≠ "" ∧ lacks " " w ∧ lacks "]" w) k →
  fmtSlice l +:+ s = fmtSlice k +:+ t → l = k ∧ s = t.
Proof.
  assert (∀ l, Forall (λ w, w ≠ "" ∧ lacks " " w ∧ lacks "]" w) l → lacks "]" (Join_strings " " l) ∧
    (Join_strings " " l = "" → l = []) ∧ Forall (lacks " ") l) as Hj.
  { clear. intros l Hl. split_and!; [| |by eapply Forall_impl; [exact Hl|]; intros ? (_ & ? & _)].
    - induction Hl as [|w l (_ & _ & Hw) Hl IH]; [done|]. destruct l as [|w' l]; [done|].
      apply lacks_app. split; [done|]. by apply (lacks_app _ " ").
    - destruct Hl as [|w l (Hw & _) _]; [done|]. destruct l, w; done. }
  intros Hl Hk Heq. destruct (Hj l Hl) as (Hl1 & Hl2 & Hl3), (Hj k Hk) as (Hk1 & Hk2 & Hk3).
  unfold fmtSlice in Heq. rewrite !app_assoc_s in Heq. apply (app_inj_s "[" "[") in Heq as [_ Heq]; [|done].
  apply cut_eq in Heq as [Heq <-]; [|done..]. split; [|done].
  destruct (decide (l = [])) as [->|Hnl]; [symmetry; by apply Hk2|].
  destruct (decide (k = [])) as [->|Hnk]; [by destruct Hnl; apply Hl2|].
  rewrite <-(Split_Join " " l), <-(Split_Join " " k) by done. by f_equal.
Qed.

Lemma Split_single c s : length (Split c s) = 1 → lacks c s.
Proof.
  induction s as [|a s IH]; [done|]. simpl. pose proof (Split_nonempty c s) as Hne. case_bool; simpl.
  - destruct (Split c s); [done|]. simpl. lia.
  - destruct (Split c s) as [|x l] eqn:Hs; [done|]. simpl in *. auto.
Qed.

Lemma lacks_Join c sep l : lacks c (Join_strings sep l) → l ≠ [] → Forall (lacks c) l.
Proof.
  induction l as [|x l IH]; [done|]. destruct l as [|y l]; [by repeat constructor|].
  change (Join_strings sep (x :: y :: l)) with (x +:+ sep +:+ Join_strings sep (y :: l)).
  rewrite !lacks_app. intros (Hx & _ & Hl) _. constructor; auto.
Qed.

Lemma lacks_Join_2 c sep l : lacks c sep → Forall (lacks c) l → lacks c (Join_strings sep l).
Proof.
  intros Hs. induction 1 as [|x l Hx Hl IH]; [done|]. destruct l as [|y l]; [done|].
  change (Join_strings sep (x :: y :: l)) with (x +:+ sep +:+ Join_strings sep (y :: l)).
  by rewrite !lacks_app.
Qed.

(** A map that prints like one with a single plain entry is that map. *)
Lemma MapAsString_single `{MapOrder} n m k v :
  lacks " " k → lacks " " v → lacks "=" k → lacks "=" v →
  MapAsString n m = MapAsString n {[k := v]} → m = {[k := v]}.
Proof.
  intros Hk Hv Hk' Hv'. unfold MapAsString.
  assert (range n ({[k := v]} : gmap string string) = [(k, v)]) as ->.
  { apply Permutation_singleton_r. rewrite range_perm. by rewrite map_to_list_singleton. }
  intros Heq. unfold fmtSlice in Heq. apply (app_inj_s "[" "[") in Heq as [_ Heq]; [|done].
  apply (app_inj_r _ _ "]" "]") in Heq as [Heq _]; [|done].
  change (Join_strings " " (Strings_sort ((λ kv : string * string, kv.1 +:+ "=" +:+ kv.2) <$> [(k, v)])))
    with (k +:+ "=" +:+ v) in Heq.
  set (l := Strings_sort _) in Heq.
  assert (l ≡ₚ (λ kv, kv.1 +:+ "=" +:+ kv.2) <$> map_to_list m) as Hl.
  { unfold l. by rewrite Strings_sort_perm, range_perm. }
  assert (lacks " " (Join_strings " " l)) as Hsp by (rewrite Heq; by rewrite !lacks_app).
  destruct l as [|x [|y l']].
  - exfalso. by destruct k.
  - symmetry in Hl. apply Permutation_singleton_r in Hl. destruct (map_to_list m) as [|[k' v'] [|]] eqn:Hm; [done| |done].
    simpl in Hl. injection Hl as Hx. simpl in Heq.
    assert (lacks "=" k') as Hk1.
    { apply Split_single. pose proof (length_Split_app "=" k' v') as Hlen.
      change (String "=" v') with ("=" +:+ v') in Hlen. rewrite Hx, Heq in Hlen.
      change ("=" +:+ v) with (String "=" v) in Hlen. rewrite Split_cons, Split_lacks in Hlen by done.
      simpl in Hlen. pose proof (Split_nonempty "=" k'). pose proof (Split_nonempty "=" v').
      destruct (Split "=" k'), (Split "=" v'); simpl in *; try done; lia. }
    rewrite Heq in Hx. apply cut_eq in Hx as [<- <-]; [|done..].
    apply map_to_list_inj. rewrite Hm. by rewrite map_to_list_singleton.
  - change (Join_strings " " (x :: y :: l')) with (x +:+ " " +:+ Join_strings " " (y :: l')) in Hsp.
    rewrite !lacks_app in Hsp. destruct Hsp as (_ & [Hc _] & _). by destruct Hc.
Qed.

(** ** Properties *)

(** [SliceCmp] is a total order on slices of strings ([-1], [0] and [1]
    as documented): it is [0] exactly on equal slices, antisymmetric and
    transitive, so [SliceEq] decides equality and the row orders built on it
    sort deterministically. *)
Theorem SliceCmp_total_order x y z :
  (SliceCmp x y = 0%Z ↔ x = y) ∧ SliceCmp y x = (- SliceCmp x y)%Z ∧
  (SliceCmp x y = -1 ∨ SliceCmp x y = 0 ∨ SliceCmp x y = 1)%Z ∧
  (SliceCmp x y = (-1)%Z → SliceCmp y z = (-1)%Z → SliceCmp x z = (-1)%Z) ∧
  (SliceEq x y = true ↔ x = y).
Proof.
  split_and!; [apply SliceCmp_eq|apply SliceCmp_antisym|apply SliceCmp_range|apply SliceCmp_trans|].
  unfold SliceEq. by rewrite bool_decide_eq_true, SliceCmp_eq.
Qed.

(** [MapAsString] is deterministic: whatever orders Go iterates in, two
    runs on the same map give the same string. *)
Theorem MapAsString_deterministic (O1 O2 : MapOrder) n1 n2 (m : gmap string string) :
  @MapAsString O1 n1 m = @MapAsString O2 n2 m.
Proof.
  unfold MapAsString. f_equal. apply Strings_sort_unique. by rewrite !range_perm.
Qed.

Example MapAsString_example :
  MapAsString 0 (<["b":="2"]> (<["a":="1"]> ∅)) = "[a=1 b=2]".
Proof. vm_compute. reflexivity. Qed.
