(* ===== verification/Blueprint.v ===== *)
(** * Package blueprint: the policy language's deployment representation

    The data types of [src/blueprint/blueprint.go] and the functions on
    [ContainerValue].  Parsing the JSON text itself is Go's encoding/json and
    running the user's JavaScript is node, neither of which is modelled. *)

From S2P Require Import Prelude.

Definition PublicInternetLabel : string := "public".

(** [ContainerValue] wraps an [interface{}] that should be a string or a
    [Secret]; [OtherValue] stands for any other dynamic type (such as nil). *)
Inductive ContainerValue :=
  | StringValue (s : string)
  | SecretValue (NameOfSecret : string)
  | OtherValue.
#[export] Instance ContainerValue_eq_dec : EqDecision ContainerValue.
Proof. solve_decision. Defined.

(** [blueprint.Placement] *)
Record bpPlacement := mk_bpPlacement {
  bpp_TargetContainer : string;
  bpp_Exclusive : bool;
  bpp_Provider : string;
  bpp_Size : string;
  bpp_Region : string;
  bpp_FloatingIP : string;
}.
#[export] Instance bpPlacement_eq_dec : EqDecision bpPlacement.
Proof. solve_decision. Defined.

(** [blueprint.Image] *)
Record bpImage := mk_bpImage {
  bpi_Name : string;
  bpi_Dockerfile : string;
}.
#[export] Instance bpImage_eq_dec : EqDecision bpImage.
Proof. solve_decision. Defined.

#[export] Program Instance bpImage_countable : Countable bpImage :=
  inj_countable' (λ i, (bpi_Name i, bpi_Dockerfile i)) (λ p, mk_bpImage p.1 p.2) _.
Next Obligation. by intros []. Qed.

(** [blueprint.VolumeMount] *)
Record VolumeMount := mk_VolumeMount {
  vm_VolumeName : string;
  vm_MountPath : string;
}.
#[export] Instance VolumeMount_eq_dec : EqDecision VolumeMount.
Proof. solve_decision. Defined.

(** [blueprint.Container] *)
Record bpContainer := mk_bpContainer {
  bpc_ID : string;
  bpc_Image : bpImage;
  bpc_Command : list string;
  bpc_Env : gmap string ContainerValue;
  bpc_FilepathToContent : gmap string ContainerValue;
  bpc_Hostname : string;
  bpc_Privileged : bool;
  bpc_VolumeMounts : list VolumeMount;
}.
#[export] Instance bpContainer_eq_dec : EqDecision bpContainer.
Proof. solve_decision. Defined.

(** [blueprint.Volume] *)
Record Volume := mk_Volume {
  vol_Name : string;
  vol_Type : string;
  vol_Conf : gmap string string;
}.
#[export] Instance Volume_eq_dec : EqDecision Volume.
Proof. solve_decision. Defined.

(** [blueprint.LoadBalancer] *)
Record bpLoadBalancer := mk_bpLoadBalancer {
  bpl_Name : string;
  bpl_Hostnames : list string;
}.
#[export] Instance bpLoadBalancer_eq_dec : EqDecision bpLoadBalancer.
Proof. solve_decision. Defined.

(** [blueprint.Connection] *)
Record bpConnection := mk_bpConnection {
  bpcn_From : list string;
  bpcn_To : list string;
  bpcn_MinPort : Z;
  bpcn_MaxPort : Z;
}.
#[export] Instance bpConnection_eq_dec : EqDecision bpConnection.
Proof. solve_decision. Defined.

(** [blueprint.Machine] *)
Record bpMachine := mk_bpMachine {
  bpm_Provider : string;
  bpm_Role : string;
  bpm_Size : string;
  bpm_DiskSize : Z;
  bpm_Region : string;
  bpm_SSHKeys : list string;
  bpm_FloatingIP : string;
  bpm_Preemptible : bool;
}.
#[export] Instance bpMachine_eq_dec : EqDecision bpMachine.
Proof. solve_decision. Defined.

(** [blueprint.Blueprint] *)
Record bpBlueprint := mk_bpBlueprint {
  bp_Containers : list bpContainer;
  bp_LoadBalancers : list bpLoadBalancer;
  bp_Connections : list bpConnection;
  bp_Placements : list bpPlacement;
  bp_Machines : list bpMachine;
  bp_Volumes : list Volume;
  bp_AdminACL : list string;
  bp_Namespace : string;
}.
#[export] Instance bpBlueprint_eq_dec : EqDecision bpBlueprint.
Proof. solve_decision. Defined.

Definition empty_blueprint : bpBlueprint := mk_bpBlueprint [] [] [] [] [] [] [] "".

Definition NewSecret (name : string) : ContainerValue := SecretValue name.
Definition NewString (str : string) : ContainerValue := StringValue str.

(** [DivideContainerValues] splits a map of values into the plain strings and
    the secret names; the loop runs in the order [n]. *)
Definition divideStep (acc : outcome (gmap string string * gmap string string))
    (nv : string * ContainerValue) : outcome (gmap string string * gmap string string) :=
  let! (rawStrings, secrets) := acc in
  match nv.2 with
  | StringValue val => Ok (<[nv.1 := val]> rawStrings, secrets)
  | SecretValue val => Ok (rawStrings, <[nv.1 := val]> secrets)
  | OtherValue => Panic "unreached"
  end.

Definition DivideContainerValues `{MapOrder} (n : nat) (vs : gmap string ContainerValue)
    : outcome (gmap string string * gmap string string) :=
  foldl divideStep (Ok (∅, ∅)) (range n vs).

(** [ContainerValue.String] *)
Definition ContainerValue_String (cv : ContainerValue) : string :=
  match cv with
  | StringValue v => v
  | SecretValue v => "Secret: " +:+ v
  | OtherValue => "<nil>"
  end.

(** ** Properties *)

(** The loop keeps, for the values seen so far, exactly the split it returns. *)
Lemma divideStep_loop (l : list (string * ContainerValue)) (raw sec : gmap string string) :
  NoDup l.*1 → OtherValue ∉ l.*2 →
  ∃ raw' sec' : gmap string string, foldl divideStep (Ok (raw, sec)) l = Ok (raw', sec') ∧
    ∀ k, k ∉ l.*1 ∧ raw' !! k = raw !! k ∧ sec' !! k = sec !! k ∨
      (∃ v, (k, StringValue v) ∈ l ∧ raw' !! k = Some v ∧ sec' !! k = sec !! k) ∨
      (∃ v, (k, SecretValue v) ∈ l ∧ sec' !! k = Some v ∧ raw' !! k = raw !! k).
Proof.
  revert raw sec. induction l as [|[k0 cv] l IH]; intros raw sec Hnd Ho; simpl in *.
  { exists raw, sec. split; [done|]. intros k. left. split; [set_solver|done]. }
  apply NoDup_cons in Hnd as [Hk0 Hnd]. apply not_elem_of_cons in Ho as [Hcv Ho].
  assert (∀ cv, (k0, cv) ∉ l) as Hk0'.
  { intros cv' Hin. by apply (list_elem_of_fmap_2 fst) in Hin. }
  destruct cv as [v|v|]; [| |done]; simpl.
  - destruct (IH (<[k0:=v]> raw) sec Hnd Ho) as (r' & s' & -> & Hspec).
    exists r', s'. split; [done|]. intros k. specialize (Hspec k).
    destruct (decide (k = k0)) as [->|Hne];
      rewrite ?lookup_insert_eq, ?lookup_insert_ne in Hspec by done; set_solver.
  - destruct (IH raw (<[k0:=v]> sec) Hnd Ho) as (r' & s' & -> & Hspec).
    exists r', s'. split; [done|]. intros k. specialize (Hspec k).
    destruct (decide (k = k0)) as [->|Hne];
      rewrite ?lookup_insert_eq, ?lookup_insert_ne in Hspec by done; set_solver.
Qed.

(** on values that are strings or secrets, [DivideContainerValues] does not
    panic and splits the map exactly: the first result holds the plain strings,
    the second the secret names, in any iteration order. *)
Theorem DivideContainerValues_correct `{MapOrder} n (vs : gmap string ContainerValue) :
  (∀ k, vs !! k ≠ Some OtherValue) →
  ∃ raw sec, DivideContainerValues n vs = Ok (raw, sec) ∧
    ∀ k, raw !! k = match vs !! k with Some (StringValue v) => Some v | _ => None end ∧
         sec !! k = match vs !! k with Some (SecretValue v) => Some v | _ => None end.
Proof.
  intros Ho.
  destruct (divideStep_loop (range n vs) ∅ ∅) as (raw & sec & Heq & Hspec).
  { apply NoDup_range_fst. }
  { intros [k Hk]%range_vals. by apply (Ho k). }
  exists raw, sec. split; [exact Heq|]. intros k.
  destruct (Hspec k) as [(Hk & Hr & Hs)|[(v & Hin & Hr & Hs)|(v & Hin & Hs & Hr)]].
  - destruct (vs !! k) as [v|] eqn:Hv; [|by rewrite Hr, Hs].
    destruct Hk. apply (elem_of_range n) in Hv.
    by apply (list_elem_of_fmap_2 fst) in Hv.
  - apply elem_of_range in Hin. by rewrite Hin, Hr, Hs.
  - apply elem_of_range in Hin. by rewrite Hin, Hr, Hs.
Qed.

Lemma DivideContainerValues_correct_witness :
  ∃ raw sec, DivideContainerValues 0
      (<["PW":=SecretValue "pw"]> (<["USER":=StringValue "bob"]> ∅)) = Ok (raw, sec) ∧
    raw !! "USER" = Some "bob" ∧ sec !! "PW" = Some "pw".
Proof.
  destruct (DivideContainerValues_correct 0
    (<["PW":=SecretValue "pw"]> (<["USER":=StringValue "bob"]> ∅))) as (raw & sec & Heq & Hk).
  - intros k. rewrite !lookup_insert, lookup_empty. by repeat case_decide.
  - exists raw, sec. split; [exact Heq|]. split; [apply (Hk "USER")|apply (Hk "PW")].
Defined.
