(* ===== verification/DbRows.v ===== *)
(** * Package db, part 1: the rows of the database

    The row types of [src/db/] (one file per table there), the constants of
    [constants.go], the [less] orders and the other pure functions on rows.
    Slices are lists, with no difference between nil and empty; [time.Time] is
    the integer number of nanoseconds since Go's zero time. *)

From S2P Require Import Prelude GoStrings Blueprint.

(** ** Roles and providers ([constants.go]) *)

(** [db.Role] is a string type with three constants. *)
Definition None_ : string := "".
Definition Worker : string := "Worker".
Definition Master : string := "Master".

(** The protobuf enumeration [pb.MinionConfig_Role]. *)
Inductive PBRole := PB_NONE | PB_WORKER | PB_MASTER.
#[export] Instance PBRole_eq_dec : EqDecision PBRole.
Proof. solve_decision. Defined.

Definition RoleToPB (r : string) : outcome PBRole :=
  if bool_decide (r = None_) then Ok PB_NONE
  else if bool_decide (r = Worker) then Ok PB_WORKER
  else if bool_decide (r = Master) then Ok PB_MASTER
  else Panic "Not Reached".

Definition PBToRole (p : PBRole) : string :=
  match p with PB_NONE => None_ | PB_WORKER => Worker | PB_MASTER => Master end.

Definition Amazon : string := "Amazon".
Definition Google : string := "Google".
Definition DigitalOcean : string := "DigitalOcean".
Definition Vagrant : string := "Vagrant".

Definition AllProviders : list string := [Amazon; Google; DigitalOcean; Vagrant].

Definition ParseRole (role : string) : result string :=
  if bool_decide (role = "Master") then Val Master
  else if bool_decide (role = "Worker") then Val Worker
  else if bool_decide (role = "") then Val None_
  else Err "unknown role".

(** ** Row types *)

(** [db.Blueprint] *)
Record Blueprint := mk_Blueprint {
  b_ID : Z;
  b_Blueprint : bpBlueprint;
}.
#[export] Instance Blueprint_eq_dec : EqDecision Blueprint.
Proof. solve_decision. Defined.

(** [db.Machine] *)
Record Machine := mk_Machine {
  m_ID : Z;
  m_Provider : string;
  m_Region : string;
  m_Size : string;
  m_DiskSize : Z;
  m_SSHKeys : list string;
  m_FloatingIP : string;
  m_Preemptible : bool;
  m_CloudID : string;
  m_PublicIP : string;
  m_PrivateIP : string;
  m_Status : string;
  m_Role : string;
  m_Connected : bool;
}.
#[export] Instance Machine_eq_dec : EqDecision Machine.
Proof. solve_decision. Defined.
Definition set_m_ID (v : Z) (r : Machine) : Machine :=
  mk_Machine v (m_Provider r) (m_Region r) (m_Size r) (m_DiskSize r) (m_SSHKeys r) (m_FloatingIP r) (m_Preemptible r) (m_CloudID r) (m_PublicIP r) (m_PrivateIP r) (m_Status r) (m_Role r) (m_Connected r).
Definition set_m_SSHKeys (v : list string) (r : Machine) : Machine :=
  mk_Machine (m_ID r) (m_Provider r) (m_Region r) (m_Size r) (m_DiskSize r) v (m_FloatingIP r) (m_Preemptible r) (m_CloudID r) (m_PublicIP r) (m_PrivateIP r) (m_Status r) (m_Role r) (m_Connected r).
Definition set_m_FloatingIP (v : string) (r : Machine) : Machine :=
  mk_Machine (m_ID r) (m_Provider r) (m_Region r) (m_Size r) (m_DiskSize r) (m_SSHKeys r) v (m_Preemptible r) (m_CloudID r) (m_PublicIP r) (m_PrivateIP r) (m_Status r) (m_Role r) (m_Connected r).
Definition set_m_Status (v : string) (r : Machine) : Machine :=
  mk_Machine (m_ID r) (m_Provider r) (m_Region r) (m_Size r) (m_DiskSize r) (m_SSHKeys r) (m_FloatingIP r) (m_Preemptible r) (m_CloudID r) (m_PublicIP r) (m_PrivateIP r) v (m_Role r) (m_Connected r).
Definition set_m_Role (v : string) (r : Machine) : Machine :=
  mk_Machine (m_ID r) (m_Provider r) (m_Region r) (m_Size r) (m_DiskSize r) (m_SSHKeys r) (m_FloatingIP r) (m_Preemptible r) (m_CloudID r) (m_PublicIP r) (m_PrivateIP r) (m_Status r) v (m_Connected r).
Definition set_m_Connected (v : bool) (r : Machine) : Machine :=
  mk_Machine (m_ID r) (m_Provider r) (m_Region r) (m_Size r) (m_DiskSize r) (m_SSHKeys r) (m_FloatingIP r) (m_Preemptible r) (m_CloudID r) (m_PublicIP r) (m_PrivateIP r) (m_Status r) (m_Role r) v.

(** [db.Container] *)
Record Container := mk_Container {
  c_ID : Z;
  c_IP : string;
  c_Minion : string;
  c_BlueprintID : string;
  c_PodName : string;
  c_Status : string;
  c_Command : list string;
  c_Env : gmap string ContainerValue;
  c_FilepathToContent : gmap string ContainerValue;
  c_Hostname : string;
  c_Created : Z;
  c_Privileged : bool;
  c_VolumeMounts : list VolumeMount;
  c_Image : string;
  c_Dockerfile : string;
}.
#[export] Instance Container_eq_dec : EqDecision Container.
Proof. solve_decision. Defined.
Definition set_c_IP (v : string) (r : Container) : Container :=
  mk_Container (c_ID r) v (c_Minion r) (c_BlueprintID r) (c_PodName r) (c_Status r) (c_Command r) (c_Env r) (c_FilepathToContent r) (c_Hostname r) (c_Created r) (c_Privileged r) (c_VolumeMounts r) (c_Image r) (c_Dockerfile r).

(** [db.Minion] *)
Record Minion := mk_Minion {
  mi_ID : Z;
  mi_Self : bool;
  mi_AuthorizedKeys : string;
  mi_Role : string;
  mi_PrivateIP : string;
  mi_Provider : string;
  mi_Size : string;
  mi_Region : string;
  mi_FloatingIP : string;
  mi_HostSubnets : list string;
}.
#[export] Instance Minion_eq_dec : EqDecision Minion.
Proof. solve_decision. Defined.
Definition set_mi_HostSubnets (v : list string) (r : Minion) : Minion :=
  mk_Minion (mi_ID r) (mi_Self r) (mi_AuthorizedKeys r) (mi_Role r) (mi_PrivateIP r) (mi_Provider r) (mi_Size r) (mi_Region r) (mi_FloatingIP r) v.

(** [db.Connection]: two hostnames may speak on the ports [MinPort..MaxPort] *)
Record Connection := mk_Connection {
  cn_ID : Z;
  cn_From : list string;
  cn_To : list string;
  cn_MinPort : Z;
  cn_MaxPort : Z;
}.
#[export] Instance Connection_eq_dec : EqDecision Connection.
Proof. solve_decision. Defined.

(** [db.LoadBalancer] *)
Record LoadBalancer := mk_LoadBalancer {
  lb_ID : Z;
  lb_Name : string;
  lb_IP : string;
  lb_Hostnames : list string;
}.
#[export] Instance LoadBalancer_eq_dec : EqDecision LoadBalancer.
Proof. solve_decision. Defined.
Definition set_lb_IP (v : string) (r : LoadBalancer) : LoadBalancer :=
  mk_LoadBalancer (lb_ID r) (lb_Name r) v (lb_Hostnames r).

(** [db.Etcd] *)
Record Etcd := mk_Etcd {
  e_ID : Z;
  e_EtcdIPs : list string;
  e_Leader : bool;
  e_LeaderIP : string;
}.
#[export] Instance Etcd_eq_dec : EqDecision Etcd.
Proof. solve_decision. Defined.

(** [db.Placement] *)
Record Placement := mk_Placement {
  p_ID : Z;
  p_TargetContainer : string;
  p_Exclusive : bool;
  p_OtherContainer : string;
  p_Provider : string;
  p_Size : string;
  p_Region : string;
  p_FloatingIP : string;
}.
#[export] Instance Placement_eq_dec : EqDecision Placement.
Proof. solve_decision. Defined.
#[export] Program Instance Placement_countable : Countable Placement :=
  inj_countable'
    (λ p, (p_ID p, p_TargetContainer p, p_Exclusive p, p_OtherContainer p,
           p_Provider p, p_Size p, p_Region p, p_FloatingIP p))
    (λ '(a, b, c, d, e, f, g, h), mk_Placement a b c d e f g h) _.
Next Obligation. by intros []. Qed.
Definition set_p_ID (v : Z) (r : Placement) : Placement :=
  mk_Placement v (p_TargetContainer r) (p_Exclusive r) (p_OtherContainer r) (p_Provider r) (p_Size r) (p_Region r) (p_FloatingIP r).

(** [db.Image] *)
Record Image := mk_Image {
  im_ID : Z;
  im_Name : string;
  im_Dockerfile : string;
  im_RepoDigest : string;
  im_Status : string;
}.
#[export] Instance Image_eq_dec : EqDecision Image.
Proof. solve_decision. Defined.
(** The statuses of an image. *)
Definition Building : string := "building".
Definition Built : string := "built".

(** [db.Hostname] *)
Record Hostname := mk_Hostname {
  h_ID : Z;
  h_Hostname : string;
  h_IP : string;
}.
#[export] Instance Hostname_eq_dec : EqDecision Hostname.
Proof. solve_decision. Defined.
#[export] Program Instance Hostname_countable : Countable Hostname :=
  inj_countable' (λ h, (h_ID h, h_Hostname h, h_IP h)) (λ '(a, b, c), mk_Hostname a b c) _.
Next Obligation. by intros []. Qed.
Definition set_h_ID (v : Z) (r : Hostname) : Hostname :=
  mk_Hostname v (h_Hostname r) (h_IP r).

(** The [row] interface: its dynamic types. *)
Inductive row :=
  | RBlueprint (b : Blueprint)
  | RMachine (m : Machine)
  | RContainer (c : Container)
  | RMinion (m : Minion)
  | RConnection (c : Connection)
  | RLoadBalancer (l : LoadBalancer)
  | REtcd (e : Etcd)
  | RPlacement (p : Placement)
  | RImage (i : Image)
  | RHostname (h : Hostname).
#[export] Instance row_eq_dec : EqDecision row.
Proof. solve_decision. Defined.

Definition getID (r : row) : Z :=
  match r with
  | RBlueprint b => b_ID b
  | RMachine m => m_ID m
  | RContainer c => c_ID c
  | RMinion m => mi_ID m
  | RConnection c => cn_ID c
  | RLoadBalancer l => lb_ID l
  | REtcd e => e_ID e
  | RPlacement p => p_ID p
  | RImage i => im_ID i
  | RHostname h => h_ID h
  end.

(** ** Tables ([table.go]): a [TableType] is the name of the row's Go type. *)

Definition BlueprintTable : string := "db.Blueprint".
Definition MachineTable : string := "db.Machine".
Definition ContainerTable : string := "db.Container".
Definition MinionTable : string := "db.Minion".
Definition ConnectionTable : string := "db.Connection".
Definition LoadBalancerTable : string := "db.LoadBalancer".
Definition EtcdTable : string := "db.Etcd".
Definition PlacementTable : string := "db.Placement".
Definition ImageTable : string := "db.Image".
Definition HostnameTable : string := "db.Hostname".

Definition AllTables : list string :=
  [BlueprintTable; MachineTable; ContainerTable; MinionTable; ConnectionTable;
   LoadBalancerTable; EtcdTable; PlacementTable; ImageTable; HostnameTable].

(** [getTableType], which is also [reflect.TypeOf] as a string. *)
Definition getTableType (r : row) : string :=
  match r with
  | RBlueprint _ => BlueprintTable
  | RMachine _ => MachineTable
  | RContainer _ => ContainerTable
  | RMinion _ => MinionTable
  | RConnection _ => ConnectionTable
  | RLoadBalancer _ => LoadBalancerTable
  | REtcd _ => EtcdTable
  | RPlacement _ => PlacementTable
  | RImage _ => ImageTable
  | RHostname _ => HostnameTable
  end.

(** What a row type provides to the generic database operations: its table,
    the zero row with an ID, and the conversions to and from the interface
    (a type assertion [r.(T)] is [row_prj], a panic when it is [None]). *)
Class RowType (T : Type) := {
  row_table : string;
  row_zero : Z → T;
  row_inj : T → row;
  row_prj : row → option T;
  row_prj_inj : ∀ t, row_prj (row_inj t) = Some t;
  row_inj_prj : ∀ r, getTableType r = row_table → ∃ t, r = row_inj t;
  row_inj_table : ∀ t, getTableType (row_inj t) = row_table;
  row_zero_id : ∀ i, getID (row_inj (row_zero i)) = i;
}.
#[global] Hint Mode RowType ! : typeclass_instances.
Arguments row_table T {_}.

(** The ID of a typed row. *)
Definition rowID {T} `{RowType T} (t : T) : Z := getID (row_inj t).

Ltac solve_row_type :=
  try done; intros []; simpl; try done; by eauto.

#[export] Instance Blueprint_row : RowType Blueprint.
Proof.
  refine {|
    row_table := BlueprintTable;
    row_zero i := mk_Blueprint i empty_blueprint%Z;
    row_inj := RBlueprint;
    row_prj r := match r with RBlueprint t => Some t | _ => None end;
  |}; solve_row_type.
Defined.

#[export] Instance Machine_row : RowType Machine.
Proof.
  refine {|
    row_table := MachineTable;
    row_zero i := mk_Machine i "" "" "" 0 [] "" false "" "" "" "" "" false%Z;
    row_inj := RMachine;
    row_prj r := match r with RMachine t => Some t | _ => None end;
  |}; solve_row_type.
Defined.

#[export] Instance Container_row : RowType Container.
Proof.
  refine {|
    row_table := ContainerTable;
    row_zero i := mk_Container i "" "" "" "" "" [] ∅ ∅ "" 0 false [] "" ""%Z;
    row_inj := RContainer;
    row_prj r := match r with RContainer t => Some t | _ => None end;
  |}; solve_row_type.
Defined.

#[export] Instance Minion_row : RowType Minion.
Proof.
  refine {|
    row_table := MinionTable;
    row_zero i := mk_Minion i false "" "" "" "" "" "" "" []%Z;
    row_inj := RMinion;
    row_prj r := match r with RMinion t => Some t | _ => None end;
  |}; solve_row_type.
Defined.

#[export] Instance Connection_row : RowType Connection.
Proof.
  refine {|
    row_table := ConnectionTable;
    row_zero i := mk_Connection i [] [] 0 0%Z;
    row_inj := RConnection;
    row_prj r := match r with RConnection t => Some t | _ => None end;
  |}; solve_row_type.
Defined.

#[export] Instance LoadBalancer_row : RowType LoadBalancer.
Proof.
  refine {|
    row_table := LoadBalancerTable;
    row_zero i := mk_LoadBalancer i "" "" []%Z;
    row_inj := RLoadBalancer;
    row_prj r := match r with RLoadBalancer t => Some t | _ => None end;
  |}; solve_row_type.
Defined.

#[export] Instance Etcd_row : RowType Etcd.
Proof.
  refine {|
    row_table := EtcdTable;
    row_zero i := mk_Etcd i [] false ""%Z;
    row_inj := REtcd;
    row_prj r := match r with REtcd t => Some t | _ => None end;
  |}; solve_row_type.
Defined.

#[export] Instance Placement_row : RowType Placement.
Proof.
  refine {|
    row_table := PlacementTable;
    row_zero i := mk_Placement i "" false "" "" "" "" ""%Z;
    row_inj := RPlacement;
    row_prj r := match r with RPlacement t => Some t | _ => None end;
  |}; solve_row_type.
Defined.

#[export] Instance Image_row : RowType Image.
Proof.
  refine {|
    row_table := ImageTable;
    row_zero i := mk_Image i "" "" "" ""%Z;
    row_inj := RImage;
    row_prj r := match r with RImage t => Some t | _ => None end;
  |}; solve_row_type.
Defined.

#[export] Instance Hostname_row : RowType Hostname.
Proof.
  refine {|
    row_table := HostnameTable;
    row_zero i := mk_Hostname i "" ""%Z;
    row_inj := RHostname;
    row_prj r := match r with RHostname t => Some t | _ => None end;
  |}; solve_row_type.
Defined.

(** ** Machines ([machine.go]) *)

Definition Stopping : string := "stopping".
Definition Booting : string := "booting".
Definition Connecting : string := "connecting".
Definition Reconnecting : string := "reconnecting".
Definition Connected : string := "connected".

Definition ConnectionStatus (m : Machine) : string :=
  let connected := bool_decide (m_PublicIP m ≠ "") && m_Connected m in
  if connected then Connected
  else if bool_decide (m_Status m = Connected) || bool_decide (m_Status m = Reconnecting)
  then Reconnecting
  else if bool_decide (m_PublicIP m ≠ "") then Connecting
  else "".

(** [Machine.String] *)
Definition Machine_String (m : Machine) : string :=
  let tags := if bool_decide (m_Role m ≠ "") then [m_Role m] else [] in
  let machineAttrs := [m_Provider m; m_Region m; m_Size m] ++
    (if m_Preemptible m then ["preemptible"] else []) in
  let tags := tags ++ [Join_strings " " machineAttrs] in
  let tags := tags ++ (if bool_decide (m_CloudID m ≠ "") then [m_CloudID m] else []) in
  let tags := tags ++
    (if bool_decide (m_PublicIP m ≠ "") then ["PublicIP=" +:+ m_PublicIP m] else []) in
  let tags := tags ++
    (if bool_decide (m_PrivateIP m ≠ "") then ["PrivateIP=" +:+ m_PrivateIP m] else []) in
  let tags := tags ++
    (if bool_decide (m_FloatingIP m ≠ "") then ["FloatingIP=" +:+ m_FloatingIP m] else []) in
  let tags := tags ++
    (if bool_decide (m_DiskSize m ≠ 0)%Z then ["Disk=" +:+ fmtInt (m_DiskSize m) +:+ "GB"] else []) in
  let tags := tags ++ (if bool_decide (m_Status m ≠ "") then [m_Status m] else []) in
  "Machine-" +:+ fmtInt (m_ID m) +:+ "{" +:+ Join_strings ", " tags +:+ "}".

(** ** The default sort orders ([less] of each row type) *)

Definition Machine_less (l r : Machine) : bool :=
  if bool_decide (m_Role l ≠ m_Role r) then
    bool_decide (m_Role l = Master) || bool_decide (m_Role r = "")
  else if bool_decide (m_CloudID l ≠ m_CloudID r) then strLess (m_CloudID r) (m_CloudID l)
  else bool_decide (m_ID l < m_ID r)%Z.

Definition Container_less (c r : Container) : bool := strLess (c_BlueprintID c) (c_BlueprintID r).

Definition Connection_less (c o : Connection) : bool :=
  if bool_decide (SliceCmp (cn_From c) (cn_From o) ≠ 0)%Z then
    bool_decide (SliceCmp (cn_From c) (cn_From o) < 0)%Z
  else if bool_decide (SliceCmp (cn_To c) (cn_To o) ≠ 0)%Z then
    bool_decide (SliceCmp (cn_To c) (cn_To o) < 0)%Z
  else if bool_decide (cn_MaxPort c ≠ cn_MaxPort o)%Z then
    bool_decide (cn_MaxPort c < cn_MaxPort o)%Z
  else if bool_decide (cn_MinPort c ≠ cn_MinPort o)%Z then
    bool_decide (cn_MinPort c < cn_MinPort o)%Z
  else bool_decide (cn_ID c < cn_ID o)%Z.

Definition LoadBalancer_less (lb lb2 : LoadBalancer) : bool :=
  if bool_decide (lb_Name lb ≠ lb_Name lb2) then strLess (lb_Name lb) (lb_Name lb2)
  else bool_decide (lb_ID lb < lb_ID lb2)%Z.

Definition Hostname_less (r r2 : Hostname) : bool :=
  if bool_decide (h_Hostname r ≠ h_Hostname r2) then strLess (h_Hostname r) (h_Hostname r2)
  else bool_decide (h_ID r < h_ID r2)%Z.

Definition Minion_less (m r : Minion) : bool := bool_decide (mi_ID m < mi_ID r)%Z.
Definition Image_less (i r : Image) : bool := bool_decide (im_ID i < im_ID r)%Z.
Definition Placement_less (p r : Placement) : bool := bool_decide (p_ID p < p_ID r)%Z.
Definition Etcd_less (e r : Etcd) : bool := bool_decide (e_ID e < e_ID r)%Z.
Definition Blueprint_less (b r : Blueprint) : bool := bool_decide (b_ID b < b_ID r)%Z.

(** [sort.Sort] by a [less] function: Go leaves the order of elements neither
    of which is less unspecified; one such order is chosen here. *)
Definition notLess {T} (less : T → T → bool) : relation T := λ x y, less y x = false.
#[export] Instance notLess_dec {T} (less : T → T → bool) : RelDecision (notLess less).
Proof. unfold notLess. solve_decision. Defined.

Definition sort_by {T} (less : T → T → bool) (l : list T) : list T :=
  merge_sort (notLess less) l.

(** Any [sort.Sort]: a permutation, sorted when [less] is a strict weak order. *)
Class GoSort := {
  Sort : ∀ {A}, (A → A → bool) → list A → list A;
  Sort_perm : ∀ A (less : A → A → bool) l, Sort less l ≡ₚ l;
  Sort_sorted : ∀ A (less : A → A → bool) l,
    (∀ x y, less x y = true → less y x = false) → Transitive (notLess less) →
    StronglySorted (notLess less) (Sort less l);
}.

(** Sorting by [less], in the one order chosen above on ties. *)
Definition stable_sort : GoSort.
Proof.
  refine {| Sort A less l := sort_by less l |}.
  - intros. apply merge_sort_Permutation.
  - intros A less l Hasym Htrans. apply Sorted_StronglySorted; [done|]. apply Sorted_merge_sort.
    intros x y. unfold notLess. destruct (less y x) eqn:Hl; [right; by apply Hasym|by left].
Defined.

Definition SortMachines (machines : list Machine) : list Machine :=
  sort_by Machine_less machines.

(** ** Secrets a container references ([container.go]) *)

Definition getReferencedSecrets `{MapOrder} (n : nat) (x : gmap string ContainerValue)
    : list string :=
  omap (λ kv, match kv.2 with SecretValue s => Some s | _ => None end) (range n x).

Definition GetReferencedSecrets `{MapOrder} (n1 n2 : nat) (c : Container) : list string :=
  getReferencedSecrets n1 (c_Env c) ++ getReferencedSecrets n2 (c_FilepathToContent c).

(** ** Properties *)

(** The role a machine row may carry. *)
Definition valid_role (m : Machine) : Prop :=
  m_Role m = Master ∨ m_Role m = Worker ∨ m_Role m = None_.

Lemma Sorted_StronglySorted_on {T} (R : relation T) l :
  (∀ x y z, x ∈ l → y ∈ l → z ∈ l → R x y → R y z → R x z) →
  Sorted R l → StronglySorted R l.
Proof.
  intros Htr. induction 1 as [|x l Hl IH Hhd]; constructor.
  - apply IH. intros ??????. apply Htr; set_solver.
  - assert (StronglySorted R l) as Hss.
    { apply IH. intros ??????. apply Htr; set_solver. }
    destruct Hhd as [|y l Hxy]; constructor; [done|].
    inversion Hss as [|?? _ Hall]; subst. rewrite Forall_forall in Hall |- *.
    intros z Hz. apply (Htr x y z); set_solver.
Qed.

Lemma Machine_less_asym x y : Machine_less x y = true → Machine_less y x = false.
Proof.
  unfold Machine_less.
  destruct (decide (m_Role x = m_Role y)) as [Hr|Hr].
  - simpl_bd.
    destruct (decide (m_CloudID x = m_CloudID y)) as [Hc|Hc].
    + simpl_bd.
      rewrite bool_decide_eq_true, bool_decide_eq_false. lia.
    + simpl_bd. apply strLess_asym.
  - simpl_bd.
    rewrite orb_true_iff, orb_false_iff, !bool_decide_eq_true, !bool_decide_eq_false.
    unfold Master. intros [Hm|Hm]; split; intros Heq; congruence.
Qed.

#[export] Instance Machine_notLess_total : Total (notLess Machine_less).
Proof.
  intros x y. unfold notLess. destruct (Machine_less y x) eqn:E; [|by left].
  right. by apply Machine_less_asym.
Qed.

(** Two machines neither of which is less have the same role, cloud ID and ID. *)
Lemma Machine_less_total x y :
  valid_role x → valid_role y →
  Machine_less x y = false → Machine_less y x = false →
  m_Role x = m_Role y ∧ m_CloudID x = m_CloudID y ∧ m_ID x = m_ID y.
Proof.
  intros Hx Hy. unfold Machine_less.
  destruct (decide (m_Role x = m_Role y)) as [Hr|Hr].
  - simpl_bd.
    destruct (decide (m_CloudID x = m_CloudID y)) as [Hc|Hc].
    + simpl_bd.
      rewrite !bool_decide_eq_false. intros. split_and!; [done..|lia].
    + simpl_bd. intros H1 H2.
      destruct Hc. symmetry. by apply strLess_total.
  - simpl_bd.
    rewrite !orb_false_iff, !bool_decide_eq_false.
    unfold valid_role, None_, Master in *. intros [] []. destruct Hx as [|[|]], Hy as [|[|]]; congruence.
Qed.

Definition roleRank (m : Machine) : Z :=
  if bool_decide (m_Role m = Master) then 0 else if bool_decide (m_Role m = Worker) then 1 else 2.

(** On valid roles, [notLess] is the lexicographic order on rank, cloud ID and ID. *)
Lemma notLess_Machine x y :
  valid_role x → valid_role y →
  notLess Machine_less x y ↔
  (roleRank x < roleRank y)%Z ∨ m_Role x = m_Role y ∧
    (strLess (m_CloudID y) (m_CloudID x) = true ∨
     m_CloudID x = m_CloudID y ∧ (m_ID x ≤ m_ID y)%Z).
Proof.
  intros Hx Hy. unfold notLess, Machine_less.
  destruct (decide (m_Role x = m_Role y)) as [Hr|Hr].
  - assert (roleRank x = roleRank y) as Hrk by (unfold roleRank; by rewrite Hr).
    destruct (decide (m_CloudID x = m_CloudID y)) as [Hc|Hc].
    + simpl_bd.
      rewrite bool_decide_eq_false, Hc, strLess_irrefl. rewrite Hrk. split.
      * right. split; [done|]. right. split; [done|lia].
      * intros [?|[_ [?|[_ ?]]]]; [lia|done|lia].
    + simpl_bd. split.
      * intros H. right. split; [done|]. left. destruct (strLess (m_CloudID y) _) eqn:E; [done|].
        destruct Hc. by apply strLess_total.
      * intros [?|[_ [?|[? _]]]]; [lia|by apply strLess_asym|done].
  - simpl_bd.
    rewrite orb_false_iff, !bool_decide_eq_false. unfold roleRank, valid_role, None_, Master in *.
    destruct Hx as [Hx|[Hx|Hx]], Hy as [Hy|[Hy|Hy]]; rewrite Hx, Hy in *; try done;
      (split; [intros [? ?]|intros [?|[? _]]]); try done; by left.
Qed.

Lemma notLess_Machine_trans x y z :
  valid_role x → valid_role y → valid_role z →
  notLess Machine_less x y → notLess Machine_less y z → notLess Machine_less x z.
Proof.
  intros Hx Hy Hz. rewrite !notLess_Machine by done.
  assert (∀ a b, m_Role a = m_Role b → roleRank a = roleRank b) as Hrk.
  { intros a b Hab. unfold roleRank. by rewrite Hab. }
  intros [H1|[R1 H1]] [H2|[R2 H2]].
  - left; lia.
  - left. apply Hrk in R2. lia.
  - left. apply Hrk in R1. lia.
  - right. split; [congruence|]. destruct H1 as [H1|[E1 H1]], H2 as [H2|[E2 H2]].
    + left. by eapply strLess_trans.
    + left. by rewrite <-E2.
    + left. by rewrite E1.
    + right. split; [congruence|lia].
Qed.

(** [SortMachines] is determined by its input up to order.  On machines
    with valid roles and distinct IDs, every permutation sorted by [less]
    (whatever algorithm produced it) is the list [SortMachines] returns. *)
Theorem SortMachines_unique (ms sorted : list Machine) :
  Forall valid_role ms → NoDup (m_ID <$> ms) →
  sorted ≡ₚ ms → Sorted (notLess Machine_less) sorted →
  sorted = SortMachines ms.
Proof.
  intros Hv Hnd Hp Hs. rewrite Forall_forall in Hv.
  assert (SortMachines ms ≡ₚ ms) as Hp' by apply merge_sort_Permutation.
  assert (∀ l, l ≡ₚ ms → Sorted (notLess Machine_less) l →
    StronglySorted (notLess Machine_less) l) as Hss.
  { intros l Hl Hsl. apply Sorted_StronglySorted_on; [|done].
    intros x y z. rewrite Hl. intros. eapply (notLess_Machine_trans x y z); auto. }
  apply (StronglySorted_unique_strong (notLess Machine_less)).
  - intros x y Hx Hy Hxy Hyx. rewrite Hp in Hx. rewrite Hp' in Hy.
    destruct (Machine_less_total x y) as (_ & _ & Hid); auto.
    by apply (NoDup_fmap_elem m_ID ms).
  - by apply Hss.
  - apply Hss; [done|]. apply Sorted_merge_sort, _.
  - by rewrite Hp, Hp'.
Qed.

Definition demo_machine (id : Z) (role cid : string) : Machine :=
  mk_Machine id Amazon "us-west-1" "m3.medium" 32 [] "" false cid "" "" "" role false.

Lemma SortMachines_unique_witness :
  [demo_machine 3 Master "x"; demo_machine 2 Worker ""; demo_machine 1 None_ ""] =
  SortMachines [demo_machine 1 None_ ""; demo_machine 2 Worker ""; demo_machine 3 Master "x"].
Proof.
  apply SortMachines_unique.
  - unfold valid_role. rewrite !Forall_cons, Forall_nil. simpl. auto 10.
  - vm_decide.
  - vm_decide.
  - vm_decide.
Defined.

(** roles survive the trip to the minion and back, and parsing a role
    gives one of the three database roles or an error, never a panic. *)
Theorem role_roundtrip :
  (∀ p, RoleToPB (PBToRole p) = Ok p) ∧
  (∀ r p, RoleToPB r = Ok p → PBToRole p = r) ∧
  (∀ s r, ParseRole s = Val r → r = s ∧ ∃ p, RoleToPB r = Ok p).
Proof.
  split_and!.
  - by intros [].
  - unfold RoleToPB. intros r p. repeat case_bool; intros; simplify_eq; done.
  - unfold ParseRole. intros s r. repeat case_bool; intros; simplify_eq; eauto.
Qed.

(** [ConnectionStatus] as a state machine over a machine's status: a
    machine that is connected is "connected" whatever its status was; once a
    machine has connected it is only ever "connected" or "reconnecting"; and
    the empty result (keep the old status) needs a machine with no public IP
    that never connected. *)
Theorem ConnectionStatus_transitions (m : Machine) :
  (ConnectionStatus m = Connected ↔ m_PublicIP m ≠ "" ∧ m_Connected m = true) ∧
  (m_Status m = Connected ∨ m_Status m = Reconnecting →
     ConnectionStatus m = Connected ∨ ConnectionStatus m = Reconnecting) ∧
  (ConnectionStatus m = "" ↔
     m_PublicIP m = "" ∧ m_Status m ≠ Connected ∧ m_Status m ≠ Reconnecting) ∧
  (ConnectionStatus m = Connecting ↔
     m_PublicIP m ≠ "" ∧ m_Connected m = false ∧
     m_Status m ≠ Connected ∧ m_Status m ≠ Reconnecting).
Proof.
  unfold ConnectionStatus, Connected, Connecting, Reconnecting.
  destruct (decide (m_PublicIP m = "")) as [Hip|Hip], (m_Connected m),
    (decide (m_Status m = "connected")) as [Hc|Hc],
    (decide (m_Status m = "reconnecting")) as [Hr|Hr];
    simpl_bd; simpl; intuition congruence.
Qed.
