(* ===== verification/Db.v ===== *)
(** * Package db, part 2: tables, transactions and triggers

    Models [src/db/db.go], [src/db/table.go] and the row-independent parts of
    the per-table files.  Go's [Database] is a map from table names to
    pointers into shared tables; here the shared tables live in one [store]
    and a [Database] is the set of names it may reach, so a transaction's
    database and the connection it came from alias the same tables.  A trigger
    is an index into [chans]: [full] says whether the one-slot channel [C]
    holds a notification, [stopped] whether [stop] is closed. *)

From S2P Require Import Prelude GoStrings Blueprint DbRows.

Record trigger := mk_trigger { full : bool; stopped : bool }.

Record table := mk_table {
  rows : gmap Z row;
  triggers : gset nat;
  shouldAlert : bool;
}.

Record store := mk_store {
  tables : gmap string table;
  curID : Z;               (** [idAlloc.curID] *)
  chans : gmap nat trigger;
  tick : nat;              (** how many map loops have run, see [MapOrder] *)
}.

(** The tables a [Database] value reaches. *)
Notation Database := (gset string).

Definition set_tables (f : gmap string table → gmap string table) (s : store) : store :=
  mk_store (f (tables s)) (curID s) (chans s) (tick s).
Definition set_chans (f : gmap nat trigger → gmap nat trigger) (s : store) : store :=
  mk_store (tables s) (curID s) (f (chans s)) (tick s).

(** The order of the next map loop. *)
Definition nextOrder : M store nat := λ s,
  Ok (tick s, mk_store (tables s) (curID s) (chans s) (S (tick s))).

Definition newTable : table := mk_table ∅ ∅ false.

(** [db.New], without the logging goroutines it starts. *)
Definition New : store := mk_store (list_to_map ((λ t, (t, newTable)) <$> AllTables)) 0 ∅ 0.

Definition accessTable (db : Database) (tn : string) : M store table := λ s,
  if bool_decide (tn ∈ db) then
    match tables s !! tn with
    | Some t => Ok (t, s)
    | None => Panic ("No access to table: " +:+ tn)
    end
  else Panic ("No access to table: " +:+ tn).

Definition writeTable (tn : string) (t : table) : M store unit :=
  modify (set_tables (insert tn t)).

Definition nextID : M store Z := λ s,
  let id := (curID s + 1)%Z in Ok (id, mk_store (tables s) id (chans s) (tick s)).

Definition selectRows (db : Database) (tn : string) : M store (gmap Z row) :=
  let! t := accessTable db tn in mret (rows t).

Definition insert_row (db : Database) (r : row) : M store unit :=
  let! t := accessTable db (getTableType r) in
  writeTable (getTableType r) (mk_table (<[getID r := r]> (rows t)) (triggers t) true).

(** [Commit] panics when the row is absent ([reflect.TypeOf(nil)]) or has
    another type, and writes only when something changes. *)
Definition Commit (db : Database) (r : row) : M store unit :=
  let! t := accessTable db (getTableType r) in
  match rows t !! getID r with
  | None => panic "Type Error"
  | Some old =>
    if bool_decide (getTableType old ≠ getTableType r) then panic "Type Error"
    else if shouldAlert t || bool_decide (r ≠ old) then
      writeTable (getTableType r) (mk_table (<[getID r := r]> (rows t)) (triggers t) true)
    else mret ()
  end.

Definition Remove (db : Database) (r : row) : M store unit :=
  let! t := accessTable db (getTableType r) in
  writeTable (getTableType r) (mk_table (delete (getID r) (rows t)) (triggers t) true).

(** ** The operations every table file repeats for its row type *)

Section typed.
Context `{MapOrder} {T : Type} `{RowType T}.

(** [InsertMachine], [InsertContainer], ... *)
Definition InsertRow (db : Database) : M store T :=
  let! id := nextID in
  let result := row_zero id in
  insert_row db (row_inj result) ;;;
  mret result.

(** The loop of [SelectFrom...]; a failed type assertion panics. *)
Fixpoint selectLoop (check : option (T → bool)) (rs : list row) : outcome (list T) :=
  match rs with
  | [] => Ok []
  | r :: rs' =>
    match row_prj r with
    | None => Panic "interface conversion"
    | Some t =>
      let! rest := selectLoop check rs' in
      match check with
      | None => Ok (t :: rest)
      | Some f => if f t then Ok (t :: rest) else Ok rest
      end
    end
  end.

(** [SelectFromMachine], [SelectFromContainer], ... on a [Database]. *)
Definition SelectFrom (db : Database) (check : option (T → bool)) : M store (list T) :=
  let! rs := selectRows db (row_table T) in
  let! n := nextOrder in
  lift (selectLoop check (range n rs).*2).

Definition CommitT (db : Database) (t : T) : M store unit := Commit db (row_inj t).
Definition RemoveT (db : Database) (t : T) : M store unit := Remove db (row_inj t).
End typed.

(** ** Transactions and triggers *)

(** [table.alert]: drop the stopped triggers, notify the others without blocking. *)
Definition alertTrigger (tn : string) (trig : nat) : M store unit := λ s,
  match chans s !! trig with
  | None => Ok ((), s)
  | Some tr =>
    if stopped tr then
      Ok ((), set_tables (alter (λ t, mk_table (rows t) (triggers t ∖ {[trig]}) (shouldAlert t)) tn) s)
    else Ok ((), set_chans (insert trig (mk_trigger true (stopped tr))) s)
  end.

Section txn.
Context `{MapOrder}.

Definition alert (tn : string) : M store unit :=
  let! s := get in
  let! n := nextOrder in
  forM_ (range_set n (default ∅ (triggers <$> tables s !! tn))) (alertTrigger tn).

(** The first loop of [Run] after the closure: collect and reset. *)
Fixpoint collectAlerts (tts : list string) : M store (list string) :=
  match tts with
  | [] => mret []
  | tn :: tts' =>
    let! s := get in
    match tables s !! tn with
    | Some t =>
      if shouldAlert t then
        writeTable tn (mk_table (rows t) (triggers t) false) ;;;
        let! rest := collectAlerts tts' in mret (tn :: rest)
      else collectAlerts tts'
    | None => collectAlerts tts'
    end
  end.

(** [Conn.Txn]: panics when the connection has no such table. *)
Definition Txn (tts : list string) : M store Database := λ s,
  if forallb (λ tn, bool_decide (is_Some (tables s !! tn))) tts
  then Ok (list_to_set tts, s) else Panic "No access to table".

(** [conn.Txn(tts...).Run(do)]; what the closure assigns to captured variables
    and its error are its result here. *)
Definition Run {A} (tts : list string) (do : Database → M store A) : M store A :=
  let! db := Txn tts in
  let! a := do db in
  let! n := nextOrder in
  let! alertTables := collectAlerts (range_set n db) in
  forM_ alertTables alert ;;;
  mret a.

(** The registration closure of [Conn.Trigger]. *)
Definition registerTrigger (trig : nat) (tts : list string) (db : Database) : M store unit :=
  forM_ tts (λ tn,
    let! t := accessTable db tn in
    writeTable tn (mk_table (rows t) ({[trig]} ∪ triggers t) (shouldAlert t))).

(** [make(chan struct{}, 1)]: a channel no one knows yet. *)
Definition makeTrigger : M store nat := λ s,
  let trig := fresh (dom (chans s)) in
  Ok (trig, set_chans (insert trig (mk_trigger false false)) s).

(** [Conn.Trigger] run with no other goroutine in between.  The final send
    blocks for ever when the channel is full. *)
Definition Trigger (tts : list string) : M store nat :=
  let! trig := makeTrigger in
  Run tts (registerTrigger trig tts) ;;;
  let! s := get in
  match chans s !! trig with
  | Some (mk_trigger false b) =>
    modify (set_chans (insert trig (mk_trigger true b))) ;;; mret trig
  | _ => panic "all goroutines are asleep - deadlock!"
  end.

(** [Trigger.Stop] *)
Definition Stop (trig : nat) : M store unit :=
  modify (set_chans (alter (λ tr, mk_trigger (full tr) true) trig)).

(** A receive from [trigger.C] that has something to take. *)
Definition Receive (trig : nat) : M store bool := λ s,
  match chans s !! trig with
  | Some (mk_trigger true b) => Ok (true, set_chans (insert trig (mk_trigger false b)) s)
  | _ => Ok (false, s)
  end.

(** [Conn.SelectFrom...] *)
Definition connSelect {T} `{RowType T} (check : option (T → bool)) : M store (list T) :=
  Run [row_table T] (λ db, SelectFrom db check).

(** ** Single-row accessors *)

Definition GetBlueprint (db : Database) : M store (result Blueprint) :=
  let! blueprints := SelectFrom db None in
  match blueprints with
  | [b] => mret (Val b)
  | [] => mret (Err "no blueprints found")
  | _ => panic "Found several blueprints, there should be 1"
  end.

Definition GetBlueprintNamespace (db : Database) : M store (result string) :=
  let! clst := GetBlueprint db in
  match clst with
  | Err e => mret (Err e)
  | Val b => mret (Val (bp_Namespace (b_Blueprint b)))
  end.

Definition connGetBlueprintNamespace : M store (result string) :=
  Run [BlueprintTable] GetBlueprintNamespace.

Definition MinionSelf (db : Database) : M store Minion :=
  let! minions := SelectFrom db (Some mi_Self) in
  match minions with
  | [m] => mret m
  | [] => panic "no minion labeled Self"
  | _ => panic "multiple minions labeled Self"
  end.

Definition connMinionSelf : M store Minion := Run [MinionTable] MinionSelf.

Definition EtcdLeader (db : Database) : M store bool :=
  let! etcds := SelectFrom db None in
  mret (match etcds with [e] => e_Leader e | _ => false end).

Definition connEtcdLeader : M store bool := Run [EtcdTable] EtcdLeader.

Definition GetEtcd (db : Database) : M store (result Etcd) :=
  let! etcdSlice := SelectFrom db None in
  match etcdSlice with
  | [] => mret (Err "no etcd row")
  | [e] => mret (Val e)
  | _ => panic "multiple etcd rows"
  end.

Definition GetHostnameMappings (db : Database) : M store (gmap string string) :=
  let! hostnames := SelectFrom db None in
  mret (foldl (λ m h, <[h_Hostname h := h_IP h]> m) ∅ hostnames).
End txn.

(** ** The operations of each table, under the names the code gives them *)

Section names.
Context `{MapOrder}.

Definition InsertBlueprint : Database → M store Blueprint := InsertRow.
Definition SelectFromBlueprint : Database → option (Blueprint → bool) → M store (list Blueprint) := SelectFrom.
Definition connSelectFromBlueprint : option (Blueprint → bool) → M store (list Blueprint) := connSelect.

Definition InsertMachine : Database → M store Machine := InsertRow.
Definition SelectFromMachine : Database → option (Machine → bool) → M store (list Machine) := SelectFrom.
Definition connSelectFromMachine : option (Machine → bool) → M store (list Machine) := connSelect.

Definition InsertContainer : Database → M store Container := InsertRow.
Definition SelectFromContainer : Database → option (Container → bool) → M store (list Container) := SelectFrom.
Definition connSelectFromContainer : option (Container → bool) → M store (list Container) := connSelect.

Definition InsertMinion : Database → M store Minion := InsertRow.
Definition SelectFromMinion : Database → option (Minion → bool) → M store (list Minion) := SelectFrom.
Definition connSelectFromMinion : option (Minion → bool) → M store (list Minion) := connSelect.

Definition InsertConnection : Database → M store Connection := InsertRow.
Definition SelectFromConnection : Database → option (Connection → bool) → M store (list Connection) := SelectFrom.
Definition connSelectFromConnection : option (Connection → bool) → M store (list Connection) := connSelect.

Definition InsertLoadBalancer : Database → M store LoadBalancer := InsertRow.
Definition SelectFromLoadBalancer : Database → option (LoadBalancer → bool) → M store (list LoadBalancer) := SelectFrom.
Definition connSelectFromLoadBalancer : option (LoadBalancer → bool) → M store (list LoadBalancer) := connSelect.

Definition InsertEtcd : Database → M store Etcd := InsertRow.
Definition SelectFromEtcd : Database → option (Etcd → bool) → M store (list Etcd) := SelectFrom.
Definition connSelectFromEtcd : option (Etcd → bool) → M store (list Etcd) := connSelect.

Definition InsertPlacement : Database → M store Placement := InsertRow.
Definition SelectFromPlacement : Database → option (Placement → bool) → M store (list Placement) := SelectFrom.
Definition connSelectFromPlacement : option (Placement → bool) → M store (list Placement) := connSelect.

Definition InsertImage : Database → M store Image := InsertRow.
Definition SelectFromImage : Database → option (Image → bool) → M store (list Image) := SelectFrom.
Definition connSelectFromImage : option (Image → bool) → M store (list Image) := connSelect.

Definition InsertHostname : Database → M store Hostname := InsertRow.
Definition SelectFromHostname : Database → option (Hostname → bool) → M store (list Hostname) := SelectFrom.
Definition connSelectFromHostname : option (Hostname → bool) → M store (list Hostname) := connSelect.
End names.
