(* ===== verification/DbSpec.v ===== *)
(** * Package db, part 3: what the database operations promise

    The abstract state of the database is, per table name, a map from IDs to
    rows ([abs_rows]); [tbl T s] is the table of row type [T] as a typed map.
    The lemmas below say how each operation changes them, for any map order,
    and that the operations keep the invariant [wf]. *)

From S2P Require Import Prelude GoStrings Join Blueprint DbRows Db.

Definition abs_rows (s : store) : gmap string (gmap Z row) := rows <$> tables s.

Definition tbl (T : Type) `{RowType T} (s : store) : gmap Z T :=
  omap row_prj (default ∅ (abs_rows s !! row_table T)).

(** Every row sits in the table of its type, under its own ID, and IDs come
    from the counter and are never shared, not even between tables. *)
Record wf (s : store) : Prop := {
  wf_cur : (0 ≤ curID s)%Z;
  wf_row : ∀ tn m id r, abs_rows s !! tn = Some m → m !! id = Some r →
    getTableType r = tn ∧ getID r = id ∧ (0 < id ≤ curID s)%Z;
  wf_uniq : ∀ tn1 tn2 m1 m2 id, abs_rows s !! tn1 = Some m1 → abs_rows s !! tn2 = Some m2 →
    is_Some (m1 !! id) → is_Some (m2 !! id) → tn1 = tn2;
}.

(** A well-formed store in which the tables of [db] exist. *)
Definition DbOK (db : Database) (s : store) : Prop := wf s ∧ db ⊆ dom (tables s).

(** Only table [tn] may differ. *)
Definition only (tn : string) (s s' : store) : Prop :=
  ∀ tn', tn' ≠ tn → abs_rows s' !! tn' = abs_rows s !! tn'.

(** Same rows everywhere (the map-loop counter may differ). *)
Definition same (s s' : store) : Prop := abs_rows s' = abs_rows s ∧ curID s' = curID s.

(** The rows a [check] argument selects; nil selects all. *)
Definition passes {T} (check : option (T → bool)) (t : T) : Prop :=
  match check with None => True | Some f => f t = true end.
#[export] Instance passes_dec {T} (check : option (T → bool)) t : Decision (passes check t).
Proof. destruct check; simpl; apply _. Defined.

(** ** The typed view of a table *)

Lemma vals_omap {A B} (f : A → option B) (m : gmap Z A) :
  vals (omap f m) ≡ₚ omap f (vals m).
Proof.
  induction m as [|i x m Hi IH] using map_ind.
  { by rewrite omap_empty. }
  assert (∀ {C} (y : C) (m' : gmap Z C), m' !! i = None → vals (<[i:=y]> m') ≡ₚ y :: vals m') as Hins.
  { intros C y m' Hm'. unfold vals. by rewrite map_to_list_insert. }
  rewrite Hins by done. csimpl. destruct (f x) as [y|] eqn:Hf.
  - rewrite (omap_insert_Some f _ _ _ y Hf), Hins, IH; [done|].
    by rewrite lookup_omap, Hi.
  - rewrite omap_insert_None, delete_id by (done || by rewrite lookup_omap, Hi). done.
Qed.

Section tbl.
Context {T : Type} `{RowType T}.

Lemma row_prj_Some r (t : T) : row_prj r = Some t → getTableType r = row_table T → r = row_inj t.
Proof.
  intros Hp Ht. destruct (row_inj_prj r Ht) as [t' ->]. rewrite row_prj_inj in Hp. by simplify_eq.
Qed.

Lemma row_inj_inj (t1 t2 : T) : row_inj t1 = row_inj t2 → t1 = t2.
Proof. intros Heq. apply (f_equal (row_prj (T:=T))) in Heq. rewrite !row_prj_inj in Heq. by simplify_eq. Qed.

(** In a well-formed store the table is the image of its typed view. *)
Lemma tbl_abs s m : wf s → abs_rows s !! row_table T = Some m → m = row_inj <$> tbl T s.
Proof.
  intros Hwf Hm. apply map_eq. intros id. unfold tbl. rewrite lookup_fmap, lookup_omap, Hm. simpl.
  destruct (m !! id) as [r|] eqn:Hr; simpl; [|done].
  destruct (wf_row _ Hwf _ _ _ _ Hm Hr) as (Ht & _).
  destruct (row_inj_prj r Ht) as [t ->]. by rewrite row_prj_inj.
Qed.

Lemma tbl_fmap s (m : gmap Z T) : abs_rows s !! row_table T = Some (row_inj <$> m) → tbl T s = m.
Proof.
  intros Hm. apply map_eq. intros id. unfold tbl. rewrite lookup_omap, Hm. simpl.
  rewrite lookup_fmap. destruct (m !! id); simpl; [apply row_prj_inj|done].
Qed.

Lemma tbl_lookup s id (t : T) :
  wf s → tbl T s !! id = Some t → rowID t = id ∧ (0 < id ≤ curID s)%Z.
Proof.
  intros Hwf. unfold tbl. rewrite lookup_omap.
  destruct (abs_rows s !! row_table T) as [m|] eqn:Hm; simpl; [|by rewrite lookup_empty].
  destruct (m !! id) as [r|] eqn:Hr; simpl; [|done]. intros Hp.
  destruct (wf_row _ Hwf _ _ _ _ Hm Hr) as (Ht & Hid & Hb).
  by rewrite (row_prj_Some _ _ Hp Ht) in Hid.
Qed.

Lemma elem_of_tbl s (t : T) : wf s → t ∈ vals (tbl T s) ↔ tbl T s !! rowID t = Some t.
Proof.
  intros Hwf. rewrite elem_of_vals. split; [|eauto]. intros [id Hid].
  by destruct (tbl_lookup _ _ _ Hwf Hid) as [-> _].
Qed.

Lemma NoDup_tbl_ids s : wf s → NoDup (rowID <$> vals (tbl T s)).
Proof. intros Hwf. apply keyed_NoDup. intros id t Ht. by apply (tbl_lookup s). Qed.

Lemma same_tbl s s' : same s s' → tbl T s' = tbl T s.
Proof. intros [Ha _]. unfold tbl. by rewrite Ha. Qed.

Lemma only_tbl tn s s' : only tn s s' → row_table T ≠ tn → tbl T s' = tbl T s.
Proof. intros Ho Hne. unfold tbl. by rewrite Ho. Qed.

Lemma tbl_fresh s : wf s → tbl T s !! (curID s + 1)%Z = None.
Proof.
  intros Hwf. destruct (tbl T s !! _) as [t|] eqn:Ht; [|done].
  apply (tbl_lookup s) in Ht as [_ ?]; [lia|done].
Qed.
End tbl.

Lemma same_refl s : same s s.
Proof. done. Qed.
Lemma same_trans s1 s2 s3 : same s1 s2 → same s2 s3 → same s1 s3.
Proof. intros [] []. split; congruence. Qed.
Lemma only_refl tn s : only tn s s.
Proof. done. Qed.
Lemma only_trans tn s1 s2 s3 : only tn s1 s2 → only tn s2 s3 → only tn s1 s3.
Proof. intros H1 H2 t Ht. by rewrite H2, H1. Qed.
Lemma same_only tn s s' : same s s' → only tn s s'.
Proof. intros [Ha _] ??. by rewrite Ha. Qed.

Lemma same_wf s s' : same s s' → wf s → wf s'.
Proof. intros [Ha Hc] [??]. split; rewrite ?Ha, ?Hc; auto. Qed.

Lemma same_DbOK db s s' : same s s' → DbOK db s → DbOK db s'.
Proof.
  intros Hs [Hwf Hdom]. split; [by eapply same_wf|].
  destruct Hs as [Ha _]. unfold abs_rows in Ha. apply (f_equal dom) in Ha.
  rewrite !dom_fmap_L in Ha. by rewrite Ha.
Qed.

Lemma DbOK_subset db db' s : DbOK db s → db' ⊆ db → DbOK db' s.
Proof. intros [] ?. split; set_solver. Qed.

#[export] Hint Resolve same_refl same_trans only_refl only_trans same_only
  same_wf same_DbOK : kelda.

Lemma alter_Some {V} (f : V → V) (m : gmap string V) k v :
  m !! k = Some v → alter f k m = <[k := f v]> m.
Proof.
  intros Hk. apply map_eq. intros k'. rewrite lookup_alter, lookup_insert.
  case_decide; subst; [by rewrite Hk|done].
Qed.

(** ** The operations *)

Lemma accessTable_ok db tn s :
  DbOK db s → tn ∈ db →
  ∃ t, tables s !! tn = Some t ∧ abs_rows s !! tn = Some (rows t) ∧ accessTable db tn s = Ok (t, s).
Proof.
  intros [_ Hdom] Hin. assert (tn ∈ dom (tables s)) as [t Ht]%elem_of_dom by set_solver.
  exists t. unfold accessTable, abs_rows. rewrite lookup_fmap, bool_decide_eq_true_2, Ht by done. done.
Qed.

(** Replace the rows of one table. *)
Definition set_rows (tn : string) (m : gmap Z row) (f : table → bool) (s : store) : store :=
  set_tables (alter (λ t, mk_table m (triggers t) (f t)) tn) s.

Lemma abs_set_rows tn m f s t :
  tables s !! tn = Some t → abs_rows (set_rows tn m f s) = <[tn := m]> (abs_rows s).
Proof.
  intros Ht. unfold abs_rows, set_rows, set_tables; simpl.
  apply map_eq. intros tn'. rewrite lookup_fmap, lookup_alter, lookup_insert, lookup_fmap.
  case_decide; subst; [by rewrite Ht|done].
Qed.

Lemma only_set_rows tn m f s t : tables s !! tn = Some t → only tn s (set_rows tn m f s).
Proof. intros Ht tn' Hne. by rewrite (abs_set_rows _ _ _ _ _ Ht), lookup_insert_ne. Qed.

(** Replacing a table by one with well-placed rows keeps the invariant. *)
Lemma wf_replace s s' tn m m' :
  wf s → abs_rows s !! tn = Some m → abs_rows s' = <[tn := m']> (abs_rows s) →
  (curID s ≤ curID s')%Z →
  (∀ id r, m' !! id = Some r → is_Some (m !! id) ∨ (curID s < id)%Z) →
  (∀ id r, m' !! id = Some r →
     getTableType r = tn ∧ getID r = id ∧ (0 < id ≤ curID s')%Z) →
  wf s'.
Proof.
  intros [H0 Hrow Huniq] Hm Ha Hc Hold Hnew. split; [lia|..].
  - intros tn' m0 id r. rewrite Ha, lookup_insert_Some. intros [[<- <-]|[Hne Hm0]] Hr; [auto|].
    destruct (Hrow _ _ _ _ Hm0 Hr) as (? & ? & ?). split_and!; [done|done|lia..].
  - assert (∀ id tn' m0, is_Some (m' !! id) → abs_rows s !! tn' = Some m0 → is_Some (m0 !! id) →
      tn' = tn) as Hx.
    { intros id tn' m0 [r Hr] Hm0 [r0 Hr0]. destruct (Hold _ _ Hr) as [Hs|Hlt].
      - by apply (Huniq tn' tn m0 m id).
      - destruct (Hrow _ _ _ _ Hm0 Hr0) as (_ & _ & ?). lia. }
    intros tn1 tn2 m1 m2 id. rewrite Ha, !lookup_insert_Some.
    intros [[<- <-]|[Hn1 Hm1]] [[<- <-]|[Hn2 Hm2]] H1 H2; [done|..].
    + symmetry. by eapply Hx.
    + by eapply Hx.
    + by eapply Huniq.
Qed.

(** What [writeTable] does when it keeps the triggers. *)
Lemma write_set_rows tn tb m b s :
  tables s !! tn = Some tb →
  set_tables (insert tn (mk_table m (triggers tb) b)) s = set_rows tn m (λ _, b) s.
Proof.
  intros Ht. unfold set_rows, set_tables. f_equal.
  by rewrite (alter_Some _ _ _ _ Ht).
Qed.

Lemma dom_set_rows tn m f s : dom (tables (set_rows tn m f s)) = dom (tables s).
Proof. unfold set_rows, set_tables; simpl. by rewrite dom_alter_L. Qed.

Section ops.
Context `{MapOrder} {T : Type} `{RowType T}.
Implicit Types (db : Database) (s : store) (t : T).

Lemma selectLoop_ok (check : option (T → bool)) rs :
  Forall (λ r, getTableType r = row_table T) rs →
  selectLoop check rs = Ok (filter (passes check) (omap row_prj rs)).
Proof.
  induction 1 as [|r rs Hr _ IH]; [done|]. destruct (row_inj_prj r Hr) as [t ->].
  csimpl. rewrite row_prj_inj, IH, filter_cons.
  case_decide as Hp; destruct check as [f|]; simpl in *; try (destruct (f t); done); tauto.
Qed.

Lemma wp_SelectFrom db s check Q :
  DbOK db s → row_table T ∈ db →
  (∀ l s', same s s' → l ≡ₚ filter (passes check) (vals (tbl T s)) → Q l s') →
  wp (SelectFrom db check) s Q.
Proof.
  intros Hok Hin HQ. destruct (accessTable_ok _ _ _ Hok Hin) as (tb & Htb & Habs & Hacc).
  unfold wp, SelectFrom, selectRows, mbind, M_bind. rewrite Hacc. simpl.
  assert (Forall (λ r, getTableType r = row_table T) (range (tick s) (rows tb)).*2) as Hall.
  { rewrite Forall_forall. intros r [id Hr]%range_vals.
    by destruct (wf_row _ (proj1 Hok) _ _ _ _ Habs Hr). }
  unfold lift. rewrite (selectLoop_ok check _ Hall). apply HQ; [done|].
  apply filter_perm. unfold tbl. rewrite Habs. simpl. rewrite vals_omap.
  unfold vals. by rewrite range_perm.
Qed.

Lemma wp_InsertRow db s (Q : T → store → Prop) :
  DbOK db s → row_table T ∈ db →
  (∀ s', DbOK db s' → only (row_table T) s s' → curID s' = (curID s + 1)%Z →
     tbl T s' = <[(curID s + 1)%Z := row_zero (curID s + 1)]> (tbl T s) →
     Q (row_zero (curID s + 1)) s') →
  wp (InsertRow db) s Q.
Proof.
  intros Hok Hin HQ. unfold wp, InsertRow, insert_row, writeTable, mbind, M_bind. simpl. rewrite row_inj_table.
  set (s1 := mk_store (tables s) (curID s + 1) (chans s) (tick s)).
  assert (DbOK db s1) as Hok1.
  { destruct Hok as [[Hc0 Hrow Huniq] Hdom]. split; [|done]. split; simpl; [lia| |exact Huniq].
    intros. destruct (Hrow tn m id r) as (? & ? & ?); [done..|]. split_and!; [done|done|lia..]. }
  destruct (accessTable_ok _ _ _ Hok1 Hin) as (tb & Htb & Habs & Hacc). rewrite Hacc. simpl.
  set (m' := <[getID (row_inj (row_zero (curID s + 1))) := row_inj (row_zero (curID s + 1))]> (rows tb)).
  unfold modify. simpl.
  rewrite (write_set_rows _ _ _ _ _ Htb).
  subst m'. rewrite row_zero_id.
  set (m' := <[(curID s + 1)%Z := row_inj (row_zero (curID s + 1))]> (rows tb)).
  pose proof (abs_set_rows _ m' (λ _, true) _ _ Htb) as Ha.
  apply HQ.
  - split; [|rewrite dom_set_rows; apply Hok].
    eapply (wf_replace s _ (row_table T) (rows tb) m' (proj1 Hok)); [exact Habs|exact Ha|simpl; lia|..].
    + intros id r [[<- <-]|[_ Hr]]%lookup_insert_Some; [right; lia|left; eauto].
    + intros id r [[<- <-]|[_ Hr]]%lookup_insert_Some.
      * rewrite row_inj_table, row_zero_id. pose proof (wf_cur _ (proj1 Hok)). simpl. split_and!; lia || done.
      * destruct (wf_row _ (proj1 Hok) _ _ _ _ Habs Hr) as (? & ? & ?). simpl. split_and!; lia || done.
  - intros tn Hne. by rewrite (only_set_rows _ m' (λ _, true) s1 tb Htb).
  - done.
  - apply tbl_fmap. rewrite Ha, lookup_insert_eq. f_equal. unfold m'. rewrite fmap_insert. f_equal.
    by apply tbl_abs; [apply Hok|].
Qed.

(** Committing a typed row whose ID is in the table. *)
Lemma wp_CommitT db s t old Q :
  DbOK db s → row_table T ∈ db → tbl T s !! rowID t = Some old →
  (∀ s', DbOK db s' → only (row_table T) s s' → curID s' = curID s →
     tbl T s' = <[rowID t := t]> (tbl T s) → Q () s') →
  wp (CommitT db t) s Q.
Proof.
  intros Hok Hin Hold HQ. destruct (accessTable_ok _ _ _ Hok Hin) as (tb & Htb & Habs & Hacc).
  pose proof (tbl_abs _ _ (proj1 Hok) Habs) as Hrows.
  unfold wp, CommitT, Commit, writeTable, modify, mbind, M_bind. rewrite row_inj_table, Hacc.
  assert (rows tb !! getID (row_inj t) = Some (row_inj old)) as Hl.
  { rewrite Hrows, lookup_fmap. fold (rowID t). by rewrite Hold. }
  rewrite Hl, row_inj_table, bool_decide_eq_false_2 by tauto.
  destruct (shouldAlert tb || bool_decide (row_inj t ≠ row_inj old)) eqn:Hch.
  - rewrite (write_set_rows _ _ _ _ _ Htb). fold (rowID t).
    set (m' := <[rowID t := row_inj t]> (rows tb)).
    pose proof (abs_set_rows _ m' (λ _, true) _ _ Htb) as Ha. apply HQ.
    + split; [|rewrite dom_set_rows; apply Hok].
      eapply (wf_replace s _ (row_table T) (rows tb) m' (proj1 Hok)); [exact Habs|exact Ha|simpl; lia|..].
      * intros id r [[<- <-]|[_ Hr]]%lookup_insert_Some; left; eauto.
      * intros id r [[<- <-]|[_ Hr]]%lookup_insert_Some; [|by apply (wf_row _ (proj1 Hok) _ _ _ _ Habs)].
        rewrite row_inj_table. destruct (tbl_lookup _ _ _ (proj1 Hok) Hold). done.
    + by eapply only_set_rows.
    + done.
    + apply tbl_fmap. rewrite Ha, lookup_insert_eq. unfold m'. by rewrite fmap_insert, <-Hrows.
  - apply orb_false_iff in Hch as [_ Hch%bool_decide_eq_false].
    apply dec_stable, row_inj_inj in Hch as ->.
    apply HQ; auto with kelda. by rewrite insert_id.
Qed.

Lemma wp_RemoveT db s t Q :
  DbOK db s → row_table T ∈ db →
  (∀ s', DbOK db s' → only (row_table T) s s' → curID s' = curID s →
     tbl T s' = delete (rowID t) (tbl T s) → Q () s') →
  wp (RemoveT db t) s Q.
Proof.
  intros Hok Hin HQ. destruct (accessTable_ok _ _ _ Hok Hin) as (tb & Htb & Habs & Hacc).
  pose proof (tbl_abs _ _ (proj1 Hok) Habs) as Hrows.
  unfold wp, RemoveT, Remove, writeTable, modify, mbind, M_bind. rewrite row_inj_table, Hacc.
  rewrite (write_set_rows _ _ _ _ _ Htb). fold (rowID t). set (m' := delete (rowID t) (rows tb)).
  pose proof (abs_set_rows _ m' (λ _, true) _ _ Htb) as Ha. apply HQ.
  - split; [|rewrite dom_set_rows; apply Hok].
    eapply (wf_replace s _ (row_table T) (rows tb) m' (proj1 Hok)); [exact Habs|exact Ha|simpl; lia|..].
    + intros id r [_ Hr]%lookup_delete_Some; left; eauto.
    + intros id r [_ Hr]%lookup_delete_Some. by apply (wf_row _ (proj1 Hok) _ _ _ _ Habs).
  - by eapply only_set_rows.
  - done.
  - apply tbl_fmap. rewrite Ha, lookup_insert_eq. unfold m'. by rewrite fmap_delete, <-Hrows.
Qed.
End ops.

(** ** Accessors that expect one row *)

Section single.
Context `{MapOrder}.

Lemma wp_select_all {T} `{RowType T} db s Q :
  DbOK db s → row_table T ∈ db →
  (∀ l s', same s s' → l ≡ₚ vals (tbl T s) → Q l s') →
  wp (SelectFrom (T:=T) db None) s Q.
Proof.
  intros Hok Hin HQ. apply wp_SelectFrom; [done|done|]. intros l s' Hs Hl. apply HQ; [done|].
  rewrite Hl. clear. induction (vals (tbl T s)) as [|x l IH]; [done|].
  rewrite filter_cons_True by done. by rewrite IH.
Qed.

Lemma vals_singleton {V} (k : Z) (v : V) : vals {[k := v]} = [v].
Proof. unfold vals. by rewrite map_to_list_singleton. Qed.

Lemma wp_GetBlueprint db s b Q :
  DbOK db s → BlueprintTable ∈ db → vals (tbl Blueprint s) = [b] →
  (∀ s', same s s' → Q (Val b) s') → wp (GetBlueprint db) s Q.
Proof.
  intros Hok Hin Hv HQ. unfold GetBlueprint. wp_bind. apply wp_select_all; [done|done|].
  intros l s' Hs Hl. rewrite Hv in Hl. apply Permutation_singleton_r in Hl as ->. wp_ret. auto.
Qed.

Lemma wp_GetBlueprint_none db s Q :
  DbOK db s → BlueprintTable ∈ db → tbl Blueprint s = ∅ →
  (∀ s', same s s' → Q (Err "no blueprints found") s') → wp (GetBlueprint db) s Q.
Proof.
  intros Hok Hin Hv HQ. unfold GetBlueprint. wp_bind. apply wp_select_all; [done|done|].
  intros l s' Hs Hl. rewrite Hv in Hl. unfold vals in Hl. rewrite map_to_list_empty in Hl.
  apply Permutation_nil_r in Hl as ->. wp_ret. auto.
Qed.

Lemma wp_EtcdLeader db s Q :
  DbOK db s → EtcdTable ∈ db →
  (∀ s', same s s' →
     Q (match vals (tbl Etcd s) with [e] => e_Leader e | _ => false end) s') →
  wp (EtcdLeader db) s Q.
Proof.
  intros Hok Hin HQ. unfold EtcdLeader. wp_bind. apply wp_select_all; [done|done|].
  intros l s' Hs Hl. wp_ret.
  assert (match l with [e] => e_Leader e | _ => false end =
    match vals (tbl Etcd s) with [e] => e_Leader e | _ => false end) as ->; [|auto].
  pose proof (Permutation_length Hl) as Hlen.
  destruct l as [|a [|b l]], (vals (tbl Etcd s)) as [|c [|d k]] eqn:Hk; simpl in Hlen; try lia; try done.
  apply Permutation_singleton_r in Hl. by simplify_eq.
Qed.

Lemma wp_MinionSelf db s m Q :
  DbOK db s → MinionTable ∈ db →
  filter (passes (Some mi_Self)) (vals (tbl Minion s)) = [m] →
  (∀ s', same s s' → Q m s') → wp (MinionSelf db) s Q.
Proof.
  intros Hok Hin Hv HQ. unfold MinionSelf. wp_bind. apply wp_SelectFrom; [done|done|].
  intros l s' Hs Hl. rewrite Hv in Hl. apply Permutation_singleton_r in Hl as ->. wp_ret. auto.
Qed.
End single.

Lemma wf_New : wf New.
Proof.
  assert (∀ tn m, abs_rows New !! tn = Some m → m = ∅) as Hempty.
  { intros tn m. unfold abs_rows, New. simpl. rewrite !lookup_fmap, !lookup_insert, lookup_empty.
    repeat case_decide; naive_solver. }
  split; [done| |].
  - intros tn m id r ->%Hempty. by rewrite lookup_empty.
  - intros tn1 tn2 m1 m2 id ->%Hempty _. rewrite lookup_empty. by intros [? ?].
Qed.

(** ** Deciding well-formedness of a concrete store *)

Definition rows_placed (s : store) : Prop :=
  map_Forall (λ tn m, map_Forall (λ id r,
    getTableType r = tn ∧ getID r = id ∧ (0 < id)%Z ∧ (id ≤ curID s)%Z) m) (abs_rows s).
Definition rows_unique (s : store) : Prop :=
  map_Forall (λ tn1 m1, map_Forall (λ tn2 m2,
    tn1 = tn2 ∨ map_Forall (λ id _, m2 !! id = None) m1) (abs_rows s)) (abs_rows s).

Lemma wf_decompose s : wf s ↔ (0 ≤ curID s)%Z ∧ rows_placed s ∧ rows_unique s.
Proof.
  split.
  - intros [H0 Hr Hu]. split_and!; [done|..].
    + intros tn m Hm id r Hid. destruct (Hr tn m id r) as (? & ? & ? & ?); done.
    + intros tn1 m1 Hm1 tn2 m2 Hm2. destruct (decide (tn1 = tn2)) as [|Hne]; [by left|right].
      intros id r Hid. destruct (m2 !! id) eqn:E; [|done]. destruct Hne.
      apply (Hu tn1 tn2 m1 m2 id); eauto.
  - intros (H0 & Hr & Hu). split; [done|..].
    + intros tn m id r Hm Hid. destruct (Hr tn m Hm id r Hid) as (? & ? & ? & ?). done.
    + intros tn1 tn2 m1 m2 id Hm1 Hm2 [r1 H1] [r2 H2].
      destruct (Hu tn1 m1 Hm1 tn2 m2 Hm2) as [|Hd]; [done|]. specialize (Hd id r1 H1). congruence.
Qed.

#[export] Instance wf_dec s : Decision (wf s).
Proof.
  refine (cast_if (decide ((0 ≤ curID s)%Z ∧ rows_placed s ∧ rows_unique s)));
    by rewrite wf_decompose.
Defined.
#[export] Instance DbOK_dec db s : Decision (DbOK db s).
Proof. unfold DbOK. apply _. Defined.

(** The store that holds the given rows. *)
Definition storeOf (rs : list row) : store :=
  mk_store
    (list_to_map ((λ tn, (tn, mk_table (list_to_map
       ((λ r, (getID r, r)) <$> filter (λ r, getTableType r = tn) rs)) ∅ false)) <$> AllTables))
    (foldr Z.max 0%Z (getID <$> rs)) ∅ 0.

(** ** Properties *)

(** C18: the database operations implement maps from IDs to rows.  In a
    well-formed store, on an accessible table: selecting returns each row that
    passes the check exactly once and changes nothing; inserting adds the zero
    row under an unused ID; committing replaces the row with that ID, and
    panics when there is none; removing deletes it.  No operation touches
    another table, and every order of Go's map loops gives these results. *)
Theorem db_operations_refine_maps `{MapOrder} {T} `{RowType T} (db : Database) (s : store)
    (check : option (T → bool)) (t : T) :
  DbOK db s → row_table T ∈ db →
  wp (SelectFrom db check) s (λ l s',
    same s s' ∧ l ≡ₚ filter (passes check) (vals (tbl T s))) ∧
  wp (InsertRow (T:=T) db) s (λ r s', r = row_zero (curID s + 1) ∧
    tbl T s !! (curID s + 1)%Z = None ∧
    tbl T s' = <[(curID s + 1)%Z := r]> (tbl T s) ∧ only (row_table T) s s' ∧ wf s') ∧
  (is_Some (tbl T s !! rowID t) →
    wp (CommitT db t) s (λ _ s', tbl T s' = <[rowID t := t]> (tbl T s) ∧
      only (row_table T) s s' ∧ curID s' = curID s ∧ wf s')) ∧
  (tbl T s !! rowID t = None → CommitT db t s = Panic "Type Error") ∧
  wp (RemoveT db t) s (λ _ s', tbl T s' = delete (rowID t) (tbl T s) ∧
    only (row_table T) s s' ∧ curID s' = curID s ∧ wf s').
Proof.
  intros Hok Hin. split_and!.
  - apply wp_SelectFrom; auto.
  - apply wp_InsertRow; [done|done|]. intros s' [] ???. split_and!; [done|by apply tbl_fresh, Hok|done..].
  - intros [old Hold]. eapply wp_CommitT; [done|done|done|]. intros s' [] ???. done.
  - intros Hnone. destruct (accessTable_ok _ _ _ Hok Hin) as (tb & Htb & Habs & Hacc).
    unfold CommitT, Commit, mbind, M_bind. rewrite row_inj_table, Hacc.
    rewrite (tbl_abs _ _ (proj1 Hok) Habs), lookup_fmap. fold (rowID t). by rewrite Hnone.
  - apply wp_RemoveT; [done|done|]. intros s' [] ???. done.
Qed.

Lemma db_operations_refine_maps_witness :
  DbOK {[MachineTable]} New ∧
  CommitT {[MachineTable]} (demo_machine 7 Master "x") New = Panic "Type Error".
Proof.
  assert (DbOK {[MachineTable]} New) as Hok.
  { split; [apply wf_New|]. vm_decide. }
  split; [exact Hok|].
  apply (db_operations_refine_maps {[MachineTable]} New None (demo_machine 7 Master "x") Hok);
    vm_decide.
Defined.

(** a [Database] reaches only the tables its transaction named: every
    operation on another table panics and no row is read or written. *)
Theorem no_access_panics `{MapOrder} {T} `{RowType T} (db : Database) (s : store)
    (check : option (T → bool)) (t : T) :
  row_table T ∉ db →
  let msg := "No access to table: " +:+ row_table T in
  SelectFrom db check s = Panic msg ∧ InsertRow (T:=T) db s = Panic msg ∧
  CommitT db t s = Panic msg ∧ RemoveT db t s = Panic msg.
Proof.
  intros Hni msg.
  assert (∀ s, accessTable db (row_table T) s = Panic msg) as Hacc.
  { intros s0. unfold accessTable. by rewrite bool_decide_eq_false_2. }
  split_and!;
    unfold SelectFrom, selectRows, InsertRow, insert_row, CommitT, Commit, RemoveT, Remove,
      mbind, M_bind; simpl; rewrite ?row_inj_table, Hacc; done.
Qed.

Lemma no_access_panics_witness :
  RemoveT {[MachineTable]} (mk_Hostname 1 "a" "10.0.0.3") New =
  Panic ("No access to table: " +:+ HostnameTable).
Proof.
  destruct (no_access_panics {[MachineTable]} New None (mk_Hostname 1 "a" "10.0.0.3"))
    as (_ & _ & _ & Hr); [vm_decide|exact Hr].
Defined.
