(* ===== verification/DbTxn.v ===== *)
(** * Package db, part 4: transactions

    A transaction body is any code built from the database operations
    ([txn_body]).  By induction over such code: a transaction keeps the
    invariant [wf], leaves the tables it did not name alone, and, when it
    changed a table, has put a notification into every live trigger watching
    that table by the time [Run] returns.  The last section models concurrent
    transactions at the level of the table locks. *)

From S2P Require Import Prelude GoStrings Join Blueprint DbRows Db DbSpec.

(** Code that only uses the operations of [Database]. *)
Inductive txn_body `{MapOrder} (db : Database) : ∀ {A}, M store A → Prop :=
  | tb_ret A (a : A) : txn_body db (mret a)
  | tb_bind A B (m : M store A) (f : A → M store B) :
      txn_body db m → (∀ a, txn_body db (f a)) → txn_body db (m ≫= f)
  | tb_panic A msg : txn_body db (panic msg : M store A)
  | tb_lift A (o : outcome A) : txn_body db (lift o)
  | tb_order : txn_body db nextOrder
  | tb_select tn : txn_body db (selectRows db tn)
  | tb_insert T `{RowType T} : txn_body db (InsertRow (T:=T) db)
  | tb_commit r : txn_body db (Commit db r)
  | tb_remove r : txn_body db (Remove db r).

(** How a body may change one table. *)
Record table_step (t t' : table) : Prop := {
  ts_triggers : triggers t' = triggers t;
  ts_keep : shouldAlert t = true → shouldAlert t' = true;
  ts_alert : rows t' ≠ rows t → shouldAlert t' = true;
}.

(** How a body may change the store. *)
Record body_step (db : Database) (s s' : store) : Prop := {
  bs_wf : wf s → wf s';
  bs_chans : chans s' = chans s;
  bs_cur : (curID s ≤ curID s')%Z;
  bs_frame : ∀ tn, tn ∉ db → tables s' !! tn = tables s !! tn;
  bs_tables : ∀ tn, option_Forall2 table_step (tables s !! tn) (tables s' !! tn);
}.

Lemma table_step_refl t : table_step t t.
Proof. by split. Qed.

Lemma table_step_trans t1 t2 t3 : table_step t1 t2 → table_step t2 t3 → table_step t1 t3.
Proof.
  intros [Ht1 Hk1 Ha1] [Ht2 Hk2 Ha2]. split; [congruence|auto|]. intros Hne.
  destruct (decide (rows t2 = rows t1)) as [Heq|]; [|auto]. apply Ha2. congruence.
Qed.

Lemma tables_step_refl (o : option table) : option_Forall2 table_step o o.
Proof. destruct o; constructor. apply table_step_refl. Qed.

Lemma body_step_refl db s s' :
  same s s' → tables s' = tables s → chans s' = chans s → body_step db s s'.
Proof.
  intros Hs Ht Hc. split.
  - by apply same_wf.
  - done.
  - destruct Hs as [_ ->]. done.
  - by rewrite Ht.
  - intros tn. rewrite Ht. apply tables_step_refl.
Qed.

Lemma body_step_trans db s1 s2 s3 : body_step db s1 s2 → body_step db s2 s3 → body_step db s1 s3.
Proof.
  intros [W1 C1 I1 F1 T1] [W2 C2 I2 F2 T2]. split; [auto|congruence|lia|..].
  - intros tn Htn. by rewrite F2, F1.
  - intros tn. specialize (T1 tn). specialize (T2 tn).
    destruct T1 as [t1 t2 H12|]; inversion T2; subst; constructor. by eapply table_step_trans.
Qed.

Lemma accessTable_inv db tn s t s' :
  accessTable db tn s = Ok (t, s') →
  tn ∈ db ∧ tables s !! tn = Some t ∧ abs_rows s !! tn = Some (rows t) ∧ s' = s.
Proof.
  unfold accessTable, abs_rows. rewrite lookup_fmap. case_bool as [Hin|]; [|done].
  destruct (tables s !! tn) eqn:Ht; [|done]. intros [= <- <-]. done.
Qed.

(** Rewriting the rows of an accessible table and flagging it is a step. *)
Lemma body_step_set_rows db tn t m s c :
  tn ∈ db → tables s !! tn = Some t → (curID s ≤ c)%Z →
  (wf s → wf (mk_store (tables (set_rows tn m (λ _, true) s)) c (chans s) (tick s))) →
  body_step db s (mk_store (tables (set_rows tn m (λ _, true) s)) c (chans s) (tick s)).
Proof.
  intros Hin Ht Hc Hwf. split; [done|done|done|..]; unfold set_rows, set_tables; simpl.
  - intros tn' Hn. rewrite lookup_alter_ne; [done|]. intros ->. done.
  - intros tn'. rewrite lookup_alter. case_decide; subst; [|apply tables_step_refl].
    rewrite Ht. simpl. by constructor; split.
Qed.

Lemma Commit_step db r s s' : Commit db r s = Ok ((), s') → body_step db s s'.
Proof.
  unfold Commit, writeTable, modify, mbind, M_bind.
  destruct (accessTable db (getTableType r) s) as [[t s0]|] eqn:Hacc; [|done].
  apply accessTable_inv in Hacc as (Hin & Ht & Habs & ->).
  destruct (rows t !! getID r) as [old|] eqn:Hold; [|done].
  case_bool as [|Hty]; [done|]. apply dec_stable in Hty.
  destruct (shouldAlert t || _).
  - rewrite (write_set_rows _ _ _ _ _ Ht). intros [= <-].
    eapply (body_step_set_rows db _ t _ s (curID s)); [done|done|done|]. intros Hwf.
    eapply (wf_replace s _ (getTableType r) (rows t)); [done|done|by eapply abs_set_rows|simpl; lia|..].
    + intros id r' [[<- <-]|[_ Hr]]%lookup_insert_Some; left; eauto.
    + intros id r' [[<- <-]|[_ Hr]]%lookup_insert_Some; [|by apply (wf_row _ Hwf _ _ _ _ Habs)].
      destruct (wf_row _ Hwf _ _ _ _ Habs Hold) as (_ & _ & ?). done.
  - intros [= <-]. by apply body_step_refl.
Qed.

Lemma Remove_step db r s s' : Remove db r s = Ok ((), s') → body_step db s s'.
Proof.
  unfold Remove, writeTable, modify, mbind, M_bind.
  destruct (accessTable db (getTableType r) s) as [[t s0]|] eqn:Hacc; [|done].
  apply accessTable_inv in Hacc as (Hin & Ht & Habs & ->).
  rewrite (write_set_rows _ _ _ _ _ Ht). intros [= <-].
  eapply (body_step_set_rows db _ t _ s (curID s)); [done|done|done|]. intros Hwf.
  eapply (wf_replace s _ (getTableType r) (rows t)); [done|done|by eapply abs_set_rows|simpl; lia|..].
  - intros id r' [_ Hr]%lookup_delete_Some; left; eauto.
  - intros id r' [_ Hr]%lookup_delete_Some. by apply (wf_row _ Hwf _ _ _ _ Habs).
Qed.

Lemma InsertRow_step {T} `{RowType T} db s t s' :
  InsertRow (T:=T) db s = Ok (t, s') → body_step db s s'.
Proof.
  unfold InsertRow, insert_row, writeTable, modify, mbind, M_bind. simpl. rewrite row_inj_table.
  set (s1 := mk_store (tables s) (curID s + 1) (chans s) (tick s)).
  destruct (accessTable db (row_table T) s1) as [[tb s0]|] eqn:Hacc; [|done].
  apply accessTable_inv in Hacc as (Hin & Ht & Habs & ->).
  rewrite (write_set_rows _ _ _ _ _ Ht). intros [= <- <-].
  eapply (body_step_set_rows db _ tb _ s (curID s + 1)); [done|done|lia|]. intros Hwf.
  eapply (wf_replace s _ (row_table T) (rows tb)); [done|exact Habs|by eapply (abs_set_rows _ _ _ s)|simpl; lia|..];
    rewrite ?row_zero_id.
  - intros id r [[<- <-]|[_ Hr]]%lookup_insert_Some; [right; lia|left; eauto].
  - intros id r [[<- <-]|[_ Hr]]%lookup_insert_Some.
    + rewrite row_inj_table, row_zero_id. pose proof (wf_cur _ Hwf). simpl. split_and!; lia || done.
    + destruct (wf_row _ Hwf _ _ _ _ Habs Hr) as (? & ? & ?). simpl. split_and!; lia || done.
Qed.

(** Rule induction: every body makes only such steps. *)
Lemma txn_body_step `{MapOrder} db {A} (m : M store A) :
  txn_body db m → ∀ s a s', m s = Ok (a, s') → body_step db s s'.
Proof.
  induction 1 as [A a|A B m f _ IHm _ IHf|A msg|A o| |tn|T ?|r|r]; intros s b s' Hr.
  - injection Hr as <- <-. by apply body_step_refl.
  - unfold mbind, M_bind in Hr. destruct (m s) as [[a s1]|] eqn:Hm; [|done].
    eapply body_step_trans; eauto.
  - done.
  - unfold lift in Hr. destruct o; [|done]. simplify_eq. by apply body_step_refl.
  - unfold nextOrder in Hr. simplify_eq. by apply body_step_refl.
  - unfold selectRows, mbind, M_bind in Hr.
    destruct (accessTable db tn s) as [[t s1]|] eqn:Hacc; [|done].
    apply accessTable_inv in Hacc as (_ & _ & _ & ->). injection Hr as <- <-. by apply body_step_refl.
  - by eapply InsertRow_step.
  - destruct b. by eapply Commit_step.
  - destruct b. by eapply Remove_step.
Qed.

(** ** Notifying the triggers *)

(** A trigger that is watched and not stopped. *)
Definition live (s : store) (tn : string) (k : nat) : Prop :=
  ∃ t tr, tables s !! tn = Some t ∧ k ∈ triggers t ∧ chans s !! k = Some tr ∧ stopped tr = false.

(** The trigger's channel holds a notification. *)
Definition notified (s : store) (k : nat) : Prop :=
  ∃ tr, chans s !! k = Some tr ∧ full tr = true.

(** How notifying may change the store: rows stay, notifications are never
    lost, and a live trigger stays live. *)
Record alert_step (s s' : store) : Prop := {
  as_same : same s s';
  as_flags : ∀ tn, shouldAlert <$> tables s' !! tn = shouldAlert <$> tables s !! tn;
  as_live : ∀ tn k, live s tn k → live s' tn k;
  as_notified : ∀ k, notified s k → notified s' k;
}.

Lemma alert_step_refl s s' :
  tables s' = tables s → chans s' = chans s → curID s' = curID s → alert_step s s'.
Proof.
  intros Ht Hc Hi. unfold live, notified. split; unfold same, abs_rows, live, notified;
    rewrite ?Ht, ?Hc; auto.
Qed.

Lemma alert_step_trans s1 s2 s3 : alert_step s1 s2 → alert_step s2 s3 → alert_step s1 s3.
Proof.
  intros [S1 F1 L1 N1] [S2 F2 L2 N2]. split; [by eapply same_trans| |auto|auto].
  intros tn. by rewrite F2.
Qed.

Lemma alertTrigger_step tn k s :
  wp (alertTrigger tn k) s (λ _ s', alert_step s s' ∧ (live s tn k → notified s' k)).
Proof.
  unfold wp, alertTrigger. destruct (chans s !! k) as [[f st]|] eqn:Hk; simpl.
  - destruct st; simpl.
    + split; [|intros (t & tr & _ & _ & Htr & Hs); by simplify_eq]. split.
      * split; [|done]. unfold abs_rows, set_tables. simpl. apply map_eq. intros tn'.
        rewrite !lookup_fmap, lookup_alter. case_decide; subst; [|done]. by destruct (tables s !! tn').
      * intros tn'. unfold set_tables. simpl. rewrite lookup_alter. case_decide; subst; [|done].
        by destruct (tables s !! tn').
      * intros tn' k' (t & tr & Ht & Hin & Htr & Hs). unfold live, set_tables. simpl.
        rewrite lookup_alter. case_decide; subst; [|by exists t, tr].
        rewrite Ht. eexists _, tr. split_and!; [done| |done|done]. simpl.
        assert (k' ≠ k) by (intros ->; by simplify_eq). set_solver.
      * intros k' (tr & Htr & Hf). by exists tr.
    + split.
      2:{ intros _. exists (mk_trigger true false). unfold set_chans. simpl. by rewrite lookup_insert_eq. }
      split; [done|done| |].
      * intros tn' k' (t & tr & Ht & Hin & Htr & Hs). unfold live, set_chans. simpl.
        destruct (decide (k' = k)) as [->|Hne].
        -- eexists t, _. rewrite lookup_insert_eq. split_and!; done.
        -- exists t, tr. by rewrite lookup_insert_ne.
      * intros k' (tr & Htr & Hf). unfold notified, set_chans. simpl.
        destruct (decide (k' = k)) as [->|Hne].
        -- eexists. by rewrite lookup_insert_eq.
        -- exists tr. by rewrite lookup_insert_ne.
  - split; [by apply alert_step_refl|]. intros (t & tr & _ & _ & Htr & _). by simplify_eq.
Qed.

Section alerts.
Context `{MapOrder}.

Lemma alert_ok tn s :
  wp (alert tn) s (λ _ s', alert_step s s' ∧ ∀ k, live s tn k → notified s' k).
Proof.
  unfold alert. wp_bind. unfold get, wp at 1. wp_bind. unfold nextOrder, wp at 1.
  set (s0 := mk_store _ _ _ _).
  apply (wp_forM_prefix _ (λ dn s', alert_step s s' ∧ ∀ k, k ∈ dn → live s tn k → notified s' k)).
  - split; [by apply alert_step_refl|set_solver].
  - intros dn k rest s1 _ [Hst Hdn]. wp_use alertTrigger_step. intros [] s2 [Hst2 Hk].
    split; [by eapply alert_step_trans|].
    intros k' [Hin|Hin%list_elem_of_singleton]%elem_of_app Hl; [|subst].
    + apply (as_notified _ _ Hst2). auto.
    + apply Hk. by apply (as_live _ _ Hst).
  - intros s' [Hst Hdn]. split; [done|]. intros k Hl. apply Hdn; [|done].
    destruct Hl as (t & tr & Ht & Hin & _). rewrite elem_of_range_set, Ht. done.
Qed.

Lemma alerts_ok l s :
  wp (forM_ l alert) s (λ _ s', alert_step s s' ∧ ∀ tn k, tn ∈ l → live s tn k → notified s' k).
Proof.
  apply (wp_forM_prefix _ (λ dn s', alert_step s s' ∧
    ∀ tn k, tn ∈ dn → live s tn k → notified s' k)).
  - split; [by apply alert_step_refl|set_solver].
  - intros dn tn rest s1 _ [Hst Hdn]. wp_use alert_ok. intros [] s2 [Hst2 Hk].
    split; [by eapply alert_step_trans|].
    intros tn' k [Hin|Hin%list_elem_of_singleton]%elem_of_app Hl; [|subst].
    + apply (as_notified _ _ Hst2). eauto.
    + apply Hk. by apply (as_live _ _ Hst).
  - auto.
Qed.

Definition reset (t : table) : table := mk_table (rows t) (triggers t) false.

Lemma collectAlerts_ok tts s :
  NoDup tts →
  wp (collectAlerts tts) s (λ l s',
    chans s' = chans s ∧ curID s' = curID s ∧
    (∀ tn, tables s' !! tn = if decide (tn ∈ tts) then reset <$> tables s !! tn else tables s !! tn) ∧
    (∀ tn t, tn ∈ tts → tables s !! tn = Some t → shouldAlert t = true → tn ∈ l)).
Proof.
  revert s. induction tts as [|tn tts IH]; intros s Hnd; simpl.
  { wp_ret. split_and!; [done..|set_solver]. }
  apply NoDup_cons in Hnd as [Hni Hnd].
  assert (∀ s1, chans s1 = chans s → curID s1 = curID s →
    (∀ tn', tables s1 !! tn' = if decide (tn' = tn) then reset <$> tables s !! tn' else tables s !! tn') →
    wp (collectAlerts tts) s1 (λ l s', chans s' = chans s ∧ curID s' = curID s ∧
      (∀ tn', tables s' !! tn' = if decide (tn' ∈ tn :: tts)
        then reset <$> tables s !! tn' else tables s !! tn') ∧
      (∀ tn' t, tn' ∈ tts → tables s !! tn' = Some t → shouldAlert t = true → tn' ∈ l))) as Hrec.
  { intros s1 Hc1 Hi1 Ht1. wp_use (IH s1 Hnd). intros l s' (Hc & Hi & Ht & Hl).
    split_and!; [congruence..| |].
    - intros tn'. rewrite Ht, Ht1.
      destruct (decide (tn' = tn)) as [->|Hne]; [rewrite decide_False, decide_True by set_solver; done|].
      destruct (decide (tn' ∈ tts)); [rewrite decide_True by set_solver|rewrite decide_False by set_solver]; done.
    - intros tn' t Hin Htn. apply (Hl tn'); [done|]. rewrite Ht1, decide_False; [done|]. by intros ->. }
  wp_bind. unfold get, wp at 1. destruct (tables s !! tn) as [t|] eqn:Htn.
  - destruct (shouldAlert t) eqn:Hfl.
    + wp_bind. unfold writeTable, modify, wp at 1. wp_bind. eapply wp_mono; [apply Hrec; [done|done|]|].
      * intros tn'. unfold set_tables. simpl. rewrite lookup_insert.
        destruct (decide (tn = tn')) as [<-|]; [rewrite decide_True, Htn by done|rewrite decide_False by done]; done.
      * intros l s' (Hc & Hi & Ht & Hl). wp_ret. split_and!; [done..|]. intros tn' t' [->|Hin]%elem_of_cons; [set_solver|].
        intros. apply elem_of_cons. right. by eapply Hl.
    + eapply wp_mono; [apply Hrec; [done|done|]|].
      * intros tn'. destruct (decide (tn' = tn)) as [->|]; [|done]. rewrite Htn. simpl. f_equal.
        unfold reset. destruct t. simpl in *. by subst.
      * intros l s' (Hc & Hi & Ht & Hl). split_and!; [done..|].
        intros tn' t' [->|Hin]%elem_of_cons; [intros; congruence|]. by apply Hl.
  - eapply wp_mono; [apply Hrec; [done|done|]|].
    + intros tn'. destruct (decide (tn' = tn)) as [->|]; [|done]. by rewrite Htn.
    + intros l s' (Hc & Hi & Ht & Hl). split_and!; [done..|].
      intros tn' t' [->|Hin]%elem_of_cons; [intros; congruence|]. by apply Hl.
Qed.
End alerts.

(** ** Whole transactions *)

(** No table is flagged: the state between transactions. *)
Definition quiet (s : store) : Prop :=
  ∀ tn t, tables s !! tn = Some t → shouldAlert t = false.

Section run.
Context `{MapOrder}.

Lemma Txn_ok tts s :
  (∀ tn, tn ∈ tts → is_Some (tables s !! tn)) → Txn tts s = Ok (list_to_set tts, s).
Proof.
  intros Hall. unfold Txn. destruct (forallb _ tts) eqn:Hf; [done|].
  apply not_true_iff_false in Hf. destruct Hf. apply forallb_forall.
  intros tn Hin%list_elem_of_In. apply bool_decide_eq_true. auto.
Qed.

(** The tail of [Run]: everything after the closure. *)
Definition notifyAll (db : Database) : M store unit :=
  let! n := nextOrder in
  let! alertTables := collectAlerts (range_set n db) in
  forM_ alertTables alert.

Lemma notifyAll_ok (db : Database) (s : store) :
  wp (notifyAll db) s (λ _ s',
    same s s' ∧
    (∀ tn, shouldAlert <$> tables s' !! tn =
       if decide (tn ∈ db) then (λ _, false) <$> tables s !! tn else shouldAlert <$> tables s !! tn) ∧
    (∀ tn k, live s tn k → live s' tn k) ∧ (∀ k, notified s k → notified s' k) ∧
    (∀ tn t k, tn ∈ db → tables s !! tn = Some t → shouldAlert t = true →
       live s tn k → notified s' k)).
Proof.
  unfold notifyAll. wp_bind. unfold nextOrder, wp at 1. set (s0 := mk_store _ _ _ _). wp_bind.
  eapply wp_mono.
  { apply collectAlerts_ok. rewrite range_set_perm. apply NoDup_elements. }
  intros l s1 (Hc1 & Hi1 & Ht1 & Hl). wp_use alerts_ok. intros [] s2 [[S2 F2 L2 N2] Hn2].
  assert (∀ tn, tables s1 !! tn = if decide (tn ∈ db) then reset <$> tables s !! tn else tables s !! tn)
    as Ht1'.
  { intros tn. rewrite Ht1. destruct (decide (tn ∈ db)).
    - rewrite decide_True by (by rewrite elem_of_range_set). done.
    - rewrite decide_False by (by rewrite elem_of_range_set). done. }
  assert (∀ tn k, live s tn k → live s1 tn k) as HL1.
  { intros tn k (t & tr & Ht & Hin & Htr & Hst). unfold live. rewrite Ht1', Hc1, Ht.
    case_decide; [exists (reset t), tr|exists t, tr]; done. }
  split_and!.
  - eapply same_trans; [|exact S2]. split; [|done]. unfold abs_rows. apply map_eq. intros tn.
    rewrite !lookup_fmap, Ht1'. case_decide; [|done]. by destruct (tables s !! tn).
  - intros tn. rewrite F2, Ht1'. case_decide; [|done]. by destruct (tables s !! tn).
  - auto.
  - intros k (tr & Htr & Hf). apply N2. exists tr. by rewrite Hc1.
  - intros tn t k Hin Ht Hfl Hlive. apply (Hn2 tn k); [|auto].
    eapply Hl; [by rewrite elem_of_range_set|done|done].
Qed.

Lemma Run_unfold {A} tts (do : Database → M store A) s :
  (∀ tn, tn ∈ tts → is_Some (tables s !! tn)) →
  Run tts do s = (let! a := do (list_to_set tts) in
                  notifyAll (list_to_set tts) ;;; mret a) s.
Proof.
  intros Hall. unfold Run, mbind, M_bind. rewrite Txn_ok by done.
  destruct (do _ s) as [[a s1]|]; [|done]. unfold notifyAll, nextOrder, mbind, M_bind.
  by destruct (collectAlerts _ _) as [[l s2]|].
Qed.

(** Client rule: run the closure, then only notifications happen. *)
Lemma wp_Run {A} tts (do : Database → M store A) s Q :
  (∀ tn, tn ∈ tts → is_Some (tables s !! tn)) →
  wp (do (list_to_set tts)) s (λ a s1, ∀ s', same s1 s' → Q a s') →
  wp (Run tts do) s Q.
Proof.
  intros Hall Hdo. unfold wp. rewrite Run_unfold by done.
  change (wp (let! a := do (list_to_set tts) in notifyAll (list_to_set tts) ;;; mret a) s Q).
  wp_bind. eapply wp_mono; [exact Hdo|]. intros a s1 HQ. wp_bind.
  wp_use notifyAll_ok. intros [] s2 [Hs _]. wp_ret. auto.
Qed.

(** A transaction that returned. *)
Lemma Run_ok {A} tts (do : Database → M store A) s a s' :
  txn_body (list_to_set tts) (do (list_to_set tts)) → quiet s →
  Run tts do s = Ok (a, s') →
  (wf s → wf s') ∧ quiet s' ∧
  (∀ tn, tn ∉ tts → abs_rows s' !! tn = abs_rows s !! tn) ∧
  (∀ tn k, live s tn k → live s' tn k) ∧ (∀ k, notified s k → notified s' k) ∧
  (∀ tn k, abs_rows s' !! tn ≠ abs_rows s !! tn → live s tn k → notified s' k).
Proof.
  intros Hb Hq Hrun.
  assert (∀ tn, tn ∈ tts → is_Some (tables s !! tn)) as Hall.
  { intros tn Hin. unfold Run, mbind, M_bind, Txn in Hrun.
    destruct (forallb _ tts) eqn:Hf; [|done]. rewrite forallb_forall in Hf.
    eapply bool_decide_eq_true, Hf, list_elem_of_In, Hin. }
  rewrite Run_unfold in Hrun by done. unfold mbind at 1, M_bind at 1 in Hrun.
  destruct (do (list_to_set tts) s) as [[a1 s1]|] eqn:Hdo; [|done].
  pose proof (txn_body_step _ _ Hb _ _ _ Hdo) as [W1 C1 I1 F1 T1].
  pose proof (notifyAll_ok (list_to_set tts) s1) as Htail.
  unfold wp in Htail. unfold mbind, M_bind in Hrun.
  destruct (notifyAll (list_to_set tts) s1) as [[[] s2]|]; [|done]. injection Hrun as <- <-.
  destruct Htail as (Hsame & Hfl & Hlive & Hnot & Halert).
  assert (∀ tn k, live s tn k → live s1 tn k) as HL1.
  { intros tn k (t & tr & Ht & Hin & Htr & Hst). specialize (T1 tn). rewrite Ht in T1.
    inversion T1 as [? t' Hts Heq|]; subst. exists t', tr. rewrite C1, (ts_triggers _ _ Hts). done. }
  destruct Hsame as [Habs Hcur]. split_and!.
  - intros Hwf. eapply same_wf; [by split|auto].
  - intros tn t Ht. specialize (Hfl tn). rewrite Ht in Hfl. simpl in Hfl.
    case_decide as Hin.
    + destruct (tables s1 !! tn); naive_solver.
    + specialize (F1 tn Hin). rewrite F1 in Hfl. destruct (tables s !! tn) as [t0|] eqn:H0; [|done].
      simpl in Hfl. injection Hfl as ->. by apply (Hq tn).
  - intros tn Hni. rewrite Habs. unfold abs_rows. rewrite !lookup_fmap, F1; [done|set_solver].
  - auto.
  - intros k (tr & Htr & Hf). apply Hnot. exists tr. by rewrite C1.
  - intros tn k Hne Hl. rewrite Habs in Hne. unfold abs_rows in Hne. rewrite !lookup_fmap in Hne.
    destruct (decide (tn ∈ (list_to_set tts : Database))) as [Hin|Hni]; [|by rewrite F1 in Hne].
    specialize (T1 tn). destruct (tables s1 !! tn) as [t1|] eqn:H1; inversion T1 as [t0 ? Hts Heq|Heq]; subst.
    + apply (Halert tn t1 k); [done|done| |auto]. apply (ts_alert _ _ Hts).
      intros Hrows. apply Hne. rewrite <-Heq. simpl. by rewrite Hrows.
    + by rewrite <-Heq in Hne.
Qed.
End run.

(** ** Properties *)

(** C16: transactions keep the database consistent.  Whatever code a
    transaction runs, if it returns then every row is still in the table of
    its type under its own ID, with IDs from the counter and shared by no two
    rows of any tables, and the tables it did not name hold the same rows. *)
Theorem transaction_preserves_wf `{MapOrder} {A} tts (do : Database → M store A) s a s' :
  txn_body (list_to_set tts) (do (list_to_set tts)) → quiet s → wf s →
  Run tts do s = Ok (a, s') →
  wf s' ∧ quiet s' ∧ ∀ tn, tn ∉ tts → abs_rows s' !! tn = abs_rows s !! tn.
Proof.
  intros Hb Hq Hwf Hrun. destruct (Run_ok _ _ _ _ _ Hb Hq Hrun) as (? & ? & ? & _). auto.
Qed.

(** C17: no change goes unnoticed.  When a transaction returns, every trigger
    that was watching a table whose rows changed, and was not stopped, holds a
    notification; and no pending notification of any trigger was lost. *)
Theorem transaction_notifies_watchers `{MapOrder} {A} tts (do : Database → M store A) s a s' :
  txn_body (list_to_set tts) (do (list_to_set tts)) → quiet s →
  Run tts do s = Ok (a, s') →
  (∀ tn k, abs_rows s' !! tn ≠ abs_rows s !! tn → live s tn k → notified s' k) ∧
  (∀ k, notified s k → notified s' k) ∧
  (∀ tn k, live s tn k → live s' tn k).
Proof.
  intros Hb Hq Hrun. destruct (Run_ok _ _ _ _ _ Hb Hq Hrun) as (_ & _ & _ & ? & ? & ?). auto.
Qed.

Definition insert_machine (db : Database) : M store Machine := InsertRow db.

Lemma quiet_New : quiet New.
Proof.
  intros tn t. unfold New. simpl. rewrite !lookup_insert, lookup_empty. repeat case_decide; naive_solver.
Qed.

Lemma transaction_preserves_wf_witness :
  ∃ a s', Run [MachineTable] insert_machine New = Ok (a, s') ∧ wf s'.
Proof.
  destruct (Run [MachineTable] insert_machine New) as [[a s']|] eqn:Hrun;
    [|vm_compute in Hrun; discriminate].
  exists a, s'. split; [done|].
  apply (transaction_preserves_wf [MachineTable] insert_machine New a s');
    [apply tb_insert|apply quiet_New|apply wf_New|exact Hrun].
Defined.

(** A trigger on the machine table, its initial tick taken. *)
Definition watched : store :=
  match (let! k := Trigger [MachineTable] in Receive k) New with
  | Ok (_, s) => s | Panic _ => New
  end.

Lemma quiet_watched : quiet watched.
Proof.
  intros tn t.
  assert (∀ tn t, (tn, t) ∈ map_to_list (tables watched) → shouldAlert t = false) as Hall.
  { intros tn' t'.
    assert (Forall (λ x, shouldAlert x.2 = false) (map_to_list (tables watched))) as Hf.
    { vm_compute. repeat constructor. }
    rewrite Forall_forall in Hf. intros Hin. by apply (Hf _ Hin). }
  intros Ht. eapply Hall. by apply elem_of_map_to_list.
Qed.

Lemma transaction_notifies_watchers_witness :
  ∃ a s', Run [MachineTable] insert_machine watched = Ok (a, s') ∧
    ¬ notified watched 0 ∧ notified s' 0.
Proof.
  destruct (Run [MachineTable] insert_machine watched) as [[a s']|] eqn:Hrun;
    [|vm_compute in Hrun; discriminate].
  exists a, s'. split; [reflexivity|]. split.
  { clear Hrun. intros (tr & Htr & Hf). vm_compute in Htr. injection Htr as <-. discriminate Hf. }
  apply (proj1 (transaction_notifies_watchers [MachineTable] insert_machine watched a s'
    (tb_insert _ _) quiet_watched Hrun) MachineTable 0).
  - intros Heq. vm_compute in Hrun. injection Hrun as <- <-. vm_compute in Heq. discriminate.
  - exists (mk_table ∅ {[0]} false), (mk_trigger false false).
    split_and!; [vm_compute; reflexivity|vm_decide|vm_compute; reflexivity|done].
Defined.
