(* ===== verification/DbConc.v ===== *)
(** * Package db, part 5: concurrent transactions

    Goroutines that run transactions and use trigger channels, interleaved at
    the grain of single lock, unlock, send and receive operations
    ([lockTables], [unlockTables], [Trigger] of [src/db/db.go]).  The closure
    of a transaction runs in one step, which is what holding the locks of all
    its tables buys.  The step relation is used for two results: taking the
    table locks in sorted order never deadlocks, and registering a trigger can
    block for ever. *)

From S2P Require Import Prelude GoStrings Join Blueprint DbRows Db DbSpec DbTxn.

(** What a goroutine still has to do. *)
Inductive code :=
  | Halt
  | Transact (tts : list string) (body : store → store) (next : code)
  | SendC (trig : nat) (next : code)
  | RecvC (trig : nat) (next : code).

(** A goroutine between operations, or inside [Run]. *)
Inductive thread :=
  | Idle (c : code)
  | Locking (held todo : list string) (body : store → store) (next : code)
  | Unlocking (held : list string) (next : code).

Record config := Config { threads : list thread; shared : store }.

(** The table locks a goroutine holds. *)
Definition holds (th : thread) : list string :=
  match th with Idle _ => [] | Locking held _ _ _ => held | Unlocking held _ => held end.

Definition locked (ths : list thread) : list string := concat (holds <$> ths).

(** [lockTables]: the distinct tables of the transaction in sorted order. *)
Definition lockOrder (tts : list string) : list string := Strings_sort (remove_dups tts).

(** One step of one goroutine; [others] are all the other goroutines. *)
Inductive tstep (others : list thread) : thread → store → thread → store → Prop :=
  | st_begin tts body next s :
      tstep others (Idle (Transact tts body next)) s (Locking [] (lockOrder tts) body next) s
  | st_lock held t todo body next s :
      t ∉ held → t ∉ locked others →
      tstep others (Locking held (t :: todo) body next) s (Locking (held ++ [t]) todo body next) s
  | st_exec held body next s :
      tstep others (Locking held [] body next) s (Unlocking held next) (body s)
  | st_unlock l1 t l2 next s :
      tstep others (Unlocking (l1 ++ t :: l2) next) s (Unlocking (l1 ++ l2) next) s
  | st_return next s :
      tstep others (Unlocking [] next) s (Idle next) s
  | st_send trig b next s :
      chans s !! trig = Some (mk_trigger false b) →
      tstep others (Idle (SendC trig next)) s (Idle next)
        (set_chans (insert trig (mk_trigger true b)) s)
  | st_recv trig b next s :
      chans s !! trig = Some (mk_trigger true b) →
      tstep others (Idle (RecvC trig next)) s (Idle next)
        (set_chans (insert trig (mk_trigger false b)) s).

Inductive step : config → config → Prop :=
  | step_thread before th after s th' s' :
      tstep (before ++ after) th s th' s' →
      step (Config (before ++ th :: after) s) (Config (before ++ th' :: after) s').

(** The order of table names. *)
Definition before_str : relation string := λ x y, strLess x y = true.

(** The goroutine is inside a transaction or about to begin one. *)
Definition transacting (th : thread) : Prop :=
  match th with Idle (Transact _ _ _) => True | Idle _ => False | _ => True end.

(** The invariant behind the locks: a goroutine takes them in increasing
    order, and no lock has two holders. *)
Definition ordered (th : thread) : Prop :=
  match th with
  | Locking held todo _ _ => StronglySorted before_str (held ++ todo)
  | _ => True
  end.

Record lock_inv (c : config) : Prop := {
  li_ordered : Forall ordered (threads c);
  li_excl : NoDup (locked (threads c));
}.

Lemma lockOrder_sorted tts : StronglySorted before_str (lockOrder tts).
Proof.
  unfold lockOrder.
  assert (StronglySorted String.le (Strings_sort (remove_dups tts))) as Hs.
  { apply Sorted_StronglySorted; [apply _|]. apply Sorted_merge_sort, _. }
  assert (NoDup (Strings_sort (remove_dups tts))) as Hnd.
  { rewrite Strings_sort_perm. apply NoDup_remove_dups. }
  induction Hs as [|x l Hl IH Hall]; constructor; apply NoDup_cons in Hnd as [Hx Hnd]; [auto|].
  rewrite Forall_forall in Hall |- *. intros y Hy. apply strLess_le. split; [auto|].
  intros ->. done.
Qed.

Lemma locked_split before th after :
  locked (before ++ th :: after) ≡ₚ holds th ++ locked (before ++ after).
Proof.
  unfold locked. rewrite !fmap_app, fmap_cons, !concat_app. simpl.
  rewrite !app_assoc. apply Permutation_app_tail, Permutation_app_comm.
Qed.

Lemma step_inv c c' : step c c' → lock_inv c → lock_inv c'.
Proof.
  intros [before th after s th' s' Hst] [Hord Hex]. simpl in *.
  apply Forall_app in Hord as [Hb [Ht Ha]%Forall_cons].
  rewrite locked_split in Hex.
  assert (ordered th' ∧ NoDup (holds th' ++ locked (before ++ after))) as [Ho Hn].
  { destruct Hst; simpl in *; try (split; [done|exact Hex]); try done.
    - split; [apply lockOrder_sorted|done].
    - split; [by rewrite <-app_assoc|]. rewrite <-app_assoc. simpl.
      rewrite <-Permutation_middle. constructor; [|done]. rewrite elem_of_app. tauto.
    - split; [done|]. rewrite <-app_assoc in Hex. simpl in Hex.
      rewrite <-Permutation_middle in Hex. apply NoDup_cons in Hex as [_ Hex].
      by rewrite <-app_assoc. }
  split; simpl; [|by rewrite locked_split].
  apply Forall_app. split; [done|]. by apply Forall_cons.
Qed.

(** A list of strings has a greatest element. *)
Lemma greatest (l : list string) :
  l ≠ [] → ∃ x, x ∈ l ∧ ∀ y, y ∈ l → strLess x y = false.
Proof.
  induction l as [|a l IH]; [done|]. intros _. destruct l as [|b l].
  { exists a. split; [set_solver|]. intros y ->%list_elem_of_singleton. apply strLess_irrefl. }
  destruct IH as (x & Hx & Hmax); [done|]. destruct (strLess x a) eqn:Hxa.
  - exists a. split; [set_solver|]. intros y [->|Hy]%elem_of_cons; [apply strLess_irrefl|].
    destruct (strLess a y) eqn:Hay; [|done].
    pose proof (strLess_trans _ _ _ Hxa Hay) as H. rewrite (Hmax y Hy) in H. done.
  - exists x. split; [set_solver|]. intros y [->|Hy]%elem_of_cons; auto.
Qed.

(** The lock a goroutine waits for next. *)
Definition waiting (th : thread) : option string :=
  match th with Locking _ (t :: _) _ _ => Some t | _ => None end.

Lemma elem_of_split_list {A} (x : A) l : x ∈ l → ∃ l1 l2, l = l1 ++ x :: l2.
Proof. intros Hx. by apply list_elem_of_split in Hx. Qed.

Lemma progress c :
  lock_inv c → (∃ th, th ∈ threads c ∧ transacting th) → ∃ c', step c c'.
Proof.
  destruct c as [ths s]. intros [Hord Hex] [th0 [Hth0 Htr0]]; simpl in *.
  destruct (decide (omap waiting ths = [])) as [Hnone|Hsome].
  - (* nobody waits for a lock: the transacting goroutine can move *)
    destruct (elem_of_split_list _ _ Hth0) as (l1 & l2 & ->).
    assert (waiting th0 = None) as Hw.
    { destruct (waiting th0) as [t|] eqn:Hw; [|done].
      assert (t ∈ omap waiting (l1 ++ th0 :: l2)) as Hin.
      { apply list_elem_of_omap. exists th0. set_solver. }
      rewrite Hnone in Hin. set_solver. }
    destruct th0 as [[]|held [|] ? ?|[|t held] next]; try done; eexists; econstructor.
    + apply st_begin.
    + apply st_exec.
    + apply st_return.
    + by apply (st_unlock _ [] t held).
  - (* take the goroutine that waits for the greatest lock *)
    destruct (greatest _ Hsome) as (t & Ht & Hmax).
    apply list_elem_of_omap in Ht as (th & Hth & Hw).
    destruct th as [|held [|t' todo] body next|]; try done. simpl in Hw. injection Hw as ->.
    destruct (elem_of_split_list _ _ Hth) as (l1 & l2 & ->).
    rewrite Forall_forall in Hord. pose proof (Hord _ Hth) as Ho. simpl in Ho.
    destruct (decide (t ∈ locked (l1 ++ l2))) as [Hheld|Hfree].
    + (* its holder can move: it does not wait for a lock *)
      unfold locked in Hheld. apply list_elem_of_In, in_concat in Hheld as (hs & Hhs & Hin).
      apply list_elem_of_In, list_elem_of_fmap in Hhs as (th2 & -> & Hth2).
      apply list_elem_of_In in Hin.
      assert (th2 ∈ l1 ++ Locking held (t :: todo) body next :: l2) as Hth2' by set_solver.
      destruct (elem_of_split_list _ _ Hth2') as (k1 & k2 & Hk). rewrite Hk.
      destruct th2 as [|held2 [|t2 todo2] body2 next2|[|t2 held2] next2]; simpl in Hin.
      * set_solver.
      * eexists; econstructor. apply st_exec.
      * exfalso. pose proof (Hord _ Hth2') as Ho2. simpl in Ho2.
        assert (strLess t t2 = true) as Hlt.
        { apply (StronglySorted_app_1_elem_of before_str held2 (t2 :: todo2)); [done|done|set_solver]. }
        rewrite (Hmax t2) in Hlt; [done|].
        apply list_elem_of_omap. eexists. split; [exact Hth2'|done].
      * set_solver.
      * eexists; econstructor. by apply (st_unlock _ [] t2 held2).
    + eexists; econstructor. apply st_lock; [|done].
      intros Hin. assert (strLess t t = true) as Hlt.
      { apply (StronglySorted_app_1_elem_of before_str held (t :: todo)); [done|done|set_solver]. }
      by rewrite strLess_irrefl in Hlt.
Qed.

(** A configuration in which no transaction has begun. *)
Definition initial (c : config) : Prop :=
  Forall (λ th, ∃ k, th = Idle k) (threads c).

Lemma initial_inv c : initial c → lock_inv c.
Proof.
  intros Hi. unfold initial in Hi. split.
  - eapply Forall_impl; [exact Hi|]. by intros ? [k ->].
  - assert (locked (threads c) = []) as ->; [|constructor].
    induction Hi as [|th ths [k ->] _ IH]; [done|]. exact IH.
Qed.

Lemma reachable_inv c c' : initial c → rtc step c c' → lock_inv c'.
Proof.
  intros Hi%initial_inv. induction 1 as [|c1 c2 c3 Hst _ IH]; [done|].
  apply IH. by eapply step_inv.
Qed.

(** ** Properties *)

(** C15: sorted lock order avoids deadlock.  However goroutines are
    interleaved, from a start with no transaction running: no table lock ever
    has two holders, and as long as some goroutine is inside [Run] or about to
    call it, some goroutine can take a step.  The locks never block everyone. *)
Theorem lock_order_prevents_deadlock (c c' : config) :
  initial c → rtc step c c' →
  NoDup (locked (threads c')) ∧
  ((∃ th, th ∈ threads c' ∧ transacting th) → ∃ c'', step c' c'').
Proof.
  intros Hi Hr. pose proof (reachable_inv _ _ Hi Hr) as Hinv.
  split; [apply Hinv|by apply progress].
Qed.

(** A transaction's closure followed by the notifications, as one function. *)
Definition runBody `{MapOrder} {A} (tts : list string) (do : Database → M store A) (s : store) : store :=
  match (do (list_to_set tts) ;;; notifyAll (list_to_set tts)) s with
  | Ok (_, s') => s'
  | Panic _ => s
  end.

(** [Conn.Trigger] on a channel [trig] that was just made: register in a
    transaction, then send the initialization tick; the caller receives from
    the trigger only after [Trigger] has returned. *)
Definition triggerCode `{MapOrder} (trig : nat) (tts : list string) (caller : code) : code :=
  Transact tts (runBody tts (registerTrigger trig tts)) (SendC trig caller).

(** A goroutine that inserts a machine. *)
Definition writerCode `{MapOrder} : code :=
  Transact [MachineTable] (runBody [MachineTable] (λ db, InsertRow (T:=Machine) db)) Halt.

Definition race_start `{MapOrder} : config :=
  Config [Idle (triggerCode 0 [MachineTable] (RecvC 0 Halt)); Idle writerCode]
    (set_chans (insert 0 (mk_trigger false false)) New).

(** A whole transaction on one table, uninterrupted. *)
Lemma steps_transact before after (tn : string) body next s :
  tn ∉ locked (before ++ after) →
  rtc step (Config (before ++ Idle (Transact [tn] body next) :: after) s)
    (Config (before ++ Idle next :: after) (body s)).
Proof.
  intros Hfree.
  eapply rtc_l; [constructor; apply st_begin|]. unfold lockOrder. simpl.
  eapply rtc_l; [constructor; apply st_lock; [set_solver|done]|]. simpl.
  eapply rtc_l; [constructor; apply st_exec|].
  eapply rtc_l; [constructor; apply (st_unlock _ [] tn [])|]. simpl.
  eapply rtc_l; [constructor; apply st_return|]. done.
Qed.

(** registering a trigger can block for ever.  [Conn.Trigger] registers
    the trigger in a transaction and then sends the first tick with a blocking
    send on the one-slot channel.  When another goroutine changes the table in
    between, its notification fills the slot, nobody can receive since the
    trigger has not been returned yet, and no further step is possible. *)
Theorem trigger_registration_can_block :
  ∃ c, rtc step race_start c ∧ (∀ c', ¬ step c c') ∧
    threads c = [Idle (SendC 0 (RecvC 0 Halt)); Idle Halt].
Proof.
  set (s1 := runBody [MachineTable] (registerTrigger 0 [MachineTable])
               (set_chans (insert 0 (mk_trigger false false)) New)).
  set (s2 := runBody [MachineTable] (λ db, InsertRow (T:=Machine) db) s1).
  exists (Config [Idle (SendC 0 (RecvC 0 Halt)); Idle Halt] s2). split_and!; [..|done].
  - trans (Config [Idle (SendC 0 (RecvC 0 Halt)); Idle writerCode] s1).
    + apply (steps_transact [] [Idle writerCode]). set_solver.
    + apply (steps_transact [Idle (SendC 0 (RecvC 0 Halt))] []). set_solver.
  - assert (chans s2 !! 0 = Some (mk_trigger true false)) as Hfull by (vm_compute; reflexivity).
    clearbody s2. intros c' Hst. inversion Hst as [before th after s th' s' Hts Heq]; subst.
    destruct before as [|x [|y [|z before]]]; simplify_list_eq; inversion Hts; subst; congruence.
Qed.

Definition two_writers : config := Config [Idle writerCode; Idle writerCode] New.

Lemma lock_order_prevents_deadlock_witness :
  initial two_writers ∧ ∃ c'', step two_writers c''.
Proof.
  assert (initial two_writers) as Hi by (repeat constructor; eauto).
  split; [exact Hi|].
  apply (proj2 (lock_order_prevents_deadlock two_writers two_writers Hi (rtc_refl _ _))).
  exists (Idle writerCode). split; [simpl; set_solver|done].
Defined.
