(* ===== verification/DbFrame.v ===== *)
(** * Package db, part 6: reasoning about loops over a table

    The components that reconcile a table with a desired state do so with the
    same loops: remove rows, insert rows, commit rows.  The lemmas here view
    the table of row type [T] as a multiset of rows, [vals (tbl T s)], and say
    which rows a loop consumes and which it leaves; the rest of the table is a
    frame the loop does not touch. *)

From S2P Require Import Prelude GoStrings Join Blueprint DbRows Db DbSpec.

(** The step from [s] to [s'] kept the store usable, changed no table but
    [tn] and handed out no ID twice. *)
Record stepped (db : Database) (tn : string) (s s' : store) : Prop := {
  st_ok : DbOK db s';
  st_only : only tn s s';
  st_cur : (curID s ≤ curID s')%Z;
}.

Section frame.
Context `{MapOrder} {T : Type} `{RowType T}.
Implicit Types (db : Database) (s : store).

Lemma stepped_refl db tn s : DbOK db s → stepped db tn s s.
Proof. intros. split; auto with kelda. lia. Qed.

Lemma stepped_trans db tn s1 s2 s3 :
  stepped db tn s1 s2 → stepped db tn s2 s3 → stepped db tn s1 s3.
Proof. intros [] []. split; [done|by eapply only_trans|lia]. Qed.

Lemma dom_abs s : dom (abs_rows s) = dom (tables s).
Proof. unfold abs_rows. by rewrite dom_fmap_L. Qed.

Lemma same_stepped db tn s s' : same s s' → DbOK db s → stepped db tn s s'.
Proof.
  intros Hs Hok. split; [by eapply same_DbOK|by apply same_only|destruct Hs as [_ ->]; lia].
Qed.

Lemma same_stepped_l db tn s s1 s2 :
  same s s1 → DbOK db s → stepped db tn s1 s2 → stepped db tn s s2.
Proof. intros. eapply stepped_trans; [by apply same_stepped|done]. Qed.

Lemma same_ok db s s' : same s s' → DbOK db s → DbOK db s'.
Proof. intros Hs Hok. apply (same_stepped db "" _ _ Hs Hok). Qed.

Lemma vals_insert_new (m : gmap Z T) i x : m !! i = None → vals (<[i:=x]> m) ≡ₚ x :: vals m.
Proof. intros. unfold vals. by rewrite map_to_list_insert. Qed.

(** One row out of the table. *)
Lemma vals_split s (r : T) rest :
  wf s → vals (tbl T s) ≡ₚ r :: rest →
  tbl T s !! rowID r = Some r ∧ vals (delete (rowID r) (tbl T s)) ≡ₚ rest.
Proof.
  intros Hwf Hv.
  assert (tbl T s !! rowID r = Some r) as Hr by (apply elem_of_tbl; [done|rewrite Hv; set_solver]).
  split; [done|]. rewrite (vals_delete _ _ _ Hr) in Hv. by apply Permutation_cons_inv in Hv.
Qed.

Lemma wp_frame_remove db s (r : T) rest Q :
  DbOK db s → row_table T ∈ db → vals (tbl T s) ≡ₚ r :: rest →
  (∀ s', stepped db (row_table T) s s' → vals (tbl T s') ≡ₚ rest → Q () s') →
  wp (RemoveT db r) s Q.
Proof.
  intros Hok Hin Hv HQ. destruct (vals_split _ _ _ (proj1 Hok) Hv) as [_ Hrest].
  apply wp_RemoveT; [done|done|]. intros s' Hok' Ho Hc Ht.
  apply HQ; [split; auto; lia|by rewrite Ht].
Qed.

Lemma wp_frame_insert db s Q :
  DbOK db s → row_table T ∈ db →
  (∀ id s', stepped db (row_table T) s s' → (curID s < id)%Z →
     vals (tbl T s') ≡ₚ row_zero id :: vals (tbl T s) → Q (row_zero id) s') →
  wp (InsertRow (T:=T) db) s Q.
Proof.
  intros Hok Hin HQ. apply wp_InsertRow; [done|done|]. intros s' Hok' Ho Hc Ht.
  apply HQ; [split; auto; lia|lia|].
  rewrite Ht, vals_insert_new; [done|]. by apply tbl_fresh, Hok.
Qed.

Lemma wp_frame_commit db s (r t : T) rest Q :
  DbOK db s → row_table T ∈ db → vals (tbl T s) ≡ₚ r :: rest → rowID t = rowID r →
  (∀ s', stepped db (row_table T) s s' → vals (tbl T s') ≡ₚ t :: rest → Q () s') →
  wp (CommitT db t) s Q.
Proof.
  intros Hok Hin Hv Hid HQ. destruct (vals_split _ _ _ (proj1 Hok) Hv) as [Hr Hrest].
  eapply wp_CommitT; [done|done|by rewrite Hid|]. intros s' Hok' Ho Hc Ht.
  apply HQ; [split; auto; lia|].
  rewrite Ht, Hid, <-insert_delete_eq, vals_insert_new by apply lookup_delete_eq. by rewrite Hrest.
Qed.

(** [for _, r := range rs { view.Remove(r) }] *)
Lemma wp_remove_all db s (rs rest : list T) Q :
  DbOK db s → row_table T ∈ db → vals (tbl T s) ≡ₚ rs ++ rest →
  (∀ s', stepped db (row_table T) s s' → vals (tbl T s') ≡ₚ rest → Q () s') →
  wp (forM_ rs (RemoveT db)) s Q.
Proof.
  intros Hok Hin Hv HQ.
  apply (wp_forM _ (λ ys s', stepped db (row_table T) s s' ∧ vals (tbl T s') ≡ₚ ys ++ rest)).
  - split; [by apply stepped_refl|done].
  - intros r ys s1 [Hst Hv1]. eapply wp_frame_remove; [apply Hst|done|exact Hv1|].
    intros s2 Hst2 Hv2. split; [by eapply stepped_trans|done].
  - intros s' [? ?]. auto.
Qed.

(** Insert a row per element and keep the pairs for a later loop. *)
Definition insertPairs {X} (db : Database) (xs : list X) : M store (list (X * T)) :=
  mapM_st (λ x, let! r := InsertRow db in mret (x, r)) xs.

(** What new rows look like: zero rows with IDs above [lo]. *)
Definition fresh_zero (lo : Z) (r : T) : Prop := ∃ id, r = row_zero id ∧ (lo < id)%Z.

Lemma wp_insert_pairs {X} db s (xs : list X) Q :
  DbOK db s → row_table T ∈ db →
  (∀ ps s', stepped db (row_table T) s s' → ps.*1 = xs → Forall (fresh_zero (curID s)) ps.*2 →
     vals (tbl T s') ≡ₚ ps.*2 ++ vals (tbl T s) → Q ps s') →
  wp (insertPairs db xs) s Q.
Proof.
  unfold insertPairs. revert s Q. induction xs as [|x xs IH]; intros s Q Hok Hin HQ; simpl.
  { wp_ret. apply HQ; [by apply stepped_refl|done|constructor|done]. }
  do 2 wp_bind. apply wp_frame_insert; [done|done|]. intros id s1 Hst1 Hlt Hv1. wp_ret. wp_bind.
  apply IH; [apply Hst1|done|]. intros ps s2 Hst2 Hps Hz Hv2. wp_ret. apply HQ; csimpl.
  - by eapply stepped_trans.
  - by rewrite Hps.
  - constructor; [by exists id|]. eapply Forall_impl; [exact Hz|].
    intros r (i & -> & ?). exists i. pose proof (st_cur _ _ _ _ Hst1). split; [done|lia].
  - rewrite Hv2, Hv1. by rewrite <-Permutation_middle.
Qed.

(** [for _, p := range pairs { view.Commit(f(p)) }] where [f] keeps the ID of [g(p)]. *)
Lemma wp_commit_all {X} db s (f g : X → T) (xs : list X) rest Q :
  DbOK db s → row_table T ∈ db → (∀ x, x ∈ xs → rowID (f x) = rowID (g x)) →
  vals (tbl T s) ≡ₚ (g <$> xs) ++ rest →
  (∀ s', stepped db (row_table T) s s' → vals (tbl T s') ≡ₚ (f <$> xs) ++ rest → Q () s') →
  wp (forM_ xs (λ x, CommitT db (f x))) s Q.
Proof.
  intros Hok Hin Hid Hv HQ.
  apply (wp_forM_prefix _ (λ dn s', ∃ todo, xs = dn ++ todo ∧ stepped db (row_table T) s s' ∧
    vals (tbl T s') ≡ₚ (f <$> dn) ++ (g <$> todo) ++ rest)).
  - exists xs. split_and!; [done|by apply stepped_refl|done].
  - intros dn x todo s1 Hxs (todo' & Hxs' & Hst1 & Hv1).
    rewrite Hxs in Hxs'. apply app_inv_head in Hxs' as <-.
    eapply wp_frame_commit; [apply Hst1|done| |apply Hid; rewrite Hxs; set_solver|].
    + rewrite Hv1. csimpl. symmetry. apply Permutation_middle.
    + intros s2 Hst2 Hv2. exists todo. split_and!; [by rewrite <-app_assoc|by eapply stepped_trans|].
      rewrite Hv2, fmap_app, <-app_assoc. csimpl. apply Permutation_middle.
  - intros s' (todo & Hxs & Hst & Hv'). assert (todo = []) as ->.
    { apply (f_equal length) in Hxs. rewrite length_app in Hxs. destruct todo; [done|simpl in *; lia]. }
    by apply HQ.
Qed.

(** [for _, x := range xs { r := view.Insert(); view.Commit(f(x, r)) }] *)
Lemma wp_add_all {X} db s (f : X → T → T) (xs : list X) Q :
  DbOK db s → row_table T ∈ db → (∀ x r, rowID (f x r) = rowID r) →
  (∀ rs s', stepped db (row_table T) s s' → Forall (fresh_zero (curID s)) rs → length rs = length xs →
     vals (tbl T s') ≡ₚ zip_with f xs rs ++ vals (tbl T s) → Q () s') →
  wp (forM_ xs (λ x, let! r := InsertRow db in CommitT db (f x r))) s Q.
Proof.
  intros Hok Hin Hid. revert s Q Hok. induction xs as [|x xs IH]; intros s Q Hok HQ; simpl.
  { wp_ret. by apply (HQ []); [by apply stepped_refl|..]. }
  do 2 wp_bind. apply wp_frame_insert; [done|done|]. intros id s1 Hst1 Hlt Hv1.
  eapply wp_frame_commit; [apply Hst1|done|exact Hv1|apply Hid|]. intros s2 Hst2 Hv2.
  apply IH; [apply Hst2|]. intros rs s3 Hst3 Hz Hlen Hv3. apply (HQ (row_zero id :: rs)); csimpl.
  - by do 2 (eapply stepped_trans; [done|]).
  - constructor; [by exists id|]. eapply Forall_impl; [exact Hz|].
    intros r (i & -> & ?). exists i.
    pose proof (st_cur _ _ _ _ Hst1). pose proof (st_cur _ _ _ _ Hst2). split; [done|lia].
  - by rewrite Hlen.
  - rewrite Hv3, Hv2. by rewrite <-Permutation_middle.
Qed.

(** A loop that commits and collects. *)
Lemma wp_collect {Σ X Y} (m : X → M Σ unit) (h : X → Y) (xs : list X) (σ : Σ) Q :
  wp (forM_ xs m) σ (λ _ σ', Q (h <$> xs) σ') →
  wp (mapM_st (λ x, m x ;;; mret (h x)) xs) σ Q.
Proof.
  revert σ Q. induction xs as [|x xs IH]; intros σ Q Hm; simpl in *; [done|].
  do 2 wp_bind. unfold wp, mbind, M_bind in Hm |- *.
  destruct (m x σ) as [[[] σ1]|]; [|done]. simpl.
  apply (IH σ1 (λ ys σ', Q (h x :: ys) σ')) in Hm.
  unfold wp, mbind, M_bind in Hm. by destruct (mapM_st _ xs σ1) as [[ys σ2]|].
Qed.

(** [for _, x := range xs { r := view.Insert(); view.Commit(f(x, r)); ... }],
    collecting [h(x, r)]. *)
Lemma wp_add_map {X Y} db s (f : X → T → T) (h : X → T → Y) (xs : list X) Q :
  DbOK db s → row_table T ∈ db → (∀ x r, rowID (f x r) = rowID r) →
  (∀ rs s', stepped db (row_table T) s s' → Forall (fresh_zero (curID s)) rs → length rs = length xs →
     vals (tbl T s') ≡ₚ zip_with f xs rs ++ vals (tbl T s) → Q (zip_with h xs rs) s') →
  wp (mapM_st (λ x, let! r := InsertRow db in CommitT db (f x r) ;;; mret (h x r)) xs) s Q.
Proof.
  intros Hok Hin Hid. revert s Q Hok. induction xs as [|x xs IH]; intros s Q Hok HQ; simpl.
  { wp_ret. by apply (HQ []); [by apply stepped_refl|..]. }
  do 2 wp_bind. apply wp_frame_insert; [done|done|]. intros id s1 Hst1 Hlt Hv1. wp_bind.
  eapply wp_frame_commit; [apply Hst1|done|exact Hv1|apply Hid|]. intros s2 Hst2 Hv2.
  wp_ret. wp_bind.
  apply IH; [apply Hst2|]. intros rs s3 Hst3 Hz Hlen Hv3. wp_ret.
  apply (HQ (row_zero id :: rs)); csimpl.
  - by do 2 (eapply stepped_trans; [done|]).
  - constructor; [by exists id|]. eapply Forall_impl; [exact Hz|].
    intros r (i & -> & ?). exists i.
    pose proof (st_cur _ _ _ _ Hst1). pose proof (st_cur _ _ _ _ Hst2). split; [done|lia].
  - by rewrite Hlen.
  - rewrite Hv3, Hv2. by rewrite <-Permutation_middle.
Qed.
End frame.
#[export] Hint Resolve stepped_refl same_stepped same_ok : kelda.
Arguments insertPairs {_ _ _} _ _.

(** ** Reconciling a table with a desired state

    [desired] is joined with the rows [old] by key; [upd d r] is what becomes
    of a row matched with [d], [mk d r] what is written over a freshly inserted
    row [r] for an unmatched [d], and [new] the rows afterwards. *)
Section reconcile.
Context {L T K : Type} `{RowType T} `{Countable K}.
Context (lKey : L → K) (rKey : T → K) (upd mk : L → T → T).

Record reconciled (lo : Z) (desired : list L) (old new : list T) : Prop := {
  rc_nodup : NoDup (rKey <$> new);
  rc_keys : ∀ k, k ∈ rKey <$> new ↔ k ∈ lKey <$> desired;
  (** where each row comes from *)
  rc_rows : ∀ r, r ∈ new → ∃ d, d ∈ desired ∧ lKey d = rKey r ∧
    ((∃ o, o ∈ old ∧ rKey o = rKey r ∧ r = upd d o) ∨
     (rKey r ∉ rKey <$> old ∧ ∃ z, fresh_zero lo z ∧ r = mk d z));
  (** rows that are wanted are kept *)
  rc_kept : ∀ o, o ∈ old → rKey o ∈ lKey <$> desired →
    (∀ o', o' ∈ old → rKey o' = rKey o → o' = o) →
    ∃ d, d ∈ desired ∧ lKey d = rKey o ∧ upd d o ∈ new;
}.

Lemma reconciled_perm lo d1 d2 o1 o2 n1 n2 :
  (∀ x, x ∈ d1 ↔ x ∈ d2) → o1 ≡ₚ o2 → n1 ≡ₚ n2 →
  reconciled lo d1 o1 n1 → reconciled lo d2 o2 n2.
Proof.
  intros Hd Ho Hn [H1 H2 H3 H4].
  assert (∀ k, k ∈ lKey <$> d1 ↔ k ∈ lKey <$> d2) as Hk by (intros; rewrite !list_elem_of_fmap; naive_solver).
  split.
  - by rewrite <-Hn.
  - intros k. by rewrite <-Hn, H2.
  - intros r. rewrite <-Hn. intros (d & Hin & Hkey & Hr)%H3.
    exists d. rewrite <-Hd. setoid_rewrite <-Ho. auto.
  - intros o. rewrite <-Ho, <-Hk. intros Hin Hkey Huniq.
    destruct (H4 o Hin Hkey) as (d & ? & ? & ?); [intros o'; rewrite Ho; auto|].
    exists d. rewrite <-Hd, <-Hn. auto.
Qed.

Lemma reconciled_lo lo lo' desired old new :
  (lo ≤ lo')%Z → reconciled lo' desired old new → reconciled lo desired old new.
Proof.
  intros Hle [H1 H2 H3 H4]. split; [done..| |done].
  intros r (d & Hd & Hk & [?|(? & z & (i & -> & ?) & ?)])%H3; exists d; split_and!; auto.
  right. split; [done|]. exists (row_zero i). split; [|done]. exists i. split; [done|lia].
Qed.

Lemma elem_of_zip_with {A B C} (f : A → B → C) xs ys z :
  z ∈ zip_with f xs ys → ∃ x y, x ∈ xs ∧ y ∈ ys ∧ z = f x y.
Proof.
  intros [i Hi]%list_elem_of_lookup. apply lookup_zip_with_Some in Hi as (x & y & -> & Hx & Hy).
  exists x, y. split_and!; eauto using list_elem_of_lookup_2.
Qed.

Lemma fmap_zip_with_l {A B C D} (f : A → B → C) (g : C → D) (h : A → D) xs ys :
  length xs ≤ length ys → (∀ x y, x ∈ xs → y ∈ ys → g (f x y) = h x) →
  g <$> zip_with f xs ys = h <$> xs.
Proof.
  revert ys. induction xs as [|x xs IH]; intros [|y ys] Hlen Hg; csimpl in *; try done; [lia|].
  f_equal; [apply Hg; set_solver|]. apply IH; [lia|]. intros; apply Hg; set_solver.
Qed.

(** The results of [HashJoin], acted upon, reconcile the table. *)
Lemma hash_joined_reconciled lo desired old pairs ll lr zs new :
  hash_joined desired old lKey rKey pairs ll lr →
  (∀ d o, d ∈ desired → lKey d = rKey o → rKey (upd d o) = lKey d) →
  (∀ d z, d ∈ desired → fresh_zero lo z → rKey (mk d z) = lKey d) →
  length zs = length ll → Forall (fresh_zero lo) zs →
  new ≡ₚ (uncurry upd <$> pairs) ++ zip_with mk ll zs →
  reconciled lo desired old new.
Proof.
  intros [Hl Hlk Hnd Hr Hp Hll Hlr] Hupd Hmk Hlen Hz Hnew.
  assert (∀ d, d ∈ pairs.*1 ++ ll → d ∈ desired) as Hin by (intros d Hd; by eapply elem_of_submseteq).
  assert (∀ d o, (d, o) ∈ pairs → d ∈ desired ∧ o ∈ old) as Hpin.
  { intros d o Hdo. split; [apply Hin, elem_of_app; left|rewrite <-Hr; apply elem_of_app; left];
      apply list_elem_of_fmap; by exists (d, o). }
  rewrite Forall_forall in Hz.
  assert (rKey <$> new ≡ₚ lKey <$> pairs.*1 ++ ll) as Hkeys.
  { rewrite Hnew, !fmap_app. apply Permutation_app.
    - rewrite <-!list_fmap_compose. apply Permutation_refl', list_fmap_ext.
      intros i [d o] Hdo%list_elem_of_lookup_2. simpl. apply Hupd; [by eapply Hpin|by apply Hp].
    - apply Permutation_refl'. apply fmap_zip_with_l; [lia|].
      intros d z Hd Hzz. apply Hmk; [apply Hin; set_solver|auto]. }
  split.
  - by rewrite Hkeys.
  - intros k. rewrite Hkeys. split.
    + intros (d & -> & Hd)%list_elem_of_fmap. by apply list_elem_of_fmap_2, Hin.
    + intros (d & -> & Hd)%list_elem_of_fmap. destruct (Hlk d Hd) as (d' & Hd' & <-).
      by apply list_elem_of_fmap_2.
  - intros r. rewrite Hnew. intros [([d o] & -> & Hdo)%list_elem_of_fmap|
      (d & z & Hd & Hzz & ->)%elem_of_zip_with]%elem_of_app; exists d; simpl.
    + destruct (Hpin d o Hdo). pose proof (Hp _ _ Hdo). rewrite Hupd by done.
      split_and!; [done|done|]. left. eauto.
    + rewrite Hmk by (first [apply Hin; set_solver|auto]). split_and!; [apply Hin; set_solver|done|].
      right. split; [|eauto]. intros (o & Heq & Ho)%list_elem_of_fmap. by apply (Hll d o).
  - intros o Ho Hk Huniq.
    assert (∃ d, (d, o) ∈ pairs) as [d Hdo].
    { rewrite <-Hr in Ho. apply elem_of_app in Ho as [([d o'] & -> & ?)%list_elem_of_fmap|Ho];
        [simpl; eauto|].
      destruct (Hlr o Ho Hk) as (d & o' & Hd & Heq). exists d.
      rewrite <-(Huniq o'); [done|by eapply Hpin|done]. }
    exists d. split_and!; [by eapply Hpin|by apply Hp|]. rewrite Hnew. apply elem_of_app. left.
    apply list_elem_of_fmap. by exists (d, o).
Qed.

(** Reconciling twice is reconciling once. *)
Lemma reconciled_idem lo lo' desired old new new' :
  reconciled lo desired old new → reconciled lo' desired new new' →
  (∀ d o, d ∈ desired → o ∈ new → lKey d = rKey o → upd d o = o) → new' ≡ₚ new.
Proof.
  intros [Hn Hk _ _] [Hn' Hk' Hr' _] Hupd.
  assert (∀ r, r ∈ new' → r ∈ new) as Hsub.
  { intros r Hr. destruct (Hr' r Hr) as (d & Hd & Hkd & [(o & Ho & Hko & ->)|[Hni _]]).
    - rewrite Hupd; [done|done|done|congruence].
    - destruct Hni. rewrite Hk, <-Hkd. by apply list_elem_of_fmap_2. }
  apply NoDup_Permutation; [by eapply NoDup_fmap_1..|]. intros r. split; [auto|]. intros Hr.
  assert (rKey r ∈ rKey <$> new') as (r' & Heq & Hin)%list_elem_of_fmap.
  { rewrite Hk', <-Hk. by apply list_elem_of_fmap_2. }
  replace r with r'; [done|]. eapply (NoDup_fmap_elem rKey new); eauto.
Qed.
End reconcile.

(** A step on one table leaves the others. *)
Lemma stepped_tbl {T} `{RowType T} db tn s s' :
  stepped db tn s s' → row_table T ≠ tn → tbl T s' = tbl T s.
Proof. intros [_ Ho _]. by apply only_tbl. Qed.

(** The rows determine the table. *)
Lemma tbl_vals_eq {T} `{RowType T} s s' :
  wf s → wf s' → vals (tbl T s) ≡ₚ vals (tbl T s') → tbl T s = tbl T s'.
Proof.
  intros Hs Hs' Hv. apply map_eq. intros id. apply option_eq. intros t.
  assert (∀ s0, wf s0 → tbl T s0 !! id = Some t ↔ t ∈ vals (tbl T s0) ∧ rowID t = id) as Hx.
  { intros s0 H0. split.
    - intros Ht. destruct (tbl_lookup _ _ _ H0 Ht) as [Hid _]. split; [|done]. apply elem_of_vals. eauto.
    - intros [Ht <-]. by apply elem_of_tbl. }
  rewrite !Hx by done. by rewrite Hv.
Qed.

(** ** The three shapes of reconciliation loops

    [s0] is the state in which the rows [old] were selected. *)
Section loops.
Context `{MapOrder} {L T K : Type} `{RowType T} `{Countable K}.
Context (lKey : L → K) (rKey : T → K).
Implicit Types (db : Database) (s : store).

Lemma wp_nextOrder s (Q : nat → store → Prop) :
  (∀ n s', same s s' → Q n s') → wp nextOrder s Q.
Proof. intros HQ. by apply HQ. Qed.

(** Rows kept as they are: remove the unwanted, then add the missing. *)
Lemma wp_remove_add db s desired old pairs ll lr (mk : L → T → T) Q :
  DbOK db s → row_table T ∈ db → old ≡ₚ vals (tbl T s) →
  hash_joined desired old lKey rKey pairs ll lr →
  (∀ d r, rowID (mk d r) = rowID r) → (∀ d r, rKey (mk d r) = lKey d) →
  (∀ s', stepped db (row_table T) s s' →
     reconciled lKey rKey (λ _ o, o) mk (curID s) desired (vals (tbl T s)) (vals (tbl T s')) → Q () s') →
  wp (forM_ lr (RemoveT db) ;;;
      forM_ ll (λ d, let! r := InsertRow db in CommitT db (mk d r))) s Q.
Proof.
  intros Hok Hin Hold Hj Hid Hkey HQ. wp_bind.
  eapply (wp_remove_all _ _ _ pairs.*2); [done|done| |].
  { rewrite <-Hold, <-(hj_rights _ _ _ _ _ _ _ Hj). apply Permutation_app_comm. }
  intros s1 Hs1 Hv1. apply wp_add_all; [apply Hs1|done|done|].
  intros rs s2 Hs2 Hz Hlen Hv2. apply HQ; [by eapply stepped_trans|].
  eapply reconciled_perm; [done|exact Hold|reflexivity|].
  eapply hash_joined_reconciled; [exact Hj|by auto|by auto|exact Hlen| |].
  - eapply Forall_impl; [exact Hz|]. intros z (i & -> & ?). exists i. split; [done|].
    pose proof (st_cur _ _ _ _ Hs1). lia.
  - rewrite Hv2, Hv1. rewrite Permutation_app_comm. apply Permutation_app; [|done].
    apply Permutation_refl', list_fmap_ext. by intros ? [??].
Qed.

(** As above, adding before removing. *)
Lemma wp_add_remove db s desired old pairs ll lr (mk : L → T → T) Q :
  DbOK db s → row_table T ∈ db → old ≡ₚ vals (tbl T s) →
  hash_joined desired old lKey rKey pairs ll lr →
  (∀ d r, rowID (mk d r) = rowID r) → (∀ d r, rKey (mk d r) = lKey d) →
  (∀ s', stepped db (row_table T) s s' →
     reconciled lKey rKey (λ _ o, o) mk (curID s) desired (vals (tbl T s)) (vals (tbl T s')) → Q () s') →
  wp (forM_ ll (λ d, let! r := InsertRow db in CommitT db (mk d r)) ;;;
      forM_ lr (RemoveT db)) s Q.
Proof.
  intros Hok Hin Hold Hj Hid Hkey HQ. wp_bind. apply wp_add_all; [done|done|done|].
  intros rs s1 Hs1 Hz Hlen Hv1.
  eapply (wp_remove_all _ _ _ (pairs.*2 ++ zip_with mk ll rs)); [apply Hs1|done| |].
  { rewrite Hv1, <-Hold, <-(hj_rights _ _ _ _ _ _ _ Hj), (Permutation_app_comm (zip_with _ _ _)).
    by rewrite (Permutation_app_comm pairs.*2 lr), <-app_assoc. }
  intros s2 Hs2 Hv2. apply HQ; [by eapply stepped_trans|].
  eapply reconciled_perm; [done|exact Hold|reflexivity|].
  eapply hash_joined_reconciled; [exact Hj|by auto|by auto|exact Hlen|exact Hz|].
  rewrite Hv2. apply Permutation_app; [|done].
  apply Permutation_refl', list_fmap_ext. by intros ? [??].
Qed.

(** Rows updated in place: remove, insert, then write every pair. *)
Lemma wp_remove_merge db s desired old pairs ll lr (merge : L * T → T) Q :
  DbOK db s → row_table T ∈ db → old ≡ₚ vals (tbl T s) →
  hash_joined desired old lKey rKey pairs ll lr →
  (∀ p, rowID (merge p) = rowID p.2) → (∀ p, rKey (merge p) = lKey p.1) →
  (∀ s', stepped db (row_table T) s s' →
     reconciled lKey rKey (λ d o, merge (d, o)) (λ d o, merge (d, o)) (curID s) desired
       (vals (tbl T s)) (vals (tbl T s')) → Q () s') →
  wp (forM_ lr (RemoveT db) ;;;
      let! added := insertPairs db ll in
      forM_ (pairs ++ added) (λ p, CommitT db (merge p))) s Q.
Proof.
  intros Hok Hin Hold Hj Hid Hkey HQ. wp_bind.
  eapply (wp_remove_all _ _ _ pairs.*2); [done|done| |].
  { rewrite <-Hold, <-(hj_rights _ _ _ _ _ _ _ Hj). apply Permutation_app_comm. }
  intros s1 Hs1 Hv1. wp_bind. apply wp_insert_pairs; [apply Hs1|done|].
  intros ps s2 Hs2 Hps Hz Hv2.
  apply (wp_commit_all _ _ merge snd _ []); [apply Hs2|done|by auto| |].
  { rewrite app_nil_r, fmap_app, Hv2, Hv1. apply Permutation_app_comm. }
  intros s3 Hs3 Hv3. apply HQ; [by do 2 (eapply stepped_trans; [done|])|].
  eapply reconciled_perm; [done|exact Hold|reflexivity|].
  eapply (hash_joined_reconciled _ _ _ _ _ _ _ _ _ _ ps.*2); [exact Hj|by auto|by auto| | |].
  - by rewrite <-Hps, !length_fmap.
  - eapply Forall_impl; [exact Hz|]. intros z (i & -> & ?). exists i. split; [done|].
    pose proof (st_cur _ _ _ _ Hs1). lia.
  - rewrite Hv3, app_nil_r, fmap_app. apply Permutation_app.
    + apply Permutation_refl', list_fmap_ext. by intros ? [??].
    + subst ll. apply Permutation_refl'. clear. induction ps as [|[d o] ps IH]; csimpl; by f_equal.
Qed.
End loops.
