(* ===== verification/Engine.v ===== *)
(** * Package minion, part 1: the policy engine

    Models [src/minion/engine.go], which keeps the image, container, load
    balancer, connection and placement tables of the leader in line with the
    blueprint.  One definition per Go function; the loops over [HashJoin]'s
    results are the source's, in the source's order. *)

From S2P Require Import Prelude GoStrings Join Blueprint DbRows Db DbSpec DbTxn DbFrame.

Section engine.
Context `{MapOrder}.

(** ** Placements *)

Definition portTargets (connections : list Connection) : gmap Z (list string) :=
  foldl (λ ports conn,
    if negb (SliceContains (cn_From conn) PublicInternetLabel) then ports
    else <[cn_MinPort conn :=
             default [] (ports !! cn_MinPort conn) ++
             SliceFilterOut (cn_To conn) PublicInternetLabel]> ports)
    ∅ connections.

Definition exclusivePlacement (tgt other : string) : Placement :=
  mk_Placement 0 tgt true other "" "" "" "".

(** The two inner loops, over the containers listening on one port. *)
Definition pairPlacements (cids : list string) : list Placement :=
  concat (imap (λ i tgt,
    concat (imap (λ j other,
      if bool_decide (i = j) then [] else [exclusivePlacement tgt other]) cids)) cids).

Definition portPlacements (n : nat) (connections : list Connection) : list Placement :=
  concat ((λ kv, pairPlacements kv.2) <$> range n (portTargets connections)).

Definition blueprintPlacement (sp : bpPlacement) : Placement :=
  mk_Placement 0 (bpp_TargetContainer sp) (bpp_Exclusive sp) "" (bpp_Provider sp)
    (bpp_Size sp) (bpp_Region sp) (bpp_FloatingIP sp).

(** The join key: the placement without its ID. *)
Definition placementKey (p : Placement) : Placement := set_p_ID 0 p.

Definition updatePlacements (view : Database) (bp : bpBlueprint) : M store unit :=
  let! connections := SelectFrom view None in
  let! n := nextOrder in
  let placements := portPlacements n connections ++ (blueprintPlacement <$> bp_Placements bp) in
  let! dbPlacements := SelectFrom view None in
  let! n' := nextOrder in
  let '(_, addSet, removeSet) :=
    HashJoin n' placements dbPlacements placementKey placementKey in
  forM_ addSet (λ toAdd,
    let! r := InsertRow view in CommitT view (set_p_ID (p_ID r) toAdd)) ;;;
  forM_ removeSet (RemoveT view).

(** ** Load balancers *)

Definition desiredLoadBalancer (lb : bpLoadBalancer) : LoadBalancer :=
  mk_LoadBalancer 0 (bpl_Name lb) "" (bpl_Hostnames lb).

(** The database row keeps its ID and IP. *)
Definition mergeLoadBalancer (pair : LoadBalancer * LoadBalancer) : LoadBalancer :=
  mk_LoadBalancer (lb_ID pair.2) (lb_Name pair.1) (lb_IP pair.2) (lb_Hostnames pair.1).

Definition updateLoadBalancers (view : Database) (bp : bpBlueprint) : M store unit :=
  let bpLoadBalancers := desiredLoadBalancer <$> bp_LoadBalancers bp in
  let! dbLoadBalancers := SelectFrom view None in
  let! n := nextOrder in
  let '(pairs, toAdd, toRemove) := HashJoin n bpLoadBalancers dbLoadBalancers lb_Name lb_Name in
  forM_ toRemove (RemoveT view) ;;;
  let! added := insertPairs view toAdd in
  forM_ (pairs ++ added) (λ pair, CommitT view (mergeLoadBalancer pair)).

(** ** Connections *)

(** The connections a load balancer implies. *)
Definition loadBalancerTable (bp : bpBlueprint) : gmap string bpLoadBalancer :=
  foldl (λ m lb, <[bpl_Name lb := lb]> m) ∅ (bp_LoadBalancers bp).

Definition extraConnections (loadBalancers : gmap string bpLoadBalancer) (c : bpConnection)
    : list bpConnection :=
  omap (λ to, match loadBalancers !! to with
              | Some lb => Some (mk_bpConnection (bpcn_From c) (bpl_Hostnames lb)
                                   (bpcn_MinPort c) (bpcn_MaxPort c))
              | None => None
              end) (bpcn_To c).

Definition allConnections (bp : bpBlueprint) : list bpConnection :=
  bp_Connections bp ++
  concat (extraConnections (loadBalancerTable bp) <$> bp_Connections bp).

(** [fmt.Sprintf("%s %s %d %d", c.From, c.To, c.MinPort, c.MaxPort)] *)
Definition connectionKey (From To : list string) (MinPort MaxPort : Z) : string :=
  fmtSlice From +:+ " " +:+ fmtSlice To +:+ " " +:+ fmtInt MinPort +:+ " " +:+ fmtInt MaxPort.
Definition dbcKey (c : Connection) : string :=
  connectionKey (cn_From c) (cn_To c) (cn_MinPort c) (cn_MaxPort c).
Definition bpKey (c : bpConnection) : string :=
  connectionKey (bpcn_From c) (bpcn_To c) (bpcn_MinPort c) (bpcn_MaxPort c).

Definition connectionRow (bpc : bpConnection) (dbc : Connection) : Connection :=
  mk_Connection (cn_ID dbc) (bpcn_From bpc) (bpcn_To bpc) (bpcn_MinPort bpc) (bpcn_MaxPort bpc).

Definition updateConnections (view : Database) (bp : bpBlueprint) : M store unit :=
  let scs := allConnections bp in
  let! vcs := SelectFrom view None in
  let! n := nextOrder in
  let '(_, bpcs, dbcs) := HashJoin n scs vcs bpKey dbcKey in
  forM_ dbcs (RemoveT view) ;;;
  forM_ bpcs (λ bpc, let! dbc := InsertRow view in CommitT view (connectionRow bpc dbc)).

(** ** Containers *)

Definition desiredContainer (c : bpContainer) : Container :=
  mk_Container 0 "" "" (bpc_ID c) "" "" (bpc_Command c) (bpc_Env c) (bpc_FilepathToContent c)
    (bpc_Hostname c) 0 (bpc_Privileged c) (bpc_VolumeMounts c)
    (bpi_Name (bpc_Image c)) (bpi_Dockerfile (bpc_Image c)).

Definition containersByHostname (bp : bpBlueprint) : gmap string Container :=
  foldl (λ m c, <[bpc_Hostname c := desiredContainer c]> m) ∅ (bp_Containers bp).

Definition queryContainers (n : nat) (bp : bpBlueprint) : list Container :=
  (range n (containersByHostname bp)).*2.

(** The blueprint's fields replace the row's; what the row knows about the
    running container (IP, Minion, PodName, Status, Created) stays. *)
Definition mergeContainer (pair : Container * Container) : Container :=
  let '(newc, dbc) := pair in
  mk_Container (c_ID dbc) (c_IP dbc) (c_Minion dbc) (c_BlueprintID newc) (c_PodName dbc)
    (c_Status dbc) (c_Command newc) (c_Env newc) (c_FilepathToContent newc) (c_Hostname newc)
    (c_Created dbc) (c_Privileged newc) (c_VolumeMounts newc) (c_Image newc) (c_Dockerfile newc).

Definition updateContainers (view : Database) (bp : bpBlueprint) : M store unit :=
  let! n := nextOrder in
  let! dbContainers := SelectFrom view None in
  let! n' := nextOrder in
  let '(pairs, news, dbcs) :=
    HashJoin n' (queryContainers n bp) dbContainers c_BlueprintID c_BlueprintID in
  forM_ dbcs (RemoveT view) ;;;
  let! added := insertPairs view news in
  forM_ (pairs ++ added) (λ pair, CommitT view (mergeContainer pair)).

(** ** Images *)

Definition queryImages (bp : bpBlueprint) : list bpImage :=
  (foldl (λ '(images, addedImages) c,
    if bool_decide (bpi_Dockerfile (bpc_Image c) = "") || bool_decide (bpc_Image c ∈ addedImages)
    then (images, addedImages)
    else (images ++ [bpc_Image c], {[bpc_Image c]} ∪ addedImages))
    ([], (∅ : gset bpImage)) (bp_Containers bp)).1.

Definition dbImageKey (i : Image) : bpImage := mk_bpImage (im_Name i) (im_Dockerfile i).

Definition imageRow (i : bpImage) (im : Image) : Image :=
  mk_Image (im_ID im) (bpi_Name i) (bpi_Dockerfile i) (im_RepoDigest im) (im_Status im).

Definition updateImages (view : Database) (bp : bpBlueprint) : M store unit :=
  let blueprintImages := queryImages bp in
  let! dbImages := SelectFrom view None in
  let! n := nextOrder in
  let '(_, toAdd, toRemove) := HashJoin n blueprintImages dbImages (λ i, i) dbImageKey in
  forM_ toAdd (λ i, let! im := InsertRow view in CommitT view (imageRow i im)) ;;;
  forM_ toRemove (RemoveT view).

(** ** The whole engine *)

Definition updatePolicyTables : list string :=
  [BlueprintTable; ConnectionTable; ContainerTable; EtcdTable; PlacementTable; ImageTable;
   LoadBalancerTable].

Definition updatePolicy (view : Database) : M store unit :=
  let! leader := EtcdLeader view in
  if negb leader then mret ()
  else
    let! bpRow := GetBlueprint view in
    match bpRow with
    | Err _ => mret ()
    | Val b =>
      let bp := b_Blueprint b in
      updateImages view bp ;;;
      updateContainers view bp ;;;
      updateLoadBalancers view bp ;;;
      updateConnections view bp ;;;
      updatePlacements view bp
    end.

(** One round of [syncPolicy]. *)
Definition syncPolicyOnce : M store unit := Run updatePolicyTables updatePolicy.
End engine.

(** ** What each update does to its table *)

(** Select all rows of a table and draw a map order: nothing changes. *)
Ltac wp_select s' Hs l Hl :=
  wp_bind; apply wp_select_all; [eauto with kelda|done|]; intros l s' Hs Hl.
Ltac wp_order s' Hs n := wp_bind; apply wp_nextOrder; intros n s' Hs.

Section engine_spec.
Context `{MapOrder}.
Implicit Types (view : Database) (s : store) (bp : bpBlueprint).

(** A reconciliation that starts after reads starts from the same rows. *)
Lemma reconciled_same {L T K} `{RowType T} `{Countable K} (lKey : L → K) (rKey : T → K) upd mk
    s s1 desired new :
  same s s1 →
  reconciled lKey rKey upd mk (curID s1) desired (vals (tbl T s1)) new →
  reconciled lKey rKey upd mk (curID s) desired (vals (tbl T s)) new.
Proof. intros Hs. by rewrite (same_tbl _ _ Hs), (proj2 Hs). Qed.

Lemma wp_updateImages view s bp Q :
  DbOK view s → ImageTable ∈ view →
  (∀ s', stepped view ImageTable s s' →
     reconciled (λ i, i) dbImageKey (λ _ o, o) imageRow (curID s) (queryImages bp)
       (vals (tbl Image s)) (vals (tbl Image s')) → Q () s') →
  wp (updateImages view bp) s Q.
Proof.
  intros Hok Hin HQ. unfold updateImages. wp_select s1 Hs1 l Hl. wp_order s2 Hs2 n.
  destruct (HashJoin _ _ _ _ _) as [[pairs ll] lr] eqn:Hj. apply HashJoin_ok in Hj.
  pose proof (same_trans _ _ _ Hs1 Hs2) as Hs.
  eapply (wp_add_remove (λ i, i) dbImageKey); [by eapply same_ok|done| |exact Hj|done|by intros []|].
  { by rewrite (same_tbl _ _ Hs). }
  intros s3 Hst Hr. apply HQ; [by eapply same_stepped_l|].
  by eapply reconciled_same.
Qed.

Lemma wp_updateConnections view s bp Q :
  DbOK view s → ConnectionTable ∈ view →
  (∀ s', stepped view ConnectionTable s s' →
     reconciled bpKey dbcKey (λ _ o, o) connectionRow (curID s) (allConnections bp)
       (vals (tbl Connection s)) (vals (tbl Connection s')) → Q () s') →
  wp (updateConnections view bp) s Q.
Proof.
  intros Hok Hin HQ. unfold updateConnections. wp_select s1 Hs1 l Hl. wp_order s2 Hs2 n.
  destruct (HashJoin _ _ _ _ _) as [[pairs ll] lr] eqn:Hj. apply HashJoin_ok in Hj.
  pose proof (same_trans _ _ _ Hs1 Hs2) as Hs.
  eapply (wp_remove_add bpKey dbcKey); [by eapply same_ok|done| |exact Hj|done|by intros []|].
  { by rewrite (same_tbl _ _ Hs). }
  intros s3 Hst Hr. apply HQ; [by eapply same_stepped_l|].
  by eapply reconciled_same.
Qed.

Lemma wp_updateLoadBalancers view s bp Q :
  DbOK view s → LoadBalancerTable ∈ view →
  (∀ s', stepped view LoadBalancerTable s s' →
     reconciled lb_Name lb_Name (λ d o, mergeLoadBalancer (d, o)) (λ d o, mergeLoadBalancer (d, o))
       (curID s) (desiredLoadBalancer <$> bp_LoadBalancers bp)
       (vals (tbl LoadBalancer s)) (vals (tbl LoadBalancer s')) → Q () s') →
  wp (updateLoadBalancers view bp) s Q.
Proof.
  intros Hok Hin HQ. unfold updateLoadBalancers. wp_select s1 Hs1 l Hl. wp_order s2 Hs2 n.
  destruct (HashJoin _ _ _ _ _) as [[pairs ll] lr] eqn:Hj. apply HashJoin_ok in Hj.
  pose proof (same_trans _ _ _ Hs1 Hs2) as Hs.
  eapply (wp_remove_merge lb_Name lb_Name); [by eapply same_ok|done| |exact Hj|done|done|].
  { by rewrite (same_tbl _ _ Hs). }
  intros s3 Hst Hr. apply HQ; [by eapply same_stepped_l|].
  by eapply reconciled_same.
Qed.

(** The containers the blueprint asks for. *)
Definition desiredContainers bp : list Container := vals (containersByHostname bp).

Lemma wp_updateContainers view s bp Q :
  DbOK view s → ContainerTable ∈ view →
  (∀ s', stepped view ContainerTable s s' →
     reconciled c_BlueprintID c_BlueprintID (λ d o, mergeContainer (d, o))
       (λ d o, mergeContainer (d, o)) (curID s) (desiredContainers bp)
       (vals (tbl Container s)) (vals (tbl Container s')) → Q () s') →
  wp (updateContainers view bp) s Q.
Proof.
  intros Hok Hin HQ. unfold updateContainers. wp_order s0 Hs0 m. wp_select s1 Hs1 l Hl. wp_order s2 Hs2 n.
  destruct (HashJoin _ _ _ _ _) as [[pairs ll] lr] eqn:Hj. apply HashJoin_ok in Hj.
  pose proof (same_trans _ _ _ Hs0 (same_trans _ _ _ Hs1 Hs2)) as Hs.
  eapply (wp_remove_merge c_BlueprintID c_BlueprintID);
    [by eapply same_ok|done| |exact Hj|by intros []|by intros []|].
  { by rewrite Hl, (same_tbl _ _ (same_trans _ _ _ Hs1 Hs2)). }
  intros s3 Hst Hr. apply HQ; [by eapply same_stepped_l|].
  apply (reconciled_same _ _ _ _ _ _ _ _ Hs).
  eapply reconciled_perm; [|reflexivity|reflexivity|exact Hr].
  intros x. unfold queryContainers, desiredContainers, vals. by rewrite range_perm.
Qed.

(** *** Port placements *)

(** The targets of the public connections on one port. *)
Definition publicTargets (port : Z) (conns : list Connection) : list string :=
  concat ((λ c, SliceFilterOut (cn_To c) PublicInternetLabel) <$>
    filter (λ c, PublicInternetLabel ∈ cn_From c ∧ cn_MinPort c = port) conns).

Lemma publicTargets_snoc port conns c :
  publicTargets port (conns ++ [c]) = publicTargets port conns ++
    (if decide (PublicInternetLabel ∈ cn_From c ∧ cn_MinPort c = port)
     then SliceFilterOut (cn_To c) PublicInternetLabel else []).
Proof.
  unfold publicTargets. rewrite filter_app, fmap_app, concat_app. f_equal.
  rewrite filter_cons, filter_nil. case_decide; csimpl; by rewrite ?app_nil_r.
Qed.

Lemma portTargets_lookup conns port :
  default [] (portTargets conns !! port) = publicTargets port conns.
Proof.
  induction conns as [|c conns IH] using rev_ind; [done|].
  unfold portTargets in *. rewrite foldl_app, publicTargets_snoc. cbn [foldl].
  destruct (SliceContains (cn_From c) PublicInternetLabel) eqn:Hc; simpl.
  - apply elem_of_SliceContains in Hc. destruct (decide (cn_MinPort c = port)) as [<-|Hne].
    + rewrite lookup_insert_eq, decide_True by done. simpl. by rewrite IH.
    + rewrite lookup_insert_ne, decide_False, app_nil_r by tauto. done.
  - rewrite decide_False, app_nil_r; [done|]. intros [Hin _].
    apply elem_of_SliceContains in Hin. congruence.
Qed.

Lemma publicTargets_perm port c1 c2 : c1 ≡ₚ c2 → publicTargets port c1 ≡ₚ publicTargets port c2.
Proof.
  intros Hp. unfold publicTargets. apply concat_perm. by rewrite (filter_perm _ _ _ Hp).
Qed.

(** Membership in the pairs of one port: two different positions. *)
Lemma elem_of_pairPlacements cids p :
  p ∈ pairPlacements cids ↔ ∃ i j tgt other, i ≠ j ∧ cids !! i = Some tgt ∧
    cids !! j = Some other ∧ p = exclusivePlacement tgt other.
Proof.
  unfold pairPlacements. rewrite elem_of_concat. setoid_rewrite elem_of_lookup_imap. split.
  - intros (l & (i & tgt & -> & Hi) & Hp).
    apply elem_of_concat in Hp as (l' & (j & other & -> & Hj)%elem_of_lookup_imap & Hp).
    revert Hp. case_bool; [set_solver|]. intros ->%list_elem_of_singleton. naive_solver.
  - intros (i & j & tgt & other & Hne & Hi & Hj & ->). eexists. split; [by exists i, tgt|].
    apply elem_of_concat. eexists. split; [by apply (elem_of_lookup_imap_2 _ _ other j)|]. simpl.
    rewrite bool_decide_eq_false_2 by done. set_solver.
Qed.

Lemma elem_of_portPlacements n conns p :
  p ∈ portPlacements n conns ↔ ∃ port, p ∈ pairPlacements (publicTargets port conns).
Proof.
  unfold portPlacements. rewrite elem_of_concat. setoid_rewrite list_elem_of_fmap. split.
  - intros (l & ([port cids] & -> & Hin%elem_of_range) & Hp). exists port.
    by rewrite <-portTargets_lookup, Hin.
  - intros [port Hp]. rewrite <-portTargets_lookup in Hp.
    destruct (portTargets conns !! port) as [cids|] eqn:Hc; [|by apply elem_of_nil in Hp].
    eexists. split; [|exact Hp]. exists (port, cids). by rewrite elem_of_range.
Qed.

Lemma pairPlacements_perm l k p : l ≡ₚ k → p ∈ pairPlacements l → p ∈ pairPlacements k.
Proof.
  rewrite !elem_of_pairPlacements.
  intros [_ (f & Hf & Hlk)]%Permutation_inj (i & j & a & b & Hne & Hi & Hj & ->).
  rewrite Hlk in Hi, Hj. exists (f i), (f j), a, b. split_and!; auto.
Qed.

Lemma portPlacements_perm n1 n2 c1 c2 p :
  c1 ≡ₚ c2 → p ∈ portPlacements n1 c1 ↔ p ∈ portPlacements n2 c2.
Proof.
  intros Hp. rewrite !elem_of_portPlacements.
  split; intros [port Hin]; exists port;
    (eapply pairPlacements_perm; [|exact Hin]); by apply publicTargets_perm.
Qed.

(** The placements wanted by a blueprint and the connections in the database. *)
Definition desiredPlacements bp (conns : list Connection) : list Placement :=
  portPlacements 0 conns ++ (blueprintPlacement <$> bp_Placements bp).

Lemma wp_updatePlacements view s bp Q :
  DbOK view s → PlacementTable ∈ view → ConnectionTable ∈ view →
  (∀ s', stepped view PlacementTable s s' →
     reconciled placementKey placementKey (λ _ o, o) (λ d r, set_p_ID (p_ID r) d)
       (curID s) (desiredPlacements bp (vals (tbl Connection s)))
       (vals (tbl Placement s)) (vals (tbl Placement s')) → Q () s') →
  wp (updatePlacements view bp) s Q.
Proof.
  intros Hok Hin HinC HQ. unfold updatePlacements.
  wp_select s1 Hs1 conns Hconns. wp_order s2 Hs2 n. wp_select s3 Hs3 l Hl. wp_order s4 Hs4 n'.
  destruct (HashJoin _ _ _ _ _) as [[pairs ll] lr] eqn:Hj. apply HashJoin_ok in Hj.
  pose proof (same_trans _ _ _ Hs1 Hs2) as Hs02. pose proof (same_trans _ _ _ Hs3 Hs4) as Hs24.
  pose proof (same_trans _ _ _ Hs02 Hs24) as Hs.
  eapply (wp_add_remove placementKey placementKey);
    [by eapply same_ok|done| |exact Hj|by intros ??|by intros ??|].
  { by rewrite Hl, (same_tbl _ _ Hs24). }
  intros s5 Hst Hr. apply HQ; [by eapply same_stepped_l|].
  apply (reconciled_same _ _ _ _ _ _ _ _ Hs).
  eapply reconciled_perm; [|reflexivity|reflexivity|exact Hr].
  intros x. unfold desiredPlacements. rewrite !elem_of_app.
  by rewrite (portPlacements_perm n 0 _ _ x Hconns).
Qed.

(** The five tables after a round of the engine for [bp]. *)
Record policy_applied bp (s s' : store) : Prop := {
  pa_images : reconciled (λ i, i) dbImageKey (λ _ o, o) imageRow (curID s) (queryImages bp)
    (vals (tbl Image s)) (vals (tbl Image s'));
  pa_containers : reconciled c_BlueprintID c_BlueprintID (λ d o, mergeContainer (d, o))
    (λ d o, mergeContainer (d, o)) (curID s) (desiredContainers bp)
    (vals (tbl Container s)) (vals (tbl Container s'));
  pa_lbs : reconciled lb_Name lb_Name (λ d o, mergeLoadBalancer (d, o))
    (λ d o, mergeLoadBalancer (d, o)) (curID s) (desiredLoadBalancer <$> bp_LoadBalancers bp)
    (vals (tbl LoadBalancer s)) (vals (tbl LoadBalancer s'));
  pa_conns : reconciled bpKey dbcKey (λ _ o, o) connectionRow (curID s) (allConnections bp)
    (vals (tbl Connection s)) (vals (tbl Connection s'));
  pa_placements : reconciled placementKey placementKey (λ _ o, o) (λ d r, set_p_ID (p_ID r) d)
    (curID s) (desiredPlacements bp (vals (tbl Connection s')))
    (vals (tbl Placement s)) (vals (tbl Placement s'));
  pa_blueprint : tbl Blueprint s' = tbl Blueprint s;
  pa_etcd : tbl Etcd s' = tbl Etcd s;
  pa_minion : tbl Minion s' = tbl Minion s;
}.

(** Whether this minion leads, as [EtcdLeader] decides it. *)
Definition is_leader (s : store) : bool :=
  match vals (tbl Etcd s) with [e] => e_Leader e | _ => false end.

Lemma same_applied bp s0 s s1 : same s0 s → policy_applied bp s s1 → policy_applied bp s0 s1.
Proof. intros Hs []. split; by rewrite <-?(proj2 Hs), <-?(same_tbl _ _ Hs). Qed.

Lemma applied_same bp s s1 s2 : same s1 s2 → policy_applied bp s s1 → policy_applied bp s s2.
Proof. intros Hs []. split; by rewrite ?(same_tbl _ _ Hs). Qed.

(** The five updates one after the other, each on its own table. *)
Lemma wp_apply_blueprint view s bp Q :
  DbOK view s → list_to_set updatePolicyTables ⊆ view →
  (∀ s', DbOK view s' → policy_applied bp s s' → Q () s') →
  wp (updateImages view bp ;;; updateContainers view bp ;;; updateLoadBalancers view bp ;;;
      updateConnections view bp ;;; updatePlacements view bp) s Q.
Proof.
  intros Hok Hsub HQ.
  assert (∀ tn, tn ∈ updatePolicyTables → tn ∈ view) as Hin by set_solver.
  wp_bind. apply wp_updateImages; [done|apply Hin; vm_decide|]. intros s1 Hs1 H1.
  wp_bind. apply wp_updateContainers; [apply Hs1|apply Hin; vm_decide|]. intros s2 Hs2 H2.
  wp_bind. apply wp_updateLoadBalancers; [apply Hs2|apply Hin; vm_decide|]. intros s3 Hs3 H3.
  wp_bind. apply wp_updateConnections; [apply Hs3|apply Hin; vm_decide|]. intros s4 Hs4 H4.
  apply wp_updatePlacements; [apply Hs4|apply Hin; vm_decide..|]. intros s5 Hs5 H5.
  pose proof (st_cur _ _ _ _ Hs1). pose proof (st_cur _ _ _ _ Hs2).
  pose proof (st_cur _ _ _ _ Hs3). pose proof (st_cur _ _ _ _ Hs4).
  apply HQ; [apply Hs5|].
  rewrite (stepped_tbl (T:=Container) _ _ _ _ Hs1) in H2 by done.
  rewrite (stepped_tbl (T:=LoadBalancer) _ _ _ _ Hs2), (stepped_tbl (T:=LoadBalancer) _ _ _ _ Hs1)
    in H3 by done.
  rewrite (stepped_tbl (T:=Connection) _ _ _ _ Hs3), (stepped_tbl (T:=Connection) _ _ _ _ Hs2),
    (stepped_tbl (T:=Connection) _ _ _ _ Hs1) in H4 by done.
  rewrite (stepped_tbl (T:=Placement) _ _ _ _ Hs4), (stepped_tbl (T:=Placement) _ _ _ _ Hs3),
    (stepped_tbl (T:=Placement) _ _ _ _ Hs2), (stepped_tbl (T:=Placement) _ _ _ _ Hs1) in H5 by done.
  split;
    rewrite ?(stepped_tbl _ _ _ _ Hs5), ?(stepped_tbl _ _ _ _ Hs4), ?(stepped_tbl _ _ _ _ Hs3),
      ?(stepped_tbl _ _ _ _ Hs2), ?(stepped_tbl _ _ _ _ Hs1) by done; [done|..|done|done|done];
    (eapply reconciled_lo; [|done]); lia.
Qed.

Lemma wp_updatePolicy view s b Q :
  DbOK view s → list_to_set updatePolicyTables ⊆ view →
  is_leader s = true → vals (tbl Blueprint s) = [b] →
  (∀ s', DbOK view s' → policy_applied (b_Blueprint b) s s' → Q () s') →
  wp (updatePolicy view) s Q.
Proof.
  intros Hok Hsub Hl Hb HQ. unfold updatePolicy.
  assert (∀ tn, tn ∈ updatePolicyTables → tn ∈ view) as Hin by set_solver.
  wp_bind. apply wp_EtcdLeader; [done|apply Hin; vm_decide|]. intros s1 Hs1.
  fold (is_leader s). rewrite Hl. simpl. wp_bind.
  eapply wp_GetBlueprint; [by eapply same_ok|apply Hin; vm_decide|by rewrite (same_tbl _ _ Hs1)|].
  intros s2 Hs2. pose proof (same_trans _ _ _ Hs1 Hs2) as Hs.
  apply wp_apply_blueprint; [by eapply same_ok|done|]. intros s3 Hok3 Hpa.
  apply HQ; [done|]. by eapply same_applied.
Qed.

Lemma DbOK_tables tts s : DbOK (list_to_set tts) s → ∀ tn, tn ∈ tts → is_Some (tables s !! tn).
Proof. intros [_ Hd] tn Hin. apply elem_of_dom. set_solver. Qed.

Lemma DbOK_sub (tts tts' : list string) s :
  DbOK (list_to_set tts) s → tts' ⊆ tts → DbOK (list_to_set tts') s.
Proof. intros Hok Hsub. eapply DbOK_subset; [exact Hok|]. set_solver. Qed.

Lemma wp_syncPolicyOnce s b Q :
  DbOK (list_to_set updatePolicyTables) s →
  is_leader s = true → vals (tbl Blueprint s) = [b] →
  (∀ s', DbOK (list_to_set updatePolicyTables) s' → policy_applied (b_Blueprint b) s s' → Q () s') →
  wp syncPolicyOnce s Q.
Proof.
  intros Hok Hl Hb HQ. unfold syncPolicyOnce. apply wp_Run; [exact (DbOK_tables _ _ Hok)|].
  eapply wp_updatePolicy; [done|done|done|done|].
  intros s1 Hok1 Hpa s2 Hs. apply HQ; [by eapply same_ok|by eapply applied_same].
Qed.

(** What was learned about a container or load balancer, and what the
    blueprint says about it. *)
Definition learned (c : Container) :=
  (c_ID c, c_IP c, c_Minion c, c_PodName c, c_Status c, c_Created c).
Definition described (c : Container) :=
  (c_BlueprintID c, c_Command c, c_Env c, c_FilepathToContent c, c_Hostname c,
   c_Privileged c, c_VolumeMounts c, c_Image c, c_Dockerfile c).

(** The rows after a round say what the blueprint says, and a row that is still
    wanted keeps what was learned about it. *)
Record facts_kept bp (s s' : store) : Prop := {
  fk_containers : ∀ r, r ∈ vals (tbl Container s') →
    ∃ d, d ∈ desiredContainers bp ∧ described r = described d;
  fk_container : ∀ o, o ∈ vals (tbl Container s) →
    c_BlueprintID o ∈ c_BlueprintID <$> desiredContainers bp →
    (∀ o', o' ∈ vals (tbl Container s) → c_BlueprintID o' = c_BlueprintID o → o' = o) →
    ∃ r, r ∈ vals (tbl Container s') ∧ learned r = learned o;
  fk_lbs : ∀ r, r ∈ vals (tbl LoadBalancer s') →
    ∃ b, b ∈ bp_LoadBalancers bp ∧ lb_Name r = bpl_Name b ∧ lb_Hostnames r = bpl_Hostnames b;
  fk_lb : ∀ o, o ∈ vals (tbl LoadBalancer s) → lb_Name o ∈ bpl_Name <$> bp_LoadBalancers bp →
    (∀ o', o' ∈ vals (tbl LoadBalancer s) → lb_Name o' = lb_Name o → o' = o) →
    ∃ r, r ∈ vals (tbl LoadBalancer s') ∧ lb_ID r = lb_ID o ∧ lb_IP r = lb_IP o;
}.

Lemma applied_facts bp s s' : policy_applied bp s s' → facts_kept bp s s'.
Proof.
  intros [_ HC HL _ _ _ _ _]. split.
  - intros r (d & Hd & _ & [(o & _ & _ & ->)|(_ & z & _ & ->)])%(rc_rows _ _ _ _ _ _ _ _ HC); by exists d.
  - intros o Ho Hk Hu. destruct (rc_kept _ _ _ _ _ _ _ _ HC o Ho Hk Hu) as (d & _ & _ & Hr).
    by eexists; split; [exact Hr|].
  - intros r (d & (b & -> & Hb)%list_elem_of_fmap & _ & [(o & _ & _ & ->)|(_ & z & _ & ->)])%(rc_rows _ _ _ _ _ _ _ _ HL);
      by exists b.
  - intros o Ho Hk Hu. destruct (rc_kept _ _ _ _ _ _ _ _ HL o Ho) as (d & _ & _ & Hr);
      [by rewrite <-list_fmap_compose|exact Hu|]. by eexists; split; [exact Hr|].
Qed.

Lemma applied_stable bp s s1 s2 :
  NoDup (c_BlueprintID <$> desiredContainers bp) → NoDup (bpl_Name <$> bp_LoadBalancers bp) →
  wf s1 → wf s2 → policy_applied bp s s1 → policy_applied bp s1 s2 →
  tbl Image s2 = tbl Image s1 ∧ tbl Container s2 = tbl Container s1 ∧
  tbl LoadBalancer s2 = tbl LoadBalancer s1 ∧ tbl Connection s2 = tbl Connection s1 ∧
  tbl Placement s2 = tbl Placement s1.
Proof.
  intros Hc Hlb Hw1 Hw2 [I1 C1 L1 N1 P1 _ _ _] [I2 C2 L2 N2 P2 _ _ _].
  assert (tbl Connection s2 = tbl Connection s1) as HN.
  { apply tbl_vals_eq; [done..|]. by eapply reconciled_idem. }
  split_and!; [..|done|]; (apply tbl_vals_eq; [done..|]).
  - by eapply reconciled_idem.
  - eapply reconciled_idem; [exact C1|exact C2|]. intros d o Hd Ho Hk.
    destruct (rc_rows _ _ _ _ _ _ _ _ C1 o Ho) as (d' & Hd' & Hk' & Ho').
    assert (d' = d) as -> by (eapply (NoDup_fmap_elem c_BlueprintID); [exact Hc|done|done|congruence]).
    destruct Ho' as [(o' & _ & _ & ->)|(_ & z & _ & ->)]; done.
  - eapply reconciled_idem; [exact L1|exact L2|]. intros d o Hd Ho Hk.
    destruct (rc_rows _ _ _ _ _ _ _ _ L1 o Ho) as (d' & Hd' & Hk' & Ho').
    assert (d' = d) as ->.
    { eapply (NoDup_fmap_elem lb_Name); [|exact Hd'|exact Hd|congruence].
      by rewrite <-list_fmap_compose. }
    destruct Ho' as [(o' & _ & _ & ->)|(_ & z & _ & ->)]; done.
  - eapply reconciled_idem; [exact P1| |done]. rewrite HN in P2. exact P2.
Qed.
End engine_spec.

(** *** Transactions on one table *)

Lemma wp_connEtcdLeader `{MapOrder} s Q :
  DbOK (list_to_set [EtcdTable]) s → (∀ s', same s s' → Q (is_leader s) s') → wp connEtcdLeader s Q.
Proof.
  intros Hok HQ. unfold connEtcdLeader. apply wp_Run; [exact (DbOK_tables _ _ Hok)|].
  apply wp_EtcdLeader; [done|set_solver|]. intros s1 Hs1 s2 Hs2.
  apply HQ. by eapply same_trans.
Qed.

Lemma wp_connSelect_all `{MapOrder} {T} `{RowType T} s (Q : list T → store → Prop) :
  DbOK (list_to_set [row_table T]) s →
  (∀ l s', same s s' → l ≡ₚ vals (tbl T s) → Q l s') → wp (connSelect None) s Q.
Proof.
  intros Hok HQ. unfold connSelect. apply wp_Run; [exact (DbOK_tables _ _ Hok)|].
  apply wp_select_all; [done|set_solver|]. intros l s1 Hs1 Hl s2 Hs2.
  apply HQ; [by eapply same_trans|done].
Qed.

(** ** Properties *)

(** [a] may be reached from the public internet on [port]. *)
Definition listens (conns : list Connection) (port : Z) (a : string) : Prop :=
  ∃ c, c ∈ conns ∧ PublicInternetLabel ∈ cn_From c ∧ cn_MinPort c = port ∧
    a ∈ cn_To c ∧ a ≠ PublicInternetLabel.

Lemma elem_of_publicTargets conns port a : a ∈ publicTargets port conns ↔ listens conns port a.
Proof.
  unfold publicTargets, listens. rewrite elem_of_concat. split.
  - intros (l & (c & -> & [Hf Hc]%list_elem_of_filter)%list_elem_of_fmap & [Hne Ha]%elem_of_SliceFilterOut).
    exists c. tauto.
  - intros (c & Hc & Hf & Hp & Ha & Hne). eexists. split.
    + apply list_elem_of_fmap_2, list_elem_of_filter. split; [split; [exact Hf|exact Hp]|exact Hc].
    + by apply elem_of_SliceFilterOut.
Qed.

(** [portPlacements] keeps public ports apart: any two different
    containers that listen on the same public port get an exclusive rule each
    way; every rule it makes is between listeners of one port and comes with
    its mirror image; and the rules do not depend on the order of the
    connections or of Go's map loops. *)
Theorem portPlacements_separates `{MapOrder} n (conns : list Connection) :
  (∀ port a b, listens conns port a → listens conns port b → a ≠ b →
     exclusivePlacement a b ∈ portPlacements n conns) ∧
  (∀ p, p ∈ portPlacements n conns → ∃ port a b, listens conns port a ∧ listens conns port b ∧
     p = exclusivePlacement a b ∧ exclusivePlacement b a ∈ portPlacements n conns) ∧
  (∀ n' conns', conns ≡ₚ conns' →
     ∀ p, p ∈ portPlacements n conns ↔ p ∈ portPlacements n' conns').
Proof.
  setoid_rewrite <-elem_of_publicTargets. split_and!.
  - intros port a b [i Hi]%list_elem_of_lookup [j Hj]%list_elem_of_lookup Hne.
    apply elem_of_portPlacements. exists port. apply elem_of_pairPlacements. exists i, j, a, b.
    split_and!; [|done..]. intros ->. congruence.
  - intros p (port & (i & j & a & b & Hne & Hi & Hj & ->)%elem_of_pairPlacements)%elem_of_portPlacements.
    exists port, a, b. split_and!; [by eapply list_elem_of_lookup_2..|done|].
    apply elem_of_portPlacements. exists port. apply elem_of_pairPlacements. by exists j, i, b, a.
  - intros n' conns' Hp p. by apply portPlacements_perm.
Qed.

(** C19: a round of the policy engine makes the database match the blueprint.
    On the leader, with a blueprint, the image, container, load balancer,
    connection and placement tables each end with exactly one row per desired
    key; rows that are still wanted keep their ID and what was learned about
    them (a container its IP, machine and status, a load balancer its IP), the
    others are gone, and new rows get fresh IDs.  On any other machine, or
    without a blueprint, no row changes. *)
Theorem syncPolicy_applies_blueprint `{MapOrder} (s : store) (b : Blueprint) :
  DbOK (list_to_set updatePolicyTables) s →
  (is_leader s = true → vals (tbl Blueprint s) = [b] →
     wp syncPolicyOnce s (λ _ s', wf s' ∧ policy_applied (b_Blueprint b) s s' ∧
       facts_kept (b_Blueprint b) s s')) ∧
  (is_leader s = false ∨ tbl Blueprint s = ∅ → wp syncPolicyOnce s (λ _ s', same s s')).
Proof.
  intros Hok. split.
  - intros Hl Hb. eapply wp_syncPolicyOnce; [done..|]. intros s' [? _] ?. by eauto using applied_facts.
  - intros Hno. unfold syncPolicyOnce. apply wp_Run; [exact (DbOK_tables _ _ Hok)|]. unfold updatePolicy. wp_bind.
    apply wp_EtcdLeader; [done|vm_decide|]. intros s1 Hs1. fold (is_leader s).
    destruct (is_leader s) eqn:Hl; simpl; [|wp_ret; by eauto with kelda].
    destruct Hno as [Hf|Hb]; [discriminate Hf|]. wp_bind.
    apply wp_GetBlueprint_none; [by eapply same_ok|vm_decide|by rewrite (same_tbl _ _ Hs1)|].
    intros s2 Hs2. wp_ret. eauto with kelda.
Qed.

(** the policy engine is stable: a second round with the same blueprint
    changes none of the tables, when the blueprint's containers have distinct
    IDs and its load balancers distinct names. *)
Theorem syncPolicy_idempotent `{MapOrder} (s : store) (b : Blueprint) :
  DbOK (list_to_set updatePolicyTables) s →
  is_leader s = true → vals (tbl Blueprint s) = [b] →
  NoDup (c_BlueprintID <$> desiredContainers (b_Blueprint b)) →
  NoDup (bpl_Name <$> bp_LoadBalancers (b_Blueprint b)) →
  wp syncPolicyOnce s (λ _ s1, wp syncPolicyOnce s1 (λ _ s2,
    tbl Image s2 = tbl Image s1 ∧ tbl Container s2 = tbl Container s1 ∧
    tbl LoadBalancer s2 = tbl LoadBalancer s1 ∧ tbl Connection s2 = tbl Connection s1 ∧
    tbl Placement s2 = tbl Placement s1)).
Proof.
  intros Hok Hl Hb Hc Hlb. eapply wp_syncPolicyOnce; [done..|]. intros s1 Hok1 Hpa1.
  eapply (wp_syncPolicyOnce _ b); [done|..].
  - unfold is_leader. by rewrite (pa_etcd _ _ _ Hpa1).
  - by rewrite (pa_blueprint _ _ _ Hpa1).
  - intros s2 Hok2 Hpa2. eapply applied_stable; [done|done|apply Hok1|apply Hok2|done|done].
Qed.

(** ** Witnesses *)

(** A leader with a blueprint of two public web servers, and one stale
    container and one load balancer already in its database. *)
Definition demo_blueprint : bpBlueprint :=
  mk_bpBlueprint
    [mk_bpContainer "id1" (mk_bpImage "nginx" "") [] ∅ ∅ "web1" false [];
     mk_bpContainer "id2" (mk_bpImage "app" "FROM scratch") ["run"] ∅ ∅ "web2" false []]
    [mk_bpLoadBalancer "lb" ["web1"; "web2"]]
    [mk_bpConnection ["public"] ["web1"; "web2"] 80 80;
     mk_bpConnection ["web1"] ["lb"] 3306 3306]
    [] [] [] [] "ns".

Definition demo_db : store :=
  storeOf [RBlueprint (mk_Blueprint 1 demo_blueprint); REtcd (mk_Etcd 2 ["10.9.0.1"] true "10.9.0.1");
    RContainer (mk_Container 3 "10.0.0.9" "m1" "id1" "pod" "running" [] ∅ ∅ "web1" 7 false [] "old" "");
    RContainer (mk_Container 4 "10.0.0.8" "m1" "stale" "pod" "running" [] ∅ ∅ "gone" 7 false [] "x" "");
    RLoadBalancer (mk_LoadBalancer 5 "lb" "10.0.0.7" ["web1"])].

(** What the engine leaves: container 3 updated in place, 4 replaced by a new one. *)
Example syncPolicy_example :
  match syncPolicyOnce demo_db with
  | Ok (_, s) =>
    ((λ c, (c_ID c, c_IP c, c_BlueprintID c, c_Image c)) <$> vals (tbl Container s),
     (λ l, (lb_ID l, lb_IP l, lb_Hostnames l)) <$> vals (tbl LoadBalancer s),
     length (vals (tbl Connection s)), length (vals (tbl Placement s)))
  | Panic _ => ([], [], 0, 0)
  end =
  ([(7, "", "id2", "app"); (3, "10.0.0.9", "id1", "nginx")]%Z,
   [(5, "10.0.0.7", ["web1"; "web2"])]%Z, 3, 2).
Proof. vm_compute. reflexivity. Qed.

Lemma demo_db_ok : DbOK (list_to_set updatePolicyTables) demo_db.
Proof. vm_decide. Qed.

Lemma syncPolicy_applies_blueprint_witness :
  wp syncPolicyOnce demo_db (λ _ s', wf s' ∧ policy_applied demo_blueprint demo_db s' ∧
    facts_kept demo_blueprint demo_db s').
Proof.
  destruct (syncPolicy_applies_blueprint demo_db (mk_Blueprint 1 demo_blueprint) demo_db_ok) as [Ha _].
  apply Ha; vm_compute; reflexivity.
Defined.

Lemma syncPolicy_idempotent_witness :
  wp syncPolicyOnce demo_db (λ _ s1, wp syncPolicyOnce s1 (λ _ s2,
    tbl Image s2 = tbl Image s1 ∧ tbl Container s2 = tbl Container s1 ∧
    tbl LoadBalancer s2 = tbl LoadBalancer s1 ∧ tbl Connection s2 = tbl Connection s1 ∧
    tbl Placement s2 = tbl Placement s1)).
Proof.
  apply (syncPolicy_idempotent demo_db (mk_Blueprint 1 demo_blueprint) demo_db_ok);
    [vm_compute; reflexivity..|vm_decide|vm_decide].
Defined.
