(* ===== verification/CloudJoin.v ===== *)
(** * Package cloud, part 1: joining the cloud, the database and the blueprint

    Models [src/cloud/join.go] and the functions of [cloud.go] it uses: which
    database machine is which cloud machine, which machines to boot, to stop
    and to give a floating IP, and which ACLs to install. *)

From S2P Require Import Prelude GoStrings Join Blueprint DbRows Db DbSpec DbTxn DbFrame.

(** [acl.ACL] *)
Record ACL := mk_ACL { CidrIP : string; acl_MinPort : Z; acl_MaxPort : Z }.
#[export] Instance ACL_eq_dec : EqDecision ACL.
Proof. solve_decision. Defined.
#[export] Program Instance ACL_countable : Countable ACL :=
  inj_countable' (λ a, (CidrIP a, acl_MinPort a, acl_MaxPort a)) (λ '(a, b, c), mk_ACL a b c) _.
Next Obligation. by intros []. Qed.

(** The immutable part of the [cloud] struct. *)
Record cloud := mk_cloud {
  cld_namespace : string;
  cld_providerName : string;
  cld_region : string;
}.

Record joinResult := mk_joinResult {
  jr_acls : list ACL;
  jr_boot : list Machine;
  jr_terminate : list Machine;
  jr_updateIPs : list Machine;
  jr_isActive : bool;
}.

(** [machineScore], with its panic on machines of different regions. *)
Definition machineScore (l r : Machine) : outcome Z :=
  if bool_decide (m_Provider l ≠ m_Provider r) || bool_decide (m_Region l ≠ m_Region r)
  then Panic "Invalid Provider or Region"
  else if bool_decide (m_Preemptible l ≠ m_Preemptible r) then Ok (-1)%Z
  else if bool_decide (m_Size l ≠ m_Size r) then Ok (-1)%Z
  else if bool_decide (m_DiskSize l ≠ 0 ∧ m_DiskSize r ≠ 0 ∧ m_DiskSize l ≠ m_DiskSize r)%Z
  then Ok (-1)%Z
  else if bool_decide (m_Role l ≠ None_ ∧ m_Role r ≠ None_ ∧ m_Role l ≠ m_Role r) then Ok (-1)%Z
  else if bool_decide (m_CloudID l ≠ "" ∧ m_CloudID r ≠ "" ∧ m_CloudID l = m_CloudID r) then Ok 0%Z
  else
    let score := 10%Z in
    let score :=
      if bool_decide (m_FloatingIP l ≠ "" ∧ m_FloatingIP r ≠ "" ∧ m_FloatingIP l = m_FloatingIP r)
      then (score - 2)%Z else score in
    let score :=
      if bool_decide (m_Role l ≠ None_ ∧ m_Role r ≠ None_) then (score - 1)%Z else score in
    Ok score.

Definition defaultDiskSize : Z := 32.

Section cloud_join.
Context `{MapOrder} (adminKey : string) (cld : cloud).

Definition inRegion (dbm : Machine) : bool :=
  bool_decide (m_Provider dbm = cld_providerName cld) && bool_decide (m_Region dbm = cld_region cld).

Definition selectMachines (view : Database) : M store (list Machine) :=
  SelectFrom view (Some inRegion).

(** The body of [desiredMachines]' loop; [None] is a [continue]. *)
Definition desiredMachine (bpm : bpMachine) : option Machine :=
  let region := bpm_Region bpm in
  if bool_decide (bpm_Provider bpm ≠ cld_providerName cld) || bool_decide (region ≠ cld_region cld)
  then None
  else match ParseRole (bpm_Role bpm) with
       | Err _ => None
       | Val role =>
         let DiskSize := if bool_decide (bpm_DiskSize bpm = 0)%Z then defaultDiskSize
                         else bpm_DiskSize bpm in
         let SSHKeys := if bool_decide (adminKey ≠ "") then bpm_SSHKeys bpm ++ [adminKey]
                        else bpm_SSHKeys bpm in
         Some (mk_Machine 0 (bpm_Provider bpm) region (bpm_Size bpm) DiskSize SSHKeys
                 (bpm_FloatingIP bpm) (bpm_Preemptible bpm) "" "" "" "" role false)
       end.

Definition desiredMachines (bpms : list bpMachine) : list Machine := omap desiredMachine bpms.

(** The last loop of [syncDBWithCloud]: [cm] keeps what the provider does not know. *)
Definition mergeCloudMachine (pair : Machine * Machine) : Machine :=
  let '(dbm, cm) := pair in
  set_m_Connected (m_Connected dbm) (set_m_Role (m_Role dbm)
    (set_m_SSHKeys (m_SSHKeys dbm) (set_m_Status (m_Status dbm) (set_m_ID (m_ID dbm) cm)))).

Definition syncDBWithCloud (view : Database) (cloudMachines : list Machine) : M store unit :=
  let! dbms := selectMachines view in
  let! (pairs, extraDBMs, missingCMs) := lift (Join machineScore dbms cloudMachines) in
  let! added := insertPairs view missingCMs in
  let pairs := pairs ++ ((λ p, (p.2, p.1)) <$> added) in
  forM_ extraDBMs (RemoveT view) ;;;
  forM_ pairs (λ pair, CommitT view (mergeCloudMachine pair)).

(** What a matched machine becomes in [syncDBWithBlueprint]. *)
Definition matchedMachine (bpm dbm : Machine) : Machine :=
  let dbm := set_m_SSHKeys (m_SSHKeys bpm) dbm in
  let status := ConnectionStatus dbm in
  if bool_decide (status ≠ "") then set_m_Status status dbm else dbm.

(** The machine to give a floating IP to, if the pair needs one. *)
Definition floatingIPUpdate (bpm dbm : Machine) : option Machine :=
  if bool_decide (m_Role dbm ≠ None_) && bool_decide (m_FloatingIP bpm ≠ m_FloatingIP dbm)
  then Some (set_m_FloatingIP (m_FloatingIP bpm) dbm) else None.

(** The three loops; each returns what it appends to the result. *)
Definition syncPairs (view : Database) (pairs : list (Machine * Machine)) : M store (list Machine) :=
  let! ups := mapM_st (λ p : Machine * Machine,
    let dbm := matchedMachine p.1 p.2 in
    CommitT view dbm ;;;
    mret (option_list (floatingIPUpdate p.1 dbm))) pairs in
  mret (concat ups).

Definition syncExtra (view : Database) (extraDBMs : list Machine) : M store (list Machine) :=
  mapM_st (λ extraDBM,
    let dbm := set_m_Status Stopping extraDBM in
    CommitT view dbm ;;;
    mret dbm) extraDBMs.

Definition syncMissing (view : Database) (missingBPMs : list Machine) : M store (list Machine) :=
  mapM_st (λ missingBPM,
    let! dbm := InsertRow view in
    let bpm := set_m_Status Booting (set_m_ID (m_ID dbm) missingBPM) in
    CommitT view (set_m_Role None_ bpm) ;;;
    mret bpm) missingBPMs.

Definition syncDBWithBlueprint (view : Database) : M store joinResult :=
  let! bp := GetBlueprint view in
  match bp with
  | Err e => panic ("Unreachable error: " +:+ e)
  | Val bp =>
    let! dbms := selectMachines view in
    let bpms := desiredMachines (bp_Machines (b_Blueprint bp)) in
    let isActive := bool_decide (0 < length bpms) || bool_decide (0 < length dbms) in
    let! (pairs, missingBPMs, extraDBMs) := lift (Join machineScore bpms dbms) in
    let! updateIPs := syncPairs view pairs in
    let! terminate := syncExtra view extraDBMs in
    let! boot := syncMissing view missingBPMs in
    mret (mk_joinResult [] boot terminate updateIPs isActive)
  end.

Definition desiredACLs (bp : bpBlueprint) : gset ACL :=
  let aclSet := foldl (λ s cidr, {[mk_ACL cidr 1 65535]} ∪ s) ∅ (bp_AdminACL bp ++ ["local"]) in
  foldl (λ s conn,
    if SliceContains (bpcn_From conn) PublicInternetLabel
    then {[mk_ACL "0.0.0.0/0" (bpcn_MinPort conn) (bpcn_MaxPort conn)]} ∪ s else s)
    aclSet (bp_Connections bp).

(** The transaction of [joinImpl], after the provider listed [machines]. *)
Definition joinTxn (machines : list Machine) (view : Database) : M store (result joinResult) :=
  let! bp := GetBlueprint view in
  match bp with
  | Err e => mret (Err e)
  | Val b =>
    if bool_decide (cld_namespace cld ≠ bp_Namespace (b_Blueprint b))
    then mret (Err "namespace change during a cloud run")
    else
      syncDBWithCloud view machines ;;;
      let! res := syncDBWithBlueprint view in
      if bool_decide (0 < length machines) then
        let! n := nextOrder in
        mret (Val (mk_joinResult (jr_acls res ++ range_set n (desiredACLs (b_Blueprint b)))
          (jr_boot res) (jr_terminate res) (jr_updateIPs res) (jr_isActive res)))
      else mret (Val res)
  end.

Definition joinAfterList (machines : list Machine) : M store (result joinResult) :=
  Run [BlueprintTable; MachineTable] (joinTxn machines).
End cloud_join.

(** ** Scores *)

(** The score of two machines of one region. *)
Definition scoreOf (l r : Machine) : Z :=
  match machineScore l r with Ok z => z | Panic _ => (-1)%Z end.

(** What two machines must agree on to be matched at all. *)
Definition compatible (l r : Machine) : Prop :=
  m_Preemptible l = m_Preemptible r ∧ m_Size l = m_Size r ∧
  (m_DiskSize l = 0 ∨ m_DiskSize r = 0 ∨ m_DiskSize l = m_DiskSize r)%Z ∧
  (m_Role l = None_ ∨ m_Role r = None_ ∨ m_Role l = m_Role r).
Definition sameCloudID (l r : Machine) : Prop := m_CloudID l ≠ "" ∧ m_CloudID l = m_CloudID r.
Definition sameFloatingIP (l r : Machine) : Prop :=
  m_FloatingIP l ≠ "" ∧ m_FloatingIP l = m_FloatingIP r.
Definition sameRole (l r : Machine) : Prop := m_Role l ≠ None_ ∧ m_Role l = m_Role r.
Definition sameRegion (l r : Machine) : Prop :=
  m_Provider l = m_Provider r ∧ m_Region l = m_Region r.

#[export] Instance compatible_dec l r : Decision (compatible l r).
Proof. unfold compatible. apply _. Defined.
#[export] Instance sameCloudID_dec l r : Decision (sameCloudID l r).
Proof. unfold sameCloudID. apply _. Defined.
#[export] Instance sameFloatingIP_dec l r : Decision (sameFloatingIP l r).
Proof. unfold sameFloatingIP. apply _. Defined.
#[export] Instance sameRole_dec l r : Decision (sameRole l r).
Proof. unfold sameRole. apply _. Defined.

(** The table of scores. *)
Lemma scoreOf_spec l r :
  sameRegion l r →
  machineScore l r = Ok (scoreOf l r) ∧
  scoreOf l r =
    (if decide (compatible l r) then
       if decide (sameCloudID l r) then 0
       else 10 - (if decide (sameFloatingIP l r) then 2 else 0)
               - (if decide (sameRole l r) then 1 else 0)
     else -1)%Z.
Proof.
  intros [Hp Hr]. unfold scoreOf, machineScore. rewrite Hp, Hr. simpl_bd. simpl.
  case_bool as [H1|H1]; [rewrite decide_False by (unfold compatible; tauto); done|apply dec_stable in H1].
  case_bool as [H2|H2]; [rewrite decide_False by (unfold compatible; tauto); done|apply dec_stable in H2].
  case_bool as [H3|H3]; [rewrite decide_False by (unfold compatible; tauto); done|].
  case_bool as [H4|H4]; [rewrite decide_False by (unfold compatible; tauto); done|].
  assert (compatible l r) as Hc.
  { unfold compatible. split_and!; [done|done|lia|].
    destruct (decide (m_Role l = None_)), (decide (m_Role r = None_)),
      (decide (m_Role l = m_Role r)); tauto. }
  rewrite (decide_True (P:=compatible l r)) by done. unfold sameCloudID, sameFloatingIP, sameRole.
  case_bool as [H5|H5]; [rewrite decide_True by tauto; done|].
  rewrite (decide_False (P:=m_CloudID l ≠ "" ∧ _)) by (intros [? Heq]; rewrite <-Heq in H5; tauto).
  split; [done|]. destruct Hc as (_ & _ & _ & Hrole).
  repeat case_bool; repeat case_decide; try lia; intuition congruence.
Qed.

Lemma inRegion_spec cld m :
  inRegion cld m = true ↔ m_Provider m = cld_providerName cld ∧ m_Region m = cld_region cld.
Proof. unfold inRegion. by rewrite andb_true_iff, !bool_decide_eq_true. Qed.

Lemma inRegion_score cld l r :
  inRegion cld l = true → inRegion cld r = true → machineScore l r = Ok (scoreOf l r).
Proof.
  rewrite !inRegion_spec. intros [??] [??]. apply scoreOf_spec. split; congruence.
Qed.

Lemma scoreOf_zero l r : sameRegion l r → scoreOf l r = 0%Z ↔ compatible l r ∧ sameCloudID l r.
Proof.
  intros Hr. rewrite (proj2 (scoreOf_spec l r Hr)). repeat case_decide; split; try done; try tauto; lia.
Qed.

(** ** The database follows the cloud *)

(** What the provider knows of a machine, and what only Kelda knows. *)
Definition cloudFacts (m : Machine) : string * string * string * Z * string * bool * string * string * string :=
  (m_Provider m, m_Region m, m_Size m, m_DiskSize m, m_FloatingIP m, m_Preemptible m, m_CloudID m, m_PublicIP m, m_PrivateIP m).
Definition localFacts (m : Machine) : string * list string * string * bool :=
  (m_Status m, m_SSHKeys m, m_Role m, m_Connected m).

Section sync.
Context `{MapOrder} (adminKey : string) (cld : cloud).
Implicit Types (view : Database) (s : store).

(** The machines of the database in this cloud's region, and the others. *)
Definition ours (m : Machine) : Prop := m_Provider m = cld_providerName cld ∧ m_Region m = cld_region cld.
Definition mine s : list Machine := filter ours (vals (tbl Machine s)).
Definition others s : list Machine := filter (λ m, ¬ ours m) (vals (tbl Machine s)).

Lemma mine_others s : vals (tbl Machine s) ≡ₚ mine s ++ others s.
Proof. unfold mine, others. apply filter_split. Qed.

Lemma elem_of_mine s m : m ∈ mine s ↔ m ∈ vals (tbl Machine s) ∧ inRegion cld m = true.
Proof. unfold mine. rewrite list_elem_of_filter, inRegion_spec. unfold ours. tauto. Qed.

Lemma wp_selectMachines view s Q :
  DbOK view s → MachineTable ∈ view →
  (∀ l s', same s s' → l ≡ₚ mine s → Q l s') → wp (selectMachines cld view) s Q.
Proof.
  intros Hok Hin HQ. apply wp_SelectFrom; [done|done|]. intros l s' Hs Hl. apply HQ; [done|]. rewrite Hl.
  apply Permutation_refl', list_filter_iff. intros m. simpl. apply inRegion_spec.
Qed.

(** [Join] on machines of this region does not panic. *)
Lemma wp_lift_Join {Σ} (ls rs : list Machine) (σ : Σ) Q :
  (∀ a, a ∈ ls → inRegion cld a = true) → (∀ b, b ∈ rs → inRegion cld b = true) →
  (∀ pairs ll lr, pairs.*1 ++ ll ≡ₚ ls → pairs.*2 ++ lr ≡ₚ rs →
     (∀ a b, (a, b) ∈ pairs → 0 ≤ scoreOf a b)%Z →
     (∀ a b, a ∈ ll → b ∈ lr → scoreOf a b < 0)%Z →
     (∀ a b, a ∈ ls → b ∈ rs → (0 ≤ scoreOf a b)%Z →
        (∃ b', (a, b') ∈ pairs ∧ scoreOf a b' ≤ scoreOf a b)%Z ∨
        (∃ a', (a', b) ∈ pairs ∧ scoreOf a' b ≤ scoreOf a b)%Z) →
     Q (pairs, ll, lr) σ) →
  wp (lift (Join machineScore ls rs)) σ Q.
Proof.
  intros Hl Hr HQ.
  assert (∀ a b, a ∈ ls → b ∈ rs → machineScore a b = Ok (scoreOf a b)) as Hs.
  { intros a b Ha Hb. apply (inRegion_score cld); auto. }
  destruct (Join_ok machineScore scoreOf ls rs Hs) as (pairs & ll & lr & HJ & H1 & H2 & H3 & H4).
  eapply wp_lift; [exact HJ|]. apply HQ; auto. intros a b Ha Hb Hpos.
  by eapply (Join_best machineScore scoreOf ls rs Hs).
Qed.

(** What [syncDBWithCloud] does: [pairs] says which row holds which cloud machine. *)
Record cloud_synced (cms : list Machine) s s' (pairs : list (Machine * Machine)) : Prop := {
  cs_rows : vals (tbl Machine s') ≡ₚ (mergeCloudMachine <$> pairs) ++ others s;
  cs_all : pairs.*2 ≡ₚ cms;
  cs_left : ∀ dbm cm, (dbm, cm) ∈ pairs →
    (dbm ∈ mine s ∧ (0 ≤ scoreOf dbm cm)%Z) ∨ fresh_zero (curID s) dbm;
  cs_best : ∀ dbm cm, dbm ∈ mine s → cm ∈ cms → scoreOf dbm cm = 0%Z →
    (∃ cm', (dbm, cm') ∈ pairs ∧ scoreOf dbm cm' = 0%Z) ∨
    (∃ dbm', (dbm', cm) ∈ pairs ∧ dbm' ∈ mine s ∧ scoreOf dbm' cm = 0%Z);
}.

Lemma wp_syncDBWithCloud view s cms Q :
  DbOK view s → MachineTable ∈ view → (∀ cm, cm ∈ cms → inRegion cld cm = true) →
  (∀ s' pairs, stepped view MachineTable s s' → cloud_synced cms s s' pairs → Q () s') →
  wp (syncDBWithCloud cld view cms) s Q.
Proof.
  intros Hok Hin Hcms HQ. unfold syncDBWithCloud. wp_bind.
  apply wp_selectMachines; [done|done|]. intros dbms s1 Hs1 Hdbms.
  wp_bind. apply wp_lift_Join; [|done|].
  { intros a. rewrite Hdbms, elem_of_mine. tauto. }
  intros pairs extra missing Hl Hr Hp _ Hbest. wp_bind.
  pose proof (same_ok _ _ _ Hs1 Hok) as Hok1.
  apply wp_insert_pairs; [done|done|]. intros ps s2 Hs2 Hps Hz Hv2. wp_bind.
  rewrite (same_tbl _ _ Hs1), (mine_others s), <-Hdbms, <-Hl in Hv2.
  eapply (wp_remove_all _ _ _ (ps.*2 ++ pairs.*1 ++ others s)); [apply Hs2|done| |].
  { rewrite Hv2, (Permutation_app_comm pairs.*1 extra), <-!app_assoc.
    rewrite (app_assoc ps.*2), (app_assoc extra). by rewrite (Permutation_app_comm ps.*2 extra), <-app_assoc. }
  intros s3 Hs3 Hv3. set (pairs' := pairs ++ ((λ p, (p.2, p.1)) <$> ps)).
  eapply (wp_commit_all _ _ mergeCloudMachine fst pairs' (others s));
    [apply Hs3|done|by intros [[] []]| |].
  { rewrite Hv3. unfold pairs'. rewrite fmap_app, <-list_fmap_compose, app_assoc. apply Permutation_app_tail.
    rewrite Permutation_app_comm. done. }
  intros s4 Hs4 Hv4. apply (HQ s4 pairs').
  { eapply same_stepped_l; [done|done|]. by do 2 (eapply stepped_trans; [done|]). }
  assert (∀ dbm cm, (dbm, cm) ∈ pairs → dbm ∈ mine s) as Hpm.
  { intros dbm cm Hin'. rewrite <-Hdbms, <-Hl. apply elem_of_app. left.
    apply list_elem_of_fmap. by exists (dbm, cm). }
  split.
  - exact Hv4.
  - unfold pairs'. rewrite fmap_app, <-list_fmap_compose. change (snd ∘ _) with (fst (A:=Machine) (B:=Machine)).
    by rewrite Hps.
  - intros dbm cm. unfold pairs'. rewrite elem_of_app. intros [Hin'|Hin'].
    + left. split; [by eapply Hpm|by apply Hp].
    + right. apply list_elem_of_fmap in Hin' as ([x z] & [= -> ->] & Hxz).
      rewrite Forall_forall in Hz. rewrite <-(proj2 Hs1). apply Hz.
      apply list_elem_of_fmap. by exists (x, z).
  - intros dbm cm Hdbm Hcm H0. unfold pairs'. setoid_rewrite elem_of_app.
    destruct (Hbest dbm cm) as [(cm' & ? & ?)|(dbm' & ? & ?)]; [by rewrite Hdbms|done|lia|left|right].
    + exists cm'. split; [by left|]. apply (anti_symm Z.le); [lia|by apply Hp].
    + exists dbm'. split_and!; [by left|by eapply Hpm|]. apply (anti_symm Z.le); [lia|by apply Hp].
Qed.

(** ** The blueprint decides what to boot and to stop *)

Lemma desiredMachines_inRegion bpms m :
  m ∈ desiredMachines adminKey cld bpms → inRegion cld m = true.
Proof.
  unfold desiredMachines. rewrite list_elem_of_omap. intros (bpm & _ & Hd).
  unfold desiredMachine in Hd. destruct (bool_decide _ || bool_decide _) eqn:Hc; [done|].
  apply orb_false_iff in Hc as [Hp%bool_decide_eq_false Hr%bool_decide_eq_false].
  apply dec_stable in Hp, Hr. destruct (ParseRole _); [|done]. simplify_eq.
  by apply inRegion_spec.
Qed.

(** The row of a machine that is being booted, and what is handed to the provider. *)
Definition bootMachine (bpm dbm : Machine) : Machine :=
  set_m_Status Booting (set_m_ID (m_ID dbm) bpm).
Definition bootRow (bpm dbm : Machine) : Machine := set_m_Role None_ (bootMachine bpm dbm).

Definition updatesOf (pairs : list (Machine * Machine)) : list Machine :=
  omap (λ p, floatingIPUpdate p.1 (matchedMachine p.1 p.2)) pairs.

(** What [syncDBWithBlueprint] does: [pairs] are the machines that run as
    wanted, [missing] the wanted ones that do not run, [extra] the running ones
    that are not wanted, [zs] the rows inserted for [missing]. *)
Record blueprint_synced (desired : list Machine) s s' (res : joinResult)
    (pairs : list (Machine * Machine)) (missing extra zs : list Machine) : Prop := {
  bs_desired : pairs.*1 ++ missing ≡ₚ desired;
  bs_mine : pairs.*2 ++ extra ≡ₚ mine s;
  bs_score : ∀ bpm dbm, (bpm, dbm) ∈ pairs → (0 ≤ scoreOf bpm dbm)%Z;
  bs_apart : ∀ bpm dbm, bpm ∈ missing → dbm ∈ extra → (scoreOf bpm dbm < 0)%Z;
  bs_fresh : Forall (fresh_zero (curID s)) zs ∧ length zs = length missing;
  bs_rows : vals (tbl Machine s') ≡ₚ (uncurry matchedMachine <$> pairs) ++
    (set_m_Status Stopping <$> extra) ++ zip_with bootRow missing zs ++ others s;
  bs_res : res = mk_joinResult [] (zip_with bootMachine missing zs)
    (set_m_Status Stopping <$> extra) (updatesOf pairs)
    (bool_decide (desired ≠ [] ∨ mine s ≠ []));
}.

Lemma matchedMachine_ID bpm dbm : m_ID (matchedMachine bpm dbm) = m_ID dbm.
Proof. unfold matchedMachine. by case_bool. Qed.

Lemma wp_syncPairs view s pairs rest Q :
  DbOK view s → MachineTable ∈ view → vals (tbl Machine s) ≡ₚ pairs.*2 ++ rest →
  (∀ s', stepped view MachineTable s s' →
     vals (tbl Machine s') ≡ₚ (uncurry matchedMachine <$> pairs) ++ rest → Q (updatesOf pairs) s') →
  wp (syncPairs view pairs) s Q.
Proof.
  intros Hok Hin Hv HQ. unfold syncPairs. wp_bind.
  apply (wp_collect (λ p, CommitT view (matchedMachine p.1 p.2))
    (λ p, option_list (floatingIPUpdate p.1 (matchedMachine p.1 p.2)))).
  apply (wp_commit_all _ _ (λ p, matchedMachine p.1 p.2) snd pairs rest); [done|done| |done|].
  { intros [bpm dbm] _. apply matchedMachine_ID. }
  intros s' Hst Hv'. wp_ret.
  assert (concat ((λ p, option_list (floatingIPUpdate p.1 (matchedMachine p.1 p.2))) <$> pairs)
    = updatesOf pairs) as ->.
  { unfold updatesOf. clear. induction pairs as [|p ps IH]; csimpl; [done|]. rewrite IH.
    by destruct (floatingIPUpdate _ _). }
  apply HQ; [done|]. rewrite Hv'. apply Permutation_app_tail, Permutation_refl', list_fmap_ext.
  by intros ? [??].
Qed.

Lemma wp_syncDBWithBlueprint view s b Q :
  DbOK view s → MachineTable ∈ view → BlueprintTable ∈ view → vals (tbl Blueprint s) = [b] →
  (∀ res s' pairs missing extra zs, stepped view MachineTable s s' →
     blueprint_synced (desiredMachines adminKey cld (bp_Machines (b_Blueprint b)))
       s s' res pairs missing extra zs → Q res s') →
  wp (syncDBWithBlueprint adminKey cld view) s Q.
Proof.
  intros Hok Hin HinB Hb HQ. unfold syncDBWithBlueprint. wp_bind.
  eapply wp_GetBlueprint; [done|done|exact Hb|]. intros s1 Hs1. wp_bind.
  pose proof (same_ok _ _ _ Hs1 Hok) as Hok1.
  apply wp_selectMachines; [done|done|]. intros dbms s2 Hs2 Hdbms.
  unfold mine in Hdbms. rewrite (same_tbl _ _ Hs1) in Hdbms. fold (mine s) in Hdbms.
  pose proof (same_trans _ _ _ Hs1 Hs2) as Hs. pose proof (same_ok _ _ _ Hs Hok) as Hok2.
  set (bpms := desiredMachines adminKey cld (bp_Machines (b_Blueprint b))) in *.
  wp_bind. apply wp_lift_Join.
  { intros a. apply desiredMachines_inRegion. }
  { intros a. rewrite Hdbms, elem_of_mine. tauto. }
  intros pairs missing extra Hl Hr Hp Hn _. wp_bind.
  apply (wp_syncPairs _ _ _ (extra ++ others s)); [done|done| |].
  { by rewrite (same_tbl _ _ Hs), (mine_others s), <-Hdbms, <-Hr, <-app_assoc. }
  intros s3 Hs3 Hv3. wp_bind.
  apply (wp_collect (λ m, CommitT view (set_m_Status Stopping m)) (set_m_Status Stopping)).
  apply (wp_commit_all _ _ (set_m_Status Stopping) id extra
    ((uncurry matchedMachine <$> pairs) ++ others s)); [apply Hs3|done|done| |].
  { rewrite Hv3, list_fmap_id, !app_assoc. apply Permutation_app_tail, Permutation_app_comm. }
  intros s4 Hs4 Hv4. wp_bind.
  apply (wp_add_map _ _ bootRow bootMachine); [apply Hs4|done|done|].
  intros zs s5 Hs5 Hz Hlen Hv5. wp_ret.
  apply (HQ _ s5 pairs missing extra zs).
  { eapply same_stepped_l; [done|done|]. by do 2 (eapply stepped_trans; [done|]). }
  split; auto.
  - by rewrite Hr.
  - split; [|done]. eapply Forall_impl; [exact Hz|]. intros z (i & -> & ?). exists i. split; [done|].
    rewrite <-(proj2 Hs). pose proof (st_cur _ _ _ _ Hs3). pose proof (st_cur _ _ _ _ Hs4). lia.
  - rewrite Hv5, Hv4.
    rewrite (app_assoc (zip_with _ _ _)), (Permutation_app_comm (zip_with _ _ _)), <-app_assoc.
    rewrite (Permutation_app_comm (zip_with _ _ _)), <-!app_assoc.
    rewrite (app_assoc (set_m_Status Stopping <$> extra)),
      (Permutation_app_comm (set_m_Status Stopping <$> extra)), <-!app_assoc.
    do 2 apply Permutation_app_head. apply Permutation_app_comm.
  - f_equal. apply Permutation_length in Hdbms.
    rewrite Hdbms. clear. destruct bpms, (mine s); simpl_bd; done.
Qed.
End sync.

(** A provider's [List] for this cloud answers, if it answers at all, with machines
    that carry the cloud's provider and region. *)
Definition listsOurs {W} (cld : cloud) (list : M W (result (list Machine))) : Prop :=
  ∀ w, match list w with Ok (Val ms, _) => ∀ m, m ∈ ms → ours cld m | _ => True end.

(** ** A whole join *)

Lemma Forall2_perm_r {A B} (R : A → B → Prop) l k k' :
  Forall2 R l k → k ≡ₚ k' → ∃ l', l ≡ₚ l' ∧ Forall2 R l' k'.
Proof.
  intros HR Hk. revert l HR. induction Hk as [|y k k' Hk IH|y z k|k k1 k2 _ IH1 _ IH2]; intros l HR.
  - exists l. split; [done|]. by apply Forall2_nil_inv_r in HR as ->.
  - apply Forall2_cons_inv_r in HR as (x & l0 & ? & Hl & ->). destruct (IH l0 Hl) as (l' & Hp & Hl'). exists (x :: l').
    split; [by rewrite Hp|by constructor].
  - apply Forall2_cons_inv_r in HR as (x & l0 & Hx & Hl & ->). apply Forall2_cons_inv_r in Hl as (x' & l1 & Hx' & Hl & ->).
    exists (x' :: x :: l1). split; [apply perm_swap|by repeat constructor].
  - destruct (IH1 l HR) as (l1 & Hp1 & H1). destruct (IH2 l1 H1) as (l2 & Hp2 & H2). exists l2. split; [by rewrite Hp1|done].
Qed.
(** Lists in step with the two parts of a list, up to order. *)
Lemma Forall2_split_r {A B} (R : A → B → Prop) l k k1 k2 :
  Forall2 R l k → k1 ++ k2 ≡ₚ k → ∃ l1 l2, l1 ++ l2 ≡ₚ l ∧ Forall2 R l1 k1 ∧ Forall2 R l2 k2.
Proof.
  intros HR Hk. destruct (Forall2_perm_r R l k _ HR (symmetry Hk)) as (l' & Hp & Hl').
  apply Forall2_app_inv_r in Hl' as (l1 & l2 & H1 & H2 & ->). by exists l1, l2.
Qed.

Section join.
Context `{MapOrder} (adminKey : string) (cld : cloud).

(** The machines of the blueprint that this cloud is to run: those of its
    provider and region with a role Kelda knows. *)
Definition wanted (bpm : bpMachine) : Prop :=
  bpm_Provider bpm = cld_providerName cld ∧ bpm_Region bpm = cld_region cld ∧ bpm_Role bpm ∈ ["Master"; "Worker"; ""].
#[export] Instance wanted_dec bpm : Decision (wanted bpm).
Proof. unfold wanted. apply _. Defined.
(** The disk and the SSH keys a machine is to have. *)
Definition diskOf (bpm : bpMachine) : Z := if decide (bpm_DiskSize bpm = 0%Z) then 32 else bpm_DiskSize bpm.
Definition keysOf (bpm : bpMachine) : list string :=
  bpm_SSHKeys bpm ++ if decide (adminKey = "") then [] else [adminKey].

(** [m] is a request to boot the blueprint's machine. *)
Record boots (bpm : bpMachine) (m : Machine) : Prop := {
  bt_Provider : m_Provider m = bpm_Provider bpm;
  bt_Region : m_Region m = bpm_Region bpm;
  bt_Size : m_Size m = bpm_Size bpm;
  bt_DiskSize : m_DiskSize m = diskOf bpm;
  bt_SSHKeys : m_SSHKeys m = keysOf bpm;
  bt_FloatingIP : m_FloatingIP m = bpm_FloatingIP bpm;
  bt_Preemptible : m_Preemptible m = bpm_Preemptible bpm;
  bt_Role : m_Role m = bpm_Role bpm;
  bt_CloudID : m_CloudID m = "";
  bt_Status : m_Status m = "booting";
}.
(** A machine (with what Kelda knows of it) can serve as the blueprint's. *)
Definition suits (bpm : bpMachine) (m : Machine) : Prop :=
  m_Size m = bpm_Size bpm ∧ m_Preemptible m = bpm_Preemptible bpm ∧
  (m_DiskSize m = 0%Z ∨ bpm_DiskSize bpm = m_DiskSize m ∨ bpm_DiskSize bpm = 0%Z ∧ m_DiskSize m = 32%Z) ∧
  (m_Role m = "" ∨ bpm_Role bpm = "" ∨ m_Role m = bpm_Role bpm).
(** The row of a listed machine that stays for the blueprint's. *)
Record stays (s' : store) (bpm : bpMachine) (cm row : Machine) : Prop := {
  sy_row : row ∈ vals (tbl Machine s');
  sy_cloud : cloudFacts row = cloudFacts cm;
  sy_keys : m_SSHKeys row = keysOf bpm;
  sy_suits : suits bpm row;
}.
(** A listed machine that is to be stopped. *)
Record stops (s' : store) (cm m : Machine) : Prop := {
  sp_row : m ∈ vals (tbl Machine s');
  sp_cloud : cloudFacts m = cloudFacts cm;
  sp_status : m_Status m = "stopping";
}.

(** What is true after a successful join: each wanted machine of the blueprint
    is [kept] (some listed machine stays for it) or to [boot], and each listed
    machine is kept or to [stop]. *)
Record join_plan (machines : list Machine) (b : Blueprint) (s s' : store) (res : joinResult) : Prop := {
  jp_plan : ∃ (kept : list (bpMachine * (Machine * Machine))) (boot : list bpMachine) (stop : list Machine),
    kept.*1 ++ boot ≡ₚ filter wanted (bp_Machines (b_Blueprint b)) ∧
    kept.*2.*1 ++ stop ≡ₚ machines ∧
    Forall2 boots boot (jr_boot res) ∧
    Forall2 (stops s') stop (jr_terminate res) ∧
    Forall (λ k, stays s' k.1 k.2.1 k.2.2) kept ∧
    (∀ bpm m, bpm ∈ boot → m ∈ jr_terminate res → ¬ suits bpm m) ∧
    (∀ m, m ∈ jr_updateIPs res ↔ ∃ bpm cm row, (bpm, (cm, row)) ∈ kept ∧ m_Role row ≠ "" ∧
      bpm_FloatingIP bpm ≠ m_FloatingIP row ∧ m = set_m_FloatingIP (bpm_FloatingIP bpm) row);
  jp_boot : ∀ m, m ∈ jr_boot res → set_m_Role None_ m ∈ vals (tbl Machine s');
  jp_acls : ∀ a, a ∈ jr_acls res ↔ machines ≠ [] ∧
    ((∃ cidr, (cidr ∈ bp_AdminACL (b_Blueprint b) ∨ cidr = "local") ∧ a = mk_ACL cidr 1 65535) ∨
     (∃ c, c ∈ bp_Connections (b_Blueprint b) ∧ "public" ∈ bpcn_From c ∧
        a = mk_ACL "0.0.0.0/0" (bpcn_MinPort c) (bpcn_MaxPort c)));
  jp_others : ∀ m, ¬ ours cld m → m ∈ vals (tbl Machine s') ↔ m ∈ vals (tbl Machine s);
  jp_only : only MachineTable s s';
}.

(** The machine of [desiredMachines] for the blueprint's. *)
Definition desiredFor (bpm : bpMachine) (d : Machine) : Prop := wanted bpm ∧
  d = mk_Machine 0 (bpm_Provider bpm) (bpm_Region bpm) (bpm_Size bpm) (diskOf bpm) (keysOf bpm)
        (bpm_FloatingIP bpm) (bpm_Preemptible bpm) "" "" "" "" (bpm_Role bpm) false.

Lemma desiredMachine_for bpm :
  match desiredMachine adminKey cld bpm with Some d => desiredFor bpm d | None => ¬ wanted bpm end.
Proof.
  unfold desiredMachine, desiredFor, wanted. case_bool as [Hp|Hp]; simpl; [tauto|]. apply dec_stable in Hp.
  case_bool as [Hr|Hr]; [tauto|]. apply dec_stable in Hr.
  assert (match ParseRole (bpm_Role bpm) with Val r => r = bpm_Role bpm ∧ bpm_Role bpm ∈ ["Master"; "Worker"; ""]
    | Err _ => bpm_Role bpm ∉ ["Master"; "Worker"; ""] end) as Hrole.
  { unfold ParseRole. repeat case_bool; set_solver. }
  destruct (ParseRole _); [|tauto]. destruct Hrole as [-> Hin]. split; [done|].
  unfold diskOf, keysOf, defaultDiskSize. f_equal.
  - by case_bool; case_decide.
  - case_bool; case_decide; try done. by rewrite app_nil_r.
Qed.
Lemma desiredMachines_for bpms : Forall2 desiredFor (filter wanted bpms) (desiredMachines adminKey cld bpms).
Proof.
  induction bpms as [|bpm bpms IH]; [constructor|]. unfold desiredMachines in *. csimpl. rewrite filter_cons.
  pose proof (desiredMachine_for bpm) as Hd. destruct (desiredMachine _ _ _) as [d|].
  - rewrite decide_True by apply Hd. by constructor.
  - by rewrite decide_False.
Qed.

Lemma desired_CloudID bpms m : m ∈ desiredMachines adminKey cld bpms → m_CloudID m = "".
Proof.
  unfold desiredMachines. rewrite list_elem_of_omap. intros (bpm & _ & Hd).
  unfold desiredMachine in Hd. destruct (bool_decide _ || _); [done|].
  destruct (ParseRole _); by simplify_eq.
Qed.

Lemma matchedMachine_region bpm dbm : inRegion cld (matchedMachine bpm dbm) = inRegion cld dbm.
Proof. unfold matchedMachine. by case_bool. Qed.

Lemma elem_of_others s m :
  m ∈ others cld s ↔ m ∈ vals (tbl Machine s) ∧ inRegion cld m = false.
Proof.
  unfold others. rewrite list_elem_of_filter. unfold ours. rewrite <-inRegion_spec, not_true_iff_false. tauto.
Qed.

Lemma mine_synced cms s s' pairs :
  (∀ cm, cm ∈ cms → inRegion cld cm = true) →
  cloud_synced cld cms s s' pairs →
  mine cld s' ≡ₚ mergeCloudMachine <$> pairs ∧ others cld s' ≡ₚ others cld s.
Proof.
  intros Hcms [Hrows Hall _ _]. unfold mine at 1, others at 1. rewrite Hrows, !filter_app.
  assert (∀ m, m ∈ mergeCloudMachine <$> pairs → inRegion cld m = true) as Hin.
  { intros m ([dbm cm] & -> & Hp)%list_elem_of_fmap. change (inRegion cld cm = true).
    apply Hcms. rewrite <-Hall. apply list_elem_of_fmap. by exists (dbm, cm). }
  assert (∀ m, m ∈ others cld s → inRegion cld m = false) as Hout.
  { intros m. rewrite elem_of_others. tauto. }
  split.
  - rewrite (filter_all _ (mergeCloudMachine <$> pairs)) by (intros m Hm; by apply inRegion_spec, Hin).
    rewrite (filter_none _ (others cld s)), app_nil_r; [done|].
    intros m Hm%Hout. unfold ours. rewrite <-inRegion_spec. congruence.
  - rewrite (filter_none _ (mergeCloudMachine <$> pairs)), (filter_all _ (others cld s)); [done|..];
      intros m Hm; unfold ours; rewrite <-inRegion_spec; [rewrite Hout by done; congruence|rewrite Hin by done; tauto].
Qed.

Lemma elem_of_desired_admin (l : list string) (X : gset ACL) a :
  a ∈ foldl (λ s cidr, {[mk_ACL cidr 1 65535]} ∪ s) X l ↔
  a ∈ X ∨ ∃ cidr, cidr ∈ l ∧ a = mk_ACL cidr 1 65535.
Proof. revert X. induction l as [|c l IH]; intros X; simpl; [set_solver|]. rewrite IH. set_solver. Qed.

Lemma elem_of_desiredACLs bp a :
  a ∈ desiredACLs bp ↔
  (∃ cidr, (cidr ∈ bp_AdminACL bp ∨ cidr = "local") ∧ a = mk_ACL cidr 1 65535) ∨
  (∃ c, c ∈ bp_Connections bp ∧ PublicInternetLabel ∈ bpcn_From c ∧
     a = mk_ACL "0.0.0.0/0" (bpcn_MinPort c) (bpcn_MaxPort c)).
Proof.
  unfold desiredACLs.
  assert (∀ l (X : gset ACL), a ∈ foldl (λ s conn,
    if SliceContains (bpcn_From conn) PublicInternetLabel
    then {[mk_ACL "0.0.0.0/0" (bpcn_MinPort conn) (bpcn_MaxPort conn)]} ∪ s else s) X l ↔
    a ∈ X ∨ ∃ c, c ∈ l ∧ PublicInternetLabel ∈ bpcn_From c ∧
      a = mk_ACL "0.0.0.0/0" (bpcn_MinPort c) (bpcn_MaxPort c)) as ->.
  { induction l as [|c l IH]; intros X; simpl; [set_solver|]. rewrite IH.
    destruct (SliceContains _ _) eqn:Hc.
    - apply elem_of_SliceContains in Hc. set_solver.
    - assert (PublicInternetLabel ∉ bpcn_From c) by (rewrite <-elem_of_SliceContains; congruence).
      set_solver. }
  rewrite elem_of_desired_admin. setoid_rewrite elem_of_app. set_solver.
Qed.

(** Neither step touches the machines of other regions. *)
Lemma synced_others b s1 s2 s3 res pairs missing extra zs m :
  blueprint_synced cld (desiredMachines adminKey cld (bp_Machines (b_Blueprint b)))
    s2 s3 res pairs missing extra zs →
  others cld s2 ≡ₚ others cld s1 → inRegion cld m = false →
  m ∈ vals (tbl Machine s3) ↔ m ∈ vals (tbl Machine s1).
Proof.
  intros [Hd Hm _ _ _ Hrows _] Hoth Hout.
  assert (m ∈ vals (tbl Machine s3) ↔ m ∈ others cld s1) as ->.
  { rewrite Hrows, !elem_of_app, Hoth. split; [|tauto]. intros [Hx|[Hx|[Hx|Hx]]]; [exfalso..|done].
    - apply list_elem_of_fmap in Hx as ([bpm dbm] & -> & Hp). simpl in Hout.
      rewrite matchedMachine_region in Hout.
      assert (dbm ∈ mine cld s2) as [_ ?]%elem_of_mine; [|congruence].
      rewrite <-Hm. apply elem_of_app. left. apply list_elem_of_fmap. by exists (bpm, dbm).
    - apply list_elem_of_fmap in Hx as (dbm & -> & Hp).
      assert (dbm ∈ mine cld s2) as [_ ?]%elem_of_mine by (rewrite <-Hm; set_solver).
      change (inRegion cld dbm = false) in Hout. congruence.
    - apply elem_of_zip_with in Hx as (d & z & Hdm & _ & ->).
      change (inRegion cld d = false) in Hout.
      assert (inRegion cld d = true); [|congruence].
      eapply desiredMachines_inRegion. rewrite <-Hd. set_solver. }
  rewrite elem_of_others. tauto.
Qed.

(** A matched pair of a wanted machine and a row. *)
Lemma suits_score bpm d m : desiredFor bpm d → inRegion cld m = true → (0 ≤ scoreOf d m)%Z ↔ suits bpm m.
Proof.
  intros [(Hp & Hr & _) ->] [Hp' Hr']%inRegion_spec.
  assert (sameRegion (mk_Machine 0 (bpm_Provider bpm) (bpm_Region bpm) (bpm_Size bpm) (diskOf bpm) (keysOf bpm)
    (bpm_FloatingIP bpm) (bpm_Preemptible bpm) "" "" "" "" (bpm_Role bpm) false) m) as Hs by (split; simpl; congruence).
  rewrite (proj2 (scoreOf_spec _ _ Hs)). unfold compatible, suits, diskOf. simpl. unfold None_.
  case_decide as Hc.
  - split; [intros _|intros _; repeat case_decide; lia]. destruct (decide (bpm_DiskSize bpm = 0%Z)); intuition (auto; lia).
  - split; [lia|]. intros (Hsz & Hpre & Hdisk & Hrole). exfalso. apply Hc. split_and!; [done|done| |intuition auto].
    destruct (decide (bpm_DiskSize bpm = 0%Z)); lia.
Qed.

Lemma matched_facts bpm d dbm :
  desiredFor bpm d → cloudFacts (matchedMachine d dbm) = cloudFacts dbm ∧ m_SSHKeys (matchedMachine d dbm) = keysOf bpm ∧
  m_Role (matchedMachine d dbm) = m_Role dbm.
Proof. intros [_ ->]. unfold matchedMachine. by case_bool. Qed.
Lemma suits_facts bpm m m' : cloudFacts m = cloudFacts m' → m_Role m = m_Role m' → suits bpm m → suits bpm m'.
Proof. unfold cloudFacts, suits. intros [= ? ? -> -> ? -> ? ? ?] ->. done. Qed.

(** The rows of the region as the lists of listed machines and their rows. *)
Definition listedAs (cm row : Machine) : Prop := cloudFacts row = cloudFacts cm.
Lemma synced_listed cms s s' pairs :
  (∀ cm, cm ∈ cms → inRegion cld cm = true) → cloud_synced cld cms s s' pairs →
  ∃ rows, rows ≡ₚ mine cld s' ∧ Forall2 listedAs pairs.*2 rows.
Proof.
  intros Hms Hcs. destruct (mine_synced _ _ _ _ Hms Hcs) as [Hmine _]. exists (mergeCloudMachine <$> pairs). split; [done|].
  apply Forall2_fmap, Forall_Forall2_diag, Forall_true. by intros [[] []].
Qed.

(** The plan of [syncDBWithBlueprint], on the blueprint's machines and the listing. *)
Lemma synced_plan cms s1 s2 s3 s4 bpms res pairs pairs' missing extra zs :
  (∀ cm, cm ∈ cms → inRegion cld cm = true) → cloud_synced cld cms s1 s2 pairs →
  vals (tbl Machine s4) ≡ₚ vals (tbl Machine s3) →
  blueprint_synced cld (desiredMachines adminKey cld bpms) s2 s3 res pairs' missing extra zs →
  ∃ (kept : list (bpMachine * (Machine * Machine))) (boot : list bpMachine) (stop : list Machine),
    kept.*1 ++ boot ≡ₚ filter wanted bpms ∧ kept.*2.*1 ++ stop ≡ₚ cms ∧
    Forall2 boots boot (jr_boot res) ∧ Forall2 (stops s4) stop (jr_terminate res) ∧
    Forall (λ k, stays s4 k.1 k.2.1 k.2.2) kept ∧
    (∀ bpm m, bpm ∈ boot → m ∈ jr_terminate res → ¬ suits bpm m) ∧
    (∀ m, m ∈ jr_updateIPs res ↔ ∃ bpm cm row, (bpm, (cm, row)) ∈ kept ∧ m_Role row ≠ "" ∧
      bpm_FloatingIP bpm ≠ m_FloatingIP row ∧ m = set_m_FloatingIP (bpm_FloatingIP bpm) row).
Proof.
  intros Hms Hcs H34 [Hd Hm Hscore Hapart [Hz Hlen] Hrows ->]. simpl.
  destruct (synced_listed _ _ _ _ Hms Hcs) as (rows & Hr & HR). rewrite <-Hr in Hm.
  destruct (Forall2_split_r _ _ _ _ _ (desiredMachines_for bpms) Hd) as (bk & boot & Hbp & Hbk & Hboot).
  destruct (Forall2_split_r _ _ _ _ _ HR Hm) as (ck & stop & Hcp & Hck & Hstop).
  assert (∀ m, m ∈ pairs'.*2 ++ extra → inRegion cld m = true) as Hin.
  { intros m. rewrite Hm, Hr, elem_of_mine. tauto. }
  (* the kept triples *)
  assert (∃ kept : list (bpMachine * (Machine * Machine)), kept.*1 = bk ∧ kept.*2.*1 = ck ∧
    kept.*2.*2 = uncurry matchedMachine <$> pairs' ∧
    Forall2 (λ k p, desiredFor k.1 p.1 ∧ listedAs k.2.1 p.2 ∧ k.2.2 = matchedMachine p.1 p.2) kept pairs')
    as (kept & Hk1 & Hk2 & Hk3 & Hkp).
  { clear -Hbk Hck. revert bk ck Hbk Hck. induction pairs' as [|[d r] ps IH]; csimpl; intros bk ck Hbk Hck.
    - apply Forall2_nil_inv_r in Hbk as ->. apply Forall2_nil_inv_r in Hck as ->. by exists [].
    - apply Forall2_cons_inv_r in Hbk as (bpm & bk' & Hb & Hbk & ->). apply Forall2_cons_inv_r in Hck as (cm & ck' & Hc & Hck & ->).
      destruct (IH bk' ck' Hbk Hck) as (kept & <- & <- & Hk3 & Hkp). exists ((bpm, (cm, matchedMachine d r)) :: kept).
      split_and!; [done|done|csimpl; by rewrite Hk3|]. by constructor. }
  assert (∀ k p, desiredFor k.1 p.1 ∧ listedAs k.2.1 p.2 ∧ k.2.2 = matchedMachine p.1 p.2 → p ∈ pairs' → stays s4 k.1 k.2.1 k.2.2)
    as Hstays.
  { intros [bpm [cm row]] [d r] (Hdf & Hlst & ->) Hp. simpl in *. destruct (matched_facts bpm d r Hdf) as (Hf & Hks & Hrole). split.
    - rewrite H34, Hrows. apply elem_of_app. left. apply list_elem_of_fmap. by exists (d, r).
    - by rewrite Hf.
    - done.
    - apply (suits_facts bpm r); [done..|]. rewrite <-(suits_score bpm d); [by apply Hscore|done|].
      apply Hin. apply elem_of_app. left. apply list_elem_of_fmap. by exists (d, r). }
  exists kept, boot, stop. rewrite Hk1, Hk2. split_and!.
  - done.
  - by rewrite Hcp, (cs_all _ _ _ _ _ Hcs).
  - clear -Hboot Hlen. revert zs Hlen. induction Hboot as [|bpm d boot missing [_ ->] _ IH]; intros [|z zs] Hlen; simplify_eq/=.
    + constructor.
    + constructor; [by split|]. by apply IH.
  - assert (∀ m, m ∈ extra → set_m_Status Stopping m ∈ vals (tbl Machine s4)) as Hex.
    { intros m Hme. rewrite H34, Hrows, !elem_of_app. right. left. by apply list_elem_of_fmap_2. }
    clear -Hstop Hex. induction Hstop as [|cm m stop extra Hl _ IH]; csimpl; constructor.
    + split; [apply Hex; left|done|done].
    + apply IH. intros m' Hm'. apply Hex. by right.
  - clear -Hkp Hstays. induction Hkp as [|k p kept ps Hkp _ IH]; constructor.
    + apply (Hstays k p); [done|left].
    + apply IH. intros k' p' Hkp' Hp'. apply (Hstays k' p'); [done|by right].
  - intros bpm m Hb (m0 & -> & Hm0)%list_elem_of_fmap Hsuits.
    apply list_elem_of_lookup in Hb as [i Hi]. destruct (Forall2_lookup_l _ _ _ _ _ Hboot Hi) as (d & Hdi & Hdf).
    assert (scoreOf d m0 < 0)%Z as Hneg by (apply Hapart; [by eapply list_elem_of_lookup_2|done]).
    assert (0 ≤ scoreOf d m0)%Z; [|lia]. apply (suits_score bpm d); [done|apply Hin; set_solver|].
    by apply (suits_facts bpm (set_m_Status Stopping m0)).
  - intros m. unfold updatesOf. rewrite list_elem_of_omap. clear -Hkp. unfold floatingIPUpdate. split.
    + intros ([d r] & [i Hi]%list_elem_of_lookup & Heq). destruct (Forall2_lookup_r _ _ _ _ _ Hkp Hi) as ([bpm [cm row]] & Hki & Hdf & _ & Hrow).
      simpl in *. subst row. destruct (bool_decide _ && bool_decide _) eqn:Hc; [|done]. injection Heq as <-.
      apply andb_true_iff in Hc as [Hc1%bool_decide_eq_true Hc2%bool_decide_eq_true]. destruct Hdf as [_ Hdd].
      exists bpm, cm, (matchedMachine d r). split_and!; [by eapply list_elem_of_lookup_2|done|..]; by rewrite Hdd in *.
    + intros (bpm & cm & row & [i Hi]%list_elem_of_lookup & Hr1 & Hr2 & ->).
      destruct (Forall2_lookup_l _ _ _ _ _ Hkp Hi) as ([d r] & Hpi & [_ Hdd] & _ & Hrow). simpl in *. exists (d, r).
      split; [by eapply list_elem_of_lookup_2|]. simpl. rewrite <-Hrow. assert (m_FloatingIP d = bpm_FloatingIP bpm) as -> by (by rewrite Hdd).
      rewrite bool_decide_eq_true_2 by done. rewrite bool_decide_eq_true_2 by done. done.
Qed.

Lemma join_plan_intro machines b s s1 s2 s3 s4 res pairs pairs' missing extra zs acls :
  same s s1 → same s3 s4 → only MachineTable s1 s3 →
  (∀ m, m ∈ machines → inRegion cld m = true) →
  cloud_synced cld machines s1 s2 pairs →
  blueprint_synced cld (desiredMachines adminKey cld (bp_Machines (b_Blueprint b)))
    s2 s3 res pairs' missing extra zs →
  (∀ a, a ∈ acls ↔ machines ≠ [] ∧ a ∈ desiredACLs (b_Blueprint b)) →
  join_plan machines b s s4
    (mk_joinResult acls (jr_boot res) (jr_terminate res) (jr_updateIPs res) (jr_isActive res)).
Proof.
  intros Hs1 Hs4 Ho Hms Hcs Hbs Hacls.
  destruct (mine_synced _ _ _ _ Hms Hcs) as [Hmine Hothers].
  pose proof (λ m, synced_others _ s1 s2 s3 _ _ _ _ _ m Hbs Hothers) as Hoth.
  assert (vals (tbl Machine s4) ≡ₚ vals (tbl Machine s3)) as H34 by (by rewrite (same_tbl _ _ Hs4)).
  split; simpl.
  - eapply synced_plan; [done|done|done|exact Hbs].
  - destruct Hbs as [Hd Hm _ _ [Hz Hlen] Hrows ->]. simpl. intros m Hboot.
    rewrite H34, Hrows. apply elem_of_app. right. apply elem_of_app. right.
    apply elem_of_app. left. apply list_elem_of_lookup in Hboot as [k Hk].
    apply lookup_zip_with_Some in Hk as (d & z & -> & Hkd & Hkz).
    apply list_elem_of_lookup. exists k. by rewrite lookup_zip_with, Hkd, Hkz.
  - intros a. rewrite Hacls, elem_of_desiredACLs. done.
  - intros m Hout. rewrite H34, <-(same_tbl _ _ Hs1). apply Hoth. unfold ours in Hout. rewrite <-inRegion_spec in Hout.
    by apply not_true_iff_false.
  - eapply only_trans; [by apply same_only|]. eapply only_trans; [done|by apply same_only].
Qed.

Lemma join_plan_same machines b s s1 s2 res : join_plan machines b s s1 res → same s1 s2 → join_plan machines b s s2 res.
Proof.
  intros [(kept & boot & stop & ? & ? & ? & Hstop & Hstay & ? & ?) ? ? Hoth Honly] Hs. pose proof (same_tbl (T:=Machine) _ _ Hs) as Ht. split.
  - exists kept, boot, stop. split_and!; [done..| | |done|done].
    + eapply Forall2_impl; [exact Hstop|]. intros cm m []. by split; rewrite ?Ht.
    + eapply Forall_impl; [exact Hstay|]. intros k []. by split; rewrite ?Ht.
  - by rewrite Ht.
  - done.
  - by rewrite Ht.
  - eapply only_trans; [done|by apply same_only].
Qed.

Lemma wp_joinTxn view machines s b Q :
  DbOK view s → MachineTable ∈ view → BlueprintTable ∈ view → vals (tbl Blueprint s) = [b] →
  cld_namespace cld = bp_Namespace (b_Blueprint b) →
  (∀ m, m ∈ machines → inRegion cld m = true) →
  (∀ res s', DbOK view s' → join_plan machines b s s' res → Q (Val res) s') →
  wp (joinTxn adminKey cld machines view) s Q.
Proof.
  intros Hok Hin HinB Hb Hns Hms HQ. unfold joinTxn. wp_bind.
  eapply wp_GetBlueprint; [done|done|exact Hb|]. intros s1 Hs1. simpl_bd. wp_bind.
  pose proof (same_ok _ _ _ Hs1 Hok) as Hok1.
  eapply wp_syncDBWithCloud; [done|done|exact Hms|]. intros s2 pairs Hs2 Hcs.
  wp_bind. eapply wp_syncDBWithBlueprint; [apply Hs2|done|done| |].
  { by rewrite (stepped_tbl _ _ _ _ Hs2), (same_tbl _ _ Hs1). }
  intros res s3 pairs' missing extra zs Hs3 Hbs.
  assert (only MachineTable s1 s3) as Ho by (eapply only_trans; [apply Hs2|apply Hs3]).
  assert (jr_acls res = []) as Hnil by (by rewrite (bs_res _ _ _ _ _ _ _ _ _ Hbs)).
  case_bool as [Hlen|Hlen].
  - wp_bind. apply wp_nextOrder. intros n s4 Hs4. wp_ret.
    apply HQ; [eapply same_ok; [exact Hs4|apply Hs3]|].
    eapply join_plan_intro; [done|done|exact Ho|done|done|done|]. rewrite Hnil. simpl.
    intros a. rewrite elem_of_range_set. destruct machines; [simpl in *; lia|]. naive_solver.
  - wp_ret. apply HQ; [apply Hs3|].
    replace res with (mk_joinResult [] (jr_boot res) (jr_terminate res) (jr_updateIPs res) (jr_isActive res))
      by (rewrite <-Hnil; by destruct res).
    eapply (join_plan_intro _ _ _ _ _ s3 s3); [done|done|exact Ho|done|done|done|].
    destruct machines; [|simpl in *; lia]. set_solver.
Qed.
End join.

(** ** Properties *)

(** Distinct machines of a list have distinct cloud IDs, as far as they are known. *)
Definition distinctCloudIDs (l : list Machine) : Prop :=
  ∀ a b, a ∈ l → b ∈ l → sameCloudID a b → a = b.

Lemma synced_same_id `{MapOrder} cld cms s s' pairs dbm cm :
  (∀ m, m ∈ cms → inRegion cld m = true) →
  cloud_synced cld cms s s' pairs → distinctCloudIDs (mine cld s) → distinctCloudIDs cms →
  dbm ∈ mine cld s → cm ∈ cms → compatible dbm cm → sameCloudID dbm cm → (dbm, cm) ∈ pairs.
Proof.
  intros Hreg [_ Hall Hleft Hbest] Hd1 Hd2 Hdbm Hcm Hc Hid.
  assert (∀ a b, a ∈ mine cld s → b ∈ cms → sameRegion a b) as Hsr.
  { intros a b [_ [? ?]%inRegion_spec]%elem_of_mine Hb. apply Hreg, inRegion_spec in Hb as [??].
    split; congruence. }
  assert (∀ a b, (a, b) ∈ pairs → b ∈ cms) as Hcms.
  { intros a b Hp. rewrite <-Hall. apply list_elem_of_fmap. by exists (a, b). }
  destruct (Hbest dbm cm Hdbm Hcm) as [(cm' & Hp & H0)|(dbm' & Hp & Hm & H0)];
    [by apply scoreOf_zero; [apply Hsr|]|..];
    apply scoreOf_zero in H0 as [_ [Hne Heq]]; eauto; destruct Hid as [? Heq'].
  - replace cm with cm'; [done|]. apply Hd2; [by eapply Hcms|done|split; congruence].
  - replace dbm with dbm'; [done|]. apply Hd1; [done|done|split; congruence].
Qed.

(** [machineScore] as a table.  It panics exactly on machines of
    different providers or regions; otherwise it is symmetric, negative exactly
    on incompatible machines, zero exactly when compatible machines share a
    known cloud ID, and at least 7 on every other compatible pair. *)
Theorem machineScore_table l r :
  (¬ sameRegion l r → machineScore l r = Panic "Invalid Provider or Region") ∧
  (sameRegion l r → machineScore l r = Ok (scoreOf l r)) ∧
  machineScore l r = machineScore r l ∧
  (sameRegion l r → (scoreOf l r < 0)%Z ↔ ¬ compatible l r) ∧
  (sameRegion l r → scoreOf l r = 0%Z ↔ compatible l r ∧ sameCloudID l r) ∧
  (sameRegion l r → compatible l r → ¬ sameCloudID l r → (7 ≤ scoreOf l r ≤ 10)%Z).
Proof.
  assert (∀ l r, ¬ sameRegion l r → machineScore l r = Panic "Invalid Provider or Region") as Hp.
  { intros l' r' Hn. unfold machineScore, sameRegion in *.
    destruct (decide (m_Provider l' = m_Provider r')), (decide (m_Region l' = m_Region r'));
      simpl_bd; simpl; tauto. }
  assert (∀ l r, sameRegion l r → sameRegion r l) as Hsym by (intros ?? []; done).
  split_and!; [apply Hp|intros; by apply scoreOf_spec| |..].
  - destruct (decide (m_Provider l = m_Provider r ∧ m_Region l = m_Region r)) as [Hr|Hr].
    + destruct (scoreOf_spec l r Hr) as [-> ->], (scoreOf_spec r l (Hsym _ _ Hr)) as [-> ->].
      rewrite (decide_ext (compatible l r) (compatible r l)), (decide_ext (sameCloudID l r) (sameCloudID r l)),
        (decide_ext (sameFloatingIP l r) (sameFloatingIP r l)), (decide_ext (sameRole l r) (sameRole r l));
        [done|..]; unfold compatible, sameCloudID, sameFloatingIP, sameRole; intuition congruence.
    + rewrite !Hp; [done| |done]. intros [? ?]. apply Hr. by split.
  - intros Hr. rewrite (proj2 (scoreOf_spec l r Hr)).
    repeat case_decide; split; intros; try lia; tauto.
  - apply scoreOf_zero.
  - intros Hr Hc Hn. rewrite (proj2 (scoreOf_spec l r Hr)). rewrite decide_True, decide_False by done.
    repeat case_decide; lia.
Qed.

(** a shared floating IP outranks matching roles: a pair that shares a
    floating IP while a role is unknown scores below (so is matched before) a
    pair whose known roles agree but which shares no floating IP. *)
Theorem machineScore_prefers_floating_ips l r l' r' :
  sameRegion l r → compatible l r → ¬ sameCloudID l r → sameFloatingIP l r → ¬ sameRole l r →
  sameRegion l' r' → compatible l' r' → ¬ sameCloudID l' r' → ¬ sameFloatingIP l' r' → sameRole l' r' →
  scoreOf l r = 8%Z ∧ scoreOf l' r' = 9%Z.
Proof.
  intros Hr Hc Hi Hf Hn Hr' Hc' Hi' Hf' Hn'.
  rewrite (proj2 (scoreOf_spec l r Hr)), (proj2 (scoreOf_spec l' r' Hr')).
  repeat first [rewrite decide_True by done|rewrite decide_False by done]. done.
Qed.

(** C21: [syncDBWithCloud] makes the database agree with the provider's
    listing.  Afterwards the region's rows carry exactly the listed machines,
    no other row or table changed, each row is either an old row of the region
    that keeps its ID, status, SSH keys, role and connection flag, or a fresh
    one; and when cloud IDs are distinct, a compatible row with the cloud ID of
    a listed machine is the row that is updated with it.  What a row carries of
    a listed machine is its provider, region, size, disk, floating IP,
    preemptibility, cloud ID and addresses. *)
Theorem syncDBWithCloud_follows_cloud `{MapOrder} cld view s cms :
  DbOK view s → MachineTable ∈ view → (∀ m, m ∈ cms → ours cld m) →
  wp (syncDBWithCloud cld view cms) s (λ _ s', wf s' ∧ only MachineTable s s' ∧
    cloudFacts <$> mine cld s' ≡ₚ cloudFacts <$> cms ∧ others cld s' ≡ₚ others cld s ∧
    (∀ m', m' ∈ mine cld s' →
       (∃ m, m ∈ mine cld s ∧ m_ID m' = m_ID m ∧ localFacts m' = localFacts m) ∨
       ((curID s < m_ID m')%Z ∧ localFacts m' = ("", [], None_, false))) ∧
    (distinctCloudIDs (mine cld s) → distinctCloudIDs cms →
     ∀ dbm cm, dbm ∈ mine cld s → cm ∈ cms → compatible dbm cm → sameCloudID dbm cm →
       ∃ m', tbl Machine s' !! m_ID dbm = Some m' ∧ cloudFacts m' = cloudFacts cm ∧ localFacts m' = localFacts dbm)).
Proof.
  intros Hok Hin Hours.
  assert (∀ m, m ∈ cms → inRegion cld m = true) as Hreg by (intros m Hm; by apply inRegion_spec, Hours).
  eapply wp_syncDBWithCloud; [done|done|done|].
  intros s' pairs Hst Hcs. destruct (mine_synced _ _ _ _ _ Hreg Hcs) as [Hmine Hoth].
  split_and!; [apply Hst|apply Hst| |done|..].
  - rewrite Hmine, <-(cs_all _ _ _ _ _ Hcs), <-!list_fmap_compose.
    apply Permutation_refl', list_fmap_ext. by intros ? [[] []].
  - intros m'. rewrite Hmine. intros ([dbm cm] & -> & Hp)%list_elem_of_fmap.
    destruct (cs_left _ _ _ _ _ Hcs _ _ Hp) as [[Hm _]|(i & -> & Hi)]; [left; by exists dbm|by right].
  - intros Hd1 Hd2 dbm cm Hdbm Hcm Hc Hid.
    pose proof (synced_same_id _ _ _ _ _ _ _ Hreg Hcs Hd1 Hd2 Hdbm Hcm Hc Hid) as Hp.
    exists (mergeCloudMachine (dbm, cm)). split; [|by destruct dbm, cm].
    change (tbl Machine s' !! rowID (mergeCloudMachine (dbm, cm)) = Some (mergeCloudMachine (dbm, cm))).
    apply elem_of_tbl; [apply Hst|].
    rewrite (cs_rows _ _ _ _ _ Hcs). apply elem_of_app. left. by apply list_elem_of_fmap_2.
Qed.

(** [syncDBWithBlueprint] splits the desired machines into those that run
    ([pairs]) and those to boot, and the region's rows into those that are
    wanted and those to stop.  Matched pairs are compatible, no machine is
    booted while a compatible one is stopped, matched rows get the blueprint's
    SSH keys and the connection status, stopped rows become "stopping", every
    machine to boot has a row of its own, and floating IPs are updated exactly
    on the matched machines that have a role and the wrong IP. *)
Theorem syncDBWithBlueprint_plan `{MapOrder} adminKey cld view s b :
  DbOK view s → MachineTable ∈ view → BlueprintTable ∈ view → vals (tbl Blueprint s) = [b] →
  wp (syncDBWithBlueprint adminKey cld view) s (λ res s', wf s' ∧ only MachineTable s s' ∧
    ∃ pairs missing extra zs,
      blueprint_synced cld (desiredMachines adminKey cld (bp_Machines (b_Blueprint b)))
        s s' res pairs missing extra zs).
Proof.
  intros Hok Hin HinB Hb. eapply wp_syncDBWithBlueprint; [done..|].
  intros res s' pairs missing extra zs Hst Hbs.
  split_and!; [apply Hst|apply Hst|]. by exists pairs, missing, extra, zs.
Qed.

(** The outcomes of a join. *)
Lemma joinAfterList_ok `{MapOrder} adminKey cld machines s :
  DbOK {[BlueprintTable; MachineTable]} s →
  (∀ b, vals (tbl Blueprint s) = [b] → cld_namespace cld = bp_Namespace (b_Blueprint b) →
     (∀ m, m ∈ machines → inRegion cld m = true) →
     wp (joinAfterList adminKey cld machines) s (λ r s', DbOK {[BlueprintTable; MachineTable]} s' ∧
       ∃ res, r = Val res ∧ join_plan adminKey cld machines b s s' res)) ∧
  (∀ b, vals (tbl Blueprint s) = [b] → cld_namespace cld ≠ bp_Namespace (b_Blueprint b) →
     wp (joinAfterList adminKey cld machines) s (λ r s', same s s' ∧
       r = Err "namespace change during a cloud run")) ∧
  (tbl Blueprint s = ∅ →
     wp (joinAfterList adminKey cld machines) s (λ r s', same s s' ∧ r = Err "no blueprints found")).
Proof.
  assert ({[BlueprintTable; MachineTable]} =@{gset string} list_to_set [BlueprintTable; MachineTable])
    as -> by set_solver.
  intros Hok.
  assert (∀ tn, tn ∈ [BlueprintTable; MachineTable] → is_Some (tables s !! tn)) as Htbl.
  { intros tn Htn. apply elem_of_dom. destruct Hok as [_ Hd]. set_solver. }
  unfold joinAfterList. split_and!.
  - intros b Hb Hns Hreg. apply wp_Run; [done|].
    eapply wp_joinTxn; [done|vm_decide|vm_decide|done|done|done|].
    intros res s1 Hok1 Hjp s2 Hs. split; [by eapply same_ok|]. exists res. split; [done|].
    by eapply join_plan_same.
  - intros b Hb Hns. apply wp_Run; [done|]. unfold joinTxn. wp_bind.
    eapply wp_GetBlueprint; [done|vm_decide|done|]. intros s1 Hs1. simpl_bd. wp_ret.
    intros s2 Hs2. split; [by eapply same_trans|done].
  - intros Hb. apply wp_Run; [done|]. unfold joinTxn. wp_bind.
    eapply wp_GetBlueprint_none; [done|vm_decide|done|]. intros s1 Hs1. wp_ret.
    intros s2 Hs2. split; [by eapply same_trans|done].
Qed.

(** C22: a join plans exactly what the blueprint asks for.  When the listing is of
    this region and the blueprint of this namespace, the transaction succeeds.
    Each machine of the blueprint for this provider and region with a known
    role is either kept, that is, a listed machine of its size and
    preemptibility, and of its disk and role as far as known, stays for it with
    the blueprint's SSH keys in its row, or it is in the list to boot, with the
    provider, region, size, disk (32 if none is given), keys, floating IP and
    role of the blueprint.  Each listed machine is either kept or in the list to
    stop; nothing is booted while a machine that would suit is stopped;
    floating IPs are updated exactly on the kept machines with a role and
    another floating IP; the ACLs are those of the blueprint (none when the
    region is empty); and no row of another region or table changes.  With another
    namespace, or no blueprint, nothing changes. *)
Theorem join_balances_machines `{MapOrder} adminKey cld machines s :
  DbOK {[BlueprintTable; MachineTable]} s →
  (∀ b, vals (tbl Blueprint s) = [b] → cld_namespace cld = bp_Namespace (b_Blueprint b) →
     (∀ m, m ∈ machines → ours cld m) →
     wp (joinAfterList adminKey cld machines) s (λ r s', DbOK {[BlueprintTable; MachineTable]} s' ∧
       ∃ res, r = Val res ∧ join_plan adminKey cld machines b s s' res)) ∧
  (∀ b, vals (tbl Blueprint s) = [b] → cld_namespace cld ≠ bp_Namespace (b_Blueprint b) →
     wp (joinAfterList adminKey cld machines) s (λ r s', same s s' ∧
       r = Err "namespace change during a cloud run")) ∧
  (tbl Blueprint s = ∅ →
     wp (joinAfterList adminKey cld machines) s (λ r s', same s s' ∧ r = Err "no blueprints found")).
Proof.
  intros Hok. destruct (joinAfterList_ok adminKey cld machines s Hok) as (Hj & ? & ?). split_and!; [|done..].
  intros b Hb Hns Hours. apply Hj; [done..|]. intros m Hm. by apply inRegion_spec, Hours.
Qed.

(** [desiredACLs] opens all ports to the administrators' subnets and to
    the Kelda daemon itself ("local"), and to the whole internet exactly the
    port ranges of the connections from the public label. *)
Theorem desiredACLs_exact bp a :
  a ∈ desiredACLs bp ↔
  (∃ cidr, (cidr ∈ bp_AdminACL bp ∨ cidr = "local") ∧ a = mk_ACL cidr 1 65535) ∨
  (∃ c, c ∈ bp_Connections bp ∧ PublicInternetLabel ∈ bpcn_From c ∧
     a = mk_ACL "0.0.0.0/0" (bpcn_MinPort c) (bpcn_MaxPort c)).
Proof. apply elem_of_desiredACLs. Qed.

(** ** Witnesses *)

Definition demo_cloud : cloud := mk_cloud "ns" Amazon "us-west-1".

(** A cloud machine as a provider lists it. *)
Definition demo_listed (cid ip : string) : Machine :=
  mk_Machine 0 Amazon "us-west-1" "m3.medium" 32 [] "" false cid ip ip "" None_ false.

(** The blueprint wants a master and a worker; the database knows the worker
    "i-1" and a machine of another region; the cloud runs "i-1" and "i-2". *)
Definition demo_cloud_blueprint : bpBlueprint :=
  mk_bpBlueprint [] [] [mk_bpConnection ["public"] ["web"] 80 80] []
    [mk_bpMachine Amazon "Master" "m3.large" 32 "us-west-1" ["key"] "" false;
     mk_bpMachine Amazon "Worker" "m3.medium" 0 "us-west-1" ["key"] "" false] [] ["1.2.3.4/32"] "ns".

Definition demo_cloud_db : store :=
  storeOf [RBlueprint (mk_Blueprint 1 demo_cloud_blueprint);
    RMachine (demo_machine 2 Worker "i-1");
    RMachine (mk_Machine 3 Google "us-east1-b" "n1" 32 [] "" false "g-1" "" "" "" Worker false)].

Definition demo_listing : list Machine := [demo_listed "i-1" "8.8.8.1"; demo_listed "i-2" "8.8.8.2"].

(** "i-1" keeps row 2, "i-2" is stopped, and a master is booted. *)
Example join_example :
  match joinAfterList "admin" demo_cloud demo_listing demo_cloud_db with
  | Ok (Val r, s) =>
    (m_CloudID <$> jr_terminate r, m_Role <$> jr_boot r, length (jr_acls r),
     (λ m, (m_ID m, m_CloudID m, m_Status m)) <$> mine demo_cloud s)
  | _ => ([], [], 0, [])
  end =
  (["i-2"], [Master], 3,
   [(5, "", Booting); (4, "i-2", Stopping); (2, "i-1", Connecting)]%Z).
Proof. vm_compute. reflexivity. Qed.

Lemma demo_listing_region m : m ∈ demo_listing → inRegion demo_cloud m = true.
Proof. unfold demo_listing. rewrite !elem_of_cons, elem_of_nil. intros [->|[->|[]]]; reflexivity. Qed.

Lemma demo_cloud_db_ok : DbOK {[BlueprintTable; MachineTable]} demo_cloud_db.
Proof. vm_decide. Qed.

Lemma machineScore_prefers_floating_ips_witness :
  let ip m := set_m_FloatingIP "1.1.1.1" m in
  scoreOf (ip (demo_machine 1 None_ "")) (ip (demo_machine 2 Worker "i-1")) = 8%Z ∧
  scoreOf (demo_machine 1 Worker "") (demo_machine 2 Worker "i-1") = 9%Z.
Proof.
  intros ip.
  apply machineScore_prefers_floating_ips; unfold ip, sameRegion; try vm_decide; split; reflexivity.
Defined.

(** Row 2 with a floating IP that the provider no longer lists. *)
Definition demo_stale_db : store :=
  storeOf [RBlueprint (mk_Blueprint 1 demo_cloud_blueprint);
    RMachine (set_m_FloatingIP "9.9.9.9" (demo_machine 2 Worker "i-1"));
    RMachine (mk_Machine 3 Google "us-east1-b" "n1" 32 [] "" false "g-1" "" "" "" Worker false)].

Lemma syncDBWithCloud_follows_cloud_witness :
  wp (syncDBWithCloud demo_cloud {[BlueprintTable; MachineTable]} demo_listing) demo_stale_db
    (λ _ s', (λ m, (m_Size m, m_FloatingIP m, m_CloudID m, m_PublicIP m, m_Role m)) <$> tbl Machine s' !! 2%Z =
        Some ("m3.medium", "", "i-1", "8.8.8.1", Worker) ∧
      m_CloudID <$> mine demo_cloud s' ≡ₚ ["i-1"; "i-2"]).
Proof.
  eapply wp_mono; [apply (syncDBWithCloud_follows_cloud demo_cloud {[BlueprintTable; MachineTable]} demo_stale_db demo_listing)|].
  - vm_decide.
  - vm_decide.
  - assert (Forall (ours demo_cloud) demo_listing) as Hall by (unfold ours; vm_decide). by apply Forall_forall.
  - intros [] s' (_ & _ & Hfacts & _ & _ & Hid). split.
    + destruct (Hid) with (dbm := set_m_FloatingIP "9.9.9.9" (demo_machine 2 Worker "i-1")) (cm := demo_listed "i-1" "8.8.8.1")
        as (m' & Hm' & Hc & Hl).
      * assert (Forall (λ a, Forall (λ b, sameCloudID a b → a = b) (mine demo_cloud demo_stale_db)) (mine demo_cloud demo_stale_db))
          as Hall by vm_decide. rewrite Forall_forall in Hall. setoid_rewrite Forall_forall in Hall. intros a b Ha Hb. by apply Hall.
      * assert (Forall (λ a, Forall (λ b, sameCloudID a b → a = b) demo_listing) demo_listing) as Hall by vm_decide.
        rewrite Forall_forall in Hall. setoid_rewrite Forall_forall in Hall. intros a b Ha Hb. by apply Hall.
      * vm_decide.
      * vm_decide.
      * vm_decide.
      * vm_decide.
      * change (tbl Machine s' !! 2%Z = Some m') in Hm'. rewrite Hm'. destruct m'. unfold cloudFacts, localFacts in *.
        simpl in *. by simplify_eq.
    + apply (fmap_Permutation (λ x, x.1.1.2)) in Hfacts. rewrite <-!list_fmap_compose in Hfacts. exact Hfacts.
Defined.

Lemma syncDBWithBlueprint_plan_witness :
  wp (syncDBWithBlueprint "admin" demo_cloud {[BlueprintTable; MachineTable]}) demo_cloud_db
    (λ _ s', wf s' ∧ only MachineTable demo_cloud_db s').
Proof.
  eapply wp_mono; [apply (syncDBWithBlueprint_plan "admin" demo_cloud _ _
    (mk_Blueprint 1 demo_cloud_blueprint) demo_cloud_db_ok); vm_decide|].
  intros res s' (? & ? & _). by split.
Defined.

Lemma join_balances_machines_witness :
  wp (joinAfterList "admin" demo_cloud demo_listing) demo_cloud_db (λ r s',
    ∃ res, r = Val res ∧
      join_plan "admin" demo_cloud demo_listing (mk_Blueprint 1 demo_cloud_blueprint) demo_cloud_db s' res ∧
      ∃ m, jr_boot res = [m] ∧ m_Role m = "Master" ∧ m_Size m = "m3.large" ∧ m_SSHKeys m = ["key"; "admin"] ∧
      m_CloudID <$> jr_terminate res = ["i-2"]).
Proof.
  destruct (join_balances_machines "admin" demo_cloud demo_listing demo_cloud_db demo_cloud_db_ok)
    as (Hj & _ & _).
  pose proof (Hj (mk_Blueprint 1 demo_cloud_blueprint) ltac:(vm_compute; reflexivity) eq_refl) as Hrun.
  assert (Forall (ours demo_cloud) demo_listing) as Hours by (unfold ours; vm_decide).
  specialize (Hrun (proj1 (Forall_forall _ _) Hours)).
  destruct (joinAfterList "admin" demo_cloud demo_listing demo_cloud_db) as [[r s']|] eqn:Hr; unfold wp in *; rewrite Hr in *; [|done].
  destruct Hrun as (_ & res & -> & Hplan). exists res. split_and!; [done..|].
  assert (match joinAfterList "admin" demo_cloud demo_listing demo_cloud_db with
    | Ok (Val res, _) => Some (jr_boot res, m_CloudID <$> jr_terminate res) | _ => None end =
    Some ([mk_Machine 5 Amazon "us-west-1" "m3.large" 32 ["key"; "admin"] "" false "" "" "" Booting Master false], ["i-2"]))
    as Hval by (vm_compute; reflexivity).
  rewrite Hr in Hval. injection Hval as -> ->. clear. eexists. split_and!; reflexivity.
Defined.
