(* ===== verification/Backoff.v ===== *)
(** * util.BackoffWaitFor: waiting with a growing interval

    [BackoffWaitFor] of [src/util/util.go], over any world with a clock: the
    loop, when it ends, and that it ends. *)

From S2P Require Import Prelude.

Definition Second : Z := 1000000000.
Definition Minute : Z := 60 * Second.

(** [time.Now] and [time.Sleep] *)
Class Clock (W : Type) := { now : W → Z; sleep : Z → W → W }.
(** Sleeping takes at least as long as asked. *)
Class ClockLaws (W : Type) `{Clock W} := { sleep_ok : ∀ d w, (now w + d ≤ now (sleep d w))%Z }.

Section backoff.
Context {W : Type} `{Clock W}.

(** The loop is not bounded by its text, so it takes fuel; [None] is a loop
    that has not returned yet. *)
Fixpoint backoffLoop (fuel : nat) (pred : M W bool) (cap deadline interval : Z)
    : M W (option (result unit)) :=
  match fuel with
  | 0 => mret None
  | S fuel' =>
    let! ok := pred in
    if (ok : bool) then mret (Some (Val ()))
    else
      let! w := get in
      if bool_decide (deadline < now w)%Z then mret (Some (Err "timed out"))
      else
        modify (sleep interval) ;;;
        let interval := (interval * 2)%Z in
        backoffLoop fuel' pred cap deadline
          (if bool_decide (cap < interval)%Z then cap else interval)
  end.

Definition BackoffWaitFor (fuel : nat) (pred : M W bool) (cap timeout : Z)
    : M W (option (result unit)) :=
  let interval := Second in
  let! w := get in
  backoffLoop fuel pred cap (now w + timeout)%Z interval.

End backoff.

(** ** Waiting *)

Section backoff_spec.
Context {W : Type} `{ClockLaws W}.

(** Code that returns and does not turn the clock back. *)
Definition forward {A} (m : M W A) : Prop := ∀ w, wp m w (λ _ w', (now w ≤ now w')%Z).

Lemma forward_ret {A} (a : A) : forward (mret a).
Proof. intros w. wp_ret. lia. Qed.

Lemma forward_bind {A B} (m : M W A) (f : A → M W B) :
  forward m → (∀ a, forward (f a)) → forward (m ≫= f).
Proof.
  intros Hm Hf w. wp_bind. eapply wp_mono; [apply Hm|]. intros a w' Hw.
  eapply wp_mono; [apply Hf|]. intros b w'' Hw'. simpl in *. lia.
Qed.

(** How a wait ends: the predicate held last, or the deadline has passed and it did not. *)
Definition waited (pred : M W bool) (deadline : Z) (r : option (result unit)) (w' : W) : Prop :=
  (r = Some (Val ()) ∧ ∃ w1, pred w1 = Ok (true, w')) ∨
  (r = Some (Err "timed out") ∧ (deadline < now w')%Z ∧ ∃ w1, pred w1 = Ok (false, w')).

Lemma backoffLoop_ok fuel pred cap deadline interval w :
  forward pred → (Second ≤ cap)%Z → (Second ≤ interval)%Z → (1 ≤ fuel) →
  (deadline < now w + (Z.of_nat fuel - 1) * Second)%Z →
  wp (backoffLoop fuel pred cap deadline interval) w (waited pred deadline).
Proof.
  intros Hpred Hcap. revert interval w.
  induction fuel as [|fuel IH]; intros interval w Hint Hf Hdl; [lia|]. simpl. wp_bind.
  destruct (wp_run _ _ _ (Hpred w)) as (ok & w1 & Hrun & Hnow).
  apply (wp_of_run _ _ _ _ _ Hrun). destruct ok; [wp_ret; left; eauto|].
  wp_bind. change (wp get w1 ?Q) with (Q w1 w1). simpl.
  case_bool as [Hlate|Hearly]; [wp_ret; right; eauto|].
  wp_bind. change (wp (modify (sleep interval)) w1 ?Q) with (Q () (sleep interval w1)). simpl.
  pose proof (sleep_ok interval w1). unfold Second in *.
  apply IH; [case_bool; lia|lia|lia].
Qed.

Lemma BackoffWaitFor_ok fuel pred cap timeout w :
  forward pred → (Second ≤ cap)%Z → (1 ≤ fuel) → (timeout < (Z.of_nat fuel - 1) * Second)%Z →
  wp (BackoffWaitFor fuel pred cap timeout) w (waited pred (now w + timeout)).
Proof.
  intros. unfold BackoffWaitFor. wp_bind. change (wp get w ?Q) with (Q w w). simpl.
  apply backoffLoop_ok; [done|done|lia|done|lia].
Qed.

(** What the predicate and sleeping keep, the wait keeps. *)
Lemma BackoffWaitFor_inv (I : W → Prop) fuel pred cap timeout w :
  I w → (∀ w, I w → wp pred w (λ _ w', I w')) → (∀ d w, I w → I (sleep d w)) →
  wp (BackoffWaitFor fuel pred cap timeout) w (λ _ w', I w').
Proof.
  intros Hw Hpred Hsleep. unfold BackoffWaitFor. wp_bind. change (wp get w ?Q) with (Q w w). simpl.
  generalize (now w + timeout)%Z Second. intros deadline interval. revert interval w Hw.
  induction fuel as [|fuel IH]; intros interval w Hw; simpl; [by wp_ret|].
  wp_bind. eapply wp_mono; [by apply Hpred|]. intros [] w1 H1; [by wp_ret|].
  wp_bind. change (wp get w1 ?Q) with (Q w1 w1). simpl. case_bool; [by wp_ret|].
  wp_bind. change (wp (modify (sleep interval)) w1 ?Q) with (Q () (sleep interval w1)). simpl. auto.
Qed.
End backoff_spec.

(** ** Properties *)

(** C24: [BackoffWaitFor] always returns.  If the predicate itself returns,
    the clock does not run backwards, and sleeping takes at least as long as
    asked, then a loop with one second of fuel per second of [timeout] (plus
    two) ends: with nil right after the predicate held, or with an error when
    the deadline has passed and the predicate was still false. *)
Theorem BackoffWaitFor_returns {W} `{ClockLaws W} (fuel : nat) (pred : M W bool)
    (cap timeout : Z) (w : W) :
  forward pred → (Second ≤ cap)%Z → (1 ≤ fuel) → (timeout < (Z.of_nat fuel - 1) * Second)%Z →
  wp (BackoffWaitFor fuel pred cap timeout) w (waited pred (now w + timeout)).
Proof. apply BackoffWaitFor_ok. Qed.

(** A clock that only sleeping moves. *)
#[local] Instance demoClock : Clock Z := { now t := t; sleep d t := (t + d)%Z }.
#[local] Instance demoClock_laws : ClockLaws Z.
Proof. split. intros. simpl. lia. Qed.

Lemma BackoffWaitFor_returns_witness :
  wp (BackoffWaitFor 4 (mret false) Second (2 * Second)) 0%Z
    (waited (mret false) (now 0%Z + 2 * Second)).
Proof.
  apply (BackoffWaitFor_returns (W := Z) 4 (mret false) Second (2 * Second) 0%Z).
  - apply forward_ret.
  - done.
  - lia.
  - done.
Defined.
