(* ===== verification/Cloud.v ===== *)
(** * Package cloud, part 2: driving a cloud provider

    Models [src/cloud/cloud.go] (one round, [runOnce]).  The providers are behind a Go interface; here they are
    the class [CloudWorld] over an abstract world [W] that also has the clock
    and the lookup of the daemon's own IP address. *)

From S2P Require Import Prelude GoStrings Join Blueprint DbRows Db DbSpec DbTxn DbFrame CloudJoin Backoff.

(** The [provider] interface, [newProvider] for this cloud, [time.Now],
    [time.Sleep] and [util.MyIP].  An [error] result is [result ()]. *)
Class CloudWorld (W : Type) := {
  newProvider : cloud → M W (result unit);
  List : cloud → M W (result (list Machine));
  Boot : cloud → list Machine → M W (list string * result unit);
  StopMachines : cloud → list Machine → M W (result unit);
  SetACLs : cloud → list ACL → M W (result unit);
  UpdateFloatingIPs : cloud → list Machine → M W (result unit);
  Cleanup : cloud → M W (result unit);
  myIP : M W (result string);
  cw_clock :: Clock W;
}.

(** What the code relies on: the calls return, time does not run backwards, and
    sleeping takes at least as long as asked. *)
Class CloudWorldLaws (W : Type) `{CloudWorld W} := {
  newProvider_ok : ∀ c w, wp (newProvider c) w (λ _ w', (now w ≤ now w')%Z);
  List_ok : ∀ c w, wp (List c) w (λ _ w', (now w ≤ now w')%Z);
  Boot_ok : ∀ c ms w, wp (Boot c ms) w (λ _ w', (now w ≤ now w')%Z);
  StopMachines_ok : ∀ c ms w, wp (StopMachines c ms) w (λ _ w', (now w ≤ now w')%Z);
  SetACLs_ok : ∀ c acls w, wp (SetACLs c acls) w (λ _ w', (now w ≤ now w')%Z);
  UpdateFloatingIPs_ok : ∀ c ms w, wp (UpdateFloatingIPs c ms) w (λ _ w', (now w ≤ now w')%Z);
  Cleanup_ok : ∀ c w, wp (Cleanup c) w (λ _ w', (now w ≤ now w')%Z);
  myIP_ok : ∀ w, wp myIP w (λ _ w', (now w ≤ now w')%Z);
  cw_clock_laws :: ClockLaws W;
}.

Section world.
Context {W : Type} `{CloudWorld W}.

(** ** Updating the provider *)

Definition sanitizeMachine (m : Machine) : Machine :=
  mk_Machine 0 (m_Provider m) (m_Region m) (m_Size m) (m_DiskSize m) (m_SSHKeys m) (m_FloatingIP m)
    (m_Preemptible m) (m_CloudID m) "" "" "" (m_Role m) false.
Definition sanitizeMachines (machines : list Machine) : list Machine := sanitizeMachine <$> machines.

(** The three checks of the wait predicate on a successful listing. *)
Definition cloudReady (bootIDs : list string) (terminate updateIPs machines : list Machine) : bool :=
  let ids := foldl (λ ids m, <[m_CloudID m := m]> ids) (∅ : gmap string Machine) machines in
  forallb (λ id, bool_decide (is_Some (ids !! id))) bootIDs &&
  forallb (λ m, bool_decide (ids !! m_CloudID m = None)) terminate &&
  forallb (λ jrm, match ids !! m_CloudID jrm with
                  | Some m => bool_decide (m_FloatingIP m = m_FloatingIP jrm)
                  | None => true
                  end) updateIPs.

Definition waitPred (cld : cloud) (bootIDs : list string) (terminate updateIPs : list Machine)
    : M W bool :=
  let! r := List cld in
  match r with
  | Err _ => mret true
  | Val machines => mret (cloudReady bootIDs terminate updateIPs machines)
  end.

(** An action that is skipped on no machines; on an error there is nothing to wait for. *)
Definition tryMachines (act : list Machine → M W (result unit)) (ms : list Machine)
    : M W (list Machine) :=
  if bool_decide (0 < length ms) then
    let! r := act (sanitizeMachines ms) in
    match r with Val _ => mret ms | Err _ => mret [] end
  else mret ms.

(** Fuel for five minutes of waiting: each round sleeps a second or more. *)
Definition waitFuel : nat := 302.

Definition updateCloud (cld : cloud) (jr : joinResult) : M W (option (result unit)) :=
  let! bootIDs :=
    (if bool_decide (0 < length (jr_boot jr))
     then let! r := Boot cld (sanitizeMachines (jr_boot jr)) in mret r.1
     else mret []) in
  let! terminate := tryMachines (StopMachines cld) (jr_terminate jr) in
  let! updateIPs := tryMachines (UpdateFloatingIPs cld) (jr_updateIPs jr) in
  BackoffWaitFor waitFuel (waitPred cld bootIDs terminate updateIPs) (10 * Second) (5 * Minute).

(** The loop of [syncACLs]; [None] is its early return. *)
Fixpoint resolveACLs (unresolvedACLs : list ACL) : M W (option (list ACL)) :=
  match unresolvedACLs with
  | [] => mret (Some [])
  | acl :: rest =>
    let! resolved :=
      (if bool_decide (CidrIP acl = "local") then
         let! ip := myIP in
         match ip with
         | Err _ => mret None
         | Val ip => mret (Some (mk_ACL (ip +:+ "/32") (acl_MinPort acl) (acl_MaxPort acl)))
         end
       else mret (Some acl)) in
    match resolved with
    | None => mret None
    | Some acl =>
      let! acls := resolveACLs rest in
      mret (match acls with Some acls => Some (acl :: acls) | None => None end)
    end
  end.

Definition syncACLs (cld : cloud) (unresolvedACLs : list ACL) : M W unit :=
  let! acls := resolveACLs unresolvedACLs in
  match acls with
  | None => mret ()
  | Some acls => let! _ := SetACLs cld acls in mret ()
  end.
End world.

(** ** One round *)

(** [hasProvider]: whether [cld.provider] is set. *)
Record cloudState (W : Type) := mk_cloudState {
  cs_store : store;
  cs_world : W;
  hasProvider : bool;
}.
Arguments mk_cloudState {_} _ _ _.
Arguments cs_store {_} _.
Arguments cs_world {_} _.
Arguments hasProvider {_} _.

Definition onStore {W A} (m : M store A) : M (cloudState W) A := λ st,
  match m (cs_store st) with
  | Ok (a, s) => Ok (a, mk_cloudState s (cs_world st) (hasProvider st))
  | Panic e => Panic e
  end.

Definition onWorld {W A} (m : M W A) : M (cloudState W) A := λ st,
  match m (cs_world st) with
  | Ok (a, w) => Ok (a, mk_cloudState (cs_store st) w (hasProvider st))
  | Panic e => Panic e
  end.

Definition setProvider {W} : M (cloudState W) unit :=
  modify (λ st, mk_cloudState (cs_store st) (cs_world st) true).

Section runOnce.
Context `{MapOrder} {W : Type} `{CloudWorld W} (adminKey : string) (cld : cloud).

Definition usedByCurrentBlueprint : M store bool :=
  let! bp := Run [BlueprintTable] GetBlueprint in
  match bp with
  | Err _ => mret true
  | Val b => mret (bool_decide (0 < length (desiredMachines adminKey cld (bp_Machines (b_Blueprint b)))))
  end.

(** The first block of [runOnce]: [Some d] when it returns [d] early. *)
Definition initProvider : M (cloudState W) (option Z) :=
  let! st := get in
  if hasProvider st then mret None
  else
    let! r := onWorld (newProvider cld) in
    match r with
    | Err _ =>
      let! used := onStore usedByCurrentBlueprint in
      mret (Some (if (used : bool) then 30 * Second else 1 * Minute)%Z)
    | Val _ => setProvider ;;; mret None
    end.

Definition joinImpl : M (cloudState W) (result joinResult) :=
  let! machines := onWorld (List cld) in
  match machines with
  | Err e => mret (Err e)
  | Val machines => onStore (joinAfterList adminKey cld machines)
  end.

Definition runOnce : M (cloudState W) Z :=
  let! early := initProvider in
  match early with
  | Some d => mret d
  | None =>
    let! jr := joinImpl in
    match jr with
    | Err _ => mret (30 * Second)%Z
    | Val jr =>
      if negb (jr_isActive jr) then
        let! _ := onWorld (Cleanup cld) in
        mret (5 * Minute)%Z
      else if bool_decide (length (jr_boot jr) = 0 ∧ length (jr_terminate jr) = 0 ∧
                           length (jr_updateIPs jr) = 0) then
        onWorld (syncACLs cld (jr_acls jr)) ;;;
        mret (30 * Second)%Z
      else
        let! _ := onWorld (updateCloud cld jr) in
        mret (1 * Second)%Z
    end
  end.
End runOnce.

(** [validRegionsImpl] and the clouds [startClouds] starts for a namespace. *)
Definition validRegions (p : string) : outcome (list string) :=
  if bool_decide (p = Amazon) then Ok ["us-east-1"; "ap-southeast-2"; "us-west-1"; "us-west-2"]
  else if bool_decide (p = Google) then Ok ["us-central1-a"; "us-east1-b"; "europe-west1-b"]
  else if bool_decide (p = DigitalOcean) then Ok ["nyc1"; "nyc2"; "lon1"; "sfo1"; "sfo2"]
  else if bool_decide (p = Vagrant) then Ok [""]
  else Panic "Unimplemented".

Fixpoint startCloudsFor (ns : string) (ps : list string) : outcome (list cloud) :=
  match ps with
  | [] => Ok []
  | p :: ps =>
    let! rs := validRegions p in
    let! rest := startCloudsFor ns ps in
    Ok ((mk_cloud ns p <$> rs) ++ rest)
  end.
Definition startClouds (ns : string) : outcome (list cloud) := startCloudsFor ns AllProviders.

(** ** Waiting *)

Section world_spec.
Context {W : Type} `{CloudWorldLaws W}.

Lemma forward_List cld : forward (List cld).
Proof. intros w. apply List_ok. Qed.

Lemma forward_waitPred cld ids t u : forward (waitPred cld ids t u).
Proof.
  apply forward_bind; [apply forward_List|]. intros [ms|e]; apply forward_ret.
Qed.

Lemma forward_tryMachines act ms : (∀ ms, forward (act ms)) → forward (tryMachines act ms).
Proof.
  intros Ha. unfold tryMachines. case_bool; [|apply forward_ret].
  apply forward_bind; [done|]. intros []; apply forward_ret.
Qed.

(** [updateCloud] always returns, having seen its changes or timed out. *)
Lemma updateCloud_ok cld jr w :
  wp (updateCloud cld jr) w (λ r w', r = Some (Val ()) ∨ r = Some (Err "timed out")).
Proof.
  unfold updateCloud.
  assert (forward (if bool_decide (0 < length (jr_boot jr))
     then let! r := Boot cld (sanitizeMachines (jr_boot jr)) in mret r.1
     else mret [])) as Hboot.
  { case_bool; [|apply forward_ret]. apply forward_bind; [intros ?; apply Boot_ok|].
    intros a. apply forward_ret. }
  wp_bind. eapply wp_mono; [apply Hboot|]. intros ids w1 _. wp_bind.
  eapply wp_mono; [apply (forward_tryMachines (StopMachines cld)); intros ??; apply StopMachines_ok|].
  intros t w2 _. wp_bind.
  eapply wp_mono; [apply (forward_tryMachines (UpdateFloatingIPs cld)); intros ??; apply UpdateFloatingIPs_ok|].
  intros u w3 _. eapply wp_mono; [apply BackoffWaitFor_ok|].
  - apply forward_waitPred.
  - done.
  - unfold waitFuel. lia.
  - done.
  - intros r w' [[-> _]|[-> _]]; auto.
Qed.

Lemma forward_resolveACLs acls : forward (resolveACLs acls).
Proof.
  induction acls as [|a acls IH]; simpl; [apply forward_ret|].
  apply forward_bind.
  - case_bool; [|apply forward_ret]. apply forward_bind; [intros ?; apply myIP_ok|].
    intros []; apply forward_ret.
  - intros [a'|]; [|apply forward_ret]. apply forward_bind; [done|]. intros ?. apply forward_ret.
Qed.

Lemma forward_syncACLs cld acls : forward (syncACLs cld acls).
Proof.
  apply forward_bind; [apply forward_resolveACLs|]. intros [l|]; [|apply forward_ret].
  apply forward_bind; [intros ?; apply SetACLs_ok|]. intros ?. apply forward_ret.
Qed.
End world_spec.

(** ** A round is safe *)

Section round.
Context `{MapOrder} {W : Type} `{CloudWorldLaws W} (adminKey : string) (cld : cloud).
Implicit Types st : cloudState W.

Lemma wp_onStore {A} (m : M store A) st (Q : A → cloudState W → Prop) :
  wp m (cs_store st) (λ a s, Q a (mk_cloudState s (cs_world st) (hasProvider st))) →
  wp (onStore m) st Q.
Proof. unfold wp, onStore. by destruct (m (cs_store st)) as [[a s]|]. Qed.

Lemma wp_onWorld {A} (m : M W A) st (Q : A → cloudState W → Prop) :
  wp m (cs_world st) (λ a w, Q a (mk_cloudState (cs_store st) w (hasProvider st))) →
  wp (onWorld m) st Q.
Proof. unfold wp, onWorld. by destruct (m (cs_world st)) as [[a w]|]. Qed.

(** The database before and after a round: usable, other regions and tables as they were. *)
Definition round_safe (s s' : store) : Prop :=
  DbOK {[BlueprintTable; MachineTable]} s' ∧ only MachineTable s s' ∧
  (∀ m, inRegion cld m = false → m ∈ vals (tbl Machine s') ↔ m ∈ vals (tbl Machine s)).

Lemma same_round_safe s s' : DbOK {[BlueprintTable; MachineTable]} s → same s s' → round_safe s s'.
Proof.
  intros Hok Hs. split_and!; [by eapply same_ok|by apply same_only|]. intros m _.
  by rewrite (same_tbl _ _ Hs).
Qed.

(** There is one blueprint or none. *)
Definition one_blueprint (s : store) : Prop :=
  tbl Blueprint s = ∅ ∨ ∃ b, vals (tbl Blueprint s) = [b].

Lemma wp_usedByCurrentBlueprint s Q :
  DbOK {[BlueprintTable; MachineTable]} s → one_blueprint s →
  (∀ b s', same s s' → Q b s') → wp (usedByCurrentBlueprint adminKey cld) s Q.
Proof.
  intros [Hwf Hd] Hb HQ. unfold usedByCurrentBlueprint. wp_bind.
  assert (DbOK (list_to_set [BlueprintTable]) s) as Hok by (split; [done|set_solver]).
  apply wp_Run.
  { intros tn Hin. apply elem_of_dom. set_solver. }
  destruct Hb as [Hb|[b Hb]].
  - apply wp_GetBlueprint_none; [done|vm_decide|done|]. intros s1 Hs1 s2 Hs2. wp_ret.
    apply HQ. by eapply same_trans.
  - eapply wp_GetBlueprint; [done|vm_decide|exact Hb|]. intros s1 Hs1 s2 Hs2. wp_ret.
    apply HQ. by eapply same_trans.
Qed.

Lemma wp_joinAfterList machines s Q :
  DbOK {[BlueprintTable; MachineTable]} s → one_blueprint s →
  (∀ m, m ∈ machines → inRegion cld m = true) →
  (∀ r s', round_safe s s' → Q r s') → wp (joinAfterList adminKey cld machines) s Q.
Proof.
  intros Hok Hb Hreg HQ.
  destruct (joinAfterList_ok adminKey cld machines s Hok) as (Hj & Hns & Hno).
  destruct Hb as [Hb|[b Hb]].
  - eapply wp_mono; [by apply Hno|]. intros r s' [Hs _]. by apply HQ, same_round_safe.
  - destruct (decide (cld_namespace cld = bp_Namespace (b_Blueprint b))) as [Hn|Hn].
    + eapply wp_mono; [by eapply Hj|]. intros r s' (Hok' & res & -> & Hjp).
      apply HQ. split_and!; [done|apply Hjp|]. intros m Hm. apply (jp_others _ _ _ _ _ _ _ Hjp). unfold ours.
      rewrite <-inRegion_spec. congruence.
    + eapply wp_mono; [by eapply Hns|]. intros r s' [Hs _]. by apply HQ, same_round_safe.
Qed.

Lemma wp_initProvider st Q :
  DbOK {[BlueprintTable; MachineTable]} (cs_store st) → one_blueprint (cs_store st) →
  (∀ d st', same (cs_store st) (cs_store st') →
     (d = None ∧ hasProvider st' = true ∨ d = Some (30 * Second)%Z ∨ d = Some (1 * Minute)%Z) →
     Q d st') →
  wp (initProvider adminKey cld) st Q.
Proof.
  intros Hok Hb HQ. unfold initProvider. wp_bind. change (wp get st ?Q) with (Q st st). simpl.
  destruct (hasProvider st) eqn:Hp; [wp_ret; apply HQ; auto with kelda|].
  wp_bind. apply wp_onWorld. eapply wp_mono; [apply newProvider_ok|]. intros [[]|e] w _.
  - wp_bind. wp_ret. by apply HQ; [|left].
  - wp_bind. apply wp_onStore. apply wp_usedByCurrentBlueprint; [done|done|].
    intros used s' Hs. wp_ret. apply HQ; [done|]. destruct used; auto.
Qed.

Lemma wp_runOnce st Q :
  listsOurs cld (List cld) → DbOK {[BlueprintTable; MachineTable]} (cs_store st) → one_blueprint (cs_store st) →
  (∀ d st', round_safe (cs_store st) (cs_store st') →
     d ∈ [1 * Second; 30 * Second; 1 * Minute; 5 * Minute]%Z → Q d st') →
  wp (runOnce adminKey cld) st Q.
Proof.
  intros Hlists Hok Hb HQ. unfold runOnce. wp_bind. apply wp_initProvider; [done|done|].
  intros early st1 Hs1 Hearly.
  destruct early as [d|].
  { wp_ret. apply HQ; [by apply same_round_safe|]. destruct Hearly as [[? _]|[|]]; simplify_eq; set_solver. }
  wp_bind. unfold joinImpl. wp_bind. apply wp_onWorld.
  pose proof (List_ok cld (cs_world st1)) as Hl. pose proof (Hlists (cs_world st1)) as Hms. unfold wp in Hl |- *.
  destruct (List cld (cs_world st1)) as [[[ms|e] w1]|]; [| |done].
  2:{ wp_ret. wp_ret. apply HQ; [by apply same_round_safe|set_solver]. }
  apply wp_onStore. apply wp_joinAfterList; [by eapply same_ok| | |].
  { unfold one_blueprint. simpl. by rewrite (same_tbl _ _ Hs1). }
  { intros m Hm. by apply inRegion_spec, Hms. }
  simpl. intros r s2 Hsafe.
  assert (round_safe (cs_store st) s2) as Hsafe2.
  { destruct Hsafe as (? & ? & Ho). split_and!; [done|eapply only_trans; [by apply same_only|done]|].
    intros m Hm. by rewrite (Ho m Hm), (same_tbl _ _ Hs1). }
  destruct r as [jr|e]; [|wp_ret; apply HQ; [done|set_solver]].
  destruct (jr_isActive jr); simpl.
  2:{ wp_bind. apply wp_onWorld. eapply wp_mono; [apply Cleanup_ok|]. intros ? w2 _. wp_ret.
      apply HQ; [done|set_solver]. }
  case_bool.
  - wp_bind. apply wp_onWorld. eapply wp_mono; [apply forward_syncACLs|]. intros ? w2 _. wp_ret.
    apply HQ; [done|set_solver].
  - wp_bind. apply wp_onWorld. eapply wp_mono; [apply updateCloud_ok|]. intros ? w2 _. wp_ret.
    apply HQ; [done|set_solver].
Qed.
End round.

(** ** Properties *)


(** the clouds [startClouds] starts do not interfere: a machine belongs to
    the region of at most one of them, so (with [runOnce_safe]) no two of them write the
    same row. *)
Theorem startClouds_disjoint ns :
  ∃ cs, startClouds ns = Ok cs ∧ length cs = 13 ∧
    ∀ c1 c2 m, c1 ∈ cs → c2 ∈ cs → inRegion c1 m = true → inRegion c2 m = true → c1 = c2.
Proof.
  eexists. split; [vm_compute; reflexivity|]. split; [done|].
  intros [n1 p1 r1] [n2 p2 r2] m H1 H2 [Hp1 Hr1]%inRegion_spec [Hp2 Hr2]%inRegion_spec. simpl in *.
  assert (n1 = ns ∧ n2 = ns) as [-> ->].
  { split; [clear -H1; rename H1 into Hc|clear -H2; rename H2 into Hc];
      repeat (apply elem_of_cons in Hc as [Hc|Hc]; [by simplify_eq|]); by apply elem_of_nil in Hc. }
  congruence.
Qed.

(** ** A simulated cloud

    Boots and stops take effect at once; used to run the model and to show that
    the laws can hold. *)
Record simWorld := mk_simWorld {
  sw_machines : list Machine;
  sw_acls : list ACL;
  sw_clock : Z;
  sw_next : nat;
}.

Definition simBoot (ms : list Machine) (w : simWorld) : outcome ((list string * result unit) * simWorld) :=
  let ids := (λ i, "i-" +:+ pretty (sw_next w + i)) <$> seq 0 (length ms) in
  let run (id : string) (m : Machine) :=
    mk_Machine 0 (m_Provider m) (m_Region m) (m_Size m) (m_DiskSize m) [] "" (m_Preemptible m)
      id "8.8.8.8" "10.1.1.1" "" None_ false in
  Ok ((ids, Val ()), mk_simWorld (sw_machines w ++ zip_with run ids ms) (sw_acls w)
    (sw_clock w + Second) (sw_next w + length ms)).

#[export] Instance sim_CloudWorld : CloudWorld simWorld := {
  newProvider c := mret (Val ());
  List c w := Ok (Val (filter (λ m, inRegion c m = true) (sw_machines w)), w);
  Boot c ms := simBoot ms;
  StopMachines c ms w := Ok (Val (),
    mk_simWorld (filter (λ m, m_CloudID m ∉ m_CloudID <$> ms) (sw_machines w)) (sw_acls w)
      (sw_clock w + Second) (sw_next w));
  SetACLs c acls w := Ok (Val (), mk_simWorld (sw_machines w) acls (sw_clock w) (sw_next w));
  UpdateFloatingIPs c ms w := Ok (Err "not supported", w);
  Cleanup c := mret (Val ());
  myIP := mret (Val "5.5.5.5");
  cw_clock := {| now w := sw_clock w;
    sleep d w := mk_simWorld (sw_machines w) (sw_acls w) (sw_clock w + d) (sw_next w) |};
}.

#[export] Instance sim_laws : CloudWorldLaws simWorld.
Proof.
  split; [intros; unfold wp; simpl; try (unfold Second; lia)..|split; intros; simpl; lia].
Qed.
Lemma sim_lists cld : listsOurs (W := simWorld) cld (List cld).
Proof. intros w m [Hm _]%list_elem_of_filter. by apply inRegion_spec. Qed.

(** Two rounds: the first boots the master and stops "i-2", the second picks
    up the result and installs the ACLs. *)
Definition demo_state : cloudState simWorld :=
  mk_cloudState demo_cloud_db (mk_simWorld demo_listing [] 0 7) false.

Example runOnce_example :
  match (let! d1 := runOnce "admin" demo_cloud in let! d2 := runOnce "admin" demo_cloud in
         mret (d1, d2)) demo_state with
  | Ok ((d1, d2), st) =>
    (d1, d2, m_CloudID <$> sw_machines (cs_world st), length (sw_acls (cs_world st)))
  | Panic _ => (0%Z, 0%Z, [], 0)
  end = ((1 * Second)%Z, (30 * Second)%Z, ["i-1"; "i-7"], 3).
Proof. vm_compute. reflexivity. Qed.

