(* ===== verification/CloudLoop.v ===== *)
(** * Package cloud, part 3: the goroutines

    [Run] of [src/cloud/cloud.go] watches the namespace of the blueprint and starts
    a goroutine per provider and region for it, after telling those of the old namespace to stop;
    [cloud.run] repeats [runOnce] whenever the database or a timer asks for it.
    Both are step relations at the grain of channel operations, interleaved with
    each other and with changes of the database by anybody. *)

From S2P Require Import Prelude GoStrings Join Blueprint DbRows Db DbSpec DbTxn CloudJoin Cloud.

(** ** One cloud *)

(** Where [cloud.run] is: in [conn.Trigger] before and after the trigger is in the tables (the first
    tick is sent then); about to call [runOnce]; in it; in the first, second and third [select] of
    the loop; returned. *)
Inductive phase := Registering | Sending | Starting | Rounding | Selecting | Draining | Checking | Returned.
#[export] Instance phase_eq_dec : EqDecision phase.
Proof. solve_decision. Defined.

(** A goroutine: its cloud, its stop channel, whether its [dbTicker] holds a tick, the version of
    the tables when its last round began, and how many rounds it began after its stop channel was closed. *)
Record cthread := mk_cthread {
  ct_cloud : cloud; ct_stop : nat; ct_phase : phase; ct_tick : bool; ct_seen : nat; ct_late : nat;
}.
Definition goto (p : phase) (t : cthread) : cthread := mk_cthread (ct_cloud t) (ct_stop t) p (ct_tick t) (ct_seen t) (ct_late t).
Definition gotoTick (p : phase) (b : bool) (t : cthread) : cthread := mk_cthread (ct_cloud t) (ct_stop t) p b (ct_seen t) (ct_late t).
Definition beginRound (closed : gset nat) (version : nat) (t : cthread) : cthread :=
  mk_cthread (ct_cloud t) (ct_stop t) Rounding (ct_tick t) version (if decide (ct_stop t ∈ closed) then S (ct_late t) else ct_late t).

(** The timer of [time.After] can fire at any time. *)
Inductive tcstep (closed : gset nat) (version : nat) (t : cthread) : cthread → Prop :=
  | st_register : ct_phase t = Registering → tcstep closed version t (gotoTick Sending false t)
  | st_sendFirst : ct_phase t = Sending → ct_tick t = false → tcstep closed version t (gotoTick Starting true t)
  | st_round : ct_phase t = Starting → tcstep closed version t (beginRound closed version t)
  | st_wait : ct_phase t = Rounding → tcstep closed version t (goto Selecting t)
  | st_stop : ct_phase t = Selecting → ct_stop t ∈ closed → tcstep closed version t (goto Draining t)
  | st_tick : ct_phase t = Selecting → ct_tick t = true → tcstep closed version t (gotoTick Draining false t)
  | st_poll : ct_phase t = Selecting → tcstep closed version t (goto Draining t)
  | st_drain : ct_phase t = Draining → tcstep closed version t (gotoTick Checking false t)
  | st_stopped : ct_phase t = Checking → ct_stop t ∈ closed → tcstep closed version t (goto Returned t)
  | st_again : ct_phase t = Checking → ct_stop t ∉ closed → tcstep closed version t (goto Starting t).

(** A change of the tables leaves a tick with every trigger that is in them and not stopped. *)
Definition notify (t : cthread) : cthread :=
  if decide (ct_phase t = Registering ∨ ct_phase t = Returned) then t else gotoTick (ct_phase t) true t.

(** ** The daemon *)

(** [Run] between two ticks; about to close the stop channel; starting the clouds that are left. *)
Inductive runPhase := RWait | RClose | RSpawn (todo : list cloud).

(** The version of the blueprint and machine tables, and the namespace of the blueprint in them;
    the variables [ns] and [stop] of [Run] and where it is; the closed channels (channels are numbered
    as they are made); and the goroutines. *)
Record daemon := mk_daemon {
  d_version : nat; d_dbNs : string; d_ns : string; d_run : runPhase; d_stop : nat; d_closed : gset nat; d_threads : list cthread;
}.

Inductive dstep : daemon → daemon → Prop :=
  | ds_change v ns ns' r n k c ts :
    dstep (mk_daemon v ns n r k c ts) (mk_daemon (S v) ns' n r k c (notify <$> ts))
  | ds_cleared v n k c ts : n ≠ "" →
    dstep (mk_daemon v "" n RWait k c ts) (mk_daemon v "" "" RWait k c ts)
  | ds_switch v ns n k c ts : ns ≠ n → ns ≠ "" →
    dstep (mk_daemon v ns n RWait k c ts) (mk_daemon v ns ns RClose k c ts)
  | ds_close v ns n k c ts todo : startClouds n = Ok todo →
    dstep (mk_daemon v ns n RClose k c ts) (mk_daemon v ns n (RSpawn todo) (S k) ({[k]} ∪ c) ts)
  | ds_spawn v ns n k c ts cld todo :
    dstep (mk_daemon v ns n (RSpawn (cld :: todo)) k c ts) (mk_daemon v ns n (RSpawn todo) k c (ts ++ [mk_cthread cld k Registering false 0 0]))
  | ds_spawned v ns n k c ts :
    dstep (mk_daemon v ns n (RSpawn []) k c ts) (mk_daemon v ns n RWait k c ts)
  | ds_thread v ns n r k c before t t' after : tcstep c v t t' →
    dstep (mk_daemon v ns n r k c (before ++ t :: after)) (mk_daemon v ns n r k c (before ++ t' :: after)).

Inductive reachable : daemon → Prop :=
  | reach_start v ns : reachable (mk_daemon v ns "" RWait 0 ∅ [])
  | reach_step d d' : reachable d → dstep d d' → reachable d'.

(** ** Invariants *)

(** The goroutines that were not told to stop. *)
Definition live (c : gset nat) (ts : list cthread) : list cloud := ct_cloud <$> filter (λ t, ct_stop t ∉ c) ts.
Definition todoOf (r : runPhase) : list cloud := match r with RSpawn todo => todo | _ => [] end.

Record threadOK (c : gset nat) (v : nat) (t : cthread) : Prop := {
  to_seen : ct_phase t = Rounding ∨ ct_phase t = Selecting → ct_tick t = false → ct_seen t = v;
  to_returned : ct_phase t = Returned → ct_stop t ∈ c;
  to_open : ct_stop t ∉ c → ct_late t = 0;
  to_late : if decide (ct_phase t = Registering ∨ ct_phase t = Sending ∨ ct_phase t = Starting) then ct_late t = 0 else ct_late t ≤ 1;
}.

Lemma threadOK_step c v t t' : threadOK c v t → tcstep c v t t' → threadOK c v t' ∧ ct_stop t' = ct_stop t ∧ ct_cloud t' = ct_cloud t.
Proof.
  intros [Hs Hr Ho Hl] Hst. destruct t as [cld k p b seen late]; simpl in *. split; [|by destruct Hst].
  destruct Hst; simpl in *; subst; split; simpl in *; try done; try naive_solver; try (by repeat case_decide; naive_solver).
Qed.

Lemma threadOK_notify c v t : threadOK c v t → threadOK c (S v) (notify t).
Proof.
  intros [Hs Hr Ho Hl]. unfold notify. destruct t as [cld k p b seen late]; simpl in *. destruct (decide (p = Registering ∨ p = Returned)) as [Hp|Hp]; split; simpl in *; try done.
  intros [->| ->]; by destruct Hp.
Qed.

Lemma threadOK_close c v k t : threadOK c v t → threadOK ({[k]} ∪ c) v t.
Proof. intros [Hs Hr Ho Hl]. split; [done|set_solver| |done]. intros Hn. apply Ho. set_solver. Qed.

Lemma notify_stop t : ct_stop (notify t) = ct_stop t.
Proof. unfold notify. by case_decide. Qed.
Lemma notify_cloud t : ct_cloud (notify t) = ct_cloud t.
Proof. unfold notify. by case_decide. Qed.

Lemma live_app c ts ts' : live c (ts ++ ts') = live c ts ++ live c ts'.
Proof. unfold live. by rewrite filter_app, fmap_app. Qed.
Lemma live_cons c t ts : live c (t :: ts) = (if decide (ct_stop t ∉ c) then [ct_cloud t] else []) ++ live c ts.
Proof. unfold live. rewrite filter_cons. by case_decide. Qed.
Lemma live_notify c ts : live c (notify <$> ts) = live c ts.
Proof. induction ts as [|t ts IH]; [done|]. csimpl. by rewrite !live_cons, IH, notify_stop, notify_cloud. Qed.

(** What holds in every reachable state. *)
Record daemonOK (d : daemon) : Prop := {
  do_closed : ∀ k, k ∈ d_closed d ↔ k < d_stop d;
  do_stops : Forall (λ t, ct_stop t ≤ d_stop d) (d_threads d);
  do_threads : Forall (threadOK (d_closed d) (d_version d)) (d_threads d);
  do_ns : d_run d = RClose → d_ns d ≠ "";
  do_spawn : ∀ todo, d_run d = RSpawn todo → d_ns d ≠ "";
  do_live : live (d_closed d) (d_threads d) ++ todoOf (d_run d) = [] ∧ (d_ns d = "" ∨ d_run d = RClose) ∨
    ∃ n, n ≠ "" ∧ startClouds n = Ok (live (d_closed d) (d_threads d) ++ todoOf (d_run d)) ∧ (d_ns d ≠ "" → d_run d ≠ RClose → n = d_ns d);
}.

Lemma live_all_closed (c : gset nat) (k : nat) ts : (∀ i, i ∈ c ↔ i < k) → Forall (λ t, ct_stop t ≤ k) ts → live ({[k]} ∪ c) ts = [].
Proof.
  intros Hc Hts. induction Hts as [|t ts Ht _ IH]; [done|]. rewrite live_cons, IH, decide_False; [done|]. intros Hn. apply Hn.
  apply elem_of_union. rewrite elem_of_singleton, Hc. lia.
Qed.

Lemma daemonOK_step d d' : daemonOK d → dstep d d' → daemonOK d'.
Proof.
  intros [Hc Hk Ht Hn Hsp Hl] Hst. destruct Hst; simpl in *.
  - split; simpl; [done| |by apply Forall_fmap; eapply Forall_impl; [exact Ht|]; intros t; apply threadOK_notify|done|done|by rewrite live_notify].
    apply Forall_fmap. eapply Forall_impl; [exact Hk|]. intros t. simpl. by rewrite notify_stop.
  - split; simpl; [done|done|done|done|done|]. destruct Hl as [[? ?]|(m & ? & ? & ?)]; [by left; auto|right]. by exists m.
  - split; simpl; [done|done|done|done|done|]. destruct Hl as [[? ?]|(m & ? & ? & ?)]; [by left; auto|right]. by exists m.
  - split; simpl.
    + intros i. rewrite elem_of_union, elem_of_singleton, Hc. lia.
    + eapply Forall_impl; [exact Hk|]. simpl. lia.
    + eapply Forall_impl; [exact Ht|]. intros t. apply threadOK_close.
    + done.
    + intros _ _. by apply Hn.
    + right. exists n. rewrite live_all_closed by done. by split_and!; [apply Hn| |].
  - split; simpl; [done| | |done|by intros ? _; eapply Hsp|].
    + apply Forall_app. split; [done|]. by repeat constructor.
    + apply Forall_app. split; [done|]. apply Forall_singleton. split; simpl; [by intros [|]|done|done|done].
    + rewrite live_app, live_cons, decide_True by (simpl; rewrite Hc; lia). simpl. unfold live at 2 4. simpl.
      rewrite <-!app_assoc. simpl. destruct Hl as [[Hl _]|(m & ? & ? & Hm)]; [by destruct (live c ts)|right]. exists m. split_and!; [done|done|].
      intros ? _. by apply Hm.
  - specialize (Hsp _ eq_refl). split; simpl; [done|done|done|done|done|]. rewrite app_nil_r in *. destruct Hl as [[? [?|?]]|(m & ? & ? & Hm)]; [done|done|right].
    exists m. split_and!; [done|done|]. intros ? _. by apply Hm.
  - apply Forall_app in Ht as [Ht1 Ht2]. apply Forall_cons in Ht2 as [Ht0 Ht2]. destruct (threadOK_step _ _ _ _ Ht0 H) as (Ht' & Hst & Hcl).
    apply Forall_app in Hk as [Hk1 Hk2]. apply Forall_cons in Hk2 as [Hk0 Hk2].
    split; simpl; [done| | |done|done|].
    + apply Forall_app. split; [done|]. constructor; [by rewrite Hst|done].
    + apply Forall_app. split; [done|]. by constructor.
    + by rewrite live_app, live_cons, Hst, Hcl, <-live_cons, <-live_app.
Qed.

Lemma reachable_ok d : reachable d → daemonOK d.
Proof.
  induction 1 as [v ns|d d' _ IH Hst]; [|by eapply daemonOK_step].
  split; simpl; try done; [|by left; auto]. intros k. split; [set_solver|lia].
Qed.

(** ** Properties *)

(** C36: the clouds of the daemon, under every interleaving of its goroutines with each other and with changes
    of the database.  [Run] never closes a channel twice.  The goroutines that were not told to stop belong to one namespace
    and are the first of those that [startClouds] starts for it, so that no two of them have the same provider and region; and
    whenever [Run] waits for the next tick they are exactly the clouds of the namespace it last saw.  No goroutine misses a
    change: one that waits without a tick pending began its last round after the last change of the
    tables.  None returns unless it was told to, and after it was told to it begins at most one more round. *)
Theorem clouds_follow_namespace d :
  reachable d →
  d_stop d ∉ d_closed d ∧
  (∃ ns todo, live (d_closed d) (d_threads d) ++ todo = [] ∨ startClouds ns = Ok (live (d_closed d) (d_threads d) ++ todo)) ∧
  (d_run d = RWait → d_ns d ≠ "" → startClouds (d_ns d) = Ok (live (d_closed d) (d_threads d))) ∧
  ∀ t, t ∈ d_threads d →
    (ct_phase t = Selecting → ct_tick t = false → ct_seen t = d_version d) ∧
    (ct_phase t = Returned → ct_stop t ∈ d_closed d) ∧ ct_late t ≤ 1.
Proof.
  intros [Hc _ Ht _ _ Hl]%reachable_ok. split_and!.
  - rewrite Hc. lia.
  - destruct Hl as [[Hl _]|(n & _ & Hl & _)]; [exists ""|exists n]; eexists; [by left|by right].
  - intros Hr Hn. rewrite Hr in Hl. simpl in Hl. rewrite app_nil_r in Hl. destruct Hl as [[_ [?|?]]|(n & _ & Hl & He)]; [done|done|]. by rewrite <-He.
  - rewrite Forall_forall in Ht. intros t Hin. destruct (Ht t Hin) as [Hs Hr _ Hlate]. split_and!; [auto|done|]. case_decide; lia.
Qed.

Lemma reach_spawn v ns n k c ts todo :
  reachable (mk_daemon v ns n (RSpawn todo) k c ts) →
  reachable (mk_daemon v ns n RWait k c (ts ++ ((λ cld, mk_cthread cld k Registering false 0 0) <$> todo))).
Proof.
  revert ts. induction todo as [|cld todo IH]; intros ts Hr.
  - rewrite app_nil_r. eapply reach_step; [exact Hr|constructor].
  - csimpl. rewrite cons_middle, app_assoc. apply IH. eapply reach_step; [exact Hr|constructor].
Qed.

(** A blueprint for the namespace "prod" is deployed; all its clouds are started. *)
Definition demo_clouds (ns : string) : list cloud := match startClouds ns with Ok cs => cs | Panic _ => [] end.
Definition demo_started : daemon :=
  mk_daemon 1 "prod" "prod" RWait 1 {[0]} ((λ cld, mk_cthread cld 1 Registering false 0 0) <$> demo_clouds "prod").

Lemma demo_started_reachable : reachable demo_started.
Proof.
  assert (reachable (mk_daemon 1 "prod" "prod" (RSpawn (demo_clouds "prod")) 1 ({[0]} ∪ ∅) [])) as Hr.
  { eapply reach_step; [|by apply ds_close].
    eapply reach_step; [|by apply (ds_switch 1 "prod" "")].
    eapply reach_step; [apply (reach_start 0 "")|]. apply (ds_change 0 "" "prod" RWait "" 0 ∅ []). }
  apply reach_spawn in Hr. by rewrite union_empty_r_L in Hr.
Qed.

Lemma clouds_follow_namespace_witness :
  reachable demo_started ∧ d_stop demo_started ∉ d_closed demo_started ∧
  startClouds "prod" = Ok (live (d_closed demo_started) (d_threads demo_started)) ∧
  ∀ t, t ∈ d_threads demo_started → ct_late t ≤ 1.
Proof.
  destruct (clouds_follow_namespace demo_started demo_started_reachable) as (H1 & _ & H3 & H4).
  split; [exact demo_started_reachable|]. split; [exact H1|]. split; [by apply H3|]. intros t Ht. by destruct (H4 t Ht) as (_ & _ & ?).
Defined.
