(* ===== verification/Providers.v ===== *)
(** * What the cloud providers share

    The boot script of [src/cloud/cfg/cfg.go], base64 and base32 of Go's
    encoding packages, goroutines as the providers use them,
    and the maps in which they count equal boot requests. *)

From S2P Require Import Prelude GoStrings Join Blueprint DbRows CloudJoin.

(** ** Encodings *)

(** The bits of a byte, the most significant first. *)
Definition byteBits (c : ascii) : list bool :=
  let '(Ascii b0 b1 b2 b3 b4 b5 b6 b7) := c in [b7; b6; b5; b4; b3; b2; b1; b0].
Fixpoint strBits (s : string) : list bool :=
  match s with EmptyString => [] | String c s => byteBits c ++ strBits s end.
Definition bitsValue (bits : list bool) : nat := foldl (λ v (b : bool), 2 * v + (if b then 1 else 0)) 0 bits.

(** Digits of [w] bits each; a last digit with fewer bits is filled with zeros. *)
Fixpoint digits (fuel w : nat) (alphabet : string) (bits : list bool) : string :=
  match fuel, bits with
  | _, [] => ""
  | 0, _ => ""
  | S fuel, _ =>
    let d := take w bits ++ replicate (w - length bits) false in
    match String.get (bitsValue d) alphabet with
    | Some c => String c (digits fuel w alphabet (drop w bits))
    | None => ""
    end
  end.

Fixpoint repeat_s (n : nat) (s : string) : string := match n with 0 => "" | S n => s +:+ repeat_s n s end.
(** Padding to a multiple of [q] digits. *)
Definition padded (q : nat) (s : string) : string := s +:+ repeat_s ((q - String.length s mod q) mod q) "=".

Definition base64Alphabet : string := "ABCDEFGHIJKLMNOPQRSTUVWXYZabcdefghijklmnopqrstuvwxyz0123456789+/".
Definition base32Alphabet : string := "ABCDEFGHIJKLMNOPQRSTUVWXYZ234567".
(** [base64.StdEncoding.EncodeToString] *)
Definition base64 (s : string) : string := padded 4 (digits (8 * String.length s) 6 base64Alphabet (strBits s)).
(** [base32.StdEncoding.EncodeToString] *)
Definition base32 (s : string) : string := padded 8 (digits (8 * String.length s) 5 base32Alphabet (strBits s)).

Example base64_example : base64 "Kelda" = "S2VsZGE=" ∧ base32 "Kelda" = "JNSWYZDB" ∧ base64 "" = "" ∧ base64 "ab" = "YWI=".
Proof. done. Qed.

(** ** The boot script *)

(** [%q] on a string of printable ASCII characters. *)
Definition quoteChar : ascii := ascii_of_nat 34.
Fixpoint quoteBody (s : string) : string :=
  match s with
  | EmptyString => ""
  | String c s =>
    if bool_decide (c = quoteChar) || bool_decide (c = ascii_of_nat 92)
    then String (ascii_of_nat 92) (String c (quoteBody s))
    else String c (quoteBody s)
  end.
Definition quote (s : string) : string := String quoteChar (quoteBody s +:+ String quoteChar "").

(** The fields the template refers to. *)
Record cfgFields := mk_cfgFields {
  KeldaImage : string;
  cfg_SSHKeys : string;
  LogLevel : string;
  MinionOpts : string;
  KeldaHome : string;
}.

Definition minionOptions (role inboundPublic : string) : string :=
  let options := "--role " +:+ quote role in
  if bool_decide (inboundPublic ≠ "") then options +:+ " --inbound-pub-intf " +:+ quote inboundPublic else options.

Definition newline : string := String (ascii_of_nat 10) "".
Definition MinionHome : string := "/home/kelda/.kelda".

(** [execute] is the execution of the template [cfgTemplate]. *)
Definition Ubuntu (execute : cfgFields → string) (image logLevel : string) (m : Machine) (inboundPublic : string) : string :=
  execute (mk_cfgFields image (Join_strings newline (m_SSHKeys m)) logLevel (minionOptions (m_Role m) inboundPublic) MinionHome).

(** ** Goroutines *)

(** Goroutines that send their result on one channel: the order in which the
    [k] results of the [n]-th such group arrive. *)
Class Schedule := {
  arrivals : nat → nat → list nat;
  arrivals_perm : ∀ n k, arrivals n k ≡ₚ seq 0 k;
}.
#[export] Instance fixed_schedule : Schedule | 100.
Proof. refine {| arrivals := λ _ k, seq 0 k |}. done. Defined.

(** The calls in the order of their results, and the results.  The calls still
    running when the reader stops reading are let finish; if the goroutines send
    on two channels, both see one order. *)
Definition concurrently `{Schedule} {S A} (n : nat) (calls : list (M S A)) : M S (list A) :=
  let! rs := mapM_st (λ i, match calls !! i with
                           | Some call => let! r := call in mret [r]
                           | None => mret []
                           end) (arrivals n (length calls)) in
  mret (concat rs).

Lemma concurrently_omap {S A B} (f : B → M S A) (xs : list B) idx s :
  Forall (λ i, i < length xs) idx →
  (let! rs := mapM_st (λ i, match (f <$> xs) !! i with Some call => let! r := call in mret [r] | None => mret [] end) idx in
   mret (concat rs)) s = mapM_st f (omap (λ i, xs !! i) idx) s.
Proof.
  intros His. revert s. induction His as [|i idx Hi His IH]; intros s; [done|].
  destruct (lookup_lt_is_Some_2 xs i Hi) as [x Hx]. cbn [mapM_st omap list_omap]. rewrite list_lookup_fmap, Hx. simpl.
  unfold mbind, M_bind, mret, M_ret in *. destruct (f x s) as [[a s1]|e]; [|done].
  specialize (IH s1). destruct (mapM_st _ idx s1) as [[rs s2]|e]; rewrite <-IH; done.
Qed.

(** Concurrent calls are the calls in some order. *)
Lemma concurrently_fmap `{Schedule} {S A B} n (f : B → M S A) (xs : list B) :
  ∃ ys, ys ≡ₚ xs ∧ ∀ s, concurrently n (f <$> xs) s = mapM_st f ys s.
Proof.
  exists (omap (λ i, xs !! i) (arrivals n (length xs))). split.
  - rewrite (omap_Permutation _ _ _ (arrivals_perm n (length xs))). by rewrite omap_lookup_seq.
  - intros s. unfold concurrently. rewrite length_fmap. apply concurrently_omap.
    rewrite arrivals_perm. apply Forall_seq. lia.
Qed.

(** The reader: the first error that arrives, or nil. *)
Fixpoint firstError (rs : list (result unit)) : result unit :=
  match rs with
  | [] => Val ()
  | Val _ :: rs => firstError rs
  | Err e :: _ => Err e
  end.

(** ** Counting equal requests *)

Section counting.
Context {K : Type} `{Countable K}.

Definition countOf (m : gmap K Z) (k : K) : Z := default 0%Z (m !! k).
(** The loop [m[k] = m[k] + 1]. *)
Definition countAll (ks : list K) : gmap K Z := foldl (λ m k, <[k := (countOf m k + 1)%Z]> m) ∅ ks.

(** A map of counts as the requests it stands for. *)
Definition expand (kvs : list (K * Z)) : list K := concat ((λ kv, replicate (Z.to_nat kv.2) kv.1) <$> kvs).

#[export] Instance expand_perm : Proper ((≡ₚ) ==> (≡ₚ)) expand.
Proof. intros kvs kvs' Hp. unfold expand. by apply concat_perm, fmap_Permutation. Qed.

Lemma countAll_snoc ks k : countAll (ks ++ [k]) = <[k := (countOf (countAll ks) k + 1)%Z]> (countAll ks).
Proof. unfold countAll. by rewrite foldl_app. Qed.

Lemma countAll_positive ks k n : countAll ks !! k = Some n → (0 < n)%Z.
Proof.
  revert k n. induction ks as [|k' ks IH] using rev_ind; intros k n; [unfold countAll; cbn [foldl]; by rewrite lookup_empty|].
  rewrite countAll_snoc, lookup_insert_Some. intros [[-> <-]|[_ ?]]; [|by eapply IH].
  unfold countOf. destruct (countAll ks !! k) as [n|] eqn:Hk; simpl; [|lia]. apply IH in Hk. lia.
Qed.

(** The counts stand for the requests that were counted. *)
Lemma countAll_expand ks : expand (map_to_list (countAll ks)) ≡ₚ ks.
Proof.
  induction ks as [|k ks IH] using rev_ind; [done|]. rewrite countAll_snoc.
  destruct (countAll ks !! k) as [n|] eqn:Hk; unfold countOf; rewrite Hk; simpl.
  - pose proof (countAll_positive _ _ _ Hk). rewrite <-insert_delete_eq, map_to_list_insert by apply lookup_delete_eq.
    rewrite <-(insert_delete_id (countAll ks) k n Hk), map_to_list_insert in IH by apply lookup_delete_eq.
    unfold expand in *. csimpl in *. replace (Z.to_nat (n + 1)) with (S (Z.to_nat n)) by lia. simpl.
    rewrite IH. apply Permutation_cons_append.
  - rewrite map_to_list_insert by done. unfold expand in *. csimpl. simpl. rewrite IH. apply Permutation_cons_append.
Qed.
End counting.

(** ** Altering an entry *)

Lemma alter_some {K} `{Countable K} {V} (f : V → V) (k : K) (m : gmap K V) x : m !! k = Some x → alter f k m = <[k := f x]> m.
Proof.
  intros Hx. apply map_eq. intros i. destruct (decide (i = k)) as [->|Hi].
  - by rewrite lookup_alter_eq, lookup_insert_eq, Hx.
  - by rewrite lookup_alter_ne, lookup_insert_ne.
Qed.

(** ** What a hash join leaves over *)

Section leftovers.
Context {A B K : Type} `{Countable K}.

(** With distinct keys on the right, the elements left over are those whose key
    the other side does not have. *)
Lemma joined_leftovers (ls : list A) (rs : list B) lKey (rKey : B → K) pairs ll lr :
  hash_joined ls rs lKey rKey pairs ll lr → NoDup (rKey <$> rs) →
  NoDup (lKey <$> ll) ∧ NoDup (rKey <$> lr) ∧
  (∀ k, k ∈ lKey <$> ll ↔ k ∈ lKey <$> ls ∧ k ∉ rKey <$> rs) ∧
  (∀ k, k ∈ rKey <$> lr ↔ k ∈ rKey <$> rs ∧ k ∉ lKey <$> ls).
Proof.
  intros Hj Hnd. pose proof Hnd as Hnd'. rewrite <-(hj_rights _ _ _ _ _ _ _ Hj), fmap_app in Hnd'.
  apply NoDup_app in Hnd' as (_ & Hdis & Hlr). pose proof (hj_left_nodup _ _ _ _ _ _ _ Hj) as Hln.
  rewrite fmap_app in Hln. apply NoDup_app in Hln as (_ & _ & Hll).
  assert (∀ a b, (a, b) ∈ pairs → a ∈ ls ∧ b ∈ rs ∧ b ∈ pairs.*2) as Hin.
  { intros a b Hab. assert (b ∈ pairs.*2) as Hb by (apply list_elem_of_fmap; by exists (a, b)).
    split_and!; [|rewrite <-(hj_rights _ _ _ _ _ _ _ Hj); set_solver|done].
    eapply elem_of_submseteq; [|apply (hj_lefts _ _ _ _ _ _ _ Hj)]. apply elem_of_app. left.
    apply list_elem_of_fmap. by exists (a, b). }
  split_and!; [done|done| |]; intros k; split.
  - intros (a & -> & Ha)%list_elem_of_fmap. split.
    + apply list_elem_of_fmap_2. eapply elem_of_submseteq; [|apply (hj_lefts _ _ _ _ _ _ _ Hj)]. set_solver.
    + intros (b & Hb & Hbr)%list_elem_of_fmap. by eapply (hj_lonely_left _ _ _ _ _ _ _ Hj).
  - intros [(a & -> & Ha)%list_elem_of_fmap Hk].
    destruct (hj_left_keys _ _ _ _ _ _ _ Hj a Ha) as (a' & [([x b] & -> & Hp)%list_elem_of_fmap|Hl]%elem_of_app & Heq).
    + destruct Hk. rewrite <-Heq. simpl. rewrite (hj_pair _ _ _ _ _ _ _ Hj _ _ Hp). apply list_elem_of_fmap_2. by apply (Hin x b).
    + rewrite <-Heq. by apply list_elem_of_fmap_2.
  - intros (b & -> & Hb)%list_elem_of_fmap. split.
    + apply list_elem_of_fmap_2. rewrite <-(hj_rights _ _ _ _ _ _ _ Hj). set_solver.
    + intros Hk. destruct (hj_lonely_right _ _ _ _ _ _ _ Hj b Hb Hk) as (a & b' & Hab & Heq).
      apply (Hdis (rKey b)); [|by apply list_elem_of_fmap_2]. rewrite <-Heq. apply list_elem_of_fmap_2. by apply (Hin a b').
  - intros [(b & -> & Hb)%list_elem_of_fmap Hk]. rewrite <-(hj_rights _ _ _ _ _ _ _ Hj) in Hb.
    apply elem_of_app in Hb as [([a x] & -> & Hp)%list_elem_of_fmap|Hb]; [|by apply list_elem_of_fmap_2].
    destruct Hk. simpl. rewrite <-(hj_pair _ _ _ _ _ _ _ Hj _ _ Hp). apply list_elem_of_fmap_2. by apply (Hin a x).
Qed.
End leftovers.
