(* ===== verification/Foreman.v ===== *)
(** * Package foreman: configuring the minions

    Models [src/cloud/foreman/foreman.go]: the set of minion threads
    ([updateMinions]), one round of a thread ([runOnce]) and how its result is
    recorded ([setMinionStatus]).  The gRPC client to a minion is the class
    [MinionWorld] over an abstract world, which also has the clock. *)

From S2P Require Import Prelude GoStrings Join Blueprint DbRows Db DbSpec DbTxn DbFrame.

(** [pb.MinionConfig] *)
Record MinionConfig := mk_MinionConfig {
  mc_ID : string;
  mc_Role : PBRole;
  mc_PrivateIP : string;
  mc_Blueprint : string;
  mc_Provider : string;
  mc_Size : string;
  mc_Region : string;
  mc_FloatingIP : string;
  mc_EtcdMembers : list string;
  mc_AuthorizedKeys : list string;
}.
#[export] Instance MinionConfig_eq_dec : EqDecision MinionConfig.
Proof. solve_decision. Defined.

(** ** Minion threads

    [minionChans] maps cloud IDs to the threads' stop channels; [closedChans]
    are the channels that were closed and [started] the threads ever started. *)
Record foreman := mk_foreman {
  minionChans : gmap string nat;
  closedChans : gset nat;
  nextChan : nat;
  started : list (string * nat);
}.

(** The body of the first loop: start a thread for an unknown machine. *)
Definition startMinion (m : Machine) : M foreman unit := λ f,
  match minionChans f !! m_CloudID m with
  | Some _ => Ok ((), f)
  | None =>
    let stop := nextChan f in
    Ok ((), mk_foreman (<[m_CloudID m := stop]> (minionChans f)) (closedChans f) (S stop)
              (started f ++ [(m_CloudID m, stop)]))
  end.

(** [close(minionChans[id]); delete(minionChans, id)]; closing twice panics,
    as does closing the nil channel of an absent key. *)
Definition stopMinion (id : string) : M foreman unit := λ f,
  match minionChans f !! id with
  | None => Panic "close of nil channel"
  | Some ch =>
    if bool_decide (ch ∈ closedChans f) then Panic "close of closed channel"
    else Ok ((), mk_foreman (delete id (minionChans f)) ({[ch]} ∪ closedChans f) (nextChan f) (started f))
  end.

Definition updateMinions `{MapOrder} (n : nat) (machines : list Machine) : M foreman unit :=
  forM_ machines startMinion ;;;
  let seen : gset string := list_to_set (m_CloudID <$> machines) in
  let! f := get in
  forM_ (range n (minionChans f)).*1 (λ id,
    if bool_decide (id ∈ seen) then mret () else stopMinion id).

(** ** One round of a thread *)

Class MinionWorld (W : Type) := {
  newClient : string → M W (result unit);
  getMinion : string → M W (result MinionConfig);
  setMinion : string → MinionConfig → M W (result unit);
  Close : string → M W unit;
  timeNow : W → Z;
}.

Definition clusterReady (machines : list Machine) : bool :=
  forallb (λ m, negb (bool_decide (m_Role m = None_) || bool_decide (m_PrivateIP m = ""))) machines.

Definition makeConfig (machines : list Machine) (minionMachine : Machine) (blueprint : string)
    : MinionConfig :=
  let etcdIPs := m_PrivateIP <$>
    filter (λ m, m_Role m = Master ∧ m_PrivateIP m ≠ "") machines in
  mk_MinionConfig "" PB_NONE (m_PrivateIP minionMachine) blueprint (m_Provider minionMachine)
    (m_Size minionMachine) (m_Region minionMachine) (m_FloatingIP minionMachine) etcdIPs
    (m_SSHKeys minionMachine).

(** The machines the foreman can talk to. *)
Definition reachable (m : Machine) : bool :=
  bool_decide (m_CloudID m ≠ "") && bool_decide (m_PublicIP m ≠ "") &&
  bool_decide (m_PrivateIP m ≠ "") && bool_decide (m_Status m ≠ Stopping).

Section runOnce.
Context `{MapOrder} {W : Type} `{MinionWorld W}.
(** [Blueprint.String], which is Go's JSON encoder. *)
Context (bpString : bpBlueprint → string).

(** The transaction: the blueprint's text and the reachable machines. *)
Definition readState (view : Database) : M store (string * list Machine) :=
  let! bp := GetBlueprint view in
  let blueprint := bpString (match bp with Val b => b_Blueprint b | Err _ => empty_blueprint end) in
  let! machines := SelectFrom view (Some reachable) in
  mret (blueprint, machines).

(** The last machine with the cloud ID. *)
Definition findMachine (cloudID : string) (machines : list Machine) : option Machine :=
  foldl (λ found m, if bool_decide (m_CloudID m = cloudID) then Some m else found) None machines.

(** The exchange with the minion, after its connection is up. *)
Definition talk (cutoff : Z) (machines : list Machine) (minionMachine : Machine) (blueprint : string)
    : M W (PBRole * bool) :=
  let ip := m_PublicIP minionMachine in
  let! cur := getMinion ip in
  match cur with
  | Err _ => mret (PB_NONE, false)
  | Val currConfig =>
    let! w := get in
    if negb (clusterReady machines) && bool_decide (timeNow w < cutoff)%Z
    then mret (mc_Role currConfig, true)
    else
      let newConfig := makeConfig machines minionMachine blueprint in
      (if bool_decide (currConfig ≠ newConfig) then setMinion ip newConfig ;;; mret () else mret ()) ;;;
      mret (mc_Role currConfig, true)
  end.

Definition runOnce (waitForMachinesCutoff : Z) (cloudID : string) : M (store * W) (PBRole * bool) :=
  let! (blueprint, machines) := onFst (Run [BlueprintTable; MachineTable] readState) in
  match findMachine cloudID machines with
  | None => mret (PB_NONE, false)
  | Some minionMachine =>
    let! err := onSnd (newClient (m_PublicIP minionMachine)) in
    match err with
    | Err _ => mret (PB_NONE, false)
    | Val _ =>
      let! r := onSnd (talk waitForMachinesCutoff machines minionMachine blueprint) in
      onSnd (Close (m_PublicIP minionMachine)) ;;;
      mret r
    end
  end.

(** What [setMinionStatus] writes over a row. *)
Definition statusRow (role : PBRole) (isConnected : bool) (dbm : Machine) : Machine :=
  let dbm := set_m_Connected isConnected (set_m_Role (PBToRole role) dbm) in
  let status := ConnectionStatus dbm in
  if bool_decide (status ≠ "") then set_m_Status status dbm else dbm.

Definition setMinionStatusTxn (cloudID : string) (role : PBRole) (isConnected : bool)
    (view : Database) : M store unit :=
  let! rows := SelectFrom view (Some (λ dbm, bool_decide (m_CloudID dbm = cloudID))) in
  match rows with
  | [dbm] =>
    if bool_decide (m_Status dbm = Stopping) then mret ()
    else CommitT view (statusRow role isConnected dbm)
  | _ => mret ()
  end.

Definition setMinionStatus (cloudID : string) (role : PBRole) (isConnected : bool) : M store unit :=
  Run [MachineTable] (setMinionStatusTxn cloudID role isConnected).
End runOnce.

(** ** The threads follow the machines *)

(** Every known thread has an open channel of its own. *)
Record threads_ok (f : foreman) : Prop := {
  to_inj : ∀ id1 id2 ch, minionChans f !! id1 = Some ch → minionChans f !! id2 = Some ch → id1 = id2;
  to_open : ∀ id ch, minionChans f !! id = Some ch → ch ∉ closedChans f ∧ ch < nextChan f;
  to_closed : ∀ ch, ch ∈ closedChans f → ch < nextChan f;
}.

Lemma wp_startAll machines f Q :
  threads_ok f →
  (∀ f', threads_ok f' → minionChans f ⊆ minionChans f' → closedChans f' = closedChans f →
     dom (minionChans f') = dom (minionChans f) ∪ list_to_set (m_CloudID <$> machines) →
     (∃ new, started f' = started f ++ new ∧ NoDup new.*1 ∧
        ∀ id, id ∈ new.*1 ↔ id ∈ dom (minionChans f') ∧ id ∉ dom (minionChans f)) → Q () f') →
  wp (forM_ machines startMinion) f Q.
Proof.
  intros Hok HQ. revert f Hok HQ. induction machines as [|m ms IH]; intros f Hok HQ; simpl.
  { wp_ret. apply HQ; [done|done|done|set_solver|]. exists []. split_and!; [by rewrite app_nil_r|constructor|set_solver]. }
  wp_bind. unfold wp, startMinion. destruct (minionChans f !! m_CloudID m) as [ch|] eqn:Hm.
  - apply IH; [done|]. intros f' Hok' Hsub Hcl Hdom Hst. apply HQ; auto.
    apply elem_of_dom_2 in Hm. set_solver.
  - set (f1 := mk_foreman _ _ _ _). apply IH.
    + destruct Hok as [Hi Ho Hc]. split; simpl.
      * intros id1 id2 ch. rewrite !lookup_insert_Some.
        intros [[<- <-]|[? H1]] [[<- ?]|[? H2]]; eauto; [apply Ho in H2 as [_ ?]|subst; apply Ho in H1 as [_ ?]]; lia.
      * intros id ch [[<- <-]|[? H1]]%lookup_insert_Some.
        -- split; [|lia]. intros ?%Hc. lia.
        -- apply Ho in H1 as [? ?]. split; [done|lia].
      * intros ch ?%Hc. lia.
    + intros f' Hok' Hsub Hcl Hdom (new & Hst & Hnd & Hnew). simpl in *.
      assert (m_CloudID m ∉ dom (minionChans f)) as Hni by by apply not_elem_of_dom.
      apply HQ; [done| |done|rewrite Hdom, dom_insert_L; set_solver|].
      * etrans; [|exact Hsub]. by apply insert_subseteq.
      * exists ((m_CloudID m, nextChan f) :: new). rewrite Hst, <-app_assoc. csimpl. split; [done|].
        rewrite dom_insert_L in Hnew, Hdom. split.
        -- constructor; [|done]. rewrite Hnew. set_solver.
        -- intros id. rewrite elem_of_cons, Hnew. destruct (decide (id = m_CloudID m)); set_solver.
Qed.

Lemma wp_stopAll (ids : list string) (seen : gset string) f Q :
  threads_ok f → NoDup ids → (∀ id, id ∈ ids → is_Some (minionChans f !! id)) →
  (∀ f', threads_ok f' → started f' = started f → closedChans f ⊆ closedChans f' →
     (∀ id, minionChans f' !! id =
        if decide (id ∈ ids ∧ id ∉ seen) then None else minionChans f !! id) →
     (∀ id ch, id ∈ ids → id ∉ seen → minionChans f !! id = Some ch → ch ∈ closedChans f') → Q () f') →
  wp (forM_ ids (λ id, if bool_decide (id ∈ seen) then mret () else stopMinion id)) f Q.
Proof.
  intros Hok Hnd. revert f Hok. induction Hnd as [|id ids Hni Hnd IH]; intros f Hok Hin HQ; simpl.
  { wp_ret. apply HQ; [done|done|done| |set_solver]. intros id. by rewrite decide_False by set_solver. }
  wp_bind. case_bool as [Hs|Hs].
  - wp_ret. apply IH; [done|set_solver|]. intros f' Hok' Hst Hmono Hch Hcl. apply HQ; [done|done|done|..].
    + intros id'. rewrite Hch. apply decide_ext. set_solver.
    + set_solver.
  - destruct (Hin id) as [ch Hch]; [set_solver|]. unfold wp, stopMinion. rewrite Hch.
    rewrite bool_decide_eq_false_2 by (by apply (to_open _ Hok id)).
    set (f1 := mk_foreman _ _ _ _). apply IH.
    + destruct Hok as [Hi Ho Hc]. split; simpl.
      * intros id1 id2 c [_ H1]%lookup_delete_Some [_ H2]%lookup_delete_Some. eauto.
      * intros id1 c [Hne H1]%lookup_delete_Some. destruct (Ho _ _ H1). split; [|done].
        apply not_elem_of_union. split; [|done]. intros ->%elem_of_singleton. destruct Hne. eauto.
      * intros c [->%elem_of_singleton|?]%elem_of_union; [by eapply Ho|auto].
    + intros id' Hid'. simpl. rewrite lookup_delete_ne by set_solver. apply Hin. set_solver.
    + intros f' Hok' Hst Hmono Hch' Hcl. simpl in *. apply HQ; [done|done|set_solver|..].
      * intros id'. rewrite Hch'. destruct (decide (id' = id)) as [->|Hne].
        -- rewrite lookup_delete_eq. rewrite (decide_True (P:=id ∈ id :: ids ∧ _)) by set_solver. by case_decide.
        -- rewrite lookup_delete_ne by done. apply decide_ext. set_solver.
      * intros id' ch' Hin' Hns Hl. destruct (decide (id' = id)) as [->|Hne]; [set_solver|].
        apply (Hcl id' ch'); [set_solver|done|by rewrite lookup_delete_ne].
Qed.

Lemma wp_updateMinions `{MapOrder} n machines f Q :
  threads_ok f →
  (∀ f', threads_ok f' →
     dom (minionChans f') = list_to_set (m_CloudID <$> machines) →
     (∀ id ch, minionChans f !! id = Some ch → id ∈ m_CloudID <$> machines →
        minionChans f' !! id = Some ch) →
     (∀ id ch, minionChans f !! id = Some ch → id ∉ m_CloudID <$> machines → ch ∈ closedChans f') →
     (∃ new, started f' = started f ++ new ∧ NoDup new.*1 ∧
        ∀ id, id ∈ new.*1 ↔ id ∈ m_CloudID <$> machines ∧ id ∉ dom (minionChans f)) →
     Q () f') →
  wp (updateMinions n machines) f Q.
Proof.
  intros Hok HQ. unfold updateMinions. wp_bind. apply wp_startAll; [done|].
  intros f1 Hok1 Hsub Hcl Hdom (new & Hst & Hnd & Hnew).
  wp_bind. change (wp get f1 ?Q) with (Q f1 f1). simpl.
  apply wp_stopAll; [done|apply NoDup_range_fst| |].
  { intros id ([id' ch] & -> & Hin%elem_of_range)%list_elem_of_fmap. by exists ch. }
  intros f2 Hok2 Hst2 Hmono Hch Hclosed.
  assert (∀ id, id ∈ (range n (minionChans f1)).*1 ↔ id ∈ dom (minionChans f1)) as Hr.
  { intros id. rewrite list_elem_of_fmap, elem_of_dom. split.
    - intros ([id' ch] & -> & Hin%elem_of_range). by exists ch.
    - intros [ch Hin]. exists (id, ch). by rewrite elem_of_range. }
  set (ids := m_CloudID <$> machines) in *.
  assert (∀ id, id ∈ dom (minionChans f1) ↔ id ∈ dom (minionChans f) ∨ id ∈ ids) as Hd1.
  { intros id. by rewrite Hdom, elem_of_union, elem_of_list_to_set. }
  apply HQ; [done|..].
  - apply set_eq. intros id. rewrite elem_of_list_to_set, elem_of_dom, Hch.
    case_decide as Hd; rewrite Hr, elem_of_list_to_set in Hd.
    + split; [by intros [? ?]|tauto].
    + rewrite <-elem_of_dom. specialize (Hd1 id). destruct (decide (id ∈ ids)); tauto.
  - intros id ch Hl Hin. rewrite Hch, decide_False by (rewrite elem_of_list_to_set; tauto).
    by eapply lookup_weaken.
  - intros id ch Hl Hni. apply (Hclosed id ch); [|by rewrite elem_of_list_to_set|by eapply lookup_weaken].
    rewrite Hr, Hd1. left. by apply elem_of_dom_2 in Hl.
  - exists new. split_and!; [by rewrite Hst2|done|]. intros id. rewrite Hnew, Hd1. tauto.
Qed.

(** ** A round *)

Section spec.
Context `{MapOrder} {W : Type} `{MinionWorld W} (bpString : bpBlueprint → string).


(** The text of the blueprint in the database. *)
Definition blueprintText (s : store) : string :=
  bpString (match vals (tbl Blueprint s) with [b] => b_Blueprint b | _ => empty_blueprint end).

Definition reachables (s : store) : list Machine :=
  filter (passes (Some reachable)) (vals (tbl Machine s)).

Lemma wp_readState s Q :
  DbOK {[BlueprintTable; MachineTable]} s →
  (tbl Blueprint s = ∅ ∨ ∃ b, vals (tbl Blueprint s) = [b]) →
  (∀ machines s', same s s' → machines ≡ₚ reachables s → Q (blueprintText s, machines) s') →
  wp (Run [BlueprintTable; MachineTable] (readState bpString)) s Q.
Proof.
  assert ({[BlueprintTable; MachineTable]} =@{gset string} list_to_set [BlueprintTable; MachineTable])
    as -> by set_solver.
  intros Hok Hb HQ. apply wp_Run.
  { intros tn Htn. apply elem_of_dom. destruct Hok as [_ Hd]. set_solver. }
  unfold readState. wp_bind.
  assert (∀ r s1, same s s1 →
    bpString (match r with Val b => b_Blueprint b | Err _ => empty_blueprint end) = blueprintText s →
    wp (let blueprint := bpString (match r with Val b => b_Blueprint b | Err _ => empty_blueprint end) in
        let! machines := SelectFrom (list_to_set [BlueprintTable; MachineTable]) (Some reachable) in
        mret (blueprint, machines)) s1 (λ a s1, ∀ s', same s1 s' → Q a s')) as Hrest.
  { intros r s1 Hs1 Htext. cbv zeta. rewrite Htext. wp_bind.
    apply wp_SelectFrom; [by eapply same_ok|vm_decide|]. intros l s2 Hs2 Hl. wp_ret.
    intros s3 Hs3. apply HQ; [eauto using same_trans|]. by rewrite Hl, (same_tbl _ _ Hs1). }
  destruct Hb as [Hb|[b Hb]].
  - apply wp_GetBlueprint_none; [done|vm_decide|done|]. intros s1 Hs1.
    apply (Hrest (Err "no blueprints found")); [done|].
    unfold blueprintText. by rewrite Hb.
  - eapply wp_GetBlueprint; [done|vm_decide|exact Hb|]. intros s1 Hs1. apply (Hrest (Val b)); [done|].
    unfold blueprintText. by rewrite Hb.
Qed.

Lemma findMachine_Some cloudID machines m :
  findMachine cloudID machines = Some m → m ∈ machines ∧ m_CloudID m = cloudID.
Proof.
  unfold findMachine. induction machines as [|m' ms IH] using rev_ind; [done|].
  rewrite foldl_app. simpl. case_bool; [intros [= <-]; set_solver|]. intros []%IH. set_solver.
Qed.

Lemma findMachine_None cloudID machines :
  findMachine cloudID machines = None → ∀ m, m ∈ machines → m_CloudID m ≠ cloudID.
Proof.
  unfold findMachine. induction machines as [|m' ms IH] using rev_ind; [set_solver|].
  rewrite foldl_app. simpl. case_bool; [done|]. intros Hf m [?|Hm]%elem_of_app; [by apply IH|].
  by apply list_elem_of_singleton in Hm as ->.
Qed.

(** A configuration the foreman may send to the machine at [ip], at time [t]:
    that of a reachable machine, and not before the cluster is ready unless the
    grace period is over. *)
Definition may_send (cutoff t : Z) (s : store) (ip : string) (cfg : MinionConfig) : Prop :=
  ∃ machines m, machines ≡ₚ reachables s ∧ m ∈ machines ∧ m_PublicIP m = ip ∧
    cfg = makeConfig machines m (blueprintText s) ∧
    (clusterReady machines = true ∨ cutoff ≤ t)%Z.

(** An invariant of the world that all calls keep, sending included when it is allowed. *)
Record keeps (P : W → Prop) (cutoff : Z) (s : store) : Prop := {
  kp_new : ∀ ip w, P w → wp (newClient ip) w (λ _ w', P w');
  kp_get : ∀ ip w, P w → wp (getMinion ip) w (λ _ w', P w');
  kp_close : ∀ ip w, P w → wp (Close ip) w (λ _ w', P w');
  kp_set : ∀ ip cfg w, P w → may_send cutoff (timeNow w) s ip cfg →
    wp (setMinion ip cfg) w (λ _ w', P w');
}.

Lemma wp_talk P cutoff s machines m w Q :
  keeps P cutoff s → machines ≡ₚ reachables s → m ∈ machines → P w →
  (∀ r w', P w' → (r.2 = false → r.1 = PB_NONE) → Q r w') →
  wp (talk cutoff machines m (blueprintText s)) w Q.
Proof.
  intros Hk Hms Hm HP HQ. unfold talk. wp_bind.
  eapply wp_mono; [by apply (kp_get _ _ _ Hk)|]. intros [cfg|e] w1 HP1; [|wp_ret; by apply HQ].
  wp_bind. change (wp get w1 ?Q) with (Q w1 w1). simpl.
  destruct (negb (clusterReady machines) && bool_decide (timeNow w1 < cutoff)%Z) eqn:Hc;
    [wp_ret; by apply HQ|].
  wp_bind. case_bool; [|wp_ret; wp_ret; by apply HQ].
  wp_bind. eapply wp_mono; [apply (kp_set _ _ _ Hk _ _ w1 HP1)|].
  - exists machines, m. split_and!; [done..|].
    apply andb_false_iff in Hc as [Hc|Hc%bool_decide_eq_false]; [left|right; lia].
    by destruct (clusterReady machines).
  - intros ? w2 HP2. wp_ret. wp_ret. by apply HQ.
Qed.

Lemma wp_foreman_runOnce P cutoff cloudID s w Q :
  DbOK {[BlueprintTable; MachineTable]} s →
  (tbl Blueprint s = ∅ ∨ ∃ b, vals (tbl Blueprint s) = [b]) →
  keeps P cutoff s → P w →
  (∀ r s' w', same s s' → P w' → (r.2 = false → r.1 = PB_NONE) →
     ((∀ m, m ∈ reachables s → m_CloudID m ≠ cloudID) → r = (PB_NONE, false)) → Q r (s', w')) →
  wp (runOnce bpString cutoff cloudID) (s, w) Q.
Proof.
  intros Hok Hb Hk HP HQ. unfold runOnce. wp_bind. apply wp_onFst. simpl.
  apply wp_readState; [done|done|]. intros machines s1 Hs1 Hms.
  destruct (findMachine cloudID machines) as [m|] eqn:Hf.
  2:{ wp_ret. by apply HQ. }
  apply findMachine_Some in Hf as [Hm Hid].
  assert (¬ ∀ m, m ∈ reachables s → m_CloudID m ≠ cloudID) as Hsome.
  { intros Hall. apply (Hall m); [by rewrite <-Hms|done]. }
  wp_bind. apply wp_onSnd. simpl. eapply wp_mono; [by apply (kp_new _ _ _ Hk)|].
  intros [[]|e] w1 HP1; [|wp_ret; by apply HQ].
  wp_bind. apply wp_onSnd. simpl. eapply wp_talk; [done|done|done|done|].
  intros r w2 HP2 Hr. wp_bind. apply wp_onSnd. simpl.
  eapply wp_mono; [by apply (kp_close _ _ _ Hk)|]. intros [] w3 HP3. wp_ret. by apply HQ.
Qed.
End spec.

(** ** Recording the result *)

Lemma statusRow_ID role conn m : m_ID (statusRow role conn m) = m_ID m.
Proof. unfold statusRow. by case_bool. Qed.

(** The machines with a cloud ID. *)
Definition withCloudID (cloudID : string) (s : store) : list Machine :=
  filter (passes (Some (λ m, bool_decide (m_CloudID m = cloudID)))) (vals (tbl Machine s)).

Lemma wp_setMinionStatus `{MapOrder} cloudID role conn s Q :
  DbOK {[MachineTable]} s →
  (∀ s', wf s' → only MachineTable s s' →
     tbl Machine s' =
       match withCloudID cloudID s with
       | [m] => if decide (m_Status m = Stopping) then tbl Machine s
                else <[m_ID m := statusRow role conn m]> (tbl Machine s)
       | _ => tbl Machine s
       end → Q () s') →
  wp (setMinionStatus cloudID role conn) s Q.
Proof.
  intros Hok0 HQ. assert (DbOK (list_to_set [MachineTable]) s) as Hok.
  { eapply (eq_ind _ (λ X, DbOK X s)); [exact Hok0|set_solver]. }
  apply wp_Run; [intros tn Htn; apply elem_of_dom; destruct Hok as [_ Hd]; set_solver|].
  unfold setMinionStatusTxn. wp_bind. apply wp_SelectFrom; [done|vm_decide|].
  intros l s1 Hs1 Hl. fold (withCloudID cloudID s) in Hl.
  pose proof (same_ok _ _ _ Hs1 Hok) as Hok1.
  assert (∀ s', same s s' → tbl Machine s = match withCloudID cloudID s with
       | [m] => if decide (m_Status m = Stopping) then tbl Machine s
                else <[m_ID m := statusRow role conn m]> (tbl Machine s)
       | _ => tbl Machine s end → Q () s') as Hnop.
  { intros s' Hs' Heq. apply HQ; [by eapply same_wf; [|apply Hok]|by apply same_only|].
    by rewrite (same_tbl _ _ Hs'). }
  destruct l as [|m [|m2 l]].
  - wp_ret. intros s2 Hs2. apply Hnop; [eauto with kelda|].
    symmetry in Hl. apply Permutation_nil_r in Hl. by rewrite Hl.
  - symmetry in Hl. apply Permutation_singleton_r in Hl. rewrite Hl in *.
    case_bool as [Hst|Hst].
    { wp_ret. intros s2 Hs2. apply Hnop; [eauto with kelda|]. by rewrite decide_True. }
    assert (tbl Machine s1 !! rowID (statusRow role conn m) = Some m) as Hrow.
    { unfold rowID. simpl. rewrite statusRow_ID, (same_tbl _ _ Hs1).
      change (tbl Machine s !! rowID m = Some m). apply elem_of_tbl; [apply Hok|].
      assert (m ∈ withCloudID cloudID s) as Hin by (rewrite Hl; set_solver).
      unfold withCloudID in Hin. apply list_elem_of_filter in Hin. tauto. }
    eapply wp_CommitT; [done|vm_decide|exact Hrow|]. intros s2 Hok2 Ho _ Ht s3 Hs3.
    apply HQ.
    + eapply same_wf; [done|apply Hok2].
    + eapply only_trans; [by apply same_only|]. eapply only_trans; [done|by apply same_only].
    + rewrite (same_tbl _ _ Hs3), Ht, (same_tbl _ _ Hs1), decide_False by done.
      unfold rowID. simpl. by rewrite statusRow_ID.
  - wp_ret. intros s2 Hs2. apply Hnop; [eauto with kelda|]. apply Permutation_length in Hl.
    destruct (withCloudID cloudID s) as [|? [|??]]; done.
Qed.

(** ** Properties *)

(** the foreman runs one thread per machine.  From a state in which every
    known thread has an open stop channel of its own, [updateMinions] never
    closes a channel twice; afterwards the known threads are exactly those of
    the machines given, threads that were running for them are left alone,
    each other thread's channel is closed, and exactly one thread is started
    for each new machine. *)
Theorem updateMinions_tracks_machines `{MapOrder} n machines f :
  threads_ok f →
  wp (updateMinions n machines) f (λ _ f', threads_ok f' ∧
    dom (minionChans f') = list_to_set (m_CloudID <$> machines) ∧
    (∀ id ch, minionChans f !! id = Some ch → id ∈ m_CloudID <$> machines →
       minionChans f' !! id = Some ch) ∧
    (∀ id ch, minionChans f !! id = Some ch → id ∉ m_CloudID <$> machines → ch ∈ closedChans f') ∧
    (∃ new, started f' = started f ++ new ∧ NoDup new.*1 ∧
       ∀ id, id ∈ new.*1 ↔ id ∈ m_CloudID <$> machines ∧ id ∉ dom (minionChans f))).
Proof. intros Hok. apply wp_updateMinions; [done|]. intros f' ?????. done. Qed.

(** C25: what the foreman may send.  A round of a minion thread leaves the
    database as it is, reports no role unless it reached the minion, and any
    invariant of the outside world that is kept by connecting, reading and
    closing, and by sending the configuration computed from the reachable
    machines to one of them when all their roles are known or the grace period
    is over, is kept by the round: nothing else is ever sent. *)
Theorem foreman_round_sends_only_ready_configs `{MapOrder} {W} `{MinionWorld W}
    (bpString : bpBlueprint → string) (P : W → Prop) cutoff cloudID s w :
  DbOK {[BlueprintTable; MachineTable]} s →
  (tbl Blueprint s = ∅ ∨ ∃ b, vals (tbl Blueprint s) = [b]) →
  keeps bpString P cutoff s → P w →
  wp (runOnce bpString cutoff cloudID) (s, w) (λ r st, same s st.1 ∧ P st.2 ∧
    (r.2 = false → r.1 = PB_NONE) ∧
    ((∀ m, m ∈ reachables s → m_CloudID m ≠ cloudID) → r = (PB_NONE, false))).
Proof. intros. eapply wp_foreman_runOnce; [done..|]. intros r s' w' ????. done. Qed.

(** [setMinionStatus] updates the role, connection flag and status of the
    one machine with the cloud ID, unless it is stopping; with no such machine,
    or several, or a stopping one, no row changes. *)
Theorem setMinionStatus_exact `{MapOrder} cloudID role conn s :
  DbOK {[MachineTable]} s →
  wp (setMinionStatus cloudID role conn) s (λ _ s', wf s' ∧ only MachineTable s s' ∧
    tbl Machine s' =
      match withCloudID cloudID s with
      | [m] => if decide (m_Status m = Stopping) then tbl Machine s
               else <[m_ID m := statusRow role conn m]> (tbl Machine s)
      | _ => tbl Machine s
      end).
Proof. intros. apply wp_setMinionStatus; auto. Qed.

(** ** Witnesses *)

Lemma updateMinions_tracks_machines_witness :
  wp (updateMinions 0 [demo_machine 1 Worker "a"; demo_machine 2 Worker "b"])
    (mk_foreman {["b" := 0; "c" := 1]} ∅ 2 [])
    (λ _ f', minionChans f' !! "b" = Some 0 ∧ 1 ∈ closedChans f').
Proof.
  eapply wp_mono; [apply (updateMinions_tracks_machines 0 [demo_machine 1 Worker "a"; demo_machine 2 Worker "b"]
    (mk_foreman {["b" := 0; "c" := 1]} ∅ 2 []))|].
  - split; simpl.
    + intros id1 id2 ch. rewrite !lookup_insert_Some, !lookup_singleton_Some. naive_solver.
    + intros id ch. rewrite !lookup_insert_Some, !lookup_singleton_Some. set_solver by lia.
    + set_solver.
  - intros [] f' (_ & _ & Hkeep & Hstop & _). split.
    + apply Hkeep; [reflexivity|vm_decide].
    + apply (Hstop "c"); [reflexivity|vm_decide].
Defined.

(** A world in which the minions remember their configuration. *)
#[local] Instance demo_minions : MinionWorld (gmap string MinionConfig) := {
  newClient ip := mret (Val ());
  getMinion ip w := Ok (match w !! ip with Some c => Val c | None => Err "unreachable" end, w);
  setMinion ip cfg w := Ok (Val (), <[ip := cfg]> w);
  Close ip := mret ();
  timeNow w := 0%Z;
}.

Definition demo_reachable : Machine :=
  mk_Machine 2 Amazon "us-west-1" "m3.medium" 32 ["key"] "" false "i-1" "8.8.8.1" "10.1.1.1"
    Connecting None_ false.
Definition demo_foreman_db : store :=
  storeOf [RBlueprint (mk_Blueprint 1 empty_blueprint); RMachine demo_reachable].

(** Before the cutoff, with a role unknown, nothing is sent. *)
Lemma foreman_round_sends_only_ready_configs_witness :
  wp (runOnce (λ _, "{}") 100 "i-1") (demo_foreman_db, ∅)
    (λ r st, same demo_foreman_db st.1 ∧ st.2 = (∅ : gmap string MinionConfig) ∧
      (r.2 = false → r.1 = PB_NONE)).
Proof.
  eapply wp_mono; [apply (foreman_round_sends_only_ready_configs (λ _, "{}") (λ w, w = ∅) 100 "i-1"
    demo_foreman_db (∅ : gmap string MinionConfig))|].
  - vm_decide.
  - right. exists (mk_Blueprint 1 empty_blueprint). vm_compute. reflexivity.
  - split; [done..|]. intros ip cfg w -> (machines & m & Hms & Hm & _ & _ & Hr). exfalso.
    change (reachables demo_foreman_db) with [demo_reachable] in Hms.
    apply Permutation_singleton_r in Hms as ->. simpl in Hr.
    destruct Hr as [Hr|Hr]; [done|]. by compute in Hr.
  - done.
  - intros r st (? & ? & ? & _). done.
Defined.

Lemma setMinionStatus_exact_witness :
  wp (setMinionStatus "i-1" PB_WORKER true) demo_foreman_db (λ _ s',
    m_Status <$> tbl Machine s' !! 2%Z = Some Connected).
Proof.
  eapply wp_mono; [apply (setMinionStatus_exact "i-1" PB_WORKER true demo_foreman_db); vm_decide|].
  intros [] s' (_ & _ & ->). vm_compute. reflexivity.
Defined.
