(* ===== verification/MinionServer.v ===== *)
(** * Package minion, part 2: the configuration server

    Models [src/minion/server.go], the two gRPC handlers through which the
    foreman reads and writes a minion's configuration.  [SetMinionConfig]
    starts its transaction in a goroutine; the model runs it to its end. *)

From S2P Require Import Prelude GoStrings Join Blueprint DbRows Db DbSpec DbTxn DbFrame Engine Foreman.

Definition newline : ascii := "010".

Section server.
Context `{MapOrder}.
(** Go's JSON encoder and decoder on blueprints. *)
Context (bpString : bpBlueprint → string) (FromJSON : string → result bpBlueprint).

Definition GetMinionConfig : M store MinionConfig :=
  let! m := connMinionSelf in
  let! role := lift (RoleToPB (mi_Role m)) in
  let! (EtcdMembers, text) := Run [EtcdTable; BlueprintTable] (λ view,
    let! etcdRow := GetEtcd view in
    let! blueprintRow := GetBlueprint view in
    mret (match etcdRow with Val e => e_EtcdIPs e | Err _ => [] end,
          match blueprintRow with Val b => bpString (b_Blueprint b) | Err _ => "" end)) in
  mret (mk_MinionConfig "" role (mi_PrivateIP m) text (mi_Provider m) (mi_Size m) (mi_Region m) ""
          EtcdMembers (Split newline (mi_AuthorizedKeys m))).

(** What the handler writes into the minion's own row. *)
Definition minionRow (msg : MinionConfig) (m : Minion) : Minion :=
  mk_Minion (mi_ID m) true (Join_strings (String newline "") (mc_AuthorizedKeys msg)) (mi_Role m)
    (mc_PrivateIP msg) (mc_Provider msg) (mc_Size msg) (mc_Region msg) (mc_FloatingIP msg)
    (mi_HostSubnets m).

Definition setMinionConfigTables : list string :=
  updatePolicyTables ++ [EtcdTable; MinionTable; BlueprintTable].

Definition setMinionConfigTxn (bp : bpBlueprint) (msg : MinionConfig) (view : Database)
    : M store unit :=
  let! r := GetBlueprint view in
  let! blueprintRow := match r with Val b => mret b | Err _ => InsertRow view end in
  CommitT view (mk_Blueprint (b_ID blueprintRow) bp) ;;;
  let! minion := MinionSelf view in
  CommitT view (minionRow msg minion) ;;;
  let! e := GetEtcd view in
  let! etcdRow := match e with Val e => mret e | Err _ => InsertRow view end in
  CommitT view (mk_Etcd (e_ID etcdRow) (Strings_sort (mc_EtcdMembers msg)) (e_Leader etcdRow)
                  (e_LeaderIP etcdRow)) ;;;
  updatePolicy view.

Definition SetMinionConfig (msg : MinionConfig) : M store (result unit) :=
  match FromJSON (mc_Blueprint msg) with
  | Err e => mret (Err ("failed to parse blueprint: " +:+ e))
  | Val bp => Run setMinionConfigTables (setMinionConfigTxn bp msg) ;;; mret (Val ())
  end.
End server.

(** ** What the handlers do *)

Section server_spec.
Context `{MapOrder} (bpString : bpBlueprint → string) (FromJSON : string → result bpBlueprint).
Implicit Types (view : Database) (s : store).

(** A table with at most one row. *)
Definition at_most_one (T : Type) `{RowType T} s : Prop :=
  vals (tbl T s) = [] ∨ ∃ t, vals (tbl T s) = [t].

Lemma vals_nil {T} `{RowType T} s : vals (tbl T s) = [] → tbl T s = ∅.
Proof.
  unfold vals. intros Hv. apply fmap_nil_inv in Hv. by apply map_to_list_empty_iff.
Qed.

Lemma wp_GetBlueprint_any view s Q :
  DbOK view s → BlueprintTable ∈ view → at_most_one Blueprint s →
  (∀ r s', same s s' →
     match r with Val b => vals (tbl Blueprint s') = [b] | Err _ => vals (tbl Blueprint s') = [] end →
     Q r s') → wp (GetBlueprint view) s Q.
Proof.
  intros Hok Hin [Hv|[b Hv]] HQ.
  - apply wp_GetBlueprint_none; [done|done|by apply vals_nil|]. intros s' Hs. apply HQ; [done|].
    by rewrite (same_tbl _ _ Hs).
  - eapply wp_GetBlueprint; [done|done|exact Hv|]. intros s' Hs. apply HQ; [done|].
    by rewrite (same_tbl _ _ Hs).
Qed.

Lemma wp_GetEtcd_any view s Q :
  DbOK view s → EtcdTable ∈ view → at_most_one Etcd s →
  (∀ r s', same s s' →
     match r with Val e => vals (tbl Etcd s') = [e] | Err _ => vals (tbl Etcd s') = [] end →
     Q r s') → wp (GetEtcd view) s Q.
Proof.
  intros Hok Hin Hv HQ. unfold GetEtcd. wp_bind. apply wp_select_all; [done|done|].
  intros l s' Hs Hl. rewrite <-(same_tbl _ _ Hs) in Hl.
  destruct Hv as [Hv|[e Hv]]; rewrite <-(same_tbl _ _ Hs) in Hv; rewrite Hv in Hl.
  - apply Permutation_nil_r in Hl as ->. wp_ret. by apply HQ.
  - apply Permutation_singleton_r in Hl as ->. wp_ret. by apply HQ.
Qed.

Lemma wp_get_or_insert {T} `{RowType T} view s (r : result T) Q :
  DbOK view s → row_table T ∈ view →
  match r with Val t => vals (tbl T s) = [t] | Err _ => vals (tbl T s) = [] end →
  (∀ t s', stepped view (row_table T) s s' → vals (tbl T s') ≡ₚ [t] → Q t s') →
  wp (match r with Val t => mret t | Err _ => InsertRow view end) s Q.
Proof.
  intros Hok Hin Hr HQ. destruct r as [t|e].
  - wp_ret. apply HQ; [by apply stepped_refl|by rewrite Hr].
  - apply wp_frame_insert; [done|done|]. intros id s' Hst _ Hv. apply HQ; [done|]. by rewrite Hv, Hr.
Qed.

(** The engine, leader or not, leaves the three rows of the configuration. *)
Lemma wp_updatePolicy_frame view s b Q :
  DbOK view s → list_to_set updatePolicyTables ⊆ view → vals (tbl Blueprint s) = [b] →
  (∀ s', DbOK view s' → tbl Blueprint s' = tbl Blueprint s → tbl Etcd s' = tbl Etcd s →
     tbl Minion s' = tbl Minion s → Q () s') →
  wp (updatePolicy view) s Q.
Proof.
  intros Hok Hsub Hb HQ. destruct (is_leader s) eqn:Hl.
  - eapply wp_updatePolicy; [done|done|done|exact Hb|]. intros s' Hok' []. by apply HQ.
  - unfold updatePolicy. wp_bind. apply wp_EtcdLeader; [done|set_solver|].
    intros s1 Hs1. fold (is_leader s). rewrite Hl. simpl. wp_ret.
    apply HQ; [by eapply same_ok|by rewrite (same_tbl _ _ Hs1)..].
Qed.

(** The configuration is in the database. *)
Record configured (bp : bpBlueprint) (msg : MinionConfig) (m : Minion) s : Prop := {
  cf_blueprint : ∃ id, vals (tbl Blueprint s) = [mk_Blueprint id bp];
  cf_minion : filter (passes (Some mi_Self)) (vals (tbl Minion s)) = [minionRow msg m];
  cf_etcd : ∃ id l ip, vals (tbl Etcd s) = [mk_Etcd id (Strings_sort (mc_EtcdMembers msg)) l ip];
}.

Lemma singleton_eq {A} (l : list A) x : l ≡ₚ [x] → l = [x].
Proof. apply Permutation_singleton_r. Qed.

Lemma wp_CommitMinion view s msg m Q :
  DbOK view s → MinionTable ∈ view →
  filter (passes (Some mi_Self)) (vals (tbl Minion s)) = [m] →
  (∀ s', stepped view MinionTable s s' →
     filter (passes (Some mi_Self)) (vals (tbl Minion s')) = [minionRow msg m] → Q () s') →
  wp (CommitT view (minionRow msg m)) s Q.
Proof.
  intros Hok Hin Hself HQ.
  pose proof (filter_split (passes (Some mi_Self)) (vals (tbl Minion s))) as Hsplit.
  rewrite Hself in Hsplit.
  eapply wp_frame_commit; [done|done|exact Hsplit|done|]. intros s' Hst Hv. apply HQ; [done|].
  apply singleton_eq. rewrite Hv, filter_cons_True by done.
  rewrite (filter_none _ (filter _ _)); [done|]. intros x [Hx _]%list_elem_of_filter. exact Hx.
Qed.

Lemma elem_of_setMinionConfigTables tn :
  tn ∈ [BlueprintTable; MinionTable; EtcdTable] →
  tn ∈ (list_to_set setMinionConfigTables : Database).
Proof. rewrite !elem_of_cons, elem_of_nil. intros [->|[->|[->|[]]]]; vm_decide. Qed.

Lemma wp_setMinionConfigTxn bp msg m s Q :
  let view : Database := list_to_set setMinionConfigTables in
  DbOK view s → at_most_one Blueprint s → at_most_one Etcd s →
  filter (passes (Some mi_Self)) (vals (tbl Minion s)) = [m] →
  (∀ s', DbOK view s' → configured bp msg m s' → Q () s') →
  wp (setMinionConfigTxn bp msg view) s Q.
Proof.
  intros view Hok Hb He Hself HQ. unfold setMinionConfigTxn. subst view.
  pose proof elem_of_setMinionConfigTables as Hin. set (view := list_to_set _ : Database) in *.
  wp_bind. apply wp_GetBlueprint_any; [done|apply Hin; set_solver|done|]. intros r s1 Hs1 Hr.
  pose proof (same_ok _ _ _ Hs1 Hok) as Hok1.
  wp_bind. apply wp_get_or_insert; [done|apply Hin; set_solver|done|]. intros b s2 Hs2 Hb2.
  wp_bind. eapply (wp_frame_commit _ _ b); [apply Hs2|apply Hin; set_solver|exact Hb2|done|].
  intros s3 Hs3 Hb3. apply singleton_eq in Hb3.
  assert (tbl Minion s3 = tbl Minion s ∧ tbl Etcd s3 = tbl Etcd s) as [Hm3 He3].
  { by rewrite !(stepped_tbl _ _ _ _ Hs3), !(stepped_tbl _ _ _ _ Hs2), !(same_tbl _ _ Hs1) by done. }
  wp_bind. eapply wp_MinionSelf; [apply Hs3|apply Hin; set_solver|by rewrite Hm3|]. intros s4 Hs4.
  wp_bind. eapply wp_CommitMinion; [eapply same_ok; [exact Hs4|apply Hs3]|apply Hin; set_solver|
    by rewrite (same_tbl _ _ Hs4), Hm3|]. intros s5 Hs5 Hm5.
  assert (at_most_one Etcd s5) as He5.
  { unfold at_most_one. by rewrite (stepped_tbl _ _ _ _ Hs5), (same_tbl _ _ Hs4), He3 by done. }
  wp_bind. apply wp_GetEtcd_any; [apply Hs5|apply Hin; set_solver|done|]. intros e s6 Hs6 He6.
  wp_bind. apply wp_get_or_insert; [eapply same_ok; [exact Hs6|apply Hs5]|apply Hin; set_solver|done|].
  intros et s7 Hs7 He7.
  wp_bind. eapply (wp_frame_commit _ _ et); [apply Hs7|apply Hin; set_solver|exact He7|done|].
  intros s8 Hs8 He8. apply singleton_eq in He8.
  assert (tbl Minion s8 = tbl Minion s5 ∧ tbl Blueprint s8 = tbl Blueprint s3) as [Hm8 Hb8].
  { by rewrite !(stepped_tbl _ _ _ _ Hs8), !(stepped_tbl _ _ _ _ Hs7), !(same_tbl _ _ Hs6),
      !(stepped_tbl (T:=Blueprint) _ _ _ _ Hs5), !(same_tbl (T:=Blueprint) _ _ Hs4) by done. }
  eapply wp_updatePolicy_frame; [apply Hs8|vm_decide|by rewrite Hb8|].
  intros s9 Hok9 Hb9 He9 Hm9. apply HQ; [done|]. split.
  - eexists. by rewrite Hb9, Hb8.
  - by rewrite Hm9, Hm8.
  - eexists _, _, _. by rewrite He9.
Qed.

Lemma wp_SetMinionConfig bp msg m s Q :
  FromJSON (mc_Blueprint msg) = Val bp →
  DbOK (list_to_set setMinionConfigTables) s → at_most_one Blueprint s → at_most_one Etcd s →
  filter (passes (Some mi_Self)) (vals (tbl Minion s)) = [m] →
  (∀ s', DbOK (list_to_set setMinionConfigTables) s' → configured bp msg m s' → Q (Val ()) s') →
  wp (SetMinionConfig FromJSON msg) s Q.
Proof.
  intros Hj Hok Hb He Hself HQ. unfold SetMinionConfig. rewrite Hj. wp_bind.
  apply wp_Run; [exact (DbOK_tables _ _ Hok)|].
  apply (wp_setMinionConfigTxn _ _ m); [done..|]. intros s1 Hok1 [Hcb Hcm Hce] s2 Hs2. wp_ret.
  apply HQ; [by eapply same_ok|]. split; by rewrite (same_tbl _ _ Hs2).
Qed.

(** Fewer tables are as good. *)
Lemma wp_GetMinionConfig bp msg m role s Q :
  DbOK (list_to_set setMinionConfigTables) s → configured bp msg m s → RoleToPB (mi_Role m) = Ok role →
  (∀ s', same s s' →
     Q (mk_MinionConfig "" role (mc_PrivateIP msg) (bpString bp) (mc_Provider msg) (mc_Size msg)
          (mc_Region msg) "" (Strings_sort (mc_EtcdMembers msg))
          (Split newline (Join_strings (String newline "") (mc_AuthorizedKeys msg)))) s') →
  wp (GetMinionConfig bpString) s Q.
Proof.
  intros Hok [[id Hb] Hm (eid & l & ip & He)] Hrole HQ. unfold GetMinionConfig, connMinionSelf. wp_bind.
  assert (DbOK (list_to_set [MinionTable]) s) as Hok1 by (eapply DbOK_sub; [exact Hok|vm_decide]).
  assert (DbOK (list_to_set [EtcdTable; BlueprintTable]) s) as Hok2 by (eapply DbOK_sub; [exact Hok|vm_decide]).
  apply wp_Run; [exact (DbOK_tables _ _ Hok1)|].
  eapply wp_MinionSelf; [done|vm_decide|exact Hm|]. intros s1 Hs1 s2 Hs2.
  pose proof (same_trans _ _ _ Hs1 Hs2) as Hs. pose proof (same_ok _ _ _ Hs Hok2) as Hok3.
  wp_bind. eapply wp_lift; [exact Hrole|]. wp_bind.
  apply wp_Run; [exact (DbOK_tables _ _ Hok3)|]. wp_bind.
  apply wp_GetEtcd_any; [done|vm_decide|right; eexists; by rewrite (same_tbl _ _ Hs)|].
  intros r s3 Hs3 Hr. rewrite (same_tbl _ _ Hs3), (same_tbl _ _ Hs), He in Hr. wp_bind.
  apply wp_GetBlueprint_any; [by eapply same_ok|vm_decide|
    right; eexists; by rewrite (same_tbl _ _ Hs3), (same_tbl _ _ Hs)|].
  intros r' s4 Hs4 Hr'. rewrite (same_tbl _ _ Hs4), (same_tbl _ _ Hs3), (same_tbl _ _ Hs), Hb in Hr'.
  destruct r; simplify_eq. destruct r'; simplify_eq. wp_ret. intros s5 Hs5. wp_ret.
  apply HQ. eauto using same_trans.
Qed.
End server_spec.

(** ** Properties *)

(** C26: configuring a minion and asking for its configuration.  When the
    blueprint parses and the minion's database has one row for itself,
    [SetMinionConfig] succeeds and [GetMinionConfig] then answers with the
    private IP, provider, size, region, authorized keys, etcd members (sorted)
    and blueprint that were set; but it reports the minion's role and leaves
    the floating IP out, so the answer of a minion that has a role never
    equals a configuration the foreman computes and the foreman's comparison
    of the two never spares it from sending. *)
Theorem minion_config_roundtrip `{MapOrder} (bpString : bpBlueprint → string)
    (FromJSON : string → result bpBlueprint) bp msg m role s :
  FromJSON (mc_Blueprint msg) = Val bp →
  DbOK (list_to_set setMinionConfigTables) s → at_most_one Blueprint s → at_most_one Etcd s →
  filter (passes (Some mi_Self)) (vals (tbl Minion s)) = [m] → RoleToPB (mi_Role m) = Ok role →
  mc_AuthorizedKeys msg ≠ [] → Forall (lacks newline) (mc_AuthorizedKeys msg) →
  wp (SetMinionConfig FromJSON msg) s (λ r s1, r = Val () ∧
    wp (GetMinionConfig bpString) s1 (λ cfg s2, same s1 s2 ∧
      cfg = mk_MinionConfig "" role (mc_PrivateIP msg) (bpString bp) (mc_Provider msg) (mc_Size msg)
              (mc_Region msg) "" (Strings_sort (mc_EtcdMembers msg)) (mc_AuthorizedKeys msg) ∧
      (role ≠ PB_NONE → ∀ machines mm text, cfg ≠ makeConfig machines mm text))).
Proof.
  intros Hj Hok Hb He Hself Hrole Hkeys Hlacks.
  eapply wp_SetMinionConfig; [done..|]. intros s1 Hok1 Hcf. split; [done|].
  eapply (wp_GetMinionConfig bpString); [done|done|done|]. intros s2 Hs2. rewrite Split_Join by done.
  split_and!; [done|done|]. unfold makeConfig. congruence.
Qed.

(** ** Witnesses *)

Definition demo_msg : MinionConfig :=
  mk_MinionConfig "" PB_NONE "10.1.1.1" "{}" Amazon "m3.medium" "us-west-1" "1.1.1.1"
    ["10.1.1.3"; "10.1.1.2"] ["key1"; "key2"].

Definition demo_minion_db : store :=
  storeOf [RMinion (mk_Minion 1 true "" Worker "" "" "" "" "" []);
           RMinion (mk_Minion 2 false "" Master "" "" "" "" "" [])].

Lemma minion_config_roundtrip_witness :
  wp (SetMinionConfig (λ _, Val demo_blueprint) demo_msg) demo_minion_db (λ r s1, r = Val () ∧
    wp (GetMinionConfig (λ _, "{}")) s1 (λ cfg s2,
      mc_EtcdMembers cfg = ["10.1.1.2"; "10.1.1.3"] ∧
      ∀ machines mm text, cfg ≠ makeConfig machines mm text)).
Proof.
  eapply wp_mono; [apply (minion_config_roundtrip (λ _, "{}") (λ _, Val demo_blueprint) demo_blueprint demo_msg
    (mk_Minion 1 true "" Worker "" "" "" "" "" []) PB_WORKER demo_minion_db)|].
  - done.
  - vm_decide.
  - left. vm_compute. reflexivity.
  - left. vm_compute. reflexivity.
  - vm_compute. reflexivity.
  - done.
  - done.
  - repeat constructor; done.
  - intros r s1 [Hr Hg]. split; [exact Hr|]. eapply wp_mono; [exact Hg|].
    intros cfg s2 (_ & -> & Hne). split; [reflexivity|]. apply Hne. done.
Defined.
