(* ===== verification/GoNet.v ===== *)
(** * Package net: the parts of Go's standard library the minion uses

    IPv4 addresses are 32-bit integers, IPv6 addresses 128-bit ones ([To4] has
    been applied: a v4-mapped address is an [IP4]).  The textual forms follow
    Go's [net.ParseIP], [net.ParseCIDR] and [IP.String]; parsing the textual
    form of IPv6 addresses is a parameter. *)

From S2P Require Import Prelude GoStrings.

Inductive IP := IP4 (a : Z) | IP6 (a : Z).
#[export] Instance IP_eq_dec : EqDecision IP.
Proof. solve_decision. Defined.

(** An address and its mask, of the same length. *)
Inductive IPNet := Net4 (addr mask : Z) | Net6 (addr mask : Z).
#[export] Instance IPNet_eq_dec : EqDecision IPNet.
Proof. solve_decision. Defined.

Class ParseIPv6 := { parseIPv6 : string → option IP }.

(** [uint32] arithmetic. *)
Definition w32 (z : Z) : Z := (z mod 2 ^ 32)%Z.
Definition not32 (z : Z) : Z := (2 ^ 32 - 1 - w32 z)%Z.

(** [net.IPv4], and the bytes of an address. *)
Definition IPv4 (a b c d : Z) : Z := (((a * 256 + b) * 256 + c) * 256 + d)%Z.
Definition byteOf (i : Z) (a : Z) : Z := ((a / 2 ^ (8 * i)) mod 256)%Z.

(** [net.CIDRMask(n, 32)] *)
Definition CIDRMask4 (n : Z) : Z := (2 ^ 32 - 2 ^ (32 - n))%Z.
Definition CIDRMask6 (n : Z) : Z := (2 ^ 128 - 2 ^ (128 - n))%Z.

(** [IP.String] of an IPv4 address. *)
Definition IPString (a : Z) : string :=
  fmtInt (byteOf 3 a) +:+ "." +:+ fmtInt (byteOf 2 a) +:+ "." +:+
  fmtInt (byteOf 1 a) +:+ "." +:+ fmtInt (byteOf 0 a).

(** [dtoi]: a decimal prefix; the value, the rest and whether it is valid. *)
Definition digit (c : ascii) : option Z :=
  let n := Z.of_nat (nat_of_ascii c) in
  if bool_decide (48 ≤ n ≤ 57)%Z then Some (n - 48)%Z else None.

Definition big : Z := 16777215.

Fixpoint dtoi_loop (n : Z) (s : string) : Z * string * bool :=
  match s with
  | EmptyString => (n, "", true)
  | String c s' =>
    match digit c with
    | None => (n, s, true)
    | Some d => if bool_decide (big ≤ n * 10 + d)%Z then (big, s', false)
                else dtoi_loop (n * 10 + d) s'
    end
  end.

Definition dtoi (s : string) : Z * string * bool :=
  match s with
  | String c _ => match digit c with Some _ => dtoi_loop 0 s | None => (0%Z, s, false) end
  | EmptyString => (0%Z, "", false)
  end.

(** The loop of [parseIPv4] from its [i]-th byte on. *)
Fixpoint parseIPv4_loop (i : nat) (acc : Z) (fuel : nat) (s : string) : option Z :=
  match fuel with
  | 0 => if bool_decide (s = "") then Some acc else None
  | S fuel' =>
    let s1 := if bool_decide (i = 0) then Some s
              else match s with String "." s' => Some s' | _ => None end in
    match s1 with
    | None => None
    | Some s1 =>
      let '(n, rest, ok) := dtoi s1 in
      if negb ok || bool_decide (255 < n)%Z then None
      else parseIPv4_loop (S i) (acc * 256 + n)%Z fuel' rest
    end
  end.
Definition parseIPv4 (s : string) : option Z := parseIPv4_loop 0 0 4 s.

Section parse.
Context `{ParseIPv6}.

Fixpoint ParseIP_scan (s0 s : string) : option IP :=
  match s with
  | EmptyString => None
  | String c s' =>
    if bool_decide (c = "."%char) then IP4 <$> parseIPv4 s0
    else if bool_decide (c = ":"%char) then parseIPv6 s0
    else ParseIP_scan s0 s'
  end.
Definition ParseIP (s : string) : option IP := ParseIP_scan s s.

(** The part before and after the first separator. *)
Fixpoint splitAt (sep : ascii) (s : string) : option (string * string) :=
  match s with
  | EmptyString => None
  | String c s' => if bool_decide (c = sep) then Some ("", s')
                   else match splitAt sep s' with
                        | Some (x, y) => Some (String c x, y)
                        | None => None
                        end
  end.

Definition ParseCIDR (s : string) : option (IP * IPNet) :=
  match splitAt "/" s with
  | None => None
  | Some (addr, mask) =>
    let '(n, rest, ok) := dtoi mask in
    let check len := ok && bool_decide (rest = "") && bool_decide (n ≤ len)%Z in
    match parseIPv4 addr with
    | Some a => if check 32%Z then Some (IP4 a, Net4 (Z.land a (CIDRMask4 n)) (CIDRMask4 n)) else None
    | None =>
      match parseIPv6 addr with
      | Some (IP6 a) => if check 128%Z then Some (IP6 a, Net6 (Z.land a (CIDRMask6 n)) (CIDRMask6 n)) else None
      | Some (IP4 a) =>
        (* a v4-mapped address in IPv6 notation keeps that form under a long mask *)
        if check 128%Z then
          Some (IP4 a,
            if bool_decide (96 ≤ n)%Z
            then Net4 (Z.land a (CIDRMask4 (n - 96))) (CIDRMask4 (n - 96))
            else Net6 (Z.land (65535 * 2 ^ 32 + a) (CIDRMask6 n)) (CIDRMask6 n))
        else None
      | None => None
      end
    end
  end.
End parse.

(** [IPNet.Contains]; nil is contained in nothing. *)
Definition Contains (n : IPNet) (ip : option IP) : bool :=
  match n, ip with
  | Net4 nn m, Some (IP4 x) => bool_decide (Z.land nn m = Z.land x m)
  | Net6 nn m, Some (IP6 x) => bool_decide (Z.land nn m = Z.land x m)
  | _, _ => false
  end.

(** [net.IPNet.IP] as an address. *)
Definition netIP (n : IPNet) : IP := match n with Net4 a _ => IP4 a | Net6 a _ => IP6 a end.

(** ** The textual form of an address determines it *)

Lemma byteOf_range i a : (0 ≤ i)%Z → (0 ≤ byteOf i a < 256)%Z.
Proof. intros. unfold byteOf. apply Z.mod_pos_bound. lia. Qed.

Lemma IPv4_bytes a : (0 ≤ a < 2 ^ 32)%Z → IPv4 (byteOf 3 a) (byteOf 2 a) (byteOf 1 a) (byteOf 0 a) = a.
Proof.
  intros Ha. unfold IPv4, byteOf. change (8 * 3)%Z with 24%Z. change (8 * 2)%Z with 16%Z.
  change (8 * 1)%Z with 8%Z. change (8 * 0)%Z with 0%Z. rewrite Z.div_1_r.
  assert (a / 2 ^ 24 / 256 = 0)%Z as H3.
  { rewrite Z.div_div by lia. apply Z.div_small. lia. }
  assert (a / 2 ^ 16 / 256 = a / 2 ^ 24)%Z as H2 by (rewrite Z.div_div by lia; f_equal).
  assert (a / 2 ^ 8 / 256 = a / 2 ^ 16)%Z as H1 by (rewrite Z.div_div by lia; f_equal).
  assert (a / 256 = a / 2 ^ 8)%Z as H0 by done.
  pose proof (Z.div_mod (a / 2 ^ 24) 256). pose proof (Z.div_mod (a / 2 ^ 16) 256).
  pose proof (Z.div_mod (a / 2 ^ 8) 256). pose proof (Z.div_mod a 256). lia.
Qed.

(** What may follow a number. *)
Definition stops (s : string) : Prop :=
  match s with EmptyString => True | String c _ => digit c = None end.

Lemma dtoi_stop n s : stops s → dtoi_loop n s = (n, s, true).
Proof. destruct s as [|c s]; simpl; [done|]. by intros ->. Qed.

(** The numbers below 256, checked one by one. *)
Definition dtoi_byte (b : nat) : Prop :=
  ∀ rest, stops rest → dtoi (fmtInt (Z.of_nat b) +:+ rest) = (Z.of_nat b, rest, true).

Lemma dtoi_bytes : Forall dtoi_byte (seq 0 256).
Proof.
  repeat (apply Forall_cons; split;
    [intros rest Hr; cbv -[dtoi_loop stops]; simpl; apply (dtoi_stop _ _ Hr)|]).
  apply Forall_nil. done.
Qed.

Lemma dtoi_fmtInt b rest : (0 ≤ b < 256)%Z → stops rest → dtoi (fmtInt b +:+ rest) = (b, rest, true).
Proof.
  intros Hb. pose proof dtoi_bytes as Hall. rewrite Forall_forall in Hall.
  specialize (Hall (Z.to_nat b)). unfold dtoi_byte in Hall. rewrite Z2Nat.id in Hall by lia.
  apply Hall. apply elem_of_seq. lia.
Qed.

Lemma parse_last (b acc : Z) : (0 ≤ b < 256)%Z →
  parseIPv4_loop 3 acc 1 (String "." (fmtInt b)) = Some (acc * 256 + b)%Z.
Proof.
  intros Hb. pose proof (dtoi_fmtInt b "" Hb I) as Hd.
  assert (∀ x : string, x +:+ "" = x) as Happ.
  { induction x as [|c x IH]; [done|]. change (String c (x +:+ "") = String c x). by rewrite IH. }
  rewrite Happ in Hd. cbn [parseIPv4_loop]. rewrite bool_decide_eq_false_2 by done.
  rewrite Hd. simpl. rewrite bool_decide_eq_false_2 by lia. done.
Qed.

Lemma parse_step i (b acc : Z) fuel rest : (0 ≤ b < 256)%Z → stops rest →
  parseIPv4_loop (S i) acc (S fuel) (String "." (fmtInt b +:+ rest)) =
  parseIPv4_loop (S (S i)) (acc * 256 + b)%Z fuel rest.
Proof.
  intros Hb Hr. cbn [parseIPv4_loop]. rewrite bool_decide_eq_false_2 by done.
  rewrite (dtoi_fmtInt b rest Hb Hr). simpl. rewrite bool_decide_eq_false_2 by lia. done.
Qed.

Lemma parse_first (b : Z) fuel rest : (0 ≤ b < 256)%Z → stops rest →
  parseIPv4_loop 0 0 (S fuel) (fmtInt b +:+ rest) = parseIPv4_loop 1 b fuel rest.
Proof.
  intros Hb Hr. cbn [parseIPv4_loop]. rewrite bool_decide_eq_true_2 by done.
  rewrite (dtoi_fmtInt b rest Hb Hr). simpl. rewrite bool_decide_eq_false_2 by lia. done.
Qed.

Lemma parseIPv4_String a : (0 ≤ a < 2 ^ 32)%Z → parseIPv4 (IPString a) = Some a.
Proof.
  intros Ha. unfold parseIPv4, IPString.
  pose proof (byteOf_range 3 a ltac:(lia)). pose proof (byteOf_range 2 a ltac:(lia)).
  pose proof (byteOf_range 1 a ltac:(lia)). pose proof (byteOf_range 0 a ltac:(lia)).
  assert (∀ x, "." +:+ x = String "." x) as Hdot by done. rewrite !Hdot.
  rewrite parse_first by done. rewrite (parse_step 0) by done. rewrite (parse_step 1) by done.
  rewrite parse_last by done. f_equal. by apply IPv4_bytes.
Qed.

(** [IP.String] is injective on 32-bit addresses. *)
Lemma IPString_inj a b :
  (0 ≤ a < 2 ^ 32)%Z → (0 ≤ b < 2 ^ 32)%Z → IPString a = IPString b → a = b.
Proof.
  intros Ha Hb Heq. pose proof (parseIPv4_String a Ha) as H1. rewrite Heq, parseIPv4_String in H1 by done.
  by simplify_eq.
Qed.

Lemma scan_digits `{ParseIPv6} s0 (b : nat) rest :
  (b < 256) → ParseIP_scan s0 (fmtInt (Z.of_nat b) +:+ String "." rest) = IP4 <$> parseIPv4 s0.
Proof.
  assert (Forall (λ b, ∀ rest, ParseIP_scan s0 (fmtInt (Z.of_nat b) +:+ String "." rest) = IP4 <$> parseIPv4 s0)
    (seq 0 256)) as Hall.
  { repeat (apply Forall_cons; split; [intros r; cbv -[parseIPv4]; reflexivity|]). by apply Forall_nil. }
  rewrite Forall_forall in Hall. intros Hb. apply Hall, elem_of_seq. lia.
Qed.

(** The round trip through [IP.String] and [net.ParseIP]. *)
Lemma ParseIP_String `{ParseIPv6} a : (0 ≤ a < 2 ^ 32)%Z → ParseIP (IPString a) = Some (IP4 a).
Proof.
  intros Ha. unfold ParseIP. unfold IPString at 2.
  pose proof (byteOf_range 3 a ltac:(lia)) as Hb. rewrite <-(Z2Nat.id (byteOf 3 a)) by lia.
  assert (∀ x, "." +:+ x = String "." x) as Hdot by done. rewrite !Hdot.
  rewrite scan_digits by lia. by rewrite parseIPv4_String.
Qed.

(** ** Addresses of a subnet *)

(** The 32-bit masks with [k] host bits. *)
Definition hostMask (k : Z) : Z := (2 ^ 32 - 2 ^ k)%Z.

Lemma land_disjoint x y k : (0 ≤ k)%Z → Z.land (x mod 2 ^ k) (y * 2 ^ k) = 0%Z.
Proof.
  intros Hk. apply Z.bits_inj'. intros n Hn. rewrite Z.land_spec, Z.bits_0.
  destruct (Z.lt_ge_cases n k).
  - rewrite (Z.mul_pow2_bits_low y k n) by lia. apply andb_false_r.
  - rewrite Z.mod_pow2_bits_high by lia. done.
Qed.

Lemma lor_add x y k : (0 ≤ k)%Z → Z.lor (x mod 2 ^ k) (y * 2 ^ k) = (x mod 2 ^ k + y * 2 ^ k)%Z.
Proof.
  intros Hk. pose proof (land_disjoint x y k Hk) as Hl.
  rewrite Z.add_nocarry_lxor by done. by rewrite <-Z.lxor_lor.
Qed.

Lemma hostMask_mul k : (0 ≤ k ≤ 32)%Z → hostMask k = ((2 ^ (32 - k) - 1) * 2 ^ k)%Z.
Proof.
  intros Hk. unfold hostMask. rewrite Z.mul_sub_distr_r, <-Z.pow_add_r by lia.
  replace (32 - k + k)%Z with 32%Z by lia. lia.
Qed.

Lemma land_hostMask p k :
  (0 ≤ k ≤ 32)%Z → ∃ q, Z.land p (hostMask k) = (q * 2 ^ k)%Z.
Proof.
  intros Hk. exists (Z.land p (hostMask k) / 2 ^ k)%Z.
  assert (Z.land p (hostMask k) mod 2 ^ k = 0)%Z as Hm.
  { rewrite <-Z.land_ones by lia. rewrite <-Z.land_assoc, hostMask_mul by done.
    rewrite Z.land_ones, Z.mod_mul by lia. apply Z.land_0_r. }
  pose proof (Z.div_mod (Z.land p (hostMask k)) (2 ^ k) ltac:(lia)). lia.
Qed.
