(* ===== verification/Ip.v ===== *)
(** * Packages ipdef and network, part 1: addresses

    Models [src/minion/ipdef/ipdef.go] and [src/minion/network/ip.go], which
    hands out the IP addresses of containers and load balancers.  Go's random
    numbers are an arbitrary sequence [rand32]; the set of reserved addresses
    is a Go map shared by the allocating loops, threaded through them here. *)

From S2P Require Import Prelude GoStrings Join Blueprint DbRows Db DbSpec DbTxn DbFrame GoNet.

(** ** Package ipdef *)

Definition KeldaSubnet : IPNet := Net4 (IPv4 10 0 0 0) (CIDRMask4 8).
(** [KeldaSubnet.String()] *)
Definition KeldaSubnet_String : string := "10.0.0.0/8".
Definition GatewayIP : Z := IPv4 10 0 0 1.
Definition KeldaBridge : string := "kelda-int".
Definition LoadBalancerIP : Z := IPv4 10 0 0 2.

(** [%02x] on a byte. *)
Definition hexDigit (n : Z) : string :=
  default "" (["0"; "1"; "2"; "3"; "4"; "5"; "6"; "7"; "8"; "9"; "a"; "b"; "c"; "d"; "e"; "f"] !! Z.to_nat n).
Definition hex2 (b : Z) : string := hexDigit (b / 16) +:+ hexDigit (b mod 16).

(** [IPToMac]: indexing the nil [To4] of an IPv6 address panics. *)
Definition IPToMac (ip : IP) : outcome string :=
  match ip with
  | IP4 a => Ok ("02:00:" +:+ hex2 (byteOf 3 a) +:+ ":" +:+ hex2 (byteOf 2 a) +:+ ":" +:+
                 hex2 (byteOf 1 a) +:+ ":" +:+ hex2 (byteOf 0 a))
  | IP6 _ => Panic "index out of range"
  end.

Definition IPStrToMac `{ParseIPv6} (ipStr : string) : outcome string :=
  match ParseIP ipStr with None => Ok "" | Some parsedIP => IPToMac parsedIP end.

Definition ifNameSize : nat := 16.

Definition IFName (name : string) : string :=
  let size := ifNameSize - 1 in
  if bool_decide (String.length name < size) then name else String.substring 0 size name.

Definition PatchPorts (id : string) : string * string := (IFName ("br_" +:+ id), IFName ("q_" +:+ id)).

(** ** Package network: allocating addresses *)

Record ipContext := mk_ipContext {
  reserved : gset string;
  unassignedContainers : list Container;
  unassignedLoadBalancers : list LoadBalancer;
}.

Section ip.
Context `{MapOrder} `{ParseIPv6}.
Context (rand32 : nat → Z).

Definition ipBlacklisted (ip : string) (subnetBlacklist : list IPNet) : bool :=
  existsb (λ subnet, Contains subnet (ParseIP ip)) subnetBlacklist.

Definition subnetIntersects (a b : IPNet) : bool :=
  Contains a (Some (netIP b)) || Contains b (Some (netIP a)).

(** The addresses nothing may be given. *)
Definition specialIPs : gset string :=
  {[IPString GatewayIP; IPString LoadBalancerIP; IPString (IPv4 10 0 0 0)]}.

(** One row in a loop of [makeIPContext]: reserve its address, or list it as unassigned. *)
Definition classify {T} (getIP : T → string) (clear : T → T) (subnetBlacklist : list IPNet)
    (st : gset string * list T) (row : T) : gset string * list T :=
  let '(res, un) := st in
  let row := if bool_decide (getIP row ≠ "") && ipBlacklisted (getIP row) subnetBlacklist
             then clear row else row in
  if bool_decide (getIP row ≠ "") then ({[getIP row]} ∪ res, un) else (res, un ++ [row]).

Definition makeIPContext (view : Database) (subnetBlacklist : list IPNet) : M store ipContext :=
  let! dbcs := SelectFrom view None in
  let '(res, uc) := foldl (classify c_IP (set_c_IP "") subnetBlacklist) (specialIPs, []) dbcs in
  let! dbls := SelectFrom view None in
  let '(res, ul) := foldl (classify lb_IP (set_lb_IP "") subnetBlacklist) (res, []) dbls in
  mret (mk_ipContext res uc ul).

(** The address tried at [offset]. *)
Definition candidate (prefix mask randStart offset : Z) : Z :=
  Z.lor (Z.land (w32 (randStart + offset)) (not32 mask)) (Z.land prefix mask).

(** The loop of [allocateIP]; [None] when the fuel is used up. *)
Fixpoint allocateLoop (fuel : nat) (ipSet : gset string) (prefix mask randStart offset : Z)
    : option (result string) :=
  match fuel with
  | 0 => None
  | S fuel' =>
    if bool_decide (offset ≤ not32 mask)%Z then
      let randIPStr := IPString (candidate prefix mask randStart offset) in
      if bool_decide (randIPStr ∈ ipSet)
      then allocateLoop fuel' ipSet prefix mask randStart (w32 (offset + 1))
      else Some (Val randIPStr)
    else Some (Err "IP pool exhausted")
  end.

(** Enough fuel: a failed try costs a member of [ipSet]. *)
Definition allocateIP (rand : Z) (ipSet : gset string) (prefix mask : Z)
    : outcome (result string * gset string) :=
  match allocateLoop (size ipSet + 2) ipSet prefix mask (Z.land rand (not32 mask)) 0 with
  | None => Panic "allocateIP does not return"
  | Some (Val ip) => Ok (Val ip, {[ip]} ∪ ipSet)
  | Some (Err e) => Ok (Err e, ipSet)
  end.

(** [allocateIP] on [ipdef.KeldaSubnet], drawing the [k]-th random number. *)
Definition allocateKelda (k : nat) (ipSet : gset string) : outcome (result string * gset string) :=
  allocateIP (rand32 k) ipSet (IPv4 10 0 0 0) (CIDRMask4 8).

(** [allocateContainerIPs] and [allocateLoadBalancerIPs] are this loop. *)
Fixpoint allocateRows {T} `{RowType T} (setIP : string → T → T) (view : Database) (rows : list T)
    (k : nat) (res : gset string) : M store (result unit * nat * gset string) :=
  match rows with
  | [] => mret (Val (), k, res)
  | row :: rows' =>
    let! (r, res) := lift (allocateKelda k res) in
    match r with
    | Err e => mret (Err e, S k, res)
    | Val ip => CommitT view (setIP ip row) ;;; allocateRows setIP view rows' (S k) res
    end
  end.

Definition makeSubnetBlacklist (view : Database) : M store (result (list IPNet)) :=
  let! ms := SelectFrom view (Some (λ m, bool_decide (mi_Role m = Worker))) in
  let! n := nextOrder in
  let subnets : gset string := list_to_set (concat (mi_HostSubnets <$> ms)) in
  mret (foldr (λ subnetStr acc,
    match ParseCIDR subnetStr with
    | None => Err ("parse subnet " +:+ subnetStr)
    | Some (_, subnet) =>
      match acc with
      | Err e => Err e
      | Val rest => Val (if subnetIntersects KeldaSubnet subnet then subnet :: rest else rest)
      end
    end) (Val []) (range_set n subnets)).

(** The attempts of [updateIPsOnce] that are left; [err] is that of the last one. *)
Fixpoint attempts (left : nat) (view : Database) (subnetBlacklist : list IPNet) (k : nat)
    (err : result unit) : M store (result unit) :=
  match left with
  | 0 => mret err
  | S left' =>
    let! ctx := makeIPContext view subnetBlacklist in
    if bool_decide (unassignedContainers ctx = []) && bool_decide (unassignedLoadBalancers ctx = [])
    then mret (Val ())
    else
      let! (err, k, res) :=
        allocateRows set_c_IP view (unassignedContainers ctx) k (reserved ctx) in
      match err with
      | Err _ => attempts left' view subnetBlacklist k err
      | Val _ =>
        let! (err, k, res) := allocateRows set_lb_IP view (unassignedLoadBalancers ctx) k res in
        attempts left' view subnetBlacklist k err
      end
  end.

Definition updateIPsOnce (k : nat) (view : Database) : M store (result unit) :=
  let! bl := makeSubnetBlacklist view in
  match bl with
  | Err e => mret (Err ("make subnet blacklist: " +:+ e))
  | Val subnetBlacklist => attempts 3 view subnetBlacklist k (Val ())
  end.

(** One turn of [runUpdateIPs]' loop. *)
Definition runUpdateIPsOnce (k : nat) : M store (result unit) :=
  let! leader := connEtcdLeader in
  if negb leader then mret (Val ())
  else Run [ContainerTable; LoadBalancerTable; MinionTable] (updateIPsOnce k).
End ip.

(** ** allocateIP *)

Section allocate.
(** A subnet with [b] host bits. *)
Context (b prefix start : Z) (ipSet : gset string).
Context (Hb : (0 ≤ b < 32)%Z) (Hprefix : (0 ≤ prefix < 2 ^ 32)%Z) (Hstart : (0 ≤ start < 2 ^ b)%Z).

(** The network address. *)
Definition base : Z := Z.land prefix (hostMask b).

Lemma pow_b : (0 < 2 ^ b ∧ 2 ^ b ≤ 2 ^ 31)%Z.
Proof. split; [lia|]. apply Z.pow_le_mono_r; lia. Qed.

Lemma not32_hostMask : not32 (hostMask b) = (2 ^ b - 1)%Z.
Proof.
  unfold not32, w32, hostMask. pose proof pow_b. rewrite Z.mod_small by lia. lia.
Qed.

Lemma base_mul : ∃ q, base = (q * 2 ^ b)%Z ∧ (0 ≤ q)%Z ∧ (q * 2 ^ b + 2 ^ b ≤ 2 ^ 32)%Z.
Proof.
  destruct (land_hostMask prefix b ltac:(lia)) as [q Hq]. exists q. unfold base. rewrite Hq.
  assert (0 ≤ Z.land prefix (hostMask b) < 2 ^ 32)%Z as Hle.
  { rewrite <-(Z.mod_small prefix (2 ^ 32)), <-Z.land_ones, <-Z.land_assoc, (Z.land_comm (Z.ones 32)),
      Z.land_assoc, Z.land_ones by lia. apply Z.mod_pos_bound. lia. }
  pose proof pow_b. rewrite Hq in Hle. split_and!; [done|nia|].
  assert (2 ^ 32 = 2 ^ (32 - b) * 2 ^ b)%Z as Hp by (rewrite <-Z.pow_add_r by lia; f_equal; lia).
  assert (q < 2 ^ (32 - b))%Z by nia. nia.
Qed.

Lemma candidate_eq offset :
  (0 ≤ offset < 2 ^ b)%Z →
  candidate prefix (hostMask b) start offset = ((start + offset) mod 2 ^ b + base)%Z.
Proof.
  intros Ho. unfold candidate. rewrite not32_hostMask. pose proof pow_b.
  unfold w32. rewrite (Z.mod_small (start + offset)) by lia.
  assert (2 ^ b - 1 = Z.ones b)%Z as -> by (rewrite Z.ones_equiv; lia).
  rewrite Z.land_ones by lia. fold base. destruct base_mul as (q & -> & _). apply lor_add. lia.
Qed.

Lemma candidate_range offset :
  (0 ≤ offset < 2 ^ b)%Z → (0 ≤ candidate prefix (hostMask b) start offset < 2 ^ 32)%Z.
Proof.
  intros Ho. rewrite candidate_eq by done. destruct base_mul as (q & -> & ? & ?).
  pose proof (Z.mod_pos_bound (start + offset) (2 ^ b) ltac:(lia)). nia.
Qed.

Definition tried (o : nat) : string := IPString (candidate prefix (hostMask b) start (Z.of_nat o)).

Lemma tried_inj o1 o2 :
  (Z.of_nat o1 < 2 ^ b)%Z → (Z.of_nat o2 < 2 ^ b)%Z → tried o1 = tried o2 → o1 = o2.
Proof.
  intros H1 H2 Heq. unfold tried in Heq.
  apply IPString_inj in Heq; [|apply candidate_range; lia..].
  rewrite !candidate_eq in Heq by lia.
  assert ((start + Z.of_nat o1) mod 2 ^ b = (start + Z.of_nat o2) mod 2 ^ b)%Z as Hm by lia.
  pose proof (Z.div_mod (start + Z.of_nat o1) (2 ^ b) ltac:(lia)) as E1.
  pose proof (Z.div_mod (start + Z.of_nat o2) (2 ^ b) ltac:(lia)) as E2.
  rewrite Hm in E1. remember ((start + Z.of_nat o1) / 2 ^ b)%Z as d1. remember ((start + Z.of_nat o2) / 2 ^ b)%Z as d2.
  assert (Z.of_nat o1 - Z.of_nat o2 = 2 ^ b * (d1 - d2))%Z as Hd by lia.
  clear -Hd H1 H2. destruct (Z.lt_trichotomy d1 d2) as [Hlt|[->|Hlt]]; nia.
Qed.

(** A failed try costs a member of the set. *)
Lemma tried_size o :
  (Z.of_nat o ≤ 2 ^ b)%Z → (∀ o', o' < o → tried o' ∈ ipSet) → o ≤ size ipSet.
Proof.
  intros Ho Hin. set (l := tried <$> seq 0 o).
  assert (NoDup l) as Hnd.
  { apply NoDup_fmap_inj_on; [apply NoDup_seq|]. intros x y Hx Hy.
    apply elem_of_seq in Hx, Hy. apply tried_inj; lia. }
  assert (list_to_set l ⊆ ipSet) as Hsub.
  { intros x. rewrite elem_of_list_to_set. unfold l. rewrite list_elem_of_fmap.
    intros (o' & -> & Ho'). apply Hin. apply elem_of_seq in Ho'. lia. }
  apply subseteq_size in Hsub. rewrite size_list_to_set in Hsub by done.
  unfold l in Hsub. by rewrite length_fmap, length_seq in Hsub.
Qed.

(** What the loop returns: a free address of the subnet, or an error when there is none. *)
Definition allocated (r : result string) : Prop :=
  match r with
  | Val ip => ip ∉ ipSet ∧ ∃ h, (0 ≤ h < 2 ^ b)%Z ∧ ip = IPString (h + base)
  | Err e => e = "IP pool exhausted" ∧ ∀ h, (0 ≤ h < 2 ^ b)%Z → IPString (h + base) ∈ ipSet
  end.

Lemma all_tried h :
  (0 ≤ h < 2 ^ b)%Z → ∃ o, (Z.of_nat o < 2 ^ b)%Z ∧ tried o = IPString (h + base).
Proof.
  intros Hh. exists (Z.to_nat ((h - start) mod 2 ^ b)).
  pose proof (Z.mod_pos_bound (h - start) (2 ^ b) ltac:(lia)). rewrite Z2Nat.id by lia.
  split; [lia|]. unfold tried. rewrite Z2Nat.id by lia. rewrite candidate_eq by lia. do 2 f_equal.
  rewrite Zplus_mod_idemp_r. replace (start + (h - start))%Z with h by lia. by apply Z.mod_small.
Qed.

Lemma allocateLoop_ok fuel (o : nat) :
  (Z.of_nat o ≤ 2 ^ b)%Z → (∀ o', o' < o → tried o' ∈ ipSet) → fuel + o = size ipSet + 2 →
  ∃ r, allocateLoop fuel ipSet prefix (hostMask b) start (Z.of_nat o) = Some r ∧ allocated r.
Proof.
  revert o. induction fuel as [|fuel IH]; intros o Ho Hin Hf.
  { pose proof (tried_size o Ho Hin). lia. }
  cbn [allocateLoop]. rewrite not32_hostMask. pose proof pow_b. case_bool as [Hle|Hgt].
  - fold (tried o). case_bool as [Hi|Hi].
    + replace (w32 (Z.of_nat o + 1)) with (Z.of_nat (S o)).
      2:{ unfold w32. rewrite Z.mod_small; lia. }
      apply IH; [lia| |lia]. intros o' Ho'. destruct (decide (o' = o)) as [->|]; [done|]. apply Hin. lia.
    + eexists. split; [done|]. split; [done|].
      exists ((start + Z.of_nat o) mod 2 ^ b)%Z. split; [apply Z.mod_pos_bound; lia|].
      unfold tried. by rewrite candidate_eq by lia.
  - eexists. split; [done|]. split; [done|]. intros h Hh.
    destruct (all_tried h Hh) as (o' & Ho' & <-). apply Hin. lia.
Qed.

(** An exhausted pool takes as many members as the subnet has addresses. *)
Lemma exhausted_size :
  (∀ h, (0 ≤ h < 2 ^ b)%Z → IPString (h + base) ∈ ipSet) → (2 ^ b ≤ Z.of_nat (size ipSet))%Z.
Proof.
  intros Hall. pose proof pow_b.
  assert (Z.to_nat (2 ^ b) ≤ size ipSet); [|lia].
  apply tried_size; [lia|]. intros o' Ho'. unfold tried. rewrite candidate_eq by lia.
  apply Hall. apply Z.mod_pos_bound. lia.
Qed.
End allocate.

Lemma allocateIP_ok b rand ipSet prefix :
  (0 ≤ b < 32)%Z → (0 ≤ prefix < 2 ^ 32)%Z → (0 ≤ rand)%Z →
  ∃ r ipSet', allocateIP rand ipSet prefix (hostMask b) = Ok (r, ipSet') ∧
    allocated b prefix ipSet r ∧
    ipSet' = match r with Val ip => {[ip]} ∪ ipSet | Err _ => ipSet end.
Proof.
  intros Hb Hp Hr. unfold allocateIP.
  assert (0 ≤ Z.land rand (not32 (hostMask b)) < 2 ^ b)%Z as Hs.
  { rewrite not32_hostMask by done. assert (2 ^ b - 1 = Z.ones b)%Z as -> by (rewrite Z.ones_equiv; lia).
    rewrite Z.land_ones by lia. apply Z.mod_pos_bound. lia. }
  destruct (allocateLoop_ok b prefix _ ipSet Hb Hp Hs (size ipSet + 2) 0) as (r & Hr' & Ha);
    [lia|lia|lia|].
  change (Z.of_nat 0) with 0%Z in Hr'. rewrite Hr'. destruct r; eexists _, _; split_and!; eauto.
Qed.

(** ** One table of an attempt *)

Definition keldaIP (ip : string) : Prop :=
  ∃ h, (0 ≤ h < 2 ^ 24)%Z ∧ ip = IPString (h + IPv4 10 0 0 0).

Lemma allocateKelda_ok rand32 k res :
  (∀ k, 0 ≤ rand32 k)%Z → (Z.of_nat (size res) < 2 ^ 24)%Z →
  ∃ ip, allocateKelda rand32 k res = Ok (Val ip, {[ip]} ∪ res) ∧ ip ∉ res ∧ keldaIP ip.
Proof.
  intros Hrand Hsize. unfold allocateKelda. change (CIDRMask4 8) with (hostMask 24).
  destruct (allocateIP_ok 24 (rand32 k) res (IPv4 10 0 0 0)) as (r & res' & -> & Ha & ->);
    [lia|done|done|].
  assert (base 24 (IPv4 10 0 0 0) = IPv4 10 0 0 0) as Hbase by reflexivity.
  destruct r as [ip|e]; destruct Ha as [Hni Hh].
  - exists ip. split_and!; [done|done|]. unfold keldaIP. by rewrite <-Hbase.
  - apply (exhausted_size 24 _ 0) in Hh; [lia|lia|done|lia].
Qed.

Section rows.
Context `{MapOrder} `{ParseIPv6} {T : Type} `{RowType T}.
Context (getIP : T → string) (setIP : string → T → T) (bl : list IPNet).
Context (get_set : ∀ i t, getIP (setIP i t) = i) (set_set : ∀ i j t, setIP i (setIP j t) = setIP i t).
Context (set_id : ∀ i t, rowID (setIP i t) = rowID t).

(** A row whose address may stay. *)
Definition good (t : T) : Prop := getIP t ≠ "" ∧ ipBlacklisted (getIP t) bl = false.
#[local] Instance good_dec t : Decision (good t).
Proof. unfold good. apply _. Defined.

(** The copy of a row that is listed as unassigned. *)
Definition cleared (t : T) : T := if bool_decide (getIP t ≠ "") then setIP "" t else t.

Lemma classify_rows rows res un :
  foldl (classify getIP (setIP "") bl) (res, un) rows =
  (res ∪ list_to_set (getIP <$> filter good rows), un ++ (cleared <$> filter (λ t, ¬ good t) rows)).
Proof.
  revert res un. induction rows as [|t rows IH]; intros res un; simpl.
  { f_equal; [set_solver|by rewrite app_nil_r]. }
  unfold cleared, good in *. destruct (decide (getIP t = "")) as [He|He].
  - simpl_bd. simpl. simpl_bd. rewrite IH.
    rewrite filter_cons_False, filter_cons_True by tauto. csimpl. simpl_bd. by rewrite <-app_assoc.
  - rewrite (bool_decide_eq_true_2 (getIP t ≠ "")) by done. simpl.
    destruct (ipBlacklisted (getIP t) bl) eqn:Hbl.
    + rewrite get_set. simpl_bd. simpl. rewrite IH.
      rewrite filter_cons_False, filter_cons_True by (rewrite ?Hbl; intuition congruence).
      csimpl. simpl_bd. by rewrite <-app_assoc.
    + simpl_bd. rewrite IH. rewrite filter_cons_True, filter_cons_False by (rewrite ?Hbl; intuition congruence).
      csimpl. f_equal. set_solver.
Qed.

Lemma setIP_cleared i t : setIP i (cleared t) = setIP i t.
Proof. unfold cleared. case_bool; [apply set_set|done]. Qed.

(** New addresses for [rows], none of them in [res]. *)
Record new_ips (res : gset string) (n : nat) (ips : list string) : Prop := {
  ni_length : length ips = n;
  ni_nodup : NoDup ips;
  ni_fresh : ∀ ip, ip ∈ ips → ip ∉ res;
  ni_kelda : ∀ ip, ip ∈ ips → keldaIP ip;
}.

Lemma wp_allocateRows rand32 view s rows rest k res Q :
  (∀ k, 0 ≤ rand32 k)%Z → DbOK view s → row_table T ∈ view →
  (Z.of_nat (size res + length rows) < 2 ^ 24)%Z → vals (tbl T s) ≡ₚ rows ++ rest →
  (∀ ips k' s', stepped view (row_table T) s s' → new_ips res (length rows) ips →
     vals (tbl T s') ≡ₚ zip_with setIP ips rows ++ rest →
     Q (Val (), k', res ∪ list_to_set ips) s') →
  wp (allocateRows rand32 setIP view (cleared <$> rows) k res) s Q.
Proof.
  intros Hrand. revert s rest k res Q.
  induction rows as [|t rows IH]; intros s rest k res Q Hok Hin Hsize Hv HQ; csimpl.
  { wp_ret. replace res with (res ∪ list_to_set []) by set_solver.
    apply (HQ []); [by apply stepped_refl| |done]. split; [done|constructor|set_solver..]. }
  simpl in Hsize. wp_bind.
  destruct (allocateKelda_ok rand32 k res Hrand) as (ip & Hal & Hni & Hk); [lia|].
  eapply wp_lift; [exact Hal|]. wp_bind.
  eapply (wp_frame_commit _ _ t); [done|done|exact Hv|by rewrite set_id, <-(set_id "" t), <-(setIP_cleared "" t), set_id|].
  intros s1 Hs1 Hv1. rewrite setIP_cleared in Hv1.
  apply (IH _ (setIP ip t :: rest)); [apply Hs1|done| | |].
  - rewrite size_union, size_singleton by set_solver. lia.
  - by rewrite Hv1, <-Permutation_middle.
  - intros ips k' s2 Hs2 [Hlen Hnd Hfr Hke] Hv2.
    replace ({[ip]} ∪ res ∪ list_to_set ips) with (res ∪ list_to_set (ip :: ips)) by set_solver.
    apply (HQ (ip :: ips)); [by eapply stepped_trans| |].
    + split; simpl; [by rewrite Hlen|constructor; [|done]|..]; set_solver.
    + simpl. by rewrite Hv2, <-Permutation_middle.
Qed.
End rows.

(** ** A whole attempt *)

Lemma keldaIP_nonempty ip : keldaIP ip → ip ≠ "".
Proof.
  intros (h & Hh & ->) He. assert (0 ≤ h + IPv4 10 0 0 0 < 2 ^ 32)%Z as Hr by (unfold IPv4; lia).
  pose proof (parseIPv4_String _ Hr) as Hp. by rewrite He in Hp.
Qed.

Lemma fmap_zip_with_ips {T} (getIP : T → string) (setIP : string → T → T) ips (rows : list T) :
  (∀ i t, getIP (setIP i t) = i) → length ips = length rows → getIP <$> zip_with setIP ips rows = ips.
Proof.
  intros Hgs. revert rows. induction ips as [|i ips IH]; intros [|t rows] Hl; csimpl in *; try done.
  rewrite Hgs, IH; [done|lia].
Qed.

Lemma fmap_zip_with_clear {T} (setIP : string → T → T) ips (rows : list T) :
  (∀ i j t, setIP i (setIP j t) = setIP i t) → length ips = length rows →
  setIP "" <$> zip_with setIP ips rows = setIP "" <$> rows.
Proof.
  intros Hss. revert rows. induction ips as [|i ips IH]; intros [|t rows] Hl; csimpl in *; try done.
  rewrite Hss, IH; [done|lia].
Qed.

Lemma good_ips_submseteq `{ParseIPv6} {T} (getIP : T → string) bl (rows : list T) :
  getIP <$> filter (good getIP bl) rows ⊆+ filter (λ ip, ip ≠ "") (getIP <$> rows).
Proof.
  induction rows as [|t rows IH]; [done|]. csimpl. rewrite !filter_cons.
  destruct (decide (good getIP bl t)) as [Hg|Hg]; csimpl.
  - rewrite decide_True by apply Hg. by apply submseteq_skip.
  - case_decide; [by apply submseteq_cons|done].
Qed.

Section attempt.
Context `{MapOrder} `{ParseIPv6}.
Implicit Types (view : Database) (s : store) (bl : list IPNet).

Definition conts s : list Container := vals (tbl Container s).
Definition lbs s : list LoadBalancer := vals (tbl LoadBalancer s).
Definition ips s : list string := (c_IP <$> conts s) ++ (lb_IP <$> lbs s).

(** No two containers or load balancers share an address, and none has a special one. *)
Definition ip_inv s : Prop :=
  NoDup (filter (λ ip, ip ≠ "") (ips s)) ∧ ∀ ip, ip ∈ ips s → ip ∉ specialIPs.

Definition all_assigned s : Prop := ∀ ip, ip ∈ ips s → ip ≠ "".

(** Only addresses change, and addresses that may stay do. *)
Record ip_frame view bl s s' : Prop := {
  fr_ok : DbOK view s';
  fr_conts : set_c_IP "" <$> conts s' ≡ₚ set_c_IP "" <$> conts s;
  fr_lbs : set_lb_IP "" <$> lbs s' ≡ₚ set_lb_IP "" <$> lbs s;
  fr_good_c : ∀ c, c ∈ conts s → good c_IP bl c → c ∈ conts s';
  fr_good_l : ∀ l, l ∈ lbs s → good lb_IP bl l → l ∈ lbs s';
  fr_tables : ∀ tn, tn ≠ ContainerTable → tn ≠ LoadBalancerTable → abs_rows s' !! tn = abs_rows s !! tn;
}.

Lemma ip_frame_refl view bl s : DbOK view s → ip_frame view bl s s.
Proof. by split. Qed.

Lemma ip_frame_trans view bl s1 s2 s3 :
  ip_frame view bl s1 s2 → ip_frame view bl s2 s3 → ip_frame view bl s1 s3.
Proof.
  intros [? C1 L1 GC1 GL1 T1] [? C2 L2 GC2 GL2 T2]. split; [done|by etrans|by etrans|auto|auto|].
  intros tn ??. by rewrite T2, T1.
Qed.

Lemma same_frame view bl s s' : DbOK view s → same s s' → ip_frame view bl s s'.
Proof.
  intros Hok Hs. pose proof (same_tbl (T:=Container) _ _ Hs) as Hc.
  pose proof (same_tbl (T:=LoadBalancer) _ _ Hs) as Hl. unfold conts, lbs.
  split; unfold conts, lbs; rewrite ?Hc, ?Hl; auto; [by eapply same_ok|]. intros. by rewrite (proj1 Hs).
Qed.

Lemma same_ips s s' : same s s' → ips s' = ips s.
Proof. intros Hs. unfold ips, conts, lbs. by rewrite !(same_tbl _ _ Hs). Qed.

(** The context an attempt starts from. *)
Record context_of bl s (ctx : ipContext) (dbcs : list Container) (dbls : list LoadBalancer) : Prop := {
  cx_conts : dbcs ≡ₚ conts s;
  cx_lbs : dbls ≡ₚ lbs s;
  cx_reserved : reserved ctx = specialIPs ∪ list_to_set (c_IP <$> filter (good c_IP bl) dbcs)
    ∪ list_to_set (lb_IP <$> filter (good lb_IP bl) dbls);
  cx_uc : unassignedContainers ctx = cleared c_IP set_c_IP <$> filter (λ c, ¬ good c_IP bl c) dbcs;
  cx_ul : unassignedLoadBalancers ctx = cleared lb_IP set_lb_IP <$> filter (λ l, ¬ good lb_IP bl l) dbls;
}.

Lemma wp_makeIPContext view bl s Q :
  DbOK view s → ContainerTable ∈ view → LoadBalancerTable ∈ view →
  (∀ ctx dbcs dbls s', same s s' → context_of bl s ctx dbcs dbls → Q ctx s') →
  wp (makeIPContext view bl) s Q.
Proof.
  intros Hok HinC HinL HQ. unfold makeIPContext. wp_bind. apply wp_select_all; [done|done|].
  intros dbcs s1 Hs1 Hc. rewrite (classify_rows c_IP set_c_IP bl) by done.
  wp_bind. apply wp_select_all; [by eapply same_ok|done|]. intros dbls s2 Hs2 Hl.
  rewrite (classify_rows lb_IP set_lb_IP bl) by done. wp_ret.
  apply (HQ _ dbcs dbls); [by eapply same_trans|]. split; try done. by rewrite Hl, (same_tbl _ _ Hs1).
Qed.

Lemma context_size bl s ctx dbcs dbls :
  context_of bl s ctx dbcs dbls →
  size (reserved ctx) ≤ 3 + length (filter (good c_IP bl) dbcs) + length (filter (good lb_IP bl) dbls).
Proof.
  intros []. rewrite cx_reserved0.
  assert (∀ (X Y : gset string), size (X ∪ Y) ≤ size X + size Y) as Hu.
  { intros X Y. rewrite size_union_alt. pose proof (subseteq_size (Y ∖ X) Y ltac:(set_solver)). lia. }
  assert (∀ l : list string, size (list_to_set (C:=gset string) l) ≤ length l) as Hl.
  { induction l as [|x l IH]; [by rewrite list_to_set_nil, size_empty|].
    rewrite list_to_set_cons. cbn [length]. pose proof (Hu {[x]} (list_to_set l)) as Hx. rewrite size_singleton in Hx. lia. }
  pose proof (Hu (specialIPs ∪ list_to_set (c_IP <$> filter (good c_IP bl) dbcs))
    (list_to_set (lb_IP <$> filter (good lb_IP bl) dbls))).
  pose proof (Hu specialIPs (list_to_set (c_IP <$> filter (good c_IP bl) dbcs))).
  pose proof (Hl (c_IP <$> filter (good c_IP bl) dbcs)) as Hlc.
  pose proof (Hl (lb_IP <$> filter (good lb_IP bl) dbls)) as Hll.
  rewrite length_fmap in Hlc. rewrite length_fmap in Hll.
  assert (size specialIPs = 3) as H3 by reflexivity. lia.
Qed.

Lemma submseteq_NoDup {A} (l k : list A) : l ⊆+ k → NoDup k → NoDup l.
Proof.
  intros [x Hx]%submseteq_Permutation Hk. rewrite Hx in Hk. by apply NoDup_app in Hk as [? _].
Qed.

(** The addresses after an attempt: the new ones and those that stayed. *)
Lemma attempt_inv bl s s' ctx dbcs dbls n1 n2 ips1 ips2 :
  ip_inv s → context_of bl s ctx dbcs dbls →
  new_ips (reserved ctx) n1 ips1 → new_ips (reserved ctx ∪ list_to_set ips1) n2 ips2 →
  ips s' ≡ₚ (ips1 ++ (c_IP <$> filter (good c_IP bl) dbcs)) ++
            (ips2 ++ (lb_IP <$> filter (good lb_IP bl) dbls)) →
  ip_inv s' ∧ all_assigned s'.
Proof.
  intros [Hnd Hsp] [Hc Hl Hres _ _] [_ N1 F1 K1] [_ N2 F2 K2] Hips.
  set (gc := c_IP <$> filter (good c_IP bl) dbcs) in *.
  set (gl := lb_IP <$> filter (good lb_IP bl) dbls) in *.
  assert (gc ++ gl ⊆+ filter (λ ip, ip ≠ "") (ips s)) as Hsub.
  { unfold ips. rewrite filter_app, <-Hc, <-Hl. apply submseteq_app; apply good_ips_submseteq. }
  assert (∀ ip, ip ∈ gc ++ gl → ip ≠ "" ∧ ip ∈ ips s ∧ ip ∈ reserved ctx) as Hg.
  { intros ip Hin. pose proof (elem_of_submseteq _ _ _ Hin Hsub) as [? ?]%list_elem_of_filter.
    split_and!; [done|done|]. rewrite Hres. apply elem_of_app in Hin as [?|?]; set_solver. }
  assert (NoDup (gc ++ gl)) as Hndg by by eapply submseteq_NoDup.
  assert (∀ ip, ip ∈ ips s' → ip ≠ "" ∧ ip ∉ specialIPs) as Hall.
  { intros ip. rewrite Hips, !elem_of_app. intros [[Hin|Hin]|[Hin|Hin]].
    - split; [by apply keldaIP_nonempty, K1|]. apply F1 in Hin. intros Hs. apply Hin. rewrite Hres, !elem_of_union. auto.
    - destruct (Hg ip) as (? & ? & _); [set_solver|]. auto.
    - split; [by apply keldaIP_nonempty, K2|]. apply F2 in Hin. intros Hs. apply Hin. rewrite Hres, !elem_of_union. auto.
    - destruct (Hg ip) as (? & ? & _); [set_solver|]. auto. }
  split; [split; [|by intros ip []%Hall]|by intros ip []%Hall].
  rewrite filter_all by (by intros ip []%Hall). rewrite Hips.
  apply NoDup_app in Hndg as (Hc' & Hcl & Hl').
  assert (∀ ip, ip ∈ gc → ip ∈ reserved ctx) as Hgc by (intros; apply Hg; set_solver).
  assert (∀ ip, ip ∈ gl → ip ∈ reserved ctx) as Hgl by (intros; apply Hg; set_solver).
  assert (∀ ip, ip ∈ ips2 → ip ∉ ips1 ∧ ip ∉ reserved ctx) as F2'.
  { intros ip Hin. apply F2 in Hin. rewrite elem_of_union, elem_of_list_to_set in Hin. tauto. }
  apply NoDup_app. split_and!.
  - apply NoDup_app. split_and!; [done| |done]. intros ip H1 H2. by apply (F1 ip), Hgc.
  - intros ip. rewrite !elem_of_app. intros [H1|H1] [H2|H2].
    + by destruct (F2' ip).
    + by apply (F1 ip), Hgl.
    + destruct (F2' ip) as [_ ?]; auto.
    + by apply (Hcl ip).
  - apply NoDup_app. split_and!; [done| |done]. intros ip H1 H2. destruct (F2' ip) as [_ ?]; auto.
Qed.

(** The rows after an attempt, table by table. *)
Lemma attempt_frame view bl s s1 s2 s3 ctx dbcs dbls ips1 ips2 :
  same s s1 → context_of bl s ctx dbcs dbls →
  stepped view ContainerTable s1 s2 → stepped view LoadBalancerTable s2 s3 →
  length ips1 = length (filter (λ c, ¬ good c_IP bl c) dbcs) →
  length ips2 = length (filter (λ l, ¬ good lb_IP bl l) dbls) →
  vals (tbl Container s2) ≡ₚ zip_with set_c_IP ips1 (filter (λ c, ¬ good c_IP bl c) dbcs) ++
    filter (good c_IP bl) dbcs →
  vals (tbl LoadBalancer s3) ≡ₚ zip_with set_lb_IP ips2 (filter (λ l, ¬ good lb_IP bl l) dbls) ++
    filter (good lb_IP bl) dbls →
  ip_frame view bl s s3 ∧
  ips s3 ≡ₚ (ips1 ++ (c_IP <$> filter (good c_IP bl) dbcs)) ++
            (ips2 ++ (lb_IP <$> filter (good lb_IP bl) dbls)).
Proof.
  intros Hs1 [Hc Hl _ _ _] Hs2 Hs3 Hl1 Hl2 Hv2 Hv3.
  assert (conts s3 ≡ₚ zip_with set_c_IP ips1 (filter (λ c, ¬ good c_IP bl c) dbcs) ++
    filter (good c_IP bl) dbcs) as Hconts.
  { unfold conts. by rewrite (stepped_tbl _ _ _ _ Hs3). }
  fold (lbs s3) in Hv3. split; [split|].
  - apply Hs3.
  - rewrite Hconts, <-Hc, fmap_app, fmap_zip_with_clear by done.
    rewrite (filter_split (good c_IP bl) dbcs) at 3. rewrite fmap_app. apply Permutation_app_comm.
  - rewrite Hv3, <-Hl, fmap_app, fmap_zip_with_clear by done.
    rewrite (filter_split (good lb_IP bl) dbls) at 3. rewrite fmap_app. apply Permutation_app_comm.
  - intros c Hin Hg. rewrite Hconts. apply elem_of_app. right. apply list_elem_of_filter. by rewrite Hc.
  - intros l Hin Hg. rewrite Hv3. apply elem_of_app. right. apply list_elem_of_filter. by rewrite Hl.
  - intros tn H1 H2. rewrite (st_only _ _ _ _ Hs3), (st_only _ _ _ _ Hs2) by done. by rewrite (proj1 Hs1).
  - unfold ips. rewrite Hconts, Hv3, !fmap_app, !fmap_zip_with_ips by done. done.
Qed.

(** Rows in the two tables; the subnet has room for all of them. *)
Definition room s : Prop := (Z.of_nat (length (conts s) + length (lbs s) + 3) < 2 ^ 24)%Z.

Lemma room_frame view bl s s' : ip_frame view bl s s' → room s → room s'.
Proof.
  intros [_ Hc Hl _ _ _]. apply Permutation_length in Hc, Hl. rewrite !length_fmap in Hc. rewrite !length_fmap in Hl.
  unfold room. by rewrite Hc, Hl.
Qed.

Lemma wp_attempts rand32 left view bl k err s Q :
  (∀ k, 0 ≤ rand32 k)%Z → DbOK view s → ContainerTable ∈ view → LoadBalancerTable ∈ view → room s → ip_inv s →
  (left = 0 → err = Val () ∧ all_assigned s) →
  (∀ s', ip_frame view bl s s' → ip_inv s' → all_assigned s' → Q (Val ()) s') →
  wp (attempts rand32 left view bl k err) s Q.
Proof.
  intros Hrand Hok HinC HinL. revert k err s Q Hok.
  induction left as [|left IH]; intros k err s Q Hok Hroom Hinv Hzero HQ; simpl.
  { destruct Hzero as [-> Hall]; [done|]. wp_ret. apply HQ; [by apply ip_frame_refl|done..]. }
  wp_bind. apply (wp_makeIPContext _ bl); [done|done|done|]. intros ctx dbcs dbls s1 Hs1 Hctx.
  pose proof (context_size _ _ _ _ _ Hctx) as Hsize.
  pose proof (Permutation_length (filter_split (good c_IP bl) dbcs)) as Hsc.
  pose proof (Permutation_length (filter_split (good lb_IP bl) dbls)) as Hsl.
  pose proof (Permutation_length (cx_conts _ _ _ _ _ Hctx)) as Hlc.
  pose proof (Permutation_length (cx_lbs _ _ _ _ _ Hctx)) as Hll.
  rewrite length_app in Hsc. rewrite length_app in Hsl. unfold room in Hroom.
  destruct (bool_decide (unassignedContainers ctx = []) && bool_decide (unassignedLoadBalancers ctx = []))
    eqn:Hdone.
  { apply andb_true_iff in Hdone as [Hu1%bool_decide_eq_true Hu2%bool_decide_eq_true]. wp_ret.
    assert (ip_inv s1) as Hinv1 by (unfold ip_inv; by rewrite (same_ips _ _ Hs1)).
    apply HQ; [by apply same_frame|done|]. unfold all_assigned. rewrite (same_ips _ _ Hs1).
    rewrite (cx_uc _ _ _ _ _ Hctx) in Hu1. rewrite (cx_ul _ _ _ _ _ Hctx) in Hu2.
    apply fmap_nil_inv in Hu1, Hu2. intros ip. unfold ips. rewrite elem_of_app.
    rewrite <-(cx_conts _ _ _ _ _ Hctx), <-(cx_lbs _ _ _ _ _ Hctx).
    rewrite (filter_split (good c_IP bl) dbcs), (filter_split (good lb_IP bl) dbls), Hu1, Hu2, !app_nil_r.
    intros [(c & -> & [Hg _]%list_elem_of_filter)%list_elem_of_fmap|
      (c & -> & [Hg _]%list_elem_of_filter)%list_elem_of_fmap]; apply Hg. }
  wp_bind. rewrite (cx_uc _ _ _ _ _ Hctx).
  eapply (wp_allocateRows c_IP set_c_IP); [done..|by eapply same_ok|done|lia| |].
  { rewrite (same_tbl _ _ Hs1). fold (conts s). rewrite <-(cx_conts _ _ _ _ _ Hctx).
    rewrite (filter_split (good c_IP bl) dbcs) at 1. apply Permutation_app_comm. }
  intros ips1 k1 s2 Hs2 Hn1 Hv2. cbv beta iota. wp_bind. rewrite (cx_ul _ _ _ _ _ Hctx).
  assert (size (reserved ctx ∪ list_to_set ips1) ≤ size (reserved ctx) + length ips1) as Hsz.
  { rewrite size_union, size_list_to_set; [done|apply Hn1|].
    intros ip Hin Hin'%elem_of_list_to_set. by apply (ni_fresh _ _ _ Hn1 ip). }
  rewrite (ni_length _ _ _ Hn1) in Hsz.
  eapply (wp_allocateRows lb_IP set_lb_IP); [done..|apply Hs2|done|lia| |].
  { rewrite (stepped_tbl _ _ _ _ Hs2), (same_tbl _ _ Hs1) by done. fold (lbs s).
    rewrite <-(cx_lbs _ _ _ _ _ Hctx).
    rewrite (filter_split (good lb_IP bl) dbls) at 1. apply Permutation_app_comm. }
  intros ips2 k2 s3 Hs3 Hn2 Hv3. cbv beta iota.
  destruct (attempt_frame view bl s s1 s2 s3 ctx dbcs dbls ips1 ips2) as [Hfr Hips];
    [done|done|done|done|apply Hn1|apply Hn2|done|done|].
  destruct (attempt_inv bl s s3 ctx dbcs dbls _ _ ips1 ips2 Hinv Hctx Hn1 Hn2 Hips) as [Hinv3 Hall3].
  apply IH; [apply Hs3|by eapply room_frame|done|done|].
  intros s' Hfr' Hinv' Hall'. apply HQ; [by eapply ip_frame_trans|done|done].
Qed.

(** The blacklist: the subnets routed by some worker that meet the container subnet. *)
Definition blacklist_of s bl : Prop :=
  ∀ n, n ∈ bl ↔ ∃ m str ip, m ∈ vals (tbl Minion s) ∧ mi_Role m = Worker ∧
    str ∈ mi_HostSubnets m ∧ ParseCIDR str = Some (ip, n) ∧ subnetIntersects KeldaSubnet n = true.

Lemma wp_makeSubnetBlacklist view s Q :
  DbOK view s → MinionTable ∈ view →
  (∀ r s', same s s' → match r with Val bl => blacklist_of s bl | Err _ => True end → Q r s') →
  wp (makeSubnetBlacklist view) s Q.
Proof.
  intros Hok Hin HQ. unfold makeSubnetBlacklist. wp_bind. apply wp_SelectFrom; [done|done|].
  intros ms s1 Hs1 Hms. wp_bind. apply wp_nextOrder. intros n s2 Hs2. wp_ret.
  apply HQ; [by eapply same_trans|].
  set (l := range_set n (list_to_set (concat (mi_HostSubnets <$> ms)))).
  assert (∀ str, str ∈ l ↔ ∃ m, m ∈ vals (tbl Minion s) ∧ mi_Role m = Worker ∧ str ∈ mi_HostSubnets m) as Hl.
  { intros str. unfold l. rewrite elem_of_range_set, elem_of_list_to_set, elem_of_concat.
    split.
    - intros (l' & (m & -> & Hm)%list_elem_of_fmap & Hstr). rewrite Hms in Hm.
      apply list_elem_of_filter in Hm as [Hr%bool_decide_eq_true Hm]. by exists m.
    - intros (m & Hm & Hr & Hstr). exists (mi_HostSubnets m). split; [|done].
      apply list_elem_of_fmap_2. rewrite Hms. apply list_elem_of_filter. split; [|done].
      by apply bool_decide_eq_true. }
  destruct (foldr _ _ l) as [bl|e] eqn:Hf; [|done]. intros x.
  assert (x ∈ bl ↔ ∃ str ip, str ∈ l ∧ ParseCIDR str = Some (ip, x) ∧
    subnetIntersects KeldaSubnet x = true) as ->.
  { clear Hl. revert bl Hf. induction l as [|str l IH]; intros bl Hf; simpl in Hf.
    { simplify_eq. set_solver. }
    destruct (ParseCIDR str) as [[ip subnet]|] eqn:Hp; [|done].
    destruct (foldr _ _ l) as [bl'|] eqn:Hf'; [|done]. simplify_eq. specialize (IH bl' eq_refl).
    assert (x ∈ (if subnetIntersects KeldaSubnet subnet then subnet :: bl' else bl') ↔
      (x = subnet ∧ subnetIntersects KeldaSubnet subnet = true) ∨ x ∈ bl') as ->.
    { destruct (subnetIntersects KeldaSubnet subnet); rewrite ?elem_of_cons; naive_solver. }
    rewrite IH. split.
    - intros [[-> Hi]|(str' & ip' & ? & ? & ?)]; [exists str, ip; set_solver|exists str', ip'; set_solver].
    - intros (str' & ip' & [->|Hin']%elem_of_cons & Hp' & Hi'); [left|right; eauto].
      rewrite Hp in Hp'. by simplify_eq. }
  split.
  - intros (str & ip & (m & ? & ? & ?)%Hl & ? & ?). by exists m, str, ip.
  - intros (m & str & ip & ? & ? & ? & ? & ?). exists str, ip. rewrite Hl. split_and!; [by exists m|done|done].
Qed.
End attempt.

(** ** Properties *)

(** C27: [allocateIP] on any subnet of up to 31 host bits: it returns for
    every random number and every set of used addresses; the address it
    returns lies in the subnet and is not in the set, and is added to it; and
    it reports an exhausted pool only when every address of the subnet is
    used, the set then unchanged. *)
Theorem allocateIP_correct b rand ipSet prefix :
  (0 ≤ b < 32)%Z → (0 ≤ prefix < 2 ^ 32)%Z → (0 ≤ rand)%Z →
  ∃ r ipSet', allocateIP rand ipSet prefix (hostMask b) = Ok (r, ipSet') ∧
    match r with
    | Val ip => ip ∉ ipSet ∧ ipSet' = {[ip]} ∪ ipSet ∧
        ∃ h, (0 ≤ h < 2 ^ b)%Z ∧ ip = IPString (h + Z.land prefix (hostMask b))
    | Err _ => ipSet' = ipSet ∧
        ∀ h, (0 ≤ h < 2 ^ b)%Z → IPString (h + Z.land prefix (hostMask b)) ∈ ipSet
    end.
Proof.
  intros Hb Hp Hr. destruct (allocateIP_ok b rand ipSet prefix Hb Hp Hr) as (r & ipSet' & Ha & Hal & ->).
  exists r. eexists. split; [exact Ha|]. destruct r; destruct Hal as [? ?]; auto.
Qed.

(** C28: the leader gives every container and load balancer an address.  If
    the worker subnets parse, [updateIPsOnce] succeeds (there is room in the
    container subnet); afterwards every container and load balancer has an
    address, no two share one, none has the address of the gateway, the load
    balancer router or the network, rows whose address was usable keep it, and
    nothing but addresses changed.  If a subnet does not parse, no row changes. *)
Theorem updateIPs_assigns `{MapOrder} `{ParseIPv6} (rand32 : nat → Z) k view s :
  (∀ k, 0 ≤ rand32 k)%Z → DbOK view s →
  ContainerTable ∈ view → LoadBalancerTable ∈ view → MinionTable ∈ view →
  room s → ip_inv s →
  wp (updateIPsOnce rand32 k view) s (λ r s',
    match r with
    | Err _ => same s s'
    | Val _ => ∃ bl, blacklist_of s bl ∧ ip_frame view bl s s' ∧ ip_inv s' ∧ all_assigned s'
    end).
Proof.
  intros Hrand Hok HinC HinL HinM Hroom Hinv. unfold updateIPsOnce. wp_bind.
  apply wp_makeSubnetBlacklist; [done|done|]. intros [bl|e] s1 Hs1 Hbl; [|by wp_ret].
  pose proof (same_frame view bl _ _ Hok Hs1) as Hfr.
  apply wp_attempts; [done|by eapply same_ok|done|done|by eapply room_frame| |done|].
  { unfold ip_inv. by rewrite (same_ips _ _ Hs1). }
  intros s' Hfr' Hinv' Hall'. exists bl. split_and!; [done|by eapply ip_frame_trans|done|done].
Qed.

(** A worker that routes half of the container subnet, and a container with no address. *)
Definition demo_routes : store :=
  storeOf [RMinion (mk_Minion 1 false "" Worker "" "" "" "" "" ["10.0.0.0/9"]);
           RContainer (mk_Container 2 "" "" "c" "" "" [] ∅ ∅ "web" 0 false [] "" "")].

#[local] Instance demo_v6 : ParseIPv6 := { parseIPv6 _ := None }.

(** a blacklisted address can survive.  The comment on [runUpdateIPs]
    says addresses within a worker's routes are never allocated, but
    [updateIPsOnce] gives up after three attempts and still returns nil: with
    half of the container subnet routed by a worker and three unlucky random
    numbers, a container ends up with an address in the worker's subnet. *)
Theorem updateIPs_may_keep_blacklisted :
  ∃ s', updateIPsOnce (λ _, 5%Z) 0 (list_to_set AllTables) demo_routes = Ok (Val (), s') ∧
    (c_IP <$> conts s') = ["10.0.0.5"] ∧
    ∃ ip subnet, ParseCIDR "10.0.0.0/9" = Some (ip, subnet) ∧
      subnetIntersects KeldaSubnet subnet = true ∧ ipBlacklisted "10.0.0.5" [subnet] = true.
Proof.
  eexists. split; [vm_compute; reflexivity|]. split; [vm_compute; reflexivity|].
  eexists _, _. split; [vm_compute; reflexivity|]. split; vm_compute; reflexivity.
Qed.

(** ** Witnesses *)

Lemma allocateIP_correct_witness :
  ∃ ip, allocateIP 6 {["192.168.1.6"; "192.168.1.7"]} (IPv4 192 168 1 77) (hostMask 3)
    = Ok (Val ip, {[ip]} ∪ {["192.168.1.6"; "192.168.1.7"]}) ∧ ip ∉ ({["192.168.1.6"; "192.168.1.7"]} : gset string).
Proof.
  destruct (allocateIP_correct 3 6 {["192.168.1.6"; "192.168.1.7"]} (IPv4 192 168 1 77)) as (r & X & Ha & Hr);
    [lia|done|lia|].
  destruct r as [ip|e].
  - destruct Hr as (Hni & -> & _). exists ip. split; [exact Ha|exact Hni].
  - exfalso. destruct Hr as [_ Hall]. specialize (Hall 0%Z ltac:(lia)). revert Hall. vm_decide.
Defined.

Example allocateIP_example :
  allocateIP 5 {["192.168.1.77"; "192.168.1.78"]} (IPv4 192 168 1 77) (hostMask 3)
  = Ok (Val "192.168.1.79", {[ "192.168.1.79" ]} ∪ {["192.168.1.77"; "192.168.1.78"]}).
Proof. vm_compute. reflexivity. Qed.

Definition demo_db_ips : store :=
  storeOf [RContainer (mk_Container 1 "10.0.0.9" "" "a" "" "" [] ∅ ∅ "a" 0 false [] "" "");
           RContainer (mk_Container 2 "" "" "b" "" "" [] ∅ ∅ "b" 0 false [] "" "");
           RLoadBalancer (mk_LoadBalancer 3 "lb" "" [])].

Lemma updateIPs_assigns_witness :
  wp (updateIPsOnce (λ _, 5%Z) 0 (list_to_set AllTables)) demo_db_ips (λ r s',
    match r with Err _ => same demo_db_ips s' | Val _ => ip_inv s' ∧ all_assigned s' end).
Proof.
  eapply wp_mono; [apply (updateIPs_assigns (λ _, 5%Z) 0 (list_to_set AllTables) demo_db_ips)|].
  - lia.
  - vm_decide.
  - vm_decide.
  - vm_decide.
  - vm_decide.
  - vm_compute. reflexivity.
  - split; [vm_decide|]. intros ip Hip. change (ips demo_db_ips) with [""; "10.0.0.9"; ""] in Hip.
    rewrite !elem_of_cons, elem_of_nil in Hip. destruct Hip as [->|[->|[->|[]]]]; vm_decide.
  - intros [[]|e] s'; [|done]. by intros (_ & _ & _ & ? & ?).
Defined.
