(* ===== verification/NatRules.v ===== *)
(** * Package network, part 2: NAT rules

    Models [src/minion/network/nat.go]: which iptables rules a worker wants,
    and how a chain is brought in line with them.  iptables itself is behind
    the Go interface [IPTables]; here it is a class over an abstract world. *)

From S2P Require Import Prelude GoStrings Join Blueprint DbRows.

(** ** Strings *)

Definition isSpace (c : ascii) : bool :=
  bool_decide (c ∈ [" "%char; "009"%char; "010"%char; "012"%char; "013"%char]).

(** A maximal run of [\S], and what follows it. *)
Fixpoint nonSpace (s : string) : string * string :=
  match s with
  | EmptyString => ("", "")
  | String c s' => if isSpace c then ("", s)
                   else let '(x, rest) := nonSpace s' in (String c x, rest)
  end.

(** Any bytes up to a newline. *)
Fixpoint line (s : string) : string :=
  match s with
  | EmptyString => ""
  | String c s' => if bool_decide (c = "010"%char) then "" else String c (line s')
  end.

(** The three groups of [flagRegex] at the start of [s]: two runs of [\S]
    separated by a blank, and the rest of the line.  As [\S] excludes the blank
    that must follow, each run is maximal in every match. *)
Definition flagTail (s : string) : option (string * string * string) :=
  match nonSpace s with
  | (EmptyString, _) => None
  | (name, String " " s1) =>
    match nonSpace s1 with
    | (EmptyString, _) => None
    | (val, rest) => Some (name, val, line rest)
    end
  | _ => None
  end.

(** [flagRegex.FindStringSubmatch]: one or two hyphens and the three groups, at
    the leftmost place where they match, two hyphens preferred to one. *)
Fixpoint flagRegex (s : string) : option (string * string * string) :=
  match s with
  | EmptyString => None
  | String c s' =>
    let here :=
      if bool_decide (c = "-"%char) then
        match s' with
        | String "-" s2 =>
          match flagTail s2 with Some m => Some m | None => flagTail s' end
        | _ => flagTail s'
        end
      else None in
    match here with Some m => Some m | None => flagRegex s' end
  end.

(** [strings.HasPrefix] *)
Fixpoint HasPrefix (s prefix : string) : bool :=
  match prefix, s with
  | EmptyString, _ => true
  | String a p, String b s' => bool_decide (a = b) && HasPrefix s' p
  | _, _ => false
  end.

(** [strings.SplitN] with a one-byte separator. *)
Fixpoint SplitN (n : nat) (sep : ascii) (s : string) : list string :=
  match s with
  | EmptyString => [""]
  | String a s' =>
    if bool_decide (a = sep) && bool_decide (1 < n) then "" :: SplitN (n - 1) sep s'
    else match SplitN n sep s' with
         | x :: xs => String a x :: xs
         | [] => [String a ""]
         end
  end.

(** ** Rule keys *)

(** The loop of [ruleKey]; every round consumes part of [remaining], so its
    length is enough fuel.  [None] is the nil key of a rule that does not parse. *)
Fixpoint ruleOpts (fuel : nat) (remaining : string) (opts : gmap string string)
    : option (gmap string string) :=
  match fuel with
  | 0 => if bool_decide (remaining = "") then Some opts else None
  | S fuel' =>
    if bool_decide (remaining = "") then Some opts
    else match flagRegex remaining with
         | None => None
         | Some (flagName, flagVal, rest) =>
           if bool_decide (flagName = "j") || bool_decide (flagName = "jump")
           then Some (<[flagName := flagVal +:+ rest]> opts)
           else ruleOpts fuel' rest (<[flagName := flagVal]> opts)
         end
  end.

Definition ruleKey `{MapOrder} (n : nat) (rule : string) : option string :=
  MapAsString n <$> ruleOpts (String.length rule) rule ∅.

(** ** The rules a worker wants *)

Definition protocols : list string := ["tcp"; "udp"].

(** A hostname's ports, from a map that grows at [hosts]. *)
Definition addPort (port : Z) (ports : gmap string (gset Z)) (host : string) : gmap string (gset Z) :=
  <[host := {[port]} ∪ default ∅ (ports !! host)]> ports.

Definition portsFromWeb (connections : list Connection) : gmap string (gset Z) :=
  foldl (λ ports conn,
    if negb (SliceContains (cn_From conn) PublicInternetLabel) then ports
    else foldl (addPort (cn_MinPort conn)) ports (cn_To conn)) ∅ connections.

Definition preroutingRule (publicInterface protocol : string) (port : Z) (ip : string) : string :=
  "-i " +:+ publicInterface +:+ " -p " +:+ protocol +:+ " -m " +:+ protocol +:+ " --dport " +:+
  fmtInt port +:+ " -j DNAT --to-destination " +:+ ip +:+ ":" +:+ fmtInt port.

(** [n + i] is the order of the loop over the [i]-th container's ports. *)
Definition preroutingRules `{MapOrder} (n : nat) (publicInterface : string)
    (containers : list Container) (connections : list Connection) : list string :=
  concat (imap (λ i dbc,
    concat ((λ port, (λ protocol, preroutingRule publicInterface protocol port (c_IP dbc)) <$> protocols) <$>
      range_set (n + i) (default ∅ (portsFromWeb connections !! c_Hostname dbc)))) containers).

(** In the source the check of [conn.To] only continues its own loop. *)
Definition portsToWeb (connections : list Connection) : gmap string (gset Z) :=
  foldl (λ ports conn, foldl (addPort (cn_MinPort conn)) ports (cn_From conn)) ∅ connections.

Definition postroutingRule (publicInterface protocol : string) (port : Z) (ip : string) : string :=
  "-s " +:+ ip +:+ "/32 -p " +:+ protocol +:+ " -m " +:+ protocol +:+ " --dport " +:+
  fmtInt port +:+ " -o " +:+ publicInterface +:+ " -j MASQUERADE".

Definition postroutingRules `{MapOrder} (n : nat) (publicInterface : string)
    (containers : list Container) (connections : list Connection) : list string :=
  concat (imap (λ i dbc,
    concat ((λ port, (λ protocol, postroutingRule publicInterface protocol port (c_IP dbc)) <$> protocols) <$>
      range_set (n + i) (default ∅ (portsToWeb connections !! c_Hostname dbc)))) containers).

(** ** iptables *)

Class IPTables (W : Type) := {
  Append : string → string → list string → M W (result unit);
  AppendUnique : string → string → list string → M W (result unit);
  Delete : string → string → list string → M W (result unit);
  ListRules : string → string → M W (result (list string));
  getDefaultRouteIntf : M W (result string);
}.

Section nat.
Context `{MapOrder} {W : Type} `{IPTables W}.

Fixpoint parseRules (rawRules : list string) : result (list string) :=
  match rawRules with
  | [] => Val []
  | r :: rest =>
    if negb (HasPrefix r "-A") then parseRules rest
    else match SplitN 3 " " r with
         | [_; _; rule] =>
           match parseRules rest with Val rules => Val (rule :: rules) | Err e => Err e end
         | _ => Err ("malformed rule: " +:+ r)
         end
  end.

Definition getRules (table chain : string) : M W (result (list string)) :=
  let! rawRules := ListRules table chain in
  match rawRules with
  | Err e => mret (Err e)
  | Val rawRules => mret (parseRules rawRules)
  end.

(** A loop that stops at the first error. *)
Fixpoint eachRule (what : string) (act : list string → M W (result unit)) (rules : list string)
    : M W (result unit) :=
  match rules with
  | [] => mret (Val ())
  | r :: rest =>
    let! err := act (Split " " r) in
    match err with
    | Err e => mret (Err (what +:+ e))
    | Val _ => eachRule what act rest
    end
  end.

Definition syncChain (n : nat) (table chain : string) (target : list string) : M W (result unit) :=
  let! curr := getRules table chain in
  match curr with
  | Err e => mret (Err ("iptables get: " +:+ e))
  | Val curr =>
    let '(_, rulesToDel, rulesToAdd) := HashJoin n curr target (ruleKey n) (ruleKey n) in
    let! err := eachRule "iptables delete: " (Delete table chain) rulesToDel in
    match err with
    | Err e => mret (Err e)
    | Val _ => eachRule "iptables append: " (Append table chain) rulesToAdd
    end
  end.

Definition defaultRules : list (string * string * list string) :=
  [("filter", "FORWARD", ["-j"; "ACCEPT"]); ("nat", "INPUT", ["-j"; "ACCEPT"]);
   ("nat", "OUTPUT", ["-j"; "ACCEPT"])].

Fixpoint setRules (rules : list (string * string * list string)) : M W (result unit) :=
  match rules with
  | [] => mret (Val ())
  | (table, chain, action) :: rest =>
    let! err := AppendUnique table chain action in
    match err with
    | Err e => mret (Err ("iptables append: " +:+ e))
    | Val _ => setRules rest
    end
  end.
Definition setDefaultRules : M W (result unit) := setRules defaultRules.

Definition pickIntfs (inboundPubIntf outboundPubIntf : string) : M W (result (string * string)) :=
  let! d :=
    (if bool_decide (inboundPubIntf = "") || bool_decide (outboundPubIntf = "")
     then getDefaultRouteIntf else mret (Val "")) in
  match d with
  | Err e => mret (Err ("get default interface: " +:+ e))
  | Val d =>
    mret (Val (if bool_decide (inboundPubIntf = "") then d else inboundPubIntf,
               if bool_decide (outboundPubIntf = "") then d else outboundPubIntf))
  end.

Definition updateNAT (n : nat) (containers : list Container) (connections : list Connection)
    (inboundPubIntf outboundPubIntf : string) : M W (result unit) :=
  let! intfs := pickIntfs inboundPubIntf outboundPubIntf in
  match intfs with
  | Err e => mret (Err e)
  | Val (inb, outb) =>
    let! err := setDefaultRules in
    match err with
    | Err e => mret (Err e)
    | Val _ =>
      let! err := syncChain n "nat" "PREROUTING" (preroutingRules n inb containers connections) in
      match err with
      | Err e => mret (Err e)
      | Val _ => syncChain n "nat" "POSTROUTING" (postroutingRules n outb containers connections)
      end
    end
  end.
End nat.

(** The rules the code generates have keys that ignore the order of flags. *)
Example ruleKey_example :
  ruleKey 0 "-i eth0 -p tcp -m tcp --dport 80 -j DNAT --to-destination 10.0.0.5:80" =
  ruleKey 0 "-p tcp -i eth0 --dport 80 -m tcp -j DNAT --to-destination 10.0.0.5:80" ∧
  ruleKey 0 "-i eth0 -p tcp -m tcp --dport 80 -j DNAT --to-destination 10.0.0.5:80" =
  Some "[dport=80 i=eth0 j=DNAT --to-destination 10.0.0.5:80 m=tcp p=tcp]".
Proof. vm_compute. done. Qed.

(** ** Lemmas *)

Lemma elem_of_addPorts port hosts ports h p :
  p ∈ default ∅ (foldl (addPort port) ports hosts !! h) ↔
  p ∈ default ∅ (ports !! h) ∨ (h ∈ hosts ∧ p = port).
Proof.
  revert ports. induction hosts as [|x hosts IH]; intros ports; simpl; [set_solver|].
  rewrite IH. unfold addPort. destruct (decide (x = h)) as [->|Hne].
  - rewrite lookup_insert_eq. simpl. set_solver.
  - rewrite lookup_insert_ne by done. set_solver.
Qed.

Lemma exists_snoc {A} (P : A → Prop) l x :
  (∃ y, y ∈ l ++ [x] ∧ P y) ↔ (∃ y, y ∈ l ∧ P y) ∨ P x.
Proof.
  setoid_rewrite elem_of_app. setoid_rewrite list_elem_of_singleton. naive_solver.
Qed.

Lemma elem_of_portsFromWeb conns h p :
  p ∈ default ∅ (portsFromWeb conns !! h) ↔
  ∃ conn, conn ∈ conns ∧ PublicInternetLabel ∈ cn_From conn ∧ h ∈ cn_To conn ∧ p = cn_MinPort conn.
Proof.
  unfold portsFromWeb. induction conns as [|conn conns IH] using rev_ind.
  { simpl. rewrite lookup_empty. simpl. split; [by intros ?%elem_of_empty|].
    by intros (? & ?%elem_of_nil & _). }
  rewrite foldl_app, exists_snoc, <-IH. simpl.
  destruct (SliceContains (cn_From conn) PublicInternetLabel) eqn:Hc; simpl.
  - apply elem_of_SliceContains in Hc. rewrite elem_of_addPorts. tauto.
  - assert (PublicInternetLabel ∉ cn_From conn) by (rewrite <-elem_of_SliceContains; congruence). tauto.
Qed.

Lemma elem_of_portsToWeb conns h p :
  p ∈ default ∅ (portsToWeb conns !! h) ↔
  ∃ conn, conn ∈ conns ∧ h ∈ cn_From conn ∧ p = cn_MinPort conn.
Proof.
  unfold portsToWeb. induction conns as [|conn conns IH] using rev_ind.
  { simpl. rewrite lookup_empty. simpl. split; [by intros ?%elem_of_empty|].
    by intros (? & ?%elem_of_nil & _). }
  rewrite foldl_app, exists_snoc, <-IH. simpl. by rewrite elem_of_addPorts.
Qed.

(** The shape of both rule generators. *)
Lemma elem_of_portRules `{MapOrder} n (ports : gmap string (gset Z)) (f : string → Z → string → string)
    (containers : list Container) r :
  r ∈ concat (imap (λ i dbc,
    concat ((λ port, (λ protocol, f protocol port (c_IP dbc)) <$> protocols) <$>
      range_set (n + i) (default ∅ (ports !! c_Hostname dbc)))) containers) ↔
  ∃ c port protocol, c ∈ containers ∧ port ∈ default ∅ (ports !! c_Hostname c) ∧
    protocol ∈ protocols ∧ r = f protocol port (c_IP c).
Proof.
  rewrite elem_of_concat. split.
  - intros (l & (i & c & -> & Hc)%elem_of_lookup_imap & Hr).
    apply elem_of_concat in Hr as (l' & (port & -> & Hport)%list_elem_of_fmap & Hr).
    apply list_elem_of_fmap in Hr as (protocol & -> & Hp). rewrite elem_of_range_set in Hport.
    exists c, port, protocol. split_and!; [by eapply list_elem_of_lookup_2|done..].
  - intros (c & port & protocol & [i Hi]%list_elem_of_lookup & Hport & Hp & ->).
    eexists. split; [apply (elem_of_lookup_imap_2 _ _ _ i Hi)|]. simpl.
    apply elem_of_concat. exists ((λ protocol, f protocol port (c_IP c)) <$> protocols).
    split; [apply list_elem_of_fmap; exists port; by rewrite elem_of_range_set|].
    by apply (list_elem_of_fmap_2 (λ protocol, f protocol port (c_IP c))).
Qed.

(** *** Keys do not depend on map orders *)

Lemma MapAsString_order `{MapOrder} n1 n2 m : MapAsString n1 m = MapAsString n2 m.
Proof. unfold MapAsString. f_equal. apply Strings_sort_unique. by rewrite !range_perm. Qed.

(** *** The blank-separated words of a rule *)

Lemma Join_Split c s : Join_strings (String c "") (Split c s) = s.
Proof.
  induction s as [|a s IH]; [done|]. simpl. case_bool as [->|Hne].
  - destruct (Split c s) as [|x xs] eqn:Hs; [by destruct (Split_nonempty c s)|].
    change (String c (Join_strings (String c "") (x :: xs)) = String c s). by rewrite IH.
  - destruct (Split c s) as [|x xs] eqn:Hs; [by destruct (Split_nonempty c s)|].
    destruct xs as [|y ys].
    + simpl in IH |- *. by rewrite IH.
    + change (String a (x +:+ String c (Join_strings (String c "") (y :: ys))) = String a s).
      f_equal. exact IH.
Qed.

(** ** Bringing a chain in line *)

(** What the code relies on of a working iptables: the rules of a chain are a
    list, listing prints each as an ["-A <chain> <rule>"] line among others,
    for chain names without blanks, [Append] adds the rule, [Delete] removes one copy of it, and neither touches
    another chain. *)
Class IPTablesLaws (W : Type) `{IPTables W} := {
  rulesOf : W → string → string → list string;
  ListRules_ok : ∀ t c w, lacks " " c → ∃ raw, ListRules t c w = Ok (Val raw, w) ∧
    parseRules raw = Val (rulesOf w t c);
  Append_ok : ∀ t c r w, wp (Append t c (Split " " r)) w (λ e w', e = Val () ∧
    rulesOf w' t c ≡ₚ r :: rulesOf w t c ∧
    ∀ t' c', (t', c') ≠ (t, c) → rulesOf w' t' c' = rulesOf w t' c');
  Delete_ok : ∀ t c r rest w, rulesOf w t c ≡ₚ r :: rest →
    wp (Delete t c (Split " " r)) w (λ e w', e = Val () ∧ rulesOf w' t c ≡ₚ rest ∧
      ∀ t' c', (t', c') ≠ (t, c) → rulesOf w' t' c' = rulesOf w t' c');
}.

Section sync.
Context `{MapOrder} {W : Type} `{IPTablesLaws W}.

(** The chain [c] of table [t] now holds [rules]; other chains are as they were. *)
Definition chain_is (w w' : W) (t c : string) (rules : list string) : Prop :=
  rulesOf w' t c ≡ₚ rules ∧ ∀ t' c', (t', c') ≠ (t, c) → rulesOf w' t' c' = rulesOf w t' c'.

Lemma wp_deleteRules t c dels rest w Q :
  rulesOf w t c ≡ₚ dels ++ rest →
  (∀ w', chain_is w w' t c rest → Q (Val ()) w') →
  wp (eachRule "iptables delete: " (Delete t c) dels) w Q.
Proof.
  revert w Q. induction dels as [|r dels IH]; intros w Q Hr HQ; simpl.
  { wp_ret. by apply HQ. }
  wp_bind. eapply wp_mono; [by apply (Delete_ok t c r (dels ++ rest))|].
  intros e w1 (-> & Hr1 & Ho1). apply IH; [done|]. intros w2 [Hr2 Ho2]. apply HQ.
  split; [done|]. intros t' c' Hne. by rewrite Ho2, Ho1.
Qed.

Lemma wp_appendRules t c adds w Q :
  (∀ w', chain_is w w' t c (adds ++ rulesOf w t c) → Q (Val ()) w') →
  wp (eachRule "iptables append: " (Append t c) adds) w Q.
Proof.
  revert w Q. induction adds as [|r adds IH]; intros w Q HQ; simpl.
  { wp_ret. by apply HQ. }
  wp_bind. eapply wp_mono; [apply Append_ok|]. intros e w1 (-> & Hr1 & Ho1).
  apply IH. intros w2 [Hr2 Ho2]. apply HQ. split.
  - rewrite Hr2, Hr1. by rewrite <-Permutation_middle.
  - intros t' c' Hne. by rewrite Ho2, Ho1.
Qed.

Lemma wp_syncChain n t c target w Q :
  lacks " " c → NoDup (ruleKey n <$> rulesOf w t c) → NoDup (ruleKey n <$> target) →
  (∀ w' rules, chain_is w w' t c rules → ruleKey n <$> rules ≡ₚ ruleKey n <$> target →
     (∀ r, r ∈ rulesOf w t c → ruleKey n r ∈ ruleKey n <$> target → r ∈ rules) → Q (Val ()) w') →
  wp (syncChain n t c target) w Q.
Proof.
  intros Hc Hnd Hndt HQ. unfold syncChain, getRules. do 2 wp_bind.
  destruct (ListRules_ok t c w Hc) as (raw & Hraw & Hp). apply (wp_of_run _ _ _ _ _ Hraw). wp_ret.
  rewrite Hp. set (curr := rulesOf w t c) in *.
  destruct (HashJoin _ _ _ _ _) as [[pairs dels] adds] eqn:Hj. apply HashJoin_ok in Hj.
  pose proof (hash_joined_lefts _ _ _ _ _ _ _ Hj Hnd) as Hl.
  wp_bind. apply (wp_deleteRules _ _ _ pairs.*1); [fold curr; rewrite <-Hl; apply Permutation_app_comm|].
  intros w1 [Hr1 Ho1]. apply wp_appendRules. intros w2 [Hr2 Ho2].
  apply (HQ w2 (adds ++ pairs.*1)).
  - split; [by rewrite Hr2, Hr1|]. intros t' c' Hne. by rewrite Ho2, Ho1.
  - rewrite <-(hj_rights _ _ _ _ _ _ _ Hj), !fmap_app, Permutation_app_comm. apply Permutation_app_tail.
    rewrite <-!list_fmap_compose. apply Permutation_refl', list_fmap_ext.
    intros i [a b] Hab%list_elem_of_lookup_2. simpl. by apply (hj_pair _ _ _ _ _ _ _ Hj).
  - intros r Hr (b & Heq & Hb)%list_elem_of_fmap. rewrite <-Hl, elem_of_app in Hr. apply elem_of_app. right.
    destruct Hr as [Hr|Hr]; [done|]. by destruct (hj_lonely_left _ _ _ _ _ _ _ Hj r b Hr Hb).
Qed.
End sync.

(** ** Properties *)

(** [preroutingRules] forwards exactly what the policy opens: there is a
    DNAT rule to a container's address for a port and protocol if and only if
    some connection lets the public internet reach the container's hostname on
    that port (its first one: public connections have no ranges). *)
Theorem preroutingRules_exact `{MapOrder} n intf containers connections r :
  r ∈ preroutingRules n intf containers connections ↔
  ∃ c conn protocol, c ∈ containers ∧ conn ∈ connections ∧ protocol ∈ protocols ∧
    PublicInternetLabel ∈ cn_From conn ∧ c_Hostname c ∈ cn_To conn ∧
    r = preroutingRule intf protocol (cn_MinPort conn) (c_IP c).
Proof.
  unfold preroutingRules.
  rewrite (elem_of_portRules _ _ (λ protocol port ip, preroutingRule intf protocol port ip)). split.
  - intros (c & port & protocol & Hc & (conn & ? & ? & ? & ->)%elem_of_portsFromWeb & Hp & ->).
    by exists c, conn, protocol.
  - intros (c & conn & protocol & Hc & ? & Hp & ? & ? & ->).
    exists c, (cn_MinPort conn), protocol. split_and!; [done| |done|done].
    apply elem_of_portsFromWeb. by exists conn.
Qed.

(** [postroutingRules] does not look at where a connection goes: a
    container gets a MASQUERADE rule for the first port of every connection it
    may open, also of those that do not lead to the public internet, although
    the map it builds is documented as the ports on which a hostname can send
    packets to the public internet. *)
Theorem postroutingRules_ignore_destination `{MapOrder} n intf containers connections r :
  r ∈ postroutingRules n intf containers connections ↔
  ∃ c conn protocol, c ∈ containers ∧ conn ∈ connections ∧ protocol ∈ protocols ∧
    c_Hostname c ∈ cn_From conn ∧ r = postroutingRule intf protocol (cn_MinPort conn) (c_IP c).
Proof.
  unfold postroutingRules.
  rewrite (elem_of_portRules _ _ (λ protocol port ip, postroutingRule intf protocol port ip)). split.
  - intros (c & port & protocol & Hc & (conn & ? & ? & ->)%elem_of_portsToWeb & Hp & ->).
    by exists c, conn, protocol.
  - intros (c & conn & protocol & Hc & ? & Hp & ? & ->).
    exists c, (cn_MinPort conn), protocol. split_and!; [done| |done|done].
    apply elem_of_portsToWeb. by exists conn.
Qed.

(** [syncChain] makes a chain agree with its target.  With a working
    iptables and no two rules with the same key on either side, it succeeds,
    the chain's rules afterwards have exactly the keys of the target (rules
    that only differ in the order of their flags are left alone), and no other
    chain is touched. *)
Theorem syncChain_reconciles `{MapOrder} {W} `{IPTablesLaws W} n t c target (w : W) :
  lacks " " c → NoDup (ruleKey n <$> rulesOf w t c) → NoDup (ruleKey n <$> target) →
  wp (syncChain n t c target) w (λ e w', e = Val () ∧
    ruleKey n <$> rulesOf w' t c ≡ₚ ruleKey n <$> target ∧
    (∀ r, r ∈ rulesOf w t c → ruleKey n r ∈ ruleKey n <$> target → r ∈ rulesOf w' t c) ∧
    ∀ t' c', (t', c') ≠ (t, c) → rulesOf w' t' c' = rulesOf w t' c').
Proof.
  intros Hc Hnd Hndt. apply wp_syncChain; [done|done|done|]. intros w' rules [Hr Ho] Hk Hkeep.
  split_and!; [done|by rewrite Hr|by setoid_rewrite Hr|done].
Qed.

(** ** A simulated iptables *)

Notation simTables := (gmap (string * string) (list string)).

(** Remove the first copy. *)
Fixpoint removeOne (r : string) (l : list string) : list string :=
  match l with
  | [] => []
  | x :: l' => if bool_decide (x = r) then l' else x :: removeOne r l'
  end.

Definition chainRules (w : simTables) (t c : string) : list string := default [] (w !! (t, c)).

#[local] Instance sim_IPTables : IPTables simTables := {
  Append t c args w := Ok (Val (), <[(t, c) := chainRules w t c ++ [Join_strings " " args]]> w);
  AppendUnique t c args w := let r := Join_strings " " args in
    Ok (Val (), if bool_decide (r ∈ chainRules w t c) then w else <[(t, c) := chainRules w t c ++ [r]]> w);
  Delete t c args w := Ok (Val (), <[(t, c) := removeOne (Join_strings " " args) (chainRules w t c)]> w);
  ListRules t c w := Ok (Val (("-P " +:+ c +:+ " ACCEPT") ::
    ((λ r, "-A " +:+ (c +:+ String " " r)) <$> chainRules w t c)), w);
  getDefaultRouteIntf := mret (Val "eth0");
}.

Lemma SplitN_one sep s : SplitN 1 sep s = [s].
Proof.
  induction s as [|a s IH]; [done|]. cbn [SplitN]. rewrite (bool_decide_eq_false_2 (1 < 1)) by lia.
  rewrite andb_false_r, IH. done.
Qed.

Lemma SplitN_cons n sep x s :
  1 < n → lacks sep x → SplitN n sep (x +:+ String sep s) = x :: SplitN (n - 1) sep s.
Proof.
  intros Hn. induction x as [|a x IH]; simpl; [intros _; by simpl_bd|]. intros [Ha Hx].
  change (SplitN n sep (String a (x +:+ String sep s)) = String a x :: SplitN (n - 1) sep s).
  cbn [SplitN]. simpl_bd. cbn [andb]. by rewrite (IH Hx).
Qed.

Lemma removeOne_perm r l rest : l ≡ₚ r :: rest → removeOne r l ≡ₚ rest.
Proof.
  assert (∀ l, r ∈ l → l ≡ₚ r :: removeOne r l) as Hx.
  { clear. induction l as [|x l IH]; [set_solver|]. simpl. case_bool as [->|Hne]; [done|].
    intros Hin. rewrite IH at 1 by set_solver. apply Permutation_swap. }
  intros Hl. assert (r ∈ l) as Hin by (rewrite Hl; set_solver).
  rewrite (Hx l Hin) in Hl. by apply Permutation_cons_inv in Hl.
Qed.

Lemma chainRules_insert w t c l t' c' :
  chainRules (<[(t, c) := l]> w) t' c' = if decide ((t', c') = (t, c)) then l else chainRules w t' c'.
Proof.
  unfold chainRules. case_decide as Heq; simplify_eq; [by rewrite lookup_insert_eq|].
  by rewrite lookup_insert_ne.
Qed.

Lemma parseRules_line c r l :
  lacks " " c →
  parseRules (("-A " +:+ (c +:+ String " " r)) :: l) =
  match parseRules l with Val rules => Val (r :: rules) | Err e => Err e end.
Proof.
  intros Hc. cbn [parseRules].
  change (HasPrefix ("-A " +:+ (c +:+ String " " r)) "-A") with true. cbn [negb].
  change ("-A " +:+ (c +:+ String " " r)) with ("-A" +:+ String " " (c +:+ String " " r)).
  rewrite (SplitN_cons 3) by (lia || by repeat split).
  rewrite (SplitN_cons (3 - 1)) by (lia || done). by rewrite SplitN_one.
Qed.

#[local] Instance sim_IPTablesLaws : IPTablesLaws simTables.
Proof.
  refine {| rulesOf := chainRules |}.
  - intros t c w Hc. eexists. split; [done|]. simpl.
    induction (chainRules w t c) as [|r l IH]; [done|].
    rewrite fmap_cons, parseRules_line by done. by rewrite IH.
  - intros t c r w. unfold wp. simpl. rewrite Join_Split, chainRules_insert, decide_True by done.
    split_and!; [done|by rewrite Permutation_app_comm|]. intros t' c' Hne.
    by rewrite chainRules_insert, decide_False.
  - intros t c r rest w Hr. unfold wp. simpl. rewrite Join_Split, chainRules_insert, decide_True by done.
    split_and!; [done|by apply removeOne_perm|]. intros t' c' Hne.
    by rewrite chainRules_insert, decide_False.
Defined.

Definition demo_chain : simTables :=
  {[("nat", "PREROUTING") := ["-p tcp -i eth0 -m tcp --dport 80 -j DNAT --to-destination 10.0.0.5:80";
                              "-i eth0 -p tcp -m tcp --dport 81 -j DNAT --to-destination 10.0.0.6:81"]]}.

Lemma syncChain_reconciles_witness :
  wp (syncChain 0 "nat" "PREROUTING" [preroutingRule "eth0" "tcp" 80 "10.0.0.5"]) demo_chain
    (λ e w', e = Val () ∧
      "-p tcp -i eth0 -m tcp --dport 80 -j DNAT --to-destination 10.0.0.5:80" ∈ chainRules w' "nat" "PREROUTING").
Proof.
  eapply wp_mono; [apply (syncChain_reconciles 0 "nat" "PREROUTING"
    [preroutingRule "eth0" "tcp" 80 "10.0.0.5"] demo_chain)|].
  - repeat split; done.
  - vm_decide.
  - vm_decide.
  - intros e w' (He & _ & Hkeep & _). split; [exact He|]. apply Hkeep; vm_decide.
Defined.
