(* ===== verification/Dns.v ===== *)
(** * Package network, part 3: DNS

    Models [src/minion/network/dns.go]: the leader derives the hostname table
    from the containers and load balancers, and every worker answers queries
    from it.  The messages are those of [github.com/miekg/dns]; the resolver of
    the host and the UDP server are parameters. *)

From S2P Require Import Prelude GoStrings Join DbRows Db DbSpec DbTxn DbFrame Engine GoNet.

(** ** Strings *)

(** [strings.TrimRight(s, ".")] *)
Fixpoint TrimRight (c : ascii) (s : string) : string :=
  match s with
  | EmptyString => ""
  | String a s' =>
    match TrimRight c s' with
    | EmptyString => if bool_decide (a = c) then "" else String a ""
    | t => String a t
    end
  end.

(** [strings.Count(s, ".")] for a one-byte separator. *)
Fixpoint Count (c : ascii) (s : string) : nat :=
  match s with
  | EmptyString => 0
  | String a s' => if bool_decide (a = c) then S (Count c s') else Count c s'
  end.

(** ** The hostname table *)

Section hostnames.
Context `{MapOrder}.

Definition lbHostname (lb : LoadBalancer) : list Hostname :=
  if bool_decide (lb_IP lb ≠ "") then [mk_Hostname 0 (lb_Name lb) (lb_IP lb)] else [].
Definition containerHostname (c : Container) : list Hostname :=
  if bool_decide (c_Hostname c ≠ "") && bool_decide (c_IP c ≠ "")
  then [mk_Hostname 0 (c_Hostname c) (c_IP c)] else [].

Definition hostnameKey (h : Hostname) : Hostname := set_h_ID 0 h.

Definition joinHostnames (view : Database) : M store unit :=
  let! lbs := SelectFrom view None in
  let! cs := SelectFrom view None in
  let target := concat (lbHostname <$> lbs) ++ concat (containerHostname <$> cs) in
  let! rows := SelectFrom view None in
  let! n := nextOrder in
  let '(_, toAdd, toDel) := HashJoin n target rows hostnameKey hostnameKey in
  forM_ toDel (RemoveT view) ;;;
  forM_ toAdd (λ tgt,
    let! dbHostname := InsertRow view in CommitT view (set_h_ID (h_ID dbHostname) tgt)).

Definition syncHostnamesOnce : M store unit :=
  let! leader := connEtcdLeader in
  if negb leader then mret ()
  else Run [LoadBalancerTable; ContainerTable; HostnameTable] joinHostnames.
End hostnames.

(** ** Messages of the DNS library *)

Definition TypeA : Z := 1.
Definition TypeAAAA : Z := 28.
Definition ClassINET : Z := 1.
Definition RcodeSuccess : Z := 0.
Definition RcodeNotImplemented : Z := 4.
Definition OpcodeQuery : Z := 0.
Definition dnsTTL : Z := 60.

Record Question := mk_Question { q_Name : string; q_Qtype : Z; q_Qclass : Z }.

(** An [A] record with its header. *)
Record RR := mk_RR { rr_Name : string; rr_Rrtype : Z; rr_Class : Z; rr_Ttl : Z; rr_A : IP }.

(** The fields of [dns.Msg] that a request or a reply sets. *)
Record Msg := mk_Msg {
  Id : Z;
  Response : bool;
  Opcode : Z;
  RecursionDesired : bool;
  CheckingDisabled : bool;
  Rcode : Z;
  msg_Question : list Question;
  Answer : list RR;
}.

Definition set_Rcode (v : Z) (m : Msg) : Msg :=
  mk_Msg (Id m) (Response m) (Opcode m) (RecursionDesired m) (CheckingDisabled m) v
    (msg_Question m) (Answer m).
Definition set_Answer (v : list RR) (m : Msg) : Msg :=
  mk_Msg (Id m) (Response m) (Opcode m) (RecursionDesired m) (CheckingDisabled m) (Rcode m)
    (msg_Question m) v.

(** [(&dns.Msg{}).SetReply(request)] *)
Definition SetReply (request : Msg) : Msg :=
  let query := bool_decide (Opcode request = OpcodeQuery) in
  mk_Msg (Id request) true (Opcode request)
    (query && RecursionDesired request) (query && CheckingDisabled request) RcodeSuccess
    (match msg_Question request with q :: _ => [q] | [] => [] end) [].

Definition SetRcode (request : Msg) (rcode : Z) : Msg := set_Rcode rcode (SetReply request).

(** ** Answering *)

Section answer.
Context `{ParseIPv6} (lookupHost : string → result (list string)).

Notation records := (gmap string IP).

Definition hostnamesToDNS (hostnames : list Hostname) : records :=
  foldl (λ rs hn, match ParseIP (h_IP hn) with
                  | Some ip => <[ToLower (h_Hostname hn) := ip]> rs
                  | None => rs
                  end) ∅ hostnames.

(** [ip.To4() != nil] *)
Definition isIPv4 (ip : IP) : bool := match ip with IP4 _ => true | IP6 _ => false end.

Definition lookupA (rs : records) (name : string) : list IP :=
  let name := TrimRight "." (ToLower name) in
  if bool_decide (Count "." name = 0) then
    match rs !! name with Some ip => [ip] | None => [] end
  else
    match lookupHost name with
    | Err _ => []
    | Val ipStrs => filter isIPv4 (omap ParseIP ipStrs)
    end.

(** No message is [None]. *)
Definition genResponse (rs : records) (req : Msg) : option Msg :=
  match msg_Question req with
  | [q] =>
    if bool_decide (q_Qtype q = TypeAAAA) then Some (SetReply req)
    else if bool_decide (q_Qclass q ≠ ClassINET) || bool_decide (q_Qtype q ≠ TypeA) then
      Some (SetRcode req RcodeNotImplemented)
    else
      match lookupA rs (q_Name q) with
      | [] => None
      | ips => Some (set_Answer ((λ ip, mk_RR (q_Name q) TypeA ClassINET dnsTTL ip) <$> ips)
                                (SetReply req))
      end
  | _ => Some (SetRcode req RcodeNotImplemented)
  end.

(** ** The server *)

(** What the DNS server does: [listenAndServe] is the first message on the
    error channel (nil when it has started), [Shutdown] stops it, and
    [WriteMsg] sends a reply. *)
Class DnsServer (W : Type) := {
  listenAndServe : M W (result unit);
  Shutdown : M W (result unit);
  WriteMsg : Msg → M W (result unit);
  Close : M W unit;
}.

Context `{MapOrder} {W : Type} `{DnsServer W}.

(** A running server is its records. *)
Definition updateTable (table : option records) (hostnames : list Hostname) : M W (option records) :=
  let rs := hostnamesToDNS hostnames in
  match table with
  | Some _ => mret (Some rs)
  | None =>
    let! err := listenAndServe in
    match err with Err _ => mret None | Val _ => mret (Some rs) end
  end.

Definition serveDNSOnce (table : option records) : M (store * W) (option records) :=
  let! self := onFst connMinionSelf in
  if bool_decide (mi_Role self ≠ Worker) then
    match table with
    | None => mret None
    | Some _ => let! _ := onSnd Shutdown in mret None
    end
  else
    let! hostnames := onFst (connSelect None) in
    onSnd (updateTable table hostnames).

Definition ServeDNS (rs : records) (req : Msg) : M W unit :=
  match genResponse rs req with
  | None => Close
  | Some resp => let! _ := WriteMsg resp in Close
  end.
End answer.

(** ** The hostname table afterwards *)

Section hostnames_spec.
Context `{MapOrder}.

Definition desiredHostnames (s : store) : list Hostname :=
  concat (lbHostname <$> vals (tbl LoadBalancer s)) ++
  concat (containerHostname <$> vals (tbl Container s)).

Lemma elem_of_desiredHostnames s h :
  h ∈ desiredHostnames s ↔
  (∃ lb, lb ∈ vals (tbl LoadBalancer s) ∧ lb_IP lb ≠ "" ∧ h = mk_Hostname 0 (lb_Name lb) (lb_IP lb)) ∨
  (∃ c, c ∈ vals (tbl Container s) ∧ c_Hostname c ≠ "" ∧ c_IP c ≠ "" ∧
        h = mk_Hostname 0 (c_Hostname c) (c_IP c)).
Proof.
  unfold desiredHostnames. rewrite elem_of_app, !elem_of_concat.
  setoid_rewrite (list_elem_of_fmap lbHostname). setoid_rewrite (list_elem_of_fmap containerHostname).
  unfold lbHostname, containerHostname. split.
  - intros [(l & (x & -> & Hx) & Hh)|(l & (x & -> & Hx) & Hh)]; [left|right]; exists x.
    + revert Hh. case_bool; simpl; rewrite ?elem_of_nil, ?list_elem_of_singleton; tauto.
    + revert Hh. do 2 case_bool; simpl; rewrite ?elem_of_nil, ?list_elem_of_singleton; tauto.
  - intros [(x & Hx & Hip & ->)|(x & Hx & Hn & Hip & ->)]; [left|right];
      (eexists; split; [by exists x|]); simpl_bd; apply list_elem_of_singleton; done.
Qed.

Lemma wp_joinHostnames view s Q :
  DbOK view s → LoadBalancerTable ∈ view → ContainerTable ∈ view → HostnameTable ∈ view →
  (∀ s', stepped view HostnameTable s s' →
     reconciled hostnameKey hostnameKey (λ _ o, o) (λ d r, set_h_ID (h_ID r) d) (curID s)
       (desiredHostnames s) (vals (tbl Hostname s)) (vals (tbl Hostname s')) → Q () s') →
  wp (joinHostnames view) s Q.
Proof.
  intros Hok HinL HinC HinH HQ. unfold joinHostnames.
  wp_select s1 Hs1 lbs Hlbs. wp_select s2 Hs2 cs Hcs. wp_select s3 Hs3 rs Hrs. wp_order s4 Hs4 n.
  destruct (HashJoin _ _ _ _ _) as [[pairs ll] lr] eqn:Hj. apply HashJoin_ok in Hj.
  pose proof (same_trans _ _ _ Hs1 Hs2) as Hs02. pose proof (same_trans _ _ _ Hs3 Hs4) as Hs24.
  pose proof (same_trans _ _ _ Hs02 Hs24) as Hs.
  eapply (wp_remove_add hostnameKey hostnameKey);
    [by eapply same_ok|done| |exact Hj|by intros ??|by intros ??|].
  { by rewrite Hrs, (same_tbl _ _ Hs24). }
  intros s5 Hst Hr. apply HQ; [by eapply same_stepped_l|].
  apply (reconciled_same _ _ _ _ _ _ _ _ Hs).
  eapply reconciled_perm; [|reflexivity|reflexivity|exact Hr].
  intros x. unfold desiredHostnames. rewrite !elem_of_app, !elem_of_concat.
  setoid_rewrite (list_elem_of_fmap lbHostname). setoid_rewrite (list_elem_of_fmap containerHostname).
  setoid_rewrite Hlbs. setoid_rewrite Hcs.
  by rewrite (same_tbl _ _ Hs1).
Qed.

(** The tables a round of [syncHostnames] uses. *)
Definition hostnameTables : list string := [LoadBalancerTable; ContainerTable; HostnameTable].
Definition dnsTables : list string := EtcdTable :: hostnameTables.

Lemma wp_syncHostnamesOnce s (Q : unit → store → Prop) :
  DbOK (list_to_set dnsTables) s →
  (is_leader s = false → ∀ s', same s s' → Q () s') →
  (is_leader s = true → ∀ s', DbOK (list_to_set hostnameTables) s' → only HostnameTable s s' →
     reconciled hostnameKey hostnameKey (λ _ o, o) (λ d r, set_h_ID (h_ID r) d) (curID s)
       (desiredHostnames s) (vals (tbl Hostname s)) (vals (tbl Hostname s')) → Q () s') →
  wp syncHostnamesOnce s Q.
Proof.
  intros Hok Hno Hyes. unfold syncHostnamesOnce. wp_bind.
  apply wp_connEtcdLeader; [by eapply DbOK_sub; [exact Hok|set_solver]|]. intros s1 Hs1.
  destruct (is_leader s) eqn:Hl; simpl; [|wp_ret; by apply Hno].
  assert (DbOK (list_to_set hostnameTables) s1) as Hok1.
  { eapply same_ok; [exact Hs1|]. eapply DbOK_sub; [exact Hok|set_solver]. }
  apply wp_Run; [exact (DbOK_tables _ _ Hok1)|].
  apply wp_joinHostnames; [done|set_solver..|]. intros s2 Hst Hr s3 Hs3.
  apply (reconciled_same _ _ _ _ _ _ _ _ Hs1) in Hr.
  apply Hyes; [done|eapply same_ok; [exact Hs3|apply Hst]|..].
  - eapply only_trans; [by apply same_only|]. eapply only_trans; [apply Hst|by apply same_only].
  - rewrite (same_tbl (T:=Hostname) _ _ Hs3). unfold desiredHostnames in Hr.
    by rewrite (same_tbl (T:=LoadBalancer) _ _ Hs1), (same_tbl (T:=Container) _ _ Hs1) in Hr.
Qed.
End hostnames_spec.

(** ** Records and names *)

Section records.
Context `{ParseIPv6}.

Lemma hostnamesToDNS_some hs n ip :
  hostnamesToDNS hs !! n = Some ip →
  ∃ hn, hn ∈ hs ∧ ToLower (h_Hostname hn) = n ∧ ParseIP (h_IP hn) = Some ip.
Proof.
  unfold hostnamesToDNS. induction hs as [|h hs IH] using rev_ind; [done|].
  rewrite foldl_app. simpl. setoid_rewrite elem_of_app. setoid_rewrite list_elem_of_singleton.
  destruct (ParseIP (h_IP h)) as [ip'|] eqn:Hp; [|naive_solver].
  destruct (decide (ToLower (h_Hostname h) = n)) as [<-|Hne].
  - rewrite lookup_insert_eq. naive_solver.
  - rewrite lookup_insert_ne by done. naive_solver.
Qed.

Lemma hostnamesToDNS_none hs n hn :
  hostnamesToDNS hs !! n = None → hn ∈ hs → ToLower (h_Hostname hn) = n → ParseIP (h_IP hn) = None.
Proof.
  unfold hostnamesToDNS. induction hs as [|h hs IH] using rev_ind; [by intros _ ?%elem_of_nil|].
  rewrite foldl_app. simpl. rewrite elem_of_app, list_elem_of_singleton.
  destruct (ParseIP (h_IP h)) as [ip'|] eqn:Hp; [|naive_solver].
  destruct (decide (ToLower (h_Hostname h) = n)) as [<-|Hne]; [by rewrite lookup_insert_eq|].
  rewrite lookup_insert_ne by done. naive_solver.
Qed.

(** A name with one parsable address has that record. *)
Lemma hostnamesToDNS_unique hs hn ip :
  hn ∈ hs → ParseIP (h_IP hn) = Some ip →
  (∀ hn', hn' ∈ hs → ToLower (h_Hostname hn') = ToLower (h_Hostname hn) → h_IP hn' = h_IP hn) →
  hostnamesToDNS hs !! ToLower (h_Hostname hn) = Some ip.
Proof.
  intros Hin Hp Hu. destruct (hostnamesToDNS hs !! _) as [ip'|] eqn:Hl.
  - apply hostnamesToDNS_some in Hl as (hn' & Hin' & Hn & Hp'). rewrite (Hu hn') in Hp' by done. congruence.
  - by rewrite (hostnamesToDNS_none _ _ hn Hl) in Hp.
Qed.
End records.

Lemma lowerChar_dot c : lowerChar c = "."%char ↔ c = "."%char.
Proof. destruct c as [[] [] [] [] [] [] [] []]; vm_compute; split; congruence. Qed.

Lemma lacks_ToLower s : lacks "." s → lacks "." (ToLower s).
Proof.
  induction s as [|c s IH]; simpl; [done|]. intros [Hc Hs]. split; [|auto].
  by rewrite lowerChar_dot.
Qed.

Lemma ToLower_app a b : ToLower (a +:+ b) = ToLower a +:+ ToLower b.
Proof.
  induction a as [|c a IH]; [done|].
  change (String (lowerChar c) (ToLower (a +:+ b)) = String (lowerChar c) (ToLower a +:+ ToLower b)).
  by rewrite IH.
Qed.

Lemma TrimRight_lacks c s : lacks c s → TrimRight c s = s.
Proof.
  induction s as [|a s IH]; simpl; [done|]. intros [Ha Hs]. rewrite (IH Hs).
  destruct s; [|done]. by simpl_bd.
Qed.

Lemma TrimRight_snoc c s : lacks c s → TrimRight c (s +:+ String c "") = s.
Proof.
  induction s as [|a s IH].
  - intros _. simpl. by simpl_bd.
  - intros [Ha Hs]. change (TrimRight c (String a (s +:+ String c "")) = String a s). simpl.
    rewrite (IH Hs). destruct s; [|done]. by simpl_bd.
Qed.

Lemma Count_lacks c s : lacks c s → Count c s = 0.
Proof. induction s as [|a s IH]; simpl; [done|]. intros [Ha Hs]. simpl_bd. auto. Qed.

(** A fully qualified query for an undotted name is a table lookup. *)
Lemma lookupA_internal `{ParseIPv6} lookupHost (rs : gmap string IP) name :
  lacks "." name →
  lookupA lookupHost rs (name +:+ ".") = match rs !! ToLower name with Some ip => [ip] | None => [] end.
Proof.
  intros Hn%lacks_ToLower. unfold lookupA. rewrite ToLower_app. change (ToLower ".") with ".".
  rewrite TrimRight_snoc by done. by rewrite Count_lacks.
Qed.

Lemma genResponse_internal `{ParseIPv6} lookupHost (rs : gmap string IP) req name :
  lacks "." name → msg_Question req = [mk_Question (name +:+ ".") TypeA ClassINET] →
  genResponse lookupHost rs req =
    (λ ip, set_Answer [mk_RR (name +:+ ".") TypeA ClassINET dnsTTL ip] (SetReply req)) <$>
    rs !! ToLower name.
Proof.
  intros Hn Hq. unfold genResponse. rewrite Hq. simpl. rewrite lookupA_internal by done.
  by destruct (rs !! ToLower name).
Qed.

(** The rows of a reconciled hostname table, up to their IDs. *)
Lemma reconciled_hostnames lo desired old new :
  reconciled hostnameKey hostnameKey (λ _ o, o) (λ d r, set_h_ID (h_ID r) d) lo desired old new →
  (∀ d, d ∈ desired → h_ID d = 0%Z) →
  ∀ h ip, (∃ r, r ∈ new ∧ h_Hostname r = h ∧ h_IP r = ip) ↔ mk_Hostname 0 h ip ∈ desired.
Proof.
  intros Hr Hz h ip. split.
  - intros (r & Hin & <- & <-).
    assert (hostnameKey r ∈ hostnameKey <$> desired) as (d & Hd & Hdin)%list_elem_of_fmap.
    { rewrite <-(rc_keys _ _ _ _ _ _ _ _ Hr). by apply list_elem_of_fmap_2. }
    specialize (Hz d Hdin). destruct d as [i h' ip']; simpl in *; subst i.
    unfold hostnameKey, set_h_ID in Hd. simpl in Hd. by injection Hd as -> ->.
  - intros Hin. assert (mk_Hostname 0 h ip ∈ hostnameKey <$> new) as (r & Hd & Hr')%list_elem_of_fmap.
    { rewrite (rc_keys _ _ _ _ _ _ _ _ Hr). apply list_elem_of_fmap. by exists (mk_Hostname 0 h ip). }
    exists r. by injection Hd as -> ->.
Qed.

Lemma desiredHostnames_zero s d : d ∈ desiredHostnames s → h_ID d = 0%Z.
Proof. rewrite elem_of_desiredHostnames. naive_solver. Qed.

(** ** Properties *)

(** a round of [syncHostnames] makes the hostname table say what the
    containers and load balancers say.  On the leader the table then has, up to
    IDs, exactly one row per load balancer with an address and per container
    with a hostname and an address; a row that was already right and not a
    duplicate is still there, with its ID; no other table changes.  On any
    other minion nothing changes. *)
Theorem syncHostnames_reconciles `{MapOrder} s :
  DbOK (list_to_set dnsTables) s →
  wp syncHostnamesOnce s (λ _ s',
    if is_leader s then
      wf s' ∧ only HostnameTable s s' ∧
      NoDup (hostnameKey <$> vals (tbl Hostname s')) ∧
      (∀ h ip, (∃ r, r ∈ vals (tbl Hostname s') ∧ h_Hostname r = h ∧ h_IP r = ip) ↔
        (∃ lb, lb ∈ vals (tbl LoadBalancer s) ∧ lb_IP lb ≠ "" ∧ h = lb_Name lb ∧ ip = lb_IP lb) ∨
        (∃ c, c ∈ vals (tbl Container s) ∧ c_Hostname c ≠ "" ∧ c_IP c ≠ "" ∧
              h = c_Hostname c ∧ ip = c_IP c)) ∧
      (∀ r, r ∈ vals (tbl Hostname s) → hostnameKey r ∈ desiredHostnames s →
        (∀ r', r' ∈ vals (tbl Hostname s) → hostnameKey r' = hostnameKey r → r' = r) →
        r ∈ vals (tbl Hostname s'))
    else same s s').
Proof.
  intros Hok. apply wp_syncHostnamesOnce; [done|by intros ->|]. intros -> s' Hok' Ho Hr.
  split_and!; [apply Hok'|done|apply Hr|..].
  - intros h ip. rewrite (reconciled_hostnames _ _ _ _ Hr (desiredHostnames_zero s)).
    rewrite elem_of_desiredHostnames. naive_solver.
  - intros r Hin Hk Hu. destruct (rc_kept _ _ _ _ _ _ _ _ Hr r Hin) as (d & _ & _ & ?); [|done..].
    apply list_elem_of_fmap. exists (hostnameKey r). by split.
Qed.

(** C29: a container or load balancer can be found by name.  After a round of
    [syncHostnames] on the leader, a server that serves the rows of the
    hostname table answers an A query for an undotted name, whatever its case,
    with exactly the address of the container or load balancer of that name
    when all those so called have one address, and does not answer when there
    is none. *)
Theorem dns_resolves_names `{MapOrder} `{ParseIPv6} lookupHost s :
  DbOK (list_to_set dnsTables) s → is_leader s = true →
  wp (syncHostnamesOnce ;;; connSelect None) s (λ hs _,
    ∀ name req, lacks "." name → msg_Question req = [mk_Question (name +:+ ".") TypeA ClassINET] →
    (∀ h a, mk_Hostname 0 h (IPString a) ∈ desiredHostnames s → (0 ≤ a < 2 ^ 32)%Z →
      ToLower h = ToLower name →
      (∀ d, d ∈ desiredHostnames s → ToLower (h_Hostname d) = ToLower name → h_IP d = IPString a) →
      genResponse lookupHost (hostnamesToDNS hs) req =
        Some (set_Answer [mk_RR (name +:+ ".") TypeA ClassINET 60 (IP4 a)] (SetReply req))) ∧
    ((∀ d, d ∈ desiredHostnames s → ToLower (h_Hostname d) ≠ ToLower name) →
      genResponse lookupHost (hostnamesToDNS hs) req = None)).
Proof.
  intros Hok Hl. wp_bind. apply wp_syncHostnamesOnce; [done|congruence|].
  intros _ s1 Hok1 _ Hr. pose proof (reconciled_hostnames _ _ _ _ Hr (desiredHostnames_zero s)) as Hrows.
  apply wp_connSelect_all; [by eapply DbOK_sub; [exact Hok1|set_solver]|].
  intros hs s2 _ Hhs name req Hn Hq.
  assert (∀ r, r ∈ hs → mk_Hostname 0 (h_Hostname r) (h_IP r) ∈ desiredHostnames s) as Hsub.
  { intros r Hin. apply Hrows. exists r. by rewrite <-Hhs. }
  rewrite (genResponse_internal _ _ _ name) by done. split.
  - intros h a Hd Ha Hlow Hu. apply Hrows in Hd as (r & Hin & <- & Hip). rewrite <-Hhs in Hin.
    rewrite <-Hlow, (hostnamesToDNS_unique _ r (IP4 a)); [done|done|by rewrite Hip; apply ParseIP_String|].
    intros r' Hr' Hlow'. rewrite Hip. apply (Hu _ (Hsub _ Hr')). by rewrite <-Hlow.
  - intros Hno. destruct (hostnamesToDNS hs !! _) as [ip|] eqn:Hlk; [|done].
    apply hostnamesToDNS_some in Hlk as (r & Hin & Hlow & _). by destruct (Hno _ (Hsub r Hin)).
Qed.

(** *** On a concrete database *)

Definition demo_dns : store :=
  storeOf [REtcd (mk_Etcd 1 [] true ""); RLoadBalancer (mk_LoadBalancer 2 "web" "10.0.1.1" ["a"]);
           RContainer (mk_Container 3 "10.0.0.9" "" "a" "" "" [] ∅ ∅ "Db" 0 false [] "" "");
           RHostname (mk_Hostname 4 "web" "10.0.1.1"); RHostname (mk_Hostname 5 "old" "10.0.0.3")].

Definition demo_query (name : string) : Msg :=
  mk_Msg 7 false 0 true false 0 [mk_Question name TypeA ClassINET] [].

Lemma demo_dns_ok : DbOK (list_to_set dnsTables) demo_dns.
Proof. vm_decide. Qed.

Lemma syncHostnames_reconciles_witness :
  wp syncHostnamesOnce demo_dns (λ _ s', ∃ r, r ∈ vals (tbl Hostname s') ∧
    h_Hostname r = "Db" ∧ h_IP r = "10.0.0.9").
Proof.
  eapply wp_mono; [apply (syncHostnames_reconciles demo_dns demo_dns_ok)|].
  intros u s' Hs. change (is_leader demo_dns) with true in Hs. cbn iota in Hs.
  destruct Hs as (_ & _ & _ & Hrows & _). apply Hrows. right.
  exists (mk_Container 3 "10.0.0.9" "" "a" "" "" [] ∅ ∅ "Db" 0 false [] "" "").
  split; [vm_decide|done].
Defined.

#[local] Instance demo_no_v6 : ParseIPv6 := { parseIPv6 _ := None }.

Lemma dns_resolves_names_witness :
  wp (syncHostnamesOnce ;;; connSelect None) demo_dns (λ hs _,
    genResponse (λ _, Err "no upstream") (hostnamesToDNS hs) (demo_query "dB.") =
      Some (mk_Msg 7 true 0 true false 0 [mk_Question "dB." TypeA ClassINET]
              [mk_RR "dB." TypeA ClassINET 60 (IP4 (IPv4 10 0 0 9))]) ∧
    genResponse (λ _, Err "no upstream") (hostnamesToDNS hs) (demo_query "old.") = None).
Proof.
  eapply wp_mono; [apply (dns_resolves_names (λ _, Err "no upstream") demo_dns demo_dns_ok); reflexivity|].
  intros hs s' Hs. split.
  - destruct (Hs "dB" (demo_query "dB.")) as [Ha _]; [repeat split; done|done|].
    apply (Ha "Db" (IPv4 10 0 0 9)); [vm_decide|vm_decide|reflexivity|].
    apply (proj1 (Forall_forall (λ d, ToLower (h_Hostname d) = ToLower "dB" → h_IP d = IPString (IPv4 10 0 0 9))
      (desiredHostnames demo_dns))). vm_decide.
  - destruct (Hs "old" (demo_query "old.")) as [_ Hb]; [repeat split; done|done|].
    apply Hb. apply (proj1 (Forall_forall (λ d, ToLower (h_Hostname d) ≠ ToLower "old")
      (desiredHostnames demo_dns))). vm_decide.
Defined.
