(* ===== verification/Ec2.v ===== *)
(** * Package amazon: machines on EC2

    [src/cloud/amazon/amazon.go]: the cloud provider for Amazon.  The API
    objects are records of the fields the code reads or sets; pointers that the
    code checks or dereferences are [option]s.  The client is the class
    [EC2Client]; the boot script is the function [Ubuntu]. *)

From S2P Require Import Prelude GoStrings Join Blueprint DbRows CloudJoin Providers Dns.

(** ** API objects *)

Record Filter := mk_Filter { f_Name : string; f_Values : list string }.

(** [BlockDeviceMappings] are the volume IDs, behind two pointers. *)
Record Instance_ := mk_Instance {
  InstanceId : option string;
  SpotInstanceRequestId : option string;
  PublicIpAddress : option string;
  PrivateIpAddress : option string;
  InstanceType : option string;
  BlockDeviceMappings : list (option string);
}.

(** [sr_LaunchSpecification] is the instance type in it. *)
Record SpotRequest := mk_SpotRequest {
  sr_SpotInstanceRequestId : option string;
  sr_InstanceId : option string;
  sr_LaunchSpecification : option (option string);
}.

Record BlockDevice := mk_BlockDevice {
  DeviceName : string;
  DeleteOnTermination : bool;
  VolumeSize : Z;
  VolumeType : string;
}.
(** [RunInstancesInput] and [RequestSpotLaunchSpecification] without the counts. *)
Record LaunchSpec := mk_LaunchSpec {
  ls_ImageId : string;
  ls_InstanceType : string;
  ls_UserData : string;
  ls_SecurityGroupIds : list string;
  ls_BlockDeviceMappings : list BlockDevice;
}.

Record Address := mk_Address {
  PublicIp : option string;
  AllocationId : option string;
  a_InstanceId : option string;
  AssociationId : option string;
}.
Record ec2Volume := mk_ec2Volume { VolumeId : option string; Size : option Z }.

Record GroupPair := mk_GroupPair { gp_GroupId : option string; gp_GroupName : option string }.
(** [IpRanges] are their [CidrIp]s. *)
Record IpPermission := mk_IpPermission {
  FromPort : option Z;
  ToPort : option Z;
  IpProtocol : option string;
  IpRanges : list (option string);
  Ipv6Ranges : list (option string);
  UserIdGroupPairs : list GroupPair;
}.
Record SecurityGroup := mk_SecurityGroup {
  sg_GroupId : option string;
  sg_GroupName : option string;
  IpPermissions : list IpPermission;
}.

Class EC2Client (W : Type) := {
  DescribeInstances : list Filter → M W (result (list (list Instance_)));
  RunInstances : LaunchSpec → Z → M W (result (list Instance_));
  TerminateInstances : list string → M W (result unit);
  (** [None]: all requests. *)
  DescribeSpotInstanceRequests : option (list string) → list Filter → M W (result (list SpotRequest));
  RequestSpotInstances : string → Z → LaunchSpec → M W (result (list SpotRequest));
  CancelSpotInstanceRequests : list string → M W (result unit);
  DescribeSecurityGroup : string → M W (result (list SecurityGroup));
  CreateSecurityGroup : string → string → M W (result string);
  DeleteSecurityGroup : string → M W (result unit);
  AuthorizeSecurityGroup : string → string → list IpPermission → M W (result unit);
  RevokeSecurityGroup : string → list IpPermission → M W (result unit);
  DescribeAddresses : M W (result (list Address));
  AssociateAddress : string → string → M W (result unit);
  DisassociateAddress : string → M W (result unit);
  DescribeVolumes : M W (result (list ec2Volume));
}.

(** ** The provider *)

Record ec2Provider := mk_ec2Provider { ec2_namespace : string; ec2_region : string }.
Record awsMachine := mk_awsMachine { instanceID : string; spotID : string; aws_machine : Machine }.

Definition spotPrice : string := "0.5".
Definition amis : gmap string string :=
  {["us-east-1" := "ami-f0768de6"; "ap-southeast-2" := "ami-943d3bf7"; "us-west-1" := "ami-79df8219";
    "us-west-2" := "ami-d206bdb2"]}.

Definition newAmazon (namespace region : string) : ec2Provider := mk_ec2Provider (ToLower namespace) region.

Definition resolveString (ptr : option string) : string := default "" ptr.
Fixpoint derefAll (ptrs : list (option string)) : outcome (list string) :=
  match ptrs with
  | [] => Ok []
  | ptr :: ptrs => let! a := deref ptr in let! l := derefAll ptrs in Ok (a :: l)
  end.

Definition blockDevice (diskSize : Z) : BlockDevice := mk_BlockDevice "/dev/sda1" true diskSize "gp2".

Section provider.
Context {W : Type} `{EC2Client W} `{MapOrder} (prvdr : ec2Provider) (script : Machine → string → string).

(** The group of the namespace, created if there is none. *)
Definition getCreateSecurityGroup : M W (result (string * list IpPermission)) :=
  let! r := DescribeSecurityGroup (ec2_namespace prvdr) in
  match r with
  | Err e => mret (Err e)
  | Val groups =>
    match groups with
    | [] =>
      let! r := CreateSecurityGroup (ec2_namespace prvdr) "Kelda Group" in
      mret (match r with Val id => Val (id, []) | Err e => Err e end)
    | [group] => let! id := lift (deref (sg_GroupId group)) in mret (Val (id, IpPermissions group))
    | _ => mret (Err ("Multiple Security Groups with the same name: " +:+ ec2_namespace prvdr))
    end
  end.

(** ** Booting *)

Record bootReq := mk_bootReq {
  br_groupID : string;
  br_cfg : string;
  br_size : string;
  br_diskSize : Z;
  br_preemptible : bool;
}.
#[export] Instance bootReq_eq_dec : EqDecision bootReq.
Proof. solve_decision. Defined.
#[export] Program Instance bootReq_countable : Countable bootReq :=
  inj_countable' (λ b, (br_groupID b, br_cfg b, br_size b, br_diskSize b, br_preemptible b))
    (λ '(a, b, c, d, e), mk_bootReq a b c d e) _.
Next Obligation. by intros []. Qed.

Definition bootReqOf (groupID : string) (m : Machine) : bootReq :=
  mk_bootReq groupID (script m "") (m_Size m) (m_DiskSize m) (m_Preemptible m).

Definition launchSpec (br : bootReq) : LaunchSpec :=
  mk_LaunchSpec (default "" (amis !! ec2_region prvdr)) (br_size br) (base64 (br_cfg br)) [br_groupID br]
    [blockDevice (br_diskSize br)].

Definition bootReserved (br : bootReq) (count : Z) : M W (result (list string)) :=
  let! r := RunInstances (launchSpec br) count in
  match r with
  | Err e => mret (Err e)
  | Val insts => let! ids := lift (derefAll (InstanceId <$> insts)) in mret (Val ids)
  end.

Definition bootSpot (br : bootReq) (count : Z) : M W (result (list string)) :=
  let! r := RequestSpotInstances spotPrice count (launchSpec br) in
  match r with
  | Err e => mret (Err e)
  | Val spots => let! ids := lift (derefAll (sr_SpotInstanceRequestId <$> spots)) in mret (Val ids)
  end.

(** The loop over the requests, with the IDs so far. *)
Fixpoint bootLoop (reqs : list (bootReq * Z)) (ids : list string) : M W (list string * result unit) :=
  match reqs with
  | [] => mret (ids, Val ())
  | (br, count) :: reqs =>
    let! r := if br_preemptible br then bootSpot br count else bootReserved br count in
    match r with
    | Err e => mret (ids, Err e)
    | Val newIDs => bootLoop reqs (ids ++ newIDs)
    end
  end.

Definition ec2_Boot (n : nat) (bootSet : list Machine) : M W (list string * result unit) :=
  match bootSet with
  | [] => mret ([], Val ())
  | _ =>
    let! r := getCreateSecurityGroup in
    match r with
    | Err e => mret ([], Err e)
    | Val (groupID, _) => bootLoop (range n (countAll (bootReqOf groupID <$> bootSet))) []
    end
  end.

(** ** Stopping *)

(** The error of two calls, both of which were made. *)
Definition bothErrors (one two : result unit) (msg : string → string → string) : result unit :=
  match one, two with
  | Val _, _ => two
  | Err e, Val _ => Err e
  | Err e, Err e' => Err (msg e e')
  end.

Definition stopSpots (ids : list string) : M W (result unit) :=
  let! r := DescribeSpotInstanceRequests (Some ids) [] in
  match r with
  | Err e => mret (Err e)
  | Val spots =>
    let instIDs := omap sr_InstanceId spots in
    let! stopInstsErr := if bool_decide (instIDs ≠ []) then TerminateInstances instIDs else mret (Val ()) in
    let! cancelSpotsErr := CancelSpotInstanceRequests ids in
    mret (bothErrors stopInstsErr cancelSpotsErr (λ stop cancel, "stop: " +:+ stop +:+ ", cancel: " +:+ cancel))
  end.

Definition ec2_Stop (machines : list Machine) : M W (result unit) :=
  let spotIDs := m_CloudID <$> filter (λ m, m_Preemptible m = true) machines in
  let instIDs := m_CloudID <$> filter (λ m, m_Preemptible m = false) machines in
  let! spotErr := if bool_decide (spotIDs ≠ []) then stopSpots spotIDs else mret (Val ()) in
  let! instErr := if bool_decide (instIDs ≠ []) then TerminateInstances instIDs else mret (Val ()) in
  mret (bothErrors spotErr instErr (λ spot inst, "reserved: " +:+ inst +:+ ", and spot: " +:+ spot)).

(** ** Listing *)

Definition trackedSpotStates : list string := ["active"; "open"].

Definition spotMachine (spot : SpotRequest) : outcome awsMachine :=
  let! itype := deref (sr_LaunchSpecification spot) in
  Ok (mk_awsMachine "" (resolveString (sr_SpotInstanceRequestId spot))
        (mk_Machine 0 "" "" (resolveString itype) 0 [] "" false "" "" "" "" None_ false)).

Fixpoint spotMachines (spots : list SpotRequest) : outcome (list awsMachine) :=
  match spots with
  | [] => Ok []
  | spot :: spots => let! m := spotMachine spot in let! ms := spotMachines spots in Ok (m :: ms)
  end.

Definition listSpots : M W (result (list awsMachine)) :=
  let! r := DescribeSpotInstanceRequests None
              [mk_Filter "state" trackedSpotStates; mk_Filter "launch.group-name" [ec2_namespace prvdr]] in
  match r with
  | Err e => mret (Err e)
  | Val spots => let! machines := lift (spotMachines spots) in mret (Val machines)
  end.

(** The size of the first volume; 0 if there is no volume or no information about it. *)
Definition parseDiskSize (volumeMap : gmap string ec2Volume) (inst : Instance_) : outcome (Z * result unit) :=
  match BlockDeviceMappings inst with
  | [] => Ok (0%Z, Val ())
  | ptr :: _ =>
    let! volumeID := deref ptr in
    match volumeMap !! volumeID with
    | None => Ok (0%Z, Err ("no disk information for volume with ID " +:+ volumeID))
    | Some volume => let! size := deref (Size volume) in Ok (size, Val ())
    end
  end.

Definition ipMapOf (addrs : list Address) : gmap string Address :=
  foldl (λ m ip, match a_InstanceId ip with Some id => <[id := ip]> m | None => m end) ∅ addrs.
Definition volumeMapOf (volumes : list ec2Volume) : gmap string ec2Volume :=
  foldl (λ m v, match VolumeId v with Some id => <[id := v]> m | None => m end) ∅ volumes.

Definition instanceMachine (ipMap : gmap string Address) (volumeMap : gmap string ec2Volume) (inst : Instance_)
    : outcome awsMachine :=
  let! (diskSize, _) := parseDiskSize volumeMap inst in
  let! id := deref (InstanceId inst) in
  let! floatingIP := match ipMap !! id with Some ip => deref (PublicIp ip) | None => Ok "" end in
  Ok (mk_awsMachine (resolveString (InstanceId inst)) (resolveString (SpotInstanceRequestId inst))
        (mk_Machine 0 "" "" (resolveString (InstanceType inst)) diskSize [] floatingIP false ""
           (resolveString (PublicIpAddress inst)) (resolveString (PrivateIpAddress inst)) "" None_ false)).

Fixpoint instanceMachines (ipMap : gmap string Address) (volumeMap : gmap string ec2Volume) (insts : list Instance_)
    : outcome (list awsMachine) :=
  match insts with
  | [] => Ok []
  | inst :: insts =>
    let! m := instanceMachine ipMap volumeMap inst in
    let! ms := instanceMachines ipMap volumeMap insts in Ok (m :: ms)
  end.

Definition listInstances : M W (result (list awsMachine)) :=
  let! r := DescribeInstances [mk_Filter "instance.group-name" [ec2_namespace prvdr];
                               mk_Filter "instance-state-name" ["running"]] in
  match r with
  | Err e => mret (Err e)
  | Val reservations =>
    let! r := DescribeAddresses in
    match r with
    | Err e => mret (Err e)
    | Val addrs =>
      let! r := DescribeVolumes in
      match r with
      | Err e => mret (Err e)
      | Val volumes =>
        let! instances := lift (instanceMachines (ipMapOf addrs) (volumeMapOf volumes) (concat reservations)) in
        mret (Val instances)
      end
    end
  end.

(** The row of a machine. *)
Definition finishMachine (awsm : awsMachine) : Machine :=
  let cm := aws_machine awsm in
  let preemptible := bool_decide (spotID awsm ≠ "") in
  mk_Machine (m_ID cm) Amazon (ec2_region prvdr) (m_Size cm) (m_DiskSize cm) (m_SSHKeys cm) (m_FloatingIP cm) preemptible
    (if preemptible then spotID awsm else instanceID awsm)
    (m_PublicIP cm) (m_PrivateIP cm) (m_Status cm) (m_Role cm) (m_Connected cm).

Definition ec2_List (n : nat) : M W (result (list Machine)) :=
  let! r := listSpots in
  match r with
  | Err e => mret (Err e)
  | Val allSpots =>
    let! r := listInstances in
    match r with
    | Err e => mret (Err e)
    | Val ourInsts =>
      let '(bootedSpots, nonbootedSpots, reservedInstances) := HashJoin n allSpots ourInsts spotID spotID in
      mret (Val (finishMachine <$> reservedInstances ++ bootedSpots.*2 ++ nonbootedSpots))
    end
  end.

(** The machines listed are of the provider's region. *)
Lemma ec2_List_ours ns n : listsOurs (mk_cloud ns Amazon (ec2_region prvdr)) (ec2_List n).
Proof.
  intros w. unfold ec2_List, mbind, M_bind. destruct (listSpots w) as [[[spots|e] w1]|]; [|done..].
  destruct (listInstances w1) as [[[insts|e] w2]|]; [|done..]. destruct (HashJoin _ _ _ _ _) as [[b nb] r]. simpl.
  intros m (x & -> & _)%list_elem_of_fmap. done.
Qed.

(** ** Floating IPs *)

Definition getInstanceID (spotID : string) : M W (result string) :=
  let! r := DescribeSpotInstanceRequests (Some [spotID]) [] in
  match r with
  | Err e => mret (Err e)
  | Val [] => mret (Err ("no spot requests with ID " +:+ spotID))
  | Val (spot :: _) => let! id := lift (deref (sr_InstanceId spot)) in mret (Val id)
  end.

(** IP address to allocation, and instance to association. *)
Fixpoint addressMaps (addrs : list Address) (addresses associations : gmap string string)
    : outcome (gmap string string * gmap string string) :=
  match addrs with
  | [] => Ok (addresses, associations)
  | addr :: addrs =>
    let! addresses := match AllocationId addr with
                      | Some alloc => let! ip := deref (PublicIp addr) in Ok (<[ip := alloc]> addresses)
                      | None => Ok addresses
                      end in
    addressMaps addrs addresses
      (match a_InstanceId addr, AssociationId addr with
       | Some id, Some assoc => <[id := assoc]> associations
       | _, _ => associations
       end)
  end.

Fixpoint floatingLoop (addresses associations : gmap string string) (machines : list Machine) : M W (result unit) :=
  match machines with
  | [] => mret (Val ())
  | machine :: machines =>
    let! r := if m_Preemptible machine then getInstanceID (m_CloudID machine) else mret (Val (m_CloudID machine)) in
    match r with
    | Err e => mret (Err e)
    | Val id =>
      let! r :=
        if bool_decide (m_FloatingIP machine = "") then
          match associations !! id with
          | None => mret (Val ())
          | Some associationID => DisassociateAddress associationID
          end
        else
          match addresses !! m_FloatingIP machine with
          | None => mret (Err ("unknown floating IP " +:+ m_FloatingIP machine +:+ ". Has the IP been reserved for the region "
                                 +:+ ec2_region prvdr +:+ "?"))
          | Some allocationID => AssociateAddress id allocationID
          end in
      match r with
      | Err e => mret (Err e)
      | Val _ => floatingLoop addresses associations machines
      end
    end
  end.

Definition ec2_UpdateFloatingIPs (machines : list Machine) : M W (result unit) :=
  let! r := DescribeAddresses in
  match r with
  | Err e => mret (Err e)
  | Val addrs =>
    let! (addresses, associations) := lift (addressMaps addrs ∅ ∅) in
    floatingLoop addresses associations machines
  end.

(** ** ACLs *)

Record ipPermissionKey := mk_ipPermissionKey { k_protocol : string; k_ipRange : string; k_minPort : Z; k_maxPort : Z }.
#[export] Instance ipPermissionKey_eq_dec : EqDecision ipPermissionKey.
Proof. solve_decision. Defined.
#[export] Program Instance ipPermissionKey_countable : Countable ipPermissionKey :=
  inj_countable' (λ k, (k_protocol k, k_ipRange k, k_minPort k, k_maxPort k))
    (λ '(a, b, c, d), mk_ipPermissionKey a b c d) _.
Next Obligation. by intros []. Qed.

Definition permToACLKey (perm : IpPermission) : outcome ipPermissionKey :=
  match IpRanges perm with
  | [] => Panic "index out of range"
  | ipRange :: _ =>
    Ok (mk_ipPermissionKey (default "" (IpProtocol perm)) (default "" ipRange) (default 0%Z (FromPort perm))
          (default 0%Z (ToPort perm)))
  end.

(** The key as a function for the join, which calls it on every element. *)
Definition joinKeyOf (perm : IpPermission) : option ipPermissionKey :=
  match permToACLKey perm with Ok key => Some key | Panic _ => None end.

(** The three permissions of an ACL. *)
Definition aclPermissions (acl : ACL) : list IpPermission :=
  [mk_IpPermission (Some (acl_MinPort acl)) (Some (acl_MaxPort acl)) (Some "tcp") [Some (CidrIP acl)] [] [];
   mk_IpPermission (Some (acl_MinPort acl)) (Some (acl_MaxPort acl)) (Some "udp") [Some (CidrIP acl)] [] [];
   mk_IpPermission (Some (-1)%Z) (Some (-1)%Z) (Some "icmp") [Some (CidrIP acl)] [] []].

(** The loop over the group pairs of a permission: whether the group itself is
    among them, and the pairs to remove. *)
Fixpoint pairsLoop (desiredGroupID : string) (pairs : list GroupPair) : outcome (bool * list IpPermission) :=
  match pairs with
  | [] => Ok (false, [])
  | gp :: pairs =>
    let! id := deref (gp_GroupId gp) in
    let! (foundGroup, toRemove) := pairsLoop desiredGroupID pairs in
    Ok (if bool_decide (id ≠ desiredGroupID)
        then (foundGroup, mk_IpPermission None None None [] [] [gp] :: toRemove)
        else (true, toRemove))
  end.

(** The loop over the current permissions. *)
Fixpoint currentLoop (desiredGroupID : string) (current : list IpPermission)
    : outcome (list IpPermission * bool * list IpPermission) :=
  match current with
  | [] => Ok ([], false, [])
  | perm :: current =>
    let ranges := (λ ipRange, mk_IpPermission (FromPort perm) (ToPort perm) (IpProtocol perm) [ipRange] [] []) <$> IpRanges perm in
    let! (found, remove) := pairsLoop desiredGroupID (UserIdGroupPairs perm) in
    let! (currRangeRules, foundGroup, toRemove) := currentLoop desiredGroupID current in
    Ok (ranges ++ currRangeRules, found || foundGroup, remove ++ toRemove)
  end.

Definition ec2_syncACLs (n : nat) (desiredACLs : list ACL) (desiredGroupID : string) (current : list IpPermission)
    : outcome (list IpPermission * bool * list IpPermission) :=
  let! (currRangeRules, foundGroup, toRemove) := currentLoop desiredGroupID current in
  let desiredRangeRules := concat (aclPermissions <$> desiredACLs) in
  if forallb (λ perm, bool_decide (is_Some (joinKeyOf perm))) (desiredRangeRules ++ currRangeRules) then
    let '(_, toAdd, rangesToRemove) := HashJoin n desiredRangeRules currRangeRules joinKeyOf joinKeyOf in
    Ok (toAdd, foundGroup, toRemove ++ rangesToRemove)
  else Panic "index out of range".

(** What [logACLs] dereferences. *)
Definition logACL (perm : IpPermission) : outcome unit :=
  match IpRanges perm with
  | ipRange :: _ =>
    let! protocol := deref (IpProtocol perm) in
    if bool_decide (protocol ≠ "tcp") then Ok ()
    else let! _ := deref ipRange in let! _ := deref (FromPort perm) in let! _ := deref (ToPort perm) in Ok ()
  | [] =>
    match UserIdGroupPairs perm with
    | gp :: _ => let! _ := deref (gp_GroupName gp) in Ok ()
    | [] => Panic "index out of range"
    end
  end.
Fixpoint logACLs (perms : list IpPermission) : outcome unit :=
  match perms with
  | [] => Ok ()
  | perm :: perms => let! _ := logACL perm in logACLs perms
  end.

(** A call that is made if [need] is set. *)
Definition callIf (need : bool) (log : outcome unit) (call : M W (result unit)) : M W (result unit) :=
  if need then let! _ := lift log in call else mret (Val ()).

Definition ec2_SetACLs (n : nat) (acls : list ACL) : M W (result unit) :=
  let! r := getCreateSecurityGroup in
  match r with
  | Err e => mret (Err e)
  | Val (groupID, ingress) =>
    let! (rangesToAdd, foundGroup, rulesToRemove) := lift (ec2_syncACLs n acls groupID ingress) in
    let! r := callIf (bool_decide (rangesToAdd ≠ [])) (logACLs rangesToAdd)
                (AuthorizeSecurityGroup (ec2_namespace prvdr) "" rangesToAdd) in
    match r with
    | Err e => mret (Err e)
    | Val _ =>
      let! r := callIf (negb foundGroup) (Ok ())
                  (AuthorizeSecurityGroup (ec2_namespace prvdr) (ec2_namespace prvdr) []) in
      match r with
      | Err e => mret (Err e)
      | Val _ =>
        callIf (bool_decide (rulesToRemove ≠ [])) (logACLs rulesToRemove)
          (RevokeSecurityGroup (ec2_namespace prvdr) rulesToRemove)
      end
    end
  end.

(** ** Cleaning up *)

Fixpoint deleteGroups (groups : list SecurityGroup) : M W (result unit) :=
  match groups with
  | [] => mret (Val ())
  | group :: groups =>
    let! _ := lift (deref (sg_GroupName group)) in
    let! id := lift (deref (sg_GroupId group)) in
    let! r := DeleteSecurityGroup id in
    match r with Err e => mret (Err e) | Val _ => deleteGroups groups end
  end.

Definition ec2_Cleanup : M W (result unit) :=
  let! r := DescribeSecurityGroup (ec2_namespace prvdr) in
  match r with Err e => mret (Err e) | Val groups => deleteGroups groups end.
End provider.
