(* ===== verification/Ec2Spec.v ===== *)
(** * Package amazon: what the provider guarantees

    EC2 as the code relies on it (instances, spot requests and security groups
    with the laws of the client's calls), and the theorems about listing,
    booting and stopping machines and about the ACLs. *)

From S2P Require Import Prelude GoStrings Join Blueprint DbRows CloudJoin Providers Dns Ec2.

(** ** EC2 *)

Record vInst := mk_vInst { i_obj : Instance_; i_group : string; i_state : string; i_spec : LaunchSpec }.
Record vSpot := mk_vSpot { s_obj : SpotRequest; s_group : string; s_state : string; s_spec : LaunchSpec }.
(** The ingress rules of a security group: the protocol, the ports (or ICMP
    types) and where the traffic may come from. *)
Inductive vSource := IPv4 (cidr : string) | IPv6 (cidr : string) | FromGroup (id : string).
#[export] Instance vSource_eq_dec : EqDecision vSource.
Proof. solve_decision. Defined.
#[export] Program Instance vSource_countable : Countable vSource :=
  inj_countable' (λ s, match s with IPv4 c => inl c | IPv6 c => inr (inl c) | FromGroup i => inr (inr i) end)
    (λ x, match x with inl c => IPv4 c | inr (inl c) => IPv6 c | inr (inr i) => FromGroup i end) _.
Next Obligation. by intros []. Qed.
Record vRule := mk_vRule { r_protocol : option string; r_from : option Z; r_to : option Z; r_source : vSource }.
#[export] Instance vRule_eq_dec : EqDecision vRule.
Proof. solve_decision. Defined.
#[export] Program Instance vRule_countable : Countable vRule :=
  inj_countable' (λ r, (r_protocol r, r_from r, r_to r, r_source r)) (λ '(a, b, c, d), mk_vRule a b c d) _.
Next Obligation. by intros []. Qed.
Record vGroup := mk_vGroup { g_id : string; g_rules : gset vRule }.
Record ec2View := mk_ec2View {
  v_insts : gmap string vInst;
  v_spots : gmap string vSpot;
  v_addrs : list Address;
  v_vols : list ec2Volume;
  v_groups : gmap string vGroup;
}.
Definition set_groups (g : gmap string vGroup) (v : ec2View) : ec2View :=
  mk_ec2View (v_insts v) (v_spots v) (v_addrs v) (v_vols v) g.
Definition set_insts (m : gmap string vInst) (v : ec2View) : ec2View :=
  mk_ec2View m (v_spots v) (v_addrs v) (v_vols v) (v_groups v).
Definition set_spots (m : gmap string vSpot) (v : ec2View) : ec2View :=
  mk_ec2View (v_insts v) m (v_addrs v) (v_vols v) (v_groups v).

(** The filters in use. *)
Definition instMatches (fs : list Filter) (x : vInst) : Prop :=
  Forall (λ f, (f_Name f = "instance.group-name" → i_group x ∈ f_Values f) ∧
               (f_Name f = "instance-state-name" → i_state x ∈ f_Values f)) fs.
Definition spotMatches (fs : list Filter) (x : vSpot) : Prop :=
  Forall (λ f, (f_Name f = "launch.group-name" → s_group x ∈ f_Values f) ∧
               (f_Name f = "state" → s_state x ∈ f_Values f)) fs.
#[export] Instance instMatches_dec fs x : Decision (instMatches fs x).
Proof. unfold instMatches. apply _. Defined.
#[export] Instance spotMatches_dec fs x : Decision (spotMatches fs x).
Proof. unfold spotMatches. apply _. Defined.

(** The rules that permissions stand for: one for each source they name. *)
Definition permSources (p : IpPermission) : list vSource :=
  (IPv4 <$> omap id (IpRanges p)) ++ (IPv6 <$> omap id (Ipv6Ranges p)) ++ (FromGroup <$> omap gp_GroupId (UserIdGroupPairs p)).
Definition rulesOf (p : IpPermission) : list vRule := mk_vRule (IpProtocol p) (FromPort p) (ToPort p) <$> permSources p.
Definition permRules (perms : list IpPermission) : gset vRule := list_to_set (concat (rulesOf <$> perms)).

(** A rule of a group has a protocol, and ports (or types) where the protocol
    is TCP, UDP or ICMP. *)
Definition rule_ok (r : vRule) : Prop :=
  ∃ p, r_protocol r = Some p ∧ (p ∈ ["tcp"; "udp"; "icmp"] → is_Some (r_from r) ∧ is_Some (r_to r)).

(** TCP, UDP and ICMP rules with their ports. *)
Definition portsGiven (r : vRule) : Prop :=
  r_protocol r ∈ [Some "tcp"; Some "udp"; Some "icmp"] ∧ is_Some (r_from r) ∧ is_Some (r_to r).
#[export] Instance portsGiven_dec r : Decision (portsGiven r).
Proof. unfold portsGiven. apply _. Defined.

(** The permissions of a listing, one per address range, and its group pairs. *)
Definition rangesOf (perms : list IpPermission) : list IpPermission :=
  concat ((λ p, (λ r, mk_IpPermission (FromPort p) (ToPort p) (IpProtocol p) [r] [] []) <$> IpRanges p) <$> perms).
Definition pairsOf (perms : list IpPermission) : list GroupPair := concat (UserIdGroupPairs <$> perms).

(** [perms] is a listing of the rules of a group, without repetitions. *)
Record presents (perms : list IpPermission) (g : vGroup) : Prop := {
  pr_rules : permRules perms = g_rules g;
  pr_ok : ∀ r, r ∈ g_rules g → rule_ok r;
  pr_nodup : NoDup (joinKeyOf <$> rangesOf perms);
  pr_given : Forall (λ p, Forall is_Some (IpRanges p)) perms;
  pr_complete : Forall (λ gp, is_Some (gp_GroupId gp) ∧ is_Some (gp_GroupName gp)) (pairsOf perms);
}.

(** Full TCP, UDP and ICMP access for the members of a group, which is what
    authorizing a source group by its name grants. *)
Definition fullAccess (id : string) : gset vRule :=
  {[mk_vRule (Some "tcp") (Some 0%Z) (Some 65535%Z) (FromGroup id);
    mk_vRule (Some "udp") (Some 0%Z) (Some 65535%Z) (FromGroup id);
    mk_vRule (Some "icmp") (Some (-1)%Z) (Some (-1)%Z) (FromGroup id)]}.
(** The groups that the rules of a group name. *)
Definition memberRule (id : string) (r : vRule) : Prop := r_source r = FromGroup id.
Definition admitsGroup (id : string) (rules : gset vRule) : Prop := set_Exists (memberRule id) rules.
#[export] Instance memberRule_dec id r : Decision (memberRule id r).
Proof. unfold memberRule. apply _. Defined.
#[export] Instance admitsGroup_dec id rules : Decision (admitsGroup id rules).
Proof. unfold admitsGroup. apply _. Defined.

Definition terminated (ids : list string) (m : gmap string vInst) : gmap string vInst :=
  map_imap (λ i x, Some (if decide (i ∈ ids) then mk_vInst (i_obj x) (i_group x) "shutting-down" (i_spec x) else x)) m.
Definition cancelled (ids : list string) (m : gmap string vSpot) : gmap string vSpot :=
  map_imap (λ i x, Some (if decide (i ∈ ids) then mk_vSpot (s_obj x) (s_group x) "cancelled" (s_spec x) else x)) m.

Class EC2Laws (W : Type) `{EC2Client W} := {
  ec2 : W → ec2View;
  DescribeInstances_ok : ∀ fs w, wp (DescribeInstances fs) w (λ r w', ec2 w' = ec2 w ∧
    ∃ res, r = Val res ∧ concat res ≡ₚ i_obj <$> filter (instMatches fs) (vals (v_insts (ec2 w))));
  DescribeSpots_ok : ∀ fs w, wp (DescribeSpotInstanceRequests None fs) w (λ r w', ec2 w' = ec2 w ∧
    ∃ res, r = Val res ∧ res ≡ₚ s_obj <$> filter (spotMatches fs) (vals (v_spots (ec2 w))));
  DescribeSpotIDs_ok : ∀ ids w, (∀ i, i ∈ ids → is_Some (v_spots (ec2 w) !! i)) →
    wp (DescribeSpotInstanceRequests (Some ids) []) w (λ r w', ec2 w' = ec2 w ∧
      ∃ res, r = Val res ∧ ∀ o, o ∈ res ↔ ∃ i x, i ∈ ids ∧ v_spots (ec2 w) !! i = Some x ∧ o = s_obj x);
  DescribeAddresses_ok : ∀ w, wp DescribeAddresses w (λ r w', ec2 w' = ec2 w ∧ r = Val (v_addrs (ec2 w)));
  DescribeVolumes_ok : ∀ w, wp DescribeVolumes w (λ r w', ec2 w' = ec2 w ∧ r = Val (v_vols (ec2 w)));
  TerminateInstances_ok : ∀ ids w, (∀ i, i ∈ ids → is_Some (v_insts (ec2 w) !! i)) →
    wp (TerminateInstances ids) w (λ r w', r = Val () ∧
      ec2 w' = set_insts (terminated ids (v_insts (ec2 w))) (ec2 w));
  CancelSpots_ok : ∀ ids w, (∀ i, i ∈ ids → is_Some (v_spots (ec2 w) !! i)) →
    wp (CancelSpotInstanceRequests ids) w (λ r w', r = Val () ∧
      ec2 w' = set_spots (cancelled ids (v_spots (ec2 w))) (ec2 w));
  RunInstances_ok : ∀ spec n w, (0 < n)%Z →
    wp (RunInstances spec n) w (λ r w', ∃ news : list (string * vInst), r = Val (i_obj <$> news.*2) ∧
      Z.of_nat (length news) = n ∧ NoDup news.*1 ∧
      Forall (λ p, v_insts (ec2 w) !! p.1 = None ∧ InstanceId (i_obj p.2) = Some p.1 ∧ i_spec p.2 = spec) news ∧
      ec2 w' = set_insts (list_to_map news ∪ v_insts (ec2 w)) (ec2 w));
  RequestSpots_ok : ∀ price spec n w, (0 < n)%Z →
    wp (RequestSpotInstances price n spec) w (λ r w', ∃ news : list (string * vSpot), r = Val (s_obj <$> news.*2) ∧
      Z.of_nat (length news) = n ∧ NoDup news.*1 ∧
      Forall (λ p, v_spots (ec2 w) !! p.1 = None ∧ sr_SpotInstanceRequestId (s_obj p.2) = Some p.1 ∧ s_spec p.2 = spec) news ∧
      ec2 w' = set_spots (list_to_map news ∪ v_spots (ec2 w)) (ec2 w));
  DescribeGroup_ok : ∀ name w, wp (DescribeSecurityGroup name) w (λ r w', ec2 w' = ec2 w ∧
    match v_groups (ec2 w) !! name with
    | None => r = Val []
    | Some g => ∃ perms, r = Val [mk_SecurityGroup (Some (g_id g)) (Some name) perms] ∧ presents perms g
    end);
  CreateGroup_ok : ∀ name descr w, v_groups (ec2 w) !! name = None →
    wp (CreateSecurityGroup name descr) w (λ r w', ∃ id, r = Val id ∧
      ec2 w' = set_groups (<[name := mk_vGroup id ∅]> (v_groups (ec2 w))) (ec2 w));
  AuthorizeRanges_ok : ∀ name perms g w, v_groups (ec2 w) !! name = Some g →
    NoDup (concat (rulesOf <$> perms)) → permRules perms ## g_rules g → (∀ r, r ∈ permRules perms → portsGiven r) →
    wp (AuthorizeSecurityGroup name "" perms) w (λ r w', r = Val () ∧
      ec2 w' = set_groups (<[name := mk_vGroup (g_id g) (permRules perms ∪ g_rules g)]> (v_groups (ec2 w))) (ec2 w));
  AuthorizeSelf_ok : ∀ name g w, name ≠ "" → v_groups (ec2 w) !! name = Some g → ¬ admitsGroup (g_id g) (g_rules g) →
    wp (AuthorizeSecurityGroup name name []) w (λ r w', r = Val () ∧
      ec2 w' = set_groups (<[name := mk_vGroup (g_id g) (fullAccess (g_id g) ∪ g_rules g)]> (v_groups (ec2 w))) (ec2 w));
  (* only rules that match exactly are revoked; a request with others fails,
     or (EC2-Classic) revokes those that match *)
  Revoke_ok : ∀ name perms g w, v_groups (ec2 w) !! name = Some g →
    wp (RevokeSecurityGroup name perms) w (λ r w',
      (r = Val () ∧ ec2 w' = set_groups (<[name := mk_vGroup (g_id g) (g_rules g ∖ permRules perms)]> (v_groups (ec2 w))) (ec2 w)) ∨
      (¬ permRules perms ⊆ g_rules g ∧ (∃ e, r = Err e) ∧ ec2 w' = ec2 w));
}.

(** ** The security group *)

Section acls.
Context `{MapOrder} {W : Type} `{EC2Laws W} (prvdr : ec2Provider).
Implicit Types w : W.

(** What the ACLs open: TCP and UDP on the ports, and ICMP. *)
Definition aclRule (a : ACL) : list vRule :=
  [mk_vRule (Some "tcp") (Some (acl_MinPort a)) (Some (acl_MaxPort a)) (IPv4 (CidrIP a));
   mk_vRule (Some "udp") (Some (acl_MinPort a)) (Some (acl_MaxPort a)) (IPv4 (CidrIP a));
   mk_vRule (Some "icmp") (Some (-1)%Z) (Some (-1)%Z) (IPv4 (CidrIP a))].
Definition aclRules (acls : list ACL) : gset vRule := list_to_set (concat (aclRule <$> acls)).
Definition isIPv4 (r : vRule) : Prop := match r_source r with IPv4 _ => True | _ => False end.
#[export] Instance isIPv4_dec r : Decision (isIPv4 r).
Proof. unfold isIPv4. destruct (r_source r); apply _. Defined.
(** Some rule names another group. *)
Definition foreignRule (id : string) (r : vRule) : Prop :=
  match r_source r with FromGroup i => i ≠ id | _ => False end.
#[export] Instance foreignRule_dec id r : Decision (foreignRule id r).
Proof. unfold foreignRule. destruct (r_source r); apply _. Defined.

Lemma pairsLoop_spec gid pairs :
  Forall (λ gp, is_Some (gp_GroupId gp)) pairs →
  pairsLoop gid pairs = Ok (bool_decide (Some gid ∈ gp_GroupId <$> pairs),
    (λ gp, mk_IpPermission None None None [] [] [gp]) <$> filter (λ gp, gp_GroupId gp ≠ Some gid) pairs).
Proof.
  induction pairs as [|gp pairs IH]; [done|]. intros [[id Hid] Hall]%Forall_cons. csimpl. rewrite Hid. simpl.
  rewrite IH by done. simpl. rewrite filter_cons. case_bool as [Hne|Heq].
  - rewrite decide_True by congruence. csimpl. do 2 f_equal. apply bool_decide_ext. set_solver.
  - apply dec_stable in Heq as ->. rewrite decide_False by (rewrite Hid; auto). do 2 f_equal.
    symmetry. apply bool_decide_eq_true. left.
Qed.

(** The permissions made for pairs. *)
Definition pairPerms (pairs : list GroupPair) : list IpPermission :=
  (λ gp, mk_IpPermission None None None [] [] [gp]) <$> pairs.

Lemma currentLoop_spec gid current :
  Forall (λ gp, is_Some (gp_GroupId gp)) (pairsOf current) →
  currentLoop gid current = Ok (rangesOf current, bool_decide (Some gid ∈ gp_GroupId <$> pairsOf current),
    pairPerms (filter (λ gp, gp_GroupId gp ≠ Some gid) (pairsOf current))).
Proof.
  induction current as [|p current IH]; [done|].
  change (pairsOf (p :: current)) with (UserIdGroupPairs p ++ pairsOf current). intros [Hp Hall]%Forall_app.
  cbn [currentLoop]. rewrite pairsLoop_spec by done. cbn [mbind outcome_bind]. rewrite (IH Hall). cbn [mbind outcome_bind].
  unfold pairPerms. rewrite !fmap_app, !filter_app, fmap_app. do 3 f_equal.
  rewrite (bool_decide_ext (Some gid ∈ _ ++ _) (Some gid ∈ gp_GroupId <$> UserIdGroupPairs p ∨
    Some gid ∈ gp_GroupId <$> pairsOf current)) by apply elem_of_app. by rewrite bool_decide_or.
Qed.

Lemma logACLs_ok perms : logACLs perms = Ok () ↔ Forall (λ p, logACL p = Ok ()) perms.
Proof.
  induction perms as [|p perms IH]; [done|]. cbn [logACLs]. rewrite Forall_cons, <-IH.
  destruct (logACL p) as [[]|]; simpl; [tauto|]. naive_solver.
Qed.

(** *** Permissions for one address range *)

Definition keyOf (r : vRule) : option ipPermissionKey :=
  match r_source r with
  | IPv4 c => Some (mk_ipPermissionKey (default "" (r_protocol r)) c (default 0%Z (r_from r)) (default 0%Z (r_to r)))
  | _ => None
  end.
(** [q] stands for the one rule [r], and the join finds it under the key of [r]. *)
Definition single (q : IpPermission) (r : vRule) : Prop := rulesOf q = [r] ∧ joinKeyOf q = keyOf r ∧ isIPv4 r.
Definition singles (l : list IpPermission) : Prop := Forall (λ q, ∃ r, single q r) l.

Lemma elem_of_permRules perms r : r ∈ permRules perms ↔ ∃ p, p ∈ perms ∧ r ∈ rulesOf p.
Proof.
  unfold permRules. rewrite elem_of_list_to_set, elem_of_concat. split.
  - intros (l & (p & -> & Hp)%list_elem_of_fmap & Hr). eauto.
  - intros (p & Hp & Hr). exists (rulesOf p). split; [by apply list_elem_of_fmap_2|done].
Qed.
Lemma permRules_app a b : permRules (a ++ b) = permRules a ∪ permRules b.
Proof. unfold permRules. by rewrite fmap_app, concat_app, list_to_set_app_L. Qed.
Lemma singles_rules l r : singles l → r ∈ permRules l ↔ ∃ q, q ∈ l ∧ single q r.
Proof.
  intros Hl. rewrite elem_of_permRules. split; intros (q & Hq & Hr); exists q; (split; [done|]).
  - eapply Forall_forall in Hl as [r' Hr']; [|done]. destruct Hr' as (Heq & ? & ?). rewrite Heq in Hr.
    apply list_elem_of_singleton in Hr as ->. done.
  - destruct Hr as (-> & _). by apply list_elem_of_singleton.
Qed.
Lemma singles_sub l l' : (∀ q, q ∈ l' → q ∈ l) → singles l → singles l'.
Proof. unfold singles. rewrite !Forall_forall. auto. Qed.
Lemma singles_keys l : singles l → Forall (λ q, is_Some (joinKeyOf q)) l.
Proof.
  intros Hl. eapply Forall_impl; [exact Hl|]. intros q (r & _ & -> & Hr). unfold isIPv4 in Hr. unfold keyOf.
  destruct (r_source r); [eauto|done..].
Qed.
Lemma singles_nodup l : singles l → NoDup (joinKeyOf <$> l) → NoDup (concat (rulesOf <$> l)).
Proof.
  induction 1 as [|q l (r & Hq & Hk & _) Hl IH]; [by constructor|]. csimpl. intros [Hno Hnd]%NoDup_cons. rewrite Hq. simpl.
  apply NoDup_cons. split; [|auto]. intros Hr. apply Hno. rewrite list_elem_of_fmap.
  apply elem_of_concat in Hr as (l' & (q' & -> & Hq')%list_elem_of_fmap & Hr). exists q'. split; [|done].
  eapply Forall_forall in Hl as (r' & Hq'' & Hk' & _); [|done]. rewrite Hq'' in Hr.
  apply list_elem_of_singleton in Hr as ->. congruence.
Qed.

Lemma keyOf_inj r r' : portsGiven r → rule_ok r' → isIPv4 r → keyOf r = keyOf r' → r = r'.
Proof.
  intros [Hpr [[a Ha] [b Hb]]] (p' & Hp' & Hports) H4. destruct r as [p0 f t s], r' as [p0' f' t' s'].
  unfold keyOf, isIPv4 in *. simpl in *. subst.
  assert (∃ p, p ∈ ["tcp"; "udp"; "icmp"] ∧ p0 = Some p) as (p & Hp & ->) by set_solver. destruct s; [|done..]. destruct s'; [|done..]. simpl.
  intros Heq. injection Heq as <- <- Ha Hb. destruct Hports as [[x ->] [y ->]]; [done|]. simpl in *. by subst.
Qed.

Lemma ranges_singles perms : Forall (λ p, Forall is_Some (IpRanges p)) perms → singles (rangesOf perms).
Proof.
  intros Hall. unfold singles, rangesOf. apply Forall_concat, Forall_fmap. eapply Forall_impl; [exact Hall|]. intros p Hp.
  simpl. apply Forall_fmap. eapply Forall_impl; [exact Hp|]. intros r [c ->]. by eexists (mk_vRule _ _ _ (IPv4 c)).
Qed.
Lemma ranges_rules perms r : r ∈ permRules (rangesOf perms) ↔ r ∈ permRules perms ∧ isIPv4 r.
Proof.
  rewrite !elem_of_permRules. unfold rangesOf. setoid_rewrite elem_of_concat.
  unfold rulesOf, permSources. split.
  - intros (q & (l & (p & -> & Hp)%list_elem_of_fmap & (rg & -> & Hrg)%list_elem_of_fmap) & Hr). simpl in Hr. destruct rg as [c|]; [|set_solver].
    simpl in Hr. apply list_elem_of_singleton in Hr as ->. split; [|done]. exists p. split; [done|].
    apply list_elem_of_fmap. eexists. split; [done|]. apply elem_of_app. left. apply list_elem_of_fmap. exists c.
    split; [done|]. apply list_elem_of_omap. eauto.
  - intros [(p & Hp & (s & -> & Hs)%list_elem_of_fmap) H4]. unfold isIPv4 in H4. simpl in H4. destruct s as [c| |]; [|done..].
    rewrite !elem_of_app, !list_elem_of_fmap in Hs.
    destruct Hs as [(c' & [= <-] & (rg & Hrg & Hc)%list_elem_of_omap)|[(? & ? & _)|(? & ? & _)]]; [|done..].
    unfold id in Hc. subst rg. eexists (mk_IpPermission _ _ _ [Some c] [] []). split.
    + eexists. split; [by apply list_elem_of_fmap_2|]. apply list_elem_of_fmap. by exists (Some c).
    + simpl. by apply list_elem_of_singleton.
Qed.

Lemma desired_singles acls :
  singles (concat (aclPermissions <$> acls)) ∧ permRules (concat (aclPermissions <$> acls)) = aclRules acls.
Proof.
  split.
  - apply Forall_concat, Forall_fmap, Forall_true. intros a. simpl. repeat constructor; by eexists (mk_vRule _ _ _ (IPv4 _)).
  - unfold permRules, aclRules. f_equal. induction acls as [|a acls IH]; [done|]. csimpl. by rewrite IH.
Qed.
Lemma aclRules_like acls r : r ∈ aclRules acls → portsGiven r ∧ rule_ok r ∧ isIPv4 r.
Proof.
  unfold aclRules. rewrite elem_of_list_to_set, elem_of_concat. intros (l & (a & -> & _)%list_elem_of_fmap & Hr).
  unfold aclRule in Hr. rewrite !elem_of_cons, elem_of_nil in Hr.
  assert (∀ p f t s, p ∈ ["tcp"; "udp"; "icmp"] → let r := mk_vRule (Some p) (Some f) (Some t) (IPv4 s) in
    portsGiven r ∧ rule_ok r ∧ isIPv4 r) as Hgen.
  { intros p f t s Hp. unfold portsGiven, rule_ok, isIPv4. simpl. split_and!; eauto. set_solver. }
  destruct Hr as [->|[->|[->|[]]]]; apply Hgen; set_solver.
Qed.

(** *** The plan *)

(** What [syncACLs] plans: the missing rules are added and the superfluous
    address rules removed. The permissions that are to remove the rules for
    other groups carry no protocol. *)
Record planned (acls : list ACL) (g : vGroup) (add : list IpPermission) (found : bool) (remove : list IpPermission) : Prop := {
  pl_nodup : NoDup (concat (rulesOf <$> add));
  pl_add : permRules add = aclRules acls ∖ g_rules g;
  pl_found : found = bool_decide (admitsGroup (g_id g) (g_rules g));
  pl_remove : ∃ none, permRules remove = filter isIPv4 (g_rules g) ∖ aclRules acls ∪ none ∧
    (∀ r, r ∈ none → r_protocol r = None ∧ ¬ isIPv4 r) ∧
    (none ≠ ∅ → set_Exists (foreignRule (g_id g)) (g_rules g));
  pl_log : logACLs add = Ok () ∧ logACLs remove = Ok ();
}.

Lemma elem_of_pairs perms gp i :
  gp ∈ pairsOf perms → gp_GroupId gp = Some i → ∃ r, r ∈ permRules perms ∧ r_source r = FromGroup i.
Proof.
  unfold pairsOf. rewrite elem_of_concat. intros (l & (p & -> & Hp)%list_elem_of_fmap & Hgp) Hi.
  exists (mk_vRule (IpProtocol p) (FromPort p) (ToPort p) (FromGroup i)). split; [|done]. rewrite elem_of_permRules.
  exists p. split; [done|]. unfold rulesOf, permSources. apply list_elem_of_fmap. eexists. split; [done|].
  rewrite !elem_of_app. do 2 right. apply list_elem_of_fmap. exists i. split; [done|]. apply list_elem_of_omap. eauto.
Qed.
Lemma elem_of_pairs_2 perms r i :
  r ∈ permRules perms → r_source r = FromGroup i → ∃ gp, gp ∈ pairsOf perms ∧ gp_GroupId gp = Some i.
Proof.
  rewrite elem_of_permRules. intros (p & Hp & (s & -> & Hs)%list_elem_of_fmap). simpl. intros ->.
  unfold permSources in Hs. rewrite !elem_of_app, !list_elem_of_fmap in Hs.
  destruct Hs as [(? & ? & _)|[(? & ? & _)|(i' & [= <-] & (gp & Hgp & Hi)%list_elem_of_omap)]]; [done..|].
  exists gp. split; [|done]. unfold pairsOf. rewrite elem_of_concat. eexists. split; [|exact Hgp].
  by apply list_elem_of_fmap_2.
Qed.

Lemma pairPerms_rules pairs r : r ∈ permRules (pairPerms pairs) →
  r_protocol r = None ∧ ¬ isIPv4 r ∧ ∃ gp i, gp ∈ pairs ∧ gp_GroupId gp = Some i ∧ r_source r = FromGroup i.
Proof.
  rewrite elem_of_permRules. unfold pairPerms. intros (p & (gp & -> & Hgp)%list_elem_of_fmap & Hr).
  unfold rulesOf, permSources in Hr. simpl in Hr. apply list_elem_of_fmap in Hr as (s & -> & Hs). simpl.
  apply list_elem_of_fmap in Hs as (i & -> & Hi). destruct (gp_GroupId gp) as [i'|] eqn:Heq; simpl in Hi.
  - apply list_elem_of_singleton in Hi as ->. unfold isIPv4. simpl. split_and!; [done|tauto|eauto].
  - by apply elem_of_nil in Hi.
Qed.

Section joined.
Context (acls : list ACL) (g : vGroup) (ingress : list IpPermission) (Hpres : presents ingress g).
Context (toAdd toRem : list IpPermission).
Let desired := concat (aclPermissions <$> acls).
Let cur := rangesOf ingress.
Context (Hsubl : ∀ q, q ∈ toAdd → q ∈ desired) (Hsubr : ∀ q, q ∈ toRem → q ∈ cur).
Context (Hl : ∀ k, k ∈ joinKeyOf <$> toAdd ↔ k ∈ joinKeyOf <$> desired ∧ k ∉ joinKeyOf <$> cur).
Context (Hr : ∀ k, k ∈ joinKeyOf <$> toRem ↔ k ∈ joinKeyOf <$> cur ∧ k ∉ joinKeyOf <$> desired).

Lemma cur_singles : singles cur.
Proof. apply ranges_singles, Hpres. Qed.
Lemma cur_rules r : (∃ q, q ∈ cur ∧ single q r) ↔ r ∈ g_rules g ∧ isIPv4 r.
Proof. rewrite <-singles_rules by apply cur_singles. unfold cur. by rewrite ranges_rules, (pr_rules _ _ Hpres). Qed.
Lemma desired_rules r : (∃ q, q ∈ desired ∧ single q r) ↔ r ∈ aclRules acls.
Proof. destruct (desired_singles acls) as [Hs <-]. by rewrite <-singles_rules. Qed.
Lemma single_key q r (l : list IpPermission) : single q r → q ∈ l → keyOf r ∈ joinKeyOf <$> l.
Proof. intros (_ & <- & _) Hq. by apply list_elem_of_fmap_2. Qed.
Lemma key_single (l : list IpPermission) r : singles l → keyOf r ∈ joinKeyOf <$> l → ∃ q r', q ∈ l ∧ single q r' ∧ keyOf r = keyOf r'.
Proof.
  intros Hs (q & Heq & Hq)%list_elem_of_fmap. eapply Forall_forall in Hs as [r' Hr']; [|done]. exists q, r'.
  split_and!; [done|done|]. destruct Hr' as (_ & <- & _). done.
Qed.

(** A rule has the key of an ACL's rule just when it is that rule. *)
Lemma key_in_cur r : r ∈ aclRules acls → keyOf r ∈ joinKeyOf <$> cur ↔ r ∈ g_rules g.
Proof.
  intros Hacl. destruct (aclRules_like _ _ Hacl) as (Hlike & _ & H4). split.
  - intros (q & r' & Hq & Hs & Heq)%key_single; [|apply cur_singles].
    assert (r' ∈ g_rules g) as Hin by (apply cur_rules; eauto).
    replace r with r'; [done|]. symmetry. apply keyOf_inj; [done|by apply (pr_ok _ _ Hpres)|done..].
  - intros Hin. destruct (proj2 (cur_rules r) (conj Hin H4)) as (q & Hq & Hs). by eapply single_key.
Qed.
Lemma key_in_desired r : r ∈ g_rules g → isIPv4 r → keyOf r ∈ joinKeyOf <$> desired ↔ r ∈ aclRules acls.
Proof.
  intros Hin H4. split.
  - intros (q & r' & Hq & Hs & Heq)%key_single; [|apply desired_singles].
    assert (r' ∈ aclRules acls) as Hacl by (apply desired_rules; eauto). destruct (aclRules_like _ _ Hacl) as (Hlike & _ & H4').
    replace r with r'; [done|]. apply keyOf_inj; [done|by apply (pr_ok _ _ Hpres)|done..].
  - intros Hacl. destruct (proj2 (desired_rules r) Hacl) as (q & Hq & Hs). by eapply single_key.
Qed.

Lemma joined_add : permRules toAdd = aclRules acls ∖ g_rules g.
Proof.
  assert (singles toAdd) as Hs by (eapply singles_sub; [exact Hsubl|apply desired_singles]).
  apply set_eq. intros r. rewrite elem_of_difference, singles_rules by done. split.
  - intros (q & Hq & Hqr). assert (r ∈ aclRules acls) as Hacl by (apply desired_rules; eauto). split; [done|].
    rewrite <-key_in_cur by done. apply (Hl (keyOf r)). by eapply single_key.
  - intros [Hacl Hno]. destruct (aclRules_like _ _ Hacl) as (Hlike & _ & H4).
    destruct (key_single toAdd r Hs) as (q & r' & Hq & Hqr & Heq).
    { apply Hl. rewrite key_in_cur by done. split; [|done].
      destruct (proj2 (desired_rules r) Hacl) as (q & Hq & Hqr). by eapply single_key. }
    exists q. split; [done|]. replace r with r'; [done|]. symmetry. apply keyOf_inj; [done| |done..].
    apply (aclRules_like acls). apply desired_rules. eauto.
Qed.

Lemma joined_remove : permRules toRem = filter isIPv4 (g_rules g) ∖ aclRules acls.
Proof.
  assert (singles toRem) as Hs by (eapply singles_sub; [exact Hsubr|apply cur_singles]).
  apply set_eq. intros r. rewrite elem_of_difference, elem_of_filter, singles_rules by done. split.
  - intros (q & Hq & Hqr). destruct (proj1 (cur_rules r)) as [Hin H4]; [eauto|]. split_and!; [done..|].
    rewrite <-key_in_desired by done. apply (Hr (keyOf r)). by eapply single_key.
  - intros [[H4 Hin] Hno]. destruct (proj2 (cur_rules r)) as (q & Hq & Hqr); [done|]. exists q. split; [|done].
    assert (keyOf r ∈ joinKeyOf <$> toRem) as (q' & Hk & Hq')%list_elem_of_fmap.
    { apply Hr. rewrite key_in_desired by done. split; [|done]. by eapply single_key. }
    replace q with q'; [done|]. eapply (NoDup_fmap_elem joinKeyOf cur); [apply Hpres|auto..].
    destruct Hqr as (_ & -> & _). done.
Qed.
End joined.

Lemma log_range f t pr c : rule_ok (mk_vRule pr f t (IPv4 c)) → logACL (mk_IpPermission f t pr [Some c] [] []) = Ok ().
Proof.
  intros (p & Hp & Hports). simpl in *. subst pr. unfold logACL. simpl. case_bool as [|Htcp]; [done|].
  apply dec_stable in Htcp as ->. destruct Hports as [[? ->] [? ->]]; [set_solver|done].
Qed.

Lemma ranges_log ingress g : presents ingress g → Forall (λ q, logACL q = Ok ()) (rangesOf ingress).
Proof.
  intros Hpres. apply Forall_forall. intros q Hq.
  assert (∀ r, single q r → rule_ok r) as Hok.
  { intros r Hr. apply (pr_ok _ _ Hpres), (cur_rules g ingress Hpres r). eauto. }
  unfold rangesOf in Hq. apply elem_of_concat in Hq as (l & (p & -> & Hp)%list_elem_of_fmap & (rg & -> & Hrg)%list_elem_of_fmap).
  pose proof (pr_given _ _ Hpres) as Hg. rewrite Forall_forall in Hg. specialize (Hg p Hp). rewrite Forall_forall in Hg.
  destruct (Hg rg Hrg) as [c ->]. apply log_range, Hok. done.
Qed.

Lemma syncACLs_plans n acls g ingress :
  presents ingress g →
  ∃ add found remove, ec2_syncACLs n acls (g_id g) ingress = Ok (add, found, remove) ∧ planned acls g add found remove.
Proof.
  intros Hpres. pose proof Hpres as [Hrules Hok Hnd Hgiven Hcomp]. unfold ec2_syncACLs.
  rewrite currentLoop_spec by (eapply Forall_impl; [exact Hcomp|]; by intros gp []). cbn [mbind outcome_bind].
  set (desired := concat (aclPermissions <$> acls)). set (cur := rangesOf ingress) in *.
  set (foreign := filter (λ gp, gp_GroupId gp ≠ Some (g_id g)) (pairsOf ingress)).
  destruct (desired_singles acls) as [Hds Hdr]. pose proof (cur_singles g ingress Hpres) as Hcs.
  assert (forallb (λ perm, bool_decide (is_Some (joinKeyOf perm))) (desired ++ cur) = true) as ->.
  { apply Is_true_true, forallb_True, Forall_app. split; (eapply Forall_impl; [by apply singles_keys|]); intros p; by apply bool_decide_pack. }
  destruct (HashJoin _ _ _ _ _) as [[pairs toAdd] toRem] eqn:Hj. apply HashJoin_ok in Hj.
  destruct (joined_leftovers _ _ _ _ _ _ _ Hj Hnd) as (Hn1 & Hn2 & Hl & Hr).
  assert (∀ p, p ∈ toRem → p ∈ cur) as Hsubr.
  { intros p Hp. rewrite <-(hj_rights _ _ _ _ _ _ _ Hj). set_solver. }
  assert (∀ p, p ∈ toAdd → p ∈ desired) as Hsubl.
  { intros p Hp. eapply elem_of_submseteq; [|apply (hj_lefts _ _ _ _ _ _ _ Hj)]. set_solver. }
  do 3 eexists. split; [reflexivity|]. split.
  - apply singles_nodup; [|done]. by eapply singles_sub.
  - by eapply joined_add.
  - apply bool_decide_ext. unfold admitsGroup, set_Exists, memberRule. rewrite <-Hrules, list_elem_of_fmap. split.
    + intros (gp & Heq & Hgp). eapply elem_of_pairs; [done|]. done.
    + intros (r & Hin & Hsrc). destruct (elem_of_pairs_2 _ _ _ Hin Hsrc) as (gp & Hgp & Hi). eauto.
  - exists (permRules (pairPerms foreign)). rewrite permRules_app, (joined_remove acls g ingress Hpres toRem) by done. split_and!.
    + apply (comm_L (∪)).
    + intros r Hin%pairPerms_rules. tauto.
    + intros [r Hin]%set_choose_L. apply pairPerms_rules in Hin as (_ & _ & gp & i & [Hne Hgp]%list_elem_of_filter & Hi & Hsrc).
      destruct (elem_of_pairs _ _ _ Hgp Hi) as (r' & Hr' & Hsrc'). exists r'. rewrite <-Hrules. split; [done|].
      unfold foreignRule. rewrite Hsrc'. congruence.
  - rewrite !logACLs_ok. split.
    + apply Forall_forall. intros p Hin%Hsubl. unfold desired in Hin.
      apply elem_of_concat in Hin as (l & (a & -> & _)%list_elem_of_fmap & Hin).
      unfold aclPermissions in Hin. rewrite !elem_of_cons, elem_of_nil in Hin. by destruct Hin as [->|[->|[->|[]]]].
    + apply Forall_app. split.
      * apply Forall_fmap, Forall_forall. intros gp [_ Hin]%list_elem_of_filter. rewrite Forall_forall in Hcomp.
        destruct (Hcomp gp Hin) as [_ [nm Hnm]]. unfold compose, logACL. simpl. by rewrite Hnm.
      * pose proof (ranges_log _ _ Hpres) as Hlog. rewrite Forall_forall in Hlog. apply Forall_forall. auto.
Qed.

Lemma wp_getCreateSecurityGroup w Q :
  (∀ w' g ingress, v_groups (ec2 w') !! ec2_namespace prvdr = Some g → presents ingress g →
     match v_groups (ec2 w) !! ec2_namespace prvdr with Some g' => g' = g | None => g_rules g = ∅ end →
     ec2 w' = set_groups (<[ec2_namespace prvdr := g]> (v_groups (ec2 w))) (ec2 w) →
     Q (Val (g_id g, ingress)) w') →
  wp (getCreateSecurityGroup prvdr) w Q.
Proof.
  intros HQ. unfold getCreateSecurityGroup. wp_bind. wp_use DescribeGroup_ok. intros r w1 [Hw1 Hr].
  destruct (v_groups (ec2 w) !! ec2_namespace prvdr) as [g|] eqn:Hg.
  - destruct Hr as (perms & -> & Hp). wp_bind. eapply wp_lift; [reflexivity|]. wp_ret.
    eapply HQ; [by rewrite Hw1|done|done|]. rewrite Hw1, insert_id by done. by destruct (ec2 w).
  - subst r. wp_bind. wp_use CreateGroup_ok; [by rewrite Hw1|]. intros r w2 (id & -> & Hw2). wp_ret.
    apply (HQ w2 (mk_vGroup id ∅) []).
    + rewrite Hw2. apply lookup_insert_eq.
    + split; [done|set_solver|constructor..].
    + done.
    + by rewrite Hw2, Hw1.
Qed.

Lemma wp_callIf (need : bool) log call w Q :
  (need = true → log = Ok () ∧ wp call w Q) → (need = false → Q (Val ()) w) → wp (callIf need log call) w Q.
Proof.
  intros Ht Hf. unfold callIf. destruct need; [|wp_ret; auto]. destruct Ht as [-> Hc]; [done|]. wp_bind.
  by eapply wp_lift.
Qed.

(** What revoking the planned permissions comes to. *)
Lemma planned_revoke acls g add found remove self :
  planned acls g add found remove → (∀ r, r ∈ g_rules g → rule_ok r) → (∀ r, r ∈ self → rule_ok r ∧ ¬ isIPv4 r) →
  let before := aclRules acls ∪ self ∪ g_rules g in
  before ∖ permRules remove = aclRules acls ∪ self ∪ filter (λ r, ¬ isIPv4 r) (g_rules g) ∧
  (¬ permRules remove ⊆ before → set_Exists (foreignRule (g_id g)) (g_rules g)).
Proof.
  intros Hpl Hok Hself before. destruct (pl_remove _ _ _ _ _ Hpl) as (none & -> & Hnone & Hfor). split.
  - assert (∀ r, r ∈ before → r ∉ none) as Hno.
    { intros r Hr Hin. destruct (Hnone r Hin) as [Hp _]. unfold before in Hr. rewrite !elem_of_union in Hr.
      assert (rule_ok r) as (p & Hp' & _); [|congruence].
      destruct Hr as [[Hr|Hr]|Hr]; [by apply (aclRules_like acls)|by apply Hself|by apply Hok]. }
    apply set_eq. intros r. specialize (Hno r). specialize (Hself r). pose proof (aclRules_like acls r) as Hacl. unfold before in *.
    rewrite !elem_of_difference, !elem_of_union, !elem_of_difference, !elem_of_filter in *.
    destruct (decide (isIPv4 r)), (decide (r ∈ aclRules acls)), (decide (r ∈ self)), (decide (r ∈ g_rules g)); tauto.
  - intros Hnot. apply Hfor. intros ->. apply Hnot. set_solver.
Qed.

End acls.
