(* ===== verification/Ec2Machines.v ===== *)
(** * Package amazon: listing, stopping and booting machines *)

From S2P Require Import Prelude GoStrings Join Blueprint DbRows CloudJoin Providers Dns Ec2 Ec2Spec.

(** ** What there is to list *)

(** The objects are complete, an instance and its spot request refer to each
    other, and no ID is used twice. *)
Record view_ok (v : ec2View) : Prop := {
  vo_inst_id : ∀ i x, v_insts v !! i = Some x → InstanceId (i_obj x) = Some i;
  vo_spot_id : ∀ s y, v_spots v !! s = Some y → sr_SpotInstanceRequestId (s_obj y) = Some s ∧ s ≠ "";
  vo_inst_spot : ∀ i x s, v_insts v !! i = Some x → SpotInstanceRequestId (i_obj x) = Some s →
    ∃ y, v_spots v !! s = Some y ∧ sr_InstanceId (s_obj y) = Some i;
  vo_spot_inst : ∀ s y i, v_spots v !! s = Some y → sr_InstanceId (s_obj y) = Some i →
    ∃ x, v_insts v !! i = Some x ∧ SpotInstanceRequestId (i_obj x) = Some s;
  vo_disjoint : ∀ i, is_Some (v_insts v !! i) → v_spots v !! i = None;
  vo_disks : ∀ i x, v_insts v !! i = Some x → Forall is_Some (BlockDeviceMappings (i_obj x));
  vo_launch : ∀ s y, v_spots v !! s = Some y → is_Some (sr_LaunchSpecification (s_obj y));
  vo_sizes : Forall (λ vol, is_Some (Size vol)) (v_vols v);
  vo_addrs : Forall (λ a, is_Some (PublicIp a)) (v_addrs v);
}.

Section machines.
Context `{MapOrder} {W : Type} `{EC2Laws W} (prvdr : ec2Provider).
Implicit Types (w : W) (v : ec2View).

Definition ourInst v (i : string) (x : vInst) : Prop :=
  v_insts v !! i = Some x ∧ i_group x = ec2_namespace prvdr ∧ i_state x = "running".
Definition ourSpot v (s : string) (y : vSpot) : Prop :=
  v_spots v !! s = Some y ∧ s_group y = ec2_namespace prvdr ∧ s_state y ∈ trackedSpotStates.
(** A spot request for which no instance of ours runs. *)
Definition unbooted v (s : string) (y : vSpot) : Prop :=
  ourSpot v s y ∧ ∀ i x, ourInst v i x → SpotInstanceRequestId (i_obj x) ≠ Some s.

Definition floatingOf v (id : string) : string := default "" (ipMapOf (v_addrs v) !! id ≫= PublicIp).
Definition diskOf v (obj : Instance_) : Z :=
  match BlockDeviceMappings obj with
  | Some vid :: _ => default 0%Z (volumeMapOf (v_vols v) !! vid ≫= Size)
  | _ => 0%Z
  end.

(** The rows. *)
Definition instAws v (o : Instance_) : awsMachine :=
  mk_awsMachine (resolveString (InstanceId o)) (resolveString (SpotInstanceRequestId o))
    (mk_Machine 0 "" "" (resolveString (InstanceType o)) (diskOf v o) [] (floatingOf v (resolveString (InstanceId o))) false ""
       (resolveString (PublicIpAddress o)) (resolveString (PrivateIpAddress o)) "" None_ false).
Definition spotAws (o : SpotRequest) : awsMachine :=
  mk_awsMachine "" (resolveString (sr_SpotInstanceRequestId o))
    (mk_Machine 0 "" "" (resolveString (default None (sr_LaunchSpecification o))) 0 [] "" false "" "" "" "" None_ false).

Definition listed v (m : Machine) : Prop :=
  (∃ i x, ourInst v i x ∧ m = finishMachine prvdr (instAws v (i_obj x))) ∨
  (∃ s y, unbooted v s y ∧ m = finishMachine prvdr (spotAws (s_obj y))).

(** ** The calls *)

Lemma foldl_insert_option {A} (key : A → option string) (P : A → Prop) (l : list A) (m : gmap string A) k a :
  (∀ k a, m !! k = Some a → P a) → Forall P l →
  foldl (λ m a, match key a with Some k => <[k := a]> m | None => m end) m l !! k = Some a → P a.
Proof.
  revert m. induction l as [|x l IH]; intros m Hm; simpl; [intros _; apply Hm|].
  intros [Hx Hl]%Forall_cons. apply IH; [|done]. destruct (key x) as [k'|]; [|done].
  intros k1 a1 [[_ <-]|[_ ?]]%lookup_insert_Some; eauto.
Qed.

Lemma ipMapOf_complete v i a : view_ok v → ipMapOf (v_addrs v) !! i = Some a → is_Some (PublicIp a).
Proof.
  intros Hok. apply (foldl_insert_option a_InstanceId (λ a, is_Some (PublicIp a))); [|apply Hok].
  intros k b. by rewrite lookup_empty.
Qed.
Lemma volumeMapOf_complete v i a : view_ok v → volumeMapOf (v_vols v) !! i = Some a → is_Some (Size a).
Proof.
  intros Hok. apply (foldl_insert_option VolumeId (λ a, is_Some (Size a))); [|apply Hok].
  intros k b. by rewrite lookup_empty.
Qed.

Lemma instanceMachine_ok v i x :
  view_ok v → v_insts v !! i = Some x →
  instanceMachine (ipMapOf (v_addrs v)) (volumeMapOf (v_vols v)) (i_obj x) = Ok (instAws v (i_obj x)).
Proof.
  intros Hok Hx. unfold instanceMachine, instAws, parseDiskSize, diskOf, floatingOf.
  rewrite (vo_inst_id _ Hok _ _ Hx). pose proof (vo_disks _ Hok _ _ Hx) as Hd.
  assert (∀ T (k : string → outcome T), (let! ip := match ipMapOf (v_addrs v) !! i with Some a => deref (PublicIp a) | None => Ok "" end in k ip)
    = k (default "" (ipMapOf (v_addrs v) !! i ≫= PublicIp))) as Hip.
  { intros T k. destruct (ipMapOf (v_addrs v) !! i) as [a|] eqn:Ha; [|done]. simpl.
    by destruct (ipMapOf_complete _ _ _ Hok Ha) as [ip ->]. }
  destruct (BlockDeviceMappings (i_obj x)) as [|[vid|] l]; simpl.
  - by rewrite Hip.
  - destruct (volumeMapOf (v_vols v) !! vid) as [vol|] eqn:Hv; simpl; [|by rewrite Hip].
    destruct (volumeMapOf_complete _ _ _ Hok Hv) as [sz Hsz]. rewrite Hsz. simpl. by rewrite Hip.
  - by apply Forall_cons in Hd as [[] _].
Qed.

Lemma instanceMachines_ok v l :
  view_ok v → Forall (λ o, ∃ i x, v_insts v !! i = Some x ∧ o = i_obj x) l →
  instanceMachines (ipMapOf (v_addrs v)) (volumeMapOf (v_vols v)) l = Ok (instAws v <$> l).
Proof.
  intros Hok. induction 1 as [|o l (i & x & Hx & ->) _ IH]; [done|]. simpl.
  rewrite (instanceMachine_ok _ _ _ Hok Hx). simpl. by rewrite IH.
Qed.

Lemma spotMachines_ok v l :
  view_ok v → Forall (λ o, ∃ s y, v_spots v !! s = Some y ∧ o = s_obj y) l → spotMachines l = Ok (spotAws <$> l).
Proof.
  intros Hok. induction 1 as [|o l (s & y & Hy & ->) _ IH]; [done|]. simpl. unfold spotMachine, spotAws.
  destruct (vo_launch _ Hok _ _ Hy) as [t Ht]. rewrite Ht. simpl. by rewrite IH.
Qed.

Definition instsOf v : list vInst :=
  filter (instMatches [mk_Filter "instance.group-name" [ec2_namespace prvdr]; mk_Filter "instance-state-name" ["running"]])
    (vals (v_insts v)).
Definition spotsOf v : list vSpot :=
  filter (spotMatches [mk_Filter "state" trackedSpotStates; mk_Filter "launch.group-name" [ec2_namespace prvdr]])
    (vals (v_spots v)).

Lemma elem_of_instsOf v x : x ∈ instsOf v ↔ ∃ i, ourInst v i x.
Proof.
  unfold instsOf, ourInst, instMatches. rewrite list_elem_of_filter, elem_of_vals, !Forall_cons, Forall_nil. cbn [f_Name f_Values].
  split.
  - intros [([Hg _] & [_ Hs] & _) [i Hi]]. exists i. split_and!; [done|..]; apply list_elem_of_singleton; auto.
  - intros (i & Hi & -> & ->). split; [|eauto]. split_and!; try done; intros; by apply list_elem_of_singleton.
Qed.
Lemma elem_of_spotsOf v y : y ∈ spotsOf v ↔ ∃ s, ourSpot v s y.
Proof.
  unfold spotsOf, ourSpot, spotMatches. rewrite list_elem_of_filter, elem_of_vals, !Forall_cons, Forall_nil. cbn [f_Name f_Values].
  split.
  - intros [([_ Hs] & [Hg _] & _) [i Hi]]. exists i. split_and!; [done| |by apply Hs]. apply list_elem_of_singleton; auto.
  - intros (i & Hi & -> & Hs). split; [|eauto]. split_and!; try done; intros; by apply list_elem_of_singleton.
Qed.

Lemma wp_listSpots w Q :
  view_ok (ec2 w) →
  (∀ w' l, ec2 w' = ec2 w → l ≡ₚ spotsOf (ec2 w) → Q (Val ((λ y, spotAws (s_obj y)) <$> l)) w') →
  wp (listSpots prvdr) w Q.
Proof.
  intros Hok HQ. unfold listSpots. wp_bind. wp_use DescribeSpots_ok. intros r w1 (Hw1 & res & -> & Hres).
  destruct (Permutation_map_inv _ _ Hres) as (l & -> & Hl). wp_bind. eapply wp_lift.
  - eapply spotMachines_ok; [exact Hok|]. apply Forall_fmap, Forall_forall. intros y Hy. fold (spotsOf (ec2 w)) in Hl.
    rewrite <-Hl in Hy. apply elem_of_spotsOf in Hy as (s & Hs & _). eauto.
  - wp_ret. rewrite <-list_fmap_compose. by apply HQ.
Qed.

Lemma wp_listInstances w Q :
  view_ok (ec2 w) →
  (∀ w' l, ec2 w' = ec2 w → l ≡ₚ instsOf (ec2 w) → Q (Val ((λ x, instAws (ec2 w) (i_obj x)) <$> l)) w') →
  wp (listInstances prvdr) w Q.
Proof.
  intros Hok HQ. unfold listInstances. wp_bind. wp_use DescribeInstances_ok. intros r w1 (Hw1 & res & -> & Hres).
  wp_bind. wp_use DescribeAddresses_ok. intros r w2 [Hw2 ->]. wp_bind. wp_use DescribeVolumes_ok. intros r w3 [Hw3 ->].
  rewrite Hw2, Hw1. destruct (Permutation_map_inv _ _ Hres) as (l & Hcl & Hl). wp_bind. eapply wp_lift.
  - eapply instanceMachines_ok; [exact Hok|]. rewrite Hcl. apply Forall_fmap, Forall_forall. intros x Hx.
    fold (instsOf (ec2 w)) in Hl. rewrite <-Hl in Hx. apply elem_of_instsOf in Hx as (i & Hi & _). eauto.
  - wp_ret. rewrite Hcl, <-list_fmap_compose. apply HQ; [congruence|done].
Qed.
(** ** Listing *)

Definition instCid (x : vInst) : string :=
  match SpotInstanceRequestId (i_obj x) with Some s => s | None => resolveString (InstanceId (i_obj x)) end.

Lemma inst_cid v i x :
  view_ok v → v_insts v !! i = Some x → m_CloudID (finishMachine prvdr (instAws v (i_obj x))) = instCid x.
Proof.
  intros Hok Hx. unfold finishMachine, instCid. simpl. destruct (SpotInstanceRequestId (i_obj x)) as [s|] eqn:Hs; [|done]. simpl.
  destruct (vo_inst_spot _ Hok _ _ _ Hx Hs) as (y & Hy & _). destruct (vo_spot_id _ Hok _ _ Hy) as [_ Hne].
  by rewrite bool_decide_eq_true_2.
Qed.

Lemma spot_cid v s y :
  view_ok v → v_spots v !! s = Some y → m_CloudID (finishMachine prvdr (spotAws (s_obj y))) = s.
Proof.
  intros Hok Hy. destruct (vo_spot_id _ Hok _ _ Hy) as [Hs Hne]. unfold finishMachine. simpl. rewrite Hs. simpl.
  by rewrite bool_decide_eq_true_2.
Qed.

Lemma instCid_inj v i j x y :
  view_ok v → v_insts v !! i = Some x → v_insts v !! j = Some y → instCid x = instCid y → i = j.
Proof.
  intros Hok Hx Hy. unfold instCid. rewrite (vo_inst_id _ Hok _ _ Hx), (vo_inst_id _ Hok _ _ Hy). simpl.
  destruct (SpotInstanceRequestId (i_obj x)) as [s|] eqn:Hs, (SpotInstanceRequestId (i_obj y)) as [t|] eqn:Ht; [| | |done].
  - intros <-. destruct (vo_inst_spot _ Hok _ _ _ Hx Hs) as (z & Hz & Hi), (vo_inst_spot _ Hok _ _ _ Hy Ht) as (z' & Hz' & Hj).
    congruence.
  - intros ->. destruct (vo_inst_spot _ Hok _ _ _ Hx Hs) as (z & Hz & _).
    pose proof (vo_disjoint _ Hok j ltac:(eauto)). congruence.
  - intros <-. destruct (vo_inst_spot _ Hok _ _ _ Hy Ht) as (z & Hz & _).
    pose proof (vo_disjoint _ Hok i ltac:(eauto)). congruence.
Qed.

Lemma insts_cids v : view_ok v → NoDup (instCid <$> instsOf v).
Proof.
  intros Hok. apply NoDup_fmap_inj_on.
  - apply NoDup_filter, (NoDup_fmap_1 (λ x, resolveString (InstanceId (i_obj x)))), keyed_NoDup.
    intros i x Hx. by rewrite (vo_inst_id _ Hok _ _ Hx).
  - intros x y (i & Hi & _)%elem_of_instsOf (j & Hj & _)%elem_of_instsOf Heq.
    pose proof (instCid_inj _ _ _ _ _ Hok Hi Hj Heq). congruence.
Qed.

Lemma spots_keys v : view_ok v → NoDup ((λ y, resolveString (sr_SpotInstanceRequestId (s_obj y))) <$> spotsOf v).
Proof.
  intros Hok. eapply sublist_NoDup; [|apply fmap_sublist, sublist_filter]. apply keyed_NoDup.
  intros s y Hy. by rewrite (proj1 (vo_spot_id _ Hok _ _ Hy)).
Qed.

(** The requests the join leaves over. *)
Lemma join_unbooted v ls li pairs ll lr :
  view_ok v → ls ≡ₚ spotsOf v → li ≡ₚ instsOf v →
  hash_joined ((λ y, spotAws (s_obj y)) <$> ls) ((λ x, instAws v (i_obj x)) <$> li) spotID spotID pairs ll lr →
  ∀ a, a ∈ ll ↔ ∃ s y, unbooted v s y ∧ a = spotAws (s_obj y).
Proof.
  intros Hok Hls Hli Hj a. assert (NoDup (spotID <$> ((λ y, spotAws (s_obj y)) <$> ls))) as Hnd.
  { rewrite <-list_fmap_compose, Hls. by apply spots_keys. }
  pose proof (hash_joined_lefts _ _ _ _ _ _ _ Hj Hnd) as Hl. split.
  - intros Ha. assert (a ∈ (λ y, spotAws (s_obj y)) <$> ls) as (y & -> & Hy)%list_elem_of_fmap by (rewrite <-Hl; set_solver).
    rewrite Hls in Hy. apply elem_of_spotsOf in Hy as [s Hs]. exists s, y. split; [split; [done|]|done].
    intros i x Hx Hsx. eapply (hj_lonely_left _ _ _ _ _ _ _ Hj _ (instAws v (i_obj x)) Ha).
    + apply list_elem_of_fmap. exists x. split; [done|]. rewrite Hli. apply elem_of_instsOf. eauto.
    + simpl. by rewrite Hsx, (proj1 (vo_spot_id _ Hok _ _ (proj1 Hs))).
  - intros (s & y & [Hs Hno] & ->). destruct (vo_spot_id _ Hok _ _ (proj1 Hs)) as [Hid Hne].
    assert (spotAws (s_obj y) ∈ pairs.*1 ++ ll) as [([a b] & Heq & Hp)%list_elem_of_fmap|?]%elem_of_app; [|exfalso|done].
    { rewrite Hl. apply list_elem_of_fmap. exists y. split; [done|]. rewrite Hls. apply elem_of_spotsOf. eauto. }
    assert (b ∈ (λ x, instAws v (i_obj x)) <$> li) as (x & -> & Hx)%list_elem_of_fmap.
    { rewrite <-(hj_rights _ _ _ _ _ _ _ Hj). apply elem_of_app. left. apply list_elem_of_fmap. by exists (a, b). }
    rewrite Hli in Hx. apply elem_of_instsOf in Hx as [i Hx]. apply (Hno i x Hx).
    pose proof (hj_pair _ _ _ _ _ _ _ Hj _ _ Hp) as Hk. simpl in Heq. subst a. simpl in Hk. rewrite Hid in Hk. simpl in Hk.
    destruct (SpotInstanceRequestId (i_obj x)); simpl in Hk; congruence.
Qed.

Lemma wp_ec2_List n w Q :
  view_ok (ec2 w) →
  (∀ w' ms, ec2 w' = ec2 w → NoDup (m_CloudID <$> ms) → (∀ m, m ∈ ms ↔ listed (ec2 w) m) → Q (Val ms) w') →
  wp (ec2_List prvdr n) w Q.
Proof.
  intros Hok HQ. unfold ec2_List. wp_bind. apply wp_listSpots; [done|]. intros w1 ls Hw1 Hls.
  wp_bind. apply wp_listInstances; [by rewrite Hw1|]. rewrite Hw1. intros w2 li Hw2 Hli. set (v := ec2 w) in *.
  destruct (HashJoin _ _ _ _ _) as [[pairs ll] lr] eqn:Hj. apply HashJoin_ok in Hj. wp_ret.
  pose proof (join_unbooted _ _ _ _ _ _ Hok Hls Hli Hj) as Hll.
  assert (lr ++ pairs.*2 ++ ll ≡ₚ ((λ x, instAws v (i_obj x)) <$> instsOf v) ++ ll) as Hr.
  { rewrite app_assoc. apply Permutation_app_tail. rewrite <-Hli, <-(hj_rights _ _ _ _ _ _ _ Hj). apply Permutation_app_comm. }
  assert (∀ i x, ourInst v i x → v_insts v !! i = Some x) as Hin by (by intros i x []).
  apply HQ; [done|..].
  - rewrite Hr, !fmap_app. apply NoDup_app. split_and!.
    + rewrite <-!list_fmap_compose. erewrite list_fmap_ext; [by apply insts_cids|].
      intros k x (i & Hx)%list_elem_of_lookup_2%elem_of_instsOf. simpl. by eapply inst_cid, Hin.
    + intros c. rewrite !list_elem_of_fmap. intros (m & -> & (a & -> & (x & -> & Hx)%list_elem_of_fmap)%list_elem_of_fmap)
        (m' & Heq & (a' & -> & (s & y & [Hs Hno] & ->)%Hll)%list_elem_of_fmap).
      apply elem_of_instsOf in Hx as [i Hx]. rewrite (inst_cid v i x), (spot_cid v s y) in Heq by (done || by apply Hin || apply Hs).
      unfold instCid in Heq. specialize (Hno i x Hx). destruct (SpotInstanceRequestId (i_obj x)) as [t|] eqn:Ht; [congruence|].
      rewrite (vo_inst_id _ Hok _ _ (Hin _ _ Hx)) in Heq. simpl in Heq. subst i.
      pose proof (vo_disjoint _ Hok s ltac:(exists x; by apply Hin)). destruct Hs; congruence.
    + rewrite <-list_fmap_compose. apply NoDup_fmap_inj_on.
      * eapply (NoDup_fmap_1 spotID). pose proof (hj_left_nodup _ _ _ _ _ _ _ Hj) as Hn. rewrite fmap_app in Hn.
        by apply NoDup_app in Hn as (_ & _ & ?).
      * intros a b (s & y & [[Hs _] _] & ->)%Hll (t & z & [[Ht _] _] & ->)%Hll. unfold compose.
        rewrite (spot_cid v s y), (spot_cid v t z) by done. congruence.
  - intros m. rewrite Hr, fmap_app, elem_of_app, !list_elem_of_fmap. unfold listed. f_equiv.
    + split; [intros (a & -> & (x & -> & (i & Hi)%elem_of_instsOf)%list_elem_of_fmap); eauto|].
      intros (i & x & Hx & ->). eexists. split; [done|]. apply list_elem_of_fmap. exists x. split; [done|]. apply elem_of_instsOf. eauto.
    + split; [intros (a & -> & (s & y & Hs & ->)%Hll); eauto|]. intros (s & y & Hs & ->). eexists. split; [done|]. apply Hll. eauto.
Qed.
(** ** Stopping *)

Lemma lookup_terminated ids m i :
  terminated ids m !! i =
    (λ x, if decide (i ∈ ids) then mk_vInst (i_obj x) (i_group x) "shutting-down" (i_spec x) else x) <$> m !! i.
Proof. unfold terminated. rewrite map_lookup_imap. by destruct (m !! i). Qed.
Lemma lookup_cancelled ids m i :
  cancelled ids m !! i =
    (λ y, if decide (i ∈ ids) then mk_vSpot (s_obj y) (s_group y) "cancelled" (s_spec y) else y) <$> m !! i.
Proof. unfold cancelled. rewrite map_lookup_imap. by destruct (m !! i). Qed.

Lemma terminated_nil m : terminated [] m = m.
Proof.
  apply map_eq. intros i. rewrite lookup_terminated. destruct (m !! i); [|done].
  cbn [fmap option_fmap option_map]. by rewrite decide_False by set_solver.
Qed.
Lemma cancelled_nil m : cancelled [] m = m.
Proof.
  apply map_eq. intros i. rewrite lookup_cancelled. destruct (m !! i); [|done].
  cbn [fmap option_fmap option_map]. by rewrite decide_False by set_solver.
Qed.
Lemma terminated_app a b m : terminated a (terminated b m) = terminated (b ++ a) m.
Proof.
  apply map_eq. intros i. rewrite !lookup_terminated. destruct (m !! i) as [x|]; [|done]. simpl. f_equal.
  destruct (decide (i ∈ a)), (decide (i ∈ b)); simpl;
    repeat first [rewrite decide_True by set_solver | rewrite decide_False by set_solver]; done.
Qed.

(** The view after stopping: [insts] are shutting down, [spots] are cancelled. *)
Definition without (insts spots : list string) v : ec2View :=
  set_spots (cancelled spots (v_spots v)) (set_insts (terminated insts (v_insts v)) v).

(** The instances of spot requests. *)
Definition spotInst v (spots : list string) (i : string) : Prop :=
  ∃ s y, s ∈ spots ∧ v_spots v !! s = Some y ∧ sr_InstanceId (s_obj y) = Some i.

Lemma wp_stopSpots ids w Q :
  view_ok (ec2 w) → (∀ s, s ∈ ids → is_Some (v_spots (ec2 w) !! s)) →
  (∀ w' insts, (∀ i, i ∈ insts ↔ spotInst (ec2 w) ids i) → ec2 w' = without insts ids (ec2 w) → Q (Val ()) w') →
  wp (stopSpots ids) w Q.
Proof.
  intros Hok Hids HQ. unfold stopSpots. wp_bind. wp_use DescribeSpotIDs_ok; [done|]. intros r w1 (Hw1 & res & -> & Hres).
  set (insts := omap sr_InstanceId res).
  assert (∀ i, i ∈ insts ↔ spotInst (ec2 w) ids i) as Hi.
  { intros i. unfold insts, spotInst. rewrite list_elem_of_omap. setoid_rewrite Hres. naive_solver. }
  wp_bind. apply (wp_mono _ _ (λ r w2, r = Val () ∧ ec2 w2 = set_insts (terminated insts (v_insts (ec2 w))) (ec2 w))).
  { case_bool as [Hne|Hnil].
    - rewrite <-Hw1. apply TerminateInstances_ok. rewrite Hw1. intros i (s & y & _ & Hy & Hyi)%Hi.
      destruct (vo_spot_inst _ Hok _ _ _ Hy Hyi) as (x & -> & _). eauto.
    - wp_ret. apply dec_stable in Hnil as ->. rewrite terminated_nil. split; [done|]. rewrite Hw1. by destruct (ec2 w). }
  intros r w2 [-> Hw2]. wp_bind. wp_use CancelSpots_ok; [by rewrite Hw2|]. intros r w3 [-> Hw3]. wp_ret.
  apply (HQ w3 insts); [done|]. by rewrite Hw3, Hw2.
Qed.

(** The ID of a listed machine is that of a spot request or of an instance
    without one. *)
Lemma listed_preemptible v m :
  view_ok v → listed v m → m_Preemptible m = true → is_Some (v_spots v !! m_CloudID m).
Proof.
  intros Hok [(i & x & [Hx _] & ->)|(s & y & [[Hy _] _] & ->)] Hp.
  - rewrite (inst_cid _ i x) by done. unfold instCid. simpl in Hp. apply bool_decide_eq_true in Hp.
    destruct (SpotInstanceRequestId (i_obj x)) as [s|] eqn:Hs; [|done].
    destruct (vo_inst_spot _ Hok _ _ _ Hx Hs) as (y & -> & _). eauto.
  - rewrite (spot_cid v s y) by done. eauto.
Qed.
Lemma listed_reserved v m :
  view_ok v → listed v m → m_Preemptible m = false →
  ∃ x, v_insts v !! m_CloudID m = Some x ∧ SpotInstanceRequestId (i_obj x) = None.
Proof.
  intros Hok [(i & x & [Hx _] & ->)|(s & y & [[Hy _] _] & ->)] Hp.
  - rewrite (inst_cid _ i x) by done. unfold instCid. simpl in Hp. apply bool_decide_eq_false in Hp.
    destruct (SpotInstanceRequestId (i_obj x)) as [s|] eqn:Hs; simpl in Hp.
    + destruct (vo_inst_spot _ Hok _ _ _ Hx Hs) as (y & Hy & _). destruct Hp. by apply (vo_spot_id _ Hok _ _ Hy).
    + rewrite (vo_inst_id _ Hok _ _ Hx). eauto.
  - simpl in Hp. apply bool_decide_eq_false in Hp. destruct Hp. by destruct (vo_spot_id _ Hok _ _ Hy) as [-> Hne].
Qed.

Lemma wp_ec2_Stop victims w Q :
  view_ok (ec2 w) → (∀ m, m ∈ victims → listed (ec2 w) m) →
  (∀ w' insts spots, spots = m_CloudID <$> filter (λ m, m_Preemptible m = true) victims →
     (∀ i, i ∈ insts ↔ spotInst (ec2 w) spots i ∨ i ∈ m_CloudID <$> filter (λ m, m_Preemptible m = false) victims) →
     ec2 w' = without insts spots (ec2 w) → Q (Val ()) w') →
  wp (ec2_Stop victims) w Q.
Proof.
  intros Hok Hv HQ. unfold ec2_Stop. set (spots := m_CloudID <$> filter (λ m, m_Preemptible m = true) victims).
  set (ids := m_CloudID <$> filter (λ m, m_Preemptible m = false) victims). wp_bind.
  assert (∀ s, s ∈ spots → is_Some (v_spots (ec2 w) !! s)) as Hspots.
  { intros c (m & -> & [Hp Hm%Hv]%list_elem_of_filter)%list_elem_of_fmap. by apply listed_preemptible. }
  assert (∀ i, i ∈ ids → is_Some (v_insts (ec2 w) !! i)) as Hids.
  { intros c (m & -> & [Hp Hm%Hv]%list_elem_of_filter)%list_elem_of_fmap.
    destruct (listed_reserved _ _ Hok Hm Hp) as (x & -> & _). eauto. }
  apply (wp_mono _ _ (λ r w1, r = Val () ∧ ∃ insts, (∀ i, i ∈ insts ↔ spotInst (ec2 w) spots i) ∧
    ec2 w1 = without insts spots (ec2 w))).
  { case_bool as [Hne|Hnil].
    - eapply wp_stopSpots; [done|done|]. eauto.
    - wp_ret. apply dec_stable in Hnil. split; [done|]. exists []. rewrite Hnil. split.
      + intros i. split; [by intros ?%elem_of_nil|]. by intros (s & y & ?%elem_of_nil & _).
      + unfold without. rewrite cancelled_nil, terminated_nil. by destruct (ec2 w). }
  intros r w1 [-> (insts & Hi & Hw1)]. wp_bind.
  apply (wp_mono _ _ (λ r w2, r = Val () ∧ ec2 w2 = without (insts ++ ids) spots (ec2 w))).
  { case_bool as [Hne|Hnil].
    - eapply wp_mono; [apply TerminateInstances_ok|].
      + intros i [x Hx]%Hids. rewrite Hw1. simpl. rewrite lookup_terminated, Hx. eauto.
      + intros r w2 [-> Hw2]. split; [done|]. rewrite Hw2, Hw1. unfold without. simpl. by rewrite terminated_app.
    - wp_ret. apply dec_stable in Hnil as ->. by rewrite app_nil_r. }
  intros r w2 [-> Hw2]. wp_ret. eapply HQ; [reflexivity| |exact Hw2]. intros i. by rewrite elem_of_app, Hi.
Qed.
(** What is listed afterwards. *)
Section afterwards.
Context (v : ec2View) (victims : list Machine) (insts spots : list string).
Hypothesis Hok : view_ok v.
Hypothesis Hv : ∀ m, m ∈ victims → listed v m.
Hypothesis Hspots : spots = m_CloudID <$> filter (λ m, m_Preemptible m = true) victims.
Hypothesis Hinsts : ∀ i, i ∈ insts ↔ spotInst v spots i ∨ i ∈ m_CloudID <$> filter (λ m, m_Preemptible m = false) victims.

Lemma spot_victim s : is_Some (v_spots v !! s) → s ∈ spots ↔ s ∈ m_CloudID <$> victims.
Proof.
  intros [y Hy]. rewrite Hspots, !list_elem_of_fmap. setoid_rewrite list_elem_of_filter. split; [naive_solver|].
  intros (m & -> & Hm). exists m. split_and!; [done| |done]. destruct (m_Preemptible m) eqn:Hp; [done|].
  destruct (listed_reserved _ _ Hok (Hv _ Hm) Hp) as (x & Hx & _).
  rewrite (vo_disjoint _ Hok _ ltac:(eauto)) in Hy. done.
Qed.

Lemma inst_victim i x : v_insts v !! i = Some x → i ∈ insts ↔ instCid x ∈ m_CloudID <$> victims.
Proof.
  intros Hx. rewrite Hinsts. unfold instCid. destruct (SpotInstanceRequestId (i_obj x)) as [s|] eqn:Hs.
  - destruct (vo_inst_spot _ Hok _ _ _ Hx Hs) as (y & Hy & Hyi). rewrite <-spot_victim by eauto. split.
    + intros [(s' & y' & Hin & Hy' & Hi)|(m & -> & [Hp Hm]%list_elem_of_filter)%list_elem_of_fmap].
      * destruct (vo_spot_inst _ Hok _ _ _ Hy' Hi) as (x' & Hx' & Hs'). simplify_eq. congruence.
      * destruct (listed_reserved _ _ Hok (Hv _ Hm) Hp) as (x' & Hx' & Hno). congruence.
    + intros Hin. left. by exists s, y.
  - rewrite (vo_inst_id _ Hok _ _ Hx). simpl. split.
    + intros [(s' & y' & Hin & Hy' & Hi)|(m & -> & [Hp Hm]%list_elem_of_filter)%list_elem_of_fmap].
      * destruct (vo_spot_inst _ Hok _ _ _ Hy' Hi) as (x' & Hx' & Hs'). congruence.
      * by apply list_elem_of_fmap_2.
    + intros (m & -> & Hm)%list_elem_of_fmap. right. apply list_elem_of_fmap. exists m. split; [done|].
      apply list_elem_of_filter. split; [|done]. destruct (m_Preemptible m) eqn:Hp; [|done].
      destruct (listed_preemptible _ _ Hok (Hv _ Hm) Hp) as [y Hy]. rewrite (vo_disjoint _ Hok _ ltac:(eauto)) in Hy. done.
Qed.

Lemma ourInst_without i x :
  ourInst (without insts spots v) i x ↔ ourInst v i x ∧ instCid x ∉ m_CloudID <$> victims.
Proof.
  unfold ourInst. simpl. rewrite lookup_terminated. destruct (v_insts v !! i) as [z|] eqn:Hz; simpl; [|naive_solver].
  pose proof (inst_victim i z Hz) as Hiv. case_decide as Hd.
  - split; [by intros ([= <-] & _ & ?)|]. intros ([[= ->] _] & Hno). tauto.
  - split; [intros ([= ->] & ? & ?); tauto|]. intros ([[= ->] ?] & _). tauto.
Qed.

Lemma ourSpot_without s y :
  ourSpot (without insts spots v) s y ↔ ourSpot v s y ∧ s ∉ m_CloudID <$> victims.
Proof.
  unfold ourSpot. simpl. rewrite lookup_cancelled. destruct (v_spots v !! s) as [z|] eqn:Hz; simpl; [|naive_solver].
  pose proof (spot_victim s ltac:(eauto)) as Hsv. case_decide as Hd.
  - split; [|intros ([[= ->] _] & Hno); tauto]. intros ([= <-] & _ & Ht). simpl in Ht.
    unfold trackedSpotStates in Ht. rewrite !elem_of_cons, elem_of_nil in Ht. by destruct Ht as [|[|]].
  - split; [intros ([= ->] & ? & ?); tauto|]. intros ([[= ->] ?] & _). tauto.
Qed.

Lemma unbooted_without s y :
  unbooted (without insts spots v) s y ↔ unbooted v s y ∧ s ∉ m_CloudID <$> victims.
Proof.
  unfold unbooted. setoid_rewrite ourSpot_without. setoid_rewrite ourInst_without. split.
  - intros [[Hs Hno] Hi]. split_and!; [done| |done]. intros i x Hx Hsx. apply (Hi i x); [|done]. split; [done|].
    unfold instCid. by rewrite Hsx.
  - intros [[Hs Hi] Hno]. split; [done|]. intros i x [Hx _]. by apply (Hi i).
Qed.

Lemma listed_without m :
  listed (without insts spots v) m ↔ listed v m ∧ m_CloudID m ∉ m_CloudID <$> victims.
Proof.
  unfold listed. setoid_rewrite unbooted_without. setoid_rewrite ourInst_without. split.
  - intros [(i & x & [Hx Hno] & ->)|(s & y & [Hs Hno] & ->)].
    + split; [left; by exists i, x|]. change (instAws (without insts spots v)) with (instAws v).
      rewrite (inst_cid v i x); [done|done|apply Hx].
    + split; [right; by exists s, y|]. rewrite (spot_cid v s y); [done|done|apply Hs].
  - intros [[(i & x & Hx & ->)|(s & y & Hs & ->)] Hno].
    + left. exists i, x. rewrite (inst_cid v i x) in Hno by (done || apply Hx). done.
    + right. exists s, y. rewrite (spot_cid v s y) in Hno by (done || apply Hs). done.
Qed.
End afterwards.

Lemma without_insts insts spots v i x :
  v_insts (without insts spots v) !! i = Some x → ∃ z, v_insts v !! i = Some z ∧ i_obj x = i_obj z.
Proof. simpl. rewrite lookup_terminated. destruct (v_insts v !! i) as [z|]; [|done]. intros [= <-]. exists z. by case_decide. Qed.
Lemma without_spots insts spots v s y :
  v_spots (without insts spots v) !! s = Some y → ∃ z, v_spots v !! s = Some z ∧ s_obj y = s_obj z.
Proof. simpl. rewrite lookup_cancelled. destruct (v_spots v !! s) as [z|]; [|done]. intros [= <-]. exists z. by case_decide. Qed.

Lemma without_ok insts spots v : view_ok v → view_ok (without insts spots v).
Proof.
  intros Hok. split; [| | | | | | |apply Hok|apply Hok].
  - intros i x (z & Hz & ->)%without_insts. by apply (vo_inst_id _ Hok).
  - intros s y (z & Hz & ->)%without_spots. by apply (vo_spot_id _ Hok).
  - intros i x s (z & Hz & ->)%without_insts Hs. destruct (vo_inst_spot _ Hok _ _ _ Hz Hs) as (y & Hy & Hi).
    simpl. rewrite lookup_cancelled, Hy. eexists. split; [done|]. by case_decide.
  - intros s y i (z & Hz & ->)%without_spots Hi. destruct (vo_spot_inst _ Hok _ _ _ Hz Hi) as (x & Hx & Hs).
    simpl. rewrite lookup_terminated, Hx. eexists. split; [done|]. by case_decide.
  - intros i [x (z & Hz & _)%without_insts]. simpl. rewrite lookup_cancelled. by rewrite (vo_disjoint _ Hok i ltac:(eauto)).
  - intros i x (z & Hz & ->)%without_insts. by apply (vo_disks _ Hok _ _ Hz).
  - intros s y (z & Hz & ->)%without_spots. by apply (vo_launch _ Hok _ _ Hz).
Qed.

(** [List] reports each running instance of the namespace and each spot request
    that is open or active and has no running instance, once, as a machine of
    this provider and region; stopping any of the listed machines succeeds, and
    listing again then gives exactly the others. *)
Theorem ec2_Stop_removes n n' w :
  view_ok (ec2 w) →
  wp (ec2_List prvdr n) w (λ r w1, ∃ ms, r = Val ms ∧ (∀ m, m ∈ ms ↔ listed (ec2 w) m) ∧
    Forall (λ m, m_Provider m = Amazon ∧ m_Region m = ec2_region prvdr) ms ∧
    ∀ victims, (∀ m, m ∈ victims → m ∈ ms) →
      wp (ec2_Stop victims) w1 (λ r w2, r = Val () ∧
        wp (ec2_List prvdr n') w2 (λ r w3, ∃ ms', r = Val ms' ∧
          ms' ≡ₚ filter (λ m, m_CloudID m ∉ m_CloudID <$> victims) ms))).
Proof.
  intros Hok. eapply wp_ec2_List; [done|]. intros w1 ms Hw1 Hnd Hms. exists ms. split_and!; [done|done| |].
  { apply Forall_forall. by intros m [(? & ? & _ & ->)|(? & ? & _ & ->)]%Hms. }
  intros victims Hv. assert (∀ m, m ∈ victims → listed (ec2 w) m) as Hl by (intros m Hm; by apply Hms, Hv).
  eapply wp_ec2_Stop; [by rewrite Hw1|by rewrite Hw1|]. rewrite Hw1. intros w2 insts spots Hsp Hi Hw2. split; [done|].
  eapply wp_ec2_List; [rewrite Hw2; by apply without_ok|]. intros w3 ms' _ Hnd' Hms'. exists ms'. split; [done|].
  apply NoDup_Permutation; [by eapply NoDup_fmap_1|by eapply NoDup_filter, NoDup_fmap_1|].
  intros m. rewrite list_elem_of_filter, Hms, Hms', Hw2. rewrite (listed_without (ec2 w) victims insts spots) by done. tauto.
Qed.

(** ** Booting *)

Section boot.
Context (script : Machine → string → string).

Lemma derefAll_ok l ids : l = Some <$> ids → derefAll l = Ok ids.
Proof. intros ->. induction ids as [|i ids IH]; [done|]. csimpl. simpl. by rewrite IH. Qed.

(** New objects with their IDs, none of which was in use. *)
Definition newIn {V} (m : gmap string V) (news : list (string * V)) : Prop :=
  NoDup news.*1 ∧ Forall (λ p, m !! p.1 = None) news.

Lemma newIn_app {V} (m : gmap string V) a b :
  newIn m a → newIn (list_to_map a ∪ m) b →
  newIn m (a ++ b) ∧ list_to_map b ∪ (list_to_map a ∪ m) = list_to_map (a ++ b) ∪ m.
Proof.
  intros [Hna Hfa] [Hnb Hfb]. assert (∀ i, i ∈ b.*1 → (list_to_map a : gmap string V) !! i = None ∧ m !! i = None) as Hb.
  { intros i (p & -> & Hp)%list_elem_of_fmap. rewrite Forall_forall in Hfb. by apply lookup_union_None, Hfb. }
  split; [split|].
  - rewrite fmap_app. apply NoDup_app. split_and!; [done| |done]. intros i Hi [Hn _]%Hb.
    by apply not_elem_of_list_to_map_2 in Hn.
  - apply Forall_app. split; [done|]. apply Forall_forall. intros p Hp. by apply Hb, list_elem_of_fmap_2.
  - rewrite list_to_map_app, map_union_assoc. f_equal. apply map_union_comm, map_disjoint_spec.
    intros i x y Hx Hy. apply elem_of_list_to_map_2 in Hx. destruct (Hb i) as [Hn _]; [|congruence].
    apply list_elem_of_fmap. by exists (i, x).
Qed.

(** The view after [insts] and [spots] were requested. *)
Definition booted v (insts : list (string * vInst)) (spots : list (string * vSpot)) v' : Prop :=
  newIn (v_insts v) insts ∧ newIn (v_spots v) spots ∧
  v' = set_spots (list_to_map spots ∪ v_spots v) (set_insts (list_to_map insts ∪ v_insts v) v).

Lemma booted_nil v : booted v [] [] v.
Proof. split_and!; [by split; constructor..|]. simpl. rewrite !(left_id_L ∅ (∪)). by destruct v. Qed.

Lemma booted_trans v1 v2 v3 ia sa ib sb :
  booted v1 ia sa v2 → booted v2 ib sb v3 → booted v1 (ia ++ ib) (sa ++ sb) v3.
Proof.
  intros (Hia & Hsa & ->) (Hib & Hsb & ->). simpl in *.
  destruct (newIn_app _ _ _ Hia Hib) as [? Hi], (newIn_app _ _ _ Hsa Hsb) as [? Hs].
  split_and!; [done..|]. unfold set_spots, set_insts. simpl. by rewrite Hi, Hs.
Qed.

Lemma Forall_fmap_const {A B} (f : A → B) b l : Forall (λ a, f a = b) l → f <$> l = replicate (length l) b.
Proof. induction 1 as [|a l Ha _ IH]; [done|]. csimpl. by rewrite Ha, IH. Qed.

(** One request: [count] objects of one kind. *)
Lemma wp_bootOne br count w Q :
  (0 < count)%Z →
  (∀ w' insts spots, booted (ec2 w) insts spots (ec2 w') →
     i_spec <$> insts.*2 = (if br_preemptible br then [] else replicate (Z.to_nat count) (launchSpec prvdr br)) →
     s_spec <$> spots.*2 = (if br_preemptible br then replicate (Z.to_nat count) (launchSpec prvdr br) else []) →
     Q (Val (insts.*1 ++ spots.*1)) w') →
  wp (if br_preemptible br then bootSpot prvdr br count else bootReserved prvdr br count) w Q.
Proof.
  intros Hc HQ. destruct (br_preemptible br).
  - unfold bootSpot. wp_bind. wp_use RequestSpots_ok; [done|]. intros r w1 (news & -> & Hlen & Hnd & Hall & Hw1).
    wp_bind. eapply wp_lift; [apply (derefAll_ok _ news.*1)|wp_ret; apply (HQ w1 [] news)].
    + rewrite <-!list_fmap_compose. apply Forall_fmap_ext_1. eapply Forall_impl; [exact Hall|]. by intros p (_ & ? & _).
    + split_and!; [by split; constructor|split; [done|]|].
      * eapply Forall_impl; [exact Hall|]. by intros p (? & _).
      * rewrite Hw1. simpl. rewrite (left_id_L ∅ (∪)). by destruct (ec2 w).
    + done.
    + rewrite <-Hlen, Nat2Z.id, <-(length_fmap snd). apply Forall_fmap_const, Forall_fmap. eapply Forall_impl; [exact Hall|].
      by intros p (_ & _ & ?).
  - unfold bootReserved. wp_bind. wp_use RunInstances_ok; [done|]. intros r w1 (news & -> & Hlen & Hnd & Hall & Hw1).
    wp_bind. eapply wp_lift; [apply (derefAll_ok _ news.*1)|wp_ret; rewrite <-(app_nil_r news.*1); apply (HQ w1 news [])].
    + rewrite <-!list_fmap_compose. apply Forall_fmap_ext_1. eapply Forall_impl; [exact Hall|]. by intros p (_ & ? & _).
    + split_and!; [split; [done|]|by split; constructor|].
      * eapply Forall_impl; [exact Hall|]. by intros p (? & _).
      * rewrite Hw1. simpl. rewrite (left_id_L ∅ (∪)). by destruct (ec2 w).
    + rewrite <-Hlen, Nat2Z.id, <-(length_fmap snd). apply Forall_fmap_const, Forall_fmap. eapply Forall_impl; [exact Hall|].
      by intros p (_ & _ & ?).
    + done.
Qed.

Definition reserved (reqs : list bootReq) : list bootReq := filter (λ br, br_preemptible br = false) reqs.
Definition preemptible (reqs : list bootReq) : list bootReq := filter (λ br, br_preemptible br = true) reqs.

Lemma filter_replicate {A} (P : A → Prop) `{∀ x, Decision (P x)} n x :
  filter P (replicate n x) = if decide (P x) then replicate n x else [].
Proof.
  case_decide as Hx; induction n as [|n IH]; simpl; [done| |done|].
  - rewrite filter_cons_True by done. by f_equal.
  - by rewrite filter_cons_False.
Qed.

Lemma wp_bootLoop reqs ids w Q :
  Forall (λ p, 0 < p.2)%Z reqs →
  (∀ w' insts spots, booted (ec2 w) insts spots (ec2 w') →
     i_spec <$> insts.*2 = launchSpec prvdr <$> reserved (expand reqs) →
     s_spec <$> spots.*2 = launchSpec prvdr <$> preemptible (expand reqs) →
     ∀ ids', ids' ≡ₚ ids ++ insts.*1 ++ spots.*1 → Q (ids', Val ()) w') →
  wp (bootLoop prvdr reqs ids) w Q.
Proof.
  revert ids w Q. induction reqs as [|[br count] reqs IH]; intros ids w Q Hpos HQ; simpl.
  { wp_ret. apply (HQ w [] []); [apply booted_nil|done|done|by rewrite app_nil_r]. }
  apply Forall_cons in Hpos as [Hc Hpos]. simpl in Hc. wp_bind. apply wp_bootOne; [done|].
  intros w1 ia sa Hb1 Hia Hsa. apply IH; [done|]. intros w2 ib sb Hb2 Hib Hsb ids' Hids.
  assert (∀ P `{∀ x, Decision (P x)}, filter P (expand ((br, count) :: reqs)) =
    (if decide (P br) then replicate (Z.to_nat count) br else []) ++ filter P (expand reqs)) as Hex.
  { intros P ?. unfold expand. csimpl. rewrite filter_app. f_equal. apply filter_replicate. }
  apply (HQ w2 (ia ++ ib) (sa ++ sb)); [by eapply booted_trans|..].
  - unfold reserved. rewrite Hex, !fmap_app, Hia, Hib. f_equal. destruct (br_preemptible br); simpl; [done|].
    by rewrite fmap_replicate.
  - unfold preemptible. rewrite Hex, !fmap_app, Hsa, Hsb. f_equal. destruct (br_preemptible br); simpl; [|done].
    by rewrite fmap_replicate.
  - rewrite Hids, !fmap_app. rewrite <-!app_assoc. do 2 apply Permutation_app_head.
    rewrite !app_assoc. apply Permutation_app_tail, Permutation_app_comm.
Qed.

Definition specOf (groupID : string) (m : Machine) : LaunchSpec := launchSpec prvdr (bootReqOf script groupID m).

Lemma reserved_specs gid ms reqs :
  reqs ≡ₚ bootReqOf script gid <$> ms →
  launchSpec prvdr <$> reserved reqs ≡ₚ specOf gid <$> filter (λ m, m_Preemptible m = false) ms ∧
  launchSpec prvdr <$> preemptible reqs ≡ₚ specOf gid <$> filter (λ m, m_Preemptible m = true) ms.
Proof.
  intros Hp. unfold reserved, preemptible, specOf.
  by rewrite Hp, !filter_fmap, <-!list_fmap_compose.
Qed.

(** [Boot] requests exactly one instance (or spot instance, if the machine is
    preemptible) for every machine, with its size, disk and boot script and in
    the security group of the namespace, and returns the new IDs: equal machines
    are booted by one call, but none is lost or booted twice. *)
Theorem ec2_Boot_exact n bootSet w :
  wp (ec2_Boot prvdr script n bootSet) w (λ r w', r.2 = Val () ∧
    ∃ gid groups insts spots,
      (bootSet ≠ [] → g_id <$> groups !! ec2_namespace prvdr = Some gid) ∧
      booted (set_groups groups (ec2 w)) insts spots (ec2 w') ∧
      r.1 ≡ₚ insts.*1 ++ spots.*1 ∧
      i_spec <$> insts.*2 ≡ₚ specOf gid <$> filter (λ m, m_Preemptible m = false) bootSet ∧
      s_spec <$> spots.*2 ≡ₚ specOf gid <$> filter (λ m, m_Preemptible m = true) bootSet).
Proof.
  unfold ec2_Boot. destruct bootSet as [|m bootSet].
  { wp_ret. split; [done|]. exists "", (v_groups (ec2 w)), [], []. split_and!; [done| |done|done|done].
    replace (set_groups _ _) with (ec2 w) by (by destruct (ec2 w)). apply booted_nil. }
  wp_bind. eapply wp_getCreateSecurityGroup. intros w1 g ingress Hg _ _ Hw1.
  set (reqs := bootReqOf script (g_id g) <$> m :: bootSet). apply wp_bootLoop.
  { apply Forall_forall. intros [k c] Hk. rewrite range_perm in Hk. apply elem_of_map_to_list in Hk. by eapply countAll_positive. }
  intros w2 insts spots Hb Hi Hs ids Hids. split; [done|]. exists (g_id g), (v_groups (ec2 w1)), insts, spots.
  assert (expand (range n (countAll reqs)) ≡ₚ reqs) as Hex by (by rewrite range_perm, countAll_expand).
  destruct (reserved_specs (g_id g) (m :: bootSet) _ Hex) as [Hr Hp].
  split_and!; [by rewrite Hg| |done|by rewrite Hi|by rewrite Hs].
  replace (set_groups (v_groups (ec2 w1)) (ec2 w)) with (ec2 w1) by (by rewrite Hw1). done.
Qed.
End boot.
End machines.
