(* ===== verification/Ec2Sim.v ===== *)
(** * Package amazon: a simulated EC2

    A client over a plain view that satisfies the laws, and the theorems on
    concrete views. *)

From S2P Require Import Prelude GoStrings Join Blueprint DbRows CloudJoin Providers Dns Ec2 Ec2Spec Ec2Machines.

(** One permission per rule. *)
Definition simPerm (r : vRule) : IpPermission :=
  match r_source r with
  | IPv4 c => mk_IpPermission (r_from r) (r_to r) (r_protocol r) [Some c] [] []
  | IPv6 c => mk_IpPermission (r_from r) (r_to r) (r_protocol r) [] [Some c] []
  | FromGroup i => mk_IpPermission (r_from r) (r_to r) (r_protocol r) [] [] [mk_GroupPair (Some i) (Some i)]
  end.
(** The simulated service has TCP, UDP and ICMP rules with ports only. *)
Definition cleanGroup (g : vGroup) : vGroup := mk_vGroup (g_id g) (filter portsGiven (g_rules g)).
Definition simView (v : ec2View) : ec2View := set_groups (cleanGroup <$> v_groups v) v.
Definition simPerms (g : vGroup) : list IpPermission := simPerm <$> elements (g_rules (cleanGroup g)).

Definition simGroup (name : string) (f : vGroup → vGroup) : ec2View → ec2View :=
  λ v, set_groups (alter f name (v_groups v)) v.

Definition freshIDs {V} (n : Z) (m : gmap string V) : list string := fresh_list (Z.to_nat n) (dom m).

Definition simInst (spec : LaunchSpec) (i : string) : vInst :=
  mk_vInst (mk_Instance (Some i) None None None (Some (ls_InstanceType spec)) []) "" "pending" spec.
Definition simSpot (spec : LaunchSpec) (s : string) : vSpot :=
  mk_vSpot (mk_SpotRequest (Some s) None (Some (Some (ls_InstanceType spec)))) "" "open" spec.

#[export] Instance simEC2 : EC2Client ec2View := {
  DescribeInstances fs := λ v, Ok (Val [i_obj <$> filter (instMatches fs) (vals (v_insts v))], v);
  RunInstances spec n := λ v,
    let news := (λ i, (i, simInst spec i)) <$> freshIDs n (v_insts v) in
    Ok (Val (i_obj <$> news.*2), set_insts (list_to_map news ∪ v_insts v) v);
  TerminateInstances ids := λ v, Ok (Val (), set_insts (terminated ids (v_insts v)) v);
  DescribeSpotInstanceRequests ids fs := λ v,
    Ok (Val (match ids with
             | None => s_obj <$> filter (spotMatches fs) (vals (v_spots v))
             | Some ids => s_obj <$> omap (λ i, v_spots v !! i) ids
             end), v);
  RequestSpotInstances _ n spec := λ v,
    let news := (λ s, (s, simSpot spec s)) <$> freshIDs n (v_spots v) in
    Ok (Val (s_obj <$> news.*2), set_spots (list_to_map news ∪ v_spots v) v);
  CancelSpotInstanceRequests ids := λ v, Ok (Val (), set_spots (cancelled ids (v_spots v)) v);
  DescribeSecurityGroup name := λ v,
    Ok (Val (match v_groups v !! name with
             | None => []
             | Some g => [mk_SecurityGroup (Some (g_id g)) (Some name) (simPerms g)]
             end), v);
  CreateSecurityGroup name _ := λ v, Ok (Val ("sg-" +:+ name), set_groups (<[name := mk_vGroup ("sg-" +:+ name) ∅]> (v_groups v)) v);
  DeleteSecurityGroup id := λ v, Ok (Val (), set_groups (filter (λ kv, g_id kv.2 ≠ id) (v_groups v)) v);
  AuthorizeSecurityGroup name src perms := λ v,
    Ok (Val (), simGroup name (λ g, mk_vGroup (g_id g)
      ((if bool_decide (src ≠ "" ∧ src = name) then fullAccess (g_id g) else permRules perms) ∪ g_rules g)) v);
  RevokeSecurityGroup name perms := λ v,
    match v_groups v !! name with
    | Some g =>
      if decide (permRules perms ⊆ g_rules (cleanGroup g))
      then Ok (Val (), simGroup name (λ g, mk_vGroup (g_id g) (g_rules g ∖ permRules perms)) v)
      else Ok (Err "InvalidPermission.NotFound", v)
    | None => Ok (Err "InvalidGroup.NotFound", v)
    end;
  DescribeAddresses := λ v, Ok (Val (v_addrs v), v);
  AssociateAddress _ _ := λ v, Ok (Val (), v);
  DisassociateAddress _ := λ v, Ok (Val (), v);
  DescribeVolumes := λ v, Ok (Val (v_vols v), v);
}.

Lemma simPerm_rules r : rulesOf (simPerm r) = [r].
Proof. destruct r as [p f t []]; done. Qed.

Lemma simPerms_rules l : permRules (simPerm <$> l) = list_to_set l.
Proof.
  unfold permRules. f_equal. induction l as [|r l IH]; [done|]. csimpl. by rewrite simPerm_rules, IH.
Qed.

Lemma simPerms_ranges l : rangesOf (simPerm <$> l) = simPerm <$> filter isIPv4 l.
Proof.
  unfold rangesOf. induction l as [|r l IH]; [done|]. csimpl. rewrite IH, filter_cons.
  destruct r as [p f t []]; done.
Qed.

Lemma simPerms_given l : Forall (λ p, Forall is_Some (IpRanges p)) (simPerm <$> l).
Proof. apply Forall_fmap, Forall_true. intros [p f t []]; simpl; auto. Qed.

Lemma simPerms_pairs l : Forall (λ gp, is_Some (gp_GroupId gp) ∧ is_Some (gp_GroupName gp)) (pairsOf (simPerm <$> l)).
Proof. unfold pairsOf. apply Forall_concat, Forall_fmap, Forall_fmap, Forall_true. intros [p f t []]; simpl; auto. Qed.

Lemma portsGiven_ok r : portsGiven r → rule_ok r.
Proof.
  intros (Hp & ? & ?). assert (∃ p, r_protocol r = Some p) as [p Hr] by (set_unfold; naive_solver). exists p. auto.
Qed.

Lemma simPerms_presents g : presents (simPerms g) (cleanGroup g).
Proof.
  unfold simPerms. set (l := elements (g_rules (cleanGroup g))).
  assert (∀ r, r ∈ l → portsGiven r) as Hl.
  { intros r. unfold l. simpl. rewrite elem_of_elements, elem_of_filter. tauto. }
  split.
  - rewrite simPerms_rules. apply list_to_set_elements_L.
  - intros r [Hr _]%elem_of_filter. by apply portsGiven_ok.
  - rewrite simPerms_ranges. apply NoDup_fmap_inj_on.
    + apply NoDup_fmap_inj_on; [apply NoDup_filter, NoDup_elements|]. intros r r' _ _ Heq.
      assert ([r] = [r']) as [= ->]; [|done]. by rewrite <-!simPerm_rules, Heq.
    + intros q q' (r & -> & [H4 Hr]%list_elem_of_filter)%list_elem_of_fmap (r' & -> & [H4' Hr']%list_elem_of_filter)%list_elem_of_fmap Heq.
      f_equal. apply keyOf_inj; [by apply Hl|by apply portsGiven_ok, Hl|done|].
      destruct r as [p f t []], r' as [p' f' t' []]; done.
  - apply simPerms_given.
  - apply simPerms_pairs.
Qed.

Lemma simGroup_insert name g f v :
  v_groups v !! name = Some g →
  simView (simGroup name f v) = set_groups (<[name := cleanGroup (f g)]> (v_groups (simView v))) (simView v).
Proof. intros Hg. unfold simGroup, simView. erewrite alter_some by done. simpl. by rewrite fmap_insert. Qed.

Lemma clean_union A (rules : gset vRule) :
  (∀ r, r ∈ A → portsGiven r) → filter portsGiven (A ∪ rules) = A ∪ filter portsGiven rules.
Proof. intros HA. apply set_eq. intros r. rewrite elem_of_union, !elem_of_filter, elem_of_union. specialize (HA r). tauto. Qed.
Lemma fullAccess_given id r : r ∈ fullAccess id → portsGiven r.
Proof.
  unfold fullAccess. rewrite !elem_of_union, !elem_of_singleton. intros [[->| ->]| ->]; (split; [set_solver|split; by eexists]).
Qed.

Lemma freshIDs_ok {V} n (m : gmap string V) :
  (0 < n)%Z → Z.of_nat (length (freshIDs n m)) = n ∧ NoDup (freshIDs n m) ∧ Forall (λ i, m !! i = None) (freshIDs n m).
Proof.
  intros Hn. unfold freshIDs. split_and!.
  - rewrite length_fresh_list. lia.
  - apply NoDup_fresh_list.
  - apply Forall_forall. intros i Hi. apply not_elem_of_dom. by eapply fresh_list_is_fresh.
Qed.

Lemma fst_tagged {V} (f : string → V) l : ((λ i, (i, f i)) <$> l).*1 = l.
Proof. induction l as [|i l IH]; [done|]. csimpl. by rewrite IH. Qed.

#[export] Instance simEC2_laws : EC2Laws ec2View.
Proof.
  refine {| ec2 := simView |}; intros; unfold wp; simpl.
  - split; [done|]. eexists. split; [done|]. simpl. by rewrite app_nil_r.
  - eauto.
  - split; [done|]. eexists. split; [done|]. intros o. rewrite list_elem_of_fmap. setoid_rewrite list_elem_of_omap. naive_solver.
  - done.
  - done.
  - done.
  - done.
  - destruct (freshIDs_ok n (v_insts w)) as (Hl & Hnd & Hf); [done|]. eexists. split; [reflexivity|].
    rewrite length_fmap, fst_tagged. split_and!; [done|done| |done].
    apply Forall_fmap. eapply Forall_impl; [exact Hf|]. done.
  - destruct (freshIDs_ok n (v_spots w)) as (Hl & Hnd & Hf); [done|]. eexists. split; [reflexivity|].
    rewrite length_fmap, fst_tagged. split_and!; [done|done| |done].
    apply Forall_fmap. eapply Forall_impl; [exact Hf|]. done.
  - split; [done|]. rewrite lookup_fmap. destruct (v_groups w !! name) as [g|]; [|done]. eexists. split; [done|]. apply simPerms_presents.
  - eexists. split; [done|]. unfold simView. simpl. by rewrite fmap_insert.
  - simpl in *. rewrite lookup_fmap in *. destruct (v_groups w !! name) as [g0|] eqn:Hg; [|done]. simplify_eq/=. split; [done|].
    erewrite simGroup_insert by done. unfold cleanGroup at 1. simpl. by rewrite clean_union.
  - simpl in *. rewrite lookup_fmap in *. destruct (v_groups w !! name) as [g0|] eqn:Hg; [|done]. simplify_eq/=. split; [done|].
    erewrite simGroup_insert by done. unfold cleanGroup at 1. simpl. rewrite bool_decide_eq_true_2 by done.
    by rewrite clean_union by apply fullAccess_given.
  - simpl in *. rewrite lookup_fmap in *. destruct (v_groups w !! name) as [g0|] eqn:Hg; [|done]. simplify_eq/=.
    case_decide as Hsub; [left|right]; [|by split_and!; eauto]. split; [done|].
    erewrite simGroup_insert by done. unfold cleanGroup at 1. simpl. do 4 f_equal. apply set_eq. intros r.
    rewrite elem_of_filter, !elem_of_difference, elem_of_filter. tauto.
Defined.

(** ** Examples *)

#[local] Existing Instance fixed_order.

Definition demo_prvdr : ec2Provider := newAmazon "NS" "us-west-1".
Definition demo_view : ec2View :=
  mk_ec2View
    {["i-1" := mk_vInst (mk_Instance (Some "i-1") None (Some "8.8.8.8") (Some "10.1.1.1") (Some "m3.medium") [Some "vol-1"])
                 "ns" "running" (mk_LaunchSpec "" "" "" [] []);
      "i-2" := mk_vInst (mk_Instance (Some "i-2") (Some "sir-1") None None (Some "m3.large") [])
                 "ns" "running" (mk_LaunchSpec "" "" "" [] []);
      "i-3" := mk_vInst (mk_Instance (Some "i-3") None None None (Some "m3.large") []) "other" "running" (mk_LaunchSpec "" "" "" [] [])]}
    {["sir-1" := mk_vSpot (mk_SpotRequest (Some "sir-1") (Some "i-2") (Some (Some "m3.large"))) "ns" "active" (mk_LaunchSpec "" "" "" [] []);
      "sir-2" := mk_vSpot (mk_SpotRequest (Some "sir-2") None (Some None)) "ns" "open" (mk_LaunchSpec "" "" "" [] [])]}
    [mk_Address (Some "9.9.9.9") (Some "eipalloc-1") (Some "i-1") (Some "eipassoc-1")]
    [mk_ec2Volume (Some "vol-1") (Some 32%Z)]
    {["ns" := mk_vGroup "sg-1"
        {[mk_vRule (Some "tcp") (Some 22%Z) (Some 22%Z) (IPv4 "0.0.0.0/0");
          mk_vRule (Some "tcp") (Some 80%Z) (Some 80%Z) (IPv6 "::/0")]}]}.
(** The same group with a rule for the group [sg-2]. *)
Definition demo_foreign : ec2View :=
  set_groups {["ns" := mk_vGroup "sg-1"
        {[mk_vRule (Some "tcp") (Some 22%Z) (Some 22%Z) (IPv4 "0.0.0.0/0");
          mk_vRule (Some "tcp") (Some 80%Z) (Some 80%Z) (FromGroup "sg-2")]}]} demo_view.


(** A rule for another group makes the call fail, with the former rules kept. *)
Example foreign_rules_stay :
  match ec2_SetACLs demo_prvdr 0 [] demo_foreign with
  | Ok (r, v') => r = Err "InvalidPermission.NotFound" ∧ g_rules <$> v_groups v' !! "ns" = Some
    (fullAccess "sg-1" ∪ {[mk_vRule (Some "tcp") (Some 22%Z) (Some 22%Z) (IPv4 "0.0.0.0/0");
       mk_vRule (Some "tcp") (Some 80%Z) (Some 80%Z) (FromGroup "sg-2")]})
  | Panic _ => False
  end.
Proof.
  assert (match ec2_SetACLs demo_prvdr 0 [] demo_foreign with
    | Ok (r, v') => bool_decide (r = Err "InvalidPermission.NotFound" ∧ g_rules <$> v_groups v' !! "ns" = Some
        (fullAccess "sg-1" ∪ {[mk_vRule (Some "tcp") (Some 22%Z) (Some 22%Z) (IPv4 "0.0.0.0/0");
           mk_vRule (Some "tcp") (Some 80%Z) (Some 80%Z) (FromGroup "sg-2")]}))
    | Panic _ => false
    end = true) as Hrun by (vm_compute; reflexivity).
  destruct (ec2_SetACLs _ _ _ _) as [[r v']|]; [|done]. by apply bool_decide_eq_true in Hrun.
Qed.

Lemma demo_view_ok : view_ok demo_view.
Proof.
  assert (map_Forall (λ i x, InstanceId (i_obj x) = Some i ∧ Forall is_Some (BlockDeviceMappings (i_obj x)) ∧
    v_spots demo_view !! i = None ∧ Forall (λ s, sr_InstanceId ∘ s_obj <$> v_spots demo_view !! s = Some (Some i))
      (option_list (SpotInstanceRequestId (i_obj x)))) (v_insts demo_view)) as Hi by vm_decide.
  assert (map_Forall (λ s y, sr_SpotInstanceRequestId (s_obj y) = Some s ∧ s ≠ "" ∧ is_Some (sr_LaunchSpecification (s_obj y)) ∧
    Forall (λ i, SpotInstanceRequestId ∘ i_obj <$> v_insts demo_view !! i = Some (Some s))
      (option_list (sr_InstanceId (s_obj y)))) (v_spots demo_view)) as Hs by vm_decide.
  split; [| | | | | | |vm_decide|vm_decide].
  - intros i x Hx. by apply (Hi i x).
  - intros s y Hy. destruct (Hs s y Hy) as (? & ? & _). done.
  - intros i x s Hx Hsx. destruct (Hi i x Hx) as (_ & _ & _ & Hf). rewrite Hsx in Hf. simpl in Hf.
    apply Forall_cons in Hf as [Hf _]. apply fmap_Some in Hf as (y & Hy & Heq). exists y. done.
  - intros s y i Hy Hyi. destruct (Hs s y Hy) as (_ & _ & _ & Hf). rewrite Hyi in Hf. simpl in Hf.
    apply Forall_cons in Hf as [Hf _]. apply fmap_Some in Hf as (x & Hx & Heq). exists x. done.
  - intros i [x Hx]. by apply (Hi i x).
  - intros i x Hx. by apply (Hi i x).
  - intros s y Hy. by apply (Hs s y).
Qed.

Lemma ec2_Stop_removes_witness :
  wp (ec2_List demo_prvdr 0) demo_view (λ r v1, ∃ ms m, r = Val ms ∧ m ∈ ms ∧ m_CloudID m = "sir-1" ∧
    wp (ec2_Stop [m]) v1 (λ r v2, r = Val () ∧
      wp (ec2_List demo_prvdr 0) v2 (λ r _, ∃ ms', r = Val ms' ∧ m ∉ ms'))).
Proof.
  eapply wp_mono; [apply (ec2_Stop_removes demo_prvdr 0 0 demo_view); exact demo_view_ok|].
  intros r v1 (ms & -> & Hms & _ & Hstop).
  set (x := mk_vInst (mk_Instance (Some "i-2") (Some "sir-1") None None (Some "m3.large") []) "ns" "running" (mk_LaunchSpec "" "" "" [] [])).
  set (m := finishMachine demo_prvdr (instAws demo_view (i_obj x))).
  assert (m ∈ ms) as Hm by (apply Hms; left; exists "i-2", x; done).
  exists ms, m. split_and!; [done|done|done|]. eapply wp_mono; [apply Hstop; by intros ? ->%list_elem_of_singleton|].
  intros r v2 [-> Hl]. split; [done|]. eapply wp_mono; [exact Hl|]. intros r' v3 (ms' & -> & Hp). exists ms'. split; [done|].
  rewrite Hp. intros [Hno _]%list_elem_of_filter. apply Hno. by left.
Defined.

Definition demo_boot (size : string) (preemptible : bool) : Machine :=
  mk_Machine 0 Amazon "us-west-1" size 32 [] "" preemptible "" "" "" "" Worker false.

Lemma ec2_Boot_exact_witness :
  wp (ec2_Boot demo_prvdr (λ m _, m_Role m) 0 [demo_boot "m3" false; demo_boot "m4" true; demo_boot "m3" false]) demo_view
    (λ r v', r.2 = Val () ∧ ∃ insts spots, r.1 ≡ₚ insts.*1 ++ spots.*1 ∧
      ls_InstanceType ∘ i_spec <$> insts.*2 = ["m3"; "m3"] ∧ ls_InstanceType ∘ s_spec <$> spots.*2 = ["m4"]).
Proof.
  eapply wp_mono; [apply (ec2_Boot_exact demo_prvdr (λ m _, m_Role m) 0)|].
  intros r v' (Hr & gid & groups & insts & spots & _ & _ & Hids & Hi & Hs). split; [done|]. exists insts, spots.
  split; [done|]. apply (fmap_Permutation ls_InstanceType) in Hi. apply (fmap_Permutation ls_InstanceType) in Hs. split.
  - rewrite list_fmap_compose. symmetry. apply (replicate_Permutation 2). symmetry. exact Hi.
  - rewrite list_fmap_compose. apply Permutation_singleton_r. exact Hs.
Defined.
