(* ===== verification/Gce.v ===== *)
(** * Package google: machines on Google Compute Engine

    [src/cloud/google/google.go]: the cloud provider for Google.  The API
    objects are records of the fields the code reads or sets.  The client (and
    [crypto/rand]) is the class [GCEClient], over a world with a clock: changes
    are operations that GCE finishes later and [operationWait] waits for. *)

From S2P Require Import Prelude GoStrings Join Blueprint DbRows CloudJoin Backoff Providers Dns.

(** ** API objects *)

Record AccessConfig := mk_AccessConfig { ac_Type : string; ac_Name : string; NatIP : string }.
Record NetworkInterface := mk_NetworkInterface {
  ni_Name : string;
  ni_Network : string;
  NetworkIP : string;
  AccessConfigs : list AccessConfig;
}.
Record AttachedDisk := mk_AttachedDisk { disk_Boot : bool; AutoDelete : bool; SourceImage : string }.
(** [inst_Metadata]: the items, key and value. *)
Record gceInstance := mk_gceInstance {
  inst_Name : string;
  inst_Description : string;
  MachineType : string;
  inst_Disks : list AttachedDisk;
  NetworkInterfaces : list NetworkInterface;
  inst_Metadata : list (string * string);
}.
Record FirewallAllowed := mk_FirewallAllowed { fa_IPProtocol : string; fa_Ports : list string }.
Record Firewall := mk_Firewall {
  fw_Name : string;
  fw_Network : string;
  fw_Description : string;
  SourceRanges : list string;
  Allowed : list FirewallAllowed;
}.
Record gceNetwork := mk_gceNetwork { net_Name : string; net_IPv4Range : string }.
Record Operation := mk_Operation { op_Name : string; op_Zone : string; op_Status : string }.
Record gceAddress := mk_gceAddress { addr_Address : string; addr_Status : string }.

Class GCEClient (W : Type) := {
  gce_clock :: Clock W;
  (** [client.New] *)
  newGCEClient : M W (result unit);
  GetInstance : string → string → M W (result gceInstance);
  ListInstances : string → string → M W (result (list gceInstance));
  InsertInstance : string → gceInstance → M W (result Operation);
  DeleteInstance : string → string → M W (result Operation);
  AddAccessConfig : string → string → string → AccessConfig → M W (result Operation);
  DeleteAccessConfig : string → string → string → string → M W (result Operation);
  (** The region of a zone. *)
  GetZone : string → M W (result string);
  GetZoneOperation : string → string → M W (result Operation);
  GetGlobalOperation : string → M W (result Operation);
  ListFloatingIPs : string → M W (result (list gceAddress));
  ListFirewalls : string → M W (result (list Firewall));
  InsertFirewall : Firewall → M W (result Operation);
  DeleteFirewall : string → M W (result Operation);
  ListNetworks : string → M W (result (list gceNetwork));
  InsertNetwork : gceNetwork → M W (result Operation);
  DeleteNetwork : string → M W (result Operation);
  (** [crypto/rand.Read] into so many bytes. *)
  randRead : nat → M W (result string);
}.

(** ** The provider *)

Definition ephemeralIPName : string := "External NAT".
Definition floatingIPName : string := "Floating IP".
Definition gceImage : string :=
  "https://www.googleapis.com/compute/v1/projects/" +:+ "ubuntu-os-cloud/global/images/ubuntu-1604-xenial-v20180306".
Definition ipv4Range : string := "172.16.0.0/12".

Record gceProvider := mk_gceProvider {
  gce_namespace : string;
  gce_network : string;
  gce_zone : string;
  gce_region : string;
}.

(** The element after the last slash; [Split] is never empty. *)
Definition lastPart (url : string) : string := default "" (last (Split "/" url)).

Definition networkURL (prvdr : gceProvider) : string := "global/networks/" +:+ gce_network prvdr.

Definition getNetworkConfig (inst : gceInstance) : result (NetworkInterface * AccessConfig) :=
  match NetworkInterfaces inst with
  | [iface] =>
    match AccessConfigs iface with
    | [accessConfig] => Val (iface, accessConfig)
    | configs => Err ("Google instances expected to have exactly 1 access config (instances without a config will not be accessible via the public internet, and Google does not support more than one config); for instance "
        +:+ inst_Name inst +:+ ", found " +:+ fmtInt (Z.of_nat (length configs)) +:+ " access configs")
    end
  | ifaces => Err ("Google instances are expected to have exactly 1 interface; for instance "
      +:+ inst_Name inst +:+ ", found " +:+ fmtInt (Z.of_nat (length ifaces)))
  end.

(** The fields of the machine, from an instance; the others are zero. *)
Definition gceMachine (prvdr : gceProvider) (instance : gceInstance) : Machine :=
  let mtype := lastPart (MachineType instance) in
  let '(publicIP, privateIP, floatingIP) :=
    match getNetworkConfig instance with
    | Val (iface, accessConfig) =>
      (NatIP accessConfig, NetworkIP iface,
       if bool_decide (ac_Name accessConfig = floatingIPName) then NatIP accessConfig else "")
    | Err _ => ("", "", "")
    end in
  mk_Machine 0 Google (gce_zone prvdr) mtype 0 [] floatingIP false (inst_Name instance)
    publicIP privateIP "" None_ false.

Definition instanceConfig (prvdr : gceProvider) (name size cloudConfig : string) : gceInstance :=
  mk_gceInstance name (gce_network prvdr)
    ("zones/" +:+ gce_zone prvdr +:+ "/machineTypes/" +:+ size)
    [mk_AttachedDisk true true gceImage]
    [mk_NetworkInterface "" (networkURL prvdr) "" [mk_AccessConfig "ONE_TO_ONE_NAT" ephemeralIPName ""]]
    [("startup-script", cloudConfig)].

(** ** ACLs as firewalls *)

Record gACL := mk_gACL { gacl_name : string; gacl_ACL : ACL }.
#[export] Instance gACL_eq_dec : EqDecision gACL.
Proof. solve_decision. Defined.
#[export] Instance gACL_countable : Countable gACL.
Proof.
  refine (inj_countable' (λ a, (gacl_name a, CidrIP (gacl_ACL a), acl_MinPort (gacl_ACL a), acl_MaxPort (gacl_ACL a)))
    (λ '(n, c, lo, hi), mk_gACL n (mk_ACL c lo hi)) _). by intros [n [c lo hi]].
Defined.

(** The loop over [fw.Allowed]: [portsStr] so far. *)
Fixpoint allowedPorts (portsStr : string) (alloweds : list FirewallAllowed) : result string :=
  match alloweds with
  | [] => Val portsStr
  | allowed :: rest =>
    if bool_decide (fa_IPProtocol allowed = "icmp") then allowedPorts portsStr rest
    else
      match fa_Ports allowed with
      | [p] =>
        if bool_decide (portsStr = "") then allowedPorts p rest
        else if bool_decide (portsStr ≠ p) then Err "malformed firewall"
        else allowedPorts portsStr rest
      | _ => Err "malformed firewall"
      end
  end.

Fixpoint portNumbers (portsStr : string) (parts : list string) : result (list Z) :=
  match parts with
  | [] => Val []
  | p :: parts =>
    match Atoi p with
    | Err _ => Err ("invalid port: " +:+ portsStr)
    | Val portInt =>
      match portNumbers portsStr parts with
      | Val ports => Val (portInt :: ports)
      | Err e => Err e
      end
    end
  end.

Definition parseACL (fw : Firewall) : result gACL :=
  match SourceRanges fw with
  | [cidr] =>
    if bool_decide (length (Allowed fw) ≠ 3) then Err "malformed firewall"
    else
      match allowedPorts "" (Allowed fw) with
      | Err e => Err e
      | Val portsStr =>
        match portNumbers portsStr (Split "-" portsStr) with
        | Err e => Err e
        | Val [p] => Val (mk_gACL (fw_Name fw) (mk_ACL cidr p p))
        | Val [lo; hi] => Val (mk_gACL (fw_Name fw) (mk_ACL cidr lo hi))
        | Val _ => Err ("invalid port: " +:+ portsStr)
        end
      end
  | _ => Err "malformed firewall"
  end.

(** The name of the firewall for an ACL. *)
Definition aclName (prvdr : gceProvider) (a : ACL) : string :=
  let ip := ReplaceChar "." "-" (CidrIP a) in
  let ip := ReplaceChar "/" "-" ip in
  gce_network prvdr +:+ "-" +:+ ip +:+ "-" +:+ fmtInt (acl_MinPort a) +:+ "-" +:+ fmtInt (acl_MaxPort a).

Definition aclFirewall (prvdr : gceProvider) (a : gACL) : Firewall :=
  let ports := fmtInt (acl_MinPort (gacl_ACL a)) +:+ "-" +:+ fmtInt (acl_MaxPort (gacl_ACL a)) in
  mk_Firewall (gacl_name a) (networkURL prvdr) (gce_network prvdr) [CidrIP (gacl_ACL a)]
    [mk_FirewallAllowed "tcp" [ports]; mk_FirewallAllowed "udp" [ports]; mk_FirewallAllowed "icmp" []].

(** The first loop of [planSetACLs]: the firewalls that parse, the names of the others. *)
Fixpoint parseFirewalls (fws : list Firewall) : list gACL * list string :=
  match fws with
  | [] => ([], [])
  | fw :: fws =>
    let '(acls, remove) := parseFirewalls fws in
    match parseACL fw with
    | Err _ => (acls, fw_Name fw :: remove)
    | Val a => (a :: acls, remove)
    end
  end.

Definition planSetACLs `{MapOrder} (n : nat) (prvdr : gceProvider) (cloudFWs : list Firewall) (acls : list ACL)
    : list Firewall * list string :=
  let '(cloudACLs, remove) := parseFirewalls cloudFWs in
  let gacls := (λ a, mk_gACL (aclName prvdr a) a) <$> acls in
  let '(_, adds, removes) := HashJoin n gacls cloudACLs id id in
  (aclFirewall prvdr <$> adds, remove ++ (gacl_name <$> removes)).

Section provider.
Context {W : Type} `{GCEClient W} `{MapOrder} `{Schedule}.
Context (script : Machine → string → string).

Definition newGoogle (namespace zone : string) : M W (result gceProvider) :=
  let! r := newGCEClient in
  match r with
  | Err e => mret (Err ("failed to initialize GCE client: " +:+ e))
  | Val _ =>
    let! r := GetZone zone in
    match r with
    | Err e => mret (Err ("failed to get metadata about zone " +:+ zone +:+ ": " +:+ e))
    | Val regionURL =>
      mret (Val (mk_gceProvider namespace ("kelda-" +:+ namespace +:+ "-" +:+ zone) zone (lastPart regionURL)))
    end
  end.

Context (prvdr : gceProvider).

Definition gce_List : M W (result (list Machine)) :=
  let? instances := ListInstances (gce_zone prvdr) (gce_network prvdr) in
  mret (Val (gceMachine prvdr <$> instances)).

(** The machines listed are of the provider's zone. *)
Lemma gce_List_ours ns : listsOurs (mk_cloud ns Google (gce_zone prvdr)) gce_List.
Proof.
  intros w. unfold gce_List, tryM, mbind, M_bind. destruct (ListInstances (gce_zone prvdr) (gce_network prvdr) w) as [[[insts|e] w1]|]; [|done..]. simpl.
  intros m (x & -> & _)%list_elem_of_fmap. unfold gceMachine. by destruct (getNetworkConfig x) as [[??]|].
Qed.

(** ** Waiting for operations *)

Definition operationDone (op : Operation) : M W bool :=
  let! res := (if bool_decide (op_Zone op ≠ "") then GetZoneOperation (pathBase (op_Zone op)) (op_Name op)
               else GetGlobalOperation (op_Name op)) in
  mret (match res with Err _ => false | Val res => bool_decide (op_Status res = "DONE") end).

Fixpoint operationsDone (ops : list Operation) : M W bool :=
  match ops with
  | [] => mret true
  | op :: ops => let! ok := operationDone op in if (ok : bool) then operationsDone ops else mret false
  end.

(** Fuel for three minutes: each round sleeps a second or more. *)
Definition operationWait (ops : list Operation) : M W (result unit) :=
  let! r := BackoffWaitFor 182 (operationsDone ops) (10 * Second) (3 * Minute) in
  match r with Some r => mret r | None => panic "out of fuel" end.

(** ** Booting and stopping *)

Definition createNetwork : M W (result unit) :=
  let? list := ListNetworks (gce_network prvdr) in
  if bool_decide (0 < length list) then mret (Val ())
  else
    let? op := InsertNetwork (mk_gceNetwork (gce_network prvdr) ipv4Range) in
    operationWait [op].

Definition randName : M W string :=
  let! r := randRead 10 in
  match r with
  | Err e => panic e
  | Val b => mret ("k" +:+ ToLower (base32 b))
  end.

Definition insertInstance (name : string) (m : Machine) : M W (result unit) :=
  let icfg := instanceConfig prvdr name (m_Size m) (script m "") in
  let! r := InsertInstance (gce_zone prvdr) icfg in
  mret (match r with Val _ => Val () | Err e => Err e end).

(** The first loop of [Boot]: the names, and the goroutines it starts. *)
Fixpoint startBoots (bootSet : list Machine) : M W (list string * list (M W (result unit)) * result unit) :=
  match bootSet with
  | [] => mret ([], [], Val ())
  | m :: bootSet =>
    if m_Preemptible m then mret ([], [], Err "preemptible vms are not implemented")
    else
      let! name := randName in
      let! (names, calls, r) := startBoots bootSet in
      mret (name :: names, insertInstance name m :: calls, r)
  end.

Definition gce_Boot (n : nat) (bootSet : list Machine) : M W (list string * result unit) :=
  let! r := createNetwork in
  match r with
  | Err e => mret ([], Err e)
  | Val _ =>
    let! (names, calls, started) := startBoots bootSet in
    let! results := concurrently n calls in
    match started with
    | Err e => mret ([], Err e)
    | Val _ =>
      match firstError results with
      | Err e => mret ([], Err e)
      | Val _ => mret (names, Val ())
      end
    end
  end.

Definition deleteInstance (m : Machine) : M W (result unit) :=
  let! r := DeleteInstance (gce_zone prvdr) (m_CloudID m) in
  mret (match r with Val _ => Val () | Err e => Err e end).

Definition gce_Stop (n : nat) (machines : list Machine) : M W (result unit) :=
  let! results := concurrently n (deleteInstance <$> machines) in
  mret (firstError results).

(** ** Setting ACLs *)

Fixpoint deleteFirewalls (names : list string) : M W (result (list Operation)) :=
  match names with
  | [] => mret (Val [])
  | name :: names =>
    let? op := DeleteFirewall name in
    let? ops := deleteFirewalls names in
    mret (Val (op :: ops))
  end.

Fixpoint insertFirewalls (fws : list Firewall) : M W (result (list Operation)) :=
  match fws with
  | [] => mret (Val [])
  | fw :: fws =>
    let? op := InsertFirewall fw in
    let? ops := insertFirewalls fws in
    mret (Val (op :: ops))
  end.

Definition gce_setACLs (n : nat) (acls : list ACL) : M W (result unit) :=
  let! r := ListFirewalls (gce_network prvdr) in
  match r with
  | Err e => mret (Err ("list firewalls: " +:+ e))
  | Val firewalls =>
    let '(adds, removes) := planSetACLs n prvdr firewalls acls in
    let? ops1 := deleteFirewalls removes in
    let? ops2 := insertFirewalls adds in
    operationWait (ops1 ++ ops2)
  end.

Definition interVM : ACL := mk_ACL ipv4Range 0 65535.

Definition gce_SetACLs (n : nat) (acls : list ACL) : M W (result unit) :=
  gce_setACLs n (acls ++ [interVM]).

Definition gce_Cleanup (n : nat) : M W (result unit) :=
  let? list := ListNetworks (gce_network prvdr) in
  if bool_decide (length list = 0) then mret (Val ())
  else
    let? _ := gce_setACLs n [] in
    let? op := DeleteNetwork (gce_network prvdr) in
    operationWait [op].

(** ** Floating IPs *)

Definition checkStatus (ipToStatus : gmap string string) (ip : string) : result unit :=
  if bool_decide (ip ≠ "") then
    match ipToStatus !! ip with
    | None => Err (ip +:+ " is not reserved")
    | Some status =>
      if bool_decide (status = "ASSIGNED") then Err (ip +:+ " is already assigned")
      else if bool_decide (status ≠ "RESERVED")
      then Err (ip +:+ " is not ready to be assigned (current IP status: " +:+ status +:+ ")")
      else Val ()
    end
  else Val ().

Definition newAccessConfig (ip : string) : AccessConfig :=
  if bool_decide (ip = "") then mk_AccessConfig "ONE_TO_ONE_NAT" ephemeralIPName ""
  else mk_AccessConfig "ONE_TO_ONE_NAT" floatingIPName ip.

(** [operationWait] with another error. *)
Definition operationWaitOr (err : string) (op : Operation) : M W (result unit) :=
  let! r := operationWait [op] in
  mret (match r with Val _ => Val () | Err _ => Err err end).

(** One round of the loop over the machines. *)
Definition updateFloatingIP (ipToStatus : gmap string string) (m : Machine) : M W (result unit) :=
  let? _ := mret (checkStatus ipToStatus (m_FloatingIP m)) in
  let? instance := GetInstance (gce_zone prvdr) (m_CloudID m) in
  let? (networkInterface, accessConfig) := mret (getNetworkConfig instance) in
  let? op := DeleteAccessConfig (gce_zone prvdr) (m_CloudID m) (ac_Name accessConfig) (ni_Name networkInterface) in
  let? _ := operationWaitOr "timed out waiting for access config to be removed" op in
  let? op := AddAccessConfig (gce_zone prvdr) (m_CloudID m) (ni_Name networkInterface) (newAccessConfig (m_FloatingIP m)) in
  operationWaitOr "timed out waiting for new access config to be assigned" op.

Fixpoint updateFloatingIPsLoop (ipToStatus : gmap string string) (machines : list Machine) : M W (result unit) :=
  match machines with
  | [] => mret (Val ())
  | m :: machines => let? _ := updateFloatingIP ipToStatus m in updateFloatingIPsLoop ipToStatus machines
  end.

Definition statusMap (addrs : list gceAddress) : gmap string string :=
  foldl (λ m a, <[addr_Address a := addr_Status a]> m) ∅ addrs.

Definition gce_UpdateFloatingIPs (machines : list Machine) : M W (result unit) :=
  let! r := ListFloatingIPs (gce_region prvdr) in
  match r with
  | Err e => mret (Err ("list ips: " +:+ e))
  | Val allIPs => updateFloatingIPsLoop (statusMap allIPs) machines
  end.
End provider.
