(* ===== verification/Slots.v ===== *)
(** * Resources that change some time after they were asked to

    A cloud answers a request to create or delete a resource with an operation
    that it finishes later.  [slots]: the resources there are, and for each name
    at most one operation in flight, with what will be under the name when it is
    done ([None]: nothing). *)

From S2P Require Import Prelude.

Record slots (V : Type) := mk_slots {
  actual : gmap string V;
  inflight : gmap string (string * option V);
}.
Arguments mk_slots {_} _ _.
Arguments actual {_} _.
Arguments inflight {_} _.

Section slots.
Context {V : Type}.
Implicit Types (s : slots V) (k o : string) (r : option V).

(** What is under a name once all operations are done. *)
Definition eventual s k : option V :=
  match inflight s !! k with Some (_, r) => r | None => actual s !! k end.

(** The cloud finishes an operation. *)
Inductive settles : slots V → slots V → Prop :=
  | settles_one s k o r : inflight s !! k = Some (o, r) →
      settles s (mk_slots (partial_alter (λ _, r) k (actual s)) (delete k (inflight s))).

(** A request under a name is accepted. *)
Definition slot_put k o r s : slots V := mk_slots (actual s) (<[k := (o, r)]> (inflight s)).

(** From [s] to [s'] the operations [ops] were started, which change the names
    of [edits]; besides, operations were finished. *)
Record edited (edits : gmap string (option V)) (ops : list string) s s' : Prop := {
  ed_eventual : ∀ k, eventual s' k = match edits !! k with Some r => r | None => eventual s k end;
  ed_inflight : ∀ k o r, inflight s' !! k = Some (o, r) →
    (is_Some (edits !! k) ∧ o ∈ ops) ∨ inflight s !! k = Some (o, r);
}.

Lemma settles_edited s s' : rtc settles s s' → edited ∅ [] s s'.
Proof.
  induction 1 as [s|s1 s2 s3 [s k o r Hk] _ [IHe IHi]]; [by split; [intros k; by rewrite lookup_empty|right]|].
  split.
  - intros j. rewrite IHe, lookup_empty. unfold eventual. simpl. destruct (decide (k = j)) as [->|Hne].
    + by rewrite lookup_delete_eq, lookup_partial_alter_eq, Hk.
    + by rewrite lookup_delete_ne, lookup_partial_alter_ne.
  - intros j o' r' Hj. apply IHi in Hj as [[_ ?%not_elem_of_nil]|Hj]; [done|]. right.
    simpl in Hj. by apply lookup_delete_Some in Hj as [_ ?].
Qed.

Lemma edited_put k o r s : edited {[k := r]} [o] s (slot_put k o r s).
Proof.
  split.
  - intros j. unfold eventual, slot_put. simpl. destruct (decide (k = j)) as [->|Hne].
    + by rewrite lookup_insert_eq, lookup_singleton_eq.
    + by rewrite lookup_insert_ne, lookup_singleton_ne.
  - intros j o' r'. simpl. rewrite lookup_insert_Some. intros [[-> [= -> ->]]|[_ ?]]; [left|by right].
    rewrite lookup_singleton_eq. split; [done|by left].
Qed.

Lemma edited_trans e1 e2 ops1 ops2 s1 s2 s3 :
  edited e1 ops1 s1 s2 → edited e2 ops2 s2 s3 → edited (e2 ∪ e1) (ops1 ++ ops2) s1 s3.
Proof.
  intros [He1 Hi1] [He2 Hi2]. split.
  - intros k. rewrite He2, lookup_union. destruct (e2 !! k) as [r|]; simpl; [by destruct (e1 !! k)|].
    rewrite left_id by apply _. apply He1.
  - intros k o r Hk. apply Hi2 in Hk as [[Hs ?]|Hk].
    + left. split; [by apply lookup_union_is_Some; left|set_solver].
    + apply Hi1 in Hk as [[Hs ?]|Hk]; [left|by right]. split; [by apply lookup_union_is_Some; right|set_solver].
Qed.

(** A name that is not edited and has nothing in flight stays as it was. *)
Lemma edited_idle e ops s s' k :
  edited e ops s s' → e !! k = None → inflight s !! k = None →
  inflight s' !! k = None ∧ actual s' !! k = actual s !! k.
Proof.
  intros [He Hi] Hk Hs. assert (inflight s' !! k = None) as Hs'.
  { apply eq_None_not_Some. intros [[o r] Ho]. apply Hi in Ho as [[[? ?] _]|?]; congruence. }
  split; [done|]. specialize (He k). unfold eventual in He. by rewrite Hk, Hs, Hs' in He.
Qed.

(** When all operations are done, the resources are as edited. *)
Lemma edited_settled e ops s s' :
  edited e ops s s' → inflight s = ∅ → (∀ k o r, inflight s' !! k = Some (o, r) → o ∉ ops) →
  inflight s' = ∅ ∧ ∀ k, actual s' !! k = eventual s' k.
Proof.
  intros [He Hi] Hs Hdone. assert (inflight s' = ∅) as Hs'.
  { apply map_empty. intros k. apply eq_None_not_Some. intros [[o r] Ho].
    pose proof (Hi _ _ _ Ho) as [[_ Hin]|Hin]; [by apply Hdone in Ho|]. by rewrite Hs, lookup_empty in Hin. }
  split; [done|]. intros k. unfold eventual. by rewrite Hs', lookup_empty.
Qed.

Lemma eventual_idle s k : inflight s = ∅ → eventual s k = actual s !! k.
Proof. intros Hs. unfold eventual. by rewrite Hs, lookup_empty. Qed.
End slots.
