(* ===== verification/GceSpec.v ===== *)
(** * Package google: what the provider guarantees

    GCE as the code relies on it (firewalls and access configurations, with the
    operations in flight, and the laws of the client's calls), waiting for
    operations, and the theorems about the ACLs. *)

From S2P Require Import Prelude GoStrings Join Blueprint DbRows CloudJoin Backoff Providers Dns Gce Slots.

(** ** GCE *)

(** [gv_fws]: the firewalls of the project, by name.  [gv_acs]: the access
    configurations, by instance.  [gv_insts]: the instances, with the name and
    the address of their interface.  [gv_reserved]: the addresses reserved in
    the region. *)
Record gceView := mk_gceView {
  gv_fws : slots Firewall;
  gv_acs : slots AccessConfig;
  gv_insts : gmap string (string * string);
  gv_reserved : gset string;
}.
Definition set_fws (s : slots Firewall) (v : gceView) : gceView := mk_gceView s (gv_acs v) (gv_insts v) (gv_reserved v).
Definition set_acs (s : slots AccessConfig) (v : gceView) : gceView := mk_gceView (gv_fws v) s (gv_insts v) (gv_reserved v).

(** GCE may finish operations at any time. *)
Record later (v v' : gceView) : Prop := {
  later_fws : rtc settles (gv_fws v) (gv_fws v');
  later_acs : rtc settles (gv_acs v) (gv_acs v');
  later_insts : gv_insts v' = gv_insts v;
  later_reserved : gv_reserved v' = gv_reserved v;
}.
#[export] Instance later_preorder : PreOrder later.
Proof. split; [by split|]. intros v1 v2 v3 [] []. split; [by etrans|by etrans|congruence|congruence]. Qed.

(** An address that an access configuration has or is about to get. *)
Definition in_use (v : gceView) (ip : string) : Prop :=
  ∃ i ac, (actual (gv_acs v) !! i = Some ac ∨ eventual (gv_acs v) i = Some ac) ∧ NatIP ac = ip.

(** GCE stores the rule that it was sent; it writes the network as a full URL,
    which ends in the partial one. *)
Record sameRule (fw fw' : Firewall) : Prop := {
  sr_Name : fw_Name fw' = fw_Name fw;
  sr_Network : ∃ base, fw_Network fw' = base +:+ fw_Network fw;
  sr_Description : fw_Description fw' = fw_Description fw;
  sr_SourceRanges : SourceRanges fw' = SourceRanges fw;
  sr_Allowed : Allowed fw' = Allowed fw;
}.
(** GCE stores the access configuration that it was sent, with an address of its
    own choice, that is not a reserved one, if there is none. *)
Record sameConfig (v : gceView) (ac ac' : AccessConfig) : Prop := {
  sc_Name : ac_Name ac' = ac_Name ac;
  sc_given : NatIP ac ≠ "" → NatIP ac' = NatIP ac;
  sc_chosen : NatIP ac = "" → NatIP ac' ∉ gv_reserved v;
}.

(** An accepted request is a new operation on its name. *)
Definition fwStarted (k : string) (r : option Firewall) (v : gceView) (op : Operation) (v' : gceView) : Prop :=
  ∃ v1, later v v1 ∧ op_Zone op = "" ∧ v' = set_fws (slot_put k (op_Name op) r (gv_fws v1)) v1.
Definition acStarted (zone i : string) (r : option AccessConfig) (v : gceView) (op : Operation) (v' : gceView) : Prop :=
  ∃ v1 base, later v v1 ∧ op_Zone op = base +:+ "/" +:+ zone ∧
    v' = set_acs (slot_put i (op_Name op) r (gv_acs v1)) v1.

Definition notRunning {V} (s : slots V) (o : string) : Prop := ∀ k r, inflight s !! k ≠ Some (o, r).

Class GCELaws (W : Type) `{GCEClient W} := {
  gce_clock_laws :: ClockLaws W;
  gce : W → gceView;
  (** The zone of the instances. *)
  hostZone : string;
  hostZone_ok : lacks "/" hostZone ∧ hostZone ≠ "";
  gce_sleep : ∀ d w, later (gce w) (gce (sleep d w));
  GetGlobalOperation_ok : ∀ o w, wp (GetGlobalOperation o) w (λ r w', (now w ≤ now w')%Z ∧ later (gce w) (gce w') ∧
    ∀ op, r = Val op → op_Status op = "DONE" → notRunning (gv_fws (gce w')) o);
  GetZoneOperation_ok : ∀ zone o w, wp (GetZoneOperation zone o) w (λ r w', (now w ≤ now w')%Z ∧ later (gce w) (gce w') ∧
    ∀ op, r = Val op → op_Status op = "DONE" → zone = hostZone → notRunning (gv_acs (gce w')) o);
  ListFirewalls_ok : ∀ desc w, wp (ListFirewalls desc) w (λ r w', later (gce w) (gce w') ∧
    ∃ fws, r = Val fws ∧ fws ≡ₚ filter (λ fw, fw_Description fw = desc) (vals (actual (gv_fws (gce w')))));
  DeleteFirewall_ok : ∀ name w, is_Some (actual (gv_fws (gce w)) !! name) → inflight (gv_fws (gce w)) !! name = None →
    wp (DeleteFirewall name) w (λ r w', ∃ op, r = Val op ∧ fwStarted name None (gce w) op (gce w'));
  InsertFirewall_ok : ∀ fw w, actual (gv_fws (gce w)) !! fw_Name fw = None → inflight (gv_fws (gce w)) !! fw_Name fw = None →
    wp (InsertFirewall fw) w (λ r w', ∃ op fw', r = Val op ∧ sameRule fw fw' ∧
      fwStarted (fw_Name fw) (Some fw') (gce w) op (gce w'));
  ListFloatingIPs_ok : ∀ region w, wp (ListFloatingIPs region) w (λ r w', later (gce w) (gce w') ∧
    ∃ addrs, r = Val addrs ∧ (∀ ip, ip ∈ addr_Address <$> addrs ↔ ip ∈ gv_reserved (gce w')) ∧
      Forall (λ a, addr_Status a = "RESERVED" ↔ ¬ in_use (gce w') (addr_Address a)) addrs);
  GetInstance_ok : ∀ i w iface ip, gv_insts (gce w) !! i = Some (iface, ip) →
    wp (GetInstance hostZone i) w (λ r w', later (gce w) (gce w') ∧ ∃ inst ni, r = Val inst ∧
      NetworkInterfaces inst = [ni] ∧ ni_Name ni = iface ∧ AccessConfigs ni = option_list (actual (gv_acs (gce w')) !! i));
  DeleteAccessConfig_ok : ∀ i iface ip ac w, gv_insts (gce w) !! i = Some (iface, ip) →
    actual (gv_acs (gce w)) !! i = Some ac → inflight (gv_acs (gce w)) !! i = None →
    wp (DeleteAccessConfig hostZone i (ac_Name ac) iface) w (λ r w', ∃ op, r = Val op ∧ acStarted hostZone i None (gce w) op (gce w'));
  AddAccessConfig_ok : ∀ i iface ip ac w, gv_insts (gce w) !! i = Some (iface, ip) →
    actual (gv_acs (gce w)) !! i = None → inflight (gv_acs (gce w)) !! i = None →
    (NatIP ac ≠ "" → NatIP ac ∈ gv_reserved (gce w) ∧ ¬ in_use (gce w) (NatIP ac)) →
    wp (AddAccessConfig hostZone i iface ac) w (λ r w', ∃ op ac', r = Val op ∧ sameConfig (gce w) ac ac' ∧
      acStarted hostZone i (Some ac') (gce w) op (gce w'));
}.

(** ** Waiting for operations *)

Section waiting.
Context {W : Type} `{GCELaws W}.
Implicit Types w : W.

(** [op] is done: nothing it would change is still to come. *)
Definition finished (v : gceView) (op : Operation) : Prop :=
  if bool_decide (op_Zone op ≠ "") then pathBase (op_Zone op) = hostZone → notRunning (gv_acs v) (op_Name op)
  else notRunning (gv_fws v) (op_Name op).

Lemma notRunning_settles {V} (s s' : slots V) o : rtc settles s s' → notRunning s o → notRunning s' o.
Proof.
  intros Hs Ho k r Hk. destruct (ed_inflight _ _ _ _ (settles_edited _ _ Hs) _ _ _ Hk) as [[_ Hin]|Hin].
  - by apply not_elem_of_nil in Hin.
  - by apply Ho in Hin.
Qed.

Lemma finished_later v v' op : later v v' → finished v op → finished v' op.
Proof. intros []. unfold finished. case_bool; [intros Hf Hz|]; eapply notRunning_settles; eauto. Qed.

Lemma wp_operationDone op w :
  wp (operationDone op) w (λ ok w', (now w ≤ now w')%Z ∧ later (gce w) (gce w') ∧ (ok = true → finished (gce w') op)).
Proof.
  unfold operationDone, finished. wp_bind. destruct (bool_decide (op_Zone op ≠ ""));
    [wp_use (GetZoneOperation_ok (W := W))|wp_use (GetGlobalOperation_ok (W := W))];
    intros r w' (? & ? & Hr); wp_ret; (split_and!; [done|done|]); intros Hd; destruct r as [res|];
    first [done | apply bool_decide_eq_true in Hd; by eauto].
Qed.

Lemma wp_operationsDone ops w :
  wp (operationsDone ops) w (λ ok w', (now w ≤ now w')%Z ∧ later (gce w) (gce w') ∧
    (ok = true → Forall (finished (gce w')) ops)).
Proof.
  revert w. induction ops as [|op ops IH]; intros w; simpl; [by wp_ret; split_and!|].
  wp_bind. wp_use wp_operationDone. intros ok w1 (Hn1 & Hl1 & Hf1). destruct ok; [|by wp_ret; split_and!].
  wp_use IH. intros ok w2 (Hn2 & Hl2 & Hf2). split_and!; [lia|by etrans|]. intros Hok.
  constructor; [by eapply finished_later; [|apply Hf1]|by apply Hf2].
Qed.

Lemma wp_operationWait ops w Q :
  (∀ w', later (gce w) (gce w') → Forall (finished (gce w')) ops → Q (Val ()) w') →
  (∀ w', later (gce w) (gce w') → Q (Err "timed out") w') →
  wp (operationWait ops) w Q.
Proof.
  intros Hok Herr. unfold operationWait. wp_bind. eapply wp_mono; [apply wp_and|].
  - apply BackoffWaitFor_ok; [|done|lia|done].
    intros w1. eapply wp_mono; [apply wp_operationsDone|]. by intros ? ? (? & _).
  - apply (BackoffWaitFor_inv (λ w', later (gce w) (gce w'))); [done| |].
    + intros w1 Hw1. eapply wp_mono; [apply wp_operationsDone|]. intros ? ? (_ & ? & _). by etrans.
    + intros d w1 Hw1. etrans; [done|]. apply gce_sleep.
  - intros r w' [[(-> & w1 & Hrun)|(-> & _)] Hl]; wp_ret; [|by apply Herr]. apply Hok; [done|].
    destruct (wp_run _ _ _ (wp_operationsDone ops w1)) as (ok & w2 & Heq & _ & _ & Hf).
    rewrite Hrun in Heq. simplify_eq. by apply Hf.
Qed.
End waiting.

(** ** ACLs and firewalls *)

(** A CIDR block of four numbers and a length, and ports that a firewall can have. *)
Definition wfCidr (cidr : string) : Prop := ∃ a b c d n,
  Forall (λ x, lacks "." x ∧ lacks "/" x ∧ lacks "-" x) [a; b; c; d; n] ∧
  cidr = a +:+ "." +:+ b +:+ "." +:+ c +:+ "." +:+ d +:+ "/" +:+ n.
Definition wfPort (p : Z) : Prop := (0 ≤ p < 2 ^ 63)%Z.
Record wfACL (a : ACL) : Prop := {
  wf_cidr : wfCidr (CidrIP a);
  wf_min : wfPort (acl_MinPort a);
  wf_max : wfPort (acl_MaxPort a);
}.

Lemma lacks_dash z : wfPort z → lacks "-" (fmtInt z).
Proof. intros [? _]. apply lacks_fmtInt_nonneg; [|done]. intros d. unfold pretty_N_char. by repeat case_match. Qed.

Lemma wfACL_interVM : wfACL interVM.
Proof.
  split; [|done|done]. exists "172", "16", "0", "0", "12".
  split; [by repeat constructor|done].
Qed.

Lemma dashed_cidr a b c d n :
  Forall (λ x, lacks "." x ∧ lacks "/" x ∧ lacks "-" x) [a; b; c; d; n] →
  ReplaceChar "/" "-" (ReplaceChar "." "-" (a +:+ "." +:+ b +:+ "." +:+ c +:+ "." +:+ d +:+ "/" +:+ n)) =
  a +:+ "-" +:+ b +:+ "-" +:+ c +:+ "-" +:+ d +:+ "-" +:+ n.
Proof.
  rewrite !Forall_cons. intros ([? [? ?]] & [? [? ?]] & [? [? ?]] & [? [? ?]] & [? [? ?]] & _).
  rewrite !ReplaceChar_app. cbn. by rewrite !ReplaceChar_lacks by (rewrite ?ReplaceChar_lacks; done).
Qed.

(** The name determines the ACL. *)
Lemma aclName_inj prvdr x y : wfACL x → wfACL y → aclName prvdr x = aclName prvdr y → x = y.
Proof.
  destruct x as [cx lx hx], y as [cy ly hy].
  intros [(a & b & c & d & n & Hx & Hcx) Hlx Hhx] [(a' & b' & c' & d' & n' & Hy & Hcy) Hly Hhy].
  unfold aclName. cbn [CidrIP acl_MinPort acl_MaxPort] in *. subst cx cy. rewrite !dashed_cidr by done.
  rewrite !app_assoc_s. intros Heq. apply app_inj_s in Heq as [_ Heq]; [|done].
  apply (app_inj_s "-" "-") in Heq as [_ Heq]; [|done].
  rewrite !Forall_cons in Hx, Hy. destruct Hx as ([_ [_ ?]] & [_ [_ ?]] & [_ [_ ?]] & [_ [_ ?]] & [_ [_ ?]] & _).
  destruct Hy as ([_ [_ ?]] & [_ [_ ?]] & [_ [_ ?]] & [_ [_ ?]] & [_ [_ ?]] & _).
  do 6 (apply (cut_eq "-") in Heq as [? Heq]; [|by (done || apply lacks_dash)..]).
  subst. assert (∀ p q, wfPort p → wfPort q → fmtInt p = fmtInt q → p = q) as Hfmt.
  { intros p q Hp Hq Hpq. apply (f_equal Atoi) in Hpq. rewrite !Atoi_fmtInt in Hpq by done. congruence. }
  f_equal; by apply Hfmt.
Qed.

(** A firewall made from an ACL reads back as the ACL. *)
Lemma parseACL_aclFirewall prvdr g :
  wfPort (acl_MinPort (gacl_ACL g)) → wfPort (acl_MaxPort (gacl_ACL g)) → parseACL (aclFirewall prvdr g) = Val g.
Proof.
  destruct g as [name [cidr lo hi]]. cbn [gacl_ACL acl_MinPort acl_MaxPort]. intros Hlo Hhi.
  unfold parseACL, aclFirewall. cbn [SourceRanges Allowed gacl_ACL acl_MinPort acl_MaxPort].
  set (ports := fmtInt lo +:+ "-" +:+ fmtInt hi). assert (ports ≠ "") as Hne by (unfold ports; by destruct (fmtInt lo)).
  assert (allowedPorts "" [mk_FirewallAllowed "tcp" [ports]; mk_FirewallAllowed "udp" [ports]; mk_FirewallAllowed "icmp" []]
    = Val ports) as Hall.
  { cbn. by rewrite (bool_decide_false (ports = "")), (bool_decide_false (ports ≠ ports)) by auto. }
  rewrite bool_decide_false by auto. rewrite Hall.
  assert (Split "-" ports = [fmtInt lo; fmtInt hi]) as ->.
  { unfold ports. change ("-" +:+ fmtInt hi) with (String "-" (fmtInt hi)).
    rewrite Split_cons, Split_lacks by (by apply lacks_dash). done. }
  cbn. by rewrite !Atoi_fmtInt.
Qed.

Lemma parseACL_name fw g : parseACL fw = Val g → gacl_name g = fw_Name fw.
Proof. unfold parseACL. intros Hp. repeat case_match; simplify_eq; done. Qed.

Lemma parseFirewalls_names fws :
  (parseFirewalls fws).2 ++ (gacl_name <$> (parseFirewalls fws).1) ≡ₚ fw_Name <$> fws.
Proof.
  induction fws as [|fw fws IH]; [done|]. simpl. destruct (parseFirewalls fws) as [acls remove]. simpl in *.
  destruct (parseACL fw) as [g|e] eqn:Hp; csimpl; [|by rewrite IH].
  by rewrite <-Permutation_middle, IH, (parseACL_name _ _ Hp).
Qed.

Lemma parseFirewalls_acls fws g : g ∈ (parseFirewalls fws).1 ↔ ∃ fw, fw ∈ fws ∧ parseACL fw = Val g.
Proof.
  induction fws as [|fw fws IH]; [simpl; set_solver|]. simpl. destruct (parseFirewalls fws) as [acls remove]. simpl in *.
  destruct (parseACL fw) as [g'|e] eqn:Hp; simpl; rewrite ?elem_of_cons, IH; split.
  - intros [->|(x & ? & ?)]; eexists; (split; [|done]); set_solver.
  - intros (x & [->|?]%elem_of_cons & ?); [left; congruence|right; eauto].
  - intros (x & ? & ?). eexists. split; [|done]. set_solver.
  - intros (x & [->|?]%elem_of_cons & ?); [congruence|eauto].
Qed.

Lemma parseFirewalls_removed fws k :
  k ∈ (parseFirewalls fws).2 ↔ ∃ fw e, fw ∈ fws ∧ fw_Name fw = k ∧ parseACL fw = Err e.
Proof.
  induction fws as [|fw fws IH]; [simpl; set_solver|]. simpl. destruct (parseFirewalls fws) as [acls remove]. simpl in *.
  destruct (parseACL fw) as [g'|e] eqn:Hp; simpl; rewrite ?elem_of_cons, IH; split.
  - intros (x & e & ? & ? & ?). exists x, e. split_and!; [set_solver|done..].
  - intros (x & e & [->|?]%elem_of_cons & ? & ?); [congruence|eauto].
  - intros [->|(x & e' & ? & ? & ?)]; [exists fw, e|exists x, e']; (split_and!; [set_solver|done..]).
  - intros (x & e' & [->|?]%elem_of_cons & ? & ?); [by left|right; eauto].
Qed.

(** ** Setting ACLs *)

Section acls.
Context `{MapOrder} {W : Type} `{GCELaws W} (prvdr : gceProvider).
Implicit Types w : W.
Notation net := (gce_network prvdr).
Notation fws w := (gv_fws (gce w)).

(** The firewall [fw] opens the ACL [a] on the provider's network: TCP and UDP
    on its ports and ICMP, from its addresses. *)
Record opens (fw : Firewall) (a : ACL) : Prop := {
  op_network : ∃ base, fw_Network fw = base +:+ "global/networks/" +:+ net;
  op_owner : fw_Description fw = net;
  op_source : SourceRanges fw = [CidrIP a];
  op_allowed : let ports := fmtInt (acl_MinPort a) +:+ "-" +:+ fmtInt (acl_MaxPort a) in
    Allowed fw = [mk_FirewallAllowed "tcp" [ports]; mk_FirewallAllowed "udp" [ports]; mk_FirewallAllowed "icmp" []];
}.

(** From [before] to [after] (firewalls by name): the firewalls of the network
    are those of [acls], one each, the others are as they were. *)
Record exactly (acls : list ACL) (before after : string → option Firewall) : Prop := {
  ex_wanted : ∀ a, a ∈ acls → ∃ fw, after (aclName prvdr a) = Some fw ∧ opens fw a;
  ex_only : ∀ k fw, after k = Some fw → fw_Description fw = net → ∃ a, a ∈ acls ∧ k = aclName prvdr a ∧ opens fw a;
  ex_others : ∀ k fw, fw_Description fw ≠ net → after k = Some fw ↔ before k = Some fw;
}.

Lemma opens_parse fw a :
  wfPort (acl_MinPort a) → wfPort (acl_MaxPort a) → fw_Name fw = aclName prvdr a → opens fw a →
  parseACL fw = Val (mk_gACL (aclName prvdr a) a).
Proof.
  intros Hlo Hhi Hn [_ _ Hs Ha]. rewrite <-(parseACL_aclFirewall prvdr (mk_gACL (aclName prvdr a) a)) by done.
  unfold parseACL. rewrite Hn, Hs, Ha. done.
Qed.

Lemma sameRule_opens fw a : sameRule (aclFirewall prvdr (mk_gACL (aclName prvdr a) a)) fw → opens fw a.
Proof. intros [Hn [base Hnet] Hd Hs Ha]. split; [by exists base|done..]. Qed.

Lemma fwStarted_edited k r v op v' :
  fwStarted k r v op v' → op_Zone op = "" ∧ edited {[k := r]} [op_Name op] (gv_fws v) (gv_fws v').
Proof.
  intros (v1 & [Hf _ _ _] & Hz & ->). split; [done|]. apply settles_edited in Hf.
  pose proof (edited_trans _ _ _ _ _ _ _ Hf (edited_put k (op_Name op) r (gv_fws v1))) as He.
  by rewrite (right_id_L ∅ (∪)) in He.
Qed.

Lemma wp_deleteFirewalls names w Q :
  NoDup names → (∀ k, k ∈ names → is_Some (actual (fws w) !! k) ∧ inflight (fws w) !! k = None) →
  (∀ ops e w', Forall (λ op, op_Zone op = "") ops →
     (∀ k, e !! k = if decide (k ∈ names) then Some None else None) →
     edited e (op_Name <$> ops) (fws w) (fws w') → Q (Val ops) w') →
  wp (deleteFirewalls names) w Q.
Proof.
  revert w Q. induction names as [|k names IH]; intros w Q Hnd Hin HQ; simpl.
  { wp_ret. apply (HQ [] ∅); [done|intros k; by rewrite decide_False by apply not_elem_of_nil|].
    by apply settles_edited. }
  apply NoDup_cons in Hnd as [Hk Hnd]. destruct (Hin k) as [Hs Hi]; [left|].
  apply wp_try. wp_use (DeleteFirewall_ok (W := W)); [done|done|].
  intros r w1 (op & -> & [Hz He]%fwStarted_edited). apply wp_try. apply IH; [done| |].
  - intros j Hj. destruct (Hin j) as [Hsj Hij]; [by right|].
    destruct (edited_idle _ _ _ _ j He) as [Hij' ->]; [|done|done]. apply lookup_singleton_ne. by intros <-.
  - intros ops e w2 Hops He2 Hed. wp_ret. apply (HQ (op :: ops) (e ∪ {[k := None]})); [by constructor| |].
    + intros j. rewrite lookup_union, He2. destruct (decide (k = j)) as [->|Hne].
      * rewrite lookup_singleton_eq, decide_False, decide_True by set_solver. done.
      * rewrite lookup_singleton_ne by done. destruct (decide (j ∈ names)).
        -- by rewrite decide_True by (by right).
        -- rewrite decide_False by set_solver. done.
    + by apply (edited_trans _ _ [_] _ _ _ _ He).
Qed.

Lemma wp_insertFirewalls new w Q :
  NoDup (fw_Name <$> new) →
  (∀ k, k ∈ fw_Name <$> new → actual (fws w) !! k = None ∧ inflight (fws w) !! k = None) →
  (∀ ops e w', Forall (λ op, op_Zone op = "") ops →
     (∀ k r, e !! k = Some r → ∃ fw fw', fw ∈ new ∧ fw_Name fw = k ∧ sameRule fw fw' ∧ r = Some fw') →
     (∀ k, k ∈ fw_Name <$> new → is_Some (e !! k)) →
     edited e (op_Name <$> ops) (fws w) (fws w') → Q (Val ops) w') →
  wp (insertFirewalls new) w Q.
Proof.
  revert w Q. induction new as [|fw new IH]; intros w Q Hnd Hin HQ; simpl.
  { wp_ret. apply (HQ [] ∅); [done|done|by intros k ?%not_elem_of_nil|]. by apply settles_edited. }
  csimpl in *. apply NoDup_cons in Hnd as [Hk Hnd]. destruct (Hin (fw_Name fw)) as [Hs Hi]; [left|].
  apply wp_try. wp_use (InsertFirewall_ok (W := W)); [done|done|].
  intros r w1 (op & fw' & -> & Hsame & [Hz He]%fwStarted_edited). apply wp_try. apply IH; [done| |].
  - intros j Hj. destruct (Hin j) as [Hsj Hij]; [by right|].
    destruct (edited_idle _ _ _ _ j He) as [Hij' ->]; [|done|done]. apply lookup_singleton_ne. by intros <-.
  - intros ops e w2 Hops Hsome Hdom Hed. wp_ret.
    apply (HQ (op :: ops) (e ∪ {[fw_Name fw := Some fw']})); [by constructor| | |].
    + intros k r Hk'. apply lookup_union_Some_raw in Hk' as [Hk'|[_ Hk']].
      * destruct (Hsome _ _ Hk') as (x & x' & ? & ?). exists x, x'. split; [by right|done].
      * apply lookup_singleton_Some in Hk' as [<- <-]. exists fw, fw'. split_and!; [left|done..].
    + intros k [->|Hin']%elem_of_cons; apply lookup_union_is_Some.
      * right. rewrite lookup_singleton_eq. done.
      * left. by apply Hdom.
    + by apply (edited_trans _ _ [_] _ _ _ _ He).
Qed.

Notation wanted a := (mk_gACL (aclName prvdr a) a).

(** The plan: the firewalls that are not wanted go, the ACLs without one get one. *)
Lemma planSetACLs_spec n (L : list Firewall) acls adds removes :
  planSetACLs n prvdr L acls = (adds, removes) → NoDup (fw_Name <$> L) → Forall wfACL acls →
  NoDup removes ∧ NoDup (fw_Name <$> adds) ∧
  (∀ k, k ∈ removes ↔ ∃ fw, fw ∈ L ∧ fw_Name fw = k ∧ ∀ a, a ∈ acls → parseACL fw ≠ Val (wanted a)) ∧
  (∀ fw, fw ∈ adds ↔ ∃ a, a ∈ acls ∧ fw = aclFirewall prvdr (wanted a) ∧
    ∀ fw', fw' ∈ L → parseACL fw' ≠ Val (wanted a)).
Proof.
  unfold planSetACLs. pose proof (parseFirewalls_names L) as Hnames.
  pose proof (parseFirewalls_acls L) as Hacls. pose proof (parseFirewalls_removed L) as Hrem.
  destruct (parseFirewalls L) as [cloud bad]. simpl in *.
  destruct (HashJoin n _ cloud id id) as [[pairs ll] lr] eqn:Hj. intros [= <- <-] Hnd Hwf.
  apply HashJoin_ok in Hj. rewrite <-Hnames in Hnd.
  assert (NoDup (id <$> cloud)) as Hcl.
  { rewrite list_fmap_id. apply NoDup_app in Hnd as (_ & _ & Hnd). by eapply NoDup_fmap_1. }
  destruct (joined_leftovers _ _ _ _ _ _ _ Hj Hcl) as (Hll & Hlr & Hl & Hr).
  rewrite !list_fmap_id in Hll, Hlr. setoid_rewrite list_fmap_id in Hl. setoid_rewrite list_fmap_id in Hr.
  assert (∀ g, g ∈ ll → ∃ a, a ∈ acls ∧ g = wanted a) as Hwant.
  { intros g [(a & -> & Ha)%list_elem_of_fmap _]%Hl. eauto. }
  split_and!.
  - rewrite <-(hj_rights _ _ _ _ _ _ _ Hj), fmap_app, Permutation_app_swap_app in Hnd.
    by apply NoDup_app in Hnd as (_ & _ & ?).
  - rewrite <-list_fmap_compose. apply NoDup_fmap_2_strong; [|done].
    intros x y Hx Hy. destruct (Hwant x Hx) as (a & Ha & ->), (Hwant y Hy) as (b & Hb & ->). simpl. intros Heq.
    rewrite Forall_forall in Hwf. by rewrite (aclName_inj prvdr a b) by auto.
  - intros k. rewrite elem_of_app, Hrem, list_elem_of_fmap. split.
    + intros [(fw & e & Hfw & Hk & He)|(g & -> & [Hg Hng]%Hr)].
      * exists fw. split_and!; [done..|]. intros a _. congruence.
      * apply Hacls in Hg as (fw & Hfw & Hp). exists fw. split_and!; [done|by symmetry; apply parseACL_name|].
        intros a Ha Heq. destruct Hng. apply list_elem_of_fmap. exists a. split; [congruence|done].
    + intros (fw & Hfw & Hk & Hno). destruct (parseACL fw) as [g|e] eqn:Hp; [right|left; eauto].
      exists g. split; [by rewrite (parseACL_name _ _ Hp)|]. apply Hr. split; [apply Hacls; eauto|].
      intros (a & -> & Ha)%list_elem_of_fmap. by destruct (Hno a Ha).
  - intros fw. rewrite list_elem_of_fmap. split.
    + intros (g & -> & Hg). destruct (Hwant g Hg) as (a & Ha & ->). exists a. split_and!; [done..|].
      intros fw' Hfw' Hp. apply Hl in Hg as [_ Hng]. destruct Hng. apply Hacls. eauto.
    + intros (a & Ha & -> & Hno). eexists. split; [done|]. apply Hl. split; [by apply (list_elem_of_fmap_2 (λ a, wanted a))|].
      rewrite Hacls. intros (fw' & Hfw' & Hp). by destruct (Hno fw' Hfw').
Qed.

(** Where there is already a firewall under the name of a wanted ACL, it is that ACL's. *)
Definition namesFree (acls : list ACL) (before : string → option Firewall) : Prop :=
  ∀ a fw, a ∈ acls → before (aclName prvdr a) = Some fw → opens fw a.

(** Firewalls are stored under their names. *)
Definition fwNamed (s : slots Firewall) : Prop := ∀ k fw, actual s !! k = Some fw → fw_Name fw = k.

Lemma exactly_planned n acls before L adds removes (del ins : gmap string (option Firewall)) after :
  planSetACLs n prvdr L acls = (adds, removes) → Forall wfACL acls → namesFree acls before →
  (∀ k fw, before k = Some fw → fw_Name fw = k) → NoDup (fw_Name <$> L) →
  (∀ fw, fw ∈ L ↔ fw_Description fw = net ∧ ∃ k, before k = Some fw) →
  (∀ k, del !! k = if decide (k ∈ removes) then Some None else None) →
  (∀ k r, ins !! k = Some r → ∃ fw fw', fw ∈ adds ∧ fw_Name fw = k ∧ sameRule fw fw' ∧ r = Some fw') →
  (∀ k, k ∈ fw_Name <$> adds → is_Some (ins !! k)) →
  (∀ k, after k = match (ins ∪ del) !! k with Some r => r | None => before k end) →
  exactly acls before after.
Proof.
  intros Hplan Hwf Hfree Hnamed Hnd HL Hdel Hins Hdom Hafter.
  destruct (planSetACLs_spec _ _ _ _ _ Hplan Hnd Hwf) as (_ & _ & Hrem & Hadd). rewrite Forall_forall in Hwf.
  assert (∀ k fw, ins !! k = None → after k = Some fw → before k = Some fw ∧ k ∉ removes) as Hkeep.
  { intros k fw Hk. rewrite Hafter, lookup_union, Hk, (left_id_L None _), Hdel. by case_decide. }
  assert (∀ k r, ins !! k = Some r → ∃ a fw, a ∈ acls ∧ k = aclName prvdr a ∧ after k = Some fw ∧ opens fw a) as Hnew.
  { intros k r Hk. destruct (Hins _ _ Hk) as (fw & fw' & (a & Ha & -> & _)%Hadd & <- & Hs & ->). exists a, fw'.
    split_and!; [done|done|by rewrite Hafter, (lookup_union_Some_l _ _ _ _ Hk)|by apply sameRule_opens]. }
  split.
  - intros a Ha. destruct (ins !! aclName prvdr a) as [r|] eqn:Hi.
    { destruct (Hnew _ _ Hi) as (b & fw & Hb & Heq & ?). apply aclName_inj in Heq as ->; eauto. }
    assert (∃ fw, fw ∈ L ∧ parseACL fw = Val (wanted a)) as (fw & Hfw & Hp).
    { destruct (decide (Exists (λ fw, fw_Name fw = aclName prvdr a) adds)) as [(fw & Hfw & Hn)%Exists_exists|Hno].
      - destruct (Hdom (aclName prvdr a)) as [? ?]; [|congruence]. rewrite <-Hn. by apply list_elem_of_fmap_2.
      - destruct (parseFirewalls_acls L (wanted a)) as [Hto Hfrom].
        destruct (decide (wanted a ∈ (parseFirewalls L).1)) as [Hin|Hnin]; [by apply Hto|].
        destruct Hno. apply Exists_exists. exists (aclFirewall prvdr (wanted a)). split; [|done]. apply Hadd.
        exists a. split_and!; [done..|]. intros fw' Hfw' Hp. destruct Hnin. eauto. }
    apply HL in Hfw as Hfw'. destruct Hfw' as [Hd [k Hk]]. pose proof (Hnamed _ _ Hk) as Hname.
    rewrite <-(parseACL_name _ _ Hp) in Hname. simpl in Hname. subst k. exists fw. split; [|by apply Hfree].
    rewrite Hafter, lookup_union, Hi, (left_id_L None _), Hdel, decide_False; [done|].
    intros (fw' & Hfw' & Hn & Hno)%Hrem. apply HL in Hfw' as [_ [k' Hk']]. pose proof (Hnamed _ _ Hk'). subst k'.
    rewrite Hn, Hk in Hk'. simplify_eq. by apply (Hno a Ha).
  - intros k fw Hk Hd. destruct (ins !! k) as [r|] eqn:Hi.
    { destruct (Hnew _ _ Hi) as (a & fw' & Ha & -> & Heq & ?). exists a. by simplify_eq. }
    destruct (Hkeep _ _ Hi Hk) as [Hb Hnr]. pose proof (Hnamed _ _ Hb) as Hn.
    destruct (decide (Exists (λ a, parseACL fw = Val (wanted a)) acls)) as [(a & Ha & Hp)%Exists_exists|Hno].
    + exists a. pose proof (parseACL_name _ _ Hp) as Hpn. simpl in *. assert (k = aclName prvdr a) as -> by congruence.
      split_and!; [done|done|by apply Hfree].
    + destruct Hnr. apply Hrem. exists fw. split_and!; [apply HL; eauto|done|]. intros a Ha Hp. destruct Hno.
      apply Exists_exists. eauto.
  - intros k fw Hd. destruct (ins !! k) as [r|] eqn:Hi.
    { destruct (Hnew _ _ Hi) as (a & fw' & Ha & -> & Heq & Hren). rewrite Heq. split; intros ?; simplify_eq.
      - by destruct Hren. - destruct (Hfree a fw Ha); done. }
    split; [by intros [? _]%Hkeep|]. intros Hb.
    rewrite Hafter, lookup_union, Hi, (left_id_L None _), Hdel, decide_False; [done|].
    intros (fw' & Hfw' & Hn & Hno)%Hrem. apply HL in Hfw' as [Hd' [k' Hk']]. pose proof (Hnamed _ _ Hk'). subst k'.
    rewrite Hn, Hb in Hk'. by simplify_eq.
Qed.

Lemma exactly_ext acls before f g : (∀ k, f k = g k) → exactly acls before f → exactly acls before g.
Proof.
  intros Hfg [Hw Ho Hx]. split.
  - intros a. rewrite <-Hfg. apply Hw.
  - intros k fw. rewrite <-Hfg. apply Ho.
  - intros k fw. rewrite <-Hfg. apply Hx.
Qed.

Lemma wp_gce_setACLs n acls w Q :
  inflight (fws w) = ∅ → fwNamed (fws w) → Forall wfACL acls → namesFree acls (λ k, actual (fws w) !! k) →
  (∀ w', inflight (fws w') = ∅ → exactly acls (λ k, actual (fws w) !! k) (λ k, actual (fws w') !! k) → Q (Val ()) w') →
  (∀ w', exactly acls (λ k, actual (fws w) !! k) (eventual (fws w')) → Q (Err "timed out") w') →
  wp (gce_setACLs prvdr n acls) w Q.
Proof.
  intros Hidle Hnamed Hwf Hfree HQ Herr. unfold gce_setACLs. wp_bind. wp_use (ListFirewalls_ok (W := W)).
  intros r w1 ([Hl1 _ _ _] & L & -> & HL). apply settles_edited in Hl1.
  destruct (edited_settled _ _ _ _ Hl1 Hidle) as [Hi1 _]; [by intros ? ? ? _ ?%not_elem_of_nil|].
  assert (∀ k, actual (fws w1) !! k = actual (fws w) !! k) as Ha1.
  { intros k. apply (edited_idle _ _ _ _ k Hl1); by rewrite ?Hidle, lookup_empty. }
  apply map_eq in Ha1. unfold fwNamed in Hnamed. rewrite <-Ha1 in *.
  assert (∀ fw, fw ∈ L ↔ fw_Description fw = net ∧ ∃ k, actual (fws w1) !! k = Some fw) as HL'.
  { intros fw. by rewrite HL, list_elem_of_filter, elem_of_vals. }
  assert (NoDup (fw_Name <$> L)) as Hnd.
  { assert (NoDup (fw_Name <$> vals (actual (fws w1)))) as Hv by (apply keyed_NoDup; intros k fw; apply Hnamed).
    rewrite HL. apply NoDup_fmap_2_strong; [|by eapply NoDup_filter, NoDup_fmap_1].
    intros x y [_ Hx]%list_elem_of_filter [_ Hy]%list_elem_of_filter. by apply (NoDup_fmap_elem fw_Name (vals (actual (fws w1)))). }
  destruct (planSetACLs n prvdr L acls) as [adds removes] eqn:Hplan.
  destruct (planSetACLs_spec _ _ _ _ _ Hplan Hnd Hwf) as (Hndr & Hnda & Hrem & Hadd).
  assert (∀ k, k ∈ removes → is_Some (actual (fws w1) !! k)) as Hrem'.
  { intros k (fw & Hfw & <- & _)%Hrem. apply HL' in Hfw as [_ [k Hk]]. by rewrite (Hnamed _ _ Hk). }
  assert (∀ k, k ∈ fw_Name <$> adds → actual (fws w1) !! k = None) as Hadd'.
  { intros k (fw & -> & (a & Ha & -> & Hno)%Hadd)%list_elem_of_fmap. apply eq_None_not_Some. intros [fw Hfw].
    pose proof (Hfree a fw Ha Hfw) as Hop. rewrite Forall_forall in Hwf.
    apply (Hno fw); [apply HL'; split; [apply Hop|eauto]|]. by apply opens_parse; [apply Hwf..|apply Hnamed|]. }
  apply wp_try, wp_deleteFirewalls; [done|intros k Hk; rewrite Hi1, lookup_empty; auto|].
  intros ops1 del w2 Hz1 Hdel He1. apply wp_try, wp_insertFirewalls; [done| |].
  { intros k Hk. destruct (edited_idle _ _ _ _ k He1) as [-> ->]; [|by rewrite Hi1, lookup_empty|auto].
    rewrite Hdel, decide_False; [done|]. intros Hk'%Hrem'. rewrite Hadd' in Hk' by done. by destruct Hk'. }
  intros ops2 ins w3 Hz2 Hins Hdom He2. pose proof (edited_trans _ _ _ _ _ _ _ He1 He2) as He.
  assert (∀ w4, later (gce w3) (gce w4) → edited (ins ∪ del) (op_Name <$> ops1 ++ ops2) (fws w1) (fws w4) ∧
    exactly acls (λ k, actual (fws w1) !! k) (eventual (fws w4))) as Hafter.
  { intros w4 [Hl _ _ _]. apply settles_edited in Hl. pose proof (edited_trans _ _ _ _ _ _ _ He Hl) as He4.
    rewrite (left_id_L ∅ (∪)), app_nil_r, <-fmap_app in He4. split; [done|].
    eapply exactly_planned; [done|done|done|exact Hnamed|done|done|done|done|done|].
    intros k. rewrite (ed_eventual _ _ _ _ He4). by rewrite eventual_idle. }
  apply wp_operationWait.
  - intros w4 Hl Hfin. destruct (Hafter w4 Hl) as [He4 Hex].
    destruct (edited_settled _ _ _ _ He4 Hi1) as [Hi4 Ha4].
    { intros k o r Hk (op & -> & Hop)%list_elem_of_fmap. rewrite Forall_forall in Hfin. specialize (Hfin op Hop).
      unfold finished in Hfin. rewrite bool_decide_false in Hfin.
      - by eapply Hfin.
      - assert (op_Zone op = ""); [|by auto]. rewrite Forall_forall in Hz1, Hz2.
        by apply elem_of_app in Hop as [?%Hz1|?%Hz2]. }
    apply HQ; [done|]. eapply exactly_ext; [|exact Hex]. done.
  - intros w4 Hl. apply Herr, Hafter, Hl.
Qed.

End acls.
