(* ===== verification/GceIps.v ===== *)
(** * Package google: floating IPs

    [UpdateFloatingIPs]: what it does when the addresses are free, and that it
    never gets past a machine whose address is still another's. *)

From S2P Require Import Prelude GoStrings Join Blueprint DbRows CloudJoin Backoff Providers Dns Gce Slots GceSpec.

Section ips.
Context {W : Type} `{GCELaws W} (prvdr : gceProvider).
Implicit Types (w : W) (m : Machine).
Notation acs w := (gv_acs (gce w)).

(** An instance with the access configuration [ac] is listed with the floating address [ip]. *)
Definition showsIP (ac : AccessConfig) (ip : string) : Prop :=
  ∀ inst ni, NetworkInterfaces inst = [ni] → AccessConfigs ni = [ac] → m_FloatingIP (gceMachine prvdr inst) = ip.

(** [m] is an instance with an access configuration, and the address it is to get
    (if any) is reserved and nobody's. *)
Record ready (v : gceView) m : Prop := {
  rd_inst : is_Some (gv_insts v !! m_CloudID m);
  rd_ac : is_Some (actual (gv_acs v) !! m_CloudID m);
  rd_ip : m_FloatingIP m ≠ "" → m_FloatingIP m ∈ gv_reserved v ∧ ¬ in_use v (m_FloatingIP m);
}.

Lemma statusMap_lookup addrs ip :
  ip ∈ addr_Address <$> addrs → ∃ a, a ∈ addrs ∧ addr_Address a = ip ∧ statusMap addrs !! ip = Some (addr_Status a).
Proof.
  unfold statusMap. induction addrs as [|a addrs IH] using rev_ind; [by intros ?%not_elem_of_nil|].
  rewrite fmap_app, foldl_app. simpl. intros Hin. destruct (decide (addr_Address a = ip)) as [<-|Hne].
  - exists a. split_and!; [set_solver|done|by rewrite lookup_insert_eq].
  - destruct IH as (b & ? & ? & ?); [set_solver|]. exists b. split_and!; [set_solver|done|by rewrite lookup_insert_ne].
Qed.

(** With nothing in flight, nothing changes by itself. *)
Lemma later_idle v v' : later v v' → inflight (gv_acs v) = ∅ → inflight (gv_acs v') = ∅ ∧ actual (gv_acs v') = actual (gv_acs v).
Proof.
  intros [_ Ha _ _] Hi. apply settles_edited in Ha. split.
  - apply map_empty. intros k. apply (edited_idle _ _ _ _ k Ha); by rewrite ?Hi, lookup_empty.
  - apply map_eq. intros k. apply (edited_idle _ _ _ _ k Ha); by rewrite ?Hi, lookup_empty.
Qed.

Lemma in_use_idle v ip : inflight (gv_acs v) = ∅ → in_use v ip ↔ ∃ i ac, actual (gv_acs v) !! i = Some ac ∧ NatIP ac = ip.
Proof.
  intros Hi. unfold in_use. setoid_rewrite eventual_idle; [|done].
  split; intros (i & ac & ?); exists i, ac; [tauto|]. naive_solver.
Qed.

Lemma in_use_later v v' ip : later v v' → inflight (gv_acs v) = ∅ → in_use v' ip ↔ in_use v ip.
Proof.
  intros Hl Hi. destruct (later_idle _ _ Hl Hi) as [Hi' Ha']. rewrite !in_use_idle by done. by rewrite Ha'.
Qed.

Lemma ready_later v v' m : later v v' → inflight (gv_acs v) = ∅ → ready v m → ready v' m.
Proof.
  intros Hl Hi [? ? ?]. destruct (later_idle _ _ Hl Hi) as [_ Ha']. split.
  - by rewrite (later_insts _ _ Hl).
  - by rewrite Ha'.
  - rewrite (later_reserved _ _ Hl), in_use_later by done. done.
Qed.

(** One operation on one access configuration, and waiting for it. *)
Lemma acStarted_edited i r v op v' :
  acStarted hostZone i r v op v' → op_Zone op ≠ "" ∧ pathBase (op_Zone op) = hostZone ∧
  edited {[i := r]} [op_Name op] (gv_acs v) (gv_acs v') ∧ gv_insts v' = gv_insts v ∧ gv_reserved v' = gv_reserved v.
Proof.
  destruct hostZone_ok as [Hl Hne]. intros (v1 & base & [_ Ha Hi Hr] & Hz & ->). split_and!; [| | |done|done].
  - rewrite Hz. by destruct base.
  - rewrite Hz. by apply pathBase_app.
  - apply settles_edited in Ha.
    pose proof (edited_trans _ _ _ _ _ _ _ Ha (edited_put i (op_Name op) r (gv_acs v1))) as He.
    by rewrite (right_id_L ∅ (∪)) in He.
Qed.

Lemma wp_operationWaitOr err op i r v w Q :
  acStarted hostZone i r v op (gce w) → inflight (gv_acs v) = ∅ →
  (∀ w', inflight (acs w') = ∅ → actual (acs w') = partial_alter (λ _, r) i (actual (gv_acs v)) →
     gv_insts (gce w') = gv_insts v → gv_reserved (gce w') = gv_reserved v → Q (Val ()) w') →
  (∀ w', (∀ j, j ≠ i → actual (acs w') !! j = actual (gv_acs v) !! j) → Q (Err err) w') →
  wp (operationWaitOr err op) w Q.
Proof.
  intros (Hz & Hb & He & Hin & Hre)%acStarted_edited Hi HQ Herr. unfold operationWaitOr. wp_bind.
  assert (∀ w', later (gce w) (gce w') → edited {[i := r]} [op_Name op] (gv_acs v) (acs w')) as He'.
  { intros w' [_ Ha _ _]. apply settles_edited in Ha. pose proof (edited_trans _ _ _ _ _ _ _ He Ha) as Het.
    by rewrite (left_id_L ∅ (∪)), app_nil_r in Het. }
  apply wp_operationWait.
  - intros w' Hl Hf. wp_ret. specialize (He' w' Hl). rewrite Forall_singleton in Hf. unfold finished in Hf.
    rewrite bool_decide_true in Hf by done. destruct (edited_settled _ _ _ _ He' Hi) as [Hi' Ha'].
    { intros k o r' Hk ->%list_elem_of_singleton. by apply (Hf Hb) in Hk. }
    apply HQ; [done| |by rewrite (later_insts _ _ Hl)|by rewrite (later_reserved _ _ Hl)].
    apply map_eq. intros k. rewrite Ha', (ed_eventual _ _ _ _ He'). destruct (decide (i = k)) as [->|Hne].
    + by rewrite lookup_singleton_eq, lookup_partial_alter_eq.
    + by rewrite lookup_singleton_ne, lookup_partial_alter_ne, eventual_idle.
  - intros w' Hl. wp_ret. apply Herr. intros j Hj. apply (edited_idle _ _ _ _ j (He' w' Hl)).
    + by apply lookup_singleton_ne.
    + by rewrite Hi, lookup_empty.
Qed.

Definition removeTimeout : string := "timed out waiting for access config to be removed".
Definition assignTimeout : string := "timed out waiting for new access config to be assigned".

Lemma NatIP_newAccessConfig ip : NatIP (newAccessConfig ip) = ip.
Proof. unfold newAccessConfig. by case_bool. Qed.

Lemma checkStatus_free status ip : (ip ≠ "" → status !! ip = Some "RESERVED") → checkStatus status ip = Val ().
Proof. intros Hs. unfold checkStatus. case_bool as [Hne|]; [|done]. by rewrite (Hs Hne). Qed.

Lemma sameConfig_shows v ip ac : sameConfig v (newAccessConfig ip) ac → showsIP ac ip.
Proof.
  intros [Hn Hg _] inst ni Hni Hac. unfold gceMachine, getNetworkConfig. rewrite Hni, Hac. simpl.
  rewrite NatIP_newAccessConfig in Hg. rewrite Hn. unfold newAccessConfig. case_bool as [->|Hne]; [done|]. by apply Hg.
Qed.

Context (Hzone : gce_zone prvdr = hostZone).

Lemma wp_updateFloatingIP status m w Q :
  inflight (acs w) = ∅ → ready (gce w) m → (m_FloatingIP m ≠ "" → status !! m_FloatingIP m = Some "RESERVED") →
  (∀ w' ac, inflight (acs w') = ∅ → actual (acs w') = <[m_CloudID m := ac]> (actual (acs w)) →
     sameConfig (gce w) (newAccessConfig (m_FloatingIP m)) ac →
     gv_insts (gce w') = gv_insts (gce w) → gv_reserved (gce w') = gv_reserved (gce w) → Q (Val ()) w') →
  (∀ e w', e ∈ [removeTimeout; assignTimeout] →
     (∀ j, j ≠ m_CloudID m → actual (acs w') !! j = actual (acs w) !! j) → Q (Err e) w') →
  wp (updateFloatingIP prvdr status m) w Q.
Proof.
  intros Hi [[[iface ip] Hinst] [ac Hac] Hip] Hs HQ Herr. unfold updateFloatingIP. rewrite Hzone.
  apply wp_try. wp_ret. rewrite (checkStatus_free _ _ Hs).
  apply wp_try. wp_use (GetInstance_ok (W := W)); [done|]. intros r w1 (Hl1 & inst & ni & -> & Hni & <- & Hacs).
  destruct (later_idle _ _ Hl1 Hi) as [Hi1 Ha1]. rewrite Ha1, Hac in Hacs. simpl in Hacs.
  apply wp_try. wp_ret. unfold getNetworkConfig. rewrite Hni, Hacs. simpl.
  apply wp_try. wp_use (DeleteAccessConfig_ok (W := W)).
  { by rewrite (later_insts _ _ Hl1). } { by rewrite Ha1. } { by rewrite Hi1. }
  intros r w2 (op & -> & Hst). apply wp_try. eapply wp_operationWaitOr; [done|done| |].
  2:{ intros w3 Hj. apply Herr; [left|]. intros j Hne. by rewrite Hj, Ha1. }
  intros w3 Hi3 Ha3 Hin3 Hre3. rewrite Ha1 in Ha3.
  apply wp_try. wp_use (AddAccessConfig_ok (W := W)).
  { by rewrite Hin3, (later_insts _ _ Hl1). } { by rewrite Ha3, lookup_partial_alter_eq. } { by rewrite Hi3. }
  { rewrite NatIP_newAccessConfig, Hre3, (later_reserved _ _ Hl1), in_use_idle by done. intros Hne.
    destruct (Hip Hne) as [? Hfree]. split; [done|]. rewrite in_use_idle in Hfree by done. intros (i & x & Hx & Hx').
    destruct Hfree. exists i, x. split; [|done]. rewrite Ha3 in Hx. destruct (decide (m_CloudID m = i)) as [<-|Hni'].
    - by rewrite lookup_partial_alter_eq in Hx.
    - by rewrite lookup_partial_alter_ne in Hx. }
  intros r w4 (op2 & ac' & -> & Hsame & Hst4). eapply wp_operationWaitOr; [done|done| |].
  - intros w5 Hi5 Ha5 Hin5 Hre5. eapply (HQ w5 ac'); [done| | | |].
    + rewrite Ha5, Ha3. apply map_eq. intros k. destruct (decide (m_CloudID m = k)) as [<-|Hne].
      * by rewrite lookup_partial_alter_eq, lookup_insert_eq.
      * by rewrite !lookup_partial_alter_ne, lookup_insert_ne.
    + destruct Hsame as [? ? Hch]. split; [done|done|]. by rewrite Hre3, (later_reserved _ _ Hl1) in Hch.
    + by rewrite Hin5, Hin3, (later_insts _ _ Hl1).
    + by rewrite Hre5, Hre3, (later_reserved _ _ Hl1).
  - intros w5 Hj. apply Herr; [right; left|]. intros j Hne. rewrite Hj, Ha3 by done. by apply lookup_partial_alter_ne.
Qed.

Lemma wp_updateFloatingIPsLoop status machines w :
  inflight (acs w) = ∅ → Forall (ready (gce w)) machines → NoDup (m_CloudID <$> machines) →
  NoDup (filter (λ ip, ip ≠ "") (m_FloatingIP <$> machines)) →
  Forall (λ m, m_FloatingIP m ≠ "" → status !! m_FloatingIP m = Some "RESERVED") machines →
  wp (updateFloatingIPsLoop prvdr status machines) w (λ r w',
    (∀ i, i ∉ m_CloudID <$> machines → actual (acs w') !! i = actual (acs w) !! i) ∧
    (r = Val () ∧ Forall (λ m, ∃ ac, actual (acs w') !! m_CloudID m = Some ac ∧ showsIP ac (m_FloatingIP m)) machines ∨
     ∃ e, e ∈ [removeTimeout; assignTimeout] ∧ r = Err e)).
Proof.
  revert w. induction machines as [|m machines IH]; intros w Hi Hready Hnd Hips Hst; simpl.
  { wp_ret. split; [done|by left]. }
  rewrite Forall_cons in Hready, Hst. destruct Hready as [Hr Hready], Hst as [Hs Hst]. csimpl in *.
  apply NoDup_cons in Hnd as [Hnm Hnd].
  assert (NoDup (filter (λ ip, ip ≠ "") (m_FloatingIP <$> machines)) ∧
    (m_FloatingIP m ≠ "" → m_FloatingIP m ∉ m_FloatingIP <$> machines)) as [Hips' Hfresh].
  { rewrite filter_cons in Hips. case_decide as Hne; [|by split; [|intros ?; destruct Hne]].
    apply NoDup_cons in Hips as [Hn ?]. split; [done|]. intros _ Hin. apply Hn. by apply list_elem_of_filter. }
  apply wp_try. apply wp_updateFloatingIP; [done|done|done| |].
  - intros w' ac Hi' Ha' Hsame Hin' Hre'. wp_use IH; [done| |done|done|done|].
    + rewrite Forall_forall in Hready |- *. intros m' Hm'. destruct (Hready m' Hm') as [? ? Hip'].
      assert (m_CloudID m ≠ m_CloudID m') as Hne. { intros Heq. apply Hnm. rewrite Heq. by apply list_elem_of_fmap_2. }
      split; [by rewrite Hin'|by rewrite Ha', lookup_insert_ne|]. intros Hne'. rewrite Hre', in_use_idle, Ha' by done.
      destruct (Hip' Hne') as [Hres Hnu]. split; [done|]. rewrite in_use_idle in Hnu by done.
      intros (i & x & [[<- <-]|[_ Hx]]%lookup_insert_Some & Heq); [|by destruct Hnu; eauto].
      destruct Hsame as [_ Hg Hc]. rewrite NatIP_newAccessConfig in Hg, Hc.
      destruct (decide (m_FloatingIP m = "")) as [He|He]; [apply Hc in He; congruence|].
      apply (Hfresh He). rewrite <-(Hg He), Heq. by apply list_elem_of_fmap_2.
    + intros r w'' [Hoth Hres]. split.
      * intros i Hin. rewrite Hoth by set_solver. rewrite Ha'. apply lookup_insert_ne. set_solver.
      * destruct Hres as [[-> Hall]|?]; [left|by right]. split; [done|]. constructor; [|done].
        exists ac. split; [|by eapply sameConfig_shows]. rewrite Hoth by done. by rewrite Ha', lookup_insert_eq.
  - intros e w' He Hj. split; [|right; eauto]. intros i Hin. apply Hj. set_solver.
Qed.

(** When the addresses asked for are free, [UpdateFloatingIPs] assigns
    them.  If no access configuration has a change in flight, the machines are
    different instances with one access configuration each, and the addresses
    asked for are distinct, reserved and nobody's, then the call returns nil or
    one of the two timeouts.  With nil, every machine is listed with the
    address it was to have (none if it was to have none); in any case the
    instances that were not named keep what they had. *)
Theorem gce_UpdateFloatingIPs_assigns machines w :
  inflight (acs w) = ∅ → Forall (ready (gce w)) machines → NoDup (m_CloudID <$> machines) →
  NoDup (filter (λ ip, ip ≠ "") (m_FloatingIP <$> machines)) →
  wp (gce_UpdateFloatingIPs prvdr machines) w (λ r w',
    (∀ i, i ∉ m_CloudID <$> machines → actual (acs w') !! i = actual (acs w) !! i) ∧
    (r = Val () ∧ Forall (λ m, ∃ ac, actual (acs w') !! m_CloudID m = Some ac ∧ showsIP ac (m_FloatingIP m)) machines ∨
     ∃ e, e ∈ [removeTimeout; assignTimeout] ∧ r = Err e)).
Proof.
  intros Hi Hready Hnd Hips. unfold gce_UpdateFloatingIPs. wp_bind. wp_use (ListFloatingIPs_ok (W := W)).
  intros r w1 (Hl1 & addrs & -> & Haddr & Hstat). destruct (later_idle _ _ Hl1 Hi) as [Hi1 Ha1].
  assert (Forall (ready (gce w1)) machines) as Hready1.
  { eapply Forall_impl; [exact Hready|]. intros m. by apply ready_later. }
  rewrite <-Ha1. apply wp_updateFloatingIPsLoop; [done|done|done|done|].
  eapply Forall_impl; [exact Hready1|]. intros m [_ _ Hip] Hne. destruct (Hip Hne) as [Hres Hfree].
  apply Haddr, statusMap_lookup in Hres as (a & Ha & Heq & ->). f_equal.
  rewrite Forall_forall in Hstat. apply (Hstat a Ha). by rewrite Heq.
Qed.

(** One call cannot free an address for a machine that is named before its
    owner, and neither can any later call: if the first machine is to get an
    address that is in use (by a machine named later in the list, say, that is to
    give it up), then however often the cloud loop calls [UpdateFloatingIPs] with
    that list, each call is an error and nothing changes. *)
Theorem gce_UpdateFloatingIPs_stuck m machines k w :
  inflight (acs w) = ∅ → m_FloatingIP m ≠ "" → in_use (gce w) (m_FloatingIP m) →
  wp (mapM_st (λ _, gce_UpdateFloatingIPs prvdr (m :: machines)) (seq 0 k)) w (λ rs w',
    Forall (λ r, ∃ e, r = Err e) rs ∧ length rs = k ∧ actual (acs w') = actual (acs w)).
Proof.
  intros Hi Hne Hused. pose proof (length_seq k 0) as Hk. revert Hk.
  generalize (seq 0 k). intros rounds <-. revert w Hi Hused.
  induction rounds as [|x rounds IH]; intros w Hi Hused; simpl; [by wp_ret|]. wp_bind.
  unfold gce_UpdateFloatingIPs at 1. wp_bind. wp_use (ListFloatingIPs_ok (W := W)).
  intros r w1 (Hl1 & addrs & -> & Haddr & Hstat). destruct (later_idle _ _ Hl1 Hi) as [Hi1 Ha1].
  assert (∃ e, checkStatus (statusMap addrs) (m_FloatingIP m) = Err e) as [e He].
  { unfold checkStatus. rewrite bool_decide_true by done. destruct (statusMap addrs !! _) as [s|] eqn:Hs; [|eauto].
    case_bool; [eauto|]. case_bool as [|Hres]; [eauto|]. exfalso. apply dec_stable in Hres as ->.
    assert (m_FloatingIP m ∈ addr_Address <$> addrs) as Hin.
    { clear -Hs. unfold statusMap in Hs. induction addrs as [|a addrs IH] using rev_ind; [done|].
      rewrite foldl_app in Hs. simpl in Hs. rewrite fmap_app. apply lookup_insert_Some in Hs as [[<- _]|[_ ?]]; set_solver. }
    apply statusMap_lookup in Hin as (a & Ha & Heq & Hs'). rewrite Hs in Hs'. injection Hs' as Hs'.
    rewrite Forall_forall in Hstat. apply (Hstat a Ha); [done|]. rewrite Heq, in_use_later by done. done. }
  simpl. apply wp_try. unfold updateFloatingIP. apply wp_try. wp_ret. rewrite He.
  wp_bind. wp_use IH; [done|by apply (in_use_later _ _ _ Hl1 Hi)|]. intros rs w2 (Hall & Hlen & Ha2). wp_ret.
  split_and!; [constructor; eauto|simpl; by rewrite Hlen|by rewrite Ha2].
Qed.
End ips.
