(* ===== verification/GceSim.v ===== *)
(** * Package google: a simulated GCE

    A client that satisfies the laws: it accepts requests as operations and
    finishes them while the caller sleeps.  The theorems on concrete views. *)

From S2P Require Import Prelude GoStrings Join Blueprint DbRows CloudJoin Backoff Providers Dns Gce Slots GceSpec GceIps.

Record simGCE := mk_simGCE { sg_view : gceView; sg_clock : Z; sg_next : nat; sg_nets : list gceNetwork; sg_insts : list gceInstance }.

Definition settle1 {V} (s : slots V) (k : string) : slots V :=
  match inflight s !! k with
  | Some (o, r) => mk_slots (partial_alter (λ _, r) k (actual s)) (delete k (inflight s))
  | None => s
  end.
Definition settleAll {V} (s : slots V) : slots V := foldl settle1 s (map_to_list (inflight s)).*1.

Lemma settleAll_settles {V} (s : slots V) : rtc settles s (settleAll s).
Proof.
  unfold settleAll. generalize (map_to_list (inflight s)).*1. intros ks. revert s.
  induction ks as [|k ks IH]; intros s; [done|]. simpl. etrans; [|apply IH]. unfold settle1.
  destruct (inflight s !! k) as [[o r]|] eqn:Hk; [|done]. apply rtc_once. by econstructor.
Qed.

Definition settleView (v : gceView) : gceView :=
  mk_gceView (settleAll (gv_fws v)) (settleAll (gv_acs v)) (gv_insts v) (gv_reserved v).
Definition set_view (v : gceView) (g : simGCE) : simGCE := mk_simGCE v (sg_clock g) (sg_next g) (sg_nets g) (sg_insts g).

(** Start an operation. *)
Definition simStart (zone : string) (f : string → gceView → gceView) : M simGCE (result Operation) := λ g,
  let o := "op-" +:+ pretty (sg_next g) in
  Ok (Val (mk_Operation o (if bool_decide (zone = "") then "" else "projects/p/zones/" +:+ zone) "PENDING"),
      mk_simGCE (f o (sg_view g)) (sg_clock g) (S (sg_next g)) (sg_nets g) (sg_insts g)).

Definition simStatus {V} (zone : string) (s : slots V) (o : string) : Operation :=
  mk_Operation o zone (if bool_decide (map_Forall (λ _ x, x.1 ≠ o) (inflight s)) then "DONE" else "RUNNING").

Definition usedIPs (v : gceView) : list string :=
  (NatIP <$> vals (actual (gv_acs v))) ++ omap (λ x, NatIP <$> x.2) (vals (inflight (gv_acs v))).

#[export] Instance simGCE_client : GCEClient simGCE := {
  gce_clock := {| now g := sg_clock g;
    sleep d g := mk_simGCE (settleView (sg_view g)) (sg_clock g + d) (sg_next g) (sg_nets g) (sg_insts g) |};
  newGCEClient := mret (Val ());
  GetInstance zone i := λ g,
    Ok (match gv_insts (sg_view g) !! i with
        | Some (iface, ip) => Val (mk_gceInstance i "" "" []
            [mk_NetworkInterface iface "" ip (option_list (actual (gv_acs (sg_view g)) !! i))] [])
        | None => Err "not found"
        end, g);
  ListInstances zone descr := λ g, Ok (Val (filter (λ i, inst_Description i = descr) (sg_insts g)), g);
  InsertInstance zone i := λ g,
    Ok (Val (mk_Operation "op" zone "PENDING"),
        mk_simGCE (sg_view g) (sg_clock g) (sg_next g) (sg_nets g) (sg_insts g ++ [i]));
  DeleteInstance zone n := λ g,
    Ok (Val (mk_Operation "op" zone "PENDING"),
        mk_simGCE (sg_view g) (sg_clock g) (sg_next g) (sg_nets g) (filter (λ i, inst_Name i ≠ n) (sg_insts g)));
  AddAccessConfig zone i iface ac :=
    simStart zone (λ o v,
      let ip := if bool_decide (NatIP ac = "") then fresh (gv_reserved v) else NatIP ac in
      set_acs (slot_put i o (Some (mk_AccessConfig (ac_Type ac) (ac_Name ac) ip)) (gv_acs v)) v);
  DeleteAccessConfig zone i n iface := simStart zone (λ o v, set_acs (slot_put i o None (gv_acs v)) v);
  GetZone zone := mret (Val "https://www.googleapis.com/compute/v1/projects/p/regions/us-east1");
  GetZoneOperation zone o := λ g, Ok (Val (simStatus zone (gv_acs (sg_view g)) o), g);
  GetGlobalOperation o := λ g, Ok (Val (simStatus "" (gv_fws (sg_view g)) o), g);
  ListFloatingIPs region := λ g,
    Ok (Val ((λ ip, mk_gceAddress ip (if bool_decide (ip ∈ usedIPs (sg_view g)) then "IN_USE" else "RESERVED")) <$>
             elements (gv_reserved (sg_view g))), g);
  ListFirewalls descr := λ g,
    Ok (Val (filter (λ fw, fw_Description fw = descr) (vals (actual (gv_fws (sg_view g))))), g);
  InsertFirewall fw := simStart "" (λ o v, set_fws (slot_put (fw_Name fw) o (Some fw) (gv_fws v)) v);
  DeleteFirewall n := simStart "" (λ o v, set_fws (slot_put n o None (gv_fws v)) v);
  ListNetworks n := λ g, Ok (Val (filter (λ x, net_Name x = n) (sg_nets g)), g);
  InsertNetwork x := λ g,
    Ok (Val (mk_Operation "op" "" "PENDING"),
        mk_simGCE (sg_view g) (sg_clock g) (sg_next g) (x :: sg_nets g) (sg_insts g));
  DeleteNetwork n := λ g,
    Ok (Val (mk_Operation "op" "" "PENDING"),
        mk_simGCE (sg_view g) (sg_clock g) (sg_next g) (filter (λ x, net_Name x ≠ n) (sg_nets g)) (sg_insts g));
  randRead n := λ g,
    Ok (Val (repeat_s n (pretty (sg_next g mod 10))),
        mk_simGCE (sg_view g) (sg_clock g) (S (sg_next g)) (sg_nets g) (sg_insts g));
}.

Lemma simStatus_done {V} zone (s : slots V) o : op_Status (simStatus zone s o) = "DONE" → notRunning s o.
Proof.
  unfold simStatus. simpl. case_bool as [Ha|]; [|done]. intros _ k r Hk. by specialize (Ha k _ Hk).
Qed.

Lemma elem_of_usedIPs v ip : ip ∈ usedIPs v ↔ in_use v ip.
Proof.
  unfold usedIPs, in_use, eventual. rewrite elem_of_app, list_elem_of_fmap, list_elem_of_omap. setoid_rewrite elem_of_vals. split.
  - intros [(ac & -> & i & Hi)|([o [ac|]] & [i Hi] & Heq)]; simplify_eq/=; [by exists i, ac; auto|].
    exists i, ac. rewrite Hi. auto.
  - intros (i & ac & [Hi|Hi] & <-); [by left; eauto|]. destruct (inflight (gv_acs v) !! i) as [[o r]|] eqn:Ho; [|by left; eauto].
    right. subst r. exists (o, Some ac). eauto.
Qed.

#[export] Instance simGCE_laws : GCELaws simGCE.
Proof.
  unshelve refine {| gce := sg_view; hostZone := "us-east1-b" |}; intros; unfold wp; simpl.
  - split. intros. simpl. lia.
  - done.
  - split; [apply settleAll_settles|apply settleAll_settles|done|done].
  - split_and!; [lia|done|]. intros op [= <-]. apply simStatus_done.
  - split_and!; [lia|done|]. intros op [= <-] Hd _. by eapply simStatus_done.
  - split; [done|]. eexists. split; done.
  - eexists. split; [done|]. by exists (sg_view w).
  - eexists _, fw. split; [done|]. split; [|by exists (sg_view w)]. split; [done|by exists ""|done..].
  - split; [done|]. eexists. split; [done|]. rewrite <-list_fmap_compose. unfold compose. simpl. rewrite list_fmap_id.
    split; [intros ip; apply elem_of_elements|]. apply Forall_fmap, Forall_true. intros ip. simpl.
    rewrite <-elem_of_usedIPs. by case_bool.
  - rewrite H. split; [done|]. by eexists _, _.
  - eexists. split; [done|]. by exists (sg_view w), "projects/p/zones".
  - eexists _, _. split; [done|]. split; [|by exists (sg_view w), "projects/p/zones"].
    split; simpl; [done| |]; intros Hip; [by rewrite bool_decide_false|rewrite bool_decide_true by done; apply is_fresh].
Defined.

(** ** Examples *)

#[local] Existing Instance fixed_order.

Definition demo_google : gceProvider := mk_gceProvider "ns" "kelda-ns-us-east1-b" "us-east1-b" "us-east1".

Example newGoogle_example :
  newGoogle "ns" "us-east1-b" (mk_simGCE (mk_gceView (mk_slots ∅ ∅) (mk_slots ∅ ∅) ∅ ∅) 0 0 [] []) =
  Ok (Val demo_google, mk_simGCE (mk_gceView (mk_slots ∅ ∅) (mk_slots ∅ ∅) ∅ ∅) 0 0 [] []).
Proof. done. Qed.

Definition demo_acls : list ACL := [mk_ACL "1.2.3.4/32" 80 80; mk_ACL "0.0.0.0/0" 1 65535].
Definition fwFor (a : ACL) : Firewall := aclFirewall demo_google (mk_gACL (aclName demo_google a) a).
(** One firewall is wanted, one is not, one cannot be read, one is another network's. *)
Definition demo_fws : gmap string Firewall :=
  list_to_map ((λ fw, (fw_Name fw, fw)) <$>
    [fwFor (mk_ACL "1.2.3.4/32" 80 80); fwFor (mk_ACL "5.6.7.8/32" 22 22);
     mk_Firewall "junk" "" "kelda-ns-us-east1-b" ["a"; "b"] [];
     mk_Firewall "default-allow" "" "" ["0.0.0.0/0"] []]).

(** Instance "m2" has the floating address 8.8.8.8, "m1" an ephemeral one. *)
Definition demo_configs : gmap string AccessConfig :=
  {["m1" := mk_AccessConfig "ONE_TO_ONE_NAT" ephemeralIPName "35.1.1.1";
    "m2" := mk_AccessConfig "ONE_TO_ONE_NAT" floatingIPName "8.8.8.8"]}.
Definition demo_gce : simGCE :=
  mk_simGCE (mk_gceView (mk_slots demo_fws ∅) (mk_slots demo_configs ∅)
    {["m1" := ("nic0", "10.0.0.1"); "m2" := ("nic0", "10.0.0.2")]} {["8.8.8.8"; "9.9.9.9"]}) 0 0 [] [].

Example gce_SetACLs_example :
  match gce_SetACLs demo_google 0 demo_acls demo_gce with
  | Ok (r, g) => (r, (map_to_list (actual (gv_fws (sg_view g)))).*1, (0 <? sg_clock g)%Z)
  | Panic _ => (Err "panic", [], false)
  end = (Val (), ["kelda-ns-us-east1-b-172-16-0-0-12-0-65535"; "kelda-ns-us-east1-b-1-2-3-4-32-80-80";
                  "kelda-ns-us-east1-b-0-0-0-0-0-1-65535"; "default-allow"], true).
Proof. vm_compute. reflexivity. Qed.

Lemma demo_fws_named : fwNamed (gv_fws (sg_view demo_gce)).
Proof. intros k fw. revert k fw. change (map_Forall (λ k fw, fw_Name fw = k) demo_fws). vm_decide. Qed.

Lemma demo_acls_wf : Forall wfACL demo_acls.
Proof.
  constructor; [|constructor; [|done]]; (split; [|done|done]).
  - exists "1", "2", "3", "4", "32". split; [by repeat constructor|done].
  - exists "0", "0", "0", "0", "0". split; [by repeat constructor|done].
Qed.

Lemma demo_names_free :
  namesFree demo_google (demo_acls ++ [mk_ACL "172.16.0.0/12" 0 65535]) (λ k, actual (gv_fws (sg_view demo_gce)) !! k).
Proof.
  intros a fw Ha. repeat (apply elem_of_cons in Ha as [->|Ha]); [..|by apply not_elem_of_nil in Ha];
    intros Hfw; vm_compute in Hfw; simplify_eq. split; [by exists ""|vm_compute; reflexivity..].
Qed.


Definition gMachine (id ip : string) : Machine := mk_Machine 0 Google "us-east1-b" "n1" 0 [] ip false id "" "" "" None_ false.

(** "m1" gets a free address and "m2" gives its own up (and gets one that the simulation makes up, "0"). *)
Definition demo_updates : list Machine := [gMachine "m1" "9.9.9.9"; gMachine "m2" ""].

Example gce_UpdateFloatingIPs_example :
  match gce_UpdateFloatingIPs demo_google demo_updates demo_gce with
  | Ok (r, g) => (r, (λ kv, (kv.1, NatIP kv.2)) <$> map_to_list (actual (gv_acs (sg_view g))))
  | Panic _ => (Err "panic", [])
  end = (Val (), [("m1", "9.9.9.9"); ("m2", "0")]).
Proof. vm_compute. reflexivity. Qed.

Lemma demo_in_use ip : in_use (gce demo_gce) ip → ip ∈ ["35.1.1.1"; "8.8.8.8"].
Proof. intros Hu%elem_of_usedIPs. vm_compute in Hu. exact Hu. Qed.

Lemma demo_ready : Forall (ready (gce demo_gce)) demo_updates.
Proof.
  constructor; [|constructor; [|done]]; (split; [by eexists|by eexists|]); simpl; [|done].
  intros _. split; [vm_decide|]. intros Hu%demo_in_use. revert Hu. vm_decide.
Qed.

Lemma gce_UpdateFloatingIPs_assigns_witness :
  wp (gce_UpdateFloatingIPs demo_google demo_updates) demo_gce (λ r w',
    (∀ i, i ∉ m_CloudID <$> demo_updates → actual (gv_acs (gce w')) !! i = actual (gv_acs (gce demo_gce)) !! i) ∧
    (r = Val () ∧ Forall (λ m, ∃ ac, actual (gv_acs (gce w')) !! m_CloudID m = Some ac ∧
       showsIP demo_google ac (m_FloatingIP m)) demo_updates ∨
     ∃ e, e ∈ [removeTimeout; assignTimeout] ∧ r = Err e)).
Proof.
  refine (gce_UpdateFloatingIPs_assigns (W := simGCE) demo_google _ demo_updates demo_gce _ _ _ _);
    [reflexivity|reflexivity|apply demo_ready|vm_decide|vm_decide].
Defined.

(** "m1" is to get the address that "m2" gives up. *)
Lemma gce_UpdateFloatingIPs_stuck_witness :
  wp (mapM_st (λ _, gce_UpdateFloatingIPs demo_google [gMachine "m1" "8.8.8.8"; gMachine "m2" ""]) (seq 0 100)) demo_gce
    (λ rs w', Forall (λ r, ∃ e, r = Err e) rs ∧ length rs = 100 ∧ actual (gv_acs (gce w')) = actual (gv_acs (gce demo_gce))).
Proof.
  refine (gce_UpdateFloatingIPs_stuck (W := simGCE) demo_google (gMachine "m1" "8.8.8.8") [gMachine "m2" ""] 100 demo_gce _ _ _);
    [reflexivity|done|]. exists "m2", (mk_AccessConfig "ONE_TO_ONE_NAT" floatingIPName "8.8.8.8"). by split; [left|].
Defined.
