(* ===== verification/Droplets.v ===== *)
(** * Package digitalocean: machines on DigitalOcean

    [src/cloud/digitalocean/digitalocean.go].  The API objects are records of the
    fields the code reads or sets; a pointer that the code dereferences is an
    [option].  The client is the class [DOClient], over a world with a clock.
    Listings come in pages: a call for a page also tells whether it is the last,
    and the loops over the pages have fuel. *)

From S2P Require Import Prelude GoStrings Join Blueprint DbRows CloudJoin Backoff Providers Dns Ec2.

(** ** API objects *)

(** [net_Type] is "public" or "private". *)
Record NetworkV4 := mk_NetworkV4 { net_IPAddress : string; net_Type : string }.
(** [d_Region] is the slug of the region. *)
Record Droplet := mk_Droplet {
  d_ID : Z;
  d_Region : option string;
  SizeSlug : string;
  d_Networks : option (list NetworkV4);
  d_Tags : list string;
}.
Record FloatingIP := mk_FloatingIP { fip_IP : string; fip_Droplet : option Droplet }.
Record DropletMultiCreateRequest := mk_DropletMultiCreateRequest {
  cr_Names : list string;
  cr_Region : string;
  cr_Size : string;
  cr_Image : Z;
  cr_PrivateNetworking : bool;
  cr_UserData : string;
  cr_Tags : list string;
}.
Record Sources := mk_Sources { src_Addresses : list string; src_Tags : list string }.
Record InboundRule := mk_InboundRule { ir_Protocol : string; ir_PortRange : string; ir_Sources : option Sources }.
(** [or_Destinations]: the addresses. *)
Record OutboundRule := mk_OutboundRule { or_Protocol : string; or_PortRange : string; or_Destinations : list string }.
Record doFirewall := mk_doFirewall {
  dfw_ID : string;
  dfw_Name : string;
  InboundRules : list InboundRule;
  dfw_Tags : list string;
}.

(** The flag of a page: [resp.Links == nil || resp.Links.IsLastPage()]. *)
Class DOClient (W : Type) := {
  do_clock :: Clock W;
  (** The key file, read by [newDigitalOcean]. *)
  readKey : M W (result string);
  CreateDroplets : DropletMultiCreateRequest → M W (result (list Droplet));
  DeleteDroplet : Z → M W (result unit);
  ListDroplets : Z → M W (result (list Droplet * bool));
  CreateTag : string → M W (result unit);
  do_ListFloatingIPs : Z → M W (result (list FloatingIP * bool));
  AssignFloatingIP : string → Z → M W (result unit);
  UnassignFloatingIP : string → M W (result unit);
  CreateFirewall : string → list OutboundRule → list InboundRule → M W (result doFirewall);
  do_DeleteFirewall : string → M W (result unit);
  do_ListFirewalls : Z → M W (result (list doFirewall * bool));
  AddRules : string → list InboundRule → M W (result unit);
  RemoveRules : string → list InboundRule → M W (result unit);
}.

(** [Droplet.PublicIPv4] and [PrivateIPv4]. *)
Definition addressOfType (type : string) (d : Droplet) : result string :=
  match d_Networks d with
  | None => Err "no networks have been defined"
  | Some v4s => Val (default "" (net_IPAddress <$> head (filter (λ v4, net_Type v4 = type) v4s)))
  end.
Definition PublicIPv4 : Droplet → result string := addressOfType "public".
Definition PrivateIPv4 : Droplet → result string := addressOfType "private".

(** ** The provider *)

Definition protocols : list string := ["tcp"; "udp"; "icmp"].
Definition allIPs : list string := ["0.0.0.0/0"; "::/0"].
Definition allowAll : list OutboundRule :=
  [mk_OutboundRule "tcp" "all" allIPs; mk_OutboundRule "udp" "all" allIPs; mk_OutboundRule "icmp" "" allIPs].
Definition imageID : Z := 21669205.

Record doProvider := mk_doProvider { do_namespace : string; do_region : string }.
Record taggedMachine := mk_taggedMachine { tm_Machine : Machine; tm_tags : list string }.

(** Returns a unique tag to use for all entities in this namespace and region. *)
Definition getTag (prvdr : doProvider) : string := do_namespace prvdr +:+ "-" +:+ do_region prvdr.

(** The globals of the package: [listAllTimeout], [listAllMachines] and [listAllErr]. *)
Record listCache := mk_listCache { lc_timeout : Z; lc_listing : result (list taggedMachine) }.

Section pages.
Context {W A B : Type}.

(** The loops over pages: [each] works on one page and may end the loop with a
    value ([inr]); [Err] is an early return. *)
Fixpoint pageLoop (fuel : nat) (listPage : Z → M W (result (list A * bool))) (what : string)
    (each : B → list A → outcome (result (B + B))) (acc : B) (page : Z) : M W (result B) :=
  match fuel with
  | 0 => panic "out of fuel"
  | S fuel =>
    let! r := listPage page in
    match r with
    | Err e => mret (Err (what +:+ ": " +:+ e))
    | Val (items, isLast) =>
      let? r := lift (each acc items) in
      match r with
      | inr b => mret (Val b)
      | inl acc =>
        if (isLast : bool) then mret (Val acc)
        else pageLoop fuel listPage what each acc (page + 1)%Z
      end
    end
  end.
End pages.

Section provider.
Context {W : Type} `{DOClient W} `{MapOrder} `{Schedule}.
Context (script : Machine → string → string) (fuel : nat).

Definition newDigitalOcean (namespace region : string) : M W (result doProvider) :=
  let namespace := ToLower (ReplaceChar "_" "-" namespace) in
  let? _ := readKey in
  mret (Val (mk_doProvider namespace region)).

Definition do_New (namespace region : string) : M W (result doProvider) :=
  let? prvdr := newDigitalOcean namespace region in
  let? _ := ListDroplets 0 in
  mret (Val prvdr).

Context (prvdr : doProvider).

(** ** Listing *)

Definition floatingPage (m : gmap Z string) (ips : list FloatingIP) : outcome (result (gmap Z string + gmap Z string)) :=
  Ok (Val (inl (foldl (λ m ip, match fip_Droplet ip with None => m | Some d => <[d_ID d := fip_IP ip]> m end) m ips))).

Definition getFloatingIPs : M W (result (gmap Z string)) :=
  pageLoop fuel do_ListFloatingIPs "list floating IPs" floatingPage ∅ 1.

Definition dropletMachine (floatingIPs : gmap Z string) (d : Droplet) : outcome (result taggedMachine) :=
  match PublicIPv4 d with
  | Err e => Ok (Err ("get public IP: " +:+ e))
  | Val pubIP =>
    match PrivateIPv4 d with
    | Err e => Ok (Err ("get private IP: " +:+ e))
    | Val privIP =>
      let! region := deref (d_Region d) in
      Ok (Val (mk_taggedMachine
        (mk_Machine 0 DigitalOcean region (SizeSlug d) 0 [] (default "" (floatingIPs !! d_ID d)) false
           (fmtInt (d_ID d)) pubIP privIP "" None_ false)
        (d_Tags d)))
    end
  end.

Fixpoint dropletPage (floatingIPs : gmap Z string) (machines : list taggedMachine) (droplets : list Droplet)
    : outcome (result (list taggedMachine + list taggedMachine)) :=
  match droplets with
  | [] => Ok (Val (inl machines))
  | d :: droplets =>
    let! r := dropletMachine floatingIPs d in
    match r with
    | Err e => Ok (Err e)
    | Val machine => dropletPage floatingIPs (machines ++ [machine]) droplets
    end
  end.

Definition listAll : M W (result (list taggedMachine)) :=
  let? floatingIPs := getFloatingIPs in
  pageLoop fuel ListDroplets "list droplets" (dropletPage floatingIPs) [] 1.

Definition taggedWith (tag : string) (tms : list taggedMachine) : list Machine :=
  tm_Machine <$> filter (λ tm, tag ∈ tm_tags tm) tms.

(** Under [listAllMutex]. *)
Definition do_List : M (listCache * W) (result (list Machine)) :=
  let! st := get in
  let '(cache, w) := st in
  (if bool_decide (lc_timeout cache < now w)%Z then
     let! listing := onSnd listAll in
     let! st := get in
     put (mk_listCache (now st.2 + 1 * Second)%Z listing, st.2)
   else mret ()) ;;;
  let! st := get in
  mret (match lc_listing st.1 with
        | Err e => Err e
        | Val tms => Val (taggedWith (getTag prvdr) tms)
        end).

(** ** Booting *)

Definition doBootRequest : Type := string * string.

Definition dropletRequest (br : doBootRequest) (n : Z) : DropletMultiCreateRequest :=
  mk_DropletMultiCreateRequest (replicate (Z.to_nat n) "Kelda") (do_region prvdr) br.1 imageID true br.2 [getTag prvdr].

(** The loop [for count > 0]; [count] rounds are enough. *)
Fixpoint splitRequests (rounds : nat) (br : doBootRequest) (count : Z) : list DropletMultiCreateRequest :=
  match rounds with
  | 0 => []
  | S rounds =>
    if bool_decide (0 < count)%Z then
      let n := if bool_decide (10 < count)%Z then 10%Z else count in
      dropletRequest br n :: splitRequests rounds br (count - n)
    else []
  end.

Definition bootRequests (n : nat) (brs : list doBootRequest) : list DropletMultiCreateRequest :=
  concat ((λ kv, splitRequests (Z.to_nat kv.2) kv.1 kv.2) <$> range n (countAll brs)).

Definition do_Boot (n : nat) (machines : list Machine) : M W (list string * result unit) :=
  if existsb m_Preemptible machines then mret ([], Err "preemptible instances are not implemented")
  else
    let reqs := bootRequests n ((λ m, (m_Size m, script m "")) <$> machines) in
    let! results := concurrently n (CreateDroplets <$> reqs) in
    match firstError ((λ r, match r with Val _ => Val () | Err e => Err e end) <$> results) with
    | Err e => mret ([], Err e)
    | Val _ =>
      let drops := concat ((λ r, match r with Val ds => ds | Err _ => [] end) <$> results) in
      mret ((λ d, fmtInt (d_ID d)) <$> drops, Val ())
    end.

(** The loop of [Stop] that starts the goroutines. *)
Fixpoint startStops (machines : list Machine) : list (M W (result unit)) * result unit :=
  match machines with
  | [] => ([], Val ())
  | m :: machines =>
    match Atoi (m_CloudID m) with
    | Err e => ([], Err e)
    | Val id => let '(calls, r) := startStops machines in (DeleteDroplet id :: calls, r)
    end
  end.

Definition do_Stop (n : nat) (machines : list Machine) : M W (result unit) :=
  let '(calls, started) := startStops machines in
  let! results := concurrently n calls in
  match started with
  | Err e => mret (Err e)
  | Val _ => mret (firstError results)
  end.

(** ** Floating IPs *)

Fixpoint syncPairs (pairs : list (Machine * Machine)) : M W (result unit) :=
  match pairs with
  | [] => mret (Val ())
  | (curr, desired) :: pairs =>
    if bool_decide (m_FloatingIP curr = m_FloatingIP desired) then syncPairs pairs
    else
      let? _ :=
        (if bool_decide (m_FloatingIP curr ≠ "") then
           let! r := UnassignFloatingIP (m_FloatingIP curr) in
           mret (match r with
                 | Val _ => Val ()
                 | Err e => Err ("unassign IP (" +:+ m_FloatingIP curr +:+ "): " +:+ e)
                 end)
         else mret (Val ())) in
      let? _ :=
        (if bool_decide (m_FloatingIP desired ≠ "") then
           match Atoi (m_CloudID curr) with
           | Err e => mret (Err ("malformed id (" +:+ m_CloudID curr +:+ "): " +:+ e))
           | Val id =>
             let! r := AssignFloatingIP (m_FloatingIP desired) id in
             mret (match r with
                   | Val _ => Val ()
                   | Err e => Err ("assign IP (" +:+ m_FloatingIP desired +:+ " to " +:+ fmtInt id +:+ "): " +:+ e)
                   end)
           end
         else mret (Val ())) in
      syncPairs pairs
  end.

Definition syncFloatingIPs (n : nat) (curr targets : list Machine) : M W (result unit) :=
  let '(pairs, _, unmatchedDesired) := HashJoin n curr targets m_CloudID m_CloudID in
  if bool_decide (length unmatchedDesired ≠ 0)
  then mret (Err ("no matching IDs: " +:+ Join_strings ", " (m_CloudID <$> unmatchedDesired)))
  else syncPairs pairs.

Definition do_UpdateFloatingIPs (n : nat) (desired : list Machine) : M (listCache * W) (result unit) :=
  let! r := do_List in
  match r with
  | Err e => mret (Err ("list machines: " +:+ e))
  | Val curr => onSnd (syncFloatingIPs n curr desired)
  end.

(** ** The firewall *)

Definition fixRule (rule : InboundRule) : InboundRule :=
  if bool_decide (ir_PortRange rule = "0") then
    if bool_decide (ir_Protocol rule = "icmp") then mk_InboundRule (ir_Protocol rule) "" (ir_Sources rule)
    else mk_InboundRule (ir_Protocol rule) "all" (ir_Sources rule)
  else rule.
Definition fixRulesPortRange (fw : doFirewall) : doFirewall :=
  mk_doFirewall (dfw_ID fw) (dfw_Name fw) (fixRule <$> InboundRules fw) (dfw_Tags fw).

Definition firewallPage (none : option doFirewall) (fws : list doFirewall)
    : outcome (result (option doFirewall + option doFirewall)) :=
  match filter (λ fw, getTag prvdr ∈ dfw_Tags fw) fws with
  | fw :: _ => Ok (Val (inr (Some (fixRulesPortRange fw))))
  | [] => Ok (Val (inl None))
  end.

Definition getFirewall : M W (result (option doFirewall)) :=
  pageLoop fuel do_ListFirewalls "list firewalls" firewallPage None 1.

Definition getCreateFirewall : M W (result doFirewall) :=
  let? firewall := getFirewall in
  match firewall with
  | Some firewall => mret (Val firewall)
  | None =>
    let tag := getTag prvdr in
    let? _ := CreateTag tag in
    CreateFirewall tag allowAll []
  end.

(** [icmpSources] so far. *)
Fixpoint protocolRules (a : ACL) (icmpSources : gset string) (protos : list string) : list InboundRule * gset string :=
  match protos with
  | [] => ([], icmpSources)
  | proto :: protos =>
    let portRange :=
      if bool_decide (acl_MinPort a = acl_MaxPort a) then fmtInt (acl_MinPort a)
      else fmtInt (acl_MinPort a) +:+ "-" +:+ fmtInt (acl_MaxPort a) in
    let rule portRange := mk_InboundRule proto portRange (Some (mk_Sources [CidrIP a] [])) in
    if bool_decide (proto = "icmp") then
      if bool_decide (CidrIP a ∈ icmpSources) then protocolRules a icmpSources protos
      else
        let '(rules, sources) := protocolRules a ({[CidrIP a]} ∪ icmpSources) protos in
        (rule "" :: rules, sources)
    else
      let '(rules, sources) := protocolRules a icmpSources protos in
      (rule portRange :: rules, sources)
  end.
Fixpoint toRulesLoop (icmpSources : gset string) (acls : list ACL) : list InboundRule :=
  match acls with
  | [] => []
  | a :: acls =>
    let '(rules, sources) := protocolRules a icmpSources protocols in
    rules ++ toRulesLoop sources acls
  end.
Definition toRules (acls : list ACL) : list InboundRule := toRulesLoop ∅ acls.

(** The key of a rule; [rule.Sources] is dereferenced. *)
Definition ruleKey : Type := string * string * string * string.
Definition ruleKeyOf (rule : InboundRule) : outcome ruleKey :=
  let! sources := deref (ir_Sources rule) in
  Ok (ir_PortRange rule, ir_Protocol rule, Join_strings "," (src_Addresses sources), Join_strings "," (src_Tags sources)).
Fixpoint ruleKeys (rules : list InboundRule) : outcome (list (ruleKey * InboundRule)) :=
  match rules with
  | [] => Ok []
  | rule :: rules => let! k := ruleKeyOf rule in let! l := ruleKeys rules in Ok ((k, rule) :: l)
  end.

Definition do_syncACLs (n : nat) (desired : list ACL) (current : list InboundRule)
    : outcome (list InboundRule * list InboundRule) :=
  let internalDroplets := mk_Sources [] [getTag prvdr] in
  let desiredRules := toRules desired ++
    [mk_InboundRule "tcp" "all" (Some internalDroplets); mk_InboundRule "udp" "all" (Some internalDroplets)] in
  let! desiredKeys := ruleKeys desiredRules in
  let! currentKeys := ruleKeys current in
  let '(_, toAdd, toRemove) := HashJoin n desiredKeys currentKeys fst fst in
  Ok (toAdd.*2, toRemove.*2).

Definition do_SetACLs (n : nat) (acls : list ACL) : M W (result unit) :=
  let? firewall := getCreateFirewall in
  let! (add, remove) := lift (do_syncACLs n acls (InboundRules firewall)) in
  let? _ := (if bool_decide (0 < length add) then AddRules (dfw_ID firewall) add else mret (Val ())) in
  if bool_decide (0 < length remove) then RemoveRules (dfw_ID firewall) remove else mret (Val ()).

Definition do_Cleanup : M W (result unit) :=
  let? fw := getFirewall in
  match fw with
  | Some fw => do_DeleteFirewall (dfw_ID fw)
  | None => mret (Val ())
  end.
End provider.
