(* ===== verification/DropletsSpec.v ===== *)
(** * Package digitalocean: what the provider guarantees

    DigitalOcean as the code relies on it (droplets and firewalls, with the laws
    of the client's calls), and the theorems about booting and about the ACLs. *)

From S2P Require Import Prelude GoStrings Join Blueprint DbRows CloudJoin Backoff Providers Dns Ec2 Droplets.

(** ** DigitalOcean *)

(** A droplet, with the request it was made by (without the names). *)
Record vDroplet := mk_vDroplet { vd_size : string; vd_userData : string; vd_region : string; vd_image : Z; vd_tags : list string }.
Record vFirewall := mk_vFirewall { vf_tags : list string; vf_rules : gset ruleKey }.
#[export] Instance vFirewall_eq_dec : EqDecision vFirewall.
Proof. solve_decision. Defined.
Record doView := mk_doView { dv_droplets : gmap Z vDroplet; dv_fws : gmap string vFirewall }.
Definition set_droplets (m : gmap Z vDroplet) (v : doView) : doView := mk_doView m (dv_fws v).
Definition set_firewalls (m : gmap string vFirewall) (v : doView) : doView := mk_doView (dv_droplets v) m.

(** How a rule is listed: all ports as "0". *)
Definition shownPorts (protocol ports : string) : string :=
  if bool_decide (ports = "all" ∨ protocol = "icmp" ∧ ports = "") then "0" else ports.
Definition shown (k : ruleKey) : ruleKey := let '(ports, protocol, addrs, tags) := k in (shownPorts protocol ports, protocol, addrs, tags).

(** [fw] is the listing of the firewall [vf]. *)
Record lists (fw : doFirewall) (vf : vFirewall) : Prop := {
  ls_tags : dfw_Tags fw = vf_tags vf;
  ls_rules : ∃ keys, ruleKeyOf <$> InboundRules fw = Ok <$> (shown <$> keys) ∧ NoDup keys ∧ list_to_set keys = vf_rules vf;
}.

Definition dropletOf (req : DropletMultiCreateRequest) : vDroplet :=
  mk_vDroplet (cr_Size req) (cr_UserData req) (cr_Region req) (cr_Image req) (cr_Tags req).

(** [rules] are rules with the keys [keys]. *)
Definition keyedRules (rules : list InboundRule) (keys : list ruleKey) : Prop := ruleKeyOf <$> rules = Ok <$> keys.

Class DOLaws (W : Type) `{DOClient W} := {
  dig : W → doView;
  (** The pages of the listing of the firewalls. *)
  fwPages : doView → list (list doFirewall);
  fwPages_some : ∀ v, fwPages v ≠ [];
  fwPages_lists : ∀ v fw, fw ∈ concat (fwPages v) → ∃ vf, dv_fws v !! dfw_ID fw = Some vf ∧ lists fw vf;
  fwPages_all : ∀ v id, is_Some (dv_fws v !! id) → id ∈ dfw_ID <$> concat (fwPages v);
  do_ListFirewalls_ok : ∀ p page w, (1 ≤ p)%Z → fwPages (dig w) !! Z.to_nat (p - 1) = Some page →
    wp (do_ListFirewalls p) w (λ r w', dig w' = dig w ∧
      r = Val (page, bool_decide (length (fwPages (dig w)) = Z.to_nat p)));
  CreateTag_ok : ∀ tag w, wp (CreateTag tag) w (λ r w', dig w' = dig w ∧ r = Val ());
  CreateFirewall_ok : ∀ tag w, wp (CreateFirewall tag allowAll []) w (λ r w', ∃ id name,
    r = Val (mk_doFirewall id name [] [tag]) ∧ dv_fws (dig w) !! id = None ∧
    dig w' = set_firewalls (<[id := mk_vFirewall [tag] ∅]> (dv_fws (dig w))) (dig w));
  AddRules_ok : ∀ id rules keys vf w, dv_fws (dig w) !! id = Some vf → keyedRules rules keys → NoDup keys →
    list_to_set keys ## vf_rules vf →
    wp (AddRules id rules) w (λ r w', r = Val () ∧
      dig w' = set_firewalls (<[id := mk_vFirewall (vf_tags vf) (list_to_set keys ∪ vf_rules vf)]> (dv_fws (dig w))) (dig w));
  RemoveRules_ok : ∀ id rules keys vf w, dv_fws (dig w) !! id = Some vf → keyedRules rules keys → NoDup keys →
    list_to_set keys ⊆ vf_rules vf →
    wp (RemoveRules id rules) w (λ r w', r = Val () ∧
      dig w' = set_firewalls (<[id := mk_vFirewall (vf_tags vf) (vf_rules vf ∖ list_to_set keys)]> (dv_fws (dig w))) (dig w));
  (** At most ten droplets in a request. *)
  CreateDroplets_ok : ∀ req w, 1 ≤ length (cr_Names req) ≤ 10 →
    wp (CreateDroplets req) w (λ r w', ∃ ds, r = Val ds ∧ length ds = length (cr_Names req) ∧ NoDup (d_ID <$> ds) ∧
      Forall (λ d, dv_droplets (dig w) !! d_ID d = None) ds ∧
      dig w' = set_droplets (list_to_map ((λ d, (d_ID d, dropletOf req)) <$> ds) ∪ dv_droplets (dig w)) (dig w));
}.

(** ** The rules of the ACLs *)

Section acls.
Context `{MapOrder} {W : Type} `{DOLaws W} (prvdr : doProvider) (fuel : nat).
Implicit Types w : W.

Definition portsOf (a : ACL) : string :=
  if bool_decide (acl_MinPort a = acl_MaxPort a) then fmtInt (acl_MinPort a)
  else fmtInt (acl_MinPort a) +:+ "-" +:+ fmtInt (acl_MaxPort a).

(** What the ACLs open: TCP and UDP on the ports, and ICMP. *)
Definition doKeys (a : ACL) : list ruleKey :=
  [(portsOf a, "tcp", CidrIP a, ""); (portsOf a, "udp", CidrIP a, ""); ("", "icmp", CidrIP a, "")].
(** Everything between the droplets with the tag. *)
Definition internalKeys : list ruleKey := [("all", "tcp", "", getTag prvdr); ("all", "udp", "", getTag prvdr)].
Definition doRules (acls : list ACL) : gset ruleKey := list_to_set (concat (doKeys <$> acls) ++ internalKeys).

(** The rules that a listing shows and [fixRule] restores. *)
Definition wfRule (k : ruleKey) : Prop :=
  let '(ports, protocol, _, _) := k in ports ≠ "0" ∧ (protocol = "icmp" → ports = "").

#[export] Instance wfRule_dec k : Decision (wfRule k).
Proof. destruct k as [[[ports protocol] addrs] tags]. unfold wfRule. apply _. Defined.

Lemma fixRule_shown rule k : ruleKeyOf rule = Ok (shown k) → wfRule k → ruleKeyOf (fixRule rule) = Ok k.
Proof.
  destruct rule as [proto ports [src|]], k as [[[p pr] ad] tg]; [|done]. unfold ruleKeyOf, shown, shownPorts. cbn.
  intros [= -> -> <- <-] [Hp Hi]. unfold fixRule. cbn [ir_PortRange ir_Protocol ir_Sources]. case_bool as [[->|[-> ->]]|Hno].
  - rewrite bool_decide_true by done. case_bool as [->|]; [by discriminate Hi|done].
  - done.
  - rewrite bool_decide_false by done. done.
Qed.

Lemma protocolRules_keys a sources rules sources' :
  protocolRules a sources protocols = (rules, sources') → ∃ keys, keyedRules rules keys ∧
    (∀ k, k ∈ keys ∨ (k = ("", "icmp", CidrIP a, "") ∧ CidrIP a ∈ sources) ↔ k ∈ doKeys a) ∧
    sources' = {[CidrIP a]} ∪ sources.
Proof.
  unfold protocols. cbn [protocolRules]. rewrite !(bool_decide_false (_ = "icmp")), bool_decide_true by done.
  fold (portsOf a). case_bool as [Hin|Hin]; intros [= <- <-].
  - exists [(portsOf a, "tcp", CidrIP a, ""); (portsOf a, "udp", CidrIP a, "")].
    split_and!; [done|unfold doKeys; set_solver|set_solver].
  - exists (doKeys a). split_and!; [done|unfold doKeys; set_solver|set_solver].
Qed.

Lemma toRulesLoop_keys sources acls : ∃ keys, keyedRules (toRulesLoop sources acls) keys ∧
  ∀ k, k ∈ keys ∨ (∃ a, a ∈ acls ∧ k = ("", "icmp", CidrIP a, "") ∧ CidrIP a ∈ sources) ↔ k ∈ concat (doKeys <$> acls).
Proof.
  revert sources. induction acls as [|a acls IH]; intros sources; cbn [toRulesLoop].
  { exists []. split; [done|]. set_solver. }
  destruct (protocolRules a sources protocols) as [rules sources'] eqn:Hp.
  destruct (protocolRules_keys _ _ _ _ Hp) as (keys & Hk & Hka & ->).
  destruct (IH ({[CidrIP a]} ∪ sources)) as (keys' & Hk' & Hka'). exists (keys ++ keys'). split.
  - unfold keyedRules in *. rewrite !fmap_app. congruence.
  - intros k. change (concat (doKeys <$> a :: acls)) with (doKeys a ++ concat (doKeys <$> acls)).
    rewrite !elem_of_app, <-Hka, <-Hka'. clear Hk Hk' Hp IH Hka'.
    assert (k = ("", "icmp", CidrIP a, "") → k ∈ keys ∨ k = ("", "icmp", CidrIP a, "") ∧ CidrIP a ∈ sources) as Hicmp.
    { intros ->. apply Hka. unfold doKeys. set_solver. }
    split.
    + intros [[?|?]|(b & [->|Hb]%elem_of_cons & -> & Hs)]; [tauto|tauto|tauto|]. right. right. exists b.
      split_and!; [done..|set_solver].
    + intros [[?|[-> ?]]|[?|(b & Hb & -> & [Heq%elem_of_singleton|Hs]%elem_of_union)]]; [tauto| |tauto| |].
      * right. exists a. split_and!; [left|done..].
      * rewrite <-Heq in Hicmp. destruct Hicmp as [?|[_ ?]]; [done|tauto|]. right. exists b. rewrite Heq.
        split_and!; [by right|done|by rewrite <-Heq].
      * right. exists b. split_and!; [by right|done..].
Qed.

Lemma desired_keys acls : ∃ keys,
  keyedRules (toRules acls ++ [mk_InboundRule "tcp" "all" (Some (mk_Sources [] [getTag prvdr]));
                               mk_InboundRule "udp" "all" (Some (mk_Sources [] [getTag prvdr]))]) keys ∧
  ∀ k, k ∈ keys ↔ k ∈ doRules acls.
Proof.
  destruct (toRulesLoop_keys ∅ acls) as (keys & Hk & Hka). exists (keys ++ internalKeys). split.
  - unfold keyedRules, toRules in *. rewrite !fmap_app, Hk. done.
  - intros k. unfold doRules. rewrite elem_of_list_to_set, !elem_of_app, <-Hka. split; [tauto|].
    intros [[?|(? & _ & _ & ?%not_elem_of_empty)]|?]; [tauto|done|tauto].
Qed.

Lemma ruleKeys_ok rules keys : keyedRules rules keys → ruleKeys rules = Ok (zip keys rules).
Proof.
  unfold keyedRules. revert keys. induction rules as [|r rules IH]; intros [|k keys]; [done|done|done|].
  csimpl. intros [= Hr Hk]. rewrite Hr. simpl. by rewrite (IH keys Hk).
Qed.

(** The plan of [syncACLs]. *)
Lemma do_syncACLs_plan n acls current keys :
  keyedRules current keys → NoDup keys → ∃ add remove ka kr, do_syncACLs prvdr n acls current = Ok (add, remove) ∧
    keyedRules add ka ∧ keyedRules remove kr ∧ NoDup ka ∧ NoDup kr ∧
    (∀ k, k ∈ ka ↔ k ∈ doRules acls ∧ k ∉ keys) ∧ (∀ k, k ∈ kr ↔ k ∈ keys ∧ k ∉ doRules acls).
Proof.
  intros Hcur Hnd. destruct (desired_keys acls) as (dk & Hdk & Hd). unfold do_syncACLs.
  rewrite (ruleKeys_ok _ _ Hdk). cbn [mbind outcome_bind]. rewrite (ruleKeys_ok _ _ Hcur). cbn [mbind outcome_bind].
  set (drules := toRules acls ++ _) in *.
  assert (∀ rules ks, keyedRules rules ks → (zip ks rules).*1 = ks) as Hfst.
  { intros rules ks Hk. apply fst_zip. apply (f_equal length) in Hk. rewrite !length_fmap in Hk. lia. }
  assert (∀ rules ks x, keyedRules rules ks → x ∈ zip ks rules → ruleKeyOf x.2 = Ok x.1) as Hzip.
  { intros rules ks [k r] Hk Hx. apply elem_of_lookup_zip_with in Hx as (i & k' & r' & [= -> ->] & Hi & Hr). simpl.
    pose proof (f_equal (λ l, l !! i) Hk) as Hl. simpl in Hl. rewrite !list_lookup_fmap, Hi, Hr in Hl. by injection Hl. }
  assert (∀ (l : list (ruleKey * InboundRule)), (∀ x, x ∈ l → ruleKeyOf x.2 = Ok x.1) → keyedRules l.*2 l.*1) as Hback.
  { intros l Hl. unfold keyedRules. rewrite <-!list_fmap_compose. apply list_fmap_ext. intros i x Hx. apply Hl.
    by eapply list_elem_of_lookup_2. }
  destruct (HashJoin n (zip dk drules) (zip keys current) fst fst) as [[pairs toAdd] toRemove] eqn:Hj.
  apply HashJoin_ok in Hj. destruct (joined_leftovers _ _ _ _ _ _ _ Hj) as (Hna & Hnr & Ha & Hr); [by rewrite Hfst|].
  rewrite !Hfst in Ha, Hr by done. exists toAdd.*2, toRemove.*2, toAdd.*1, toRemove.*1.
  split_and!; [done| | |done|done| |].
  - apply Hback. intros x Hx. eapply (Hzip drules); [done|]. eapply elem_of_submseteq; [|apply (hj_lefts _ _ _ _ _ _ _ Hj)]. set_solver.
  - apply Hback. intros x Hx. eapply (Hzip current); [done|]. rewrite <-(hj_rights _ _ _ _ _ _ _ Hj). set_solver.
  - intros k. rewrite Ha, Hd. done.
  - intros k. rewrite Hr, Hd. done.
Qed.

(** ** Finding the firewall *)

Lemma wp_firewallLoop f i w Q :
  i < length (fwPages (dig w)) → length (fwPages (dig w)) ≤ f + i →
  (∀ fw, fw ∈ concat (take i (fwPages (dig w))) → getTag prvdr ∉ dfw_Tags fw) →
  (∀ w' fw, dig w' = dig w → fw ∈ concat (fwPages (dig w)) → getTag prvdr ∈ dfw_Tags fw →
     Q (Val (Some (fixRulesPortRange fw))) w') →
  (∀ w', dig w' = dig w → (∀ fw, fw ∈ concat (fwPages (dig w)) → getTag prvdr ∉ dfw_Tags fw) → Q (Val None) w') →
  wp (pageLoop f do_ListFirewalls "list firewalls" (firewallPage prvdr) None (Z.of_nat i + 1)) w Q.
Proof.
  revert i w Q. induction f as [|f IH]; intros i w Q Hi Hf Hno Hfound Hnone; [lia|].
  destruct (lookup_lt_is_Some_2 (fwPages (dig w)) i Hi) as [page Hpage]. simpl. wp_bind.
  wp_use (do_ListFirewalls_ok (W := W)); [lia|by replace (Z.to_nat (Z.of_nat i + 1 - 1)) with i by lia|].
  intros r w1 [Hw ->]. apply wp_try.
  assert (∀ fw, fw ∈ page → fw ∈ concat (fwPages (dig w))) as Hin.
  { intros fw Hfw. apply elem_of_concat. exists page. split; [by eapply list_elem_of_lookup_2|done]. }
  unfold firewallPage at 1. destruct (filter _ page) as [|fw fws] eqn:Hfil.
  2:{ assert (fw ∈ filter (λ fw, getTag prvdr ∈ dfw_Tags fw) page) as [Ht Hp]%list_elem_of_filter by (rewrite Hfil; left).
      eapply wp_lift; [done|]. wp_ret. by apply Hfound; [|apply Hin|]. }
  eapply wp_lift; [done|].
  assert (∀ fw, fw ∈ concat (take (S i) (fwPages (dig w))) → getTag prvdr ∉ dfw_Tags fw) as Hno'.
  { intros fw. rewrite (take_S_r _ _ _ Hpage), concat_app, elem_of_app. simpl. rewrite app_nil_r. intros [?|Hfw] Ht; [by eapply Hno|].
    assert (fw ∈ filter (λ fw, getTag prvdr ∈ dfw_Tags fw) page) as Hx by (by apply list_elem_of_filter).
    rewrite Hfil in Hx. by apply not_elem_of_nil in Hx. }
  case_bool as [Hlast|Hmore].
  - wp_ret. apply Hnone; [done|]. intros fw Hfw. apply Hno'. by rewrite take_ge by lia.
  - replace (Z.of_nat i + 1 + 1)%Z with (Z.of_nat (S i) + 1)%Z by lia.
    apply IH; rewrite Hw; [lia|lia|done|done|done].
Qed.

Lemma wp_getFirewall w Q :
  length (fwPages (dig w)) ≤ fuel →
  (∀ w' fw vf, dig w' = dig w → dv_fws (dig w) !! dfw_ID fw = Some vf → lists fw vf → getTag prvdr ∈ vf_tags vf →
     Q (Val (Some (fixRulesPortRange fw))) w') →
  (∀ w', dig w' = dig w → (∀ id vf, dv_fws (dig w) !! id = Some vf → getTag prvdr ∉ vf_tags vf) → Q (Val None) w') →
  wp (getFirewall fuel prvdr) w Q.
Proof.
  intros Hf Hsome Hnone. unfold getFirewall. apply (wp_firewallLoop fuel 0).
  - destruct (fwPages (dig w)) eqn:Hp; [by apply fwPages_some in Hp|simpl; lia].
  - lia.
  - intros fw. simpl. by intros ?%not_elem_of_nil.
  - intros w' fw Hw Hfw Ht. destruct (fwPages_lists _ _ Hfw) as (vf & Hvf & Hl). eapply Hsome; [done|done|done|].
    by rewrite <-(ls_tags _ _ Hl).
  - intros w' Hw Hno. apply Hnone; [done|]. intros id vf Hvf Ht.
    destruct (list_elem_of_fmap dfw_ID (concat (fwPages (dig w))) id) as [Hfm _].
    destruct Hfm as (fw & -> & Hfw); [by apply fwPages_all; eexists|].
    destruct (fwPages_lists _ _ Hfw) as (vf' & Hvf' & Hl). simplify_eq. apply (Hno fw Hfw). by rewrite (ls_tags _ _ Hl).
Qed.

Lemma wp_getCreateFirewall w Q :
  length (fwPages (dig w)) ≤ fuel →
  (∀ id vf k, dv_fws (dig w) !! id = Some vf → getTag prvdr ∈ vf_tags vf → k ∈ vf_rules vf → wfRule k) →
  (∀ w' fw vf keys, dv_fws (dig w') !! dfw_ID fw = Some vf → getTag prvdr ∈ vf_tags vf →
     keyedRules (InboundRules fw) keys → NoDup keys → list_to_set keys = vf_rules vf →
     (dig w' = dig w ∨ (∀ id vf, dv_fws (dig w) !! id = Some vf → getTag prvdr ∉ vf_tags vf) ∧
        dig w' = set_firewalls (<[dfw_ID fw := vf]> (dv_fws (dig w))) (dig w)) → Q (Val fw) w') →
  wp (getCreateFirewall fuel prvdr) w Q.
Proof.
  intros Hf Hwf HQ. unfold getCreateFirewall. apply wp_try. apply wp_getFirewall; [done| |].
  - intros w1 fw vf Hw Hvf Hl Ht. wp_ret. destruct (ls_rules _ _ Hl) as (keys & Hkeys & Hnd & Hset).
    apply (HQ _ _ vf keys); [by rewrite Hw|done| |done|done|by left].
    unfold keyedRules. simpl. rewrite <-list_fmap_compose.
    assert (Forall wfRule keys) as Hall.
    { apply Forall_forall. intros k Hk. apply (Hwf _ _ k Hvf Ht). rewrite <-Hset. by apply elem_of_list_to_set. }
    clear -Hkeys Hall. revert Hkeys. generalize (InboundRules fw). intros rules. revert keys Hall.
    induction rules as [|r rules IH]; intros [|k keys] Hall; csimpl; [done|done|done|]. intros [= Hr Hkeys].
    apply Forall_cons in Hall as [Hk Hall]. f_equal; [by apply fixRule_shown|by apply IH].
  - intros w1 Hw Hno. apply wp_try. wp_use (CreateTag_ok (W := W)). intros r w2 [Hw2 ->].
    wp_use (CreateFirewall_ok (W := W)). intros r w3 (id & name & -> & Hid & Hw3). rewrite Hw2, Hw in Hid, Hw3.
    apply (HQ w3 _ (mk_vFirewall [getTag prvdr] ∅) []).
    + rewrite Hw3. simpl. by rewrite lookup_insert_eq.
    + simpl. by left.
    + done.
    + constructor.
    + done.
    + right. by split.
Qed.

(** ** Setting ACLs *)

Lemma set_firewalls_same v id vf : dv_fws v !! id = Some vf → v = set_firewalls (<[id := vf]> (dv_fws v)) v.
Proof. intros Hvf. unfold set_firewalls. rewrite insert_id by done. by destruct v. Qed.

(** Adding or removing no rules is skipped, which makes no difference. *)
Lemma wp_addIf id rules keys vf w Q :
  dv_fws (dig w) !! id = Some vf → keyedRules rules keys → NoDup keys → list_to_set keys ## vf_rules vf →
  (∀ w', dig w' = set_firewalls (<[id := mk_vFirewall (vf_tags vf) (list_to_set keys ∪ vf_rules vf)]> (dv_fws (dig w))) (dig w) →
     Q (Val ()) w') →
  wp (if bool_decide (0 < length rules) then AddRules id rules else mret (Val ())) w Q.
Proof.
  intros Hvf Hk Hnd Hdis HQ. case_bool as [Hlen|Hlen].
  - wp_use (AddRules_ok (W := W)); [done|done|done|done|]. intros r w' [-> Hw]. by apply HQ.
  - wp_ret. apply HQ. destruct rules; [|simpl in Hlen; lia]. destruct keys; [|done]. simpl.
    rewrite (left_id_L ∅ (∪)). destruct vf. by apply set_firewalls_same.
Qed.

Lemma wp_removeIf id rules keys vf w Q :
  dv_fws (dig w) !! id = Some vf → keyedRules rules keys → NoDup keys → list_to_set keys ⊆ vf_rules vf →
  (∀ w', dig w' = set_firewalls (<[id := mk_vFirewall (vf_tags vf) (vf_rules vf ∖ list_to_set keys)]> (dv_fws (dig w))) (dig w) →
     Q (Val ()) w') →
  wp (if bool_decide (0 < length rules) then RemoveRules id rules else mret (Val ())) w Q.
Proof.
  intros Hvf Hk Hnd Hsub HQ. case_bool as [Hlen|Hlen].
  - wp_use (RemoveRules_ok (W := W)); [done|done|done|done|]. intros r w' [-> Hw]. by apply HQ.
  - wp_ret. apply HQ. destruct rules; [|simpl in Hlen; lia]. destruct keys; [|done]. simpl.
    rewrite difference_empty_L. destruct vf. by apply set_firewalls_same.
Qed.

(** C9: [SetACLs] makes the rules of the firewall exactly the ACLs (and
    everything between the machines).  Whatever rules the firewall of the
    namespace and region had, and also if there was none, [SetACLs] returns nil
    and leaves a firewall with the tag of the machines whose rules are TCP, UDP
    and ICMP for each ACL and TCP and UDP for machines with the tag, and
    nothing else; other firewalls are left alone.  The loop over the pages of
    the listing ends when it has as much fuel as there are pages. *)
Theorem do_SetACLs_exact n acls w :
  length (fwPages (dig w)) ≤ fuel →
  (∀ id vf k, dv_fws (dig w) !! id = Some vf → getTag prvdr ∈ vf_tags vf → k ∈ vf_rules vf → wfRule k) →
  wp (do_SetACLs fuel prvdr n acls) w (λ r w', r = Val () ∧
    ∃ id vf, getTag prvdr ∈ vf_tags vf ∧ vf_rules vf = doRules acls ∧
      dig w' = set_firewalls (<[id := vf]> (dv_fws (dig w))) (dig w) ∧
      ((∃ vf0, dv_fws (dig w) !! id = Some vf0 ∧ getTag prvdr ∈ vf_tags vf0) ∨
       (∀ i vf, dv_fws (dig w) !! i = Some vf → getTag prvdr ∉ vf_tags vf))).
Proof.
  intros Hf Hwf. unfold do_SetACLs. apply wp_try. apply wp_getCreateFirewall; [done|done|].
  intros w1 fw vf keys Hvf Ht Hkeys Hnd Hset Hw1. wp_bind.
  destruct (do_syncACLs_plan n acls _ _ Hkeys Hnd) as (add & remove & ka & kr & Hplan & Hka & Hkr & Hna & Hnr & Hina & Hinr).
  eapply wp_lift; [exact Hplan|].
  assert (dig w1 = set_firewalls (<[dfw_ID fw := vf]> (dv_fws (dig w))) (dig w)) as Hw1'.
  { destruct Hw1 as [Hw1|[_ Hw1]]; [|done]. rewrite Hw1 in *. apply set_firewalls_same, Hvf. }
  apply wp_try. eapply (wp_addIf _ _ ka); [done|done|done| |].
  { intros k Hk. rewrite <-Hset. rewrite !elem_of_list_to_set in *. by apply Hina in Hk as [_ ?]. }
  intros w2 Hw2. eapply (wp_removeIf _ _ kr (mk_vFirewall _ _)); [|done|done| |].
  { rewrite Hw2. simpl. by rewrite lookup_insert_eq. }
  { intros k. simpl. rewrite <-Hset, elem_of_union, !elem_of_list_to_set, Hinr. tauto. }
  intros w3 Hw3. split; [done|]. exists (dfw_ID fw), (mk_vFirewall (vf_tags vf) ((list_to_set ka ∪ vf_rules vf) ∖ list_to_set kr)). split_and!.
  - exact Ht.
  - simpl. apply set_eq. intros k. rewrite elem_of_difference, elem_of_union, <-Hset, !elem_of_list_to_set, Hina, Hinr.
    destruct (decide (k ∈ doRules acls)), (decide (k ∈ keys)); tauto.
  - rewrite Hw3, Hw2, Hw1'. unfold set_firewalls. simpl. by rewrite !insert_insert_eq.
  - destruct Hw1 as [Hw1|[Hno _]]; [left|by right]. exists vf. by rewrite <-Hw1.
Qed.
End acls.

(** The rules that [SetACLs] makes are shown and restored, unless an ACL has the one port 0. *)
Lemma doRules_wf prvdr acls k : Forall (λ a, portsOf a ≠ "0") acls → k ∈ doRules prvdr acls → wfRule k.
Proof.
  intros Hp. unfold doRules. rewrite elem_of_list_to_set, elem_of_app, elem_of_concat. rewrite Forall_forall in Hp.
  intros [(ks & (a & -> & Ha)%list_elem_of_fmap & Hk)|Hk].
  - specialize (Hp a Ha). unfold doKeys in Hk. repeat (apply elem_of_cons in Hk as [->|Hk]; [done|]). by apply not_elem_of_nil in Hk.
  - unfold internalKeys in Hk. repeat (apply elem_of_cons in Hk as [->|Hk]; [done|]). by apply not_elem_of_nil in Hk.
Qed.

(** ** Booting *)

Section boot.
Context `{MapOrder} `{Schedule} {W : Type} `{DOLaws W} (script : Machine → string → string) (prvdr : doProvider).
Implicit Types w : W.

(** The boot requests that one call makes, one per droplet. *)
Definition asked (req : DropletMultiCreateRequest) : list doBootRequest :=
  replicate (length (cr_Names req)) (cr_Size req, cr_UserData req).
(** A call that DigitalOcean accepts, for this provider. *)
Record okRequest (req : DropletMultiCreateRequest) : Prop := {
  ok_limit : 1 ≤ length (cr_Names req) ≤ 10;
  ok_region : cr_Region req = do_region prvdr;
  ok_image : cr_Image req = imageID;
  ok_tags : cr_Tags req = [getTag prvdr];
}.

Lemma splitRequests_ok rounds br count :
  (0 ≤ count)%Z → (count ≤ Z.of_nat rounds)%Z →
  Forall okRequest (splitRequests prvdr rounds br count) ∧
  concat (asked <$> splitRequests prvdr rounds br count) = replicate (Z.to_nat count) br.
Proof.
  revert count. induction rounds as [|rounds IH]; intros count Hnn Hle; simpl.
  { by replace count with 0%Z by lia. }
  case_bool as [Hpos|Hz]; [|by replace count with 0%Z by lia].
  set (k := if bool_decide (10 < count)%Z then 10%Z else count).
  assert (1 ≤ k ≤ 10 ∧ k ≤ count)%Z as Hk by (unfold k; case_bool; lia).
  destruct (IH (count - k)%Z) as [IHf IHc]; [lia|lia|]. csimpl. split.
  - constructor; [|done]. split; [|done..]. simpl. rewrite length_replicate. lia.
  - simpl. rewrite IHc. unfold asked, dropletRequest. simpl. rewrite length_replicate. destruct br as [size data]. simpl.
    rewrite <-replicate_add. f_equal. lia.
Qed.

Lemma bootRequests_ok n brs :
  Forall okRequest (bootRequests prvdr n brs) ∧ concat (asked <$> bootRequests prvdr n brs) ≡ₚ brs.
Proof.
  rewrite <-(countAll_expand brs) at 3. unfold bootRequests.
  assert (∀ kvs, (∀ kv, kv ∈ kvs → (0 < kv.2)%Z) →
    Forall okRequest (concat ((λ kv, splitRequests prvdr (Z.to_nat kv.2) kv.1 kv.2) <$> kvs)) ∧
    concat (asked <$> concat ((λ kv, splitRequests prvdr (Z.to_nat kv.2) kv.1 kv.2) <$> kvs)) = expand kvs) as Hkvs.
  { intros kvs. induction kvs as [|[br c] kvs IH]; intros Hpos; [done|].
    assert (0 < c)%Z as Hc0 by (apply (Hpos (br, c)); left).
    destruct (splitRequests_ok (Z.to_nat c) br c) as [Hf Hc]; [lia|lia|].
    destruct IH as [IHf IHc]; [intros kv ?; apply Hpos; by right|]. csimpl. split; [by apply Forall_app|].
    rewrite fmap_app, concat_app, Hc, IHc. done. }
  destruct (Hkvs (range n (countAll brs))) as [Hf Hc].
  { intros [k c] Hin%elem_of_range. by eapply countAll_positive. }
  split; [done|]. rewrite Hc. apply expand_perm, range_perm.
Qed.

(** The droplets of successive calls. *)
Lemma wp_createAll reqs w Q :
  Forall okRequest reqs →
  (∀ rs (news : list (Z * vDroplet)) w', Forall (λ r, ∃ ds, r = Val ds) rs →
     d_ID <$> concat ((λ r, match r with Val ds => ds | Err _ => [] end) <$> rs) = news.*1 →
     NoDup news.*1 → Forall (λ i, dv_droplets (dig w) !! i = None) news.*1 →
     (λ p, (vd_size p.2, vd_userData p.2)) <$> news = concat (asked <$> reqs) →
     Forall (λ p, vd_region p.2 = do_region prvdr ∧ vd_image p.2 = imageID ∧ vd_tags p.2 = [getTag prvdr]) news →
     dig w' = set_droplets (list_to_map news ∪ dv_droplets (dig w)) (dig w) → Q rs w') →
  wp (mapM_st CreateDroplets reqs) w Q.
Proof.
  intros Hok. revert w Q. induction Hok as [|req reqs [Hl Hreg Him Htag] Hok IH]; intros w Q HQ; simpl.
  { wp_ret. apply (HQ [] []); [constructor|done|constructor|constructor|done|constructor|]. simpl. rewrite (left_id_L ∅ (∪)). by destruct (dig w). }
  wp_bind. wp_use (CreateDroplets_ok (W := W)); [done|]. intros r w1 (ds & -> & Hlen & Hnd & Hfresh & Hw1).
  wp_bind. apply IH. intros rs news w2 Hrs Hids Hnds Hf Hreqs Hall Hw2. wp_ret.
  set (new1 := (λ d, (d_ID d, dropletOf req)) <$> ds).
  assert (new1.*1 = d_ID <$> ds) as Hfst by (unfold new1; rewrite <-list_fmap_compose; done).
  assert (∀ i, i ∈ news.*1 → i ∉ new1.*1) as Hdis.
  { intros i Hi Hi'. rewrite Forall_forall in Hf. specialize (Hf i Hi). rewrite Hw1 in Hf. simpl in Hf.
    apply lookup_union_None in Hf as [Hf _]. by apply not_elem_of_list_to_map_2 in Hf. }
  apply (HQ _ (new1 ++ news)).
  - constructor; eauto.
  - csimpl. simpl. by rewrite fmap_app, Hids, fmap_app, Hfst.
  - rewrite fmap_app. apply NoDup_app. split_and!; [by rewrite Hfst| |done]. intros i Hi Hi'. by eapply Hdis.
  - rewrite fmap_app, Forall_app, Hfst. split; [by apply Forall_fmap|]. eapply Forall_impl; [exact Hf|].
    intros i. rewrite Hw1. simpl. by intros [_ ?]%lookup_union_None.
  - csimpl. simpl. rewrite fmap_app, Hreqs. f_equal. unfold new1, asked. rewrite <-list_fmap_compose, <-Hlen.
    clear. induction ds as [|d ds IH]; [done|]. csimpl. by rewrite IH.
  - apply Forall_app. split; [|done]. unfold new1. apply Forall_fmap, Forall_true. intros d. by split_and!.
  - rewrite Hw2, Hw1. unfold set_droplets. simpl. f_equal. rewrite list_to_map_app, (assoc_L (∪)). f_equal.
    apply map_union_comm, map_disjoint_list_to_map_l, Forall_forall. intros [i x] Hi. simpl.
    apply not_elem_of_list_to_map_1, Hdis. apply list_elem_of_fmap. by exists (i, x).
Qed.

(** [Boot] boots exactly the machines it was asked for.  A preemptible
    machine anywhere is an error, and nothing is booted.  Otherwise, in
    whatever order the requests are answered, [Boot] returns nil and the IDs of
    the new droplets: one for each machine, of its size and with its boot
    script, in the region, with the image and the tag of the provider.  No
    request asks for more than the ten droplets that DigitalOcean allows. *)
Theorem do_Boot_exact n machines w :
  wp (do_Boot script prvdr n machines) w (λ res w',
    if existsb m_Preemptible machines then dig w' = dig w ∧ res = ([], Err "preemptible instances are not implemented")
    else res.2 = Val () ∧ ∃ news : list (Z * vDroplet), res.1 = fmtInt <$> news.*1 ∧
      NoDup news.*1 ∧ Forall (λ i, dv_droplets (dig w) !! i = None) news.*1 ∧
      (λ p, (vd_size p.2, vd_userData p.2)) <$> news ≡ₚ (λ m, (m_Size m, script m "")) <$> machines ∧
      Forall (λ p, vd_region p.2 = do_region prvdr ∧ vd_image p.2 = imageID ∧ vd_tags p.2 = [getTag prvdr]) news ∧
      dig w' = set_droplets (list_to_map news ∪ dv_droplets (dig w)) (dig w)).
Proof.
  unfold do_Boot. destruct (existsb m_Preemptible machines); [by wp_ret|]. wp_bind.
  set (brs := (λ m, (m_Size m, script m "")) <$> machines).
  destruct (bootRequests_ok n brs) as [Hok Hasked].
  destruct (concurrently_fmap n (CreateDroplets (W := W)) (bootRequests prvdr n brs)) as (reqs & Hperm & Hrun).
  unfold wp at 1. rewrite Hrun. change (wp (mapM_st CreateDroplets reqs) w ?Q) with (wp (mapM_st CreateDroplets reqs) w Q).
  apply wp_createAll; [by rewrite Hperm|]. intros rs news w' Hrs Hids Hnd Hf Hreqs Hall Hw'.
  assert (firstError ((λ r, match r with Val _ => Val () | Err e => Err e end) <$> rs) = Val ()) as ->.
  { clear -Hrs. induction Hrs as [|r rs [ds ->] _ IH]; [done|]. done. }
  wp_ret. split; [done|]. exists news. split_and!; [|done..| |done|done].
  - simpl. rewrite <-Hids, <-list_fmap_compose. done.
  - by rewrite Hreqs, Hperm.
Qed.
End boot.
