(* ===== verification/DropletsSim.v ===== *)
(** * Package digitalocean: a simulated DigitalOcean

    A client over a plain view that satisfies the laws, and the theorems on
    concrete views. *)

From S2P Require Import Prelude GoStrings Join Blueprint DbRows CloudJoin Backoff Providers Dns Ec2 Droplets DropletsSpec.

Definition simRule (k : ruleKey) : InboundRule :=
  let '(ports, protocol, addrs, tags) := k in
  mk_InboundRule protocol (shownPorts protocol ports) (Some (mk_Sources [addrs] [tags])).
Definition simListing (kv : string * vFirewall) : doFirewall :=
  mk_doFirewall kv.1 kv.1 (simRule <$> elements (vf_rules kv.2)) (vf_tags kv.2).
(** A page per firewall. *)
Definition simPages (v : doView) : list (list doFirewall) :=
  match map_to_list (dv_fws v) with [] => [[]] | l => (λ kv, [simListing kv]) <$> l end.
Definition simKeys (rules : list InboundRule) : list ruleKey :=
  omap (λ r, match ruleKeyOf r with Ok k => Some k | Panic _ => None end) rules.
Definition simEdit (id : string) (f : gset ruleKey → gset ruleKey) : M doView (result unit) := λ v,
  Ok (Val (), set_firewalls (alter (λ vf, mk_vFirewall (vf_tags vf) (f (vf_rules vf))) id (dv_fws v)) v).
Definition simDroplet (req : DropletMultiCreateRequest) (i : Z) : Droplet :=
  mk_Droplet i (Some (cr_Region req)) (cr_Size req) (Some [mk_NetworkV4 "1.1.1.1" "public"]) (cr_Tags req).

#[export] Instance simDO : DOClient doView := {
  do_clock := {| now _ := 0%Z; sleep _ v := v |};
  readKey := mret (Val "key");
  CreateDroplets req := λ v,
    let ds := simDroplet req <$> fresh_list (length (cr_Names req)) (dom (dv_droplets v)) in
    Ok (Val ds, set_droplets (list_to_map ((λ d, (d_ID d, dropletOf req)) <$> ds) ∪ dv_droplets v) v);
  DeleteDroplet i := λ v, Ok (Val (), set_droplets (delete i (dv_droplets v)) v);
  ListDroplets p := λ v,
    Ok (Val ((λ kv, mk_Droplet kv.1 (Some (vd_region kv.2)) (vd_size kv.2) (Some [mk_NetworkV4 "1.1.1.1" "public"])
                     (vd_tags kv.2)) <$> map_to_list (dv_droplets v), true), v);
  CreateTag tag := mret (Val ());
  do_ListFloatingIPs p := mret (Val ([], true));
  AssignFloatingIP ip i := mret (Val ());
  UnassignFloatingIP ip := mret (Val ());
  CreateFirewall tag outbound inbound := λ v,
    let id := fresh (dom (dv_fws v)) in
    Ok (Val (mk_doFirewall id tag inbound [tag]),
        set_firewalls (<[id := mk_vFirewall [tag] (list_to_set (simKeys inbound))]> (dv_fws v)) v);
  do_DeleteFirewall id := λ v, Ok (Val (), set_firewalls (delete id (dv_fws v)) v);
  do_ListFirewalls p := λ v,
    Ok (Val (default [] (simPages v !! Z.to_nat (p - 1)), bool_decide (length (simPages v) = Z.to_nat p)), v);
  AddRules id rules := simEdit id (λ s, list_to_set (simKeys rules) ∪ s);
  RemoveRules id rules := simEdit id (λ s, s ∖ list_to_set (simKeys rules));
}.

Lemma simKeys_ok rules keys : keyedRules rules keys → simKeys rules = keys.
Proof.
  unfold keyedRules. revert keys. induction rules as [|r rules IH]; intros [|k keys]; [done|done|done|].
  csimpl. intros [= Hr Hk]. unfold simKeys. simpl. rewrite Hr. f_equal. by apply IH.
Qed.

Lemma simListing_lists kv : lists (simListing kv) kv.2.
Proof.
  split; [done|]. exists (elements (vf_rules kv.2)). split_and!; [|apply NoDup_elements|by rewrite list_to_set_elements_L].
  simpl. rewrite <-!list_fmap_compose. apply list_fmap_ext. by intros i [[[p pr] a] t] _.
Qed.

Lemma elem_of_simPages v fw : fw ∈ concat (simPages v) ↔ ∃ kv, dv_fws v !! kv.1 = Some kv.2 ∧ fw = simListing kv.
Proof.
  unfold simPages. setoid_rewrite <-elem_of_map_to_list.
  assert (∀ l : list (string * vFirewall), fw ∈ concat ((λ kv, [simListing kv]) <$> l) ↔ ∃ kv, (kv.1, kv.2) ∈ l ∧ fw = simListing kv) as Hl.
  { intros l. rewrite elem_of_concat. split.
    - intros (x & (kv & -> & Hkv)%list_elem_of_fmap & ->%list_elem_of_singleton). exists kv. by destruct kv.
    - intros ([k vf] & Hkv & ->). exists [simListing (k, vf)]. split; [|by left].
      by apply (list_elem_of_fmap_2 (λ kv, [simListing kv])). }
  destruct (map_to_list (dv_fws v)) as [|kv l]; [|by rewrite Hl]. rewrite <-(Hl []). simpl. done.
Qed.

#[export] Instance simDO_laws : DOLaws doView.
Proof.
  refine {| dig := λ v, v; fwPages := simPages |}; intros; unfold wp; simpl.
  - unfold simPages. by destruct (map_to_list (dv_fws v)).
  - apply elem_of_simPages in H as (kv & Hkv & ->). exists kv.2. split; [done|apply simListing_lists].
  - destruct H as [vf Hvf]. apply list_elem_of_fmap. exists (simListing (id, vf)). split; [done|].
    apply elem_of_simPages. by exists (id, vf).
  - by rewrite H0.
  - done.
  - eexists _, _. split; [done|]. split; [apply not_elem_of_dom, is_fresh|done].
  - split; [done|]. by rewrite (simKeys_ok _ _ H0), (alter_some _ _ _ _ H).
  - split; [done|]. by rewrite (simKeys_ok _ _ H0), (alter_some _ _ _ _ H).
  - eexists. split; [done|]. rewrite length_fmap, length_fresh_list.
    assert (d_ID <$> (simDroplet req <$> fresh_list (length (cr_Names req)) (dom (dv_droplets w))) =
      fresh_list (length (cr_Names req)) (dom (dv_droplets w))) as Hids.
    { rewrite <-list_fmap_compose. by rewrite (list_fmap_ext _ id) by done; rewrite list_fmap_id. }
    split_and!; [done|rewrite Hids; apply NoDup_fresh_list| |done].
    apply Forall_fmap, Forall_forall. intros i Hi. simpl. apply not_elem_of_dom. by eapply fresh_list_is_fresh.
Defined.

(** ** Examples *)

#[local] Existing Instance fixed_order.

Definition demo_do : doProvider := mk_doProvider "ns" "sfo1".
Example newDigitalOcean_example v : newDigitalOcean "My_NS" "sfo1" v = Ok (Val (mk_doProvider "my-ns" "sfo1"), v).
Proof. done. Qed.

Definition demo_do_acls : list ACL := [mk_ACL "1.2.3.4/32" 80 80; mk_ACL "1.2.3.4/32" 90 99].
(** A firewall of another region, and one of ours with a rule that is wanted and one that is not. *)
Definition demo_do_view : doView :=
  mk_doView ∅ {["fw-1" := mk_vFirewall ["ns-nyc1"] {[("all", "tcp", "0.0.0.0/0", "")]};
                "fw-2" := mk_vFirewall ["ns-sfo1"] {[("all", "tcp", "", "ns-sfo1"); ("22", "tcp", "9.9.9.9/32", "")]}]}.

Example do_SetACLs_example :
  match do_SetACLs 2 demo_do 0 demo_do_acls demo_do_view with
  | Ok (r, v) => (r, bool_decide (vf_rules <$> dv_fws v !! "fw-2" = Some (doRules demo_do demo_do_acls)),
                  size (doRules demo_do demo_do_acls), bool_decide (dv_fws v !! "fw-1" = dv_fws demo_do_view !! "fw-1"))
  | Panic _ => (Err "panic", false, 0, false)
  end = (Val (), true, 7, true).
Proof. vm_compute. reflexivity. Qed.

Lemma demo_rules_wf id vf k :
  dv_fws demo_do_view !! id = Some vf → getTag demo_do ∈ vf_tags vf → k ∈ vf_rules vf → wfRule k.
Proof.
  intros Hvf _ Hk. assert (map_Forall (λ _ vf, Forall wfRule (elements (vf_rules vf))) (dv_fws demo_do_view)) as Hall.
  { vm_decide. }
  specialize (Hall id vf Hvf). rewrite Forall_forall in Hall. by apply Hall, elem_of_elements.
Qed.

Lemma do_SetACLs_exact_witness :
  wp (do_SetACLs 2 demo_do 0 demo_do_acls) demo_do_view (λ r w', r = Val () ∧
    ∃ id vf, getTag demo_do ∈ vf_tags vf ∧ vf_rules vf = doRules demo_do demo_do_acls ∧
      dig w' = set_firewalls (<[id := vf]> (dv_fws (dig demo_do_view))) (dig demo_do_view) ∧
      ((∃ vf0, dv_fws (dig demo_do_view) !! id = Some vf0 ∧ getTag demo_do ∈ vf_tags vf0) ∨
       (∀ i vf, dv_fws (dig demo_do_view) !! i = Some vf → getTag demo_do ∉ vf_tags vf))).
Proof.
  apply (do_SetACLs_exact demo_do 2 0 demo_do_acls demo_do_view); [vm_compute; lia|apply demo_rules_wf].
Defined.

Definition demo_boots : list Machine :=
  replicate 12 (mk_Machine 0 DigitalOcean "sfo1" "1gb" 0 [] "" false "" "" "" "" Worker false) ++
  [mk_Machine 0 DigitalOcean "sfo1" "2gb" 0 [] "" false "" "" "" "" Master false].

(** Twelve equal machines are two requests. *)
Example bootRequests_example :
  (λ r, (cr_Size r, length (cr_Names r))) <$>
    bootRequests demo_do 0 ((λ m, (m_Size m, m_Role m)) <$> demo_boots) = [("1gb", 10); ("1gb", 2); ("2gb", 1)].
Proof. vm_compute. reflexivity. Qed.

Lemma do_Boot_exact_witness :
  wp (do_Boot (λ m _, m_Role m) demo_do 0 demo_boots) demo_do_view (λ res w',
    if existsb m_Preemptible demo_boots
    then dig w' = dig demo_do_view ∧ res = ([], Err "preemptible instances are not implemented")
    else res.2 = Val () ∧ ∃ news : list (Z * vDroplet), res.1 = fmtInt <$> news.*1 ∧
      NoDup news.*1 ∧ Forall (λ i, dv_droplets (dig demo_do_view) !! i = None) news.*1 ∧
      (λ p, (vd_size p.2, vd_userData p.2)) <$> news ≡ₚ (λ m, (m_Size m, m_Role m)) <$> demo_boots ∧
      Forall (λ p, vd_region p.2 = do_region demo_do ∧ vd_image p.2 = imageID ∧ vd_tags p.2 = [getTag demo_do]) news ∧
      dig w' = set_droplets (list_to_map news ∪ dv_droplets (dig demo_do_view)) (dig demo_do_view)).
Proof. exact (do_Boot_exact (λ m _, m_Role m) demo_do 0 demo_boots demo_do_view). Defined.
