(* ===== verification/Vagrant.v ===== *)
(** * Package vagrant: the provider for local machines

    [vagrant.go] and [api.go] of [src/cloud/vagrant].  A machine is a directory below the
    user's home with three files; the vagrant command is run in it through a shell.  The shell, the
    command and the file system are the class [VagrantHost]; the text of the Vagrantfile, made by
    [text/template], is a parameter. *)

From S2P Require Import Prelude GoStrings Join Blueprint DbRows Db DbSpec DbTxn CloudJoin Providers.

Definition inboundPublicInterface : string := "enp0s8".
Definition cloudConfigPath : string := "/user-data".
Definition sizePath : string := "/size".
Definition vagrantFilePath : string := "/Vagrantfile".
Definition box : string := "ubuntu/xenial64".
Definition boxVersion : string := "20170515.0.0".

(** [sh] is [sh -c] with its standard output, [vagrantRun] the vagrant command. *)
Class VagrantHost (W : Type) := {
  homedir : M W (result string);
  vgExists : string → M W bool;
  vgMkdir : string → M W unit;
  vgWriteFile : string → string → M W (result unit);
  vgReadDir : string → M W (result (list string));
  sh : string → M W (result string);
  vagrantRun : list string → M W (result string);
  newUUID : M W string;
}.

(** [strings.Replace(commands, "%s", id, -1)] *)
Fixpoint replaceS (id s : string) : string :=
  match s with
  | "" => ""
  | String c s' =>
    match s' with
    | String d s'' => if bool_decide (c = "%"%char) && bool_decide (d = "s"%char) then id +:+ replaceS id s'' else String c (replaceS id s')
    | "" => s
    end
  end.

(** [words[len(words)-1] == name] for a line of the output of the vagrant command. *)
Definition lastWord (line : string) : string := List.last (Split "," line) "".
(** The state in the output of the status command: the fourth word of the first line whose third is "state". *)
Definition stateOf (output : string) : string :=
  default "" (head (omap (λ line, match Split "," line with _ :: _ :: kind :: state :: _ => if bool_decide (kind = "state") then Some state else None | _ => None end)
    (Split (ascii_of_nat 10) output))).

Section api.
Context {W : Type} `{VagrantHost W} (createVagrantFile : string).

Definition vagrantDir : M W (result string) :=
  let? dir := homedir in mret (Val (dir +:+ "/.vagrant/")).

Definition shellText (vdir id commands : string) : string := "(cd " +:+ (vdir +:+ id) +:+ "; " +:+ replaceS id commands +:+ ")".
Definition shell (id commands : string) : M W (result string) :=
  let? vdir := vagrantDir in sh (shellText vdir id commands).

(** An error of a command is replaced by a message. *)
Definition orMessage {A} (msg : string) (m : M W (result A)) : M W (result unit) :=
  let! r := m in mret (match r with Val _ => Val () | Err _ => Err msg end).

Definition upCommands : string := "vagrant --machine-readable up".
Definition up (id : string) : M W (result unit) := orMessage "unable to start machine" (shell id upCommands).
Definition destroyCommands : string := "vagrant --machine-readable destroy -f; cd ../; rm -rf %s".
Definition destroy (id : string) : M W (result unit) := orMessage "unable to destroy machine" (shell id destroyCommands).

(** [vagrant ssh -c "ip -f inet addr show %s | grep -Po 'inet \K[\d.]+'"] *)
Definition ipCommands : string :=
  "vagrant ssh -c " +:+ String quoteChar ("ip -f inet addr show " +:+ inboundPublicInterface +:+ " | grep -Po 'inet \K[\d.]+'") +:+ String quoteChar "".
Definition trimNewline (s : string) : string :=
  let n := String.length s - 1 in if bool_decide (String.substring n 1 s = newline) then String.substring 0 n s else s.
Definition publicIP (id : string) : M W (result string) :=
  let? ip := shell id ipCommands in mret (Val (trimNewline ip)).

Definition vgStatus (id : string) : M W (result string) :=
  let! r := shell id "vagrant --machine-readable status" in
  mret (match r with Val output => Val (stateOf output) | Err _ => Err "unable to retrieve machine status" end).
Definition vgSize (id : string) : M W string :=
  let! r := shell id "cat size" in mret (match r with Val size => size | Err _ => "" end).

(** The directories.  An error of [Mkdir] is not looked at. *)
Definition initMachine (cloudConfig size id : string) : M W (result unit) :=
  let? vdir := vagrantDir in
  let! there := vgExists vdir in
  (if there : bool then mret () else vgMkdir vdir) ;;;
  let path := vdir +:+ id in
  vgMkdir path ;;;
  let! r := vgWriteFile (path +:+ cloudConfigPath) cloudConfig in
  match r with
  | Err e => destroy id ;;; mret (Err e)
  | Val _ =>
    let! r := vgWriteFile (path +:+ vagrantFilePath) createVagrantFile in
    match r with
    | Err e => destroy id ;;; mret (Err e)
    | Val _ =>
      let! r := vgWriteFile (path +:+ sizePath) size in
      match r with
      | Err e => destroy id ;;; mret (Err e)
      | Val _ => mret (Val ())
      end
    end
  end.

Definition vgList : M W (result (list string)) :=
  let? vdir := vagrantDir in
  let! there := vgExists vdir in
  if there : bool then vgReadDir vdir else mret (Val []).

Definition containsBox (name : string) : M W (result bool) :=
  let! r := vagrantRun ["--machine-readable"; "box"; "list"] in
  mret (match r with
        | Err _ => Err "unable to list machines"
        | Val output => Val (existsb (λ line, bool_decide (lastWord line = name)) (Split (ascii_of_nat 10) output))
        end).
Definition addBox (name provider : string) : M W (result unit) :=
  let! there := containsBox name in
  match there with
  | Val true => mret (Val ())
  | _ => orMessage "unable to add box" (vagrantRun ["--machine-readable"; "box"; "add"; "--provider"; provider; name; "--box-version"; boxVersion])
  end.

(** ** The provider *)

Definition newVagrant : M W (result unit) := addBox box "virtualbox".

(** [cfg.Ubuntu] is [script]. *)
Context (script : Machine → string → string).

Definition bootMachine (idm : string * Machine) : M W (result unit) :=
  let '(id, m) := idm in
  let! err := let? _ := initMachine (script m inboundPublicInterface) (m_Size m) id in up id in
  match err with
  | Err e => destroy id ;;; mret (Err e)
  | Val _ => mret (Val ())
  end.

(** The goroutines work on different directories; they are run in an arbitrary order.  The channel
    keeps the first error. *)
Definition vg_Boot `{Schedule} (n : nat) (bootSet : list Machine) : M W (list string * result unit) :=
  if existsb m_Preemptible bootSet then mret ([], Err "vagrant does not support preemptible instances")
  else
    let! ids := mapM_st (λ _, newUUID) bootSet in
    let! results := concurrently n (bootMachine <$> zip ids bootSet) in
    mret (ids, firstError results).

Definition vgMachine (instanceID : string) : M W Machine :=
  let! r := publicIP instanceID in
  let ip := match r with Val ip => ip | Err _ => "" end in
  let! size := vgSize instanceID in
  mret (mk_Machine 0 Vagrant "" size 0 [] "" false instanceID ip ip "" "" false).
Definition vg_List : M W (result (list Machine)) :=
  let? instanceIDs := vgList in
  let! machines := mapM_st vgMachine instanceIDs in
  mret (Val machines).

(** The machines listed are Vagrant's, which has no regions. *)
Lemma vg_List_ours ns : listsOurs (mk_cloud ns Vagrant "") vg_List.
Proof.
  intros w. unfold vg_List, tryM, mbind, M_bind. destruct (vgList w) as [[[ids|e] w1]|]; [|done..]. cbn.
  assert (∀ w1, match mapM_st vgMachine ids w1 with Ok (ms, _) => ∀ m, m ∈ ms → ours (mk_cloud ns Vagrant "") m | _ => True end) as Hms.
  { induction ids as [|i ids IH]; intros w2; [by intros m ?%elem_of_nil|]. simpl. unfold mbind, M_bind, vgMachine at 1.
    unfold mbind, M_bind. destruct (publicIP i w2) as [[r w3]|]; [|done]. destruct (vgSize i w3) as [[sz w4]|]; [|done]. cbn.
    specialize (IH w4). unfold vgMachine in IH. destruct (mapM_st _ ids w4) as [[ms w5]|]; [|done]. cbn.
    intros m [->|Hm]%elem_of_cons; [done|auto]. }
  specialize (Hms w1). by destruct (mapM_st vgMachine ids w1) as [[ms w2]|].
Qed.

Fixpoint vg_Stop (machines : list Machine) : M W (result unit) :=
  match machines with
  | [] => mret (Val ())
  | m :: machines => let? _ := destroy (m_CloudID m) in vg_Stop machines
  end.

Definition vg_SetACLs (acls : list ACL) : M W (result unit) := mret (Val ()).
Definition vg_UpdateFloatingIPs (machines : list Machine) : M W (result unit) := mret (Err "vagrant provider does not support floating IPs").
Definition vg_Cleanup : M W (result unit) := mret (Val ()).
End api.

Example shellText_example : shellText "/home/u/.vagrant/" "id1" destroyCommands =
  "(cd /home/u/.vagrant/id1; vagrant --machine-readable destroy -f; cd ../; rm -rf id1)".
Proof. reflexivity. Qed.
Example stateOf_example : stateOf ("1,default,metadata,provider" +:+ newline +:+ "2,default,state,running" +:+ newline +:+ "3,default,state-human-short,running") = "running".
Proof. reflexivity. Qed.
