(* ===== verification/VagrantSpec.v ===== *)
(** * What the Vagrant provider does

    The directories of the machines and the machines that run, as the shell, the
    vagrant command and the file system leave them; booting, listing and
    stopping machines. *)

From S2P Require Import Prelude GoStrings Join Blueprint DbRows Db DbSpec DbTxn CloudJoin Providers Vagrant.

(** IDs that the shell does not interpret: hexadecimal digits and dashes, as in UUIDs. *)
Fixpoint plainID (id : string) : bool :=
  match id with
  | "" => true
  | String c id =>
    let n := nat_of_ascii c in
    (bool_decide (48 ≤ n ≤ 57) || bool_decide (97 ≤ n ≤ 102) || bool_decide (n = 45)) && plainID id
  end.

(** The directories with their files, the machines that run, the IDs that were handed out, and how often vagrant
    was told to destroy the machine of the daemon's own working directory.  A command line
    begins with [cd], and goes on where it is if the directory does not exist.  [rm] decides whether
    destroying succeeds, so the machine may still run. *)
Class VagrantLaws (W : Type) `{VagrantHost W} := {
  vdirs : W → gmap string (gmap string string);
  vup : W → gset string;
  vused : W → gset string;
  vstray : W → nat;
  vhome : string;
  vbase : string := vhome +:+ "/.vagrant/";
  vkeeps (w w' : W) : Prop := vdirs w' = vdirs w ∧ vup w' = vup w ∧ vused w' = vused w ∧ vstray w' = vstray w;
  vonly (id : string) (w w' : W) : Prop :=
    vused w' = vused w ∧ ∀ other, other ≠ id → vdirs w' !! other = vdirs w !! other ∧ (other ∈ vup w' ↔ other ∈ vup w);
  homedir_ok w : wp homedir w (λ r w', r = Val vhome ∧ vkeeps w w');
  exists_ok w : wp (vgExists vbase) w (λ r w', vkeeps w w' ∧ (vdirs w ≠ ∅ → r = true));
  mkdir_base_ok w : wp (vgMkdir vbase) w (λ _ w', vkeeps w w');
  mkdir_ok id w : plainID id → vdirs w !! id = None →
    wp (vgMkdir (vbase +:+ id)) w (λ _ w', vonly id w w' ∧ vstray w' = vstray w ∧ (vdirs w' !! id = None ∨ vdirs w' !! id = Some ∅));
  write_ok id name content w : plainID id → name ∈ [cloudConfigPath; vagrantFilePath; sizePath] →
    wp (vgWriteFile ((vbase +:+ id) +:+ name) content) w (λ r w', vonly id w w' ∧ vstray w' = vstray w ∧ (is_Some (vdirs w' !! id) ↔ is_Some (vdirs w !! id)) ∧
      (r = Val () → ∃ files, vdirs w !! id = Some files ∧ vdirs w' !! id = Some (<[name := content]> files)));
  up_ok id w : plainID id → is_Some (vdirs w !! id) →
    wp (sh ("(cd " +:+ (vbase +:+ id) +:+ "; vagrant --machine-readable up)")) w (λ r w', vonly id w w' ∧ vdirs w' !! id = vdirs w !! id ∧ vstray w' = vstray w ∧ ∀ out, r = Val out → id ∈ vup w');
  destroy_ok id w : plainID id →
    wp (sh ("(cd " +:+ (vbase +:+ id) +:+ "; vagrant --machine-readable destroy -f; cd ../; rm -rf " +:+ id +:+ ")")) w (λ r w', vonly id w w' ∧ (∀ out, r = Val out → vdirs w' !! id = None) ∧
      vstray w' = if decide (is_Some (vdirs w !! id)) then vstray w else S (vstray w));
  ip_ok id w : plainID id → wp (sh (shellText vbase id ipCommands)) w (λ _ w', vkeeps w w');
  size_ok id w : plainID id → wp (sh ("(cd " +:+ (vbase +:+ id) +:+ "; cat size)")) w (λ r w', vkeeps w w' ∧
    ∀ files size, vdirs w !! id = Some files → files !! sizePath = Some size → r = Val size);
  readdir_ok w : wp (vgReadDir vbase) w (λ r w', vkeeps w w' ∧ ∀ l, r = Val l → l ≡ₚ elements (dom (vdirs w)));
  uuid_ok w : wp newUUID w (λ id w', vdirs w' = vdirs w ∧ vup w' = vup w ∧ vstray w' = vstray w ∧
    plainID id ∧ id ∉ vused w ∧ vused w' = {[id]} ∪ vused w);
}.

Lemma shellText_destroy base id : shellText base id destroyCommands =
  "(cd " +:+ (base +:+ id) +:+ "; vagrant --machine-readable destroy -f; cd ../; rm -rf " +:+ id +:+ ")".
Proof.
  assert (∀ t, t +:+ "" = t) as Hnil. { intros t. induction t as [|c t IH]; [done|]. exact (f_equal (String c) IH). }
  assert (replaceS id destroyCommands = "vagrant --machine-readable destroy -f; cd ../; rm -rf " +:+ id) as Hr by exact (f_equal (String.append "vagrant --machine-readable destroy -f; cd ../; rm -rf ") (Hnil id)).
  unfold shellText. by rewrite Hr.
Qed.

Section spec.
Context {W : Type} `{VagrantLaws W} (createVagrantFile : string) (script : Machine → string → string).
Implicit Types w : W.

Lemma vkeeps_refl w : vkeeps w w.
Proof. done. Qed.
Lemma vkeeps_trans w1 w2 w3 : vkeeps w1 w2 → vkeeps w2 w3 → vkeeps w1 w3.
Proof. intros (? & ? & ? & ?) (? & ? & ? & ?). split_and!; congruence. Qed.
Lemma vonly_refl id w : vonly id w w.
Proof. done. Qed.
Lemma vonly_trans id w1 w2 w3 : vonly id w1 w2 → vonly id w2 w3 → vonly id w1 w3.
Proof. intros [Hu1 H1] [Hu2 H2]. split; [congruence|]. intros o Ho. destruct (H2 o Ho) as [-> ->], (H1 o Ho) as [-> ->]. done. Qed.
Lemma vkeeps_only id w w' : vkeeps w w' → vonly id w w'.
Proof. intros (Hd & Hu & Hi & _). split; [done|]. intros o _. by rewrite Hd, Hu. Qed.

Lemma wp_vagrantDir w Q : (∀ w', vkeeps w w' → Q (Val vbase) w') → wp vagrantDir w Q.
Proof. intros HQ. unfold vagrantDir. apply wp_try. eapply wp_mono; [apply homedir_ok|]. intros r w' [-> Hk]. wp_ret. by apply HQ. Qed.

Lemma wp_shell id commands w Q : (∀ w', vkeeps w w' → wp (sh (shellText vbase id commands)) w' Q) → wp (shell id commands) w Q.
Proof. intros HQ. unfold shell. apply wp_try, wp_vagrantDir. exact HQ. Qed.

Lemma wp_orMessage {A} msg (m : M W (result A)) w Q :
  wp m w (λ r w', Q (match r with Val _ => Val () | Err _ => Err msg end) w') → wp (orMessage msg m) w Q.
Proof. intros Hm. unfold orMessage. wp_bind. eapply wp_mono; [exact Hm|]. intros r w' HQ. by wp_ret. Qed.

Lemma wp_destroy id w : plainID id → wp (destroy id) w (λ r w', vonly id w w' ∧ (r = Val () → vdirs w' !! id = None)).
Proof.
  intros Hid. apply wp_orMessage, wp_shell. intros w1 Hk. rewrite shellText_destroy. eapply wp_mono; [by apply destroy_ok|]. intros [out|e] w2 (Ho & Hv & _);
    (split; [eapply vonly_trans; [by apply vkeeps_only|done]|]); intros ?; [by eapply Hv|done].
Qed.

Lemma wp_up id w : plainID id → is_Some (vdirs w !! id) →
  wp (up id) w (λ r w', vonly id w w' ∧ vdirs w' !! id = vdirs w !! id ∧ (r = Val () → id ∈ vup w')).
Proof.
  intros Hid Hd. apply wp_orMessage, wp_shell. intros w1 Hk. pose proof Hk as (Hkd & _). eapply wp_mono; [apply up_ok; [done|by rewrite Hkd]|].
  intros [out|e] w2 (Ho & Hd' & _ & Hv); rewrite Hkd in Hd'; (split_and!; [eapply vonly_trans; [by apply vkeeps_only|done]|done|]); intros ?; [by eapply Hv|done].
Qed.

Definition machineFiles (m : Machine) : gmap string string :=
  <[sizePath := m_Size m]> (<[vagrantFilePath := createVagrantFile]> (<[cloudConfigPath := script m inboundPublicInterface]> ∅)).

(** One file of [initMachine]: the error path, and the rest after it. *)
Lemma wp_writeOr id name content w0 w (k : M W (result unit)) Q :
  plainID id → name ∈ [cloudConfigPath; vagrantFilePath; sizePath] → vonly id w0 w →
  (∀ e w', vonly id w0 w' → Q (Err e) w') →
  (∀ files w', vdirs w !! id = Some files → vonly id w0 w' → vdirs w' !! id = Some (<[name := content]> files) → wp k w' Q) →
  wp (let! r := vgWriteFile ((vbase +:+ id) +:+ name) content in
      match r with Err e => destroy id ;;; mret (Err e) | Val _ => k end) w Q.
Proof.
  intros Hid Hn Ho HE HV. wp_bind. eapply wp_mono; [by apply write_ok|]. intros [[]|e] w1 (Ho1 & _ & _ & Hv).
  - destruct (Hv eq_refl) as (files & Hf & Hf'). eapply HV; [done| |done]. by eapply vonly_trans.
  - wp_bind. eapply wp_mono; [by apply wp_destroy|]. intros r w2 [Ho2 _]. wp_ret. apply HE. eapply vonly_trans; [done|]. by eapply vonly_trans.
Qed.

Lemma wp_initMachine m id w : plainID id → vdirs w !! id = None →
  wp (initMachine createVagrantFile (script m inboundPublicInterface) (m_Size m) id) w (λ r w', vonly id w w' ∧
    (r = Val () → vdirs w' !! id = Some (machineFiles m))).
Proof.
  intros Hid Hnone. unfold initMachine. apply wp_try, wp_vagrantDir. intros w1 Hk1.
  wp_bind. eapply wp_mono; [apply exists_ok|]. intros there w2 [Hk2 _]. wp_bind.
  assert (wp (if there : bool then mret () else vgMkdir vbase) w2 (λ _ w3, vkeeps w w3)) as Hbase.
  { pose proof (vkeeps_trans _ _ _ Hk1 Hk2) as Hk. destruct there; [by wp_ret|]. eapply wp_mono; [apply mkdir_base_ok|]. intros ? w3 ?. by eapply vkeeps_trans. }
  eapply wp_mono; [exact Hbase|]. intros u3 w3 Hk3. pose proof Hk3 as (Hd3 & _).
  wp_bind. eapply wp_mono; [apply mkdir_ok; [done|by rewrite Hd3]|]. intros u4 w4 (Ho4 & _ & Hnew).
  pose proof (vonly_trans id _ _ _ (vkeeps_only id _ _ Hk3) Ho4) as Ho.
  assert (∀ (e : string) w', vonly id w w' → vonly id w w' ∧ (@Err unit e = Val () → vdirs w' !! id = Some (machineFiles m))) as HE by done.
  apply (wp_writeOr id cloudConfigPath _ w); [done|by left|done|by auto|]. intros f5 w5 Hf5 Ho5 Hd5.
  apply (wp_writeOr id vagrantFilePath _ w); [done|by right; left|done|by auto|]. intros f6 w6 Hf6 Ho6 Hd6.
  apply (wp_writeOr id sizePath _ w); [done|by right; right; left|done|by auto|]. intros f7 w7 Hf7 Ho7 Hd7.
  wp_ret. split; [done|]. intros _. rewrite Hd7. f_equal. unfold machineFiles. destruct Hnew; congruence.
Qed.

Lemma wp_bootMachine id m w : plainID id → vdirs w !! id = None →
  wp (bootMachine createVagrantFile script (id, m)) w (λ r w', vonly id w w' ∧ (r = Val () → vdirs w' !! id = Some (machineFiles m) ∧ id ∈ vup w')).
Proof.
  intros Hid Hnone. unfold bootMachine. wp_bind.
  assert (∀ (e : string) w1, vonly id w w1 →
    wp (destroy id ;;; mret (Err e)) w1 (λ r w', vonly id w w' ∧ (r = Val () → vdirs w' !! id = Some (machineFiles m) ∧ id ∈ vup w'))) as HE.
  { intros e w1 Ho1. wp_bind. eapply wp_mono; [by apply wp_destroy|]. intros r w2 [Ho2 _]. wp_ret. split; [by eapply vonly_trans|done]. }
  apply wp_try. eapply wp_mono; [by apply wp_initMachine|]. intros [[]|e] w1 [Ho1 Hd1]; [|by apply HE].
  specialize (Hd1 eq_refl). eapply wp_mono; [apply wp_up; [done|by rewrite Hd1]|]. intros [[]|e] w2 (Ho2 & Hd2 & Hup).
  - wp_ret. split; [by eapply vonly_trans|]. intros _. rewrite Hd2. auto.
  - apply HE. by eapply vonly_trans.
Qed.

(** The machines [ids] may differ; all others are as they were. *)
Definition vothers (ids : list string) w w' : Prop :=
  ∀ other, other ∉ ids → vdirs w' !! other = vdirs w !! other ∧ (other ∈ vup w' ↔ other ∈ vup w).
Definition booted w (idm : string * Machine) : Prop := vdirs w !! idm.1 = Some (machineFiles idm.2) ∧ idm.1 ∈ vup w.

Lemma wp_bootAll idms w :
  NoDup idms.*1 → Forall (λ id, plainID id ∧ vdirs w !! id = None) idms.*1 →
  wp (mapM_st (bootMachine createVagrantFile script) idms) w (λ rs w', vothers idms.*1 w w' ∧
    (firstError rs = Val () → Forall (booted w') idms)).
Proof.
  revert w. induction idms as [|[id m] idms IH]; intros w Hnd Hnone; simpl; [by wp_ret|].
  csimpl in Hnd. csimpl in Hnone. apply NoDup_cons in Hnd as [Hnew Hnd]. apply Forall_cons in Hnone as [[Hid Hn] Hnone].
  wp_bind. eapply wp_mono; [by apply wp_bootMachine|]. intros r w1 [[_ Ho1] Hb1]. wp_bind. eapply wp_mono; [apply IH; [done|]|].
  { rewrite Forall_forall in Hnone |- *. intros o Hin. destruct (Hnone o Hin) as [? ?]. split; [done|]. destruct (Ho1 o) as [-> _]; [by intros ->|done]. }
  intros rs w2 [Ho2 Hb2]. wp_ret. split.
  - intros o Hin. csimpl in Hin. apply not_elem_of_cons in Hin as [Hne Hin]. destruct (Ho2 o Hin) as [-> ->]. by apply Ho1.
  - intros Hf. destruct r as [[]|e]; [|done]. constructor; [|by apply Hb2]. unfold booted. simpl. destruct (Ho2 id Hnew) as [-> ->]. by apply Hb1.
Qed.

Lemma wp_newUUIDs {A} (xs : list A) w :
  wp (mapM_st (λ _, newUUID) xs) w (λ ids w', length ids = length xs ∧ NoDup ids ∧ Forall (λ id, plainID id ∧ id ∉ vused w) ids ∧
    vdirs w' = vdirs w ∧ vup w' = vup w ∧ vused w' = list_to_set ids ∪ vused w).
Proof.
  revert w. induction xs as [|x xs IH]; intros w; simpl.
  { wp_ret. split_and!; [done|constructor|done|done|done|]. set_solver. }
  wp_bind. eapply wp_mono; [apply uuid_ok|]. intros id w1 (Hd1 & Hu1 & _ & Hp & Hf & Hs1). wp_bind. eapply wp_mono; [apply IH|].
  intros ids w2 (Hl & Hnd & Hall & Hd2 & Hu2 & Hs2). wp_ret. split_and!; [by simpl; rewrite Hl| | |congruence|congruence|].
  - constructor; [|done]. intros Hin. rewrite Forall_forall in Hall. destruct (Hall id Hin). set_solver.
  - constructor; [done|]. eapply Forall_impl; [exact Hall|]. intros o [? ?]. split; [done|]. set_solver.
  - rewrite Hs2, Hs1. set_solver.
Qed.

Lemma wp_vgList w : wp vgList w (λ r w', vkeeps w w' ∧ ∀ l, r = Val l → l ≡ₚ elements (dom (vdirs w))).
Proof.
  unfold vgList. apply wp_try, wp_vagrantDir. intros w1 Hk1. pose proof Hk1 as (Hd1 & _). wp_bind. eapply wp_mono; [apply exists_ok|]. intros there w2 [Hk2 Hex].
  pose proof Hk2 as (Hd2 & _). destruct there.
  - eapply wp_mono; [apply readdir_ok|]. intros r w3 [Hk3 Hl]. split; [eapply vkeeps_trans; [done|by eapply vkeeps_trans]|]. intros l ->.
    by rewrite (Hl _ eq_refl), Hd2, Hd1.
  - wp_ret. split; [by eapply vkeeps_trans|]. intros l [= <-]. rewrite <-Hd1. destruct (decide (vdirs w1 = ∅)) as [->|Hne]; [by rewrite dom_empty_L|].
    by specialize (Hex Hne).
Qed.

(** What [List] says about the machine [id]. *)
Definition describes w (id : string) (m : Machine) : Prop :=
  m_CloudID m = id ∧ m_Provider m = Vagrant ∧ ∀ files size, vdirs w !! id = Some files → files !! sizePath = Some size → m_Size m = size.

Lemma wp_vgMachine id w : plainID id → wp (vgMachine id) w (λ m w', vkeeps w w' ∧ describes w id m).
Proof.
  intros Hid. unfold vgMachine. wp_bind. unfold publicIP. apply wp_try, wp_shell. intros w1 Hk1. eapply wp_mono; [by apply ip_ok|]. intros r w2 Hk2.
  pose proof (vkeeps_trans _ _ _ Hk1 Hk2) as Hk. pose proof Hk as (Hd & _).
  assert (∀ ip, wp (let! size := vgSize id in mret (mk_Machine 0 Vagrant "" size 0 [] "" false id ip ip "" "" false)) w2 (λ m w', vkeeps w w' ∧ describes w id m)) as Hsize.
  { intros ip. wp_bind. unfold vgSize. wp_bind. apply wp_shell. intros w3 Hk3. pose proof Hk3 as (Hd3 & _). eapply wp_mono; [by apply size_ok|]. intros rs w4 [Hk4 Hs].
    wp_ret. wp_ret. split; [eapply vkeeps_trans; [done|by eapply vkeeps_trans]|]. split_and!; [done|done|]. intros files size Hf Hsz. simpl.
    rewrite <-Hd, <-Hd3 in Hf. by rewrite (Hs _ _ Hf Hsz). }
  destruct r; [wp_ret|]; apply Hsize.
Qed.

Lemma wp_vg_List w : (∀ id, id ∈ dom (vdirs w) → plainID id) →
  wp vg_List w (λ r w', vkeeps w w' ∧ ∀ ms, r = Val ms → m_CloudID <$> ms ≡ₚ elements (dom (vdirs w)) ∧ ∀ m, m ∈ ms → describes w (m_CloudID m) m).
Proof.
  intros Hplain. unfold vg_List. apply wp_try. eapply wp_mono; [apply wp_vgList|]. intros [l|e] w1 [Hk1 Hl]; [|by split].
  specialize (Hl _ eq_refl). assert (Forall plainID l) as Hpl.
  { rewrite Hl. apply Forall_forall. intros id Hid%elem_of_elements. by apply Hplain. }
  wp_bind. assert (wp (mapM_st vgMachine l) w1 (λ ms w', vkeeps w w' ∧ m_CloudID <$> ms = l ∧ ∀ m, m ∈ ms → describes w (m_CloudID m) m)) as Hms.
  { clear Hl. revert w1 Hk1. induction Hpl as [|id l Hid _ IH]; intros w1 Hk1; simpl; [wp_ret; split_and!; [done|done|by intros m ?%not_elem_of_nil]|].
    wp_bind. eapply wp_mono; [by apply wp_vgMachine|]. intros m w2 [Hk2 Hm]. wp_bind. eapply wp_mono; [apply IH; by eapply vkeeps_trans|].
    intros ms w3 (Hk3 & Hids & Hall). wp_ret. destruct Hk1 as (Hd1 & _). unfold describes in Hm. rewrite Hd1 in Hm. destruct Hm as (Hid' & Hrest).
    split_and!; [done|by csimpl; rewrite Hid', Hids|]. intros m' [->|Hin]%elem_of_cons; [|by apply Hall]. split; [done|]. by rewrite Hid'. }
  eapply wp_mono; [exact Hms|]. intros ms w2 (Hk2 & Hids & Hall). wp_ret. split; [done|]. intros ms' [= <-]. by rewrite Hids.
Qed.

Lemma wp_vg_Stop ms w : Forall plainID (m_CloudID <$> ms) →
  wp (vg_Stop ms) w (λ r w', vothers (m_CloudID <$> ms) w w' ∧ (r = Val () → ∀ id, id ∈ m_CloudID <$> ms → vdirs w' !! id = None)).
Proof.
  revert w. induction ms as [|m ms IH]; intros w Hpl; simpl; [wp_ret; split; [done|by intros _ id ?%not_elem_of_nil]|].
  csimpl in Hpl. apply Forall_cons in Hpl as [Hid Hpl]. apply wp_try. eapply wp_mono; [by apply wp_destroy|]. intros [[]|e] w1 [[_ Ho1] Hd1].
  - eapply wp_mono; [by apply IH|]. intros r w2 [Ho2 Hd2]. csimpl. split.
    + intros o [Hne Hin]%not_elem_of_cons. destruct (Ho2 o Hin) as [-> ->]. by apply Ho1.
    + intros -> id [->|Hin]%elem_of_cons; [|by apply Hd2]. destruct (decide (m_CloudID m ∈ m_CloudID <$> ms)) as [Hin|Hin]; [by apply Hd2|].
      destruct (Ho2 _ Hin) as [-> _]. by apply Hd1.
  - split; [|done]. csimpl. intros o [Hne Hin]%not_elem_of_cons. by apply Ho1.
Qed.

Lemma wp_same {A} (m m' : M W A) w Q : (∀ w, m w = m' w) → wp m' w Q → wp m w Q.
Proof. unfold wp. by intros ->. Qed.

Lemma wp_vg_Boot `{Schedule} n bootSet w :
  dom (vdirs w) ⊆ vused w → existsb m_Preemptible bootSet = false →
  wp (vg_Boot createVagrantFile script n bootSet) w (λ r w1,
    length r.1 = length bootSet ∧ NoDup r.1 ∧ (∀ id, id ∈ r.1 → plainID id ∧ vdirs w !! id = None) ∧ vothers r.1 w w1 ∧
    (r.2 = Val () → ∀ i id m, r.1 !! i = Some id → bootSet !! i = Some m → booted w1 (id, m))).
Proof.
  intros Hused Hpre. unfold vg_Boot. rewrite Hpre. wp_bind. eapply wp_mono; [apply wp_newUUIDs|].
  intros ids w0 (Hlen & Hnd & Hfresh & Hd0 & Hu0 & _).
  assert (∀ id, id ∈ ids → plainID id ∧ vdirs w !! id = None) as Hids.
  { rewrite Forall_forall in Hfresh. intros id Hin. destruct (Hfresh id Hin) as [? Hf]. split; [done|]. apply not_elem_of_dom. set_solver. }
  wp_bind. destruct (concurrently_fmap n (bootMachine createVagrantFile script) (zip ids bootSet)) as (idms & Hperm & Hrun).
  eapply wp_same; [exact Hrun|]. assert (idms.*1 ≡ₚ ids) as Hperm1. { rewrite Hperm. rewrite fst_zip; [done|lia]. }
  eapply wp_mono; [apply wp_bootAll; [by rewrite Hperm1|]|].
  { rewrite Hperm1. apply Forall_forall. intros id Hin. rewrite Hd0. by apply Hids. }
  intros rs w1 [Ho Hb]. wp_ret. cbn [fst snd]. split_and!; [done|done|done| |].
  - intros o Hin. rewrite <-Hperm1 in Hin. destruct (Ho o Hin) as [-> ->]. by rewrite Hd0, Hu0.
  - intros Hnil i id m Hi Hm. specialize (Hb Hnil). rewrite Hperm, Forall_forall in Hb. apply Hb.
    apply list_elem_of_lookup_2 with i. apply lookup_zip_with_Some. by exists id, m.
Qed.

(** If a file cannot be written, the half-made machine is destroyed twice, the second time after its directory is gone: then
    vagrant destroys the machine of the directory that the daemon was started in, if there is one. *)
Lemma failed_boot_destroys_elsewhere id w :
  plainID id → is_Some (vdirs w !! id) →
  wp (destroy id) w (λ r w1, r = Val () → wp (destroy id) w1 (λ _ w2, vstray w2 = S (vstray w))).
Proof.
  intros Hid Hd. apply wp_orMessage, wp_shell. intros w1 (Hk1 & _ & _ & Hs1). rewrite shellText_destroy. eapply wp_mono; [by apply destroy_ok|]. intros [out|err] w2 (_ & Hv & Hst) Hr; [|done].
  rewrite Hk1, decide_True in Hst by done. apply wp_orMessage, wp_shell. intros w3 (Hk3 & _ & _ & Hs3). rewrite shellText_destroy. eapply wp_mono; [by apply destroy_ok|].
  intros r w4 (_ & _ & ->). rewrite Hk3, (Hv _ eq_refl), decide_False by apply is_Some_None. by rewrite Hs3, Hst, Hs1.
Qed.
End spec.

(** ** Properties *)

