(* ===== verification/VagrantSim.v ===== *)
(** * A simulated host for Vagrant machines

    A host that reads the command lines of the provider, the laws for it, and the theorem on a
    concrete list of machines. *)

From S2P Require Import Prelude GoStrings Join Blueprint DbRows Db DbSpec DbTxn CloudJoin Providers GoNet Vagrant VagrantSpec.

(** Writing fails when the disk is full. *)
Record simVg := mk_simVg { sv_dirs : gmap string (gmap string string); sv_up : gset string; sv_ids : nat; sv_stray : nat; sv_full : bool }.
Definition set_sv_dirs (d : gmap string (gmap string string)) (w : simVg) : simVg := mk_simVg d (sv_up w) (sv_ids w) (sv_stray w) (sv_full w).
Definition set_sv_up (u : gset string) (w : simVg) : simVg := mk_simVg (sv_dirs w) u (sv_ids w) (sv_stray w) (sv_full w).
Definition set_sv_ids (n : nat) (w : simVg) : simVg := mk_simVg (sv_dirs w) (sv_up w) n (sv_stray w) (sv_full w).
Definition set_sv_stray (n : nat) (w : simVg) : simVg := mk_simVg (sv_dirs w) (sv_up w) (sv_ids w) n (sv_full w).

Definition simHome : string := "/home/user".
Definition simBase : string := "/home/user/.vagrant/".
Fixpoint simID (n : nat) : string := match n with 0 => "" | S n => String "a"%char (simID n) end.

(** The directory and the commands of a command line. *)
Definition parseShell (s : string) : option (string * string) :=
  rest ← stripPrefix ("(cd " +:+ simBase) s; splitAt ";" rest.
(** The directory and the file of a path. *)
Definition parsePath (s : string) : option (string * string) :=
  rest ← stripPrefix simBase s;
  '(id, name) ← splitAt "/" rest;
  Some (id, String "/"%char name).

Definition simMkdir (path : string) : M simVg unit := λ w,
  Ok ((), match stripPrefix simBase path with
          | Some id => if bool_decide (id = "") || bool_decide (is_Some (sv_dirs w !! id)) then w else set_sv_dirs (<[id := ∅]> (sv_dirs w)) w
          | None => w
          end).
Definition simWrite (path content : string) : M simVg (result unit) := λ w,
  match parsePath path with
  | Some (id, name) =>
    match sv_dirs w !! id with
    | Some files => if sv_full w then Ok (Err "no space left on device", w) else Ok (Val (), set_sv_dirs (<[id := <[name := content]> files]> (sv_dirs w)) w)
    | None => Ok (Err "no such file or directory", w)
    end
  | None => Ok (Err "no such file or directory", w)
  end.
Definition simSh (s : string) : M simVg (result string) := λ w,
  match parseShell s with
  | Some (id, commands) =>
    if bool_decide (commands = " " +:+ upCommands +:+ ")") then Ok (Val "", set_sv_up ({[id]} ∪ sv_up w) w)
    else if bool_decide (commands = " " +:+ replaceS id destroyCommands +:+ ")") then
      Ok (Val "", match sv_dirs w !! id with
                  | Some _ => set_sv_dirs (delete id (sv_dirs w)) (set_sv_up (sv_up w ∖ {[id]}) w)
                  | None => set_sv_stray (S (sv_stray w)) w
                  end)
    else if bool_decide (commands = " cat size)") then
      Ok (match sv_dirs w !! id ≫= (.!! sizePath) with Some size => Val size | None => Err "exit status 1" end, w)
    else Ok (Val ("172.28.128.3" +:+ newline), w)
  | None => Ok (Err "exit status 127", w)
  end.

#[export] Instance simVagrant : VagrantHost simVg := {|
  homedir := λ w, Ok (Val simHome, w);
  vgExists := λ _ w, Ok (bool_decide (sv_dirs w ≠ ∅), w);
  vgMkdir := simMkdir;
  vgWriteFile := simWrite;
  vgReadDir := λ _ w, Ok (Val (elements (dom (sv_dirs w))), w);
  sh := simSh;
  vagrantRun := λ _ w, Ok (Val "", w);
  newUUID := λ w, Ok (simID (S (sv_ids w)), set_sv_ids (S (sv_ids w)) w);
|}.

(** ** The laws *)

Lemma stripPrefix_app p s : stripPrefix p (p +:+ s) = Some s.
Proof. induction p as [|a p IH]; [by destruct s|]. simpl. by rewrite bool_decide_eq_true_2. Qed.

Lemma splitAt_plain sep id rest : plainID id → bool_decide (nat_of_ascii sep ∈ [47; 59]) = true → splitAt sep (id +:+ String sep rest) = Some (id, rest).
Proof.
  intros Hid Hsep%bool_decide_eq_true_1. induction id as [|c id IH]; simpl in *; [by rewrite bool_decide_eq_true_2|].
  apply Is_true_eq_true, andb_prop in Hid as [Hc Hid]. rewrite bool_decide_eq_false_2; [by rewrite IH by by apply Is_true_eq_left|].
  intros ->. by repeat (apply elem_of_cons in Hsep as [Hs|Hsep]; [rewrite Hs in Hc; done|]); apply not_elem_of_nil in Hsep.
Qed.

Lemma parseShell_text id commands : plainID id → parseShell (shellText simBase id commands) = Some (id, " " +:+ replaceS id commands +:+ ")").
Proof.
  intros Hid. unfold parseShell, shellText. change ("(cd " +:+ (simBase +:+ id) +:+ "; " +:+ replaceS id commands +:+ ")")
    with (("(cd " +:+ simBase) +:+ (id +:+ String ";"%char (" " +:+ replaceS id commands +:+ ")"))).
  rewrite stripPrefix_app. simpl. by rewrite splitAt_plain.
Qed.

Lemma parsePath_text id name : plainID id → parsePath ((simBase +:+ id) +:+ String "/"%char name) = Some (id, String "/"%char name).
Proof.
  intros Hid. unfold parsePath. change ((simBase +:+ id) +:+ String "/"%char name) with (simBase +:+ (id +:+ String "/"%char name)).
  rewrite stripPrefix_app. simpl. by rewrite splitAt_plain.
Qed.

Lemma simID_inj n k : simID n = simID k → n = k.
Proof. revert k. induction n as [|n IH]; intros [|k]; simpl; intros [=]; [done|]. f_equal. by apply IH. Qed.
Lemma simID_plain n : plainID (simID n).
Proof. induction n; [done|]. simpl. done. Qed.

#[export] Program Instance simVagrant_laws : VagrantLaws simVg := {|
  vdirs := sv_dirs; vup := sv_up; vused := λ w, list_to_set (simID <$> seq 0 (S (sv_ids w))); vstray := sv_stray; vhome := simHome;
|}.
Next Obligation. by intros w. Qed.
Next Obligation. intros w. unfold wp. cbn [vgExists simVagrant]. split; [done|]. intros Hne. by rewrite bool_decide_eq_true_2. Qed.
Next Obligation. intros w. done. Qed.
Next Obligation.
  intros id w Hid Hnone. unfold wp. cbn [vgMkdir vgWriteFile sh simVagrant]. unfold simMkdir. change (simHome +:+ "/.vagrant/") with simBase. rewrite stripPrefix_app.
  destruct (bool_decide (id = "")); simpl; [split; [done|]; split; [done|by left]|].
  rewrite bool_decide_eq_false_2 by (rewrite Hnone; apply is_Some_None). simpl. split; [|split; [done|right; apply lookup_insert_eq]].
  split; [done|]. intros other Hne. by rewrite lookup_insert_ne.
Qed.
Next Obligation.
  intros id name content w Hid Hname. unfold wp. cbn [vgMkdir vgWriteFile sh simVagrant]. unfold simWrite. change (simHome +:+ "/.vagrant/") with simBase.
  assert (∃ rest, name = String "/"%char rest) as [rest ->].
  { repeat (apply elem_of_cons in Hname as [->|Hname]; [by eexists|]). by apply not_elem_of_nil in Hname. }
  rewrite parsePath_text by done. destruct (sv_dirs w !! id) as [files|] eqn:Hf; [|simpl; rewrite Hf; by repeat split].
  destruct (sv_full w); [simpl; rewrite Hf; by repeat split|]. simpl. rewrite lookup_insert_eq. split; [|split; [done|split; [done|by exists files]]].
  split; [done|]. intros other Hne. by rewrite lookup_insert_ne.
Qed.
Next Obligation.
  intros id w Hid Hsome. unfold wp. cbn [vgMkdir vgWriteFile sh simVagrant]. unfold simSh.
  change ("(cd " +:+ ((simHome +:+ "/.vagrant/") +:+ id) +:+ "; vagrant --machine-readable up)") with (shellText simBase id upCommands). rewrite parseShell_text by done.
  rewrite bool_decide_eq_true_2 by done. simpl. split; [|split; [done|split; [done|set_solver]]]. split; [done|]. intros other Hne. split; [done|]. set_solver.
Qed.
Next Obligation.
  intros id w Hid. unfold wp. cbn [vgMkdir vgWriteFile sh simVagrant]. unfold simSh. change (simHome +:+ "/.vagrant/") with simBase. rewrite <-shellText_destroy, parseShell_text by done.
  rewrite bool_decide_eq_false_2 by done. rewrite bool_decide_eq_true_2 by done. destruct (sv_dirs w !! id) as [files|] eqn:Hf; simpl.
  - split; [|split; [by intros; apply lookup_delete_eq|done]]. split; [done|]. intros other Hne. rewrite lookup_delete_ne by done. split; [done|]. set_solver.
  - done.
Qed.
Next Obligation.
  intros id w Hid. unfold wp. cbn [vgMkdir vgWriteFile sh simVagrant]. unfold simSh. change (simHome +:+ "/.vagrant/") with simBase. rewrite parseShell_text by done. by rewrite !bool_decide_eq_false_2 by done.
Qed.
Next Obligation.
  intros id w Hid. unfold wp. cbn [vgMkdir vgWriteFile sh simVagrant]. unfold simSh.
  change ("(cd " +:+ ((simHome +:+ "/.vagrant/") +:+ id) +:+ "; cat size)") with (shellText simBase id "cat size"). rewrite parseShell_text by done.
  rewrite !bool_decide_eq_false_2 by done. rewrite bool_decide_eq_true_2 by done. split; [done|]. intros files size Hf Hs. by rewrite Hf; simpl; rewrite Hs.
Qed.
Next Obligation. intros w. unfold wp. simpl. split; [done|]. by intros l [= <-]. Qed.
Next Obligation.
  intros w. unfold wp. change (newUUID w) with (@Ok (string * simVg) (simID (S (sv_ids w)), set_sv_ids (S (sv_ids w)) w)). cbn iota beta.
  split_and!; [done|done|done|apply simID_plain| |].
  - intros Hin%elem_of_list_to_set. apply list_elem_of_fmap in Hin as (k & Hk%simID_inj & Hin). apply elem_of_seq in Hin. lia.
  - change (sv_ids (set_sv_ids (S (sv_ids w)) w)) with (S (sv_ids w)). rewrite (seq_S (S (sv_ids w))), fmap_app, list_to_set_app_L. set_solver.
Qed.

(** ** Two machines *)

Definition demo_vagrant (size : string) : Machine := mk_Machine 0 Vagrant "" size 0 [] "" false "" "" "" "" Master false.
Definition demo_bootSet : list Machine := [demo_vagrant "2,2"; demo_vagrant "1,1"].
Definition demo_script (m : Machine) (intf : string) : string := "boot " +:+ m_Size m +:+ " " +:+ intf.
Definition demo_host : simVg := mk_simVg {["a" := {[sizePath := "4,4"]}]} {["a"]} 1 0 false.

Example vagrant_boot_example :
  match vg_Boot "Vagrantfile" demo_script 0 demo_bootSet demo_host with
  | Ok ((ids, err), w) => (ids, err, match vg_List w with Ok (Val ms, _) => length ms | _ => 0 end)
  | Panic _ => ([], Err "", 0)
  end = (["aa"; "aaa"], Val (), 3).
Proof. vm_compute. reflexivity. Qed.
(** With a full disk the machine is destroyed twice, and the second time elsewhere. *)
Example vagrant_stray_example :
  match vg_Boot "Vagrantfile" demo_script 0 [demo_vagrant "2,2"] (mk_simVg ∅ ∅ 0 0 true) with
  | Ok ((_, err), w) => (err, sv_stray w)
  | Panic _ => (Val (), 0)
  end = (Err "no space left on device", 1).
Proof. vm_compute. reflexivity. Qed.

