(* ===== verification/Ovn.v ===== *)
(** * Package ovsdb: the client interface of the OVN northbound database

    The types and the interface [Client] of [src/minion/ovsdb/ovsdb.go], over
    an abstract world, and what the network code relies on: the laws of a
    server that is up.  The laws speak of a view of the database as one list
    per table.  [Ovsdb] translates each method into OVSDB transactions, and
    [OvsServer] shows that on a server that follows RFC 7047 they obey the
    laws. *)

From S2P Require Import Prelude GoStrings.

Record SwitchPort := mk_SwitchPort {
  sp_uuid : string;
  sp_Name : string;
  sp_Type : string;
  sp_Addresses : list string;
  sp_Options : gmap string string;
}.
#[export] Instance SwitchPort_eq_dec : EqDecision SwitchPort.
Proof. solve_decision. Defined.

Record RouterPort := mk_RouterPort {
  rp_uuid : string;
  rp_Name : string;
  rp_MAC : string;
  rp_Networks : list string;
}.
#[export] Instance RouterPort_eq_dec : EqDecision RouterPort.
Proof. solve_decision. Defined.

Record ACLCore := mk_ACLCore {
  Priority : Z;
  Direction : string;
  Match : string;
  Action : string;
}.
#[export] Instance ACLCore_eq_dec : EqDecision ACLCore.
Proof. solve_decision. Defined.
#[export] Program Instance ACLCore_countable : Countable ACLCore :=
  inj_countable' (λ c, (Priority c, Direction c, Match c, Action c))
    (λ '(a, b, c, d), mk_ACLCore a b c d) _.
Next Obligation. by intros []. Qed.

Record ovnACL := mk_ovnACL { acl_uuid : string; acl_Core : ACLCore; acl_Log : bool }.
#[export] Instance ovnACL_eq_dec : EqDecision ovnACL.
Proof. solve_decision. Defined.

Record ovnLoadBalancer := mk_ovnLoadBalancer {
  ol_uuid : string;
  ol_Name : string;
  ol_VIPs : gmap string string;
}.
#[export] Instance ovnLoadBalancer_eq_dec : EqDecision ovnLoadBalancer.
Proof. solve_decision. Defined.

Record AddressSet := mk_AddressSet { as_Name : string; as_Addresses : list string }.
#[export] Instance AddressSet_eq_dec : EqDecision AddressSet.
Proof. solve_decision. Defined.

(** [ovsdb.Client] and [ovsdb.Open] *)
Class OvsdbClient (W : Type) := {
  Open : M W (result unit);
  Disconnect : M W unit;
  CreateLogicalSwitch : string → M W (result unit);
  LogicalSwitchExists : string → M W (result bool);
  ListSwitchPorts : M W (result (list SwitchPort));
  ListSwitchPort : string → M W (result SwitchPort);
  CreateSwitchPort : string → SwitchPort → M W (result unit);
  DeleteSwitchPort : string → SwitchPort → M W (result unit);
  UpdateSwitchPortAddresses : string → list string → M W (result unit);
  CreateLogicalRouter : string → M W (result unit);
  LogicalRouterExists : string → M W (result bool);
  ListRouterPorts : M W (result (list RouterPort));
  CreateRouterPort : string → RouterPort → M W (result unit);
  DeleteRouterPort : string → RouterPort → M W (result unit);
  ListACLs : M W (result (list ovnACL));
  CreateACLs : string → list ACLCore → M W (result unit);
  DeleteACLs : string → list ovnACL → M W (result unit);
  ListAddressSets : M W (result (list AddressSet));
  CreateAddressSets : list AddressSet → M W (result unit);
  DeleteAddressSets : list AddressSet → M W (result unit);
  ListLoadBalancers : M W (result (list ovnLoadBalancer));
  CreateLoadBalancer : string → string → gmap string string → M W (result unit);
  DeleteLoadBalancer : string → ovnLoadBalancer → M W (result unit);
  OpenFlowPorts : M W (result (gmap string Z));
  ListPortsByTag : string → string → M W (result (list string));
}.

(** ** A view of the northbound database

    [ov_lbrefs] has a pair of a switch's name and a load balancer's UUID for
    every reference from a switch to a load balancer: load balancers live on
    without one, but only those a switch refers to balance its traffic. *)

Record ovn := mk_ovn {
  ov_switches : gset string;
  ov_ports : list SwitchPort;
  ov_routers : gset string;
  ov_rports : list RouterPort;
  ov_acls : list ovnACL;
  ov_sets : list AddressSet;
  ov_lbs : list ovnLoadBalancer;
  ov_lbrefs : gset (string * string);
}.

Definition with_switches (x : gset string) (o : ovn) : ovn :=
  mk_ovn x (ov_ports o) (ov_routers o) (ov_rports o) (ov_acls o) (ov_sets o) (ov_lbs o) (ov_lbrefs o).
Definition with_ports (l : list SwitchPort) (o : ovn) : ovn :=
  mk_ovn (ov_switches o) l (ov_routers o) (ov_rports o) (ov_acls o) (ov_sets o) (ov_lbs o) (ov_lbrefs o).
Definition with_routers (x : gset string) (o : ovn) : ovn :=
  mk_ovn (ov_switches o) (ov_ports o) x (ov_rports o) (ov_acls o) (ov_sets o) (ov_lbs o) (ov_lbrefs o).
Definition with_rports (l : list RouterPort) (o : ovn) : ovn :=
  mk_ovn (ov_switches o) (ov_ports o) (ov_routers o) l (ov_acls o) (ov_sets o) (ov_lbs o) (ov_lbrefs o).
Definition with_acls (l : list ovnACL) (o : ovn) : ovn :=
  mk_ovn (ov_switches o) (ov_ports o) (ov_routers o) (ov_rports o) l (ov_sets o) (ov_lbs o) (ov_lbrefs o).
Definition with_sets (l : list AddressSet) (o : ovn) : ovn :=
  mk_ovn (ov_switches o) (ov_ports o) (ov_routers o) (ov_rports o) (ov_acls o) l (ov_lbs o) (ov_lbrefs o).
Definition with_lbs (l : list ovnLoadBalancer) (o : ovn) : ovn :=
  mk_ovn (ov_switches o) (ov_ports o) (ov_routers o) (ov_rports o) (ov_acls o) (ov_sets o) l (ov_lbrefs o).

Definition with_lbrefs (x : gset (string * string)) (o : ovn) : ovn :=
  mk_ovn (ov_switches o) (ov_ports o) (ov_routers o) (ov_rports o) (ov_acls o) (ov_sets o) (ov_lbs o) x.

(** A set column comes back in any order. *)
Definition set_like (x y : AddressSet) : Prop :=
  as_Name x = as_Name y ∧ as_Addresses x ≡ₚ as_Addresses y.

Definition set_sp_Addresses (v : list string) (p : SwitchPort) : SwitchPort :=
  mk_SwitchPort (sp_uuid p) (sp_Name p) (sp_Type p) v (sp_Options p).

(** A server that is up.
    - A set column with at most one element comes back as it was written.
    - Rows of switch ports, router ports and ACLs live as long
      as their switch or router refers to them, and a new load balancer is
      referred to by its switch; they get UUIDs of their own,
      and those that are listed are deleted by UUID, which succeeds when no other switch or router
      refers to them, so the laws are about the only switch and router there
      is.  Ports have unique names.
    - An empty set or map cannot be written.
    - [CreateACLs] writes what it is given when nothing is a wildcard.
    - Address sets have unique names and are deleted by name; the addresses of
      one are a set. *)
Class OvnView (W : Type) := view : W → ovn.

Class OvnLaws (W : Type) `{OvsdbClient W} `{OvnView W} : Prop := {
  Open_ok : ∀ w, wp Open w (λ r w', r = Val () ∧ view w' = view w);
  Disconnect_ok : ∀ w, wp Disconnect w (λ _ w', view w' = view w);
  LogicalSwitchExists_ok : ∀ sw w, wp (LogicalSwitchExists sw) w (λ r w',
    r = Val (bool_decide (sw ∈ ov_switches (view w))) ∧ view w' = view w);
  CreateLogicalSwitch_ok : ∀ sw w, sw ∉ ov_switches (view w) → wp (CreateLogicalSwitch sw) w (λ r w',
    r = Val () ∧ view w' = with_switches ({[sw]} ∪ ov_switches (view w)) (view w));
  ports_names : ∀ w, NoDup (sp_Name <$> ov_ports (view w));
  ports_uuids : ∀ w, NoDup (sp_uuid <$> ov_ports (view w));
  ListSwitchPorts_ok : ∀ w, wp ListSwitchPorts w (λ r w',
    ∃ l, r = Val l ∧ l ≡ₚ ov_ports (view w) ∧ view w' = view w);
  ListSwitchPort_ok : ∀ p w, p ∈ ov_ports (view w) → wp (ListSwitchPort (sp_Name p)) w (λ r w',
    r = Val p ∧ view w' = view w);
  CreateSwitchPort_ok : ∀ sw p w, ov_switches (view w) = {[sw]} →
    sp_Name p ∉ sp_Name <$> ov_ports (view w) → length (sp_Addresses p) ≤ 1 →
    wp (CreateSwitchPort sw p) w (λ r w', r = Val () ∧ ∃ u l,
      l ≡ₚ mk_SwitchPort u (sp_Name p) (sp_Type p) (sp_Addresses p) (sp_Options p) :: ov_ports (view w) ∧
      view w' = with_ports l (view w));
  DeleteSwitchPort_ok : ∀ sw p w, ov_switches (view w) = {[sw]} → p ∈ ov_ports (view w) →
    wp (DeleteSwitchPort sw p) w (λ r w', r = Val () ∧
      ∃ l, l ≡ₚ filter (λ x, sp_uuid x ≠ sp_uuid p) (ov_ports (view w)) ∧ view w' = with_ports l (view w));
  UpdateSwitchPortAddresses_ok : ∀ name addrs w, length addrs = 1 →
    wp (UpdateSwitchPortAddresses name addrs) w (λ r w', r = Val () ∧
      ∃ l, l ≡ₚ ((λ p, if bool_decide (sp_Name p = name) then set_sp_Addresses addrs p else p) <$> ov_ports (view w)) ∧
           view w' = with_ports l (view w));
  LogicalRouterExists_ok : ∀ r w, wp (LogicalRouterExists r) w (λ e w',
    e = Val (bool_decide (r ∈ ov_routers (view w))) ∧ view w' = view w);
  CreateLogicalRouter_ok : ∀ r w, r ∉ ov_routers (view w) → wp (CreateLogicalRouter r) w (λ e w',
    e = Val () ∧ view w' = with_routers ({[r]} ∪ ov_routers (view w)) (view w));
  rports_names : ∀ w, NoDup (rp_Name <$> ov_rports (view w));
  rports_uuids : ∀ w, NoDup (rp_uuid <$> ov_rports (view w));
  ListRouterPorts_ok : ∀ w, wp ListRouterPorts w (λ r w',
    ∃ l, r = Val l ∧ l ≡ₚ ov_rports (view w) ∧ view w' = view w);
  CreateRouterPort_ok : ∀ lr p w, ov_routers (view w) = {[lr]} →
    rp_Name p ∉ rp_Name <$> ov_rports (view w) → length (rp_Networks p) = 1 →
    wp (CreateRouterPort lr p) w (λ r w', r = Val () ∧ ∃ u l,
      l ≡ₚ mk_RouterPort u (rp_Name p) (rp_MAC p) (rp_Networks p) :: ov_rports (view w) ∧
      view w' = with_rports l (view w));
  DeleteRouterPort_ok : ∀ lr p w, ov_routers (view w) = {[lr]} → p ∈ ov_rports (view w) →
    wp (DeleteRouterPort lr p) w (λ r w', r = Val () ∧
      ∃ l, l ≡ₚ filter (λ x, rp_uuid x ≠ rp_uuid p) (ov_rports (view w)) ∧ view w' = with_rports l (view w));
  acls_uuids : ∀ w, NoDup (acl_uuid <$> ov_acls (view w));
  ListACLs_ok : ∀ w, wp ListACLs w (λ r w', ∃ l, r = Val l ∧ l ≡ₚ ov_acls (view w) ∧ view w' = view w);
  CreateACLs_ok : ∀ sw cores w, ov_switches (view w) = {[sw]} →
    Forall (λ c, (0 ≤ Priority c)%Z ∧ Direction c ≠ "*" ∧ Match c ≠ "*") cores →
    wp (CreateACLs sw cores) w (λ r w', r = Val () ∧ ∃ news, acl_Core <$> news = cores ∧
      ∃ l, l ≡ₚ news ++ ov_acls (view w) ∧ view w' = with_acls l (view w));
  DeleteACLs_ok : ∀ sw dels w, ov_switches (view w) = {[sw]} → dels ⊆ ov_acls (view w) →
    wp (DeleteACLs sw dels) w (λ r w', r = Val () ∧
      ∃ l, l ≡ₚ filter (λ a, acl_uuid a ∉ acl_uuid <$> dels) (ov_acls (view w)) ∧
           view w' = with_acls l (view w));
  sets_names : ∀ w, NoDup (as_Name <$> ov_sets (view w));
  ListAddressSets_ok : ∀ w, wp ListAddressSets w (λ r w',
    ∃ l l', r = Val l ∧ Forall2 set_like l l' ∧ l' ≡ₚ ov_sets (view w) ∧ view w' = view w);
  CreateAddressSets_ok : ∀ sets w,
    NoDup (as_Name <$> sets ++ ov_sets (view w)) → Forall (λ x, NoDup (as_Addresses x) ∧ as_Addresses x ≠ []) sets →
    wp (CreateAddressSets sets) w (λ r w', r = Val () ∧
      ∃ l, l ≡ₚ sets ++ ov_sets (view w) ∧ view w' = with_sets l (view w));
  DeleteAddressSets_ok : ∀ dels w,
    wp (DeleteAddressSets dels) w (λ r w', r = Val () ∧
      ∃ l, l ≡ₚ filter (λ x, as_Name x ∉ as_Name <$> dels) (ov_sets (view w)) ∧
           view w' = with_sets l (view w));
  lbs_uuids : ∀ w, NoDup (ol_uuid <$> ov_lbs (view w));
  ListLoadBalancers_ok : ∀ w, wp ListLoadBalancers w (λ r w',
    ∃ l, r = Val l ∧ l ≡ₚ ov_lbs (view w) ∧ view w' = view w);
  CreateLoadBalancer_ok : ∀ sw name vips w, ov_switches (view w) = {[sw]} → vips ≠ ∅ →
    wp (CreateLoadBalancer sw name vips) w (λ r w', r = Val () ∧ ∃ u l,
      l ≡ₚ mk_ovnLoadBalancer u name vips :: ov_lbs (view w) ∧
      view w' = with_lbrefs ({[(sw, u)]} ∪ ov_lbrefs (view w)) (with_lbs l (view w)));
  DeleteLoadBalancer_ok : ∀ sw lb w, ov_switches (view w) = {[sw]} → lb ∈ ov_lbs (view w) →
    wp (DeleteLoadBalancer sw lb) w (λ r w', r = Val () ∧
      ∃ l, l ≡ₚ filter (λ x, ol_uuid x ≠ ol_uuid lb) (ov_lbs (view w)) ∧
           view w' = with_lbrefs (filter (λ p, p.2 ≠ ol_uuid lb) (ov_lbrefs (view w))) (with_lbs l (view w)));
}.

(** ** Rows of a table kept as a map from keys *)

Definition simRows {V A} (f : string → V → A) (m : gmap string V) : list A :=
  (λ '(k, v), f k v) <$> map_to_list m.

Section sim.
Context {V A : Type} (f : string → V → A) (g : A → string) (Hg : ∀ k v, g (f k v) = k).
Implicit Types m : gmap string V.

Lemma simRows_keys m : NoDup (g <$> simRows f m).
Proof.
  unfold simRows. rewrite <-list_fmap_compose.
  erewrite list_fmap_ext; [apply (NoDup_fst_map_to_list m)|]. intros i [k v] _. apply Hg.
Qed.

Lemma elem_of_simRows m k v : m !! k = Some v → f k v ∈ simRows f m.
Proof. intros Hk. apply list_elem_of_fmap. exists (k, v). by rewrite elem_of_map_to_list. Qed.

Lemma simRows_filter (P : string → Prop) `{∀ x, Decision (P x)} m :
  simRows f (filter (λ '(k, _), P k) m) ≡ₚ filter (λ a, P (g a)) (simRows f m).
Proof.
  unfold simRows. rewrite filter_fmap. apply Permutation_map.
  apply NoDup_Permutation; [apply NoDup_map_to_list|apply NoDup_filter, NoDup_map_to_list|].
  intros [k v]. rewrite elem_of_map_to_list, map_lookup_filter_Some, list_elem_of_filter, elem_of_map_to_list.
  rewrite Hg. tauto.
Qed.

Lemma simRows_insert m k v : k ∉ g <$> simRows f m → simRows f (<[k := v]> m) ≡ₚ f k v :: simRows f m.
Proof.
  intros Hk. unfold simRows. rewrite map_to_list_insert; [done|].
  destruct (m !! k) as [v'|] eqn:Hv; [|done]. destruct Hk. rewrite <-(Hg k v').
  by apply list_elem_of_fmap_2, elem_of_simRows.
Qed.
End sim.
