(* ===== verification/Ovsdb.v ===== *)
(** * Package ovsdb: the client

    [src/minion/ovsdb/ovsdb.go]: how each method of the client becomes a
    transaction of the OVSDB management protocol (RFC 7047), and how its reply
    is read.  The connection ([libovsdb]) is a class: [Transact] takes
    operations on a database and returns one result per operation.

    The values Go puts into operations are [ovsval]s; replies are decoded JSON,
    which Go sees as [interface{}], here [json].  Numbers are integers: every
    column that is read is one.  A failed type assertion or an index out of
    range panics.  A [nil] map of options is the empty map, as no caller passes
    an empty one that is not [nil]. *)

From S2P Require Import Prelude GoStrings Ovn.

(** ** What is sent *)

(** Atoms and columns as Go holds them; [ovs.UUID], [ovs.OvsSet] and
    [ovs.OvsMap] are the last three. *)
Inductive atom :=
  | AString (s : string)
  | AInt (z : Z)
  | ABool (b : bool)
  | AUUID (u : string).

Inductive ovsval :=
  | VAtom (a : atom)
  | VSet (l : list atom)
  | VMap (m : gmap string string).

(** [ovs.NewCondition] and [ovs.NewMutation] *)
Record condition := mk_condition { cd_column : string; cd_function : string; cd_value : ovsval }.
Record mutation := mk_mutation { mt_column : string; mt_mutator : string; mt_value : ovsval }.

(** [ovs.Operation], without the fields that are never set *)
Record Operation := mk_Operation {
  Op : string;
  Table : string;
  Row : gmap string ovsval;
  Mutations : list mutation;
  Where : list condition;
  UUIDName : string;
}.

(** ** What comes back *)

Inductive json :=
  | JNull
  | JBool (b : bool)
  | JNum (z : Z)
  | JString (s : string)
  | JArr (l : list json).

Definition reply_row : Type := gmap string json.

(** [ovs.OperationResult], the fields that are read *)
Record OperationResult := mk_OperationResult {
  or_Error : string;
  or_Details : string;
  or_Rows : list reply_row;
}.

(** The interface [transact], and [ovs.Connect] *)
Class OvsTransact (W : Type) := {
  Transact : string → list Operation → M W (result (list OperationResult));
  ovsConnect : M W (result unit);
  ovsDisconnect : M W unit;
}.

(** ** Building operations *)

Definition strings_set (l : list string) : list atom := AString <$> l.

Definition newOvsSet (slice : list atom) : ovsval := VSet slice.
Definition newOvsMap (mp : gmap string string) : ovsval := VMap mp.

Definition noCondition : list condition := [mk_condition "_uuid" "!=" (VAtom (AUUID "_"))].

Definition newCondition (column function : string) (value : ovsval) : list condition :=
  [mk_condition column function value].

(** The only values it is called on are UUIDs. *)
Definition newMutation (column mutator : string) (uuid : string) : mutation :=
  mk_mutation column mutator (newOvsSet [AUUID uuid]).

Definition insertOp (table : string) (row : gmap string ovsval) (name : string) : Operation :=
  mk_Operation "insert" table row [] [] name.
Definition selectOp (table : string) (where_ : list condition) : Operation :=
  mk_Operation "select" table ∅ [] where_ "".
Definition updateOp (table : string) (where_ : list condition) (row : gmap string ovsval) : Operation :=
  mk_Operation "update" table row [] where_ "".
Definition mutateOp (table : string) (mut : mutation) (where_ : list condition) : Operation :=
  mk_Operation "mutate" table ∅ [mut] where_ "".
Definition deleteOp (table : string) (where_ : list condition) : Operation :=
  mk_Operation "delete" table ∅ [] where_ "".

(** ** Reading replies *)

(** The type assertion [.(string)] and its relatives. *)
Definition asString (j : json) : outcome string :=
  match j with JString s => Ok s | _ => Panic "interface conversion" end.
Definition asNum (j : json) : outcome Z :=
  match j with JNum z => Ok z | _ => Panic "interface conversion" end.
Definition asBool (j : json) : outcome bool :=
  match j with JBool b => Ok b | _ => Panic "interface conversion" end.
Definition asArr (j : json) : outcome (list json) :=
  match j with JArr l => Ok l | _ => Panic "interface conversion" end.

(** [l[i]] on a slice, [row[k]] on a map. *)
Definition index {A} (l : list A) (i : nat) : outcome A :=
  match l !! i with Some a => Ok a | None => Panic "index out of range" end.
Definition col (row : reply_row) (k : string) : json := default JNull (row !! k).

Definition isString (j : json) (s : string) : bool :=
  match j with JString s' => bool_decide (s' = s) | _ => false end.

Fixpoint mapOk {A B} (f : A → outcome B) (l : list A) : outcome (list B) :=
  match l with
  | [] => Ok []
  | a :: l' => b ← f a; bs ← mapOk f l'; Ok (b :: bs)
  end.

Definition ovsStringSetToSlice (oSet : json) : outcome (list string) :=
  match oSet with
  | JArr t =>
    t0 ← index t 0;
    if isString t0 "set" then
      t1 ← index t 1;
      vs ← asArr t1;
      mapOk asString vs
    else Panic "interface conversion"
  | _ => s ← asString oSet; Ok [s]
  end.

(** The loop over the pairs of a map. *)
Fixpoint brokenMapLoop (brokenMap : list json) (ret : gmap string string)
    : outcome (result (gmap string string)) :=
  match brokenMap with
  | [] => Ok (Val ret)
  | JArr kvSlice :: rest =>
    k ← index kvSlice 0;
    match k with
    | JString key =>
      v ← index kvSlice 1;
      match v with
      | JString val => brokenMapLoop rest (<[key := val]> ret)
      | _ => Ok (Err "ovs map value must be string")
      end
    | _ => Ok (Err "ovs map key must be string")
    end
  | _ :: _ => Ok (Err "ovs map block must be a slice")
  end.

Definition ovsStringMapToMap (oMap : json) : outcome (result (gmap string string)) :=
  match oMap with
  | JArr (w0 :: wrap) =>
    if isString w0 "map" then
      w1 ← index wrap 0;
      match w1 with
      | JArr brokenMap => brokenMapLoop brokenMap ∅
      | _ => Ok (Err "ovs map content invalid")
      end
    else Ok (Err "ovs map outermost layer invalid")
  | _ => Ok (Err "ovs map outermost layer invalid")
  end.

Definition ovsUUIDFromRow (row : reply_row) : outcome string :=
  match col row "_uuid" with
  | JArr block => b ← index block 1; asString b
  | _ => Panic "row does not have valid UUID"
  end.

Fixpoint firstError (i : nat) (results : list OperationResult) : result unit :=
  match results with
  | [] => Val ()
  | r :: rest =>
    if bool_decide (or_Error r ≠ "")
    then Err ("operation " +:+ fmtInt (Z.of_nat i) +:+ " failed due to error: " +:+
              or_Error r +:+ ": " +:+ or_Details r)
    else firstError (S i) rest
  end.

Definition errorCheck (results : list OperationResult) (expectedResponses : nat) : result unit :=
  if bool_decide (length results < expectedResponses)
  then Err "mismatched responses and operations"
  else firstError 0 results.

(** The loop over the rows of a reply, with a parser that may report an error. *)
Fixpoint parseRows {A} (f : reply_row → outcome (result A)) (rows : list reply_row)
    : outcome (result (list A)) :=
  match rows with
  | [] => Ok (Val [])
  | row :: rest =>
    a ← f row;
    match a with
    | Err e => Ok (Err e)
    | Val x =>
      xs ← parseRows f rest;
      match xs with Err e => Ok (Err e) | Val xs => Ok (Val (x :: xs)) end
    end
  end.

Definition parseLogicalSwitchPort (port : reply_row) : outcome (result SwitchPort) :=
  options ← ovsStringMapToMap (col port "options");
  match options with
  | Err e => Ok (Err ("malformed options: " +:+ e))
  | Val options =>
    uuid ← ovsUUIDFromRow port;
    name ← asString (col port "name");
    type ← asString (col port "type");
    addresses ← ovsStringSetToSlice (col port "addresses");
    Ok (Val (mk_SwitchPort uuid name type addresses options))
  end.

Definition switchPortRow (row : reply_row) : outcome (result SwitchPort) :=
  port ← parseLogicalSwitchPort row;
  match port with Err e => Ok (Err ("malformed switch port: " +:+ e)) | Val p => Ok (Val p) end.

Definition routerPortRow (row : reply_row) : outcome (result RouterPort) :=
  uuid ← ovsUUIDFromRow row;
  name ← asString (col row "name");
  networks ← ovsStringSetToSlice (col row "networks");
  mac ← asString (col row "mac");
  Ok (Val (mk_RouterPort uuid name mac networks)).

Definition aclRow (row : reply_row) : outcome (result ovnACL) :=
  uuid ← ovsUUIDFromRow row;
  priority ← asNum (col row "priority");
  direction ← asString (col row "direction");
  match_ ← asString (col row "match");
  action ← asString (col row "action");
  log ← asBool (col row "log");
  Ok (Val (mk_ovnACL uuid (mk_ACLCore priority direction match_ action) log)).

Definition addressSetRow (row : reply_row) : outcome (result AddressSet) :=
  name ← asString (col row "name");
  addresses ← ovsStringSetToSlice (col row "addresses");
  Ok (Val (mk_AddressSet name addresses)).

Definition loadBalancerRow (row : reply_row) : outcome (result ovnLoadBalancer) :=
  vips ← ovsStringMapToMap (col row "vips");
  match vips with
  | Err e => Ok (Err ("malformed vips: " +:+ e))
  | Val vips =>
    uuid ← ovsUUIDFromRow row;
    name ← asString (col row "name");
    Ok (Val (mk_ovnLoadBalancer uuid name vips))
  end.

Definition portNameRow (iface : reply_row) : outcome (result string) :=
  match col iface "name" with
  | JString name => Ok (Val name)
  | _ => Ok (Err "malformed port in reply: ")
  end.

(** One interface of [OpenFlowPorts]. *)
Definition ofportRow (ifaceMap : gmap string Z) (iface : reply_row) : gmap string Z :=
  match col iface "name", col iface "ofport" with
  | JString name, JNum ofport =>
    if bool_decide (0 < ofport)%Z then <[name := ofport]> ifaceMap else ifaceMap
  | _, _ => ifaceMap
  end.

(** ** The methods *)

Definition OVN_Northbound : string := "OVN_Northbound".

Section client.
Context {W : Type} `{OvsTransact W}.

(** The common tail of the methods that write: the transaction, and the check
    of its results. *)
Definition transactCheck (what : string) (ops : list Operation) : M W (result unit) :=
  let! r := Transact OVN_Northbound ops in
  match r with
  | Err e => mret (Err ("transaction error: " +:+ what +:+ ": " +:+ e))
  | Val results => mret (errorCheck results (length ops))
  end.

(** The common part of the methods that list a table. *)
Definition listTable {A} (database table prefix : string)
    (parse : reply_row → outcome (result A)) : M W (result (list A)) :=
  let! r := Transact database [selectOp table noCondition] in
  match r with
  | Err e => mret (Err (prefix +:+ e))
  | Val reply =>
    let! first := lift (index reply 0) in
    lift (parseRows parse (or_Rows first))
  end.

(** The common part of the methods that look a switch or router up. *)
Definition existsByName (table what name : string) : M W (result bool) :=
  let! r := Transact OVN_Northbound
    [selectOp table (newCondition "name" "==" (VAtom (AString name)))] in
  match r with
  | Err e => mret (Err ("transaction error: listing logical " +:+ what +:+ ": " +:+ e))
  | Val [] => mret (Val false)
  | Val (first :: _) => mret (Val (bool_decide (or_Rows first ≠ [])))
  end.

Definition client_CreateLogicalSwitch (lswitch : string) : M W (result unit) :=
  transactCheck ("creating switch " +:+ lswitch)
    [insertOp "Logical_Switch" {["name" := VAtom (AString lswitch)]} ""].

Definition client_LogicalSwitchExists (lswitch : string) : M W (result bool) :=
  existsByName "Logical_Switch" "switch" lswitch.

Definition client_UpdateSwitchPortAddresses (lportName : string) (addresses : list string)
    : M W (result unit) :=
  transactCheck ("updating switch port " +:+ lportName)
    [updateOp "Logical_Switch_Port" (newCondition "name" "==" (VAtom (AString lportName)))
       {["addresses" := newOvsSet (strings_set addresses)]}].

Definition client_ListSwitchPorts : M W (result (list SwitchPort)) :=
  listTable OVN_Northbound "Logical_Switch_Port" "transaction error: listing switch ports: " switchPortRow.

Definition client_ListSwitchPort (name : string) : M W (result SwitchPort) :=
  let! r := Transact OVN_Northbound
    [selectOp "Logical_Switch_Port" (newCondition "name" "==" (VAtom (AString name)))] in
  match r with
  | Err e => mret (Err ("transaction error: listing switch ports: " +:+ e))
  | Val portReply =>
    let! first := lift (index portReply 0) in
    match or_Rows first with
    | [] => mret (Err "no matching port found")
    | row :: _ => lift (parseLogicalSwitchPort row)
    end
  end.

Definition switchPortColumns (lport : SwitchPort) : gmap string ovsval :=
  let portRow := {["name" := VAtom (AString (sp_Name lport)); "type" := VAtom (AString (sp_Type lport))]} in
  let portRow := if bool_decide (sp_Addresses lport ≠ [])
    then <["addresses" := newOvsSet (strings_set (sp_Addresses lport))]> portRow else portRow in
  if bool_decide (sp_Options lport ≠ ∅)
  then <["options" := newOvsMap (sp_Options lport)]> portRow else portRow.

Definition client_CreateSwitchPort (lswitch : string) (lport : SwitchPort) : M W (result unit) :=
  transactCheck ("creating switch port " +:+ sp_Name lport +:+ " on " +:+ lswitch)
    [insertOp "Logical_Switch_Port" (switchPortColumns lport) "qlsportadd";
     mutateOp "Logical_Switch" (newMutation "ports" "insert" "qlsportadd")
       (newCondition "name" "==" (VAtom (AString lswitch)))].

Definition client_DeleteSwitchPort (lswitch : string) (lport : SwitchPort) : M W (result unit) :=
  transactCheck ("deleting switch port " +:+ sp_Name lport +:+ " on " +:+ lswitch)
    [deleteOp "Logical_Switch_Port" (newCondition "_uuid" "==" (VAtom (AUUID (sp_uuid lport))));
     mutateOp "Logical_Switch" (newMutation "ports" "delete" (sp_uuid lport))
       (newCondition "name" "==" (VAtom (AString lswitch)))].

Definition client_LogicalRouterExists (lrouter : string) : M W (result bool) :=
  existsByName "Logical_Router" "router" lrouter.

Definition client_CreateLogicalRouter (lrouter : string) : M W (result unit) :=
  transactCheck ("creating router " +:+ lrouter)
    [insertOp "Logical_Router" {["name" := VAtom (AString lrouter)]} ""].

Definition client_ListRouterPorts : M W (result (list RouterPort)) :=
  listTable OVN_Northbound "Logical_Router_Port" "transaction error: listing logical router ports: " routerPortRow.

Definition client_CreateRouterPort (lrouter : string) (port : RouterPort) : M W (result unit) :=
  transactCheck ("creating logical router port " +:+ rp_Name port +:+ " on " +:+ lrouter)
    [insertOp "Logical_Router_Port"
       {["name" := VAtom (AString (rp_Name port)); "networks" := newOvsSet (strings_set (rp_Networks port));
         "mac" := VAtom (AString (rp_MAC port))]} "qlrportadd";
     mutateOp "Logical_Router" (newMutation "ports" "insert" "qlrportadd")
       (newCondition "name" "==" (VAtom (AString lrouter)))].

Definition client_DeleteRouterPort (lrouter : string) (lport : RouterPort) : M W (result unit) :=
  transactCheck ("deleting logical router port " +:+ rp_Name lport +:+ " on " +:+ lrouter)
    [deleteOp "Logical_Router_Port" (newCondition "_uuid" "==" (VAtom (AUUID (rp_uuid lport))));
     mutateOp "Logical_Router" (newMutation "ports" "delete" (rp_uuid lport))
       (newCondition "name" "==" (VAtom (AString lrouter)))].

Definition client_ListACLs : M W (result (list ovnACL)) :=
  listTable OVN_Northbound "ACL" "transaction error: listing ACLs: " aclRow.

(** The columns of an ACL: ["*"] and negative priorities are wildcards. *)
Definition aclColumns (acl : ACLCore) : gmap string ovsval :=
  let aclRow := {["priority" := VAtom (AInt (Z.max 0 (Priority acl)));
                  "action" := VAtom (AString (Action acl)); "log" := VAtom (ABool false)]} in
  let aclRow := if bool_decide (Direction acl ≠ "*")
    then <["direction" := VAtom (AString (Direction acl))]> aclRow else aclRow in
  if bool_decide (Match acl ≠ "*")
  then <["match" := VAtom (AString (Match acl))]> aclRow else aclRow.

(** The two operations for the [i]th ACL and those after it. *)
Fixpoint createACLOps (lswitch : string) (i : nat) (acls : list ACLCore) : list Operation :=
  match acls with
  | [] => []
  | acl :: rest =>
    let uuid := "qacladd" +:+ fmtInt (Z.of_nat i) in
    insertOp "ACL" (aclColumns acl) uuid ::
    mutateOp "Logical_Switch" (newMutation "acls" "insert" uuid)
      (newCondition "name" "==" (VAtom (AString lswitch))) ::
    createACLOps lswitch (S i) rest
  end.

Definition client_CreateACLs (lswitch : string) (acls : list ACLCore) : M W (result unit) :=
  transactCheck ("creating ACL on " +:+ lswitch) (createACLOps lswitch 0 acls).

Definition deleteACLOps (lswitch : string) (acl : ovnACL) : list Operation :=
  [deleteOp "ACL" (newCondition "_uuid" "==" (VAtom (AUUID (acl_uuid acl))));
   mutateOp "Logical_Switch" (newMutation "acls" "delete" (acl_uuid acl))
     (newCondition "name" "==" (VAtom (AString lswitch)))].

Definition client_DeleteACLs (lswitch : string) (acls : list ovnACL) : M W (result unit) :=
  transactCheck ("deleting ACL on " +:+ lswitch) (concat (deleteACLOps lswitch <$> acls)).

Definition client_ListAddressSets : M W (result (list AddressSet)) :=
  listTable OVN_Northbound "Address_Set" "transaction error: list address sets: " addressSetRow.

Definition createAddressSetOp (set : AddressSet) : Operation :=
  insertOp "Address_Set" {["name" := VAtom (AString (as_Name set));
                           "addresses" := newOvsSet (strings_set (as_Addresses set))]} "".

Definition client_CreateAddressSets (sets : list AddressSet) : M W (result unit) :=
  transactCheck "creating address set" (createAddressSetOp <$> sets).

Definition deleteAddressSetOp (set : AddressSet) : Operation :=
  deleteOp "Address_Set" (newCondition "name" "==" (VAtom (AString (as_Name set)))).

Definition client_DeleteAddressSets (sets : list AddressSet) : M W (result unit) :=
  transactCheck "deleting address set" (deleteAddressSetOp <$> sets).

Definition client_ListPortsByTag (key value : string) : M W (result (list string)) :=
  let! r := Transact "Open_vSwitch"
    [selectOp "Port" (newCondition "external_ids" "includes" (VMap {[key := value]}))] in
  match r with
  | Err e => mret (Err ("transaction error: list ports: " +:+ e))
  | Val reply =>
    let! first := lift (index reply 0) in
    lift (parseRows portNameRow (or_Rows first))
  end.

Definition client_OpenFlowPorts : M W (result (gmap string Z)) :=
  let! r := Transact "Open_vSwitch" [selectOp "Interface" noCondition] in
  match r with
  | Err e => mret (Err ("select interface error: " +:+ e))
  | Val reply =>
    let! first := lift (index reply 0) in
    mret (Val (foldl ofportRow ∅ (or_Rows first)))
  end.

Definition client_CreateLoadBalancer (lswitch name : string) (vips : gmap string string) : M W (result unit) :=
  transactCheck ("creating load balancer on " +:+ lswitch)
    [insertOp "Load_Balancer" {["name" := VAtom (AString name); "vips" := newOvsMap vips]} "qlbadd";
     mutateOp "Logical_Switch" (newMutation "load_balancer" "insert" "qlbadd")
       (newCondition "name" "==" (VAtom (AString lswitch)))].

Definition client_DeleteLoadBalancer (lswitch : string) (lb : ovnLoadBalancer) : M W (result unit) :=
  transactCheck ("deleting load balancer on " +:+ lswitch)
    [deleteOp "Load_Balancer" (newCondition "_uuid" "==" (VAtom (AUUID (ol_uuid lb))));
     mutateOp "Logical_Switch" (newMutation "load_balancer" "delete" (ol_uuid lb))
       (newCondition "name" "==" (VAtom (AString lswitch)))].

Definition client_ListLoadBalancers : M W (result (list ovnLoadBalancer)) :=
  listTable OVN_Northbound "Load_Balancer" "transaction error: listing load balancers: " loadBalancerRow.

(** [ovsdb.Open] *)
Definition client_Open : M W (result unit) := ovsConnect.
End client.

(** The client implements the interface. *)
#[export] Instance client_OvsdbClient {W} `{OvsTransact W} : OvsdbClient W := {
  Open := client_Open;
  Disconnect := ovsDisconnect;
  CreateLogicalSwitch := client_CreateLogicalSwitch;
  LogicalSwitchExists := client_LogicalSwitchExists;
  ListSwitchPorts := client_ListSwitchPorts;
  ListSwitchPort := client_ListSwitchPort;
  CreateSwitchPort := client_CreateSwitchPort;
  DeleteSwitchPort := client_DeleteSwitchPort;
  UpdateSwitchPortAddresses := client_UpdateSwitchPortAddresses;
  CreateLogicalRouter := client_CreateLogicalRouter;
  LogicalRouterExists := client_LogicalRouterExists;
  ListRouterPorts := client_ListRouterPorts;
  CreateRouterPort := client_CreateRouterPort;
  DeleteRouterPort := client_DeleteRouterPort;
  ListACLs := client_ListACLs;
  CreateACLs := client_CreateACLs;
  DeleteACLs := client_DeleteACLs;
  ListAddressSets := client_ListAddressSets;
  CreateAddressSets := client_CreateAddressSets;
  DeleteAddressSets := client_DeleteAddressSets;
  ListLoadBalancers := client_ListLoadBalancers;
  CreateLoadBalancer := client_CreateLoadBalancer;
  DeleteLoadBalancer := client_DeleteLoadBalancer;
  OpenFlowPorts := client_OpenFlowPorts;
  ListPortsByTag := client_ListPortsByTag;
}.
