(* ===== verification/OvsServer.v ===== *)
(** * An OVSDB server, and the client on it

    What RFC 7047 says of the operations the client sends, on the columns of
    the OVN northbound schema that the client uses: [exec] runs the operations
    of a transaction one after the other on typed tables, [commit] collects
    the rows nothing refers to (switch ports, router ports and ACLs are not
    root tables) and weak references to rows that are gone, and [constraints]
    is what the schema asks of the result.  The class [OvsServer] says that a
    connection is one to such a server.  What a server is free to choose
    (UUIDs, the order of rows and of the elements of a set, the encoding of a
    set of one element) is a parameter.

    The main result is [client_implements_ovn]: on such a server, the client of
    [Ovsdb] obeys the laws that the network code of [Acl] and [Network] relies
    on.  A simulated server shows that the class has instances. *)

From S2P Require Import Prelude GoStrings Ovn Ovsdb.

(** ** Tables *)

Record lsRow := mk_lsRow { ls_name : string; ls_ports : gset string; ls_acls : gset string; ls_lbs : gset string }.
Record lrRow := mk_lrRow { lr_name : string; lr_ports : gset string }.
Record lspRow := mk_lspRow {
  lsp_name : string; lsp_type : string; lsp_addresses : list string; lsp_options : gmap string string }.
Record lrpRow := mk_lrpRow { lrp_name : string; lrp_mac : string; lrp_networks : list string }.
Record acRow := mk_acRow { ac_core : ACLCore; ac_log : bool }.
Record lbRow := mk_lbRow { lb_name : string; lb_vips : gmap string string }.

Record nbdb := mk_nbdb {
  nb_ls : gmap string lsRow;
  nb_lsp : gmap string lspRow;
  nb_lr : gmap string lrRow;
  nb_lrp : gmap string lrpRow;
  nb_acl : gmap string acRow;
  nb_as : gmap string AddressSet;
  nb_lb : gmap string lbRow;
}.

Definition set_ls (x : gmap string lsRow) (d : nbdb) : nbdb :=
  mk_nbdb x (nb_lsp d) (nb_lr d) (nb_lrp d) (nb_acl d) (nb_as d) (nb_lb d).
Definition set_lsp (x : gmap string lspRow) (d : nbdb) : nbdb :=
  mk_nbdb (nb_ls d) x (nb_lr d) (nb_lrp d) (nb_acl d) (nb_as d) (nb_lb d).
Definition set_lr (x : gmap string lrRow) (d : nbdb) : nbdb :=
  mk_nbdb (nb_ls d) (nb_lsp d) x (nb_lrp d) (nb_acl d) (nb_as d) (nb_lb d).
Definition set_lrp (x : gmap string lrpRow) (d : nbdb) : nbdb :=
  mk_nbdb (nb_ls d) (nb_lsp d) (nb_lr d) x (nb_acl d) (nb_as d) (nb_lb d).
Definition set_acl (x : gmap string acRow) (d : nbdb) : nbdb :=
  mk_nbdb (nb_ls d) (nb_lsp d) (nb_lr d) (nb_lrp d) x (nb_as d) (nb_lb d).
Definition set_as (x : gmap string AddressSet) (d : nbdb) : nbdb :=
  mk_nbdb (nb_ls d) (nb_lsp d) (nb_lr d) (nb_lrp d) (nb_acl d) x (nb_lb d).
Definition set_lb (x : gmap string lbRow) (d : nbdb) : nbdb :=
  mk_nbdb (nb_ls d) (nb_lsp d) (nb_lr d) (nb_lrp d) (nb_acl d) (nb_as d) x.

Definition uuids (d : nbdb) : gset string :=
  dom (nb_ls d) ∪ dom (nb_lsp d) ∪ dom (nb_lr d) ∪ dom (nb_lrp d) ∪ dom (nb_acl d) ∪ dom (nb_as d) ∪ dom (nb_lb d).

(** What a server chooses, and which strings [libovsdb] takes for UUIDs (the
    others are sent as names of rows of the transaction). *)
Class OvsParams := {
  validUUID : string → bool;
  newUUID : nbdb → string;
  rowOrder : ∀ {A}, list A → list A;
  setOrder : list string → list string;
  bareSingle : bool;
}.

(** ** Requests *)

(** A column of an inserted row; a column that is left out has its default.
    [libovsdb] encodes an empty set or map as [null], which is not valid. *)
Definition getString (row : gmap string ovsval) (k : string) : option string :=
  match row !! k with
  | None => Some ""
  | Some (VAtom (AString s)) => Some s
  | Some _ => None
  end.

Definition atomString (a : atom) : option string := match a with AString s => Some s | _ => None end.

Definition getStrings (row : gmap string ovsval) (k : string) : option (list string) :=
  match row !! k with
  | None => Some []
  | Some (VAtom (AString s)) => Some [s]
  | Some (VSet (a :: l)) => remove_dups <$> mapM atomString (a :: l)
  | Some _ => None
  end.

Definition getMap (row : gmap string ovsval) (k : string) : option (gmap string string) :=
  match row !! k with
  | None => Some ∅
  | Some (VMap m) => if bool_decide (m = ∅) then None else Some m
  | Some _ => None
  end.

Definition getInt (row : gmap string ovsval) (k : string) : option Z :=
  match row !! k with None => Some 0%Z | Some (VAtom (AInt z)) => Some z | Some _ => None end.
Definition getBool (row : gmap string ovsval) (k : string) : option bool :=
  match row !! k with None => Some false | Some (VAtom (ABool b)) => Some b | Some _ => None end.

Section server.
Context `{OvsParams}.

(** A UUID of a request: its own, or that of the row inserted under the name. *)
Definition resolve (names : gmap string string) (u : string) : option string :=
  if validUUID u then Some u else names !! u.

(** A condition on a row's UUID and name. *)
Definition condOf (names : gmap string string) (c : condition) : option (string → string → bool) :=
  match cd_column c, cd_function c, cd_value c with
  | "_uuid", "==", VAtom (AUUID u) => Some (λ uuid _, bool_decide (resolve names u = Some uuid))
  | "_uuid", "!=", VAtom (AUUID u) => Some (λ uuid _, bool_decide (resolve names u ≠ Some uuid))
  | "name", "==", VAtom (AString s) => Some (λ _ name, bool_decide (name = s))
  | _, _, _ => None
  end.

Fixpoint whereOf (names : gmap string string) (cs : list condition) : option (string → string → bool) :=
  match cs with
  | [] => Some (λ _ _, true)
  | c :: rest => p ← condOf names c; q ← whereOf names rest; Some (λ u n, p u n && q u n)
  end.

(** *** insert *)

Definition known (cols : list string) (row : gmap string ovsval) : bool :=
  bool_decide (map_Forall (λ k _, k ∈ cols) row).

Definition insertRow (table : string) (row : gmap string ovsval) (d : nbdb) : option nbdb :=
  let u := newUUID d in
  match table with
  | "Logical_Switch" =>
    if known ["name"] row then
      name ← getString row "name";
      Some (set_ls (<[u := mk_lsRow name ∅ ∅ ∅]> (nb_ls d)) d)
    else None
  | "Logical_Switch_Port" =>
    if known ["name"; "type"; "addresses"; "options"] row then
      name ← getString row "name"; type ← getString row "type";
      addresses ← getStrings row "addresses"; options ← getMap row "options";
      Some (set_lsp (<[u := mk_lspRow name type addresses options]> (nb_lsp d)) d)
    else None
  | "Logical_Router" =>
    if known ["name"] row then
      name ← getString row "name";
      Some (set_lr (<[u := mk_lrRow name ∅]> (nb_lr d)) d)
    else None
  | "Logical_Router_Port" =>
    if known ["name"; "networks"; "mac"] row then
      name ← getString row "name"; mac ← getString row "mac"; networks ← getStrings row "networks";
      Some (set_lrp (<[u := mk_lrpRow name mac networks]> (nb_lrp d)) d)
    else None
  | "ACL" =>
    if known ["priority"; "direction"; "match"; "action"; "log"] row then
      priority ← getInt row "priority"; direction ← getString row "direction";
      match_ ← getString row "match"; action ← getString row "action"; log ← getBool row "log";
      Some (set_acl (<[u := mk_acRow (mk_ACLCore priority direction match_ action) log]> (nb_acl d)) d)
    else None
  | "Address_Set" =>
    if known ["name"; "addresses"] row then
      name ← getString row "name"; addresses ← getStrings row "addresses";
      Some (set_as (<[u := mk_AddressSet name addresses]> (nb_as d)) d)
    else None
  | "Load_Balancer" =>
    if known ["name"; "vips"] row then
      name ← getString row "name"; vips ← getMap row "vips";
      Some (set_lb (<[u := mk_lbRow name vips]> (nb_lb d)) d)
    else None
  | _ => None
  end.

(** *** select *)

Definition encUUID (u : string) : json := JArr [JString "uuid"; JString u].
Definition encSet (l : list string) : json :=
  match setOrder l with
  | [s] => if bareSingle then JString s else JArr [JString "set"; JArr [JString s]]
  | l' => JArr [JString "set"; JArr (JString <$> l')]
  end.
Definition encMap (m : gmap string string) : json :=
  JArr [JString "map"; JArr ((λ kv, JArr [JString kv.1; JString kv.2]) <$> rowOrder (map_to_list m))].

Definition encLs (u : string) (r : lsRow) : reply_row :=
  {["_uuid" := encUUID u; "name" := JString (ls_name r)]}.
Definition encLr (u : string) (r : lrRow) : reply_row :=
  {["_uuid" := encUUID u; "name" := JString (lr_name r)]}.
Definition encLsp (u : string) (r : lspRow) : reply_row :=
  {["_uuid" := encUUID u; "name" := JString (lsp_name r); "type" := JString (lsp_type r);
    "addresses" := encSet (lsp_addresses r); "options" := encMap (lsp_options r)]}.
Definition encLrp (u : string) (r : lrpRow) : reply_row :=
  {["_uuid" := encUUID u; "name" := JString (lrp_name r); "mac" := JString (lrp_mac r);
    "networks" := encSet (lrp_networks r)]}.
Definition encAcl (u : string) (r : acRow) : reply_row :=
  {["_uuid" := encUUID u; "priority" := JNum (Priority (ac_core r));
    "direction" := JString (Direction (ac_core r)); "match" := JString (Match (ac_core r));
    "action" := JString (Action (ac_core r)); "log" := JBool (ac_log r)]}.
Definition encAs (u : string) (r : AddressSet) : reply_row :=
  {["_uuid" := encUUID u; "name" := JString (as_Name r); "addresses" := encSet (as_Addresses r)]}.
Definition encLb (u : string) (r : lbRow) : reply_row :=
  {["_uuid" := encUUID u; "name" := JString (lb_name r); "vips" := encMap (lb_vips r)]}.

(** The rows of a table that satisfy a condition; ACLs have no name. *)
Definition matching {R} (name : R → string) (p : string → string → bool) (m : gmap string R) : gmap string R :=
  filter (λ ur, p ur.1 (name ur.2) = true) m.
Definition others {R} (name : R → string) (p : string → string → bool) (m : gmap string R) : gmap string R :=
  filter (λ ur, p ur.1 (name ur.2) = false) m.
Definition noName (_ : acRow) : string := "".

Definition encRows {R} (enc : string → R → reply_row) (m : gmap string R) : list reply_row :=
  rowOrder ((λ ur, enc ur.1 ur.2) <$> map_to_list m).

Definition selectRows (table : string) (p : string → string → bool) (d : nbdb) : option (list reply_row) :=
  match table with
  | "Logical_Switch" => Some (encRows encLs (matching ls_name p (nb_ls d)))
  | "Logical_Switch_Port" => Some (encRows encLsp (matching lsp_name p (nb_lsp d)))
  | "Logical_Router" => Some (encRows encLr (matching lr_name p (nb_lr d)))
  | "Logical_Router_Port" => Some (encRows encLrp (matching lrp_name p (nb_lrp d)))
  | "ACL" => Some (encRows encAcl (matching noName p (nb_acl d)))
  | "Address_Set" => Some (encRows encAs (matching as_Name p (nb_as d)))
  | "Load_Balancer" => Some (encRows encLb (matching lb_name p (nb_lb d)))
  | _ => None
  end.

(** *** delete *)

Definition deleteRows (table : string) (p : string → string → bool) (d : nbdb) : option nbdb :=
  match table with
  | "Logical_Switch_Port" => Some (set_lsp (others lsp_name p (nb_lsp d)) d)
  | "Logical_Router_Port" => Some (set_lrp (others lrp_name p (nb_lrp d)) d)
  | "ACL" => Some (set_acl (others noName p (nb_acl d)) d)
  | "Address_Set" => Some (set_as (others as_Name p (nb_as d)) d)
  | "Load_Balancer" => Some (set_lb (others lb_name p (nb_lb d)) d)
  | _ => None
  end.

(** *** update, of the addresses of switch ports *)

Definition on {R} (name : R → string) (p : string → string → bool) (f : R → R) (m : gmap string R) : gmap string R :=
  map_imap (λ u r, Some (if p u (name r) then f r else r)) m.

Definition updateRows (table : string) (p : string → string → bool) (row : gmap string ovsval) (d : nbdb) : option nbdb :=
  match table with
  | "Logical_Switch_Port" =>
    if known ["addresses"] row && bool_decide (is_Some (row !! "addresses")) then
      a ← getStrings row "addresses";
      Some (set_lsp (on lsp_name p (λ r, mk_lspRow (lsp_name r) (lsp_type r) a (lsp_options r)) (nb_lsp d)) d)
    else None
  | _ => None
  end.

(** *** mutate, of sets of references *)

Definition atomUUID (names : gmap string string) (a : atom) : option string :=
  match a with AUUID u => resolve names u | _ => None end.

Definition mutator (m : string) (us : list string) : option (gset string → gset string) :=
  match m with
  | "insert" => Some (λ x, x ∪ list_to_set us)
  | "delete" => Some (λ x, x ∖ list_to_set us)
  | _ => None
  end.

Definition mutateLs (column : string) (f : gset string → gset string) : option (lsRow → lsRow) :=
  match column with
  | "ports" => Some (λ r, mk_lsRow (ls_name r) (f (ls_ports r)) (ls_acls r) (ls_lbs r))
  | "acls" => Some (λ r, mk_lsRow (ls_name r) (ls_ports r) (f (ls_acls r)) (ls_lbs r))
  | "load_balancer" => Some (λ r, mk_lsRow (ls_name r) (ls_ports r) (ls_acls r) (f (ls_lbs r)))
  | _ => None
  end.

Definition mutateLr (column : string) (f : gset string → gset string) : option (lrRow → lrRow) :=
  match column with
  | "ports" => Some (λ r, mk_lrRow (lr_name r) (f (lr_ports r)))
  | _ => None
  end.

Definition mutateRows (names : gmap string string) (table : string) (p : string → string → bool)
    (ms : list mutation) (d : nbdb) : option nbdb :=
  match ms with
  | [mk_mutation column m (VSet (a :: l))] =>
    us ← mapM (atomUUID names) (a :: l); f ← mutator m us;
    match table with
    | "Logical_Switch" => g ← mutateLs column f; Some (set_ls (on ls_name p g (nb_ls d)) d)
    | "Logical_Router" => g ← mutateLr column f; Some (set_lr (on lr_name p g (nb_lr d)) d)
    | _ => None
    end
  | _ => None
  end.

(** *** Transactions *)

Definition done_result : OperationResult := mk_OperationResult "" "" [].

Definition exec1 (names : gmap string string) (d : nbdb) (o : Operation)
    : option (gmap string string * nbdb * OperationResult) :=
  p ← whereOf names (Where o);
  match Op o with
  | "insert" =>
    d' ← insertRow (Table o) (Row o) d;
    Some (if bool_decide (UUIDName o = "") then names else <[UUIDName o := newUUID d]> names, d', done_result)
  | "select" => rows ← selectRows (Table o) p d; Some (names, d, mk_OperationResult "" "" rows)
  | "update" => d' ← updateRows (Table o) p (Row o) d; Some (names, d', done_result)
  | "mutate" => d' ← mutateRows names (Table o) p (Mutations o) d; Some (names, d', done_result)
  | "delete" => d' ← deleteRows (Table o) p d; Some (names, d', done_result)
  | _ => None
  end.

Fixpoint exec (names : gmap string string) (ops : list Operation) (d : nbdb)
    : option (list OperationResult * nbdb) :=
  match ops with
  | [] => Some ([], d)
  | o :: rest =>
    '(names', d', r) ← exec1 names d o;
    '(rs, d'') ← exec names' rest d';
    Some (r :: rs, d'')
  end.

(** The rows the sets of a table refer to. *)
Definition refs {R} (f : R → gset string) (m : gmap string R) : gset string :=
  ⋃ (f <$> (map_to_list m).*2).

(** Garbage collection. *)
Definition commit (d : nbdb) : nbdb :=
  let keep {R} (s : gset string) (m : gmap string R) := filter (λ ur, ur.1 ∈ s) m in
  mk_nbdb
    ((λ r, mk_lsRow (ls_name r) (ls_ports r) (ls_acls r) (ls_lbs r ∩ dom (nb_lb d))) <$> nb_ls d)
    (keep (refs ls_ports (nb_ls d)) (nb_lsp d)) (nb_lr d) (keep (refs lr_ports (nb_lr d)) (nb_lrp d))
    (keep (refs ls_acls (nb_ls d)) (nb_acl d)) (nb_as d) (nb_lb d).

(** *** The view of the network code *)

Definition viewPort (u : string) (r : lspRow) : SwitchPort :=
  mk_SwitchPort u (lsp_name r) (lsp_type r) (setOrder (lsp_addresses r)) (lsp_options r).
Definition viewRouterPort (u : string) (r : lrpRow) : RouterPort :=
  mk_RouterPort u (lrp_name r) (lrp_mac r) (setOrder (lrp_networks r)).
Definition viewACL (u : string) (r : acRow) : ovnACL := mk_ovnACL u (ac_core r) (ac_log r).
Definition viewSet (_ : string) (r : AddressSet) : AddressSet := r.
Definition viewLB (u : string) (r : lbRow) : ovnLoadBalancer := mk_ovnLoadBalancer u (lb_name r) (lb_vips r).

(** The names in a table. *)
Definition namesOf {R} (name : R → string) (m : gmap string R) : gset string :=
  list_to_set (name <$> (map_to_list m).*2).

(** The references from switches to load balancers, by the switch's name. *)
Definition lbRefs (m : gmap string lsRow) : gset (string * string) :=
  list_to_set (concat ((λ r, pair (ls_name r) <$> elements (ls_lbs r)) <$> (map_to_list m).*2)).

Definition viewOf (d : nbdb) : ovn :=
  mk_ovn (namesOf ls_name (nb_ls d)) (simRows viewPort (nb_lsp d)) (namesOf lr_name (nb_lr d))
    (simRows viewRouterPort (nb_lrp d)) (simRows viewACL (nb_acl d)) (simRows viewSet (nb_as d))
    (simRows viewLB (nb_lb d)) (lbRefs (nb_ls d)).

(** What the schema asks for: references are to rows of the right table, the
    tables that are not roots have no garbage, ports and address sets have
    unique names, and keys are UUIDs. *)
Definition constraints (d : nbdb) : Prop :=
  refs ls_ports (nb_ls d) = dom (nb_lsp d) ∧ refs ls_acls (nb_ls d) = dom (nb_acl d) ∧
  refs lr_ports (nb_lr d) = dom (nb_lrp d) ∧ refs ls_lbs (nb_ls d) ⊆ dom (nb_lb d) ∧
  NoDup (sp_Name <$> ov_ports (viewOf d)) ∧ NoDup (rp_Name <$> ov_rports (viewOf d)) ∧
  NoDup (as_Name <$> ov_sets (viewOf d)) ∧ set_Forall (λ u, validUUID u = true) (uuids d).

#[export] Instance constraints_dec d : Decision (constraints d).
Proof. unfold constraints. apply _. Defined.
End server.

(** ** A connection to a server *)

Class NbView (W : Type) := nb : W → nbdb.

Class OvsServer (W : Type) `{OvsTransact W} `{OvsParams} `{NbView W} : Prop := {
  newUUID_fresh : ∀ d, newUUID d ∉ uuids d;
  newUUID_valid : ∀ d, validUUID (newUUID d) = true;
  rowOrder_perm : ∀ A (l : list A), rowOrder l ≡ₚ l;
  setOrder_perm : ∀ l, setOrder l ≡ₚ l;
  names_no_uuids : Forall (λ n, validUUID n = false) ["_"; "qlsportadd"; "qlrportadd"; "qlbadd"];
  aclnames_no_uuids : ∀ i, validUUID ("qacladd" +:+ fmtInt i) = false;
  nb_ok : ∀ w, constraints (nb w);
  connect_ok : ∀ w, wp ovsConnect w (λ r w', r = Val () ∧ nb w' = nb w);
  disconnect_ok : ∀ w, wp ovsDisconnect w (λ _ w', nb w' = nb w);
  Transact_ok : ∀ ops w res d, exec ∅ ops (nb w) = Some (res, d) → constraints (commit d) →
    wp (Transact OVN_Northbound ops) w (λ r w', r = Val res ∧ nb w' = commit d);
}.

(** ** Tables and their references *)

Section tables.
Context {R : Type}.
Implicit Types (m : gmap string R) (f : R → gset string).

Lemma elem_of_refs f m u : u ∈ refs f m ↔ ∃ k r, m !! k = Some r ∧ u ∈ f r.
Proof.
  unfold refs. rewrite elem_of_union_list. split.
  - intros (X & (r & -> & ([k r'] & -> & Hk)%list_elem_of_fmap)%list_elem_of_fmap & Hu).
    apply elem_of_map_to_list in Hk. eauto.
  - intros (k & r & Hk & Hu). exists (f r). split; [|done].
    apply list_elem_of_fmap. exists r. split; [done|]. apply list_elem_of_fmap. exists (k, r).
    by rewrite elem_of_map_to_list.
Qed.

Lemma refs_fmap f (g : R → R) m : (∀ r, f (g r) = f r) → refs f (g <$> m) = refs f m.
Proof.
  intros Hg. apply set_eq. intros u. rewrite !elem_of_refs. setoid_rewrite lookup_fmap_Some. split.
  - intros (k & r & (r' & <- & Hk) & Hu). rewrite Hg in Hu. eauto.
  - intros (k & r & Hk & Hu). exists k, (g r). rewrite Hg. eauto.
Qed.

Lemma refs_add f (g : R → R) m u :
  m ≠ ∅ → (∀ r, f (g r) = f r ∪ list_to_set [u]) → refs f (g <$> m) = {[u]} ∪ refs f m.
Proof.
  intros Hne Hg. apply set_eq. intros x.
  rewrite elem_of_union, elem_of_singleton, !elem_of_refs. setoid_rewrite lookup_fmap_Some. split.
  - intros (k & r & (r' & <- & Hk) & Hu). rewrite Hg in Hu.
    apply elem_of_union in Hu as [Hu|Hu]; [eauto|left]. set_solver.
  - intros [->|(k & r & Hk & Hu)].
    + apply map_choose in Hne as (k & r & Hk). exists k, (g r). rewrite Hg. set_solver.
    + exists k, (g r). rewrite Hg. set_solver.
Qed.

Lemma refs_del f (g : R → R) m u :
  (∀ r, f (g r) = f r ∖ list_to_set [u]) → refs f (g <$> m) = refs f m ∖ {[u]}.
Proof.
  intros Hg. apply set_eq. intros x. rewrite elem_of_difference, elem_of_singleton, !elem_of_refs.
  setoid_rewrite lookup_fmap_Some. split.
  - intros (k & r & (r' & <- & Hk) & Hu). rewrite Hg in Hu.
    apply elem_of_difference in Hu as [Hu Hx]. split; [eauto|]. set_solver.
  - intros [(k & r & Hk & Hu) Hx]. exists k, (g r). rewrite Hg. set_solver.
Qed.

Lemma refs_insert f m k r : m !! k = None → f r = ∅ → refs f (<[k := r]> m) = refs f m.
Proof.
  intros Hk Hr. apply set_eq. intros u. rewrite !elem_of_refs. split.
  - intros (k' & r' & [[<- <-]|[Hne Hk']]%lookup_insert_Some & Hu); [set_solver|eauto].
  - intros (k' & r' & Hk' & Hu). exists k', r'. split; [|done].
    rewrite lookup_insert_ne; [done|]. intros ->. congruence.
Qed.

Lemma elem_of_namesOf (name : R → string) m n :
  n ∈ namesOf name m ↔ ∃ k r, m !! k = Some r ∧ name r = n.
Proof.
  unfold namesOf. rewrite elem_of_list_to_set, list_elem_of_fmap. split.
  - intros (r & -> & ([k r'] & -> & Hk)%list_elem_of_fmap). apply elem_of_map_to_list in Hk. eauto.
  - intros (k & r & Hk & <-). exists r. split; [done|]. apply list_elem_of_fmap. exists (k, r).
    by rewrite elem_of_map_to_list.
Qed.

Lemma namesOf_fmap (name : R → string) (g : R → R) m :
  (∀ r, name (g r) = name r) → namesOf name (g <$> m) = namesOf name m.
Proof.
  intros Hg. apply set_eq. intros u. rewrite !elem_of_namesOf. setoid_rewrite lookup_fmap_Some. split.
  - intros (k & r & (r' & <- & Hk) & <-). rewrite Hg. eauto.
  - intros (k & r & Hk & <-). exists k, (g r). eauto.
Qed.

Lemma namesOf_insert (name : R → string) m k r :
  m !! k = None → namesOf name (<[k := r]> m) = {[name r]} ∪ namesOf name m.
Proof.
  intros Hk. apply set_eq. intros u. rewrite elem_of_union, elem_of_singleton, !elem_of_namesOf. split.
  - intros (k' & r' & [[<- <-]|[Hne Hk']]%lookup_insert_Some & Hu); eauto.
  - intros [->|(k' & r' & Hk' & Hu)]; [exists k, r; by rewrite lookup_insert_eq|].
    exists k', r'. split; [|done]. rewrite lookup_insert_ne; [done|]. intros ->. congruence.
Qed.

(** A mutation of all rows called [n], when all rows are. *)
Lemma on_sole (name : R → string) (n : string) (p : string → string → bool) (g : R → R) m :
  namesOf name m = {[n]} → (∀ u, p u n = true) → m ≠ ∅ ∧ on name p g m = g <$> m.
Proof.
  intros Hn Hp. split.
  - intros ->. assert (n ∈ namesOf name ∅) as Hin by (rewrite Hn; set_solver).
    apply elem_of_namesOf in Hin as (k & r & Hk & _). by rewrite lookup_empty in Hk.
  - apply map_eq. intros k. unfold on. rewrite map_lookup_imap, lookup_fmap.
    destruct (m !! k) as [r|] eqn:Hk; [|done]. simpl.
    assert (name r = n) as ->.
    { assert (name r ∈ namesOf name m) as Hin by (apply elem_of_namesOf; eauto).
      rewrite Hn in Hin. by apply elem_of_singleton in Hin. }
    by rewrite Hp.
Qed.

Lemma on_named (name : R → string) (n : string) (g : R → R) m :
  namesOf name m = {[n]} → on name (λ _ x, bool_decide (x = n) && true) g m = g <$> m.
Proof. intros Hn. apply on_sole with n; [done|]. intros _. by simpl_bd. Qed.

Lemma on_none (name : R → string) (p : string → string → bool) (g : R → R) m :
  (∀ k r, m !! k = Some r → p k (name r) = false) → on name p g m = m.
Proof.
  intros Hp. apply map_eq. intros k. unfold on. rewrite map_lookup_imap.
  destruct (m !! k) as [r|] eqn:Hk; [|done]. simpl. by rewrite Hp.
Qed.

Lemma others_uuid (name : R → string) (p : string → string → bool) u m :
  (∀ k n, p k n = bool_decide (u = k)) → others name p m = delete u m.
Proof.
  intros Hp. apply map_eq. intros k. unfold others. apply option_eq. intros r.
  rewrite map_lookup_filter_Some, lookup_delete_Some, Hp. simpl. rewrite bool_decide_eq_false. tauto.
Qed.

Lemma matching_all (name : R → string) (p : string → string → bool) m :
  (∀ k n, p k n = true) → matching name p m = m.
Proof. intros Hp. apply map_filter_id. intros k r _. simpl. by rewrite Hp. Qed.
End tables.

(** The references to load balancers. *)
Lemma elem_of_lbRefs m n u : (n, u) ∈ lbRefs m ↔ ∃ k r, m !! k = Some r ∧ ls_name r = n ∧ u ∈ ls_lbs r.
Proof.
  unfold lbRefs. rewrite elem_of_list_to_set, elem_of_concat. split.
  - intros (l & (r & -> & ([k r'] & -> & Hk)%list_elem_of_fmap)%list_elem_of_fmap & Hu).
    apply list_elem_of_fmap in Hu as (u' & [= -> ->] & Hu). apply elem_of_map_to_list in Hk.
    apply elem_of_elements in Hu. eauto.
  - intros (k & r & Hk & <- & Hu). eexists. split.
    + apply list_elem_of_fmap. exists r. split; [done|]. apply list_elem_of_fmap. exists (k, r).
      by rewrite elem_of_map_to_list.
    + apply list_elem_of_fmap_2. by apply elem_of_elements.
Qed.

Lemma lbRefs_fmap (g : lsRow → lsRow) m :
  (∀ r, ls_name (g r) = ls_name r) → (∀ r, ls_lbs (g r) = ls_lbs r) → lbRefs (g <$> m) = lbRefs m.
Proof.
  intros Hn Hl. apply set_eq. intros [n u]. rewrite !elem_of_lbRefs. setoid_rewrite lookup_fmap_Some. split.
  - intros (k & r & (r' & <- & Hk) & <- & Hu). rewrite Hl in Hu. rewrite Hn. eauto.
  - intros (k & r & Hk & <- & Hu). exists k, (g r). rewrite Hn, Hl. eauto.
Qed.

Lemma lbRefs_insert m k r : m !! k = None → ls_lbs r = ∅ → lbRefs (<[k := r]> m) = lbRefs m.
Proof.
  intros Hk Hr. apply set_eq. intros [n u]. rewrite !elem_of_lbRefs. split.
  - intros (k' & r' & [[<- <-]|[Hne Hk']]%lookup_insert_Some & Hn & Hu); [|eauto].
    rewrite Hr in Hu. by apply elem_of_empty in Hu.
  - intros (k' & r' & Hk' & Hn & Hu). exists k', r'. split; [|done].
    rewrite lookup_insert_ne; [done|]. intros ->. congruence.
Qed.

Lemma lbRefs_add (g : lsRow → lsRow) m sw u :
  (∀ r, ls_name (g r) = ls_name r) → (∀ r, ls_lbs (g r) = ls_lbs r ∪ list_to_set [u]) →
  namesOf ls_name m = {[sw]} → lbRefs (g <$> m) = {[(sw, u)]} ∪ lbRefs m.
Proof.
  intros Hn Hl Hsw. apply set_eq. intros [n v].
  rewrite elem_of_union, elem_of_singleton, !elem_of_lbRefs. setoid_rewrite lookup_fmap_Some. split.
  - intros (k & r & (r' & <- & Hk) & Hname & Hv). rewrite Hn in Hname. rewrite Hl in Hv.
    apply elem_of_union in Hv as [Hv|Hv]; [right; eauto|left].
    assert (ls_name r' ∈ namesOf ls_name m) as Hin by (apply elem_of_namesOf; eauto).
    rewrite Hsw, Hname in Hin. apply elem_of_singleton in Hin as ->.
    by apply elem_of_list_to_set, list_elem_of_singleton in Hv as ->.
  - intros [[= -> ->]|(k & r & Hk & <- & Hv)].
    + assert (sw ∈ namesOf ls_name m) as (k & r & Hk & Hr)%elem_of_namesOf by (rewrite Hsw; set_solver).
      exists k, (g r). rewrite Hn, Hl. split_and!; [eauto|done|set_solver].
    + exists k, (g r). rewrite Hn, Hl. split_and!; [eauto|done|set_solver].
Qed.

Lemma lbRefs_del (g : lsRow → lsRow) m u :
  (∀ r, ls_name (g r) = ls_name r) → (∀ r, ls_lbs (g r) = ls_lbs r ∖ list_to_set [u]) →
  lbRefs (g <$> m) = filter (λ p, p.2 ≠ u) (lbRefs m).
Proof.
  intros Hn Hl. apply set_eq. intros [n v]. rewrite elem_of_filter, !elem_of_lbRefs.
  setoid_rewrite lookup_fmap_Some. split.
  - intros (k & r & (r' & <- & Hk) & <- & Hv). rewrite Hl in Hv. split; [set_solver|].
    exists k, r'. rewrite Hn. split_and!; [done|done|set_solver].
  - intros (Hne & k & r & Hk & <- & Hv). exists k, (g r). rewrite Hn, Hl. simpl in Hne.
    split_and!; [eauto|done|set_solver].
Qed.

(** ** The client on a server *)

(** Reading what the server wrote. *)
Section read.
Context `{OvsParams} (Hrow : ∀ A (l : list A), rowOrder l ≡ₚ l).

Lemma mapOk_strings l : mapOk asString (JString <$> l) = Ok l.
Proof. induction l as [|s l IH]; [done|]. csimpl. by rewrite IH. Qed.

Lemma read_set l : ovsStringSetToSlice (encSet l) = Ok (setOrder l).
Proof.
  unfold encSet. destruct (setOrder l) as [|s [|s' l']] eqn:Hl; [done| |].
  - by destruct bareSingle.
  - simpl. by rewrite mapOk_strings.
Qed.

Lemma brokenMapLoop_list (l : list (string * string)) ret :
  NoDup l.*1 → brokenMapLoop ((λ kv, JArr [JString kv.1; JString kv.2]) <$> l) ret =
  Ok (Val (list_to_map l ∪ ret)).
Proof.
  revert ret. induction l as [|[k v] l IH]; intros ret Hnd; csimpl; [by rewrite (left_id_L ∅ (∪))|].
  csimpl in Hnd. apply NoDup_cons in Hnd as [Hk Hnd]. rewrite IH by done. do 2 f_equal.
  rewrite <-insert_union_r by (by apply not_elem_of_list_to_map_1).
  change (list_to_map ((k, v) :: l)) with (<[k := v]> (list_to_map l : gmap string string)).
  by rewrite insert_union_l.
Qed.

Lemma read_map m : ovsStringMapToMap (encMap m) = Ok (Val m).
Proof.
  unfold encMap. cbn -[brokenMapLoop]. rewrite brokenMapLoop_list.
  - rewrite (right_id_L ∅ (∪)). do 2 f_equal. rewrite <-(list_to_map_to_list m) at 2.
    apply list_to_map_proper; [|apply Hrow]. rewrite Hrow. apply NoDup_fst_map_to_list.
  - rewrite Hrow. apply NoDup_fst_map_to_list.
Qed.

Lemma read_port u r : switchPortRow (encLsp u r) = Ok (Val (viewPort u r)).
Proof.
  unfold switchPortRow, parseLogicalSwitchPort. change (col (encLsp u r) "options") with (encMap (lsp_options r)).
  rewrite read_map. cbn -[encSet ovsStringSetToSlice].
  change (col (encLsp u r) "addresses") with (encSet (lsp_addresses r)). by rewrite read_set.
Qed.

Lemma read_port1 u r : parseLogicalSwitchPort (encLsp u r) = Ok (Val (viewPort u r)).
Proof.
  unfold parseLogicalSwitchPort. change (col (encLsp u r) "options") with (encMap (lsp_options r)).
  rewrite read_map. cbn -[encSet ovsStringSetToSlice].
  change (col (encLsp u r) "addresses") with (encSet (lsp_addresses r)). by rewrite read_set.
Qed.

Lemma read_rport u r : routerPortRow (encLrp u r) = Ok (Val (viewRouterPort u r)).
Proof.
  unfold routerPortRow. cbn -[encSet ovsStringSetToSlice].
  change (col (encLrp u r) "networks") with (encSet (lrp_networks r)). by rewrite read_set.
Qed.

Lemma read_acl u r : aclRow (encAcl u r) = Ok (Val (viewACL u r)).
Proof. by destruct r as [[]]. Qed.

Lemma read_as u r : addressSetRow (encAs u r) = Ok (Val (mk_AddressSet (as_Name r) (setOrder (as_Addresses r)))).
Proof.
  unfold addressSetRow. cbn -[encSet ovsStringSetToSlice].
  change (col (encAs u r) "addresses") with (encSet (as_Addresses r)). by rewrite read_set.
Qed.

Lemma read_lb u r : loadBalancerRow (encLb u r) = Ok (Val (viewLB u r)).
Proof.
  unfold loadBalancerRow. change (col (encLb u r) "vips") with (encMap (lb_vips r)).
  by rewrite read_map.
Qed.

(** The rows of a table, parsed. *)
Lemma parseRows_enc {R A} (enc : string → R → reply_row) (parse : reply_row → outcome (result A)) (g : string → R → A) m :
  (∀ u r, parse (enc u r) = Ok (Val (g u r))) →
  ∃ l, parseRows parse (encRows enc m) = Ok (Val l) ∧ l ≡ₚ simRows g m.
Proof.
  intros Hp. unfold encRows.
  assert (∀ rows, rows ⊆ ((λ ur, enc ur.1 ur.2) <$> map_to_list m) →
    parseRows parse rows = Ok (Val (omap (λ r, match parse r with Ok (Val a) => Some a | _ => None end) rows))) as Hall.
  { induction rows as [|r rows IH]; intros Hsub; [done|]. simpl.
    assert (r ∈ (λ ur, enc ur.1 ur.2) <$> map_to_list m) as ([u x] & -> & _)%list_elem_of_fmap by (apply Hsub; by left).
    simpl. rewrite Hp. simpl. rewrite IH; [done|]. intros y Hy. apply Hsub. by right. }
  rewrite Hall; [|intros y; by rewrite Hrow]. eexists. split; [done|].
  rewrite Hrow. unfold simRows. clear Hall. induction (map_to_list m) as [|[u r] l IH]; [done|].
  csimpl. rewrite Hp, IH. done.
Qed.
End read.

#[export] Instance server_OvnView {W} `{OvsParams} `{NbView W} : OvnView W := λ w, viewOf (nb w).

(** *** What the operations of the client do *)

Section ops.
Context `{OvsParams}.
Implicit Types (d : nbdb) (names : gmap string string).

Lemma exec_results names ops d res d' :
  exec names ops d = Some (res, d') →
  length res = length ops ∧ ∀ i, firstError i res = Val ().
Proof.
  revert names d res d'. induction ops as [|o ops IH]; intros names d res d' He; simpl in He.
  { by simplify_eq. }
  destruct (exec1 names d o) as [[[names1 d1] r]|] eqn:H1; [|done]. simpl in He.
  destruct (exec names1 ops d1) as [[rs d2]|] eqn:H2; [|done]. simpl in He.
  injection He as <- <-. apply IH in H2 as [Hlen Herr]. split; [simpl; by rewrite Hlen|].
  intros i. simpl. assert (or_Error r = "") as Hr.
  { unfold exec1 in H1. destruct (whereOf _ _) as [p|]; [|done]. simpl in H1.
    repeat case_match; try done; apply bind_Some in H1 as (? & ? & [=]); by subst. }
  rewrite bool_decide_eq_false_2 by (rewrite Hr; tauto). apply Herr.
Qed.

Lemma exec_step names o rest d names' d' r :
  exec1 names d o = Some (names', d', r) →
  exec names (o :: rest) d = ('(rs, d'') ← exec names' rest d'; Some (r :: rs, d'')).
Proof. intros He. simpl. by rewrite He. Qed.

(** A row inserted under a name, and its reference from the only switch. *)
Lemma exec_add_on names table row nm column sw rest d d1 upd :
  insertRow table row d = Some d1 → nm ≠ "" → validUUID nm = false →
  mutateLs column (λ x, x ∪ list_to_set [newUUID d]) = Some upd → nb_ls d1 = nb_ls d →
  exec names (insertOp table row nm ::
    mutateOp "Logical_Switch" (newMutation column "insert" nm)
      (newCondition "name" "==" (VAtom (AString sw))) :: rest) d =
  ('(rs, d') ← exec (<[nm := newUUID d]> names) rest
     (set_ls (on ls_name (λ _ n, bool_decide (n = sw) && true) upd (nb_ls d)) d1);
   Some (done_result :: done_result :: rs, d')).
Proof.
  intros Hins Hnm Hval Hupd Hls.
  assert (exec1 names d (insertOp table row nm) = Some (<[nm := newUUID d]> names, d1, done_result)) as E1.
  { unfold exec1. simpl. rewrite Hins. simpl. by rewrite bool_decide_eq_false_2. }
  assert (exec1 (<[nm := newUUID d]> names) d1 (mutateOp "Logical_Switch" (newMutation column "insert" nm)
      (newCondition "name" "==" (VAtom (AString sw)))) =
    Some (<[nm := newUUID d]> names,
      set_ls (on ls_name (λ _ n, bool_decide (n = sw) && true) upd (nb_ls d)) d1, done_result)) as E2.
  { unfold exec1. simpl. unfold resolve. rewrite Hval, lookup_insert_eq. cbn -[list_to_set mutateLs].
    rewrite Hupd. simpl. by rewrite Hls. }
  rewrite (exec_step _ _ _ _ _ _ _ E1), (exec_step _ _ _ _ _ _ _ E2).
  by destruct (exec _ rest _) as [[rs d']|].
Qed.

Lemma exec_add_ls names table row nm column sw rest d d1 upd :
  insertRow table row d = Some d1 → nm ≠ "" → validUUID nm = false →
  mutateLs column (λ x, x ∪ list_to_set [newUUID d]) = Some upd →
  nb_ls d1 = nb_ls d → namesOf ls_name (nb_ls d) = {[sw]} →
  exec names (insertOp table row nm ::
    mutateOp "Logical_Switch" (newMutation column "insert" nm)
      (newCondition "name" "==" (VAtom (AString sw))) :: rest) d =
  ('(rs, d') ← exec (<[nm := newUUID d]> names) rest (set_ls (upd <$> nb_ls d) d1);
   Some (done_result :: done_result :: rs, d')).
Proof. intros ? ? ? ? ? Hsole. erewrite exec_add_on by done. by rewrite (on_named ls_name sw upd _ Hsole). Qed.

Lemma exec_add_ls1 names table row nm column sw d d1 upd :
  insertRow table row d = Some d1 → nm ≠ "" → validUUID nm = false →
  mutateLs column (λ x, x ∪ list_to_set [newUUID d]) = Some upd →
  nb_ls d1 = nb_ls d → namesOf ls_name (nb_ls d) = {[sw]} →
  exec names [insertOp table row nm;
    mutateOp "Logical_Switch" (newMutation column "insert" nm)
      (newCondition "name" "==" (VAtom (AString sw)))] d =
  Some ([done_result; done_result], set_ls (upd <$> nb_ls d) d1).
Proof. intros. by erewrite exec_add_ls. Qed.

Lemma exec_add_lr names row nm rt d d1 upd :
  insertRow "Logical_Router_Port" row d = Some d1 → nm ≠ "" → validUUID nm = false →
  mutateLr "ports" (λ x, x ∪ list_to_set [newUUID d]) = Some upd →
  nb_lr d1 = nb_lr d → namesOf lr_name (nb_lr d) = {[rt]} →
  exec names [insertOp "Logical_Router_Port" row nm;
    mutateOp "Logical_Router" (newMutation "ports" "insert" nm)
      (newCondition "name" "==" (VAtom (AString rt)))] d =
  Some ([done_result; done_result], set_lr (upd <$> nb_lr d) d1).
Proof.
  intros Hins Hnm Hval Hupd Hlr Hsole.
  assert (exec1 names d (insertOp "Logical_Router_Port" row nm) =
    Some (<[nm := newUUID d]> names, d1, done_result)) as E1.
  { unfold exec1. cbn -[insertRow]. rewrite Hins. simpl. by rewrite bool_decide_eq_false_2. }
  assert (exec1 (<[nm := newUUID d]> names) d1 (mutateOp "Logical_Router" (newMutation "ports" "insert" nm)
      (newCondition "name" "==" (VAtom (AString rt)))) =
    Some (<[nm := newUUID d]> names, set_lr (upd <$> nb_lr d) d1, done_result)) as E2.
  { unfold exec1. simpl. unfold resolve. rewrite Hval, lookup_insert_eq. simpl. rewrite Hlr.
    injection Hupd as <-. by rewrite (on_named lr_name rt _ _ Hsole). }
  by rewrite (exec_step _ _ _ _ _ _ _ E1), (exec_step _ _ _ _ _ _ _ E2).
Qed.

(** A condition on a UUID. *)
Lemma whereOf_uuid names u :
  validUUID u = true →
  whereOf names (newCondition "_uuid" "==" (VAtom (AUUID u))) =
  Some (λ uuid _, bool_decide (Some u = Some uuid) && true).
Proof. intros Hu. simpl. unfold resolve. by rewrite Hu. Qed.

(** A row deleted, and its reference from the only switch. *)
Lemma exec_del_ls names table u column sw rest d d1 upd :
  validUUID u = true →
  deleteRows table (λ uuid _, bool_decide (Some u = Some uuid) && true) d = Some d1 →
  mutateLs column (λ x, x ∖ list_to_set [u]) = Some upd →
  nb_ls d1 = nb_ls d → namesOf ls_name (nb_ls d) = {[sw]} →
  exec names (deleteOp table (newCondition "_uuid" "==" (VAtom (AUUID u))) ::
    mutateOp "Logical_Switch" (newMutation column "delete" u)
      (newCondition "name" "==" (VAtom (AString sw))) :: rest) d =
  ('(rs, d') ← exec names rest (set_ls (upd <$> nb_ls d) d1);
   Some (done_result :: done_result :: rs, d')).
Proof.
  intros Hval Hdel Hupd Hls Hsole.
  assert (exec1 names d (deleteOp table (newCondition "_uuid" "==" (VAtom (AUUID u)))) =
    Some (names, d1, done_result)) as E1.
  { unfold exec1. change (Where (deleteOp table ?c)) with c. rewrite whereOf_uuid by done. simpl. by rewrite Hdel. }
  assert (exec1 names d1 (mutateOp "Logical_Switch" (newMutation column "delete" u)
      (newCondition "name" "==" (VAtom (AString sw)))) =
    Some (names, set_ls (upd <$> nb_ls d) d1, done_result)) as E2.
  { unfold exec1. simpl. unfold resolve. rewrite Hval. cbn -[list_to_set mutateLs].
    rewrite Hupd. simpl. rewrite Hls.
    by rewrite (on_named ls_name sw upd _ Hsole). }
  rewrite (exec_step _ _ _ _ _ _ _ E1), (exec_step _ _ _ _ _ _ _ E2).
  by destruct (exec _ rest _) as [[rs d']|].
Qed.

Lemma exec_del_ls1 names table u column sw d d1 upd :
  validUUID u = true →
  deleteRows table (λ uuid _, bool_decide (Some u = Some uuid) && true) d = Some d1 →
  mutateLs column (λ x, x ∖ list_to_set [u]) = Some upd →
  nb_ls d1 = nb_ls d → namesOf ls_name (nb_ls d) = {[sw]} →
  exec names [deleteOp table (newCondition "_uuid" "==" (VAtom (AUUID u)));
    mutateOp "Logical_Switch" (newMutation column "delete" u)
      (newCondition "name" "==" (VAtom (AString sw)))] d =
  Some ([done_result; done_result], set_ls (upd <$> nb_ls d) d1).
Proof. intros. by erewrite exec_del_ls. Qed.

Lemma exec_del_lr names u rt d d1 upd :
  validUUID u = true →
  deleteRows "Logical_Router_Port" (λ uuid _, bool_decide (Some u = Some uuid) && true) d = Some d1 →
  mutateLr "ports" (λ x, x ∖ list_to_set [u]) = Some upd →
  nb_lr d1 = nb_lr d → namesOf lr_name (nb_lr d) = {[rt]} →
  exec names [deleteOp "Logical_Router_Port" (newCondition "_uuid" "==" (VAtom (AUUID u)));
    mutateOp "Logical_Router" (newMutation "ports" "delete" u)
      (newCondition "name" "==" (VAtom (AString rt)))] d =
  Some ([done_result; done_result], set_lr (upd <$> nb_lr d) d1).
Proof.
  intros Hval Hdel Hupd Hlr Hsole.
  assert (exec1 names d (deleteOp "Logical_Router_Port" (newCondition "_uuid" "==" (VAtom (AUUID u)))) =
    Some (names, d1, done_result)) as E1.
  { unfold exec1. change (Where (deleteOp ?t ?c)) with c. rewrite whereOf_uuid by done.
    cbn -[deleteRows]. by rewrite Hdel. }
  assert (exec1 names d1 (mutateOp "Logical_Router" (newMutation "ports" "delete" u)
      (newCondition "name" "==" (VAtom (AString rt)))) =
    Some (names, set_lr (upd <$> nb_lr d) d1, done_result)) as E2.
  { unfold exec1. simpl. unfold resolve. rewrite Hval. simpl. rewrite Hlr.
    injection Hupd as <-. by rewrite (on_named lr_name rt _ _ Hsole). }
  by rewrite (exec_step _ _ _ _ _ _ _ E1), (exec_step _ _ _ _ _ _ _ E2).
Qed.

(** *** Inserted rows *)

Lemma mapM_strings l : mapM atomString (strings_set l) = Some l.
Proof. apply mapM_Some, Forall2_fmap_l, Forall_Forall2_diag. by apply Forall_forall. Qed.

Lemma getStrings_set row k l :
  row !! k = Some (newOvsSet (strings_set l)) → l ≠ [] → getStrings row k = Some (remove_dups l).
Proof.
  intros Hk Hl. unfold getStrings. rewrite Hk. destruct l as [|s l]; [done|].
  pose proof (mapM_strings (s :: l)) as Hm. unfold newOvsSet, strings_set in *. csimpl in *. by rewrite Hm.
Qed.
End ops.

(** The columns of an inserted row are known ones. *)
Ltac known_columns :=
  unfold insertRow;
  match goal with |- context [known ?c ?r] => replace (known c r) with true by (vm_compute; reflexivity) end;
  cbv iota zeta.

Section inserts.
Context `{OvsParams}.
Implicit Types d : nbdb.

Lemma insert_ls sw d :
  insertRow "Logical_Switch" {["name" := VAtom (AString sw)]} d =
  Some (set_ls (<[newUUID d := mk_lsRow sw ∅ ∅ ∅]> (nb_ls d)) d).
Proof. reflexivity. Qed.

Lemma insert_lr rt d :
  insertRow "Logical_Router" {["name" := VAtom (AString rt)]} d =
  Some (set_lr (<[newUUID d := mk_lrRow rt ∅]> (nb_lr d)) d).
Proof. reflexivity. Qed.

Lemma insert_lsp p d :
  insertRow "Logical_Switch_Port" (switchPortColumns p) d =
  Some (set_lsp (<[newUUID d := mk_lspRow (sp_Name p) (sp_Type p) (remove_dups (sp_Addresses p)) (sp_Options p)]> (nb_lsp d)) d).
Proof.
  unfold switchPortColumns.
  destruct (decide (sp_Addresses p = [])) as [Ha|Ha];
    destruct (decide (sp_Options p = ∅)) as [Ho|Ho]; simpl_bd; cbv zeta;
    known_columns.
  - rewrite Ha, Ho. reflexivity.
  - rewrite Ha. unfold getMap. rewrite lookup_insert_eq. simpl. by simpl_bd.
  - rewrite Ho, (getStrings_set _ _ (sp_Addresses p)); [reflexivity|apply lookup_insert_eq|done].
  - rewrite (getStrings_set _ _ (sp_Addresses p)); [|reflexivity|done].
    unfold getMap. rewrite lookup_insert_eq. simpl. by simpl_bd.
Qed.

Lemma insert_lrp p d :
  rp_Networks p ≠ [] →
  insertRow "Logical_Router_Port"
    {["name" := VAtom (AString (rp_Name p)); "networks" := newOvsSet (strings_set (rp_Networks p));
      "mac" := VAtom (AString (rp_MAC p))]} d =
  Some (set_lrp (<[newUUID d := mk_lrpRow (rp_Name p) (rp_MAC p) (remove_dups (rp_Networks p))]> (nb_lrp d)) d).
Proof.
  intros Hn. known_columns.
  by rewrite (getStrings_set _ _ (rp_Networks p)).
Qed.

Lemma insert_acl c d :
  (0 ≤ Priority c)%Z → Direction c ≠ "*" → Match c ≠ "*" →
  insertRow "ACL" (aclColumns c) d = Some (set_acl (<[newUUID d := mk_acRow c false]> (nb_acl d)) d).
Proof.
  intros Hp Hd Hm. unfold aclColumns. simpl_bd. cbv zeta.
  rewrite (Z.max_r 0) by done. known_columns. by destruct c.
Qed.

Lemma insert_as x d :
  as_Addresses x ≠ [] →
  insertRow "Address_Set" {["name" := VAtom (AString (as_Name x));
    "addresses" := newOvsSet (strings_set (as_Addresses x))]} d =
  Some (set_as (<[newUUID d := mk_AddressSet (as_Name x) (remove_dups (as_Addresses x))]> (nb_as d)) d).
Proof.
  intros Hn. known_columns.
  by rewrite (getStrings_set _ _ (as_Addresses x)).
Qed.

Lemma insert_lb name vips d :
  vips ≠ ∅ →
  insertRow "Load_Balancer" {["name" := VAtom (AString name); "vips" := newOvsMap vips]} d =
  Some (set_lb (<[newUUID d := mk_lbRow name vips]> (nb_lb d)) d).
Proof.
  intros Hv. known_columns.
  change (getMap ?r "vips") with (if bool_decide (vips = ∅) then None else Some vips). by simpl_bd.
Qed.

Lemma remove_dups_id {A} `{EqDecision A} (l : list A) : NoDup l → remove_dups l = l.
Proof.
  induction 1 as [|x l Hx _ IH]; [done|]. simpl. rewrite IH. by destruct (decide_rel _ _ _).
Qed.
End inserts.

(** *** The constraints after each change *)

Section keep.
Context `{OvsParams}.
Implicit Types d : nbdb.

Definition fresh_uuid (u : string) d : Prop := u ∉ uuids d ∧ validUUID u = true.

Lemma commit_id d : constraints d → commit d = d.
Proof.
  intros (Hp & Ha & Hr & Hb & _). destruct d as [ls lsp lr lrp acl ads lb]. unfold commit. simpl in *.
  assert (∀ {R} (s : gset string) (m : gmap string R), s = dom m → filter (λ ur, ur.1 ∈ s) m = m) as Hk.
  { intros R s m ->. apply map_filter_id. intros k r Hk. simpl. by apply elem_of_dom_2 in Hk. }
  f_equal; [|auto..]. apply map_eq. intros k. rewrite lookup_fmap. destruct (ls !! k) as [r|] eqn:Hk'; [|done].
  simpl. f_equal. destruct r as [n p a l]. simpl. f_equal. apply set_eq. intros u.
  rewrite elem_of_intersection. split; [tauto|]. intros Hu. split; [done|]. apply Hb, elem_of_refs.
  by exists k, (mk_lsRow n p a l).
Qed.

(** A fresh UUID is not a key of any table. *)
Lemma fresh_none d u : u ∉ uuids d →
  nb_ls d !! u = None ∧ nb_lsp d !! u = None ∧ nb_lr d !! u = None ∧ nb_lrp d !! u = None ∧
  nb_acl d !! u = None ∧ nb_as d !! u = None ∧ nb_lb d !! u = None.
Proof. unfold uuids. rewrite !not_elem_of_union, !not_elem_of_dom. tauto. Qed.

(** A switch port nothing refers to is collected. *)
Lemma commit_lost d u r :
  constraints d → u ∉ uuids d → commit (set_lsp (<[u := r]> (nb_lsp d)) d) = d.
Proof.
  intros Hc Hu. pose proof (commit_id d Hc) as Hid. destruct Hc as (Hp & _).
  destruct (fresh_none _ _ Hu) as (_ & Hn & _). transitivity (commit d); [|done]. unfold commit. simpl. f_equal.
  apply map_filter_insert_not'; simpl.
  - rewrite Hp. by apply not_elem_of_dom.
  - intros y Hy. congruence.
Qed.

Lemma valid_add d d' u : uuids d' ⊆ {[u]} ∪ uuids d → validUUID u = true →
  set_Forall (λ u, validUUID u = true) (uuids d) → set_Forall (λ u, validUUID u = true) (uuids d').
Proof. intros Hs Hu Hd x Hx%Hs. apply elem_of_union in Hx as [->%elem_of_singleton|Hx]; auto. Qed.

Lemma valid_sub d d' : uuids d' ⊆ uuids d →
  set_Forall (λ u, validUUID u = true) (uuids d) → set_Forall (λ u, validUUID u = true) (uuids d').
Proof. intros Hs Hd x Hx%Hs. auto. Qed.

Lemma rows_insert {R A} (f : string → R → A) m u r :
  m !! u = None → simRows f (<[u := r]> m) ≡ₚ f u r :: simRows f m.
Proof. intros Hm. unfold simRows. by rewrite map_to_list_insert. Qed.

Lemma rows_delete {R A} (f : string → R → A) (g : A → string) (m : gmap string R) u :
  (∀ k r, g (f k r) = k) → simRows f (delete u m) ≡ₚ filter (λ a, g a ≠ u) (simRows f m).
Proof.
  intros Hg.
  assert (delete u m = filter (λ '(k, _), k ≠ u) m) as ->; [|exact (simRows_filter f g Hg (λ k, k ≠ u) m)].
  apply map_eq. intros k. apply option_eq. intros r.
  rewrite lookup_delete_Some, map_lookup_filter_Some. split; intros [? ?]; split; auto.
Qed.

Lemma rows_delete_names {R A} (f : string → R → A) (g n : A → string) (m : gmap string R) u :
  (∀ k r, g (f k r) = k) → NoDup (n <$> simRows f m) → NoDup (n <$> simRows f (delete u m)).
Proof.
  intros Hg Hnd. rewrite (rows_delete f g) by done. eapply sublist_NoDup; [exact Hnd|].
  apply fmap_sublist, sublist_filter.
Qed.

Lemma add_switch d u sw :
  constraints d → fresh_uuid u d → constraints (set_ls (<[u := mk_lsRow sw ∅ ∅ ∅]> (nb_ls d)) d).
Proof.
  intros (Hp & Ha & Hr & Hb & N1 & N2 & N3 & Hv) [Hf Hu]. destruct (fresh_none _ _ Hf) as (Hn & _).
  unfold constraints. simpl. rewrite !refs_insert by done. split_and!; try done.
  eapply (valid_add d _ u); [|done|done]. unfold uuids. simpl. rewrite dom_insert. set_solver.
Qed.

Lemma add_router d u rt :
  constraints d → fresh_uuid u d → constraints (set_lr (<[u := mk_lrRow rt ∅]> (nb_lr d)) d).
Proof.
  intros (Hp & Ha & Hr & Hb & N1 & N2 & N3 & Hv) [Hf Hu]. destruct (fresh_none _ _ Hf) as (_ & _ & Hn & _).
  unfold constraints. simpl. rewrite !refs_insert by done. split_and!; try done.
  eapply (valid_add d _ u); [|done|done]. unfold uuids. simpl. rewrite dom_insert. set_solver.
Qed.

Lemma add_port d u r :
  constraints d → fresh_uuid u d → nb_ls d ≠ ∅ → lsp_name r ∉ sp_Name <$> ov_ports (viewOf d) →
  constraints (set_ls
    ((λ x, mk_lsRow (ls_name x) (ls_ports x ∪ list_to_set [u]) (ls_acls x) (ls_lbs x)) <$> nb_ls d)
    (set_lsp (<[u := r]> (nb_lsp d)) d)).
Proof.
  intros (Hp & Ha & Hr & Hb & N1 & N2 & N3 & Hv) [Hf Hu] Hne Hname.
  destruct (fresh_none _ _ Hf) as (_ & Hn & _). unfold constraints. simpl.
  rewrite (refs_add ls_ports _ _ u), !refs_fmap, dom_insert_L, Hp, rows_insert by done.
  split_and!; try done; [csimpl; by constructor|].
  eapply (valid_add d _ u); [|done|done]. unfold uuids. simpl. rewrite dom_fmap, dom_insert. set_solver.
Qed.

Lemma add_rport d u r :
  constraints d → fresh_uuid u d → nb_lr d ≠ ∅ → lrp_name r ∉ rp_Name <$> ov_rports (viewOf d) →
  constraints (set_lr
    ((λ x, mk_lrRow (lr_name x) (lr_ports x ∪ list_to_set [u])) <$> nb_lr d)
    (set_lrp (<[u := r]> (nb_lrp d)) d)).
Proof.
  intros (Hp & Ha & Hr & Hb & N1 & N2 & N3 & Hv) [Hf Hu] Hne Hname.
  destruct (fresh_none _ _ Hf) as (_ & _ & _ & Hn & _). unfold constraints. simpl.
  rewrite (refs_add lr_ports _ _ u), dom_insert_L, Hr, rows_insert by done.
  split_and!; try done; [csimpl; by constructor|].
  eapply (valid_add d _ u); [|done|done]. unfold uuids. simpl. rewrite dom_fmap, dom_insert. set_solver.
Qed.

Lemma add_acl d u r :
  constraints d → fresh_uuid u d → nb_ls d ≠ ∅ →
  constraints (set_ls
    ((λ x, mk_lsRow (ls_name x) (ls_ports x) (ls_acls x ∪ list_to_set [u]) (ls_lbs x)) <$> nb_ls d)
    (set_acl (<[u := r]> (nb_acl d)) d)).
Proof.
  intros (Hp & Ha & Hr & Hb & N1 & N2 & N3 & Hv) [Hf Hu] Hne.
  unfold constraints. simpl. rewrite (refs_add ls_acls _ _ u), !refs_fmap, dom_insert_L, Ha by done.
  split_and!; try done.
  eapply (valid_add d _ u); [|done|done]. unfold uuids. simpl. rewrite dom_fmap, dom_insert. set_solver.
Qed.

Lemma add_lb d u r :
  constraints d → fresh_uuid u d → nb_ls d ≠ ∅ →
  constraints (set_ls
    ((λ x, mk_lsRow (ls_name x) (ls_ports x) (ls_acls x) (ls_lbs x ∪ list_to_set [u])) <$> nb_ls d)
    (set_lb (<[u := r]> (nb_lb d)) d)).
Proof.
  intros (Hp & Ha & Hr & Hb & N1 & N2 & N3 & Hv) [Hf Hu] Hne.
  unfold constraints. simpl. rewrite (refs_add ls_lbs _ _ u), !refs_fmap, dom_insert_L by done.
  split_and!; try done; [set_solver|].
  eapply (valid_add d _ u); [|done|done]. unfold uuids. simpl. rewrite dom_fmap, dom_insert. set_solver.
Qed.

Lemma add_set d u r :
  constraints d → fresh_uuid u d → as_Name r ∉ as_Name <$> ov_sets (viewOf d) →
  constraints (set_as (<[u := r]> (nb_as d)) d).
Proof.
  intros (Hp & Ha & Hr & Hb & N1 & N2 & N3 & Hv) [Hf Hu] Hname.
  destruct (fresh_none _ _ Hf) as (_ & _ & _ & _ & _ & Hn & _). unfold constraints. simpl.
  rewrite rows_insert by done. split_and!; try done; [csimpl; by constructor|].
  eapply (valid_add d _ u); [|done|done]. unfold uuids. simpl. rewrite dom_insert. set_solver.
Qed.

Lemma del_port d u :
  constraints d →
  constraints (set_ls
    ((λ x, mk_lsRow (ls_name x) (ls_ports x ∖ list_to_set [u]) (ls_acls x) (ls_lbs x)) <$> nb_ls d)
    (set_lsp (delete u (nb_lsp d)) d)).
Proof.
  intros (Hp & Ha & Hr & Hb & N1 & N2 & N3 & Hv). unfold constraints. simpl.
  rewrite (refs_del ls_ports _ _ u), !refs_fmap, dom_delete_L, Hp by done.
  split_and!; try done; [by apply (rows_delete_names viewPort sp_uuid)|].
  eapply (valid_sub d); [|done]. unfold uuids. simpl. rewrite dom_fmap, dom_delete. set_solver.
Qed.

Lemma del_rport d u :
  constraints d →
  constraints (set_lr
    ((λ x, mk_lrRow (lr_name x) (lr_ports x ∖ list_to_set [u])) <$> nb_lr d)
    (set_lrp (delete u (nb_lrp d)) d)).
Proof.
  intros (Hp & Ha & Hr & Hb & N1 & N2 & N3 & Hv). unfold constraints. simpl.
  rewrite (refs_del lr_ports _ _ u), dom_delete_L, Hr by done.
  split_and!; try done; [by apply (rows_delete_names viewRouterPort rp_uuid)|].
  eapply (valid_sub d); [|done]. unfold uuids. simpl. rewrite dom_fmap, dom_delete. set_solver.
Qed.

Lemma del_acl d u :
  constraints d →
  constraints (set_ls
    ((λ x, mk_lsRow (ls_name x) (ls_ports x) (ls_acls x ∖ list_to_set [u]) (ls_lbs x)) <$> nb_ls d)
    (set_acl (delete u (nb_acl d)) d)).
Proof.
  intros (Hp & Ha & Hr & Hb & N1 & N2 & N3 & Hv). unfold constraints. simpl.
  rewrite (refs_del ls_acls _ _ u), !refs_fmap, dom_delete_L, Ha by done.
  split_and!; try done.
  eapply (valid_sub d); [|done]. unfold uuids. simpl. rewrite dom_fmap, dom_delete. set_solver.
Qed.

Lemma del_lb d u :
  constraints d →
  constraints (set_ls
    ((λ x, mk_lsRow (ls_name x) (ls_ports x) (ls_acls x) (ls_lbs x ∖ list_to_set [u])) <$> nb_ls d)
    (set_lb (delete u (nb_lb d)) d)).
Proof.
  intros (Hp & Ha & Hr & Hb & N1 & N2 & N3 & Hv). unfold constraints. simpl.
  rewrite (refs_del ls_lbs _ _ u), !refs_fmap, dom_delete_L by done.
  split_and!; try done; [set_solver|].
  eapply (valid_sub d); [|done]. unfold uuids. simpl. rewrite dom_fmap, dom_delete. set_solver.
Qed.
End keep.

(** *** The laws *)

Section laws.
Context {W : Type} `{OvsServer W}.
Implicit Types (w : W) (d : nbdb).

Lemma wp_write what ops w res d (Q : result unit → W → Prop) :
  exec ∅ ops (nb w) = Some (res, d) → constraints d → (∀ w', nb w' = d → Q (Val ()) w') →
  wp (transactCheck what ops) w Q.
Proof.
  intros He Hc HQ. unfold transactCheck. wp_bind.
  eapply wp_mono; [eapply Transact_ok; [exact He|by rewrite commit_id]|].
  intros r w' [-> Hw]. rewrite commit_id in Hw by done. wp_ret.
  apply exec_results in He as [Hlen Herr]. unfold errorCheck.
  rewrite bool_decide_eq_false_2 by lia. rewrite Herr. auto.
Qed.

Lemma wp_select table cs p rows w (Q : result (list OperationResult) → W → Prop) :
  whereOf ∅ cs = Some p → selectRows table p (nb w) = Some rows →
  (∀ w', nb w' = nb w → Q (Val [mk_OperationResult "" "" rows]) w') →
  wp (Transact OVN_Northbound [selectOp table cs]) w Q.
Proof.
  intros Hp Hr HQ. pose proof (nb_ok w) as Hc.
  eapply wp_mono; [eapply (Transact_ok _ w [mk_OperationResult "" "" rows] (nb w))|].
  - simpl. unfold exec1. simpl. rewrite Hp. simpl. by rewrite Hr.
  - by rewrite commit_id.
  - intros r w' [-> Hw]. rewrite commit_id in Hw by done. auto.
Qed.

(** Without a condition every row is returned. *)
Lemma whereOf_no : ∃ p, whereOf ∅ noCondition = Some p ∧ ∀ u n, p u n = true.
Proof.
  eexists. split; [reflexivity|]. intros u n. simpl. unfold resolve.
  pose proof names_no_uuids as Hn. apply Forall_cons in Hn as [-> _]. rewrite lookup_empty. by simpl_bd.
Qed.

Lemma wp_list {R A} table prefix (parse : reply_row → outcome (result A)) (name : R → string) (m : nbdb → gmap string R)
    (enc : string → R → reply_row) (g : string → R → A) w Q :
  (∀ p d, selectRows table p d = Some (encRows enc (matching name p (m d)))) →
  (∀ u r, parse (enc u r) = Ok (Val (g u r))) →
  (∀ l w', l ≡ₚ simRows g (m (nb w)) → nb w' = nb w → Q (Val l) w') →
  wp (listTable OVN_Northbound table prefix parse) w Q.
Proof.
  intros Hsel Hparse HQ. unfold listTable. wp_bind. destruct whereOf_no as (p & Hp & Hall).
  eapply wp_select; [exact Hp|apply Hsel|]. intros w' Hw.
  rewrite matching_all by done.
  destruct (parseRows_enc rowOrder_perm enc parse g (m (nb w)) Hparse) as (l & Hl & Hperm).
  wp_bind. eapply wp_lift; [reflexivity|]. simpl. eapply wp_lift; [exact Hl|]. auto.
Qed.

Lemma wp_exists {R} table what name (f : R → string) (m : nbdb → gmap string R) enc w Q :
  (∀ p d, selectRows table p d = Some (encRows enc (matching f p (m d)))) →
  (∀ w', nb w' = nb w → Q (Val (bool_decide (name ∈ namesOf f (m (nb w))))) w') →
  wp (existsByName table what name) w Q.
Proof.
  intros Hsel HQ. unfold existsByName. wp_bind. eapply wp_select; [reflexivity|apply Hsel|].
  intros w' Hw. wp_ret.
  match goal with |- Q (Val ?b) _ =>
    assert (b = bool_decide (name ∈ namesOf f (m (nb w)))) as -> end; [|auto].
  apply bool_decide_ext. simpl. unfold encRows. rewrite elem_of_namesOf.
  assert (∀ {A} (l : list A), l ≠ [] ↔ ∃ x, x ∈ l) as Hne.
  { intros A [|x l]; split; [done|by intros [x ?%elem_of_nil]|exists x; by left|done]. }
  rewrite Hne. setoid_rewrite rowOrder_perm. split.
  - intros (x & ([k r] & -> & Hk)%list_elem_of_fmap). apply elem_of_map_to_list in Hk.
    apply map_lookup_filter_Some in Hk as [Hk Hn]. simpl in Hn.
    apply andb_true_iff in Hn as [Hn%bool_decide_eq_true _]. eauto.
  - intros (k & r & Hk & <-). eexists. apply list_elem_of_fmap. exists (k, r). split; [done|].
    apply elem_of_map_to_list, map_lookup_filter_Some. split; [done|]. simpl. by simpl_bd.
Qed.

Lemma sole_ne {R} (f : R → string) (m : gmap string R) n : namesOf f m = {[n]} → m ≠ ∅.
Proof. intros Hn. by eapply (on_sole f n (λ _ _, true) (λ r, r)). Qed.

Lemma newUUID_ok d : fresh_uuid (newUUID d) d.
Proof. split; [apply newUUID_fresh|apply newUUID_valid]. Qed.

(** Creating switches and routers. *)
Lemma wp_create_switch sw w Q :
  (∀ w', view w' = with_switches ({[sw]} ∪ ov_switches (view w)) (view w) → Q (Val ()) w') →
  wp (client_CreateLogicalSwitch sw) w Q.
Proof.
  intros HQ. unfold client_CreateLogicalSwitch. eapply wp_write.
  - reflexivity.
  - apply add_switch; [apply nb_ok|apply newUUID_ok].
  - intros w' Hw. apply HQ. unfold view, server_OvnView. rewrite Hw. unfold viewOf, with_switches. simpl.
    destruct (fresh_none _ _ (newUUID_fresh (nb w))) as (Hf & _).
    by rewrite (namesOf_insert ls_name), lbRefs_insert.
Qed.

Lemma wp_create_router rt w Q :
  (∀ w', view w' = with_routers ({[rt]} ∪ ov_routers (view w)) (view w) → Q (Val ()) w') →
  wp (client_CreateLogicalRouter rt) w Q.
Proof.
  intros HQ. unfold client_CreateLogicalRouter. eapply wp_write.
  - reflexivity.
  - apply add_router; [apply nb_ok|apply newUUID_ok].
  - intros w' Hw. apply HQ. unfold view, server_OvnView. rewrite Hw. unfold viewOf, with_routers. simpl.
    f_equal. apply (namesOf_insert lr_name). apply fresh_none, newUUID_fresh.
Qed.

(** Sets of at most one element. *)
Lemma setOrder_small l : length l ≤ 1 → setOrder (remove_dups l) = l.
Proof.
  intros Hl. destruct l as [|a [|b l]]; [| |simpl in Hl; lia].
  - apply Permutation_nil_r, setOrder_perm.
  - apply Permutation_singleton_r, setOrder_perm.
Qed.


Lemma wp_create_port sw p w Q :
  ov_switches (view w) = {[sw]} → sp_Name p ∉ sp_Name <$> ov_ports (view w) → length (sp_Addresses p) ≤ 1 →
  (∀ w' u l, l ≡ₚ mk_SwitchPort u (sp_Name p) (sp_Type p) (sp_Addresses p) (sp_Options p) :: ov_ports (view w) →
     view w' = with_ports l (view w) → Q (Val ()) w') →
  wp (client_CreateSwitchPort sw p) w Q.
Proof.
  intros Hsw Hname Hlen HQ. pose proof names_no_uuids as Hn.
  apply Forall_cons in Hn as [_ [Hn _]%Forall_cons].
  eapply wp_write.
  - eapply exec_add_ls1; [apply insert_lsp|done|done|reflexivity|done|exact Hsw].
  - apply add_port; [apply nb_ok|apply newUUID_ok|exact (sole_ne _ _ _ Hsw)|done].
  - intros w' Hw. apply (HQ w' (newUUID (nb w)) (ov_ports (view w'))); unfold view, server_OvnView; rewrite Hw.
    + simpl. rewrite rows_insert by apply fresh_none, newUUID_fresh. unfold viewPort at 1. simpl.
      by rewrite setOrder_small.
    + unfold viewOf. simpl. unfold with_ports. simpl. by rewrite namesOf_fmap, lbRefs_fmap.
Qed.

Lemma wp_create_rport rt p w Q :
  ov_routers (view w) = {[rt]} → rp_Name p ∉ rp_Name <$> ov_rports (view w) → length (rp_Networks p) = 1 →
  (∀ w' u l, l ≡ₚ mk_RouterPort u (rp_Name p) (rp_MAC p) (rp_Networks p) :: ov_rports (view w) →
     view w' = with_rports l (view w) → Q (Val ()) w') →
  wp (client_CreateRouterPort rt p) w Q.
Proof.
  intros Hrt Hname Hlen HQ. pose proof names_no_uuids as Hn.
  apply Forall_cons in Hn as [_ [_ [Hn _]%Forall_cons]%Forall_cons].
  assert (rp_Networks p ≠ []) as Hne by (intros Heq; by rewrite Heq in Hlen).
  eapply wp_write.
  - apply exec_add_lr; [by apply insert_lrp|done|done|reflexivity|done|exact Hrt].
  - apply add_rport; [apply nb_ok|apply newUUID_ok|exact (sole_ne _ _ _ Hrt)|done].
  - intros w' Hw. apply (HQ w' (newUUID (nb w)) (ov_rports (view w'))); unfold view, server_OvnView; rewrite Hw.
    + simpl. rewrite rows_insert by apply fresh_none, newUUID_fresh. unfold viewRouterPort at 1. simpl.
      by rewrite setOrder_small by lia.
    + unfold viewOf. simpl. unfold with_rports. simpl. by rewrite namesOf_fmap.
Qed.

Lemma wp_create_lb sw name vips w Q :
  ov_switches (view w) = {[sw]} → vips ≠ ∅ →
  (∀ w' u l, l ≡ₚ mk_ovnLoadBalancer u name vips :: ov_lbs (view w) →
     view w' = with_lbrefs ({[(sw, u)]} ∪ ov_lbrefs (view w)) (with_lbs l (view w)) → Q (Val ()) w') →
  wp (client_CreateLoadBalancer sw name vips) w Q.
Proof.
  intros Hsw Hv HQ. pose proof names_no_uuids as Hn.
  apply Forall_cons in Hn as [_ [_ [_ [Hn _]%Forall_cons]%Forall_cons]%Forall_cons].
  eapply wp_write.
  - eapply exec_add_ls1; [by apply insert_lb|done|done|reflexivity|done|exact Hsw].
  - apply add_lb; [apply nb_ok|apply newUUID_ok|exact (sole_ne _ _ _ Hsw)].
  - intros w' Hw. apply (HQ w' (newUUID (nb w)) (ov_lbs (view w'))); unfold view, server_OvnView; rewrite Hw.
    + simpl. by rewrite rows_insert by apply fresh_none, newUUID_fresh.
    + unfold viewOf. simpl. unfold with_lbrefs, with_lbs. simpl. rewrite namesOf_fmap by done. f_equal.
      by apply lbRefs_add.
Qed.

(** The UUID of a row is valid. *)
Lemma uuid_valid w u : u ∈ uuids (nb w) → validUUID u = true.
Proof. pose proof (nb_ok w) as (_ & _ & _ & _ & _ & _ & _ & Hv). apply Hv. Qed.

Lemma elem_of_rows {R A} (f : string → R → A) (m : gmap string R) a :
  a ∈ simRows f m ↔ ∃ k r, m !! k = Some r ∧ a = f k r.
Proof.
  unfold simRows. rewrite list_elem_of_fmap. split.
  - intros ([k r] & -> & Hk). apply elem_of_map_to_list in Hk. eauto.
  - intros (k & r & Hk & ->). exists (k, r). by rewrite elem_of_map_to_list.
Qed.

Lemma delete_uuid_pred (u : string) k (n : string) :
  (bool_decide (Some u = Some k) && true) = bool_decide (u = k).
Proof. rewrite andb_true_r. apply bool_decide_ext. split; [by intros [=]|by intros ->]. Qed.

Lemma wp_delete_port sw p w Q :
  ov_switches (view w) = {[sw]} → p ∈ ov_ports (view w) →
  (∀ w' l, l ≡ₚ filter (λ x, sp_uuid x ≠ sp_uuid p) (ov_ports (view w)) →
     view w' = with_ports l (view w) → Q (Val ()) w') →
  wp (client_DeleteSwitchPort sw p) w Q.
Proof.
  intros Hsw (u & r & Hu & ->)%elem_of_rows HQ. eapply wp_write.
  - eapply exec_del_ls1; [apply (uuid_valid w); unfold uuids; apply elem_of_dom_2 in Hu; set_solver|
      reflexivity|reflexivity|done|exact Hsw].
  - rewrite (others_uuid lsp_name _ u); [|by apply delete_uuid_pred]. apply del_port, nb_ok.
  - rewrite (others_uuid lsp_name _ u); [|by apply delete_uuid_pred]. intros w' Hw.
    apply (HQ w' (ov_ports (view w'))); unfold view, server_OvnView; rewrite Hw.
    + by apply (rows_delete viewPort sp_uuid).
    + unfold viewOf, with_ports. simpl. by rewrite namesOf_fmap, lbRefs_fmap.
Qed.

Lemma wp_delete_rport rt p w Q :
  ov_routers (view w) = {[rt]} → p ∈ ov_rports (view w) →
  (∀ w' l, l ≡ₚ filter (λ x, rp_uuid x ≠ rp_uuid p) (ov_rports (view w)) →
     view w' = with_rports l (view w) → Q (Val ()) w') →
  wp (client_DeleteRouterPort rt p) w Q.
Proof.
  intros Hrt (u & r & Hu & ->)%elem_of_rows HQ. eapply wp_write.
  - eapply exec_del_lr; [apply (uuid_valid w); unfold uuids; apply elem_of_dom_2 in Hu; set_solver|
      reflexivity|reflexivity|done|exact Hrt].
  - rewrite (others_uuid lrp_name _ u); [|by apply delete_uuid_pred]. apply del_rport, nb_ok.
  - rewrite (others_uuid lrp_name _ u); [|by apply delete_uuid_pred]. intros w' Hw.
    apply (HQ w' (ov_rports (view w'))); unfold view, server_OvnView; rewrite Hw.
    + by apply (rows_delete viewRouterPort rp_uuid).
    + unfold viewOf, with_rports. simpl. by rewrite namesOf_fmap.
Qed.

Lemma wp_delete_lb sw lb w Q :
  ov_switches (view w) = {[sw]} → lb ∈ ov_lbs (view w) →
  (∀ w' l, l ≡ₚ filter (λ x, ol_uuid x ≠ ol_uuid lb) (ov_lbs (view w)) →
     view w' = with_lbrefs (filter (λ p, p.2 ≠ ol_uuid lb) (ov_lbrefs (view w))) (with_lbs l (view w)) → Q (Val ()) w') →
  wp (client_DeleteLoadBalancer sw lb) w Q.
Proof.
  intros Hsw (u & r & Hu & ->)%elem_of_rows HQ. eapply wp_write.
  - eapply exec_del_ls1; [apply (uuid_valid w); unfold uuids; apply elem_of_dom_2 in Hu; set_solver|
      reflexivity|reflexivity|done|exact Hsw].
  - rewrite (others_uuid lb_name _ u); [|by apply delete_uuid_pred]. apply del_lb, nb_ok.
  - rewrite (others_uuid lb_name _ u); [|by apply delete_uuid_pred]. intros w' Hw.
    apply (HQ w' (ov_lbs (view w'))); unfold view, server_OvnView; rewrite Hw.
    + by apply (rows_delete viewLB ol_uuid).
    + unfold viewOf, with_lbrefs, with_lbs. simpl. rewrite namesOf_fmap by done. f_equal. by apply lbRefs_del.
Qed.

(** *** ACLs: several pairs of operations in one transaction *)

Lemma exec_create_acls sw cores i names d :
  constraints d → namesOf ls_name (nb_ls d) = {[sw]} →
  Forall (λ c, (0 ≤ Priority c)%Z ∧ Direction c ≠ "*" ∧ Match c ≠ "*") cores →
  ∃ res d' news, exec names (createACLOps sw i cores) d = Some (res, d') ∧ constraints d' ∧
    acl_Core <$> news = cores ∧ ov_acls (viewOf d') ≡ₚ news ++ ov_acls (viewOf d) ∧
    viewOf d' = with_acls (ov_acls (viewOf d')) (viewOf d).
Proof.
  revert i names d. induction cores as [|c cores IH]; intros i names d Hd Hsw Hall.
  { exists [], d, []. split_and!; [done..|]. by destruct (viewOf d). }
  apply Forall_cons in Hall as [(Hp & Hdir & Hm) Hall].
  pose proof (sole_ne _ _ _ Hsw) as Hne.
  pose proof (add_acl d (newUUID d) (mk_acRow c false) Hd (newUUID_ok d) Hne) as Hd1.
  set (d1 := set_ls _ _) in Hd1.
  assert (namesOf ls_name (nb_ls d1) = {[sw]}) as Hsw1 by (unfold d1; simpl; by rewrite namesOf_fmap).
  destruct (IH (S i) (<["qacladd" +:+ fmtInt (Z.of_nat i) := newUUID d]> names) d1 Hd1 Hsw1 Hall)
    as (res & d' & news & He & Hd' & Hn & Hv & Hvw).
  exists (done_result :: done_result :: res), d', (mk_ovnACL (newUUID d) c false :: news).
  assert (ov_acls (viewOf d1) ≡ₚ mk_ovnACL (newUUID d) c false :: ov_acls (viewOf d)) as Hv1.
  { unfold d1. simpl. by rewrite rows_insert by apply fresh_none, newUUID_fresh. }
  split_and!; [|done|csimpl; by rewrite Hn|by rewrite Hv, Hv1, <-Permutation_middle|].
  - simpl createACLOps. erewrite exec_add_ls; [|by apply insert_acl|done|apply aclnames_no_uuids|reflexivity|done|exact Hsw].
    match goal with |- context [exec _ _ ?x] => change x with d1 end. by rewrite He.
  - rewrite Hvw. unfold with_acls. simpl. unfold d1. simpl. by rewrite namesOf_fmap, lbRefs_fmap.
Qed.

Lemma exec_delete_acls sw dels names d :
  constraints d → namesOf ls_name (nb_ls d) = {[sw]} → Forall (λ a, validUUID (acl_uuid a) = true) dels →
  ∃ res d', exec names (concat (deleteACLOps sw <$> dels)) d = Some (res, d') ∧ constraints d' ∧
    ov_acls (viewOf d') ≡ₚ filter (λ a, acl_uuid a ∉ acl_uuid <$> dels) (ov_acls (viewOf d)) ∧
    viewOf d' = with_acls (ov_acls (viewOf d')) (viewOf d).
Proof.
  revert names d. induction dels as [|a dels IH]; intros names d Hd Hsw Hall.
  { exists [], d. split_and!; [done|done| |by destruct (viewOf d)]. rewrite filter_all; [done|].
    intros x _ Hx. by apply elem_of_nil in Hx. }
  apply Forall_cons in Hall as [Ha Hall].
  pose proof (del_acl d (acl_uuid a) Hd) as Hd1. set (d1 := set_ls _ _) in Hd1.
  assert (namesOf ls_name (nb_ls d1) = {[sw]}) as Hsw1 by (unfold d1; simpl; by rewrite namesOf_fmap).
  destruct (IH names d1 Hd1 Hsw1 Hall) as (res & d' & He & Hd' & Hv & Hvw).
  exists (done_result :: done_result :: res), d'. split_and!; [|done| |].
  - change (concat (deleteACLOps sw <$> a :: dels)) with
      (deleteOp "ACL" (newCondition "_uuid" "==" (VAtom (AUUID (acl_uuid a)))) ::
       mutateOp "Logical_Switch" (newMutation "acls" "delete" (acl_uuid a))
         (newCondition "name" "==" (VAtom (AString sw))) :: concat (deleteACLOps sw <$> dels)).
    erewrite exec_del_ls; [|exact Ha|reflexivity|reflexivity|done|exact Hsw].
    rewrite (others_uuid noName _ (acl_uuid a)); [|by apply delete_uuid_pred].
    match goal with |- context [exec _ _ ?x] => change x with d1 end. by rewrite He.
  - rewrite Hv. unfold d1. simpl. rewrite (rows_delete viewACL acl_uuid) by done.
    rewrite list_filter_filter. apply Permutation_refl', list_filter_iff. intros x. csimpl.
    rewrite not_elem_of_cons. tauto.
  - rewrite Hvw. unfold with_acls. simpl. unfold d1. simpl. by rewrite namesOf_fmap, lbRefs_fmap.
Qed.

(** *** Address sets *)

Lemma exec_create_sets sets names d :
  constraints d → NoDup (as_Name <$> sets ++ ov_sets (viewOf d)) →
  Forall (λ x, NoDup (as_Addresses x) ∧ as_Addresses x ≠ []) sets →
  ∃ res d', exec names (createAddressSetOp <$> sets) d = Some (res, d') ∧ constraints d' ∧
    ov_sets (viewOf d') ≡ₚ sets ++ ov_sets (viewOf d) ∧
    viewOf d' = with_sets (ov_sets (viewOf d')) (viewOf d).
Proof.
  revert names d. induction sets as [|x sets IH]; intros names d Hd Hnd Hall.
  { exists [], d. split_and!; [done..|]. by destruct (viewOf d). }
  apply Forall_cons in Hall as [[Hx Hne] Hall]. csimpl in Hnd. apply NoDup_cons in Hnd as [Hni Hnd].
  rewrite fmap_app, not_elem_of_app in Hni.
  pose proof (add_set d (newUUID d) x Hd (newUUID_ok d) (proj2 Hni)) as Hd1. set (d1 := set_as _ _) in Hd1.
  assert (ov_sets (viewOf d1) ≡ₚ x :: ov_sets (viewOf d)) as Hv1.
  { unfold d1. simpl. by rewrite rows_insert by apply fresh_none, newUUID_fresh. }
  destruct (IH names d1 Hd1) as (res & d' & He & Hd' & Hv & Hvw); [|done|].
  { rewrite Hv1, <-Permutation_middle. csimpl. constructor; [|done]. rewrite fmap_app, not_elem_of_app. tauto. }
  exists (done_result :: res), d'. split_and!; [|done|by rewrite Hv, Hv1, <-Permutation_middle|].
  - rewrite fmap_cons. erewrite exec_step; [by rewrite He|]. unfold exec1. cbn -[insertRow createAddressSetOp].
    unfold createAddressSetOp. cbn -[insertRow]. rewrite insert_as by done. cbn.
    rewrite remove_dups_id by done. by destruct x.
  - rewrite Hvw. unfold with_sets. simpl. done.
Qed.

Lemma exec_delete_sets dels names d :
  constraints d →
  ∃ res d', exec names (deleteAddressSetOp <$> dels) d = Some (res, d') ∧ constraints d' ∧
    ov_sets (viewOf d') ≡ₚ filter (λ x, as_Name x ∉ as_Name <$> dels) (ov_sets (viewOf d)) ∧
    viewOf d' = with_sets (ov_sets (viewOf d')) (viewOf d).
Proof.
  revert names d. induction dels as [|a dels IH]; intros names d Hd.
  { exists [], d. split_and!; [done|done| |by destruct (viewOf d)]. rewrite filter_all; [done|].
    intros x _ Hx. by apply elem_of_nil in Hx. }
  set (d1 := set_as (others as_Name (λ _ n, bool_decide (n = as_Name a) && true) (nb_as d)) d).
  assert (ov_sets (viewOf d1) ≡ₚ filter (λ x, as_Name x ≠ as_Name a) (ov_sets (viewOf d))) as Hv1.
  { simpl. unfold simRows. rewrite filter_fmap. apply Permutation_map.
    apply NoDup_Permutation; [apply NoDup_map_to_list|apply NoDup_filter, NoDup_map_to_list|].
    intros [k r]. rewrite elem_of_map_to_list, list_elem_of_filter, elem_of_map_to_list. unfold others.
    rewrite map_lookup_filter_Some. simpl. rewrite andb_true_r, bool_decide_eq_false. tauto. }
  assert (constraints d1) as Hd1.
  { destruct Hd as (Hp & Ha & Hr & Hb & N1 & N2 & N3 & Hv). split_and!; try done.
    - rewrite Hv1. eapply sublist_NoDup; [exact N3|]. apply fmap_sublist, sublist_filter.
    - assert (dom (nb_as d1) ⊆ dom (nb_as d)) as Hsub by apply dom_filter_subseteq.
      eapply (valid_sub d); [|done]. unfold uuids. simpl in *. set_solver. }
  destruct (IH names d1 Hd1) as (res & d' & He & Hd' & Hv & Hvw).
  exists (done_result :: res), d'. split_and!; [|done| |].
  - rewrite fmap_cons. erewrite exec_step; [by rewrite He|]. reflexivity.
  - rewrite Hv, Hv1, list_filter_filter. apply Permutation_refl', list_filter_iff. intros x. csimpl.
    rewrite not_elem_of_cons. tauto.
  - rewrite Hvw. done.
Qed.

(** *** Updating addresses *)

Lemma view_update name addrs (m : gmap string lspRow) :
  setOrder addrs = addrs →
  simRows viewPort (on lsp_name (λ _ n, bool_decide (n = name) && true)
    (λ r, mk_lspRow (lsp_name r) (lsp_type r) addrs (lsp_options r)) m) ≡ₚ
  ((λ p, if bool_decide (sp_Name p = name) then set_sp_Addresses addrs p else p) <$> simRows viewPort m).
Proof.
  intros Ha. unfold simRows. rewrite <-list_fmap_compose.
  assert (∀ (g : string → lspRow → lspRow), map_to_list (map_imap (λ u r, Some (g u r)) m) ≡ₚ
    ((λ ur, (ur.1, g ur.1 ur.2)) <$> map_to_list m)) as Hmap.
  { intros g. apply NoDup_Permutation; [apply NoDup_map_to_list| |].
    - apply (NoDup_fmap_1 fst). rewrite <-list_fmap_compose. apply (NoDup_fst_map_to_list m).
    - intros [k r]. rewrite elem_of_map_to_list, map_lookup_imap, list_elem_of_fmap. split.
      + destruct (m !! k) as [r'|] eqn:Hk; [|done]. simpl. intros [= <-].
        exists (k, r'). by rewrite elem_of_map_to_list.
      + intros ([k' r'] & [= -> ->] & Hk%elem_of_map_to_list). simpl in *. by rewrite Hk. }
  unfold on. rewrite Hmap, <-list_fmap_compose. apply Permutation_refl', list_fmap_ext.
  intros i [k r] _. simpl. rewrite andb_true_r. unfold viewPort, set_sp_Addresses.
  case_bool as [Hn|Hn]; simpl; by rewrite ?Ha.
Qed.

Lemma wp_update_addresses name addrs w Q :
  length addrs = 1 →
  (∀ w' l, l ≡ₚ ((λ p, if bool_decide (sp_Name p = name) then set_sp_Addresses addrs p else p) <$> ov_ports (view w)) →
     view w' = with_ports l (view w) → Q (Val ()) w') →
  wp (client_UpdateSwitchPortAddresses name addrs) w Q.
Proof.
  intros Hlen HQ. destruct addrs as [|a [|]]; [done| |done].
  pose proof (view_update name [a] (nb_lsp (nb w)) (setOrder_small [a] (le_n 1))) as Hview.
  set (lsp' := on _ _ _ _) in Hview.
  apply (wp_write _ _ _ [done_result] (set_lsp lsp' (nb w))); [reflexivity| |].
  - pose proof (nb_ok w) as (Hp & Ha & Hr & Hb & N1 & N2 & N3 & Hv).
    assert (dom lsp' = dom (nb_lsp (nb w))) as Hdom.
    { apply set_eq. intros k. unfold lsp', on. rewrite !elem_of_dom, map_lookup_imap.
      by destruct (nb_lsp (nb w) !! k). }
    split_and!; simpl; try done; [by rewrite Hdom| |].
    + rewrite Hview, <-list_fmap_compose. erewrite list_fmap_ext; [exact N1|].
      intros i p _. simpl. by case_bool.
    + eapply (valid_sub (nb w)); [|done]. unfold uuids. simpl. by rewrite Hdom.
  - intros w' Hw. apply (HQ w' (ov_ports (view w'))); unfold view, server_OvnView; rewrite Hw; [exact Hview|done].
Qed.

Lemma wp_list_port p w Q :
  p ∈ ov_ports (view w) → (∀ w', nb w' = nb w → Q (Val p) w') → wp (client_ListSwitchPort (sp_Name p)) w Q.
Proof.
  intros Hp HQ. pose proof Hp as (u & r & Hu & ->)%elem_of_rows. unfold client_ListSwitchPort. wp_bind.
  eapply wp_select; [reflexivity|reflexivity|]. intros w' Hw. wp_bind. eapply wp_lift; [reflexivity|]. simpl.
  assert (matching lsp_name (λ _ n, bool_decide (n = lsp_name r) && true) (nb_lsp (nb w)) = {[u := r]}) as ->.
  { apply map_eq. intros k. apply option_eq. intros x. unfold matching.
    rewrite map_lookup_filter_Some, lookup_singleton_Some. simpl. rewrite andb_true_r, bool_decide_eq_true.
    split; [|by intros [<- <-]]. intros [Hk Hn].
    pose proof (nb_ok w) as (_ & _ & _ & _ & N1 & _).
    assert (viewPort k x = viewPort u r) as Heq.
    { eapply (NoDup_fmap_elem sp_Name); [exact N1|apply elem_of_rows; eauto..|done]. }
    assert (u = k) as -> by (symmetry; exact (f_equal sp_uuid Heq)). split; [done|congruence]. }
  unfold encRows. rewrite map_to_list_singleton. simpl.
  assert (rowOrder [encLsp u r] = [encLsp u r]) as -> by (apply Permutation_singleton_r, rowOrder_perm).
  eapply wp_lift; [apply read_port1, rowOrder_perm|]. auto.
Qed.
End laws.

(** Address sets come back in the server's order, of rows and of addresses. *)
Lemma rows_like `{OvsParams} (m : gmap string AddressSet) l :
  (∀ x, setOrder x ≡ₚ x) →
  l ≡ₚ simRows (λ _ r, mk_AddressSet (as_Name r) (setOrder (as_Addresses r))) m →
  ∃ l', Forall2 set_like l l' ∧ l' ≡ₚ simRows viewSet m.
Proof.
  intros Hs Hl. symmetry in Hl.
  assert (Forall2 set_like (simRows (λ _ r, mk_AddressSet (as_Name r) (setOrder (as_Addresses r))) m)
    (simRows viewSet m)) as Hall.
  { apply Forall2_fmap, Forall_Forall2_diag, Forall_forall. intros [k r] _. split; [done|apply Hs]. }
  destruct (Permutation_Forall2 Hl Hall) as (l' & Hp & Hl'). by exists l'.
Qed.

(** The client on a server: all the laws of the network code. *)
Lemma client_laws {W} `{OvsServer W} : OvnLaws W.
Proof.
  split.
  - intros w. eapply wp_mono; [apply connect_ok|]. intros r w' [-> Hw]. unfold view, server_OvnView. by rewrite Hw.
  - intros w. eapply wp_mono; [apply disconnect_ok|]. intros r w' Hw. unfold view, server_OvnView. by rewrite Hw.
  - intros sw w. eapply (wp_exists _ _ _ ls_name nb_ls); [reflexivity|]. intros w' Hw.
    unfold view, server_OvnView. by rewrite Hw.
  - intros sw w _. apply wp_create_switch. auto.
  - intros w. pose proof (nb_ok w) as (_ & _ & _ & _ & N & _). exact N.
  - intros w. by apply (simRows_keys viewPort sp_uuid).
  - intros w. eapply (wp_list _ _ _ lsp_name nb_lsp); [reflexivity|apply read_port, rowOrder_perm|].
    intros l w' Hl Hw. exists l. unfold view, server_OvnView. by rewrite Hw.
  - intros p w Hp. apply wp_list_port; [done|]. intros w' Hw. unfold view, server_OvnView. by rewrite Hw.
  - intros sw p w Hsw Hn Hlen. apply wp_create_port; [done..|]. eauto.
  - intros sw p w Hsw Hp. apply wp_delete_port; [done..|]. eauto.
  - intros name addrs w Hlen. apply wp_update_addresses; [done|]. eauto.
  - intros rt w. eapply (wp_exists _ _ _ lr_name nb_lr); [reflexivity|]. intros w' Hw.
    unfold view, server_OvnView. by rewrite Hw.
  - intros rt w _. apply wp_create_router. auto.
  - intros w. pose proof (nb_ok w) as (_ & _ & _ & _ & _ & N & _). exact N.
  - intros w. by apply (simRows_keys viewRouterPort rp_uuid).
  - intros w. eapply (wp_list _ _ _ lrp_name nb_lrp); [reflexivity|apply read_rport|].
    intros l w' Hl Hw. exists l. unfold view, server_OvnView. by rewrite Hw.
  - intros rt p w Hrt Hn Hlen. apply wp_create_rport; [done..|]. eauto.
  - intros rt p w Hrt Hp. apply wp_delete_rport; [done..|]. eauto.
  - intros w. by apply (simRows_keys viewACL acl_uuid).
  - intros w. eapply (wp_list _ _ _ noName nb_acl); [reflexivity|apply read_acl|].
    intros l w' Hl Hw. exists l. unfold view, server_OvnView. by rewrite Hw.
  - intros sw cores w Hsw Hall.
    destruct (exec_create_acls sw cores 0 ∅ (nb w) (nb_ok w) Hsw Hall) as (res & d & news & He & Hd & Hn & Hv & Hvw).
    eapply wp_write; [exact He|exact Hd|]. intros w' Hw. split; [done|]. exists news. split; [done|].
    exists (ov_acls (viewOf d)). unfold view, server_OvnView. by rewrite Hw.
  - intros sw dels w Hsw Hsub.
    destruct (exec_delete_acls sw dels ∅ (nb w) (nb_ok w) Hsw) as (res & d & He & Hd & Hv & Hvw).
    { apply Forall_forall. intros a (u & r & Hu & ->)%Hsub%elem_of_rows. apply (uuid_valid w).
      unfold uuids. simpl. apply elem_of_dom_2 in Hu. set_solver. }
    eapply wp_write; [exact He|exact Hd|]. intros w' Hw. split; [done|].
    exists (ov_acls (viewOf d)). unfold view, server_OvnView. by rewrite Hw.
  - intros w. pose proof (nb_ok w) as (_ & _ & _ & _ & _ & _ & N & _). exact N.
  - intros w. eapply (wp_list _ _ _ as_Name nb_as); [reflexivity|apply read_as|].
    intros l w' Hl Hw. destruct (rows_like (nb_as (nb w)) l setOrder_perm Hl) as (l' & Hl' & Hp).
    exists l, l'. unfold view, server_OvnView. by rewrite Hw.
  - intros sets w Hnd Hall.
    destruct (exec_create_sets sets ∅ (nb w) (nb_ok w) Hnd Hall) as (res & d & He & Hd & Hv & Hvw).
    eapply wp_write; [exact He|exact Hd|]. intros w' Hw. split; [done|].
    exists (ov_sets (viewOf d)). unfold view, server_OvnView. by rewrite Hw.
  - intros dels w.
    destruct (exec_delete_sets dels ∅ (nb w) (nb_ok w)) as (res & d & He & Hd & Hv & Hvw).
    eapply wp_write; [exact He|exact Hd|]. intros w' Hw. split; [done|].
    exists (ov_sets (viewOf d)). unfold view, server_OvnView. by rewrite Hw.
  - intros w. by apply (simRows_keys viewLB ol_uuid).
  - intros w. eapply (wp_list _ _ _ lb_name nb_lb); [reflexivity|apply read_lb, rowOrder_perm|].
    intros l w' Hl Hw. exists l. unfold view, server_OvnView. by rewrite Hw.
  - intros sw name vips w Hsw Hv. apply wp_create_lb; [done..|]. eauto.
  - intros sw lb w Hsw Hlb. apply wp_delete_lb; [done..|]. eauto.
Qed.

(** ** Properties *)

(** C5: The client of the OVSDB server implements the interface the network code
    is written against.  On any server that follows RFC 7047 on the OVN schema,
    whatever UUIDs and orders it chooses, every method of the client on the
    northbound database (all but [OpenFlowPorts] and [ListPortsByTag], which
    read the local switch's) returns
    what it should and changes the view of the database as the laws say: rows
    are created with the columns given and kept by a reference from their switch or
    router, a load balancer becomes one its switch refers to, rows are
    listed as they are, found by name and deleted by UUID without
    leaving dangling references or losing other rows. *)
Theorem client_implements_ovn {W} `{OvsServer W} : OvnLaws W.
Proof. apply client_laws. Qed.

(** A port created on a switch that does not exist is lost without an error:
    no row is mutated to refer to it, so the server collects it when the
    transaction commits, and the client reports success. *)
Theorem CreateSwitchPort_missing_switch {W} `{OvsServer W} sw p (w : W) :
  sw ∉ ov_switches (view w) →
  wp (client_CreateSwitchPort sw p) w (λ r w', r = Val () ∧ view w' = view w).
Proof.
  intros Hsw. pose proof (nb_ok w) as Hc.
  pose proof names_no_uuids as Hn. apply Forall_cons in Hn as [_ [Hn _]%Forall_cons].
  set (d1 := set_lsp (<[newUUID (nb w) := mk_lspRow (sp_Name p) (sp_Type p)
    (remove_dups (sp_Addresses p)) (sp_Options p)]> (nb_lsp (nb w))) (nb w)).
  assert (exec ∅ [insertOp "Logical_Switch_Port" (switchPortColumns p) "qlsportadd";
      mutateOp "Logical_Switch" (newMutation "ports" "insert" "qlsportadd")
        (newCondition "name" "==" (VAtom (AString sw)))] (nb w) = Some ([done_result; done_result], d1)) as He.
  { erewrite exec_add_on; [|apply insert_lsp|done|done|reflexivity|done].
    rewrite on_none; [done|]. intros k r Hk. apply andb_false_intro1, bool_decide_eq_false_2.
    intros Heq. apply Hsw. unfold view, server_OvnView. simpl. apply elem_of_namesOf. eauto. }
  assert (commit d1 = nb w) as Hcommit by (apply commit_lost; [done|apply newUUID_fresh]).
  unfold client_CreateSwitchPort, transactCheck. wp_bind.
  eapply wp_mono; [eapply Transact_ok; [exact He|by rewrite Hcommit]|].
  intros r w' [-> Hw]. wp_ret. split; [done|]. unfold view, server_OvnView. by rewrite Hw, Hcommit.
Qed.

(** ** A simulated server *)

(** UUIDs are the strings that start with a [u]; sets and rows come back in
    reverse. *)
#[export] Instance sim_OvsParams : OvsParams := {
  validUUID u := match u with String "u" _ => true | _ => false end;
  newUUID d := "u" +:+ fresh (set_map (λ s, match s with String _ t => t | EmptyString => "" end) (uuids d) : gset string);
  rowOrder _ l := reverse l;
  setOrder l := reverse l;
  bareSingle := true;
}.

Record simServer := mk_simServer { ss_db : nbdb; ss_ok : bool_decide (constraints ss_db) = true }.
#[export] Instance sim_NbView : NbView simServer := ss_db.

(** A transaction whose result would violate the constraints is refused. *)
Definition sim_commit (res : list OperationResult) (d : nbdb) (s : simServer)
    : result (list OperationResult) * simServer :=
  match decide (bool_decide (constraints (commit d)) = true) with
  | left H => (Val res, mk_simServer (commit d) H)
  | right _ => (Val (res ++ [mk_OperationResult "constraint violation" "" []]), s)
  end.

#[export] Instance sim_OvsTransact : OvsTransact simServer := {
  Transact db ops s :=
    if bool_decide (db = OVN_Northbound) then
      match exec ∅ ops (ss_db s) with
      | Some (res, d) => Ok (sim_commit res d s)
      | None => Ok (Err "syntax error", s)
      end
    else Ok (Err "invalid Database Schema", s);
  ovsConnect := mret (Val ());
  ovsDisconnect := mret ();
}.

#[export] Instance sim_OvsServer : OvsServer simServer.
Proof.
  split.
  - intros d Hd. unfold newUUID, sim_OvsParams in Hd.
    set (X := set_map _ (uuids d) : gset string) in Hd. apply (is_fresh X). unfold X.
    apply elem_of_map. eexists. split; [|exact Hd]. done.
  - done.
  - intros A l. apply reverse_Permutation.
  - intros l. apply reverse_Permutation.
  - by repeat constructor.
  - done.
  - intros [d Hd]. exact (bool_decide_eq_true_1 _ Hd).
  - done.
  - done.
  - intros ops s res d He Hc. unfold wp. simpl. unfold nb, sim_NbView in He. rewrite He. unfold sim_commit.
    destruct (decide _) as [H|H]; [done|]. destruct H. by apply bool_decide_eq_true_2.
Qed.

(** A switch with one port. *)
Definition demo_nb : nbdb :=
  mk_nbdb {["u1" := mk_lsRow "kelda" {["u2"]} ∅ ∅]} {["u2" := mk_lspRow "10.0.0.3" "" ["aa 10.0.0.3"] ∅]}
    ∅ ∅ ∅ ∅ ∅.
Definition demo_server : simServer := mk_simServer demo_nb eq_refl.

Lemma client_implements_ovn_witness :
  OvnLaws simServer ∧
  wp (client_ListSwitchPorts) demo_server (λ r _, r = Val [mk_SwitchPort "u2" "10.0.0.3" "" ["aa 10.0.0.3"] ∅]) ∧
  wp (client_CreateLoadBalancer "kelda" "web" {["10.0.1.1" := "10.0.0.3"]}) demo_server (λ r w', r = Val () ∧
    ∃ u, ov_lbs (view w') = [mk_ovnLoadBalancer u "web" {["10.0.1.1" := "10.0.0.3"]}] ∧
         ov_lbrefs (view w') = {[("kelda", u)]}).
Proof.
  pose proof (client_implements_ovn (W:=simServer)) as Hlaws. split_and!; [exact Hlaws|vm_compute; reflexivity|].
  eapply wp_mono; [exact (CreateLoadBalancer_ok "kelda" "web" {["10.0.1.1" := "10.0.0.3"]} demo_server eq_refl
    ltac:(vm_decide))|].
  intros r w' (-> & u & l & Hl & ->). split; [done|]. exists u. split; [by apply Permutation_singleton_r in Hl|].
  apply (union_empty_r_L (C:=gset (string * string))).
Defined.

Lemma CreateSwitchPort_missing_switch_witness :
  wp (client_CreateSwitchPort "other" (mk_SwitchPort "" "p" "" [] ∅)) demo_server
    (λ r w', r = Val () ∧ sp_Name <$> ov_ports (view w') = ["10.0.0.3"]).
Proof.
  eapply wp_mono; [apply (CreateSwitchPort_missing_switch "other" (mk_SwitchPort "" "p" "" [] ∅) demo_server)|].
  - vm_decide.
  - intros r w' [-> ->]. split; [done|]. vm_compute. reflexivity.
Defined.
