(* ===== verification/Acl.v ===== *)
(** * Package network, part 4: OVN access control

    Models [src/minion/network/acl.go]: the leader turns the allowed
    connections into OVN address sets and ACLs.  SHA-256 is a parameter; OVN is
    behind the interface of [Ovn.v]. *)

From S2P Require Import Prelude GoStrings Join Blueprint DbRows GoNet Ip Ovn.

Definition lSwitch : string := "kelda".

(** [connection]: address set names or addresses, and ports. *)
Record connection := mk_connection {
  co_from : string;
  co_to : string;
  co_minPort : Z;
  co_maxPort : Z;
}.

(** ** Match expressions *)

Definition portConstraint (minPort maxPort : Z) (direction : string) : string :=
  "(" +:+ fmtInt minPort +:+ " <= udp." +:+ direction +:+ " <= " +:+ fmtInt maxPort +:+ " || " +:+
  fmtInt minPort +:+ " <= tcp." +:+ direction +:+ " <= " +:+ fmtInt maxPort +:+ ")".

Definition from (ip : string) : string := "ip4.src == " +:+ ip.
Definition to (ip : string) : string := "ip4.dst == " +:+ ip.
Definition or (predicates : list string) : string := "(" +:+ Join_strings " || " predicates +:+ ")".
Definition and (predicates : list string) : string := "(" +:+ Join_strings " && " predicates +:+ ")".

Definition getMatchString (conn : connection) : string :=
  or [and [from (co_from conn); to (co_to conn);
           portConstraint (co_minPort conn) (co_maxPort conn) "dst"];
      and [from (co_to conn); to (co_from conn);
           portConstraint (co_minPort conn) (co_maxPort conn) "src"]].

Definition icmpMatch (conn : connection) : string :=
  and [from (co_from conn); to (co_to conn); "icmp"].

(** ** Resolving connections *)

(** The loop of [uniqueStrings] with the strings seen so far. *)
Fixpoint uniqueLoop (strSet : gset string) (strs : list string) : list string :=
  match strs with
  | [] => []
  | x :: strs' => if bool_decide (x ∈ strSet) then uniqueLoop strSet strs'
                  else x :: uniqueLoop ({[x]} ∪ strSet) strs'
  end.
Definition uniqueStrings (strs : list string) : list string := uniqueLoop ∅ strs.

Definition resolveHostnames (hostnames : list string) (hostnameToIP : gmap string string) : list string :=
  omap (λ m, hostnameToIP !! m) hostnames.

Section acl.
Context (sha256x : string → string).

Notation addressSets := (gmap string (list string)).

(** The name of the address set of sorted [members]. *)
Definition setName (members : list string) : string := "sha" +:+ sha256x (Join_strings "" members).

Definition endpointName (members : list string) (sets : addressSets) : string * addressSets :=
  match members with
  | [m] => (m, sets)
  | _ =>
    let members := Strings_sort members in
    let name := setName members in
    ("$" +:+ name, match sets !! name with Some _ => sets | None => <[name := members]> sets end)
  end.

(** The addresses one side of a connection stands for. *)
Definition resolveSide (hostnameToIP : gmap string string) (side : list string) : list string :=
  resolveHostnames (uniqueStrings (SliceFilterOut side PublicInternetLabel)) hostnameToIP.

Definition resolveConnection (hostnameToIP : gmap string string)
    (acc : list connection * addressSets) (dbConn : Connection) : list connection * addressSets :=
  let '(conns, sets) := acc in
  let froms := resolveSide hostnameToIP (cn_From dbConn) in
  let tos := resolveSide hostnameToIP (cn_To dbConn) in
  if bool_decide (froms = []) || bool_decide (tos = []) then (conns, sets)
  else
    let '(f, sets) := endpointName froms sets in
    let '(t, sets) := endpointName tos sets in
    (conns ++ [mk_connection f t (cn_MinPort dbConn) (cn_MaxPort dbConn)], sets).

Definition resolveConnections `{MapOrder} (n : nat) (dbConns : list Connection)
    (hostnameToIP : gmap string string) : list connection * list AddressSet :=
  let '(conns, sets) := foldl (resolveConnection hostnameToIP) ([], ∅) dbConns in
  (conns, (λ '(name, addresses), mk_AddressSet name addresses) <$> range n sets).

(** ** Bringing OVN in line *)

Definition directedACLs (acl : ACLCore) : list ovnACL :=
  (λ dir, mk_ovnACL "" (mk_ACLCore (Priority acl) dir (Match acl) (Action acl)) false) <$>
  ["from-lport"; "to-lport"].

(** The loop over the connections, with the ICMP matches seen so far. *)
Fixpoint connectionACLs (icmpMatches : gset string) (connections : list connection) : list ovnACL :=
  match connections with
  | [] => []
  | conn :: rest =>
    directedACLs (mk_ACLCore 1 "" (getMatchString conn) "allow") ++
    if bool_decide (icmpMatch conn ∈ icmpMatches) then connectionACLs icmpMatches rest
    else directedACLs (mk_ACLCore 1 "" (icmpMatch conn) "allow-related") ++
         connectionACLs ({[icmpMatch conn]} ∪ icmpMatches) rest
  end.

Definition expectedACLs (connections : list connection) : list ovnACL :=
  directedACLs (mk_ACLCore 0 "" "ip" "drop") ++ connectionACLs ∅ connections.

Context `{MapOrder} {W : Type} `{OvsdbClient W}.

(** An action that is skipped on no elements; its error is only logged. *)
Definition unlessEmpty {A} (act : list A → M W (result unit)) (l : list A) : M W unit :=
  if bool_decide (0 < length l) then let! _ := act l in mret () else mret ().

Definition syncACLs (n : nat) (connections : list connection) : M W unit :=
  let! r := ListACLs in
  match r with
  | Err _ => mret ()
  | Val ovsdbACLs =>
    let '(_, toCreate, toDelete) :=
      HashJoin n (expectedACLs connections) ovsdbACLs acl_Core acl_Core in
    unlessEmpty (DeleteACLs lSwitch) toDelete ;;;
    unlessEmpty (CreateACLs lSwitch) (acl_Core <$> toCreate)
  end.

(** Computing a key sorts the addresses of the set in place. *)
Definition sortAddresses (x : AddressSet) : AddressSet :=
  mk_AddressSet (as_Name x) (Strings_sort (as_Addresses x)).
Definition addressSetKey (x : AddressSet) : string :=
  Join_strings "" (as_Addresses x ++ [as_Name x]).

Definition syncAddressSets (n : nat) (expSets : list AddressSet) : M W unit :=
  let! r := ListAddressSets in
  match r with
  | Err _ => mret ()
  | Val sets =>
    let '(_, toCreate, toDelete) :=
      HashJoin n (sortAddresses <$> expSets) (sortAddresses <$> sets) addressSetKey addressSetKey in
    unlessEmpty DeleteAddressSets toDelete ;;;
    unlessEmpty CreateAddressSets toCreate
  end.

Definition updateACLs (n : nat) (dbConns : list Connection) (hostnameToIP : gmap string string) : M W unit :=
  let '(connections, sets) := resolveConnections n dbConns hostnameToIP in
  syncAddressSets n sets ;;;
  syncACLs n connections.
End acl.

Example getMatchString_example :
  getMatchString (mk_connection "10.0.0.2" "$sha0" 80 81) =
  "((ip4.src == 10.0.0.2 && ip4.dst == $sha0 && (80 <= udp.dst <= 81 || 80 <= tcp.dst <= 81)) || (ip4.src == $sha0 && ip4.dst == 10.0.0.2 && (80 <= udp.src <= 81 || 80 <= tcp.src <= 81)))".
Proof. vm_compute. done. Qed.

(** ** Strings *)

Lemma Join_nosep x l : Join_strings "" (x :: l) = x +:+ Join_strings "" l.
Proof. destruct l; [by rewrite app_nil_s|done]. Qed.

Lemma Join_nosep_snoc l x : Join_strings "" (l ++ [x]) = Join_strings "" l +:+ x.
Proof.
  induction l as [|y l IH]; [done|]. rewrite <-app_comm_cons, !Join_nosep, IH. by rewrite app_assoc_s.
Qed.

(** ** Concatenated container addresses can be told apart *)

(** [keldaIP]: the addresses that [updateIPs] hands out lie in 10.0.0.0/8. *)

Lemma lacks_fmtInt b : (0 ≤ b < 256)%Z → lacks "." (fmtInt b).
Proof.
  assert (Forall (λ n, lacks "." (fmtInt (Z.of_nat n))) (seq 0 256)) as Hall.
  { repeat (apply Forall_cons; split; [vm_compute; repeat split; discriminate|]). by apply Forall_nil. }
  rewrite Forall_forall in Hall. intros Hb. rewrite <-(Z2Nat.id b) by lia.
  apply Hall, elem_of_seq. lia.
Qed.

Lemma keldaIP_shape ip : keldaIP ip → ∃ x y z, lacks "." x ∧ lacks "." y ∧ lacks "." z ∧
  ip = "10" +:+ String "." (x +:+ String "." (y +:+ String "." z)).
Proof.
  intros (h & Hh & ->). set (a := (h + IPv4 10 0 0 0)%Z).
  assert (10 * 2 ^ 24 ≤ a < 11 * 2 ^ 24)%Z as Ha by (unfold a, IPv4; lia). exists (fmtInt (byteOf 2 a)), (fmtInt (byteOf 1 a)), (fmtInt (byteOf 0 a)).
  split_and!; [apply lacks_fmtInt, byteOf_range; lia..|]. unfold IPString.
  replace (byteOf 3 a) with 10%Z; [done|]. unfold byteOf. change (8 * 3)%Z with 24%Z.
  rewrite Z.mod_small; [|split; [apply Z.div_pos; lia|apply Z.div_lt_upper_bound; lia]].
  apply (Z.div_unique a (2 ^ 24) 10 (a - 10 * 2 ^ 24)); lia.
Qed.

Lemma lacks_ten : lacks "." "10".
Proof. repeat split; discriminate. Qed.

(** What follows the last byte of an address. *)
Lemma tail_shape l : Forall keldaIP l → l = [] ∨ ∃ s, Join_strings "" l = "10" +:+ String "." s.
Proof.
  intros Hl. destruct Hl as [|ip l Hip _]; [by left|right].
  destruct (keldaIP_shape ip Hip) as (x & y & z & _ & _ & _ & ->).
  rewrite Join_nosep, app_assoc_s. eexists. reflexivity.
Qed.

(** Where an address ends. *)
Lemma last_byte_eq z z' l k :
  Forall keldaIP l → Forall keldaIP k → lacks "." z → lacks "." z' →
  z +:+ Join_strings "" l = z' +:+ Join_strings "" k → z = z' ∧ Join_strings "" l = Join_strings "" k.
Proof.
  intros Hl Hk Hz Hz' Heq.
  destruct (tail_shape l Hl) as [->|[s Hs]], (tail_shape k Hk) as [->|[t Ht]]; simpl in *.
  - by rewrite !app_nil_s in Heq.
  - rewrite app_nil_s, Ht in Heq. rewrite Heq, !lacks_app in Hz. by destruct Hz as (_ & _ & [] & _).
  - rewrite app_nil_s, Hs in Heq. rewrite <-Heq, !lacks_app in Hz'. by destruct Hz' as (_ & _ & [] & _).
  - rewrite Hs, Ht, <-!app_assoc_s in Heq. pose proof lacks_ten.
    apply cut_eq in Heq as [Heq ->]; [|by apply lacks_app..].
    apply app_inj_r in Heq as [-> _]; [|done]. by rewrite Hs, Ht.
Qed.

Lemma concat_keldaIP_inj l k :
  Forall keldaIP l → Forall keldaIP k → Join_strings "" l = Join_strings "" k → l = k.
Proof.
  intros Hl. revert k. induction Hl as [|ip l Hip Hl IH]; intros k Hk Heq.
  - destruct (tail_shape k Hk) as [->|[s Hs]]; [done|]. by rewrite Hs in Heq.
  - destruct Hk as [|ip' k Hip' Hk].
    { destruct (tail_shape (ip :: l)) as [|[s Hs]]; [by constructor|done|]. by rewrite Hs in Heq. }
    destruct (keldaIP_shape ip Hip) as (x & y & z & Hx & Hy & Hz & ->).
    destruct (keldaIP_shape ip' Hip') as (x' & y' & z' & Hx' & Hy' & Hz' & ->).
    rewrite !Join_nosep in Heq.
    assert (∀ a b r, (a +:+ String "." b) +:+ r = a +:+ String "." (b +:+ r)) as Has by (intros; apply app_assoc_s).
    rewrite !Has in Heq.
    apply (cut_eq "." "10" "10") in Heq as [_ Heq]; [|apply lacks_ten..].
    apply cut_eq in Heq as [-> Heq]; [|done..]. apply cut_eq in Heq as [-> Heq]; [|done..].
    apply last_byte_eq in Heq as [-> Heq]; [|done..]. by rewrite (IH k Hk Heq).
Qed.

(** ** Bringing a table in line *)

(** Deleting by a key that no two rows share. *)
Lemma filter_key {A K} `{EqDecision K} (f : A → K) (l p d : list A) :
  NoDup (f <$> l) → l ≡ₚ p ++ d → filter (λ a, f a ∉ f <$> d) l ≡ₚ p.
Proof.
  intros Hnd Hl. rewrite Hl, filter_app. rewrite Hl, fmap_app in Hnd.
  apply NoDup_app in Hnd as (_ & Hpd & _).
  rewrite (filter_all _ p), (filter_none _ d), app_nil_r; [done|..].
  - intros x Hx Hn. destruct Hn. by apply list_elem_of_fmap_2.
  - intros x Hx. apply Hpd. by apply list_elem_of_fmap_2.
Qed.

Lemma fmap_id_on {A} (g : A → A) (l : list A) : (∀ x, x ∈ l → g x = x) → g <$> l = l.
Proof.
  induction l as [|x l IH]; intros Hg; [done|]. csimpl.
  rewrite Hg, IH; [done|intros; apply Hg; by right|by left].
Qed.

Section sync.
Context `{MapOrder} {W : Type} `{OvnLaws W}.
Implicit Types w : W.

Lemma wp_unlessEmpty {A} (act : list A → M W (result unit)) l w Q :
  (l = [] → Q () w) → wp (act l) w (λ _ w', Q () w') → wp (unlessEmpty act l) w Q.
Proof.
  intros Hnil Hact. unfold unlessEmpty. destruct l as [|x l]; simpl; [wp_ret; auto|].
  wp_bind. eapply wp_mono; [exact Hact|]. intros r w' HQ. by wp_ret.
Qed.

Lemma directed_core acl a :
  a ∈ directedACLs acl →
  ∃ dir, (dir = "from-lport" ∨ dir = "to-lport") ∧ acl_Core a = mk_ACLCore (Priority acl) dir (Match acl) (Action acl).
Proof. unfold directedACLs. rewrite list_elem_of_fmap. set_solver. Qed.

Lemma elem_of_directedACLs c acl :
  c ∈ acl_Core <$> directedACLs acl ↔
  ∃ dir, (dir = "from-lport" ∨ dir = "to-lport") ∧ c = mk_ACLCore (Priority acl) dir (Match acl) (Action acl).
Proof.
  unfold directedACLs. csimpl. rewrite !elem_of_cons, elem_of_nil. naive_solver.
Qed.

Lemma elem_of_connectionACLs c seen conns :
  c ∈ acl_Core <$> connectionACLs seen conns ↔ ∃ dir, (dir = "from-lport" ∨ dir = "to-lport") ∧
    ∃ conn, conn ∈ conns ∧ (c = mk_ACLCore 1 dir (getMatchString conn) "allow" ∨
      (icmpMatch conn ∉ seen ∧ c = mk_ACLCore 1 dir (icmpMatch conn) "allow-related")).
Proof.
  revert seen. induction conns as [|x conns IH]; intros seen; cbn [connectionACLs].
  { split; [by intros ?%elem_of_nil|]. by intros (? & _ & ? & ?%elem_of_nil & _). }
  rewrite fmap_app, elem_of_app, elem_of_directedACLs. setoid_rewrite elem_of_cons.
  cbn [Priority Match Action]. case_bool as [Hin|Hnin].
  - cbv iota. rewrite IH. clear IH. split.
    + intros [(dir & Hd & ->)|(dir & Hd & conn & Hc & Heq)]; exists dir; (split; [done|]); [exists x|exists conn]; tauto.
    + intros (dir & Hd & conn & [->|Hc] & [->|[Hs ->]]);
        [left; by exists dir|done|right; exists dir; split; [done|]; exists conn; tauto..].
  - cbv iota. rewrite fmap_app, elem_of_app, elem_of_directedACLs, IH. clear IH. cbn [Priority Match Action]. split.
    + intros [(dir & Hd & ->)|[(dir & Hd & ->)|(dir & Hd & conn & Hc & Heq)]]; exists dir;
        (split; [done|]); [exists x; tauto..|exists conn].
      rewrite not_elem_of_union in Heq. tauto.
    + intros (dir & Hd & conn & [->|Hc] & [->|[Hs ->]]);
        [left; by exists dir|right; left; by exists dir|right; right; exists dir; split; [done|]; exists conn; tauto|].
      destruct (decide (icmpMatch conn = icmpMatch x)) as [Heq|Hne].
      * right; left. exists dir. by rewrite Heq.
      * right; right. exists dir. split; [done|]. exists conn. split; [done|]. right. split; [|done].
        by rewrite not_elem_of_union, not_elem_of_singleton.
Qed.

(** The rules that [connections] call for. *)
Definition aclFor (conns : list connection) (c : ACLCore) : Prop :=
  ∃ dir, (dir = "from-lport" ∨ dir = "to-lport") ∧
    (c = mk_ACLCore 0 dir "ip" "drop" ∨
     ∃ conn, conn ∈ conns ∧ (c = mk_ACLCore 1 dir (getMatchString conn) "allow" ∨
                             c = mk_ACLCore 1 dir (icmpMatch conn) "allow-related")).

Lemma elem_of_expectedACLs conns c : c ∈ acl_Core <$> expectedACLs conns ↔ aclFor conns c.
Proof.
  unfold expectedACLs, aclFor. rewrite fmap_app, elem_of_app, elem_of_directedACLs, elem_of_connectionACLs.
  cbn [Priority Match Action]. split.
  - intros [(dir & Hd & ->)|(dir & Hd & conn & Hc & Heq)]; exists dir; (split; [done|]); [by left|right].
    exists conn. tauto.
  - intros (dir & Hd & [->|(conn & Hc & Heq)]); [left; by exists dir|right].
    exists dir. split; [done|]. exists conn. split; [done|].
    destruct Heq as [Heq|Heq]; [by left|right]. split; [apply not_elem_of_empty|done].
Qed.

Lemma aclFor_valid conns c : aclFor conns c → (0 ≤ Priority c)%Z ∧ Direction c ≠ "*" ∧ Match c ≠ "*".
Proof. intros (dir & [-> | ->] & [->|(conn & _ & [-> | ->])]); simpl; split_and!; done || lia. Qed.

Lemma view_acls w : view w = with_acls (ov_acls (view w)) (view w).
Proof. by destruct (view w). Qed.
Lemma view_sets w : view w = with_sets (ov_sets (view w)) (view w).
Proof. by destruct (view w). Qed.

Lemma wp_syncACLs n conns w Q :
  ov_switches (view w) = {[lSwitch]} →
  (∀ w' l, view w' = with_acls l (view w) → NoDup (acl_Core <$> l) →
     (∀ c, c ∈ acl_Core <$> l ↔ aclFor conns c) →
     (∀ a, a ∈ ov_acls (view w) → aclFor conns (acl_Core a) →
       (∀ a', a' ∈ ov_acls (view w) → acl_Core a' = acl_Core a → a' = a) → a ∈ l) → Q () w') →
  wp (syncACLs n conns) w Q.
Proof.
  intros Hsw HQ. unfold syncACLs. wp_bind. wp_use ListACLs_ok. intros r w1 (l & -> & Hl & Hv1).
  destruct (HashJoin _ _ _ _ _) as [[pairs ll] lr] eqn:Hj. apply HashJoin_ok in Hj.
  pose proof (hj_rights _ _ _ _ _ _ _ Hj) as Hr. rewrite Hl in Hr. symmetry in Hr.
  pose proof (hj_left_nodup _ _ _ _ _ _ _ Hj) as Hnd.
  assert (acl_Core <$> pairs.*2 = acl_Core <$> pairs.*1) as Hpairs.
  { rewrite <-!list_fmap_compose. apply list_fmap_ext. intros i [a b] Hab%list_elem_of_lookup_2.
    symmetry. by apply (hj_pair _ _ _ _ _ _ _ Hj). }
  assert (wp (unlessEmpty (DeleteACLs lSwitch) lr) w1 (λ _ w2, ∃ l2, l2 ≡ₚ pairs.*2 ∧
    view w2 = with_acls l2 (view w))) as Hdel.
  { apply wp_unlessEmpty.
    - intros ->. exists (ov_acls (view w)). rewrite app_nil_r in Hr. split; [done|]. rewrite Hv1. apply view_acls.
    - rewrite <-Hv1 in Hsw. wp_use DeleteACLs_ok; [done|intros a Ha; rewrite Hv1, Hr; set_solver|]. intros _ w2 (_ & l2 & Hl2 & Hv2).
      rewrite Hv1 in Hl2, Hv2. exists l2. split; [|done]. rewrite Hl2. apply filter_key; [apply acls_uuids|done]. }
  wp_bind. eapply wp_mono; [exact Hdel|]. intros [] w2 (l2 & Hl2 & Hv2).
  assert (∀ w' l', view w' = with_acls l' (view w) → acl_Core <$> l' ≡ₚ acl_Core <$> pairs.*1 ++ ll →
    pairs.*2 ⊆ l' → Q () w') as Hfin.
  { intros w' l' Hv' Hl' Hsub. apply (HQ w' l'); [done|by rewrite Hl'|..].
    - intros c. rewrite Hl', <-elem_of_expectedACLs. split.
      + intros (a & -> & Ha)%list_elem_of_fmap. apply list_elem_of_fmap_2.
        eapply elem_of_submseteq; [exact Ha|apply Hj].
      + intros (a & -> & Ha)%list_elem_of_fmap.
        destruct (hj_left_keys _ _ _ _ _ _ _ Hj a Ha) as (a' & Ha' & <-). by apply list_elem_of_fmap_2.
    - intros a Ha Hfor Hu. apply Hsub. rewrite Hr in Ha. apply elem_of_app in Ha as [Ha|Ha]; [done|].
      apply elem_of_expectedACLs in Hfor.
      destruct (hj_lonely_right _ _ _ _ _ _ _ Hj a Ha Hfor) as (e & b & Hb & Hk).
      apply (list_elem_of_fmap_2 snd) in Hb. simpl in Hb.
      rewrite <-(Hu b); [done| |done]. rewrite Hr. by apply elem_of_app; left. }
  assert (acl_Core <$> l2 ≡ₚ acl_Core <$> pairs.*1) as Hk2 by (by rewrite Hl2, Hpairs).
  apply wp_unlessEmpty.
  - intros Hnil%fmap_nil_inv. apply (Hfin w2 l2); [done|by rewrite Hnil, app_nil_r|].
    intros a. by rewrite Hl2.
  - wp_use CreateACLs_ok.
    + by rewrite Hv2.
    + apply Forall_forall. intros c (a & -> & Ha)%list_elem_of_fmap. apply (aclFor_valid conns).
      apply elem_of_expectedACLs, list_elem_of_fmap_2. eapply elem_of_submseteq; [|apply Hj]. set_solver.
    + intros r w3 (_ & news & Hnews & l3 & Hl3 & Hv3). apply (Hfin w3 l3).
      * rewrite Hv3, Hv2. done.
      * rewrite Hl3, Hv2, !fmap_app, Hnews. simpl. rewrite Hk2. apply Permutation_app_comm.
      * intros a Ha. rewrite Hl3, Hv2. simpl. rewrite elem_of_app, Hl2. by right.
Qed.

Lemma sortAddresses_like x y : set_like x y → sortAddresses x = sortAddresses y.
Proof. intros [Hn Ha]. unfold sortAddresses. by rewrite Hn, (Strings_sort_unique _ _ Ha). Qed.

Lemma sortAddresses_idem x : sortAddresses (sortAddresses x) = sortAddresses x.
Proof. apply sortAddresses_like. split; [done|]. apply Strings_sort_perm. Qed.

Lemma names_sorted (l : list AddressSet) : as_Name <$> (sortAddresses <$> l) = as_Name <$> l.
Proof. by rewrite <-list_fmap_compose. Qed.

Lemma Strings_sort_ne l : l ≠ [] → Strings_sort l ≠ [].
Proof. intros Hl Hs. apply Hl, Permutation_nil_r. by rewrite <-(Strings_sort_perm l), Hs. Qed.

(** With keys that tell sets apart, OVN then holds the expected sets. *)
Lemma wp_syncAddressSets n exp w Q :
  NoDup (as_Name <$> exp) → Forall (λ x, NoDup (as_Addresses x) ∧ as_Addresses x ≠ []) exp →
  (∀ x y, x ∈ sortAddresses <$> exp → y ∈ sortAddresses <$> (exp ++ ov_sets (view w)) →
    addressSetKey x = addressSetKey y → x = y) →
  (∀ w' l, view w' = with_sets l (view w) → sortAddresses <$> l ≡ₚ sortAddresses <$> exp → Q () w') →
  wp (syncAddressSets n exp) w Q.
Proof.
  intros Hnames Haddr Hkey HQ. unfold syncAddressSets. wp_bind. wp_use ListAddressSets_ok.
  intros r w1 (l & l' & -> & Hl & Hl' & Hv1).
  assert (sortAddresses <$> l ≡ₚ sortAddresses <$> ov_sets (view w)) as Hcur.
  { rewrite <-Hl'. clear -Hl. induction Hl as [|x y l k Hxy _ IH]; [done|]. csimpl.
    by rewrite (sortAddresses_like _ _ Hxy), IH. }
  set (cur := sortAddresses <$> ov_sets (view w)) in *. set (tgt := sortAddresses <$> exp) in *.
  assert (∀ x, x ∈ tgt → x ∈ sortAddresses <$> (exp ++ ov_sets (view w))) as HinL by set_solver.
  assert (∀ x, x ∈ cur → x ∈ sortAddresses <$> (exp ++ ov_sets (view w))) as HinR by set_solver.
  destruct (HashJoin _ _ _ _ _) as [[pairs ll] lr] eqn:Hj. apply HashJoin_ok in Hj.
  pose proof (hj_rights _ _ _ _ _ _ _ Hj) as Hr. rewrite Hcur in Hr. symmetry in Hr.
  assert (NoDup (addressSetKey <$> tgt)) as Hndk.
  { apply NoDup_fmap_inj_on; [|intros x y Hx Hy; apply Hkey; auto].
    apply (NoDup_fmap_1 as_Name). unfold tgt. by rewrite names_sorted. }
  pose proof (hash_joined_lefts _ _ _ _ _ _ _ Hj Hndk) as Hlefts.
  assert (pairs.*2 = pairs.*1) as Hpairs.
  { apply list_fmap_ext. intros i [a b] Hab%list_elem_of_lookup_2. simpl. symmetry.
    pose proof (hj_pair _ _ _ _ _ _ _ Hj a b Hab). apply Hkey; [| |done].
    - rewrite <-Hlefts. apply elem_of_app. left. by apply (list_elem_of_fmap_2 fst) in Hab.
    - apply HinR. rewrite Hr. apply elem_of_app. left. by apply (list_elem_of_fmap_2 snd) in Hab. }
  assert (NoDup (as_Name <$> cur)) as Hndc by (unfold cur; rewrite names_sorted; apply sets_names).
  assert (wp (unlessEmpty DeleteAddressSets lr) w1 (λ _ w2, ∃ l2, sortAddresses <$> l2 ≡ₚ pairs.*1 ∧
    view w2 = with_sets l2 (view w))) as Hdel.
  { apply wp_unlessEmpty.
    - intros ->. exists (ov_sets (view w)). rewrite app_nil_r, Hpairs in Hr. split; [done|].
      rewrite Hv1. apply view_sets.
    - wp_use DeleteAddressSets_ok. intros _ w2 (_ & l2 & Hl2 & Hv2).
      rewrite Hv1 in Hl2, Hv2. exists l2. split; [|done]. rewrite Hl2, <-Hpairs.
      rewrite <-(filter_key as_Name cur _ lr Hndc Hr). unfold cur. by rewrite filter_fmap. }
  wp_bind. eapply wp_mono; [exact Hdel|]. intros [] w2 (l2 & Hl2 & Hv2).
  assert (sortAddresses <$> ll = ll) as Hll.
  { apply fmap_id_on. intros x Hx. assert (x ∈ tgt) as Hxt by (rewrite <-Hlefts; set_solver).
    apply list_elem_of_fmap in Hxt as (y & -> & _). apply sortAddresses_idem. }
  apply wp_unlessEmpty.
  - intros Hnil. apply (HQ w2 l2); [done|]. rewrite Hl2. fold tgt. rewrite <-Hlefts, Hnil. by rewrite app_nil_r.
  - wp_use CreateAddressSets_ok.
    + rewrite Hv2. simpl. rewrite fmap_app, <-(names_sorted l2), Hl2, <-fmap_app.
      rewrite (Permutation_app_comm ll), Hlefts. unfold tgt. by rewrite names_sorted.
    + apply Forall_forall. intros x Hx. assert (x ∈ tgt) as Hxt by (rewrite <-Hlefts; set_solver).
      apply list_elem_of_fmap in Hxt as (y & -> & Hy). simpl.
      rewrite Forall_forall in Haddr. destruct (Haddr y Hy).
      split; [by rewrite Strings_sort_perm|by apply Strings_sort_ne].
    + intros r w3 (_ & l3 & Hl3 & Hv3). apply (HQ w3 l3); [by rewrite Hv3, Hv2|].
      rewrite Hl3, fmap_app, Hll, Hv2. simpl. rewrite Hl2. fold tgt. rewrite <-Hlefts.
      apply Permutation_app_comm.
Qed.
End sync.

(** ** The sides of a connection *)

Lemma elem_of_uniqueLoop seen l x : x ∈ uniqueLoop seen l ↔ x ∈ l ∧ x ∉ seen.
Proof.
  revert seen. induction l as [|y l IH]; intros seen; simpl; [by rewrite elem_of_nil; tauto|].
  case_bool as [Hy|Hy]; cbv iota; rewrite ?elem_of_cons, IH.
  - split; [tauto|]. intros [[->|?] ?]; tauto.
  - rewrite not_elem_of_union, not_elem_of_singleton. destruct (decide (x = y)) as [->|]; tauto.
Qed.

Lemma NoDup_uniqueLoop seen l : NoDup (uniqueLoop seen l).
Proof.
  revert seen. induction l as [|y l IH]; intros seen; simpl; [constructor|].
  case_bool; cbv iota; [apply IH|]. constructor; [|apply IH]. rewrite elem_of_uniqueLoop. set_solver.
Qed.

(** The addresses of the known hosts of a side. *)
Definition sideIP (hosts : gmap string string) (side : list string) (ip : string) : Prop :=
  ∃ h, h ∈ side ∧ h ≠ PublicInternetLabel ∧ hosts !! h = Some ip.

Lemma elem_of_resolveSide hosts side ip : ip ∈ resolveSide hosts side ↔ sideIP hosts side ip.
Proof.
  unfold resolveSide, resolveHostnames, uniqueStrings, sideIP. rewrite list_elem_of_omap.
  setoid_rewrite elem_of_uniqueLoop. setoid_rewrite elem_of_SliceFilterOut.
  split; intros (h & Hh & Hip); exists h; split_and!; try tauto. by intros ?%elem_of_empty.
Qed.

Section hosts.
Context (hosts : gmap string string).
(** No two hosts share an address, and all addresses are Kelda's. *)
Definition hostsOK : Prop :=
  map_Forall (λ _ ip, keldaIP ip) hosts ∧
  ∀ h h' ip, hosts !! h = Some ip → hosts !! h' = Some ip → h = h'.
Context (Hok : hostsOK).

Lemma NoDup_resolveSide side : NoDup (resolveSide hosts side).
Proof.
  unfold resolveSide, resolveHostnames. generalize (NoDup_uniqueLoop ∅ (SliceFilterOut side PublicInternetLabel)).
  fold (uniqueStrings (SliceFilterOut side PublicInternetLabel)).
  induction 1 as [|h l Hh _ IH]; [constructor|]. simpl. destruct (hosts !! h) as [ip|] eqn:Hip; [|done].
  constructor; [|done]. intros (h' & Hh' & Hip')%list_elem_of_omap.
  destruct Hok as [_ Hinj]. by rewrite (Hinj h h' ip Hip Hip') in Hh.
Qed.

Lemma resolveSide_kelda side : Forall keldaIP (resolveSide hosts side).
Proof.
  apply Forall_forall. intros ip (h & _ & _ & Hip)%elem_of_resolveSide.
  destruct Hok as [Hk _]. exact (Hk h ip Hip).
Qed.
End hosts.

(** ** What [resolveConnections] computes *)

Section resolve.
Context (sha256x : string → string).

Definition endpoint (members : list string) : string :=
  match members with [m] => m | _ => "$" +:+ setName sha256x (Strings_sort members) end.
Definition sideSets (members : list string) : list (list string) :=
  match members with [_] => [] | _ => [Strings_sort members] end.

Definition dropped (hosts : gmap string string) (dbc : Connection) : bool :=
  bool_decide (resolveSide hosts (cn_From dbc) = []) || bool_decide (resolveSide hosts (cn_To dbc) = []).
Definition resolved (hosts : gmap string string) (dbc : Connection) : list connection :=
  if dropped hosts dbc then []
  else [mk_connection (endpoint (resolveSide hosts (cn_From dbc))) (endpoint (resolveSide hosts (cn_To dbc)))
          (cn_MinPort dbc) (cn_MaxPort dbc)].

(** The member lists that need an address set. *)
Definition usedSets (hosts : gmap string string) (dbConns : list Connection) : list (list string) :=
  concat ((λ dbc, if dropped hosts dbc then []
    else sideSets (resolveSide hosts (cn_From dbc)) ++ sideSets (resolveSide hosts (cn_To dbc))) <$> dbConns).

Definition addSet (sets : gmap string (list string)) (ms : list string) : gmap string (list string) :=
  match sets !! setName sha256x ms with Some _ => sets | None => <[setName sha256x ms := ms]> sets end.

Lemma endpointName_spec ms sets :
  endpointName sha256x ms sets = (endpoint ms, foldl addSet sets (sideSets ms)).
Proof. by destruct ms as [|? [|??]]. Qed.

Lemma resolveConnection_spec hosts dbConns :
  foldl (resolveConnection sha256x hosts) ([], ∅) dbConns =
  (concat (resolved hosts <$> dbConns), foldl addSet ∅ (usedSets hosts dbConns)).
Proof.
  induction dbConns as [|dbc dbConns IH] using rev_ind; [done|].
  rewrite foldl_app, IH. unfold usedSets. rewrite !fmap_app, !concat_app, foldl_app. csimpl.
  unfold resolved, dropped. rewrite !app_nil_r.
  destruct (_ || _); simpl; [by rewrite app_nil_r|].
  rewrite !endpointName_spec. by rewrite foldl_app.
Qed.

Lemma lookup_addSets used name ms :
  (∀ x y, x ∈ used → y ∈ used → setName sha256x x = setName sha256x y → x = y) →
  foldl addSet ∅ used !! name = Some ms ↔ name = setName sha256x ms ∧ ms ∈ used.
Proof.
  revert name ms. induction used as [|u used IH] using rev_ind; intros name ms Hinj.
  { simpl. rewrite lookup_empty, elem_of_nil. naive_solver. }
  assert (∀ name ms, foldl addSet ∅ used !! name = Some ms ↔ name = setName sha256x ms ∧ ms ∈ used) as IH'.
  { intros. apply IH. intros x y Hx Hy. apply Hinj; apply elem_of_app; by left. }
  clear IH. rewrite foldl_app, elem_of_app, list_elem_of_singleton. simpl. unfold addSet at 1.
  destruct (foldl addSet ∅ used !! setName sha256x u) as [v|] eqn:Hu.
  - rewrite IH'. split; [tauto|]. intros [-> [Hin| ->]]; [done|]. split; [done|].
    apply IH' in Hu as [Hn Hv]. rewrite (Hinj u v); [done|set_solver|set_solver|done].
  - destruct (decide (name = setName sha256x u)) as [->|Hne].
    + rewrite lookup_insert_eq. split; [intros [= ->]; auto|]. intros [Hn [Hin| ->]]; [|done].
      rewrite (Hinj u ms); [done|set_solver|set_solver|done].
    + rewrite lookup_insert_ne, IH' by done. split; [tauto|]. intros [-> [?| ->]]; tauto.
Qed.
End resolve.

(** ** Address sets made by this code *)

Lemma Strings_sort_idem l : Strings_sort (Strings_sort l) = Strings_sort l.
Proof. apply Strings_sort_unique, Strings_sort_perm. Qed.

Lemma elem_of_sideSets ms u : u ∈ sideSets ms → u = Strings_sort ms.
Proof. destruct ms as [|? [|??]]; simpl; rewrite ?elem_of_nil, ?list_elem_of_singleton; done. Qed.

Lemma elem_of_usedSets hosts dbConns u :
  u ∈ usedSets hosts dbConns ↔ ∃ dbc, dbc ∈ dbConns ∧ dropped hosts dbc = false ∧
    (u ∈ sideSets (resolveSide hosts (cn_From dbc)) ∨ u ∈ sideSets (resolveSide hosts (cn_To dbc))).
Proof.
  unfold usedSets. rewrite elem_of_concat. split.
  - intros (l & (dbc & -> & Hin)%list_elem_of_fmap & Hu). exists dbc.
    destruct (dropped hosts dbc); [by apply elem_of_nil in Hu|]. by apply elem_of_app in Hu.
  - intros (dbc & Hin & Hd & Hu). eexists. split; [by apply list_elem_of_fmap_2|]. simpl.
    rewrite Hd. by apply elem_of_app.
Qed.

Lemma usedSets_ok hosts dbConns u :
  hostsOK hosts → u ∈ usedSets hosts dbConns →
  Forall keldaIP u ∧ (NoDup u ∧ u ≠ []) ∧ Strings_sort u = u.
Proof.
  intros Hok (dbc & _ & Hd & Hu)%elem_of_usedSets. unfold dropped in Hd.
  apply orb_false_iff in Hd as [Hf%bool_decide_eq_false Ht%bool_decide_eq_false].
  assert (∃ side, u = Strings_sort (resolveSide hosts side) ∧ resolveSide hosts side ≠ [])
    as (side & -> & Hne).
  { destruct Hu as [Hu|Hu]; apply elem_of_sideSets in Hu; eauto. }
  split_and!; [rewrite Strings_sort_perm; by apply resolveSide_kelda|
    rewrite Strings_sort_perm; by apply NoDup_resolveSide|by apply Strings_sort_ne|apply Strings_sort_idem].
Qed.

Section own.
Context (sha256x : string → string).

Definition ownSet (x : AddressSet) : Prop :=
  as_Name x = setName sha256x (Strings_sort (as_Addresses x)) ∧ Forall keldaIP (as_Addresses x).

Lemma ownSet_key_inj x y :
  (∀ s, String.length (sha256x s) = 64) → ownSet x → ownSet y →
  addressSetKey (sortAddresses x) = addressSetKey (sortAddresses y) → sortAddresses x = sortAddresses y.
Proof.
  intros Hlen [Hnx Hkx] [Hny Hky] Heq. unfold addressSetKey in Heq. rewrite !Join_nosep_snoc in Heq.
  simpl in Heq. apply app_inj_r in Heq as [Ha Hn].
  - apply concat_keldaIP_inj in Ha; [|by rewrite Strings_sort_perm..].
    unfold sortAddresses. by rewrite Ha, Hn.
  - rewrite Hnx, Hny. unfold setName. by rewrite !length_app_s, !Hlen.
Qed.

Lemma ownSet_sorted x y : sortAddresses x = sortAddresses y → ownSet x → ownSet y.
Proof.
  unfold sortAddresses. intros [= Hn Ha] [Hname Hk]. split; [congruence|].
  rewrite <-(Strings_sort_perm (as_Addresses y)), <-Ha, Strings_sort_perm. done.
Qed.

(** No SHA-256 collision among the sets in use. *)
Definition collisionFree (hosts : gmap string string) (dbConns : list Connection) : Prop :=
  ∀ u v, u ∈ usedSets hosts dbConns → v ∈ usedSets hosts dbConns →
    sha256x (Join_strings "" u) = sha256x (Join_strings "" v) → Join_strings "" u = Join_strings "" v.

Lemma setName_inj hosts dbConns u v :
  hostsOK hosts → collisionFree hosts dbConns →
  u ∈ usedSets hosts dbConns → v ∈ usedSets hosts dbConns →
  setName sha256x u = setName sha256x v → u = v.
Proof.
  intros Hok Hcf Hu Hv Heq. apply (app_inj_s "sha" "sha") in Heq as [_ Heq]; [|done].
  apply concat_keldaIP_inj; [by eapply usedSets_ok..|]. by apply Hcf.
Qed.

Lemma resolveConnections_spec `{MapOrder} n dbConns hosts conns sets :
  hostsOK hosts → collisionFree hosts dbConns →
  resolveConnections sha256x n dbConns hosts = (conns, sets) →
  conns = concat (resolved sha256x hosts <$> dbConns) ∧ NoDup (as_Name <$> sets) ∧
  ∀ x, x ∈ sets ↔ as_Name x = setName sha256x (as_Addresses x) ∧ as_Addresses x ∈ usedSets hosts dbConns.
Proof.
  intros Hok Hcf. unfold resolveConnections. rewrite resolveConnection_spec. intros [= <- <-].
  split_and!; [done|..].
  - rewrite <-list_fmap_compose. erewrite list_fmap_ext; [apply (NoDup_range_fst n)|]. by intros ? [??].
  - intros [name ms]. rewrite list_elem_of_fmap. simpl.
    rewrite <-(lookup_addSets sha256x (usedSets hosts dbConns) name ms) by (intros ????; by eapply setName_inj).
    rewrite <-(elem_of_range n). split.
    + intros ([k v] & [= <- <-] & Hin). done.
    + intros Hin. by exists (name, ms).
Qed.
End own.

Lemma elem_of_resolved sha256x hosts dbConns conn :
  conn ∈ concat (resolved sha256x hosts <$> dbConns) ↔ ∃ dbc, dbc ∈ dbConns ∧ dropped hosts dbc = false ∧
    conn = mk_connection (endpoint sha256x (resolveSide hosts (cn_From dbc)))
      (endpoint sha256x (resolveSide hosts (cn_To dbc))) (cn_MinPort dbc) (cn_MaxPort dbc).
Proof.
  rewrite elem_of_concat. unfold resolved. split.
  - intros (l & (dbc & -> & Hin)%list_elem_of_fmap & Hc). exists dbc.
    destruct (dropped hosts dbc); [by apply elem_of_nil in Hc|]. by apply list_elem_of_singleton in Hc.
  - intros (dbc & Hin & Hd & ->). eexists. split; [by apply list_elem_of_fmap_2|]. simpl.
    rewrite Hd. by apply list_elem_of_singleton.
Qed.

(** ** What an endpoint of a rule stands for *)

(** An address, or the name of an address set with exactly those addresses. *)
Definition denotes (o : ovn) (e : string) (P : string → Prop) : Prop :=
  (∀ ip, P ip ↔ ip = e) ∨
  (∃ x, x ∈ ov_sets o ∧ e = "$" +:+ as_Name x ∧ NoDup (as_Addresses x) ∧
        (∀ ip, P ip ↔ ip ∈ as_Addresses x) ∧
        ∀ y, y ∈ ov_sets o → as_Name y = as_Name x → y = x).

Lemma endpoint_denotes sha256x hosts dbConns (o : ovn) sets side :
  hostsOK hosts → NoDup (as_Name <$> ov_sets o) →
  (∀ x, x ∈ sets ↔ as_Name x = setName sha256x (as_Addresses x) ∧ as_Addresses x ∈ usedSets hosts dbConns) →
  sortAddresses <$> ov_sets o ≡ₚ sortAddresses <$> sets →
  resolveSide hosts side ≠ [] →
  (∀ u, u ∈ sideSets (resolveSide hosts side) → u ∈ usedSets hosts dbConns) →
  denotes o (endpoint sha256x (resolveSide hosts side)) (sideIP hosts side).
Proof.
  intros Hok Hnames Hsets Hov Hne Hused. pose proof (NoDup_resolveSide hosts Hok side) as Hnd.
  assert (∀ ip, ip ∈ resolveSide hosts side ↔ sideIP hosts side ip) as Hel by apply elem_of_resolveSide.
  revert Hel Hne Hused Hnd. generalize (resolveSide hosts side). intros ms Hel Hne Hused Hnd.
  destruct ms as [|m [|m2 ms]]; [done| |].
  { left. intros ip. by rewrite <-Hel, list_elem_of_singleton. }
  right. set (u := Strings_sort (m :: m2 :: ms)) in *.
  assert (u ∈ usedSets hosts dbConns) as Hu by (apply Hused; simpl; set_solver).
  assert (mk_AddressSet (setName sha256x u) u ∈ sortAddresses <$> ov_sets o) as (x & Hx & Hxin)%list_elem_of_fmap.
  { rewrite Hov. apply list_elem_of_fmap. exists (mk_AddressSet (setName sha256x u) u). split.
    - unfold sortAddresses. simpl. unfold u. by rewrite Strings_sort_idem.
    - by apply Hsets. }
  unfold sortAddresses in Hx. injection Hx as Hn Ha.
  assert (as_Addresses x ≡ₚ m :: m2 :: ms) as Hperm.
  { rewrite <-(Strings_sort_perm (as_Addresses x)), <-Ha. apply Strings_sort_perm. }
  exists x. split_and!; [done| |by rewrite Hperm|intros ip; by rewrite Hperm, Hel|].
  - rewrite <-Hn. done.
  - intros y Hy Heq. by eapply NoDup_fmap_elem.
Qed.

(** ** The policy is enforced

    - The ACLs are, each once, a default drop and, for every connection with a
      known host on both sides, an allow rule for its ports (and the return
      traffic) and one for ICMP, all in both directions.
    - The two endpoints of each rule stand for exactly the addresses of the
      known hosts on that side.
    - The address sets are this code's own. *)
Section enforced.
Context (sha256x : string → string) (hosts : gmap string string) (dbConns : list Connection).

Definition ends (side : list string) : string := endpoint sha256x (resolveSide hosts side).
Definition liveConn (dbc : Connection) : Prop :=
  (∃ ip, sideIP hosts (cn_From dbc) ip) ∧ (∃ ip, sideIP hosts (cn_To dbc) ip).

(** The match of the rule for traffic from [f] to [t] and the answers. *)
Definition allowText (f t : string) (lo hi : Z) : string :=
  "((ip4.src == " +:+ f +:+ " && ip4.dst == " +:+ t +:+ " && (" +:+
    fmtInt lo +:+ " <= udp.dst <= " +:+ fmtInt hi +:+ " || " +:+
    fmtInt lo +:+ " <= tcp.dst <= " +:+ fmtInt hi +:+ ")) || (ip4.src == " +:+
    t +:+ " && ip4.dst == " +:+ f +:+ " && (" +:+
    fmtInt lo +:+ " <= udp.src <= " +:+ fmtInt hi +:+ " || " +:+
    fmtInt lo +:+ " <= tcp.src <= " +:+ fmtInt hi +:+ ")))".
Definition icmpText (f t : string) : string :=
  "(ip4.src == " +:+ f +:+ " && ip4.dst == " +:+ t +:+ " && icmp)".

Lemma getMatchString_text c :
  getMatchString c = allowText (co_from c) (co_to c) (co_minPort c) (co_maxPort c).
Proof.
  unfold getMatchString, allowText, or, and, from, to, portConstraint, Join_strings.
  cbn -[fmtInt]. rewrite !app_assoc_s. reflexivity.
Qed.
Lemma icmpMatch_text c : icmpMatch c = icmpText (co_from c) (co_to c).
Proof. unfold icmpMatch, icmpText, and, from, to, Join_strings. rewrite !app_assoc_s. reflexivity. Qed.

Record enforced (o : ovn) : Prop := {
  en_nodup : NoDup (acl_Core <$> ov_acls o);
  en_acls : ∀ c, c ∈ acl_Core <$> ov_acls o ↔ ∃ dir, (dir = "from-lport" ∨ dir = "to-lport") ∧
    (c = mk_ACLCore 0 dir "ip" "drop" ∨
     ∃ dbc, dbc ∈ dbConns ∧ liveConn dbc ∧
       (c = mk_ACLCore 1 dir (allowText (ends (cn_From dbc)) (ends (cn_To dbc))
              (cn_MinPort dbc) (cn_MaxPort dbc)) "allow" ∨
        c = mk_ACLCore 1 dir (icmpText (ends (cn_From dbc)) (ends (cn_To dbc))) "allow-related"));
  en_ends : ∀ dbc, dbc ∈ dbConns → liveConn dbc →
    denotes o (ends (cn_From dbc)) (sideIP hosts (cn_From dbc)) ∧
    denotes o (ends (cn_To dbc)) (sideIP hosts (cn_To dbc));
  en_own : Forall (ownSet sha256x) (ov_sets o);
}.

Lemma dropped_live dbc : dropped hosts dbc = false ↔ liveConn dbc.
Proof.
  unfold dropped, liveConn. rewrite orb_false_iff, !bool_decide_eq_false.
  setoid_rewrite <-elem_of_resolveSide.
  assert (∀ l : list string, l ≠ [] ↔ ∃ ip, ip ∈ l) as Hnil.
  { intros [|x l]; split; [done|by intros [? ?%elem_of_nil]|intros _; exists x; by left|done]. }
  by rewrite !Hnil.
Qed.

Context `{MapOrder} {W : Type} `{OvnLaws W}.

(** With a working OVN whose address sets were all made by this code, hosts
    with distinct Kelda addresses and no SHA-256 collision among the sets in
    use, [updateACLs] enforces the policy and touches nothing else. *)
Lemma wp_updateACLs n (w : W) Q :
  (∀ s, String.length (sha256x s) = 64) → collisionFree sha256x hosts dbConns → hostsOK hosts →
  ov_switches (view w) = {[lSwitch]} → Forall (ownSet sha256x) (ov_sets (view w)) →
  (∀ w' acls sets, view w' = with_acls acls (with_sets sets (view w)) → enforced (view w') → Q () w') →
  wp (updateACLs sha256x n dbConns hosts) w Q.
Proof.
  intros Hlen Hcf Hok Hsw Hown HQ. unfold updateACLs.
  destruct (resolveConnections _ _ _ _) as [conns sets] eqn:Hr.
  destruct (resolveConnections_spec _ _ _ _ _ _ Hok Hcf Hr) as (-> & Hnames & Hsets).
  assert (Forall (ownSet sha256x) sets) as Hsown.
  { apply Forall_forall. intros x [Hn Hu]%Hsets. destruct (usedSets_ok _ _ _ Hok Hu) as (Hk & _ & Hs).
    split; [by rewrite Hs|done]. }
  wp_bind. apply wp_syncAddressSets; [done| | |].
  { apply Forall_forall. intros x [_ Hu]%Hsets. by destruct (usedSets_ok _ _ _ Hok Hu) as (_ & ? & _). }
  { intros ? ? (x & -> & Hx)%list_elem_of_fmap (y & -> & Hy)%list_elem_of_fmap.
    rewrite Forall_forall in Hsown. rewrite Forall_forall in Hown.
    apply (ownSet_key_inj sha256x); [done|by apply Hsown|]. apply elem_of_app in Hy as [Hy|Hy]; auto. }
  intros w1 l1 Hv1 Hl1. apply wp_syncACLs; [by rewrite Hv1|].
  intros w2 l2 Hv2 Hnd Hacl _. apply (HQ w2 l2 l1); [by rewrite Hv2, Hv1|].
  split; rewrite Hv2, Hv1; simpl.
  - done.
  - intros c. rewrite Hacl. apply exist_proper. intros dir. apply and_iff_compat_l, or_iff_compat_l. split.
    + intros (conn & Hin & Hc). apply elem_of_resolved in Hin as (dbc & Hdbc & Hd & ->).
      exists dbc. rewrite getMatchString_text, icmpMatch_text in Hc.
      split_and!; [done|by apply dropped_live..|done].
    + intros (dbc & Hdbc & Hd%dropped_live & Hc). exists (mk_connection (ends (cn_From dbc)) (ends (cn_To dbc)) (cn_MinPort dbc) (cn_MaxPort dbc)).
      rewrite getMatchString_text, icmpMatch_text. split; [|exact Hc].
      apply elem_of_resolved. by exists dbc.
  - intros dbc Hin Hd%dropped_live.
    assert (NoDup (as_Name <$> l1)) as Hnd1.
    { pose proof (sets_names w1) as Hn. by rewrite Hv1 in Hn. }
    pose proof Hd as Hd'. unfold dropped in Hd'. apply orb_false_iff in Hd' as [Hf Ht].
    apply bool_decide_eq_false in Hf. apply bool_decide_eq_false in Ht.
    split; (eapply endpoint_denotes; [done|done|done|done|done|]); intros u Hu;
      apply elem_of_usedSets; exists dbc; auto.
  - apply Forall_forall. intros x Hx. apply (list_elem_of_fmap_2 sortAddresses) in Hx. rewrite Hl1 in Hx.
    apply list_elem_of_fmap in Hx as (y & Hxy & Hy). rewrite Forall_forall in Hsown.
    eapply ownSet_sorted; [by symmetry|]. by apply Hsown.
Qed.
End enforced.
