(* ===== verification/Network.v ===== *)
(** * Package network, part 5: the leader's configuration of OVN

    Models [src/minion/network/network.go] (logical switch, router and the
    composition [runMaster]), [src/minion/network/load_balancer.go] and
    [src/minion/network/route.go]. *)

From S2P Require Import Prelude GoStrings Join DbRows Db DbSpec DbTxn DbFrame Engine GoNet Ip Dns Ovn Ovsdb OvsServer Acl.

Definition loadBalancerRouter : string := "loadBalancerRouter".
Definition loadBalancerSwitchPort : string := "loadBalancerSwitchPort".
Definition loadBalancerRouterPort : string := "loadBalancerRouterPort".

(** [ipdef.LoadBalancerMac] *)
Definition LoadBalancerMac : string := "02:00:0a:00:00:02".

Example LoadBalancerMac_ok : IPToMac (IP4 LoadBalancerIP) = Ok LoadBalancerMac.
Proof. reflexivity. Qed.

Section network.
Context `{MapOrder} `{ParseIPv6} {W : Type} `{OvsdbClient W}.

(** ** The logical switch *)

Definition routerSwitchPort : SwitchPort :=
  mk_SwitchPort "" loadBalancerSwitchPort "router" [] {["router-port" := loadBalancerRouterPort]}.

Definition containerPort (dbc : Container) : outcome SwitchPort :=
  let! mac := IPStrToMac (c_IP dbc) in
  Ok (mk_SwitchPort "" (c_IP dbc) "" [mac +:+ " " +:+ c_IP dbc] ∅).

Fixpoint containerPorts (containers : list Container) : outcome (list SwitchPort) :=
  match containers with
  | [] => Ok []
  | dbc :: rest =>
    let! p := containerPort dbc in
    let! ps := containerPorts rest in
    Ok (p :: ps)
  end.

(** Errors of the single calls are only logged. *)
Definition each {A} (act : A → M W (result unit)) (xs : list A) : M W unit :=
  forM_ xs (λ x, let! _ := act x in mret ()).

Definition updatePorts (n : nat) (containers : list Container) : M W unit :=
  let! r := ListSwitchPorts in
  match r with
  | Err _ => mret ()
  | Val lports =>
    let! ports := lift (containerPorts containers) in
    let '(_, toAdd, toDel) := HashJoin n (routerSwitchPort :: ports) lports sp_Name sp_Name in
    each (CreateSwitchPort lSwitch) toAdd ;;;
    each (DeleteSwitchPort lSwitch) toDel
  end.

Definition updateLogicalSwitch (n : nat) (containers : list Container) : M W unit :=
  let! r := LogicalSwitchExists lSwitch in
  match r with
  | Err _ => mret ()
  | Val true => updatePorts n containers
  | Val false =>
    let! err := CreateLogicalSwitch lSwitch in
    match err with Err _ => mret () | Val _ => updatePorts n containers end
  end.

(** ** The load balancer router *)

Definition expRouterPort : RouterPort :=
  mk_RouterPort "" loadBalancerRouterPort LoadBalancerMac [KeldaSubnet_String].

Definition updateRouterPorts (n : nat) : M W unit :=
  let! r := ListRouterPorts in
  match r with
  | Err _ => mret ()
  | Val lports =>
    let '(_, toAdd, toDel) := HashJoin n [expRouterPort] lports rp_Name rp_Name in
    each (CreateRouterPort loadBalancerRouter) toAdd ;;;
    each (DeleteRouterPort loadBalancerRouter) toDel
  end.

Definition updateLoadBalancerRouter (n : nat) : M W unit :=
  let! r := LogicalRouterExists loadBalancerRouter in
  match r with
  | Err _ => mret ()
  | Val true => updateRouterPorts n
  | Val false =>
    let! err := CreateLogicalRouter loadBalancerRouter in
    match err with Err _ => mret () | Val _ => updateRouterPorts n end
  end.

(** ** Load balancers *)

(** An unknown hostname has the empty address. *)
Definition targetIPs (hostnameToIP : gmap string string) (lb : LoadBalancer) : list string :=
  Strings_sort (filter (λ ip, ip ≠ "") ((λ h, default "" (hostnameToIP !! h)) <$> lb_Hostnames lb)).

Definition targetLB (hostnameToIP : gmap string string) (lb : LoadBalancer) : ovnLoadBalancer :=
  mk_ovnLoadBalancer "" (lb_Name lb) {[lb_IP lb := Join_strings "," (targetIPs hostnameToIP lb)]}.

Definition lbKey (n : nat) (lb : ovnLoadBalancer) : string * string :=
  (ol_Name lb, MapAsString n (ol_VIPs lb)).

Definition updateLoadBalancerIPs (n : nat) (loadBalancers : list LoadBalancer)
    (hostnameToIP : gmap string string) : M W unit :=
  let! r := ListLoadBalancers in
  match r with
  | Err _ => mret ()
  | Val curr =>
    let target := targetLB hostnameToIP <$> loadBalancers in
    let '(_, toAdd, toRemove) := HashJoin n target curr (lbKey n) (lbKey n) in
    each (λ lb, CreateLoadBalancer lSwitch (ol_Name lb) (ol_VIPs lb)) toAdd ;;;
    each (DeleteLoadBalancer lSwitch) toRemove
  end.

Definition expAddresses (loadBalancers : list LoadBalancer) : string :=
  Join_strings " " (LoadBalancerMac :: Strings_sort (lb_IP <$> loadBalancers)).

Definition updateLoadBalancerARP (loadBalancers : list LoadBalancer) : M W unit :=
  let! r := ListSwitchPort loadBalancerSwitchPort in
  match r with
  | Err _ => mret ()
  | Val curr =>
    if bool_decide (sp_Addresses curr ≠ [expAddresses loadBalancers]) then
      let! _ := UpdateSwitchPortAddresses loadBalancerSwitchPort [expAddresses loadBalancers] in mret ()
    else mret ()
  end.

Definition updateLoadBalancers (n : nat) (loadBalancers : list LoadBalancer)
    (hostnameToIP : gmap string string) : M W unit :=
  updateLoadBalancerIPs n loadBalancers hostnameToIP ;;;
  updateLoadBalancerARP loadBalancers.

(** ** One round of the leader *)

Definition masterTables : list string :=
  [ConnectionTable; ContainerTable; EtcdTable; LoadBalancerTable; HostnameTable].

Definition readMaster (view : Database)
    : M store (list LoadBalancer * list Container * list Connection * gmap string string) :=
  let! loadBalancers := SelectFrom view (Some (λ lb, bool_decide (lb_IP lb ≠ ""))) in
  let! containers := SelectFrom view (Some (λ dbc, bool_decide (c_IP dbc ≠ ""))) in
  let! connections := SelectFrom view None in
  let! hostnameToIP := GetHostnameMappings view in
  mret (loadBalancers, containers, connections, hostnameToIP).

Context (sha256x : string → string).

Definition runMaster (n : nat) : M (store * W) unit :=
  let! (loadBalancers, containers, connections, hostnameToIP) := onFst (Run masterTables readMaster) in
  let! err := onSnd Open in
  match err with
  | Err _ => mret ()
  | Val _ =>
    onSnd (updateLogicalSwitch n containers ;;;
           updateLoadBalancerRouter n ;;;
           updateLoadBalancers n loadBalancers hostnameToIP ;;;
           updateACLs sha256x n connections hostnameToIP) ;;;
    onSnd Disconnect
  end.

(** One turn of the loop of [Run]. *)
Definition runNetworkOnce (n : nat) : M (store * W) unit :=
  let! leader := onFst connEtcdLeader in
  if (leader : bool) then runMaster n else mret ().
End network.

(** ** The subnets of the host *)

(** [nl.N]: the IPv4 routes, each with the index of its link and the textual
    form of its destination (nil for the default route), and the name of a
    link. *)
Class Netlink (W : Type) := {
  RouteList : M W (result (list (Z * option string)));
  LinkByIndex : Z → M W (result string);
}.

Section routes.
Context `{MapOrder} {W : Type} `{Netlink W}.

Fixpoint routeSubnets (routes : list (Z * option string)) : M W (result (list string)) :=
  match routes with
  | [] => mret (Val [])
  | (index, dst) :: rest =>
    let! link := LinkByIndex index in
    match link with
    | Err e => mret (Err ("get link: " +:+ e))
    | Val name =>
      let! r := routeSubnets rest in
      match r, dst with
      | Err e, _ => mret (Err e)
      | Val l, Some d => mret (Val (if bool_decide (name = KeldaBridge) then l else d :: l))
      | Val l, None => mret (Val l)
      end
    end
  end.

Definition commitSubnets (subnets : list string) (view : Database) : M store unit :=
  let! self := MinionSelf view in
  if negb (SliceEq subnets (mi_HostSubnets self))
  then CommitT view (set_mi_HostSubnets subnets self) else mret ().

Definition writeSubnetsOnce : M (store * W) (result unit) :=
  let! routes := onSnd RouteList in
  match routes with
  | Err e => mret (Err ("list routes: " +:+ e))
  | Val routes =>
    let! r := onSnd (routeSubnets routes) in
    match r with
    | Err e => mret (Err e)
    | Val subnets =>
      onFst (Run [MinionTable] (commitSubnets (Strings_sort subnets))) ;;;
      mret (Val ())
    end
  end.
End routes.

(** ** Bringing a table of OVN in line

    The shape of all the loops above: the missing rows are created one by one,
    then the unwanted ones deleted by UUID. *)
Section table.
Context `{MapOrder} {W : Type} `{OvnLaws W} {A T K : Type} `{Countable K}.
Context (rows : ovn → list T) (upd : ovn → list T → ovn → Prop) (uuid : T → string).
Context (key : T → K) (keyA : A → K) (mkrow : A → string → T) (valid : A → Prop) (pre : ovn → Prop).
Context (create : A → M W (result unit)) (del : T → M W (result unit)).

(** [upd o l o']: the view is [o] with the rows [l] in this table. *)
Record ovnTable : Prop := {
  ot_rows : ∀ l o o', upd o l o' → rows o' = l;
  ot_trans : ∀ l l' o o' o'', upd o l o' → upd o' l' o'' → upd o l' o'';
  ot_same : ∀ o, upd o (rows o) o;
  ot_pre : ∀ l o o', upd o l o' → pre o → pre o';
  ot_uuids : ∀ w : W, NoDup (uuid <$> rows (view w));
  ot_key : ∀ x u, key (mkrow x u) = keyA x;
  ot_create : ∀ x (w : W), valid x → pre (view w) → keyA x ∉ key <$> rows (view w) →
    wp (create x) w (λ _ w', ∃ u l, l ≡ₚ mkrow x u :: rows (view w) ∧ upd (view w) l (view w'));
  ot_delete : ∀ t (w : W), pre (view w) → t ∈ rows (view w) → wp (del t) w (λ _ w',
    ∃ l, l ≡ₚ filter (λ r, uuid r ≠ uuid t) (rows (view w)) ∧ upd (view w) l (view w'));
}.
Context (Htab : ovnTable).

Lemma wp_each_create xs w Q :
  Forall valid xs → pre (view w) → NoDup (keyA <$> xs) →
  (∀ x, x ∈ xs → keyA x ∉ key <$> rows (view w)) →
  (∀ us w' l, length us = length xs → l ≡ₚ zip_with mkrow xs us ++ rows (view w) →
     upd (view w) l (view w') → Q () w') →
  wp (each create xs) w Q.
Proof.
  unfold each. revert w Q. induction xs as [|x xs IH]; intros w Q Hval Hpre Hnd Hfresh HQ; simpl.
  { wp_ret. apply (HQ [] w (rows (view w))); [done|done|]. apply (ot_same Htab). }
  apply Forall_cons in Hval as [Hx Hval]. csimpl in Hnd. apply NoDup_cons in Hnd as [Hni Hnd].
  do 2 wp_bind. eapply wp_mono; [apply (ot_create Htab); [done|done|apply Hfresh; by left]|].
  intros r w1 (u & l & Hl & Hv). wp_ret.
  assert (rows (view w1) ≡ₚ mkrow x u :: rows (view w)) as Hr by (by rewrite (ot_rows Htab _ _ _ Hv)).
  apply IH; [done|by eapply (ot_pre Htab)|done| |].
  - intros y Hy. rewrite Hr. csimpl. rewrite (ot_key Htab), not_elem_of_cons.
    split; [|apply Hfresh; by right]. intros Heq. apply Hni. rewrite <-Heq. by apply list_elem_of_fmap_2.
  - intros us w2 l2 Hlen Hl2 Hv2. apply (HQ (u :: us) w2 l2); [simpl; by rewrite Hlen| |].
    + rewrite Hl2, Hr. simpl. by rewrite <-Permutation_middle.
    + by eapply (ot_trans Htab).
Qed.

Lemma wp_each_delete dels rest w Q :
  pre (view w) → rows (view w) ≡ₚ dels ++ rest →
  (∀ w' l, l ≡ₚ rest → upd (view w) l (view w') → Q () w') →
  wp (each del dels) w Q.
Proof.
  unfold each. revert w Q. induction dels as [|t dels IH]; intros w Q Hpre Hr HQ; simpl.
  { wp_ret. apply (HQ w (rows (view w))); [done|]. apply (ot_same Htab). }
  do 2 wp_bind. eapply wp_mono; [apply (ot_delete Htab); [done|rewrite Hr; by left]|]. intros r w1 (l & Hl & Hv). wp_ret.
  pose proof (ot_uuids Htab w) as Hu. rewrite Hr in Hu, Hl. csimpl in Hu.
  apply NoDup_cons in Hu as [Hni _]. rewrite <-app_comm_cons, filter_cons_False in Hl by tauto.
  rewrite filter_all in Hl.
  - apply IH; [by eapply (ot_pre Htab)|by rewrite (ot_rows Htab _ _ _ Hv)|].
    intros w2 l2 Hl2 Hv2. apply (HQ w2 l2); [done|]. by eapply (ot_trans Htab).
  - intros x Hx Heq. apply Hni. rewrite <-Heq. by apply list_elem_of_fmap_2.
Qed.

(** The table has exactly the target's keys; its rows are old ones, or made for
    a target that had none. *)
Record in_line (tgt : list A) (old new : list T) : Prop := {
  il_nodup : NoDup (key <$> new);
  il_keys : ∀ k, k ∈ key <$> new ↔ k ∈ keyA <$> tgt;
  il_rows : ∀ r, r ∈ new → r ∈ old ∨ ∃ x u, x ∈ tgt ∧ keyA x ∉ key <$> old ∧ r = mkrow x u;
}.

Lemma wp_bring_in_line n tgt curr pairs ll lr w Q :
  HashJoin n tgt curr keyA key = (pairs, ll, lr) → curr ≡ₚ rows (view w) →
  pre (view w) → Forall valid tgt →
  (∀ w' l, upd (view w) l (view w') → in_line tgt (rows (view w)) l → Q () w') →
  wp (each create ll ;;; each del lr) w Q.
Proof.
  intros Hj%HashJoin_ok Hcurr Hpre Hval HQ.
  pose proof (hj_rights _ _ _ _ _ _ _ Hj) as Hr. rewrite Hcurr in Hr.
  pose proof (hj_left_nodup _ _ _ _ _ _ _ Hj) as Hnd. rewrite fmap_app in Hnd.
  assert (∀ x, x ∈ pairs.*1 ++ ll → x ∈ tgt) as Hin.
  { intros x Hx. eapply elem_of_submseteq; [exact Hx|apply Hj]. }
  assert (∀ x, x ∈ ll → keyA x ∉ key <$> rows (view w)) as Hfresh.
  { intros x Hx (b & Heq & Hb)%list_elem_of_fmap. rewrite <-Hcurr in Hb.
    exact (hj_lonely_left _ _ _ _ _ _ _ Hj x b Hx Hb Heq). }
  rewrite Forall_forall in Hval.
  wp_bind. apply wp_each_create; [| |by apply NoDup_app in Hnd as (_ & _ & ?)|done|]; [|done|].
  { apply Forall_forall. intros x Hx. apply Hval, Hin, elem_of_app. by right. }
  intros us w1 l1 Hlen Hl1 Hv1.
  apply (wp_each_delete _ (pairs.*2 ++ zip_with mkrow ll us)); [by eapply (ot_pre Htab)| |].
  { rewrite (ot_rows Htab _ _ _ Hv1), Hl1, <-Hr.
    rewrite (Permutation_app_comm (zip_with _ _ _)), (Permutation_app_comm pairs.*2 lr). by rewrite app_assoc. }
  intros w2 l2 Hl2 Hv2. apply (HQ w2 l2); [by eapply (ot_trans Htab)|].
  assert (key <$> l2 ≡ₚ keyA <$> pairs.*1 ++ ll) as Hkeys.
  { rewrite Hl2, !fmap_app. apply Permutation_app.
    - rewrite <-!list_fmap_compose. apply Permutation_refl', list_fmap_ext.
      intros i [a b] Hab%list_elem_of_lookup_2. symmetry. by apply (hj_pair _ _ _ _ _ _ _ Hj).
    - apply Permutation_refl', fmap_zip_with_l; [lia|]. intros. apply (ot_key Htab). }
  split.
  - by rewrite Hkeys, fmap_app.
  - intros k. rewrite Hkeys. split.
    + intros (x & -> & Hx)%list_elem_of_fmap. by apply list_elem_of_fmap_2, Hin.
    + intros (x & -> & Hx)%list_elem_of_fmap.
      destruct (hj_left_keys _ _ _ _ _ _ _ Hj x Hx) as (x' & Hx' & <-). by apply list_elem_of_fmap_2.
  - intros r. rewrite Hl2, elem_of_app. intros [Hp|(x & u & Hx & _ & ->)%elem_of_zip_with].
    + left. rewrite <-Hr. apply elem_of_app. by left.
    + right. exists x, u. split_and!; [apply Hin, elem_of_app; by right|by apply Hfresh|done].
Qed.
End table.

(** ** The tables of OVN *)

Section tables.
Context `{MapOrder} `{ParseIPv6} {W : Type} `{OvnLaws W}.
Implicit Types w : W.

Definition newPort (p : SwitchPort) (u : string) : SwitchPort :=
  mk_SwitchPort u (sp_Name p) (sp_Type p) (sp_Addresses p) (sp_Options p).
Definition newRouterPort (p : RouterPort) (u : string) : RouterPort :=
  mk_RouterPort u (rp_Name p) (rp_MAC p) (rp_Networks p).
Definition newLB (lb : ovnLoadBalancer) (u : string) : ovnLoadBalancer :=
  mk_ovnLoadBalancer u (ol_Name lb) (ol_VIPs lb).

Lemma switch_ports_table :
  ovnTable ov_ports (λ o l o', o' = with_ports l o) sp_uuid sp_Name sp_Name newPort (λ p, length (sp_Addresses p) ≤ 1)
    (λ o, ov_switches o = {[lSwitch]}) (CreateSwitchPort (W:=W) lSwitch) (DeleteSwitchPort lSwitch).
Proof.
  split; [by intros ??? ->|by intros ????? -> ->|by intros []|by intros ??? ->|apply ports_uuids|done|..].
  - intros p w Hv Hpre Hk. wp_use CreateSwitchPort_ok; [done..|].
    intros r w' (_ & u & l & Hl & Hw). by exists u, l.
  - intros p w Hpre Hp. wp_use DeleteSwitchPort_ok; [done..|]. by intros r w' (_ & ?).
Qed.

Lemma router_ports_table :
  ovnTable ov_rports (λ o l o', o' = with_rports l o) rp_uuid rp_Name rp_Name newRouterPort (λ p, length (rp_Networks p) = 1)
    (λ o, ov_routers o = {[loadBalancerRouter]}) (CreateRouterPort (W:=W) loadBalancerRouter)
    (DeleteRouterPort loadBalancerRouter).
Proof.
  split; [by intros ??? ->|by intros ????? -> ->|by intros []|by intros ??? ->|apply rports_uuids|done|..].
  - intros p w Hv Hpre Hk. wp_use CreateRouterPort_ok; [done..|].
    intros r w' (_ & u & l & Hl & Hw). by exists u, l.
  - intros p w Hpre Hp. wp_use DeleteRouterPort_ok; [done..|]. by intros r w' (_ & ?).
Qed.

(** The load balancers and the references to them: a row of the new table is
    referred to by the switch, unless it was there before and was not. *)
Definition attached (o : ovn) (lb : ovnLoadBalancer) : Prop := (lSwitch, ol_uuid lb) ∈ ov_lbrefs o.
Definition lbs_upd (o : ovn) (l : list ovnLoadBalancer) (o' : ovn) : Prop :=
  ∃ x, o' = with_lbrefs x (with_lbs l o) ∧
    ∀ lb, lb ∈ l → attached o' lb ∨ (lb ∈ ov_lbs o ∧ (attached o lb → attached o' lb)).

Lemma lbs_upd_trans l l' o o' o'' : lbs_upd o l o' → lbs_upd o' l' o'' → lbs_upd o l' o''.
Proof.
  intros (x & -> & Hx) (y & -> & Hy). exists y. split; [done|]. intros lb Hlb.
  destruct (Hy lb Hlb) as [|[Hin Hk]]; [by left|]. destruct (Hx lb Hin) as [|[Hin' Hk']]; [left|right]; auto.
Qed.

Lemma lbs_table n :
  ovnTable ov_lbs lbs_upd ol_uuid (lbKey n) (lbKey n) newLB (λ lb, ol_VIPs lb ≠ ∅) (λ o, ov_switches o = {[lSwitch]})
    (λ lb, CreateLoadBalancer (W:=W) lSwitch (ol_Name lb) (ol_VIPs lb)) (DeleteLoadBalancer lSwitch).
Proof.
  split; [by intros ??? (? & -> & _)|apply lbs_upd_trans| |by intros ??? (? & -> & _)|apply lbs_uuids|done|..].
  - intros o. exists (ov_lbrefs o). split; [by destruct o|]. auto.
  - intros p w Hv Hpre _. wp_use CreateLoadBalancer_ok; [done..|].
    intros r w' (_ & u & l & Hl & ->). exists u, l. split; [done|]. eexists. split; [done|].
    intros lb Hlb. rewrite Hl in Hlb. unfold attached. simpl. rewrite elem_of_union.
    apply elem_of_cons in Hlb as [->|Hlb]; [left; left; by apply elem_of_singleton|right; auto].
  - intros p w Hpre Hp. wp_use DeleteLoadBalancer_ok; [done..|]. intros r w' (_ & l & Hl & ->).
    exists l. split; [done|]. eexists. split; [done|]. intros lb Hlb. rewrite Hl in Hlb.
    apply list_elem_of_filter in Hlb as [Hne Hlb]. right. split; [done|]. unfold attached. simpl. rewrite elem_of_filter. auto.
Qed.

(** *** Switch ports *)

Lemma sole_eq (X : gset string) x : X ⊆ {[x]} → x ∈ X → X = {[x]}.
Proof. intros Hs Hx. apply set_eq. intros y. rewrite elem_of_singleton. split; [|by intros ->]. by intros ?%Hs%elem_of_singleton. Qed.

Lemma sole_new (X : gset string) x : X ⊆ {[x]} → {[x]} ∪ X = {[x]}.
Proof. intros Hs. apply sole_eq; [|apply elem_of_union_l, elem_of_singleton_2; done]. by apply union_subseteq. Qed.

(** No switch or router but Kelda's. *)
Definition keldas_own (o : ovn) : Prop :=
  ov_switches o ⊆ {[lSwitch]} ∧ ov_routers o ⊆ {[loadBalancerRouter]}.

Definition macOf (ip : string) : string := match IPStrToMac ip with Ok m => m | Panic _ => "" end.
Definition portOf (c : Container) : SwitchPort :=
  mk_SwitchPort "" (c_IP c) "" [macOf (c_IP c) +:+ " " +:+ c_IP c] ∅.

Lemma containerPorts_ok cs :
  Forall (λ c, keldaIP (c_IP c)) cs → containerPorts cs = Ok (portOf <$> cs).
Proof.
  induction 1 as [|c cs (h & Hh & Hc) _ IH]; [done|]. simpl. rewrite IH. unfold containerPort, portOf, macOf.
  unfold IPStrToMac. rewrite Hc, ParseIP_String; [done|]. unfold IPv4. lia.
Qed.

Lemma wp_updatePorts n cs w Q :
  ov_switches (view w) = {[lSwitch]} → Forall (λ c, keldaIP (c_IP c)) cs →
  (∀ w' l, view w' = with_ports l (view w) →
     in_line sp_Name sp_Name newPort (routerSwitchPort :: (portOf <$> cs)) (ov_ports (view w)) l → Q () w') →
  wp (updatePorts n cs) w Q.
Proof.
  intros Hsw Hcs HQ. unfold updatePorts. wp_bind. wp_use ListSwitchPorts_ok. intros r w1 (l & -> & Hl & Hv).
  wp_bind. eapply wp_lift; [by apply containerPorts_ok|].
  destruct (HashJoin _ _ _ _ _) as [[pairs ll] lr] eqn:Hj. rewrite <-Hv in Hl, HQ, Hsw.
  eapply (wp_bring_in_line _ _ _ _ _ _ _ _ _ _ switch_ports_table); [exact Hj|done|done| |exact HQ].
  constructor; [simpl; lia|]. apply Forall_fmap, Forall_forall. intros c _. simpl. lia.
Qed.

Lemma wp_updateLogicalSwitch n cs w Q :
  ov_switches (view w) ⊆ {[lSwitch]} → Forall (λ c, keldaIP (c_IP c)) cs →
  (∀ w' l, view w' = with_ports l (with_switches ({[lSwitch]} ∪ ov_switches (view w)) (view w)) →
     in_line sp_Name sp_Name newPort (routerSwitchPort :: (portOf <$> cs)) (ov_ports (view w)) l → Q () w') →
  wp (updateLogicalSwitch n cs) w Q.
Proof.
  intros Hsub Hcs HQ. unfold updateLogicalSwitch. wp_bind. wp_use LogicalSwitchExists_ok. intros r w1 [-> Hv].
  case_bool as [Hin|Hnin].
  - apply wp_updatePorts; [rewrite Hv; by apply sole_eq|done|]. rewrite Hv. intros w2 l Hw Hl. apply (HQ w2 l); [|done].
    rewrite Hw. f_equal. destruct (view w). unfold with_switches. simpl in *. f_equal. set_solver.
  - wp_bind. wp_use CreateLogicalSwitch_ok; [by rewrite Hv|]. intros r w2 [-> Hv2].
    apply wp_updatePorts; [rewrite Hv2, Hv; by apply sole_new|done|]. rewrite Hv2, Hv. exact HQ.
Qed.

(** *** The router *)

Lemma wp_updateLoadBalancerRouter n w Q :
  ov_routers (view w) ⊆ {[loadBalancerRouter]} →
  (∀ w' l, view w' = with_rports l (with_routers ({[loadBalancerRouter]} ∪ ov_routers (view w)) (view w)) →
     in_line rp_Name rp_Name newRouterPort [expRouterPort] (ov_rports (view w)) l → Q () w') →
  wp (updateLoadBalancerRouter n) w Q.
Proof.
  intros Hsub HQ.
  assert (∀ w1, ov_routers (view w1) = {[loadBalancerRouter]} →
    (∀ w' l, view w' = with_rports l (view w1) →
      in_line rp_Name rp_Name newRouterPort [expRouterPort] (ov_rports (view w1)) l → Q () w') →
    wp (updateRouterPorts n) w1 Q) as Hports.
  { intros w1 Hin HQ1. unfold updateRouterPorts. wp_bind. wp_use ListRouterPorts_ok. intros r w2 (l & -> & Hl & Hv).
    destruct (HashJoin _ _ _ _ _) as [[pairs ll] lr] eqn:Hj. rewrite <-Hv in Hl, HQ1, Hin.
    eapply (wp_bring_in_line _ _ _ _ _ _ _ _ _ _ router_ports_table); [exact Hj|done|done| |exact HQ1].
    repeat constructor. }
  unfold updateLoadBalancerRouter. wp_bind. wp_use LogicalRouterExists_ok. intros r w1 [-> Hv].
  case_bool as [Hin|Hnin].
  - apply Hports; [rewrite Hv; by apply sole_eq|]. rewrite Hv. intros w2 l Hw Hl. apply (HQ w2 l); [|done].
    rewrite Hw. f_equal. destruct (view w). unfold with_routers. simpl in *. f_equal. set_solver.
  - wp_bind. wp_use CreateLogicalRouter_ok; [by rewrite Hv|]. intros r w2 [-> Hv2].
    apply Hports; [rewrite Hv2, Hv; by apply sole_new|]. rewrite Hv2, Hv. exact HQ.
Qed.

(** *** Load balancers *)

Lemma wp_updateLoadBalancerIPs n lbs hosts w Q :
  ov_switches (view w) = {[lSwitch]} →
  (∀ w' l, lbs_upd (view w) l (view w') →
     in_line (lbKey n) (lbKey n) newLB (targetLB hosts <$> lbs) (ov_lbs (view w)) l → Q () w') →
  wp (updateLoadBalancerIPs n lbs hosts) w Q.
Proof.
  intros Hsw HQ. unfold updateLoadBalancerIPs. wp_bind. wp_use ListLoadBalancers_ok.
  intros r w1 (l & -> & Hl & Hv).
  destruct (HashJoin _ _ _ _ _) as [[pairs ll] lr] eqn:Hj. rewrite <-Hv in Hl, HQ, Hsw.
  eapply (wp_bring_in_line _ _ _ _ _ _ _ _ _ _ (lbs_table n)); [exact Hj|done|done| |exact HQ].
  apply Forall_fmap, Forall_forall. intros lb _. apply insert_non_empty.
Qed.

(** The ports with the addresses of the router's port set. *)
Definition arpPorts (lbs : list LoadBalancer) (ports : list SwitchPort) : list SwitchPort :=
  (λ p, if bool_decide (sp_Name p = loadBalancerSwitchPort)
        then set_sp_Addresses [expAddresses lbs] p else p) <$> ports.

Lemma wp_updateLoadBalancerARP lbs w Q :
  loadBalancerSwitchPort ∈ sp_Name <$> ov_ports (view w) →
  (∀ w' l, view w' = with_ports l (view w) → l ≡ₚ arpPorts lbs (ov_ports (view w)) → Q () w') →
  wp (updateLoadBalancerARP lbs) w Q.
Proof.
  intros (p & Hname & Hp)%list_elem_of_fmap HQ. unfold updateLoadBalancerARP. wp_bind. rewrite Hname.
  wp_use ListSwitchPort_ok; [exact Hp|]. intros r w1 [-> Hv]. case_bool as [Hne|Heq]; cbv iota.
  - wp_bind. wp_use UpdateSwitchPortAddresses_ok; [done|]. intros r w2 (_ & l & Hl & Hv2). wp_ret.
    rewrite Hv in Hl, Hv2. apply (HQ w2 l); [done|]. rewrite Hl. unfold arpPorts. by rewrite Hname.
  - wp_ret. apply (HQ w1 (ov_ports (view w))); [rewrite Hv; by destruct (view w)|].
    apply Permutation_refl'. symmetry. apply fmap_id_on. intros q Hq. case_bool as [Hn|]; [|done].
    assert (q = p) as ->.
    { eapply (NoDup_fmap_elem sp_Name); [apply (ports_names w)|done|done|congruence]. }
    destruct p as [u nm t a o]. unfold set_sp_Addresses. simpl in *. f_equal.
    destruct (decide (a = [expAddresses lbs])) as [->|]; [done|tauto].
Qed.
End tables.

(** ** What the leader reads *)

(** The hostname table as a map. *)
Definition hostsOf (s : store) : gmap string string :=
  list_to_map ((λ h, (h_Hostname h, h_IP h)) <$> vals (tbl Hostname s)).

Definition lbsWithIP (s : store) : list LoadBalancer :=
  filter (λ lb, lb_IP lb ≠ "") (vals (tbl LoadBalancer s)).
Definition containersWithIP (s : store) : list Container :=
  filter (λ c, c_IP c ≠ "") (vals (tbl Container s)).

Lemma hostnameMappings_perm hs hs' :
  NoDup (h_Hostname <$> hs') → hs ≡ₚ hs' →
  foldl (λ m h, <[h_Hostname h := h_IP h]> m) (∅ : gmap string string) hs = list_to_map ((λ h, (h_Hostname h, h_IP h)) <$> hs').
Proof.
  intros Hnd Hp.
  assert (∀ l, foldl (λ m h, <[h_Hostname h := h_IP h]> m) (∅ : gmap string string) l =
    list_to_map ((λ h, (h_Hostname h, h_IP h)) <$> reverse l)) as ->.
  { induction l as [|h l IH] using rev_ind; [done|]. rewrite foldl_app, reverse_snoc, IH. done. }
  apply list_to_map_proper.
  - rewrite <-list_fmap_compose. simpl. by rewrite reverse_Permutation, Hp.
  - by rewrite reverse_Permutation, Hp.
Qed.

Lemma filter_passes {T} (P : T → Prop) `{∀ x, Decision (P x)} (l : list T) :
  filter (passes (Some (λ x, bool_decide (P x)))) l = filter P l.
Proof.
  apply list_filter_iff. intros x. unfold passes. simpl. apply bool_decide_eq_true.
Qed.

Lemma wp_readMaster `{MapOrder} view s (Q : _ → store → Prop) :
  DbOK view s → list_to_set masterTables ⊆ view → NoDup (h_Hostname <$> vals (tbl Hostname s)) →
  (∀ lbs cs conns s', same s s' → lbs ≡ₚ lbsWithIP s → cs ≡ₚ containersWithIP s →
     conns ≡ₚ vals (tbl Connection s) → Q (lbs, cs, conns, hostsOf s) s') →
  wp (readMaster view) s Q.
Proof.
  intros Hok Hsub Hnd HQ. unfold readMaster.
  assert (∀ tn, tn ∈ masterTables → tn ∈ view) as Hin by set_solver.
  wp_bind. apply wp_SelectFrom; [done|apply Hin; vm_decide|]. intros lbs s1 Hs1 Hlbs.
  wp_bind. apply wp_SelectFrom; [by eapply same_ok|apply Hin; vm_decide|]. intros cs s2 Hs2 Hcs.
  pose proof (same_trans _ _ _ Hs1 Hs2) as Hs02.
  wp_bind. apply wp_select_all; [by eapply same_ok|apply Hin; vm_decide|]. intros conns s3 Hs3 Hconns.
  pose proof (same_trans _ _ _ Hs02 Hs3) as Hs03. unfold GetHostnameMappings.
  do 2 wp_bind. apply wp_select_all; [by eapply same_ok|apply Hin; vm_decide|]. intros hs s4 Hs4 Hhs.
  wp_ret. wp_ret.
  rewrite (same_tbl (T:=Container) _ _ Hs1) in Hcs. rewrite (same_tbl (T:=Connection) _ _ Hs02) in Hconns.
  rewrite (same_tbl (T:=Hostname) _ _ Hs03) in Hhs. rewrite filter_passes in Hlbs. rewrite filter_passes in Hcs.
  rewrite (hostnameMappings_perm _ _ Hnd Hhs). apply HQ; [by eapply same_trans|done..].
Qed.

(** *** The configuration of OVN that the database calls for *)

Section master.
Context `{MapOrder} `{ParseIPv6} (sha256x : string → string).

(** The text of the MAC address that Kelda gives an IPv4 address. *)
Definition macText (a : Z) : string :=
  "02:00:" +:+ hex2 (a / 2 ^ 24 mod 256) +:+ ":" +:+ hex2 (a / 2 ^ 16 mod 256) +:+ ":" +:+
  hex2 (a / 2 ^ 8 mod 256) +:+ ":" +:+ hex2 (a mod 256).

(** The addresses of the hosts of a load balancer that are known, in order. *)
Definition backends (hosts : gmap string string) (lb : LoadBalancer) (ips : list string) : Prop :=
  Sorted String.le ips ∧ ips ≡ₚ filter (λ ip, ip ≠ "") (omap (λ h, hosts !! h) (lb_Hostnames lb)).

Record configured (s : store) (o o' : ovn) : Prop := {
  (** the switch, with one port per container and one to the router; a port
      that was not there has the container's MAC and IP address *)
  cf_switch : "kelda" ∈ ov_switches o';
  cf_ports_nodup : NoDup (sp_Name <$> ov_ports o');
  cf_ports : ∀ name, name ∈ sp_Name <$> ov_ports o' ↔
    name = "loadBalancerSwitchPort" ∨ ∃ c, c ∈ vals (tbl Container s) ∧ c_IP c ≠ "" ∧ name = c_IP c;
  cf_port : ∀ p, p ∈ ov_ports o' → sp_Name p ≠ "loadBalancerSwitchPort" →
    p ∈ ov_ports o ∨ (sp_Name p ∉ sp_Name <$> ov_ports o ∧ ∃ a u, (0 ≤ a < 2 ^ 32)%Z ∧
      p = mk_SwitchPort u (IPString a) "" [macText a +:+ " " +:+ IPString a] ∅);
  (** the port to the router, which answers ARP for the load balanced addresses *)
  cf_arp : ∀ p, p ∈ ov_ports o' → sp_Name p = "loadBalancerSwitchPort" → ∃ ips, Sorted String.le ips ∧
    ips ≡ₚ filter (λ ip, ip ≠ "") (lb_IP <$> vals (tbl LoadBalancer s)) ∧
    sp_Addresses p = [Join_strings " " ("02:00:0a:00:00:02" :: ips)];
  cf_router_port : ∀ p, p ∈ ov_ports o' → sp_Name p = "loadBalancerSwitchPort" →
    (∃ q, q ∈ ov_ports o ∧ sp_Name q = sp_Name p ∧ sp_Type p = sp_Type q ∧ sp_Options p = sp_Options q) ∨
    (sp_Name p ∉ sp_Name <$> ov_ports o ∧
     sp_Type p = "router" ∧ sp_Options p = {["router-port" := "loadBalancerRouterPort"]});
  (** the router, with its one port *)
  cf_router : "loadBalancerRouter" ∈ ov_routers o';
  cf_rports : ∃ p, ov_rports o' = [p] ∧ rp_Name p = "loadBalancerRouterPort" ∧
    (p ∈ ov_rports o ∨ ∃ u, p = mk_RouterPort u "loadBalancerRouterPort" "02:00:0a:00:00:02" ["10.0.0.0/8"]);
  (** the load balancers, from their address to those of their hosts, which
      the switch refers to *)
  cf_lbs : ∀ name vips, (name, vips) ∈ (λ r, (ol_Name r, ol_VIPs r)) <$> ov_lbs o' ↔
    ∃ lb ips, lb ∈ vals (tbl LoadBalancer s) ∧ lb_IP lb ≠ "" ∧ backends (hostsOf s) lb ips ∧
      name = lb_Name lb ∧ vips = {[lb_IP lb := Join_strings "," ips]};
  cf_lbs_nodup : NoDup ((λ r, (ol_Name r, ol_VIPs r)) <$> ov_lbs o');
  cf_attached : ∀ r, r ∈ ov_lbs o' → ("kelda", ol_uuid r) ∈ ov_lbrefs o' ∨
    (r ∈ ov_lbs o ∧ ("kelda", ol_uuid r) ∉ ov_lbrefs o);
  (** the policy *)
  cf_policy : enforced sha256x (hostsOf s) (vals (tbl Connection s)) o';
}.

Lemma expAddresses_perm lbs lbs' : lbs ≡ₚ lbs' → expAddresses lbs = expAddresses lbs'.
Proof. intros Hp. unfold expAddresses. do 2 f_equal. apply Strings_sort_unique. by rewrite Hp. Qed.

Lemma enforced_perm hosts conns conns' o :
  conns ≡ₚ conns' → enforced sha256x hosts conns o → enforced sha256x hosts conns' o.
Proof.
  intros Hp [H1 H2 H3 H4]. split; [done| | |done].
  - intros c. rewrite H2. setoid_rewrite Hp. done.
  - intros dbc. rewrite <-Hp. apply H3.
Qed.

Lemma usedSets_perm hosts conns conns' u :
  conns ≡ₚ conns' → u ∈ usedSets hosts conns ↔ u ∈ usedSets hosts conns'.
Proof. intros Hp. rewrite !elem_of_usedSets. by setoid_rewrite Hp. Qed.
End master.

(** ** The four steps together *)

Section steps.
Context `{MapOrder} `{ParseIPv6} {W : Type} `{OvnLaws W} (sha256x : string → string).

Lemma in_line_singleton {A T K} `{Countable K} (key : T → K) (keyA : A → K) mkrow x old new :
  in_line key keyA mkrow [x] old new → key <$> new = [keyA x].
Proof.
  intros [Hnd Hk _]. apply Permutation_singleton_r, NoDup_Permutation; [done|apply NoDup_singleton|done].
Qed.

Lemma elem_of_containersWithIP s c :
  c ∈ containersWithIP s ↔ c ∈ vals (tbl Container s) ∧ c_IP c ≠ "".
Proof. unfold containersWithIP. rewrite list_elem_of_filter. tauto. Qed.

Lemma keldaIP_mac ip : keldaIP ip →
  ∃ a, (0 ≤ a < 2 ^ 32)%Z ∧ ip = IPString a ∧ IPStrToMac ip = Ok (macText a).
Proof.
  intros (h & Hh & ->). exists (h + IPv4 10 0 0 0)%Z. assert (0 ≤ h + IPv4 10 0 0 0 < 2 ^ 32)%Z by (unfold IPv4; lia).
  split_and!; [lia..|done|]. unfold IPStrToMac. rewrite ParseIP_String by lia. simpl. unfold macText, byteOf.
  by rewrite Z.div_1_r.
Qed.

(** The ports of the containers, with the router's port updated. *)
Lemma arpPorts_row lbs cs old ports p :
  in_line sp_Name sp_Name newPort (routerSwitchPort :: (portOf <$> cs)) old ports →
  Forall (λ c, keldaIP (c_IP c)) cs → p ∈ arpPorts lbs ports → sp_Name p ≠ loadBalancerSwitchPort →
  p ∈ old ∨ (sp_Name p ∉ sp_Name <$> old ∧ ∃ a u, (0 ≤ a < 2 ^ 32)%Z ∧
    p = mk_SwitchPort u (IPString a) "" [macText a +:+ " " +:+ IPString a] ∅).
Proof.
  intros Hports Hips (q & -> & Hq)%list_elem_of_fmap Hne.
  destruct (decide (sp_Name q = loadBalancerSwitchPort)) as [Heq|Hne'].
  { exfalso. apply Hne. by rewrite (bool_decide_eq_true_2 _ Heq). }
  rewrite (bool_decide_eq_false_2 _ Hne'). cbv iota.
  destruct (il_rows _ _ _ _ _ _ Hports q Hq) as [|(x & u & Hx & Hf & ->)]; [by left|right].
  split; [done|]. apply elem_of_cons in Hx as [->|Hx]; [done|].
  apply list_elem_of_fmap in Hx as (dbc & -> & Hc). rewrite Forall_forall in Hips.
  destruct (keldaIP_mac _ (Hips dbc Hc)) as (a & Ha & Hip & Hmac). exists a, u. split; [done|].
  unfold newPort, portOf, macOf. simpl. rewrite Hmac. by rewrite Hip.
Qed.

(** The router's port, whatever its addresses. *)
Lemma arpPorts_router lbs cs old ports p :
  in_line sp_Name sp_Name newPort (routerSwitchPort :: (portOf <$> cs)) old ports →
  Forall (λ c, keldaIP (c_IP c)) cs → p ∈ arpPorts lbs ports → sp_Name p = loadBalancerSwitchPort →
  (∃ q, q ∈ old ∧ sp_Name q = sp_Name p ∧ sp_Type p = sp_Type q ∧ sp_Options p = sp_Options q) ∨
  (sp_Name p ∉ sp_Name <$> old ∧
   sp_Type p = "router" ∧ sp_Options p = {["router-port" := "loadBalancerRouterPort"]}).
Proof.
  intros Hports Hips (q & -> & Hq)%list_elem_of_fmap Hn.
  assert (sp_Name q = loadBalancerSwitchPort) as Hname by (revert Hn; by case_bool).
  rewrite (bool_decide_eq_true_2 _ Hname). cbv iota. simpl.
  destruct (il_rows _ _ _ _ _ _ Hports q Hq) as [Hold|(x & u & Hx & Hf & ->)].
  { left. by exists q. }
  right. split; [exact Hf|]. apply elem_of_cons in Hx as [->|Hx]; [done|].
  apply list_elem_of_fmap in Hx as (dbc & -> & Hc). rewrite Forall_forall in Hips.
  destruct (keldaIP_shape _ (Hips dbc Hc)) as (x & y & z & _ & _ & _ & Hip).
  simpl in Hname. rewrite Hip in Hname. discriminate Hname.
Qed.

Lemma arpPorts_names lbs ports : sp_Name <$> arpPorts lbs ports = sp_Name <$> ports.
Proof.
  unfold arpPorts. rewrite <-list_fmap_compose. apply list_fmap_ext. intros i p _. simpl. by case_bool.
Qed.

(** *** The load balancers and their addresses *)

Lemma targetIPs_backends hosts lb : backends hosts lb (targetIPs hosts lb).
Proof.
  unfold targetIPs. split; [apply Sorted_merge_sort, _|]. rewrite Strings_sort_perm. apply Permutation_refl'.
  induction (lb_Hostnames lb) as [|h l IH]; [done|]. csimpl. destruct (hosts !! h) as [ip|]; simpl; [|exact IH].
  case_decide; [f_equal|]; exact IH.
Qed.

Lemma backends_unique hosts lb ips : backends hosts lb ips → ips = targetIPs hosts lb.
Proof.
  intros [Hs Hp]. destruct (targetIPs_backends hosts lb) as [Hs' Hp'].
  apply (Sorted_unique String.le); [done|done|]. by rewrite Hp, Hp'.
Qed.

Lemma keldaIP_plain c ip : (∀ d, pretty_N_char d ≠ c) → c ≠ "."%char → keldaIP ip → lacks c ip.
Proof.
  intros Hc Hd (h & Hh & ->). unfold IPString.
  assert (∀ i, (0 ≤ byteOf i (h + IPv4 10 0 0 0))%Z) as Hb by (intros i; apply Z.mod_pos_bound; lia).
  rewrite !lacks_app. split_and!; try (by apply lacks_fmtInt_nonneg); (split; [by intros <-|done]).
Qed.

Lemma targetIPs_kelda hosts lb : map_Forall (λ _ ip, keldaIP ip) hosts → Forall keldaIP (targetIPs hosts lb).
Proof.
  intros Hk. destruct (targetIPs_backends hosts lb) as [_ ->]. apply Forall_forall.
  intros ip (_ & (h & _ & Hip)%list_elem_of_omap)%list_elem_of_filter. exact (Hk h ip Hip).
Qed.

(** A row with the key of a load balancer has its addresses. *)
Lemma lbKey_target n hosts lb r :
  map_Forall (λ _ ip, keldaIP ip) hosts → keldaIP (lb_IP lb) →
  lbKey n r = lbKey n (targetLB hosts lb) ↔
  ol_Name r = lb_Name lb ∧ ol_VIPs r = {[lb_IP lb := Join_strings "," (targetIPs hosts lb)]}.
Proof.
  intros Hk Hip. unfold lbKey. simpl. split; [|by intros [-> ->]].
  intros Heq. pose proof (f_equal fst Heq) as Hn. pose proof (f_equal snd Heq) as Hv. simpl in Hn, Hv.
  split; [done|]. pose proof (targetIPs_kelda hosts lb Hk) as Hall.
  assert (∀ c, (∀ d, pretty_N_char d ≠ c) → c ≠ "."%char → lacks c "," →
    lacks c (Join_strings "," (targetIPs hosts lb))) as Hj.
  { intros c Hc Hd Hs. apply lacks_Join_2; [done|]. eapply Forall_impl; [exact Hall|].
    intros ip. by apply keldaIP_plain. }
  assert ((∀ d, pretty_N_char d ≠ " "%char) ∧ (∀ d, pretty_N_char d ≠ "="%char)) as [Hd1 Hd2].
  { split; intros d; unfold pretty_N_char; repeat case_match; done. }
  apply (MapAsString_single n); [by apply keldaIP_plain|apply Hj|by apply keldaIP_plain|apply Hj|exact Hv];
    try done; by repeat split.
Qed.

Lemma lbs_in_line n hosts lbs old new :
  map_Forall (λ _ ip, keldaIP ip) hosts → Forall (λ lb, keldaIP (lb_IP lb)) lbs →
  in_line (lbKey n) (lbKey n) newLB (targetLB hosts <$> lbs) old new →
  NoDup ((λ r, (ol_Name r, ol_VIPs r)) <$> new) ∧
  ∀ name vips, (name, vips) ∈ (λ r, (ol_Name r, ol_VIPs r)) <$> new ↔
    ∃ lb ips, lb ∈ lbs ∧ backends hosts lb ips ∧ name = lb_Name lb ∧ vips = {[lb_IP lb := Join_strings "," ips]}.
Proof.
  intros Hk Hlbs [Hnd Hkeys _]. rewrite Forall_forall in Hlbs. split.
  { eapply (NoDup_fmap_1 (prod_map id (MapAsString n))). by rewrite <-list_fmap_compose. }
  intros name vips. rewrite list_elem_of_fmap. split.
  - intros (r & [= -> ->] & Hr). apply (list_elem_of_fmap_2 (lbKey n)) in Hr. rewrite Hkeys in Hr.
    rewrite <-list_fmap_compose in Hr. apply list_elem_of_fmap in Hr as (lb & Hkey & Hlb).
    apply lbKey_target in Hkey as [Hn Hv]; [|done|auto]. exists lb, (targetIPs hosts lb).
    split_and!; [done|apply targetIPs_backends|done|done].
  - intros (lb & ips & Hlb & ->%backends_unique & -> & ->).
    assert (lbKey n (targetLB hosts lb) ∈ lbKey n <$> new) as (r & Hr & Hin)%list_elem_of_fmap.
    { rewrite Hkeys, <-list_fmap_compose. by apply (list_elem_of_fmap_2 (lbKey n ∘ targetLB hosts)). }
    symmetry in Hr. apply lbKey_target in Hr as [Hn Hv]; [|done|auto]. exists r. by rewrite Hn, Hv.
Qed.

Lemma wp_configure n s (w : W) lbs cs conns (Q : unit → W → Prop) :
  (∀ x, String.length (sha256x x) = 64) → hostsOK (hostsOf s) →
  collisionFree sha256x (hostsOf s) (vals (tbl Connection s)) →
  (∀ c, c ∈ vals (tbl Container s) → c_IP c ≠ "" → keldaIP (c_IP c)) →
  (∀ lb, lb ∈ vals (tbl LoadBalancer s) → lb_IP lb ≠ "" → keldaIP (lb_IP lb)) →
  Forall (ownSet sha256x) (ov_sets (view w)) → keldas_own (view w) →
  lbs ≡ₚ lbsWithIP s → cs ≡ₚ containersWithIP s → conns ≡ₚ vals (tbl Connection s) →
  (∀ w', configured sha256x s (view w) (view w') → Q () w') →
  wp (updateLogicalSwitch n cs ;;; updateLoadBalancerRouter n ;;;
      updateLoadBalancers n lbs (hostsOf s) ;;; updateACLs sha256x n conns (hostsOf s)) w Q.
Proof.
  intros Hlen Hhosts Hcf Hips Hlbips Hown [Hsw Hrt] Hlbs Hcs Hconns HQ.
  assert (Forall (λ c, keldaIP (c_IP c)) cs) as Hkelda.
  { apply Forall_forall. intros c. rewrite Hcs, elem_of_containersWithIP. naive_solver. }
  assert (Forall (λ lb, keldaIP (lb_IP lb)) lbs) as Hlbkelda.
  { apply Forall_forall. intros lb. rewrite Hlbs. unfold lbsWithIP. rewrite list_elem_of_filter. naive_solver. }
  wp_bind. apply wp_updateLogicalSwitch; [done|done|]. intros w1 ports Hv1 Hports.
  wp_bind. apply wp_updateLoadBalancerRouter; [by rewrite Hv1|]. rewrite Hv1.
  intros w2 rports Hv2 Hrports. wp_bind. unfold updateLoadBalancers. wp_bind.
  apply wp_updateLoadBalancerIPs; [rewrite Hv2; by apply sole_new|]. rewrite Hv2. simpl.
  intros w3 ls (refs & Hv3 & Hrefs) Hls. apply wp_updateLoadBalancerARP.
  { rewrite Hv3. simpl. apply (il_keys _ _ _ _ _ _ Hports). csimpl. by left. }
  rewrite Hv3. simpl. intros w4 ports' Hv4 Hports'.
  apply (wp_updateACLs sha256x (hostsOf s) conns); [done| |done|..].
  { intros u v. rewrite !(usedSets_perm _ _ _ _ Hconns). apply Hcf. }
  { rewrite Hv4. by apply sole_new. }
  { by rewrite Hv4. }
  intros w5 acls sets Hv5 Henf. apply HQ.
  assert (sp_Name <$> ports' ≡ₚ sp_Name <$> ports) as Hnames by (by rewrite Hports', arpPorts_names).
  destruct (lbs_in_line n (hostsOf s) lbs _ _ (proj1 Hhosts) Hlbkelda Hls) as [Hlnd Hlin].
  split; try (rewrite Hv5, Hv4; simpl).
  - set_solver.
  - rewrite Hnames. apply Hports.
  - intros name. rewrite Hnames, (il_keys _ _ _ _ _ _ Hports). csimpl. rewrite elem_of_cons.
    apply or_iff_compat_l. rewrite <-list_fmap_compose, list_elem_of_fmap. simpl.
    setoid_rewrite Hcs. setoid_rewrite elem_of_containersWithIP. naive_solver.
  - intros p. rewrite Hports'. by eapply arpPorts_row.
  - intros p. rewrite Hports'. intros (q & -> & Hq)%list_elem_of_fmap.
    case_bool as [Heq|Hne]; [|done]. intros _. simpl. exists (Strings_sort (lb_IP <$> lbs)).
    split_and!; [apply Sorted_merge_sort, _| |done]. rewrite Strings_sort_perm, Hlbs. unfold lbsWithIP.
    by rewrite filter_fmap.
  - intros p. rewrite Hports'. by eapply arpPorts_router.
  - set_solver.
  - pose proof (in_line_singleton _ _ _ _ _ _ Hrports) as Hone. destruct rports as [|p [|]]; try done.
    injection Hone as Hn. exists p. split_and!; [done|done|].
    destruct (il_rows _ _ _ _ _ _ Hrports p) as [|(x & u & Hx & _ & ->)]; [by left|by left|right].
    apply list_elem_of_singleton in Hx as ->. by exists u.
  - intros name vips. rewrite Hlin. setoid_rewrite Hlbs. unfold lbsWithIP.
    setoid_rewrite list_elem_of_filter. naive_solver.
  - done.
  - intros r Hr. unfold attached in Hrefs. rewrite Hv3 in Hrefs. simpl in Hrefs.
    destruct (Hrefs r Hr) as [Ha|[Hin Hk]]; [by left|].
    destruct (decide (("kelda", ol_uuid r) ∈ ov_lbrefs (view w))); auto.
  - rewrite Hv5, Hv4 in Henf. simpl in Henf. by eapply enforced_perm.
Qed.
End steps.

(** ** Properties *)


(** *** On a concrete database and OVN *)

(** A stand-in for SHA-256: the first bytes, padded. *)
Fixpoint padTo (n : nat) (s : string) : string :=
  match n, s with
  | 0, _ => ""
  | S n', EmptyString => String "0" (padTo n' "")
  | S n', String c s' => String c (padTo n' s')
  end.

Lemma length_padTo n s : String.length (padTo n s) = n.
Proof. revert s. induction n as [|n IH]; intros [|c s]; simpl; auto. Qed.

Definition demo_container (id : Z) (ip host : string) : Container :=
  mk_Container id ip "" host "" "" [] ∅ ∅ host 0 false [] "" "".

Definition demo_master : store :=
  storeOf [REtcd (mk_Etcd 1 [] true ""); RLoadBalancer (mk_LoadBalancer 2 "web" "10.0.1.1" ["a"; "b"]);
           RContainer (demo_container 3 "10.0.0.3" "a"); RContainer (demo_container 4 "10.0.0.4" "b");
           RContainer (demo_container 5 "10.0.0.5" "c"); RContainer (demo_container 6 "" "new");
           RHostname (mk_Hostname 7 "a" "10.0.0.3"); RHostname (mk_Hostname 8 "b" "10.0.0.4");
           RHostname (mk_Hostname 9 "c" "10.0.0.5"); RHostname (mk_Hostname 10 "web" "10.0.1.1");
           RConnection (mk_Connection 11 ["a"; "b"; "public"] ["c"] 80 80);
           RConnection (mk_Connection 12 ["c"; "nobody"] ["b"; "a"] 1 2);
           RConnection (mk_Connection 13 ["public"] ["a"] 80 80);
           RConnection (mk_Connection 14 ["a"] ["c"; "public"] 443 444)].

(** The client on a simulated OVSDB server, with a switch that has a port of a
    container, a stale port and a stale ACL. *)
Definition demo_ovn : simServer :=
  mk_simServer (mk_nbdb {["u1" := mk_lsRow lSwitch {["u2"; "u3"]} {["u4"]} ∅]}
    {["u2" := mk_lspRow "10.0.0.3" "" ["02:00:0a:00:00:03 10.0.0.3"] ∅; "u3" := mk_lspRow "10.0.0.9" "" [] ∅]}
    ∅ ∅ {["u4" := mk_acRow (mk_ACLCore 1 "to-lport" "old" "allow") false]} ∅ ∅) eq_refl.

#[local] Existing Instance client_laws.

#[local] Instance demo_only_v4 : ParseIPv6 := { parseIPv6 _ := None }.

Definition kelda_h (ip : string) : Z :=
  match parseIPv4 ip with Some a => (a - IPv4 10 0 0 0)%Z | None => (-1)%Z end.

Lemma keldaIP_check ip :
  bool_decide ((0 ≤ kelda_h ip < 2 ^ 24)%Z ∧ ip = IPString (kelda_h ip + IPv4 10 0 0 0)) = true → keldaIP ip.
Proof. intros [??]%bool_decide_eq_true. by exists (kelda_h ip). Qed.

Lemma demo_hosts_ok : hostsOK (hostsOf demo_master).
Proof.
  split.
  - assert (map_Forall (λ _ ip, bool_decide ((0 ≤ kelda_h ip < 2 ^ 24)%Z ∧
      ip = IPString (kelda_h ip + IPv4 10 0 0 0)) = true) (hostsOf demo_master)) as Hd by vm_decide.
    intros h ip Hip. apply keldaIP_check. exact (Hd h ip Hip).
  - assert (map_Forall (λ h ip, map_Forall (λ h' ip', ip = ip' → h = h') (hostsOf demo_master))
      (hostsOf demo_master)) as Hd by vm_decide.
    intros h h' ip Hh Hh'. exact (Hd h ip Hh h' ip Hh' eq_refl).
Qed.

Lemma kelda_check {A} (f : A → string) (l : list A) :
  Forall (λ x, f x ≠ "" → bool_decide ((0 ≤ kelda_h (f x) < 2 ^ 24)%Z ∧
      f x = IPString (kelda_h (f x) + IPv4 10 0 0 0)) = true) l →
  ∀ x, x ∈ l → f x ≠ "" → keldaIP (f x).
Proof. rewrite Forall_forall. intros Hd x Hx Hne. apply keldaIP_check. exact (Hd x Hx Hne). Qed.

Lemma demo_backends ips :
  backends (hostsOf demo_master) (mk_LoadBalancer 2 "web" "10.0.1.1" ["a"; "b"]) ips → ips = ["10.0.0.3"; "10.0.0.4"].
Proof. intros ->%backends_unique. vm_compute. reflexivity. Qed.

(** The rows of the example after the round. *)
Definition demo_rows (o : ovn) : Prop :=
  (∃ u, mk_SwitchPort u "10.0.0.4" "" ["02:00:0a:00:00:04 10.0.0.4"] ∅ ∈ ov_ports o) ∧
  "10.0.0.9" ∉ sp_Name <$> ov_ports o ∧
  (∃ u, mk_SwitchPort u "loadBalancerSwitchPort" "router" ["02:00:0a:00:00:02 10.0.1.1"]
     {["router-port" := "loadBalancerRouterPort"]} ∈ ov_ports o) ∧
  (∃ u, ov_rports o = [mk_RouterPort u "loadBalancerRouterPort" "02:00:0a:00:00:02" ["10.0.0.0/8"]]) ∧
  (∃ u, ov_lbs o = [mk_ovnLoadBalancer u "web" {["10.0.1.1" := "10.0.0.3,10.0.0.4"]}] ∧ ("kelda", u) ∈ ov_lbrefs o) ∧
  mk_ACLCore 0 "to-lport" "ip" "drop" ∈ acl_Core <$> ov_acls o ∧
  mk_ACLCore 1 "to-lport" "old" "allow" ∉ acl_Core <$> ov_acls o ∧
  mk_ACLCore 1 "from-lport" "((ip4.src == 10.0.0.3 && ip4.dst == 10.0.0.5 && (443 <= udp.dst <= 444 || 443 <= tcp.dst <= 444)) || (ip4.src == 10.0.0.5 && ip4.dst == 10.0.0.3 && (443 <= udp.src <= 444 || 443 <= tcp.src <= 444)))" "allow"
    ∈ acl_Core <$> ov_acls o ∧
  mk_ACLCore 1 "to-lport" "(ip4.src == 10.0.0.3 && ip4.dst == 10.0.0.5 && icmp)" "allow-related"
    ∈ acl_Core <$> ov_acls o.

(** A port that was not there before. *)
Lemma demo_port o : configured (padTo 64) demo_master (view demo_ovn) o →
  ∃ u, mk_SwitchPort u "10.0.0.4" "" ["02:00:0a:00:00:04 10.0.0.4"] ∅ ∈ ov_ports o.
Proof.
  intros Hc. assert ("10.0.0.4" ∈ sp_Name <$> ov_ports o) as (p & Hn & Hp)%list_elem_of_fmap.
  { apply (cf_ports _ _ _ _ Hc). right. exists (demo_container 4 "10.0.0.4" "b"). split; [vm_decide|done]. }
  destruct (cf_port _ _ _ _ Hc p Hp) as [Hin|(_ & a & u & Ha & ->)]; [by rewrite <-Hn| |].
  { exfalso. apply (list_elem_of_fmap_2 sp_Name) in Hin. rewrite <-Hn in Hin. revert Hin. vm_decide. }
  exists u. simpl in Hn. pose proof (ParseIP_String a Ha) as Hparse. rewrite <-Hn in Hp, Hparse.
  assert (a = 167772164%Z) as -> by (injection Hparse; intros <-; reflexivity). exact Hp.
Qed.

Lemma demo_router_port o : configured (padTo 64) demo_master (view demo_ovn) o →
  ∃ u, mk_SwitchPort u "loadBalancerSwitchPort" "router" ["02:00:0a:00:00:02 10.0.1.1"]
    {["router-port" := "loadBalancerRouterPort"]} ∈ ov_ports o.
Proof.
  intros Hc. assert ("loadBalancerSwitchPort" ∈ sp_Name <$> ov_ports o) as (p & Hn & Hp)%list_elem_of_fmap.
  { apply (cf_ports _ _ _ _ Hc). by left. }
  destruct (cf_arp _ _ _ _ Hc p Hp (eq_sym Hn)) as (ips & _ & Hips & Haddr).
  change (ips ≡ₚ ["10.0.1.1"]) in Hips. apply Permutation_singleton_r in Hips as ->.
  destruct (cf_router_port _ _ _ _ Hc p Hp (eq_sym Hn)) as [(q & Hq & Hqn & _)|(_ & Ht & Ho)].
  { exfalso. apply (list_elem_of_fmap_2 sp_Name) in Hq. rewrite Hqn, <-Hn in Hq. revert Hq. vm_decide. }
  destruct p as [u nm t a o']. simpl in *. subst. exists u. exact Hp.
Qed.

Lemma demo_lb o : configured (padTo 64) demo_master (view demo_ovn) o →
  ∃ u, ov_lbs o = [mk_ovnLoadBalancer u "web" {["10.0.1.1" := "10.0.0.3,10.0.0.4"]}] ∧ ("kelda", u) ∈ ov_lbrefs o.
Proof.
  intros Hc. pose proof (cf_lbs _ _ _ _ Hc) as Hl. pose proof (cf_lbs_nodup _ _ _ _ Hc) as Hnd.
  assert (∀ x, x ∈ (λ r, (ol_Name r, ol_VIPs r)) <$> ov_lbs o ↔ x ∈ [("web", {["10.0.1.1" := "10.0.0.3,10.0.0.4"]})]) as Hx.
  { assert (vals (tbl LoadBalancer demo_master) = [mk_LoadBalancer 2 "web" "10.0.1.1" ["a"; "b"]]) as Hv by (vm_compute; reflexivity).
    intros [name vips]. rewrite Hl, Hv, list_elem_of_singleton. setoid_rewrite list_elem_of_singleton. split.
    - by intros (lb & ips & -> & _ & ->%demo_backends & -> & ->).
    - intros [= -> ->]. eexists _, _. split_and!; [done|done|apply targetIPs_backends|done|].
      vm_compute. reflexivity. }
  assert ((λ r, (ol_Name r, ol_VIPs r)) <$> ov_lbs o ≡ₚ [("web", {["10.0.1.1" := "10.0.0.3,10.0.0.4"]})]) as Hp.
  { by apply NoDup_Permutation; [|apply NoDup_singleton|]. }
  apply Permutation_singleton_r in Hp. destruct (ov_lbs o) as [|[u nm v] [|]] eqn:Hlbs; try done.
  injection Hp as -> ->. exists u. split; [done|].
  destruct (cf_attached _ _ _ _ Hc (mk_ovnLoadBalancer u "web" {["10.0.1.1" := "10.0.0.3,10.0.0.4"]})) as [|[Hin _]];
    [rewrite Hlbs; by left|done|]. by apply elem_of_nil in Hin.
Qed.

