(* ===== verification/Openflow.v ===== *)
(** * Package openflow: the flows of the Kelda bridge

    [src/minion/network/openflow]: which OpenFlow rules the worker installs for
    its containers ([openflow.go]), and how they are computed from the database
    ([run.go]).  The command [ovs-ofctl] is a class; the flows are the very
    strings that are passed to it.

    The long comment of the source describes the tables as pseudocode; it is
    translated here as [pipeline], a function from packets to the ports they
    leave by.  [flow] and [forwards] give the strings their meaning, as
    documented in ovs-fields(7) and in the same comment: a packet starts at
    table 0, takes the matching flow of highest priority (any one of them on a
    tie, none drops the packet) and executes its actions.  [flows_implement_pipeline]
    shows that what is installed does what the comment says. *)

From S2P Require Import Prelude GoStrings Join Blueprint DbRows Db DbSpec DbTxn DbFrame Engine GoNet Ip Ovn.

(** [openflow.Container] *)
Record ofContainer := mk_ofContainer {
  Veth : string;
  Patch : string;
  Mac : string;
  of_IP : string;
  ToPub : gset Z;
  FromPub : gset Z;
}.

(** The private [container], with port numbers resolved *)
Record portContainer := mk_portContainer { pc : ofContainer; vethPort : Z; patchPort : Z }.

(** [ipdef.GatewayMac] and the text of [ipdef.GatewayIP] *)
Definition GatewayMac : string := match IPToMac (IP4 GatewayIP) with Ok m => m | Panic _ => "" end.
Definition GatewayIPString : string := IPString GatewayIP.

(** [%x] on an [int] of 64 bits *)
Fixpoint hexLoop (fuel : nat) (z : Z) (acc : string) : string :=
  match fuel with
  | 0 => acc
  | S fuel' =>
    let acc := hexDigit (z mod 16) +:+ acc in
    if bool_decide (z / 16 = 0)%Z then acc else hexLoop fuel' (z / 16)%Z acc
  end.
Definition fmtHex (z : Z) : string :=
  if bool_decide (z < 0)%Z then "-" +:+ hexLoop 16 (- z) "" else hexLoop 16 z "".

Definition staticFlows : list string := [
  "table=0,priority=1000,in_port=LOCAL,actions=resubmit(,2)";
  "table=1,priority=1000,arp,dl_dst=ff:ff:ff:ff:ff:ff,actions=output:LOCAL,output:NXM_NX_REG0[]";
  "table=1,priority=900,dl_dst=" +:+ GatewayMac +:+ ",actions=resubmit(,3)";
  "table=1,priority=800,actions=output:NXM_NX_REG0[]";
  "table=3,priority=1000,ip,nw_dst=" +:+ GatewayIPString +:+ ",actions=output:LOCAL";
  "table=3,priority=900,arp,actions=output:LOCAL"].

(** The format strings [table2] and [table3], before and after they change. *)
Definition table2To (proto mac ip : string) (port veth : Z) : string :=
  "table=2,priority=500," +:+ proto +:+ ",dl_dst=" +:+ mac +:+ ",ip_dst=" +:+ ip +:+
  ",tp_src=" +:+ fmtInt port +:+ ",actions=output:" +:+ fmtInt veth.
Definition table3To (proto mac ip : string) (port : Z) : string :=
  "table=3,priority=500," +:+ proto +:+ ",dl_src=" +:+ mac +:+ ",ip_src=" +:+ ip +:+
  ",tp_dst=" +:+ fmtInt port +:+ ",actions=output:LOCAL".
Definition table2From (proto mac ip : string) (port veth : Z) : string :=
  "table=2,priority=500," +:+ proto +:+ ",dl_dst=" +:+ mac +:+ ",ip_dst=" +:+ ip +:+
  ",tp_dst=" +:+ fmtInt port +:+ ",actions=output:" +:+ fmtInt veth.
Definition table3From (proto mac ip : string) (port : Z) : string :=
  "table=3,priority=500," +:+ proto +:+ ",dl_src=" +:+ mac +:+ ",ip_src=" +:+ ip +:+
  ",tp_src=" +:+ fmtInt port +:+ ",actions=output:LOCAL".

Definition toPubFlows (c : portContainer) (to : Z) : list string :=
  let mac := Mac (pc c) in let ip := of_IP (pc c) in
  [table2To "tcp" mac ip to (vethPort c); table2To "udp" mac ip to (vethPort c);
   table3To "tcp" mac ip to; table3To "udp" mac ip to].
Definition fromPubFlows (c : portContainer) (from : Z) : list string :=
  let mac := Mac (pc c) in let ip := of_IP (pc c) in
  [table2From "tcp" mac ip from (vethPort c); table2From "udp" mac ip from (vethPort c);
   table3From "tcp" mac ip from; table3From "udp" mac ip from].

Definition containerFlows `{MapOrder} (n : nat) (c : portContainer) : list string :=
  ["table=0,in_port=" +:+ fmtInt (vethPort c) +:+ ",dl_src=" +:+ Mac (pc c) +:+
     ",actions=load:0x" +:+ fmtHex (patchPort c) +:+ "->NXM_NX_REG0[],resubmit(,1)";
   "table=0,in_port=" +:+ fmtInt (patchPort c) +:+ ",actions=output:" +:+ fmtInt (vethPort c);
   "table=2,priority=900,arp,dl_dst=" +:+ Mac (pc c) +:+ ",action=output:" +:+ fmtInt (vethPort c);
   "table=2,priority=800,ip,dl_dst=" +:+ Mac (pc c) +:+ ",nw_src=" +:+ GatewayIPString +:+
     ",action=output:" +:+ fmtInt (vethPort c)] ++
  concat (toPubFlows c <$> range_set n (ToPub (pc c))) ++
  concat (fromPubFlows c <$> range_set n (FromPub (pc c))).

Definition allContainerFlows `{MapOrder} (n : nat) (containers : list portContainer) : list string :=
  concat (containerFlows n <$> containers).

Definition allFlows `{MapOrder} (n : nat) (containers : list portContainer) : list string :=
  let gatewayBroadcastActions := (λ c, "output:" +:+ fmtInt (vethPort c)) <$> containers in
  (staticFlows ++ allContainerFlows n containers) ++
  ["table=2,priority=1000,dl_dst=ff:ff:ff:ff:ff:ff,actions=" +:+ Join_strings "," gatewayBroadcastActions].

Fixpoint resolveContainers (portMap : gmap string Z) (containers : list ofContainer) : list portContainer :=
  match containers with
  | [] => []
  | c :: rest =>
    match portMap !! Veth c, portMap !! Patch c with
    | Some veth, Some patch => mk_portContainer c veth patch :: resolveContainers portMap rest
    | _, _ => resolveContainers portMap rest
    end
  end.

(** [ofctl], the command [ovs-ofctl] *)
Class Ofctl (W : Type) := ofctl : string → list string → M W (result unit).

Section flows.
Context `{MapOrder} {W : Type} `{OvsdbClient W} `{Ofctl W}.

Definition openflowPorts : M W (result (gmap string Z)) :=
  let! r := Open in
  match r with
  | Err e => mret (Err ("ovsdb-server connection: " +:+ e))
  | Val _ => let! ports := OpenFlowPorts in Disconnect ;;; mret ports
  end.

Definition replaceFlows (n : nat) (containers : list ofContainer) : M W (result unit) :=
  let! ofports := openflowPorts in
  match ofports with
  | Err e => mret (Err e)
  | Val ofports =>
    let flows := allFlows n (resolveContainers ofports containers) in
    let! diff := ofctl "diff-flows" flows in
    match diff with
    | Err _ =>
      let! r := ofctl "replace-flows" flows in
      match r with
      | Err e => mret (Err ("ovs-ofctl: " +:+ e))
      | Val _ => mret (Val ())
      end
    | Val _ => mret (Val ())
    end
  end.

Definition AddFlows (n : nat) (containers : list ofContainer) : M W (result unit) :=
  let! ofports := openflowPorts in
  match ofports with
  | Err e => mret (Err e)
  | Val ofports =>
    let flows := allContainerFlows n (resolveContainers ofports containers) in
    let! r := ofctl "add-flows" flows in
    match r with
    | Err e => mret (Err ("ovs-ofctl: " +:+ e))
    | Val _ => mret (Val ())
    end
  end.
End flows.

(** ** The containers, from the database *)

(** The maps [fromPubPorts] and [toPubPorts]. *)
Definition pubPorts : Type := gmap string (list Z) * gmap string (list Z).

Definition appendPort (port : Z) (m : gmap string (list Z)) (h : string) : gmap string (list Z) :=
  <[h := default [] (m !! h) ++ [port]]> m.

(** The body of the three nested loops. *)
Definition pubPair (conn : Connection) (from : string) (ports : pubPorts) (to : string) : pubPorts :=
  if bool_decide (from ≠ PublicInternetLabel) && bool_decide (to ≠ PublicInternetLabel) then ports
  else if bool_decide (cn_MinPort conn ≠ cn_MaxPort conn) then ports
  else
    let '(fromPubPorts, toPubPorts) := ports in
    (if bool_decide (from = PublicInternetLabel) then appendPort (cn_MinPort conn) fromPubPorts to else fromPubPorts,
     if bool_decide (to = PublicInternetLabel) then appendPort (cn_MinPort conn) toPubPorts from else toPubPorts).

Definition pubPortsOf (conns : list Connection) : pubPorts :=
  foldl (λ ports conn, foldl (λ ports from, foldl (pubPair conn from) ports (cn_To conn)) ports (cn_From conn))
    (∅, ∅) conns.

Section run.
Context `{MapOrder} `{ParseIPv6}.

Definition openflowContainer (ports : pubPorts) (dbc : Container) : outcome ofContainer :=
  let '(_, peerKelda) := PatchPorts (c_IP dbc) in
  mac ← IPStrToMac (c_IP dbc);
  Ok (mk_ofContainer (IFName (c_IP dbc)) peerKelda mac (c_IP dbc)
    (list_to_set (default [] (ports.2 !! c_Hostname dbc)))
    (list_to_set (default [] (ports.1 !! c_Hostname dbc)))).

Fixpoint openflowContainersLoop (ports : pubPorts) (dbcs : list Container) : outcome (list ofContainer) :=
  match dbcs with
  | [] => Ok []
  | dbc :: rest => ofc ← openflowContainer ports dbc; ofcs ← openflowContainersLoop ports rest; Ok (ofc :: ofcs)
  end.

Definition openflowContainers (dbcs : list Container) (conns : list Connection) : outcome (list ofContainer) :=
  openflowContainersLoop (pubPortsOf conns) dbcs.

Definition readOpenflow (myIP : string) (view : Database) : M store (list Connection * list Container) :=
  let! conns := SelectFrom view None in
  let! dbcs := SelectFrom view (Some (λ dbc, bool_decide (c_IP dbc ≠ "") && bool_decide (c_Minion dbc = myIP))) in
  mret (conns, dbcs).

Definition openflowTables : list string := [ConnectionTable; ContainerTable].

Context {W : Type} `{OvsdbClient W} `{Ofctl W}.

Definition updateOpenflow (n : nat) (myIP : string) : M (store * W) unit :=
  let! (conns, dbcs) := onFst (Run openflowTables (readOpenflow myIP)) in
  let! ofcs := lift (openflowContainers dbcs conns) in
  onSnd (replaceFlows n ofcs) ;;;
  mret ().

(** One turn of the loop of [Run]. *)
Definition runOpenflowOnce (n : nat) : M (store * W) unit :=
  let! self := onFst connMinionSelf in
  if bool_decide (mi_PrivateIP self ≠ "") then updateOpenflow n (mi_PrivateIP self) else mret ().
End run.

(** ** What flows mean *)

Inductive transport := TCP | UDP.
#[export] Instance transport_eq_dec : EqDecision transport.
Proof. solve_decision. Defined.

(** What a flow looks at. *)
Inductive field :=
  | InPort (p : Z)
  | InLocal
  | DlSrc (mac : string)
  | DlDst (mac : string)
  | IsArp
  | IsIp
  | IsProto (t : transport)
  | NwSrc (ip : string)
  | NwDst (ip : string)
  | IpSrc (ip : string)
  | IpDst (ip : string)
  | TpSrc (p : Z)
  | TpDst (p : Z).

Inductive ofaction :=
  | Output (p : Z)
  | OutputLocal
  | OutputReg0
  | LoadReg0 (p : Z)
  | Resubmit (table : Z).

(** [fl_word] is the word before the actions, which [ovs-ofctl] accepts in the
    singular too. *)
Record flow := mk_flow {
  fl_table : Z;
  fl_priority : option Z;
  fl_match : list field;
  fl_word : string;
  fl_actions : list ofaction;
}.

(** *** Their text *)

Definition transportText (t : transport) : string := match t with TCP => "tcp" | UDP => "udp" end.

Definition fieldText (f : field) : string :=
  match f with
  | InPort p => "in_port=" +:+ fmtInt p
  | InLocal => "in_port=LOCAL"
  | DlSrc m => "dl_src=" +:+ m
  | DlDst m => "dl_dst=" +:+ m
  | IsArp => "arp"
  | IsIp => "ip"
  | IsProto t => transportText t
  | NwSrc i => "nw_src=" +:+ i
  | NwDst i => "nw_dst=" +:+ i
  | IpSrc i => "ip_src=" +:+ i
  | IpDst i => "ip_dst=" +:+ i
  | TpSrc p => "tp_src=" +:+ fmtInt p
  | TpDst p => "tp_dst=" +:+ fmtInt p
  end.

Definition actionText (a : ofaction) : string :=
  match a with
  | Output p => "output:" +:+ fmtInt p
  | OutputLocal => "output:LOCAL"
  | OutputReg0 => "output:NXM_NX_REG0[]"
  | LoadReg0 p => "load:0x" +:+ fmtHex p +:+ "->NXM_NX_REG0[]"
  | Resubmit t => "resubmit(," +:+ fmtInt t +:+ ")"
  end.

Definition flowText (f : flow) : string :=
  "table=" +:+ fmtInt (fl_table f) +:+
  match fl_priority f with Some p => ",priority=" +:+ fmtInt p | None => "" end +:+
  foldr (λ x s, "," +:+ fieldText x +:+ s) "" (fl_match f) +:+
  "," +:+ fl_word f +:+ "=" +:+ Join_strings "," (actionText <$> fl_actions f).

(** *** Their effect *)

Inductive port := Local | Phys (p : Z).
#[export] Instance port_eq_dec : EqDecision port.
Proof. solve_decision. Defined.

Inductive payload :=
  | Arp
  | Ip (src dst : string) (l4 : option (transport * Z * Z))
  | OtherPayload.

(** [l4]: the transport, source port and destination port. *)
Record packet := mk_packet { in_port : port; dl_src : string; dl_dst : string; contents : payload }.

Definition fieldMatches (f : field) (p : packet) : bool :=
  match f with
  | InPort n => bool_decide (in_port p = Phys n)
  | InLocal => bool_decide (in_port p = Local)
  | DlSrc m => bool_decide (dl_src p = m)
  | DlDst m => bool_decide (dl_dst p = m)
  | IsArp => match contents p with Arp => true | _ => false end
  | IsIp => match contents p with Ip _ _ _ => true | _ => false end
  | IsProto t => match contents p with Ip _ _ (Some (t', _, _)) => bool_decide (t' = t) | _ => false end
  | NwSrc i | IpSrc i => match contents p with Ip s _ _ => bool_decide (s = i) | _ => false end
  | NwDst i | IpDst i => match contents p with Ip _ d _ => bool_decide (d = i) | _ => false end
  | TpSrc n => match contents p with Ip _ _ (Some (_, s, _)) => bool_decide (s = n) | _ => false end
  | TpDst n => match contents p with Ip _ _ (Some (_, _, d)) => bool_decide (d = n) | _ => false end
  end.

Definition matches (f : flow) (p : packet) : bool := forallb (λ x, fieldMatches x p) (fl_match f).

(** A flow without a priority has the default one. *)
Definition priority (f : flow) : Z := default 32768%Z (fl_priority f).

(** [f] is a flow the packet may take in a table. *)
Definition selected (flows : list flow) (t : Z) (p : packet) (f : flow) : Prop :=
  f ∈ flows ∧ fl_table f = t ∧ matches f p = true ∧
  ∀ f', f' ∈ flows → fl_table f' = t → matches f' p = true → (priority f' ≤ priority f)%Z.

(** The ports a packet leaves by, from table [t] with [reg0] in the register. *)
Inductive forwards (flows : list flow) (p : packet) : Z → Z → list port → Prop :=
  | fw_drop t reg0 :
      (∀ f, f ∈ flows → fl_table f = t → matches f p = false) → forwards flows p t reg0 []
  | fw_take t reg0 f outs :
      selected flows t p f → performs flows p reg0 (fl_actions f) outs → forwards flows p t reg0 outs
with performs (flows : list flow) (p : packet) : Z → list ofaction → list port → Prop :=
  | pf_nil reg0 : performs flows p reg0 [] []
  | pf_output reg0 n acts outs : performs flows p reg0 acts outs →
      performs flows p reg0 (Output n :: acts) (Phys n :: outs)
  | pf_local reg0 acts outs : performs flows p reg0 acts outs →
      performs flows p reg0 (OutputLocal :: acts) (Local :: outs)
  | pf_reg0 reg0 acts outs : performs flows p reg0 acts outs →
      performs flows p reg0 (OutputReg0 :: acts) (Phys reg0 :: outs)
  | pf_load reg0 n acts outs : performs flows p n acts outs →
      performs flows p reg0 (LoadReg0 n :: acts) outs
  | pf_resubmit reg0 t acts outs1 outs2 : forwards flows p t reg0 outs1 → performs flows p reg0 acts outs2 →
      performs flows p reg0 (Resubmit t :: acts) (outs1 ++ outs2).

(** ** The pseudocode of the source *)

Definition broadcast : string := "ff:ff:ff:ff:ff:ff".

Definition isArp (p : packet) : bool := match contents p with Arp => true | _ => false end.

(** Packets between a container and the public internet that it may exchange
    through the gateway: outbound and inbound. *)
Definition mayLeave (c : portContainer) (p : packet) : bool :=
  match contents p with
  | Ip src _ (Some (_, sport, dport)) =>
    bool_decide (dl_src p = Mac (pc c)) && bool_decide (src = of_IP (pc c)) &&
    (bool_decide (dport ∈ ToPub (pc c)) || bool_decide (sport ∈ FromPub (pc c)))
  | _ => false
  end.
Definition mayEnter (c : portContainer) (p : packet) : bool :=
  match contents p with
  | Ip _ dst (Some (_, sport, dport)) =>
    bool_decide (dst = of_IP (pc c)) &&
    (bool_decide (sport ∈ ToPub (pc c)) || bool_decide (dport ∈ FromPub (pc c)))
  | _ => false
  end.
Definition fromGateway (p : packet) : bool :=
  match contents p with Ip src _ _ => bool_decide (src = GatewayIPString) | _ => false end.
Definition toGateway (p : packet) : bool :=
  match contents p with Ip _ dst _ => bool_decide (dst = GatewayIPString) | _ => false end.

Definition table3 (cs : list portContainer) (p : packet) : list port :=
  if toGateway p then [Local] else if isArp p then [Local]
  else if existsb (λ c, mayLeave c p) cs then [Local] else [].

Definition table1 (cs : list portContainer) (reg0 : Z) (p : packet) : list port :=
  if isArp p && bool_decide (dl_dst p = broadcast) then [Local; Phys reg0]
  else if bool_decide (dl_dst p = GatewayMac) then table3 cs p
  else [Phys reg0].

Definition table2 (cs : list portContainer) (p : packet) : list port :=
  if bool_decide (dl_dst p = broadcast) then (λ c, Phys (vethPort c)) <$> cs
  else
    match filter (λ c, Mac (pc c) = dl_dst p) cs with
    | [] => []
    | c :: _ => if isArp p || fromGateway p || mayEnter c p then [Phys (vethPort c)] else []
    end.

(** Table 0 *)
Definition pipeline (cs : list portContainer) (p : packet) : list port :=
  match in_port p with
  | Local => table2 cs p
  | Phys n =>
    match filter (λ c, vethPort c = n) cs, filter (λ c, patchPort c = n) cs with
    | c :: _, _ => if bool_decide (dl_src p = Mac (pc c)) then table1 cs (patchPort c) p else []
    | [], c :: _ => [Phys (vethPort c)]
    | [], [] => []
    end
  end.

(** ** The flows as data *)

Definition staticSpecs : list flow := [
  mk_flow 0 (Some 1000%Z) [InLocal] "actions" [Resubmit 2];
  mk_flow 1 (Some 1000%Z) [IsArp; DlDst broadcast] "actions" [OutputLocal; OutputReg0];
  mk_flow 1 (Some 900%Z) [DlDst GatewayMac] "actions" [Resubmit 3];
  mk_flow 1 (Some 800%Z) [] "actions" [OutputReg0];
  mk_flow 3 (Some 1000%Z) [IsIp; NwDst GatewayIPString] "actions" [OutputLocal];
  mk_flow 3 (Some 900%Z) [IsArp] "actions" [OutputLocal]].

Definition vethSpec (c : portContainer) : flow :=
  mk_flow 0 None [InPort (vethPort c); DlSrc (Mac (pc c))] "actions" [LoadReg0 (patchPort c); Resubmit 1].
Definition patchSpec (c : portContainer) : flow :=
  mk_flow 0 None [InPort (patchPort c)] "actions" [Output (vethPort c)].
Definition arpSpec (c : portContainer) : flow :=
  mk_flow 2 (Some 900%Z) [IsArp; DlDst (Mac (pc c))] "action" [Output (vethPort c)].
Definition gwSpec (c : portContainer) : flow :=
  mk_flow 2 (Some 800%Z) [IsIp; DlDst (Mac (pc c)); NwSrc GatewayIPString] "action" [Output (vethPort c)].
Definition enterSpec (c : portContainer) (t : transport) (tp : field) : flow :=
  mk_flow 2 (Some 500%Z) [IsProto t; DlDst (Mac (pc c)); IpDst (of_IP (pc c)); tp] "actions" [Output (vethPort c)].
Definition leaveSpec (c : portContainer) (t : transport) (tp : field) : flow :=
  mk_flow 3 (Some 500%Z) [IsProto t; DlSrc (Mac (pc c)); IpSrc (of_IP (pc c)); tp] "actions" [OutputLocal].
Definition bcastSpec (cs : list portContainer) : flow :=
  mk_flow 2 (Some 1000%Z) [DlDst broadcast] "actions" ((λ c, Output (vethPort c)) <$> cs).

Definition toPubSpecs (c : portContainer) (to : Z) : list flow :=
  [enterSpec c TCP (TpSrc to); enterSpec c UDP (TpSrc to); leaveSpec c TCP (TpDst to); leaveSpec c UDP (TpDst to)].
Definition fromPubSpecs (c : portContainer) (from : Z) : list flow :=
  [enterSpec c TCP (TpDst from); enterSpec c UDP (TpDst from); leaveSpec c TCP (TpSrc from); leaveSpec c UDP (TpSrc from)].

Lemma staticSpecs_text : flowText <$> staticSpecs = staticFlows.
Proof. vm_compute. reflexivity. Qed.

Section specs.
Context `{MapOrder}.

Definition containerSpecs (n : nat) (c : portContainer) : list flow :=
  [vethSpec c; patchSpec c; arpSpec c; gwSpec c] ++
  concat (toPubSpecs c <$> range_set n (ToPub (pc c))) ++
  concat (fromPubSpecs c <$> range_set n (FromPub (pc c))).

Definition allSpecs (n : nat) (cs : list portContainer) : list flow :=
  (staticSpecs ++ concat (containerSpecs n <$> cs)) ++ [bcastSpec cs].

(** What is passed to [ovs-ofctl] is their text. *)
Lemma concat_fmap_text {A} (f : A → list flow) (g : A → list string) l :
  (∀ x, flowText <$> f x = g x) → flowText <$> concat (f <$> l) = concat (g <$> l).
Proof.
  intros Hfg. induction l as [|x l IH]; [done|]. csimpl. by rewrite fmap_app, IH, Hfg.
Qed.

Lemma toPub_text c to : flowText <$> toPubSpecs c to = toPubFlows c to.
Proof.
  unfold toPubSpecs, toPubFlows. cbn [fmap list_fmap]. unfold flowText, table2To, table3To. cbn -[fmtInt].
  by rewrite !app_nil_s, !app_assoc_s.
Qed.

Lemma fromPub_text c from : flowText <$> fromPubSpecs c from = fromPubFlows c from.
Proof.
  unfold fromPubSpecs, fromPubFlows. cbn [fmap list_fmap]. unfold flowText, table2From, table3From. cbn -[fmtInt].
  by rewrite !app_nil_s, !app_assoc_s.
Qed.

Lemma containerSpecs_text n c : flowText <$> containerSpecs n c = containerFlows n c.
Proof.
  unfold containerSpecs, containerFlows. rewrite !fmap_app.
  rewrite (concat_fmap_text _ (toPubFlows c)) by apply toPub_text.
  rewrite (concat_fmap_text _ (fromPubFlows c)) by apply fromPub_text. f_equal.
  cbn [fmap list_fmap]. unfold flowText. cbn -[fmtInt fmtHex GatewayIPString].
  by rewrite !app_nil_s, !app_assoc_s.
Qed.

Lemma allSpecs_text n cs : flowText <$> allSpecs n cs = allFlows n cs.
Proof.
  unfold allSpecs, allFlows. cbv zeta. rewrite !fmap_app, staticSpecs_text.
  f_equal; [f_equal|].
  - apply concat_fmap_text, containerSpecs_text.
  - cbn [fmap list_fmap]. unfold flowText. cbn [bcastSpec fl_actions].
    by rewrite <-list_fmap_compose.
Qed.
End specs.

(** ** The flows of each table *)

Inductive containerFlow (c : portContainer) : flow → Prop :=
  | cfl_veth : containerFlow c (vethSpec c)
  | cfl_patch : containerFlow c (patchSpec c)
  | cfl_arp : containerFlow c (arpSpec c)
  | cfl_gw : containerFlow c (gwSpec c)
  | cfl_enter_to t p : p ∈ ToPub (pc c) → containerFlow c (enterSpec c t (TpSrc p))
  | cfl_leave_to t p : p ∈ ToPub (pc c) → containerFlow c (leaveSpec c t (TpDst p))
  | cfl_enter_from t p : p ∈ FromPub (pc c) → containerFlow c (enterSpec c t (TpDst p))
  | cfl_leave_from t p : p ∈ FromPub (pc c) → containerFlow c (leaveSpec c t (TpSrc p)).

Lemma elem_of_containerSpecs `{MapOrder} n c f : f ∈ containerSpecs n c ↔ containerFlow c f.
Proof.
  unfold containerSpecs. rewrite !elem_of_app, !elem_of_concat. split.
  - intros [Hf|[(l & (p & -> & Hp)%list_elem_of_fmap & Hf)|(l & (p & -> & Hp)%list_elem_of_fmap & Hf)]].
    + repeat (apply elem_of_cons in Hf as [->|Hf]; [constructor|]). by apply elem_of_nil in Hf.
    + apply elem_of_range_set in Hp.
      repeat (apply elem_of_cons in Hf as [->|Hf]; [by constructor|]). by apply elem_of_nil in Hf.
    + apply elem_of_range_set in Hp.
      repeat (apply elem_of_cons in Hf as [->|Hf]; [by constructor|]). by apply elem_of_nil in Hf.
  - assert (∀ t : transport, t = TCP ∨ t = UDP) as Ht by (intros []; auto).
    intros [| | | |t p Hp|t p Hp|t p Hp|t p Hp]; [left; set_solver..| | | |].
    1,2: right; left; exists (toPubSpecs c p); split;
      [apply list_elem_of_fmap_2, elem_of_range_set, Hp|destruct (Ht t) as [->| ->]; set_solver].
    1,2: right; right; exists (fromPubSpecs c p); split;
      [apply list_elem_of_fmap_2, elem_of_range_set, Hp|destruct (Ht t) as [->| ->]; set_solver].
Qed.

Lemma elem_of_allSpecs `{MapOrder} n cs f :
  f ∈ allSpecs n cs ↔ f ∈ staticSpecs ∨ (∃ c, c ∈ cs ∧ containerFlow c f) ∨ f = bcastSpec cs.
Proof.
  unfold allSpecs. rewrite !elem_of_app, list_elem_of_singleton, elem_of_concat.
  setoid_rewrite list_elem_of_fmap. split.
  - intros [[?|(l & (c & -> & Hc) & Hf)]|?]; [tauto| |tauto].
    right. left. exists c. by rewrite <-(elem_of_containerSpecs n).
  - intros [?|[(c & Hc & Hf)|?]]; [tauto| |tauto].
    left. right. exists (containerSpecs n c). split; [eauto|]. by apply elem_of_containerSpecs.
Qed.

(** *** Choosing a flow *)

Section choose.
Context (flows : list flow) (p : packet).

Lemma forwards_none t reg0 outs :
  (∀ f, f ∈ flows → fl_table f = t → matches f p = false) → forwards flows p t reg0 outs ↔ outs = [].
Proof.
  intros Hno. split.
  - inversion 1 as [|? ? f ? (Hf & Ht & Hm & _) ?]; [done|]. rewrite (Hno f Hf Ht) in Hm. done.
  - intros ->. by constructor.
Qed.

Lemma forwards_top t reg0 f outs :
  f ∈ flows → fl_table f = t → matches f p = true →
  (∀ f', f' ∈ flows → fl_table f' = t → matches f' p = true →
     (priority f' < priority f)%Z ∨ (priority f' = priority f ∧ fl_actions f' = fl_actions f)) →
  forwards flows p t reg0 outs ↔ performs flows p reg0 (fl_actions f) outs.
Proof.
  intros Hf Ht Hm Htop. split.
  - inversion 1 as [? ? Hno|? ? f' ? (Hf' & Ht' & Hm' & Hmax) Hperf]; subst.
    + rewrite (Hno f Hf eq_refl) in Hm. done.
    + destruct (Htop f' Hf' Ht' Hm') as [Hlt|[_ <-]]; [|done].
      specialize (Hmax f Hf eq_refl Hm). lia.
  - intros Hperf. apply (fw_take _ _ _ _ f); [|done]. split_and!; [done..|].
    intros f' Hf' Ht' Hm'. destruct (Htop f' Hf' Ht' Hm') as [?|[-> _]]; lia.
Qed.

Lemma performs_outputs {A} (g : A → Z) (l : list A) reg0 outs :
  performs flows p reg0 ((λ x, Output (g x)) <$> l) outs ↔ outs = (λ x, Phys (g x)) <$> l.
Proof.
  revert outs. induction l as [|x l IH]; intros outs; csimpl; split.
  - by inversion 1.
  - intros ->. constructor.
  - inversion 1; subst. f_equal. by apply IH.
  - intros ->. constructor. by apply IH.
Qed.

Lemma performs_output n reg0 outs : performs flows p reg0 [Output n] outs ↔ outs = [Phys n].
Proof. exact (performs_outputs (λ x : Z, x) [n] reg0 outs). Qed.

Lemma performs_local reg0 outs : performs flows p reg0 [OutputLocal] outs ↔ outs = [Local].
Proof.
  split; [|intros ->; repeat constructor].
  inversion 1 as [| |? ? ? Hr| | |]; subst. by inversion Hr.
Qed.

Lemma performs_reg0 reg0 outs : performs flows p reg0 [OutputReg0] outs ↔ outs = [Phys reg0].
Proof.
  split; [|intros ->; repeat constructor].
  inversion 1 as [| | |? ? ? Hr| |]; subst. by inversion Hr.
Qed.

Lemma performs_local_reg0 reg0 outs :
  performs flows p reg0 [OutputLocal; OutputReg0] outs ↔ outs = [Local; Phys reg0].
Proof.
  split; [|intros ->; repeat constructor].
  inversion 1 as [| |? ? ? Hr| | |]; subst. by apply performs_reg0 in Hr as ->.
Qed.

Lemma performs_resubmit t reg0 outs :
  performs flows p reg0 [Resubmit t] outs ↔ forwards flows p t reg0 outs.
Proof.
  split.
  - inversion 1 as [| | | | |? ? ? ? ? Hf Hr]; subst. inversion Hr. by rewrite app_nil_r.
  - intros Hf. rewrite <-(app_nil_r outs). by repeat constructor.
Qed.

Lemma performs_load n t reg0 outs :
  performs flows p reg0 [LoadReg0 n; Resubmit t] outs ↔ forwards flows p t n outs.
Proof.
  split.
  - inversion 1 as [| | | |? ? ? ? Hr|]; subst. by apply performs_resubmit.
  - intros Hf. constructor. by apply performs_resubmit.
Qed.
End choose.

(** *** Which packets match *)

Lemma leave_matches c p tp t :
  matches (leaveSpec c t tp) p = true ↔
  ∃ dst sport dport, contents p = Ip (of_IP (pc c)) dst (Some (t, sport, dport)) ∧
    dl_src p = Mac (pc c) ∧ fieldMatches tp p = true.
Proof.
  unfold matches, leaveSpec. simpl. rewrite !andb_true_iff, bool_decide_eq_true. split.
  - intros (H1 & H2 & H3 & H4 & _). destruct (contents p) as [|src dst [[[t' s] d]|]|]; try done.
    apply bool_decide_eq_true in H1 as ->. apply bool_decide_eq_true in H3 as ->. eauto 10.
  - intros (dst & s & d & -> & Hm & Ht). split_and!; try done; by apply bool_decide_eq_true.
Qed.

Lemma enter_matches c p tp t :
  matches (enterSpec c t tp) p = true ↔
  ∃ src sport dport, contents p = Ip src (of_IP (pc c)) (Some (t, sport, dport)) ∧
    dl_dst p = Mac (pc c) ∧ fieldMatches tp p = true.
Proof.
  unfold matches, enterSpec. simpl. rewrite !andb_true_iff, bool_decide_eq_true. split.
  - intros (H1 & H2 & H3 & H4 & _). destruct (contents p) as [|src dst [[[t' s] d]|]|]; try done.
    apply bool_decide_eq_true in H1 as ->. apply bool_decide_eq_true in H3 as ->. eauto 10.
  - intros (dst & s & d & -> & Hm & Ht). split_and!; try done; by apply bool_decide_eq_true.
Qed.

Lemma mayLeave_spec c p :
  mayLeave c p = true ↔ ∃ f, containerFlow c f ∧ fl_table f = 3%Z ∧ matches f p = true.
Proof.
  unfold mayLeave. split.
  - destruct (contents p) as [|src dst [[[t s] d]|]|] eqn:Hp; try done.
    rewrite !andb_true_iff, orb_true_iff, !bool_decide_eq_true. intros [[Hm ->] [Hd|Hs]].
    + exists (leaveSpec c t (TpDst d)). split_and!; [by constructor|done|]. apply leave_matches.
      rewrite Hp. simpl. rewrite Hp. exists dst, s, d. split_and!; [done..|]. by apply bool_decide_eq_true.
    + exists (leaveSpec c t (TpSrc s)). split_and!; [by constructor|done|]. apply leave_matches.
      rewrite Hp. simpl. rewrite Hp. exists dst, s, d. split_and!; [done..|]. by apply bool_decide_eq_true.
  - intros (f & [| | | |t q Hq|t q Hq|t q Hq|t q Hq] & Ht & Hm); try discriminate Ht;
      apply leave_matches in Hm as (dst & s & d & Hp & Hmac & Htp); rewrite Hp;
      simpl in Htp; rewrite Hp in Htp; apply bool_decide_eq_true in Htp as ->;
      rewrite !andb_true_iff, orb_true_iff, !bool_decide_eq_true; tauto.
Qed.

Lemma mayEnter_spec c p :
  dl_dst p = Mac (pc c) ∧ mayEnter c p = true ↔
  ∃ f, containerFlow c f ∧ fl_table f = 2%Z ∧ priority f = 500%Z ∧ matches f p = true.
Proof.
  unfold mayEnter. split.
  - destruct (contents p) as [|src dst [[[t s] d]|]|] eqn:Hp; try by intros [_ ?].
    rewrite !andb_true_iff, orb_true_iff, !bool_decide_eq_true. intros [Hm [-> [Hs|Hd]]].
    + exists (enterSpec c t (TpSrc s)). split_and!; [by constructor|done|done|]. apply enter_matches.
      rewrite Hp. simpl. rewrite Hp. exists src, s, d. split_and!; [done..|]. by apply bool_decide_eq_true.
    + exists (enterSpec c t (TpDst d)). split_and!; [by constructor|done|done|]. apply enter_matches.
      rewrite Hp. simpl. rewrite Hp. exists src, s, d. split_and!; [done..|]. by apply bool_decide_eq_true.
  - intros (f & [| | | |t q Hq|t q Hq|t q Hq|t q Hq] & Ht & Hpr & Hm); try discriminate Ht; try discriminate Hpr;
      apply enter_matches in Hm as (src & s & d & Hp & Hmac & Htp); rewrite Hp;
      simpl in Htp; rewrite Hp in Htp; apply bool_decide_eq_true in Htp as ->;
      rewrite !andb_true_iff, orb_true_iff, !bool_decide_eq_true; tauto.
Qed.

(** Ports and MAC addresses tell containers apart. *)
Record distinguished (cs : list portContainer) : Prop := {
  di_ports : NoDup ((vethPort <$> cs) ++ (patchPort <$> cs));
  di_macs : NoDup ((λ c, Mac (pc c)) <$> cs);
  di_mac : ∀ c, c ∈ cs → Mac (pc c) ≠ broadcast;
}.

(** Case analysis on the flows of one table. *)
Ltac static_cases Hf Ht :=
  repeat (apply elem_of_cons in Hf as [->|Hf]; [try discriminate Ht|]); [..|by apply elem_of_nil in Hf].
Ltac table_cases Hf Ht :=
  apply elem_of_allSpecs in Hf as [Hf|[(? & ? & Hf)| ->]];
  [static_cases Hf Ht|destruct Hf; try discriminate Ht|try discriminate Ht].

Section tables.
Context `{MapOrder} (n : nat) (cs : list portContainer) (p : packet).

Lemma in_static f : f ∈ staticSpecs → f ∈ allSpecs n cs.
Proof. intros Hf. apply elem_of_allSpecs. by left. Qed.
Lemma in_container c f : c ∈ cs → containerFlow c f → f ∈ allSpecs n cs.
Proof. intros Hc Hf. apply elem_of_allSpecs. eauto. Qed.

Lemma gateway_matches :
  matches (mk_flow 3 (Some 1000%Z) [IsIp; NwDst GatewayIPString] "actions" [OutputLocal]) p = toGateway p.
Proof. unfold matches, toGateway. cbn [fl_match forallb fieldMatches]. destruct (contents p); simpl; by rewrite ?andb_true_r. Qed.

Lemma arp3_matches : matches (mk_flow 3 (Some 900%Z) [IsArp] "actions" [OutputLocal]) p = isArp p.
Proof. unfold matches, isArp. simpl. by destruct (contents p). Qed.

Lemma table3_actions f : f ∈ allSpecs n cs → fl_table f = 3%Z → fl_actions f = [OutputLocal].
Proof. intros Hf Ht. table_cases Hf Ht; done. Qed.

Lemma table3_ok reg0 outs : forwards (allSpecs n cs) p 3 reg0 outs ↔ outs = table3 cs p.
Proof.
  unfold table3.
  assert (∀ f, f ∈ allSpecs n cs → fl_table f = 3%Z → matches f p = true →
    (∀ f', f' ∈ allSpecs n cs → fl_table f' = 3%Z → matches f' p = true → (priority f' ≤ priority f)%Z) →
    forwards (allSpecs n cs) p 3 reg0 outs ↔ outs = [Local]) as Htop.
  { intros f Hf Ht Hm Hmax. rewrite (forwards_top _ _ 3 reg0 f); [|done|done|done|].
    - rewrite (table3_actions f) by done. apply performs_local.
    - intros f' Hf' Ht' Hm'. pose proof (Hmax f' Hf' Ht' Hm').
      rewrite (table3_actions f), (table3_actions f') by done.
      destruct (decide (priority f' = priority f)); [by right|left; lia]. }
  destruct (toGateway p) eqn:Hg; [|destruct (isArp p) eqn:Ha; [|destruct (existsb _ cs) eqn:Hc]].
  - eapply Htop; [apply in_static; do 4 right; left|done|by rewrite gateway_matches|].
    intros f' Hf' Ht' Hm'. table_cases Hf' Ht'; unfold priority; simpl; lia.
  - eapply Htop; [apply in_static; do 5 right; left|done|by rewrite arp3_matches|].
    intros f' Hf' Ht' Hm'. table_cases Hf' Ht'; unfold priority; simpl; try lia.
    rewrite gateway_matches in Hm'. congruence.
  - apply existsb_exists in Hc as (c & Hc%list_elem_of_In & (f & Hf & Ht & Hm)%mayLeave_spec).
    eapply (Htop f); [by eapply in_container|done|done|].
    assert (priority f = 500%Z) as -> by (by destruct Hf; try discriminate Ht).
    intros f' Hf' Ht' Hm'. table_cases Hf' Ht'; unfold priority; simpl; try lia.
    + rewrite gateway_matches in Hm'. congruence.
    + rewrite arp3_matches in Hm'. congruence.
  - apply forwards_none. intros f Hf Ht. apply not_true_iff_false. intros Hm.
    apply elem_of_allSpecs in Hf as [Hf|[(c & Hc' & Hf)| ->]]; [|..|discriminate Ht].
    + static_cases Hf Ht; [rewrite gateway_matches in Hm|rewrite arp3_matches in Hm]; congruence.
    + assert (existsb (λ c, mayLeave c p) cs = true); [|congruence].
      apply existsb_exists. exists c. split; [by apply list_elem_of_In|]. apply mayLeave_spec. eauto.
Qed.

Lemma table1_ok reg0 outs : forwards (allSpecs n cs) p 1 reg0 outs ↔ outs = table1 cs reg0 p.
Proof.
  unfold table1.
  assert (matches (mk_flow 1 (Some 1000%Z) [IsArp; DlDst broadcast] "actions" [OutputLocal; OutputReg0]) p =
    isArp p && bool_decide (dl_dst p = broadcast)) as M1.
  { unfold matches, isArp. simpl. by rewrite andb_true_r. }
  assert (matches (mk_flow 1 (Some 900%Z) [DlDst GatewayMac] "actions" [Resubmit 3]) p =
    bool_decide (dl_dst p = GatewayMac)) as M2.
  { unfold matches. cbn [fl_match forallb fieldMatches]. by rewrite andb_true_r. }
  destruct (isArp p && _) eqn:Hb; [|destruct (bool_decide (dl_dst p = GatewayMac)) eqn:Hg].
  - etrans; [eapply forwards_top; [apply in_static; do 1 right; left|done|by rewrite M1|]|apply performs_local_reg0].
    intros f' Hf' Ht' Hm'. table_cases Hf' Ht'; unfold priority; simpl; auto; left; lia.
  - etrans; [eapply forwards_top; [apply in_static; do 2 right; left|done|by rewrite M2|]|].
    + intros f' Hf' Ht' Hm'. table_cases Hf' Ht'; unfold priority; simpl; auto; [congruence|left; lia].
    + etrans; [apply performs_resubmit|apply table3_ok].
  - etrans; [eapply forwards_top; [apply in_static; do 3 right; left|done|done|]|apply performs_reg0].
    intros f' Hf' Ht' Hm'. table_cases Hf' Ht'; unfold priority; simpl; auto; congruence.
Qed.

Context (Hdis : distinguished cs).

Lemma same_mac c c' : c ∈ cs → c' ∈ cs → Mac (pc c) = Mac (pc c') → c = c'.
Proof. intros Hc Hc' Heq. by apply (NoDup_fmap_elem (λ c, Mac (pc c)) cs); [apply Hdis|..]. Qed.

Lemma arp2_matches c : matches (arpSpec c) p = isArp p && bool_decide (dl_dst p = Mac (pc c)).
Proof. unfold matches, isArp. simpl. by rewrite andb_true_r. Qed.

Lemma gw2_matches c : matches (gwSpec c) p = bool_decide (dl_dst p = Mac (pc c)) && fromGateway p.
Proof.
  unfold matches, fromGateway. cbn [fl_match gwSpec forallb fieldMatches].
  destruct (contents p); simpl; rewrite ?andb_true_r; [by rewrite andb_false_r|done|by rewrite andb_false_r].
Qed.

(** A flow of table 2 that matches a packet which is not a broadcast. *)
Lemma table2_flow f :
  f ∈ allSpecs n cs → fl_table f = 2%Z → matches f p = true → dl_dst p ≠ broadcast →
  ∃ c, c ∈ cs ∧ containerFlow c f ∧ dl_dst p = Mac (pc c) ∧ fl_actions f = [Output (vethPort c)] ∧
    (f = arpSpec c ∧ isArp p = true ∨ f = gwSpec c ∧ fromGateway p = true ∨
     priority f = 500%Z ∧ mayEnter c p = true).
Proof.
  intros Hf Ht Hm Hb. pose proof Hf as Hf0.
  apply elem_of_allSpecs in Hf as [Hf|[(c & Hc & Hf)| ->]].
  - static_cases Hf Ht.
  - exists c. split; [done|]. split; [done|].
    assert (priority f = 500%Z → fl_actions f = [Output (vethPort c)] → dl_dst p = Mac (pc c) ∧
      fl_actions f = [Output (vethPort c)] ∧ (f = arpSpec c ∧ isArp p = true ∨ f = gwSpec c ∧ fromGateway p = true ∨
        priority f = 500%Z ∧ mayEnter c p = true)) as Henter.
    { intros Hpr Hact. destruct (proj2 (mayEnter_spec c p)) as [Hmac Hme]; [by exists f|]. auto 10. }
    destruct Hf; try discriminate Ht; try by apply Henter.
    + rewrite arp2_matches in Hm. apply andb_true_iff in Hm as [Ha Hd%bool_decide_eq_true]. split_and!; auto.
    + rewrite gw2_matches in Hm. apply andb_true_iff in Hm as [Hd%bool_decide_eq_true Hg]. split_and!; auto 10.
  - exfalso. unfold matches in Hm. simpl in Hm. rewrite andb_true_r in Hm. by apply bool_decide_eq_true in Hm.
Qed.

Lemma table2_ok reg0 outs : forwards (allSpecs n cs) p 2 reg0 outs ↔ outs = table2 cs p.
Proof.
  unfold table2. destruct (bool_decide (dl_dst p = broadcast)) eqn:Hb.
  { etrans; [eapply (forwards_top _ _ 2 reg0 (bcastSpec cs))|apply performs_outputs].
    - apply elem_of_allSpecs. auto.
    - done.
    - unfold matches. simpl. by rewrite andb_true_r.
    - intros f' Hf' Ht' Hm'. table_cases Hf' Ht'; unfold priority; simpl; auto; left; lia. }
  apply bool_decide_eq_false in Hb.
  destruct (filter (λ c, Mac (pc c) = dl_dst p) cs) as [|c l] eqn:Hfil.
  { apply forwards_none. intros f Hf Ht. apply not_true_iff_false. intros Hm.
    destruct (table2_flow f Hf Ht Hm Hb) as (c & Hc & _ & Hmac & _).
    assert (c ∈ filter (λ c, Mac (pc c) = dl_dst p) cs) as Hin by (by apply list_elem_of_filter).
    rewrite Hfil in Hin. by apply elem_of_nil in Hin. }
  assert (Mac (pc c) = dl_dst p ∧ c ∈ cs) as [Hmac Hc].
  { apply (list_elem_of_filter (λ c, Mac (pc c) = dl_dst p)). rewrite Hfil. by left. }
  assert (∀ f, containerFlow c f → fl_table f = 2%Z → matches f p = true → fl_actions f = [Output (vethPort c)] →
    (∀ f', f' = arpSpec c ∧ isArp p = true ∨ f' = gwSpec c ∧ fromGateway p = true ∨
       priority f' = 500%Z ∧ mayEnter c p = true → (priority f' ≤ priority f)%Z) →
    forwards (allSpecs n cs) p 2 reg0 outs ↔ outs = [Phys (vethPort c)]) as Htop.
  { intros f Hf Ht Hm Hact Hmax. rewrite (forwards_top _ _ 2 reg0 f); [|by eapply in_container|done|done|].
    - rewrite Hact. apply performs_output.
    - intros f' Hf' Ht' Hm'. destruct (table2_flow f' Hf' Ht' Hm' Hb) as (c' & Hc' & _ & Hmac' & Hact' & Hcase).
      assert (c' = c) as -> by (apply same_mac; [done|done|congruence]).
      rewrite Hact, Hact'. specialize (Hmax f' Hcase).
      destruct (decide (priority f' = priority f)); [by right|left; lia]. }
  destruct (isArp p) eqn:Ha; [|destruct (fromGateway p) eqn:Hg; [|destruct (mayEnter c p) eqn:He]]; simpl.
  - apply (Htop (arpSpec c)); [constructor|done| |done|].
    + rewrite arp2_matches, Ha. simpl. by apply bool_decide_eq_true.
    + intros f' [[-> _]|[[-> _]|[-> _]]]; unfold priority; simpl; lia.
  - apply (Htop (gwSpec c)); [constructor|done| |done|].
    + rewrite gw2_matches, Hg, andb_true_r. by apply bool_decide_eq_true.
    + intros f' [[_ ?]|[[-> _]|[-> _]]]; [done|unfold priority; simpl; lia..].
  - destruct (proj1 (mayEnter_spec c p)) as (f & Hf & Ht & Hpr & Hm); [done|].
    apply (Htop f); [done|done|done| |].
    + by destruct Hf; try discriminate Ht; try discriminate Hpr.
    + intros f' [[_ ?]|[[_ ?]|[-> _]]]; [done|done|lia].
  - apply forwards_none. intros f Hf Ht. apply not_true_iff_false. intros Hm.
    destruct (table2_flow f Hf Ht Hm Hb) as (c' & Hc' & _ & Hmac' & _ & Hcase).
    assert (c' = c) as -> by (apply same_mac; [done|done|congruence]).
    destruct Hcase as [[_ ?]|[[_ ?]|[_ ?]]]; congruence.
Qed.

(** *** Table 0 *)

Lemma same_veth c c' : c ∈ cs → c' ∈ cs → vethPort c = vethPort c' → c = c'.
Proof.
  intros Hc Hc' Heq. apply (NoDup_fmap_elem vethPort cs); [|done..].
  by destruct (NoDup_app (vethPort <$> cs) (patchPort <$> cs)) as [[? _] _]; [apply Hdis|].
Qed.
Lemma same_patch c c' : c ∈ cs → c' ∈ cs → patchPort c = patchPort c' → c = c'.
Proof.
  intros Hc Hc' Heq. apply (NoDup_fmap_elem patchPort cs); [|done..].
  by pose proof (di_ports cs Hdis) as (_ & _ & ?)%NoDup_app.
Qed.
Lemma veth_not_patch c c' : c ∈ cs → c' ∈ cs → vethPort c ≠ patchPort c'.
Proof.
  intros Hc Hc' Heq. pose proof (di_ports cs Hdis) as (_ & Hno & _)%NoDup_app.
  apply (Hno (vethPort c)); [by apply list_elem_of_fmap_2|]. rewrite Heq. by apply list_elem_of_fmap_2.
Qed.

Lemma veth_matches c : matches (vethSpec c) p = bool_decide (in_port p = Phys (vethPort c)) && bool_decide (dl_src p = Mac (pc c)).
Proof. unfold matches. simpl. by rewrite andb_true_r. Qed.
Lemma patch_matches c : matches (patchSpec c) p = bool_decide (in_port p = Phys (patchPort c)).
Proof. unfold matches. simpl. by rewrite andb_true_r. Qed.
Lemma local_matches : matches (mk_flow 0 (Some 1000%Z) [InLocal] "actions" [Resubmit 2]) p = bool_decide (in_port p = Local).
Proof. unfold matches. simpl. by rewrite andb_true_r. Qed.

(** The flows of table 0 that match. *)
Lemma table0_flow f :
  f ∈ allSpecs n cs → fl_table f = 0%Z → matches f p = true →
  (f = mk_flow 0 (Some 1000%Z) [InLocal] "actions" [Resubmit 2] ∧ in_port p = Local) ∨
  (∃ c, c ∈ cs ∧ f = vethSpec c ∧ in_port p = Phys (vethPort c) ∧ dl_src p = Mac (pc c)) ∨
  (∃ c, c ∈ cs ∧ f = patchSpec c ∧ in_port p = Phys (patchPort c)).
Proof.
  intros Hf Ht Hm. apply elem_of_allSpecs in Hf as [Hf|[(c & Hc & Hf)| ->]]; [|..|discriminate Ht].
  - static_cases Hf Ht. left. rewrite local_matches in Hm. by apply bool_decide_eq_true in Hm.
  - destruct Hf; try discriminate Ht.
    + rewrite veth_matches in Hm. apply andb_true_iff in Hm as [H1%bool_decide_eq_true H2%bool_decide_eq_true]. eauto 10.
    + rewrite patch_matches in Hm. apply bool_decide_eq_true in Hm. eauto 10.
Qed.

Lemma pipeline_ok outs : forwards (allSpecs n cs) p 0 0 outs ↔ outs = pipeline cs p.
Proof.
  unfold pipeline. destruct (in_port p) as [|q] eqn:Hin.
  { etrans; [eapply forwards_top; [apply in_static; left|done|by rewrite local_matches, Hin|]|].
    - intros f' Hf' Ht' Hm'. destruct (table0_flow f' Hf' Ht' Hm') as [[-> _]|[(c & _ & _ & Hp & _)|(c & _ & _ & Hp)]];
        [auto|congruence..].
    - etrans; [apply performs_resubmit|apply table2_ok]. }
  destruct (filter (λ c, vethPort c = q) cs) as [|c l] eqn:Hv.
  - destruct (filter (λ c, patchPort c = q) cs) as [|c l] eqn:Hp.
    + apply forwards_none. intros f Hf Ht. apply not_true_iff_false. intros Hm.
      destruct (table0_flow f Hf Ht Hm) as [[_ Hl]|[(c & Hc & _ & Hq & _)|(c & Hc & _ & Hq)]]; [congruence|..];
        rewrite Hin in Hq; injection Hq as Hq.
      * by apply (filter_nil_not _ _ c Hv Hc).
      * by apply (filter_nil_not _ _ c Hp Hc).
    + apply filter_first in Hp as [Hq Hc].
      etrans; [eapply (forwards_top _ _ 0 0 (patchSpec c)); [by eapply in_container; [|constructor]|done|
        rewrite patch_matches, Hin; apply bool_decide_eq_true; congruence|]|apply performs_output].
      intros f' Hf' Ht' Hm'. destruct (table0_flow f' Hf' Ht' Hm') as [[_ Hl]|[(c' & Hc' & _ & Hq' & _)|(c' & Hc' & -> & Hq')]];
        [congruence|..]; rewrite Hin in Hq'; injection Hq' as Hq'.
      * exfalso. by apply (filter_nil_not _ _ c' Hv Hc').
      * right. split; [done|]. simpl. by rewrite (same_patch c' c) by (done || congruence).
  - apply filter_first in Hv as [Hq Hc].
    assert (∀ f, f ∈ allSpecs n cs → fl_table f = 0%Z → matches f p = true → f = vethSpec c ∧ dl_src p = Mac (pc c)) as Honly.
    { intros f Hf Ht Hm. destruct (table0_flow f Hf Ht Hm) as [[_ Hl]|[(c' & Hc' & -> & Hq' & Hs)|(c' & Hc' & -> & Hq')]];
        [congruence|..]; rewrite Hin in Hq'; injection Hq' as Hq'.
      - by rewrite <-(same_veth c' c) by (done || congruence).
      - exfalso. apply (veth_not_patch c c' Hc Hc'). congruence. }
    destruct (bool_decide (dl_src p = Mac (pc c))) eqn:Hs.
    + etrans; [eapply (forwards_top _ _ 0 0 (vethSpec c)); [by eapply in_container; [|constructor]|done|
        rewrite veth_matches, Hin, Hs, andb_true_r; apply bool_decide_eq_true; congruence|]|].
      * intros f' Hf' Ht' Hm'. destruct (Honly f' Hf' Ht' Hm') as [-> _]. auto.
      * etrans; [apply performs_load|apply table1_ok].
    + apply forwards_none. intros f Hf Ht. apply not_true_iff_false. intros Hm.
      destruct (Honly f Hf Ht Hm) as [_ Hmac]. apply bool_decide_eq_false in Hs. done.
Qed.
End tables.

(** ** From the database to the switch *)

(** A connection that opens [port] for [h] towards the public internet, and
    from it. *)
Definition opensTo (conn : Connection) (h : string) (port : Z) : Prop :=
  h ∈ cn_From conn ∧ PublicInternetLabel ∈ cn_To conn ∧ cn_MinPort conn = port ∧ cn_MaxPort conn = port.
Definition opensFrom (conn : Connection) (h : string) (port : Z) : Prop :=
  PublicInternetLabel ∈ cn_From conn ∧ h ∈ cn_To conn ∧ cn_MinPort conn = port ∧ cn_MaxPort conn = port.

Lemma elem_of_appendPort port m h h' q :
  q ∈ default [] (appendPort port m h !! h') ↔ q ∈ default [] (m !! h') ∨ (h' = h ∧ q = port).
Proof.
  unfold appendPort. destruct (decide (h = h')) as [->|Hne].
  - rewrite lookup_insert_eq. simpl. rewrite elem_of_app, list_elem_of_singleton. tauto.
  - rewrite lookup_insert_ne by done. split; [tauto|]. intros [?|[-> _]]; done.
Qed.

Lemma pubPair_spec conn from ports to h q :
  (q ∈ default [] ((pubPair conn from ports to).1 !! h) ↔ q ∈ default [] (ports.1 !! h) ∨
     (from = PublicInternetLabel ∧ h = to ∧ cn_MinPort conn = q ∧ cn_MaxPort conn = q)) ∧
  (q ∈ default [] ((pubPair conn from ports to).2 !! h) ↔ q ∈ default [] (ports.2 !! h) ∨
     (h = from ∧ to = PublicInternetLabel ∧ cn_MinPort conn = q ∧ cn_MaxPort conn = q)).
Proof.
  unfold pubPair. destruct ports as [fm tm].
  destruct (bool_decide (from ≠ PublicInternetLabel) && bool_decide (to ≠ PublicInternetLabel)) eqn:Hpub.
  { apply andb_true_iff in Hpub as [Hf%bool_decide_eq_true Ht%bool_decide_eq_true]. simpl. tauto. }
  destruct (bool_decide (cn_MinPort conn ≠ cn_MaxPort conn)) eqn:Hr.
  { apply bool_decide_eq_true in Hr. simpl. split; split; try tauto; intros [?|(? & ? & ? & ?)]; try done; congruence. }
  apply bool_decide_eq_false, dec_stable in Hr. simpl. split.
  - destruct (decide (from = PublicInternetLabel)) as [->|Hne]; simpl_bd; [|tauto].
    rewrite elem_of_appendPort, <-Hr. intuition congruence.
  - destruct (decide (to = PublicInternetLabel)) as [->|Hne]; simpl_bd; [|tauto].
    rewrite elem_of_appendPort, <-Hr. intuition congruence.
Qed.

(** A fold that adds, for each element, what [P] says. *)
Lemma foldl_adds {A S} (f : S → A → S) (obs : S → Prop) (P : A → Prop) l s :
  (∀ s x, x ∈ l → obs (f s x) ↔ obs s ∨ P x) → obs (foldl f s l) ↔ obs s ∨ ∃ x, x ∈ l ∧ P x.
Proof.
  revert s. induction l as [|y l IH]; intros s Hf; simpl.
  - split; [tauto|]. intros [?|(x & ?%elem_of_nil & _)]; done.
  - rewrite IH, Hf; [|by left|intros; apply Hf; by right]. split.
    + intros [[?|?]|(x & ? & ?)]; [tauto|right; exists y; split; [by left|done]|right; exists x; split; [by right|done]].
    + intros [?|(x & [->|?]%elem_of_cons & ?)]; eauto.
Qed.

Lemma pubPortsOf_from conns h q :
  q ∈ default [] ((pubPortsOf conns).1 !! h) ↔ ∃ conn, conn ∈ conns ∧ opensFrom conn h q.
Proof.
  unfold pubPortsOf. etrans.
  - apply (foldl_adds _ (λ ports : pubPorts, q ∈ default [] (ports.1 !! h)) (λ conn, opensFrom conn h q)).
    intros ports conn _. etrans.
    { apply (foldl_adds _ (λ ports : pubPorts, q ∈ default [] (ports.1 !! h))
        (λ from, ∃ to, to ∈ cn_To conn ∧ from = PublicInternetLabel ∧ h = to ∧ cn_MinPort conn = q ∧ cn_MaxPort conn = q)).
      intros ports' from _. apply (foldl_adds _ (λ ports : pubPorts, q ∈ default [] (ports.1 !! h))).
      intros ports'' to _. apply pubPair_spec. }
    unfold opensFrom. split; (intros [?|Hx]; [by left|right]).
    + destruct Hx as (? & ? & ? & ? & -> & -> & ? & ?). done.
    + destruct Hx as (? & ? & ? & ?). eauto 10.
  - simpl. rewrite lookup_empty. simpl. split; [intros [?%elem_of_nil|?]; done|by right].
Qed.

Lemma pubPortsOf_to conns h q :
  q ∈ default [] ((pubPortsOf conns).2 !! h) ↔ ∃ conn, conn ∈ conns ∧ opensTo conn h q.
Proof.
  unfold pubPortsOf. etrans.
  - apply (foldl_adds _ (λ ports : pubPorts, q ∈ default [] (ports.2 !! h)) (λ conn, opensTo conn h q)).
    intros ports conn _. etrans.
    { apply (foldl_adds _ (λ ports : pubPorts, q ∈ default [] (ports.2 !! h))
        (λ from, ∃ to, to ∈ cn_To conn ∧ h = from ∧ to = PublicInternetLabel ∧ cn_MinPort conn = q ∧ cn_MaxPort conn = q)).
      intros ports' from _. apply (foldl_adds _ (λ ports : pubPorts, q ∈ default [] (ports.2 !! h))).
      intros ports'' to _. apply pubPair_spec. }
    unfold opensTo. split; (intros [?|Hx]; [by left|right]).
    + destruct Hx as (? & ? & ? & ? & -> & -> & ? & ?). done.
    + destruct Hx as (? & ? & ? & ?). eauto 10.
  - simpl. rewrite lookup_empty. simpl. split; [intros [?%elem_of_nil|?]; done|by right].
Qed.

(** A switch whose flows [ovs-ofctl] reads and replaces, and an OVSDB that
    knows the numbers of its ports. *)
Class SwitchView (W : Type) := { installed : W → list string; portNumbers : W → gmap string Z }.

Class OfctlLaws (W : Type) `{OvsdbClient W} `{Ofctl W} `{SwitchView W} : Prop := {
  of_open : ∀ w, wp Open w (λ r w', r = Val () ∧ installed w' = installed w ∧ portNumbers w' = portNumbers w);
  of_ports : ∀ w, wp OpenFlowPorts w (λ r w', r = Val (portNumbers w) ∧ installed w' = installed w);
  of_close : ∀ w, wp Disconnect w (λ _ w', installed w' = installed w);
  of_diff : ∀ flows w, wp (ofctl "diff-flows" flows) w (λ r w', installed w' = installed w ∧
    (r = Val () → ∀ f, f ∈ installed w ↔ f ∈ flows));
  of_replace : ∀ flows w, wp (ofctl "replace-flows" flows) w (λ r w', r = Val () ∧
    ∀ f, f ∈ installed w' ↔ f ∈ flows);
}.

(** [c] is what the flows are made for on account of the row [dbc]. *)
Record describes `{ParseIPv6} (ports : gmap string Z) (conns : list Connection) (dbc : Container)
    (c : portContainer) : Prop := {
  ds_ip : of_IP (pc c) = c_IP dbc;
  ds_mac : IPStrToMac (c_IP dbc) = Ok (Mac (pc c));
  ds_veth : ports !! IFName (c_IP dbc) = Some (vethPort c);
  ds_patch : ports !! (PatchPorts (c_IP dbc)).2 = Some (patchPort c);
  ds_to : ∀ q, q ∈ ToPub (pc c) ↔ ∃ conn, conn ∈ conns ∧ opensTo conn (c_Hostname dbc) q;
  ds_from : ∀ q, q ∈ FromPub (pc c) ↔ ∃ conn, conn ∈ conns ∧ opensFrom conn (c_Hostname dbc) q;
}.

(** The containers of this minion that have an address. *)
Definition localContainers (myIP : string) (s : store) : list Container :=
  filter (λ c, c_IP c ≠ "" ∧ c_Minion c = myIP) (vals (tbl Container s)).

Section install.
Context `{MapOrder} `{ParseIPv6}.

Lemma openflowContainers_ok dbcs conns :
  Forall (λ c, ∃ m, IPStrToMac (c_IP c) = Ok m) dbcs →
  ∃ ofcs, openflowContainers dbcs conns = Ok ofcs ∧
    ∀ ports c, c ∈ resolveContainers ports ofcs ↔ ∃ dbc mac veth patch, dbc ∈ dbcs ∧
      IPStrToMac (c_IP dbc) = Ok mac ∧ ports !! IFName (c_IP dbc) = Some veth ∧
      ports !! (PatchPorts (c_IP dbc)).2 = Some patch ∧
      c = mk_portContainer (mk_ofContainer (IFName (c_IP dbc)) (PatchPorts (c_IP dbc)).2 mac (c_IP dbc)
        (list_to_set (default [] ((pubPortsOf conns).2 !! c_Hostname dbc)))
        (list_to_set (default [] ((pubPortsOf conns).1 !! c_Hostname dbc)))) veth patch.
Proof.
  unfold openflowContainers. induction 1 as [|dbc dbcs [m Hm] _ (ofcs & He & IH)].
  { exists []. split; [done|]. intros ports c. simpl. split; [by intros ?%elem_of_nil|].
    by intros (? & ? & ? & ? & ?%elem_of_nil & _). }
  cbn [openflowContainersLoop]. unfold openflowContainer at 1.
  set (peer := (PatchPorts (c_IP dbc)).2). unfold PatchPorts at 1. rewrite Hm. simpl. rewrite He. simpl.
  eexists. split; [done|]. intros ports c. simpl. split.
  - destruct (ports !! IFName (c_IP dbc)) as [v|] eqn:Hv; [destruct (ports !! IFName ("q_" +:+ c_IP dbc)) as [q|] eqn:Hq|].
    + intros [->|Hin]%elem_of_cons.
      * exists dbc, m, v, q. split_and!; [by left|done..].
      * apply IH in Hin as (d & m' & v' & q' & Hd & ?). exists d, m', v', q'. split; [by right|done].
    + intros (d & m' & v' & q' & Hd & ?)%IH. exists d, m', v', q'. split; [by right|done].
    + intros (d & m' & v' & q' & Hd & ?)%IH. exists d, m', v', q'. split; [by right|done].
  - intros (d & m' & v' & q' & [->|Hd]%elem_of_cons & Hm' & Hv & Hq & Hc).
    + rewrite Hc, Hv. unfold peer in *. simpl in *. rewrite Hq.
      rewrite Hm in Hm'. injection Hm' as ->. by left.
    + assert (c ∈ resolveContainers ports ofcs) as Hin by (apply IH; by exists d, m', v', q').
      destruct (ports !! IFName (c_IP dbc)); [|done]. by destruct (ports !! IFName ("q_" +:+ c_IP dbc)); [right|].
Qed.

Lemma wp_readOpenflow myIP view s Q :
  DbOK view s → list_to_set openflowTables ⊆ view →
  (∀ conns dbcs s', same s s' → conns ≡ₚ vals (tbl Connection s) → dbcs ≡ₚ localContainers myIP s →
     Q (conns, dbcs) s') →
  wp (readOpenflow myIP view) s Q.
Proof.
  intros Hok Hsub HQ. unfold readOpenflow.
  assert (∀ tn, tn ∈ openflowTables → tn ∈ view) as Hin by set_solver.
  wp_bind. apply wp_select_all; [done|apply Hin; vm_decide|]. intros conns s1 Hs1 Hconns.
  wp_bind. apply wp_SelectFrom; [by eapply same_ok|apply Hin; vm_decide|]. intros dbcs s2 Hs2 Hdbcs.
  wp_ret. apply HQ; [by eapply same_trans|done|]. rewrite (same_tbl (T:=Container) _ _ Hs1) in Hdbcs.
  rewrite Hdbcs. unfold localContainers. apply Permutation_refl', list_filter_iff. intros c. unfold passes.
  simpl. by rewrite andb_true_iff, !bool_decide_eq_true.
Qed.

Context {W : Type} `{OfctlLaws W}.

Lemma wp_replaceFlows n ofcs (w : W) Q :
  (∀ r w', (∀ f, f ∈ installed w' ↔ f ∈ allFlows n (resolveContainers (portNumbers w) ofcs)) → Q r w') →
  wp (replaceFlows n ofcs) w Q.
Proof.
  intros HQ. unfold replaceFlows, openflowPorts. wp_bind. wp_bind. wp_use of_open. intros r w1 (-> & Hi1 & Hp1).
  wp_bind. wp_use of_ports. intros r w2 [-> Hi2]. wp_bind. wp_use of_close. intros u w3 Hi3. wp_ret.
  cbv zeta. rewrite Hp1. wp_bind. wp_use of_diff. intros [[]|e] w4 [Hi4 Hsame].
  - wp_ret. apply HQ. intros f. rewrite Hi4. by apply Hsame.
  - wp_bind. wp_use of_replace. intros r w5 [-> Hi5]. wp_ret. by apply HQ.
Qed.
End install.

(** ** Properties *)

(** C14: The OpenFlow rules do what the comment in the source says.  For containers
    with ports and MAC addresses of their own, every way a switch may process a
    packet with the installed flows sends it to exactly the ports of the
    pseudocode: packets from a container are dropped unless they carry its own
    MAC address, reach the gateway only by ARP, to the gateway's address or on
    public ports the container may use, and everything else goes to OVN; from
    the gateway a container gets broadcasts, ARP, the gateway's own packets,
    and those on its public ports. *)
Theorem flows_implement_pipeline `{MapOrder} n (cs : list portContainer) :
  distinguished cs →
  ∃ specs, flowText <$> specs = allFlows n cs ∧
    ∀ p outs, forwards specs p 0 0 outs ↔ outs = pipeline cs p.
Proof.
  intros Hdis. exists (allSpecs n cs). split; [apply allSpecs_text|]. intros p outs. by apply pipeline_ok.
Qed.

(** A round of the OpenFlow loop installs the flows of exactly the containers
    of this machine that have an address and whose ports exist on the bridge,
    with the public ports that the connections open for their hostname (only
    connections on a single port are supported), and leaves the database
    alone. *)
Theorem updateOpenflow_installs `{MapOrder} `{ParseIPv6} {W} `{OfctlLaws W} n myIP s (w : W) :
  DbOK (list_to_set openflowTables) s →
  (∀ c, c ∈ localContainers myIP s → ∃ mac, IPStrToMac (c_IP c) = Ok mac) →
  wp (updateOpenflow n myIP) (s, w) (λ _ st', same s st'.1 ∧ ∃ cs,
    (∀ f, f ∈ installed st'.2 ↔ f ∈ allFlows n cs) ∧
    (∀ c, c ∈ cs → ∃ dbc, dbc ∈ localContainers myIP s ∧
       describes (portNumbers w) (vals (tbl Connection s)) dbc c) ∧
    (∀ dbc, dbc ∈ localContainers myIP s → is_Some (portNumbers w !! IFName (c_IP dbc)) →
       is_Some (portNumbers w !! (PatchPorts (c_IP dbc)).2) →
       ∃ c, c ∈ cs ∧ describes (portNumbers w) (vals (tbl Connection s)) dbc c)).
Proof.
  intros Hok Hmac. unfold updateOpenflow. wp_bind. apply wp_onFst. simpl.
  apply wp_Run; [exact (DbOK_tables _ _ Hok)|].
  apply wp_readOpenflow; [done|done|]. intros conns dbcs s1 Hs1 Hconns Hdbcs s2 Hs2.
  destruct (openflowContainers_ok dbcs conns) as (ofcs & He & Hres).
  { apply Forall_forall. intros c. rewrite Hdbcs. apply Hmac. }
  wp_bind. eapply wp_lift; [exact He|]. wp_bind. apply wp_onSnd. apply wp_replaceFlows.
  intros r w' Hi. wp_ret. simpl. split; [by eapply same_trans|].
  exists (resolveContainers (portNumbers w) ofcs). split; [exact Hi|].
  assert (∀ dbc mac v q, IPStrToMac (c_IP dbc) = Ok mac → portNumbers w !! IFName (c_IP dbc) = Some v →
    portNumbers w !! (PatchPorts (c_IP dbc)).2 = Some q →
    describes (portNumbers w) (vals (tbl Connection s)) dbc
      (mk_portContainer (mk_ofContainer (IFName (c_IP dbc)) (PatchPorts (c_IP dbc)).2 mac (c_IP dbc)
        (list_to_set (default [] ((pubPortsOf conns).2 !! c_Hostname dbc)))
        (list_to_set (default [] ((pubPortsOf conns).1 !! c_Hostname dbc)))) v q)) as Hds.
  { intros dbc mac v q Hm Hv Hq. split; simpl; [done|done|done|done| |].
    - intros port. rewrite elem_of_list_to_set, pubPortsOf_to. by setoid_rewrite Hconns.
    - intros port. rewrite elem_of_list_to_set, pubPortsOf_from. by setoid_rewrite Hconns. }
  split.
  - intros c (dbc & mac & v & q & Hd & Hm & Hv & Hq & ->)%Hres. exists dbc. rewrite <-Hdbcs. auto.
  - intros dbc Hd [v Hv] [q Hq]. destruct (Hmac dbc Hd) as [mac Hm]. eexists. split; [|by apply (Hds dbc mac v q)].
    apply Hres. exists dbc, mac, v, q. rewrite Hdbcs. auto 10.
Qed.

(** The names of patch ports may collide.  An interface name has at most 15
    bytes, so the name made from an address of 14 characters loses its last
    one: two containers with different addresses in the Kelda subnet get the
    same two patch ports, and the flows for both are made with one port. *)
Theorem PatchPorts_collide :
  ∃ a b, a ≠ b ∧ (0 ≤ a < 2 ^ 24)%Z ∧ (0 ≤ b < 2 ^ 24)%Z ∧
    let ip h := IPString (h + IPv4 10 0 0 0) in
    IFName (ip a) ≠ IFName (ip b) ∧ PatchPorts (ip a) = PatchPorts (ip b).
Proof.
  exists (100 * 2 ^ 16 + 100 * 2 ^ 8 + 101)%Z, (100 * 2 ^ 16 + 100 * 2 ^ 8 + 102)%Z.
  split_and!; [done..|]. vm_compute. done.
Qed.

(** ** On concrete containers *)

Definition demo_pc (i : Z) (mac ip : string) (to from : list Z) : portContainer :=
  mk_portContainer (mk_ofContainer ip ("q_" +:+ ip) mac ip (list_to_set to) (list_to_set from)) i (i + 10).

Definition demo_pcs : list portContainer :=
  [demo_pc 1 "02:00:0a:00:00:05" "10.0.0.5" [80%Z] []; demo_pc 2 "02:00:0a:00:00:06" "10.0.0.6" [] [443%Z]].

Lemma demo_distinguished : distinguished demo_pcs.
Proof.
  split; [vm_decide|vm_decide|].
  assert (Forall (λ c, Mac (pc c) ≠ broadcast) demo_pcs) as Hd by vm_decide. by apply Forall_forall.
Qed.

(** A container with port 80 towards the internet sends to a web server
    through the gateway; another destination port is dropped. *)
Lemma flows_implement_pipeline_witness :
  ∃ specs, flowText <$> specs = allFlows 0 demo_pcs ∧
    (∀ outs, forwards specs (mk_packet (Phys 1) "02:00:0a:00:00:05" GatewayMac
       (Ip "10.0.0.5" "8.8.8.8" (Some (TCP, 3333, 80)%Z))) 0 0 outs → outs = [Local]) ∧
    (∀ outs, forwards specs (mk_packet (Phys 1) "02:00:0a:00:00:05" GatewayMac
       (Ip "10.0.0.5" "8.8.8.8" (Some (TCP, 3333, 81)%Z))) 0 0 outs → outs = []).
Proof.
  destruct (flows_implement_pipeline 0 demo_pcs demo_distinguished) as (specs & Ht & Hf).
  exists specs. split; [exact Ht|]. split; intros outs ->%Hf; vm_compute; reflexivity.
Defined.

(** A switch with two ports. *)
Record simSwitch := mk_simSwitch { sw_flows : list string; sw_ports : gmap string Z }.

#[local] Instance simSwitch_client : OvsdbClient simSwitch := {
  Open := mret (Val ());
  Disconnect := mret ();
  CreateLogicalSwitch _ := mret (Err "");
  LogicalSwitchExists _ := mret (Err "");
  ListSwitchPorts := mret (Err "");
  ListSwitchPort _ := mret (Err "");
  CreateSwitchPort _ _ := mret (Err "");
  DeleteSwitchPort _ _ := mret (Err "");
  UpdateSwitchPortAddresses _ _ := mret (Err "");
  CreateLogicalRouter _ := mret (Err "");
  LogicalRouterExists _ := mret (Err "");
  ListRouterPorts := mret (Err "");
  CreateRouterPort _ _ := mret (Err "");
  DeleteRouterPort _ _ := mret (Err "");
  ListACLs := mret (Err "");
  CreateACLs _ _ := mret (Err "");
  DeleteACLs _ _ := mret (Err "");
  ListAddressSets := mret (Err "");
  CreateAddressSets _ := mret (Err "");
  DeleteAddressSets _ := mret (Err "");
  ListLoadBalancers := mret (Err "");
  CreateLoadBalancer _ _ _ := mret (Err "");
  DeleteLoadBalancer _ _ := mret (Err "");
  OpenFlowPorts s := Ok (Val (sw_ports s), s);
  ListPortsByTag _ _ := mret (Err "");
}.
#[local] Instance simSwitch_ofctl : Ofctl simSwitch := λ action flows s,
  if bool_decide (action = "diff-flows")
  then Ok (if bool_decide (flows = sw_flows s) then Val () else Err "differs", s)
  else Ok (Val (), mk_simSwitch flows (sw_ports s)).
#[local] Instance simSwitch_view : SwitchView simSwitch := {| installed := sw_flows; portNumbers := sw_ports |}.
#[local] Instance simSwitch_laws : OfctlLaws simSwitch.
Proof.
  split; [done|done|done| |done]. intros flows w. unfold wp, ofctl, simSwitch_ofctl. simpl. split; [done|].
  case_bool as [->|]; done.
Qed.

Definition demo_of_db : store :=
  storeOf [RContainer (mk_Container 1 "10.0.0.5" "me" "a" "" "" [] ∅ ∅ "a" 0 false [] "" "");
           RContainer (mk_Container 2 "10.0.0.6" "other" "b" "" "" [] ∅ ∅ "b" 0 false [] "" "");
           RConnection (mk_Connection 3 ["a"] ["public"] 80 80)].

#[local] Instance demo_v4 : ParseIPv6 := { parseIPv6 _ := None }.

Lemma updateOpenflow_installs_witness :
  wp (updateOpenflow 0 "me") (demo_of_db, mk_simSwitch [] {["10.0.0.5" := 1%Z; "q_10.0.0.5" := 2%Z]})
    (λ _ st', table3To "tcp" "02:00:0a:00:00:05" "10.0.0.5" 80 ∈ installed st'.2).
Proof.
  eapply wp_mono; [apply (updateOpenflow_installs 0 "me" demo_of_db
    (mk_simSwitch [] {["10.0.0.5" := 1%Z; "q_10.0.0.5" := 2%Z]}))|].
  - vm_decide.
  - assert (Forall (λ c, c_IP c = "10.0.0.5") (localContainers "me" demo_of_db)) as Hd by vm_decide.
    rewrite Forall_forall in Hd. intros c ->%Hd. exists "02:00:0a:00:00:05". vm_compute. reflexivity.
  - intros u st' [_ (cs & Hi & _ & Hall)]. apply Hi.
    destruct (Hall (mk_Container 1 "10.0.0.5" "me" "a" "" "" [] ∅ ∅ "a" 0 false [] "" "")) as (c & Hc & Hd);
      [vm_decide|vm_decide|vm_decide|].
    unfold allFlows. apply elem_of_app. left. apply elem_of_app. right.
    apply elem_of_concat. eexists. split; [by apply list_elem_of_fmap_2|].
    unfold containerFlows. apply elem_of_app. right. apply elem_of_app. left.
    apply elem_of_concat. exists (toPubFlows c 80). split.
    + apply list_elem_of_fmap_2, elem_of_range_set, (ds_to _ _ _ _ Hd).
      exists (mk_Connection 3 ["a"] ["public"] 80 80). split; [vm_decide|]. split_and!; vm_decide.
    + unfold toPubFlows. rewrite (ds_ip _ _ _ _ Hd). pose proof (ds_mac _ _ _ _ Hd) as Hm.
      assert (Mac (pc c) = "02:00:0a:00:00:05") as ->; [|do 2 right; left].
      change (IPStrToMac "10.0.0.5" = Ok (Mac (pc c))) in Hm.
      assert (IPStrToMac "10.0.0.5" = Ok "02:00:0a:00:00:05") as H5 by (vm_compute; reflexivity).
      rewrite H5 in Hm. by injection Hm as <-.
Defined.
