(* ===== verification/Etcd.v ===== *)
(** * Package etcd: sharing the tables of the leader

    [src/minion/etcd]: the leader publishes its containers, connections and
    hostnames as JSON under keys of an etcd cluster, and every other minion
    makes its tables follow them; each minion publishes itself; and the masters
    elect a leader by holding a key that expires.

    The etcd cluster is reached through [client.KeysAPI], a class over an
    abstract world; [store] translates the operations the package uses into
    its calls.  Of [client.Error]'s codes those that are told apart have a
    constructor.  Go's encoding/json is a class as well. *)

From S2P Require Import Prelude GoStrings Join Blueprint DbRows Db DbSpec DbTxn DbFrame Engine Dns.

(** ** The store *)

Inductive etcdError := KeyNotFound | NodeExist | TestFailed | OtherError (msg : string).

Inductive eres (A : Type) := EVal (a : A) | EErr (e : etcdError).
Arguments EVal {_} _.
Arguments EErr {_} _.

(** What the methods of [store] ask of [github.com/coreos/etcd/client];
    durations are seconds, and 0 is no limit. *)
Inductive PrevExistType := PrevIgnore | PrevExist | PrevNoExist.

Record SetOptions := mk_SetOptions {
  so_PrevValue : string;
  so_PrevExist : PrevExistType;
  so_TTL : Z;
  so_Dir : bool;
}.

Inductive Node := mk_Node (nd_Key nd_Value : string) (nd_Nodes : list Node).
Definition nd_Value (n : Node) : string := let 'mk_Node _ v _ := n in v.

(** [kapi_Get key recursive]; every read is a quorum read. *)
Class KeysAPI (W : Type) := {
  kapi_Set : string → string → SetOptions → M W (eres unit);
  kapi_Get : string → bool → M W (eres Node);
  kapi_Delete : string → M W (eres unit);
  time_Sleep : Z → M W unit;
}.

Inductive Tree := mk_Tree (tr_Key tr_Value : string) (tr_Children : gmap string Tree).
Definition tr_Key (t : Tree) : string := let 'mk_Tree k _ _ := t in k.
Definition tr_Value (t : Tree) : string := let 'mk_Tree _ v _ := t in v.
Definition tr_Children (t : Tree) : gmap string Tree := let 'mk_Tree _ _ c := t in c.

(** [Store], without [Watch], which only wakes the loops *)
Class Store (W : Type) := {
  Mkdir : string → Z → M W (eres unit);
  GetTree : string → M W (eres Tree);
  Get : string → M W (eres string);
  Delete : string → M W (eres unit);
  Create : string → string → Z → M W (eres unit);
  Set_ : string → string → Z → M W (eres unit);
  Refresh : string → string → Z → M W (eres unit);
  RefreshDir : string → Z → M W (eres unit);
  Sleep : Z → M W unit;
}.

(** [rec] of [GetTree] *)
Fixpoint nodeTree (node : Node) : Tree :=
  let 'mk_Node key value nodes := node in
  mk_Tree (default "" (last (Split "/" key))) value
    (foldl (λ children child, let ct := nodeTree child in <[tr_Key ct := ct]> children) ∅ nodes).

Section client.
Context {W : Type} `{KeysAPI W}.

Definition store_Mkdir (dir : string) (ttl : Z) : M W (eres unit) :=
  kapi_Set dir "" (mk_SetOptions "" PrevNoExist ttl true).

Definition store_GetTree (dir : string) : M W (eres Tree) :=
  let! r := kapi_Get dir true in
  match r with
  | EErr e => mret (EErr e)
  | EVal node => mret (EVal (nodeTree node))
  end.

Definition store_Get (path : string) : M W (eres string) :=
  let! r := kapi_Get path false in
  match r with
  | EErr e => mret (EErr e)
  | EVal node => mret (EVal (nd_Value node))
  end.

Definition store_Delete (path : string) : M W (eres unit) := kapi_Delete path.

Definition store_Create (path value : string) (ttl : Z) : M W (eres unit) :=
  kapi_Set path value (mk_SetOptions "" PrevNoExist ttl false).

Definition store_Set (path value : string) (ttl : Z) : M W (eres unit) :=
  kapi_Set path value (mk_SetOptions "" PrevIgnore ttl false).

Definition store_Refresh (path value : string) (ttl : Z) : M W (eres unit) :=
  kapi_Set path value (mk_SetOptions value PrevExist ttl false).

Definition store_RefreshDir (dir : string) (ttl : Z) : M W (eres unit) :=
  kapi_Set dir "" (mk_SetOptions "" PrevExist ttl true).

#[export] Instance store_Store : Store W := {
  Mkdir := store_Mkdir; GetTree := store_GetTree; Get := store_Get; Delete := store_Delete;
  Create := store_Create; Set_ := store_Set; Refresh := store_Refresh; RefreshDir := store_RefreshDir;
  Sleep := time_Sleep;
}.
End client.

(** encoding/json on what is stored.  A text that does not decode leaves the
    slice empty, and the error is dropped by all callers but [readMinion]. *)
Class JSON := {
  marshalContainers : list Container → result string;
  unmarshalContainers : string → list Container;
  marshalConnections : list Connection → result string;
  unmarshalConnections : string → list Connection;
  marshalHostnames : list Hostname → result string;
  unmarshalHostnames : string → list Hostname;
  marshalMinion : Minion → result string;
  unmarshalMinion : string → result Minion;
}.

Definition containerPath : string := "/containers".
Definition connectionPath : string := "/connections".
Definition hostnamePath : string := "/hostnames".
Definition minionPath : string := "/minions".
Definition minionTimeout : Z := 30.
Definition electionTTL : Z := 30.
Definition leaderKey : string := "/leader".

(** ** Keys of the joins *)

Definition containerValueMapKey `{MapOrder} (n : nat) (x : gmap string ContainerValue) : string :=
  MapAsString n (ContainerValue_String <$> x).

(** [fmt.Sprintf("%v", mounts)] *)
Definition fmtMounts (mounts : list VolumeMount) : string :=
  fmtSlice ((λ m, "{" +:+ vm_VolumeName m +:+ " " +:+ vm_MountPath m +:+ "}") <$> mounts).

Definition containerKey `{MapOrder} (n : nat) (c : Container)
    : string * string * string * string * string * string * string * bool * string :=
  (c_Hostname c, c_IP c, c_BlueprintID c, c_Image c, fmtSlice (c_Command c), containerValueMapKey n (c_Env c),
   containerValueMapKey n (c_FilepathToContent c), c_Privileged c, fmtMounts (c_VolumeMounts c)).

Definition etcdConnectionKey (conn : Connection) : string :=
  fmtSlice (cn_From conn) +:+ " " +:+ fmtSlice (cn_To conn) +:+ " " +:+
  fmtInt (cn_MinPort conn) +:+ " " +:+ fmtInt (cn_MaxPort conn).

Definition minionKey (m : Minion) : string * string * string * string * string * string * string :=
  (mi_Role m, mi_PrivateIP m, Join_strings " " (mi_HostSubnets m), mi_Provider m, mi_Size m, mi_Region m,
   mi_FloatingIP m).

(** ** Joining the tables *)

Section joins.
Context `{MapOrder}.

Definition mergeEtcdContainer (pair : Container * Container) : Container :=
  let '(dbc, edbc) := pair in
  mk_Container (c_ID dbc) (c_IP edbc) (c_Minion edbc) (c_BlueprintID edbc) (c_PodName dbc) (c_Status dbc)
    (c_Command edbc) (c_Env edbc) (c_FilepathToContent edbc) (c_Hostname edbc) (c_Created dbc)
    (c_Privileged edbc) (c_VolumeMounts edbc) (c_Image edbc) (c_Dockerfile dbc).

Definition joinContainers (view : Database) (etcdDBCs : list Container) : M store unit :=
  let! rows := SelectFrom view None in
  let! n := nextOrder in
  let '(pairs, dbcs, edbcs) := HashJoin n rows etcdDBCs (containerKey n) (containerKey n) in
  forM_ dbcs (RemoveT view) ;;;
  let! added := mapM_st (λ edbc, let! dbc := InsertRow view in mret (dbc, edbc)) edbcs in
  forM_ (pairs ++ added) (λ pair, CommitT view (mergeEtcdContainer pair)).

Definition set_cn_ID (id : Z) (c : Connection) : Connection :=
  mk_Connection id (cn_From c) (cn_To c) (cn_MinPort c) (cn_MaxPort c).

Definition joinConnections (view : Database) (etcdConns : list Connection) : M store unit :=
  let! rows := SelectFrom view None in
  let! n := nextOrder in
  let '(_, conns, etcdConns) := HashJoin n rows etcdConns etcdConnectionKey etcdConnectionKey in
  forM_ conns (RemoveT view) ;;;
  forM_ etcdConns (λ etcdConn, let! conn := InsertRow view in CommitT view (set_cn_ID (cn_ID conn) etcdConn)).

Definition joinEtcdHostnames (view : Database) (etcdHostnames : list Hostname) : M store unit :=
  let! rows := SelectFrom view None in
  let! n := nextOrder in
  let '(_, dbHostnames, etcdHostnames) := HashJoin n rows etcdHostnames hostnameKey hostnameKey in
  forM_ dbHostnames (RemoveT view) ;;;
  forM_ etcdHostnames (λ h, let! dbHostname := InsertRow view in CommitT view (set_h_ID (h_ID dbHostname) h)).

Definition filterSelf (dbMinions storeMinions : list Minion) : list Minion * list Minion :=
  let self := foldl (λ self dbm, if mi_Self dbm then Some dbm else self) None dbMinions in
  let selfIP := match self with Some m => mi_PrivateIP m | None => "" end in
  (filter (λ m, mi_Self m = false) dbMinions, filter (λ m, selfIP ≠ mi_PrivateIP m) storeMinions).

Definition diffMinion (n : nat) (dbMinions storeMinions : list Minion) : list Minion * list Minion :=
  let '(_, lefts, rights) := HashJoin n dbMinions storeMinions minionKey minionKey in (lefts, rights).

Definition set_mi_ID (id : Z) (m : Minion) : Minion :=
  mk_Minion id (mi_Self m) (mi_AuthorizedKeys m) (mi_Role m) (mi_PrivateIP m) (mi_Provider m) (mi_Size m)
    (mi_Region m) (mi_FloatingIP m) (mi_HostSubnets m).

(** The transaction of [readMinion]. *)
Definition joinMinions (storeMinions : list Minion) (view : Database) : M store unit :=
  let! rows := SelectFrom view None in
  let! n := nextOrder in
  let '(dbms, sms) := filterSelf rows storeMinions in
  let '(del, add) := diffMinion n dbms sms in
  forM_ del (RemoveT view) ;;;
  forM_ add (λ m, let! minion := InsertRow view in CommitT view (set_mi_ID (mi_ID minion) m)).
End joins.

(** ** Rounds *)

Section rounds.
Context `{MapOrder} `{JSON} `{GoSort} {W : Type} `{Store W}.

Definition readEtcdNode (path : string) : M W (eres string) :=
  let! r := Get path in
  match r with
  | EErr KeyNotFound => mret (EVal "")
  | EErr e => mret (EErr e)
  | EVal value => mret (EVal value)
  end.

Definition writeEtcdSlice {T} (jsonMarshal : list T → result string) (less : T → T → bool)
    (path old : string) (new : list T) : M W (eres unit) :=
  match jsonMarshal (Sort less new) with
  | Err e => mret (EErr (OtherError e))
  | Val newStr => if bool_decide (newStr ≠ old) then Set_ path newStr 0 else mret (EVal ())
  end.

Definition createEtcdDir (dir : string) (ttl : Z) : M W (eres unit) :=
  let! r := Mkdir dir ttl in
  match r with
  | EVal _ => mret (EVal ())
  | EErr NodeExist => RefreshDir dir ttl
  | EErr e => mret (EErr e)
  end.

Definition updateLeader (etcdStr : string) : M (store * W) (eres unit) :=
  let! dbcs := onFst (connSelect (Some (λ dbc, bool_decide (c_Minion dbc ≠ "") && bool_decide (c_IP dbc ≠ "")))) in
  onSnd (writeEtcdSlice marshalContainers Container_less containerPath etcdStr dbcs).

(** The containers of the published list that this minion keeps. *)
Definition mineOf (self : Minion) (dbcs : list Container) : list Container :=
  filter (λ dbc, mi_Role self = Master ∨ c_Minion dbc = mi_PrivateIP self) dbcs.

Definition updateNonLeader (etcdStr : string) : M store unit :=
  let! self := connMinionSelf in
  let etcdDBCs := mineOf self (unmarshalContainers etcdStr) in
  Run [ContainerTable] (λ view, joinContainers view etcdDBCs).

Definition runContainerOnce : M (store * W) (eres unit) :=
  let! etcdStr := onSnd (readEtcdNode containerPath) in
  match etcdStr with
  | EErr e => mret (EErr e)
  | EVal etcdStr =>
    let! leader := onFst connEtcdLeader in
    if (leader : bool) then updateLeader etcdStr
    else onFst (updateNonLeader etcdStr) ;;; mret (EVal ())
  end.

Definition runConnectionOnce : M (store * W) (eres unit) :=
  let! etcdStr := onSnd (readEtcdNode connectionPath) in
  match etcdStr with
  | EErr e => mret (EErr e)
  | EVal etcdStr =>
    let! leader := onFst connEtcdLeader in
    if (leader : bool) then
      let! conns := onFst (connSelect None) in
      onSnd (writeEtcdSlice marshalConnections Connection_less connectionPath etcdStr conns)
    else
      onFst (Run [ConnectionTable] (λ view, joinConnections view (unmarshalConnections etcdStr))) ;;;
      mret (EVal ())
  end.

Definition runHostnameOnce : M (store * W) (eres unit) :=
  let! etcdStr := onSnd (readEtcdNode hostnamePath) in
  match etcdStr with
  | EErr e => mret (EErr e)
  | EVal etcdStr =>
    let! leader := onFst connEtcdLeader in
    if (leader : bool) then
      let! hostnames := onFst (connSelect None) in
      onSnd (writeEtcdSlice marshalHostnames Hostname_less hostnamePath etcdStr hostnames)
    else
      onFst (Run [HostnameTable] (λ view, joinEtcdHostnames view (unmarshalHostnames etcdStr))) ;;;
      mret (EVal ())
  end.

(** *** Minions *)

Definition writeMinion : M (store * W) unit :=
  let! minion := onFst connMinionSelf in
  if bool_decide (mi_PrivateIP minion = "") then mret ()
  else
    match marshalMinion minion with
    | Err _ => panic "Failed to convert Minion to JSON"
    | Val js =>
      let! _ := onSnd (Set_ (minionPath +:+ "/" +:+ mi_PrivateIP minion) js minionTimeout) in
      mret ()
    end.

(** The minions that parse. *)
Definition treeMinions (n : nat) (tree : Tree) : list Minion :=
  omap (λ t, match unmarshalMinion (tr_Value t) with Val m => Some m | Err _ => None end)
    (range n (tr_Children tree)).*2.

Definition readMinion (n : nat) : M (store * W) unit :=
  let! tree := onSnd (GetTree minionPath) in
  match tree with
  | EErr _ => mret ()
  | EVal tree => onFst (Run [MinionTable] (joinMinions (treeMinions n tree)))
  end.

(** One turn of [runMinionSync]. *)
Definition minionSyncOnce (n : nat) : M (store * W) unit := writeMinion ;;; readMinion n.

(** *** Election *)

Definition setLeader (leader : bool) (ip : option string) (e : Etcd) : Etcd :=
  mk_Etcd (e_ID e) (e_EtcdIPs e) leader (default (e_LeaderIP e) ip).

(** [ip] is the optional argument. *)
Definition commitLeader (leader : bool) (ip : option string) : M store unit :=
  Run [EtcdTable] (λ view,
    let! etcdRows := SelectFrom view None in
    match etcdRows with
    | [row] => CommitT view (setLeader leader ip row)
    | _ => mret ()
    end).

(** The attempt to keep or to get the key. *)
Definition campaignCall (leader : bool) (IP : string) : M W (eres unit) :=
  if leader then Refresh leaderKey IP electionTTL else Create leaderKey IP electionTTL.

(** One turn of the loop of [campaign]. *)
Definition campaignOnce : M (store * W) unit :=
  let! etcdRows := onFst (connSelect None) in
  let! minion := onFst connMinionSelf in
  match etcdRows with
  | [row] =>
    if bool_decide (mi_Role minion ≠ Master) then mret ()
    else if bool_decide (mi_PrivateIP minion = "") then mret ()
    else
      let! err := onSnd (campaignCall (e_Leader row) (mi_PrivateIP minion)) in
      match err with
      | EVal _ => onFst (commitLeader true (Some (mi_PrivateIP minion)))
      | EErr NodeExist => onFst (commitLeader false None)
      | EErr _ => onFst (commitLeader false (Some "")) ;;; onSnd (Sleep electionTTL)
      end
  | _ => mret ()
  end.

(** One turn of the loop of [watchLeader]. *)
Definition watchLeaderOnce : M (store * W) unit :=
  let! r := onSnd (Get leaderKey) in
  let leader := match r with EVal v => v | EErr _ => "" end in
  onFst (Run [EtcdTable] (λ view,
    let! etcdRows := SelectFrom view None in
    match etcdRows with
    | [row] => CommitT view (mk_Etcd (e_ID row) (e_EtcdIPs row) (e_Leader row) leader)
    | _ => mret ()
    end)).
End rounds.
