(* ===== verification/EtcdSync.v ===== *)
(** * Package etcd: workers follow the leader

    What a round of the three table loops and of the minion loop does, over
    the documented behaviour of the key space and of encoding/json: a worker's
    tables become what the leader published, and what the leader publishes is
    its own tables. *)

From S2P Require Import Prelude GoStrings Join Blueprint DbRows Db DbSpec DbTxn DbFrame Engine Dns Etcd.

(** ** Tables that follow a list

    Here the rows of the database are the left side of the join.  [frame] are
    rows the join is not given. *)

Section follow.
Context `{MapOrder} {T K : Type} `{RowType T} `{Countable K} (key : T → K).
Implicit Types (db : Database) (s : store).

(** Insert a row per element and pair it. *)
Lemma wp_insert_with {X Y} (h : X → T → Y) db s (xs : list X) Q :
  DbOK db s → row_table T ∈ db →
  (∀ zs s', stepped db (row_table T) s s' → length zs = length xs → Forall (fresh_zero (curID s)) zs →
     vals (tbl T s') ≡ₚ zs ++ vals (tbl T s) → Q (zip_with h xs zs) s') →
  wp (mapM_st (λ x, let! r := InsertRow db in mret (h x r)) xs) s Q.
Proof.
  revert s Q. induction xs as [|x xs IH]; intros s Q Hok Hin HQ; simpl.
  { wp_ret. apply (HQ []); [by apply stepped_refl|done|constructor|done]. }
  do 2 wp_bind. apply wp_frame_insert; [done|done|]. intros id s1 Hst1 Hlt Hv1. wp_ret. wp_bind.
  apply IH; [apply Hst1|done|]. intros zs s2 Hst2 Hlen Hz Hv2. wp_ret.
  apply (HQ (row_zero id :: zs)); csimpl.
  - by eapply stepped_trans.
  - by rewrite Hlen.
  - constructor; [by exists id|]. eapply Forall_impl; [exact Hz|].
    intros r (i & -> & ?). exists i. pose proof (st_cur _ _ _ _ Hst1). split; [done|lia].
  - rewrite Hv2, Hv1. by rewrite <-Permutation_middle.
Qed.

(** A view of the rows on which the join's key is at least as fine. *)
Lemma follow_strip {X} (strip : T → X) (mk : T → T → T) old target pairs ll lr zs new :
  hash_joined old target key key pairs ll lr →
  (∀ o d, o ∈ old → d ∈ target → key o = key d → strip o = strip d) →
  (∀ d z, strip (mk d z) = strip d) → length zs = length lr →
  new ≡ₚ pairs.*1 ++ zip_with mk lr zs → strip <$> new ≡ₚ strip <$> target.
Proof.
  intros Hj Hkey Hmk Hlen Hnew.
  rewrite Hnew, <-(hj_rights _ _ _ _ _ _ _ Hj), !fmap_app. apply Permutation_app.
  - rewrite <-!list_fmap_compose. apply Permutation_refl', list_fmap_ext.
    intros i [o d] Hod%list_elem_of_lookup_2. simpl. apply Hkey; [..|by apply (hj_pair _ _ _ _ _ _ _ Hj)].
    + eapply elem_of_submseteq; [|apply Hj]. apply elem_of_app. left.
      by apply (list_elem_of_fmap_2 fst) in Hod.
    + rewrite <-(hj_rights _ _ _ _ _ _ _ Hj). apply elem_of_app. left.
      by apply (list_elem_of_fmap_2 snd) in Hod.
  - apply Permutation_refl', fmap_zip_with_l; [lia|]. intros. apply Hmk.
Qed.

(** Remove what is not in the list, add what is missing. *)
Lemma wp_follow {X} (strip : T → X) (mk : T → T → T) db s old frame target pairs ll lr Q :
  DbOK db s → row_table T ∈ db → vals (tbl T s) ≡ₚ old ++ frame → NoDup (key <$> old) →
  hash_joined old target key key pairs ll lr → (∀ d r, rowID (mk d r) = rowID r) →
  (∀ o d, o ∈ old → d ∈ target → key o = key d → strip o = strip d) →
  (∀ d z, strip (mk d z) = strip d) →
  (∀ s' new, stepped db (row_table T) s s' → vals (tbl T s') ≡ₚ new ++ frame →
     strip <$> new ≡ₚ strip <$> target → (∀ r, r ∈ new → r ∈ old ∨ ∃ d z, d ∈ target ∧ r = mk d z) →
     Q () s') →
  wp (forM_ ll (RemoveT db) ;;; forM_ lr (λ d, let! r := InsertRow db in CommitT db (mk d r))) s Q.
Proof.
  intros Hok Hin Hv Hnd Hj Hid Hkey Hmk HQ. pose proof (hash_joined_lefts _ _ _ _ _ _ _ Hj Hnd) as Hl.
  wp_bind. eapply (wp_remove_all _ _ _ (pairs.*1 ++ frame)); [done|done| |].
  { rewrite Hv, <-Hl, app_assoc. apply Permutation_app_tail, Permutation_app_comm. }
  intros s1 Hs1 Hv1. apply wp_add_all; [apply Hs1|done|done|]. intros zs s2 Hs2 Hz Hlen Hv2.
  apply (HQ _ (pairs.*1 ++ zip_with mk lr zs)).
  - by eapply stepped_trans.
  - rewrite Hv2, Hv1, app_assoc. apply Permutation_app_tail, Permutation_app_comm.
  - by eapply follow_strip.
  - intros r [Hr|Hr]%elem_of_app.
    + left. rewrite <-Hl. apply elem_of_app. by left.
    + right. apply elem_of_zip_with in Hr as (d & z & Hd & _ & ->). exists d, z. split; [|done].
      rewrite <-(hj_rights _ _ _ _ _ _ _ Hj). apply elem_of_app. by right.
Qed.
End follow.

(** ** The joins *)

(** What a published container says, and what stays with the worker. *)
Definition synced (c : Container) : Container :=
  mk_Container 0 (c_IP c) (c_Minion c) (c_BlueprintID c) "" "" (c_Command c) (c_Env c)
    (c_FilepathToContent c) (c_Hostname c) 0 (c_Privileged c) (c_VolumeMounts c) (c_Image c) "".
Definition local_facts (c : Container) : Z * string * string * Z * string :=
  (c_ID c, c_PodName c, c_Status c, c_Created c, c_Dockerfile c).

(** A name that the key of a connection separates from its neighbours. *)
Definition word (w : string) : Prop := w ≠ "" ∧ lacks " " w ∧ lacks "]" w.
Definition words (c : Connection) : Prop := Forall word (cn_From c) ∧ Forall word (cn_To c).

Lemma digit_ne d c : (nat_of_ascii c < 48) → pretty_N_char d ≠ c.
Proof.
  intros Hc Heq. apply (f_equal nat_of_ascii) in Heq.
  assert (48 ≤ nat_of_ascii (pretty_N_char d)) by (unfold pretty_N_char; repeat case_match; vm_compute; lia).
  lia.
Qed.

Lemma etcdConnectionKey_inj c d :
  words c → words d → etcdConnectionKey c = etcdConnectionKey d → set_cn_ID 0 c = set_cn_ID 0 d.
Proof.
  intros [Hf Ht] [Hf' Ht'] Heq. unfold etcdConnectionKey in Heq.
  apply fmtSlice_inj in Heq as [Hfrom Heq]; [|done..].
  apply (app_inj_s " " " ") in Heq as [_ Heq]; [|done].
  apply fmtSlice_inj in Heq as [Hto Heq]; [|done..].
  apply (app_inj_s " " " ") in Heq as [_ Heq]; [|done].
  apply cut_eq in Heq as [Hmin Hmax];
    [|apply lacks_fmtInt_any; [intros; apply digit_ne; vm_compute; lia|done]..].
  apply (inj pretty) in Hmin, Hmax. destruct c, d. unfold set_cn_ID. simpl in *. congruence.
Qed.

(** The key of a container does not depend on the order of Go's map loops. *)
Lemma containerKey_order `{MapOrder} n c : containerKey n c = containerKey 0 c.
Proof. unfold containerKey, containerValueMapKey. by rewrite !(MapAsString_deterministic _ _ n 0). Qed.

Section joins_spec.
Context `{MapOrder}.

Lemma wp_joinConnections view s etcdConns Q :
  DbOK view s → ConnectionTable ∈ view → NoDup (etcdConnectionKey <$> vals (tbl Connection s)) →
  Forall words (vals (tbl Connection s)) → Forall words etcdConns →
  (∀ s', stepped view ConnectionTable s s' →
     set_cn_ID 0 <$> vals (tbl Connection s') ≡ₚ set_cn_ID 0 <$> etcdConns → Q () s') →
  wp (joinConnections view etcdConns) s Q.
Proof.
  intros Hok Hin Hnd Hold Hnew HQ. unfold joinConnections. wp_select s1 Hs1 rs Hrs. wp_order s2 Hs2 n.
  destruct (HashJoin _ _ _ _ _) as [[pairs ll] lr] eqn:Hj. apply HashJoin_ok in Hj.
  pose proof (same_trans _ _ _ Hs1 Hs2) as Hs. rewrite Forall_forall in Hold, Hnew.
  eapply (wp_follow etcdConnectionKey (set_cn_ID 0) (λ d r, set_cn_ID (cn_ID r) d) _ _ rs []);
    [by eapply same_ok|done|by rewrite app_nil_r, (same_tbl _ _ Hs)|by rewrite Hrs|exact Hj|done| |done|].
  { intros o d Ho Hd. apply etcdConnectionKey_inj; [apply Hold; by rewrite <-Hrs|auto]. }
  intros s3 new Hst Hv Hstrip _. rewrite app_nil_r in Hv. apply HQ; [by eapply same_stepped_l|].
  by rewrite Hv.
Qed.

Lemma wp_joinEtcdHostnames view s etcdHostnames Q :
  DbOK view s → HostnameTable ∈ view → NoDup (hostnameKey <$> vals (tbl Hostname s)) →
  (∀ s', stepped view HostnameTable s s' →
     hostnameKey <$> vals (tbl Hostname s') ≡ₚ hostnameKey <$> etcdHostnames → Q () s') →
  wp (joinEtcdHostnames view etcdHostnames) s Q.
Proof.
  intros Hok Hin Hnd HQ. unfold joinEtcdHostnames. wp_select s1 Hs1 rs Hrs. wp_order s2 Hs2 n.
  destruct (HashJoin _ _ _ _ _) as [[pairs ll] lr] eqn:Hj. apply HashJoin_ok in Hj.
  pose proof (same_trans _ _ _ Hs1 Hs2) as Hs.
  eapply (wp_follow hostnameKey hostnameKey (λ d r, set_h_ID (h_ID r) d) _ _ rs []);
    [by eapply same_ok|done|by rewrite app_nil_r, (same_tbl _ _ Hs)|by rewrite Hrs|exact Hj|done|done|done|].
  intros s3 new Hst Hv Hstrip _. rewrite app_nil_r in Hv. apply HQ; [by eapply same_stepped_l|].
  by rewrite Hv.
Qed.

(** Matched containers keep what only this machine knows about them. *)
Definition kept_facts (old new target : list Container) : Prop :=
  ∀ o, o ∈ old → containerKey 0 o ∈ containerKey 0 <$> target →
    ∃ r, r ∈ new ∧ containerKey 0 r = containerKey 0 o ∧ local_facts r = local_facts o.

Lemma wp_joinContainers view s etcdDBCs Q :
  DbOK view s → ContainerTable ∈ view → NoDup (containerKey 0 <$> vals (tbl Container s)) →
  (∀ s', stepped view ContainerTable s s' →
     synced <$> vals (tbl Container s') ≡ₚ synced <$> etcdDBCs →
     kept_facts (vals (tbl Container s)) (vals (tbl Container s')) etcdDBCs → Q () s') →
  wp (joinContainers view etcdDBCs) s Q.
Proof.
  intros Hok Hin Hnd HQ. unfold joinContainers. wp_select s1 Hs1 rs Hrs. wp_order s2 Hs2 n.
  destruct (HashJoin _ _ _ _ _) as [[pairs ll] lr] eqn:Hj. apply HashJoin_ok in Hj.
  pose proof (same_trans _ _ _ Hs1 Hs2) as Hs. rewrite <-Hrs in Hnd.
  pose proof (hash_joined_lefts _ _ _ _ _ _ _ Hj) as Hl.
  assert (pairs.*1 ++ ll ≡ₚ rs) as Hl'.
  { apply Hl. erewrite list_fmap_ext; [exact Hnd|]. intros. apply containerKey_order. }
  wp_bind. eapply (wp_remove_all _ _ _ pairs.*1); [by eapply same_ok|done| |].
  { rewrite (same_tbl _ _ Hs), <-Hrs, <-Hl'. apply Permutation_app_comm. }
  intros s3 Hs3 Hv3. wp_bind. apply (wp_insert_with (λ edbc dbc, (dbc, edbc))); [apply Hs3|done|].
  intros zs s4 Hs4 Hlen Hz Hv4.
  apply (wp_commit_all _ _ mergeEtcdContainer fst _ []); [apply Hs4|done|by intros []| |].
  { rewrite app_nil_r, fmap_app, Hv4, Hv3. rewrite (Permutation_app_comm zs). apply Permutation_app_head.
    clear -Hlen. revert zs Hlen. induction lr as [|d lr IH]; intros [|z zs] [=]; csimpl; [done|]. by rewrite <-IH. }
  intros s5 Hs5 Hv5. rewrite app_nil_r in Hv5. apply HQ.
  - eapply same_stepped_l; [done|done|]. by do 2 (eapply stepped_trans; [done|]).
  - rewrite Hv5, <-(hj_rights _ _ _ _ _ _ _ Hj), !fmap_app, <-!list_fmap_compose.
    apply Permutation_app; apply Permutation_refl'; [apply list_fmap_ext; by intros ? []|].
    apply fmap_zip_with_l; [lia|done].
  - intros o Ho Hk. rewrite <-Hrs, <-Hl' in Ho. apply elem_of_app in Ho as [([o' d] & -> & Hp)%list_elem_of_fmap|Ho].
    + exists (mergeEtcdContainer (o', d)). split_and!; [|change (containerKey 0 d = containerKey 0 o')|done].
      * rewrite Hv5, fmap_app. apply elem_of_app. left. by apply list_elem_of_fmap_2.
      * pose proof (hj_pair _ _ _ _ _ _ _ Hj _ _ Hp) as Heq. rewrite !(containerKey_order n) in Heq.
        by rewrite Heq.
    + apply list_elem_of_fmap in Hk as (d & Heq & Hd).
      destruct (hj_lonely_left _ _ _ _ _ _ _ Hj o d Ho Hd). by rewrite !(containerKey_order n).
Qed.
End joins_spec.

(** ** What the loops rely on *)

(** A reachable cluster: a key has a value or not, and an unconditional write
    without a time limit sets it. *)
Class KeyspaceLaws (W : Type) `{KeysAPI W} := {
  kv : W → gmap string string;
  kapi_Get_ok : ∀ w key, wp (kapi_Get key false) w (λ r w', kv w' = kv w ∧
    match kv w !! key with
    | Some v => ∃ k ns, r = EVal (mk_Node k v ns)
    | None => r = EErr KeyNotFound
    end);
  kapi_Set_ok : ∀ w key v, wp (kapi_Set key v (mk_SetOptions "" PrevIgnore 0 false)) w (λ r w',
    r = EVal () ∧ kv w' = <[key := v]> (kv w));
}.

(** Fields tagged [json:"-"] are not encoded; the rest of an encodable row
    (its strings are UTF-8 text) is decoded again. *)
Definition jsonContainer (c : Container) : Container :=
  mk_Container 0 (c_IP c) (c_Minion c) (c_BlueprintID c) (c_PodName c) (c_Status c) (c_Command c) (c_Env c)
    (c_FilepathToContent c) (c_Hostname c) (c_Created c) (c_Privileged c) (c_VolumeMounts c) (c_Image c) "".
Definition jsonMinion (m : Minion) : Minion :=
  mk_Minion 0 false "" (mi_Role m) (mi_PrivateIP m) (mi_Provider m) (mi_Size m) (mi_Region m)
    (mi_FloatingIP m) (mi_HostSubnets m).

Class JSONLaws `{JSON} := {
  enc_container : Container → Prop;
  enc_connection : Connection → Prop;
  enc_hostname : Hostname → Prop;
  containers_json : ∀ l, Forall enc_container l → ∃ js,
    marshalContainers l = Val js ∧ unmarshalContainers js = jsonContainer <$> l;
  connections_json : ∀ l, Forall enc_connection l → ∃ js,
    marshalConnections l = Val js ∧ unmarshalConnections js = set_cn_ID 0 <$> l;
  hostnames_json : ∀ l, Forall enc_hostname l → ∃ js,
    marshalHostnames l = Val js ∧ unmarshalHostnames js = set_h_ID 0 <$> l;
  minion_json : ∀ v m, unmarshalMinion v = Val m → mi_Self m = false;
}.

(** ** Rounds *)

Section rounds_spec.
Context `{MapOrder} `{JSONLaws} `{GoSort} {W : Type} `{KeyspaceLaws W}.
Implicit Types (s : store) (w : W).

(** What a reader of [path] sees; a missing key reads as the empty text. *)
Definition text (path : string) (w : W) : string := default "" (kv w !! path).

Lemma wp_readEtcdNode path w Q :
  (∀ w', kv w' = kv w → Q (EVal (text path w)) w') → wp (readEtcdNode path) w Q.
Proof.
  intros HQ. unfold readEtcdNode. wp_bind. cbn [Get store_Store]. unfold store_Get. wp_bind.
  wp_use kapi_Get_ok. intros r w' [Hkv Hr]. unfold text in HQ.
  destruct (kv w !! path) as [v|]; [destruct Hr as (k & ns & ->)|subst r]; wp_ret; wp_ret; by apply HQ.
Qed.

Lemma wp_writeEtcdSlice {T} (marshal : list T → result string) less path l js w Q :
  marshal (Sort less l) = Val js →
  (∀ w', text path w' = js → (∀ p, p ≠ path → kv w' !! p = kv w !! p) → Q (EVal ()) w') →
  wp (writeEtcdSlice marshal less path (text path w) l) w Q.
Proof.
  intros Hjs HQ. unfold writeEtcdSlice. rewrite Hjs. case_bool as [Hne|Heq].
  - wp_use kapi_Set_ok. intros r w' [-> Hkv]. apply HQ.
    + unfold text. by rewrite Hkv, lookup_insert_eq.
    + intros p Hp. by rewrite Hkv, lookup_insert_ne.
  - wp_ret. apply HQ; [|done]. symmetry. by apply dec_stable.
Qed.

Lemma wp_connSelect {T} `{RowType T} check s (Q : list T → store → Prop) :
  DbOK (list_to_set [row_table T]) s →
  (∀ l s', same s s' → l ≡ₚ filter (passes check) (vals (tbl T s)) → Q l s') → wp (connSelect check) s Q.
Proof.
  intros Hok HQ. unfold connSelect. apply wp_Run; [exact (DbOK_tables _ _ Hok)|].
  apply wp_SelectFrom; [done|set_solver|]. intros l s1 Hs1 Hl s2 Hs2. apply HQ; [by eapply same_trans|done].
Qed.

Lemma wp_connMinionSelf s m (Q : Minion → store → Prop) :
  DbOK (list_to_set [MinionTable]) s → filter (passes (Some mi_Self)) (vals (tbl Minion s)) = [m] →
  (∀ s', same s s' → Q m s') → wp connMinionSelf s Q.
Proof.
  intros Hok Hm HQ. unfold connMinionSelf. apply wp_Run; [exact (DbOK_tables _ _ Hok)|].
  eapply wp_MinionSelf; [done|set_solver|exact Hm|]. intros s1 Hs1 s2 Hs2. apply HQ. by eapply same_trans.
Qed.

(** The tables of a minion that the loops use. *)
Definition syncTables : list string := [ContainerTable; ConnectionTable; HostnameTable; EtcdTable; MinionTable].

Lemma syncTables_one s tn : DbOK (list_to_set syncTables) s → tn ∈ syncTables → DbOK (list_to_set [tn]) s.
Proof. intros Hok Hin. eapply DbOK_subset; [exact Hok|set_solver]. Qed.

(** The containers the leader publishes: those with a machine and an address. *)
Definition published (l : list Container) : list Container :=
  filter (λ c, c_Minion c ≠ "" ∧ c_IP c ≠ "") l.

(** [path] now holds [decoded], and no other key changed. *)
Definition publishes {T} (unmarshal : string → list T) (path : string) (l : list T) (w w' : W) : Prop :=
  unmarshal (text path w') ≡ₚ l ∧ ∀ p, p ≠ path → kv w' !! p = kv w !! p.

Lemma wp_publish {T} (marshal : list T → result string) (unmarshal : string → list T) (json : T → T)
    (enc : T → Prop) less path l w Q :
  (∀ k, Forall enc k → ∃ js, marshal k = Val js ∧ unmarshal js = json <$> k) → Forall enc l →
  (∀ w', publishes unmarshal path (json <$> l) w w' → Q (EVal ()) w') →
  wp (writeEtcdSlice marshal less path (text path w) l) w Q.
Proof.
  intros Hjson Henc HQ. destruct (Hjson (Sort less l)) as (js & Hm & Hu).
  { by rewrite Sort_perm. }
  eapply wp_writeEtcdSlice; [exact Hm|]. intros w' Ht Hk. apply HQ. split; [|done].
  rewrite Ht, Hu. by rewrite Sort_perm.
Qed.

(** The shape of the three loops: read the key, then publish or follow. *)
Definition tableRound (path : string) (lead : string → M (store * W) (eres unit))
    (follow : string → M store unit) : M (store * W) (eres unit) :=
  let! etcdStr := onSnd (readEtcdNode path) in
  match etcdStr with
  | EErr e => mret (EErr e)
  | EVal etcdStr =>
    let! leader := onFst connEtcdLeader in
    if (leader : bool) then lead etcdStr else onFst (follow etcdStr) ;;; mret (EVal ())
  end.

Lemma wp_tableRound path lead follow s w Q :
  DbOK (list_to_set syncTables) s →
  (∀ s1 w1, same s s1 → kv w1 = kv w → text path w1 = text path w →
     if is_leader s then wp (lead (text path w1)) (s1, w1) Q
     else wp (follow (text path w)) s1 (λ _ s2, Q (EVal ()) (s2, w1))) →
  wp (tableRound path lead follow) (s, w) Q.
Proof.
  intros Hok HQ. unfold tableRound. wp_bind. apply wp_onSnd, wp_readEtcdNode. intros w1 Hw1. cbn [fst snd].
  wp_bind. apply wp_onFst, wp_connEtcdLeader; [by apply syncTables_one; [|vm_decide]|]. intros s1 Hs1. cbn [fst snd].
  assert (text path w1 = text path w) as Ht by (unfold text; by rewrite Hw1).
  specialize (HQ s1 w1 Hs1 Hw1 Ht). rewrite Ht in HQ.
  destruct (is_leader s); [done|]. wp_bind. apply wp_onFst. cbn [fst snd].
  eapply wp_mono; [exact HQ|]. intros [] s2 HQ2. by wp_ret.
Qed.

Lemma publishes_from {T} (unmarshal : string → list T) path l k w w1 w2 :
  kv w1 = kv w → l ≡ₚ k → publishes unmarshal path l w1 w2 → publishes unmarshal path k w w2.
Proof. intros Hw Hl [Hp Hk]. split; [by rewrite Hp|]. intros p Hne. by rewrite Hk, Hw. Qed.

Lemma wp_connection_leader s w Q :
  DbOK (list_to_set syncTables) s → is_leader s = true → Forall enc_connection (vals (tbl Connection s)) →
  (∀ s' w', same s s' →
     publishes unmarshalConnections connectionPath (set_cn_ID 0 <$> vals (tbl Connection s)) w w' →
     Q (EVal ()) (s', w')) →
  wp runConnectionOnce (s, w) Q.
Proof.
  intros Hok Hl Henc HQ. apply wp_tableRound; [done|]. intros s1 w1 Hs1 Hw1 _. rewrite Hl.
  wp_bind. apply wp_onFst, wp_connSelect_all.
  { apply (same_ok _ _ _ Hs1). by apply syncTables_one; [|vm_decide]. }
  intros l s2 Hs2 Hlist. rewrite (same_tbl _ _ Hs1) in Hlist. cbn [fst snd].
  apply wp_onSnd. eapply (wp_publish _ _ _ _ _ _ _ _ _ connections_json); [by rewrite Hlist|].
  intros w2 Hp. apply HQ; [by eapply same_trans|]. eapply publishes_from; [done| |exact Hp]. by rewrite Hlist.
Qed.

Lemma wp_hostname_leader s w Q :
  DbOK (list_to_set syncTables) s → is_leader s = true → Forall enc_hostname (vals (tbl Hostname s)) →
  (∀ s' w', same s s' →
     publishes unmarshalHostnames hostnamePath (set_h_ID 0 <$> vals (tbl Hostname s)) w w' →
     Q (EVal ()) (s', w')) →
  wp runHostnameOnce (s, w) Q.
Proof.
  intros Hok Hl Henc HQ. apply wp_tableRound; [done|]. intros s1 w1 Hs1 Hw1 _. rewrite Hl.
  wp_bind. apply wp_onFst, wp_connSelect_all.
  { apply (same_ok _ _ _ Hs1). by apply syncTables_one; [|vm_decide]. }
  intros l s2 Hs2 Hlist. rewrite (same_tbl _ _ Hs1) in Hlist. cbn [fst snd].
  apply wp_onSnd. eapply (wp_publish _ _ _ _ _ _ _ _ _ hostnames_json); [by rewrite Hlist|].
  intros w2 Hp. apply HQ; [by eapply same_trans|]. eapply publishes_from; [done| |exact Hp]. by rewrite Hlist.
Qed.

Lemma wp_container_leader s w Q :
  DbOK (list_to_set syncTables) s → is_leader s = true → Forall enc_container (vals (tbl Container s)) →
  (∀ s' w', same s s' →
     publishes unmarshalContainers containerPath (jsonContainer <$> published (vals (tbl Container s))) w w' →
     Q (EVal ()) (s', w')) →
  wp runContainerOnce (s, w) Q.
Proof.
  intros Hok Hl Henc HQ. apply wp_tableRound; [done|]. intros s1 w1 Hs1 Hw1 _. rewrite Hl.
  unfold updateLeader. wp_bind. apply wp_onFst, wp_connSelect.
  { apply (same_ok _ _ _ Hs1). by apply syncTables_one; [|vm_decide]. }
  intros l s2 Hs2 Hlist. rewrite (same_tbl _ _ Hs1) in Hlist. cbn [fst snd].
  assert (l ≡ₚ published (vals (tbl Container s))) as Hpub.
  { rewrite Hlist. apply Permutation_refl', list_filter_iff. intros c. cbn.
    rewrite andb_true_iff, !bool_decide_eq_true. done. }
  apply wp_onSnd. eapply (wp_publish _ _ _ _ _ _ _ _ _ containers_json).
  { rewrite Hpub. rewrite Forall_forall in Henc |- *. intros c [_ Hc]%list_elem_of_filter. auto. }
  intros w2 Hp. apply HQ; [by eapply same_trans|]. eapply publishes_from; [done| |exact Hp]. by rewrite Hpub.
Qed.

(** *** Workers *)

(** A transaction on one table, seen from outside. *)
Lemma wp_Run_one tn s1 (body : Database → M store unit) (s : store) (P Q : store → Prop) :
  same s s1 → DbOK (list_to_set [tn]) s →
  (∀ Q', (∀ s2, stepped (list_to_set [tn]) tn s1 s2 → P s2 → Q' () s2) → wp (body (list_to_set [tn])) s1 Q') →
  (∀ s2, P s2 → ∀ s3, same s2 s3 → P s3) →
  (∀ s3, only tn s s3 → DbOK (list_to_set [tn]) s3 → P s3 → Q s3) →
  wp (Run [tn] body) s1 (λ _ s3, Q s3).
Proof.
  intros Hs1 Hok Hbody HP HQ. pose proof (same_ok _ _ _ Hs1 Hok) as Hok1.
  apply wp_Run; [exact (DbOK_tables _ _ Hok1)|]. apply Hbody. intros s2 Hst HP2 s3 Hs3. apply HQ.
  - eapply only_trans; [by apply same_only|]. eapply only_trans; [apply Hst|by apply same_only].
  - eapply same_ok; [exact Hs3|apply Hst].
  - by eapply HP.
Qed.

Lemma wp_connection_worker s w Q :
  DbOK (list_to_set syncTables) s → is_leader s = false →
  NoDup (etcdConnectionKey <$> vals (tbl Connection s)) → Forall words (vals (tbl Connection s)) →
  Forall words (unmarshalConnections (text connectionPath w)) →
  (∀ s' w', kv w' = kv w → only ConnectionTable s s' → DbOK (list_to_set [ConnectionTable]) s' →
     set_cn_ID 0 <$> vals (tbl Connection s') ≡ₚ
       set_cn_ID 0 <$> unmarshalConnections (text connectionPath w) → Q (EVal ()) (s', w')) →
  wp runConnectionOnce (s, w) Q.
Proof.
  intros Hok Hl Hnd Hold Hnew HQ. apply wp_tableRound; [done|]. intros s1 w1 Hs1 Hw1 _. rewrite Hl.
  eapply (wp_Run_one _ _ _ s (λ s2, set_cn_ID 0 <$> vals (tbl Connection s2) ≡ₚ
    set_cn_ID 0 <$> unmarshalConnections (text connectionPath w)) (λ s', Q (EVal ()) (s', w1)));
    [done|by apply syncTables_one; [|vm_decide]|..|by eauto].
  - intros Q' HQ'. apply wp_joinConnections; rewrite ?(same_tbl _ _ Hs1);
      [apply (same_ok _ _ _ Hs1); by apply syncTables_one; [|vm_decide]|vm_decide|done|done|done|auto].
  - intros s2 HP s3 Hs3. by rewrite (same_tbl _ _ Hs3).
Qed.

Lemma wp_hostname_worker s w Q :
  DbOK (list_to_set syncTables) s → is_leader s = false → NoDup (hostnameKey <$> vals (tbl Hostname s)) →
  (∀ s' w', kv w' = kv w → only HostnameTable s s' → DbOK (list_to_set [HostnameTable]) s' →
     hostnameKey <$> vals (tbl Hostname s') ≡ₚ
       hostnameKey <$> unmarshalHostnames (text hostnamePath w) → Q (EVal ()) (s', w')) →
  wp runHostnameOnce (s, w) Q.
Proof.
  intros Hok Hl Hnd HQ. apply wp_tableRound; [done|]. intros s1 w1 Hs1 Hw1 _. rewrite Hl.
  eapply (wp_Run_one _ _ _ s (λ s2, hostnameKey <$> vals (tbl Hostname s2) ≡ₚ
    hostnameKey <$> unmarshalHostnames (text hostnamePath w)) (λ s', Q (EVal ()) (s', w1)));
    [done|by apply syncTables_one; [|vm_decide]|..|by eauto].
  - intros Q' HQ'. apply wp_joinEtcdHostnames; rewrite ?(same_tbl _ _ Hs1);
      [apply (same_ok _ _ _ Hs1); by apply syncTables_one; [|vm_decide]|vm_decide|done|auto].
  - intros s2 HP s3 Hs3. by rewrite (same_tbl _ _ Hs3).
Qed.

Lemma wp_container_worker s w m Q :
  DbOK (list_to_set syncTables) s → is_leader s = false →
  filter (passes (Some mi_Self)) (vals (tbl Minion s)) = [m] → NoDup (containerKey 0 <$> vals (tbl Container s)) →
  let target := mineOf m (unmarshalContainers (text containerPath w)) in
  (∀ s' w', kv w' = kv w → only ContainerTable s s' → DbOK (list_to_set [ContainerTable]) s' →
     synced <$> vals (tbl Container s') ≡ₚ synced <$> target →
     kept_facts (vals (tbl Container s)) (vals (tbl Container s')) target → Q (EVal ()) (s', w')) →
  wp runContainerOnce (s, w) Q.
Proof.
  intros Hok Hl Hm Hnd target HQ. apply wp_tableRound; [done|]. intros s1 w1 Hs1 Hw1 _. rewrite Hl.
  unfold updateNonLeader. wp_bind. eapply wp_connMinionSelf;
    [apply (same_ok _ _ _ Hs1); by apply syncTables_one; [|vm_decide]|by rewrite (same_tbl _ _ Hs1)|].
  intros s2 Hs2. pose proof (same_trans _ _ _ Hs1 Hs2) as Hs.
  eapply (wp_Run_one _ _ _ s (λ s3, synced <$> vals (tbl Container s3) ≡ₚ synced <$> target ∧
     kept_facts (vals (tbl Container s)) (vals (tbl Container s3)) target) (λ s', Q (EVal ()) (s', w1)));
    [done|by apply syncTables_one; [|vm_decide]|..|by intros ??? []; eauto].
  - intros Q' HQ'. apply wp_joinContainers; rewrite ?(same_tbl _ _ Hs);
      [apply (same_ok _ _ _ Hs); by apply syncTables_one; [|vm_decide]|vm_decide|done|auto].
  - intros s3 HP s4 Hs4. by rewrite (same_tbl _ _ Hs4).
Qed.
End rounds_spec.

(** *** Minions *)

Section minions.
Context `{MapOrder} `{JSONLaws} {W : Type} `{Store W}.
Implicit Types (s : store) (w : W).

Definition selfRows (l : list Minion) : list Minion := filter (passes (Some mi_Self)) l.
Definition otherRows (l : list Minion) : list Minion := filter (λ m, mi_Self m = false) l.

Lemma self_split l : l ≡ₚ otherRows l ++ selfRows l.
Proof.
  unfold otherRows, selfRows. etrans; [apply (filter_split (λ m, mi_Self m = false))|].
  apply Permutation_app_head, Permutation_refl', list_filter_iff.
  intros m. simpl. destruct (mi_Self m); naive_solver.
Qed.

Lemma filterSelf_spec rows storeMinions m :
  selfRows rows = [m] →
  filterSelf rows storeMinions = (otherRows rows, filter (λ x, mi_PrivateIP m ≠ mi_PrivateIP x) storeMinions).
Proof.
  intros Hself. unfold filterSelf. f_equal.
  assert (∀ acc, foldl (λ self dbm, if mi_Self dbm then Some dbm else self) acc rows =
    match last (selfRows rows) with Some x => Some x | None => acc end) as Hfold.
  { clear Hself. induction rows as [|r rows IH] using rev_ind; intros acc; [done|].
    unfold selfRows in *. rewrite foldl_app, filter_app, filter_cons. simpl.
    destruct (mi_Self r); case_decide; try done; rewrite ?filter_nil, ?app_nil_r; [|apply IH].
    by rewrite last_snoc. }
  rewrite Hfold, Hself. done.
Qed.

Lemma wp_joinMinions view s storeMinions m Q :
  DbOK view s → MinionTable ∈ view → selfRows (vals (tbl Minion s)) = [m] →
  NoDup (minionKey <$> otherRows (vals (tbl Minion s))) → Forall (λ x, mi_Self x = false) storeMinions →
  (∀ s', stepped view MinionTable s s' → selfRows (vals (tbl Minion s')) = [m] →
     minionKey <$> otherRows (vals (tbl Minion s')) ≡ₚ
       minionKey <$> filter (λ x, mi_PrivateIP m ≠ mi_PrivateIP x) storeMinions → Q () s') →
  wp (joinMinions storeMinions view) s Q.
Proof.
  intros Hok Hin Hself Hnd Hst HQ. unfold joinMinions. wp_select s1 Hs1 rs Hrs. wp_order s2 Hs2 n.
  pose proof (same_trans _ _ _ Hs1 Hs2) as Hs.
  assert (selfRows rs = [m]) as Hm.
  { apply Permutation_singleton_r. rewrite <-Hself. by apply filter_perm. }
  rewrite (filterSelf_spec _ _ m Hm). unfold diffMinion.
  destruct (HashJoin _ _ _ _ _) as [[pairs ll] lr] eqn:Hj. apply HashJoin_ok in Hj.
  assert (otherRows rs ≡ₚ otherRows (vals (tbl Minion s))) as Hor by (by apply filter_perm).
  eapply (wp_follow minionKey minionKey (λ d r, set_mi_ID (mi_ID r) d) _ _ (otherRows rs) [m]);
    [by eapply same_ok|done|by rewrite (same_tbl _ _ Hs), <-Hrs, <-Hm, <-self_split|by rewrite Hor|exact Hj
    |done|done|done|].
  intros s3 new Hst3 Hv Hstrip Hnew.
  assert (Forall (λ r, mi_Self r = false) new) as Hns.
  { apply Forall_forall. intros r [[? _]%list_elem_of_filter|(d & z & [_ Hd]%list_elem_of_filter & ->)]%Hnew; [done|].
    rewrite Forall_forall in Hst. by apply Hst in Hd. }
  assert (mi_Self m = true) as Hms by (assert (m ∈ selfRows rs) as [? _]%list_elem_of_filter by (rewrite Hm; set_solver); done).
  apply HQ; [by eapply same_stepped_l|..].
  - apply Permutation_singleton_r. unfold selfRows. rewrite Hv, filter_app, (filter_none _ new).
    + simpl. rewrite filter_cons_True, filter_nil by done. done.
    + rewrite Forall_forall in Hns. intros r Hr. apply Hns in Hr. simpl. congruence.
  - rewrite <-Hstrip. apply fmap_Permutation. unfold otherRows. rewrite Hv, filter_app, filter_all.
    + rewrite filter_cons_False by congruence. by rewrite filter_nil, app_nil_r.
    + by apply Forall_forall.
Qed.
End minions.

(** ** The composition *)

Section composition.
Context `{MapOrder} `{JSONLaws} `{GoSort} {W : Type} `{KeyspaceLaws W}.

(** A turn of each of the three loops; their errors are logged. *)
Definition tablesOnce : M (store * W) unit :=
  let! _ := runContainerOnce in
  let! _ := runConnectionOnce in
  let! _ := runHostnameOnce in
  mret ().

Lemma only_syncTables tn (s s' : store) :
  only tn s s' → DbOK (list_to_set [tn]) s' → DbOK (list_to_set syncTables) s → DbOK (list_to_set syncTables) s'.
Proof.
  intros Ho [Hwf Hd] [_ Hall]. split; [done|]. intros x Hx.
  destruct (decide (x = tn)) as [->|Hne]; [apply Hd; set_solver|].
  apply Hall in Hx. rewrite <-dom_abs, elem_of_dom in Hx. rewrite <-dom_abs, elem_of_dom.
  by rewrite (Ho x Hne).
Qed.

Lemma mine_json m k : mineOf m (jsonContainer <$> k) = jsonContainer <$> mineOf m k.
Proof.
  induction k as [|c k IH]; [done|]. unfold mineOf in *. rewrite fmap_cons, !filter_cons, IH.
  by repeat case_decide.
Qed.

(** A view that ignores what is not encoded sees the leader's containers. *)
Lemma view_mine {X} (f : Container → X) m (l k : list Container) :
  (∀ c, f (jsonContainer c) = f c) → l ≡ₚ jsonContainer <$> k → f <$> mineOf m l ≡ₚ f <$> mineOf m k.
Proof.
  intros Hf Hl. unfold mineOf at 1. rewrite Hl. fold (mineOf m (jsonContainer <$> k)).
  rewrite mine_json, <-list_fmap_compose. apply Permutation_refl', list_fmap_ext. intros. apply Hf.
Qed.

(** The rows of a worker after its turn, as the leader's rows [sl] and its own
    earlier rows [s] determine them. *)
Record following (m : Minion) (sl s s' : store) : Prop := {
  fo_containers : synced <$> vals (tbl Container s') ≡ₚ
    synced <$> mineOf m (published (vals (tbl Container sl)));
  fo_kept : kept_facts (vals (tbl Container s)) (vals (tbl Container s'))
    (mineOf m (published (vals (tbl Container sl))));
  fo_connections : set_cn_ID 0 <$> vals (tbl Connection s') ≡ₚ set_cn_ID 0 <$> vals (tbl Connection sl);
  fo_hostnames : hostnameKey <$> vals (tbl Hostname s') ≡ₚ hostnameKey <$> vals (tbl Hostname sl);
  fo_rest : ∀ tn, tn ∉ [ContainerTable; ConnectionTable; HostnameTable] → abs_rows s' !! tn = abs_rows s !! tn;
}.

(** All that a leader's turn leaves in the store. *)
Record shared (sl : store) (w : W) : Prop := {
  sh_containers : unmarshalContainers (text containerPath w) ≡ₚ
    jsonContainer <$> published (vals (tbl Container sl));
  sh_connections : unmarshalConnections (text connectionPath w) ≡ₚ set_cn_ID 0 <$> vals (tbl Connection sl);
  sh_hostnames : unmarshalHostnames (text hostnamePath w) ≡ₚ set_h_ID 0 <$> vals (tbl Hostname sl);
}.

Lemma wp_tables_leader s w Q :
  DbOK (list_to_set syncTables) s → is_leader s = true →
  Forall enc_container (vals (tbl Container s)) → Forall enc_connection (vals (tbl Connection s)) →
  Forall enc_hostname (vals (tbl Hostname s)) →
  (∀ s' w', same s s' → shared s w' → Q () (s', w')) → wp tablesOnce (s, w) Q.
Proof.
  intros Hok Hl Hc Hn Hh HQ. unfold tablesOnce. wp_bind.
  apply wp_container_leader; [done..|]. intros s1 w1 Hs1 [Hp1 _]. wp_bind.
  assert (is_leader s1 = true) as Hl1 by (unfold is_leader; by rewrite (same_tbl _ _ Hs1)).
  apply wp_connection_leader; [by apply (same_ok _ _ _ Hs1)|done|by rewrite (same_tbl _ _ Hs1)|].
  intros s2 w2 Hs2 [Hp2 Hk2]. pose proof (same_trans _ _ _ Hs1 Hs2) as Hs12. wp_bind.
  assert (is_leader s2 = true) as Hl2 by (unfold is_leader; by rewrite (same_tbl _ _ Hs12)).
  apply wp_hostname_leader; [by apply (same_ok _ _ _ Hs12)|done|by rewrite (same_tbl _ _ Hs12)|].
  intros s3 w3 Hs3 [Hp3 Hk3]. wp_ret. apply HQ; [by eapply same_trans|].
  assert (∀ p, p ≠ connectionPath → p ≠ hostnamePath → text p w3 = text p w1) as Htext.
  { intros p ??. unfold text. by rewrite Hk3, Hk2. }
  split.
  - by rewrite Htext.
  - unfold text. rewrite Hk3 by done. fold (text connectionPath w2). by rewrite Hp2, (same_tbl _ _ Hs1).
  - by rewrite Hp3, (same_tbl _ _ Hs12).
Qed.

Lemma wp_tables_worker sl s w m Q :
  shared sl w → DbOK (list_to_set syncTables) s → is_leader s = false →
  filter (passes (Some mi_Self)) (vals (tbl Minion s)) = [m] →
  NoDup (containerKey 0 <$> vals (tbl Container s)) →
  NoDup (etcdConnectionKey <$> vals (tbl Connection s)) →
  NoDup (hostnameKey <$> vals (tbl Hostname s)) →
  Forall words (vals (tbl Connection s)) → Forall words (vals (tbl Connection sl)) →
  (∀ s' w', kv w' = kv w → following m sl s s' → Q () (s', w')) → wp tablesOnce (s, w) Q.
Proof.
  intros [Hsc Hsn Hsh] Hok Hl Hm Hc Hn Hh Hw Hwl HQ. unfold tablesOnce. wp_bind.
  eapply wp_container_worker; [done..|]. intros s1 w1 Hw1 Ho1 Hok1 Hr1 Hk1. wp_bind.
  assert (is_leader s1 = false) as Hl1 by (unfold is_leader; by rewrite (only_tbl _ _ _ Ho1)).
  assert (tbl Connection s1 = tbl Connection s) as Hn1 by (by rewrite (only_tbl _ _ _ Ho1)).
  pose proof (only_syncTables _ _ _ Ho1 Hok1 Hok) as Hok1'.
  apply wp_connection_worker; rewrite ?Hn1; [done..| |].
  { unfold text. rewrite Hw1. fold (text connectionPath w). rewrite Hsn.
    rewrite Forall_forall in Hwl |- *. intros c (d & -> & Hd)%list_elem_of_fmap. by apply Hwl in Hd. }
  intros s2 w2 Hw2 Ho2 Hok2 Hr2. wp_bind.
  assert (is_leader s2 = false) as Hl2 by (unfold is_leader; by rewrite (only_tbl _ _ _ Ho2)).
  assert (tbl Hostname s2 = tbl Hostname s) as Hn2
    by (by rewrite (only_tbl _ _ _ Ho2), (only_tbl _ _ _ Ho1)).
  apply wp_hostname_worker; rewrite ?Hn2; [by eapply only_syncTables|done|done|].
  intros s3 w3 Hw3 Ho3 Hok3 Hr3. wp_ret. apply HQ; [congruence|].
  unfold text in Hr1, Hr2, Hr3. rewrite Hw2, Hw1 in Hr3. rewrite Hw1 in Hr2.
  assert (tbl Container s3 = tbl Container s1) as Hc3
    by (by rewrite (only_tbl _ _ _ Ho3), (only_tbl _ _ _ Ho2)).
  split.
  - rewrite Hc3, Hr1. by apply view_mine.
  - rewrite Hc3. intros o Hoo Hk. apply Hk1; [done|]. by rewrite (view_mine (containerKey 0) _ _ _ (λ _, eq_refl) Hsc).
  - rewrite (only_tbl _ _ _ Ho3), Hr2 by done. unfold text in Hsn. by rewrite Hsn, <-list_fmap_compose.
  - rewrite Hr3. unfold text in Hsh. by rewrite Hsh, <-list_fmap_compose.
  - intros tn Htn. rewrite Ho3, Ho2, Ho1 by set_solver. done.
Qed.
End composition.

(** ** Properties *)

(** C13: workers follow the leader.  After a turn of the leader's loops and
    then a turn of another minion's, the minion's connections and hostnames are
    the leader's, and its containers are the leader's placed and addressed
    containers that are the minion's to run (all of them on a master), up to
    row IDs and the facts only the minion knows: a container whose
    restart-relevant fields are unchanged keeps its row, pod, status and
    creation time.  The leader's tables and the minion's other tables stay as
    they are.  The minion's rows are assumed free of duplicates, which holds
    of an empty database and of every database that follows such a leader. *)
Theorem workers_follow_leader `{MapOrder} `{JSONLaws} `{GoSort} {W} `{KeyspaceLaws W}
    (leader worker : store) (w : W) (m : Minion) :
  DbOK (list_to_set syncTables) leader → is_leader leader = true →
  Forall enc_container (vals (tbl Container leader)) →
  Forall enc_connection (vals (tbl Connection leader)) →
  Forall enc_hostname (vals (tbl Hostname leader)) →
  DbOK (list_to_set syncTables) worker → is_leader worker = false →
  filter (passes (Some mi_Self)) (vals (tbl Minion worker)) = [m] →
  NoDup (containerKey 0 <$> vals (tbl Container worker)) →
  NoDup (etcdConnectionKey <$> vals (tbl Connection worker)) →
  NoDup (hostnameKey <$> vals (tbl Hostname worker)) →
  Forall words (vals (tbl Connection worker)) → Forall words (vals (tbl Connection leader)) →
  wp tablesOnce (leader, w) (λ _ st1, same leader st1.1 ∧
    wp tablesOnce (worker, st1.2) (λ _ st2, following m leader worker st2.1 ∧ kv st2.2 = kv st1.2)).
Proof.
  intros. apply wp_tables_leader; [done..|]. intros s' w' Hs Hsh. split; [done|].
  eapply wp_tables_worker; [exact Hsh|done..|]. auto.
Qed.

(** the minion table.  When the directory of minions can be read,
    [readMinion] makes the other minions of the table those in the directory
    that parse, told apart by every published field, and leaves the row of the
    minion itself alone even when the directory has an entry for its address. *)
Theorem readMinion_follows `{MapOrder} `{JSONLaws} {W} `{Store W} n (s : store) (w w' : W) tree m :
  GetTree minionPath w = Ok (EVal tree, w') →
  DbOK (list_to_set [MinionTable]) s → selfRows (vals (tbl Minion s)) = [m] →
  NoDup (minionKey <$> otherRows (vals (tbl Minion s))) →
  wp (readMinion n) (s, w) (λ _ st, st.2 = w' ∧ only MinionTable s st.1 ∧
    selfRows (vals (tbl Minion st.1)) = [m] ∧
    minionKey <$> otherRows (vals (tbl Minion st.1)) ≡ₚ
      minionKey <$> filter (λ x, mi_PrivateIP m ≠ mi_PrivateIP x) (treeMinions n tree)).
Proof.
  intros Ht Hok Hm Hnd. unfold readMinion. wp_bind. apply wp_onSnd. eapply wp_of_run; [exact Ht|].
  apply wp_onFst. apply wp_Run; [exact (DbOK_tables _ _ Hok)|].
  eapply wp_joinMinions; [done|set_solver|exact Hm|done| |].
  { apply Forall_forall. intros x (t & _ & Hx)%list_elem_of_omap.
    destruct (unmarshalMinion _) eqn:Hu; simplify_eq. by eapply minion_json. }
  intros s1 Hst Hself Hother s2 Hs2. simpl. rewrite !(same_tbl _ _ Hs2). split_and!; [done| |done|done].
  eapply only_trans; [apply Hst|by apply same_only].
Qed.

(** a store that cannot be read changes nothing.  When reading the key
    fails with anything but a missing key, each of the three loops returns that
    error with the database as it was, so an unreachable etcd never empties a
    worker's tables; a failed read of the minions' directory leaves the minion
    table alone. *)
Theorem unreadable_store_keeps_tables `{MapOrder} `{JSON} `{GoSort} {W} `{Store W} (s : store) (w w' : W) e :
  e ≠ KeyNotFound →
  (Get containerPath w = Ok (EErr e, w') → runContainerOnce (s, w) = Ok (EErr e, (s, w'))) ∧
  (Get connectionPath w = Ok (EErr e, w') → runConnectionOnce (s, w) = Ok (EErr e, (s, w'))) ∧
  (Get hostnamePath w = Ok (EErr e, w') → runHostnameOnce (s, w) = Ok (EErr e, (s, w'))) ∧
  (∀ n, GetTree minionPath w = Ok (EErr e, w') → readMinion n (s, w) = Ok ((), (s, w'))).
Proof.
  intros He. unfold runContainerOnce, runConnectionOnce, runHostnameOnce, readMinion, readEtcdNode, mbind, M_bind, onSnd.
  cbn [fst snd]. split_and!; [| | |intros n]; intros ->; by destruct e.
Qed.

(** ** Witnesses *)

Fixpoint posText (p : positive) : string :=
  match p with xH => "" | xO p => String "0" (posText p) | xI p => String "1" (posText p) end.
Fixpoint textPos (s : string) : positive :=
  match s with
  | EmptyString => xH
  | String c s => if bool_decide (c = "0"%char) then xO (textPos s) else xI (textPos s)
  end.
Lemma textPos_posText p : textPos (posText p) = p.
Proof. induction p as [p IH|p IH|]; simpl; by rewrite ?IH. Qed.

Definition encodeText {A} `{Countable A} (x : A) : string := posText (encode x).
Definition decodeText {A} `{Countable A} (s : string) : option A := decode (textPos s).
Lemma decode_encode_text {A} `{Countable A} (x : A) : decodeText (encodeText x) = Some x.
Proof. unfold decodeText, encodeText. by rewrite textPos_posText, decode_encode. Qed.

(** An encoding of rows, without the maps and mounts of containers. *)
Definition containerTuple (c : Container) :=
  (c_IP c, c_Minion c, c_BlueprintID c, c_PodName c, c_Status c, c_Command c, c_Hostname c, c_Created c,
   c_Privileged c, c_Image c).
Definition tupleContainer t :=
  let '(ip, m, b, p, st, cmd, h, cr, pr, im) := t in
  mk_Container 0 ip m b p st cmd ∅ ∅ h cr pr [] im "".
Definition connectionTuple (c : Connection) := (cn_From c, cn_To c, cn_MinPort c, cn_MaxPort c).
Definition tupleConnection t := let '(f, t, a, b) := t in mk_Connection 0 f t a b.

#[local] Instance demoJSON : JSON := {
  marshalContainers l := Val (encodeText (containerTuple <$> l));
  unmarshalContainers js := tupleContainer <$> default [] (decodeText js);
  marshalConnections l := Val (encodeText (connectionTuple <$> l));
  unmarshalConnections js := tupleConnection <$> default [] (decodeText js);
  marshalHostnames l := Val (encodeText (set_h_ID 0 <$> l));
  unmarshalHostnames js := default [] (decodeText js);
  marshalMinion m := Val (mi_PrivateIP m);
  unmarshalMinion js := if bool_decide (js = "") then Err "unexpected end of JSON input"
                        else Val (mk_Minion 0 false "" Worker js "" "" "" "" []);
}.

#[local] Instance demoJSON_laws : JSONLaws.
Proof.
  refine {| enc_container := λ c, c_Env c = ∅ ∧ c_FilepathToContent c = ∅ ∧ c_VolumeMounts c = [];
            enc_connection := λ _, True; enc_hostname := λ _, True |}.
  - intros l Hl. eexists. split; [reflexivity|]. cbn [unmarshalContainers demoJSON].
    rewrite decode_encode_text. simpl. rewrite <-list_fmap_compose. apply list_fmap_ext.
    intros i c Hc%list_elem_of_lookup_2. rewrite Forall_forall in Hl. destruct (Hl c Hc) as (He & Hf & Hv).
    destruct c; unfold jsonContainer; simpl in *. by subst.
  - intros l _. eexists. split; [reflexivity|]. cbn [unmarshalConnections demoJSON].
    rewrite decode_encode_text. simpl. rewrite <-list_fmap_compose. by apply list_fmap_ext.
  - intros l _. eexists. split; [reflexivity|]. cbn [unmarshalHostnames demoJSON]. by rewrite decode_encode_text.
  - intros v m. cbn [unmarshalMinion demoJSON]. case_bool; [done|]. by intros [= <-].
Defined.

#[local] Existing Instance stable_sort.

(** Keys and values; a directory's children are the keys below it. *)
#[local] Instance demoKeys : KeysAPI (gmap string string) := {
  kapi_Set key v o := λ w,
    match w !! key, so_PrevExist o with
    | Some _, PrevNoExist => Ok (EErr NodeExist, w)
    | None, PrevExist => Ok (EErr KeyNotFound, w)
    | _, _ => Ok (EVal (), <[key := v]> w)
    end;
  kapi_Get key recursive := λ w,
    if (recursive : bool) then
      Ok (EVal (mk_Node key "" ((λ kv, mk_Node kv.1 kv.2 []) <$> map_to_list w)), w)
    else match w !! key with
         | Some v => Ok (EVal (mk_Node key v []), w)
         | None => Ok (EErr KeyNotFound, w)
         end;
  kapi_Delete key := λ w, Ok (EVal (), delete key w);
  time_Sleep _ := λ w, Ok ((), w);
}.
#[local] Instance demoKeys_laws : KeyspaceLaws (gmap string string).
Proof.
  refine {| kv := λ w, w |}.
  - intros w key. unfold wp. simpl. destruct (w !! key) eqn:Hk; simpl; rewrite ?Hk; eauto.
  - intros w key v. unfold wp. simpl. by destruct (w !! key).
Defined.

Definition demo_ctr (id : Z) (ip minion name status : string) : Container :=
  mk_Container id ip minion name "" status [] ∅ ∅ name 0 false [] "img" "".
Definition demo_minion (id : Z) (self : bool) (role ip : string) : Minion :=
  mk_Minion id self "" role ip "" "" "" "" [].

Definition demo_leader : store :=
  storeOf [REtcd (mk_Etcd 1 [] true "10.1.1.9"); RMinion (demo_minion 2 true Master "10.1.1.9");
           RContainer (demo_ctr 3 "10.0.0.2" "10.1.1.1" "web" ""); RContainer (demo_ctr 4 "10.0.0.3" "10.1.1.2" "db" "");
           RContainer (demo_ctr 5 "" "" "new" ""); RConnection (mk_Connection 6 ["web"] ["db"] 80 80);
           RHostname (mk_Hostname 7 "web" "10.0.0.2")].
Definition demo_worker : store :=
  storeOf [REtcd (mk_Etcd 1 [] false "10.1.1.9"); RMinion (demo_minion 2 true Worker "10.1.1.1");
           RContainer (demo_ctr 3 "10.0.0.2" "10.1.1.1" "web" "running");
           RContainer (demo_ctr 4 "10.0.0.9" "10.1.1.1" "old" "running");
           RConnection (mk_Connection 5 ["old"] ["db"] 1 2)].

Lemma workers_follow_leader_witness :
  wp tablesOnce (demo_leader, ∅ : gmap string string) (λ _ st1, same demo_leader st1.1 ∧
    wp tablesOnce (demo_worker, st1.2) (λ _ st2,
      synced <$> vals (tbl Container st2.1) = [synced (demo_ctr 0 "10.0.0.2" "10.1.1.1" "web" "")] ∧
      (∃ r, r ∈ vals (tbl Container st2.1) ∧ c_ID r = 3%Z ∧ c_Status r = "running") ∧
      set_cn_ID 0 <$> vals (tbl Connection st2.1) = [mk_Connection 0 ["web"] ["db"] 80 80] ∧
      hostnameKey <$> vals (tbl Hostname st2.1) = [mk_Hostname 0 "web" "10.0.0.2"])).
Proof.
  eapply wp_mono; [apply (workers_follow_leader demo_leader demo_worker ∅ (demo_minion 2 true Worker "10.1.1.1"))|].
  - vm_decide.
  - reflexivity.
  - apply Forall_forall. intros c Hc. cut (c ∈ [demo_ctr 3 "10.0.0.2" "10.1.1.1" "web" "";
      demo_ctr 4 "10.0.0.3" "10.1.1.2" "db" ""; demo_ctr 5 "" "" "new" ""]); [|].
    + rewrite !elem_of_cons, elem_of_nil. by intros [->|[->|[->|[]]]].
    + revert c Hc. apply Forall_forall. vm_decide.
  - apply Forall_forall. done.
  - apply Forall_forall. done.
  - vm_decide.
  - reflexivity.
  - reflexivity.
  - vm_decide.
  - vm_decide.
  - vm_decide.
  - replace (vals (tbl Connection demo_worker)) with [mk_Connection 5 ["old"] ["db"] 1 2] by reflexivity.
    repeat constructor; simpl; try discriminate; done.
  - replace (vals (tbl Connection demo_leader)) with [mk_Connection 6 ["web"] ["db"] 80 80] by reflexivity.
    repeat constructor; simpl; try discriminate; done.
  - intros [] st1 [Hs Hw]. split; [done|]. eapply wp_mono; [exact Hw|].
    intros [] st2 [[Hc Hk Hn Hh _] _]. split_and!.
    + by apply Permutation_singleton_r in Hc.
    + destruct (Hk (demo_ctr 3 "10.0.0.2" "10.1.1.1" "web" "running")) as (r & Hr & _ & Hf);
        [vm_decide|vm_decide|]. exists r. unfold local_facts in Hf. by injection Hf.
    + by apply Permutation_singleton_r in Hn.
    + by apply Permutation_singleton_r in Hh.
Defined.

Lemma readMinion_follows_witness :
  wp (readMinion 0) (demo_worker, {["/minions/10.1.1.1" := "10.1.1.1"; "/minions/10.1.1.2" := "10.1.1.2"]})
    (λ _ st, selfRows (vals (tbl Minion st.1)) = [demo_minion 2 true Worker "10.1.1.1"] ∧
      minionKey <$> otherRows (vals (tbl Minion st.1)) = [minionKey (demo_minion 0 false Worker "10.1.1.2")]).
Proof.
  eapply wp_mono.
  - eapply (readMinion_follows 0 demo_worker _ _ _ (demo_minion 2 true Worker "10.1.1.1"));
      [reflexivity|vm_decide|reflexivity|vm_decide].
  - intros [] st (_ & _ & Hself & Hother). split; [done|].
    assert (∀ l k : list Minion, minionKey <$> l ≡ₚ minionKey <$> k → length k = 1 →
      minionKey <$> l = minionKey <$> k) as Hone.
    { intros l [|x [|]] Hp [=]. by apply Permutation_singleton_r in Hp. }
    by rewrite (Hone _ _ Hother).
Defined.

Lemma unreadable_store_keeps_tables_witness :
  let down := {| kapi_Set _ _ _ := λ w : unit, Ok (EErr (OtherError "timeout"), w);
                 kapi_Get _ _ := λ w, Ok (EErr (OtherError "timeout"), w);
                 kapi_Delete _ := λ w, Ok (EErr (OtherError "timeout"), w);
                 time_Sleep _ := λ w, Ok ((), w) |} in
  runContainerOnce (demo_worker, ()) = Ok (EErr (OtherError "timeout"), (demo_worker, ())).
Proof.
  intros down. by apply (unreadable_store_keeps_tables demo_worker () () (OtherError "timeout")).
Defined.
