(* ===== verification/NatRound.v ===== *)
(** * Package network: a turn of the NAT loop

    [runNat] and [getDefaultRouteIntfImpl] of [src/minion/network/nat.go]: the tables are read,
    and the chains of iptables are made to agree with them. *)

From S2P Require Import Prelude GoStrings Join Blueprint DbRows Db DbSpec DbTxn DbFrame Engine NatRules EtcdSync.

(** ** The interface of the default route *)

(** [nl.N.RouteList(0)] and [nl.N.LinkByIndex]: a route's destination, if it has one, and the index
    of its link; the name of a link. *)
Class RouteTable (W : Type) := {
  RouteList : M W (result (list (option string * Z)));
  LinkByIndex : Z → M W (result string);
}.
Definition getDefaultRouteIntfImpl {W} `{RouteTable W} : M W (result string) :=
  let! routes := RouteList in
  match routes with
  | Err e => mret (Err ("route list: " +:+ e))
  | Val routes =>
    match list_find (λ r, r.1 = None) routes with
    | None => mret (Err "missing default route")
    | Some (_, (_, index)) =>
      let! link := LinkByIndex index in
      mret (match link with Err e => Err ("default route missing interface: " +:+ e) | Val name => Val name end)
    end
  end.

(** ** A turn *)

Section turn.
Context `{MapOrder} {W : Type} `{IPTables W}.

(** [iptables.New] is [newIPTables]; errors are logged. *)
Definition runNatOnce (newIPTables : M W (result unit)) (n : nat) (inboundPubIntf outboundPubIntf : string) : M (store * W) unit :=
  let! minion := onFst connMinionSelf in
  if bool_decide (mi_Role minion ≠ Worker) then mret ()
  else
    let! connections := onFst (connSelect (T := Connection) None) in
    let! containers := onFst (connSelect (Some (λ c, bool_decide (c_IP c ≠ "")))) in
    let! ipt := onSnd newIPTables in
    match ipt with
    | Err _ => mret ()
    | Val _ => let! _ := onSnd (updateNAT n containers connections inboundPubIntf outboundPubIntf) in mret ()
    end.
End turn.

(** ** What it leaves behind *)

(** The default rules are appended once, and the default route has an interface. *)
Class NatLaws (W : Type) `{IPTablesLaws W} (defaultIntf : string) := {
  AppendUnique_ok t c args w : wp (AppendUnique t c args) w (λ e w', e = Val () ∧
    (∀ r, r ∈ rulesOf w' t c ↔ r ∈ rulesOf w t c ∨ r = Join_strings " " args) ∧
    ∀ t' c', (t', c') ≠ (t, c) → rulesOf w' t' c' = rulesOf w t' c');
  defaultIntf_ok w : getDefaultRouteIntf w = Ok (Val defaultIntf, w);
}.

Section spec.
Context `{MapOrder} {W : Type} `{NatLaws W defaultIntf}.
Implicit Types w : W.

Definition natChains : list (string * string) := [("nat", "PREROUTING"); ("nat", "POSTROUTING")].
Definition defaultChains : list (string * string) := [("filter", "FORWARD"); ("nat", "INPUT"); ("nat", "OUTPUT")].
Definition chosenIntf (intf : string) : string := if bool_decide (intf = "") then defaultIntf else intf.

Lemma wp_pickIntfs inb outb w Q : Q (Val (chosenIntf inb, chosenIntf outb)) w → wp (pickIntfs inb outb) w Q.
Proof.
  intros HQ. unfold pickIntfs. wp_bind. unfold chosenIntf in HQ.
  destruct (bool_decide (inb = "")); [|destruct (bool_decide (outb = ""))]; simpl;
    [eapply wp_of_run; [apply defaultIntf_ok|]; wp_ret; exact HQ..|]. wp_ret. wp_ret. exact HQ.
Qed.

(** The default rules are there, and all chains but theirs are as they were. *)
Definition defaultsSet w w' : Prop :=
  (∀ t c, (t, c) ∈ defaultChains → "-j ACCEPT" ∈ rulesOf w' t c) ∧ ∀ t c, (t, c) ∉ defaultChains → rulesOf w' t c = rulesOf w t c.

Lemma wp_setDefaultRules w Q : (∀ w', defaultsSet w w' → Q (Val ()) w') → wp setDefaultRules w Q.
Proof.
  intros HQ. unfold setDefaultRules, defaultRules. simpl.
  wp_bind. eapply wp_mono; [apply AppendUnique_ok|]. intros e w1 (-> & Hr1 & Ho1).
  wp_bind. eapply wp_mono; [apply AppendUnique_ok|]. intros e w2 (-> & Hr2 & Ho2).
  wp_bind. eapply wp_mono; [apply AppendUnique_ok|]. intros e w3 (-> & Hr3 & Ho3). wp_ret. apply HQ. split.
  - intros t c Hin. repeat (apply elem_of_cons in Hin as [[= -> ->]|Hin]); [| | |by apply not_elem_of_nil in Hin].
    + rewrite Ho3, Ho2 by done. apply Hr1. by right.
    + rewrite Ho3 by done. apply Hr2. by right.
    + apply Hr3. by right.
  - intros t c Hin. unfold defaultChains in Hin. rewrite !not_elem_of_cons in Hin. destruct Hin as (? & ? & ? & _). by rewrite Ho3, Ho2, Ho1.
Qed.

(** [w'] has the rules for these tables. *)
Record natted (n : nat) (inb outb : string) (containers : list Container) (connections : list Connection) w w' : Prop := {
  nt_pre : ∀ key, key ∈ ruleKey n <$> rulesOf w' "nat" "PREROUTING" ↔
    ∃ c conn protocol, c ∈ containers ∧ conn ∈ connections ∧ protocol ∈ protocols ∧ PublicInternetLabel ∈ cn_From conn ∧ c_Hostname c ∈ cn_To conn ∧
      key = ruleKey n (preroutingRule inb protocol (cn_MinPort conn) (c_IP c));
  nt_post : ∀ key, key ∈ ruleKey n <$> rulesOf w' "nat" "POSTROUTING" ↔
    ∃ c conn protocol, c ∈ containers ∧ conn ∈ connections ∧ protocol ∈ protocols ∧ c_Hostname c ∈ cn_From conn ∧
      key = ruleKey n (postroutingRule outb protocol (cn_MinPort conn) (c_IP c));
  nt_once : NoDup (ruleKey n <$> rulesOf w' "nat" "PREROUTING") ∧ NoDup (ruleKey n <$> rulesOf w' "nat" "POSTROUTING");
  nt_defaults : ∀ t c, (t, c) ∈ defaultChains → "-j ACCEPT" ∈ rulesOf w' t c;
  nt_others : ∀ t c, (t, c) ∉ natChains → (t, c) ∉ defaultChains → rulesOf w' t c = rulesOf w t c;
}.

(** No two rules have one key. *)
Definition distinctRules (n : nat) (inb outb : string) (containers : list Container) (connections : list Connection) : Prop :=
  NoDup (ruleKey n <$> preroutingRules n inb containers connections) ∧ NoDup (ruleKey n <$> postroutingRules n outb containers connections).

Lemma wp_updateNAT n inb outb containers connections w :
  NoDup (ruleKey n <$> rulesOf w "nat" "PREROUTING") → NoDup (ruleKey n <$> rulesOf w "nat" "POSTROUTING") →
  distinctRules n (chosenIntf inb) (chosenIntf outb) containers connections →
  wp (updateNAT n containers connections inb outb) w (λ r w', r = Val () ∧ natted n (chosenIntf inb) (chosenIntf outb) containers connections w w').
Proof.
  intros Hpre Hpost [Hd1 Hd2]. unfold updateNAT. wp_bind. apply wp_pickIntfs. wp_bind. apply wp_setDefaultRules. intros w1 [Hdef Hoth].
  wp_bind. apply wp_syncChain; [done|by rewrite Hoth by vm_decide|done|]. intros w2 pre [Hr2 Ho2] Hk2 _.
  apply wp_syncChain; [done|by rewrite Ho2, Hoth by vm_decide|done|]. intros w3 post [Hr3 Ho3] Hk3 _. split; [done|].
  assert (ruleKey n <$> rulesOf w3 "nat" "PREROUTING" ≡ₚ ruleKey n <$> preroutingRules n (chosenIntf inb) containers connections) as Hp.
  { rewrite Ho3 by done. by rewrite Hr2. }
  assert (ruleKey n <$> rulesOf w3 "nat" "POSTROUTING" ≡ₚ ruleKey n <$> postroutingRules n (chosenIntf outb) containers connections) as Hq by by rewrite Hr3.
  split.
  - intros key. rewrite Hp, list_elem_of_fmap. setoid_rewrite preroutingRules_exact. naive_solver.
  - intros key. rewrite Hq, list_elem_of_fmap. setoid_rewrite postroutingRules_ignore_destination. naive_solver.
  - by rewrite Hp, Hq.
  - intros t c Hin. rewrite Ho3, Ho2; [by apply Hdef| |]; intros [= -> ->]; revert Hin; vm_decide.
  - intros t c Hn Hd. unfold natChains in Hn. rewrite !not_elem_of_cons in Hn. destruct Hn as (? & ? & _). rewrite Ho3, Ho2 by done. by apply Hoth.
Qed.
End spec.

(** ** Properties *)

Definition natTables : list string := [ContainerTable; ConnectionTable; MinionTable].


(** ** A worker *)

#[local] Existing Instance NatRules.sim_IPTables.
#[local] Existing Instance NatRules.sim_IPTablesLaws.
#[local] Instance sim_NatLaws : NatLaws simTables "eth0".
Proof.
  split; [|done]. intros t c args w. unfold wp. cbn [AppendUnique NatRules.sim_IPTables rulesOf NatRules.sim_IPTablesLaws].
  split; [done|]. case_bool as [Hin|Hin].
  - split; [|done]. intros r. split; [by left|]. by intros [?| ->].
  - split.
    + intros r. rewrite chainRules_insert, decide_True, elem_of_app, list_elem_of_singleton by done. done.
    + intros t' c' Hne. by rewrite chainRules_insert, decide_False.
Qed.

(** The public internet may reach the first container on port 80; the second has no address yet. *)
Definition demo_natDb : store :=
  storeOf [RMinion (demo_minion 2 true Worker "10.1.1.1"); RContainer (demo_ctr 3 "10.0.0.2" "10.1.1.1" "web" "running");
           RContainer (demo_ctr 4 "" "" "new" ""); RConnection (mk_Connection 6 [PublicInternetLabel] ["web"] 80 80)].

Example nat_round_example :
  match runNatOnce (mret (Val ())) 0 "" "" (demo_natDb, demo_chain) with
  | Ok (_, (_, w)) => (chainRules w "nat" "PREROUTING", chainRules w "filter" "FORWARD")
  | Panic _ => ([], [])
  end = (["-i eth0 -p tcp -m tcp --dport 80 -j DNAT --to-destination 10.0.0.2:80";
        "-i eth0 -p udp -m udp --dport 80 -j DNAT --to-destination 10.0.0.2:80"], ["-j ACCEPT"]).
Proof. vm_compute. reflexivity. Qed.

