(* ===== verification/Keys.v ===== *)
(** * Package minion: the SSH keys

    [src/minion/keys.go]: the keys that the foreman sent are written to the authorized
    keys of the machine. *)

From S2P Require Import Prelude GoStrings Join Blueprint DbRows Db DbSpec DbTxn EtcdSync.

Definition authorizedKeysFile : string := "/home/kelda/.ssh/authorized_keys".

(** [util.AppFs]: whether a file is there, creating an empty one, reading and writing. *)
Class KeyFs (W : Type) := {
  fsStat : string → M W bool;
  fsCreate : string → M W unit;
  fsRead : string → M W (result string);
  fsWrite : string → string → M W (result unit);
}.

Section keys.
Context `{MapOrder} {W : Type} `{KeyFs W}.

Definition keysRunOnce : M (store * W) (result unit) :=
  let! there := onSnd (fsStat authorizedKeysFile) in
  (if there : bool then mret () else onSnd (fsCreate authorizedKeysFile)) ;;;
  let? currKeys := onSnd (fsRead authorizedKeysFile) in
  let! m := onFst connMinionSelf in
  if bool_decide (mi_AuthorizedKeys m = currKeys) then mret (Val ())
  else onSnd (fsWrite authorizedKeysFile (mi_AuthorizedKeys m)).

(** [waitForConfig] polls the database, which others change meanwhile; [Some] once there are keys, [None] if
    it would poll more often than [fuel] times. *)
Fixpoint waitForConfig (fuel : nat) (others : store → store) : M store (option unit) :=
  match fuel with
  | 0 => mret None
  | S fuel =>
    let! m := connMinionSelf in
    if bool_decide (mi_AuthorizedKeys m ≠ "") then mret (Some ())
    else modify others ;;; waitForConfig fuel others
  end.

(** The contents of the file, if it is there. *)
Class KeyFsLaws := {
  keyFile : W → option string;
  fsStat_ok w : wp (fsStat authorizedKeysFile) w (λ b w', w' = w ∧ (b = true ↔ is_Some (keyFile w)));
  fsCreate_ok w : wp (fsCreate authorizedKeysFile) w (λ _ w', keyFile w' = Some "" ∨ keyFile w' = keyFile w);
  fsRead_ok w : wp (fsRead authorizedKeysFile) w (λ r w', w' = w ∧ ∀ s, r = Val s → keyFile w = Some s);
  fsWrite_ok s w : wp (fsWrite authorizedKeysFile s) w (λ r w', r = Val () → keyFile w' = Some s);
}.

(** A round without error leaves exactly the keys of the minion's configuration in the file; it never changes the
    database, and does not write a file that is right. *)
Theorem keys_follow_config `{KeyFsLaws} s w m :
  DbOK (list_to_set [MinionTable]) s → filter (passes (Some mi_Self)) (vals (tbl Minion s)) = [m] →
  wp keysRunOnce (s, w) (λ r st, same s st.1 ∧ (r = Val () → keyFile st.2 = Some (mi_AuthorizedKeys m)) ∧
    (keyFile w = Some (mi_AuthorizedKeys m) → st.2 = w)).
Proof.
  intros Hok Hm. unfold keysRunOnce. wp_bind. apply wp_onSnd. cbn [fst snd]. eapply wp_mono; [apply fsStat_ok|]. intros there w1 [-> Hb]. wp_bind.
  assert (wp (if there : bool then mret () else onSnd (fsCreate authorizedKeysFile)) (s, w) (λ _ st, st.1 = s ∧ (is_Some (keyFile w) → st.2 = w))) as Hc.
  { destruct there; [by wp_ret|]. apply wp_onSnd. cbn [fst snd]. eapply wp_mono; [apply fsCreate_ok|]. intros u w2 _. split; [done|]. by intros ?%Hb. }
  eapply wp_mono; [exact Hc|]. intros u [s2 w2] [Hs2 Hw2]. cbn [fst snd] in *. subst s2. apply wp_try, wp_onSnd. cbn [fst snd].
  eapply wp_mono; [apply fsRead_ok|]. intros [curr|e] w3 [-> Hr]; [|split_and!; [done|done|]; by intros Hk; apply Hw2; rewrite Hk].
  specialize (Hr _ eq_refl). wp_bind. apply wp_onFst. cbn [fst snd]. eapply wp_connMinionSelf; [exact Hok|exact Hm|]. intros s3 Hs3. cbn [fst snd].
  case_bool as [Hk|Hk]; [wp_ret; split_and!; [done|by rewrite Hk|]; intros Heq; apply Hw2; by rewrite Heq|].
  apply wp_onSnd. cbn [fst snd]. eapply wp_mono; [apply fsWrite_ok|]. intros r w4 Hw4. split_and!; [done|done|]. intros Heq.
  exfalso. specialize (Hw2 ltac:(by rewrite Heq)). subst w2. congruence.
Qed.
End keys.
