(* ===== verification/EtcdElect.v ===== *)
(** * Package etcd: leader election

    [src/minion/etcd/elector.go]: the masters campaign for a key that expires.
    A master that holds the key refreshes it, the others try to create it.  The
    system is a step relation over the databases of all masters and the shared
    cluster; time passes, replies get lost, and the theorem is that two masters
    which renewed within the key's lifetime are the same. *)

From S2P Require Import Prelude GoStrings Join Blueprint DbRows Db DbSpec DbTxn DbFrame Engine Dns Etcd EtcdSync.

(** ** What the election relies on *)

(** Who holds a key at time [t], given its value and when it expires. *)
Definition holder (l : option (string * Z)) (t : Z) : option string :=
  match l with Some (v, e) => if bool_decide (t < e)%Z then Some v else None | None => None end.

(** The conditions of a conditional write. *)
Definition allowed (o : SetOptions) (h : option string) : Prop :=
  match so_PrevExist o with
  | PrevNoExist => h = None
  | PrevExist => h ≠ None
  | PrevIgnore => True
  end ∧ (so_PrevValue o ≠ "" → h = Some (so_PrevValue o)).

(** [lease] is what etcd stores under the leader key, [now] its clock.  A
    conditional write is applied at some moment of the call, if its conditions
    hold then, or it is not and fails; the reply to an applied write may be
    lost. *)
Class LeaseLaws (W : Type) `{KeysAPI W} := {
  now : W → Z;
  lease : W → option (string * Z);
  lease_Set : ∀ w v o, wp (kapi_Set leaderKey v o) w (λ r w', (now w ≤ now w')%Z ∧
    ((∃ t, (now w ≤ t ≤ now w')%Z ∧ allowed o (holder (lease w) t) ∧ lease w' = Some (v, t + so_TTL o)%Z) ∨
     (lease w' = lease w ∧ ∃ e, r = EErr e)));
  lease_Get : ∀ w, wp (kapi_Get leaderKey false) w (λ _ w', lease w' = lease w ∧ (now w ≤ now w')%Z);
  lease_Sleep : ∀ w d, wp (time_Sleep d) w (λ _ w', lease w' = lease w ∧ (now w ≤ now w')%Z);
}.

(** ** A turn *)

Definition electTables : list string := [EtcdTable; MinionTable].

(** The database of a master with address [ip]. *)
Definition member (ip : string) (s : store) : Prop :=
  DbOK (list_to_set electTables) s ∧
  ∃ m, selfRows (vals (tbl Minion s)) = [m] ∧ mi_Role m = Master ∧ mi_PrivateIP m = ip ∧ ip ≠ "".

(** The write a campaigning master asks for. *)
Definition campaignOptions (leader : bool) (ip : string) : SetOptions :=
  if leader then mk_SetOptions ip PrevExist electionTTL false
  else mk_SetOptions "" PrevNoExist electionTTL false.

Section turn.
Context `{MapOrder} {W : Type} `{LeaseLaws W}.
Implicit Types (s : store) (w : W).

Lemma electTables_one s tn : DbOK (list_to_set electTables) s → tn ∈ electTables → DbOK (list_to_set [tn]) s.
Proof. intros Hok Hin. eapply DbOK_subset; [exact Hok|set_solver]. Qed.

Lemma member_same ip s s' : same s s' → member ip s → member ip s'.
Proof. intros Hs [Hok Hm]. split; [by eapply same_ok|]. by rewrite (same_tbl _ _ Hs). Qed.

Lemma member_only ip s s' :
  only EtcdTable s s' → DbOK (list_to_set [EtcdTable]) s' → member ip s → member ip s'.
Proof.
  intros Ho [Hwf Hd] [[_ Hall] Hm]. split; [split; [done|]|by rewrite (only_tbl _ _ _ Ho)].
  intros x Hx. destruct (decide (x = EtcdTable)) as [->|Hne]; [apply Hd; set_solver|].
  apply Hall in Hx. rewrite <-dom_abs, elem_of_dom in Hx |- *. by rewrite (Ho x Hne).
Qed.

(** A transaction that rewrites the one row of the Etcd table. *)
Lemma wp_update_etcd (f : Etcd → Etcd) s row Q :
  DbOK (list_to_set [EtcdTable]) s → vals (tbl Etcd s) = [row] → e_ID (f row) = e_ID row →
  (∀ s', only EtcdTable s s' → DbOK (list_to_set [EtcdTable]) s' → vals (tbl Etcd s') = [f row] → Q () s') →
  wp (Run [EtcdTable] (λ view,
        let! etcdRows := SelectFrom view None in
        match etcdRows with [row] => CommitT view (f row) | _ => mret () end)) s Q.
Proof.
  intros Hok Hrow Hid HQ. apply wp_Run; [exact (DbOK_tables _ _ Hok)|]. wp_select s1 Hs1 l Hl.
  rewrite Hrow in Hl. apply Permutation_singleton_r in Hl as ->.
  eapply (wp_frame_commit _ _ row _ []); [by eapply same_ok|set_solver|by rewrite (same_tbl _ _ Hs1), Hrow|done|].
  intros s2 Hst Hv s3 Hs3. apply HQ.
  - eapply only_trans; [by apply same_only|]. eapply only_trans; [apply Hst|by apply same_only].
  - eapply same_ok; [exact Hs3|apply Hst].
  - rewrite (same_tbl _ _ Hs3). by apply Permutation_singleton_r.
Qed.

Lemma campaignCall_Set leader ip :
  campaignCall leader ip = kapi_Set leaderKey ip (campaignOptions leader ip).
Proof. by destruct leader. Qed.

(** Before and after a turn of a master: either it took or renewed the key, or
    it knows that it does not lead. *)
Record campaigned (ip : string) s w s' w' : Prop := {
  ca_member : member ip s';
  ca_time : (now w ≤ now w')%Z;
  ca_key : lease w' = lease w ∧ is_leader s' = false ∨
    ∃ t, (now w ≤ t ≤ now w')%Z ∧ allowed (campaignOptions (is_leader s) ip) (holder (lease w) t) ∧
      lease w' = Some (ip, t + electionTTL)%Z;
}.

Lemma campaign_ttl leader ip : so_TTL (campaignOptions leader ip) = electionTTL.
Proof. by destruct leader. Qed.

(** The reply decides what is committed. *)
Lemma wp_campaign_commit ip s w row m (Q : unit → store * W → Prop) :
  member ip s → selfRows (vals (tbl Minion s)) = [m] → mi_PrivateIP m = ip → vals (tbl Etcd s) = [row] →
  (∀ s' w', campaigned ip s w s' w' → Q () (s', w')) →
  wp (let! err := onSnd (campaignCall (e_Leader row) ip) in
      match err with
      | EVal _ => onFst (commitLeader true (Some ip))
      | EErr NodeExist => onFst (commitLeader false None)
      | EErr _ => onFst (commitLeader false (Some "")) ;;; onSnd (Sleep electionTTL)
      end) (s, w) Q.
Proof.
  intros Hmem Hself Hip Hrow HQ. assert (is_leader s = e_Leader row) as Hl by (unfold is_leader; by rewrite Hrow).
  assert (DbOK (list_to_set [EtcdTable]) s) as Hok by (apply electTables_one; [apply Hmem|vm_decide]).
  assert (∀ leader oip s', only EtcdTable s s' → DbOK (list_to_set [EtcdTable]) s' →
    vals (tbl Etcd s') = [setLeader leader oip row] → member ip s' ∧ is_leader s' = leader) as Hfin.
  { intros leader oip s' Ho Hok' Hv. split; [by eapply member_only|]. unfold is_leader. by rewrite Hv. }
  wp_bind. apply wp_onSnd. rewrite campaignCall_Set, <-Hl. wp_use lease_Set. rewrite campaign_ttl.
  intros r w1 [Hnow Hkey]. cbn [fst snd] in *.
  assert (∀ w2 s', lease w2 = lease w1 → (now w1 ≤ now w2)%Z → member ip s' → is_leader s' = false →
    campaigned ip s w s' w2) as Hlost.
  { intros w2 s' Hlease Hle Hm Hf. split; [done|lia|]. rewrite Hlease.
    destruct Hkey as [(t & ? & Hal & ?)|[? _]]; [right|by left]. exists t. split; [lia|by split]. }
  destruct r as [[]|e].
  - apply wp_onFst. eapply (wp_update_etcd (setLeader true (Some ip))); [done|exact Hrow|done|].
    intros s' Ho Hok' Hv. destruct (Hfin _ _ _ Ho Hok' Hv) as [? ?]. apply HQ. split; [done|done|].
    destruct Hkey as [(t & ? & Hal & ?)|[_ [e He]]]; [|done]. right. by exists t.
  - assert (∀ oip Q', (∀ s', member ip s' → is_leader s' = false → Q' () (s', w1)) →
      wp (onFst (commitLeader false oip)) (s, w1) Q') as Hc.
    { intros oip Q' HQ'. apply wp_onFst. eapply (wp_update_etcd (setLeader false oip)); [done|exact Hrow|done|].
      intros s' Ho Hok' Hv. by destruct (Hfin _ _ _ Ho Hok' Hv); apply HQ'. }
    destruct e; [wp_bind| |wp_bind|wp_bind]; apply Hc; intros s' Hm Hf; [|by apply HQ, Hlost; [|lia|..]|..];
      apply wp_onSnd; (wp_use lease_Sleep); intros [] w2 [??]; by apply HQ, Hlost.
Qed.

Lemma wp_campaignOnce ip s w :
  member ip s → wp campaignOnce (s, w) (λ _ st, campaigned ip s w st.1 st.2).
Proof.
  intros Hmem. destruct (Hmem) as [Hok (m & Hself & Hrole & Hip & Hne)]. unfold campaignOnce. wp_bind.
  apply wp_onFst, wp_connSelect_all; [by apply electTables_one; [|vm_decide]|].
  intros l s1 Hs1 Hl. cbn [fst snd] in *. wp_bind.
  apply wp_onFst. eapply wp_connMinionSelf; [apply (same_ok _ _ _ Hs1); by apply electTables_one; [|vm_decide]
    |rewrite (same_tbl _ _ Hs1); exact Hself|].
  intros s2 Hs2. cbn [fst snd] in *. pose proof (same_trans _ _ _ Hs1 Hs2) as Hs.
  pose proof (member_same _ _ _ Hs Hmem) as Hmem2.
  assert (is_leader s2 = is_leader s) as Hlead by (unfold is_leader; by rewrite (same_tbl _ _ Hs)).
  assert (length l ≠ 1 → campaigned ip s w s2 w) as Hskip.
  { intros Hlen. split; [done|lia|]. left. split; [done|]. rewrite Hlead. unfold is_leader.
    rewrite Hl in Hlen. revert Hlen. destruct (vals (tbl Etcd s)) as [|? []]; done. }
  destruct l as [|row [|]]; [by wp_ret; apply Hskip| |by wp_ret; apply Hskip].
  symmetry in Hl. apply Permutation_singleton_r in Hl. rewrite Hrole. simpl_bd. rewrite Hip. simpl_bd.
  eapply wp_campaign_commit; [done|by rewrite (same_tbl _ _ Hs)|done|by rewrite (same_tbl _ _ Hs)|].
  intros s' w' [Hm Ht Hk]. split; [done|done|]. by rewrite Hlead in Hk.
Qed.

Lemma wp_watchLeaderOnce ip s w :
  member ip s → wp watchLeaderOnce (s, w) (λ _ st, member ip st.1 ∧ is_leader st.1 = is_leader s ∧
    lease st.2 = lease w ∧ (now w ≤ now st.2)%Z).
Proof.
  intros Hmem. unfold watchLeaderOnce. wp_bind. apply wp_onSnd. cbn [Get store_Store]. unfold store_Get. wp_bind.
  wp_use lease_Get. intros r w1 [Hlease Hnow].
  assert (∀ leader, wp (Run [EtcdTable] (λ view,
    let! etcdRows := SelectFrom view None in
    match etcdRows with
    | [row] => CommitT view (mk_Etcd (e_ID row) (e_EtcdIPs row) (e_Leader row) leader)
    | _ => mret ()
    end)) s (λ _ s', member ip s' ∧ is_leader s' = is_leader s)) as Hrun.
  { intros leader. assert (DbOK (list_to_set [EtcdTable]) s) as Hok by (apply electTables_one; [apply Hmem|vm_decide]).
    destruct (decide (length (vals (tbl Etcd s)) = 1)) as [Hlen|Hlen].
    - destruct (vals (tbl Etcd s)) as [|row []] eqn:Hrow; try done.
      eapply (wp_update_etcd (λ row, mk_Etcd (e_ID row) (e_EtcdIPs row) (e_Leader row) leader)); [done|exact Hrow|done|].
      intros s' Ho Hok' Hv. split; [by eapply member_only|]. unfold is_leader. by rewrite Hv, Hrow.
    - apply wp_Run; [exact (DbOK_tables _ _ Hok)|]. wp_select s1 Hs1 l Hl. rewrite <-Hl in Hlen.
      assert (∀ s3, same s1 s3 → member ip s3 ∧ is_leader s3 = is_leader s) as Hfin.
      { intros s3 Hs3. pose proof (same_trans _ _ _ Hs1 Hs3) as Hs. split; [by eapply member_same|].
        unfold is_leader. by rewrite (same_tbl _ _ Hs). }
      destruct l as [|? [|]]; [by wp_ret|done|by wp_ret]. }
  destruct r; wp_ret; apply wp_onFst; (eapply wp_mono; [apply Hrun|]); intros [] s' [??]; auto.
Qed.
End turn.

(** ** The masters together *)

Section system.
Context `{MapOrder} {W : Type} `{LeaseLaws W}.

(** The masters' databases by address, the cluster, and, for the statement
    only, when the last turn in which a master got the key began. *)
Record system := mk_system {
  nodes : gmap string store;
  world : W;
  granted : gmap string Z;
}.

Inductive step : system → system → Prop :=
  (** a turn of [campaign] *)
  | step_campaign σ ip s s' w' :
      nodes σ !! ip = Some s → campaignOnce (s, world σ) = Ok ((), (s', w')) →
      step σ (mk_system (<[ip := s']> (nodes σ)) w'
                (if is_leader s' then <[ip := now (world σ)]> (granted σ) else delete ip (granted σ)))
  (** a turn of [watchLeader] *)
  | step_watch σ ip s s' w' :
      nodes σ !! ip = Some s → watchLeaderOnce (s, world σ) = Ok ((), (s', w')) →
      step σ (mk_system (<[ip := s']> (nodes σ)) w' (granted σ))
  (** anything else on a master, which does not make it the leader *)
  | step_local σ ip s s' :
      nodes σ !! ip = Some s → member ip s' → (is_leader s' = true → is_leader s = true) →
      step σ (mk_system (<[ip := s']> (nodes σ)) (world σ) (granted σ))
  (** time passes and other keys change *)
  | step_world σ w' :
      lease w' = lease (world σ) → (now (world σ) ≤ now w')%Z →
      step σ (mk_system (nodes σ) w' (granted σ)).

(** A start: no master thinks it leads; the key may hold anything. *)
Definition initial (σ : system) : Prop :=
  (∀ ip s, nodes σ !! ip = Some s → member ip s ∧ is_leader s = false) ∧ granted σ = ∅.

(** The master at [ip] leads on a grant that has not run out. *)
Definition leads (σ : system) (ip : string) : Prop :=
  ∃ s t, nodes σ !! ip = Some s ∧ is_leader s = true ∧ granted σ !! ip = Some t ∧
    (now (world σ) < t + electionTTL)%Z.

(** The invariant: who was granted the key within its lifetime still holds it. *)
Record election_ok (σ : system) : Prop := {
  eo_member : ∀ ip s, nodes σ !! ip = Some s → member ip s;
  eo_granted : ∀ ip s, nodes σ !! ip = Some s → is_leader s = true → is_Some (granted σ !! ip);
  eo_lease : ∀ ip t, granted σ !! ip = Some t → (now (world σ) < t + electionTTL)%Z →
    ∃ e, lease (world σ) = Some (ip, e) ∧ (t + electionTTL ≤ e)%Z;
}.

Lemma wp_result {S A} (m : M S A) s Q a s' : wp m s Q → m s = Ok (a, s') → Q a s'.
Proof. unfold wp. intros Hm Hr. by rewrite Hr in Hm. Qed.

(** Nobody else holds a lease when the key may be written. *)
Lemma allowed_excludes leader ip ip' l e t :
  l = Some (ip', e) → (t < e)%Z → ip' ≠ ip → ip ≠ "" → ¬ allowed (campaignOptions leader ip) (holder l t).
Proof.
  intros -> Ht Hne Hip [Hex Hval]. simpl in *. rewrite bool_decide_eq_true_2 in * by done.
  destruct leader; simpl in *; [|done]. specialize (Hval Hip). congruence.
Qed.

Lemma step_campaign_ok σ ip s s' w' :
  election_ok σ → nodes σ !! ip = Some s → campaigned ip s (world σ) s' w' →
  election_ok (mk_system (<[ip := s']> (nodes σ)) w'
    (if is_leader s' then <[ip := now (world σ)]> (granted σ) else delete ip (granted σ))).
Proof.
  intros [Hmem Hgr Hle] Hs [Hm Ht Hk]. destruct Hm as [Hok (m & Hself & Hrole & Hip & Hne)] eqn:Hmm. clear Hmm.
  assert (member ip s') as Hm' by (split; [done|by exists m]). split; simpl.
  - intros ip1 s1 [[-> <-]|[_ ?]]%lookup_insert_Some; eauto.
  - intros ip1 s1 [[<- <-]|[Hd Hs1]]%lookup_insert_Some Hl1.
    + rewrite Hl1, lookup_insert_eq. eauto.
    + destruct (is_leader s'); [rewrite lookup_insert_ne by done|rewrite lookup_delete_ne by done]; eauto.
  - intros ip1 t1 Hg1 Hfresh. destruct (decide (ip1 = ip)) as [->|Hd].
    + destruct (is_leader s') eqn:Hl'; [|by rewrite lookup_delete_eq in Hg1].
      rewrite lookup_insert_eq in Hg1. injection Hg1 as <-.
      destruct Hk as [[_ ?]|(t & Ht1 & _ & ->)]; [done|]. eexists. split; [done|lia].
    + assert (granted σ !! ip1 = Some t1) as Hg.
      { destruct (is_leader s'); [rewrite lookup_insert_ne in Hg1 by done|rewrite lookup_delete_ne in Hg1 by done]; done. }
      destruct (Hle ip1 t1 Hg) as (e & Hlease & He); [lia|].
      destruct Hk as [[-> _]|(t & Ht1 & Hal & _)]; [eauto|].
      destruct (allowed_excludes (is_leader s) ip ip1 (lease (world σ)) e t); [done|lia|done|done|done].
Qed.

Lemma step_quiet_ok σ ip s s' w' :
  election_ok σ → nodes σ !! ip = Some s → member ip s' → (is_leader s' = true → is_leader s = true) →
  lease w' = lease (world σ) → (now (world σ) ≤ now w')%Z →
  election_ok (mk_system (<[ip := s']> (nodes σ)) w' (granted σ)).
Proof.
  intros [Hmem Hgr Hle] Hs Hm Hl Hlease Hnow. split; simpl.
  - intros ip1 s1 [[-> <-]|[_ ?]]%lookup_insert_Some; eauto.
  - intros ip1 s1 [[<- <-]|[_ ?]]%lookup_insert_Some ?; eauto.
  - intros ip1 t1 Hg Hf. rewrite Hlease. apply Hle; [done|lia].
Qed.

Lemma election_step σ σ' : election_ok σ → step σ σ' → election_ok σ'.
Proof.
  intros Hok Hst. destruct Hst as [σ ip s s' w' Hs Hrun|σ ip s s' w' Hs Hrun|σ ip s s' Hs Hm Hl|σ w' Hlease Hnow].
  - apply (step_campaign_ok _ _ s); [done|done|].
    exact (wp_result _ _ _ _ _ (wp_campaignOnce ip s (world σ) (eo_member _ Hok _ _ Hs)) Hrun).
  - destruct (wp_result _ _ _ _ _ (wp_watchLeaderOnce ip s (world σ) (eo_member _ Hok _ _ Hs)) Hrun)
      as (Hm & Hl & Hlease & Hnow).
    apply (step_quiet_ok _ _ s); [done|done|done|by simpl in Hl; rewrite Hl|done|done].
  - by apply (step_quiet_ok _ _ s).
  - destruct Hok as [Hmem Hgr Hle]. split; simpl; [done|done|]. intros ip t Hg Hf. rewrite Hlease. apply Hle; [done|lia].
Qed.

Lemma election_reachable σ0 σ : initial σ0 → rtc step σ0 σ → election_ok σ.
Proof.
  intros [Hinit Hg] Hrtc. assert (election_ok σ0) as Hok.
  { split; [intros ? ? ?%Hinit; tauto| |by rewrite Hg]. intros ip s Hs. destruct (Hinit ip s Hs). congruence. }
  clear Hinit Hg. induction Hrtc; [done|]. eauto using election_step.
Qed.
End system.

(** ** Properties *)

(** C6: at most one master leads on a live grant.  However the masters' turns,
    the passing of time, lost replies and other work interleave, from a start
    in which nobody leads: two masters that think they lead and began their
    last successful turn less than [electionTTL] ago are one and the same, the
    leader key holds its address, and every master that thinks it leads has
    such a turn on record. *)
Theorem lease_exclusive `{MapOrder} {W} `{LeaseLaws W} (σ0 σ : system (W:=W)) :
  initial σ0 → rtc step σ0 σ →
  (∀ ip1 ip2, leads σ ip1 → leads σ ip2 → ip1 = ip2) ∧
  (∀ ip, leads σ ip → holder (lease (world σ)) (now (world σ)) = Some ip) ∧
  (∀ ip s, nodes σ !! ip = Some s → is_leader s = true → is_Some (granted σ !! ip)).
Proof.
  intros Hi Hr. destruct (election_reachable _ _ Hi Hr) as [_ Hgr Hle].
  assert (∀ ip, leads σ ip → holder (lease (world σ)) (now (world σ)) = Some ip) as Hh.
  { intros ip (s & t & _ & _ & Hg & Hf). destruct (Hle ip t Hg Hf) as (e & -> & He). simpl.
    rewrite bool_decide_eq_true_2; [done|lia]. }
  split_and!; [|done|done]. intros ip1 ip2 Hl1%Hh Hl2%Hh. congruence.
Qed.

(** ** Witnesses *)

(** A cluster that has the leader key only, with its clock. *)
Record cluster := mk_cluster { clock : Z; key : option (string * Z) }.

#[local] Instance PrevExistType_eq_dec : EqDecision PrevExistType.
Proof. solve_decision. Defined.

Definition cluster_Set (v : string) (o : SetOptions) : M cluster (eres unit) := λ w,
  let h := holder (key w) (clock w) in
  if bool_decide (so_PrevExist o = PrevNoExist) && bool_decide (h ≠ None) then Ok (EErr NodeExist, w)
  else if bool_decide (so_PrevExist o = PrevExist) && bool_decide (h = None) then Ok (EErr KeyNotFound, w)
  else if bool_decide (so_PrevValue o ≠ "") && bool_decide (h ≠ Some (so_PrevValue o)) then Ok (EErr TestFailed, w)
  else Ok (EVal (), mk_cluster (clock w) (Some (v, clock w + so_TTL o)%Z)).

#[local] Instance cluster_keys : KeysAPI cluster := {
  kapi_Set k v o := if bool_decide (k = leaderKey) then cluster_Set v o else λ w, Ok (EErr (OtherError "read-only"), w);
  kapi_Get k _ := λ w, match holder (key w) (clock w) with
                       | Some v => Ok (EVal (mk_Node k v []), w)
                       | None => Ok (EErr KeyNotFound, w)
                       end;
  kapi_Delete _ := λ w, Ok (EErr (OtherError "read-only"), w);
  time_Sleep d := λ w, Ok ((), mk_cluster (clock w + Z.max 0 d) (key w));
}.
#[local] Instance cluster_laws : LeaseLaws cluster.
Proof.
  refine {| now := clock; lease := key |}.
  - intros w v o. unfold wp. cbn [kapi_Set cluster_keys]. rewrite bool_decide_eq_true_2 by done.
    unfold cluster_Set. set (h := holder _ _).
    destruct (bool_decide _ && bool_decide (h ≠ None)) eqn:H1; [split; [lia|right; eauto]|].
    destruct (bool_decide _ && bool_decide (h = None)) eqn:H2; [split; [lia|right; eauto]|].
    destruct (bool_decide (_ ≠ "") && _) eqn:H3; [split; [lia|right; eauto]|].
    split; [simpl; lia|]. left. exists (clock w). split; [simpl; lia|]. split; [|done]. fold h.
    apply andb_false_iff in H1, H2, H3. rewrite !bool_decide_eq_false in H1, H2, H3. split.
    + destruct (so_PrevExist o); [done|destruct h; naive_solver|]. destruct h; naive_solver.
    + intros Hne. destruct H3 as [H3|H3]; [done|]. by apply dec_stable.
  - intros w. unfold wp. simpl. destruct (holder _ _); split; [done|lia|done|lia].
  - intros w d. unfold wp. simpl. split; [done|lia].
Defined.

Definition demo_master (ip : string) : store :=
  storeOf [REtcd (mk_Etcd 1 [] false ""); RMinion (demo_minion 2 true Master ip)].

Definition demo_masters : system (W:=cluster) :=
  mk_system {["10.1.1.1" := demo_master "10.1.1.1"; "10.1.1.2" := demo_master "10.1.1.2"]} (mk_cluster 0 None) ∅.

Lemma demo_masters_initial : initial demo_masters.
Proof.
  split; [|done]. intros ip s. simpl. intros [[<- <-]|[_ [<- <-]%lookup_singleton_Some]]%lookup_insert_Some;
    (split; [split; [vm_decide|eexists; split_and!; [vm_compute; reflexivity|done..]]|reflexivity]).
Qed.

Lemma turn_result (s : store) (w w' : cluster) b :
  match campaignOnce (s, w) with Ok (_, (s1, w1)) => Some (is_leader s1, w1) | Panic _ => None end = Some (b, w') →
  ∃ s1, campaignOnce (s, w) = Ok ((), (s1, w')) ∧ is_leader s1 = b.
Proof. destruct (campaignOnce (s, w)) as [[[] [s1 w1]]|]; intros [=]; subst. eauto. Qed.

(** The first master takes the key; ten seconds later the second fails to. *)
Lemma lease_exclusive_witness :
  ∃ σ, rtc step demo_masters σ ∧ leads σ "10.1.1.1" ∧ (∀ ip, leads σ ip → ip = "10.1.1.1") ∧
    holder (lease (world σ)) (now (world σ)) = Some "10.1.1.1".
Proof.
  set (w1 := mk_cluster 0 (Some ("10.1.1.1", 30%Z))). set (w2 := mk_cluster 10 (Some ("10.1.1.1", 30%Z))).
  destruct (turn_result (demo_master "10.1.1.1") (mk_cluster 0 None) w1 true) as (s1 & H1 & Hl1);
    [vm_compute; reflexivity|].
  destruct (turn_result (demo_master "10.1.1.2") w2 w2 false) as (s2 & H2 & Hl2); [vm_compute; reflexivity|].
  pose proof (step_campaign demo_masters "10.1.1.1" _ _ _ (lookup_insert_eq _ _ _) H1) as St1.
  set (σ1 := mk_system _ _ _) in St1.
  pose proof (step_world σ1 w2 eq_refl (ltac:(simpl; lia))) as St2.
  set (σ2 := mk_system _ _ _) in St2.
  assert (nodes σ2 !! "10.1.1.2" = Some (demo_master "10.1.1.2")) as Hn2.
  { unfold σ2, σ1. cbn [nodes]. rewrite lookup_insert_ne by done. reflexivity. }
  pose proof (step_campaign σ2 "10.1.1.2" _ _ _ Hn2 H2) as St3. rewrite Hl2 in St3.
  set (σ3 := mk_system _ _ _) in St3.
  assert (rtc step demo_masters σ3) as Hr by (eauto using rtc_l, rtc_refl).
  assert (leads σ3 "10.1.1.1") as Hlead.
  { exists s1, 0%Z. unfold σ3, σ2, σ1. cbn [nodes granted world]. rewrite Hl1.
    split_and!; [by rewrite lookup_insert_ne, lookup_insert_eq by done|done
      |by rewrite lookup_delete_ne, lookup_insert_eq by done|done]. }
  destruct (lease_exclusive demo_masters σ3 demo_masters_initial Hr) as (Hone & Hholds & _).
  exists σ3. split_and!; [done|done| |by apply Hholds]. intros ip Hip. by apply Hone.
Defined.
