(* ===== verification/Kube.v ===== *)
(** * Package kubernetes: containers as deployments

    [src/minion/kubernetes]: on the leader, one loop turns the containers of the
    database into Kubernetes config maps and deployments, one labels the nodes
    with the attributes of the machines they run on, and one reads the pods'
    status back.  The API objects are records with the fields the code sets or
    reads; the API server is the class [KubeAPI]; SHA-1 in hexadecimal is the
    function [sha1x]. *)

From S2P Require Import Prelude GoStrings Join Blueprint DbRows Db DbSpec DbTxn.

(** ** API objects *)

(** [SecretKeyRef] is the name of a secret and a key in it. *)
Record EnvVar := mk_EnvVar { ev_Name : string; ev_Value : string; ev_SecretKeyRef : option (string * string) }.
#[export] Instance EnvVar_eq_dec : EqDecision EnvVar.
Proof. solve_decision. Defined.

Inductive VolumeSource :=
  | NoSource
  | SecretVolume (SecretName : string)
  | ConfigMapVolume (Name : string) (DefaultMode : Z)
  | HostPathVolume (Path : string).
#[export] Instance VolumeSource_eq_dec : EqDecision VolumeSource.
Proof. solve_decision. Defined.

Record kVolume := mk_kVolume { kv_Name : string; kv_Source : VolumeSource }.
#[export] Instance kVolume_eq_dec : EqDecision kVolume.
Proof. solve_decision. Defined.

Record kMount := mk_kMount { km_Name : string; km_MountPath : string; km_SubPath : string }.
#[export] Instance kMount_eq_dec : EqDecision kMount.
Proof. solve_decision. Defined.

Inductive operator := OpIn | OpNotIn.
#[export] Instance operator_eq_dec : EqDecision operator.
Proof. solve_decision. Defined.
Record requirement := mk_requirement { rq_Key : string; rq_Operator : operator; rq_Values : list string }.
#[export] Instance requirement_eq_dec : EqDecision requirement.
Proof. solve_decision. Defined.
Record podTerm := mk_podTerm { pt_MatchLabels : gmap string string; pt_TopologyKey : string }.
#[export] Instance podTerm_eq_dec : EqDecision podTerm.
Proof. solve_decision. Defined.

(** The terms required during scheduling: pods to keep away from, and the
    [NodeSelectorTerms], of which a node has to satisfy one. *)
Record Affinity := mk_Affinity {
  PodAntiAffinity : option (list podTerm);
  NodeAffinity : option (list (list requirement));
}.
#[export] Instance Affinity_eq_dec : EqDecision Affinity.
Proof. solve_decision. Defined.

(** [SecurityContext] is its [Privileged] flag. *)
Record kContainer := mk_kContainer {
  kc_Name : string;
  kc_Image : string;
  kc_Env : list EnvVar;
  kc_Args : list string;
  kc_VolumeMounts : list kMount;
  kc_SecurityContext : option bool;
}.
#[export] Instance kContainer_eq_dec : EqDecision kContainer.
Proof. solve_decision. Defined.

Record PodSpec := mk_PodSpec {
  ps_Hostname : string;
  ps_Containers : list kContainer;
  ps_Affinity : option Affinity;
  ps_DNSPolicy : string;
  ps_Volumes : list kVolume;
}.
#[export] Instance PodSpec_eq_dec : EqDecision PodSpec.
Proof. solve_decision. Defined.

(** The labels and annotations are those of the pod template. *)
Record Deployment := mk_Deployment {
  dp_Name : string;
  dp_Labels : gmap string string;
  dp_Annotations : gmap string string;
  dp_Pod : PodSpec;
  dp_Selector : gmap string string;
  dp_Strategy : string;
}.
#[export] Instance Deployment_eq_dec : EqDecision Deployment.
Proof. solve_decision. Defined.

Record ConfigMap := mk_ConfigMap { cm_Name : string; cm_Data : gmap string string }.
#[export] Instance ConfigMap_eq_dec : EqDecision ConfigMap.
Proof. solve_decision. Defined.
Record kSecret := mk_kSecret { sec_Name : string; sec_Data : gmap string string }.

(** The states that are not nil. *)
Record ContainerState := mk_ContainerState {
  Running : option Z;
  Waiting : option string;
  Terminated : option string;
}.

Record Pod := mk_Pod {
  pod_Name : string;
  pod_Annotations : gmap string string;
  pod_Spec : PodSpec;
  pod_HostIP : string;
  pod_ContainerStatuses : list ContainerState;
  pod_Conditions : list (string * string);
}.

(** Writing to nil labels panics. *)
Record kNode := mk_kNode {
  kn_Name : string;
  kn_Labels : option (gmap string string);
  kn_Addresses : list (string * string);
}.

(** ** The API server *)

Class KubeAPI (W : Type) := {
  listDeployments : M W (result (list Deployment));
  createDeployment : Deployment → M W (result unit);
  updateDeployment : Deployment → M W (result unit);
  deleteDeployment : string → M W (result unit);
  listConfigMaps : M W (result (list ConfigMap));
  createConfigMap : ConfigMap → M W (result unit);
  deleteConfigMap : string → M W (result unit);
  getSecret : string → M W (result kSecret);
  createSecret : kSecret → M W (result unit);
  updateSecret : kSecret → M W (result unit);
  listNodes : M W (result (list kNode));
  updateNode : kNode → M W (result unit);
  listPods : M W (result (list Pod));
  (** [retry.RetryOnConflict(retry.DefaultBackoff, ...)] *)
  RetryOnConflict : M W (result unit) → M W (result unit);
}.

(** ** Affinities *)

Definition providerKey : string := "kelda.io/host.provider".
Definition regionKey : string := "kelda.io/host.region".
Definition sizeKey : string := "kelda.io/host.size".
Definition floatingIPKey : string := "kelda.io/host.floatingIP".
Definition kubeHostnameKey : string := "hostname".

Definition handlePodAffinity (affinity : Affinity) (otherContainer : string) (exclusive : bool) : Affinity :=
  if exclusive then
    mk_Affinity (Some (default [] (PodAntiAffinity affinity) ++
                       [mk_podTerm {[kubeHostnameKey := otherContainer]} "kubernetes.io/hostname"]))
      (NodeAffinity affinity)
  else affinity.

(** The match is appended to the first term. *)
Definition handleNodeAffinity (affinity : Affinity) (key value : string) (exclusive : bool) : outcome Affinity :=
  let match_ := mk_requirement key (if exclusive then OpNotIn else OpIn) [value] in
  match default [[]] (NodeAffinity affinity) with
  | term :: terms => Ok (mk_Affinity (PodAntiAffinity affinity) (Some ((term ++ [match_]) :: terms)))
  | [] => Panic "index out of range"
  end.

Definition nodeConstraints (plcm : Placement) : list (string * string) :=
  [(providerKey, p_Provider plcm); (regionKey, p_Region plcm); (sizeKey, p_Size plcm);
   (floatingIPKey, p_FloatingIP plcm)].

Fixpoint handleConstraints (exclusive : bool) (cs : list (string * string)) (affinity : Affinity) : outcome Affinity :=
  match cs with
  | [] => Ok affinity
  | (key, val) :: cs =>
    if bool_decide (val = "") then handleConstraints exclusive cs affinity
    else let! affinity := handleNodeAffinity affinity key val exclusive in
         handleConstraints exclusive cs affinity
  end.

(** One placement rule on the affinity of its target. *)
Definition addPlacement (affinity : Affinity) (plcm : Placement) : outcome Affinity :=
  let affinity := if bool_decide (p_OtherContainer plcm ≠ "")
                  then handlePodAffinity affinity (p_OtherContainer plcm) (p_Exclusive plcm) else affinity in
  handleConstraints (p_Exclusive plcm) (nodeConstraints plcm) affinity.

Fixpoint toAffinitiesLoop (placements : list Placement) (targetToAffinity : gmap string Affinity)
    : outcome (gmap string Affinity) :=
  match placements with
  | [] => Ok targetToAffinity
  | plcm :: placements =>
    let! affinity := addPlacement (default (mk_Affinity None None) (targetToAffinity !! p_TargetContainer plcm)) plcm in
    toAffinitiesLoop placements (<[p_TargetContainer plcm := affinity]> targetToAffinity)
  end.

Definition toAffinities `{GoSort} (placements : list Placement) : outcome (gmap string Affinity) :=
  toAffinitiesLoop (Sort Placement_less placements) ∅.

(** ** Hashes *)

Definition hexDigit (n : nat) : ascii := ascii_of_nat (if bool_decide (n < 10) then 48 + n else 87 + n).
(** [fmt.Sprintf("%x", s)] on a string *)
Fixpoint hexStr (s : string) : string :=
  match s with
  | EmptyString => ""
  | String c s => String (hexDigit (nat_of_ascii c / 16)) (String (hexDigit (nat_of_ascii c mod 16)) (hexStr s))
  end.

Section kube.
Context (sha1x : string → string) `{MapOrder} `{GoSort}.

Definition hashStr (toHash : string) : string := sha1x toHash.

Definition hashContainerValueMap (n : nat) (containerValMap : gmap string ContainerValue) : string :=
  hashStr (MapAsString n (ContainerValue_String <$> containerValMap)).

Definition configMapName (n : nat) (fm : gmap string string) : string := sha1x (MapAsString n fm).
Definition configMapKey (path : string) : string := sha1x path.

Definition secretRef (name : string) : string * string := ("kelda-" +:+ sha1x name, "value").

(** ** Secrets *)

Section secrets.
Context {W : Type} `{KubeAPI W}.

Definition secretGet (name : string) : M W (result string) :=
  let '(kubeName, key) := secretRef name in
  let! r := getSecret kubeName in
  match r with
  | Err e => mret (Err ("query secret: " +:+ e))
  | Val secret =>
    match sec_Data secret !! key with
    | None => mret (Err ("malformed secret: missing key " +:+ key))
    | Some val => mret (Val val)
    end
  end.

Definition secretExists (name : string) : M W bool :=
  let! r := secretGet name in mret (match r with Val _ => true | Err _ => false end).

Definition secretSet (name val : string) : M W (result unit) :=
  let '(kubeName, key) := secretRef name in
  let desiredSecret := mk_kSecret kubeName {[key := val]} in
  let! ex := secretExists name in
  if (ex : bool) then updateSecret desiredSecret else createSecret desiredSecret.

(** The variables and the secrets without a value. *)
Fixpoint makeSecretHashEnvVars (secretNames : list string) : M W (list EnvVar * list string) :=
  match secretNames with
  | [] => mret ([], [])
  | name :: names =>
    let! r := secretGet name in
    let! (envVars, missing) := makeSecretHashEnvVars names in
    match r with
    | Err _ => mret (envVars, name :: missing)
    | Val val => mret (mk_EnvVar ("SECRET_HASH_" +:+ name) (hexStr (hashStr val)) None :: envVars, missing)
    end
  end.
End secrets.

(** ** Pods *)

Definition makePodEnvVars (n : nat) (dbcEnv : gmap string ContainerValue) : outcome (list EnvVar) :=
  let! (rawStrings, secrets) := DivideContainerValues n dbcEnv in
  Ok (((λ kv, mk_EnvVar kv.1 kv.2 None) <$> range (1 + n) rawStrings) ++
      ((λ kv, mk_EnvVar kv.1 "" (Some (secretRef kv.2))) <$> range (2 + n) secrets)).

Definition filesVolumeName : string := "filepath-to-content".
Definition filepathToContentMode : Z := 420.

(** The loop over the secret files, with the volumes mounted so far. *)
Fixpoint secretVolumes (mounted : gset string) (secrets : list (string * string)) : list kVolume * list kMount :=
  match secrets with
  | [] => ([], [])
  | (path, secret) :: secrets =>
    let '(kubeName, key) := secretRef secret in
    let volumeName := "secret-volume-" +:+ kubeName in
    let '(volumes, mounts) := secretVolumes ({[volumeName]} ∪ mounted) secrets in
    ((if bool_decide (volumeName ∈ mounted) then volumes
      else mk_kVolume volumeName (SecretVolume kubeName) :: volumes),
     mk_kMount volumeName path key :: mounts)
  end.

Definition makeVolumesForFilepathToContent (n : nat) (filepathToContent : gmap string ContainerValue)
    : outcome (list kVolume * list kMount) :=
  let! (rawStrings, secrets) := DivideContainerValues n filepathToContent in
  let '(volumes, mounts) := secretVolumes ∅ (range (1 + n) secrets) in
  Ok (volumes ++ (if bool_decide (size rawStrings ≠ 0)
                  then [mk_kVolume filesVolumeName (ConfigMapVolume (configMapName (2 + n) rawStrings) filepathToContentMode)]
                  else []),
      mounts ++ ((λ kv, mk_kMount filesVolumeName kv.1 (configMapKey kv.1)) <$> range (3 + n) rawStrings)).

Definition makeVolume (volume : Volume) : result kVolume :=
  if bool_decide (vol_Type volume = "hostPath")
  then Val (mk_kVolume (vol_Name volume) (HostPathVolume (default "" (vol_Conf volume !! "path"))))
  else Err ("unknown volume type: " +:+ vol_Type volume).

(** The loop that fills [volumeMap]. *)
Fixpoint makeVolumes (volumes : list Volume) (volumeMap : gmap string kVolume) : result (gmap string kVolume) :=
  match volumes with
  | [] => Val volumeMap
  | volume :: volumes =>
    match makeVolume volume with
    | Err e => Err e
    | Val v => makeVolumes volumes (<[vol_Name volume := v]> volumeMap)
    end
  end.

(** The loop over the container's volume mounts; [None] on an unknown volume. *)
Fixpoint mountVolumes (volumeMap : gmap string kVolume) (mounts : list VolumeMount)
    : option (list kVolume * list kMount) :=
  match mounts with
  | [] => Some ([], [])
  | volumeMount :: mounts =>
    match volumeMap !! vm_VolumeName volumeMount with
    | None => None
    | Some volume =>
      match mountVolumes volumeMap mounts with
      | None => None
      | Some (vs, ms) =>
        Some (volume :: vs, mk_kMount (vm_VolumeName volumeMount) (vm_MountPath volumeMount) "" :: ms)
      end
    end
  end.

(** The image to run: the one built for the container's Dockerfile, if it has one. *)
Definition podImage (images : list Image) (dbc : Container) : option string :=
  if bool_decide (c_Dockerfile dbc ≠ "") then
    im_RepoDigest <$> head (filter (λ img, im_Name img = c_Image dbc ∧ im_Dockerfile img = c_Dockerfile dbc ∧
                                           im_Status img = Built) images)
  else Some (c_Image dbc).

Definition mount_less (x y : kMount) : bool := strLess (km_MountPath x) (km_MountPath y).
Definition volume_less (x y : kVolume) : bool := strLess (kv_Name x) (kv_Name y).
Definition env_less (x y : EnvVar) : bool := strLess (ev_Name x) (ev_Name y).

Definition podSpec (idToAffinity : gmap string Affinity) (dbc : Container) (image : string) (env : list EnvVar)
    (volumes : list kVolume) (volumeMounts : list kMount) : PodSpec :=
  mk_PodSpec (c_Hostname dbc)
    [mk_kContainer (c_Hostname dbc) image (Sort env_less env) (c_Command dbc) (Sort mount_less volumeMounts)
       (Some (c_Privileged dbc))]
    (idToAffinity !! c_Hostname dbc) "Default" (Sort volume_less volumes).

Section pods.
Context {W : Type} `{KubeAPI W}.

Definition makePod (n : nat) (images : list Image) (idToAffinity : gmap string Affinity)
    (volumeMap : gmap string kVolume) (dbc : Container) : M W (option PodSpec) :=
  match podImage images dbc with
  | None => mret None
  | Some image =>
    let! (env, missing) := makeSecretHashEnvVars (GetReferencedSecrets n (1 + n) dbc) in
    if bool_decide (missing ≠ []) then mret None
    else
      let! podEnv := lift (makePodEnvVars (2 + n) (c_Env dbc)) in
      let! (volumes, mounts) := lift (makeVolumesForFilepathToContent (5 + n) (c_FilepathToContent dbc)) in
      match mountVolumes volumeMap (c_VolumeMounts dbc) with
      | None => mret None
      | Some (vs, ms) =>
        mret (Some (podSpec idToAffinity dbc image (env ++ podEnv) (volumes ++ vs) (mounts ++ ms)))
      end
  end.
End pods.

Definition envHashKey : string := "env-hash".
Definition filesHashKey : string := "files-hash".
Definition dockerfileHashKey : string := "dockerfile-hash".
Definition imageKey : string := "friendly-image".

Definition annotations (n : nat) (dbc : Container) : gmap string string :=
  {[dockerfileHashKey := hashStr (c_Dockerfile dbc);
    filesHashKey := hashContainerValueMap n (c_FilepathToContent dbc);
    envHashKey := hashContainerValueMap (1 + n) (c_Env dbc);
    imageKey := c_Image dbc;
    "keldaIP" := c_IP dbc]}.

Definition makeDeployment (n : nat) (dbc : Container) (pod : PodSpec) : Deployment :=
  mk_Deployment (c_Hostname dbc) {[kubeHostnameKey := c_Hostname dbc]} (annotations n dbc) pod
    {[kubeHostnameKey := c_Hostname dbc]} "Recreate".

(** ** Deployments *)

Section rounds.
Context {W : Type} `{KubeAPI W}.

Definition desiredTables : list string := [ContainerTable; ImageTable; PlacementTable; BlueprintTable].

(** The transaction of [makeDesiredDeployments]. *)
Definition readDesired (view : Database)
    : M store (result (list Container * list Image * gmap string Affinity * list Volume)) :=
  let! bp := GetBlueprint view in
  match bp with
  | Err e => mret (Err e)
  | Val bp =>
    let! containers := SelectFrom view (Some (λ dbc, bool_decide (c_IP dbc ≠ ""))) in
    let! images := SelectFrom view None in
    let! placements := SelectFrom view None in
    let! idToAffinity := lift (toAffinities placements) in
    mret (Val (containers, images, idToAffinity, bp_Volumes (b_Blueprint bp)))
  end.

(** The loop over the containers, each with map loops of its own. *)
Fixpoint makeDeployments (n : nat) (images : list Image) (idToAffinity : gmap string Affinity)
    (volumeMap : gmap string kVolume) (containers : list Container) : M W (list Deployment) :=
  match containers with
  | [] => mret []
  | dbc :: containers =>
    let! pod := makePod n images idToAffinity volumeMap dbc in
    let! deployments := makeDeployments (11 + n) images idToAffinity volumeMap containers in
    mret (match pod with Some pod => makeDeployment (9 + n) dbc pod :: deployments | None => deployments end)
  end.

Inductive desired :=
  | Desired (deployments : list Deployment)
  | NoBlueprint
  | DesiredErr (msg : string).

Definition makeDesiredDeployments (n : nat) : M (store * W) desired :=
  let! r := onFst (Run desiredTables readDesired) in
  match r with
  | Err _ => mret NoBlueprint
  | Val (containers, images, idToAffinity, volumes) =>
    match makeVolumes volumes ∅ with
    | Err e => mret (DesiredErr e)
    | Val volumeMap =>
      let! deployments := onSnd (makeDeployments n images idToAffinity volumeMap containers) in
      mret (Desired deployments)
    end
  end.

(** A call per element whose error is only logged. *)
Definition logged {A} (act : A → M W (result unit)) (l : list A) : M W unit :=
  forM_ l (λ x, let! _ := act x in mret ()).

Definition syncDeployments (n : nat) (desiredDeployments current : list Deployment) : M W unit :=
  let '(pairs, toCreate, toDelete) := HashJoin n desiredDeployments current dp_Name dp_Name in
  logged (λ pair : Deployment * Deployment, RetryOnConflict (updateDeployment pair.1)) pairs ;;;
  logged createDeployment toCreate ;;;
  logged (λ deployment, deleteDeployment (dp_Name deployment)) toDelete.

(** After an error other than a missing blueprint the list is nil. *)
Definition updateDeployments (n : nat) : M (store * W) unit :=
  let! r := onSnd listDeployments in
  match r with
  | Err _ => mret ()
  | Val current =>
    let! d := makeDesiredDeployments n in
    match d with
    | NoBlueprint => mret ()
    | DesiredErr _ => onSnd (syncDeployments n [] current)
    | Desired desiredDeployments => onSnd (syncDeployments n desiredDeployments current)
    end
  end.

(** ** Config maps *)

(** The config map for a container's files, if it has any that are not secret. *)
Definition containerConfigMap (n : nat) (dbc : Container) : outcome (option ConfigMap) :=
  if bool_decide (size (c_FilepathToContent dbc) = 0) then Ok None
  else
    let! (rawStrings, _) := DivideContainerValues n (c_FilepathToContent dbc) in
    if bool_decide (size rawStrings = 0) then Ok None
    else Ok (Some (mk_ConfigMap (configMapName (1 + n) rawStrings)
                     (foldl (λ data kv, <[configMapKey kv.1 := kv.2]> data) ∅ (range (2 + n) rawStrings)))).

Fixpoint configMapsLoop (n : nat) (hashes : gset string) (dbcs : list Container) : outcome (list ConfigMap) :=
  match dbcs with
  | [] => Ok []
  | dbc :: dbcs =>
    let! config := containerConfigMap n dbc in
    match config with
    | None => configMapsLoop (3 + n) hashes dbcs
    | Some config =>
      if bool_decide (cm_Name config ∈ hashes) then configMapsLoop (3 + n) hashes dbcs
      else let! rest := configMapsLoop (3 + n) ({[cm_Name config]} ∪ hashes) dbcs in Ok (config :: rest)
    end
  end.

Definition getDesiredConfigMaps (n : nat) : M store (list ConfigMap) :=
  let! dbcs := connSelect None in
  lift (configMapsLoop n ∅ dbcs).

(** A call per element; whether all of them succeeded. *)
Fixpoint allSucceed {A} (act : A → M W (result unit)) (l : list A) : M W bool :=
  match l with
  | [] => mret true
  | x :: l =>
    let! r := act x in
    let! rest := allSucceed act l in
    mret (match r with Val _ => rest | Err _ => false end)
  end.

Definition updateConfigMaps (n : nat) : M (store * W) bool :=
  let! r := onSnd listConfigMaps in
  match r with
  | Err _ => mret false
  | Val current =>
    let! desiredMaps := onFst (getDesiredConfigMaps n) in
    let '(_, toCreate, toDelete) := HashJoin n desiredMaps current cm_Name cm_Name in
    let! created := onSnd (allSucceed createConfigMap toCreate) in
    let! deleted := onSnd (allSucceed (λ configMap, deleteConfigMap (cm_Name configMap)) toDelete) in
    mret (created && deleted)
  end.

(** One turn of the loop that deploys. *)
Definition deployOnce (n : nat) : M (store * W) unit :=
  let! noErrors := updateConfigMaps n in
  if (noErrors : bool) then updateDeployments (4 + n) else mret ().

(** ** Node labels *)

Definition minionLabels (node : Minion) : gmap string string :=
  {[providerKey := mi_Provider node; regionKey := mi_Region node; sizeKey := mi_Size node;
    floatingIPKey := mi_FloatingIP node]}.

Definition NodeInternalIP : string := "InternalIP".

Definition getPrivateIP (node : kNode) : result string :=
  match filter (λ addr, addr.1 = NodeInternalIP) (kn_Addresses node) with
  | addr :: _ => Val addr.2
  | [] => Err "no private address"
  end.

(** The loop over the labels: the node's labels and whether one changed. *)
Fixpoint setLabels (labels : list (string * string)) (nodeLabels : option (gmap string string)) (needsUpdate : bool)
    : outcome (option (gmap string string) * bool) :=
  match labels with
  | [] => Ok (nodeLabels, needsUpdate)
  | (key, exp) :: labels =>
    if bool_decide (default ∅ nodeLabels !! key = Some exp) then setLabels labels nodeLabels needsUpdate
    else match nodeLabels with
         | None => Panic "assignment to entry in nil map"
         | Some m => setLabels labels (Some (<[key := exp]> m)) true
         end
  end.

Definition updateNodeLabel (n : nat) (nodeToLabels : gmap string (gmap string string)) (node : kNode) : M W unit :=
  match getPrivateIP node with
  | Err _ => mret ()
  | Val privateIP =>
    match nodeToLabels !! privateIP with
    | None => mret ()
    | Some labels =>
      let! (nodeLabels, needsUpdate) := lift (setLabels (range n labels) (kn_Labels node) false) in
      if (needsUpdate : bool) then
        let! _ := RetryOnConflict (updateNode (mk_kNode (kn_Name node) nodeLabels (kn_Addresses node))) in
        mret ()
      else mret ()
    end
  end.

Definition nodeToLabels (nodes : list Minion) : gmap string (gmap string string) :=
  foldl (λ m node, <[mi_PrivateIP node := minionLabels node]> m) ∅ nodes.

Definition updateNodeLabels (n : nat) (nodes : list Minion) : M W unit :=
  let! r := listNodes in
  match r with
  | Err _ => mret ()
  | Val items => forM_ items (updateNodeLabel n (nodeToLabels nodes))
  end.

(** One turn of the loop that labels nodes. *)
Definition labelOnce (n : nat) : M (store * W) unit :=
  let! minions := onFst (connSelect None) in
  onSnd (updateNodeLabels n minions).

(** ** Status *)

(** Hostname, image, command, hashes of the environment, the files and the
    Dockerfile, and the privileged flag. *)
Definition joinKey : Type := string * string * string * string * string * string * bool.

Definition dbcKey (n : nat) (dbc : Container) : option joinKey :=
  Some (c_Hostname dbc, c_Image dbc, fmtSlice (c_Command dbc), hashContainerValueMap n (c_Env dbc),
        hashContainerValueMap (1 + n) (c_FilepathToContent dbc), hashStr (c_Dockerfile dbc), c_Privileged dbc).

(** nil unless the pod has one container. *)
Definition podKey (pod : Pod) : option joinKey :=
  match ps_Containers (pod_Spec pod) with
  | [ctr] =>
    let ann key := default "" (pod_Annotations pod !! key) in
    Some (ps_Hostname (pod_Spec pod), ann imageKey, fmtSlice (kc_Args ctr), ann envHashKey, ann filesHashKey,
          ann dockerfileHashKey, default false (kc_SecurityContext ctr))
  | _ => None
  end.

Definition joinContainersToPods (n : nat) (dbcs : list Container) (pods : list Pod)
    : list (Container * Pod) * list Container :=
  let '(pairs, noInfoContainers, _) := HashJoin n dbcs pods (dbcKey n) podKey in (pairs, noInfoContainers).

Definition ConditionTrue : string := "True".
Definition PodScheduled : string := "PodScheduled".

Definition statusForPod (pod : Pod) : string * Z :=
  match pod_ContainerStatuses pod with
  | [st] =>
    match Running st, Waiting st, Terminated st with
    | Some startedAt, _, _ => ("running", startedAt)
    | None, Some reason, _ => ("waiting: " +:+ reason, 0%Z)
    | None, None, Some reason => ("terminated: " +:+ reason, 0%Z)
    | None, None, None => ("unrecognized container state", 0%Z)
    end
  | _ =>
    if bool_decide (Exists (λ cond, cond = (PodScheduled, ConditionTrue)) (pod_Conditions pod))
    then ("scheduled", 0%Z) else ("no status information", 0%Z)
  end.

Definition statusForContainer (n : nat) (imageMap : gmap (string * string) Image) (dbc : Container) : M W string :=
  let! (_, missing) := makeSecretHashEnvVars (GetReferencedSecrets n (1 + n) dbc) in
  if bool_decide (missing ≠ []) then mret ("Waiting for secrets: " +:+ fmtSlice (Strings_sort missing))
  else mret (match imageMap !! (c_Image dbc, c_Dockerfile dbc) with Some img => im_Status img | None => "" end).

(** A transaction whose closure also talks to the API server. *)
Definition RunWith {A} (tts : list string) (do : Database → M (store * W) A) : M (store * W) A :=
  let! db := onFst (Txn tts) in
  let! a := do db in
  onFst (notifyAll db) ;;; mret a.

Definition set_c_Status (status : string) (created : Z) (c : Container) : Container :=
  mk_Container (c_ID c) (c_IP c) (c_Minion c) (c_BlueprintID c) (c_PodName c) status (c_Command c) (c_Env c)
    (c_FilepathToContent c) (c_Hostname c) created (c_Privileged c) (c_VolumeMounts c) (c_Image c) (c_Dockerfile c).
Definition set_c_Pod (podName minion : string) (c : Container) : Container :=
  mk_Container (c_ID c) (c_IP c) minion (c_BlueprintID c) podName (c_Status c) (c_Command c) (c_Env c)
    (c_FilepathToContent c) (c_Hostname c) (c_Created c) (c_Privileged c) (c_VolumeMounts c) (c_Image c) (c_Dockerfile c).

(** The row of a container whose pod is known. *)
Definition withPod (pair : Container * Pod) : Container :=
  let '(dbc, pod) := pair in
  let '(status, created) := statusForPod pod in
  set_c_Pod (pod_Name pod) (pod_HostIP pod) (set_c_Status status created dbc).

Definition imageMapOf (images : list Image) : gmap (string * string) Image :=
  foldl (λ m img, <[(im_Name img, im_Dockerfile img) := img]> m) ∅ images.

Definition statusTables : list string := [ImageTable; ContainerTable].

Definition commitStatuses (pods : list Pod) (view : Database) : M (store * W) unit :=
  let! dbcs := onFst (SelectFrom view None) in
  let! n := onFst nextOrder in
  let '(pairs, noInfoContainers) := joinContainersToPods n dbcs pods in
  onFst (forM_ pairs (λ pair, CommitT view (withPod pair))) ;;;
  let! images := onFst (SelectFrom view None) in
  let imageMap := imageMapOf images in
  forM_ noInfoContainers (λ dbc,
    let! n := onFst nextOrder in
    let! status := onSnd (statusForContainer n imageMap dbc) in
    onFst (CommitT view (set_c_Status status 0 dbc))).

Definition updateContainerStatuses : M (store * W) unit :=
  let! r := onSnd listPods in
  match r with
  | Err _ => mret ()
  | Val pods => RunWith statusTables (commitStatuses pods)
  end.
End rounds.
End kube.
