(* ===== verification/KubeSpec.v ===== *)
(** * Package kubernetes: placement, secrets and the cluster

    What a cluster is to the code, as laws of the API server, and the
    properties of node labels, affinities and secrets. *)

From S2P Require Import Prelude GoStrings Join Blueprint DbRows Db DbSpec DbTxn DbFrame Kube.

(** ** The cluster *)

Record cluster := mk_cluster {
  k_deps : gmap string Deployment;
  k_cms : gmap string ConfigMap;
  k_secs : gmap string kSecret;
  k_nodes : gmap string kNode;
  k_pods : list Pod;
}.
Definition set_deps (m : gmap string Deployment) (k : cluster) : cluster :=
  mk_cluster m (k_cms k) (k_secs k) (k_nodes k) (k_pods k).
Definition set_cms (m : gmap string ConfigMap) (k : cluster) : cluster :=
  mk_cluster (k_deps k) m (k_secs k) (k_nodes k) (k_pods k).
Definition set_secs (m : gmap string kSecret) (k : cluster) : cluster :=
  mk_cluster (k_deps k) (k_cms k) m (k_nodes k) (k_pods k).
Definition set_nodes (m : gmap string kNode) (k : cluster) : cluster :=
  mk_cluster (k_deps k) (k_cms k) (k_secs k) m (k_pods k).

(** A working API server: objects are kept by name; creating needs a free name,
    updating and deleting an existing object. *)
Class KubeLaws (W : Type) `{KubeAPI W} := {
  kube : W → cluster;
  deps_named : ∀ w, keyed dp_Name (k_deps (kube w));
  cms_named : ∀ w, keyed cm_Name (k_cms (kube w));
  nodes_named : ∀ w, keyed kn_Name (k_nodes (kube w));
  listDeployments_ok : ∀ w, wp listDeployments w (λ r w', kube w' = kube w ∧
    ∃ l, r = Val l ∧ l ≡ₚ vals (k_deps (kube w)));
  createDeployment_ok : ∀ d w, k_deps (kube w) !! dp_Name d = None →
    wp (createDeployment d) w (λ r w', r = Val () ∧
      kube w' = set_deps (<[dp_Name d := d]> (k_deps (kube w))) (kube w));
  updateDeployment_ok : ∀ d w, is_Some (k_deps (kube w) !! dp_Name d) →
    wp (updateDeployment d) w (λ r w', r = Val () ∧
      kube w' = set_deps (<[dp_Name d := d]> (k_deps (kube w))) (kube w));
  deleteDeployment_ok : ∀ name w, is_Some (k_deps (kube w) !! name) →
    wp (deleteDeployment name) w (λ r w', r = Val () ∧
      kube w' = set_deps (delete name (k_deps (kube w))) (kube w));
  listConfigMaps_ok : ∀ w, wp listConfigMaps w (λ r w', kube w' = kube w ∧
    ∃ l, r = Val l ∧ l ≡ₚ vals (k_cms (kube w)));
  createConfigMap_ok : ∀ c w, k_cms (kube w) !! cm_Name c = None →
    wp (createConfigMap c) w (λ r w', r = Val () ∧
      kube w' = set_cms (<[cm_Name c := c]> (k_cms (kube w))) (kube w));
  deleteConfigMap_ok : ∀ name w, is_Some (k_cms (kube w) !! name) →
    wp (deleteConfigMap name) w (λ r w', r = Val () ∧
      kube w' = set_cms (delete name (k_cms (kube w))) (kube w));
  getSecret_ok : ∀ name w, wp (getSecret name) w (λ r w', kube w' = kube w ∧
    match k_secs (kube w) !! name with Some s => r = Val s | None => ∃ e, r = Err e end);
  createSecret_ok : ∀ s w, k_secs (kube w) !! sec_Name s = None →
    wp (createSecret s) w (λ r w', r = Val () ∧
      kube w' = set_secs (<[sec_Name s := s]> (k_secs (kube w))) (kube w));
  updateSecret_ok : ∀ s w, is_Some (k_secs (kube w) !! sec_Name s) →
    wp (updateSecret s) w (λ r w', r = Val () ∧
      kube w' = set_secs (<[sec_Name s := s]> (k_secs (kube w))) (kube w));
  listNodes_ok : ∀ w, wp listNodes w (λ r w', kube w' = kube w ∧
    ∃ l, r = Val l ∧ l ≡ₚ vals (k_nodes (kube w)));
  updateNode_ok : ∀ x w, is_Some (k_nodes (kube w) !! kn_Name x) →
    wp (updateNode x) w (λ r w', r = Val () ∧
      kube w' = set_nodes (<[kn_Name x := x]> (k_nodes (kube w))) (kube w));
  listPods_ok : ∀ w, wp listPods w (λ r w', kube w' = kube w ∧ r = Val (k_pods (kube w)));
  RetryOnConflict_ok : ∀ m w (Q : result unit → W → Prop),
    wp m w (λ r w', r = Val () ∧ Q r w') → wp (RetryOnConflict m) w (λ r w', r = Val () ∧ Q r w');
}.

(** ** Placement

    How the scheduler reads an affinity: a node has to satisfy all
    requirements of one of the terms, and must not run a pod that an
    anti-affinity term selects. *)

Definition holds (labels : gmap string string) (r : requirement) : Prop :=
  match rq_Operator r with
  | OpIn => ∃ v, labels !! rq_Key r = Some v ∧ v ∈ rq_Values r
  | OpNotIn => ∀ v, labels !! rq_Key r = Some v → v ∉ rq_Values r
  end.

Definition nodeFits (a : option Affinity) (labels : gmap string string) : Prop :=
  match a ≫= NodeAffinity with
  | None => True
  | Some terms => ∃ term, term ∈ terms ∧ Forall (holds labels) term
  end.

Definition selects (t : podTerm) (labels : gmap string string) : Prop := pt_MatchLabels t ⊆ labels.

(** Nodes with the same value of a label are in the same domain. *)
Definition sameDomain (key : string) (node other : gmap string string) : Prop :=
  ∃ v, node !! key = Some v ∧ other !! key = Some v.

(** [running]: the pods of the cluster, with the labels of their node and their
    own; a term keeps a pod out of the domains of the pods it selects. *)
Definition podsFit (a : option Affinity) (node : gmap string string)
    (running : list (gmap string string * gmap string string)) : Prop :=
  match a ≫= PodAntiAffinity with
  | None => True
  | Some terms => ∀ t other labels, t ∈ terms → (other, labels) ∈ running →
      sameDomain (pt_TopologyKey t) node other → ¬ selects t labels
  end.

(** What a placement rule asks of a machine. *)
Definition attr_ok (exclusive : bool) (wanted actual : string) : Prop :=
  wanted ≠ "" → if exclusive then actual ≠ wanted else actual = wanted.
Definition machine_ok (p : Placement) (m : Minion) : Prop :=
  attr_ok (p_Exclusive p) (p_Provider p) (mi_Provider m) ∧ attr_ok (p_Exclusive p) (p_Region p) (mi_Region m) ∧
  attr_ok (p_Exclusive p) (p_Size p) (mi_Size m) ∧ attr_ok (p_Exclusive p) (p_FloatingIP p) (mi_FloatingIP m).

(** What an exclusive rule asks of the pods on the nodes with the host name of
    the node. *)
Definition keeps_apart (p : Placement) (node : gmap string string)
    (running : list (gmap string string * gmap string string)) : Prop :=
  p_Exclusive p = true → p_OtherContainer p ≠ "" → ∀ other podLabels, (other, podLabels) ∈ running →
    sameDomain "kubernetes.io/hostname" node other → podLabels !! "hostname" ≠ Some (p_OtherContainer p).

(** A node that carries the labels of machine [m], and maybe others. *)
Definition labelled (m : Minion) (labels : gmap string string) : Prop := minionLabels m ⊆ labels.

Lemma labelled_lookup m labels :
  labelled m labels →
  labels !! providerKey = Some (mi_Provider m) ∧ labels !! regionKey = Some (mi_Region m) ∧
  labels !! sizeKey = Some (mi_Size m) ∧ labels !! floatingIPKey = Some (mi_FloatingIP m).
Proof. intros Hl. split_and!; apply (lookup_weaken (minionLabels m)); try done; reflexivity. Qed.

(** The requirement of one attribute. *)
Definition constraintReqs (exclusive : bool) (cs : list (string * string)) : list requirement :=
  omap (λ kv, if bool_decide (kv.2 = "") then None
              else Some (mk_requirement kv.1 (if exclusive then OpNotIn else OpIn) [kv.2])) cs.

(** The affinities reached from nil keep one term. *)
Definition one_term (a : Affinity) : Prop := NodeAffinity a = None ∨ ∃ t, NodeAffinity a = Some [t].
Definition node_reqs (a : Affinity) : list requirement :=
  match NodeAffinity a with Some [t] => t | _ => [] end.

Lemma handleConstraints_spec exclusive cs a :
  one_term a → ∃ a', handleConstraints exclusive cs a = Ok a' ∧ one_term a' ∧
    node_reqs a' = node_reqs a ++ constraintReqs exclusive cs ∧ PodAntiAffinity a' = PodAntiAffinity a.
Proof.
  revert a. induction cs as [|[k v] cs IH]; intros a Ha.
  { exists a. by rewrite app_nil_r. }
  unfold constraintReqs. csimpl. fold (constraintReqs exclusive cs). case_bool as [->|Hv]; [by apply IH|]. unfold handleNodeAffinity.
  assert (∃ t, default [[]] (NodeAffinity a) = [t] ∧ node_reqs a = t) as (t & Ht & Hr).
  { unfold node_reqs. destruct Ha as [->|[t ->]]; eauto. }
  rewrite Ht. simpl. set (a1 := mk_Affinity _ _). destruct (IH a1) as (a' & Heq & Hone & Hreq & Hpod).
  { right. by eexists. }
  exists a'. split_and!; [done|done| |by rewrite Hpod]. rewrite Hreq, Hr. unfold a1, node_reqs. simpl. by rewrite <-app_assoc.
Qed.

Definition pod_terms (a : Affinity) : list podTerm := default [] (PodAntiAffinity a).
Definition placementTerms (p : Placement) : list podTerm :=
  if bool_decide (p_OtherContainer p ≠ "") && p_Exclusive p
  then [mk_podTerm {[kubeHostnameKey := p_OtherContainer p]} "kubernetes.io/hostname"] else [].
Definition placementReqs (p : Placement) : list requirement := constraintReqs (p_Exclusive p) (nodeConstraints p).

Lemma addPlacement_spec a p :
  one_term a → ∃ a', addPlacement a p = Ok a' ∧ one_term a' ∧
    node_reqs a' = node_reqs a ++ placementReqs p ∧ pod_terms a' = pod_terms a ++ placementTerms p.
Proof.
  intros Ha. unfold addPlacement, placementTerms, pod_terms.
  set (a1 := if bool_decide _ then _ else _).
  assert (one_term a1 ∧ node_reqs a1 = node_reqs a ∧
    default [] (PodAntiAffinity a1) = default [] (PodAntiAffinity a) ++ placementTerms p) as (H1 & H2 & H3).
  { unfold a1, placementTerms, handlePodAffinity. case_bool; simpl; [|by rewrite app_nil_r].
    destruct (p_Exclusive p); simpl; [done|by rewrite app_nil_r]. }
  destruct (handleConstraints_spec (p_Exclusive p) (nodeConstraints p) a1 H1) as (a' & Heq & Hone & Hreq & Hpod).
  exists a'. split_and!; [done|done|by rewrite Hreq, H2|by rewrite Hpod, H3].
Qed.

(** The rules for a target are collected in order. *)
Definition rulesFor (target : string) (ps : list Placement) : list Placement :=
  filter (λ p, p_TargetContainer p = target) ps.

Definition collected (a : option Affinity) (rules : list Placement) : Prop :=
  match a with
  | None => rules = []
  | Some a => one_term a ∧ node_reqs a = concat (placementReqs <$> rules) ∧ pod_terms a = concat (placementTerms <$> rules)
  end.

Lemma toAffinitiesLoop_spec ps m done_ :
  (∀ t, collected (m !! t) (rulesFor t done_)) →
  ∃ m', toAffinitiesLoop ps m = Ok m' ∧ ∀ t, collected (m' !! t) (rulesFor t (done_ ++ ps)).
Proof.
  revert m done_. induction ps as [|p ps IH]; intros m dn Hm; simpl.
  { exists m. by rewrite app_nil_r. }
  set (a := default _ _). assert (one_term a ∧ collected (Some a) (rulesFor (p_TargetContainer p) dn)) as [Ha Hc].
  { unfold a. specialize (Hm (p_TargetContainer p)). destruct (m !! _) as [b|]; simpl in *.
    - destruct Hm; auto.
    - rewrite Hm. split; [by left|]. split_and!; [by left|done|done]. }
  destruct (addPlacement_spec a p Ha) as (a' & -> & Ha' & Hr & Ht). simpl.
  destruct (IH (<[p_TargetContainer p := a']> m) (dn ++ [p])) as (m' & Heq & Hm').
  - intros t. unfold rulesFor. rewrite filter_app, filter_cons, filter_nil.
    destruct (decide (p_TargetContainer p = t)) as [<-|Hne].
    + rewrite lookup_insert_eq. destruct Hc as (_ & Hc1 & Hc2). split_and!; [done|..].
      * rewrite Hr, Hc1, fmap_app, concat_app. simpl. by rewrite app_nil_r.
      * rewrite Ht, Hc2, fmap_app, concat_app. simpl. by rewrite app_nil_r.
    + rewrite lookup_insert_ne by done. rewrite app_nil_r. apply Hm.
  - exists m'. split; [done|]. intros t. by rewrite <-app_assoc in Hm'.
Qed.

Lemma Forall_constraintReqs P (exclusive : bool) cs :
  Forall P (constraintReqs exclusive cs) ↔
  Forall (λ kv, kv.2 ≠ "" → P (mk_requirement kv.1 (if exclusive then OpNotIn else OpIn) [kv.2])) cs.
Proof.
  induction cs as [|[k v] cs IH]; [done|]. unfold constraintReqs in *. csimpl.
  rewrite Forall_cons. case_bool as [->|Hv]; simpl.
  - rewrite IH. naive_solver.
  - rewrite Forall_cons, IH. naive_solver.
Qed.

Lemma holds_attr labels (exclusive : bool) k wanted actual :
  labels !! k = Some actual →
  (wanted ≠ "" → holds labels (mk_requirement k (if exclusive then OpNotIn else OpIn) [wanted])) ↔
  attr_ok exclusive wanted actual.
Proof.
  intros Hk. unfold attr_ok, holds. simpl. rewrite Hk. destruct exclusive; simpl.
  - setoid_rewrite list_elem_of_singleton. naive_solver.
  - setoid_rewrite list_elem_of_singleton. naive_solver.
Qed.

Lemma holds_placementReqs p m labels :
  labelled m labels → Forall (holds labels) (placementReqs p) ↔ machine_ok p m.
Proof.
  intros (H1 & H2 & H3 & H4)%labelled_lookup. unfold placementReqs. rewrite Forall_constraintReqs.
  unfold nodeConstraints. rewrite !Forall_cons, Forall_nil. cbn [fst snd].
  rewrite (holds_attr _ _ _ _ _ H1), (holds_attr _ _ _ _ _ H2), (holds_attr _ _ _ _ _ H3), (holds_attr _ _ _ _ _ H4).
  unfold machine_ok. tauto.
Qed.

Lemma Forall_concat_fmap {A B} (P : B → Prop) (f : A → list B) l :
  Forall P (concat (f <$> l)) ↔ Forall (λ x, Forall P (f x)) l.
Proof. induction l as [|x l IH]; csimpl; [done|]. by rewrite Forall_app, Forall_cons, IH. Qed.

Lemma collected_nodes a rules m labels :
  collected a rules → labelled m labels → nodeFits a labels ↔ Forall (λ p, machine_ok p m) rules.
Proof.
  intros Hc Hl. transitivity (Forall (holds labels) (concat (placementReqs <$> rules))).
  - unfold nodeFits. destruct a as [a|]; simpl in *; [|subst; simpl; by rewrite Forall_nil].
    destruct Hc as (Ho & <- & _). unfold node_reqs. destruct Ho as [->|[t ->]]; [by rewrite Forall_nil|].
    setoid_rewrite list_elem_of_singleton. naive_solver.
  - rewrite Forall_concat_fmap. apply Forall_iff. intros p. by apply holds_placementReqs.
Qed.

Lemma singleton_included_lookup (k v : string) (labels : gmap string string) :
  {[k := v]} ⊆ labels ↔ labels !! k = Some v.
Proof. apply map_singleton_subseteq_l. Qed.

Lemma collected_pods a rules node running :
  collected a rules → podsFit a node running ↔ ∀ p, p ∈ rules → keeps_apart p node running.
Proof.
  intros Hc. transitivity (∀ t other labels, t ∈ concat (placementTerms <$> rules) → (other, labels) ∈ running →
    sameDomain (pt_TopologyKey t) node other → ¬ selects t labels).
  - unfold podsFit. destruct a as [a|]; simpl in *; [|subst; simpl; set_solver].
    destruct Hc as (_ & _ & <-). unfold pod_terms. destruct (PodAntiAffinity a); [done|]. simpl. set_solver.
  - setoid_rewrite elem_of_concat. setoid_rewrite list_elem_of_fmap. unfold placementTerms, keeps_apart. split.
    + intros Ht p Hp Hex Hoth other labels Hr Hdom Heq.
      apply (Ht (mk_podTerm {[kubeHostnameKey := p_OtherContainer p]} "kubernetes.io/hostname") other labels);
        [|done|done|by apply singleton_included_lookup].
      eexists. split; [by exists p|]. rewrite bool_decide_eq_true_2, Hex by done. by apply list_elem_of_singleton.
    + intros Hp t other labels (l & (p & -> & Hin) & Ht) Hr. revert Ht.
      case_bool as [Hoth|]; simpl; [|by intros ?%elem_of_nil].
      destruct (p_Exclusive p) eqn:Hex; [|by intros ?%elem_of_nil].
      intros ->%list_elem_of_singleton Hdom Hs%singleton_included_lookup. by apply (Hp p Hin Hex Hoth other labels).
Qed.

(** ** Node labels *)

Lemma setLabels_spec kvs l b :
  NoDup kvs.*1 → ∃ b', setLabels kvs (Some l) b = Ok (Some (list_to_map kvs ∪ l), b') ∧
    (b = true → b' = true) ∧ (b' = false → list_to_map kvs ∪ l = l).
Proof.
  revert l b. induction kvs as [|[k v] kvs IH]; intros l b Hnd; csimpl in *.
  { exists b. split_and!; [|done|intros _]; by rewrite map_empty_union. }
  apply NoDup_cons in Hnd as [Hk Hnd].
  assert ((list_to_map kvs : gmap string string) !! k = None) as Hnone by by apply not_elem_of_list_to_map_1.
  case_bool as [Heq|Hne].
  - destruct (IH l b Hnd) as (b' & -> & Hb'). exists b'.
    assert (<[k := v]> (list_to_map kvs) ∪ l = list_to_map kvs ∪ l) as ->; [|done].
    apply map_eq. intros i. rewrite !lookup_union. destruct (decide (k = i)) as [<-|Hi].
    + by rewrite lookup_insert_eq, Hnone, Heq.
    + by rewrite lookup_insert_ne.
  - destruct (IH (<[k := v]> l) true Hnd) as (b' & -> & Ht & Hb'). exists b'. split_and!; [|auto|].
    + by rewrite <-insert_union_l, <-insert_union_r.
    + intros ->. by specialize (Ht eq_refl).
Qed.

(** A node after its turn. *)
Definition relabel (ls : gmap string (gmap string string)) (x : kNode) : kNode :=
  match getPrivateIP x with
  | Val ip =>
    match ls !! ip, kn_Labels x with
    | Some labels, Some l => mk_kNode (kn_Name x) (Some (labels ∪ l)) (kn_Addresses x)
    | _, _ => x
    end
  | Err _ => x
  end.

Lemma nodeToLabels_lookup minions m :
  NoDup (mi_PrivateIP <$> minions) → m ∈ minions → nodeToLabels minions !! mi_PrivateIP m = Some (minionLabels m).
Proof.
  unfold nodeToLabels. intros Hnd. induction minions as [|x l IH] using rev_ind; [by intros ?%elem_of_nil|].
  rewrite fmap_app in Hnd. apply NoDup_app in Hnd as (Hnd & Hd & _).
  rewrite foldl_app. simpl. intros [Hm|Hm%list_elem_of_singleton]%elem_of_app; [|subst; by rewrite lookup_insert_eq].
  rewrite lookup_insert_ne; [by apply IH|]. intros Heq. apply (Hd (mi_PrivateIP x)); [|csimpl; set_solver].
  rewrite Heq. by apply list_elem_of_fmap_2.
Qed.

Section nodes.
Context `{MapOrder} {W : Type} `{KubeLaws W}.
Implicit Types w : W.

Lemma wp_updateNodeLabel n ls x w Q :
  k_nodes (kube w) !! kn_Name x = Some x → kn_Labels x ≠ None →
  (∀ w', kube w' = set_nodes (<[kn_Name x := relabel ls x]> (k_nodes (kube w))) (kube w) → Q () w') →
  wp (updateNodeLabel n ls x) w Q.
Proof.
  intros Hx Hl HQ.
  assert (relabel ls x = x → Q () w) as Hskip.
  { intros Heq. apply HQ. rewrite Heq, insert_id by done. by destruct (kube w). }
  unfold updateNodeLabel, relabel in *. destruct (getPrivateIP x) as [ip|e]; [|wp_ret; auto].
  destruct (ls !! ip) as [labels|]; [|wp_ret; auto]. destruct (kn_Labels x) as [l|] eqn:Hlx; [|done].
  destruct (setLabels_spec (range n labels) l false) as (b & Hb & _ & Hsame); [apply NoDup_range_fst|].
  assert (list_to_map (range n labels) = labels) as Hmap.
  { rewrite (list_to_map_proper _ (map_to_list labels)); [apply list_to_map_to_list|apply NoDup_range_fst|apply range_perm]. }
  rewrite Hmap in Hb, Hsame. wp_bind. eapply wp_lift; [exact Hb|]. destruct b.
  - wp_bind. eapply wp_mono; [apply (RetryOnConflict_ok _ _ (λ _ w', kube w' = set_nodes (<[kn_Name x :=
      mk_kNode (kn_Name x) (Some (labels ∪ l)) (kn_Addresses x)]> (k_nodes (kube w))) (kube w)))|].
    + eapply wp_mono; [apply updateNode_ok; simpl; by eexists|]. done.
    + intros r w' [_ Hw']. wp_ret. auto.
  - wp_ret. apply Hskip. rewrite Hsame by done. destruct x; simpl in *. by subst.
Qed.

Lemma relabel_name ls x : kn_Name (relabel ls x) = kn_Name x.
Proof. unfold relabel. by repeat case_match. Qed.

Lemma wp_updateNodeLabels n minions w Q :
  (∀ x, x ∈ vals (k_nodes (kube w)) → kn_Labels x ≠ None) →
  (∀ w', kube w' = set_nodes (relabel (nodeToLabels minions) <$> k_nodes (kube w)) (kube w) → Q () w') →
  wp (updateNodeLabels n minions) w Q.
Proof.
  intros Hl HQ. unfold updateNodeLabels. wp_bind. wp_use listNodes_ok. intros r w1 (Hw1 & l & -> & Hperm).
  set (f := relabel (nodeToLabels minions)). pose proof (nodes_named w) as Hkey.
  apply (wp_forM_prefix _ (λ dn w', ∃ m, kube w' = set_nodes m (kube w) ∧
    ∀ i, m !! i = if decide (i ∈ kn_Name <$> dn) then f <$> k_nodes (kube w) !! i else k_nodes (kube w) !! i)).
  - exists (k_nodes (kube w)). rewrite Hw1. split; [by destruct (kube w)|]. intros i. by rewrite decide_False by set_solver.
  - intros dn x todo w2 Hxs (m & Hw2 & Hm).
    assert (k_nodes (kube w) !! kn_Name x = Some x) as Hx.
    { assert (x ∈ vals (k_nodes (kube w))) as [i Hi]%elem_of_vals by (rewrite <-Hperm, Hxs; set_solver).
      by rewrite <-(Hkey _ _ Hi) in Hi. }
    assert (kn_Name x ∉ kn_Name <$> dn) as Hnew.
    { pose proof (keyed_NoDup _ _ Hkey) as Hnd. rewrite <-Hperm, Hxs, fmap_app in Hnd. csimpl in Hnd.
      apply NoDup_app in Hnd as (_ & Hd & _). intros Hin. apply (Hd _ Hin). set_solver. }
    apply wp_updateNodeLabel.
    + rewrite Hw2. simpl. by rewrite Hm, decide_False.
    + apply Hl. rewrite <-Hperm, Hxs. set_solver.
    + intros w3 Hw3. eexists. split; [rewrite Hw3, Hw2; reflexivity|]. simpl. intros i.
      rewrite fmap_app. csimpl. destruct (decide (i = kn_Name x)) as [->|Hi].
      * rewrite lookup_insert_eq, decide_True by set_solver. by rewrite Hx.
      * rewrite lookup_insert_ne by done. rewrite Hm.
        destruct (decide (i ∈ kn_Name <$> dn)); [rewrite decide_True by set_solver|rewrite decide_False by set_solver]; done.
  - intros w' (m & Hw' & Hm). apply HQ. rewrite Hw'. f_equal. apply map_eq. intros i. rewrite Hm, lookup_fmap.
    case_decide as Hi; [done|]. destruct (k_nodes (kube w) !! i) as [x|] eqn:Hx; [|done]. destruct Hi.
    apply list_elem_of_fmap. exists x. split; [symmetry; by apply Hkey|]. rewrite Hperm. apply elem_of_vals. eauto.
Qed.
End nodes.

(** ** Secrets *)

Section secrets.
Context (sha1x : string → string) {W : Type} `{KubeLaws W}.

(** The value of a secret in the cluster. *)
Definition secretValue (k : cluster) (name : string) : option string :=
  k_secs k !! (secretRef sha1x name).1 ≫= λ s, sec_Data s !! (secretRef sha1x name).2.

Lemma wp_secretGet name (w : W) Q :
  (∀ r w', kube w' = kube w →
     match secretValue (kube w) name with Some v => r = Val v | None => ∃ e, r = Err e end → Q r w') →
  wp (secretGet sha1x name) w Q.
Proof.
  intros HQ. unfold secretGet, secretValue in *. simpl in *. wp_bind. wp_use getSecret_ok. intros r w' [Hw Hr].
  destruct (k_secs (kube w) !! _) as [s|]; [subst r|destruct Hr as [e ->]]; simpl in *.
  - destruct (sec_Data s !! "value"); wp_ret; apply HQ; eauto.
  - wp_ret. apply HQ; eauto.
Qed.

(** The variables for the secrets that have a value, and those that have none. *)
Definition secretEnv (k : cluster) (names : list string) : list EnvVar :=
  omap (λ name, (λ v, mk_EnvVar ("SECRET_HASH_" +:+ name) (hexStr (hashStr sha1x v)) None) <$> secretValue k name) names.
Definition missingSecrets (k : cluster) (names : list string) : list string :=
  filter (λ name, secretValue k name = None) names.

Lemma wp_makeSecretHashEnvVars names (w : W) Q :
  (∀ w', kube w' = kube w → Q (secretEnv (kube w) names, missingSecrets (kube w) names) w') →
  wp (makeSecretHashEnvVars sha1x names) w Q.
Proof.
  revert w Q. induction names as [|name names IH]; intros w Q HQ; simpl.
  { wp_ret. by apply HQ. }
  wp_bind. apply wp_secretGet. intros r w1 Hw1 Hr. wp_bind. apply IH. intros w2 Hw2. rewrite Hw1 in *.
  unfold secretEnv, missingSecrets in *. rewrite filter_cons in HQ. csimpl in HQ.
  destruct (secretValue (kube w) name) as [v|] eqn:Hv; [subst r|destruct Hr as [e ->]]; wp_ret.
  - rewrite decide_False in HQ by done. apply HQ. congruence.
  - rewrite decide_True in HQ by done. apply HQ. congruence.
Qed.
End secrets.
