(* ===== verification/KubeDeploy.v ===== *)
(** * Package kubernetes: deployments, config maps and status

    The pod that a container is turned into does not depend on the order of
    Go's map loops or on how ties are sorted; a turn of the deploying loop
    leaves exactly the deployments of the deployable containers and the config
    maps they mount; and the pods made from a deployment are matched with its
    container when their status is read back. *)

From S2P Require Import Prelude GoStrings Join Blueprint DbRows Db DbSpec DbTxn DbFrame Engine Kube KubeSpec.

(** ** Sorting without ties *)

(** Elements that agree on the key are equal. *)
Definition no_ties {A} (key : A → string) (l : list A) : Prop :=
  ∀ x y, x ∈ l → y ∈ l → key x = key y → x = y.

Lemma Sort_unique_on {A} (S1 S2 : GoSort) (less : A → A → bool) (l k : list A) :
  (∀ x y, less x y = true → less y x = false) → Transitive (notLess less) → l ≡ₚ k →
  (∀ x y, x ∈ l → y ∈ l → less x y = false → less y x = false → x = y) →
  @Sort S1 A less l = @Sort S2 A less k.
Proof.
  intros Hasym Htrans Hp Htotal. apply (StronglySorted_unique_strong (notLess less)).
  - intros x y Hx Hy Hxy Hyx. rewrite Sort_perm in Hx. rewrite Sort_perm, <-Hp in Hy. by apply Htotal.
  - by apply Sort_sorted.
  - by apply Sort_sorted.
  - by rewrite !Sort_perm.
Qed.

Lemma Sort_unique {A} (S1 S2 : GoSort) (key : A → string) (l k : list A) :
  l ≡ₚ k → no_ties key l →
  @Sort S1 A (λ x y, strLess (key x) (key y)) l = @Sort S2 A (λ x y, strLess (key x) (key y)) k.
Proof.
  intros Hp Hties. apply Sort_unique_on; [intros x y; apply strLess_asym| |done|].
  - intros x y z. unfold notLess. intros Hxy Hyz. destruct (strLess (key z) (key x)) eqn:Hzx; [|done].
    destruct (strLess (key x) (key y)) eqn:Hxy'.
    + by rewrite (strLess_trans _ _ _ Hzx Hxy') in Hyz.
    + rewrite (strLess_total _ _ Hxy' Hxy) in Hzx. congruence.
  - intros x y Hx Hy Hxy Hyx. apply Hties; [done..|]. by apply strLess_total.
Qed.

(** Placements are sorted by ID. *)
Lemma Sort_placements (S1 S2 : GoSort) (l k : list Placement) :
  l ≡ₚ k → NoDup (p_ID <$> l) → @Sort S1 _ Placement_less l = @Sort S2 _ Placement_less k.
Proof.
  intros Hp Hnd. unfold Placement_less. apply Sort_unique_on; [| |done|].
  - intros x y. rewrite bool_decide_eq_true, bool_decide_eq_false. lia.
  - intros x y z. unfold notLess. rewrite !bool_decide_eq_false. lia.
  - intros x y Hx Hy. rewrite !bool_decide_eq_false. intros. apply (NoDup_fmap_elem p_ID l); [done..|lia].
Qed.

(** ** The values of a container *)

Definition strings (m : gmap string ContainerValue) : gmap string string :=
  omap (λ v, match v with StringValue s => Some s | _ => None end) m.
Definition secretsOf (m : gmap string ContainerValue) : gmap string string :=
  omap (λ v, match v with SecretValue s => Some s | _ => None end) m.

(** All values are strings or secrets. *)
Definition plain (m : gmap string ContainerValue) : Prop := ∀ k, m !! k ≠ Some OtherValue.

Lemma DivideContainerValues_maps `{MapOrder} n m :
  plain m → DivideContainerValues n m = Ok (strings m, secretsOf m).
Proof.
  intros Hm. destruct (DivideContainerValues_correct n m Hm) as (raw & sec & -> & Hspec). do 2 f_equal.
  - apply map_eq. intros k. unfold strings. rewrite (proj1 (Hspec k)), lookup_omap. by destruct (m !! k).
  - apply map_eq. intros k. unfold secretsOf. rewrite (proj2 (Hspec k)), lookup_omap. by destruct (m !! k).
Qed.

Lemma strings_secrets_disjoint m k s t : strings m !! k = Some s → secretsOf m !! k = Some t → False.
Proof. unfold strings, secretsOf. rewrite !lookup_omap. by destruct (m !! k) as [[]|]. Qed.

Lemma getReferencedSecrets_elem `{MapOrder} n m name :
  name ∈ getReferencedSecrets n m ↔ ∃ k, secretsOf m !! k = Some name.
Proof.
  unfold getReferencedSecrets, secretsOf. rewrite list_elem_of_omap. setoid_rewrite lookup_omap. split.
  - intros ([k v] & Hin%elem_of_range & Hv). simpl in Hv. exists k. rewrite Hin. simpl. by destruct v; simplify_eq.
  - intros [k Hk]. destruct (m !! k) as [v|] eqn:Hm; [|done]. exists (k, v).
    rewrite elem_of_range. split; [done|]. simpl in *. by destruct v; simplify_eq.
Qed.

(** The secrets a container references. *)
Definition references (dbc : Container) (name : string) : Prop :=
  (∃ k, secretsOf (c_Env dbc) !! k = Some name) ∨ (∃ k, secretsOf (c_FilepathToContent dbc) !! k = Some name).

Lemma GetReferencedSecrets_elem `{MapOrder} n1 n2 dbc name :
  name ∈ GetReferencedSecrets n1 n2 dbc ↔ references dbc name.
Proof. unfold GetReferencedSecrets, references. by rewrite elem_of_app, !getReferencedSecrets_elem. Qed.

Lemma GetReferencedSecrets_perm (O1 O2 : MapOrder) n1 n2 n1' n2' dbc :
  @GetReferencedSecrets O1 n1 n2 dbc ≡ₚ @GetReferencedSecrets O2 n1' n2' dbc.
Proof.
  unfold GetReferencedSecrets, getReferencedSecrets.
  apply Permutation_app; apply omap_Permutation; by rewrite !range_perm.
Qed.

(** ** The pod of a container, without effects *)

Section pod.
Context (sha1x : string → string).

Definition podOf `{MapOrder} `{GoSort} (k : cluster) (n : nat) (images : list Image) (idToAffinity : gmap string Affinity)
    (volumeMap : gmap string kVolume) (dbc : Container) : outcome (option PodSpec) :=
  match podImage images dbc with
  | None => Ok None
  | Some image =>
    if bool_decide (missingSecrets sha1x k (GetReferencedSecrets n (1 + n) dbc) ≠ []) then Ok None
    else
      let! podEnv := makePodEnvVars sha1x (2 + n) (c_Env dbc) in
      let! (volumes, mounts) := makeVolumesForFilepathToContent sha1x (5 + n) (c_FilepathToContent dbc) in
      match mountVolumes volumeMap (c_VolumeMounts dbc) with
      | None => Ok None
      | Some (vs, ms) =>
        Ok (Some (podSpec idToAffinity dbc image (secretEnv sha1x k (GetReferencedSecrets n (1 + n) dbc) ++ podEnv)
                    (volumes ++ vs) (mounts ++ ms)))
      end
  end.

Lemma wp_makePod `{MapOrder} `{GoSort} {W} `{KubeLaws W} n images aff vm dbc (w : W) r Q :
  podOf (kube w) n images aff vm dbc = Ok r → (∀ w', kube w' = kube w → Q r w') →
  wp (makePod sha1x n images aff vm dbc) w Q.
Proof.
  intros Hr HQ. unfold podOf, makePod in *. destruct (podImage images dbc) as [image|]; [|wp_ret; simplify_eq; auto].
  wp_bind. eapply wp_makeSecretHashEnvVars. intros w1 Hw1. case_bool; [wp_ret; simplify_eq; auto|].
  destruct (makePodEnvVars _ _ _) as [podEnv|] eqn:He; [|done].
  destruct (makeVolumesForFilepathToContent _ _ _) as [[vs ms]|] eqn:Hv; [|done].
  wp_bind. eapply wp_lift; [done|]. wp_bind. eapply wp_lift; [done|]. simpl in Hr.
  destruct (mountVolumes _ _) as [[??]|]; wp_ret; simplify_eq; auto.
Qed.

(** A container whose values are strings or secrets has a pod or waits. *)
Definition plainContainer (dbc : Container) : Prop := plain (c_Env dbc) ∧ plain (c_FilepathToContent dbc).

Lemma podOf_total `{MapOrder} `{GoSort} k n images aff vm dbc :
  plainContainer dbc → ∃ r, podOf k n images aff vm dbc = Ok r.
Proof.
  intros [He Hf]. unfold podOf, makePodEnvVars, makeVolumesForFilepathToContent.
  destruct (podImage images dbc); [|eauto]. case_bool; [eauto|].
  rewrite !DivideContainerValues_maps by done. simpl. destruct (secretVolumes _ _ _). simpl.
  destruct (mountVolumes _ _) as [[]|]; eauto.
Qed.

(** Nothing the code generates for the container clashes with a name or a path
    that the user chose. *)
Record steady (dbc : Container) : Prop := {
  sd_env : ∀ key name, is_Some (c_Env dbc !! key) → references dbc name → key ≠ "SECRET_HASH_" +:+ name;
  sd_paths : NoDup (vm_MountPath <$> c_VolumeMounts dbc);
  sd_files : ∀ path, path ∈ vm_MountPath <$> c_VolumeMounts dbc → c_FilepathToContent dbc !! path = None;
  sd_names : ∀ name, name ∈ vm_VolumeName <$> c_VolumeMounts dbc → name ≠ filesVolumeName ∧
    ∀ secret, name ≠ "secret-volume-" +:+ (secretRef sha1x secret).1;
}.

(** *** Parts of a pod, up to order *)

Definition envVars (m : gmap string ContainerValue) : list EnvVar :=
  ((λ kv, mk_EnvVar kv.1 kv.2 None) <$> map_to_list (strings m)) ++
  ((λ kv, mk_EnvVar kv.1 "" (Some (secretRef sha1x kv.2))) <$> map_to_list (secretsOf m)).

Lemma makePodEnvVars_perm `{MapOrder} n m :
  plain m → ∃ l, makePodEnvVars sha1x n m = Ok l ∧ l ≡ₚ envVars m.
Proof.
  intros Hm. unfold makePodEnvVars. rewrite DivideContainerValues_maps by done. simpl.
  eexists. split; [done|]. unfold envVars. by rewrite !range_perm.
Qed.

Definition secretVolume (secret : string) : kVolume :=
  mk_kVolume ("secret-volume-" +:+ (secretRef sha1x secret).1) (SecretVolume (secretRef sha1x secret).1).
Definition secretMount (kv : string * string) : kMount :=
  mk_kMount ("secret-volume-" +:+ (secretRef sha1x kv.2).1) kv.1 (secretRef sha1x kv.2).2.

Lemma secretVolumes_spec mounted kvs :
  NoDup (kv_Name <$> (secretVolumes sha1x mounted kvs).1) ∧
  (∀ v, v ∈ (secretVolumes sha1x mounted kvs).1 ↔
     kv_Name v ∉ mounted ∧ ∃ kv, kv ∈ kvs ∧ v = secretVolume kv.2) ∧
  (secretVolumes sha1x mounted kvs).2 = secretMount <$> kvs.
Proof.
  revert mounted. induction kvs as [|[path secret] kvs IH]; intros mounted; simpl.
  { split_and!; [constructor|set_solver|done]. }
  specialize (IH ({["secret-volume-" +:+ (secretRef sha1x secret).1]} ∪ mounted)). unfold secretRef in *. simpl in *.
  destruct (secretVolumes sha1x _ kvs) as [vs ms]. simpl in *. destruct IH as (Hnd & Hel & ->).
  case_bool as [Hin|Hout]; simpl; split_and!; [done| |done| | |done].
  - intros v. rewrite Hel. split.
    + intros (Hni & kv & Hkv & ->). split; [set_solver|]. exists kv. set_solver.
    + intros (Hni & kv & [->|Hkv]%elem_of_cons & ->); [by destruct Hni|]. split; [|by exists kv].
      intros [Heq%elem_of_singleton|?]%elem_of_union; [|done]. apply Hni. by rewrite Heq.
  - constructor; [|done]. simpl. intros (v & Heq & (Hni & _)%Hel)%list_elem_of_fmap. apply Hni. rewrite <-Heq. set_solver.
  - intros v. rewrite elem_of_cons, Hel. split.
    + intros [->|(Hni & kv & Hkv & ->)]; [split; [done|]; exists (path, secret); set_solver|].
      split; [set_solver|]. exists kv. set_solver.
    + intros (Hni & kv & [->|Hkv]%elem_of_cons & ->); [by left|].
      destruct (decide (kv_Name (secretVolume kv.2) = "secret-volume-" +:+ "kelda-" +:+ sha1x secret)) as [Heq|Hne].
      * left. simpl in Heq. unfold secretVolume, secretRef. simpl.
        apply (app_inj_s "secret-volume-" "secret-volume-") in Heq as [_ Heq]; [|done].
        apply (app_inj_s "kelda-" "kelda-") in Heq as [_ ->]; done.
      * right. split; [|by exists kv]. intros [?%elem_of_singleton|?]%elem_of_union; done.
Qed.

Lemma secretVolumes_perm kvs kvs' :
  kvs ≡ₚ kvs' → (secretVolumes sha1x ∅ kvs).1 ≡ₚ (secretVolumes sha1x ∅ kvs').1 ∧
    (secretVolumes sha1x ∅ kvs).2 ≡ₚ (secretVolumes sha1x ∅ kvs').2.
Proof.
  intros Hp. destruct (secretVolumes_spec ∅ kvs) as (Hn1 & He1 & ->), (secretVolumes_spec ∅ kvs') as (Hn2 & He2 & ->).
  split; [|by rewrite Hp]. apply NoDup_Permutation; [by eapply NoDup_fmap_1..|].
  intros v. rewrite He1, He2. by setoid_rewrite Hp.
Qed.

Definition filesVolumes (m : gmap string ContainerValue) : list kVolume :=
  (secretVolumes sha1x ∅ (map_to_list (secretsOf m))).1 ++
  if bool_decide (size (strings m) ≠ 0)
  then [mk_kVolume filesVolumeName (ConfigMapVolume (configMapName sha1x 0 (strings m)) filepathToContentMode)] else [].
Definition filesMounts (m : gmap string ContainerValue) : list kMount :=
  (secretMount <$> map_to_list (secretsOf m)) ++
  ((λ kv, mk_kMount filesVolumeName kv.1 (configMapKey sha1x kv.1)) <$> map_to_list (strings m)).

Lemma configMapName_order `{MapOrder} n m : configMapName sha1x n m = @configMapName sha1x fixed_order 0 m.
Proof. unfold configMapName. by rewrite (MapAsString_deterministic _ fixed_order n 0). Qed.

Lemma makeVolumes_perm `{MapOrder} n m :
  plain m → ∃ vs ms, makeVolumesForFilepathToContent sha1x n m = Ok (vs, ms) ∧
    vs ≡ₚ filesVolumes m ∧ ms ≡ₚ filesMounts m.
Proof.
  intros Hm. unfold makeVolumesForFilepathToContent. rewrite DivideContainerValues_maps by done. simpl.
  destruct (secretVolumes_perm (range (S n) (secretsOf m)) (map_to_list (secretsOf m))) as [Hv _]; [apply range_perm|].
  destruct (secretVolumes_spec ∅ (range (S n) (secretsOf m))) as (_ & _ & Hms).
  destruct (secretVolumes sha1x ∅ (range (S n) (secretsOf m))) as [vs ms]. simpl in *. subst ms.
  eexists _, _. split; [done|]. unfold filesVolumes, filesMounts. rewrite (configMapName_order (S (S n))).
  split; [by rewrite Hv|by rewrite !range_perm].
Qed.

(** *** Names in a pod *)

Lemma envVars_name m x : x ∈ envVars m → is_Some (m !! ev_Name x).
Proof.
  unfold envVars, strings, secretsOf. rewrite elem_of_app, !list_elem_of_fmap.
  intros [([k v] & -> & Hk%elem_of_map_to_list)|([k v] & -> & Hk%elem_of_map_to_list)]; simpl in *;
    rewrite lookup_omap in Hk; by destruct (m !! k).
Qed.

Lemma envVars_ties m : no_ties ev_Name (envVars m).
Proof.
  intros x y. unfold envVars. rewrite !elem_of_app, !list_elem_of_fmap.
  intros [([k v] & -> & Hk%elem_of_map_to_list)|([k v] & -> & Hk%elem_of_map_to_list)]
    [([k' v'] & -> & Hk'%elem_of_map_to_list)|([k' v'] & -> & Hk'%elem_of_map_to_list)]; simpl; intros ->;
    try congruence; exfalso; by eapply strings_secrets_disjoint.
Qed.

Lemma secretEnv_elem k names x :
  x ∈ secretEnv sha1x k names ↔ ∃ name v, name ∈ names ∧ secretValue sha1x k name = Some v ∧
    x = mk_EnvVar ("SECRET_HASH_" +:+ name) (hexStr (hashStr sha1x v)) None.
Proof.
  unfold secretEnv. rewrite list_elem_of_omap. split.
  - intros (name & Hn & (v & Hv & ->)%fmap_Some). eauto.
  - intros (name & v & Hn & Hv & ->). exists name. by rewrite Hv.
Qed.

Lemma env_ties k dbc names :
  steady dbc → (∀ name, name ∈ names → references dbc name) →
  no_ties ev_Name (secretEnv sha1x k names ++ envVars (c_Env dbc)).
Proof.
  intros Hsd Hn x y [(a & v & Ha & Hv & ->)%secretEnv_elem|Hx]%elem_of_app
    [(b & v' & Hb & Hv' & ->)%secretEnv_elem|Hy]%elem_of_app; simpl; intros Heq.
  - apply (app_inj_s "SECRET_HASH_" "SECRET_HASH_") in Heq as [_ ->]; [|done]. congruence.
  - destruct (sd_env _ Hsd (ev_Name y) a); [by apply envVars_name|auto|done].
  - destruct (sd_env _ Hsd (ev_Name x) b); [by apply envVars_name|auto|done].
  - by apply (envVars_ties (c_Env dbc)).
Qed.

Lemma mountVolumes_spec vm l vs ms :
  mountVolumes vm l = Some (vs, ms) →
  (∀ v, v ∈ vs → ∃ name, name ∈ vm_VolumeName <$> l ∧ vm !! name = Some v) ∧
  ms = (λ x, mk_kMount (vm_VolumeName x) (vm_MountPath x) "") <$> l.
Proof.
  revert vs ms. induction l as [|x l IH]; intros vs ms; simpl.
  { intros [= <- <-]. split; [set_solver|done]. }
  destruct (vm !! vm_VolumeName x) as [v|] eqn:Hv; [|done].
  destruct (mountVolumes vm l) as [[vs' ms']|]; [|done]. intros [= <- <-].
  destruct (IH vs' ms' eq_refl) as [Hvs ->]. split; [|done]. intros u [->|Hu]%elem_of_cons.
  - exists (vm_VolumeName x). csimpl. set_solver.
  - destruct (Hvs u Hu) as (name & ? & ?). exists name. csimpl. set_solver.
Qed.

(** Volumes are kept by name. *)
Definition named (vm : gmap string kVolume) : Prop := ∀ name v, vm !! name = Some v → kv_Name v = name.

Lemma makeVolumes_named l vm vm' : named vm → makeVolumes l vm = Val vm' → named vm'.
Proof.
  revert vm. induction l as [|x l IH]; intros vm Hvm; simpl; [by intros [= <-]|].
  unfold makeVolume. case_bool; [|done]. apply IH.
  intros name v [[<- <-]|[_ ?]]%lookup_insert_Some; [done|auto].
Qed.

Lemma filesVolumes_elem m v :
  v ∈ filesVolumes m → (∃ secret, v = secretVolume secret) ∨
    v = mk_kVolume filesVolumeName (ConfigMapVolume (configMapName sha1x 0 (strings m)) filepathToContentMode).
Proof.
  unfold filesVolumes. rewrite elem_of_app. intros [Hv|Hv].
  - apply secretVolumes_spec in Hv as (_ & kv & _ & ->). eauto.
  - revert Hv. case_bool; rewrite ?elem_of_nil, ?list_elem_of_singleton; [auto|done].
Qed.

Lemma volumes_ties vm dbc vs ms :
  named vm → steady dbc → mountVolumes vm (c_VolumeMounts dbc) = Some (vs, ms) →
  no_ties kv_Name (filesVolumes (c_FilepathToContent dbc) ++ vs).
Proof.
  intros Hvm Hsd [Hvs _]%mountVolumes_spec.
  assert (∀ v u, v ∈ filesVolumes (c_FilepathToContent dbc) → u ∈ vs → kv_Name v ≠ kv_Name u) as Hdis.
  { intros v u Hv Hu Heq. destruct (Hvs u Hu) as (name & Hn & Hl). apply Hvm in Hl.
    destruct (sd_names _ Hsd name Hn) as [Hf Hs].
    apply filesVolumes_elem in Hv as [[secret ->]| ->]; simpl in Heq; [|congruence].
    apply (Hs secret). by rewrite <-Hl, <-Heq. }
  intros x y [Hx|Hx]%elem_of_app [Hy|Hy]%elem_of_app Heq.
  - apply filesVolumes_elem in Hx as [[a ->]| ->], Hy as [[b ->]| ->]; [|done..].
    unfold secretVolume in *. simpl in *. apply (app_inj_s "secret-volume-" "secret-volume-") in Heq as [_ ->]; done.
  - by destruct (Hdis x y).
  - by destruct (Hdis y x).
  - destruct (Hvs x Hx) as (a & _ & Ha), (Hvs y Hy) as (b & _ & Hb).
    pose proof (Hvm _ _ Ha). pose proof (Hvm _ _ Hb). congruence.
Qed.

Lemma filesMounts_elem m x :
  x ∈ filesMounts m → is_Some (m !! km_MountPath x) ∧
  ((∃ secret, secretsOf m !! km_MountPath x = Some secret ∧ x = secretMount (km_MountPath x, secret)) ∨
   (is_Some (strings m !! km_MountPath x) ∧
    x = mk_kMount filesVolumeName (km_MountPath x) (configMapKey sha1x (km_MountPath x)))).
Proof.
  unfold filesMounts. rewrite elem_of_app, !list_elem_of_fmap.
  intros [([path s] & -> & Hk%elem_of_map_to_list)|([path s] & -> & Hk%elem_of_map_to_list)]; simpl in *.
  - split; [|left; eauto]. unfold secretsOf in Hk. rewrite lookup_omap in Hk. by destruct (m !! path).
  - split; [|right; eauto]. unfold strings in Hk. rewrite lookup_omap in Hk. by destruct (m !! path).
Qed.

Lemma mounts_ties vm dbc vs ms :
  steady dbc → mountVolumes vm (c_VolumeMounts dbc) = Some (vs, ms) →
  no_ties km_MountPath (filesMounts (c_FilepathToContent dbc) ++ ms).
Proof.
  intros Hsd [_ ->]%mountVolumes_spec.
  assert (∀ x y, x ∈ filesMounts (c_FilepathToContent dbc) → y ∈ c_VolumeMounts dbc →
    km_MountPath x ≠ vm_MountPath y) as Hdis.
  { intros x y [[v Hv] _]%filesMounts_elem Hy Heq. rewrite Heq, (sd_files _ Hsd) in Hv; [done|].
    by apply list_elem_of_fmap_2. }
  intros x y [Hx|Hx]%elem_of_app [Hy|Hy]%elem_of_app Heq.
  - apply filesMounts_elem in Hx as [_ Hx], Hy as [_ Hy]. rewrite <-Heq in Hy.
    destruct Hx as [(s & Hs & ->)|[[t Ht] ->]], Hy as [(s' & Hs' & ->)|[[t' Ht'] ->]]; simpl in *; try congruence;
      exfalso; by eapply strings_secrets_disjoint.
  - apply list_elem_of_fmap in Hy as (b & -> & Hb). by destruct (Hdis x b).
  - apply list_elem_of_fmap in Hx as (a & -> & Ha). by destruct (Hdis y a).
  - apply list_elem_of_fmap in Hx as (a & -> & Ha), Hy as (b & -> & Hb). simpl in Heq.
    assert (a = b) as ->; [|done]. eapply (NoDup_fmap_elem vm_MountPath); [apply Hsd|done..].
Qed.

(** *** The pod does not depend on orders *)

Lemma missingSecrets_perm k names names' :
  names ≡ₚ names' → missingSecrets sha1x k names ≡ₚ missingSecrets sha1x k names'.
Proof. apply filter_perm. Qed.

Lemma secretEnv_perm k names names' : names ≡ₚ names' → secretEnv sha1x k names ≡ₚ secretEnv sha1x k names'.
Proof. intros. by apply omap_Permutation. Qed.

Lemma podOf_orders (O1 O2 : MapOrder) (S1 S2 : GoSort) k n1 n2 images aff vm dbc :
  plainContainer dbc → named vm → steady dbc →
  @podOf O1 S1 k n1 images aff vm dbc = @podOf O2 S2 k n2 images aff vm dbc.
Proof.
  intros [He Hf] Hvm Hsd. unfold podOf. destruct (podImage images dbc) as [image|]; [|done].
  pose proof (GetReferencedSecrets_perm O1 O2 n1 (1 + n1) n2 (1 + n2) dbc) as Hsec.
  rewrite (bool_decide_ext (missingSecrets sha1x k (@GetReferencedSecrets O1 n1 (1 + n1) dbc) ≠ [])
    (missingSecrets sha1x k (@GetReferencedSecrets O2 n2 (1 + n2) dbc) ≠ [])).
  2:{ apply missingSecrets_perm with (k := k) in Hsec. split; intros Hne Hnil; apply Hne.
      - rewrite Hnil in Hsec. by apply Permutation_nil_r.
      - rewrite Hnil in Hsec. symmetry in Hsec. by apply Permutation_nil_r. }
  case_bool; [done|].
  destruct (@makePodEnvVars_perm O1 (2 + n1) _ He) as (e1 & -> & He1), (@makePodEnvVars_perm O2 (2 + n2) _ He) as (e2 & -> & He2).
  destruct (@makeVolumes_perm O1 (5 + n1) _ Hf) as (v1 & m1 & -> & Hv1 & Hm1),
    (@makeVolumes_perm O2 (5 + n2) _ Hf) as (v2 & m2 & -> & Hv2 & Hm2). simpl.
  destruct (mountVolumes vm (c_VolumeMounts dbc)) as [[vs ms]|] eqn:Hmv; [|done].
  assert (∀ {A} (key : A → string) l l', no_ties key l → l ≡ₚ l' → no_ties key l') as Hties.
  { intros A key l l' Ht Hp x y. rewrite <-Hp. apply Ht. }
  do 2 f_equal. unfold podSpec. f_equal; [f_equal; f_equal|].
  - apply (Sort_unique S1 S2 ev_Name); [by rewrite He1, He2, (secretEnv_perm _ _ _ Hsec)|].
    eapply Hties; [eapply (env_ties k dbc (@GetReferencedSecrets O1 n1 (1 + n1) dbc)); [exact Hsd|]|by rewrite He1].
    intros name. by rewrite GetReferencedSecrets_elem.
  - apply (Sort_unique S1 S2 km_MountPath); [by rewrite Hm1, Hm2|].
    eapply Hties; [by eapply mounts_ties|by rewrite Hm1].
  - apply (Sort_unique S1 S2 kv_Name); [by rewrite Hv1, Hv2|].
    eapply Hties; [by eapply volumes_ties|by rewrite Hv1].
Qed.
End pod.

(** ** Objects by name *)

Section objects.
Context {V : Type} (name : V → string).

Definition byName (l : list V) : gmap string V := list_to_map ((λ d, (name d, d)) <$> l).
Definition insertAll (m : gmap string V) (l : list V) : gmap string V := foldl (λ m d, <[name d := d]> m) m l.
Definition deleteAll (m : gmap string V) (l : list V) : gmap string V := foldl (λ m d, delete (name d) m) m l.

Lemma fst_byName (l : list V) : ((λ d, (name d, d)) <$> l).*1 = name <$> l.
Proof. by rewrite <-list_fmap_compose. Qed.

Lemma byName_None l i : byName l !! i = None ↔ i ∉ name <$> l.
Proof. unfold byName. by rewrite <-not_elem_of_list_to_map, fst_byName. Qed.

Lemma byName_Some l i d : NoDup (name <$> l) → byName l !! i = Some d ↔ d ∈ l ∧ name d = i.
Proof.
  intros Hnd. unfold byName. rewrite <-elem_of_list_to_map by (by rewrite fst_byName).
  rewrite list_elem_of_fmap. naive_solver.
Qed.

Lemma byName_perm l k : NoDup (name <$> l) → l ≡ₚ k → byName l = byName k.
Proof. intros Hnd Hp. apply list_to_map_proper; [by rewrite fst_byName|by rewrite Hp]. Qed.

Lemma byName_vals m : keyed name m → byName (vals m) = m.
Proof.
  intros Hk. apply map_eq. intros i. apply option_eq. intros d. rewrite byName_Some by by apply keyed_NoDup.
  rewrite elem_of_vals. split; [|eauto]. intros [[j Hj] <-]. by rewrite (Hk _ _ Hj).
Qed.

Lemma insertAll_union m l : NoDup (name <$> l) → insertAll m l = byName l ∪ m.
Proof.
  revert m. induction l as [|d l IH]; intros m Hnd; csimpl in *; [symmetry; apply map_empty_union|].
  apply NoDup_cons in Hnd as [Hd Hnd]. rewrite IH by done. unfold byName. csimpl.
  apply byName_None in Hd. by rewrite <-insert_union_l, <-insert_union_r.
Qed.

Lemma lookup_deleteAll m l i : deleteAll m l !! i = if decide (i ∈ name <$> l) then None else m !! i.
Proof.
  revert m. induction l as [|d l IH]; intros m; csimpl; [done|].
  rewrite IH. destruct (decide (i = name d)) as [->|Hne].
  - rewrite lookup_delete_eq, (decide_True (P := _ ∈ name d :: _)) by set_solver. by case_decide.
  - rewrite lookup_delete_ne by done. apply decide_ext. set_solver.
Qed.

(** What is left when the unmatched are created and deleted. *)
Lemma joined_objects m des cur pairs toCreate toDelete (upd : list V) :
  keyed name m → cur ≡ₚ vals m → NoDup (name <$> des) → hash_joined des cur name name pairs toCreate toDelete →
  NoDup (name <$> upd ++ toCreate) →
  (∀ d, d ∈ upd → ∃ c, (d, c) ∈ pairs) → ∀ i,
  deleteAll (insertAll m (upd ++ toCreate)) toDelete !! i =
  if decide (i ∈ name <$> des) then (byName (upd ++ toCreate) ∪ m) !! i else None.
Proof.
  intros Hk Hcur Hnd Hj Hnd' Hupd i. rewrite lookup_deleteAll, insertAll_union by done.
  pose proof (hash_joined_lefts _ _ _ _ _ _ _ Hj Hnd) as Hl.
  assert (NoDup (name <$> cur)) as Hnc by (rewrite Hcur; by apply keyed_NoDup).
  case_decide as Hdel.
  - apply list_elem_of_fmap in Hdel as (c & -> & Hc). rewrite decide_False; [done|].
    by eapply hash_joined_lonely_right.
  - case_decide as Hdes; [done|]. rewrite lookup_union.
    assert (byName (upd ++ toCreate) !! i = None) as ->.
    { apply byName_None. intros (d & -> & [Hd|Hd]%elem_of_app)%list_elem_of_fmap; apply Hdes, list_elem_of_fmap_2; rewrite <-Hl.
      - destruct (Hupd d Hd) as [c Hc]. apply elem_of_app. left. by apply (list_elem_of_fmap_2 fst) in Hc.
      - apply elem_of_app. by right. }
    rewrite left_id by apply _. destruct (m !! i) as [c|] eqn:Hc; [|done]. exfalso.
    assert (c ∈ cur) as Hin by (rewrite Hcur; apply elem_of_vals; eauto). pose proof (Hk _ _ Hc) as Hi.
    rewrite <-(hj_rights _ _ _ _ _ _ _ Hj) in Hin. apply elem_of_app in Hin as [Hin|Hin].
    + apply list_elem_of_fmap in Hin as ([d c'] & -> & Hp). simpl in *. apply Hdes.
      rewrite <-Hi, <-(hj_pair _ _ _ _ _ _ _ Hj _ _ Hp). apply list_elem_of_fmap_2. rewrite <-Hl.
      apply elem_of_app. left. by apply (list_elem_of_fmap_2 fst) in Hp.
    + apply Hdel. rewrite <-Hi. by apply list_elem_of_fmap_2.
Qed.
End objects.

(** ** Loops of calls *)

Section calls.
Context {W : Type} `{KubeLaws W}.

(** Calls that succeed, each with its effect on the cluster. *)
Definition effects {A} (act : A → M W (result unit)) (step : A → cluster → cluster) (k : cluster) (l : list A) : Prop :=
  ∀ dn x todo w, l = dn ++ x :: todo → kube w = foldl (flip step) k dn →
    wp (act x) w (λ r w', r = Val () ∧ kube w' = step x (kube w)).

Lemma wp_logged {A} (act : A → M W (result unit)) step l w Q :
  effects act step (kube w) l → (∀ w', kube w' = foldl (flip step) (kube w) l → Q () w') → wp (logged act l) w Q.
Proof.
  intros Heff HQ. apply (wp_forM_prefix _ (λ dn w', kube w' = foldl (flip step) (kube w) dn)); [done| |auto].
  intros dn x todo w1 Hl Hw1. wp_bind. eapply wp_mono; [by eapply Heff|].
  intros r w2 [_ Hw2]. wp_ret. by rewrite Hw2, foldl_app, Hw1.
Qed.

Lemma wp_allSucceed {A} (act : A → M W (result unit)) step l w Q :
  effects act step (kube w) l → (∀ w', kube w' = foldl (flip step) (kube w) l → Q true w') → wp (allSucceed act l) w Q.
Proof.
  revert w Q. induction l as [|x l IH]; intros w Q Heff HQ; simpl; [wp_ret; auto|].
  wp_bind. eapply wp_mono; [apply (Heff [] x l w); done|]. intros r w1 [-> Hw1]. wp_bind. apply IH.
  - intros dn y todo w2 -> Hw2. rewrite Hw1 in Hw2. by apply (Heff (x :: dn) y todo).
  - intros w2 Hw2. wp_ret. apply HQ. by rewrite Hw2, Hw1.
Qed.
End calls.

(** ** Bringing the cluster in line *)

Section sync.
Context `{MapOrder} {W : Type} `{KubeLaws W}.
Implicit Types w : W.

Definition putDep (d : Deployment) (k : cluster) : cluster := set_deps (<[dp_Name d := d]> (k_deps k)) k.
Definition dropDep (d : Deployment) (k : cluster) : cluster := set_deps (delete (dp_Name d) (k_deps k)) k.
Definition putCm (c : ConfigMap) (k : cluster) : cluster := set_cms (<[cm_Name c := c]> (k_cms k)) k.
Definition dropCm (c : ConfigMap) (k : cluster) : cluster := set_cms (delete (cm_Name c) (k_cms k)) k.

Lemma putDeps_fold l k : foldl (flip putDep) k l = set_deps (insertAll dp_Name (k_deps k) l) k.
Proof. revert k. induction l as [|d l IH]; intros k; simpl; [by destruct k|]. by rewrite IH. Qed.
Lemma dropDeps_fold l k : foldl (flip dropDep) k l = set_deps (deleteAll dp_Name (k_deps k) l) k.
Proof. revert k. induction l as [|d l IH]; intros k; simpl; [by destruct k|]. by rewrite IH. Qed.
Lemma putCms_fold l k : foldl (flip putCm) k l = set_cms (insertAll cm_Name (k_cms k) l) k.
Proof. revert k. induction l as [|d l IH]; intros k; simpl; [by destruct k|]. by rewrite IH. Qed.
Lemma dropCms_fold l k : foldl (flip dropCm) k l = set_cms (deleteAll cm_Name (k_cms k) l) k.
Proof. revert k. induction l as [|d l IH]; intros k; simpl; [by destruct k|]. by rewrite IH. Qed.

Lemma insertAll_is_Some {V} (name : V → string) m l i : is_Some (m !! i) → is_Some (insertAll name m l !! i).
Proof.
  revert m. induction l as [|d l IH]; intros m Hm; simpl; [done|]. apply IH.
  destruct (decide (name d = i)) as [<-|]; [rewrite lookup_insert_eq; eauto|by rewrite lookup_insert_ne].
Qed.

(** A fresh object stays fresh while others are created. *)
Lemma insertAll_fresh {V} (name : V → string) m dn d todo :
  NoDup (name <$> dn ++ d :: todo) → m !! name d = None → insertAll name m dn !! name d = None.
Proof.
  intros Hnd Hm. rewrite fmap_app in Hnd. apply NoDup_app in Hnd as (Hdn & Hd & _).
  rewrite insertAll_union by done. apply lookup_union_None. split; [|done].
  apply byName_None. intros Hin. apply (Hd _ Hin). csimpl. set_solver.
Qed.

Lemma deleteAll_present {V} (name : V → string) m dn d todo :
  NoDup (name <$> dn ++ d :: todo) → is_Some (m !! name d) → is_Some (deleteAll name m dn !! name d).
Proof.
  intros Hnd Hm. rewrite fmap_app in Hnd. apply NoDup_app in Hnd as (_ & Hd & _).
  rewrite lookup_deleteAll, decide_False; [done|]. intros Hin. apply (Hd _ Hin). csimpl. set_solver.
Qed.

(** What the two sides of a join by name tell about the current objects. *)
Lemma joined_fresh {V} (name : V → string) m des cur pairs toCreate toDelete :
  keyed name m → cur ≡ₚ vals m → NoDup (name <$> des) → hash_joined des cur name name pairs toCreate toDelete →
  NoDup (name <$> pairs.*1 ++ toCreate) ∧ NoDup (name <$> toDelete) ∧
  (∀ d, d ∈ pairs.*1 → is_Some (m !! name d)) ∧ (∀ d, d ∈ toCreate → m !! name d = None) ∧
  (∀ d, d ∈ toDelete → is_Some (m !! name d)).
Proof.
  intros Hk Hcur Hnd Hj. pose proof (hash_joined_lefts _ _ _ _ _ _ _ Hj Hnd) as Hl.
  assert (∀ c, c ∈ cur → is_Some (m !! name c)) as Hin.
  { intros c Hc. rewrite Hcur in Hc. apply elem_of_vals in Hc as [i Hi]. exists c. by rewrite (Hk _ _ Hi). }
  assert (∀ c, c ∈ pairs.*2 ++ toDelete → c ∈ cur) as Hr by (intros c; by rewrite (hj_rights _ _ _ _ _ _ _ Hj)).
  split_and!.
  - by rewrite Hl.
  - assert (NoDup (name <$> cur)) as Hnc by (rewrite Hcur; by apply keyed_NoDup).
    rewrite <-(hj_rights _ _ _ _ _ _ _ Hj), fmap_app in Hnc. by apply NoDup_app in Hnc as (_ & _ & ?).
  - intros d ([d' c] & -> & Hp)%list_elem_of_fmap. simpl. rewrite (hj_pair _ _ _ _ _ _ _ Hj _ _ Hp).
    apply Hin, Hr, elem_of_app. left. by apply (list_elem_of_fmap_2 snd) in Hp.
  - intros d Hd. destruct (m !! name d) as [c|] eqn:Hc; [|done]. exfalso.
    apply (hj_lonely_left _ _ _ _ _ _ _ Hj d c Hd); [rewrite Hcur; apply elem_of_vals; eauto|]. symmetry. by apply Hk.
  - intros d Hd. apply Hin, Hr, elem_of_app. by right.
Qed.

Lemma wp_syncDeployments n des cur w Q :
  cur ≡ₚ vals (k_deps (kube w)) → NoDup (dp_Name <$> des) →
  (∀ w', kube w' = set_deps (byName dp_Name des) (kube w) → Q () w') → wp (syncDeployments n des cur) w Q.
Proof.
  intros Hcur Hnd HQ. unfold syncDeployments.
  destruct (HashJoin _ _ _ _ _) as [[pairs toCreate] toDelete] eqn:Hj. apply HashJoin_ok in Hj.
  destruct (joined_fresh _ _ _ _ _ _ _ (deps_named w) Hcur Hnd Hj) as (Hn & Hnd' & Hup & Hcr & Hdel).
  pose proof Hn as Hn'. rewrite fmap_app in Hn'. apply NoDup_app in Hn' as (Hnp & Hdis & Hnc).
  wp_bind. apply (wp_logged _ (λ p, putDep p.1)).
  { intros dn p todo w1 Hp Hw1. apply (RetryOnConflict_ok _ _ (λ _ w', kube w' = putDep p.1 (kube w1))).
    eapply wp_mono; [apply updateDeployment_ok|by intros r w2 [-> ?]].
    replace (kube w1) with (foldl (flip putDep) (kube w) dn.*1) by (rewrite Hw1; clear; generalize (kube w);
      induction dn as [|[]]; intros k; simpl; auto). rewrite putDeps_fold. simpl.
    apply insertAll_is_Some, Hup. rewrite Hp, fmap_app. csimpl. set_solver. }
  intros w1 Hw1. assert (kube w1 = set_deps (insertAll dp_Name (k_deps (kube w)) pairs.*1) (kube w)) as Hk1.
  { rewrite <-putDeps_fold, Hw1. clear. generalize (kube w). induction pairs as [|[]]; intros k; simpl; auto. }
  clear Hw1. wp_bind. apply (wp_logged _ putDep).
  { intros dn d todo w2 Hd Hw2. apply createDeployment_ok. rewrite Hw2, putDeps_fold, Hk1. simpl.
    apply (insertAll_fresh _ _ _ _ todo); [by rewrite <-Hd|].
    rewrite insertAll_union by done. apply lookup_union_None. split; [|apply Hcr; rewrite Hd; set_solver].
    apply byName_None. intros Hin. apply (Hdis _ Hin), list_elem_of_fmap_2. rewrite Hd. set_solver. }
  intros w2 Hw2. rewrite putDeps_fold, Hk1 in Hw2. simpl in Hw2.
  assert (insertAll dp_Name (insertAll dp_Name (k_deps (kube w)) pairs.*1) toCreate =
    insertAll dp_Name (k_deps (kube w)) (pairs.*1 ++ toCreate)) as Happ by (unfold insertAll; by rewrite foldl_app).
  rewrite Happ in Hw2. apply (wp_logged _ dropDep).
  { intros dn d todo w3 Hd Hw3. apply deleteDeployment_ok. rewrite Hw3, dropDeps_fold, Hw2. simpl.
    apply (deleteAll_present _ _ _ _ todo); [by rewrite <-Hd|].
    apply insertAll_is_Some, Hdel. rewrite Hd. set_solver. }
  intros w3 Hw3. apply HQ. rewrite Hw3, dropDeps_fold, Hw2. simpl.
  assert (deleteAll dp_Name (insertAll dp_Name (k_deps (kube w)) (pairs.*1 ++ toCreate)) toDelete =
    byName dp_Name des) as ->; [|done].
  apply map_eq. intros i. rewrite (joined_objects _ _ des cur pairs);
    [|apply deps_named|done|done|done|done|intros d ([? c] & -> & ?)%list_elem_of_fmap; simpl; eauto].
  rewrite (byName_perm _ _ des Hn (hash_joined_lefts _ _ _ _ _ _ _ Hj Hnd)). case_decide as Hi.
  - rewrite lookup_union. destruct (byName dp_Name des !! i) eqn:Hb; [by destruct (k_deps (kube w) !! i)|]. by apply byName_None in Hb.
  - symmetry. by apply byName_None.
Qed.
End sync.
