(* ===== verification/KubeRound.v ===== *)
(** * Package kubernetes: the rounds

    What a turn of each of the three loops leaves in the cluster and in the
    database, composed from the parts in [KubeSpec] and [KubeDeploy]. *)

From S2P Require Import Prelude GoStrings Join Blueprint DbRows Db DbSpec DbTxn DbFrame Engine Kube KubeSpec KubeDeploy.

(** ** What should be deployed *)

Section desired.
Context (sha1x : string → string) `{MapOrder} `{GoSort}.

Definition imageKeyOf (img : Image) : string * string := (im_Name img, im_Dockerfile img).

(** Containers with an address. *)
Definition addressed (l : list Container) : list Container := filter (λ c, c_IP c ≠ "") l.

Lemma podImage_perm images images' dbc :
  NoDup (imageKeyOf <$> images) → images ≡ₚ images' → podImage images dbc = podImage images' dbc.
Proof.
  intros Hnd Hp. unfold podImage. case_bool; [|done]. f_equal.
  set (P := λ img, _ ∧ _).
  assert (filter P images ≡ₚ filter P images') as Hf by (by apply filter_perm).
  assert (length (filter P images) ≤ 1) as Hlen.
  { destruct (filter P images) as [|x [|y l]] eqn:Hxy; simpl; try lia. exfalso.
    assert (NoDup (imageKeyOf <$> filter P images)) as Hnd'.
    { eapply sublist_NoDup; [exact Hnd|]. apply fmap_sublist, sublist_filter. }
    rewrite Hxy in Hnd'. csimpl in Hnd'. apply NoDup_cons in Hnd' as [Hx _]. apply Hx.
    assert (x ∈ filter P images ∧ y ∈ filter P images) as [[(? & ? & _) _]%list_elem_of_filter [(? & ? & _) _]%list_elem_of_filter]
      by (rewrite Hxy; set_solver).
    apply elem_of_cons. left. unfold imageKeyOf. congruence. }
  destruct (filter P images) as [|x [|]] eqn:Hx; simpl in Hlen; [|apply Permutation_singleton_l in Hf; by rewrite Hf|lia].
  apply Permutation_nil_l in Hf. by rewrite Hf.
Qed.

Lemma podOf_images k n images images' aff vm dbc :
  NoDup (imageKeyOf <$> images) → images ≡ₚ images' →
  podOf sha1x k n images aff vm dbc = podOf sha1x k n images' aff vm dbc.
Proof. intros Hnd Hp. unfold podOf. by rewrite (podImage_perm _ _ _ Hnd Hp). Qed.

Lemma hashContainerValueMap_order n m : hashContainerValueMap sha1x n m = hashContainerValueMap sha1x 0 m.
Proof. unfold hashContainerValueMap. by rewrite (MapAsString_deterministic _ _ n 0). Qed.

Lemma makeDeployment_order n dbc pod : makeDeployment sha1x n dbc pod = makeDeployment sha1x 0 dbc pod.
Proof.
  unfold makeDeployment, annotations.
  by rewrite !(hashContainerValueMap_order n), !(hashContainerValueMap_order (1 + n)), (hashContainerValueMap_order (1 + 0)).
Qed.

(** The deployment of a container, if it can be deployed now. *)
Definition deploymentOf (k : cluster) (images : list Image) (aff : gmap string Affinity) (vm : gmap string kVolume)
    (dbc : Container) : option Deployment :=
  match podOf sha1x k 0 images aff vm dbc with
  | Ok (Some pod) => Some (makeDeployment sha1x 0 dbc pod)
  | _ => None
  end.

Lemma deploymentOf_name k images aff vm dbc d :
  deploymentOf k images aff vm dbc = Some d → dp_Name d = c_Hostname dbc.
Proof. unfold deploymentOf. destruct (podOf _ _ _ _ _ _ _) as [[pod|]|]; [|done..]. by intros [= <-]. Qed.

Lemma deploymentOf_names k images aff vm l :
  NoDup (c_Hostname <$> l) → NoDup (dp_Name <$> omap (deploymentOf k images aff vm) l).
Proof.
  induction l as [|c l IH]; csimpl; [constructor|]. intros [Hc Hnd]%NoDup_cons.
  destruct (deploymentOf k images aff vm c) as [d|] eqn:Hd; [|auto]. csimpl. constructor; [|auto].
  intros (d' & Heq & (c' & Hc' & Hd')%list_elem_of_omap)%list_elem_of_fmap. apply Hc.
  rewrite <-(deploymentOf_name _ _ _ _ _ _ Hd), Heq, (deploymentOf_name _ _ _ _ _ _ Hd').
  by apply list_elem_of_fmap_2.
Qed.

(** Containers that are as the code expects them. *)
Record deployable (l : list Container) : Prop := {
  da_plain : Forall plainContainer l;
  da_steady : Forall (steady sha1x) l;
  da_hosts : NoDup (c_Hostname <$> l);
}.

Context {W : Type} `{KubeLaws W}.

Lemma wp_makeDeployments n images aff vm l (w : W) Q :
  named vm → Forall plainContainer l → Forall (steady sha1x) l →
  (∀ w', kube w' = kube w → Q (omap (deploymentOf (kube w) images aff vm) l) w') →
  wp (makeDeployments sha1x n images aff vm l) w Q.
Proof.
  intros Hvm Hp. revert n w Q. induction Hp as [|dbc l Hdbc Hl IH]; intros n w Q Hs HQ; simpl.
  { wp_ret. by apply HQ. }
  apply Forall_cons in Hs as [Hsd Hs]. wp_bind.
  destruct (podOf_total sha1x (kube w) 0 images aff vm dbc Hdbc) as [r Hr].
  eapply wp_makePod; [rewrite (podOf_orders _ _ _ _ _ _ n 0) by done; exact Hr|]. intros w1 Hw1.
  wp_bind. apply IH; [done|]. intros w2 Hw2. wp_ret. rewrite Hw1 in Hw2.
  assert (deploymentOf (kube w) images aff vm dbc = (makeDeployment sha1x 0 dbc <$> r)) as Hd.
  { unfold deploymentOf. rewrite Hr. by destruct r. }
  csimpl in HQ. rewrite Hd in HQ. rewrite Hw1. destruct r as [pod|]; simpl in *; [|by apply HQ].
  rewrite makeDeployment_order. by apply HQ.
Qed.
End desired.

(** ** Updating the deployments *)

Definition affinitiesOf `{GoSort} (s : store) : gmap string Affinity :=
  match toAffinities (vals (tbl Placement s)) with Ok m => m | Panic _ => ∅ end.

Section deployments.
Context (sha1x : string → string) `{MapOrder} `{GoSort} {W : Type} `{KubeLaws W}.
Implicit Types (s : store) (w : W).

Lemma toAffinities_table s l :
  wf s → l ≡ₚ vals (tbl Placement s) → toAffinities l = Ok (affinitiesOf s).
Proof.
  intros Hwf Hl. unfold affinitiesOf, toAffinities.
  rewrite (Sort_placements _ _ l (vals (tbl Placement s)) Hl).
  2:{ rewrite Hl. exact (NoDup_tbl_ids (T:=Placement) s Hwf). }
  destruct (toAffinitiesLoop_spec (Sort Placement_less (vals (tbl Placement s))) ∅ []) as (m & -> & _); [|done].
  intros t. by rewrite lookup_empty.
Qed.

Lemma wp_readDesired view s b Q :
  DbOK view s → list_to_set desiredTables ⊆ view → vals (tbl Blueprint s) = [b] →
  (∀ s' cs imgs, same s s' → cs ≡ₚ addressed (vals (tbl Container s)) → imgs ≡ₚ vals (tbl Image s) →
     Q (Val (cs, imgs, affinitiesOf s, bp_Volumes (b_Blueprint b))) s') →
  wp (readDesired view) s Q.
Proof.
  intros Hok Hsub Hb HQ. assert (∀ tn, tn ∈ desiredTables → tn ∈ view) as Hin by set_solver.
  unfold readDesired. wp_bind. eapply wp_GetBlueprint; [done|apply Hin; vm_decide|exact Hb|]. intros s1 Hs1.
  wp_bind. apply wp_SelectFrom; [eauto with kelda|apply Hin; vm_decide|]. intros cs s2 Hs2 Hcs.
  pose proof (same_trans _ _ _ Hs1 Hs2) as Hs02. rewrite (same_tbl _ _ Hs1) in Hcs. wp_bind.
  apply wp_select_all; [eauto with kelda|apply Hin; vm_decide|]. intros imgs s3 Hs3 Himgs.
  rewrite (same_tbl _ _ Hs02) in Himgs. pose proof (same_trans _ _ _ Hs02 Hs3) as Hs03. wp_bind.
  apply wp_select_all; [eauto with kelda|apply Hin; vm_decide|]. intros ps s4 Hs4 Hps.
  rewrite (same_tbl _ _ Hs03) in Hps. wp_bind. eapply wp_lift; [by apply (toAffinities_table s); [apply Hok|]|].
  wp_ret. apply HQ; [by eapply same_trans| |done].
  rewrite Hcs. apply Permutation_refl', list_filter_iff. intros c. cbn. by rewrite bool_decide_eq_true.
Qed.

(** The deployments the database asks for, given the secrets in the cluster. *)
Definition desiredDeployments (k : cluster) (vm : gmap string kVolume) (s : store) : list Deployment :=
  omap (deploymentOf sha1x k (vals (tbl Image s)) (affinitiesOf s) vm) (addressed (vals (tbl Container s))).

Lemma wp_updateDeployments n s w b vm Q :
  DbOK (list_to_set desiredTables) s → vals (tbl Blueprint s) = [b] →
  makeVolumes (bp_Volumes (b_Blueprint b)) ∅ = Val vm →
  deployable sha1x (addressed (vals (tbl Container s))) → NoDup (imageKeyOf <$> vals (tbl Image s)) →
  (∀ s' w', same s s' →
     kube w' = set_deps (byName dp_Name (desiredDeployments (kube w) vm s)) (kube w) → Q () (s', w')) →
  wp (updateDeployments sha1x n) (s, w) Q.
Proof.
  intros Hok Hb Hvm [Hp Hst Hh] Himg HQ. unfold updateDeployments. wp_bind. apply wp_onSnd. cbn [fst snd].
  wp_use listDeployments_ok. intros r w1 (Hw1 & cur & -> & Hcur). cbn [fst snd].
  unfold makeDesiredDeployments. do 2 wp_bind. apply wp_onFst. apply wp_Run; [exact (DbOK_tables _ _ Hok)|].
  eapply wp_readDesired; [done|done|exact Hb|]. intros s1 cs imgs Hs1 Hcs Himgs s2 Hs2. cbn [fst snd] in *.
  rewrite Hvm. wp_bind. apply wp_onSnd. cbn [fst snd].
  assert (named vm) as Hnm by (eapply makeVolumes_named; [|exact Hvm]; by intros ??).
  eapply wp_makeDeployments; [done|by rewrite Hcs|by rewrite Hcs|]. intros w2 Hw2. wp_ret. cbn [fst snd].
  assert (∀ c, deploymentOf sha1x (kube w1) imgs (affinitiesOf s) vm c =
    deploymentOf sha1x (kube w) (vals (tbl Image s)) (affinitiesOf s) vm c) as Hd.
  { intros c. unfold deploymentOf. rewrite Hw1. by rewrite (podOf_images sha1x _ _ _ (vals (tbl Image s))) by (by rewrite ?Himgs). }
  assert (omap (deploymentOf sha1x (kube w1) imgs (affinitiesOf s) vm) cs ≡ₚ desiredDeployments (kube w) vm s) as Hperm.
  { unfold desiredDeployments. rewrite Hcs. apply Permutation_refl'. clear -Hd.
    induction (addressed (vals (tbl Container s))) as [|c l IH]; csimpl; [done|]. rewrite Hd. by rewrite IH. }
  assert (NoDup (dp_Name <$> desiredDeployments (kube w) vm s)) as Hnames by (by apply deploymentOf_names).
  apply wp_onSnd. cbn [fst snd]. apply wp_syncDeployments; [by rewrite Hw2, Hw1|by rewrite Hperm|].
  intros w3 Hw3. apply HQ; [by eapply same_trans|].
  rewrite Hw3, (byName_perm dp_Name _ _ Hnames (symmetry Hperm)). f_equal. congruence.
Qed.
End deployments.

(** ** Updating the config maps *)

Section configmaps.
Context (sha1x : string → string) `{MapOrder}.

(** The plain files of a container. *)
Definition filesOf (dbc : Container) : gmap string string := strings (c_FilepathToContent dbc).
Definition cmName (dbc : Container) : string := configMapName sha1x 0 (filesOf dbc).
Definition cmData (n : nat) (fm : gmap string string) : gmap string string :=
  foldl (λ data kv, <[configMapKey sha1x kv.1 := kv.2]> data) ∅ (range n fm).

(** The paths of the files have different hashes. *)
Definition paths_apart (fm : gmap string string) : Prop :=
  ∀ p q, is_Some (fm !! p) → is_Some (fm !! q) → sha1x p = sha1x q → p = q.

Lemma cmData_lookup n fm p v :
  paths_apart fm → fm !! p = Some v → cmData n fm !! configMapKey sha1x p = Some v.
Proof.
  intros Hap Hp. unfold cmData.
  assert (∀ kv, kv ∈ range n fm → fm !! kv.1 = Some kv.2) as Hin by (intros []; by rewrite elem_of_range).
  apply (elem_of_range n) in Hp as Hel.
  assert (∀ (l : list (string * string)) (d : gmap string string), (∀ kv, kv ∈ l → fm !! kv.1 = Some kv.2) →
    (d !! configMapKey sha1x p = Some v ∨ (p, v) ∈ l) →
    foldl (λ data kv, <[configMapKey sha1x kv.1 := kv.2]> data) d l !! configMapKey sha1x p = Some v) as Hfold;
    [|apply Hfold; auto].
  clear Hin Hel. induction l as [|[q u] l IH]; intros d Hl Hd; simpl.
  { destruct Hd as [?|?%elem_of_nil]; done. }
  apply IH; [set_solver|]. unfold configMapKey in *.
  destruct (decide (sha1x q = sha1x p)) as [Heq|Hne].
  - left. rewrite Heq, lookup_insert_eq. pose proof (Hl (q, u) ltac:(set_solver)) as Hq. simpl in Hq.
    assert (q = p) as -> by (apply Hap; eauto). congruence.
  - rewrite lookup_insert_ne by done. destruct Hd as [?|[?|?]%elem_of_cons]; [by left| |by right].
    simplify_eq.
Qed.

Lemma containerConfigMap_spec n dbc :
  plain (c_FilepathToContent dbc) →
  containerConfigMap sha1x n dbc =
    Ok (if bool_decide (filesOf dbc = ∅) then None else Some (mk_ConfigMap (cmName dbc) (cmData (2 + n) (filesOf dbc)))).
Proof.
  intros Hp. unfold containerConfigMap. case_bool as [Hsz|_].
  - apply map_size_empty_inv in Hsz. unfold filesOf, strings. rewrite Hsz. by rewrite omap_empty.
  - rewrite DivideContainerValues_maps by done. simpl. fold (filesOf dbc).
    rewrite (bool_decide_ext (size (filesOf dbc) = 0) (filesOf dbc = ∅)) by apply map_size_empty_iff.
    case_bool; [done|]. do 3 f_equal. unfold cmName, configMapName. by rewrite (MapAsString_deterministic _ _ (1 + n) 0).
Qed.

(** The maps the loop returns: one per name that was not seen before. *)
Record listed (hashes : gset string) (dbcs : list Container) (l : list ConfigMap) : Prop := {
  li_nodup : NoDup (cm_Name <$> l);
  li_new : ∀ c, c ∈ l → cm_Name c ∉ hashes ∧ ∃ dbc n, dbc ∈ dbcs ∧ filesOf dbc ≠ ∅ ∧
    c = mk_ConfigMap (cmName dbc) (cmData n (filesOf dbc));
  li_all : ∀ dbc, dbc ∈ dbcs → filesOf dbc ≠ ∅ → cmName dbc ∈ hashes ∨ cmName dbc ∈ cm_Name <$> l;
}.

Lemma configMapsLoop_spec n hashes dbcs :
  Forall (λ c, plain (c_FilepathToContent c)) dbcs →
  ∃ l, configMapsLoop sha1x n hashes dbcs = Ok l ∧ listed hashes dbcs l.
Proof.
  intros Hp. revert n hashes. induction Hp as [|dbc dbcs Hdbc Hall IH]; intros n hashes.
  { exists []. split; [done|]. split; [constructor|set_solver|set_solver]. }
  cbn [configMapsLoop]. rewrite containerConfigMap_spec by done. cbn [mbind outcome_bind].
  case_bool as [He|Hne].
  { destruct (IH (3 + n) hashes) as (l & -> & [H1 H2 H3]). exists l. split; [done|]. split; [done| |].
    - intros c (Hc & d & m & ? & ? & ?)%H2. split; [done|]. exists d, m. set_solver.
    - intros d [->|Hd]%elem_of_cons; [done|auto]. }
  cbn [cm_Name]. case_bool as [Hin|Hout].
  - destruct (IH (3 + n) hashes) as (l & -> & [H1 H2 H3]). exists l. split; [done|]. split; [done| |].
    + intros c (Hc & d & m & ? & ? & ?)%H2. split; [done|]. exists d, m. set_solver.
    + intros d [->|Hd]%elem_of_cons; [auto|auto].
  - destruct (IH (3 + n) ({[cmName dbc]} ∪ hashes)) as (l & -> & [H1 H2 H3]). eexists. split; [done|]. split.
    + csimpl. constructor; [|done]. intros (c & Heq & (Hc & _)%H2)%list_elem_of_fmap. apply Hc. rewrite <-Heq. set_solver.
    + intros c [->|(Hc & d & m & ? & ? & ?)%H2]%elem_of_cons.
      * split; [done|]. exists dbc, (2 + n). set_solver.
      * split; [set_solver|]. exists d, m. set_solver.
    + csimpl. intros d [->|Hd]%elem_of_cons Hf; [right; set_solver|].
      destruct (H3 d Hd Hf) as [[->%elem_of_singleton|?]%elem_of_union|?]; set_solver.
Qed.

Context {W : Type} `{KubeLaws W}.

(** The config maps after a turn: one per name that a container needs, kept if
    it was there, made from such a container's files otherwise. *)
Record mapped (rows : list Container) (old new : gmap string ConfigMap) : Prop := {
  ma_names : ∀ i, is_Some (new !! i) ↔ ∃ dbc, dbc ∈ rows ∧ filesOf dbc ≠ ∅ ∧ cmName dbc = i;
  ma_source : ∀ i c, new !! i = Some c → old !! i = Some c ∨
    ∃ dbc n, dbc ∈ rows ∧ filesOf dbc ≠ ∅ ∧ cmName dbc = i ∧ c = mk_ConfigMap i (cmData n (filesOf dbc));
}.

Lemma wp_updateConfigMaps n s (w : W) Q :
  DbOK (list_to_set [ContainerTable]) s →
  Forall (λ c, plain (c_FilepathToContent c)) (vals (tbl Container s)) →
  (∀ s' w' m, same s s' → kube w' = set_cms m (kube w) →
     mapped (vals (tbl Container s)) (k_cms (kube w)) m → Q true (s', w')) →
  wp (updateConfigMaps sha1x n) (s, w) Q.
Proof.
  intros Hok Hp HQ. unfold updateConfigMaps. wp_bind. apply wp_onSnd. cbn [fst snd].
  wp_use listConfigMaps_ok. intros r w1 (Hw1 & cur & -> & Hcur). cbn [fst snd]. wp_bind. apply wp_onFst. cbn [fst snd].
  unfold getDesiredConfigMaps. wp_bind. apply wp_connSelect_all; [done|]. intros dbcs s1 Hs1 Hdbcs.
  destruct (configMapsLoop_spec n ∅ dbcs) as (des & Hdes & [Hnd Hnew Hall]); [by rewrite Hdbcs|].
  eapply wp_lift; [exact Hdes|]. destruct (HashJoin _ _ _ _ _) as [[pairs toCreate] toDelete] eqn:Hj.
  apply HashJoin_ok in Hj. rewrite <-Hw1 in Hcur.
  destruct (joined_fresh _ _ _ _ _ _ _ (cms_named w1) Hcur Hnd Hj) as (Hn & Hnd' & _ & Hcr & Hdel).
  assert (NoDup (cm_Name <$> toCreate)) as Hnc by (rewrite fmap_app in Hn; by apply NoDup_app in Hn as (_ & _ & ?)).
  wp_bind. apply wp_onSnd. cbn [fst snd]. apply (wp_allSucceed _ putCm).
  { intros dn c todo w2 Hc Hw2. apply createConfigMap_ok. rewrite Hw2, putCms_fold. simpl.
    apply (insertAll_fresh _ _ _ _ todo); [by rewrite <-Hc|]. apply Hcr. rewrite Hc. set_solver. }
  intros w2 Hw2. rewrite putCms_fold in Hw2. cbn [fst snd]. wp_bind. apply wp_onSnd. cbn [fst snd].
  apply (wp_allSucceed _ dropCm).
  { intros dn c todo w3 Hc Hw3. apply deleteConfigMap_ok. rewrite Hw3, dropCms_fold, Hw2. simpl.
    apply (deleteAll_present _ _ _ _ todo); [by rewrite <-Hc|]. apply insertAll_is_Some, Hdel. rewrite Hc. set_solver. }
  intros w3 Hw3. rewrite dropCms_fold, Hw2 in Hw3. simpl in Hw3. rewrite Hw1 in Hw3. wp_ret.
  eapply HQ; [done|exact Hw3|]. rewrite Hw1 in Hcur.
  pose proof (joined_objects cm_Name _ des cur pairs toCreate toDelete [] (cms_named w) Hcur Hnd Hj Hnc
    ltac:(set_solver)) as Hlook.
  assert (∀ i, i ∈ cm_Name <$> des ↔ ∃ dbc, dbc ∈ vals (tbl Container s) ∧ filesOf dbc ≠ ∅ ∧ cmName dbc = i) as Hnames.
  { intros i. setoid_rewrite <-Hdbcs. split.
    - intros (c & -> & (_ & dbc & m & ? & ? & ->)%Hnew)%list_elem_of_fmap. eauto.
    - intros (dbc & Hd & Hf & <-). destruct (Hall dbc Hd Hf); set_solver. }
  assert (∀ i, i ∈ cm_Name <$> des → is_Some ((byName cm_Name ([] ++ toCreate) ∪ k_cms (kube w)) !! i)) as Hsome.
  { intros i (c & -> & Hc)%list_elem_of_fmap. apply lookup_union_is_Some.
    rewrite <-(hash_joined_lefts _ _ _ _ _ _ _ Hj Hnd) in Hc. apply elem_of_app in Hc as [Hc|Hc].
    - right. destruct (joined_fresh _ _ _ _ _ _ _ (cms_named w) Hcur Hnd Hj) as (_ & _ & Hup & _). auto.
    - left. exists c. by apply byName_Some. }
  split.
  - intros i. rewrite Hlook, <-Hnames. case_decide; [by split; [|auto]|]. split; [intros [??]; done|done].
  - intros i c. rewrite Hlook. case_decide as Hi; [|done].
    intros [Hc|[_ ?]]%lookup_union_Some_raw; [|by left]. right. apply byName_Some in Hc as [Hc <-]; [|done].
    assert (c ∈ des) as (_ & dbc & m & Hd & Hf & ->)%Hnew.
    { eapply elem_of_submseteq; [|apply Hj]. apply elem_of_app. by right. }
    rewrite Hdbcs in Hd. eauto 10.
Qed.
End configmaps.

(** ** What a pod contains *)

Lemma strings_Some m k v : strings m !! k = Some v ↔ m !! k = Some (StringValue v).
Proof. unfold strings. rewrite lookup_omap. destruct (m !! k) as [[]|]; naive_solver. Qed.
Lemma secretsOf_Some m k v : secretsOf m !! k = Some v ↔ m !! k = Some (SecretValue v).
Proof. unfold secretsOf. rewrite lookup_omap. destruct (m !! k) as [[]|]; naive_solver. Qed.

Section contents.
Context (sha1x : string → string) `{MapOrder} `{GoSort}.

(** A container can be deployed: its image is built if Kelda builds it, its
    secrets have values and its volumes are known. *)
Definition ready (k : cluster) (images : list Image) (vm : gmap string kVolume) (dbc : Container) : Prop :=
  is_Some (podImage images dbc) ∧ (∀ name, references dbc name → is_Some (secretValue sha1x k name)) ∧
  (∀ name, name ∈ vm_VolumeName <$> c_VolumeMounts dbc → is_Some (vm !! name)).

Lemma mountVolumes_ready vm l :
  is_Some (mountVolumes vm l) ↔ ∀ name, name ∈ vm_VolumeName <$> l → is_Some (vm !! name).
Proof.
  induction l as [|x l IH]; csimpl; [split; [set_solver|eauto]|].
  destruct (vm !! vm_VolumeName x) as [v|] eqn:Hv.
  - transitivity (is_Some (mountVolumes vm l)).
    + destruct (mountVolumes vm l) as [[]|]; split; eauto; by intros [].
    + rewrite IH. setoid_rewrite elem_of_cons. split; [intros Ha name [->|?]; eauto|auto].
  - split; [by intros []|]. intros Ha. destruct (Ha (vm_VolumeName x)) as [? ?]; [set_solver|congruence].
Qed.

Lemma missingSecrets_nil k names :
  missingSecrets sha1x k names = [] ↔ ∀ name, name ∈ names → is_Some (secretValue sha1x k name).
Proof.
  unfold missingSecrets. split.
  - intros Hnil name Hn. destruct (secretValue sha1x k name) as [v|] eqn:Hv; [eauto|].
    by apply (filter_nil_not _ _ _ Hnil) in Hn.
  - intros Ha. apply filter_none. intros name [v Hv]%Ha. congruence.
Qed.

(** The pod of a ready container, with its parts up to order. *)
Lemma podOf_Some k n images aff vm dbc pod :
  plainContainer dbc → podOf sha1x k n images aff vm dbc = Ok (Some pod) →
  ready k images vm dbc ∧ ∃ image env mounts vols vs ms, podImage images dbc = Some image ∧
    pod = podSpec aff dbc image env vols mounts ∧ mountVolumes vm (c_VolumeMounts dbc) = Some (vs, ms) ∧
    env ≡ₚ secretEnv sha1x k (GetReferencedSecrets n (1 + n) dbc) ++ envVars sha1x (c_Env dbc) ∧
    mounts ≡ₚ filesMounts sha1x (c_FilepathToContent dbc) ++ ms ∧
    vols ≡ₚ filesVolumes sha1x (c_FilepathToContent dbc) ++ vs.
Proof.
  intros [He Hf]. unfold podOf. destruct (podImage images dbc) as [image|] eqn:Hi; [|done].
  case_bool as [|Hmiss]; [done|]. apply dec_stable in Hmiss.
  destruct (makePodEnvVars_perm sha1x (2 + n) _ He) as (e & -> & Hep).
  destruct (makeVolumes_perm sha1x (5 + n) _ Hf) as (vs & ms & -> & Hvp & Hmp). simpl.
  destruct (mountVolumes vm (c_VolumeMounts dbc)) as [[vs' ms']|] eqn:Hmv; [|done]. intros [= <-]. split.
  - split_and!; [rewrite Hi; eauto| |apply mountVolumes_ready; rewrite Hmv; eauto].
    intros name Hr. apply (proj1 (missingSecrets_nil _ _) Hmiss). by apply GetReferencedSecrets_elem.
  - eexists image, _, _, _, vs', ms'. split_and!; [done|reflexivity|done|..]; by rewrite ?Hep, ?Hmp, ?Hvp.
Qed.

Lemma podOf_ready k n images aff vm dbc :
  plainContainer dbc → ready k images vm dbc → ∃ pod, podOf sha1x k n images aff vm dbc = Ok (Some pod).
Proof.
  intros [He Hf] ([image Hi] & Hs & Hv). unfold podOf. rewrite Hi.
  rewrite bool_decide_eq_false_2.
  2:{ intros Hne. apply Hne, missingSecrets_nil. intros name. rewrite GetReferencedSecrets_elem. apply Hs. }
  destruct (makePodEnvVars_perm sha1x (2 + n) _ He) as (e & -> & _).
  destruct (makeVolumes_perm sha1x (5 + n) _ Hf) as (vs & ms & -> & _). simpl.
  apply mountVolumes_ready in Hv as [[vs' ms'] ->]. eauto.
Qed.

End contents.

(** ** What a deployment should contain

    Written out, independently of how the code makes it: the objects that
    Kubernetes is to see for a container of the database. *)

Section wanted.
Context (sha1x : string → string).

(** The value of a secret in the cluster. *)
Definition secretIn (k : cluster) (name : string) : option string :=
  k_secs k !! ("kelda-" +:+ sha1x name) ≫= λ s, sec_Data s !! "value".

Definition refersTo (dbc : Container) (name : string) : Prop :=
  ∃ key, c_Env dbc !! key = Some (SecretValue name) ∨ c_FilepathToContent dbc !! key = Some (SecretValue name).

(** The image that a container runs: its own, or the one built for its Dockerfile. *)
Definition imageFor (images : list Image) (dbc : Container) (image : string) : Prop :=
  (c_Dockerfile dbc = "" ∧ image = c_Image dbc) ∨
  (c_Dockerfile dbc ≠ "" ∧ ∃ img, img ∈ images ∧ im_Name img = c_Image dbc ∧
     im_Dockerfile img = c_Dockerfile dbc ∧ im_Status img = "built" ∧ image = im_RepoDigest img).

(** Everything a container needs is there. *)
Definition canRun (k : cluster) (images : list Image) (volumes : list Volume) (dbc : Container) : Prop :=
  (∃ image, imageFor images dbc image) ∧ (∀ name, refersTo dbc name → is_Some (secretIn k name)) ∧
  ∀ x, x ∈ c_VolumeMounts dbc → ∃ vol, vol ∈ volumes ∧ vol_Name vol = vm_VolumeName x.

(** The last volume of a name counts. *)
Definition volumeNamed (volumes : list Volume) (name : string) (vol : Volume) : Prop :=
  ∃ before after, volumes = before ++ vol :: after ∧ vol_Name vol = name ∧ name ∉ vol_Name <$> after.

Record containerFor (k : cluster) (images : list Image) (dbc : Container) (ctr : kContainer) : Prop := {
  cr_name : kc_Name ctr = c_Hostname dbc;
  cr_image : imageFor images dbc (kc_Image ctr);
  cr_args : kc_Args ctr = c_Command dbc;
  cr_privileged : kc_SecurityContext ctr = Some (c_Privileged dbc);
  cr_env : ∀ x, x ∈ kc_Env ctr ↔
    (∃ key v, c_Env dbc !! key = Some (StringValue v) ∧ x = mk_EnvVar key v None) ∨
    (∃ key name, c_Env dbc !! key = Some (SecretValue name) ∧
       x = mk_EnvVar key "" (Some ("kelda-" +:+ sha1x name, "value"))) ∨
    (∃ name v, refersTo dbc name ∧ secretIn k name = Some v ∧
       x = mk_EnvVar ("SECRET_HASH_" +:+ name) (hexStr (sha1x v)) None);
  cr_mounts : ∀ x, x ∈ kc_VolumeMounts ctr ↔
    (∃ path v, c_FilepathToContent dbc !! path = Some (StringValue v) ∧
       x = mk_kMount "filepath-to-content" path (sha1x path)) ∨
    (∃ path name, c_FilepathToContent dbc !! path = Some (SecretValue name) ∧
       x = mk_kMount ("secret-volume-kelda-" +:+ sha1x name) path "value") ∨
    (∃ m, m ∈ c_VolumeMounts dbc ∧ x = mk_kMount (vm_VolumeName m) (vm_MountPath m) "");
}.

(** The name of the config map of a container's plain files. *)
Definition filesName (dbc : Container) : string := sha1x (@MapAsString fixed_order 0 (filesOf dbc)).

Record deploymentFor (k : cluster) (images : list Image) (volumes : list Volume) (rules : list Placement)
    (dbc : Container) (d : Deployment) : Prop := {
  df_name : dp_Name d = c_Hostname dbc;
  df_labels : dp_Labels d = {["hostname" := c_Hostname dbc]};
  df_selector : dp_Selector d = {["hostname" := c_Hostname dbc]};
  df_strategy : dp_Strategy d = "Recreate";
  df_annotations : dp_Annotations d = {[
    "dockerfile-hash" := sha1x (c_Dockerfile dbc);
    "files-hash" := sha1x (@MapAsString fixed_order 0 (ContainerValue_String <$> c_FilepathToContent dbc));
    "env-hash" := sha1x (@MapAsString fixed_order 0 (ContainerValue_String <$> c_Env dbc));
    "friendly-image" := c_Image dbc;
    "keldaIP" := c_IP dbc]};
  df_hostname : ps_Hostname (dp_Pod d) = c_Hostname dbc;
  df_dns : ps_DNSPolicy (dp_Pod d) = "Default";
  df_container : ∃ ctr, ps_Containers (dp_Pod d) = [ctr] ∧ containerFor k images dbc ctr;
  df_volumes : ∀ x, x ∈ ps_Volumes (dp_Pod d) ↔
    ((∃ path v, c_FilepathToContent dbc !! path = Some (StringValue v)) ∧
       x = mk_kVolume "filepath-to-content" (ConfigMapVolume (filesName dbc) 420)) ∨
    (∃ path name, c_FilepathToContent dbc !! path = Some (SecretValue name) ∧
       x = mk_kVolume ("secret-volume-kelda-" +:+ sha1x name) (SecretVolume ("kelda-" +:+ sha1x name))) ∨
    (∃ m vol, m ∈ c_VolumeMounts dbc ∧ volumeNamed volumes (vm_VolumeName m) vol ∧
       x = mk_kVolume (vm_VolumeName m) (HostPathVolume (default "" (vol_Conf vol !! "path"))));
  df_nodes : ∀ m labels, labelled m labels → nodeFits (ps_Affinity (dp_Pod d)) labels ↔
    ∀ p, p ∈ rules → p_TargetContainer p = c_Hostname dbc → machine_ok p m;
  df_pods : ∀ labels running, podsFit (ps_Affinity (dp_Pod d)) labels running ↔
    ∀ p, p ∈ rules → p_TargetContainer p = c_Hostname dbc → keeps_apart p labels running;
}.

(** What a path in the pod reads, from a file of a config map or a secret. *)
Definition reads (k : cluster) (pod : PodSpec) (path v : string) : Prop :=
  ∃ ctr mount vol, ps_Containers pod = [ctr] ∧ mount ∈ kc_VolumeMounts ctr ∧ km_MountPath mount = path ∧
    vol ∈ ps_Volumes pod ∧ kv_Name vol = km_Name mount ∧
    match kv_Source vol with
    | ConfigMapVolume name _ => ∃ c, k_cms k !! name = Some c ∧ cm_Data c !! km_SubPath mount = Some v
    | SecretVolume name => ∃ s, k_secs k !! name = Some s ∧ sec_Data s !! km_SubPath mount = Some v
    | _ => False
    end.
End wanted.

(** ** The code makes what is wanted *)

Lemma elem_of_rulesFor `{GoSort} target ps p :
  p ∈ rulesFor target (Sort Placement_less ps) ↔ p ∈ ps ∧ p_TargetContainer p = target.
Proof. unfold rulesFor. rewrite list_elem_of_filter, Sort_perm. tauto. Qed.

Lemma references_refersTo dbc name : references dbc name ↔ refersTo dbc name.
Proof. unfold references, refersTo. setoid_rewrite secretsOf_Some. naive_solver. Qed.

Section made.
Context (sha1x : string → string) `{MapOrder} `{GoSort}.

Lemma podImage_for images dbc image : podImage images dbc = Some image → imageFor images dbc image.
Proof.
  unfold podImage, imageFor. case_bool as [Hd|Hd]; [right|left].
  - split; [done|]. destruct (filter _ images) as [|img l] eqn:Hf; [done|]. simpl in *. simplify_eq.
    assert (img ∈ img :: l) as Hin by by left. rewrite <-Hf in Hin.
    apply list_elem_of_filter in Hin as ((? & ? & ?) & ?). eauto 10.
  - split; [by apply dec_stable|congruence].
Qed.

Lemma imageFor_some images dbc image : imageFor images dbc image → is_Some (podImage images dbc).
Proof.
  unfold podImage, imageFor. intros [[Hd _]|(Hd & img & Hin & Hn & Hdf & Hst & _)].
  - rewrite bool_decide_eq_false_2 by tauto. eauto.
  - rewrite bool_decide_eq_true_2 by done. destruct (filter _ images) as [|x l] eqn:Hf; [|simpl; eauto].
    by destruct (filter_nil_not _ _ _ Hf Hin).
Qed.

(** *** Volumes *)

Lemma volumeNamed_snoc l x name vol :
  volumeNamed (l ++ [x]) name vol ↔ (vol_Name x = name ∧ vol = x) ∨ (vol_Name x ≠ name ∧ volumeNamed l name vol).
Proof.
  unfold volumeNamed. split.
  - intros (before & after & Heq & Hn & Hni). destruct after as [|y after' _] using rev_ind.
    + apply app_inj_tail in Heq as [-> ->]. by left.
    + rewrite app_comm_cons, app_assoc in Heq. apply app_inj_tail in Heq as [-> ->].
      rewrite fmap_app, not_elem_of_app in Hni. destruct Hni as [Hni Hy]. right. split.
      * intros <-. apply Hy. csimpl. by left.
      * exists before, after'. auto.
  - intros [[Hn ->]|(Hne & before & after & -> & Hn & Hni)].
    + exists l, []. split_and!; [done|done|apply not_elem_of_nil].
    + exists before, (after ++ [x]). split_and!; [by rewrite app_comm_cons, app_assoc|done|].
      rewrite fmap_app, not_elem_of_app. split; [done|]. csimpl. rewrite list_elem_of_singleton. congruence.
Qed.

Definition hostPath (vol : Volume) : kVolume :=
  mk_kVolume (vol_Name vol) (HostPathVolume (default "" (vol_Conf vol !! "path"))).

Lemma makeVolumes_fold l vm vm' :
  makeVolumes l vm = Val vm' → vm' = foldl (λ m vol, <[vol_Name vol := hostPath vol]> m) vm l.
Proof.
  revert vm. induction l as [|x l IH]; intros vm; simpl; [by intros [= ->]|].
  unfold makeVolume. case_bool; [|done]. apply IH.
Qed.

Lemma makeVolumes_ok l vm : Forall (λ vol, vol_Type vol = "hostPath") l → ∃ vm', makeVolumes l vm = Val vm'.
Proof.
  intros Hl. revert vm. induction Hl as [|x l Hx _ IH]; intros vm; simpl; [eauto|].
  unfold makeVolume. rewrite bool_decide_eq_true_2 by done. apply IH.
Qed.

Lemma makeVolumes_lookup l vm name v :
  makeVolumes l ∅ = Val vm → vm !! name = Some v ↔ ∃ vol, volumeNamed l name vol ∧ v = hostPath vol.
Proof.
  intros ->%makeVolumes_fold. induction l as [|x l IH] using rev_ind.
  { simpl. rewrite lookup_empty. split; [done|]. intros (vol & (before & after & Heq & _) & _).
    by destruct before. }
  rewrite foldl_app. cbn [foldl]. setoid_rewrite volumeNamed_snoc. rewrite lookup_insert_Some, IH. naive_solver.
Qed.

Lemma ready_canRun k images volumes vm dbc :
  makeVolumes volumes ∅ = Val vm → ready sha1x k images vm dbc ↔ canRun sha1x k images volumes dbc.
Proof.
  intros Hvm. unfold ready, canRun. setoid_rewrite references_refersTo.
  assert (is_Some (podImage images dbc) ↔ ∃ image, imageFor images dbc image) as <-.
  { split; [intros [i Hi]; exists i; by apply podImage_for|intros [i Hi]; by eapply imageFor_some]. }
  apply and_iff_compat_l, and_iff_compat_l. split.
  - intros Hv x Hx. destruct (Hv (vm_VolumeName x)) as [v Hl]; [by apply list_elem_of_fmap_2|].
    apply (makeVolumes_lookup _ _ _ _ Hvm) in Hl as (vol & (before & after & -> & Hn & _) & _).
    exists vol. set_solver.
  - intros Hv name (x & -> & Hx)%list_elem_of_fmap. destruct (Hv x Hx) as (vol & Hvol & Hn).
    apply makeVolumes_fold in Hvm. clear Hx. subst vm. rewrite <-Hn. clear Hn Hv.
    induction volumes as [|y l IH] using rev_ind; [by apply elem_of_nil in Hvol|].
    rewrite foldl_app. cbn [foldl]. destruct (decide (vol_Name y = vol_Name vol)) as [->|Hne].
    + rewrite lookup_insert_eq. eauto.
    + rewrite lookup_insert_ne by done. apply IH.
      apply elem_of_app in Hvol as [|Hvol%list_elem_of_singleton]; [done|congruence].
Qed.

(** *** The parts of the pod *)

Lemma elem_of_envVars m x : x ∈ envVars sha1x m ↔
  (∃ key v, m !! key = Some (StringValue v) ∧ x = mk_EnvVar key v None) ∨
  (∃ key name, m !! key = Some (SecretValue name) ∧ x = mk_EnvVar key "" (Some ("kelda-" +:+ sha1x name, "value"))).
Proof.
  unfold envVars. rewrite elem_of_app, !list_elem_of_fmap. setoid_rewrite <-strings_Some.
  setoid_rewrite <-secretsOf_Some. split.
  - intros [([k v] & -> & Hk%elem_of_map_to_list)|([k v] & -> & Hk%elem_of_map_to_list)]; [left|right]; eauto.
  - intros [(k & v & Hk & ->)|(k & v & Hk & ->)]; [left|right]; exists (k, v); by rewrite elem_of_map_to_list.
Qed.

Lemma elem_of_filesMounts m x : x ∈ filesMounts sha1x m ↔
  (∃ path v, m !! path = Some (StringValue v) ∧ x = mk_kMount "filepath-to-content" path (sha1x path)) ∨
  (∃ path name, m !! path = Some (SecretValue name) ∧
     x = mk_kMount ("secret-volume-kelda-" +:+ sha1x name) path "value").
Proof.
  unfold filesMounts. rewrite elem_of_app, !list_elem_of_fmap. setoid_rewrite <-strings_Some.
  setoid_rewrite <-secretsOf_Some. split.
  - intros [([k v] & -> & Hk%elem_of_map_to_list)|([k v] & -> & Hk%elem_of_map_to_list)]; [right|left]; exists k, v; done.
  - intros [(k & v & Hk & ->)|(k & v & Hk & ->)]; [right|left]; exists (k, v); by rewrite elem_of_map_to_list.
Qed.

Lemma elem_of_filesVolumes dbc x : x ∈ filesVolumes sha1x (c_FilepathToContent dbc) ↔
  ((∃ path v, c_FilepathToContent dbc !! path = Some (StringValue v)) ∧
     x = mk_kVolume "filepath-to-content" (ConfigMapVolume (filesName sha1x dbc) 420)) ∨
  (∃ path name, c_FilepathToContent dbc !! path = Some (SecretValue name) ∧
     x = mk_kVolume ("secret-volume-kelda-" +:+ sha1x name) (SecretVolume ("kelda-" +:+ sha1x name))).
Proof.
  unfold filesVolumes. rewrite elem_of_app.
  destruct (secretVolumes_spec sha1x ∅ (map_to_list (secretsOf (c_FilepathToContent dbc)))) as (_ & -> & _).
  match goal with |- (?A ∨ ?B) ↔ _ => rewrite (Logic.or_comm A B) end. apply ZifyClasses.or_morph.
  - setoid_rewrite <-strings_Some. case_bool as [Hne|Hz].
    + rewrite list_elem_of_singleton. split; [|by intros [_ ->]]. intros ->. split; [|done].
      rewrite map_size_ne_0_lookup in Hne. destruct Hne as (p & v & Hp). eauto.
    + rewrite elem_of_nil. split; [done|]. intros [(p & v & Hp) _]. destruct Hz. apply map_size_ne_0_lookup. eauto.
  - setoid_rewrite <-secretsOf_Some. split.
    + intros (_ & [p n] & Hp%elem_of_map_to_list & ->). exists p, n. done.
    + intros (p & n & Hp & ->). split; [apply not_elem_of_empty|]. exists (p, n). by rewrite elem_of_map_to_list.
Qed.

Lemma elem_of_mountVolumes volumes vm l vs ms :
  makeVolumes volumes ∅ = Val vm → mountVolumes vm l = Some (vs, ms) →
  ms = (λ x, mk_kMount (vm_VolumeName x) (vm_MountPath x) "") <$> l ∧
  ∀ x, x ∈ vs ↔ ∃ m vol, m ∈ l ∧ volumeNamed volumes (vm_VolumeName m) vol ∧
    x = mk_kVolume (vm_VolumeName m) (HostPathVolume (default "" (vol_Conf vol !! "path"))).
Proof.
  intros Hvm Hl. split; [by apply mountVolumes_spec in Hl as [_ ?]|]. revert vs ms Hl.
  induction l as [|m l IH]; intros vs ms; simpl.
  { intros [= <- <-] x. rewrite elem_of_nil. split; [done|]. by intros (? & ? & ?%elem_of_nil & _). }
  destruct (vm !! vm_VolumeName m) as [v|] eqn:Hv; [|done].
  destruct (mountVolumes vm l) as [[vs' ms']|]; [|done]. intros [= <- <-] x.
  rewrite elem_of_cons, (IH vs' ms' eq_refl). setoid_rewrite elem_of_cons. split.
  - intros [->|(y & vol & ? & ? & ?)]; [|eauto 10]. apply (makeVolumes_lookup _ _ _ _ Hvm) in Hv as (vol & Hn & ->).
    exists m, vol. split_and!; [auto|done|]. unfold hostPath. by destruct Hn as (? & ? & _ & -> & _).
  - intros (y & vol & [->|Hy] & Hn & ->); [left|right; eauto 10].
    assert (vm !! vm_VolumeName m = Some (hostPath vol)) as Hv' by (apply (makeVolumes_lookup _ _ _ _ Hvm); eauto).
    rewrite Hv in Hv'. injection Hv' as ->. unfold hostPath. by destruct Hn as (? & ? & _ & -> & _).
Qed.

(** What the deployment of a container is. *)
Lemma deploymentOf_for k images volumes rules aff vm dbc d :
  plainContainer dbc → makeVolumes volumes ∅ = Val vm →
  (∀ t, collected (aff !! t) (rulesFor t (Sort Placement_less rules))) →
  deploymentOf sha1x k images aff vm dbc = Some d → deploymentFor sha1x k images volumes rules dbc d.
Proof.
  intros Hp Hvm Haff. unfold deploymentOf. destruct (podOf _ _ _ _ _ _ _) as [[pod|]|] eqn:Hpod; [|done..]. intros [= <-].
  destruct (podOf_Some _ _ _ _ _ _ _ _ Hp Hpod)
    as (_ & image & env & mounts & vols & vs & ms & Hi%podImage_for & -> & Hmv & Henv & Hmounts & Hvols).
  destruct (elem_of_mountVolumes _ _ _ _ _ Hvm Hmv) as [-> Hvs].
  split; [done..| |done|done| | | |]; cbn [dp_Annotations dp_Pod makeDeployment podSpec ps_Containers ps_Volumes ps_Affinity].
  - unfold annotations, hashContainerValueMap.
    by rewrite (MapAsString_deterministic _ fixed_order 0 0), (MapAsString_deterministic _ fixed_order (1 + 0) 0).
  - eexists. split; [reflexivity|]. split; try done; intros x; simpl; rewrite Sort_perm.
    + rewrite Henv, elem_of_app, elem_of_envVars, secretEnv_elem. setoid_rewrite GetReferencedSecrets_elem.
      setoid_rewrite references_refersTo. tauto.
    + rewrite Hmounts, elem_of_app, elem_of_filesMounts, list_elem_of_fmap. naive_solver.
  - intros x. rewrite Sort_perm, Hvols, elem_of_app, elem_of_filesVolumes, Hvs. tauto.
  - intros m labels Hl. rewrite (collected_nodes _ _ _ _ (Haff _) Hl), Forall_forall.
    setoid_rewrite elem_of_rulesFor. naive_solver.
  - intros labels running. rewrite (collected_pods _ _ _ _ (Haff _)). setoid_rewrite elem_of_rulesFor. naive_solver.
Qed.

Lemma affinitiesOf_collected s t : collected (affinitiesOf s !! t) (rulesFor t (Sort Placement_less (vals (tbl Placement s)))).
Proof.
  unfold affinitiesOf, toAffinities.
  destruct (toAffinitiesLoop_spec (Sort Placement_less (vals (tbl Placement s))) ∅ []) as (m & -> & Hm); [|apply Hm].
  intros u. by rewrite lookup_empty.
Qed.

(** *** Reading files *)

Lemma reads_file k k' images volumes rules dbc d path v c :
  deploymentFor sha1x k images volumes rules dbc d → c_FilepathToContent dbc !! path = Some (StringValue v) →
  k_cms k' !! filesName sha1x dbc = Some c → cm_Data c !! sha1x path = Some v → reads k' (dp_Pod d) path v.
Proof.
  intros Hd Hf Hc Hv. destruct (df_container _ _ _ _ _ _ _ Hd) as (ctr & Hctr & Hfor).
  exists ctr, (mk_kMount "filepath-to-content" path (sha1x path)),
    (mk_kVolume "filepath-to-content" (ConfigMapVolume (filesName sha1x dbc) 420)).
  split_and!; [done|apply Hfor; eauto 10|done|apply (df_volumes _ _ _ _ _ _ _ Hd); eauto 10|done|]. simpl. eauto.
Qed.

Lemma reads_secret k k' images volumes rules dbc d path name v :
  deploymentFor sha1x k images volumes rules dbc d → c_FilepathToContent dbc !! path = Some (SecretValue name) →
  secretIn sha1x k' name = Some v → reads k' (dp_Pod d) path v.
Proof.
  intros Hd Hf (sec & Hsec & Hv)%bind_Some. destruct (df_container _ _ _ _ _ _ _ Hd) as (ctr & Hctr & Hfor).
  exists ctr, (mk_kMount ("secret-volume-kelda-" +:+ sha1x name) path "value"),
    (mk_kVolume ("secret-volume-kelda-" +:+ sha1x name) (SecretVolume ("kelda-" +:+ sha1x name))).
  split_and!; [done|apply Hfor; eauto 10|done|apply (df_volumes _ _ _ _ _ _ _ Hd); eauto 10|done|]. simpl. eauto.
Qed.
End made.
