(* ===== verification/KubeStatus.v ===== *)
(** * Package kubernetes: properties of the loops

    The theorems about the three loops, and the status that is read back from
    the pods. *)

From S2P Require Import Prelude GoStrings Join Blueprint DbRows Db DbSpec DbTxn DbFrame Engine Kube KubeSpec KubeDeploy KubeRound.

(** ** Reading the status back *)

Section status.
Context (sha1x : string → string) `{MapOrder} `{GoSort} {W : Type} `{KubeLaws W}.
Implicit Types (s : store) (w : W).

Lemma wp_RunWith {A} tts (do : Database → M (store * W) A) s w Q :
  (∀ tn, tn ∈ tts → is_Some (tables s !! tn)) →
  wp (do (list_to_set tts)) (s, w) (λ a st, ∀ s', same st.1 s' → Q a (s', st.2)) →
  wp (RunWith tts do) (s, w) Q.
Proof.
  intros Hall Hdo. unfold RunWith. wp_bind. apply wp_onFst. eapply wp_of_run; [by apply Txn_ok|]. cbn [fst snd].
  wp_bind. eapply wp_mono; [exact Hdo|]. intros a [s1 w1] HQ. wp_bind. apply wp_onFst. cbn [fst snd].
  wp_use notifyAll_ok. intros [] s2 [Hs _]. wp_ret. by apply HQ.
Qed.

Lemma dbcKey_order n dbc : dbcKey sha1x n dbc = dbcKey sha1x 0 dbc.
Proof.
  unfold dbcKey. by rewrite (hashContainerValueMap_order sha1x n), (hashContainerValueMap_order sha1x (1 + n)),
    (hashContainerValueMap_order sha1x (1 + 0)).
Qed.

Lemma dbcKey_hostname a b : dbcKey sha1x 0 a = dbcKey sha1x 0 b → c_Hostname a = c_Hostname b.
Proof. unfold dbcKey. congruence. Qed.

Lemma dbcKey_NoDup n l : NoDup (c_Hostname <$> l) → NoDup (dbcKey sha1x n <$> l).
Proof.
  intros Hnd. apply NoDup_fmap_inj_on; [by eapply NoDup_fmap_1|].
  intros x y Hx Hy Heq. rewrite !(dbcKey_order n) in Heq. eapply (NoDup_fmap_elem c_Hostname); [exact Hnd|done|done|].
  by apply dbcKey_hostname.
Qed.

(** A pod made from the deployment of a container carries the container's key. *)
Definition pod_of (dbc : Container) (d : Deployment) (p : Pod) : Prop :=
  pod_Annotations p = dp_Annotations d ∧ pod_Spec p = dp_Pod d.

Lemma pod_of_key k n images aff vm dbc d p :
  deploymentOf sha1x k images aff vm dbc = Some d → pod_of dbc d p → plainContainer dbc →
  podKey p = dbcKey sha1x n dbc.
Proof.
  unfold deploymentOf. destruct (podOf _ _ _ _ _ _ _) as [[pod|]|] eqn:Hpod; [|done..]. intros [= <-] [Ha Hs] Hp.
  destruct (podOf_Some _ _ _ _ _ _ _ _ Hp Hpod) as (_ & image & env & mounts & vols & vs & ms & _ & -> & _).
  unfold podKey, dbcKey. rewrite Hs, Ha.
  cbn [dp_Pod dp_Annotations makeDeployment podSpec ps_Containers ps_Hostname kc_Args kc_SecurityContext].
  by rewrite (hashContainerValueMap_order _ n), (hashContainerValueMap_order _ (1 + n)),
    <-(hashContainerValueMap_order _ 1 (c_Env dbc)).
Qed.

(** The names of the secrets among the values of a map. *)
Definition secretNames (m : gmap string ContainerValue) : list string :=
  omap (λ kv, match kv.2 with SecretValue name => Some name | _ => None end) (map_to_list m).

(** What a container without a pod waits for. *)
Definition status_ok (k : cluster) (images : list Image) (dbc : Container) (status : string) : Prop :=
  ∃ missing, Sorted String.le missing ∧
    missing ≡ₚ filter (λ name, secretIn sha1x k name = None)
      (secretNames (c_Env dbc) ++ secretNames (c_FilepathToContent dbc)) ∧
    (missing ≠ [] → status = "Waiting for secrets: [" +:+ Join_strings " " missing +:+ "]") ∧
    (missing = [] →
       (∃ img, img ∈ images ∧ im_Name img = c_Image dbc ∧ im_Dockerfile img = c_Dockerfile dbc ∧ status = im_Status img) ∨
       ((∀ img, img ∈ images → im_Name img = c_Image dbc → im_Dockerfile img ≠ c_Dockerfile dbc) ∧ status = "")).

Lemma status_ok_perm k images images' dbc status :
  images ≡ₚ images' → status_ok k images dbc status → status_ok k images' dbc status.
Proof. intros Hp. unfold status_ok. by setoid_rewrite Hp. Qed.

Lemma imageMapOf_spec images key :
  match imageMapOf images !! key with
  | Some img => img ∈ images ∧ imageKeyOf img = key
  | None => ∀ img, img ∈ images → imageKeyOf img ≠ key
  end.
Proof.
  unfold imageMapOf. induction images as [|img l IH] using rev_ind; [simpl; rewrite lookup_empty; set_solver|].
  rewrite foldl_app. simpl. destruct (decide ((im_Name img, im_Dockerfile img) = key)) as [<-|Hne].
  - rewrite lookup_insert_eq. set_solver.
  - rewrite lookup_insert_ne by done. destruct (foldl _ _ _ !! key); [set_solver|].
    intros x [Hx|Hx%list_elem_of_singleton]%elem_of_app; [auto|by subst].
Qed.

Lemma GetReferencedSecrets_names n1 n2 dbc :
  GetReferencedSecrets n1 n2 dbc ≡ₚ secretNames (c_Env dbc) ++ secretNames (c_FilepathToContent dbc).
Proof.
  unfold GetReferencedSecrets, getReferencedSecrets, secretNames.
  apply Permutation_app; apply omap_Permutation, range_perm.
Qed.

Lemma wp_statusForContainer n images dbc w Q :
  (∀ status w', kube w' = kube w → status_ok (kube w) images dbc status → Q status w') →
  wp (statusForContainer sha1x n (imageMapOf images) dbc) w Q.
Proof.
  intros HQ. unfold statusForContainer. wp_bind. eapply wp_makeSecretHashEnvVars. intros w1 Hw1.
  set (names := GetReferencedSecrets n (1 + n) dbc).
  set (missing := missingSecrets sha1x (kube w) names).
  assert (missing ≡ₚ filter (λ name, secretIn sha1x (kube w) name = None)
    (secretNames (c_Env dbc) ++ secretNames (c_FilepathToContent dbc))) as Hp.
  { apply missingSecrets_perm, GetReferencedSecrets_names. }
  case_bool as [Hne|Hnil]; wp_ret; (apply HQ; [done|]); exists (Strings_sort missing);
    (split; [apply Sorted_merge_sort, _|]); (split; [by rewrite Strings_sort_perm|]).
  - split; [done|]. intros Hm. destruct Hne. apply Permutation_nil_r. by rewrite <-Hm, Strings_sort_perm.
  - apply dec_stable in Hnil. rewrite Hnil. split; [done|]. intros _.
    pose proof (imageMapOf_spec images (c_Image dbc, c_Dockerfile dbc)) as Himg.
    destruct (imageMapOf images !! _) as [img|]; [left|right].
    + destruct Himg as [Hin Hkey]. injection Hkey as Hn Hd. exists img. tauto.
    + split; [|done]. intros img Hin Hn Hd. apply (Himg img Hin). unfold imageKeyOf. by rewrite Hn, Hd.
Qed.

(** A pod of the container: its name and the image, command, environment, files,
    Dockerfile and privileges it was made for are the container's. *)
Definition belongs (dbc : Container) (p : Pod) : Prop :=
  ∃ ctr, ps_Containers (pod_Spec p) = [ctr] ∧ ps_Hostname (pod_Spec p) = c_Hostname dbc ∧
    default "" (pod_Annotations p !! "friendly-image") = c_Image dbc ∧
    fmtSlice (kc_Args ctr) = fmtSlice (c_Command dbc) ∧
    default "" (pod_Annotations p !! "env-hash") = sha1x (MapAsString 0 (ContainerValue_String <$> c_Env dbc)) ∧
    default "" (pod_Annotations p !! "files-hash") = sha1x (MapAsString 0 (ContainerValue_String <$> c_FilepathToContent dbc)) ∧
    default "" (pod_Annotations p !! "dockerfile-hash") = sha1x (c_Dockerfile dbc) ∧
    default false (kc_SecurityContext ctr) = c_Privileged dbc.

Lemma belongs_key dbc p : podKey p = dbcKey sha1x 0 dbc ↔ belongs dbc p.
Proof.
  unfold podKey, dbcKey, belongs. rewrite (hashContainerValueMap_order sha1x (1 + 0)).
  destruct (ps_Containers (pod_Spec p)) as [|ctr [|]]; [naive_solver| |naive_solver]. split.
  - intros Heq. assert (∀ a b : joinKey, Some a = Some b → a = b) as Hinj by congruence.
    apply Hinj in Heq. unfold joinKey in Heq. rewrite !pair_eq in Heq. exists ctr. unfold hashContainerValueMap, hashStr in Heq. tauto.
  - intros (? & [= <-] & Hh & Hi & Ha & He & Hf & Hd & Hp). f_equal. unfold joinKey. rewrite !pair_eq.
    unfold hashContainerValueMap, hashStr. tauto.
Qed.

(** The status a pod reports, and since when its container runs. *)
Inductive reports (p : Pod) : string → Z → Prop :=
  | reports_running st t :
      pod_ContainerStatuses p = [st] → Running st = Some t → reports p "running" t
  | reports_waiting st reason :
      pod_ContainerStatuses p = [st] → Running st = None → Waiting st = Some reason →
      reports p ("waiting: " +:+ reason) 0
  | reports_terminated st reason :
      pod_ContainerStatuses p = [st] → Running st = None → Waiting st = None → Terminated st = Some reason →
      reports p ("terminated: " +:+ reason) 0
  | reports_unrecognized st :
      pod_ContainerStatuses p = [st] → Running st = None → Waiting st = None → Terminated st = None →
      reports p "unrecognized container state" 0
  | reports_scheduled :
      length (pod_ContainerStatuses p) ≠ 1 → ("PodScheduled", "True") ∈ pod_Conditions p → reports p "scheduled" 0
  | reports_nothing :
      length (pod_ContainerStatuses p) ≠ 1 → ("PodScheduled", "True") ∉ pod_Conditions p →
      reports p "no status information" 0.

Lemma statusForPod_reports p status created : statusForPod p = (status, created) → reports p status created.
Proof.
  unfold statusForPod. destruct (pod_ContainerStatuses p) as [|st [|]] eqn:Hst.
  2:{ destruct (Running st) eqn:?; [intros [= <- <-]; by eapply reports_running|].
      destruct (Waiting st) eqn:?; [intros [= <- <-]; by eapply reports_waiting|].
      destruct (Terminated st) eqn:?; intros [= <- <-]; [by eapply reports_terminated|by eapply reports_unrecognized]. }
  all: case_bool as [Hs|Hs]; intros [= <- <-]; [apply reports_scheduled|apply reports_nothing]; rewrite ?Hst; try done.
  all: rewrite Exists_exists in Hs; naive_solver.
Qed.

(** The row a container has after the round: the status, name and machine of a
    pod of its own, or what it waits for; nothing else changes. *)
Definition follows (k : cluster) (images : list Image) (old new : Container) : Prop :=
  (∃ p status created, p ∈ k_pods k ∧ belongs old p ∧ reports p status created ∧
     new = mk_Container (c_ID old) (c_IP old) (pod_HostIP p) (c_BlueprintID old) (pod_Name p) status (c_Command old)
       (c_Env old) (c_FilepathToContent old) (c_Hostname old) created (c_Privileged old) (c_VolumeMounts old)
       (c_Image old) (c_Dockerfile old)) ∨
  ((∀ p, p ∈ k_pods k → ¬ belongs old p) ∧ ∃ status, status_ok k images old status ∧
     new = mk_Container (c_ID old) (c_IP old) (c_Minion old) (c_BlueprintID old) (c_PodName old) status (c_Command old)
       (c_Env old) (c_FilepathToContent old) (c_Hostname old) 0 (c_Privileged old) (c_VolumeMounts old)
       (c_Image old) (c_Dockerfile old)).

Lemma withPod_ID p : c_ID (withPod p) = c_ID p.1.
Proof. destruct p as [c p]. unfold withPod. by destruct (statusForPod p). Qed.

(** The loop over the containers without a pod. *)
Lemma wp_commit_waiting view s w images todo rest (Q : unit → store * W → Prop) :
  DbOK view s → ContainerTable ∈ view → vals (tbl Container s) ≡ₚ todo ++ rest →
  (∀ s' w' news, stepped view ContainerTable s s' → kube w' = kube w →
     Forall2 (λ old new, ∃ status, status_ok (kube w) images old status ∧ new = set_c_Status status 0 old) todo news →
     vals (tbl Container s') ≡ₚ news ++ rest → Q () (s', w')) →
  wp (forM_ todo (λ dbc,
        let! n := onFst nextOrder in
        let! status := onSnd (statusForContainer sha1x n (imageMapOf images) dbc) in
        onFst (CommitT view (set_c_Status status 0 dbc)))) (s, w) Q.
Proof.
  revert s w rest Q. induction todo as [|dbc todo IH]; intros s w rest Q Hok Hin Hv HQ; simpl.
  { wp_ret. apply (HQ s w []); [by apply stepped_refl|done|constructor|done]. }
  do 2 wp_bind. apply wp_onFst, wp_nextOrder. intros n s1 Hs1. cbn [fst snd]. wp_bind. apply wp_onSnd. cbn [fst snd].
  apply wp_statusForContainer. intros status w1 Hw1 Hst. apply wp_onFst. cbn [fst snd] in *.
  eapply (wp_frame_commit _ _ dbc _ (todo ++ rest)); [by eapply same_ok|done|by rewrite (same_tbl _ _ Hs1)|done|].
  intros s2 Hs2 Hv2. cbn [fst snd]. eapply (IH s2 w1 (set_c_Status status 0 dbc :: rest)); [apply Hs2|done| |].
  { rewrite Hv2. by rewrite <-Permutation_middle. }
  intros s3 w3 news Hs3 Hw3 Hnews Hv3. apply (HQ s3 w3 (set_c_Status status 0 dbc :: news)).
  - eapply same_stepped_l; [done|done|]. by eapply stepped_trans.
  - congruence.
  - constructor; [eauto|]. by rewrite Hw1 in Hnews.
  - rewrite Hv3. by rewrite <-Permutation_middle.
Qed.

Lemma wp_commitStatuses view s w Q :
  DbOK view s → ImageTable ∈ view → ContainerTable ∈ view → NoDup (c_Hostname <$> vals (tbl Container s)) →
  (∀ s' w' olds news, stepped view ContainerTable s s' → kube w' = kube w → olds ≡ₚ vals (tbl Container s) →
     Forall2 (follows (kube w) (vals (tbl Image s))) olds news →
     vals (tbl Container s') ≡ₚ news → Q () (s', w')) →
  wp (commitStatuses sha1x (k_pods (kube w)) view) (s, w) Q.
Proof.
  intros Hok HinI HinC Hh HQ. unfold commitStatuses. wp_bind.
  apply wp_onFst, wp_select_all; [done|done|]. intros dbcs s1 Hs1 Hdbcs. cbn [fst snd] in *. wp_bind.
  apply wp_onFst, wp_nextOrder. intros n s2 Hs2. cbn [fst snd] in *. unfold joinContainersToPods.
  destruct (HashJoin _ _ _ _ _) as [[pairs noInfo] lr] eqn:Hj. apply HashJoin_ok in Hj.
  assert (pairs.*1 ++ noInfo ≡ₚ dbcs) as Hl.
  { eapply hash_joined_lefts; [exact Hj|]. apply dbcKey_NoDup. by rewrite Hdbcs. }
  pose proof (same_trans _ _ _ Hs1 Hs2) as Hs. wp_bind. apply wp_onFst. cbn [fst snd].
  eapply (wp_commit_all _ _ withPod fst _ noInfo); [by eapply same_ok|done| | |].
  { intros p _. apply withPod_ID. }
  { by rewrite (same_tbl _ _ Hs), <-Hdbcs, <-Hl. }
  intros s3 Hs3 Hv3. cbn [fst snd]. wp_bind. apply wp_onFst, wp_select_all; [apply Hs3|done|].
  intros images s4 Hs4 Himg. cbn [fst snd] in *. rewrite (stepped_tbl _ _ _ _ Hs3), (same_tbl _ _ Hs) in Himg by done.
  apply (wp_commit_waiting _ _ _ _ _ (withPod <$> pairs)); [by eapply same_ok; [exact Hs4|apply Hs3]|done| |].
  { rewrite (same_tbl _ _ Hs4), Hv3. apply Permutation_app_comm. }
  intros s5 w5 news Hs5 Hw5 Hnews Hv5.
  apply (HQ s5 w5 (pairs.*1 ++ noInfo) ((withPod <$> pairs) ++ news)); [|done|by rewrite Hl, Hdbcs| |].
  - eapply same_stepped_l; [done|done|]. eapply stepped_trans; [done|]. eapply same_stepped_l; [done|apply Hs3|done].
  - apply Forall2_app.
    + apply Forall2_fmap, Forall_Forall2_diag, Forall_forall. intros [c p] Hp. left. destruct (statusForPod p) as [status created] eqn:Hst.
      exists p, status, created. simpl. rewrite Hst.
      split_and!; [| |by apply statusForPod_reports|done].
      2:{ apply belongs_key. symmetry. rewrite <-(dbcKey_order n). by eapply (hj_pair _ _ _ _ _ _ _ Hj). }
      rewrite <-(hj_rights _ _ _ _ _ _ _ Hj). apply elem_of_app. left. by apply (list_elem_of_fmap_2 snd) in Hp.
    + eapply Forall2_impl_l; [exact Hnews|]. intros old new Hold (status & Hst & ->). right. split.
      * intros p Hp Hk%belongs_key. rewrite <-(dbcKey_order n) in Hk. by apply (hj_lonely_left _ _ _ _ _ _ _ Hj old p Hold Hp).
      * exists status. split; [|done]. by eapply status_ok_perm.
  - rewrite Hv5. apply Permutation_app_comm.
Qed.
End status.
