(* ===== verification/KubeLoops.v ===== *)
(** * Package kubernetes: what the loops guarantee

    The theorems about the three loops and the secrets, and an API server that
    satisfies the laws they need. *)

From S2P Require Import Prelude GoStrings Join Blueprint DbRows Db DbSpec DbTxn DbFrame Engine.
From S2P Require Import Kube KubeSpec KubeDeploy KubeRound KubeStatus.

(** ** Deploying *)

Section deploy.
Context (sha1x : string → string) `{MapOrder} `{GoSort} {W : Type} `{KubeLaws W}.
Implicit Types (s : store) (w : W).

(** No hash collision concerns the plain files of the container: its paths have
    different hashes, no other row has other files under the same name of a
    config map (see [configMaps_collide]), and a config map that is already there
    under that name holds them. *)
Record undisturbed (rows : list Container) (cms : gmap string ConfigMap) (dbc : Container) : Prop := {
  ud_paths : paths_apart sha1x (filesOf dbc);
  ud_names : ∀ dbc', dbc' ∈ rows → filesName sha1x dbc' = filesName sha1x dbc → filesOf dbc' = filesOf dbc;
  ud_old : ∀ c path v, cms !! filesName sha1x dbc = Some c → filesOf dbc !! path = Some v →
    cm_Data c !! sha1x path = Some v;
}.

Lemma cmName_files dbc : cmName sha1x dbc = filesName sha1x dbc.
Proof. apply configMapName_order. Qed.

Lemma mapped_serves rows old new dbc path v :
  undisturbed rows old dbc → mapped sha1x rows old new → dbc ∈ rows → filesOf dbc !! path = Some v →
  ∃ c, new !! filesName sha1x dbc = Some c ∧ cm_Data c !! sha1x path = Some v.
Proof.
  intros [Hp Hn Ho] [Hnames Hsrc] Hd Hf. rewrite <-cmName_files in *.
  destruct (proj2 (Hnames (cmName sha1x dbc))) as [c Hc].
  { exists dbc. split_and!; [done| |done]. intros He. rewrite He in Hf. by rewrite lookup_empty in Hf. }
  exists c. split; [done|]. destruct (Hsrc _ _ Hc) as [Hold|(dbc' & n & Hd' & _ & Heq & ->)]; [eauto|].
  simpl. apply cmData_lookup; [by rewrite (Hn dbc') by by rewrite <-?cmName_files|].
  by rewrite (Hn dbc') by by rewrite <-?cmName_files.
Qed.

(** What a turn of the deploying loop leaves in the cluster. *)
Record deployed (s : store) (volumes : list Volume) (k k' : cluster) : Prop := {
  dy_rest : k_secs k' = k_secs k ∧ k_nodes k' = k_nodes k ∧ k_pods k' = k_pods k;
  dy_only : ∀ name d, k_deps k' !! name = Some d → ∃ dbc, dbc ∈ vals (tbl Container s) ∧ c_IP dbc ≠ "" ∧
    c_Hostname dbc = name ∧
    deploymentFor sha1x k (vals (tbl Image s)) volumes (vals (tbl Placement s)) dbc d ∧
    (∀ path secret, c_FilepathToContent dbc !! path = Some (SecretValue secret) →
       ∃ v, secretIn sha1x k secret = Some v ∧ reads k' (dp_Pod d) path v) ∧
    (undisturbed (vals (tbl Container s)) (k_cms k) dbc →
     ∀ path v, c_FilepathToContent dbc !! path = Some (StringValue v) → reads k' (dp_Pod d) path v);
  dy_all : ∀ dbc, dbc ∈ vals (tbl Container s) → c_IP dbc ≠ "" →
    is_Some (k_deps k' !! c_Hostname dbc) ↔ canRun sha1x k (vals (tbl Image s)) volumes dbc;
  dy_cms : ∀ i, is_Some (k_cms k' !! i) ↔ ∃ dbc path v, dbc ∈ vals (tbl Container s) ∧
    c_FilepathToContent dbc !! path = Some (StringValue v) ∧ filesName sha1x dbc = i;
}.

Lemma deploymentOf_ready k images aff vm dbc :
  plainContainer dbc → is_Some (deploymentOf sha1x k images aff vm dbc) ↔ ready sha1x k images vm dbc.
Proof.
  intros Hp. unfold deploymentOf. split.
  - destruct (podOf _ _ _ _ _ _ _) as [[pod|]|] eqn:Hpod; [|by intros []..]. intros _.
    by apply podOf_Some in Hpod as [? _].
  - intros Hr. destruct (podOf_ready sha1x k 0 images aff vm dbc Hp Hr) as [pod ->]. eauto.
Qed.

Lemma elem_of_addressed dbc l : dbc ∈ addressed l ↔ dbc ∈ l ∧ c_IP dbc ≠ "".
Proof. unfold addressed. rewrite list_elem_of_filter. tauto. Qed.

Lemma desired_deployed s volumes vm k cms :
  deployable sha1x (addressed (vals (tbl Container s))) → makeVolumes volumes ∅ = Val vm →
  mapped sha1x (vals (tbl Container s)) (k_cms k) cms →
  deployed s volumes k (set_deps (byName dp_Name (desiredDeployments sha1x k vm s)) (set_cms cms k)).
Proof.
  intros [Hp _ Hh] Hvm Hmap. rewrite Forall_forall in Hp.
  assert (NoDup (dp_Name <$> desiredDeployments sha1x k vm s)) as Hnd by by apply deploymentOf_names.
  split; [done| | |].
  - intros name d [(dbc & Hdbc & Hd)%list_elem_of_omap Hname]%byName_Some; [|done].
    assert (deploymentFor sha1x k (vals (tbl Image s)) volumes (vals (tbl Placement s)) dbc d) as Hfor.
    { eapply deploymentOf_for; [by apply Hp|exact Hvm|apply affinitiesOf_collected|exact Hd]. }
    pose proof (proj1 (elem_of_addressed _ _) Hdbc) as [Hrow Hip]. exists dbc.
    split_and!; [done|done|by rewrite <-Hname, (df_name _ _ _ _ _ _ _ Hfor)|done| |].
    + intros path secret Hf.
      assert (ready sha1x k (vals (tbl Image s)) vm dbc) as (_ & Hsec & _).
      { apply deploymentOf_ready with (aff := affinitiesOf s); [by apply Hp|eauto]. }
      destruct (Hsec secret) as [v Hv]; [apply (proj2 (references_refersTo dbc secret)); exists path; auto|].
      exists v. split; [exact Hv|]. by eapply reads_secret.
    + intros Hun path v Hv. destruct (mapped_serves _ _ _ _ path v Hun Hmap Hrow) as (c & Hc & Hs).
      { by apply strings_Some. }
      by eapply reads_file.
  - intros dbc Hrow Hip. assert (dbc ∈ addressed (vals (tbl Container s))) as Hdbc by by apply elem_of_addressed.
    rewrite <-(ready_canRun sha1x _ _ _ _ _ Hvm), <-deploymentOf_ready with (aff := affinitiesOf s) by auto. simpl. split.
    + intros [d [(dbc' & Hdbc' & Hd)%list_elem_of_omap Hname]%byName_Some]; [|done].
      assert (dbc' = dbc) as <-; [|eauto]. apply (NoDup_fmap_elem c_Hostname (addressed (vals (tbl Container s)))); [done..|].
      by rewrite <-(deploymentOf_name _ _ _ _ _ _ _ Hd).
    + intros [d Hd]. exists d. apply byName_Some; [done|]. split; [|by eapply deploymentOf_name].
      apply list_elem_of_omap. eauto.
  - intros i. simpl. rewrite (ma_names _ _ _ _ Hmap). setoid_rewrite cmName_files. split.
    + intros (dbc & Hd & (path & v & Hv)%map_choose & <-). exists dbc, path, v. by rewrite <-strings_Some.
    + intros (dbc & path & v & Hd & Hv%strings_Some & <-). exists dbc. split_and!; [done| |done].
      unfold filesOf. intros He. rewrite He in Hv. by rewrite lookup_empty in Hv.
Qed.

(** C2: A turn of the deploying loop against a working API server makes the cluster
    run the database.  When all volumes of the blueprint are host paths, there
    is a deployment for a container with an address
    exactly if its image, secrets and volumes are available, and no other.  Each
    is the one written out in [deploymentFor]: the labels, selector, strategy and
    annotations; one container with the image, command, privileges, environment
    and mounts of the database's; the volumes those mounts name; and an
    affinity that lets the scheduler use the nodes the placement rules allow.
    A path of a secret file reads the secret's value and a path of a plain file
    reads its content from a config map, unless the names or keys of config
    maps collide for this container; unused config maps are gone. *)
Theorem deployOnce_deploys n s w b :
  DbOK (list_to_set desiredTables) s → vals (tbl Blueprint s) = [b] →
  Forall (λ vol, vol_Type vol = "hostPath") (bp_Volumes (b_Blueprint b)) →
  Forall plainContainer (vals (tbl Container s)) →
  deployable sha1x (addressed (vals (tbl Container s))) →
  NoDup (imageKeyOf <$> vals (tbl Image s)) →
  wp (deployOnce sha1x n) (s, w) (λ _ st,
    same s st.1 ∧ deployed s (bp_Volumes (b_Blueprint b)) (kube w) (kube st.2)).
Proof.
  intros Hok Hb Hvols Hp Hda Himg. destruct (makeVolumes_ok _ ∅ Hvols) as [vm Hvm]. unfold deployOnce. wp_bind.
  eapply wp_updateConfigMaps; [by eapply DbOK_sub; [exact Hok|vm_decide]| |].
  { eapply Forall_impl; [exact Hp|]. by intros c []. }
  intros s1 w1 cms Hs1 Hw1 Hmap.
  eapply wp_updateDeployments; [by eapply same_DbOK|by rewrite (same_tbl _ _ Hs1)|exact Hvm|by rewrite (same_tbl _ _ Hs1)..|].
  intros s2 w2 Hs2 Hw2. split; [by eapply same_trans|]. cbn [fst snd] in *.
  assert (desiredDeployments sha1x (kube w1) vm s1 = desiredDeployments sha1x (kube w) vm s) as Heq.
  { unfold desiredDeployments, affinitiesOf. by rewrite !(same_tbl _ _ Hs1), Hw1. }
  rewrite Hw2, Heq, Hw1. by apply desired_deployed.
Qed.
End deploy.

(** ** Determinism *)

Section determinism.
Context (sha1x : string → string) {W : Type} `{KubeLaws W}.

(** Whatever the orders in which Go ranges over maps, and whatever the sorting
    algorithm does with equal elements, a container gets the same pod, so the
    deployments are not updated for no reason. *)
Theorem makePod_deterministic (O1 O2 : MapOrder) (S1 S2 : GoSort) n1 n2 images aff vm dbc (w1 w2 : W) :
  plainContainer dbc → named vm → steady sha1x dbc → kube w1 = kube w2 →
  wp (@makePod sha1x O1 S1 W _ n1 images aff vm dbc) w1 (λ pod1 w1',
    kube w1' = kube w1 ∧
    wp (@makePod sha1x O2 S2 W _ n2 images aff vm dbc) w2 (λ pod2 w2', kube w2' = kube w2 ∧ pod1 = pod2)).
Proof.
  intros Hp Hvm Hsd Hw. destruct (@podOf_total sha1x O1 S1 (kube w1) n1 images aff vm dbc Hp) as [r Hr].
  eapply (@wp_makePod sha1x O1 S1); [exact Hr|]. intros w1' Hw1. split; [done|].
  eapply (@wp_makePod sha1x O2 S2); [|intros w2' Hw2; split; [exact Hw2|reflexivity]].
  rewrite <-Hw, <-Hr. by apply podOf_orders.
Qed.
End determinism.

(** ** Placement *)

Section placement.
Context `{MapOrder} `{GoSort} {W : Type} `{KubeLaws W}.
Implicit Types (s : store) (w : W).

(** The affinities that a list of rules gives: where the scheduler may run a
    container, given the machine and labels of a node and the pods of the
    cluster. *)
Definition respects (ps : list Placement) (aff : gmap string Affinity) (m : Minion) (labels : gmap string string) : Prop :=
  (∀ target, nodeFits (aff !! target) labels ↔ ∀ p, p ∈ ps → p_TargetContainer p = target → machine_ok p m) ∧
  (∀ target running, podsFit (aff !! target) labels running ↔
     ∀ p, p ∈ ps → p_TargetContainer p = target → keeps_apart p labels running).

Lemma toAffinities_respects ps m labels :
  labelled m labels → ∃ aff, toAffinities ps = Ok aff ∧ respects ps aff m labels.
Proof.
  intros Hl. unfold toAffinities.
  destruct (toAffinitiesLoop_spec (Sort Placement_less ps) ∅ []) as (aff & -> & Hc).
  { intros t. by rewrite lookup_empty. }
  exists aff. split; [done|]. split; intros target.
  - rewrite (collected_nodes _ _ _ _ (Hc target) Hl), Forall_forall. setoid_rewrite elem_of_rulesFor. naive_solver.
  - intros running. rewrite (collected_pods _ _ _ _ (Hc target)). setoid_rewrite elem_of_rulesFor. naive_solver.
Qed.

Lemma labelled_relabel minions m x l :
  NoDup (mi_PrivateIP <$> minions) → m ∈ minions → getPrivateIP x = Val (mi_PrivateIP m) → kn_Labels x = Some l →
  kn_Labels (relabel (nodeToLabels minions) x) = Some (minionLabels m ∪ l).
Proof. intros Hnd Hm Hip Hl. unfold relabel. by rewrite Hip, (nodeToLabels_lookup _ _ Hnd Hm), Hl. Qed.

(** C3: After a turn of the labelling loop, the affinities of any placement rules
    make the scheduler do what the rules say: the node of a machine is eligible
    for a container exactly if the machine's provider, region, size and floating
    IP agree with all rules for the container and no container that an
    exclusive rule names runs on a node with its host name.  Labels that are
    not Kelda's are kept. *)
Theorem scheduler_respects_placement n s w :
  DbOK (list_to_set [MinionTable]) s → NoDup (mi_PrivateIP <$> vals (tbl Minion s)) →
  (∀ x, x ∈ vals (k_nodes (kube w)) → kn_Labels x ≠ None) →
  wp (labelOnce n) (s, w) (λ _ st, same s st.1 ∧
    ∀ name x l m, k_nodes (kube w) !! name = Some x → kn_Labels x = Some l →
      m ∈ vals (tbl Minion s) → getPrivateIP x = Val (mi_PrivateIP m) →
      ∃ l', kn_Labels <$> k_nodes (kube st.2) !! name = Some (Some l') ∧
        (∀ key, key ∉ [providerKey; regionKey; sizeKey; floatingIPKey] → l' !! key = l !! key) ∧
        ∀ ps, ∃ aff, toAffinities ps = Ok aff ∧ respects ps aff m l').
Proof.
  intros Hok Hnd Hl. unfold labelOnce. wp_bind. apply wp_onFst, wp_connSelect_all; [done|].
  intros ms s1 Hs1 Hms. apply wp_onSnd. cbn [fst snd]. apply wp_updateNodeLabels; [done|]. intros w1 Hw1.
  cbn [fst snd]. split; [done|]. intros name x l m Hx Hlx Hm Hip. exists (minionLabels m ∪ l). rewrite Hw1. simpl.
  rewrite lookup_fmap, Hx. cbn [fmap option_fmap option_map]. split_and!.
  - f_equal. apply labelled_relabel; [by rewrite Hms|by rewrite Hms|done|done].
  - intros key Hkey. apply lookup_union_r. unfold minionLabels.
    rewrite !not_elem_of_cons in Hkey. rewrite !lookup_insert_ne, lookup_singleton_ne by naive_solver. done.
  - intros ps. apply toAffinities_respects. apply map_union_subseteq_l.
Qed.
End placement.

(** ** Status *)

Section statuses.
Context (sha1x : string → string) `{MapOrder} `{GoSort} {W : Type} `{KubeLaws W}.
Implicit Types (s : store) (w : W).

(** C4: A turn of the status loop gives every container the name, machine and
    status (running, waiting, terminated, scheduled) of a pod that belongs to
    it, and the time since when it runs, or, if there is none, what it is waiting
    for: the sorted secrets without a value, or its image's status.  Nothing
    else of the rows, no other table and nothing in the cluster
    changes; and a pod that a deployment of the container made belongs to it. *)
Theorem statuses_follow_pods s w :
  DbOK (list_to_set statusTables) s → NoDup (c_Hostname <$> vals (tbl Container s)) →
  wp (updateContainerStatuses sha1x) (s, w) (λ _ st,
    stepped (list_to_set statusTables) ContainerTable s st.1 ∧ kube st.2 = kube w ∧
    ∃ olds news, olds ≡ₚ vals (tbl Container s) ∧ news ≡ₚ vals (tbl Container st.1) ∧
      Forall2 (follows sha1x (kube w) (vals (tbl Image s))) olds news) ∧
  (∀ k images aff vm dbc d p, plainContainer dbc → deploymentOf sha1x k images aff vm dbc = Some d →
     pod_of dbc d p → belongs sha1x dbc p).
Proof.
  intros Hok Hh. split; [|intros; by eapply belongs_key, pod_of_key]. unfold updateContainerStatuses. wp_bind.
  apply wp_onSnd. cbn [fst snd]. wp_use listPods_ok. intros r w1 [Hw1 ->]. cbn [fst snd].
  apply wp_RunWith; [exact (DbOK_tables _ _ Hok)|]. rewrite <-Hw1.
  eapply wp_commitStatuses; [done|vm_decide|vm_decide|done|].
  intros s2 w2 olds news Hs2 Hw2 Holds Hf Hnews s3 Hs3. cbn [fst snd] in *.
  split_and!; [eapply stepped_trans; [done|by apply same_stepped; [|apply Hs2]]|congruence|]. exists olds, news.
  by rewrite (same_tbl _ _ Hs3), Hnews.
Qed.
End statuses.

(** ** Secrets *)

Section secretClient.
Context (sha1x : string → string) {W : Type} `{KubeLaws W}.

(** Setting a secret, whether it exists or not, makes it readable with the new
    value and leaves the secrets with other hashes and the rest of the cluster
    alone. *)
Theorem secret_roundtrip name val (w : W) :
  (∀ sec, k_secs (kube w) !! (secretRef sha1x name).1 = Some sec → is_Some (sec_Data sec !! (secretRef sha1x name).2)) →
  wp (secretSet sha1x name val) w (λ r w1, r = Val () ∧
    (∀ other, sha1x other ≠ sha1x name → secretValue sha1x (kube w1) other = secretValue sha1x (kube w) other) ∧
    set_secs (k_secs (kube w)) (kube w1) = kube w ∧
    wp (secretGet sha1x name) w1 (λ r w2, r = Val val ∧ kube w2 = kube w1)).
Proof.
  intros Hform. unfold secretSet, secretExists. cbn [secretRef fst snd] in *. do 2 wp_bind.
  eapply wp_secretGet. intros r w1 Hw1 Hr. wp_ret.
  set (sec := mk_kSecret _ _). set (k := set_secs (<[sec_Name sec := sec]> (k_secs (kube w))) (kube w)).
  assert (∀ r' w', r' = Val () ∧ kube w' = k → r' = Val () ∧
    (∀ other, sha1x other ≠ sha1x name → secretValue sha1x (kube w') other = secretValue sha1x (kube w) other) ∧
    set_secs (k_secs (kube w)) (kube w') = kube w ∧
    wp (secretGet sha1x name) w' (λ r w2, r = Val val ∧ kube w2 = kube w')) as Hdone.
  { intros r' w' [-> Hk]. rewrite Hk. split_and!; [done| |by destruct (kube w)|].
    - intros other Hne. unfold secretValue, k. simpl. rewrite lookup_insert_ne; [done|].
      intros [_ ?]%(app_inj_s "kelda-" "kelda-"); [congruence|done].
    - eapply wp_secretGet. unfold secretValue. rewrite Hk. simpl. rewrite lookup_insert_eq. simpl. auto. }
  unfold secretValue in Hr. simpl in Hr. destruct (k_secs (kube w) !! _) as [old|] eqn:Hold; simpl in Hr.
  - destruct (Hform old eq_refl) as [v Hv]. rewrite Hv in Hr. subst r.
    eapply wp_mono; [apply updateSecret_ok; rewrite Hw1; cbn [sec sec_Name]; rewrite Hold; eauto|]. rewrite Hw1. exact Hdone.
  - destruct Hr as [e ->]. eapply wp_mono; [apply createSecret_ok; rewrite Hw1; exact Hold|]. rewrite Hw1. exact Hdone.
Qed.
End secretClient.

(** ** Two ways to lose a deployment *)

Section losses.
Context (sha1x : string → string) `{MapOrder} `{GoSort} {W : Type} `{KubeLaws W}.
Implicit Types (s : store) (w : W).

(** If one volume of the blueprint cannot be made, the error is logged and the
    turn goes on with no desired deployments: all deployments of the cluster
    are deleted, also those of containers that use no volume. *)
Theorem bad_volume_deletes_everything n s w b e :
  DbOK (list_to_set desiredTables) s → vals (tbl Blueprint s) = [b] →
  makeVolumes (bp_Volumes (b_Blueprint b)) ∅ = Err e →
  wp (updateDeployments sha1x n) (s, w) (λ _ st, same s st.1 ∧ kube st.2 = set_deps ∅ (kube w)).
Proof.
  intros Hok Hb Hvm. unfold updateDeployments. wp_bind. apply wp_onSnd. cbn [fst snd].
  wp_use listDeployments_ok. intros r w1 (Hw1 & cur & -> & Hcur). cbn [fst snd].
  unfold makeDesiredDeployments. do 2 wp_bind. apply wp_onFst. apply wp_Run; [exact (DbOK_tables _ _ Hok)|].
  apply (wp_readDesired sha1x _ _ b); [done|done|done|].
  intros s1 cs imgs Hs1 Hcs Himgs s2 Hs2. cbn [fst snd] in *.
  rewrite Hvm. wp_ret. apply wp_onSnd. cbn [fst snd]. apply wp_syncDeployments; [by rewrite Hw1|constructor|].
  intros w2 Hw2. split; [by eapply same_trans|]. by rewrite Hw2, Hw1.
Qed.

Definition withFiles (host : string) (files : gmap string ContainerValue) : Container :=
  mk_Container 0 "10.0.0.2" "" host "" "" [] ∅ files host 0 false [] "img" "".

(** The name of a config map does not identify its files: the string that is
    hashed does not mark where a file's content ends.  Two containers with
    different files can share one config map, whatever the hash function, and
    the second then gets the first one's content for a path. *)
Theorem configMaps_collide n :
  let one := withFiles "one" {["/a" := StringValue "x /b=y"]} in
  let two := withFiles "two" {["/a" := StringValue "x"; "/b" := StringValue "y"]} in
  filesOf one ≠ filesOf two ∧ cmName sha1x one = cmName sha1x two ∧
  ∃ c, configMapsLoop sha1x n ∅ [one; two] = Ok [c] ∧ cm_Name c = cmName sha1x two ∧
    filesOf two !! "/a" = Some "x" ∧ cm_Data c !! configMapKey sha1x "/a" = Some "x /b=y".
Proof.
  intros one two.
  assert (cmName sha1x one = cmName sha1x two) as Heq.
  { unfold cmName. rewrite (configMapName_order sha1x 0 (filesOf one)), (configMapName_order sha1x 0 (filesOf two)).
    unfold configMapName. by vm_compute (MapAsString _ _). }
  assert (∀ fm : gmap string ContainerValue, plain fm ↔ OtherValue ∉ vals fm) as Hplain.
  { intros fm. unfold plain. rewrite elem_of_vals. naive_solver. }
  split; [vm_decide|]. split; [done|]. cbn [configMapsLoop].
  rewrite !containerConfigMap_spec by (apply Hplain; vm_decide). cbn [mbind outcome_bind].
  rewrite (bool_decide_eq_false_2 (filesOf one = ∅)), (bool_decide_eq_false_2 (filesOf two = ∅)) by vm_decide. cbn [cm_Name].
  rewrite bool_decide_eq_false_2 by set_solver. rewrite bool_decide_eq_true_2 by (rewrite Heq; set_solver).
  eexists. split; [reflexivity|]. split_and!; [done|reflexivity|]. cbn [cm_Data].
  apply cmData_lookup; [|reflexivity]. intros p q [v Hp] [u Hq] _.
  assert (filesOf one = {["/a" := "x /b=y"]}) as Hone by vm_decide. rewrite Hone in Hp, Hq.
  apply lookup_singleton_Some in Hp as [<- _], Hq as [<- _]. done.
Qed.
End losses.

(** ** An API server *)

Definition ownName {V} (name : V → string) (m : gmap string V) : gmap string V :=
  filter (λ kv : string * V, kv.1 = name kv.2) m.

Lemma ownName_keyed {V} (name : V → string) m : keyed name (ownName name m).
Proof. intros i v [_ Hi]%map_lookup_filter_Some. by simpl in Hi. Qed.

Lemma ownName_insert {V} (name : V → string) m v :
  ownName name (<[name v := v]> m) = <[name v := v]> (ownName name m).
Proof. by apply map_filter_insert_True. Qed.

Lemma ownName_delete {V} (name : V → string) i m : ownName name (delete i m) = delete i (ownName name m).
Proof. apply map_filter_delete. Qed.

(** The objects of a server that are filed under their name. *)
Definition served (k : cluster) : cluster :=
  mk_cluster (ownName dp_Name (k_deps k)) (ownName cm_Name (k_cms k)) (k_secs k) (ownName kn_Name (k_nodes k)) (k_pods k).

Definition guarded (ok : bool) (f : cluster → cluster) : M cluster (result unit) :=
  λ k, Ok (if ok then (Val (), f k) else (Err "conflict", k)).
Definition has {V} (m : gmap string V) (i : string) : bool := bool_decide (is_Some (m !! i)).

#[local] Instance simKube : KubeAPI cluster := {
  listDeployments := λ k, Ok (Val (vals (k_deps (served k))), k);
  createDeployment d := λ k, guarded (negb (has (k_deps (served k)) (dp_Name d)))
    (set_deps (<[dp_Name d := d]> (k_deps k))) k;
  updateDeployment d := λ k, guarded (has (k_deps (served k)) (dp_Name d)) (set_deps (<[dp_Name d := d]> (k_deps k))) k;
  deleteDeployment i := λ k, guarded (has (k_deps (served k)) i) (set_deps (delete i (k_deps k))) k;
  listConfigMaps := λ k, Ok (Val (vals (k_cms (served k))), k);
  createConfigMap c := λ k, guarded (negb (has (k_cms (served k)) (cm_Name c))) (set_cms (<[cm_Name c := c]> (k_cms k))) k;
  deleteConfigMap i := λ k, guarded (has (k_cms (served k)) i) (set_cms (delete i (k_cms k))) k;
  getSecret i := λ k, Ok (match k_secs k !! i with Some s => Val s | None => Err "not found" end, k);
  createSecret s := λ k, guarded (negb (has (k_secs k) (sec_Name s))) (set_secs (<[sec_Name s := s]> (k_secs k))) k;
  updateSecret s := λ k, guarded (has (k_secs k) (sec_Name s)) (set_secs (<[sec_Name s := s]> (k_secs k))) k;
  listNodes := λ k, Ok (Val (vals (k_nodes (served k))), k);
  updateNode x := λ k, guarded (has (k_nodes (served k)) (kn_Name x)) (set_nodes (<[kn_Name x := x]> (k_nodes k))) k;
  listPods := λ k, Ok (Val (k_pods k), k);
  RetryOnConflict m := m;
}.

Lemma has_true {V} (m : gmap string V) i : is_Some (m !! i) → has m i = true.
Proof. intros. by apply bool_decide_eq_true. Qed.
Lemma has_false {V} (m : gmap string V) i : m !! i = None → has m i = false.
Proof. intros Hi. apply bool_decide_eq_false. rewrite Hi. by intros []. Qed.

#[local] Instance simKube_laws : KubeLaws cluster.
Proof.
  refine {| kube := served |}; intros; unfold wp; simpl; rewrite ?has_true, ?has_false by done; simpl;
    auto using ownName_keyed; try (split; [done|]); unfold served; simpl;
    rewrite ?ownName_insert, ?ownName_delete; eauto.
  by destruct (k_secs w !! name); eauto.
Defined.

(** ** Examples *)

#[local] Existing Instances fixed_order stable_sort.

Definition demo_web : Container :=
  mk_Container 2 "10.0.0.2" "" "web" "" "" ["serve"] {["MODE" := StringValue "prod"; "PW" := SecretValue "pw"]}
    {["/etc/conf" := StringValue "x"; "/etc/pw" := SecretValue "pw"]} "web" 0 false [mk_VolumeMount "data" "/data"] "nginx" "".
(** Its image is not built yet. *)
Definition demo_app : Container :=
  mk_Container 3 "10.0.0.3" "" "app" "" "" [] ∅ {["/etc/conf" := StringValue "x"]} "app" 0 false [] "app" "FROM x".
Definition demo_rule : Placement := mk_Placement 5 "web" true "app" "" "" "us-west-1" "".
Definition demo_kube : store :=
  storeOf [RBlueprint (mk_Blueprint 1 (mk_bpBlueprint [] [] [] [] [] [mk_Volume "data" "hostPath" {["path" := "/mnt"]}] [] "ns"));
           RContainer demo_web; RContainer demo_app;
           RImage (mk_Image 4 "app" "FROM x" "" "building"); RPlacement demo_rule;
           RMinion (mk_Minion 6 false "" Worker "10.1.1.1" "Amazon" "m3" "us-west-1" "" []);
           RMinion (mk_Minion 7 false "" Worker "10.1.1.2" "Google" "n1" "us-east1" "" [])].
Definition demo_node1 : kNode := mk_kNode "n1" (Some {["zone" := "a"]}) [("InternalIP", "10.1.1.1")].
Definition demo_node2 : kNode := mk_kNode "n2" (Some ∅) [("InternalIP", "10.1.1.2")].
Definition demo_cluster : cluster :=
  mk_cluster {["old" := makeDeployment (λ x, x) 0 (withFiles "old" ∅) (mk_PodSpec "old" [] None "" [])]} ∅
    {["kelda-pw" := mk_kSecret "kelda-pw" {["value" := "hunter2"]}]}
    {["n1" := demo_node1; "n2" := demo_node2]} [].
Definition demo_volumes : gmap string kVolume := {["data" := mk_kVolume "data" (HostPathVolume "/mnt")]}.

Lemma demo_rows : vals (tbl Container demo_kube) ≡ₚ [demo_web; demo_app].
Proof. vm_decide. Qed.

Lemma plain_vals m : OtherValue ∉ vals m → plain m.
Proof. intros Hm k Hk. apply Hm, elem_of_vals. eauto. Qed.

Lemma demo_plain : Forall plainContainer [demo_web; demo_app].
Proof.
  rewrite !Forall_cons, Forall_nil. unfold plainContainer. split_and!; try done; apply plain_vals; vm_decide.
Qed.

Lemma demo_steady : steady (λ x, x) demo_web ∧ steady (λ x, x) demo_app.
Proof.
  split; split.
  - intros key name [v Hk] _ ->. by vm_compute in Hk.
  - vm_decide.
  - intros path ->%list_elem_of_singleton. reflexivity.
  - intros name ->%list_elem_of_singleton. split; [done|]. intros secret. by vm_compute.
  - intros key name [v Hk] _ ->. by vm_compute in Hk.
  - vm_decide.
  - intros path ?%elem_of_nil. done.
  - intros name ?%elem_of_nil. done.
Qed.

Lemma demo_deployable : deployable (λ x, x) (addressed (vals (tbl Container demo_kube))).
Proof.
  assert (addressed (vals (tbl Container demo_kube)) ≡ₚ [demo_web; demo_app]) as Hp.
  { unfold addressed. rewrite demo_rows. vm_decide. }
  destruct demo_steady. split.
  - rewrite Hp. exact demo_plain.
  - rewrite Hp, !Forall_cons, Forall_nil. done.
  - rewrite Hp. vm_decide.
Qed.

Lemma demo_undisturbed :
  undisturbed (λ x, x) (vals (tbl Container demo_kube)) (k_cms (served demo_cluster)) demo_web.
Proof.
  split.
  - intros p q _ _ Heq. exact Heq.
  - intros dbc'. rewrite demo_rows. rewrite !elem_of_cons, !elem_of_nil. by intros [->|[->|[]]].
  - intros c path v. assert (k_cms (served demo_cluster) = ∅) as -> by done. by rewrite lookup_empty.
Qed.

Lemma demo_web_runs :
  canRun (λ x, x) (served demo_cluster) (vals (tbl Image demo_kube)) [mk_Volume "data" "hostPath" {["path" := "/mnt"]}] demo_web.
Proof.
  split_and!.
  - exists "nginx". by left.
  - intros name [key Hk]. change (c_Env demo_web) with ({["MODE" := StringValue "prod"; "PW" := SecretValue "pw"]} : gmap string ContainerValue) in Hk.
    change (c_FilepathToContent demo_web) with
      ({["/etc/conf" := StringValue "x"; "/etc/pw" := SecretValue "pw"]} : gmap string ContainerValue) in Hk.
    rewrite !lookup_insert_Some, !lookup_singleton_Some in Hk.
    assert (name = "pw") as -> by naive_solver. by eexists.
  - intros x ->%list_elem_of_singleton. eexists. split; [by apply list_elem_of_singleton|done].
Qed.

(** The deployment of the example, piece by piece. *)
Definition demo_deployment (k : cluster) (d : Deployment) : Prop :=
  dp_Selector d = {["hostname" := "web"]} ∧ dp_Strategy d = "Recreate" ∧
  reads k (dp_Pod d) "/etc/conf" "x" ∧ reads k (dp_Pod d) "/etc/pw" "hunter2" ∧
  (∃ ctr, ps_Containers (dp_Pod d) = [ctr] ∧ kc_Image ctr = "nginx" ∧ kc_Args ctr = ["serve"] ∧
     mk_kMount "data" "/data" "" ∈ kc_VolumeMounts ctr ∧
     mk_EnvVar "PW" "" (Some ("kelda-pw", "value")) ∈ kc_Env ctr) ∧
  mk_kVolume "data" (HostPathVolume "/mnt") ∈ ps_Volumes (dp_Pod d) ∧
  ¬ nodeFits (ps_Affinity (dp_Pod d))
      (minionLabels (mk_Minion 6 false "" Worker "10.1.1.1" "Amazon" "m3" "us-west-1" "" [])) ∧
  nodeFits (ps_Affinity (dp_Pod d))
      (minionLabels (mk_Minion 7 false "" Worker "10.1.1.2" "Google" "n1" "us-east1" "" [])).

Lemma demo_deployed k d :
  deploymentFor (λ x, x) (served demo_cluster) (vals (tbl Image demo_kube))
    [mk_Volume "data" "hostPath" {["path" := "/mnt"]}] (vals (tbl Placement demo_kube)) demo_web d →
  reads k (dp_Pod d) "/etc/conf" "x" → reads k (dp_Pod d) "/etc/pw" "hunter2" → demo_deployment k d.
Proof.
  intros Hd Hf Hs. assert (vals (tbl Placement demo_kube) = [demo_rule]) as Hr by (vm_compute; reflexivity).
  unfold demo_deployment. split_and!; [by rewrite (df_selector _ _ _ _ _ _ _ Hd)|by rewrite (df_strategy _ _ _ _ _ _ _ Hd)|done|done|..].
  - destruct (df_container _ _ _ _ _ _ _ Hd) as (ctr & Hctr & Hfor). exists ctr. split_and!; [done| | | |].
    + destruct (cr_image _ _ _ _ _ Hfor) as [[_ ->]|[[] _]]; done.
    + by rewrite (cr_args _ _ _ _ _ Hfor).
    + apply (cr_mounts _ _ _ _ _ Hfor). right; right. eexists. split; [by apply list_elem_of_singleton|done].
    + apply (cr_env _ _ _ _ _ Hfor). right; left. exists "PW", "pw". split; [reflexivity|done].
  - apply (df_volumes _ _ _ _ _ _ _ Hd). right; right. eexists _, _. split_and!.
    + by apply list_elem_of_singleton.
    + exists [], []. split_and!; [done|done|apply not_elem_of_nil].
    + reflexivity.
  - rewrite (df_nodes _ _ _ _ _ _ _ Hd (mk_Minion 6 false "" Worker "10.1.1.1" "Amazon" "m3" "us-west-1" "" []))
      by (unfold labelled; reflexivity). rewrite Hr. intros Hm. destruct (Hm demo_rule) as (_ & Hreg & _); [by apply list_elem_of_singleton|done|].
    by apply Hreg.
  - rewrite (df_nodes _ _ _ _ _ _ _ Hd (mk_Minion 7 false "" Worker "10.1.1.2" "Google" "n1" "us-east1" "" []))
      by (unfold labelled; reflexivity). rewrite Hr. intros p ->%list_elem_of_singleton _. repeat split; by intros ?.
Qed.

Lemma deployOnce_deploys_witness :
  wp (deployOnce (λ x, x) 0) (demo_kube, demo_cluster) (λ _ st, same demo_kube st.1 ∧
    (∃ d, k_deps (served st.2) !! "web" = Some d ∧ demo_deployment (served st.2) d) ∧
    k_deps (served st.2) !! "app" = None ∧ k_deps (served st.2) !! "old" = None).
Proof.
  eapply wp_mono; [eapply (deployOnce_deploys (λ x, x) 0 demo_kube demo_cluster)|].
  - vm_decide.
  - reflexivity.
  - by repeat constructor.
  - rewrite demo_rows. exact demo_plain.
  - exact demo_deployable.
  - vm_decide.
  - intros [] st [Hs [_ Honly Hall _]]. split; [done|].
    assert (demo_web ∈ vals (tbl Container demo_kube) ∧ demo_app ∈ vals (tbl Container demo_kube))
      as [Hweb Happ] by (rewrite demo_rows; vm_decide).
    split_and!.
    + destruct (proj2 (Hall demo_web Hweb ltac:(done)) demo_web_runs) as [d Hd].
      exists d. split; [done|]. destruct (Honly _ _ Hd) as (dbc & Hdbc & _ & Hn & Hfor & Hsec & Hf).
      assert (dbc = demo_web) as ->.
      { revert Hdbc. rewrite demo_rows. by intros [->|[->|[]%elem_of_nil]%elem_of_cons]%elem_of_cons. }
      apply demo_deployed; [exact Hfor|by apply (Hf demo_undisturbed)|].
      destruct (Hsec "/etc/pw" "pw" eq_refl) as (v & Hv & Hreads). by injection Hv as <-.
    + destruct (k_deps (served st.2) !! "app") as [d|] eqn:Hd; [|done].
      destruct (proj1 (Hall demo_app Happ ltac:(done))) as [[x Hx] _]; [by eexists|].
      destruct Hx as [[Hx _]|(_ & img & Himg & _ & _ & Hst & _)]; [done|].
      revert Himg. assert (vals (tbl Image demo_kube) = [mk_Image 4 "app" "FROM x" "" "building"]) as -> by (vm_compute; reflexivity).
      by intros ->%list_elem_of_singleton.
    + destruct (k_deps (served st.2) !! "old") as [d|] eqn:Hd; [|done].
      destruct (Honly _ _ Hd) as (dbc & Hdbc & _ & Hn & _). revert Hdbc. rewrite demo_rows.
      by intros [->|[->|[]%elem_of_nil]%elem_of_cons]%elem_of_cons.
Defined.

(** Another order of map loops. *)
#[local] Instance backwards : MapOrder.
Proof. refine {| range _ K _ _ V m := rev (map_to_list m) |}. intros. symmetry. apply Permutation_rev. Defined.

Lemma makePod_deterministic_witness :
  wp (@makePod (λ x, x) fixed_order stable_sort cluster _ 0 [] ∅ demo_volumes demo_web) demo_cluster (λ pod1 _,
    wp (@makePod (λ x, x) backwards stable_sort cluster _ 5 [] ∅ demo_volumes demo_web) demo_cluster (λ pod2 _,
      pod1 = pod2)).
Proof.
  eapply wp_mono; [apply (makePod_deterministic (λ x, x) fixed_order backwards stable_sort stable_sort 0 5 [] ∅
    demo_volumes demo_web demo_cluster demo_cluster)|].
  - pose proof demo_plain as Hp. by apply Forall_cons in Hp as [Hp _].
  - intros name v Hv. unfold demo_volumes in Hv. by apply lookup_singleton_Some in Hv as [<- <-].
  - apply demo_steady.
  - done.
  - intros pod1 w1 [_ Hw]. eapply wp_mono; [exact Hw|]. by intros pod2 w2 [_ ?].
Defined.

Lemma scheduler_respects_placement_witness :
  wp (labelOnce 0) (demo_kube, demo_cluster) (λ _ st, ∃ l1 l2 aff,
    kn_Labels <$> k_nodes (served st.2) !! "n1" = Some (Some l1) ∧ l1 !! "zone" = Some "a" ∧
    kn_Labels <$> k_nodes (served st.2) !! "n2" = Some (Some l2) ∧
    toAffinities [demo_rule] = Ok aff ∧ ¬ nodeFits (aff !! "web") l1 ∧ nodeFits (aff !! "web") l2).
Proof.
  eapply wp_mono; [apply (scheduler_respects_placement 0 demo_kube demo_cluster)|].
  - vm_decide.
  - vm_decide.
  - apply Forall_forall. assert (vals (k_nodes (served demo_cluster)) ≡ₚ [demo_node1; demo_node2])
      as -> by (vm_compute; apply Permutation_swap || reflexivity).
    by repeat constructor.
  - intros [] st [_ Hn].
    destruct (Hn "n1" demo_node1 {["zone" := "a"]} (mk_Minion 6 false "" Worker "10.1.1.1" "Amazon" "m3" "us-west-1" "" []))
      as (l1 & Hl1 & Hz & Haff); [reflexivity|reflexivity|vm_decide|reflexivity|].
    destruct (Hn "n2" demo_node2 ∅ (mk_Minion 7 false "" Worker "10.1.1.2" "Google" "n1" "us-east1" "" []))
      as (l2 & Hl2 & _ & Haff2); [reflexivity|reflexivity|vm_decide|reflexivity|].
    destruct (Haff [demo_rule]) as (aff & Ha & Hr1 & _), (Haff2 [demo_rule]) as (aff' & Ha' & Hr2 & _).
    rewrite Ha in Ha'. injection Ha' as <-. exists l1, l2, aff.
    split_and!; [done|by rewrite Hz by vm_decide|done|done| |].
    + intros Hfit. pose proof (proj1 (Hr1 "web") Hfit) as Hm. destruct (Hm demo_rule) as (_ & Hreg & _); [by apply list_elem_of_singleton|done|]. by apply Hreg.
    + apply (Hr2 "web"). intros p ->%list_elem_of_singleton _. repeat split; by intros ?.
Defined.

Definition demo_pod : Pod :=
  mk_Pod "web-1" {[imageKey := "nginx"; envHashKey := "[MODE=prod PW=Secret: pw]"; filesHashKey := "[/etc/conf=x /etc/pw=Secret: pw]"]}
    (mk_PodSpec "web" [mk_kContainer "web" "nginx" [] ["serve"] [] (Some false)] None "" []) "10.1.1.2"
    [mk_ContainerState (Some 7%Z) None None] [].

Lemma statuses_follow_pods_witness :
  wp (updateContainerStatuses (λ x, x)) (demo_kube, mk_cluster ∅ ∅ ∅ ∅ [demo_pod]) (λ _ st,
    (∃ c, c ∈ vals (tbl Container st.1) ∧ c_ID c = 2%Z ∧ c_Status c = "running" ∧ c_Created c = 7%Z ∧
       c_Minion c = "10.1.1.2" ∧ c_PodName c = "web-1") ∧
    (∃ c, c ∈ vals (tbl Container st.1) ∧ c_ID c = 3%Z ∧ c_Status c = "building")).
Proof.
  eapply wp_mono; [apply (statuses_follow_pods (λ x, x) demo_kube (mk_cluster ∅ ∅ ∅ ∅ [demo_pod])); vm_decide|].
  intros [] st (_ & _ & olds & news & Holds & Hnews & Hf).
  assert (podKey demo_pod = dbcKey (λ x, x) 0 demo_web ∧ podKey demo_pod ≠ dbcKey (λ x, x) 0 demo_app) as [Hk1 Hk2] by vm_decide.
  apply belongs_key in Hk1. rewrite belongs_key in Hk2.
  assert (vals (tbl Image demo_kube) = [mk_Image 4 "app" "FROM x" "" "building"]) as Himg by vm_decide.
  rewrite Himg in Hf. change (kube _) with (mk_cluster ∅ ∅ ∅ ∅ [demo_pod]) in Hf.
  assert (∀ old, old ∈ [demo_web; demo_app] → ∃ new, new ∈ vals (tbl Container st.1) ∧
    follows (λ x, x) (mk_cluster ∅ ∅ ∅ ∅ [demo_pod]) [mk_Image 4 "app" "FROM x" "" "building"] old new) as Hall.
  { intros old Hold. rewrite demo_rows in Holds. rewrite <-Holds in Hold.
    apply list_elem_of_lookup in Hold as [i Hi].
    destruct (Forall2_lookup_l _ _ _ _ _ Hf Hi) as (new & Hnew & Hfo). exists new. split; [|exact Hfo].
    rewrite <-Hnews. by eapply list_elem_of_lookup_2. }
  split.
  - destruct (Hall demo_web) as (new & Hnew & [(p & status & created & ->%list_elem_of_singleton & _ & Hr & ->)|[Hno _]]);
      [by left| |].
    + eexists. split; [exact Hnew|]. simpl.
      destruct Hr as [? ? [= <-] [= <-]|? ? [= <-] ?|? ? [= <-] ?|? [= <-] ?|[]|[]]; done.
    + by destruct (Hno demo_pod); [apply list_elem_of_singleton|].
  - destruct (Hall demo_app) as (new & Hnew & [(p & ? & ? & ->%list_elem_of_singleton & Hk & _)|[_ (status & (missing & _ & Hm & _ & Hst) & ->)]]);
      [by right; left|done|].
    assert (missing = []) as Hnil by by apply Permutation_nil_r in Hm.
    destruct (Hst Hnil) as [(img & ->%list_elem_of_singleton & _ & _ & ->)|[Hno _]]; [eexists; split_and!; [exact Hnew|reflexivity..]|].
    exfalso. by eapply Hno; [by apply list_elem_of_singleton|..].
Defined.

Lemma secret_roundtrip_witness :
  wp (secretSet (λ x, x) "pw" "new") demo_cluster (λ _ k1,
    wp (secretGet (λ x, x) "pw") k1 (λ r _, r = Val "new")).
Proof.
  eapply wp_mono; [apply (secret_roundtrip (λ x, x) "pw" "new" demo_cluster)|].
  - intros sec Hsec. injection Hsec as <-. by eexists.
  - intros r k1 (_ & _ & _ & Hget). eapply wp_mono; [exact Hget|]. by intros ?? [-> _].
Defined.

Definition demo_bad_volume : store :=
  storeOf [RBlueprint (mk_Blueprint 1 (mk_bpBlueprint [] [] [] [] [] [mk_Volume "data" "nfs" ∅] [] "ns"));
           RContainer demo_app].

Lemma bad_volume_deletes_everything_witness :
  wp (updateDeployments (λ x, x) 0) (demo_bad_volume, demo_cluster) (λ _ st, k_deps (served st.2) = ∅).
Proof.
  eapply wp_mono.
  - by eapply (bad_volume_deletes_everything (λ x, x) 0 demo_bad_volume demo_cluster); [vm_decide|reflexivity|reflexivity].
  - intros [] st [_ Hk]. change (served st.2) with (kube st.2). by rewrite Hk.
Defined.
