(* ===== verification/Docker.v ===== *)
(** * Package docker: a client of the local Docker daemon

    [src/minion/docker/docker.go] (and [ParseRepositoryTag] of the Docker
    library).  The daemon is the class [DockerAPI], over a world with a clock;
    its objects are records of the fields the code reads or sets.  The image
    cache is the first half of the state: the expiration of an entry, [None] for
    the zero time. *)

From S2P Require Import Prelude GoStrings Join Blueprint DbRows Backoff GoNet Ip.

(** ** Objects *)

Record dkContainer := mk_dkContainer {
  dk_ID : string;
  dk_Name : string;
  dk_Image : string;
  dk_ImageID : string;
  dk_Hostname : string;
  dk_Path : string;
  dk_Status : string;
  dk_Args : list string;
  dk_Pid : Z;
  dk_Env : gmap string string;
  dk_Labels : gmap string string;
  dk_Created : Z;
  dk_Running : bool;
}.

(** [hm_Propagation]: [BindOptions], if set. *)
Record HostMount := mk_HostMount {
  hm_Source : string;
  hm_Target : string;
  hm_Type : string;
  hm_Propagation : option string;
}.
Record RunOptions := mk_RunOptions {
  ro_Name : string;
  ro_Image : string;
  ro_Args : list string;
  ro_Labels : gmap string string;
  ro_Env : gmap string string;
  ro_FilepathToContent : gmap string string;
  ro_Hostname : string;
  ro_NetworkMode : string;
  ro_DNS : list string;
  ro_DNSSearch : list string;
  ro_PidMode : string;
  ro_Privileged : bool;
  ro_VolumesFrom : list string;
  ro_CapAdd : list string;
  ro_Mounts : list HostMount;
}.

(** [dkc.HostConfig], [dkc.Config] and [dkc.CreateContainerOptions]. *)
Record HostConfig := mk_HostConfig {
  hc_NetworkMode : string;
  hc_PidMode : string;
  hc_Privileged : bool;
  hc_VolumesFrom : list string;
  hc_DNS : list string;
  hc_DNSSearch : list string;
  hc_CapAdd : list string;
  hc_Mounts : list HostMount;
}.
Record dkcConfig := mk_dkcConfig {
  cfg_Image : string;
  cfg_Hostname : string;
  cfg_Cmd : list string;
  cfg_Labels : gmap string string;
  cfg_Env : list string;
}.
Record CreateOptions := mk_CreateOptions { co_Name : string; co_Config : dkcConfig; co_HostConfig : HostConfig }.

(** [dkc.Container], as an inspection answers; [Config] is a pointer. *)
Record Inspection := mk_Inspection {
  in_ID : string;
  in_Name : string;
  in_Created : Z;
  in_Config : option dkcConfig;
  in_Image : string;
  in_Path : string;
  in_Args : list string;
  in_Pid : Z;
  in_Status : string;
  in_Running : bool;
}.

(** A tar archive with one file. *)
Record tarball := mk_tarball { tar_Name : string; tar_Mode : Z; tar_Content : string }.
Definition ToTar (name : string) (permissions : Z) (content : string) : tarball := mk_tarball name permissions content.

Record BuildOptions := mk_BuildOptions { bo_NetworkMode : string; bo_Name : string; bo_Input : tarball; bo_NoCache : bool }.
Record NetworkOptions := mk_NetworkOptions { no_Name : string; no_Driver : string; no_Subnet : string; no_Gateway : string }.

Class DockerAPI (W : Type) := {
  dk_clock :: Clock W;
  StartContainer : string → HostConfig → M W (result unit);
  UploadToContainer : string → tarball → string → M W (result unit);
  RemoveContainer : string → M W (result unit);
  dkc_RenameContainer : string → string → M W (result unit);
  BuildImage : BuildOptions → M W (result unit);
  PullImage : string → string → M W (result unit);
  (** Registry, name and tag. *)
  PushImage : string → string → string → M W (result unit);
  (** The IDs of the containers. *)
  ListContainers : bool → gmap string (list string) → M W (result (list string));
  InspectContainer : string → M W (result Inspection);
  (** The repository digests of an image. *)
  InspectImage : string → M W (result (list string));
  CreateContainer : CreateOptions → M W (result string);
  dkc_CreateNetwork : NetworkOptions → M W (result unit);
  (** The names of the networks. *)
  dkc_ListNetworks : M W (result (list string));
}.

Definition pullCacheTimeout : Z := Minute.
Definition ErrNoSuchContainer : string := "container does not exist".

Definition ParseRepositoryTag (repoTag : string) : string * string :=
  let repoTag := match splitAt "@" repoTag with Some (x, _) => x | None => repoTag end in
  match cutLast ":" repoTag with
  | None => (repoTag, "")
  | Some (repo, tag) => match splitAt "/" tag with None => (repo, tag) | Some _ => (repoTag, "") end
  end.

Example ParseRepositoryTag_example :
  ParseRepositoryTag "quay.io/coreos/etcd:v3.3" = ("quay.io/coreos/etcd", "v3.3") ∧
  ParseRepositoryTag "10.0.0.1:5000/img" = ("10.0.0.1:5000/img", "") ∧
  ParseRepositoryTag "img:tag@sha256:abc" = ("img", "tag").
Proof. done. Qed.

Section client.
Context {W : Type} `{DockerAPI W} `{MapOrder}.

(** The image cache, and the world. *)
Definition dkState : Type := gmap string (option Z) * W.

(** ** Images *)

Definition getCacheEntry (repo tag : string) : M dkState (option Z) :=
  let key := repo +:+ ":" +:+ tag in
  let! st := get in
  match st.1 !! key with
  | Some entry => mret entry
  | None => put (<[key := None]> st.1, st.2) ;;; mret None
  end.

Definition Pull (image : string) : M dkState (result unit) :=
  let '(repo, tag) := ParseRepositoryTag image in
  let tag := if bool_decide (tag = "") then "latest" else tag in
  let! entry := getCacheEntry repo tag in
  let! st := get in
  if match entry with Some expiration => bool_decide (now st.2 < expiration)%Z | None => false end
  then mret (Val ())
  else
    let! r := onSnd (PullImage repo tag) in
    match r with
    | Err e => mret (Err ("pull image error: " +:+ e))
    | Val _ =>
      let! st := get in
      put (<[repo +:+ ":" +:+ tag := Some (now st.2 + pullCacheTimeout)%Z]> st.1, st.2) ;;;
      mret (Val ())
    end.

Definition Build (name dockerfile : string) (useCache : bool) : M dkState (result unit) :=
  let tarBuf := ToTar "Dockerfile" 420 dockerfile in
  onSnd (BuildImage (mk_BuildOptions "host" name tarBuf (negb useCache))).

Definition Push (registry image : string) : M dkState (result string) :=
  let '(repo, tag) := ParseRepositoryTag image in
  let? _ := onSnd (PushImage registry repo tag) in
  let? digests := onSnd (InspectImage image) in
  match digests with
  | [digest] => mret (Val digest)
  | _ => mret (Err ("unexpected number of repo digests (expected exactly one): " +:+ fmtSlice digests))
  end.

(** ** Containers *)

Definition RemoveID (id : string) : M dkState (result unit) := onSnd (RemoveContainer id).
Definition RenameContainer (id newName : string) : M dkState (result unit) := onSnd (dkc_RenameContainer id newName).

(** The loop that uploads the files. *)
Fixpoint uploadFiles (id : string) (files : list (string * string)) : M dkState (result unit) :=
  match files with
  | [] => mret (Val ())
  | (path, content) :: files =>
    let dir := if isAbs path then "/" else "." in
    let tarBuf := ToTar (pathRel path) 420 content in
    let? _ := onSnd (UploadToContainer id tarBuf dir) in
    uploadFiles id files
  end.

Definition create (n : nat) (name image hostname : string) (args : list string) (labels : gmap string string)
    (env : list string) (filepathToContent : gmap string string) (hc : HostConfig) : M dkState (result string) :=
  let? _ := Pull image in
  let? id := onSnd (CreateContainer (mk_CreateOptions name (mk_dkcConfig image hostname args labels env) hc)) in
  let? _ := uploadFiles id (range n filepathToContent) in
  mret (Val id).

Definition hostConfigOf (opts : RunOptions) : HostConfig :=
  mk_HostConfig (ro_NetworkMode opts) (ro_PidMode opts) (ro_Privileged opts) (ro_VolumesFrom opts) (ro_DNS opts)
    (ro_DNSSearch opts) (ro_CapAdd opts) (ro_Mounts opts).

Definition dk_Run (n : nat) (opts : RunOptions) : M dkState (result string) :=
  let env := (λ kv, kv.1 +:+ "=" +:+ kv.2) <$> range n (ro_Env opts) in
  let hc := hostConfigOf opts in
  let? id := create n (ro_Name opts) (ro_Image opts) (ro_Hostname opts) (ro_Args opts) (ro_Labels opts) env
               (ro_FilepathToContent opts) hc in
  let! r := onSnd (StartContainer id hc) in
  match r with
  | Err e => RemoveID id ;;; mret (Err e)
  | Val _ => mret (Val id)
  end.

Definition parseEnv (values : list string) : gmap string string :=
  foldl (λ env value, match splitAt "=" value with Some (k, v) => <[k := v]> env | None => env end) ∅ values.

Definition dk_Get (id : string) : M dkState (result dkContainer) :=
  let? c := onSnd (InspectContainer id) in
  let! config := lift (deref (in_Config c)) in
  mret (Val (mk_dkContainer (in_ID c) (in_Name c) (cfg_Image config) (in_Image c) (cfg_Hostname config) (in_Path c)
    (in_Status c) (in_Args c) (in_Pid c) (parseEnv (cfg_Env config)) (cfg_Labels config) (in_Created c) (in_Running c))).

(** Containers that cannot be inspected are left out. *)
Fixpoint getAll (ids : list string) : M dkState (list dkContainer) :=
  match ids with
  | [] => mret []
  | id :: ids =>
    let! r := dk_Get id in
    let! containers := getAll ids in
    mret (match r with Val c => c :: containers | Err _ => containers end)
  end.

Definition dk_List (filters : gmap string (list string)) (all : bool) : M dkState (result (list dkContainer)) :=
  let? ids := onSnd (ListContainers all filters) in
  let! containers := getAll ids in
  mret (Val containers).

Definition getID (name : string) : M dkState (result string) :=
  let? containers := dk_List {["name" := [name]]} true in
  match containers with
  | c :: _ => mret (Val (dk_ID c))
  | [] => mret (Err ErrNoSuchContainer)
  end.

Definition dk_Remove (name : string) : M dkState (result unit) :=
  let? id := getID name in
  RemoveID id.

(** ** The network *)

Definition ConfigureNetwork (driver : string) : M dkState (result unit) :=
  let! r := onSnd dkc_ListNetworks in
  let found := match r with Val networks => bool_decide (driver ∈ networks) | Err _ => false end in
  if found then mret (Val ())
  else
    onSnd (dkc_CreateNetwork (mk_NetworkOptions driver driver KeldaSubnet_String (IPString GatewayIP))).
End client.
