(* ===== verification/Supervisor.v ===== *)
(** * Package supervisor: the system containers of a minion

    [src/minion/supervisor]: the containers that a master or a worker is to run
    ([runMasterOnce], [runWorkerOnce]), and bringing Docker in line with them
    ([joinContainers]).  The state is the database and the Docker state; the
    host (ovs-vsctl, files, netlink, random UUIDs) is the class [Host]. *)

From S2P Require Import Prelude GoStrings Join Blueprint DbRows Db Backoff Providers GoNet Ip Docker.

(** ** Names *)

Definition EtcdName : string := "etcd".
Definition OvncontrollerName : string := "ovn-controller".
Definition OvnnorthdName : string := "ovn-northd".
Definition OvsdbName : string := "ovsdb-server".
Definition OvsvswitchdName : string := "ovs-vswitchd".
Definition RegistryName : string := "registry".
Definition KubeAPIServerName : string := "kube-apiserver".
Definition KubeletName : string := "kubelet".
Definition KubeControllerManagerName : string := "kube-controller-manager".
Definition KubeSchedulerName : string := "kube-scheduler".

Definition ovsImage : string := "keldaio/ovs".
Definition etcdImage : string := "quay.io/coreos/etcd:v3.3".
Definition registryImage : string := "registry:2.6.2".
Definition kubeImage : string := "keldaio/kelda:dev".

Definition containerTypeKey : string := "containerType".
Definition sysContainerVal : string := "keldaSystemContainer".
Definition filesKey : string := "files".
Definition tunnelingProtocol : string := "stt".

(** ** Paths: package tls/io and [src/cli/path] *)

Definition MinionTLSDir : string := pathJoin MinionHome "tls".
Definition MinionKubeSecretPath : string := pathJoin MinionHome "kube_etcd_secret".
Definition CACertPath (dir : string) : string := pathJoin dir "certificate_authority.crt".
Definition SignedCertPath (dir : string) : string := pathJoin dir "kelda.crt".
Definition SignedKeyPath (dir : string) : string := pathJoin dir "kelda.key".

(** [NewKubeconfig]: one cluster "kelda", one user "tls", one context "default". *)
Record kubeconfig := mk_kubeconfig {
  kc_CertificateAuthority : string;
  kc_Server : string;
  kc_ClientCertificate : string;
  kc_ClientKey : string;
  kc_CurrentContext : string;
  kc_ContextCluster : string;
  kc_ContextAuthInfo : string;
}.
Definition NewKubeconfig (server : string) : kubeconfig :=
  mk_kubeconfig (CACertPath MinionTLSDir) server (SignedCertPath MinionTLSDir) (SignedKeyPath MinionTLSDir)
    "default" "kelda" "tls".

(** ** etcd.go *)

Definition etcdDataDir : string := "/etcd-data".
Definition etcdHeartbeatInterval : string := "500".
Definition etcdElectionTimeout : string := "5000".
Definition bindMount (path : string) : HostMount := mk_HostMount path path "bind" None.

(** Options with the given name, image and arguments; the other fields are zero. *)
Definition runOptions (name image : string) (args : list string) : RunOptions :=
  mk_RunOptions name image args ∅ ∅ ∅ "" "" [] [] "" false [] [] [].
Definition set_VolumesFrom (v : list string) (ro : RunOptions) : RunOptions :=
  mk_RunOptions (ro_Name ro) (ro_Image ro) (ro_Args ro) (ro_Labels ro) (ro_Env ro) (ro_FilepathToContent ro) (ro_Hostname ro)
    (ro_NetworkMode ro) (ro_DNS ro) (ro_DNSSearch ro) (ro_PidMode ro) (ro_Privileged ro) v (ro_CapAdd ro) (ro_Mounts ro).
Definition set_Privileged (b : bool) (ro : RunOptions) : RunOptions :=
  mk_RunOptions (ro_Name ro) (ro_Image ro) (ro_Args ro) (ro_Labels ro) (ro_Env ro) (ro_FilepathToContent ro) (ro_Hostname ro)
    (ro_NetworkMode ro) (ro_DNS ro) (ro_DNSSearch ro) (ro_PidMode ro) b (ro_VolumesFrom ro) (ro_CapAdd ro) (ro_Mounts ro).
Definition set_Mounts (m : list HostMount) (ro : RunOptions) : RunOptions :=
  mk_RunOptions (ro_Name ro) (ro_Image ro) (ro_Args ro) (ro_Labels ro) (ro_Env ro) (ro_FilepathToContent ro) (ro_Hostname ro)
    (ro_NetworkMode ro) (ro_DNS ro) (ro_DNSSearch ro) (ro_PidMode ro) (ro_Privileged ro) (ro_VolumesFrom ro) (ro_CapAdd ro) m.
Definition set_Files (f : gmap string string) (ro : RunOptions) : RunOptions :=
  mk_RunOptions (ro_Name ro) (ro_Image ro) (ro_Args ro) (ro_Labels ro) (ro_Env ro) f (ro_Hostname ro)
    (ro_NetworkMode ro) (ro_DNS ro) (ro_DNSSearch ro) (ro_PidMode ro) (ro_Privileged ro) (ro_VolumesFrom ro) (ro_CapAdd ro) (ro_Mounts ro).
Definition set_Env (e : gmap string string) (ro : RunOptions) : RunOptions :=
  mk_RunOptions (ro_Name ro) (ro_Image ro) (ro_Args ro) (ro_Labels ro) e (ro_FilepathToContent ro) (ro_Hostname ro)
    (ro_NetworkMode ro) (ro_DNS ro) (ro_DNSSearch ro) (ro_PidMode ro) (ro_Privileged ro) (ro_VolumesFrom ro) (ro_CapAdd ro) (ro_Mounts ro).
Definition set_PidMode (p : string) (ro : RunOptions) : RunOptions :=
  mk_RunOptions (ro_Name ro) (ro_Image ro) (ro_Args ro) (ro_Labels ro) (ro_Env ro) (ro_FilepathToContent ro) (ro_Hostname ro)
    (ro_NetworkMode ro) (ro_DNS ro) (ro_DNSSearch ro) p (ro_Privileged ro) (ro_VolumesFrom ro) (ro_CapAdd ro) (ro_Mounts ro).

Definition etcdContainer (args : list string) : RunOptions :=
  set_Env {["ETCD_DATA_DIR" := etcdDataDir]}
    (set_Mounts [mk_HostMount "/var/lib/etcd" etcdDataDir "bind" None]
      (runOptions EtcdName etcdImage ("etcd" :: args))).

Definition nodeName (IP : string) : string := "master-" +:+ IP.
Definition initialClusterString (etcdIPs : list string) : string :=
  Join_strings "," ((λ ip, nodeName ip +:+ "=http://" +:+ ip +:+ ":2380") <$> etcdIPs).

(** ** The containers of a master *)

Definition encryptionConfigPath : string := "/var/lib/kubernetes/encryption-config.yaml".
Definition textLines (l : list string) : string := Join_strings "" ((λ s, s +:+ newline) <$> l).
Definition encryptionConfig (kubeSecret : string) : string :=
  textLines ["kind: EncryptionConfig"; "apiVersion: v1"; "resources:"; "  - resources:"; "      - secrets"; "    providers:";
             "      - aescbc:"; "          keys:"; "            - name: kelda-key"; "              secret: " +:+ kubeSecret].

Definition kubeAPIServerArgs (ip : string) (etcdIPs : list string) : list string :=
  let etcdServersStr := Join_strings "," ((λ ip, "http://" +:+ ip +:+ ":2379") <$> etcdIPs) in
  ["kube-apiserver";
   "--admission-control=Initializers,NamespaceLifecycle,NodeRestriction,LimitRanger,ServiceAccount,DefaultStorageClass,ResourceQuota";
   "--advertise-address=" +:+ ip;
   "--authorization-mode=Node";
   "--client-ca-file=" +:+ CACertPath MinionTLSDir;
   "--etcd-servers=" +:+ etcdServersStr;
   "--kubelet-certificate-authority=" +:+ CACertPath MinionTLSDir;
   "--kubelet-client-certificate=" +:+ SignedCertPath MinionTLSDir;
   "--kubelet-client-key=" +:+ SignedKeyPath MinionTLSDir;
   "--tls-ca-file=" +:+ CACertPath MinionTLSDir;
   "--tls-cert-file=" +:+ SignedCertPath MinionTLSDir;
   "--tls-private-key-file=" +:+ SignedKeyPath MinionTLSDir;
   "--anonymous-auth=false";
   "--service-account-key-file=" +:+ SignedKeyPath MinionTLSDir;
   "--experimental-encryption-provider-config=" +:+ encryptionConfigPath;
   "--allow-privileged"].

Definition kubeControllerManagerArgs : list string :=
  ["kube-controller-manager"; "--master=http://localhost:8080";
   "--service-account-private-key-file=" +:+ SignedKeyPath MinionTLSDir;
   "--pod-eviction-timeout=30s"].
Definition kubeSchedulerArgs : list string := ["kube-scheduler"; "--master"; "http://localhost:8080"].

Definition ovsContainer (name : string) : RunOptions := set_VolumesFrom ["minion"] (runOptions name ovsImage [name]).

(** [etcdRow]: the zero row unless there is exactly one. *)
Definition theEtcd (etcdRows : list Etcd) : Etcd :=
  match etcdRows with [e] => e | _ => mk_Etcd 0 [] false "" end.

Definition masterEtcd (ip : string) (etcdIPs : list string) : RunOptions :=
  etcdContainer
    ["--name=master-" +:+ ip;
     "--initial-cluster=" +:+ initialClusterString etcdIPs;
     "--advertise-client-urls=http://" +:+ ip +:+ ":2379";
     "--listen-peer-urls=http://" +:+ ip +:+ ":2380";
     "--initial-advertise-peer-urls=http://" +:+ ip +:+ ":2380";
     "--listen-client-urls=http://0.0.0.0:2379";
     "--heartbeat-interval=" +:+ etcdHeartbeatInterval;
     "--initial-cluster-state=new";
     "--election-timeout=" +:+ etcdElectionTimeout].

Definition masterKube (ip : string) (etcdIPs : list string) (kubeSecret : string) : list RunOptions :=
  [set_Files {[encryptionConfigPath := encryptionConfig kubeSecret]}
     (set_Mounts [bindMount MinionTLSDir] (runOptions KubeAPIServerName kubeImage (kubeAPIServerArgs ip etcdIPs)));
   set_Mounts [bindMount MinionTLSDir] (runOptions KubeControllerManagerName kubeImage kubeControllerManagerArgs);
   runOptions KubeSchedulerName kubeImage kubeSchedulerArgs].

(** ** The containers of a worker *)

Definition workerEtcd (etcdIPs : list string) : RunOptions :=
  etcdContainer
    ["--initial-cluster=" +:+ initialClusterString etcdIPs;
     "--heartbeat-interval=" +:+ etcdHeartbeatInterval;
     "--election-timeout=" +:+ etcdElectionTimeout;
     "--proxy=on"].

Definition kubeletArgs (myIP : string) : list string :=
  ["kubelet"; "--pod-cidr=10.0.0.0/24"; "--network-plugin=cni"; "--resolv-conf=/kelda_resolv.conf";
   "--make-iptables-util-chains=false"; "--kubeconfig=/var/lib/kubelet/kubeconfig"; "--hostname-override"; myIP;
   "--anonymous-auth=false"; "--client-ca-file"; CACertPath MinionTLSDir; "--tls-cert-file"; SignedCertPath MinionTLSDir;
   "--tls-private-key-file"; SignedKeyPath MinionTLSDir; "--allow-privileged"].

Definition kubeletContainer (myIP kubeconfigBytes : string) : RunOptions :=
  set_PidMode "host" (set_Privileged true (set_VolumesFrom ["minion"]
    (set_Mounts [bindMount "/dev"; bindMount "/sys"; bindMount "/var/run"; bindMount "/var/lib/docker";
                 mk_HostMount "/var/lib/kubelet/" "/var/lib/kubelet" "bind" (Some "shared"); bindMount MinionTLSDir]
      (set_Files {["/var/lib/kubelet/kubeconfig" := kubeconfigBytes]}
        (runOptions KubeletName kubeImage (kubeletArgs myIP)))))).

(** ** Bringing Docker in line *)

(** [uuid.NewV4().String()], [exec.Command(...).Output()], [util.ReadFile], and
    netlink, where a link is its index. *)
Class Host (W : Type) := {
  newUUID : M W string;
  execRun : string → list string → M W (result string);
  readFile : string → M W (result string);
  LinkByName : string → M W (result Z);
  LinkSetUp : Z → M W (result unit);
  AddrAdd : Z → Z * Z → M W (result unit);
}.

Section supervisor.
Context {W : Type} `{DockerAPI W} `{Host W} `{MapOrder}.
Context (sha1hex : string → string) (writeKubeconfig : kubeconfig → result string).

Definition filesHash (n : nat) (filepathToContent : gmap string string) : string :=
  sha1hex (MapAsString n filepathToContent).

Definition syncContainersScore (n : nat) (ro : RunOptions) (dkc : dkContainer) : outcome Z :=
  let expFilesHash := filesHash n (ro_FilepathToContent ro) in
  if bool_decide (ro_Image ro ≠ dk_Image dkc) || bool_decide (default "" (dk_Labels dkc !! filesKey) ≠ expFilesHash)
  then Ok (-1)%Z
  else if existsb (λ kv, bool_decide (default "" (dk_Env dkc !! kv.1) ≠ kv.2)) (range n (ro_Env ro)) then Ok (-1)%Z
  else
    let cmd1 := dk_Args dkc in
    let cmd2 := dk_Path dkc :: dk_Args dkc in
    if bool_decide (length (ro_Args ro) ≠ 0) && negb (SliceEq (ro_Args ro) cmd1) && negb (SliceEq (ro_Args ro) cmd2)
    then Ok (-1)%Z
    else Ok 0%Z.

(** [ro] with the labels and the network mode of a system container. *)
Definition labelled (n : nat) (ro : RunOptions) : RunOptions :=
  mk_RunOptions (ro_Name ro) (ro_Image ro) (ro_Args ro)
    (<[filesKey := filesHash n (ro_FilepathToContent ro)]> (<[containerTypeKey := sysContainerVal]> (ro_Labels ro)))
    (ro_Env ro) (ro_FilepathToContent ro) (ro_Hostname ro) "host" (ro_DNS ro) (ro_DNSSearch ro) (ro_PidMode ro)
    (ro_Privileged ro) (ro_VolumesFrom ro) (ro_CapAdd ro) (ro_Mounts ro).

(** The loop over [toStop]; failures are logged. *)
Fixpoint stopContainers (toStop : list dkContainer) : M (dkState (W := W)) unit :=
  match toStop with
  | [] => mret ()
  | dkc :: toStop => let! _ := RemoveID (dk_ID dkc) in stopContainers toStop
  end.

(** The loop over [containersWithName]; failures are logged. *)
Fixpoint renameStopped (name : string) (containers : list dkContainer) : M (dkState (W := W)) unit :=
  match containers with
  | [] => mret ()
  | dkc :: containers =>
    (if dk_Running dkc then mret ()
     else
       let! uuid := onSnd newUUID in
       let! _ := RenameContainer (dk_ID dkc) (name +:+ "_stopped_" +:+ uuid) in
       mret ()) ;;;
    renameStopped name containers
  end.

Definition bootContainer (n : nat) (ro : RunOptions) : M (dkState (W := W)) unit :=
  let ro := labelled n ro in
  let! r := dk_List {["name" := [ro_Name ro]]} true in
  match r with
  | Err _ => mret ()
  | Val containersWithName =>
    renameStopped (ro_Name ro) containersWithName ;;;
    let! _ := dk_Run n ro in
    mret ()
  end.
Fixpoint bootContainers (n : nat) (toBoot : list RunOptions) : M (dkState (W := W)) unit :=
  match toBoot with
  | [] => mret ()
  | ro :: toBoot => bootContainer n ro ;;; bootContainers n toBoot
  end.

Definition systemFilter : gmap string (list string) := {["label" := [containerTypeKey +:+ "=" +:+ sysContainerVal]]}.

Definition joinContainers (n : nat) (desiredContainers : list RunOptions) : M (dkState (W := W)) unit :=
  let! r := dk_List systemFilter false in
  match r with
  | Err _ => mret ()
  | Val actual =>
    let! (_, toBoot, toStop) := lift (Join (syncContainersScore n) desiredContainers actual) in
    stopContainers toStop ;;;
    bootContainers n toBoot
  end.

(** ** The loops *)

Definition masterContainers (minion : Minion) (etcdRow : Etcd) (kubeSecret : result string) : list RunOptions :=
  let etcdIPs := e_EtcdIPs etcdRow in
  [ovsContainer OvsdbName; runOptions RegistryName registryImage []] ++
  (if bool_decide (mi_PrivateIP minion ≠ "") && bool_decide (length etcdIPs ≠ 0) then
     masterEtcd (mi_PrivateIP minion) etcdIPs ::
     match kubeSecret with Val secret => masterKube (mi_PrivateIP minion) etcdIPs secret | Err _ => [] end
   else []) ++
  (if e_Leader etcdRow then [ovsContainer OvnnorthdName] else []).

Definition runMasterOnce (n : nat) : M (store * dkState (W := W)) unit :=
  let! minion := onFst connMinionSelf in
  let! etcdRows := onFst (connSelectFromEtcd None) in
  let etcdRow := theEtcd etcdRows in
  let! kubeSecret :=
    (if bool_decide (mi_PrivateIP minion ≠ "") && bool_decide (length (e_EtcdIPs etcdRow) ≠ 0)
     then onSnd (onSnd (readFile MinionKubeSecretPath)) else mret (Err "")) in
  onSnd (joinContainers n (masterContainers minion etcdRow kubeSecret)).

(** The text between plain quotes. *)
Definition quoted (s : string) : string := String quoteChar (s +:+ String quoteChar "").

Definition ovnConf (myIP leaderIP : string) : list (string * string) :=
  [("external_ids:ovn-remote", quoted ("tcp:" +:+ leaderIP +:+ ":6640"));
   ("external_ids:ovn-encap-ip", quote myIP);
   ("external_ids:ovn-encap-type", tunnelingProtocol);
   ("external_ids:api_server", quoted ("http://" +:+ leaderIP +:+ ":9000"));
   ("external_ids:system-id", quote myIP)].

Definition cfgOVN (myIP leaderIP : string) : M W (result unit) :=
  let conf := ovnConf myIP leaderIP in
  let expOutput := textLines conf.*2 in
  let getCmd := ["--if-exists"; "get"; "Open_vSwitch"; "."] ++ conf.*1 in
  let setCmd := ["set"; "Open_vSwitch"; "."] ++ ((λ kv, kv.1 +:+ "=" +:+ kv.2) <$> conf) in
  let! r := execRun "ovs-vsctl" getCmd in
  match r with
  | Err e => mret (Err ("get OVN config: " +:+ e))
  | Val actualOutput =>
    if bool_decide (actualOutput ≠ expOutput) then
      let! r := execRun "ovs-vsctl" setCmd in
      mret (match r with Val _ => Val () | Err e => Err ("set OVN config: " +:+ e) end)
    else mret (Val ())
  end.

(** [ovn]: whether OVN could be configured. *)
Definition workerContainers (minion : Minion) (etcdRow : Etcd) (ovn : bool) : list RunOptions :=
  [ovsContainer OvsdbName; set_Privileged true (ovsContainer OvsvswitchdName)] ++
  (if bool_decide (length (e_EtcdIPs etcdRow) ≠ 0) then [workerEtcd (e_EtcdIPs etcdRow)] else []) ++
  (if bool_decide (mi_PrivateIP minion ≠ "") && bool_decide (e_LeaderIP etcdRow ≠ "") then
     (if ovn then [ovsContainer OvncontrollerName] else []) ++
     match writeKubeconfig (NewKubeconfig ("https://" +:+ e_LeaderIP etcdRow +:+ ":6443")) with
     | Val kubeconfigBytes => [kubeletContainer (mi_PrivateIP minion) kubeconfigBytes]
     | Err _ => []
     end
   else []).

Definition runWorkerOnce (n : nat) : M (store * dkState (W := W)) unit :=
  let! minion := onFst connMinionSelf in
  let! etcdRows := onFst (connSelectFromEtcd None) in
  let etcdRow := theEtcd etcdRows in
  let! ovn :=
    (if bool_decide (mi_PrivateIP minion ≠ "") && bool_decide (e_LeaderIP etcdRow ≠ "")
     then let! r := onSnd (onSnd (cfgOVN (mi_PrivateIP minion) (e_LeaderIP etcdRow))) in
          mret (match r with Val _ => true | Err _ => false end)
     else mret false) in
  onSnd (joinContainers n (workerContainers minion etcdRow ovn)).

(** ** Setting up a worker *)

Definition setupBridge : M W (result unit) :=
  let! gwMac := lift (IPToMac (IP4 GatewayIP)) in
  let! r := execRun "ovs-vsctl"
    ["add-br"; KeldaBridge; "--"; "set"; "bridge"; KeldaBridge; "fail_mode=secure";
     "other_config:hwaddr=" +:+ quoted gwMac] in
  mret (match r with Val _ => Val () | Err e => Err e end).

Definition cfgGateway (name : string) (ip : Z * Z) : M W (result unit) :=
  let! r := LinkByName name in
  match r with
  | Err e => mret (Err ("no such interface: " +:+ name +:+ " (" +:+ e +:+ ")"))
  | Val link =>
    let! r := LinkSetUp link in
    match r with
    | Err e => mret (Err ("failed to bring up link: " +:+ name +:+ " (" +:+ e +:+ ")"))
    | Val _ =>
      let! r := AddrAdd link ip in
      mret (match r with Val _ => Val () | Err e => Err ("failed to set address: " +:+ name +:+ " (" +:+ e +:+ ")") end)
    end
  end.

(** [for { err := act(); if err == nil { break }; time.Sleep(delay) }];
    [false]: out of fuel. *)
Fixpoint retryLoop (fuel : nat) (delay : Z) (act : M W (result unit)) : M W bool :=
  match fuel with
  | 0 => mret false
  | S fuel =>
    let! r := act in
    match r with
    | Val _ => mret true
    | Err _ => modify (sleep delay) ;;; retryLoop fuel delay act
    end
  end.

Definition setupWorker (n fuel : nat) : M (store * dkState (W := W)) bool :=
  runWorkerOnce n ;;;
  let! ok := onSnd (onSnd (retryLoop fuel (5 * Second) setupBridge)) in
  if (ok : bool) then onSnd (onSnd (retryLoop fuel (5 * Second) (cfgGateway KeldaBridge (GatewayIP, CIDRMask4 8)))) else mret false.

(** The images that [Run] pulls. *)
Definition supervisorImages (role : string) : list string :=
  [ovsImage; etcdImage; kubeImage] ++ (if bool_decide (role = Master) then [registryImage] else []).
End supervisor.
