(* ===== verification/SupervisorSpec.v ===== *)
(** * Package supervisor: what [joinContainers] guarantees

    Docker as the supervisor relies on it: a view of the containers of the host
    and the laws of the calls.  [joinContainers_converges] is the contract of the
    package: afterwards the running system containers are the desired ones. *)

From S2P Require Import Prelude GoStrings Join Blueprint DbRows Db Backoff Providers GoNet Ip Docker Supervisor.

(** ** Docker *)

(** A container of the host; [vc_Env] and [vc_Labels] include those of the image,
    [vc_Files] are the uploads: directory and archive. *)
Record vContainer := mk_vContainer {
  vc_Name : string;
  vc_Image : string;
  vc_Labels : gmap string string;
  vc_Env : list string;
  vc_Path : string;
  vc_Args : list string;
  vc_Host : HostConfig;
  vc_Files : list (string * tarball);
  vc_Running : bool;
}.
#[export] Instance HostMount_eq_dec : EqDecision HostMount.
Proof. solve_decision. Defined.
#[export] Instance HostConfig_eq_dec : EqDecision HostConfig.
Proof. solve_decision. Defined.
#[export] Instance tarball_eq_dec : EqDecision tarball.
Proof. solve_decision. Defined.
#[export] Instance vContainer_eq_dec : EqDecision vContainer.
Proof. solve_decision. Defined.
Definition set_vcName (name : string) (vc : vContainer) : vContainer :=
  mk_vContainer name (vc_Image vc) (vc_Labels vc) (vc_Env vc) (vc_Path vc) (vc_Args vc) (vc_Host vc) (vc_Files vc) (vc_Running vc).
Definition set_vcFiles (files : list (string * tarball)) (vc : vContainer) : vContainer :=
  mk_vContainer (vc_Name vc) (vc_Image vc) (vc_Labels vc) (vc_Env vc) (vc_Path vc) (vc_Args vc) (vc_Host vc) files (vc_Running vc).
Definition set_vcRunning (b : bool) (vc : vContainer) : vContainer :=
  mk_vContainer (vc_Name vc) (vc_Image vc) (vc_Labels vc) (vc_Env vc) (vc_Path vc) (vc_Args vc) (vc_Host vc) (vc_Files vc) b.

(** The names that Docker accepts; read as a regular expression, such a name
    matches itself. *)
Definition nameStart (c : ascii) : bool :=
  let n := N_of_ascii c in
  (bool_decide (97 ≤ n ≤ 122) || bool_decide (65 ≤ n ≤ 90) || bool_decide (48 ≤ n ≤ 57))%N.
Definition nameChar (c : ascii) : bool :=
  nameStart c || bool_decide (c = "_"%char) || bool_decide (c = "."%char) || bool_decide (c = "-"%char).
Fixpoint nameChars (s : string) : bool :=
  match s with "" => true | String c s => nameChar c && nameChars s end.
Definition validName (s : string) : bool :=
  match s with "" => false | String c s => nameStart c && nameChars s && bool_decide (s ≠ "") end.

(** The name of an environment variable in a [name=value] entry. *)
Definition envName (s : string) : string := match splitAt "=" s with Some (k, _) => k | None => s end.

Definition unusedName (v : gmap string vContainer) (name : string) : Prop := ∀ id vc, v !! id = Some vc → vc_Name vc ≠ name.

(** [vc] is a container made by [opts]: the labels and the environment are joined
    with those of the image, and the command follows the entry point, if the image
    has one. *)
Record createdBy (opts : CreateOptions) (vc : vContainer) : Prop := {
  cb_Name : vc_Name vc = co_Name opts;
  cb_Image : vc_Image vc = cfg_Image (co_Config opts);
  cb_Labels : cfg_Labels (co_Config opts) ⊆ vc_Labels vc;
  cb_Env : ∃ extra, vc_Env vc = cfg_Env (co_Config opts) ++ extra ∧
    ∀ x e, x ∈ extra → e ∈ cfg_Env (co_Config opts) → envName x ≠ envName e;
  cb_Args : cfg_Cmd (co_Config opts) = [] ∨ vc_Args vc = cfg_Cmd (co_Config opts) ∨
    vc_Path vc :: vc_Args vc = cfg_Cmd (co_Config opts);
  cb_Host : vc_Host vc = co_HostConfig opts;
  cb_Files : vc_Files vc = [];
  cb_Running : vc_Running vc = false;
}.

(** An inspection of the container [vc]. *)
Record inspects (id : string) (vc : vContainer) (c : Inspection) : Prop := {
  ins_ID : in_ID c = id;
  ins_Config : ∃ cfg, in_Config c = Some cfg ∧ cfg_Image cfg = vc_Image vc ∧ cfg_Labels cfg = vc_Labels vc ∧ cfg_Env cfg = vc_Env vc;
  ins_Path : in_Path c = vc_Path vc;
  ins_Args : in_Args c = vc_Args vc;
  ins_Running : in_Running c = vc_Running vc;
}.

Definition isSystem (vc : vContainer) : Prop := vc_Labels vc !! containerTypeKey = Some sysContainerVal.
#[export] Instance isSystem_dec vc : Decision (isSystem vc).
Proof. unfold isSystem. apply _. Defined.

Class DockerLaws (W : Type) `{DockerAPI W} `{Host W} := {
  dock : W → gmap string vContainer;
  ListSystem_ok : ∀ w, wp (ListContainers false systemFilter) w (λ r w', dock w' = dock w ∧
    ∃ ids, r = Val ids ∧ NoDup ids ∧
      ∀ id, id ∈ ids ↔ ∃ vc, dock w !! id = Some vc ∧ vc_Running vc = true ∧ isSystem vc);
  (** The containers whose name matches, at least those that have it. *)
  ListName_ok : ∀ name w, validName name →
    wp (ListContainers true {["name" := [name]]}) w (λ r w', dock w' = dock w ∧
      ∃ ids, r = Val ids ∧ NoDup ids ∧ (∀ id, id ∈ ids → is_Some (dock w !! id)) ∧
        ∀ id vc, dock w !! id = Some vc → vc_Name vc = name → id ∈ ids);
  InspectContainer_ok : ∀ id vc w, dock w !! id = Some vc →
    wp (InspectContainer id) w (λ r w', dock w' = dock w ∧ ∃ c, r = Val c ∧ inspects id vc c);
  RemoveContainer_ok : ∀ id w, is_Some (dock w !! id) →
    wp (RemoveContainer id) w (λ r w', r = Val () ∧ dock w' = delete id (dock w));
  RenameContainer_ok : ∀ id vc name w, dock w !! id = Some vc → validName name → unusedName (dock w) name →
    wp (dkc_RenameContainer id name) w (λ r w', r = Val () ∧ dock w' = <[id := set_vcName name vc]> (dock w));
  PullImage_ok : ∀ repo tag w, wp (PullImage repo tag) w (λ r w', r = Val () ∧ dock w' = dock w);
  CreateContainer_ok : ∀ opts w, validName (co_Name opts) → unusedName (dock w) (co_Name opts) →
    wp (CreateContainer opts) w (λ r w', ∃ id vc, r = Val id ∧ dock w !! id = None ∧ createdBy opts vc ∧
      dock w' = <[id := vc]> (dock w));
  UploadToContainer_ok : ∀ id vc tar dir w, dock w !! id = Some vc →
    wp (UploadToContainer id tar dir) w (λ r w', r = Val () ∧
      dock w' = <[id := set_vcFiles (vc_Files vc ++ [(dir, tar)]) vc]> (dock w));
  StartContainer_ok : ∀ id vc w, dock w !! id = Some vc →
    wp (StartContainer id (vc_Host vc)) w (λ r w', r = Val () ∧ dock w' = <[id := set_vcRunning true vc]> (dock w));
  (** A new UUID ends the name of no container. *)
  newUUID_ok : ∀ w, wp newUUID w (λ u w', dock w' = dock w ∧ u ≠ "" ∧ nameChars u ∧
    ∀ prefix, unusedName (dock w) (prefix +:+ u));
  (** The files of the host; reading them and running [ovs-vsctl] leaves Docker alone. *)
  hostFiles : W → gmap string string;
  readFile_ok : ∀ path w, wp (readFile path) w (λ r w', dock w' = dock w ∧
    match hostFiles w !! path with Some content => r = Val content | None => ∃ e, r = Err e end);
  execRun_ok : ∀ name args w, wp (execRun name args) w (λ _ w', dock w' = dock w);
}.

Lemma nameChars_app a b : nameChars (a +:+ b) = nameChars a && nameChars b.
Proof. induction a as [|c a IH]; [done|]. simpl. rewrite <-andb_assoc. by f_equal. Qed.

Lemma validName_app a b : validName a → nameChars b → validName (a +:+ b).
Proof.
  destruct a as [|c a]; [done|]. simpl. rewrite !andb_True, nameChars_app, !bool_decide_spec, andb_True.
  intros [[? ?] Hne] ?. split_and!; [done..|]. by destruct a.
Qed.

Lemma app_longer a b : b ≠ "" → a +:+ b ≠ a.
Proof. intros Hb Heq. induction a as [|c a IH]; [done|]. apply IH. by injection Heq. Qed.

(** ** The environment *)

Lemma splitAt_app k v : lacks "=" k → splitAt "=" (k +:+ "=" +:+ v) = Some (k, v).
Proof.
  induction k as [|c k IH]; [done|]. intros Hl. change (String c k +:+ ?x) with (String c (k +:+ x)). simpl.
  destruct Hl as [Hc Hk]. case_bool as [Heq|]; [by destruct Hc|]. by rewrite IH.
Qed.

Definition envStep (env : gmap string string) (value : string) : gmap string string :=
  match splitAt "=" value with Some (k, v) => <[k := v]> env | None => env end.

Lemma foldl_envStep_other k l env :
  Forall (λ x, envName x ≠ k) l → foldl envStep env l !! k = env !! k.
Proof.
  revert env. induction l as [|x l IH]; intros env Hl; [done|]. inversion_clear Hl as [|? ? Hx Hl']. simpl. rewrite IH by done.
  unfold envStep, envName in *. destruct (splitAt "=" x) as [[k' v]|]; [|done]. by apply lookup_insert_ne.
Qed.

Lemma parseEnv_lookup (l : list (string * string)) extra k v :
  Forall (lacks "=") l.*1 → NoDup l.*1 → (k, v) ∈ l →
  (∀ x e, x ∈ extra → e ∈ (λ kv, kv.1 +:+ "=" +:+ kv.2) <$> l → envName x ≠ envName e) →
  parseEnv (((λ kv, kv.1 +:+ "=" +:+ kv.2) <$> l) ++ extra) !! k = Some v.
Proof.
  intros Hl Hnd Hin Hex. change (foldl envStep ∅ (((λ kv, kv.1 +:+ "=" +:+ kv.2) <$> l) ++ extra) !! k = Some v).
  assert (∀ kv, kv ∈ l → envName (kv.1 +:+ "=" +:+ kv.2) = kv.1) as Hname.
  { intros kv Hkv. unfold envName. rewrite splitAt_app; [done|]. rewrite Forall_forall in Hl. apply Hl. by apply list_elem_of_fmap_2. }
  rewrite foldl_app, foldl_envStep_other.
  2:{ apply Forall_forall. intros x Hx. pose proof (Hname _ Hin) as Hk. cbn [fst snd] in Hk. intros Hxk. 
      apply (Hex x (k +:+ "=" +:+ v) Hx); [|congruence]. apply (list_elem_of_fmap_2 (λ kv, kv.1 +:+ "=" +:+ kv.2) _ _ Hin). }
  clear Hex. generalize (∅ : gmap string string). revert Hl Hnd Hname. induction l as [|kv l IH]; intros Hl Hnd Hname env; [by apply not_elem_of_nil in Hin|].
  csimpl in *. apply NoDup_cons in Hnd as [Hni Hnd]. inversion_clear Hl as [|? ? Hkv Hl'].
  apply elem_of_cons in Hin as [<-|Hin].
  - rewrite foldl_envStep_other.
    + unfold envStep. rewrite splitAt_app by done. by rewrite lookup_insert_eq.
    + apply Forall_forall. intros x (kv & -> & Hkv')%list_elem_of_fmap. rewrite Hname by (by right).
      intros <-. apply Hni. apply list_elem_of_fmap. by exists kv.
  - apply IH; [done..|]. intros kv' ?. apply Hname. by right.
Qed.

(** ** Which containers fit *)

Section supervise.
Context {W : Type} `{DockerLaws W} `{MapOrder}.
Context (sha1hex : string → string).
Implicit Types w : W.

(** [vc] is what [ro] asks for, in the attributes that may change. *)
Record fits (ro : RunOptions) (vc : vContainer) : Prop := {
  ft_Image : vc_Image vc = ro_Image ro;
  ft_Files : default "" (vc_Labels vc !! filesKey) = sha1hex (MapAsString 0 (ro_FilepathToContent ro));
  ft_Env : ∀ k v, ro_Env ro !! k = Some v → default "" (parseEnv (vc_Env vc) !! k) = v;
  ft_Args : ro_Args ro = [] ∨ ro_Args ro = vc_Args vc ∨ ro_Args ro = vc_Path vc :: vc_Args vc;
}.

(** What [dk_Get] answers for the container. *)
Record shows (id : string) (vc : vContainer) (dkc : dkContainer) : Prop := {
  sh_ID : dk_ID dkc = id;
  sh_Image : dk_Image dkc = vc_Image vc;
  sh_Labels : dk_Labels dkc = vc_Labels vc;
  sh_Env : dk_Env dkc = parseEnv (vc_Env vc);
  sh_Path : dk_Path dkc = vc_Path vc;
  sh_Args : dk_Args dkc = vc_Args vc;
  sh_Running : dk_Running dkc = vc_Running vc;
}.

Lemma SliceEq_true x y : SliceEq x y = true ↔ x = y.
Proof. unfold SliceEq. by rewrite bool_decide_eq_true, SliceCmp_eq. Qed.

Definition scoreOf (n : nat) (ro : RunOptions) (dkc : dkContainer) : Z :=
  match syncContainersScore sha1hex n ro dkc with Ok z => z | Panic _ => -1 end.

Lemma score_ok n ro dkc : syncContainersScore sha1hex n ro dkc = Ok (scoreOf n ro dkc).
Proof. unfold scoreOf, syncContainersScore. by repeat case_match. Qed.

Lemma score_fits n ro id vc dkc : shows id vc dkc → (0 ≤ scoreOf n ro dkc)%Z ↔ fits ro vc.
Proof.
  intros Hs. unfold scoreOf, syncContainersScore, filesHash.
  rewrite (MapAsString_deterministic _ _ n 0), (sh_Image _ _ _ Hs), (sh_Labels _ _ _ Hs), (sh_Env _ _ _ Hs), (sh_Path _ _ _ Hs), (sh_Args _ _ _ Hs).
  set (l := _ || bool_decide (default _ _ ≠ _)). destruct l eqn:Hl; subst l.
  { split; [lia|]. intros []. exfalso. rewrite orb_true_iff, !bool_decide_eq_true in Hl. destruct Hl; congruence. }
  rewrite orb_false_iff, !bool_decide_eq_false in Hl. destruct Hl as [Hi%dec_stable Hf%dec_stable].
  destruct (existsb _ _) eqn:He.
  { split; [lia|]. intros []. exfalso. apply existsb_exists in He as ([k v] & Hin & Hne%bool_decide_eq_true).
    apply list_elem_of_In, elem_of_range in Hin. by apply Hne, ft_Env0. }
  assert (∀ k v, ro_Env ro !! k = Some v → default "" (parseEnv (vc_Env vc) !! k) = v) as Henv.
  { intros k v Hkv. apply dec_stable. intros Hne. rewrite <-not_true_iff_false in He. apply He, existsb_exists. exists (k, v).
    split; [by apply list_elem_of_In, elem_of_range|by apply bool_decide_eq_true]. }
  destruct (_ && _ && _) eqn:Ha.
  - split; [lia|]. intros []. exfalso. rewrite !andb_true_iff, !negb_true_iff, bool_decide_eq_true, <-!not_true_iff_false, !SliceEq_true in Ha.
    destruct Ha as [[Hn ?] ?], ft_Args0 as [Hz|[?|?]]; [|done..]. by rewrite Hz in Hn.
  - split; [intros _|lia]. constructor; [done..|].
    rewrite !andb_false_iff, !negb_false_iff, bool_decide_eq_false, !SliceEq_true in Ha.
    destruct Ha as [[Hn%dec_stable|?]|?]; [left; by apply nil_length_inv|tauto..].
Qed.

(** ** Listing *)

Lemma wp_dk_Get id vc c w Q :
  dock w !! id = Some vc → (∀ dkc w', dock w' = dock w → shows id vc dkc → Q (Val dkc) (c, w')) →
  wp (dk_Get id) (c, w) Q.
Proof.
  intros Hid HQ. unfold dk_Get. apply wp_try, wp_onSnd. cbn [fst snd]. wp_use (InspectContainer_ok (W := W)); [done|].
  intros r w' (Hw & ins & -> & [HID (cfg & Hcfg & Hi & Hl & He) Hp Ha Hr]). wp_bind. rewrite Hcfg. eapply wp_lift; [done|]. wp_ret.
  apply HQ; [done|]. by constructor; cbn; [| | |rewrite He|..].
Qed.

Lemma wp_getAll ids c w Q :
  (∀ id, id ∈ ids → is_Some (dock w !! id)) →
  (∀ l w', dock w' = dock w → Forall2 (λ id dkc, ∃ vc, dock w !! id = Some vc ∧ shows id vc dkc) ids l → Q l (c, w')) →
  wp (getAll ids) (c, w) Q.
Proof.
  revert w Q. induction ids as [|id ids IH]; intros w Q Hin HQ; simpl; [wp_ret; by apply HQ|].
  destruct (Hin id) as [vc Hvc]; [by left|]. wp_bind. eapply wp_dk_Get; [done|]. intros dkc w1 Hw1 Hs. wp_bind.
  apply IH. { intros id' ?. rewrite Hw1. apply Hin. by right. }
  intros l w2 Hw2 Hl. wp_ret. apply HQ; [congruence|]. rewrite Hw1 in Hl. constructor; [by exists vc|done].
Qed.

(** ** Booting a container *)

Definition uniqueNames (v : gmap string vContainer) : Prop :=
  ∀ id id' vc vc', v !! id = Some vc → v !! id' = Some vc' → vc_Name vc = vc_Name vc' → id = id'.

(** From [v] to [v'] stopped containers may have been renamed, and nothing else. *)
Record onlyRenamed (v v' : gmap string vContainer) : Prop := {
  or_running : ∀ id vc, v !! id = Some vc → vc_Running vc = true → v' !! id = Some vc;
  or_stopped : ∀ id vc, v !! id = Some vc → vc_Running vc = false → ∃ name, v' !! id = Some (set_vcName name vc);
  or_dom : ∀ id, is_Some (v' !! id) → is_Some (v !! id);
}.

Lemma set_vcName_same vc : vc = set_vcName (vc_Name vc) vc.
Proof. by destruct vc. Qed.

Lemma onlyRenamed_refl v v' : v' = v → onlyRenamed v v'.
Proof. intros ->. split; [done| |done]. intros id vc Hv _. exists (vc_Name vc). by rewrite <-set_vcName_same. Qed.

Lemma onlyRenamed_trans v1 v2 v3 : onlyRenamed v1 v2 → onlyRenamed v2 v3 → onlyRenamed v1 v3.
Proof.
  intros [R1 S1 D1] [R2 S2 D2]. split; [by eauto| |by eauto].
  intros id vc Hv Hr. destruct (S1 _ _ Hv Hr) as [nm Hv2], (S2 _ _ Hv2 Hr) as [nm' Hv3]. by exists nm'.
Qed.

Lemma onlyRenamed_status v v' id vc : onlyRenamed v v' → v !! id = Some vc →
  ∃ vc', v' !! id = Some vc' ∧ vc_Running vc' = vc_Running vc.
Proof.
  intros [R S _] Hv. destruct (vc_Running vc) eqn:Hr; [by exists vc; auto|].
  destruct (S _ _ Hv Hr) as [nm Hv']. by eexists.
Qed.

Lemma onlyRenamed_rename v id vc name :
  v !! id = Some vc → vc_Running vc = false → onlyRenamed v (<[id := set_vcName name vc]> v).
Proof.
  intros Hv Hr. split.
  - intros id' vc' Hv' Hr'. rewrite lookup_insert_ne by congruence. done.
  - intros id' vc' Hv' Hr'. destruct (decide (id = id')) as [<-|Hne].
    + exists name. rewrite lookup_insert_eq. congruence.
    + exists (vc_Name vc'). by rewrite lookup_insert_ne, <-set_vcName_same by done.
  - intros id' [vc' Hv']. apply lookup_insert_Some in Hv' as [[<- _]|[_ ?]]; by eexists.
Qed.

Lemma uniqueNames_insert v id vc :
  uniqueNames v → (∀ id' vc', v !! id' = Some vc' → id' ≠ id → vc_Name vc' ≠ vc_Name vc) → uniqueNames (<[id := vc]> v).
Proof.
  intros Hu Hn i j x y [[<- <-]|[Hi Hx]]%lookup_insert_Some [[<- <-]|[Hj Hy]]%lookup_insert_Some Hxy; [done| | |by eapply Hu].
  - by destruct (Hn _ _ Hy (not_eq_sym Hj)).
  - by destruct (Hn _ _ Hx (not_eq_sym Hi)).
Qed.

(** The status that the listing shows is the one of the container. *)
Definition statusShown (v : gmap string vContainer) (dkc : dkContainer) : Prop :=
  ∃ vc, v !! dk_ID dkc = Some vc ∧ vc_Running vc = dk_Running dkc.

Lemma wp_renameStopped name l c w Q :
  validName name → uniqueNames (dock w) → Forall (statusShown (dock w)) l →
  (∀ w', onlyRenamed (dock w) (dock w') → uniqueNames (dock w') →
     (∀ id vc, dock w' !! id = Some vc → vc_Name vc = name →
        dock w !! id = Some vc ∧ ∀ dkc, dkc ∈ l → dk_ID dkc = id → dk_Running dkc = true) → Q () (c, w')) →
  wp (renameStopped name l) (c, w) Q.
Proof.
  intros Hname. revert w Q. induction l as [|dkc l IH]; intros w Q Hu Hl HQ; simpl.
  { wp_ret. apply HQ; [by apply onlyRenamed_refl|done|]. intros id vc Hid _. split; [done|]. by intros dkc ?%not_elem_of_nil. }
  inversion_clear Hl as [|? ? (vc & Hvc & Hr) Hl']. wp_bind. destruct (dk_Running dkc) eqn:Hrun.
  { wp_ret. apply IH; [done..|]. intros w' Hor Hu' Hno. apply HQ; [done..|]. intros id vc' Hid Hn. destruct (Hno _ _ Hid Hn) as [? Hl2].
    split; [done|]. intros dkc' [->|?]%elem_of_cons Heq; [done|by apply Hl2]. }
  wp_bind. apply wp_onSnd. cbn [fst snd]. wp_use (newUUID_ok (W := W)). intros uuid w1 (Hw1 & Hne & Hch & Hfree).
  set (new := name +:+ "_stopped_" +:+ uuid). wp_bind. unfold RenameContainer. apply wp_onSnd. cbn [fst snd].
  assert (unusedName (dock w) new) as Hunused.
  { unfold new. rewrite <-app_assoc_s. apply Hfree. }
  wp_use (RenameContainer_ok (W := W)); [by rewrite Hw1| |by rewrite Hw1|].
  { apply validName_app; [done|]. rewrite nameChars_app. by apply andb_True. }
  intros r w2 [-> Hw2]. rewrite Hw1 in Hw2. wp_ret.
  pose proof (onlyRenamed_rename _ _ _ new Hvc Hr) as Hor. rewrite <-Hw2 in Hor. apply IH.
  - rewrite Hw2. apply uniqueNames_insert; [done|]. intros id' vc' Hv' _. by apply (Hunused id').
  - eapply Forall_impl; [exact Hl'|]. intros dkc' (vc' & Hv' & Hr'). destruct (onlyRenamed_status _ _ _ _ Hor Hv') as (vc2 & Hv2 & Hr2).
    exists vc2. split; [done|congruence].
  - intros w' Hor' Hu' Hno. apply HQ; [by eapply onlyRenamed_trans|done|].
    intros id vc' Hid Hn. destruct (Hno _ _ Hid Hn) as [Hid2 Hl2]. rewrite Hw2 in Hid2.
    apply lookup_insert_Some in Hid2 as [[_ <-]|[Hne' Hid2]].
    { exfalso. revert Hn. simpl. by apply app_longer. }
    split; [done|]. intros dkc' [->|?]%elem_of_cons Heq; [done|by apply Hl2].
Qed.

(** The uploads of the files. *)
Definition uploads (files : list (string * string)) : list (string * tarball) :=
  (λ pc, (if isAbs pc.1 then "/" else ".", ToTar (pathRel pc.1) 420 pc.2)) <$> files.

Lemma wp_uploadFiles id files vc c w Q :
  dock w !! id = Some vc →
  (∀ w', dock w' = <[id := set_vcFiles (vc_Files vc ++ uploads files) vc]> (dock w) → Q (Val ()) (c, w')) →
  wp (uploadFiles id files) (c, w) Q.
Proof.
  revert vc w Q. induction files as [|[path content] files IH]; intros vc w Q Hvc HQ; simpl.
  { wp_ret. apply HQ. rewrite app_nil_r. destruct vc. by rewrite insert_id. }
  apply wp_try, wp_onSnd. cbn [fst snd]. wp_use (UploadToContainer_ok (W := W)); [done|]. intros r w1 [-> Hw1].
  eapply IH; [rewrite Hw1; apply lookup_insert_eq|]. intros w2 Hw2. apply HQ. rewrite Hw2, Hw1, insert_insert_eq.
  simpl. by rewrite <-app_assoc.
Qed.

(** [vc] is the running container that [Run] makes of the options. *)
Record ranBy (n : nat) (ro : RunOptions) (vc : vContainer) : Prop := {
  rb_Name : vc_Name vc = ro_Name ro;
  rb_Image : vc_Image vc = ro_Image ro;
  rb_Labels : ro_Labels ro ⊆ vc_Labels vc;
  rb_Env : ro_Env ro ⊆ parseEnv (vc_Env vc);
  rb_Args : ro_Args ro = [] ∨ ro_Args ro = vc_Args vc ∨ ro_Args ro = vc_Path vc :: vc_Args vc;
  rb_Host : vc_Host vc = hostConfigOf ro;
  rb_Files : vc_Files vc = uploads (range n (ro_FilepathToContent ro));
  rb_Running : vc_Running vc = true;
}.

Lemma wp_Pull image c w Q :
  (∀ c' w', dock w' = dock w → Q (Val ()) (c', w')) → wp (Pull image) (c, w) Q.
Proof.
  intros HQ. unfold Pull. destruct (ParseRepositoryTag image) as [repo tag]. set (tag' := if bool_decide _ then _ else _). wp_bind.
  assert (∀ Q' : option Z → _ → Prop, (∀ e c', Q' e (c', w)) → wp (getCacheEntry repo tag') (c, w) Q') as Hcache.
  { intros Q' HQ'. unfold getCacheEntry. wp_bind. wp_ret. destruct (_ !! _); [by wp_ret|]. wp_bind. wp_ret. by wp_ret. }
  apply Hcache. intros e c'. wp_bind. wp_ret. destruct (match e with Some _ => _ | None => _ end); [wp_ret; by apply HQ|].
  wp_bind. apply wp_onSnd. cbn [fst snd]. wp_use (PullImage_ok (W := W)). intros r w' [-> Hw']. by apply HQ.
Qed.

Lemma wp_dk_Run n ro c w Q :
  validName (ro_Name ro) → unusedName (dock w) (ro_Name ro) → (∀ k, is_Some (ro_Env ro !! k) → lacks "=" k) →
  (∀ id vc c' w', dock w !! id = None → ranBy n ro vc → dock w' = <[id := vc]> (dock w) → Q (Val id) (c', w')) →
  wp (dk_Run n ro) (c, w) Q.
Proof.
  intros Hv Hun Henv HQ. unfold dk_Run, create. apply wp_try, wp_try, wp_Pull. intros c1 w1 Hw1.
  apply wp_try, wp_onSnd. cbn [fst snd]. wp_use (CreateContainer_ok (W := W)); [done|by rewrite Hw1|].
  intros r w2 (id & vc & -> & Hid & Hcb & Hw2). rewrite Hw1 in Hid, Hw2. apply wp_try.
  eapply wp_uploadFiles; [rewrite Hw2; apply lookup_insert_eq|]. intros w3 Hw3. wp_ret. wp_bind. apply wp_onSnd. cbn [fst snd].
  rewrite Hw2, insert_insert_eq in Hw3. destruct Hcb as [Hn Hi Hl (extra & He & Hex) Ha Hh Hf Hr]. cbn in *.
  set (vc2 := set_vcFiles _ _) in Hw3. replace (hostConfigOf ro) with (vc_Host vc2) by (by rewrite <-Hh).
  wp_use (StartContainer_ok (W := W)); [rewrite Hw3; apply lookup_insert_eq|]. intros r w4 [-> Hw4]. rewrite Hw3, insert_insert_eq in Hw4.
  wp_ret. eapply HQ; [done| |done]. subst vc2. constructor; cbn; [done..| | |done| |done].
  - apply map_subseteq_spec. intros k v Hkv. rewrite He.
    apply parseEnv_lookup; [|apply NoDup_range_fst|by apply elem_of_range|done].
    apply Forall_forall. intros k' ([k1 v1] & -> & Hin%elem_of_range)%list_elem_of_fmap. apply Henv. by exists v1.
  - destruct Ha as [?|[?|?]]; [tauto|right; by left|by do 2 right].
  - by rewrite Hf.
Qed.

(** Options that can be booted. *)
Record bootable (ro : RunOptions) : Prop := {
  bt_Name : validName (ro_Name ro);
  bt_Env : ∀ k, is_Some (ro_Env ro !! k) → lacks "=" k;
}.

Definition notRunning (v : gmap string vContainer) (name : string) : Prop :=
  ∀ id vc, v !! id = Some vc → vc_Running vc = true → vc_Name vc ≠ name.

Lemma wp_bootContainer n ro c w Q :
  bootable ro → uniqueNames (dock w) → notRunning (dock w) (ro_Name ro) →
  (∀ id vc v1 c' w', onlyRenamed (dock w) v1 → v1 !! id = None → ranBy n (labelled sha1hex n ro) vc →
     dock w' = <[id := vc]> v1 → uniqueNames (dock w') → Q () (c', w')) →
  wp (bootContainer sha1hex n ro) (c, w) Q.
Proof.
  intros [Hname Henv] Hu Hno HQ. unfold bootContainer, dk_List. cbn zeta. wp_bind. apply wp_try, wp_onSnd. cbn [fst snd].
  wp_use (ListName_ok (W := W)); [done|]. intros r w1 (Hw1 & ids & -> & _ & Hin & Hall). wp_bind.
  apply wp_getAll; [by rewrite Hw1|]. intros l w2 Hw2 Hl. wp_ret. rewrite Hw1 in Hw2, Hl. wp_bind.
  apply wp_renameStopped; [done|by rewrite Hw2| |].
  { rewrite Hw2. apply Forall_forall. intros dkc [i Hi]%list_elem_of_lookup.
    destruct (Forall2_lookup_r _ _ _ _ _ Hl Hi) as (id & _ & vc & Hvc & Hs). exists vc. rewrite (sh_ID _ _ _ Hs). split; [done|]. by destruct Hs. }
  rewrite Hw2. intros w3 Hor Hu3 Hnm. wp_bind.
  assert (unusedName (dock w3) (ro_Name ro)) as Hun.
  { intros id vc Hid Hn. destruct (Hnm _ _ Hid Hn) as [Hid0 Hst]. destruct (list_elem_of_lookup_1 _ _ (Hall _ _ Hid0 Hn)) as [i Hi].
    destruct (Forall2_lookup_l _ _ _ _ _ Hl Hi) as (dkc & Hdkc & vc' & Hvc' & Hs).
    eapply Hno; [exact Hid0| |exact Hn]. assert (vc' = vc) as -> by congruence. rewrite <-(sh_Running _ _ _ Hs).
    apply Hst; [by eapply list_elem_of_lookup_2|by apply Hs]. }
  apply wp_dk_Run; [done..|]. intros id vc c' w' Hid Hrb Hw'. wp_ret. eapply HQ; [done..|].
  rewrite Hw'. apply uniqueNames_insert; [done|]. intros id' vc' Hv' _. rewrite (rb_Name _ _ _ Hrb). by apply (Hun id').
Qed.

(** From [v] to [v'] the containers [l] have been booted. *)
Record booted (n : nat) (l : list RunOptions) (v v' : gmap string vContainer) : Prop := {
  bd_running : ∀ id vc, v !! id = Some vc → vc_Running vc = true → v' !! id = Some vc;
  bd_stopped : ∀ id vc, v !! id = Some vc → vc_Running vc = false → ∃ name, v' !! id = Some (set_vcName name vc);
  bd_new : ∀ id vc, v' !! id = Some vc → v !! id = None → ∃ ro, ro ∈ l ∧ ranBy n (labelled sha1hex n ro) vc;
  bd_all : ∀ ro, ro ∈ l → ∃ id vc, v !! id = None ∧ v' !! id = Some vc ∧ ranBy n (labelled sha1hex n ro) vc;
  bd_names : uniqueNames v';
}.

Lemma booted_cons n ro l v v1 id vc v' :
  onlyRenamed v v1 → v1 !! id = None → ranBy n (labelled sha1hex n ro) vc → booted n l (<[id := vc]> v1) v' → booted n (ro :: l) v v'.
Proof.
  intros [OR OS OD] Hid Hrb [BR BS BN BA BU].
  assert (∀ id', is_Some (v !! id') → id' ≠ id) as Hne.
  { intros id' [vc' Hv'] ->. destruct (vc_Running vc') eqn:Hr; [by rewrite (OR _ _ Hv' Hr) in Hid|].
    destruct (OS _ _ Hv' Hr) as [? Hx]. by rewrite Hx in Hid. }
  assert (v !! id = None) as Hidv. { apply eq_None_not_Some. intros Hs. by apply (Hne id). }
  split; [| | | |done].
  - intros id' vc' Hv' Hr. apply BR; [|done]. rewrite lookup_insert_ne by (apply not_eq_sym, Hne; by eexists). by apply OR.
  - intros id' vc' Hv' Hr. destruct (OS _ _ Hv' Hr) as [nm Hv1].
    destruct (BS id' (set_vcName nm vc')) as [nm' Hx]; [|done|by exists nm'].
    by rewrite lookup_insert_ne by (apply not_eq_sym, Hne; by eexists).
  - intros id' vc' Hv' Hnone. destruct (decide (id' = id)) as [->|Hni].
    + rewrite (BR id vc) in Hv' by (apply lookup_insert_eq || apply Hrb). simplify_eq. exists ro. split; [by left|done].
    + destruct (BN id' vc' Hv') as (ro' & Hin & Hrb'); [|exists ro'; split; [by right|done]].
      rewrite lookup_insert_ne by done. apply eq_None_not_Some. intros Hs%OD. rewrite Hnone in Hs. by apply is_Some_None in Hs.
  - intros ro' [->|Hin]%elem_of_cons.
    + exists id, vc. split_and!; [done| |done]. apply BR; [apply lookup_insert_eq|apply Hrb].
    + destruct (BA ro' Hin) as (id' & vc' & Hn' & Hv' & Hrb'). exists id', vc'. split_and!; [|done..].
      apply eq_None_not_Some. intros [x Hx]. assert (id' ≠ id) by (apply Hne; by eexists). rewrite lookup_insert_ne in Hn' by done.
      destruct (vc_Running x) eqn:Hr; [by rewrite (OR _ _ Hx Hr) in Hn'|]. destruct (OS _ _ Hx Hr) as [? Hy]. by rewrite Hy in Hn'.
Qed.

Lemma wp_bootContainers n l c w Q :
  Forall bootable l → NoDup (ro_Name <$> l) → uniqueNames (dock w) → (∀ ro, ro ∈ l → notRunning (dock w) (ro_Name ro)) →
  (∀ c' w', booted n l (dock w) (dock w') → Q () (c', w')) →
  wp (bootContainers sha1hex n l) (c, w) Q.
Proof.
  revert c w Q. induction l as [|ro l IH]; intros c w Q Hb Hnd Hu Hno HQ; csimpl in *.
  { apply wp_ret, HQ. split; [done| | |by intros ? ?%not_elem_of_nil|done].
    - intros id vc Hv _. exists (vc_Name vc). by rewrite <-set_vcName_same.
    - intros id vc Hv Hn. congruence. }
  inversion_clear Hb. apply NoDup_cons in Hnd as [Hni Hnd]. wp_bind. apply wp_bootContainer; [done|done|apply Hno; by left|].
  intros id vc v1 c1 w1 Hor Hid Hrb Hw1 Hu1. apply IH; [done..| |].
  - intros ro' Hin id' vc' Hid' Hr'. rewrite Hw1 in Hid'. apply lookup_insert_Some in Hid' as [[_ <-]|[_ Hid']].
    + rewrite (rb_Name _ _ _ Hrb). simpl. intros Heq. apply Hni. apply list_elem_of_fmap. by exists ro'.
    + destruct (or_dom _ _ Hor id') as [x Hx]; [by eexists|]. destruct (onlyRenamed_status _ _ _ _ Hor Hx) as (y & Hy & Hry).
      assert (y = vc') as -> by congruence. rewrite (or_running _ _ Hor _ _ Hx) in Hid' by congruence. injection Hid' as ->.
      by apply (Hno ro' (list_elem_of_further _ _ _ Hin) id').
  - intros c' w' Hbd. apply HQ. rewrite Hw1 in Hbd. by eapply booted_cons.
Qed.

Lemma labelled_runs n ro vc : ranBy n (labelled sha1hex n ro) vc → isSystem vc ∧ fits ro vc.
Proof.
  intros [_ Hi Hl He Ha _ _ _]. cbn in *. rewrite map_subseteq_spec in Hl. split.
  - apply Hl. rewrite lookup_insert_ne by done. apply lookup_insert_eq.
  - constructor; [done| |by intros k v Hkv; rewrite map_subseteq_spec in He; rewrite (He _ _ Hkv)|done].
    rewrite (Hl filesKey (filesHash sha1hex n (ro_FilepathToContent ro))) by apply lookup_insert_eq.
    unfold filesHash. cbn. by rewrite (MapAsString_deterministic _ _ n 0).
Qed.

(** ** Joining *)

Lemma wp_stopContainers l c w Q :
  NoDup (dk_ID <$> l) → (∀ dkc, dkc ∈ l → is_Some (dock w !! dk_ID dkc)) →
  (∀ w', (∀ id, dock w' !! id = if decide (id ∈ dk_ID <$> l) then None else dock w !! id) → Q () (c, w')) →
  wp (stopContainers l) (c, w) Q.
Proof.
  revert w Q. induction l as [|dkc l IH]; intros w Q Hnd Hin HQ; csimpl in *; [by apply wp_ret, HQ|].
  apply NoDup_cons in Hnd as [Hni Hnd]. wp_bind. unfold RemoveID. apply wp_onSnd. cbn [fst snd].
  wp_use (RemoveContainer_ok (W := W)); [apply Hin; by left|]. intros r w1 [-> Hw1]. apply IH; [done| |].
  - intros d Hd. rewrite Hw1, lookup_delete_ne; [apply Hin; by right|]. intros Heq. apply Hni. rewrite Heq. by apply list_elem_of_fmap_2.
  - intros w2 Hw2. apply HQ. intros id. rewrite Hw2, Hw1. destruct (decide (id ∈ dk_ID <$> l)) as [?|Hn].
    + by rewrite decide_True by (by right).
    + destruct (decide (id = dk_ID dkc)) as [->|Hne].
      * rewrite decide_True by left. apply lookup_delete_eq.
      * rewrite decide_False by (by apply not_elem_of_cons). by apply lookup_delete_ne.
Qed.

(** What the host is like, for the options [D] that may be desired: names are
    unique, the running containers with a name of [D] are system containers, and a
    running system container that fits options of [D] has their name. *)
Record hostOk (D : RunOptions → Prop) (v : gmap string vContainer) : Prop := {
  ho_names : uniqueNames v;
  ho_system : ∀ id vc ro, v !! id = Some vc → vc_Running vc = true → D ro → vc_Name vc = ro_Name ro → isSystem vc;
  ho_fits : ∀ id vc ro, v !! id = Some vc → vc_Running vc = true → isSystem vc → D ro → fits ro vc → vc_Name vc = ro_Name ro;
}.

(** The contract, from the containers [v] to the containers [v']. *)
Record supervised (n : nat) (desired : list RunOptions) (v v' : gmap string vContainer) : Prop := {
  sv_all : ∀ ro, ro ∈ desired →
    ∃ id vc, v' !! id = Some vc ∧ vc_Running vc = true ∧ isSystem vc ∧ vc_Name vc = ro_Name ro ∧ fits ro vc;
  sv_only : ∀ id vc, v' !! id = Some vc → vc_Running vc = true → isSystem vc →
    ∃ ro, ro ∈ desired ∧ vc_Name vc = ro_Name ro ∧ fits ro vc;
  sv_names : uniqueNames v';
  sv_kept : ∀ id vc, v !! id = Some vc → vc_Running vc = true →
    (isSystem vc → ∃ ro, ro ∈ desired ∧ fits ro vc) → v' !! id = Some vc;
  sv_stopped : ∀ id vc, v !! id = Some vc → vc_Running vc = false → ∃ name, v' !! id = Some (set_vcName name vc);
  sv_new : ∀ id vc, v' !! id = Some vc → vc_Running vc = true → v !! id ≠ Some vc →
    ∃ ro, ro ∈ desired ∧ ranBy n (labelled sha1hex n ro) vc;
}.

Section joined.
Context (n : nat) (desired : list RunOptions) (v v1 : gmap string vContainer) (actual : list dkContainer).
Context (pairs : list (RunOptions * dkContainer)) (ll : list RunOptions) (lr : list dkContainer).
Context (D : RunOptions → Prop) (HD : Forall D desired) (Hok : hostOk D v) (Hnames : NoDup (ro_Name <$> desired)).
Context (Hact : ∀ dkc, dkc ∈ actual → ∃ vc, v !! dk_ID dkc = Some vc ∧ shows (dk_ID dkc) vc dkc ∧ vc_Running vc = true ∧ isSystem vc).
Context (Hall : ∀ id vc, v !! id = Some vc → vc_Running vc = true → isSystem vc → ∃ dkc, dkc ∈ actual ∧ dk_ID dkc = id).
Context (Hids : NoDup (dk_ID <$> actual)).
Context (Hl : pairs.*1 ++ ll ≡ₚ desired) (Hr : pairs.*2 ++ lr ≡ₚ actual).
Context (Hpos : ∀ ro dkc, (ro, dkc) ∈ pairs → (0 ≤ scoreOf n ro dkc)%Z).
Context (Hbest : ∀ ro dkc, ro ∈ desired → dkc ∈ actual → (0 ≤ scoreOf n ro dkc)%Z →
  (∃ dkc', (ro, dkc') ∈ pairs) ∨ (∃ ro', (ro', dkc) ∈ pairs)).
Context (Hv1 : ∀ id, v1 !! id = if decide (id ∈ dk_ID <$> lr) then None else v !! id).

Lemma desired_D ro : ro ∈ desired → D ro.
Proof. rewrite Forall_forall in HD. apply HD. Qed.
#[local] Hint Resolve desired_D : core.

Lemma v1_sub id vc : v1 !! id = Some vc → v !! id = Some vc.
Proof. rewrite Hv1. by case_decide. Qed.

(** A pair: a running system container that is kept, with the name of its options. *)
Lemma pair_kept ro dkc : (ro, dkc) ∈ pairs → ro ∈ desired ∧ ∃ vc, v !! dk_ID dkc = Some vc ∧ v1 !! dk_ID dkc = Some vc ∧
  vc_Running vc = true ∧ isSystem vc ∧ vc_Name vc = ro_Name ro ∧ fits ro vc.
Proof.
  intros Hp. assert (ro ∈ desired) as Hro.
  { rewrite <-Hl. apply elem_of_app. left. apply list_elem_of_fmap. by exists (ro, dkc). }
  assert (dkc ∈ pairs.*2) as Hd by (apply list_elem_of_fmap; by exists (ro, dkc)).
  destruct (Hact dkc) as (vc & Hv & Hs & Hrun & Hsys). { rewrite <-Hr. apply elem_of_app. by left. }
  assert (fits ro vc) as Hf by (eapply score_fits; [exact Hs|by apply Hpos]).
  split; [done|]. exists vc. split_and!; [done| |done..|by eapply (ho_fits _ _ Hok); eauto|done].
  rewrite Hv1, decide_False; [done|]. intros (d & Heq & Hdr)%list_elem_of_fmap.
  rewrite <-Hr, fmap_app in Hids. apply NoDup_app in Hids as (_ & Hdis & _). apply (Hdis (dk_ID dkc)).
  - by apply list_elem_of_fmap_2.
  - rewrite Heq. by apply list_elem_of_fmap_2.
Qed.

Lemma paired_or_boot ro : ro ∈ desired → (∃ dkc, (ro, dkc) ∈ pairs) ∨ ro ∈ ll.
Proof.
  rewrite <-Hl, elem_of_app. intros [([ro' dkc] & -> & Hp)%list_elem_of_fmap|?]; [left; by exists dkc|by right].
Qed.

(** A running system container that is left is paired. *)
Lemma left_paired id vc : v1 !! id = Some vc → vc_Running vc = true → isSystem vc → ∃ ro dkc, (ro, dkc) ∈ pairs ∧ dk_ID dkc = id.
Proof.
  intros Hid Hrun Hsys. destruct (Hall id vc) as (dkc & Hin & <-); [by apply v1_sub|done..|].
  rewrite <-Hr in Hin. apply elem_of_app in Hin as [([ro d] & -> & Hp)%list_elem_of_fmap|Hin]; [by exists ro, d|].
  rewrite Hv1, decide_True in Hid; [done|]. by apply list_elem_of_fmap_2.
Qed.

Lemma boot_free ro : ro ∈ ll → notRunning v1 (ro_Name ro).
Proof.
  intros Hro id vc Hid Hrun Hn. assert (ro ∈ desired) as Hd by (rewrite <-Hl; apply elem_of_app; by right).
  destruct (left_paired id vc Hid Hrun) as (ro' & dkc & Hp & <-).
  { by eapply (ho_system _ _ Hok); [apply v1_sub|..|]; eauto. }
  destruct (pair_kept _ _ Hp) as (_ & vc' & _ & Hv' & _ & _ & Hn' & _). assert (vc' = vc) as -> by congruence.
  rewrite <-Hl, fmap_app in Hnames. apply NoDup_app in Hnames as (_ & Hdis & _). apply (Hdis (ro_Name ro)).
  - rewrite <-Hn, Hn'. apply list_elem_of_fmap. exists ro'. split; [done|]. apply list_elem_of_fmap. by exists (ro', dkc).
  - by apply list_elem_of_fmap_2.
Qed.

(** A container that fits is kept. *)
Lemma fitting_kept id vc ro : v !! id = Some vc → vc_Running vc = true → isSystem vc → ro ∈ desired → fits ro vc → v1 !! id = Some vc.
Proof.
  intros Hid Hrun Hsys Hro Hf. destruct (Hall id vc Hid Hrun Hsys) as (dkc & Hin & <-).
  destruct (Hact dkc Hin) as (vc' & Hv' & Hs & _). assert (vc' = vc) as -> by congruence.
  destruct (Hbest ro dkc Hro Hin) as [(d & Hp)|(ro' & Hp)]; [by eapply score_fits| |].
  - destruct (pair_kept _ _ Hp) as (_ & x & Hx & Hx1 & _ & _ & Hn & _).
    assert (dk_ID d = dk_ID dkc) as Heq.
    { eapply (ho_names _ _ Hok); [exact Hx|exact Hid|]. rewrite Hn. symmetry. by eapply (ho_fits _ _ Hok); eauto. }
    rewrite Heq in Hx, Hx1. congruence.
  - destruct (pair_kept _ _ Hp) as (_ & x & Hx & Hx1 & _). congruence.
Qed.

Lemma stopped_kept id vc : v !! id = Some vc → (isSystem vc → vc_Running vc = false) → v1 !! id = Some vc.
Proof.
  intros Hid Hns. rewrite Hv1, decide_False; [done|]. intros (d & -> & Hd)%list_elem_of_fmap.
  destruct (Hact d) as (x & Hx & _ & Hrun & Hsys). { rewrite <-Hr. apply elem_of_app. by right. }
  assert (x = vc) as -> by congruence. by rewrite Hns in Hrun.
Qed.

Lemma joined_supervised v' : booted n ll v1 v' → supervised n desired v v'.
Proof.
  intros [BR BS BN BA BU]. split; [| |done| | |].
  - intros ro Hro. destruct (paired_or_boot ro Hro) as [(dkc & Hp)|Hb].
    + destruct (pair_kept _ _ Hp) as (_ & vc & _ & Hv' & Hrun & Hsys & Hn & Hf). exists (dk_ID dkc), vc. split_and!; [by apply BR|done..].
    + destruct (BA ro Hb) as (id & vc & _ & Hid & Hrb). exists id, vc. destruct (labelled_runs _ _ _ Hrb).
      split_and!; [done|apply Hrb|done|apply Hrb|done].
  - intros id vc Hid Hrun Hsys. destruct (v1 !! id) as [x|] eqn:Hx.
    + destruct (vc_Running x) eqn:Hrx; [|destruct (BS _ _ Hx Hrx) as [nm Hy]; rewrite Hid in Hy; injection Hy as ->; simpl in Hrun; congruence].
      rewrite (BR _ _ Hx Hrx) in Hid. injection Hid as ->. destruct (left_paired id vc Hx Hrun Hsys) as (ro & dkc & Hp & <-).
      destruct (pair_kept _ _ Hp) as (Hro & y & _ & Hy & _ & _ & Hn & Hf). assert (y = vc) as -> by congruence. by exists ro.
    + destruct (BN id vc Hid Hx) as (ro & Hro & Hrb). destruct (labelled_runs _ _ _ Hrb). exists ro.
      split_and!; [rewrite <-Hl; apply elem_of_app; by right|apply Hrb|done].
  - intros id vc Hid Hrun Hf. apply BR; [|done]. destruct (decide (isSystem vc)) as [Hs|Hs].
    + destruct (Hf Hs) as (ro & Hro & Hfit). by eapply fitting_kept.
    + by apply stopped_kept.
  - intros id vc Hid Hrun. apply BS; [|done]. by apply stopped_kept.
  - intros id vc Hid Hrun Hne. destruct (v1 !! id) as [x|] eqn:Hx.
    + exfalso. apply Hne. destruct (vc_Running x) eqn:Hrx.
      * rewrite (BR _ _ Hx Hrx) in Hid. injection Hid as ->. by apply v1_sub.
      * destruct (BS _ _ Hx Hrx) as [nm Hy]. rewrite Hid in Hy. injection Hy as ->. simpl in Hrun. congruence.
    + destruct (BN id vc Hid Hx) as (ro & Hro & Hrb). exists ro. split; [rewrite <-Hl; apply elem_of_app; by right|done].
Qed.
End joined.

Lemma uniqueNames_sub v v1 : (∀ id vc, v1 !! id = Some vc → v !! id = Some vc) → uniqueNames v → uniqueNames v1.
Proof. intros Hsub Hu id id' vc vc' Hid Hid' Hn. eapply Hu; [by apply Hsub..|done]. Qed.

(** The host stays as it was assumed to be, if the options of [D] can be told apart. *)
Lemma supervised_hostOk (D : RunOptions → Prop) n desired v v' :
  (∀ ro ro' vc, D ro → D ro' → fits ro vc → fits ro' vc → ro_Name ro = ro_Name ro') →
  Forall D desired → hostOk D v → supervised n desired v v' → hostOk D v'.
Proof.
  rewrite Forall_forall. intros Hdist HD [_ Hs Hf] [_ Honly Hu _ _ Hnew].
  split; [done| |].
  - intros id vc ro Hid Hrun Hro Hn. destruct (decide (v !! id = Some vc)) as [Hv|Hv]; [by eapply Hs|].
    destruct (Hnew _ _ Hid Hrun Hv) as (ro' & Hro' & Hrb). by destruct (labelled_runs _ _ _ Hrb).
  - intros id vc ro Hid Hrun Hsys Hro Hfit. destruct (Honly _ _ Hid Hrun Hsys) as (ro' & Hro' & -> & Hfit'). eauto.
Qed.

Lemma wp_superviseContainers (D : RunOptions → Prop) n desired c w Q :
  Forall D desired → Forall bootable desired → NoDup (ro_Name <$> desired) → hostOk D (dock w) →
  (∀ c' w', supervised n desired (dock w) (dock w') → Q () (c', w')) →
  wp (joinContainers sha1hex n desired) (c, w) Q.
Proof.
  intros HD Hb Hnd Hok HQ. unfold joinContainers, dk_List. wp_bind. apply wp_try, wp_onSnd. cbn [fst snd].
  wp_use (ListSystem_ok (W := W)). intros r w1 (Hw1 & ids & -> & Hids & Hin). wp_bind.
  apply wp_getAll. { rewrite Hw1. intros id (vc & Hv & _)%Hin. by exists vc. }
  intros actual w2 Hw2 Hact. rewrite Hw1 in Hw2, Hact. wp_ret. wp_bind.
  assert (dk_ID <$> actual = ids) as Heq.
  { clear -Hact. induction Hact as [|id dkc ids l (vc & _ & Hs) _ IH]; [done|]. csimpl. by rewrite (sh_ID _ _ _ Hs), IH. }
  destruct (Join_ok _ (scoreOf n) desired actual (λ a b _ _, score_ok n a b)) as (pairs & ll & lr & HJ & Hl & Hr & Hpos & _).
  eapply wp_lift; [exact HJ|].
  pose proof (λ ro dkc, Join_best _ (scoreOf n) desired actual (λ a b _ _, score_ok n a b) pairs ll lr ro dkc HJ) as Hbest.
  assert (∀ dkc, dkc ∈ actual → ∃ vc, dock w !! dk_ID dkc = Some vc ∧ shows (dk_ID dkc) vc dkc ∧ vc_Running vc = true ∧ isSystem vc) as HA.
  { intros dkc [i Hi]%list_elem_of_lookup. destruct (Forall2_lookup_r _ _ _ _ _ Hact Hi) as (id & Hid & vc & Hv & Hs).
    rewrite (sh_ID _ _ _ Hs). exists vc. apply list_elem_of_lookup_2, Hin in Hid as (x & Hx & Hrun & Hsys).
    assert (x = vc) as -> by congruence. done. }
  assert (∀ id vc, dock w !! id = Some vc → vc_Running vc = true → isSystem vc → ∃ dkc, dkc ∈ actual ∧ dk_ID dkc = id) as HB.
  { intros id vc Hv Hrun Hsys. assert (id ∈ ids) as Hid by (apply Hin; by exists vc). rewrite <-Heq in Hid.
    apply list_elem_of_fmap in Hid as (dkc & -> & ?). by exists dkc. }
  rewrite <-Heq in Hids. wp_bind. apply wp_stopContainers.
  - rewrite <-Hr, fmap_app in Hids. by apply NoDup_app in Hids as (_ & _ & ?).
  - intros dkc Hd. destruct (HA dkc) as (vc & Hv & _). { rewrite <-Hr. apply elem_of_app. by right. } rewrite Hw2. by exists vc.
  - intros w3 Hw3. rewrite Hw2 in Hw3.
    assert (∀ ro dkc, ro ∈ desired → dkc ∈ actual → (0 ≤ scoreOf n ro dkc)%Z →
      (∃ dkc', (ro, dkc') ∈ pairs) ∨ (∃ ro', (ro', dkc) ∈ pairs)) as HC.
    { intros ro dkc Hro Hd Hs. destruct (Hbest ro dkc Hro Hd Hs) as [(? & ? & _)|(? & ? & _)]; [left|right]; by eexists. }
    apply wp_bootContainers.
    + rewrite <-Hl in Hb. by apply Forall_app in Hb as [_ ?].
    + rewrite <-Hl, fmap_app in Hnd. by apply NoDup_app in Hnd as (_ & _ & ?).
    + eapply uniqueNames_sub; [|apply Hok]. intros id vc. rewrite Hw3. by case_decide.
    + intros ro Hro. by eapply (boot_free _ _ _ _ _ _ _ _ D HD Hok).
    + intros c' w' Hbd. apply HQ. by eapply (joined_supervised _ _ _ _ _ _ _ _ D HD Hok).
Qed.
End supervise.
