(* ===== verification/SupervisorRounds.v ===== *)
(** * Package supervisor: the rounds of a master and of a worker

    The options that a role may ask for can be told apart, so that what
    [joinContainers] assumes of the host holds again after a round, whatever the
    database says in the next one.  A simulated Docker and the theorems on it are
    at the end. *)

From S2P Require Import Prelude GoStrings Join Blueprint DbRows Db DbTxn DbSpec DbFrame Engine EtcdSync Backoff Providers GoNet Ip.
From S2P Require Import Docker Supervisor SupervisorSpec.

(** ** The options of a role *)

Definition masterOption (ro : RunOptions) : Prop := ∃ m e secret, ro ∈ masterContainers m e secret.
Definition workerOption (writeKubeconfig : kubeconfig → result string) (ro : RunOptions) : Prop :=
  ∃ m e ovn, ro ∈ workerContainers writeKubeconfig m e ovn.

Definition nameImageArgs (ro : RunOptions) : string * string * list string := (ro_Name ro, ro_Image ro, ro_Args ro).

Lemma ovsContainer_nia name : nameImageArgs (ovsContainer name) = (name, ovsImage, [name]).
Proof. done. Qed.

Lemma masterOption_cases ro : masterOption ro →
  nameImageArgs ro ∈ [(OvsdbName, ovsImage, [OvsdbName]); (RegistryName, registryImage, []); (OvnnorthdName, ovsImage, [OvnnorthdName]);
                      (KubeControllerManagerName, kubeImage, kubeControllerManagerArgs); (KubeSchedulerName, kubeImage, kubeSchedulerArgs)] ∨
  (∃ args, nameImageArgs ro = (EtcdName, etcdImage, args)) ∨
  (∃ ip ips, nameImageArgs ro = (KubeAPIServerName, kubeImage, kubeAPIServerArgs ip ips)).
Proof.
  intros (m & e & secret & Hin). unfold masterContainers in Hin.
  rewrite !elem_of_app, !elem_of_cons, elem_of_nil in Hin. destruct Hin as [[->| [->|[]]]|[Hin|Hin]].
  - left. by left.
  - left. right. by left.
  - destruct (_ && _); [|by apply not_elem_of_nil in Hin]. apply elem_of_cons in Hin as [->|Hin]; [right; left; by eexists|].
    destruct secret as [secret|]; [|by apply not_elem_of_nil in Hin]. unfold masterKube in Hin.
    rewrite !elem_of_cons, elem_of_nil in Hin. destruct Hin as [->|[->|[->|[]]]].
    + right. right. by eexists _, _.
    + left. do 3 right. by left.
    + left. do 4 right. by left.
  - destruct (e_Leader e); [|by apply not_elem_of_nil in Hin]. apply list_elem_of_singleton in Hin as ->. left. do 2 right. by left.
Qed.

Lemma workerOption_cases wk ro : workerOption wk ro →
  nameImageArgs ro ∈ (λ name, (name, ovsImage, [name])) <$> [OvsdbName; OvsvswitchdName; OvncontrollerName] ∨
  (∃ args, nameImageArgs ro = (EtcdName, etcdImage, args)) ∨ (∃ args, nameImageArgs ro = (KubeletName, kubeImage, args)).
Proof.
  intros (m & e & ovn & Hin). unfold workerContainers in Hin.
  rewrite !elem_of_app, !elem_of_cons, elem_of_nil in Hin. destruct Hin as [[->| [->|[]]]|[Hin|Hin]].
  - left. by left.
  - left. right. by left.
  - destruct (bool_decide _); [|by apply not_elem_of_nil in Hin]. apply list_elem_of_singleton in Hin as ->. right. left. by eexists.
  - destruct (_ && _); [|by apply not_elem_of_nil in Hin]. apply elem_of_app in Hin as [Hin|Hin].
    + destruct ovn; [|by apply not_elem_of_nil in Hin]. apply list_elem_of_singleton in Hin as ->. left. do 2 right. by left.
    + destruct (wk _); [|by apply not_elem_of_nil in Hin]. apply list_elem_of_singleton in Hin as ->. do 2 right. by eexists.
Qed.

(** Two commands that no container has both of. *)
Definition apart (a b : list string) : Prop := a ≠ b ∧ tail a ≠ b ∧ tail b ≠ a.

Lemma fits_apart `{MapOrder} sha1hex ro ro' vc :
  fits sha1hex ro vc → fits sha1hex ro' vc → ro_Args ro ≠ [] → ro_Args ro' ≠ [] → ¬ apart (ro_Args ro) (ro_Args ro').
Proof.
  intros [_ _ _ Ha] [_ _ _ Hb] Hne Hne' (H1 & H2 & H3).
  destruct Ha as [?|[Ha|Ha]], Hb as [?|[Hb|Hb]]; try done; rewrite Ha, Hb in *; simpl in *; done.
Qed.

(** Options with the cases [cases] that one container fits have the same name. *)
Ltac tell_apart cases :=
  intros Ho Ho' Hf Hf'; pose proof (fits_apart _ _ _ _ Hf Hf') as Hna;
  pose proof (eq_trans (eq_sym (ft_Image _ _ _ Hf)) (ft_Image _ _ _ Hf')) as Hi; clear Hf Hf';
  apply cases in Ho, Ho'; unfold nameImageArgs in *;
  match type of Hi with ro_Image ?ro = ro_Image ?ro' => destruct ro, ro' end; cbn in *; subst;
  rewrite !elem_of_cons, !elem_of_nil in *;
  destruct_or?; repeat match goal with Hx : ∃ _, _ |- _ => destruct Hx end; simplify_eq; try done; by destruct Hna.

Lemma master_distinct `{MapOrder} sha1hex ro ro' vc :
  masterOption ro → masterOption ro' → fits sha1hex ro vc → fits sha1hex ro' vc → ro_Name ro = ro_Name ro'.
Proof. tell_apart masterOption_cases. Qed.

Lemma worker_distinct `{MapOrder} sha1hex wk ro ro' vc :
  workerOption wk ro → workerOption wk ro' → fits sha1hex ro vc → fits sha1hex ro' vc → ro_Name ro = ro_Name ro'.
Proof. tell_apart workerOption_cases. Qed.

Lemma bootable_noEnv ro : validName (ro_Name ro) → ro_Env ro = ∅ → bootable ro.
Proof. intros Hn He. split; [done|]. rewrite He. intros k [v Hk]. by rewrite lookup_empty in Hk. Qed.

Lemma bootable_etcd args : bootable (etcdContainer args).
Proof. split; [done|]. intros k [v Hk]. cbn in Hk. by apply lookup_singleton_Some in Hk as [<- _]. Qed.

Lemma master_bootable m e secret :
  Forall bootable (masterContainers m e secret) ∧ NoDup (ro_Name <$> masterContainers m e secret).
Proof.
  unfold masterContainers. split.
  - apply Forall_app. split; [repeat constructor; by apply bootable_noEnv|]. apply Forall_app. split.
    + destruct (_ && _); [|done]. constructor; [apply bootable_etcd|]. destruct secret; [|done].
      repeat constructor; by apply bootable_noEnv.
    + destruct (e_Leader e); [|done]. repeat constructor. by apply bootable_noEnv.
  - destruct (_ && _), (e_Leader e), secret; cbn; vm_decide.
Qed.

Lemma worker_bootable wk m e ovn :
  Forall bootable (workerContainers wk m e ovn) ∧ NoDup (ro_Name <$> workerContainers wk m e ovn).
Proof.
  unfold workerContainers. set (kc := NewKubeconfig _). split.
  - apply Forall_app. split; [repeat constructor; by apply bootable_noEnv|]. apply Forall_app. split.
    + destruct (bool_decide _); [|done]. rewrite Forall_singleton. apply bootable_etcd.
    + destruct (_ && _); [|done]. apply Forall_app. split; [destruct ovn|destruct (wk kc)]; [|done| |done];
        rewrite Forall_singleton; by apply bootable_noEnv.
  - destruct (bool_decide _), (_ && _), ovn, (wk kc); cbn; vm_decide.
Qed.

(** ** The rounds *)

Section rounds.
Context {W : Type} `{DockerLaws W} `{MapOrder}.
Context (sha1hex : string → string) (writeKubeconfig : kubeconfig → result string).
Implicit Types w : W.

Lemma theEtcd_perm l k : l ≡ₚ k → theEtcd l = theEtcd k.
Proof.
  intros Hl. pose proof (Permutation_length Hl) as Hlen.
  destruct l as [|a [|b l]], k as [|c [|d k]]; simpl in Hlen; try lia; try done.
  by apply Permutation_singleton_inj in Hl as ->.
Qed.

Definition roundTables : gset string := list_to_set [MinionTable; EtcdTable].

(** The rows that a round reads. *)
Lemma wp_roundRows {A} s (st : dkState (W := W)) m (k : Minion → list Etcd → M (store * dkState (W := W)) A) Q :
  DbOK roundTables s → selfRows (vals (tbl Minion s)) = [m] →
  (∀ l s', same s s' → theEtcd l = theEtcd (vals (tbl Etcd s)) → wp (k m l) (s', st) Q) →
  wp (let! minion := onFst connMinionSelf in
      let! etcdRows := onFst (connSelectFromEtcd None) in
      k minion etcdRows) (s, st) Q.
Proof.
  intros Hok Hself HQ. wp_bind. apply wp_onFst. eapply wp_connMinionSelf; [|exact Hself|].
  { eapply DbOK_subset; [exact Hok|]. unfold roundTables. set_solver. }
  intros s1 Hs1. cbn [fst snd]. wp_bind. apply wp_onFst. cbn [fst snd]. apply wp_connSelect_all.
  { apply (same_ok _ _ _ Hs1). eapply DbOK_subset; [exact Hok|]. unfold roundTables. set_solver. }
  intros l s2 Hs2 Hl. cbn [fst snd]. apply HQ; [by eapply same_trans|].
  by rewrite (theEtcd_perm _ _ Hl), (same_tbl _ _ Hs1).
Qed.

(** The containers of a role that are desired, and the host in order for the role. *)
Definition keeps (D : RunOptions → Prop) (n : nat) (desired : list RunOptions) (v v' : gmap string vContainer) : Prop :=
  supervised sha1hex n desired v v' ∧ hostOk sha1hex D v'.

Lemma wp_joinRole (D : RunOptions → Prop) n desired (s : store) c w Q :
  (∀ ro ro' vc, D ro → D ro' → fits sha1hex ro vc → fits sha1hex ro' vc → ro_Name ro = ro_Name ro') →
  Forall D desired → Forall bootable desired ∧ NoDup (ro_Name <$> desired) → hostOk sha1hex D (dock w) →
  (∀ c' w', keeps D n desired (dock w) (dock w') → Q () (s, (c', w'))) →
  wp (onSnd (joinContainers sha1hex n desired)) (s, (c, w)) Q.
Proof.
  intros Hdist HD [Hb Hn] Hok HQ. apply wp_onSnd. cbn [fst snd]. eapply (wp_superviseContainers sha1hex D); [done..|].
  intros c' w' Hs. apply HQ. split; [done|]. by eapply supervised_hostOk.
Qed.

(** The secret as a round of a master reads it. *)
Definition kubeSecretOf (w : W) : result string :=
  match hostFiles w !! MinionKubeSecretPath with Some secret => Val secret | None => Err "" end.

Lemma masterContainers_secret m e (r r' : result string) :
  match r, r' with Val x, Val y => x = y | Err _, Err _ => True | _, _ => False end →
  masterContainers m e r = masterContainers m e r'.
Proof. destruct r, r'; [by intros ->|done..]. Qed.

Lemma wp_runMasterOnce n s c w m Q :
  DbOK roundTables s → selfRows (vals (tbl Minion s)) = [m] → hostOk sha1hex masterOption (dock w) →
  (∀ s' c' w', same s s' → keeps masterOption n (masterContainers m (theEtcd (vals (tbl Etcd s))) (kubeSecretOf w)) (dock w) (dock w') →
     Q () (s', (c', w'))) →
  wp (runMasterOnce sha1hex n) (s, (c, w)) Q.
Proof.
  intros Hok Hself Hho HQ. unfold runMasterOnce. apply wp_roundRows with (m := m); [done..|]. intros l s1 Hs1 ->. set (e := theEtcd _) in *.
  assert (∀ secret w1, dock w1 = dock w → masterContainers m e secret = masterContainers m e (kubeSecretOf w) →
    wp (onSnd (joinContainers sha1hex n (masterContainers m e secret))) (s1, (c, w1)) Q) as Hjoin.
  { intros secret w1 Hw1 ->. eapply (wp_joinRole masterOption).
    - intros ro ro' vc. apply master_distinct.
    - apply Forall_forall. intros ro Hin. by eexists _, _, _.
    - apply master_bootable.
    - by rewrite Hw1.
    - intros c' w' Hk. rewrite Hw1 in Hk. by apply HQ. }
  wp_bind. destruct (_ && _) eqn:Hcond.
  - apply wp_onSnd, wp_onSnd. cbn [fst snd]. wp_use (readFile_ok (W := W)). intros r w1 [Hw1 Hr]. apply Hjoin; [done|].
    apply masterContainers_secret. unfold kubeSecretOf. destruct (hostFiles w !! _); [by rewrite Hr|by destruct Hr as [e' ->]].
  - wp_ret. apply Hjoin; [done|]. unfold masterContainers. by rewrite Hcond.
Qed.

Lemma wp_cfgOVN ip lip w : wp (cfgOVN ip lip) w (λ _ w', dock w' = dock w).
Proof.
  unfold cfgOVN. wp_bind. wp_use (execRun_ok (W := W)). intros [out|e] w1 Hw1; [|by wp_ret].
  destruct (bool_decide _); [|by wp_ret]. wp_bind. wp_use (execRun_ok (W := W)). intros r w2 Hw2. wp_ret. congruence.
Qed.

Lemma wp_runWorkerOnce n s c w m Q :
  DbOK roundTables s → selfRows (vals (tbl Minion s)) = [m] → hostOk sha1hex (workerOption writeKubeconfig) (dock w) →
  (∀ ovn s' c' w', same s s' →
     keeps (workerOption writeKubeconfig) n (workerContainers writeKubeconfig m (theEtcd (vals (tbl Etcd s))) ovn) (dock w) (dock w') →
     Q () (s', (c', w'))) →
  wp (runWorkerOnce sha1hex writeKubeconfig n) (s, (c, w)) Q.
Proof.
  intros Hok Hself Hho HQ. unfold runWorkerOnce. apply wp_roundRows with (m := m); [done..|]. intros l s1 Hs1 ->. set (e := theEtcd _) in *.
  assert (∀ ovn w1, dock w1 = dock w →
    wp (onSnd (joinContainers sha1hex n (workerContainers writeKubeconfig m e ovn))) (s1, (c, w1)) Q) as Hjoin.
  { intros ovn w1 Hw1. eapply (wp_joinRole (workerOption writeKubeconfig)).
    - intros ro ro' vc. apply worker_distinct.
    - apply Forall_forall. intros ro Hin. by eexists _, _, _.
    - apply worker_bootable.
    - by rewrite Hw1.
    - intros c' w' Hk. rewrite Hw1 in Hk. by eapply HQ. }
  wp_bind. destruct (_ && _); [|wp_ret; by apply Hjoin].
  wp_bind. apply wp_onSnd, wp_onSnd. cbn [fst snd]. wp_use wp_cfgOVN. intros r w1 Hw1. wp_ret. by apply Hjoin.
Qed.
End rounds.
