(* ===== verification/SupervisorSim.v ===== *)
(** * Package supervisor: the theorems, on a simulated Docker

    The contract of [joinContainers] and of the rounds of the two roles, a Docker
    over a plain map of containers that satisfies the laws, and the theorems on a
    concrete host. *)

From S2P Require Import Prelude GoStrings Join Blueprint DbRows Db DbTxn DbSpec DbFrame Engine EtcdSync Backoff Providers GoNet Ip.
From S2P Require Import Docker Supervisor SupervisorSpec SupervisorRounds.

(** ** Properties *)

(** C10: [joinContainers] makes the desired containers run, and only those: for
    desired options with distinct, valid names, afterwards each of them has a
    running system container with its name that fits (image, files, environment and
    command); every running system container is one of these; containers that
    fitted before, and running ones that are not system containers, are exactly as
    they were; stopped ones still exist, at most under another name; and a
    container that was not there is run with the options, on the host's network,
    with its files uploaded.  This is for a host where container names are unique
    and where a running container has a desired name exactly if it should. *)
Theorem joinContainers_converges {W} `{DockerLaws W} `{MapOrder} sha1hex n desired c (w : W) :
  Forall bootable desired → NoDup (ro_Name <$> desired) → hostOk sha1hex (.∈ desired) (dock w) →
  wp (joinContainers sha1hex n desired) (c, w) (λ _ st, supervised sha1hex n desired (dock w) (dock st.2)).
Proof.
  intros Hb Hnd Hok. eapply (wp_superviseContainers sha1hex (.∈ desired)); [by apply Forall_forall|done..].
Qed.

Lemma hostOk_mono `{MapOrder} sha1hex (D D' : RunOptions → Prop) v : (∀ ro, D' ro → D ro) → hostOk sha1hex D v → hostOk sha1hex D' v.
Proof. intros HD [Hu Hs Hf]. split; [done|by intros; eapply Hs; eauto|by intros; eapply Hf; eauto]. Qed.

(** *** The containers of a master, written out *)

(** A container with the given name, image, command, environment, files,
    containers to take volumes from, and mounts (source, target). *)
Definition program (name image : string) (args : list string) (env files : list (string * string))
    (volumesFrom : list string) (mounts : list (string * string)) : RunOptions :=
  mk_RunOptions name image args ∅ (list_to_map env) (list_to_map files) "" "" [] [] "" false volumesFrom []
    ((λ m, mk_HostMount m.1 m.2 "bind" None) <$> mounts).

(** etcd on the master [ip], in the cluster of [members]. *)
Definition etcdProgram (ip : string) (members : list string) : RunOptions :=
  program "etcd" "quay.io/coreos/etcd:v3.3"
    ["etcd"; "--name=master-" +:+ ip;
     "--initial-cluster=" +:+ Join_strings "," ((λ m, "master-" +:+ m +:+ "=http://" +:+ m +:+ ":2380") <$> members);
     "--advertise-client-urls=http://" +:+ ip +:+ ":2379"; "--listen-peer-urls=http://" +:+ ip +:+ ":2380";
     "--initial-advertise-peer-urls=http://" +:+ ip +:+ ":2380"; "--listen-client-urls=http://0.0.0.0:2379";
     "--heartbeat-interval=500"; "--initial-cluster-state=new"; "--election-timeout=5000"]
    [("ETCD_DATA_DIR", "/etcd-data")] [] [] [("/var/lib/etcd", "/etcd-data")].

(** The Kubernetes master; its API server talks to the etcd [members] and
    encrypts secrets with [secret]. *)
Definition kubePrograms (ip : string) (members : list string) (secret : string) : list RunOptions :=
  [program "kube-apiserver" "keldaio/kelda:dev"
     ["kube-apiserver";
      "--admission-control=Initializers,NamespaceLifecycle,NodeRestriction,LimitRanger,ServiceAccount,DefaultStorageClass,ResourceQuota";
      "--advertise-address=" +:+ ip; "--authorization-mode=Node";
      "--client-ca-file=/home/kelda/.kelda/tls/certificate_authority.crt";
      "--etcd-servers=" +:+ Join_strings "," ((λ m, "http://" +:+ m +:+ ":2379") <$> members);
      "--kubelet-certificate-authority=/home/kelda/.kelda/tls/certificate_authority.crt";
      "--kubelet-client-certificate=/home/kelda/.kelda/tls/kelda.crt"; "--kubelet-client-key=/home/kelda/.kelda/tls/kelda.key";
      "--tls-ca-file=/home/kelda/.kelda/tls/certificate_authority.crt"; "--tls-cert-file=/home/kelda/.kelda/tls/kelda.crt";
      "--tls-private-key-file=/home/kelda/.kelda/tls/kelda.key"; "--anonymous-auth=false";
      "--service-account-key-file=/home/kelda/.kelda/tls/kelda.key";
      "--experimental-encryption-provider-config=/var/lib/kubernetes/encryption-config.yaml"; "--allow-privileged"]
     []
     [("/var/lib/kubernetes/encryption-config.yaml",
       "kind: EncryptionConfig" +:+ newline +:+ "apiVersion: v1" +:+ newline +:+ "resources:" +:+ newline +:+
       "  - resources:" +:+ newline +:+ "      - secrets" +:+ newline +:+ "    providers:" +:+ newline +:+
       "      - aescbc:" +:+ newline +:+ "          keys:" +:+ newline +:+ "            - name: kelda-key" +:+ newline +:+
       "              secret: " +:+ secret +:+ newline)]
     [] [("/home/kelda/.kelda/tls", "/home/kelda/.kelda/tls")];
   program "kube-controller-manager" "keldaio/kelda:dev"
     ["kube-controller-manager"; "--master=http://localhost:8080";
      "--service-account-private-key-file=/home/kelda/.kelda/tls/kelda.key"; "--pod-eviction-timeout=30s"]
     [] [] [] [("/home/kelda/.kelda/tls", "/home/kelda/.kelda/tls")];
   program "kube-scheduler" "keldaio/kelda:dev" ["kube-scheduler"; "--master"; "http://localhost:8080"] [] [] [] []].

(** The OVN database and the registry always run; etcd once the master knows its
    address and the members of the cluster, and with it Kubernetes if there is a
    secret; and the leader runs ovn-northd. *)
Definition masterPrograms (ip : string) (members : list string) (leader : bool) (secret : option string) : list RunOptions :=
  [program "ovsdb-server" "keldaio/ovs" ["ovsdb-server"] [] [] ["minion"] []; program "registry" "registry:2.6.2" [] [] [] [] []] ++
  (if decide (ip = "" ∨ members = []) then []
   else etcdProgram ip members :: match secret with Some key => kubePrograms ip members key | None => [] end) ++
  (if leader then [program "ovn-northd" "keldaio/ovs" ["ovn-northd"] [] [] ["minion"] []] else []).
Definition masterProgram (ro : RunOptions) : Prop := ∃ ip members leader secret, ro ∈ masterPrograms ip members leader secret.

(** The members of the etcd cluster and whether the minion leads it, if the
    database knows. *)
Definition etcdFacts (rows : list Etcd) : list string * bool :=
  match rows with [e] => (e_EtcdIPs e, e_Leader e) | _ => ([], false) end.

Lemma kubePrograms_eq ip members secret : masterKube ip members secret = kubePrograms ip members secret.
Proof.
  unfold masterKube, kubePrograms. by repeat f_equal.
Qed.
Lemma masterPrograms_eq m e (secret : result string) :
  masterContainers m e secret =
  masterPrograms (mi_PrivateIP m) (e_EtcdIPs e) (e_Leader e) (match secret with Val key => Some key | Err _ => None end).
Proof.
  unfold masterContainers, masterPrograms. f_equal. f_equal. case_bool as [Hip|Hip]; simpl.
  - case_bool as [Hm|Hm]; simpl.
    + rewrite decide_False by (intros [?|Hnil]; [done|by rewrite Hnil in Hm]). f_equal. destruct secret; [apply kubePrograms_eq|done].
    + rewrite decide_True; [done|]. right. apply dec_stable in Hm. by destruct (e_EtcdIPs e).
  - rewrite decide_True; [done|]. left. by apply dec_stable.
Qed.
Lemma masterProgram_option ro : masterProgram ro ↔ masterOption ro.
Proof.
  split.
  - intros (ip & members & leader & secret & Hro).
    exists (mk_Minion 0 true "" "" ip "" "" "" "" []), (mk_Etcd 0 members leader ""),
      (match secret with Some key => Val key | None => Err "" end). rewrite masterPrograms_eq. simpl. by destruct secret.
  - intros (m & e & secret & Hro). rewrite masterPrograms_eq in Hro. by eexists _, _, _, _.
Qed.

(** C11: A round of a master leaves the database alone and brings the host to run
    exactly the containers of [masterPrograms], written out there with their
    command lines and files, for the minion's address, the etcd members and the
    leadership in the database and the secret in the host's file, in the sense of
    [joinContainers_converges]; and what the supervisor assumes of the host holds
    again for all containers that any later round may ask for. *)
Theorem runMasterOnce_keeps {W} `{DockerLaws W} `{MapOrder} sha1hex n s c (w : W) m :
  DbOK roundTables s → selfRows (vals (tbl Minion s)) = [m] → hostOk sha1hex masterProgram (dock w) →
  let (members, leader) := etcdFacts (vals (tbl Etcd s)) in
  let secret := hostFiles w !! "/home/kelda/.kelda/kube_etcd_secret" in
  wp (runMasterOnce sha1hex n) (s, (c, w)) (λ _ st, same s st.1 ∧
    supervised sha1hex n (masterPrograms (mi_PrivateIP m) members leader secret) (dock w) (dock st.2.2) ∧
    hostOk sha1hex masterProgram (dock st.2.2)).
Proof.
  intros Hok Hself Hho. destruct (etcdFacts _) as [members leader] eqn:Hfacts. cbn zeta.
  assert (∀ v, hostOk sha1hex masterProgram v ↔ hostOk sha1hex masterOption v) as Hiff.
  { intros v. split; apply hostOk_mono; intros ro; by apply masterProgram_option. }
  eapply wp_runMasterOnce; [done..|by apply Hiff|]. intros s' c' w' Hs [Hsv Hh]. rewrite masterPrograms_eq in Hsv.
  split_and!; [done| |by apply Hiff].
  assert (e_EtcdIPs (theEtcd (vals (tbl Etcd s))) = members ∧ e_Leader (theEtcd (vals (tbl Etcd s))) = leader) as [<- <-].
  { unfold etcdFacts, theEtcd in *. destruct (vals (tbl Etcd s)) as [|e [|]]; by injection Hfacts as <- <-. }
  unfold kubeSecretOf in Hsv. change MinionKubeSecretPath with "/home/kelda/.kelda/kube_etcd_secret" in Hsv.
  by destruct (hostFiles w !! "/home/kelda/.kelda/kube_etcd_secret").
Qed.

(** The same for a worker; [ovn] tells whether OVN could be configured. *)
Theorem runWorkerOnce_keeps {W} `{DockerLaws W} `{MapOrder} sha1hex writeKubeconfig n s c (w : W) m :
  DbOK roundTables s → selfRows (vals (tbl Minion s)) = [m] → hostOk sha1hex (workerOption writeKubeconfig) (dock w) →
  wp (runWorkerOnce sha1hex writeKubeconfig n) (s, (c, w)) (λ _ st, same s st.1 ∧ hostOk sha1hex (workerOption writeKubeconfig) (dock st.2.2) ∧
    ∃ ovn, supervised sha1hex n (workerContainers writeKubeconfig m (theEtcd (vals (tbl Etcd s))) ovn) (dock w) (dock st.2.2)).
Proof. intros Hok Hself Hho. eapply wp_runWorkerOnce; [done..|]. intros ovn s' c' w' Hs [Hsv Hh]. split_and!; [done..|by exists ovn]. Qed.

(** ** A simulated Docker *)

(** The containers, and the files of the host. *)
Record simHost := mk_simHost { sm_dock : gmap string vContainer; sm_files : gmap string string }.
Definition set_dock (v : gmap string vContainer) (h : simHost) : simHost := mk_simHost v (sm_files h).

Definition simMatches (filters : gmap string (list string)) (all : bool) (vc : vContainer) : bool :=
  (all || vc_Running vc) &&
  match filters !! "name" with Some names => existsb (λ name, String.prefix name (vc_Name vc)) names | None => true end &&
  match filters !! "label" with
  | Some labels => forallb (λ l, match splitAt "=" l with
                                 | Some (k, v) => bool_decide (vc_Labels vc !! k = Some v) | None => false end) labels
  | None => true
  end.
Definition simInspect (id : string) (vc : vContainer) : Inspection :=
  mk_Inspection id ("/" +:+ vc_Name vc) 0 (Some (mk_dkcConfig (vc_Image vc) "" [] (vc_Labels vc) (vc_Env vc))) (vc_Image vc)
    (vc_Path vc) (vc_Args vc) 1 (if vc_Running vc then "running" else "exited") (vc_Running vc).
Definition simCreate (opts : CreateOptions) : vContainer :=
  let cfg := co_Config opts in
  mk_vContainer (co_Name opts) (cfg_Image cfg) (cfg_Labels cfg) (cfg_Env cfg) (default "" (head (cfg_Cmd cfg))) (tail (cfg_Cmd cfg))
    (co_HostConfig opts) [] false.
(** Longer than all names. *)
Fixpoint longU (n : nat) : string := match n with 0 => "u" | S n => String "u" (longU n) end.
Definition simUUID (v : gmap string vContainer) : string := longU (sum_list (String.length <$> (vc_Name <$> (map_to_list v).*2))).

Definition onDock (f : gmap string vContainer → gmap string vContainer) : M simHost (result unit) := λ h, Ok (Val (), set_dock (f (sm_dock h)) h).

#[export] Instance simDocker : DockerAPI simHost := {
  dk_clock := {| now _ := 0%Z; sleep _ v := v |};
  StartContainer id _ := onDock (alter (set_vcRunning true) id);
  UploadToContainer id tar dir := onDock (alter (λ vc, set_vcFiles (vc_Files vc ++ [(dir, tar)]) vc) id);
  RemoveContainer id := onDock (delete id);
  dkc_RenameContainer id name := onDock (alter (set_vcName name) id);
  BuildImage _ := mret (Val ());
  PullImage _ _ := mret (Val ());
  PushImage _ _ _ := mret (Val ());
  ListContainers all filters := λ h, Ok (Val (filter (λ kv, simMatches filters all kv.2) (map_to_list (sm_dock h))).*1, h);
  InspectContainer id := λ h, Ok (match sm_dock h !! id with Some vc => Val (simInspect id vc) | None => Err "no such container" end, h);
  InspectImage image := mret (Val [image +:+ "@sha256:0"]);
  CreateContainer opts := λ h, let id := fresh (dom (sm_dock h)) in Ok (Val id, set_dock (<[id := simCreate opts]> (sm_dock h)) h);
  dkc_CreateNetwork _ := mret (Val ());
  dkc_ListNetworks := mret (Val []);
}.
#[export] Instance simHostCalls : Host simHost := {
  newUUID := λ h, Ok (simUUID (sm_dock h), h);
  execRun _ _ := mret (Val "");
  readFile path := λ h, Ok (match sm_files h !! path with Some x => Val x | None => Err "no such file" end, h);
  LinkByName _ := mret (Val 1%Z);
  LinkSetUp _ := mret (Val ());
  AddrAdd _ _ := mret (Val ());
}.

Lemma prefix_refl s : String.prefix s s = true.
Proof. induction s as [|c s IH]; [done|]. simpl. by destruct (ascii_dec c c). Qed.

Lemma longU_ok n : longU n ≠ "" ∧ nameChars (longU n) ∧ n < String.length (longU n).
Proof. induction n as [|n (? & ? & ?)]; simpl; split_and!; try done; try lia. Qed.

Lemma simUUID_longer v id vc : v !! id = Some vc → String.length (vc_Name vc) < String.length (simUUID v).
Proof.
  intros Hv. unfold simUUID. set (n := sum_list _). destruct (longU_ok n) as (_ & _ & Hn).
  assert (String.length (vc_Name vc) ≤ n) as Hle; [|lia]. apply elem_of_map_to_list in Hv. subst n. clear Hn.
  induction (map_to_list v) as [|kv l IH]; [by apply not_elem_of_nil in Hv|].
  apply elem_of_cons in Hv as [<-|Hv]; csimpl; [lia|]. apply IH in Hv. lia.
Qed.

Lemma elem_of_simList filters all (v : gmap string vContainer) id :
  id ∈ (filter (λ kv, simMatches filters all kv.2) (map_to_list v)).*1 ↔ ∃ vc, v !! id = Some vc ∧ simMatches filters all vc.
Proof.
  rewrite list_elem_of_fmap. setoid_rewrite list_elem_of_filter. split.
  - intros ([k vc] & -> & Hm & Hin%elem_of_map_to_list). by exists vc.
  - intros (vc & Hv & Hm). exists (id, vc). split_and!; [done..|by apply elem_of_map_to_list].
Qed.

Lemma NoDup_simList filters all (v : gmap string vContainer) : NoDup (filter (λ kv : string * vContainer, simMatches filters all kv.2) (map_to_list v)).*1.
Proof.
  eapply sublist_NoDup; [|apply fmap_sublist, sublist_filter]. apply NoDup_fst_map_to_list.
Qed.

Lemma simName_matches name vc : vc_Name vc = name → simMatches {["name" := [name]]} true vc.
Proof. intros <-. unfold simMatches. rewrite lookup_singleton_eq, lookup_singleton_ne by done. simpl. by rewrite prefix_refl. Qed.

Lemma simSystem_matches vc : simMatches systemFilter false vc ↔ vc_Running vc = true ∧ isSystem vc.
Proof.
  unfold simMatches, isSystem, systemFilter. rewrite lookup_singleton_eq, lookup_singleton_ne by done. simpl.
  rewrite !andb_True, bool_decide_spec, !Is_true_true. naive_solver.
Qed.

Lemma simUUID_unused v prefix : unusedName v (prefix +:+ simUUID v).
Proof. intros id vc Hv Heq. pose proof (simUUID_longer _ _ _ Hv) as Hlen. rewrite Heq, length_app_s in Hlen. lia. Qed.

#[export] Instance simDocker_laws : DockerLaws simHost.
Proof.
  refine {| dock := sm_dock; hostFiles := sm_files |}; intros; unfold wp; simpl.
  - split; [done|]. eexists. split_and!; [done|apply NoDup_simList|]. intros id. rewrite elem_of_simList. by setoid_rewrite simSystem_matches.
  - split; [done|]. eexists. split_and!; [done|apply NoDup_simList| |].
    + intros id (vc & Hv & _)%elem_of_simList. by exists vc.
    + intros id vc Hv Hn. apply elem_of_simList. exists vc. split; [done|by apply simName_matches].
  - rewrite H. split; [done|]. eexists. split; [done|]. split; [done|by eexists|done..].
  - done.
  - split; [done|]. by rewrite (alter_some _ _ _ _ H).
  - done.
  - eexists _, _. split; [done|]. split; [apply not_elem_of_dom, is_fresh|]. split; [|done].
    split; [done|done|done| | |done..].
    + exists []. rewrite app_nil_r. split; [done|]. by intros x e ?%not_elem_of_nil.
    + simpl. destruct (cfg_Cmd _); [by left|by do 2 right].
  - split; [done|]. by rewrite (alter_some _ _ _ _ H).
  - split; [done|]. by rewrite (alter_some _ _ _ _ H).
  - split; [done|]. destruct (longU_ok (sum_list (String.length <$> (vc_Name <$> (map_to_list (sm_dock w)).*2)))) as (? & ? & _).
    split_and!; [done..|]. intros prefix. apply simUUID_unused.
  - split; [done|]. destruct (sm_files w !! path); [done|by eexists].
  - done.
Defined.

(** ** Examples *)

#[local] Existing Instance fixed_order.

(** A host whose system containers are the master's own is in order. *)
Lemma master_hostOk `{MapOrder} sha1hex v :
  uniqueNames v →
  (∀ id vc, v !! id = Some vc → vc_Running vc = true → isSystem vc ∨ vc_Name vc = "web") →
  (∀ id vc, v !! id = Some vc → vc_Running vc = true → isSystem vc → ∃ ro, masterOption ro ∧ vc_Name vc = ro_Name ro ∧ fits sha1hex ro vc) →
  hostOk sha1hex masterOption v.
Proof.
  intros Hu Hw Hs. split; [done| |].
  - intros id vc ro Hv Hrun Hro Hn. destruct (Hw _ _ Hv Hrun) as [?|Hweb]; [done|]. exfalso. rewrite Hn in Hweb.
    apply masterOption_cases in Hro. unfold nameImageArgs in Hro. rewrite Hweb in Hro. rewrite !elem_of_cons, elem_of_nil in Hro.
    destruct_or?; repeat match goal with Hx : ∃ _, _ |- _ => destruct Hx end; simplify_eq.
  - intros id vc ro Hv Hrun Hsys Hro Hf. destruct (Hs _ _ Hv Hrun Hsys) as (ro' & Hro' & -> & Hf'). by eapply master_distinct.
Qed.

Definition demo_minion_row : Minion := demo_minion 1 true Master "10.1.1.1".
Definition demo_etcd_row : Etcd := mk_Etcd 2 ["10.1.1.1"] true "10.1.1.1".
Definition demo_stale_etcd : RunOptions := masterEtcd "10.1.1.1" ["10.1.1.1"; "10.1.1.2"].
Definition demo_container (n : nat) (ro : RunOptions) (running : bool) : vContainer :=
  set_vcRunning running (simCreate (mk_CreateOptions (ro_Name ro)
    (mk_dkcConfig (ro_Image ro) "" (ro_Args ro) (ro_Labels (labelled id n ro)) ((λ kv, kv.1 +:+ "=" +:+ kv.2) <$> range n (ro_Env ro)))
    (hostConfigOf ro))).

(** Running: ovsdb-server as desired, etcd for another cluster, and a container of
    someone else; stopped: a registry. *)
Definition demo_host : simHost :=
  mk_simHost
    {["a" := demo_container 0 (ovsContainer OvsdbName) true;
      "b" := demo_container 0 demo_stale_etcd true;
      "c" := demo_container 0 (runOptions RegistryName registryImage []) false;
      "d" := mk_vContainer "web" "nginx" ∅ [] "nginx" [] (hostConfigOf (runOptions "" "" [])) [] true]}
    {[MinionKubeSecretPath := "secret"]}.
Definition demo_db : store := storeOf [RMinion demo_minion_row; REtcd demo_etcd_row].
Definition demo_desired : list RunOptions := masterContainers demo_minion_row demo_etcd_row (Val "secret").

Example runMasterOnce_example :
  match runMasterOnce id 0 (demo_db, (∅, demo_host)) with
  | Ok (_, (_, (_, h))) => (λ vc, (vc_Name vc, vc_Running vc)) <$> (map_to_list (sm_dock h)).*2
  | Panic _ => []
  end = [("kube-controller-manager", true); ("registry_stopped_uuuuuuuuuuuuuuuuuuuuuuuu", false); ("ovn-northd", true); ("etcd", true);
         ("ovsdb-server", true); ("kube-apiserver", true); ("kube-scheduler", true); ("web", true); ("registry", true)].
Proof. vm_compute. reflexivity. Qed.

Lemma demo_fits ro : ro_Env ro = ∅ → fits id ro (demo_container 0 ro true).
Proof.
  intros He. split; [done| |by rewrite He; intros k v ?%lookup_empty_Some|].
  - simpl. by rewrite lookup_insert_eq.
  - simpl. destruct (ro_Args ro); [by left|by do 2 right].
Qed.

Lemma demo_etcd_fits args : fits id (etcdContainer args) (demo_container 0 (etcdContainer args) true).
Proof.
  split; [done|done| |by do 2 right]. intros k v Hkv. cbn in Hkv. apply lookup_singleton_Some in Hkv as [<- <-]. done.
Qed.

Lemma demo_names : uniqueNames (sm_dock demo_host).
Proof.
  intros i j x y Hi Hj Hn.
  assert (map_Forall (λ i x, map_Forall (λ j y, vc_Name x = vc_Name y → i = j) (sm_dock demo_host)) (sm_dock demo_host)) as Hall.
  { vm_decide. }
  by eapply (Hall i x Hi j y).
Qed.

Lemma demo_hostOk : hostOk id masterOption (sm_dock demo_host).
Proof.
  assert (Forall (λ vc, vc_Running vc = true → vc = demo_container 0 (ovsContainer OvsdbName) true ∨
    vc = demo_container 0 demo_stale_etcd true ∨ vc_Name vc = "web" ∧ ¬ isSystem vc) (map_to_list (sm_dock demo_host)).*2) as Hall.
  { vm_decide. }
  rewrite Forall_forall in Hall.
  assert (∀ i vc, sm_dock demo_host !! i = Some vc → vc ∈ (map_to_list (sm_dock demo_host)).*2) as Hin.
  { intros i vc Hi. apply list_elem_of_fmap. exists (i, vc). split; [done|]. by apply elem_of_map_to_list. }
  apply master_hostOk; [apply demo_names| |].
  - intros i vc Hi Hrun. destruct (Hall vc (Hin _ _ Hi) Hrun) as [->|[->|[? _]]]; [by left|by left|by right].
  - intros i vc Hi Hrun Hsys. destruct (Hall vc (Hin _ _ Hi) Hrun) as [->|[->|[_ ?]]]; [| |done].
    + exists (ovsContainer OvsdbName). split_and!; [|done|by apply demo_fits].
      exists demo_minion_row, demo_etcd_row, (Err ""). by left.
    + exists demo_stale_etcd. split_and!; [|done|apply demo_etcd_fits].
      exists demo_minion_row, (mk_Etcd 2 ["10.1.1.1"; "10.1.1.2"] true ""), (Err ""). do 2 right. by left.
Qed.

Lemma joinContainers_converges_witness :
  wp (joinContainers id 0 demo_desired) (∅, demo_host) (λ _ st, supervised id 0 demo_desired (dock demo_host) (dock st.2)).
Proof.
  refine (joinContainers_converges (W := simHost) id 0 demo_desired ∅ demo_host _ _ _).
  - apply (master_bootable demo_minion_row demo_etcd_row (Val "secret")).
  - apply (master_bootable demo_minion_row demo_etcd_row (Val "secret")).
  - refine (hostOk_mono id masterOption _ _ _ demo_hostOk). intros ro Hro. by eexists _, _, _.
Defined.

Lemma runMasterOnce_keeps_witness :
  wp (runMasterOnce id 0) (demo_db, (∅, demo_host)) (λ _ st, same demo_db st.1 ∧
    (∀ i vc, dock st.2.2 !! i = Some vc → vc_Running vc = true → isSystem vc → vc_Name vc ∈
      ["ovsdb-server"; "registry"; "etcd"; "kube-apiserver"; "kube-controller-manager"; "kube-scheduler"; "ovn-northd"]) ∧
    (∃ i vc, dock st.2.2 !! i = Some vc ∧ vc_Running vc = true ∧ vc_Name vc = "etcd" ∧
      "--initial-cluster=master-10.1.1.1=http://10.1.1.1:2380" ∈ vc_Path vc :: vc_Args vc) ∧
    (∃ i vc, dock st.2.2 !! i = Some vc ∧ vc_Running vc = true ∧ vc_Name vc = "ovn-northd")).
Proof.
  assert (hostOk id masterProgram (dock demo_host)) as Hho.
  { refine (hostOk_mono id masterOption _ _ _ demo_hostOk). intros ro. apply masterProgram_option. }
  assert (DbOK roundTables demo_db) as Hok by vm_decide.
  pose proof (runMasterOnce_keeps (W := simHost) id 0 demo_db ∅ demo_host demo_minion_row Hok eq_refl Hho) as Hround.
  assert (etcdFacts (vals (tbl Etcd demo_db)) = (["10.1.1.1"], true)) as Hfacts by (vm_compute; reflexivity).
  assert (hostFiles demo_host !! "/home/kelda/.kelda/kube_etcd_secret" = Some "secret") as Hsecret by (vm_compute; reflexivity).
  rewrite Hfacts, Hsecret in Hround. change (mi_PrivateIP demo_minion_row) with "10.1.1.1" in Hround. cbv zeta iota in Hround.
  eapply wp_mono; [exact Hround|]. clear Hround. intros _ st (Hs & [Hall Honly _ _ _ _] & _). split; [done|]. split_and!.
  - intros i vc Hi Hrun Hsys. destruct (Honly i vc Hi Hrun Hsys) as (ro & Hro & -> & _).
    assert (Forall (λ ro, ro_Name ro ∈
      ["ovsdb-server"; "registry"; "etcd"; "kube-apiserver"; "kube-controller-manager"; "kube-scheduler"; "ovn-northd"])
      (masterPrograms "10.1.1.1" ["10.1.1.1"] true (Some "secret"))) as Hf by vm_decide.
    rewrite Forall_forall in Hf. by apply Hf.
  - destruct (Hall (etcdProgram "10.1.1.1" ["10.1.1.1"])) as (i & vc & Hi & Hrun & _ & Hn & Hfit); [do 2 right; left|].
    exists i, vc. split_and!; [done..|]. destruct (ft_Args _ _ _ Hfit) as [?|[Ha|Ha]]; [done|rewrite <-Ha..]; [do 3 right; left|do 2 right; left].
  - destruct (Hall (program "ovn-northd" "keldaio/ovs" ["ovn-northd"] [] [] ["minion"] [])) as (i & vc & Hi & Hrun & _ & Hn & _);
      [do 6 right; left|]. eauto.
Defined.
