(* ===== verification/Registry.v ===== *)
(** * Package registry: building the custom images

    [src/minion/registry/registry.go].  A round ([syncImages]) builds the images
    that are not built yet, each in a goroutine of its own, at most eight at a
    time.  The goroutines are a list of [builder]s that the scheduler steps one at
    a time; a step is one transaction or one Docker operation. *)

From S2P Require Import Prelude GoStrings Join Blueprint DbRows Db Engine Backoff Providers Docker Supervisor.

(** ** The image table *)

Definition set_im_ID (id : Z) (img : Image) : Image := mk_Image id (im_Name img) (im_Dockerfile img) (im_RepoDigest img) (im_Status img).
Definition set_im_Status (status : string) (img : Image) : Image :=
  mk_Image (im_ID img) (im_Name img) (im_Dockerfile img) (im_RepoDigest img) status.
Definition set_im_RepoDigest (digest : string) (img : Image) : Image :=
  mk_Image (im_ID img) (im_Name img) (im_Dockerfile img) digest (im_Status img).

Section images.
Context `{MapOrder}.

Definition getImageHandle (view : Database) (ref : Image) : M store (result Image) :=
  let! matchingImages := SelectFromImage view (Some (λ img,
    bool_decide (im_Dockerfile img = im_Dockerfile ref) && bool_decide (im_Name img = im_Name ref))) in
  match matchingImages with
  | [] => mret (Err "no matching images")
  | [img] => mret (Val img)
  | _ => mret (Err "multiple matching images")
  end.

Definition writeImage (img : Image) : M store unit :=
  Run [ImageTable] (λ view,
    let! r := getImageHandle view img in
    match r with
    | Val dbImg => CommitT view (set_im_ID (im_ID dbImg) img)
    | Err _ => mret ()
    end).
End images.

(** ** The builders *)

Inductive builder :=
  | Waiting (img : Image)    (* for the semaphore *)
  | Marking (img : Image)    (* about to write the status [Building] *)
  | Baking (img : Image)     (* about to build *)
  | Pushing (img : Image)    (* about to push *)
  | Recording (img : Image)  (* about to write the outcome *)
  | Finished.

(** Holding the semaphore. *)
Definition holding (b : builder) : bool := match b with Waiting _ | Finished => false | _ => true end.
Definition finished (b : builder) : bool := match b with Finished => true | _ => false end.
Definition semaphore : nat := 8.

Section builders.
Context {W : Type} `{DockerAPI W} `{MapOrder}.

Definition registryImg (registryIP : string) (img : Image) : string := registryIP +:+ ":5000/" +:+ im_Name img.

(** The two Docker operations of [updateRegistry]. *)
Definition updateRegistry_build (registryIP : string) (img : Image) : M (dkState (W := W)) (result unit) :=
  Build (registryImg registryIP img) (im_Dockerfile img) false.
Definition updateRegistry_push (registryIP : string) (img : Image) : M (dkState (W := W)) (result string) :=
  Push (registryIP +:+ ":5000") (registryImg registryIP img).

(** Whether the builder can take a step. *)
Definition enabled (bs : list builder) (b : builder) : bool :=
  match b with
  | Waiting _ => bool_decide (length (filter holding bs) < semaphore)
  | Finished => false
  | _ => true
  end.

(** The next step of a builder. *)
Definition advance (myIP : string) (b : builder) : M (store * dkState (W := W)) builder :=
  match b with
  | Waiting img => mret (Marking (set_im_Status Building img))
  | Marking img => onFst (writeImage img) ;;; mret (Baking img)
  | Baking img =>
    let! r := onSnd (updateRegistry_build myIP img) in
    mret (match r with Val _ => Pushing img | Err _ => Recording (set_im_Status "" img) end)
  | Pushing img =>
    let! r := onSnd (updateRegistry_push myIP img) in
    mret (match r with
          | Val repoDigest => Recording (set_im_Status Built (set_im_RepoDigest repoDigest img))
          | Err _ => Recording (set_im_Status "" img)
          end)
  | Recording img => onFst (writeImage img) ;;; mret Finished
  | Finished => mret Finished
  end.

(** The builders run until all have finished ([wg.Wait]); the scheduler picks one
    of the enabled ones.  [false]: out of fuel. *)
Definition ready (bs : list builder) (i : nat) : bool := match bs !! i with Some b => enabled bs b | None => false end.
Definition enabledIdx (bs : list builder) : list nat := filter (ready bs) (seq 0 (length bs)).

Fixpoint runBuilders (fuel : nat) (choose : nat → nat) (myIP : string) (bs : list builder) : M (store * dkState (W := W)) bool :=
  if forallb finished bs then mret true
  else
    match fuel with
    | 0 => mret false
    | S fuel =>
      let idx := enabledIdx bs in
      match idx !! (choose fuel mod length idx) with
      | None => mret false
      | Some i =>
        match bs !! i with
        | None => mret false
        | Some b =>
          let! b' := advance myIP b in
          runBuilders fuel choose myIP (<[i := b']> bs)
        end
      end
    end.

Definition syncImages (choose : nat → nat) : M (store * dkState (W := W)) bool :=
  let! toBuild := onFst (Run [ImageTable] (λ view,
    SelectFromImage view (Some (λ img, bool_decide (im_Status img ≠ Built))))) in
  let! self := onFst connMinionSelf in
  runBuilders (5 * length toBuild) choose (mi_PrivateIP self) (Waiting <$> toBuild).

(** [httpGet]: a request to the registry on this host. *)
Definition bootWait (fuel : nat) (httpGet : M W (result unit)) : M W bool := retryLoop fuel (Second / 2) httpGet.
End builders.
