(* ===== verification/RegistrySpec.v ===== *)
(** * Package registry: what a round guarantees

    Docker's image store as the builders rely on it, and the theorem that a round
    terminates with every image built, whatever the scheduler does. *)

From S2P Require Import Prelude GoStrings Join Blueprint DbRows Db DbTxn DbSpec DbFrame Engine EtcdSync Backoff Providers Docker.
From S2P Require Import Supervisor Registry.

(** ** Docker's images *)

(** The name that [ParseRepositoryTag] took apart. *)
Definition imageRef (rt : string * string) : string := if bool_decide (rt.2 = "") then rt.1 else rt.1 +:+ ":" +:+ rt.2.

Class ImageLaws (W : Type) `{DockerAPI W} := {
  (** The Dockerfile that a local image, and one in the registry, was built from. *)
  localImages : W → gmap string string;
  pushedImages : W → gmap string string;
  (** A repository digest of the image with the name, built from the Dockerfile. *)
  digestOf : string → string → string → Prop;
  (** Whether Docker and the registry serve all requests. *)
  working : Prop;
  BuildImage_ok : ∀ name dockerfile nocache w,
    wp (BuildImage (mk_BuildOptions "host" name (ToTar "Dockerfile" 420 dockerfile) nocache)) w (λ r w',
      pushedImages w' = pushedImages w ∧
      (r = Val () ∧ localImages w' = <[name := dockerfile]> (localImages w) ∨
       ∃ e, r = Err e ∧ ¬ working ∧ ∀ other, other ≠ name → localImages w' !! other = localImages w !! other));
  PushImage_ok : ∀ registry repo tag dockerfile w, localImages w !! imageRef (repo, tag) = Some dockerfile →
    wp (PushImage registry repo tag) w (λ r w', localImages w' = localImages w ∧
      (r = Val () ∧ pushedImages w' = <[imageRef (repo, tag) := dockerfile]> (pushedImages w) ∨
       ∃ e, r = Err e ∧ ¬ working ∧ ∀ other, other ≠ imageRef (repo, tag) → pushedImages w' !! other = pushedImages w !! other));
  InspectImage_ok : ∀ name dockerfile w, localImages w !! name = Some dockerfile → pushedImages w !! name = Some dockerfile →
    wp (InspectImage name) w (λ r w', localImages w' = localImages w ∧ pushedImages w' = pushedImages w ∧
      ((∃ d, r = Val [d] ∧ digestOf d name dockerfile) ∨ ¬ working ∧ ∀ d, r ≠ Val [d]));
}.

(** ** Writing an image *)

Section write.
Context `{MapOrder}.

Definition uniqueKeys (t : gmap Z Image) : Prop :=
  ∀ i j x y, t !! i = Some x → t !! j = Some y → dbImageKey x = dbImageKey y → i = j.

Lemma wp_writeImage img id row s Q :
  DbOK (list_to_set [ImageTable]) s → uniqueKeys (tbl Image s) → tbl Image s !! id = Some row → dbImageKey img = dbImageKey row →
  (∀ s', only ImageTable s s' → DbOK (list_to_set [ImageTable]) s' →
     tbl Image s' = <[id := set_im_ID id img]> (tbl Image s) → Q () s') →
  wp (writeImage img) s Q.
Proof.
  intros Hok Hu Hid Hkey HQ. unfold writeImage, getImageHandle. apply wp_Run; [exact (DbOK_tables _ _ Hok)|]. wp_bind. wp_bind.
  apply wp_SelectFrom; [done|set_solver|]. intros l s1 Hs1 Hl.
  destruct (tbl_lookup _ _ _ (proj1 Hok) Hid) as [Hrid _].
  assert (l = [row]) as ->.
  { apply Permutation_singleton_r. rewrite Hl. rewrite (vals_delete _ _ _ Hid), filter_cons_True.
    - rewrite filter_none; [done|]. intros x (j & [Hne Hj]%lookup_delete_Some)%elem_of_vals Hp.
      apply andb_true_iff in Hp as [Hd%bool_decide_eq_true Hn%bool_decide_eq_true]. apply Hne. eapply Hu; [exact Hid|exact Hj|].
      rewrite <-Hkey. unfold dbImageKey. congruence.
    - injection Hkey as Hn Hd. apply andb_true_iff. by rewrite !bool_decide_eq_true. }
  wp_ret. assert (im_ID row = id) as -> by exact Hrid.
  eapply wp_CommitT; [by eapply same_ok|set_solver|by rewrite (same_tbl _ _ Hs1)|]. intros s2 Hok2 Ho _ Ht s3 Hs3. apply HQ.
  - eapply only_trans; [by apply same_only|]. eapply only_trans; [exact Ho|by apply same_only].
  - by eapply same_ok.
  - by rewrite (same_tbl _ _ Hs3), Ht, (same_tbl _ _ Hs1).
Qed.
End write.

(** ** The builders *)

(** The steps that a builder has left, at most. *)
Definition weight (b : builder) : nat :=
  match b with Waiting _ => 5 | Marking _ => 4 | Baking _ => 3 | Pushing _ => 2 | Recording _ => 1 | Finished => 0 end.
Definition weights (bs : list builder) : nat := sum_list (weight <$> bs).

Lemma weights_insert bs i b b' : bs !! i = Some b → weights (<[i := b']> bs) + weight b = weights bs + weight b'.
Proof.
  unfold weights. revert i. induction bs as [|x bs IH]; intros [|i] Hi; csimpl in *; [done|done|simplify_eq; lia|].
  apply IH in Hi. lia.
Qed.

Lemma weights_finished bs : weights bs = 0 → forallb finished bs = true.
Proof. unfold weights. induction bs as [|b bs IH]; csimpl; [done|]. intros Hw. destruct b; simpl in *; try lia. apply IH. lia. Qed.

Lemma elem_of_enabledIdx bs i : i ∈ enabledIdx bs ↔ ∃ b, bs !! i = Some b ∧ enabled bs b.
Proof.
  unfold enabledIdx, ready. rewrite list_elem_of_filter, elem_of_seq. split.
  - intros [He _]. destruct (bs !! i) as [b|]; [by exists b|done].
  - intros (b & Hi & He). rewrite Hi. split; [done|]. apply lookup_lt_Some in Hi. lia.
Qed.

(** The semaphore never blocks all builders. *)
Lemma some_enabled bs : forallb finished bs = false → enabledIdx bs ≠ [].
Proof.
  intros Hf Hnil. assert (∀ i b, bs !! i = Some b → ¬ enabled bs b) as Hno.
  { intros i b Hi He. assert (i ∈ enabledIdx bs) as Hin by (apply elem_of_enabledIdx; eauto). rewrite Hnil in Hin. by apply not_elem_of_nil in Hin. }
  assert (filter holding bs = []) as Hnone.
  { apply filter_none. intros b [i Hi]%list_elem_of_lookup Hh. apply (Hno i b Hi). by destruct b. }
  apply not_true_iff_false in Hf. apply Hf, forallb_forall. intros b [i Hi]%list_elem_of_In%list_elem_of_lookup.
  specialize (Hno i b Hi). destruct b; try done; [|by destruct Hno..].
  exfalso. apply Hno. simpl. rewrite Hnone. by apply bool_decide_spec; simpl; unfold semaphore; lia.
Qed.

Lemma chosen bs k : forallb finished bs = false →
  ∃ i b, enabledIdx bs !! (k mod length (enabledIdx bs)) = Some i ∧ bs !! i = Some b ∧ enabled bs b.
Proof.
  intros Hf. pose proof (some_enabled bs Hf) as Hne.
  destruct (lookup_lt_is_Some_2 (enabledIdx bs) (k mod length (enabledIdx bs))) as [i Hi].
  { apply Nat.mod_upper_bound. by destruct (enabledIdx bs). }
  exists i. pose proof (list_elem_of_lookup_2 _ _ _ Hi) as (b & Hb & He)%elem_of_enabledIdx. by exists b.
Qed.

Section spec.
Context {W : Type} `{ImageLaws W} `{MapOrder}.
Context (ip : string).
Implicit Types w : W.

Notation ref := (registryImg ip).
(** The name of the image can be taken apart and put together again. *)
Definition refOk (img : Image) : Prop := imageRef (ParseRepositoryTag (ref img)) = ref img.

Definition marked (img : Image) : Image := set_im_Status Building img.

(** What becomes of the row [img0]: built, and in the registry, or, when a request
    was not served, to be tried again. *)
Definition outcome_of (img0 img : Image) w : Prop :=
  (∃ d, img = set_im_Status Built (set_im_RepoDigest d img0) ∧ digestOf d (ref img0) (im_Dockerfile img0) ∧
     pushedImages w !! ref img0 = Some (im_Dockerfile img0)) ∨
  (¬ working ∧ img = set_im_Status "" img0).

(** The builder of [img0], while the table has [row]. *)
Definition builderOk (img0 : Image) (b : builder) (row : Image) w : Prop :=
  match b with
  | Waiting img => img = img0 ∧ row = img0
  | Marking img => img = marked img0 ∧ row = img0
  | Baking img => img = marked img0 ∧ row = marked img0
  | Pushing img => img = marked img0 ∧ row = marked img0 ∧ localImages w !! ref img0 = Some (im_Dockerfile img0)
  | Recording img => row = marked img0 ∧ outcome_of img0 img w
  | Finished => outcome_of img0 row w
  end.

Lemma builderOk_frame img0 b row w w' :
  localImages w' !! ref img0 = localImages w !! ref img0 → pushedImages w' !! ref img0 = pushedImages w !! ref img0 →
  builderOk img0 b row w → builderOk img0 b row w'.
Proof. intros Hl Hp. destruct b; simpl; unfold outcome_of; rewrite ?Hl, ?Hp; done. Qed.

Lemma outcome_key img0 img w : outcome_of img0 img w → dbImageKey img = dbImageKey img0 ∧ im_ID img = im_ID img0.
Proof. by intros [(d & -> & _)|[_ ->]]. Qed.

(** A step of the builder of [img0], from the row [row] to the row [row']. *)
Record advanced (img0 : Image) (b' : builder) (row' : Image) (s s' : store) w w' : Prop := {
  ad_ok : builderOk img0 b' row' w';
  ad_only : only ImageTable s s';
  ad_db : DbOK (list_to_set [ImageTable]) s';
  ad_tbl : tbl Image s' = <[im_ID img0 := row']> (tbl Image s);
  ad_key : dbImageKey row' = dbImageKey img0;
  ad_local : ∀ name, name ≠ ref img0 → localImages w' !! name = localImages w !! name;
  ad_pushed : ∀ name, name ≠ ref img0 → pushedImages w' !! name = pushedImages w !! name;
}.

Lemma advanced_docker img0 b' row s w w' :
  DbOK (list_to_set [ImageTable]) s → tbl Image s !! im_ID img0 = Some row → dbImageKey row = dbImageKey img0 →
  builderOk img0 b' row w' → (∀ name, name ≠ ref img0 → localImages w' !! name = localImages w !! name) →
  (∀ name, name ≠ ref img0 → pushedImages w' !! name = pushedImages w !! name) → advanced img0 b' row s s w w'.
Proof. intros Hok Hrow Hkey Hb Hl Hp. split; try done. by rewrite insert_id. Qed.

Lemma wp_Push img0 c w Q :
  refOk img0 → localImages w !! ref img0 = Some (im_Dockerfile img0) →
  (∀ d w', localImages w' = localImages w → pushedImages w' = <[ref img0 := im_Dockerfile img0]> (pushedImages w) →
     digestOf d (ref img0) (im_Dockerfile img0) → Q (Val d) (c, w')) →
  (∀ e w', localImages w' = localImages w → (∀ other, other ≠ ref img0 → pushedImages w' !! other = pushedImages w !! other) →
     ¬ working → Q (Err e) (c, w')) →
  wp (Push (ip +:+ ":5000") (ref img0)) (c, w) Q.
Proof.
  unfold refOk. intros Href Hl HV HE. unfold Push. destruct (ParseRepositoryTag (ref img0)) as [repo tag]. apply wp_try, wp_onSnd. cbn [fst snd].
  wp_use (PushImage_ok (W := W)); [by rewrite Href|]. rewrite Href. intros r w1 (Hl1 & [[-> Hp1]|(e & -> & Hnw & Hp1)]).
  2:{ by apply HE. }
  apply wp_try, wp_onSnd. cbn [fst snd]. wp_use (InspectImage_ok (W := W)); [by rewrite Hl1|by rewrite Hp1, lookup_insert_eq|].
  intros r w2 (Hl2 & Hp2 & [(d & -> & Hd)|[Hnw Hno]]).
  - apply HV; [congruence|congruence|done].
  - assert (∀ other, other ≠ ref img0 → pushedImages w2 !! other = pushedImages w !! other) as Hoth.
    { intros other Hne. by rewrite Hp2, Hp1, lookup_insert_ne. }
    destruct r as [ds|e]; [|by apply HE; [congruence|..]].
    destruct ds as [|d [|]]; [|by destruct (Hno d)|]; apply HE; by try congruence.
Qed.

Lemma wp_advance img0 b row s c w Q :
  DbOK (list_to_set [ImageTable]) s → uniqueKeys (tbl Image s) → tbl Image s !! im_ID img0 = Some row →
  dbImageKey row = dbImageKey img0 → refOk img0 → builderOk img0 b row w → finished b = false →
  (∀ b' row' s' w', advanced img0 b' row' s s' w w' → weight b' < weight b → Q b' (s', (c, w'))) →
  wp (advance ip b) (s, (c, w)) Q.
Proof.
  intros Hok Hu Hrow Hkey Href Hb Hnf HQ. destruct b as [img|img|img|img|img|]; simpl in *; [| | | | |done].
  - destruct Hb as [-> ->]. wp_ret. eapply (HQ _ img0 s w); [|simpl; lia]. by apply advanced_docker.
  - destruct Hb as [-> ->]. wp_bind. apply wp_onFst. cbn [fst snd]. eapply wp_writeImage; [done..|]. intros s' Ho Hok' Ht. wp_ret.
    eapply (HQ _ (marked img0) s' w); [|simpl; lia]. by split.
  - destruct Hb as [-> ->]. wp_bind. apply wp_onSnd. unfold updateRegistry_build, Build. apply wp_onSnd. cbn [fst snd]. wp_use (BuildImage_ok (W := W)).
    intros r w' (Hp & [[-> Hl]|(e & -> & Hnw & Hl)]); wp_ret.
    + eapply (HQ _ (marked img0) s w'); [|simpl; lia]. apply advanced_docker; [done..| | |by rewrite Hp].
      * split_and!; [done..|]. by rewrite Hl, lookup_insert_eq.
      * intros name Hne. by rewrite Hl, lookup_insert_ne by (by apply not_eq_sym).
    + eapply (HQ _ (marked img0) s w'); [|simpl; lia]. apply advanced_docker; [done..| |done|by rewrite Hp]. split; [done|by right].
  - destruct Hb as (-> & -> & Hl). wp_bind. apply wp_onSnd. cbn [fst snd]. apply (wp_Push img0); [done..| |].
    + intros d w' Hl' Hp' Hd. wp_ret. eapply (HQ _ (marked img0) s w'); [|simpl; lia].
      apply advanced_docker; [done..| |by rewrite Hl'|intros; by rewrite Hp', lookup_insert_ne by (by apply not_eq_sym)].
      split; [done|]. left. exists d. split_and!; [done..|]. by rewrite Hp', lookup_insert_eq.
    + intros e w' Hl' Hp' Hnw. wp_ret. eapply (HQ _ (marked img0) s w'); [|simpl; lia].
      apply advanced_docker; [done..| |by rewrite Hl'|done]. split; [done|by right].
  - destruct Hb as [-> Hout]. destruct (outcome_key _ _ _ Hout) as [Hk Hi]. wp_bind. apply wp_onFst. cbn [fst snd].
    eapply wp_writeImage; [done..|]. intros s' Ho Hok' Ht. wp_ret.
    assert (set_im_ID (im_ID img0) img = img) as Himg by (rewrite <-Hi; by destruct img).
    rewrite Himg in Ht. eapply (HQ _ img s' w); [|simpl; lia]. by split.
Qed.

(** ** All builders *)

Section run.
Context (imgs : list Image) (s0 : store).
Context (Hkeys : uniqueKeys (tbl Image s0)) (Hnames : NoDup (im_Name <$> imgs)).
Context (Hin : ∀ img, img ∈ imgs → tbl Image s0 !! im_ID img = Some img ∧ refOk img).

Record runOk (bs : list builder) (s : store) w : Prop := {
  ro_db : DbOK (list_to_set [ImageTable]) s;
  ro_only : only ImageTable s0 s;
  ro_length : length bs = length imgs;
  ro_keys : ∀ id x, tbl Image s !! id = Some x → ∃ y, tbl Image s0 !! id = Some y ∧ dbImageKey x = dbImageKey y;
  ro_other : ∀ id, id ∉ im_ID <$> imgs → tbl Image s !! id = tbl Image s0 !! id;
  ro_builders : ∀ i img0 b, imgs !! i = Some img0 → bs !! i = Some b →
    ∃ row, tbl Image s !! im_ID img0 = Some row ∧ dbImageKey row = dbImageKey img0 ∧ builderOk img0 b row w;
}.

Lemma runOk_unique bs s w : runOk bs s w → uniqueKeys (tbl Image s).
Proof.
  intros Hr i j x y Hi Hj Hxy. destruct (ro_keys _ _ _ Hr _ _ Hi) as (x' & Hi' & Hx), (ro_keys _ _ _ Hr _ _ Hj) as (y' & Hj' & Hy).
  eapply Hkeys; [exact Hi'|exact Hj'|congruence].
Qed.

Lemma imgs_apart i j a b : imgs !! i = Some a → imgs !! j = Some b → i ≠ j → im_ID a ≠ im_ID b ∧ ref a ≠ ref b.
Proof.
  intros Hi Hj Hne. assert (im_Name a ≠ im_Name b) as Hn.
  { intros Heq. apply Hne. eapply (NoDup_lookup _ _ _ (im_Name a) Hnames); rewrite list_lookup_fmap; [by rewrite Hi|by rewrite Hj, Heq]. }
  split.
  - intros Heq. destruct (Hin a) as [Ha _]; [by eapply list_elem_of_lookup_2|]. destruct (Hin b) as [Hb _]; [by eapply list_elem_of_lookup_2|].
    apply Hn. congruence.
  - unfold registryImg. intros [_ Heq]%app_inj_s; [|done]. by injection Heq.
Qed.

Lemma runOk_advanced bs s w i img0 b b' row' s' w' :
  runOk bs s w → imgs !! i = Some img0 → bs !! i = Some b → advanced img0 b' row' s s' w w' → runOk (<[i := b']> bs) s' w'.
Proof.
  intros [Hok Ho Hlen Hk Hoth Hb] Hi Hbi [Ab Ao Ad At Ak Al Ap].
  assert (img0 ∈ imgs) as Himg by (by eapply list_elem_of_lookup_2). split; [done|by eapply only_trans|by rewrite length_insert| | |].
  - intros id x. rewrite At, lookup_insert_Some. intros [[<- <-]|[_ Hx]]; [|by apply Hk].
    exists img0. split; [by apply Hin|done].
  - intros id Hid. rewrite At, lookup_insert_ne; [by apply Hoth|]. intros <-. apply Hid. by apply list_elem_of_fmap_2.
  - intros j img1 b1 Hj Hb1. destruct (decide (i = j)) as [<-|Hne].
    + rewrite list_lookup_insert_eq in Hb1 by (by eapply lookup_lt_Some). injection Hb1 as <-.
      assert (img1 = img0) as -> by congruence. exists row'.
      split_and!; [|done|done]. rewrite At. apply lookup_insert_eq.
    + rewrite list_lookup_insert_ne in Hb1 by done. destruct (imgs_apart _ _ _ _ Hi Hj Hne) as [Hid Href].
      destruct (Hb j img1 b1 Hj Hb1) as (row & Hrow & Hkey & Hbo). exists row.
      split_and!; [by rewrite At, lookup_insert_ne|done|]. eapply builderOk_frame; [| |exact Hbo]; [apply Al|apply Ap]; by apply not_eq_sym.
Qed.

Lemma wp_runBuilders fuel choose bs s c w Q :
  runOk bs s w → weights bs ≤ fuel →
  (∀ bs' s' w', runOk bs' s' w' → forallb finished bs' = true → Q true (s', (c, w'))) →
  wp (runBuilders fuel choose ip bs) (s, (c, w)) Q.
Proof.
  revert bs s w Q. induction fuel as [|fuel IH]; intros bs s w Q Hr Hw HQ; simpl.
  { rewrite weights_finished by lia. wp_ret. apply (HQ bs); [done|apply weights_finished; lia]. }
  destruct (forallb finished bs) eqn:Hf; [wp_ret; by eapply HQ|].
  destruct (chosen bs (choose fuel) Hf) as (i & b & -> & Hb & He). rewrite Hb. wp_bind.
  destruct (lookup_lt_is_Some_2 imgs i) as [img0 Himg]. { rewrite <-(ro_length _ _ _ Hr). by eapply lookup_lt_Some. }
  destruct (ro_builders _ _ _ Hr _ _ _ Himg Hb) as (row & Hrow & Hkey & Hbo).
  eapply wp_advance; [apply Hr|by eapply runOk_unique|exact Hrow|done| |exact Hbo|by destruct b|].
  { apply Hin. by eapply list_elem_of_lookup_2. }
  intros b' row' s' w' Had Hlt. apply IH; [by eapply runOk_advanced| |done]. pose proof (weights_insert bs i b b' Hb). lia.
Qed.

Lemma runOk_start w s : same s0 s → DbOK (list_to_set [ImageTable]) s0 → runOk (Waiting <$> imgs) s w.
Proof.
  intros Hs Hok. split; [by eapply same_ok|by apply same_only|by rewrite length_fmap| | |].
  - intros id x Hx. rewrite (same_tbl _ _ Hs) in Hx. by exists x.
  - intros id _. by rewrite (same_tbl _ _ Hs).
  - intros i img0 b Hi Hb. rewrite list_lookup_fmap, Hi in Hb. injection Hb as <-. exists img0.
    split_and!; [|done|done]. rewrite (same_tbl _ _ Hs). apply Hin. by eapply list_elem_of_lookup_2.
Qed.

Lemma runOk_end bs s w img : runOk bs s w → forallb finished bs = true → img ∈ imgs →
  ∃ row, tbl Image s !! im_ID img = Some row ∧ outcome_of img row w.
Proof.
  intros Hr Hf [i Hi]%list_elem_of_lookup. destruct (lookup_lt_is_Some_2 bs i) as [b Hb].
  { rewrite (ro_length _ _ _ Hr). by eapply lookup_lt_Some. }
  destruct (ro_builders _ _ _ Hr _ _ _ Hi Hb) as (row & Hrow & _ & Hbo). exists row. split; [done|].
  rewrite forallb_forall in Hf. specialize (Hf b). destruct b; simpl in Hf; try done;
    discriminate Hf; by apply list_elem_of_In; eapply list_elem_of_lookup_2.
Qed.
End run.

Lemma weights_waiting imgs : weights (Waiting <$> imgs) = 5 * length imgs.
Proof. unfold weights. induction imgs as [|img imgs IH]; csimpl; [done|]. rewrite IH. simpl. lia. Qed.
End spec.

(** ** Properties *)

Definition registryTables : list string := [ImageTable; MinionTable].

(** C12: A round of the registry finishes, whatever the scheduler does, and gives
    every image its outcome: for images with distinct names, no builder is blocked
    for good (eight at a time hold the semaphore), five steps per image suffice,
    images that were built are left alone, and every other one is afterwards marked
    built with a digest of an image built from its own Dockerfile, which the
    registry has under its name.  If Docker or the registry did not serve a
    request, the image may instead have the empty status and its old digest, to be
    tried in the next round; it never stays marked as being built. *)
Theorem syncImages_builds {W} `{ImageLaws W} `{MapOrder} choose s c (w : W) m :
  DbOK (list_to_set registryTables) s → selfRows (vals (tbl Minion s)) = [m] → uniqueKeys (tbl Image s) →
  (∀ i j a b, tbl Image s !! i = Some a → tbl Image s !! j = Some b → im_Status a ≠ Built → im_Status b ≠ Built →
     im_Name a = im_Name b → i = j) →
  (∀ i img, tbl Image s !! i = Some img → refOk (mi_PrivateIP m) img) →
  wp (syncImages choose) (s, (c, w)) (λ fin st, fin = true ∧ only ImageTable s st.1 ∧
    (∀ i img, tbl Image s !! i = Some img → ∃ row, tbl Image st.1 !! i = Some row ∧
       (im_Status img = Built → row = img) ∧ (im_Status img ≠ Built → outcome_of (mi_PrivateIP m) img row st.2.2)) ∧
    (∀ i, is_Some (tbl Image st.1 !! i) → is_Some (tbl Image s !! i))).
Proof.
  intros Hok Hself Hk Hn Href. unfold syncImages. wp_bind. apply wp_onFst. cbn [fst snd].
  assert (DbOK (list_to_set [ImageTable]) s) as Hoki by (eapply DbOK_subset; [exact Hok|unfold registryTables; set_solver]).
  assert (DbOK (list_to_set [MinionTable]) s) as Hokm by (eapply DbOK_subset; [exact Hok|unfold registryTables; set_solver]).
  apply wp_Run; [exact (DbOK_tables _ _ Hoki)|]. unfold SelectFromImage. apply (wp_SelectFrom (T := Image)); [exact Hoki|vm_decide|]. intros imgs s1 Hs1 Himgs s2 Hs2. wp_bind.
  pose proof (same_trans _ _ _ Hs1 Hs2) as Hs. apply wp_onFst. cbn [fst snd].
  eapply wp_connMinionSelf; [by eapply same_ok|by rewrite (same_tbl _ _ Hs)|]. intros s3 Hs3. cbn [fst snd].
  pose proof (same_trans _ _ _ Hs Hs3) as Hs'.
  assert (∀ img, img ∈ imgs ↔ im_Status img ≠ Built ∧ tbl Image s !! im_ID img = Some img) as Hin.
  { intros img. rewrite Himgs, list_elem_of_filter. simpl. rewrite bool_decide_eq_true. apply and_iff_compat_l.
    exact (elem_of_tbl (T := Image) s img (proj1 Hoki)). }
  assert (NoDup (im_Name <$> imgs)) as Hnd.
  { apply NoDup_fmap_inj_on.
    - rewrite Himgs. apply NoDup_filter. eapply NoDup_fmap_1, (NoDup_tbl_ids (T := Image)), Hoki.
    - intros a b [Ha Hsa]%Hin [Hb Hsb]%Hin Heq. pose proof (Hn _ _ _ _ Hsa Hsb Ha Hb Heq). congruence. }
  assert (∀ img, img ∈ imgs → tbl Image s !! im_ID img = Some img ∧ refOk (mi_PrivateIP m) img) as Hi.
  { intros img [_ Hi]%Hin. split; [exact Hi|exact (Href _ _ Hi)]. }
  eapply (wp_runBuilders (mi_PrivateIP m) imgs s Hk Hnd Hi); [exact (runOk_start _ _ _ Hi _ _ Hs' Hoki)|by rewrite weights_waiting|].
  intros bs' s' w' Hr Hf. split_and!; [done|apply Hr| |].
  - intros i img Him. destruct (tbl_lookup _ _ _ (proj1 Hoki) Him) as [Hid _]. change (im_ID img = i) in Hid. subst i.
    destruct (decide (im_Status img = Built)) as [Hb|Hb].
    + exists img. split_and!; [|done|done]. simpl. rewrite (ro_other _ _ _ _ _ _ Hr); [done|].
      intros (x & Hx & [Hsx Htx]%Hin)%list_elem_of_fmap. rewrite <-Hx in Htx. congruence.
    + destruct (runOk_end _ _ _ _ _ _ img Hr Hf) as (row & Hrow & Ho); [by apply Hin|]. exists row. split_and!; [exact Hrow|done|by intros _].
  - intros i [x Hx]. destruct (ro_keys _ _ _ _ _ _ Hr _ _ Hx) as (y & Hy & _). by exists y.
Qed.
