(* ===== verification/RegistrySim.v ===== *)
(** * Package registry: a simulated image store

    A Docker that keeps the Dockerfile of each image, and the theorem on it; two
    images of one name show why their names must differ. *)

From S2P Require Import Prelude GoStrings Join Blueprint DbRows Db DbTxn DbSpec DbFrame Engine EtcdSync Backoff Providers Docker.
From S2P Require Import Supervisor Registry RegistrySpec.

Record imageHost := mk_imageHost { ih_local : gmap string string; ih_pushed : gmap string string }.

Definition simDigest (name dockerfile : string) : string := name +:+ "@" +:+ dockerfile.

#[export] Instance simImages : DockerAPI imageHost := {
  dk_clock := {| now _ := 0%Z; sleep _ v := v |};
  StartContainer _ _ := mret (Err "not simulated");
  UploadToContainer _ _ _ := mret (Err "not simulated");
  RemoveContainer _ := mret (Err "not simulated");
  dkc_RenameContainer _ _ := mret (Err "not simulated");
  BuildImage opts := λ h, Ok (Val (), mk_imageHost (<[bo_Name opts := tar_Content (bo_Input opts)]> (ih_local h)) (ih_pushed h));
  PullImage _ _ := mret (Err "not simulated");
  PushImage _ repo tag := λ h,
    match ih_local h !! imageRef (repo, tag) with
    | Some dockerfile => Ok (Val (), mk_imageHost (ih_local h) (<[imageRef (repo, tag) := dockerfile]> (ih_pushed h)))
    | None => Ok (Err "no such image", h)
    end;
  ListContainers _ _ := mret (Err "not simulated");
  InspectContainer _ := mret (Err "not simulated");
  InspectImage name := λ h,
    Ok (match ih_pushed h !! name with Some dockerfile => Val [simDigest name dockerfile] | None => Err "no such image" end, h);
  CreateContainer _ := mret (Err "not simulated");
  dkc_CreateNetwork _ := mret (Err "not simulated");
  dkc_ListNetworks := mret (Err "not simulated");
}.

#[export] Instance simImages_laws : ImageLaws imageHost.
Proof.
  refine {| localImages := ih_local; pushedImages := ih_pushed; digestOf d name dockerfile := d = simDigest name dockerfile; working := True |};
    intros; unfold wp; simpl.
  - split; [done|by left].
  - rewrite H. split; [done|by left].
  - rewrite H0. split_and!; [done..|]. left. by eexists.
Defined.

(** ** Examples *)

#[local] Existing Instance fixed_order.

Definition demo_master : Minion := demo_minion 1 true Master "10.1.1.1".
Definition demo_image (id : Z) (name dockerfile digest status : string) : row := RImage (mk_Image id name dockerfile digest status).

(** One image that is built, two that are not. *)
Definition demo_images : store :=
  storeOf [RMinion demo_master; demo_image 2 "app" "FROM a" "old@a" Built; demo_image 3 "db" "FROM b" "" "";
           demo_image 4 "web" "FROM c" "" Building].

Example syncImages_example :
  match syncImages (λ k, k) (demo_images, (∅, mk_imageHost ∅ ∅)) with
  | Ok (fin, (s, _)) => (fin, (λ i, (im_Name i, im_RepoDigest i, im_Status i)) <$> vals (tbl Image s))
  | Panic _ => (false, [])
  end = (true, [("db", "10.1.1.1:5000/db@FROM b", "built"); ("web", "10.1.1.1:5000/web@FROM c", "built"); ("app", "old@a", "built")]).
Proof. vm_compute. reflexivity. Qed.

(** Two images of one name: the builders alternate, and the first image is marked
    built with the other one's digest. *)
Definition demo_twins : store := storeOf [RMinion demo_master; demo_image 2 "app" "FROM a" "" ""; demo_image 3 "app" "FROM b" "" ""].

Example same_name_race :
  match syncImages (λ k, k) (demo_twins, (∅, mk_imageHost ∅ ∅)) with
  | Ok (fin, (s, _)) => (fin, (λ i, (im_Dockerfile i, im_RepoDigest i, im_Status i)) <$> vals (tbl Image s))
  | Panic _ => (false, [])
  end = (true, [("FROM b", "10.1.1.1:5000/app@FROM b", "built"); ("FROM a", "10.1.1.1:5000/app@FROM b", "built")]).
Proof. vm_compute. reflexivity. Qed.

Lemma demo_images_all (P : Image → Prop) : Forall P (vals (tbl Image demo_images)) → ∀ i x, tbl Image demo_images !! i = Some x → P x.
Proof. rewrite Forall_forall. intros HP i x Hi. apply HP, elem_of_vals. by exists i. Qed.

Lemma syncImages_builds_witness :
  wp (syncImages (λ k, k)) (demo_images, (∅, mk_imageHost ∅ ∅)) (λ fin st, fin = true ∧ only ImageTable demo_images st.1 ∧
    (∀ i img, tbl Image demo_images !! i = Some img → ∃ row, tbl Image st.1 !! i = Some row ∧
       (im_Status img = Built → row = img) ∧ (im_Status img ≠ Built → outcome_of "10.1.1.1" img row st.2.2)) ∧
    (∀ i, is_Some (tbl Image st.1 !! i) → is_Some (tbl Image demo_images !! i))).
Proof.
  refine (syncImages_builds (W := imageHost) (λ k, k) demo_images ∅ (mk_imageHost ∅ ∅) demo_master _ _ _ _ _).
  - vm_decide.
  - vm_compute. reflexivity.
  - intros i j x y Hi Hj Hk. assert (map_Forall (λ i x, map_Forall (λ j y, dbImageKey x = dbImageKey y → i = j) (tbl Image demo_images))
      (tbl Image demo_images)) as Hall by vm_decide. exact (Hall i x Hi j y Hj Hk).
  - intros i j x y Hi Hj _ _ Hk. assert (map_Forall (λ i x, map_Forall (λ j y, im_Name x = im_Name y → i = j) (tbl Image demo_images))
      (tbl Image demo_images)) as Hall by vm_decide. exact (Hall i x Hi j y Hj Hk).
  - apply demo_images_all. unfold refOk. vm_decide.
Defined.
