(* ===== verification/Credentials.v ===== *)
(** * Credentials of the machines

    [src/cloud/credentials.go]: installing TLS certificates and the Kubernetes
    secret over SFTP, with [MinionFiles] of [src/connection/tls/io] and [NewSigned] of
    [src/connection/tls/rsa].  The machines are a world behind [Sftp], and what [NewSigned]
    calls of the cryptographic packages is behind [Crypto]; the two package variables are
    state.  The laws let a host that is not [reachable] fail at any call, and making a
    certificate fail when the authority cannot sign. *)

From S2P Require Import Prelude GoStrings Join Blueprint DbRows Db DbTxn DbSpec DbFrame Engine EtcdSync Backoff Providers GoNet Docker Supervisor.

(** ** Files *)

(** [rsa.KeyPair]: its certificate and its private key, as PEM text. *)
Record KeyPair := mk_KeyPair { CertString : string; PrivateKeyString : string }.
Record File := mk_File { f_Path : string; f_Content : string; f_Mode : Z }.

(** 0644 and 0600 *)
Definition MinionFiles (dir : string) (ca signed : KeyPair) : list File :=
  [mk_File (CACertPath dir) (CertString ca) 420;
   mk_File (SignedCertPath dir) (CertString signed) 420;
   mk_File (SignedKeyPath dir) (PrivateKeyString signed) 384].

(** [x509.Certificate] as a template: the fields that are set. *)
Record certificate := mk_certificate {
  x_SerialNumber : Z;
  x_NotBefore : Z;
  x_NotAfter : Z;
  x_ExtKeyUsage : list string;
  x_IPAddresses : list (option IP);
  x_CommonName : string;
  x_Organization : list string;
}.

(** [getSftpFs] and the operations of the file system it answers. *)
Class Sftp (W : Type) := {
  sftpOpen : string → M W (result unit);
  sftpClose : string → M W unit;
  sftpStat : string → string → M W (result unit);
  sftpMkdirAll : string → string → Z → M W (result unit);
  sftpCreate : string → string → M W (result unit);
  sftpChmod : string → string → Z → M W (result unit);
  sftpWrite : string → string → string → M W (result unit);
}.
(** [rsa.GenerateKey] (the key as PEM text), [rand.Int] up to 128 bits, [time.Now],
    [x509.CreateCertificate] of a template for a key, signed by a key pair (the
    certificate as PEM text), and [x509.ParseCertificate]. *)
Class Crypto (W : Type) := {
  GenerateKey : M W (result string);
  randInt : M W (result Z);
  cryptoNow : M W Z;
  CreateCertificate : certificate → KeyPair → string → M W (result string);
  ParseCertificate : string → M W (result unit);
}.

Section rsa.
Context {W : Type} `{Crypto W}.

(** [certTemplate]: valid for a year of 365 days. *)
Definition certTemplate : M W (result (Z * Z * Z)) :=
  let! r := randInt in
  match r with
  | Err e => mret (Err e)
  | Val serialNumber =>
    let! now := cryptoNow in
    mret (Val (serialNumber, now, (now + 1 * 365 * 24 * 3600 * Second)%Z))
  end.

Definition NewSigned (signer : KeyPair) (commonName : string) (organization : list string) (ips : list (option IP)) : M W (result KeyPair) :=
  let! r := GenerateKey in
  match r with
  | Err e => mret (Err ("create key: " +:+ e))
  | Val key =>
    let! r := certTemplate in
    match r with
    | Err e => mret (Err ("create template: " +:+ e))
    | Val (serialNumber, notBefore, notAfter) =>
      let template := mk_certificate serialNumber notBefore notAfter ["ClientAuth"; "ServerAuth"] ips commonName organization in
      let! r := CreateCertificate template signer key in
      match r with
      | Err e => mret (Err ("create cert: " +:+ e))
      | Val cert =>
        let! r := ParseCertificate cert in
        mret (match r with Val _ => Val (mk_KeyPair cert key) | Err e => Err e end)
      end
    end
  end.
End rsa.

Section credentials.
Context {W : Type} `{Sftp W} `{Crypto W} `{MapOrder} `{ParseIPv6}.

(** ** Installing *)

Definition write (host path contents : string) (mode : Z) : M W (result unit) :=
  let! r := sftpCreate host path in
  match r with
  | Err e => mret (Err ("create: " +:+ e))
  | Val _ =>
    let! r := sftpChmod host path mode in
    match r with
    | Err e => mret (Err ("chmod: " +:+ e))
    | Val _ =>
      let! r := sftpWrite host path contents in
      mret (match r with Val _ => Val () | Err e => Err ("write: " +:+ e) end)
    end
  end.

Fixpoint writeFiles (host : string) (files : list File) : M W bool :=
  match files with
  | [] => mret true
  | f :: files =>
    let! r := write host (f_Path f) (f_Content f) (f_Mode f) in
    match r with Val _ => writeFiles host files | Err _ => mret false end
  end.

(** The body of [generateAndInstallCerts], with the connection open. *)
Definition installCerts (machine : Machine) (ca : KeyPair) : M W bool :=
  let host := m_PublicIP machine in
  let! r := sftpStat host (SignedCertPath MinionTLSDir) in
  match r with
  | Val _ => mret true
  | Err _ =>
    let! r := NewSigned ca ("system:node:" +:+ m_PrivateIP machine) ["system:nodes"] [ParseIP (m_PrivateIP machine)] in
    match r with
    | Err _ => mret false
    | Val signed =>
      let! r := sftpMkdirAll host MinionTLSDir 493 in
      match r with
      | Err _ => mret false
      | Val _ => writeFiles host (MinionFiles MinionTLSDir ca signed)
      end
    end
  end.

Definition generateAndInstallCerts (machine : Machine) (ca : KeyPair) : M W bool :=
  let! r := sftpOpen (m_PublicIP machine) in
  match r with
  | Err _ => mret false
  | Val _ =>
    let! ok := installCerts machine ca in
    sftpClose (m_PublicIP machine) ;;;
    mret ok
  end.

Definition installKubeSecret (machine : Machine) (kubeSecret : string) : M W (result unit) :=
  let host := m_PublicIP machine in
  let! r := sftpOpen host in
  match r with
  | Err e => mret (Err e)
  | Val _ =>
    let! r := sftpStat host MinionKubeSecretPath in
    let! r :=
      match r with
      | Val _ => mret (Val ())
      | Err _ => write host MinionKubeSecretPath kubeSecret 256
      end in
    sftpClose host ;;;
    mret r
  end.

(** ** The round *)

Record credState := mk_credState { machinesWithTLS : gset string; machinesWithKubeSecret : gset string }.

Definition needsTLS (cs : credState) (m : Machine) : bool :=
  bool_decide (m_CloudID m ∉ machinesWithTLS cs) && bool_decide (m_Status m ≠ Stopping) && bool_decide (m_PublicIP m ≠ "").
Definition needsKubeSecret (cs : credState) (m : Machine) : bool :=
  bool_decide (m_CloudID m ∉ machinesWithKubeSecret cs) && bool_decide (m_Status m ≠ Stopping) && bool_decide (m_PublicIP m ≠ "") &&
  bool_decide (m_Role m = Master).

Definition tlsMachine (ca : KeyPair) (m : Machine) : M (credState * W) unit :=
  let! ok := onSnd (generateAndInstallCerts m ca) in
  if (ok : bool)
  then modify (λ st, (mk_credState ({[m_CloudID m]} ∪ machinesWithTLS st.1) (machinesWithKubeSecret st.1), st.2))
  else mret ().
Definition secretMachine (kubeSecret : string) (m : Machine) : M (credState * W) unit :=
  let! r := onSnd (installKubeSecret m kubeSecret) in
  match r with
  | Val _ => modify (λ st, (mk_credState (machinesWithTLS st.1) ({[m_CloudID m]} ∪ machinesWithKubeSecret st.1), st.2))
  | Err _ => mret ()
  end.

Definition syncCredentialsOnce (ca : KeyPair) (kubeSecret : string) : M (store * (credState * W)) unit :=
  let! st := get in
  let! ms := onFst (connSelectFromMachine (Some (needsTLS st.2.1))) in
  onSnd (forM_ ms (tlsMachine ca)) ;;;
  let! st := get in
  let! ms := onFst (connSelectFromMachine (Some (needsKubeSecret st.2.1))) in
  onSnd (forM_ ms (secretMachine kubeSecret)).
End credentials.

(** ** The machines *)

Record remoteFile := mk_remoteFile { rf_Content : string; rf_Mode : Z }.

Class SftpLaws (W : Type) `{Sftp W} `{Crypto W} := {
  (** The files of the hosts. *)
  hostFs : W → gmap (string * string) remoteFile;
  (** The hosts that serve every request. *)
  reachable : string → Prop;
  (** The authority can sign, and there is randomness to do so. *)
  canSign : KeyPair → Prop;
  (** The certificate is the template's, for the key, signed by the key pair. *)
  issued : KeyPair → certificate → string → string → Prop;
  sftpOpen_ok : ∀ host w, wp (sftpOpen host) w (λ r w', hostFs w' = hostFs w ∧ (r = Val () ∨ ∃ e, r = Err e ∧ ¬ reachable host));
  sftpClose_ok : ∀ host w, wp (sftpClose host) w (λ _ w', hostFs w' = hostFs w);
  (** An error is no such file, or the connection. *)
  sftpStat_ok : ∀ host path w, wp (sftpStat host path) w (λ r w', hostFs w' = hostFs w ∧
    (r = Val () ∧ is_Some (hostFs w !! (host, path)) ∨ ∃ e, r = Err e ∧ (hostFs w !! (host, path) = None ∨ ¬ reachable host)));
  sftpMkdirAll_ok : ∀ host path mode w, wp (sftpMkdirAll host path mode) w (λ r w', hostFs w' = hostFs w ∧
    (r = Val () ∨ ∃ e, r = Err e ∧ ¬ reachable host));
  sftpCreate_ok : ∀ host path w, wp (sftpCreate host path) w (λ r w',
    (r = Val () ∧ ∃ mode, hostFs w' = <[(host, path) := mk_remoteFile "" mode]> (hostFs w)) ∨
    (∃ e, r = Err e ∧ ¬ reachable host ∧ hostFs w' = hostFs w));
  sftpChmod_ok : ∀ host path f mode w, hostFs w !! (host, path) = Some f →
    wp (sftpChmod host path mode) w (λ r w',
      (r = Val () ∧ hostFs w' = <[(host, path) := mk_remoteFile (rf_Content f) mode]> (hostFs w)) ∨
      (∃ e, r = Err e ∧ ¬ reachable host ∧ hostFs w' = hostFs w));
  (** Writing to a file that was just created; a failure may leave a part. *)
  sftpWrite_ok : ∀ host path mode content w, hostFs w !! (host, path) = Some (mk_remoteFile "" mode) →
    wp (sftpWrite host path content) w (λ r w',
      (r = Val () ∧ hostFs w' = <[(host, path) := mk_remoteFile content mode]> (hostFs w)) ∨
      (∃ e part, r = Err e ∧ ¬ reachable host ∧ hostFs w' = <[(host, path) := mk_remoteFile part mode]> (hostFs w)));
  GenerateKey_ok : ∀ ca w, wp GenerateKey w (λ r w', hostFs w' = hostFs w ∧ ((∃ e, r = Err e) → ¬ canSign ca));
  randInt_ok : ∀ ca w, wp randInt w (λ r w', hostFs w' = hostFs w ∧ ((∃ e, r = Err e) → ¬ canSign ca));
  cryptoNow_ok : ∀ w, wp cryptoNow w (λ _ w', hostFs w' = hostFs w);
  CreateCertificate_ok : ∀ template ca key w, wp (CreateCertificate template ca key) w (λ r w', hostFs w' = hostFs w ∧
    match r with Val cert => issued ca template key cert | Err _ => ¬ canSign ca end);
  ParseCertificate_ok : ∀ ca template key cert w, issued ca template key cert →
    wp (ParseCertificate cert) w (λ r w', hostFs w' = hostFs w ∧ ((∃ e, r = Err e) → ¬ canSign ca));
}.

Section spec.
Context {W : Type} `{SftpLaws W} `{MapOrder} `{ParseIPv6}.
Notation fsys := (gmap (string * string) remoteFile).
Implicit Types (w : W) (fs : fsys).

(** The files of [host] are the same. *)
Definition agree (host : string) fs fs' : Prop := ∀ path, fs' !! (host, path) = fs !! (host, path).
(** Only files of [host] differ. *)
Definition onlyHost (host : string) fs fs' : Prop := ∀ other, other ≠ host → agree other fs fs'.

Lemma onlyHost_refl host fs : onlyHost host fs fs.
Proof. done. Qed.
Lemma onlyHost_trans host fs1 fs2 fs3 : onlyHost host fs1 fs2 → onlyHost host fs2 fs3 → onlyHost host fs1 fs3.
Proof. intros H12 H23 other Hne path. by rewrite (H23 other Hne path), (H12 other Hne path). Qed.
Lemma onlyHost_insert host path f fs : onlyHost host fs (<[(host, path) := f]> fs).
Proof. intros other Hne p. apply lookup_insert_ne. congruence. Qed.

Definition install (host : string) (f : File) fs : fsys := <[(host, f_Path f) := mk_remoteFile (f_Content f) (f_Mode f)]> fs.
Definition installAll (host : string) (files : list File) fs : fsys := foldl (λ fs f, install host f fs) fs files.

Lemma wp_writeFile host f w Q :
  (∀ w', hostFs w' = install host f (hostFs w) → Q (Val ()) w') →
  (∀ e w', ¬ reachable host → onlyHost host (hostFs w) (hostFs w') → Q (Err e) w') →
  wp (write host (f_Path f) (f_Content f) (f_Mode f)) w Q.
Proof.
  intros HV HE. unfold write. wp_bind. wp_use (sftpCreate_ok (W := W)). intros r w1 [(-> & mode & H1')|(e & -> & Hn & Hw)].
  2:{ wp_ret. apply HE; [done|]. rewrite Hw. apply onlyHost_refl. }
  wp_bind. wp_use (sftpChmod_ok (W := W)); [rewrite H1'; apply lookup_insert_eq|]. rewrite H1', insert_insert_eq.
  intros r w2 [(-> & H2')|(e & -> & Hn & Hw)].
  2:{ wp_ret. apply HE; [done|]. rewrite Hw. apply onlyHost_insert. }
  wp_bind. wp_use (sftpWrite_ok (W := W)); [rewrite H2'; apply lookup_insert_eq|]. rewrite H2', insert_insert_eq.
  intros r w3 [(-> & H3')|(e & part & -> & Hn & Hw)]; wp_ret; [by apply HV|]. apply HE; [done|]. rewrite Hw, insert_insert_eq. apply onlyHost_insert.
Qed.

Lemma wp_writeFiles host files w Q :
  (∀ w', hostFs w' = installAll host files (hostFs w) → Q true w') →
  (∀ w', ¬ reachable host → onlyHost host (hostFs w) (hostFs w') → Q false w') →
  wp (writeFiles host files) w Q.
Proof.
  revert w Q. induction files as [|f files IH]; intros w Q HV HE; simpl; [wp_ret; by apply HV|].
  wp_bind. apply wp_writeFile.
  - intros w1 Hw1. apply IH.
    + intros w' Hw'. apply HV. by rewrite Hw', Hw1.
    + intros w' Hn Ho. apply HE; [done|]. eapply onlyHost_trans; [|exact Ho]. rewrite Hw1. apply onlyHost_insert.
  - intros e w1 Hn Ho. wp_ret. by apply HE.
Qed.

(** What TLS on the machine needs: the two certificates readable by all, and the key by its owner only. *)
Definition certFiles (ca signed : KeyPair) : list File :=
  [mk_File "/home/kelda/.kelda/tls/certificate_authority.crt" (CertString ca) 420;
   mk_File "/home/kelda/.kelda/tls/kelda.crt" (CertString signed) 420;
   mk_File "/home/kelda/.kelda/tls/kelda.key" (PrivateKeyString signed) 384].

(** [signed] is a key with a certificate of the authority for it: for the Kubernetes
    node with the private address of [m], for a year, as a client and as a server. *)
Definition signedFor (ca : KeyPair) (m : Machine) (signed : KeyPair) : Prop := ∃ serial now,
  issued ca (mk_certificate serial now (now + 31536000000000000)%Z ["ClientAuth"; "ServerAuth"] [ParseIP (m_PrivateIP m)]
               ("system:node:" +:+ m_PrivateIP m) ["system:nodes"]) (PrivateKeyString signed) (CertString signed).

Lemma wp_NewSigned ca m w Q :
  (∀ signed w', hostFs w' = hostFs w → signedFor ca m signed → Q (Val signed) w') →
  (∀ e w', hostFs w' = hostFs w → ¬ canSign ca → Q (Err e) w') →
  wp (NewSigned ca ("system:node:" +:+ m_PrivateIP m) ["system:nodes"] [ParseIP (m_PrivateIP m)]) w Q.
Proof.
  intros HV HE. unfold NewSigned, certTemplate. wp_bind. wp_use (GenerateKey_ok (W := W) ca). intros [key|e] w1 [Hw1 Hc1].
  2:{ wp_ret. apply HE; eauto. }
  wp_bind. wp_bind. wp_use (randInt_ok (W := W) ca). intros [serial|e] w2 [Hw2 Hc2].
  2:{ wp_ret. wp_ret. apply HE; [congruence|eauto]. }
  wp_bind. wp_use (cryptoNow_ok (W := W)). intros now w3 Hw3. wp_ret. wp_bind. wp_use (CreateCertificate_ok (W := W)). intros [cert|e] w4 [Hw4 Hc4].
  2:{ wp_ret. apply HE; [congruence|done]. }
  wp_bind. wp_use (ParseCertificate_ok (W := W)); [exact Hc4|]. intros [[]|e] w5 [Hw5 Hc5]; wp_ret.
  - apply HV; [congruence|]. by exists serial, now.
  - apply HE; [congruence|eauto].
Qed.

(** The certificates of [m], from the files [fs] to the files [fs']: installed,
    unless there is one. *)
Definition certsInstalled (ca : KeyPair) (m : Machine) fs fs' : Prop :=
  if decide (is_Some (fs !! (m_PublicIP m, "/home/kelda/.kelda/tls/kelda.crt"))) then agree (m_PublicIP m) fs fs'
  else ∃ signed, signedFor ca m signed ∧
    agree (m_PublicIP m) (installAll (m_PublicIP m) (certFiles ca signed) fs) fs'.

Lemma agree_eq host fs fs' : fs' = fs → agree host fs fs'.
Proof. by intros ->. Qed.

Lemma onlyHost_installAll host files fs : onlyHost host fs (installAll host files fs).
Proof.
  revert fs. induction files as [|f files IH]; intros fs; [done|]. simpl. eapply onlyHost_trans; [apply onlyHost_insert|apply IH].
Qed.

Lemma wp_generateAndInstallCerts m ca w Q :
  (∀ w', onlyHost (m_PublicIP m) (hostFs w) (hostFs w') → certsInstalled ca m (hostFs w) (hostFs w') ∨ ¬ reachable (m_PublicIP m) →
     Q true w') →
  (∀ w', onlyHost (m_PublicIP m) (hostFs w) (hostFs w') → ¬ reachable (m_PublicIP m) ∨ ¬ canSign ca → Q false w') →
  wp (generateAndInstallCerts m ca) w Q.
Proof.
  intros HT HF. unfold generateAndInstallCerts. wp_bind. wp_use (sftpOpen_ok (W := W)). intros r w1 [Hw1 [->|(e & -> & Hn)]].
  2:{ wp_ret. apply HF; [by rewrite Hw1|by left]. }
  assert (∀ (ok : bool) w2 Q', (∀ w3, hostFs w3 = hostFs w2 → Q' ok w3) → wp (sftpClose (m_PublicIP m) ;;; mret ok) w2 Q') as Hclose.
  { intros ok w2 Q' HQ'. wp_bind. wp_use (sftpClose_ok (W := W)). intros [] w3 Hw3. wp_ret. by apply HQ'. }
  wp_bind. unfold installCerts. wp_bind. wp_use (sftpStat_ok (W := W)). rewrite Hw1. intros r w2 [Hw2 [[-> Hs]|(e & -> & Hnone)]].
  { wp_ret. apply Hclose. intros w3 Hw3. rewrite Hw2 in Hw3. apply HT; [by rewrite Hw3|]. left. unfold certsInstalled.
    rewrite decide_True by done. by apply agree_eq. }
  wp_bind. apply wp_NewSigned; rewrite Hw2.
  2:{ intros e' w3 Hw3 Hsign. wp_ret. apply Hclose. intros w4 Hw4. apply HF; [by rewrite Hw4, Hw3|by right]. }
  intros signed w3 Hw3 Hsig. wp_bind. wp_use (sftpMkdirAll_ok (W := W)). rewrite Hw3. intros r w4 [Hw4 [->|(e' & -> & Hn)]].
  2:{ wp_ret. apply Hclose. intros w5 Hw5. apply HF; [by rewrite Hw5, Hw4|by left]. }
  apply wp_writeFiles; rewrite Hw4.
  - intros w5 Hw5. apply Hclose. intros w6 Hw6. rewrite Hw5 in Hw6. apply HT; [rewrite Hw6; apply onlyHost_installAll|].
    destruct Hnone as [Hnone|?]; [|by right]. left. unfold certsInstalled.
    change (SignedCertPath MinionTLSDir) with "/home/kelda/.kelda/tls/kelda.crt" in Hnone. rewrite decide_False by (by rewrite Hnone; apply is_Some_None).
    exists signed. split; [done|by apply agree_eq].
  - intros w5 Hn Ho. apply Hclose. intros w6 Hw6. apply HF; [by rewrite Hw6|by left].
Qed.

Definition secretFile (kubeSecret : string) : File := mk_File "/home/kelda/.kelda/kube_etcd_secret" kubeSecret 256.
Definition secretInstalled (kubeSecret : string) (m : Machine) fs fs' : Prop :=
  if decide (is_Some (fs !! (m_PublicIP m, "/home/kelda/.kelda/kube_etcd_secret"))) then agree (m_PublicIP m) fs fs'
  else agree (m_PublicIP m) (install (m_PublicIP m) (secretFile kubeSecret) fs) fs'.

Lemma wp_installKubeSecret m kubeSecret w Q :
  (∀ w', onlyHost (m_PublicIP m) (hostFs w) (hostFs w') → secretInstalled kubeSecret m (hostFs w) (hostFs w') ∨ ¬ reachable (m_PublicIP m) →
     Q (Val ()) w') →
  (∀ e w', onlyHost (m_PublicIP m) (hostFs w) (hostFs w') → ¬ reachable (m_PublicIP m) → Q (Err e) w') →
  wp (installKubeSecret m kubeSecret) w Q.
Proof.
  intros HT HF. unfold installKubeSecret. wp_bind. wp_use (sftpOpen_ok (W := W)). intros r w1 [Hw1 [->|(e & -> & Hn)]].
  2:{ wp_ret. apply HF; [by rewrite Hw1|done]. }
  assert (∀ (r : result unit) w2 Q', (∀ w3, hostFs w3 = hostFs w2 → Q' r w3) → wp (sftpClose (m_PublicIP m) ;;; mret r) w2 Q') as Hclose.
  { intros r w2 Q' HQ'. wp_bind. wp_use (sftpClose_ok (W := W)). intros [] w3 Hw3. wp_ret. by apply HQ'. }
  wp_bind. wp_use (sftpStat_ok (W := W)). rewrite Hw1. intros r w2 [Hw2 [[-> Hs]|(e & -> & Hnone)]]; wp_bind.
  { wp_ret. apply Hclose. intros w3 Hw3. rewrite Hw2 in Hw3. apply HT; [by rewrite Hw3|]. left. unfold secretInstalled.
    rewrite decide_True by done. by apply agree_eq. }
  apply (wp_writeFile (m_PublicIP m) (secretFile kubeSecret)); rewrite Hw2.
  - intros w3 Hw3. apply Hclose. intros w4 Hw4. rewrite Hw3 in Hw4. apply HT; [rewrite Hw4; apply onlyHost_insert|].
    destruct Hnone as [Hnone|?]; [|by right]. left. unfold secretInstalled.
    change MinionKubeSecretPath with "/home/kelda/.kelda/kube_etcd_secret" in Hnone. rewrite decide_False by (by rewrite Hnone; apply is_Some_None).
    by apply agree_eq.
  - intros e' w3 Hn Ho. apply Hclose. intros w4 Hw4. apply HF; [by rewrite Hw4|done].
Qed.

(** ** A loop over machines *)

(** [body m] acts on the host of [m] only; if the host is reachable, its files
    become [slice m] and [mark m] holds. *)
Lemma wp_hosts (R : credState → credState → Prop) `{!PreOrder R} (body : Machine → M (credState * W) unit) (slice : Machine → fsys → fsys → Prop) (mark : Machine → credState → Prop) ms cs w Q :
  (∀ m cs w Q', (∀ cs' w', onlyHost (m_PublicIP m) (hostFs w) (hostFs w') → R cs cs' →
     (reachable (m_PublicIP m) → slice m (hostFs w) (hostFs w') ∧ mark m cs') → Q' () (cs', w')) → wp (body m) (cs, w) Q') →
  (∀ m fs1 fs2 fs1' fs2', agree (m_PublicIP m) fs1 fs1' → agree (m_PublicIP m) fs2 fs2' → slice m fs1 fs2 → slice m fs1' fs2') →
  (∀ m cs cs', R cs cs' → mark m cs → mark m cs') →
  NoDup (m_PublicIP <$> ms) →
  (∀ cs' w', R cs cs' → (∀ m, m ∈ ms → reachable (m_PublicIP m) → slice m (hostFs w) (hostFs w') ∧ mark m cs') →
     (∀ host, host ∉ m_PublicIP <$> ms → agree host (hostFs w) (hostFs w')) → Q () (cs', w')) →
  wp (forM_ ms body) (cs, w) Q.
Proof.
  intros Hbody Hslice Hmark. revert cs w Q. induction ms as [|m ms IH]; intros cs w Q Hnd HQ; simpl.
  { wp_ret. apply HQ; [reflexivity|by intros m ?%not_elem_of_nil|done]. }
  csimpl in Hnd. apply NoDup_cons in Hnd as [Hni Hnd]. wp_bind. apply Hbody. intros cs1 w1 Ho1 Hg1 Hr1. apply IH; [done|].
  intros cs2 w2 Hg2 Hall Hoth. apply HQ.
  - by transitivity cs1.
  - intros m' [->|Hin]%elem_of_cons Hreach.
    + destruct (Hr1 Hreach) as [Hs Hm]. split; [|by eapply Hmark].
      eapply Hslice; [| |exact Hs]; [done|]. intros path. by apply Hoth.
    + destruct (Hall m' Hin Hreach) as [Hs Hm]. split; [|done]. eapply Hslice; [| |exact Hs]; [|done].
      intros path. symmetry. apply Ho1. intros Heq. apply Hni. rewrite <-Heq. by apply list_elem_of_fmap_2.
  - intros host Hh. csimpl in Hh. apply not_elem_of_cons in Hh as [Hne Hh]. intros path. by rewrite (Hoth host Hh path), (Ho1 host Hne path).
Qed.

(** Certificates, or secrets, are only added. *)
Definition addsTLS (cs cs' : credState) : Prop :=
  machinesWithTLS cs ⊆ machinesWithTLS cs' ∧ machinesWithKubeSecret cs = machinesWithKubeSecret cs'.
Definition addsSecrets (cs cs' : credState) : Prop :=
  machinesWithTLS cs = machinesWithTLS cs' ∧ machinesWithKubeSecret cs ⊆ machinesWithKubeSecret cs'.
#[local] Instance addsTLS_preorder : PreOrder addsTLS.
Proof. split; [done|]. intros a b c [? ?] [? ?]. split; [set_solver|congruence]. Qed.
#[local] Instance addsSecrets_preorder : PreOrder addsSecrets.
Proof. split; [done|]. intros a b c [? ?] [? ?]. split; [congruence|set_solver]. Qed.

Lemma agree_installAll host files fs fs' : agree host fs fs' → agree host (installAll host files fs) (installAll host files fs').
Proof.
  revert fs fs'. induction files as [|f files IH]; intros fs fs' Ha; [done|]. apply IH. intros path. unfold install.
  destruct (decide (path = f_Path f)) as [->|Hne]; [by rewrite !lookup_insert_eq|]. rewrite !lookup_insert_ne by congruence. apply Ha.
Qed.

Lemma agree_trans host fs1 fs2 fs3 : agree host fs1 fs2 → agree host fs2 fs3 → agree host fs1 fs3.
Proof. intros H12 H23 path. by rewrite (H23 path), (H12 path). Qed.
Lemma agree_sym host fs fs' : agree host fs fs' → agree host fs' fs.
Proof. intros Ha path. by rewrite (Ha path). Qed.

Lemma certsInstalled_agree ca m fs1 fs2 fs1' fs2' :
  agree (m_PublicIP m) fs1 fs1' → agree (m_PublicIP m) fs2 fs2' → certsInstalled ca m fs1 fs2 → certsInstalled ca m fs1' fs2'.
Proof.
  intros H1' H2'. unfold certsInstalled. rewrite (H1' "/home/kelda/.kelda/tls/kelda.crt"). case_decide.
  - intros Ha. eapply agree_trans; [by apply agree_sym|]. by eapply agree_trans.
  - intros (signed & Hs & Ha). exists signed. split; [done|]. eapply agree_trans; [by apply agree_installAll, agree_sym|]. by eapply agree_trans.
Qed.

Lemma secretInstalled_agree kubeSecret m fs1 fs2 fs1' fs2' :
  agree (m_PublicIP m) fs1 fs1' → agree (m_PublicIP m) fs2 fs2' → secretInstalled kubeSecret m fs1 fs2 → secretInstalled kubeSecret m fs1' fs2'.
Proof.
  intros H1' H2'. unfold secretInstalled. rewrite (H1' "/home/kelda/.kelda/kube_etcd_secret"). case_decide; intros Ha.
  - eapply agree_trans; [by apply agree_sym|]. by eapply agree_trans.
  - eapply agree_trans; [by apply (agree_installAll _ [secretFile kubeSecret]), agree_sym|]. by eapply agree_trans.
Qed.

Lemma wp_tlsHosts ca ms cs w Q :
  NoDup (m_PublicIP <$> ms) →
  (∀ cs' w', addsTLS cs cs' → (∀ m, m ∈ ms → reachable (m_PublicIP m) →
       (canSign ca → certsInstalled ca m (hostFs w) (hostFs w')) ∧ (canSign ca → m_CloudID m ∈ machinesWithTLS cs')) →
     (∀ host, host ∉ m_PublicIP <$> ms → agree host (hostFs w) (hostFs w')) → Q () (cs', w')) →
  wp (forM_ ms (tlsMachine ca)) (cs, w) Q.
Proof.
  intros Hnd HQ. apply (wp_hosts addsTLS _ (λ m fs fs', canSign ca → certsInstalled ca m fs fs')
    (λ m cs, canSign ca → m_CloudID m ∈ machinesWithTLS cs)); [| | |done|done].
  - intros m cs1 w1 Q' HQ'. unfold tlsMachine. wp_bind. apply wp_onSnd. cbn [fst snd]. apply wp_generateAndInstallCerts.
    + intros w2 Ho Hc. apply HQ'; [done|split; [set_solver|done]|]. intros Hr. destruct Hc; [|done]. split; [done|set_solver].
    + intros w2 Ho Hn. wp_ret. apply HQ'; [done..|]. intros Hr. split; intros Hc; by destruct Hn.
  - intros m fs1 fs2 fs1' fs2' Ha1 Ha2 Hs Hc. by eapply certsInstalled_agree, Hs.
  - intros m cs1 cs2 [Hs _] Hm Hc. specialize (Hm Hc). set_solver.
Qed.

Lemma wp_secretHosts kubeSecret ms cs w Q :
  NoDup (m_PublicIP <$> ms) →
  (∀ cs' w', addsSecrets cs cs' →
     (∀ m, m ∈ ms → reachable (m_PublicIP m) → secretInstalled kubeSecret m (hostFs w) (hostFs w') ∧ m_CloudID m ∈ machinesWithKubeSecret cs') →
     (∀ host, host ∉ m_PublicIP <$> ms → agree host (hostFs w) (hostFs w')) → Q () (cs', w')) →
  wp (forM_ ms (secretMachine kubeSecret)) (cs, w) Q.
Proof.
  intros Hnd HQ. apply (wp_hosts addsSecrets _ (secretInstalled kubeSecret) (λ m cs, m_CloudID m ∈ machinesWithKubeSecret cs)); [| | |done|done].
  - intros m cs1 w1 Q' HQ'. unfold secretMachine. wp_bind. apply wp_onSnd. cbn [fst snd]. apply wp_installKubeSecret.
    + intros w2 Ho Hc. apply HQ'; [done|split; [done|set_solver]|]. intros Hr. destruct Hc; [|done]. split; [done|set_solver].
    + intros e w2 Ho Hn. wp_ret. by apply HQ'.
  - intros m. apply secretInstalled_agree.
  - intros m cs1 cs2 [_ Hs] ?. set_solver.
Qed.

(** ** Properties *)

(** A machine that is up, as far as the database knows. *)
Definition live (m : Machine) : Prop := m_Status m ≠ Stopping ∧ m_PublicIP m ≠ "".

(** [fs1] are the files after the certificates, [fs2] after the secret. *)
Record credentialed (ca : KeyPair) (kubeSecret : string) (cs cs' : credState) (fs fs1 fs2 : fsys) (m : Machine) : Prop := {
  cd_certs : if decide (m_CloudID m ∈ machinesWithTLS cs) then agree (m_PublicIP m) fs fs1
             else canSign ca → certsInstalled ca m fs fs1 ∧ m_CloudID m ∈ machinesWithTLS cs';
  cd_secret : if decide (m_Role m = Master ∧ m_CloudID m ∉ machinesWithKubeSecret cs)
              then secretInstalled kubeSecret m fs1 fs2 ∧ m_CloudID m ∈ machinesWithKubeSecret cs'
              else agree (m_PublicIP m) fs1 fs2;
}.

Lemma elem_of_needsTLS cs (l : list Machine) m : m ∈ filter (passes (Some (needsTLS cs))) l ↔ m ∈ l ∧ live m ∧ m_CloudID m ∉ machinesWithTLS cs.
Proof.
  rewrite list_elem_of_filter. simpl. unfold needsTLS, live. rewrite !andb_true_iff, !bool_decide_eq_true. tauto.
Qed.
Lemma elem_of_needsKubeSecret cs (l : list Machine) m :
  m ∈ filter (passes (Some (needsKubeSecret cs))) l ↔ m ∈ l ∧ live m ∧ m_Role m = Master ∧ m_CloudID m ∉ machinesWithKubeSecret cs.
Proof.
  rewrite list_elem_of_filter. simpl. unfold needsKubeSecret, live. rewrite !andb_true_iff, !bool_decide_eq_true. tauto.
Qed.

(** Machines chosen among live ones with distinct addresses. *)
Lemma hosts_distinct s (ms : list Machine) check :
  wf s → (∀ m m', m ∈ vals (tbl Machine s) → m' ∈ vals (tbl Machine s) → live m → live m' → m_PublicIP m = m_PublicIP m' → m = m') →
  ms ≡ₚ filter (passes check) (vals (tbl Machine s)) → (∀ m, m ∈ ms → m ∈ vals (tbl Machine s) ∧ live m) →
  NoDup (m_PublicIP <$> ms) ∧ ∀ m, m ∈ vals (tbl Machine s) → live m → m ∉ ms → m_PublicIP m ∉ m_PublicIP <$> ms.
Proof.
  intros Hwf Hdist Hms Hlive. split.
  - apply NoDup_fmap_inj_on.
    + rewrite Hms. apply NoDup_filter. eapply NoDup_fmap_1, (NoDup_tbl_ids (T := Machine)), Hwf.
    + intros m m' [Hm Hl]%Hlive [Hm' Hl']%Hlive. by apply Hdist.
  - intros m Hm Hl Hni (m' & Heq & Hin)%list_elem_of_fmap. destruct (Hlive m' Hin) as [Hm' Hl']. by rewrite (Hdist m m') in Hni.
Qed.


(** An interrupted installation is never completed: if a machine that can be
    reached has the signed certificate but not its private key (the key is written
    last), a round records it as served and leaves it without the key; it is then
    not looked at again. *)
Theorem interrupted_install_is_final ca m cs w :
  reachable (m_PublicIP m) → canSign ca → is_Some (hostFs w !! (m_PublicIP m, SignedCertPath MinionTLSDir)) →
  hostFs w !! (m_PublicIP m, SignedKeyPath MinionTLSDir) = None →
  wp (tlsMachine ca m) (cs, w) (λ _ st, needsTLS st.1 m = false ∧ hostFs st.2 !! (m_PublicIP m, SignedKeyPath MinionTLSDir) = None).
Proof.
  intros Hr Hsign Hcert Hkey. unfold tlsMachine. wp_bind. apply wp_onSnd. cbn [fst snd]. apply wp_generateAndInstallCerts; [|by intros ? ? [?|?]].
  intros w' Ho [Hc|?]; [|done]. unfold certsInstalled in Hc. rewrite decide_True in Hc by done. split.
  - unfold needsTLS. simpl. rewrite bool_decide_false by set_solver. done.
  - simpl. by rewrite (Hc _).
Qed.
End spec.
