(* ===== verification/CredentialsSim.v ===== *)
(** * Credentials of the machines: simulated hosts

    Hosts as a map of files, of which writes to some paths may fail, and the
    theorems on them. *)

From S2P Require Import Prelude GoStrings Join Blueprint DbRows Db DbTxn DbSpec DbFrame Engine EtcdSync Backoff Providers GoNet Docker Supervisor Credentials.

Definition simFs : Type := gmap (string * string) remoteFile.

(** Writes to the paths [broken] fail. *)
Definition simSftpWith (broken : string → bool) : Sftp simFs := {|
  sftpOpen _ := mret (Val ());
  sftpClose _ := mret ();
  sftpStat host path := λ fs, Ok (match fs !! (host, path) with Some _ => Val () | None => Err "no such file" end, fs);
  sftpMkdirAll _ _ _ := mret (Val ());
  sftpCreate host path := λ fs, if broken path then Ok (Err "connection lost", fs) else Ok (Val (), <[(host, path) := mk_remoteFile "" 420]> fs);
  sftpChmod host path mode := λ fs, Ok (Val (), alter (λ f, mk_remoteFile (rf_Content f) mode) (host, path) fs);
  sftpWrite host path content := λ fs, Ok (Val (), alter (λ f, mk_remoteFile content (rf_Mode f)) (host, path) fs);
|}.
(** A certificate is the text of the names in it. *)
Definition simCert (ca : KeyPair) (template : certificate) (key : string) : string :=
  CertString ca +:+ " signs " +:+ key +:+ " for " +:+ x_CommonName template.
#[export] Instance simCrypto : Crypto simFs := {
  GenerateKey := mret (Val "a key");
  randInt := mret (Val 1%Z);
  cryptoNow := mret 0%Z;
  CreateCertificate template ca key := mret (Val (simCert ca template key));
  ParseCertificate _ := mret (Val ());
}.
#[export] Instance simSftp : Sftp simFs := simSftpWith (λ _, false).

#[export] Instance simSftp_laws : SftpLaws simFs.
Proof.
  refine {| hostFs := λ fs : simFs, fs; reachable _ := True; canSign _ := True;
            issued ca template key cert := cert = simCert ca template key |};
    intros; unfold wp; simpl.
  - split; [done|by left].
  - done.
  - split; [done|]. destruct (w !! (host, path)) eqn:Hf; [by left|right]. by eexists; split; [|left].
  - split; [done|by left].
  - left. split; [done|by eexists].
  - left. split; [done|]. by rewrite (alter_some _ _ _ _ H).
  - left. split; [done|]. by rewrite (alter_some _ _ _ _ H).
  - split; [done|by intros [? ?]].
  - split; [done|by intros [? ?]].
  - done.
  - done.
  - split; [done|by intros [? ?]].
Defined.

(** ** Examples *)

#[local] Existing Instance fixed_order.
#[local] Instance demo_cred_v6 : ParseIPv6 := { parseIPv6 _ := None }.

Definition demo_ca : KeyPair := mk_KeyPair "CA" "CA key".
Definition demo_host_machine (id : Z) (cloudID public private status role : string) : Machine :=
  mk_Machine id Amazon "us-west-1" "m4.large" 0 [] "" false cloudID public private status role false.
Definition demo_fleet : store :=
  storeOf [RMachine (demo_host_machine 1 "i-1" "1.1.1.1" "10.1.1.1" Connected Master);
           RMachine (demo_host_machine 2 "i-2" "1.1.1.2" "10.1.1.2" "" Worker);
           RMachine (demo_host_machine 3 "i-3" "" "" "" Worker)].

Example syncCredentials_example :
  match syncCredentialsOnce demo_ca "secret" (demo_fleet, (mk_credState ∅ ∅, ∅ : simFs)) with
  | Ok (_, (_, (cs, fs))) => (bool_decide (machinesWithTLS cs = {["i-1"; "i-2"]}), bool_decide (machinesWithKubeSecret cs = {["i-1"]}),
      rf_Content <$> fs !! ("1.1.1.2", "/home/kelda/.kelda/tls/kelda.crt"), size fs)
  | Panic _ => (false, false, None, 0)
  end = (true, true, Some "CA signs a key for system:node:10.1.1.2", 7).
Proof. vm_compute. reflexivity. Qed.


Definition demo_flaky : Machine := demo_host_machine 1 "i-1" "1.1.1.1" "10.1.1.1" Connected Master.
(** The files after a first round in which writing the key failed. *)
Definition demo_interrupted : simFs :=
  match @tlsMachine simFs (simSftpWith (λ path, bool_decide (path = SignedKeyPath MinionTLSDir))) _ _ demo_ca demo_flaky (mk_credState ∅ ∅, ∅) with
  | Ok (_, (_, fs)) => fs
  | Panic _ => ∅
  end.

Lemma interrupted_install_is_final_witness :
  wp (tlsMachine demo_ca demo_flaky) (mk_credState ∅ ∅, demo_interrupted) (λ _ st,
    needsTLS st.1 demo_flaky = false ∧ hostFs st.2 !! ("1.1.1.1", SignedKeyPath MinionTLSDir) = None).
Proof.
  refine (interrupted_install_is_final (W := simFs) demo_ca demo_flaky (mk_credState ∅ ∅) demo_interrupted I I _ _); [vm_decide|vm_compute; reflexivity].
Defined.
