(* ===== verification/DaemonStart.v ===== *)
(** * Package command: starting the daemon

    [Daemon.Run] of [src/cli/command/daemon.go] up to the start of its goroutines, with the
    reading and writing of its credentials ([src/connection/tls/io/io.go],
    [src/cli/path/path.go]).  Keys and certificates are generated and parsed by Go's crypto packages:
    the former are operations of the host, the latter parameters. *)

From S2P Require Import Prelude GoStrings Join Blueprint DbRows Db DbSpec DbTxn Docker Supervisor Credentials.

Definition CAKeyPath (dir : string) : string := pathJoin dir "certificate_authority.key".
Definition DaemonFiles (dir : string) (ca signed : KeyPair) : list File :=
  MinionFiles dir ca signed ++ [mk_File (CAKeyPath dir) (PrivateKeyString ca) 384].

(** [util.Stat] without an [IsNotExist] error, [MkdirAll], [WriteFile] with a mode, [ReadFile];
    [rsa.NewCertificateAuthority], [rsa.NewSigned] for a common name, a new SSH key as PEM, and 32 random bytes as base64. *)
Class DaemonHost (W : Type) := {
  dhStat : string → M W bool;
  dhMkdirAll : string → Z → M W (result unit);
  dhWriteFile : string → string → Z → M W (result unit);
  dhReadFile : string → M W (result string);
  NewCertificateAuthority : M W (result KeyPair);
  NewDaemonCert : KeyPair → string → M W (result KeyPair);
  GenerateKeyPEM : M W (result string);
  randomSecret : M W (result string);
}.

Section daemon.
Context {W : Type} `{DaemonHost W} (keldaHome : string).
Context {TLS Signer : Type} (tlsNew : string → string → string → result TLS) (rsaNew : string → string → result KeyPair)
  (ParsePrivateKey : string → result Signer).

Definition DefaultTLSDir : string := pathJoin keldaHome "tls".
Definition DefaultSSHKeyPath : string := pathJoin keldaHome "ssh_key".
Definition DefaultKubeSecretPath : string := pathJoin keldaHome "kube_etcd_secret".

(** [if err != nil { return fmt.Errorf(msg, err) }] *)
Definition wrapErr {A B} (msg : string) (m : M W (result A)) (k : A → M W (result B)) : M W (result B) :=
  let! r := m in match r with Err e => mret (Err (msg +:+ e)) | Val a => k a end.

Definition ReadCredentials (dir : string) : M W (result TLS) :=
  wrapErr "read CA: " (dhReadFile (CACertPath dir)) (λ caCert,
  wrapErr "read signed cert: " (dhReadFile (SignedCertPath dir)) (λ signedCert,
  wrapErr "read signed key: " (dhReadFile (SignedKeyPath dir)) (λ signedKey,
  mret (tlsNew caCert signedCert signedKey)))).
Definition ReadCA (dir : string) : M W (result KeyPair) :=
  wrapErr "read cert: " (dhReadFile (CACertPath dir)) (λ caCert,
  wrapErr "read key: " (dhReadFile (CAKeyPath dir)) (λ caKey,
  mret (rsaNew caCert caKey))).
Definition parseSSHPrivateKey (path : string) : M W (result Signer) :=
  wrapErr "read file: " (dhReadFile path) (λ keyStr, mret (ParsePrivateKey keyStr)).

Fixpoint writeDaemonFiles (files : list File) : M W (result unit) :=
  match files with
  | [] => mret (Val ())
  | f :: files => wrapErr ("failed to write file (" +:+ f_Path f +:+ "): ") (dhWriteFile (f_Path f) (f_Content f) (f_Mode f)) (λ _, writeDaemonFiles files)
  end.
Definition setupTLS (outDir : string) : M W (result unit) :=
  wrapErr "failed to create output directory: " (dhMkdirAll outDir 448) (λ _,
  wrapErr "failed to create CA: " NewCertificateAuthority (λ ca,
  wrapErr "failed to create signed key pair: " (NewDaemonCert ca "kelda:daemon") (λ signed,
  writeDaemonFiles (DaemonFiles outDir ca signed)))).
(** [filepath.Dir] of the path is [keldaHome]. *)
Definition setupSSHKey (outPath : string) : M W (result unit) :=
  wrapErr ("failed to create output directory " +:+ outPath +:+ ": ") (dhMkdirAll keldaHome 448) (λ _,
  wrapErr "failed to generate SSH key: " GenerateKeyPEM (λ privateKeyPEM,
  wrapErr "failed to write to disk: " (dhWriteFile outPath privateKeyPEM 384) (λ _, mret (Val ())))).
Definition setupKubeSecret (outPath : string) : M W (result unit) :=
  let? secretBase64 := randomSecret in dhWriteFile outPath secretBase64 256.

(** What the goroutines of the daemon are started with. *)
Record started := mk_started { st_sshKey : Signer; st_creds : TLS; st_kubeSecret : string; st_ca : KeyPair }.

(** Make what does not exist. *)
Definition setupMissing (path : string) (setup : string → M W (result unit)) : M W (result unit) :=
  let! there := dhStat path in if there : bool then mret (Val ()) else setup path.
Definition loadKeys : M W (result started) :=
  let? sshKey := parseSSHPrivateKey DefaultSSHKeyPath in
  let? creds := ReadCredentials DefaultTLSDir in
  let? kubeSecret := dhReadFile DefaultKubeSecretPath in
  let? ca := ReadCA DefaultTLSDir in
  mret (Val (mk_started sshKey creds kubeSecret ca)).
(** An error is exit code 1. *)
Definition Daemon_Run : M W (result started) :=
  let? _ := setupMissing DefaultTLSDir setupTLS in
  let? _ := setupMissing DefaultKubeSecretPath setupKubeSecret in
  let? _ := setupMissing DefaultSSHKeyPath setupSSHKey in
  loadKeys.

(** ** Restarting *)

(** The files and the paths that exist.  Reading is reliable; writing may fail and leave anything in the file. *)
Class DaemonLaws := {
  dfiles : W → gmap string string;
  dpaths : W → gset string;
  dkeeps (w w' : W) : Prop := dfiles w' = dfiles w ∧ dpaths w' = dpaths w;
  dhStat_ok p w : wp (dhStat p) w (λ b w', dkeeps w w' ∧ b = bool_decide (p ∈ dpaths w));
  dhRead_ok p w : wp (dhReadFile p) w (λ r w', dkeeps w w' ∧ match dfiles w !! p with Some c => r = Val c | None => ∃ e, r = Err e end);
  dhMkdir_ok p mode w : wp (dhMkdirAll p mode) w (λ r w', dfiles w' = dfiles w ∧ dpaths w ⊆ dpaths w' ∧ (r = Val () → p ∈ dpaths w'));
  dhWrite_ok p c mode w : wp (dhWriteFile p c mode) w (λ r w', (∀ q, q ≠ p → dfiles w' !! q = dfiles w !! q) ∧ dpaths w ⊆ dpaths w' ∧
    (r = Val () → dfiles w' !! p = Some c ∧ p ∈ dpaths w'));
  dhCA_ok w : wp NewCertificateAuthority w (λ _ w', dkeeps w w');
  dhCert_ok ca cn w : wp (NewDaemonCert ca cn) w (λ _ w', dkeeps w w');
  dhKey_ok w : wp GenerateKeyPEM w (λ _ w', dkeeps w w');
  dhSecret_ok w : wp randomSecret w (λ _ w', dkeeps w w');
}.
Context `{DaemonLaws}.
Implicit Types w : W.

(** The keys in the files, if all are there and can be parsed. *)
Definition stored (files : gmap string string) : option started :=
  sshKey ← files !! DefaultSSHKeyPath;
  caCert ← files !! CACertPath DefaultTLSDir;
  signedCert ← files !! SignedCertPath DefaultTLSDir;
  signedKey ← files !! SignedKeyPath DefaultTLSDir;
  kubeSecret ← files !! DefaultKubeSecretPath;
  caKey ← files !! CAKeyPath DefaultTLSDir;
  match ParsePrivateKey sshKey, tlsNew caCert signedCert signedKey, rsaNew caCert caKey with
  | Val sshKey, Val creds, Val ca => Some (mk_started sshKey creds kubeSecret ca)
  | _, _, _ => None
  end.

Definition okOf {A} (r : result A) : option A := match r with Val a => Some a | Err _ => None end.

Lemma dkeeps_trans w1 w2 w3 : dkeeps w1 w2 → dkeeps w2 w3 → dkeeps w1 w3.
Proof. intros [? ?] [? ?]. split; congruence. Qed.

(** One file read. *)
Lemma wp_readOr {B} msg p (k : string → M W (result B)) w0 w Q :
  dkeeps w0 w →
  (∀ e w', dkeeps w0 w' → dfiles w0 !! p = None → Q (Err e) w') →
  (∀ c w', dkeeps w0 w' → dfiles w0 !! p = Some c → wp (k c) w' Q) →
  wp (wrapErr msg (dhReadFile p) k) w Q.
Proof.
  intros Hk HE HV. unfold wrapErr. wp_bind. eapply wp_mono; [apply dhRead_ok|]. intros r w1 [Hk1 Hr]. pose proof Hk as [Hf _]. rewrite Hf in Hr.
  pose proof (dkeeps_trans _ _ _ Hk Hk1) as Hk'. destruct (dfiles w0 !! p) as [c|] eqn:Hp; [subst r; by apply HV|].
  destruct Hr as [e ->]. wp_ret. by apply HE.
Qed.

Lemma wp_loadKeys w : wp loadKeys w (λ r w', dkeeps w w' ∧ okOf r = stored (dfiles w)).
Proof.
  unfold loadKeys, parseSSHPrivateKey, ReadCredentials, ReadCA, stored. apply wp_try.
  apply (wp_readOr _ _ _ w); [done|by intros e w' ? ->|]. intros ssh w1 Hk1 ->. wp_ret. simpl.
  destruct (ParsePrivateKey ssh) as [sshKey|e]; [|split; [done|]; by repeat (destruct (_ !! _); simpl)].
  apply wp_try. apply (wp_readOr _ _ _ w); [done|by intros e w' ? ->|]. intros caCert w2 Hk2 Hca. rewrite Hca. simpl.
  apply (wp_readOr _ _ _ w); [done|by intros e w' ? ->|]. intros signedCert w3 Hk3 ->. simpl.
  apply (wp_readOr _ _ _ w); [done|by intros e w' ? ->|]. intros signedKey w4 Hk4 ->. wp_ret. simpl.
  destruct (tlsNew caCert signedCert signedKey) as [creds|e]; [|split; [done|]; by repeat (destruct (_ !! _); simpl)].
  apply wp_try. eapply wp_mono; [apply dhRead_ok|]. intros r w5 [Hk5 Hr]. pose proof Hk4 as [Hf4 _]. rewrite Hf4 in Hr.
  destruct (dfiles w !! DefaultKubeSecretPath) as [kube|]; [subst r|destruct Hr as [e ->]; split; [by eapply dkeeps_trans|done]]. simpl.
  apply wp_try. apply (wp_readOr _ _ _ w); [by eapply dkeeps_trans|intros e w' ? Hn; congruence|]. intros caCert' w6 Hk6 Hca'. rewrite Hca in Hca'. simplify_eq.
  apply (wp_readOr _ _ _ w); [done|by intros e w' ? ->|]. intros caKey w7 Hk7 ->. wp_ret. simpl.
  destruct (rsaNew caCert' caKey) as [ca|e]; [wp_ret|]; done.
Qed.

(** Files that do not exist may be made; paths stay. *)
Definition dmakes (ps : list string) w w' : Prop := (∀ q, q ∉ ps → dfiles w' !! q = dfiles w !! q) ∧ dpaths w ⊆ dpaths w'.

Lemma dmakes_keeps ps w w' : dkeeps w w' → dmakes ps w w'.
Proof. intros [Hf Hp]. split; [by rewrite Hf|by rewrite Hp]. Qed.
Lemma dmakes_trans ps w1 w2 w3 : dmakes ps w1 w2 → dmakes ps w2 w3 → dmakes ps w1 w3.
Proof. intros [Ha ?] [Hb ?]. split; [intros q Hq; by rewrite Hb, Ha|set_solver]. Qed.
Lemma dmakes_mono ps qs w w' : ps ⊆ qs → dmakes ps w w' → dmakes qs w w'.
Proof. intros Hs [Hf ?]. split; [|done]. intros q Hq. apply Hf. set_solver. Qed.

Lemma wp_wrapErr {A B} msg (m : M W (result A)) (k : A → M W (result B)) w Q :
  wp m w (λ r w', match r with Val a => wp (k a) w' Q | Err e => Q (Err (msg +:+ e)) w' end) → wp (wrapErr msg m k) w Q.
Proof. intros Hm. unfold wrapErr. wp_bind. eapply wp_mono; [exact Hm|]. by intros [a|e] w' ?. Qed.

Definition tlsPaths : list string := [CACertPath DefaultTLSDir; SignedCertPath DefaultTLSDir; SignedKeyPath DefaultTLSDir; CAKeyPath DefaultTLSDir].

Lemma wp_writeDaemonFiles files w : wp (writeDaemonFiles files) w (λ _ w', dmakes (f_Path <$> files) w w').
Proof.
  revert w. induction files as [|f files IH]; intros w; simpl; [by wp_ret; apply dmakes_keeps|]. apply wp_wrapErr.
  eapply wp_mono; [apply dhWrite_ok|]. intros r w1 (Ho & Hp & _).
  assert (dmakes (f_Path f :: (f_Path <$> files)) w w1) as Hm. { split; [|done]. intros q [? _]%not_elem_of_cons. by apply Ho. }
  destruct r as [[]|e]; [|done]. eapply wp_mono; [apply IH|]. intros r w2 Hm2. eapply dmakes_trans; [exact Hm|]. eapply dmakes_mono; [|exact Hm2]. set_solver.
Qed.

Lemma wp_setupTLS w : wp (setupTLS DefaultTLSDir) w (λ r w', dmakes tlsPaths w w' ∧ (r = Val () → DefaultTLSDir ∈ dpaths w')).
Proof.
  unfold setupTLS. apply wp_wrapErr. eapply wp_mono; [apply dhMkdir_ok|]. intros r w1 (Hf & Hp & Hv).
  assert (dmakes tlsPaths w w1) as Hm by (split; [by rewrite Hf|done]). destruct r as [[]|e]; [|done]. specialize (Hv eq_refl).
  apply wp_wrapErr. eapply wp_mono; [apply dhCA_ok|]. intros r w2 Hk2. pose proof (dmakes_trans _ _ _ _ Hm (dmakes_keeps _ _ _ Hk2)) as Hm2. destruct r as [ca|e]; [|done].
  apply wp_wrapErr. eapply wp_mono; [apply dhCert_ok|]. intros r w3 Hk3. pose proof (dmakes_trans _ _ _ _ Hm2 (dmakes_keeps _ _ _ Hk3)) as Hm3. destruct r as [signed|e]; [|done].
  eapply wp_mono; [apply wp_writeDaemonFiles|]. intros r w4 Hm4. change (f_Path <$> DaemonFiles DefaultTLSDir ca signed) with tlsPaths in Hm4.
  split; [by eapply dmakes_trans|]. intros _. destruct Hk2 as [_ Hp2], Hk3 as [_ Hp3], Hm4 as [_ Hp4]. rewrite Hp3, Hp2 in Hp4. set_solver.
Qed.

Lemma wp_setupKubeSecret w : wp (setupKubeSecret DefaultKubeSecretPath) w (λ r w', dmakes [DefaultKubeSecretPath] w w' ∧ (r = Val () → DefaultKubeSecretPath ∈ dpaths w')).
Proof.
  unfold setupKubeSecret. apply wp_try. eapply wp_mono; [apply dhSecret_ok|]. intros r w1 Hk1. destruct r as [secret|e]; [|split; [by apply dmakes_keeps|done]].
  eapply wp_mono; [apply dhWrite_ok|]. intros r w2 (Ho & Hp & Hv). split; [|by intros []%Hv]. eapply dmakes_trans; [by apply dmakes_keeps|]. split; [|done].
  intros q [Hq _]%not_elem_of_cons. by apply Ho.
Qed.

Lemma wp_setupSSHKey w : wp (setupSSHKey DefaultSSHKeyPath) w (λ r w', dmakes [DefaultSSHKeyPath] w w' ∧ (r = Val () → DefaultSSHKeyPath ∈ dpaths w')).
Proof.
  unfold setupSSHKey. apply wp_wrapErr. eapply wp_mono; [apply dhMkdir_ok|]. intros r w1 (Hf & Hp & _).
  assert (dmakes [DefaultSSHKeyPath] w w1) as Hm by (split; [by rewrite Hf|done]). destruct r as [[]|e]; [|done].
  apply wp_wrapErr. eapply wp_mono; [apply dhKey_ok|]. intros r w2 Hk2. pose proof (dmakes_trans _ _ _ _ Hm (dmakes_keeps _ _ _ Hk2)) as Hm2. destruct r as [key|e]; [|done].
  apply wp_wrapErr. eapply wp_mono; [apply dhWrite_ok|]. intros r w3 (Ho & Hp3 & Hv).
  assert (dmakes [DefaultSSHKeyPath] w w3) as Hm3. { eapply dmakes_trans; [exact Hm2|]. split; [|done]. intros q [Hq _]%not_elem_of_cons. by apply Ho. }
  destruct r as [[]|e]; [wp_ret|done]. split; [done|]. intros _. by apply Hv.
Qed.

Lemma wp_setupMissing path setup ps w :
  (∀ w, wp (setup path) w (λ r w', dmakes ps w w' ∧ (r = Val () → path ∈ dpaths w'))) →
  wp (setupMissing path setup) w (λ r w', dmakes (if decide (path ∈ dpaths w) then [] else ps) w w' ∧ (r = Val () → path ∈ dpaths w')).
Proof.
  intros Hs. unfold setupMissing. wp_bind. eapply wp_mono; [apply dhStat_ok|]. intros b w1 [Hk ->]. case_decide as Hin.
  - rewrite bool_decide_eq_true_2 by done. wp_ret. split; [by apply dmakes_keeps|]. destruct Hk as [_ ->]. done.
  - rewrite bool_decide_eq_false_2 by done. eapply wp_mono; [apply Hs|]. intros r w2 [Hm Hv]. split; [|done]. eapply dmakes_trans; [by apply dmakes_keeps|done].
Qed.

(** What a start does to the files, and what it starts with. *)
Lemma wp_Daemon_Run w :
  let made p ps := if decide (p ∈ dpaths w) then [] else ps in
  wp Daemon_Run w (λ r w', dmakes (made DefaultTLSDir tlsPaths ++ made DefaultKubeSecretPath [DefaultKubeSecretPath] ++ made DefaultSSHKeyPath [DefaultSSHKeyPath]) w w' ∧
    (∀ st, r = Val st → stored (dfiles w') = Some st ∧ Forall (.∈ dpaths w') [DefaultTLSDir; DefaultKubeSecretPath; DefaultSSHKeyPath])).
Proof.
  intros made. unfold Daemon_Run. apply wp_try. eapply wp_mono; [apply wp_setupMissing, wp_setupTLS|]. intros r w1 [Hm1 Hv1].
  assert (dmakes (made DefaultTLSDir tlsPaths ++ made DefaultKubeSecretPath [DefaultKubeSecretPath] ++ made DefaultSSHKeyPath [DefaultSSHKeyPath]) w w1) as Ha1.
  { eapply dmakes_mono; [|exact Hm1]. set_solver. }
  destruct r as [[]|e]; [|done]. specialize (Hv1 eq_refl). apply wp_try. eapply wp_mono; [apply wp_setupMissing, wp_setupKubeSecret|]. intros r w2 [Hm2 Hv2].
  assert (∀ p ps wa wb, dpaths w ⊆ dpaths wa → dmakes (if decide (p ∈ dpaths wa) then [] else ps) wa wb → dmakes (made p ps) wa wb) as Hmade.
  { intros p ps wa wb Hsub Hm. eapply dmakes_mono; [|exact Hm]. unfold made. repeat case_decide; set_solver. }
  apply Hmade in Hm2; [|apply Ha1]. eapply (dmakes_mono _ (made DefaultTLSDir tlsPaths ++ made DefaultKubeSecretPath [DefaultKubeSecretPath] ++ made DefaultSSHKeyPath [DefaultSSHKeyPath])) in Hm2; [|set_solver].
  pose proof (dmakes_trans _ _ _ _ Ha1 Hm2) as Ha2. destruct r as [[]|e]; [|done]. specialize (Hv2 eq_refl).
  apply wp_try. eapply wp_mono; [apply wp_setupMissing, wp_setupSSHKey|]. intros r w3 [Hm3 Hv3].
  apply Hmade in Hm3; [|apply Ha2]. eapply (dmakes_mono _ (made DefaultTLSDir tlsPaths ++ made DefaultKubeSecretPath [DefaultKubeSecretPath] ++ made DefaultSSHKeyPath [DefaultSSHKeyPath])) in Hm3; [|set_solver].
  pose proof (dmakes_trans _ _ _ _ Ha2 Hm3) as Ha3. destruct r as [[]|e]; [|done]. specialize (Hv3 eq_refl).
  eapply wp_mono; [apply wp_loadKeys|]. intros r w4 [Hk4 Hr]. split; [eapply dmakes_trans; [done|by apply dmakes_keeps]|]. intros st ->. destruct Hk4 as [Hf4 Hp4].
  rewrite Hf4, Hp4. split; [done|]. destruct Hm2 as [_ Hs2], Hm3 as [_ Hs3]. repeat constructor; set_solver.
Qed.

(** A start when everything exists only reads. *)
Lemma wp_Daemon_Run_again w :
  Forall (.∈ dpaths w) [DefaultTLSDir; DefaultKubeSecretPath; DefaultSSHKeyPath] →
  wp Daemon_Run w (λ r w', dkeeps w w' ∧ okOf r = stored (dfiles w)).
Proof.
  intros Hall. rewrite !Forall_cons in Hall. destruct Hall as (Ht & Hk & Hs & _). assert (∀ p setup w1, p ∈ dpaths w → dkeeps w w1 → wp (setupMissing p setup) w1 (λ r w', r = Val () ∧ dkeeps w w')) as Hskip.
  { intros p setup w1 Hp Hk1. unfold setupMissing. wp_bind. eapply wp_mono; [apply dhStat_ok|]. intros b w2 [Hk2 ->].
    rewrite bool_decide_eq_true_2 by (by destruct Hk1 as [_ ->]). wp_ret. split; [done|]. by eapply dkeeps_trans. }
  unfold Daemon_Run. apply wp_try. eapply wp_mono; [by apply Hskip|]. intros r w1 [-> Hk1].
  apply wp_try. eapply wp_mono; [by apply Hskip|]. intros r w2 [-> Hk2].
  apply wp_try. eapply wp_mono; [by apply Hskip|]. intros r w3 [-> Hk3]. pose proof Hk3 as [Hf3 _].
  eapply wp_mono; [apply wp_loadKeys|]. intros r w4 [Hk4 Hr]. rewrite Hf3 in Hr. split; [by eapply dkeeps_trans|done].
Qed.

(** If setting up was interrupted after the directory was made, no later start repairs it. *)
Lemma interrupted_setup_is_final w :
  Forall (.∈ dpaths w) [DefaultTLSDir; DefaultKubeSecretPath; DefaultSSHKeyPath] → dfiles w !! CAKeyPath DefaultTLSDir = None →
  wp Daemon_Run w (λ r w', (∃ e, r = Err e) ∧ dkeeps w w').
Proof.
  intros Hp Hn. eapply wp_mono; [by apply wp_Daemon_Run_again|]. intros r w' [Hk Hr].
  assert (stored (dfiles w) = None) as Hs. { unfold stored. rewrite Hn. by repeat (destruct (_ !! _); simpl). }
  rewrite Hs in Hr. destruct r as [st|e]; [done|]. eauto.
Qed.
End daemon.

(** ** Properties *)

(** C39: the keys of the daemon survive restarts.  A start never overwrites credentials that are there: the TLS files if their
    directory exists, the Kubernetes secret and the SSH key if they exist.  If it starts the daemon, then a later start from the
    files it leaves uses the same SSH key, TLS credentials, Kubernetes secret and certificate authority, and
    writes nothing.  (The paths below the home directory must be different.) *)
Theorem daemon_restart_keeps_keys {W} `{DaemonHost W} keldaHome {TLS Signer} (tlsNew : string → string → string → result TLS) rsaNew
    (ParsePrivateKey : string → result Signer) `{!DaemonLaws (W := W)} (w : W) :
  NoDup (tlsPaths keldaHome ++ [DefaultSSHKeyPath keldaHome; DefaultKubeSecretPath keldaHome]) →
  wp (Daemon_Run keldaHome tlsNew rsaNew ParsePrivateKey) w (λ r w',
    (DefaultTLSDir keldaHome ∈ dpaths w → ∀ q, q ∈ tlsPaths keldaHome → dfiles w' !! q = dfiles w !! q) ∧
    (DefaultKubeSecretPath keldaHome ∈ dpaths w → dfiles w' !! DefaultKubeSecretPath keldaHome = dfiles w !! DefaultKubeSecretPath keldaHome) ∧
    (DefaultSSHKeyPath keldaHome ∈ dpaths w → dfiles w' !! DefaultSSHKeyPath keldaHome = dfiles w !! DefaultSSHKeyPath keldaHome) ∧
    ∀ st, r = Val st → wp (Daemon_Run keldaHome tlsNew rsaNew ParsePrivateKey) w' (λ r' w'', r' = Val st ∧ dkeeps w' w'')).
Proof.
  intros Hnd. apply NoDup_app in Hnd as (_ & Hdis & Hnd2). apply NoDup_cons in Hnd2 as [Hne _].
  assert (∀ q, q ∈ tlsPaths keldaHome → q ≠ DefaultSSHKeyPath keldaHome ∧ q ≠ DefaultKubeSecretPath keldaHome) as Htls.
  { intros q Hq. specialize (Hdis q Hq). set_solver. }
  assert (DefaultSSHKeyPath keldaHome ≠ DefaultKubeSecretPath keldaHome) as Hsk by set_solver. clear Hdis Hne.
  eapply wp_mono; [apply wp_Daemon_Run|]. intros r w' [[Hf _] Hst]. split_and!.
  - intros Hin q Hq. apply Hf. rewrite decide_True by done. destruct (Htls q Hq). repeat case_decide; set_solver.
  - intros Hin. apply Hf. rewrite (decide_True (P := DefaultKubeSecretPath keldaHome ∈ _)) by done. repeat case_decide; set_solver.
  - intros Hin. apply Hf. rewrite (decide_True (P := DefaultSSHKeyPath keldaHome ∈ _)) by done. repeat case_decide; set_solver.
  - intros st ->. destruct (Hst st eq_refl) as [Hs Hp]. eapply wp_mono; [by apply wp_Daemon_Run_again|]. intros r' w'' [Hk Hr]. split; [|done].
    rewrite Hs in Hr. destruct r' as [st'|e]; simpl in Hr; congruence.
Qed.

(** ** A simulated host *)

Record simDisk := mk_simDisk { sd_files : gmap string string; sd_dirs : gset string; sd_counter : nat; sd_broken : string }.
Definition set_sd_files (f : gmap string string) (w : simDisk) : simDisk := mk_simDisk f (sd_dirs w) (sd_counter w) (sd_broken w).
(** Generated texts are numbered. *)
Definition simFresh (what : string) : M simDisk string := λ w,
  Ok (what +:+ fmtInt (Z.of_nat (sd_counter w)), mk_simDisk (sd_files w) (sd_dirs w) (S (sd_counter w)) (sd_broken w)).

(** One file may be impossible to write. *)
#[local] Instance simDaemon : DaemonHost simDisk := {|
  dhStat := λ p w, Ok (bool_decide (p ∈ dom (sd_files w) ∪ sd_dirs w), w);
  dhMkdirAll := λ p _ w, Ok (Val (), mk_simDisk (sd_files w) ({[p]} ∪ sd_dirs w) (sd_counter w) (sd_broken w));
  dhWriteFile := λ p c _ w, if bool_decide (p = sd_broken w) then Ok (Err "input/output error", w) else Ok (Val (), set_sd_files (<[p := c]> (sd_files w)) w);
  dhReadFile := λ p w, Ok (match sd_files w !! p with Some c => Val c | None => Err "no such file or directory" end, w);
  NewCertificateAuthority := let! n := simFresh "CA" in mret (Val (mk_KeyPair ("cert " +:+ n) ("key " +:+ n)));
  NewDaemonCert := λ ca cn, let! n := simFresh cn in mret (Val (mk_KeyPair (CertString ca +:+ " signs " +:+ n) ("key " +:+ n)));
  GenerateKeyPEM := let! n := simFresh "ssh" in mret (Val n);
  randomSecret := let! n := simFresh "secret" in mret (Val n);
|}.
#[local] Instance simDaemon_laws : DaemonLaws (W := simDisk).
Proof.
  refine {| dfiles := sd_files; dpaths := λ w, dom (sd_files w) ∪ sd_dirs w |}; intros; unfold wp; simpl; try done.
  - split; [done|]. destruct (sd_files w !! p); [done|by eexists].
  - split_and!; [done|set_solver|set_solver].
  - case_bool as [->|Hne]; simpl; [done|]. split_and!; [intros q Hq; by rewrite lookup_insert_ne|rewrite dom_insert_L; set_solver|].
    intros _. rewrite lookup_insert_eq, dom_insert_L. split; [done|set_solver].
Defined.

Definition demo_tlsNew (ca cert key : string) : result string := Val (ca +:+ ", " +:+ cert).
Definition demo_rsaNew (cert key : string) : result KeyPair := Val (mk_KeyPair cert key).
Definition demo_disk (broken : string) : simDisk := mk_simDisk ∅ ∅ 0 broken.

(** A first start, and a second from what it leaves; then with a key that cannot be written, and after that is repaired. *)
Example daemon_start_example :
  match Daemon_Run "/home/user/.kelda" demo_tlsNew demo_rsaNew Val (demo_disk "") with
  | Ok (Val st, w) => match Daemon_Run "/home/user/.kelda" demo_tlsNew demo_rsaNew Val w with Ok (Val st', _) => (st_creds st, st_creds st', st_sshKey st') | _ => ("", "", "") end
  | _ => ("", "", "")
  end = ("cert CA0, cert CA0 signs kelda:daemon1", "cert CA0, cert CA0 signs kelda:daemon1", "ssh3").
Proof. vm_compute. reflexivity. Qed.
Example daemon_interrupted_example :
  match Daemon_Run "/home/user/.kelda" demo_tlsNew demo_rsaNew Val (demo_disk "/home/user/.kelda/tls/kelda.key") with
  | Ok (Err e, w) => match Daemon_Run "/home/user/.kelda" demo_tlsNew demo_rsaNew Val (mk_simDisk (sd_files w) (sd_dirs w) (sd_counter w) "") with Ok (Err e', _) => (e, e') | _ => ("", "") end
  | _ => ("", "")
  end = ("failed to write file (/home/user/.kelda/tls/kelda.key): input/output error", "read signed key: no such file or directory").
Proof. vm_compute. reflexivity. Qed.

Lemma daemon_restart_keeps_keys_witness :
  wp (Daemon_Run "/home/user/.kelda" demo_tlsNew demo_rsaNew Val) (demo_disk "") (λ r w',
    ∀ st, r = Val st → wp (Daemon_Run "/home/user/.kelda" demo_tlsNew demo_rsaNew Val) w' (λ r' w'', r' = Val st ∧ dkeeps w' w'')).
Proof.
  eapply wp_mono; [apply (daemon_restart_keeps_keys "/home/user/.kelda" demo_tlsNew demo_rsaNew Val (demo_disk "")); vm_decide|].
  intros r w' (_ & _ & _ & Hst). exact Hst.
Defined.
