(* ===== verification/Cni.v ===== *)
(** * Package cni: connecting pods to the network

    [src/minion/network/cni/cni.go]: [cmdAdd], which gives a pod its interface, its
    address and its ports in Open vSwitch, and [cmdDel], which takes them away.
    Netlink, network namespaces, ovs-vsctl and the annotations of pods are the class
    [Nl]; OVSDB and ovs-ofctl are those of the OpenFlow model. *)

From S2P Require Import Prelude GoStrings Join Blueprint DbRows Backoff Providers GoNet Ip Ovn Openflow Docker.

(** ** Data *)

Definition mtu : Z := 1400.
Definition containerIDTag : string := "cni-container-id".
Definition OvnBridge : string := "br-int".

(** [skel.CmdArgs] *)
Record CmdArgs := mk_CmdArgs { ContainerID : string; Netns : string; IfName : string; Args : string }.

(** [nl.Route]: whether it has the scope of the link, and its optional parts. *)
Record Route := mk_Route {
  rt_ScopeLink : bool;
  rt_LinkIndex : Z;
  rt_Dst : option IPNet;
  rt_Src : option Z;
  rt_Gw : option Z;
}.
(** [current.Result]: the interface, the address and the gateway. *)
Record cniResult := mk_cniResult {
  cr_Name : string;
  cr_Mac : string;
  cr_Sandbox : string;
  cr_Address : Z * Z;
  cr_Gateway : Z;
}.

(** A MAC address; [net.ParseMAC] for six bytes separated by colons, and [String]. *)
Definition macString (mac : list Z) : string := Join_strings ":" (hex2 <$> mac).
Definition hexValue (c : ascii) : option Z :=
  let n := Z.of_N (N_of_ascii c) in
  if bool_decide (48 ≤ n ≤ 57)%Z then Some (n - 48)%Z
  else if bool_decide (97 ≤ n ≤ 102)%Z then Some (n - 87)%Z
  else if bool_decide (65 ≤ n ≤ 70)%Z then Some (n - 55)%Z
  else None.
Definition hexByte (s : string) : option Z :=
  match s with
  | String a (String b "") => x ← hexValue a; y ← hexValue b; Some (x * 16 + y)%Z
  | _ => None
  end.
Definition ParseMAC (s : string) : option (list Z) :=
  bytes ← mapM hexByte (Split ":" s);
  if bool_decide (length bytes = 6) then Some bytes else None.

(** [regexp.MustCompile("K8S_POD_NAME=([^;]+);")], the first submatch of the
    leftmost match. *)
Definition podNameKey : string := "K8S_POD_NAME=".
Definition podNameHere (s : string) : option string :=
  rest ← stripPrefix podNameKey s;
  name ← fst <$> splitAt ";" rest;
  if bool_decide (name = "") then None else Some name.
Fixpoint findPodName (s : string) : option string :=
  match podNameHere s with
  | Some name => Some name
  | None => match s with "" => None | String _ s => findPodName s end
  end.
Definition grepPodName (args : string) : result string :=
  match findPodName args with
  | Some name => Val name
  | None => Err "failed to find pod name in arguments"
  end.

Example grepPodName_example : grepPodName "IgnoreUnknown=1;K8S_POD_NAME=web-1;K8S_POD_NAMESPACE=default;" = Val "web-1".
Proof. done. Qed.

(** ** The host *)

(** Links and namespaces are handles; a link is looked up in the namespace of the
    thread.  [LinkByAlias] answers the link and its name, [None] for a
    [LinkNotFoundError]. *)
Class Nl (W : Type) := {
  AddVeth : string → string → string → Z → M W (result unit);
  nl_LinkByName : string → M W (result Z);
  LinkByAlias : string → M W (result (option (Z * string)));
  LinkDel : Z → M W (result unit);
  nl_LinkSetUp : Z → M W (result unit);
  LinkSetNs : Z → Z → M W (result unit);
  LinkSetName : Z → string → M W (result unit);
  LinkSetHardwareAddr : Z → list Z → M W (result unit);
  nl_AddrAdd : Z → Z * Z → M W (result unit);
  RouteAdd : Route → M W (result unit);
  GetNetns : M W (result Z);
  GetNetnsFromPath : string → M W (result Z);
  SetNetns : Z → M W (result unit);
  CloseNsHandle : Z → M W (result unit);
  (** [execRun("ovs-vsctl", ...)]; an error comes with the output. *)
  vsctl : list string → M W (result unit);
  getPodAnnotations : string → M W (result (gmap string string));
}.

Section cni.
Context `{MapOrder} `{ParseIPv6} {W : Type} `{OvsdbClient W} `{Ofctl W} `{Nl W}.

(** [if err != nil { return fmt.Errorf(msg, err) }] *)
Definition orFail {A B} (msg : string) (m : M W (result A)) (k : A → M W (result B)) : M W (result B) :=
  let! r := m in
  match r with
  | Err e => mret (Err (msg +:+ e))
  | Val a => k a
  end.

(** ** Removing *)

(** The error of [Open] is not in the message: the client is printed. *)
Definition listPortsByTag (key value : string) : M W (result (list string)) :=
  let! r := Open in
  match r with
  | Err _ => mret (Err "get OVSDB client: {%!s(*libovsdb.OvsdbClient=<nil>)}")
  | Val _ => ListPortsByTag key value
  end.

Definition deleteLinkIfExists (alias : string) : M W (result unit) :=
  orFail "failed to find outer veth: " (LinkByAlias alias) (λ link,
    match link with
    | None => mret (Val ())
    | Some (link, name) => orFail ("failed to delete veth " +:+ name +:+ ": ") (LinkDel link) (λ _, mret (Val ()))
    end).

Definition cmdDel (args : CmdArgs) : M W (result unit) :=
  orFail "list OVS ports: " (listPortsByTag containerIDTag (ContainerID args)) (λ ports,
    if bool_decide (0 < length ports) then
      let cmd := concat ((λ port, ["--"; "del-port"; port]) <$> ports) in
      orFail "failed to teardown OVS ports: " (vsctl cmd) (λ _, deleteLinkIfExists (ContainerID args))
    else deleteLinkIfExists (ContainerID args)).

(** ** Adding *)

Definition getIPMac (podName : string) : M W (result ((Z * Z) * list Z)) :=
  let? annotations := getPodAnnotations podName in
  match annotations !! "keldaIP" with
  | None => mret (Err "pod has no Kelda IP")
  | Some ipStr =>
    match ParseIP ipStr with
    | None => mret (Err ("invalid IP: " +:+ ipStr))
    | Some ip =>
      let! macStr := lift (IPToMac ip) in
      match ip, ParseMAC macStr with
      | IP4 a, Some mac => mret (Val ((a, CIDRMask4 32), mac))
      | _, _ => mret (Err ("failed to parse mac address " +:+ macStr))
      end
    end
  end.

Definition setupOuterLink (name : string) : M W (result unit) :=
  orFail ("failed to find link " +:+ name +:+ ": ") (nl_LinkByName name) (λ link,
    orFail "failed to bring link up: " (nl_LinkSetUp link) (λ _, mret (Val ()))).

(** The part of [setupPod] in the namespace of the pod. *)
Definition configureLink (goalName : string) (link : Z) (ip : Z * Z) (mac : list Z) : M W (result unit) :=
  orFail "failed to set mac address: " (LinkSetHardwareAddr link mac) (λ _,
  orFail ("failed to set IP " +:+ IPString ip.1 +:+ "/32: ") (nl_AddrAdd link ip) (λ _,
  orFail "failed to set device name: " (LinkSetName link goalName) (λ _,
  orFail "failed to bring link up: " (nl_LinkSetUp link) (λ _,
  orFail "failed to add route: " (RouteAdd (mk_Route true link (Some KeldaSubnet) (Some ip.1) None)) (λ _,
  orFail "failed to add default route: " (RouteAdd (mk_Route false link None None (Some GatewayIP))) (λ _,
  mret (Val ()))))))).

Definition setupPod (ns goalName vethName : string) (ip : Z * Z) (mac : list Z) : M W (result unit) :=
  orFail ("failed to find link " +:+ vethName +:+ ": ") (nl_LinkByName vethName) (λ link,
  orFail "failed to get current namespace handle: " GetNetns (λ rootns,
  orFail "failed to open network namespace handle: " (GetNetnsFromPath ns) (λ nsh,
    let! r :=
      orFail "failed to put link in pod namespace: " (LinkSetNs link nsh) (λ _,
      orFail "failed to enter pod network namespace: " (SetNetns nsh) (λ _,
        let! r := configureLink goalName link ip mac in
        let! _ := SetNetns rootns in
        mret r)) in
    let! _ := CloseNsHandle nsh in
    mret r))).

(** The arguments of ovs-vsctl. *)
Definition ovsArgs (outerName : string) (ip : Z) (mac : list Z) (containerID : string) : list string :=
  let portExternalID := "external-ids:" +:+ containerIDTag +:+ "=" +:+ containerID in
  let '(peerBr, peerKelda) := PatchPorts (IPString ip) in
  ["--"; "add-port"; KeldaBridge; outerName; portExternalID;
   "--"; "add-port"; KeldaBridge; peerKelda; portExternalID;
   "--"; "set"; "Interface"; peerKelda; "type=patch"; "options:peer=" +:+ peerBr;
   "--"; "add-port"; OvnBridge; peerBr; portExternalID;
   "--"; "set"; "Interface"; peerBr; "type=patch"; "options:peer=" +:+ peerKelda;
   "external-ids:attached-mac=" +:+ macString mac; "external-ids:iface-id=" +:+ IPString ip].

Definition setupOVS (n : nat) (outerName : string) (ip : Z) (mac : list Z) (containerID : string) : M W (result unit) :=
  orFail "failed to configure OVSDB: " (vsctl (ovsArgs outerName ip mac containerID)) (λ _,
  orFail "failed to populate OpenFlow tables: "
    (AddFlows n [mk_ofContainer outerName (PatchPorts (IPString ip)).2 (macString mac) (IPString ip) ∅ ∅]) (λ _,
  mret (Val ()))).

Definition cmdAddResult (n : nat) (args : CmdArgs) : M W (result cniResult) :=
  match grepPodName (Args args) with
  | Err e => mret (Err e)
  | Val podName =>
    let? (ip, mac) := getIPMac podName in
    let outerName := IFName (IPString ip.1) in
    let tmpPodName := IFName ("-" +:+ outerName) in
    orFail ("failed to create veth " +:+ outerName +:+ ": ") (AddVeth outerName (ContainerID args) tmpPodName mtu) (λ _,
    let? _ := setupPod (Netns args) (IfName args) tmpPodName ip mac in
    let? _ := setupOuterLink outerName in
    orFail "failed to setup OVS: " (setupOVS n outerName ip.1 mac (ContainerID args)) (λ _,
    mret (Val (mk_cniResult (IfName args) (macString mac) (Netns args) ip GatewayIP))))
  end.
End cni.
