(* ===== verification/CniSpec.v ===== *)
(** * Package cni: what [cmdAdd] and [cmdDel] guarantee

    The host as the plugin relies on it: links that come in pairs, namespaces, and
    the ports of Open vSwitch.  Every call may fail; the laws say what it has done
    if it did not. *)

From S2P Require Import Prelude GoStrings Join Blueprint DbRows Backoff Providers GoNet Ip Ovn Openflow Docker Cni.

(** ** The host *)

Record vLink := mk_vLink {
  vl_name : string;
  vl_alias : string;
  vl_ns : Z;
  vl_peer : Z;
  vl_mac : list Z;
  vl_addrs : list (Z * Z);
  vl_routes : list Route;
  vl_up : bool;
}.
Definition set_vl_name (v : string) (l : vLink) : vLink :=
  mk_vLink v (vl_alias l) (vl_ns l) (vl_peer l) (vl_mac l) (vl_addrs l) (vl_routes l) (vl_up l).
Definition set_vl_ns (v : Z) (l : vLink) : vLink :=
  mk_vLink (vl_name l) (vl_alias l) v (vl_peer l) (vl_mac l) (vl_addrs l) (vl_routes l) (vl_up l).
Definition set_vl_mac (v : list Z) (l : vLink) : vLink :=
  mk_vLink (vl_name l) (vl_alias l) (vl_ns l) (vl_peer l) v (vl_addrs l) (vl_routes l) (vl_up l).
Definition add_vl_addr (v : Z * Z) (l : vLink) : vLink :=
  mk_vLink (vl_name l) (vl_alias l) (vl_ns l) (vl_peer l) (vl_mac l) (v :: vl_addrs l) (vl_routes l) (vl_up l).
Definition add_vl_route (v : Route) (l : vLink) : vLink :=
  mk_vLink (vl_name l) (vl_alias l) (vl_ns l) (vl_peer l) (vl_mac l) (vl_addrs l) (v :: vl_routes l) (vl_up l).
Definition set_vl_up (l : vLink) : vLink :=
  mk_vLink (vl_name l) (vl_alias l) (vl_ns l) (vl_peer l) (vl_mac l) (vl_addrs l) (vl_routes l) true.

(** A port of Open vSwitch: its bridge and the columns set. *)
Record vPort := mk_vPort { vp_bridge : string; vp_columns : list string }.
Definition tagged (id : string) (p : vPort) : Prop := ("external-ids:" +:+ containerIDTag +:+ "=" +:+ id) ∈ vp_columns p.
#[export] Instance tagged_dec id p : Decision (tagged id p).
Proof. unfold tagged. apply _. Defined.
(** The ports without the tag. *)
Definition untagged (id : string) (ports : gmap string vPort) : gmap string vPort := filter (λ kv, ¬ tagged id kv.2) ports.

Record cniView := mk_cniView { cv_links : gmap Z vLink; cv_ports : gmap string vPort; cv_ns : Z }.
#[export] Instance cniView_eq_dec : EqDecision cniView.
Proof. assert (EqDecision vPort) by solve_decision. assert (EqDecision Route) by solve_decision. assert (EqDecision vLink) by solve_decision. solve_decision. Defined.
Definition set_cv_links (v : gmap Z vLink) (c : cniView) : cniView := mk_cniView v (cv_ports c) (cv_ns c).
Definition set_cv_ports (v : gmap string vPort) (c : cniView) : cniView := mk_cniView (cv_links c) v (cv_ns c).
Definition set_cv_ns (v : Z) (c : cniView) : cniView := mk_cniView (cv_links c) (cv_ports c) v.

(** *** ovs-vsctl: a transaction of commands *)

Inductive vsCommand :=
  | AddPort (bridge name : string) (columns : list string)
  | SetInterface (name : string) (columns : list string)
  | DelPort (name : string).

Definition printCommand (c : vsCommand) : list string :=
  match c with
  | AddPort bridge name columns => "--" :: "add-port" :: bridge :: name :: columns
  | SetInterface name columns => "--" :: "set" :: "Interface" :: name :: columns
  | DelPort name => ["--"; "del-port"; name]
  end.
Definition printCommands (cs : list vsCommand) : list string := concat (printCommand <$> cs).
(** No word is taken for the start of a command. *)
Definition plainCommand (c : vsCommand) : Prop := "--" ∉ tail (printCommand c).

Definition vsStep (ports : gmap string vPort) (c : vsCommand) : option (gmap string vPort) :=
  match c with
  | AddPort bridge name columns => match ports !! name with None => Some (<[name := mk_vPort bridge columns]> ports) | Some _ => None end
  | SetInterface name columns =>
    p ← ports !! name; Some (<[name := mk_vPort (vp_bridge p) (vp_columns p ++ columns)]> ports)
  | DelPort name => _ ← ports !! name; Some (delete name ports)
  end.
Fixpoint vsRun (ports : gmap string vPort) (cs : list vsCommand) : option (gmap string vPort) :=
  match cs with [] => Some ports | c :: cs => ports' ← vsStep ports c; vsRun ports' cs end.

Section laws.
(** [pods]: the annotations of the pods; [nsOf]: the network namespaces that paths name. *)
Context (W : Type) `{OvsdbClient W} `{Ofctl W} `{Nl W} (view : W → cniView) (pods : string → gmap string string) (nsOf : string → Z).

(** [m] has the effect, or fails and has none. *)
Definition may {A} (m : M W (result A)) (effect : A → cniView → cniView → Prop) : Prop :=
  ∀ w, wp m w (λ r w', match r with Val a => effect a (view w) (view w') | Err _ => view w' = view w end).
Definition alters {A} (m : M W (result A)) (i : Z) (f : vLink → vLink) : Prop :=
  may m (λ _ v v', is_Some (cv_links v !! i) ∧ v' = set_cv_links (alter f i (cv_links v)) v).
Definition keeps_view {A} (m : M W A) : Prop := ∀ w, wp m w (λ _ w', view w' = view w).

Record NlLaws : Prop := {
  AddVeth_ok : ∀ name alias peer m, may (AddVeth name alias peer m) (λ _ v v', ∃ i j, i ≠ j ∧ cv_links v !! i = None ∧ cv_links v !! j = None ∧
    name ≠ peer ∧
    v' = set_cv_links (<[i := mk_vLink name alias (cv_ns v) j [] [] [] false]>
                         (<[j := mk_vLink peer "" (cv_ns v) i [] [] [] false]> (cv_links v))) v ∧
    ∀ k l, cv_links v !! k = Some l → vl_ns l = cv_ns v → vl_name l ≠ name ∧ vl_name l ≠ peer);
  nl_LinkByName_ok : ∀ name, may (nl_LinkByName name) (λ i v v', v' = v ∧
    ∃ l, cv_links v !! i = Some l ∧ vl_name l = name ∧ vl_ns l = cv_ns v);
  LinkByAlias_ok : ∀ alias, may (LinkByAlias alias) (λ found v v', v' = v ∧
    match found with
    | Some (i, name) => ∃ l, cv_links v !! i = Some l ∧ vl_alias l = alias ∧ vl_ns l = cv_ns v
    | None => ∀ i l, cv_links v !! i = Some l → vl_ns l = cv_ns v → vl_alias l ≠ alias
    end);
  (** The peer goes with the link. *)
  LinkDel_ok : ∀ i, may (LinkDel i) (λ _ v v', ∃ l, cv_links v !! i = Some l ∧
    v' = set_cv_links (delete (vl_peer l) (delete i (cv_links v))) v);
  nl_LinkSetUp_ok : ∀ i, alters (nl_LinkSetUp i) i set_vl_up;
  LinkSetNs_ok : ∀ i ns, alters (LinkSetNs i ns) i (set_vl_ns ns);
  LinkSetName_ok : ∀ i name, alters (LinkSetName i name) i (set_vl_name name);
  LinkSetHardwareAddr_ok : ∀ i mac, alters (LinkSetHardwareAddr i mac) i (set_vl_mac mac);
  nl_AddrAdd_ok : ∀ i ip, alters (nl_AddrAdd i ip) i (add_vl_addr ip);
  RouteAdd_ok : ∀ r, alters (RouteAdd r) (rt_LinkIndex r) (add_vl_route r);
  GetNetns_ok : may GetNetns (λ ns v v', v' = v ∧ ns = cv_ns v);
  GetNetnsFromPath_ok : ∀ path, may (GetNetnsFromPath path) (λ ns v v', v' = v ∧ ns = nsOf path);
  SetNetns_ok : ∀ ns, may (SetNetns ns) (λ _ v v', v' = set_cv_ns ns v);
  CloseNsHandle_ok : ∀ ns, keeps_view (CloseNsHandle ns);
  vsctl_ok : ∀ cs, Forall plainCommand cs → may (vsctl (printCommands cs)) (λ _ v v',
    ∃ ports, vsRun (cv_ports v) cs = Some ports ∧ v' = set_cv_ports ports v);
  getPodAnnotations_ok : ∀ pod, may (getPodAnnotations pod) (λ annotations v v', v' = v ∧ annotations = pods pod);
  cni_Open_ok : keeps_view Open;
  cni_Disconnect_ok : keeps_view Disconnect;
  OpenFlowPorts_ok : keeps_view OpenFlowPorts;
  ofctl_ok : ∀ cmd flows, keeps_view (ofctl cmd flows);
  ListPortsByTag_ok : ∀ id, may (ListPortsByTag containerIDTag id) (λ names v v', v' = v ∧ NoDup names ∧
    ∀ name, name ∈ names ↔ ∃ p, cv_ports v !! name = Some p ∧ tagged id p);
}.
End laws.

(** ** Names and addresses *)

Lemma length_IFName s : String.length (IFName s) = Nat.min (String.length s) 15.
Proof.
  unfold IFName. change (ifNameSize - 1) with 15. case_bool as [Hl|Hl]; [lia|].
  assert (∀ n s, n ≤ String.length s → String.length (String.substring 0 n s) = n) as Hsub.
  { clear. induction n as [|n IH]; intros [|c s]; simpl; try lia. intros Hn. rewrite IH; lia. }
  rewrite Hsub; lia.
Qed.

#[export] Instance lacks_dec c s : Decision (lacks c s).
Proof. induction s as [|a s IH]; simpl; apply _. Defined.

Lemma hex2_byte b : (0 ≤ b < 256)%Z → hexByte (hex2 b) = Some b ∧ lacks ":" (hex2 b).
Proof.
  intros Hb. assert (Forall (λ n, hexByte (hex2 (Z.of_nat n)) = Some (Z.of_nat n) ∧ lacks ":" (hex2 (Z.of_nat n))) (seq 0 256)) as Hall by vm_decide.
  rewrite Forall_forall in Hall. specialize (Hall (Z.to_nat b)). rewrite Z2Nat.id in Hall by lia. apply Hall, elem_of_seq. lia.
Qed.

Definition macOf (a : Z) : list Z := [2%Z; 0%Z; byteOf 3 a; byteOf 2 a; byteOf 1 a; byteOf 0 a].

(** The address that [getIPMac] computes is the one of the text. *)
Lemma ParseMAC_IPToMac a mac : IPToMac (IP4 a) = Ok mac → ParseMAC mac = Some (macOf a) ∧ macString (macOf a) = mac.
Proof.
  intros [= <-]. change (ParseMAC (macString (macOf a)) = Some (macOf a) ∧ macString (macOf a) = macString (macOf a)). split; [|done].
  assert (Forall (λ b, 0 ≤ b < 256)%Z (macOf a)) as Hb by (repeat constructor; try lia; apply byteOf_range; lia).
  unfold ParseMAC, macString. rewrite Split_Join; [|done|].
  - assert (mapM hexByte (hex2 <$> macOf a) = Some (macOf a)) as ->; [|done]. apply mapM_Some, Forall2_fmap_l.
    induction Hb as [|b l Hb _ IH]; constructor; [by apply hex2_byte|done].
  - apply Forall_fmap. eapply Forall_impl; [exact Hb|]. intros b Hr. by apply hex2_byte.
Qed.

(** ** Removing *)

Lemma vsRun_dels ports names :
  NoDup names → (∀ name, name ∈ names → is_Some (ports !! name)) →
  ∃ ports', vsRun ports (DelPort <$> names) = Some ports' ∧
    ∀ name, ports' !! name = if decide (name ∈ names) then None else ports !! name.
Proof.
  revert ports. induction names as [|name names IH]; intros ports Hnd Hin; csimpl; [by exists ports|].
  apply NoDup_cons in Hnd as [Hni Hnd]. destruct (Hin name) as [p Hp]; [by left|]. rewrite Hp. simpl.
  destruct (IH (delete name ports) Hnd) as (ports' & Hr & Hl).
  { intros n Hn. rewrite lookup_delete_ne; [apply Hin; by right|]. by intros ->. }
  exists ports'. split; [done|]. intros n. rewrite Hl. destruct (decide (n ∈ names)) as [?|Hnn].
  - by rewrite decide_True by (by right).
  - destruct (decide (n = name)) as [->|Hne].
    + rewrite decide_True by left. apply lookup_delete_eq.
    + rewrite decide_False by (by apply not_elem_of_cons). by apply lookup_delete_ne.
Qed.

Section spec.
Context `{MapOrder} `{ParseIPv6} {W : Type} `{OvsdbClient W} `{Ofctl W} `{Nl W} (view : W → cniView) (pods : string → gmap string string).
Context (nsOf : string → Z) (root : Z) (Hnl : NlLaws W view pods nsOf).
(** The thread can return to the namespace it came from. *)
Context (Hroot : ∀ w, wp (SetNetns root) w (λ r w', r = Val () ∧ view w' = set_cv_ns root (view w))).
Implicit Types (w : W) (args : CmdArgs).

Lemma wp_orFail {A B} msg (m : M W (result A)) (k : A → M W (result B)) eff w Q :
  may W view m eff → (∀ a w', eff a (view w) (view w') → wp (k a) w' Q) → (∀ e w', view w' = view w → Q (Err e) w') → wp (orFail msg m k) w Q.
Proof. intros Hm HV HE. unfold orFail. wp_bind. eapply wp_mono; [apply Hm|]. intros [a|e] w' Hw'; [by apply HV|wp_ret; by apply HE]. Qed.

Lemma wp_deleteLinkIfExists alias w Q :
  (∀ w', (∀ i l, cv_links (view w) !! i = Some l → vl_ns l = cv_ns (view w) → vl_alias l ≠ alias) → view w' = view w → Q (Val ()) w') →
  (∀ i l w', cv_links (view w) !! i = Some l → vl_alias l = alias → vl_ns l = cv_ns (view w) →
     view w' = set_cv_links (delete (vl_peer l) (delete i (cv_links (view w)))) (view w) → Q (Val ()) w') →
  (∀ e w', view w' = view w → Q (Err e) w') →
  wp (deleteLinkIfExists alias) w Q.
Proof.
  intros HN HD HE. eapply wp_orFail; [apply (LinkByAlias_ok _ _ _ _ Hnl)| |exact HE].
  intros [[i name]|] w1 [Hw1 Hf]; [|wp_ret; by apply HN]. destruct Hf as (l & Hl & Ha & Hns).
  eapply wp_orFail; [apply (LinkDel_ok _ _ _ _ Hnl)| |by rewrite Hw1]. rewrite Hw1. intros [] w2 (l' & Hl' & Hw2). wp_ret.
  assert (l' = l) as -> by congruence. by eapply HD.
Qed.

Lemma vsRun_untag id ports names :
  NoDup names → (∀ name, name ∈ names ↔ ∃ p, ports !! name = Some p ∧ tagged id p) →
  vsRun ports (DelPort <$> names) = Some (untagged id ports).
Proof.
  intros Hnd Hin. destruct (vsRun_dels ports names Hnd) as (ports' & -> & Hl).
  { intros name (p & Hp & _)%Hin. by exists p. }
  f_equal. apply map_eq. intros name. rewrite Hl. unfold untagged. rewrite map_lookup_filter. case_decide as Hd.
  - destruct (proj1 (Hin name) Hd) as (p & -> & Ht). simpl. case_guard; [done|done].
  - destruct (ports !! name) as [p|] eqn:Hp; [|done]. simpl. case_guard as Ht; [done|]. exfalso. apply Hd, Hin. exists p. done.
Qed.

Lemma untagged_none id ports names : (∀ name, name ∈ names ↔ ∃ p, ports !! name = Some p ∧ tagged id p) → names = [] → untagged id ports = ports.
Proof.
  intros Hin ->. apply map_filter_id. intros name p Hp Ht. by apply (not_elem_of_nil name), Hin; exists p.
Qed.

(** [cmdDel] removes the ports with the tag, then a link with the alias; it may fail
    after either step. *)
Lemma wp_cmdDel args w Q :
  cv_ports (view w) !! "--" = None →
  (∀ e w', view w' = view w ∨ view w' = set_cv_ports (untagged (ContainerID args) (cv_ports (view w))) (view w) → Q (Err e) w') →
  (∀ w', view w' = set_cv_ports (untagged (ContainerID args) (cv_ports (view w))) (view w) →
     (∀ i l, cv_links (view w) !! i = Some l → vl_ns l = cv_ns (view w) → vl_alias l ≠ ContainerID args) → Q (Val ()) w') →
  (∀ i l w', cv_links (view w) !! i = Some l → vl_alias l = ContainerID args → vl_ns l = cv_ns (view w) →
     view w' = set_cv_ports (untagged (ContainerID args) (cv_ports (view w)))
                 (set_cv_links (delete (vl_peer l) (delete i (cv_links (view w)))) (view w)) → Q (Val ()) w') →
  wp (cmdDel args) w Q.
Proof.
  intros Hdash HE HN HD. unfold cmdDel.
  assert (may W view (listPortsByTag containerIDTag (ContainerID args)) (λ names v v', v' = v ∧ NoDup names ∧
    ∀ name, name ∈ names ↔ ∃ p, cv_ports v !! name = Some p ∧ tagged (ContainerID args) p)) as Hlist.
  { intros w0. unfold listPortsByTag. wp_bind. eapply wp_mono; [apply (cni_Open_ok _ _ _ _ Hnl)|]. intros [[]|e] w1 Hw1; [|by wp_ret].
    eapply wp_mono; [apply (ListPortsByTag_ok _ _ _ _ Hnl)|]. intros [names|e] w2; rewrite Hw1; done. }
  eapply wp_orFail; [exact Hlist| |by intros; apply HE; left]. intros names w1 (Hw1 & Hnd & Hin).
  assert (∀ w2, view w2 = set_cv_ports (untagged (ContainerID args) (cv_ports (view w))) (view w) →
    wp (deleteLinkIfExists (ContainerID args)) w2 Q) as Hdel.
  { intros w2 Hw2. apply wp_deleteLinkIfExists; [rewrite Hw2; simpl|rewrite Hw2; simpl|].
    - intros w' Hno Hw'. by apply HN.
    - intros i l w' Hl Ha Hns Hw'. by eapply HD.
    - intros e w' Hw'. apply HE. right. congruence. }
  case_bool as [Hlen|Hlen].
  - change (concat ((λ port, ["--"; "del-port"; port]) <$> names)) with (concat ((λ port, printCommand (DelPort port)) <$> names)).
    rewrite (list_fmap_compose DelPort printCommand). change (concat (printCommand <$> (DelPort <$> names))) with (printCommands (DelPort <$> names)).
    eapply wp_orFail; [apply (vsctl_ok _ _ _ _ Hnl)| |intros e w' Hw'; apply HE; left; congruence].
    + apply Forall_fmap, Forall_forall. intros name (p & Hp & _)%Hin. unfold plainCommand. simpl.
      rewrite !not_elem_of_cons. split_and!; [done|congruence|apply not_elem_of_nil].
    + rewrite Hw1. intros [] w2 (ports & Hr & Hw2). rewrite (vsRun_untag _ _ _ Hnd Hin) in Hr. injection Hr as <-. by apply Hdel.
  - apply Hdel. rewrite (untagged_none _ _ names Hin) by (destruct names; simpl in *; [done|lia]). rewrite Hw1. by destruct (view w).
Qed.

(** ** Adding *)

Section veth.
Context (args : CmdArgs) (i j : Z) (L : gmap Z vLink) (P : gmap string vPort) (outerName : string).
Context (Hij : i ≠ j) (Hi : L !! i = None) (Hj : L !! j = None).

Definition outerLink (up : bool) : vLink := mk_vLink outerName (ContainerID args) root j [] [] [] up.
(** The host with the pair of links added, the inner one as [inner]. *)
Definition withPair (up : bool) (inner : vLink) (ports : gmap string vPort) (ns : Z) : cniView :=
  mk_cniView (<[i := outerLink up]> (<[j := inner]> L)) ports ns.

Lemma wp_alterInner {B} msg (m : M W (result unit)) (k : unit → M W (result B)) f up inner ns w Q :
  alters W view m j f → view w = withPair up inner P ns →
  (∀ w', view w' = withPair up (f inner) P ns → wp (k ()) w' Q) → (∀ e w', view w' = withPair up inner P ns → Q (Err e) w') →
  wp (orFail msg m k) w Q.
Proof.
  intros Hm Hw HV HE. eapply wp_orFail; [exact Hm| |by rewrite Hw]. rewrite Hw. intros [] w' [_ Hw']. apply HV. rewrite Hw'.
  unfold withPair, set_cv_links. simpl. f_equal. rewrite alter_insert_ne by done. by rewrite alter_insert_eq.
Qed.

(** The routes of a pod: to the subnet, and the default. *)
Definition podRoutes (ip : Z) : list Route :=
  [mk_Route false j None None (Some GatewayIP); mk_Route true j (Some KeldaSubnet) (Some ip) None].
Definition podLink (nsh : Z) (ip : Z * Z) (mac : list Z) : vLink :=
  mk_vLink (IfName args) "" nsh i mac [ip] (podRoutes ip.1) true.

Definition innerOk (l : vLink) : Prop := vl_alias l = "" ∧ vl_peer l = i.

Lemma wp_configureLink ip mac name nsh w Q :
  view w = withPair false (mk_vLink name "" nsh i [] [] [] false) P nsh →
  (∀ w', view w' = withPair false (podLink nsh ip mac) P nsh → Q (Val ()) w') →
  (∀ e inner' w', innerOk inner' → view w' = withPair false inner' P nsh → Q (Err e) w') →
  wp (configureLink (IfName args) j ip mac) w Q.
Proof.
  intros Hw HV HE. unfold configureLink.
  eapply wp_alterInner; [apply (LinkSetHardwareAddr_ok _ _ _ _ Hnl)|exact Hw| |by intros e w' Hw'; eapply HE; [|exact Hw']]. clear w Hw. intros w Hw.
  eapply wp_alterInner; [apply (nl_AddrAdd_ok _ _ _ _ Hnl)|exact Hw| |by intros e w' Hw'; eapply HE; [|exact Hw']]. clear w Hw. intros w Hw.
  eapply wp_alterInner; [apply (LinkSetName_ok _ _ _ _ Hnl)|exact Hw| |by intros e w' Hw'; eapply HE; [|exact Hw']]. clear w Hw. intros w Hw.
  eapply wp_alterInner; [apply (nl_LinkSetUp_ok _ _ _ _ Hnl)|exact Hw| |by intros e w' Hw'; eapply HE; [|exact Hw']]. clear w Hw. intros w Hw.
  eapply wp_alterInner; [apply (RouteAdd_ok _ _ _ _ Hnl)|exact Hw| |by intros e w' Hw'; eapply HE; [|exact Hw']]. clear w Hw. intros w Hw.
  eapply wp_alterInner; [apply (RouteAdd_ok _ _ _ _ Hnl)|exact Hw| |by intros e w' Hw'; eapply HE; [|exact Hw']]. clear w Hw. intros w Hw.
  wp_ret. by apply HV.
Qed.

Context (tmpName : string) (Hnames : outerName ≠ tmpName).
Context (Hfree : ∀ k l, L !! k = Some l → vl_ns l = root → vl_name l ≠ outerName ∧ vl_name l ≠ tmpName).

Lemma pair_lookup up inner ns k l : cv_links (withPair up inner P ns) !! k = Some l →
  (k = i ∧ l = outerLink up) ∨ (k = j ∧ l = inner) ∨ L !! k = Some l.
Proof. simpl. rewrite !lookup_insert_Some. naive_solver. Qed.

Definition newInner : vLink := mk_vLink tmpName "" root i [] [] [] false.

Lemma wp_setupPod ip mac w Q :
  view w = withPair false newInner P root →
  (∀ w', view w' = withPair false (podLink (nsOf (Netns args)) ip mac) P root → Q (Val ()) w') →
  (∀ e inner' w', innerOk inner' → view w' = withPair false inner' P root → Q (Err e) w') →
  wp (setupPod (Netns args) (IfName args) tmpName ip mac) w Q.
Proof.
  intros Hw HV HE. unfold setupPod.
  eapply wp_orFail; [apply (nl_LinkByName_ok _ _ _ _ Hnl)| |intros e w' Hw'; rewrite Hw in Hw'; by eapply HE; [|exact Hw']].
  rewrite Hw. intros link w1 (Hw1 & l & Hl & Hn & Hns).
  assert (link = j) as ->.
  { apply pair_lookup in Hl as [[-> ->]|[[-> _]|Hl]]; [done|done|]. by destruct (Hfree _ _ Hl Hns). }
  eapply wp_orFail; [apply (GetNetns_ok _ _ _ _ Hnl)| |intros e w' Hw'; rewrite Hw1 in Hw'; by eapply HE; [|exact Hw']].
  rewrite Hw1. intros rootns w2 [Hw2 ->]. simpl.
  eapply wp_orFail; [apply (GetNetnsFromPath_ok _ _ _ _ Hnl)| |intros e w' Hw'; rewrite Hw2 in Hw'; by eapply HE; [|exact Hw']].
  rewrite Hw2. intros nsh w3 [Hw3 Hnsh].
  assert (∀ r w4, (∀ w5, view w5 = view w4 → Q r w5) → wp (let! _ := CloseNsHandle nsh in mret r) w4 Q) as Hclose.
  { intros r w4 HQ. wp_bind. eapply wp_mono; [apply (CloseNsHandle_ok _ _ _ _ Hnl)|]. intros r' w5 Hw5. wp_ret. by apply HQ. }
  assert (∀ e inner' w', innerOk inner' → view w' = withPair false inner' P root →
    wp (let! _ := CloseNsHandle nsh in mret (Err e)) w' Q) as HE'.
  { intros e inner' w' Hin Hw'. apply Hclose. intros w5 Hw5. rewrite Hw' in Hw5. by eapply HE. }
  wp_bind. eapply wp_alterInner; [apply (LinkSetNs_ok _ _ _ _ Hnl)|exact Hw3| |by intros e w' Hw'; eapply HE'; [|exact Hw']]. intros w4 Hw4.
  eapply wp_orFail; [apply (SetNetns_ok _ _ _ _ Hnl)| |by intros e w' Hw'; rewrite Hw4 in Hw'; eapply HE'; [|exact Hw']].
  rewrite Hw4. intros [] w5 Hw5. wp_bind.
  assert (∀ (r : result unit) inner' w6 Q', view w6 = withPair false inner' P nsh → (∀ w7, view w7 = withPair false inner' P root → Q' r w7) →
    wp (let! _ := SetNetns root in mret r) w6 Q') as Hback.
  { intros r inner' w6 Q' Hw6 HQ'. wp_bind. eapply wp_mono; [apply Hroot|]. intros r' w7 [_ Hw7]. wp_ret. apply HQ'. by rewrite Hw7, Hw6. }
  eapply wp_configureLink; [exact Hw5| |].
  - intros w6 Hw6. eapply Hback; [exact Hw6|]. intros w7 Hw7. apply Hclose. intros w8 Hw8. rewrite Hw7, Hnsh in Hw8. by eapply HV.
  - intros e inner' w6 Hin Hw6. eapply Hback; [exact Hw6|]. intros w7 Hw7. by eapply HE'.
Qed.

Lemma wp_setupOuterLink nsh ip mac w Q :
  IfName args ≠ outerName → view w = withPair false (podLink nsh ip mac) P root →
  (∀ w', view w' = withPair true (podLink nsh ip mac) P root → Q (Val ()) w') →
  (∀ e w', view w' = withPair false (podLink nsh ip mac) P root → Q (Err e) w') →
  wp (setupOuterLink outerName) w Q.
Proof.
  intros Hne Hw HV HE. unfold setupOuterLink.
  eapply wp_orFail; [apply (nl_LinkByName_ok _ _ _ _ Hnl)| |by rewrite Hw]. rewrite Hw. intros link w1 (Hw1 & l & Hl & Hn & Hns).
  assert (link = i) as ->.
  { apply pair_lookup in Hl as [[-> _]|[[-> ->]|Hl]]; [done|done|by destruct (Hfree _ _ Hl Hns)]. }
  eapply wp_orFail; [apply (nl_LinkSetUp_ok _ _ _ _ Hnl)| |by rewrite Hw1]. rewrite Hw1. intros [] w2 [_ Hw2]. wp_ret. apply HV. rewrite Hw2.
  unfold withPair, set_cv_links. simpl. by rewrite alter_insert_eq.
Qed.
End veth.

(** *** The ports *)

(** The first fifteen characters; 10.0.0.1 and 10.0.0.0/8. *)
Definition shortName (s : string) : string := String.substring 0 15 s.
Definition gateway : Z := 167772161.
Definition subnet : Z := 167772160.
Definition subnetMask : Z := 4278190080.

Lemma shortName_eq s : IFName s = shortName s.
Proof.
  unfold IFName, shortName. change (ifNameSize - 1) with 15. case_bool as [Hl|Hl]; [|done].
  assert (∀ n s, String.length s ≤ n → String.substring 0 n s = s) as Hsub; [|symmetry; apply Hsub; lia].
  clear. induction n as [|n IH]; intros [|c s]; simpl; try done; try lia. intros Hn. by rewrite IH by lia.
Qed.

Definition extID (id : string) : string := "external-ids:" +:+ containerIDTag +:+ "=" +:+ id.
Definition ovsCommands (outerName : string) (a : Z) (mac : list Z) (id : string) : list vsCommand :=
  let '(peerBr, peerKelda) := PatchPorts (IPString a) in
  [AddPort KeldaBridge outerName [extID id]; AddPort KeldaBridge peerKelda [extID id];
   SetInterface peerKelda ["type=patch"; "options:peer=" +:+ peerBr]; AddPort OvnBridge peerBr [extID id];
   SetInterface peerBr ["type=patch"; "options:peer=" +:+ peerKelda; "external-ids:attached-mac=" +:+ macString mac;
                        "external-ids:iface-id=" +:+ IPString a]].

Lemma ovsArgs_commands outerName a mac id : ovsArgs outerName a mac id = printCommands (ovsCommands outerName a mac id).
Proof. done. Qed.

Lemma fmtInt_length z : (0 ≤ z < 256)%Z → 1 ≤ String.length (fmtInt z).
Proof.
  intros Hz. destruct (fmtInt z) eqn:He; simpl; [|lia]. pose proof (Atoi_fmtInt z) as Ha. rewrite He in Ha. by specialize (Ha ltac:(lia)).
Qed.

Lemma IPString_length a : 7 ≤ String.length (IPString a).
Proof.
  unfold IPString. rewrite !length_app_s. simpl.
  pose proof (fmtInt_length _ (byteOf_range 3 a ltac:(lia))). pose proof (fmtInt_length _ (byteOf_range 2 a ltac:(lia))).
  pose proof (fmtInt_length _ (byteOf_range 1 a ltac:(lia))). pose proof (fmtInt_length _ (byteOf_range 0 a ltac:(lia))). lia.
Qed.

Lemma IFName_head c s : ∃ s', IFName (String c s) = String c s'.
Proof. unfold IFName. change (ifNameSize - 1) with 15. case_bool as [?|?]; [by eexists|simpl; by eexists]. Qed.

(** No name of a port is two dashes. *)
Lemma portNames_plain a :
  IFName (IPString a) ≠ "--" ∧ (PatchPorts (IPString a)).1 ≠ "--" ∧ (PatchPorts (IPString a)).2 ≠ "--".
Proof.
  split_and!.
  - intros He. pose proof (length_IFName (IPString a)) as Hl. rewrite He in Hl. simpl in Hl. pose proof (IPString_length a). lia.
  - destruct (IFName_head "b" ("r_" +:+ IPString a)) as [s' He]. intros Hd. change (IFName (String "b" ("r_" +:+ IPString a)) = "--") in Hd. congruence.
  - destruct (IFName_head "q" ("_" +:+ IPString a)) as [s' He]. intros Hd. change (IFName (String "q" ("_" +:+ IPString a)) = "--") in Hd. congruence.
Qed.

Lemma ovsCommands_plain a mac id : Forall plainCommand (ovsCommands (IFName (IPString a)) a mac id).
Proof.
  destruct (portNames_plain a) as (Ho & Hb & Hq). unfold ovsCommands. destruct (PatchPorts (IPString a)) as [peerBr peerKelda]. simpl in *.
  repeat constructor; unfold plainCommand; simpl; rewrite ?not_elem_of_cons; split_and!; try done; apply not_elem_of_nil.
Qed.

Lemma untagged_insert id ports name p :
  tagged id p → (∀ q, ports !! name = Some q → tagged id q) → untagged id (<[name := p]> ports) = untagged id ports.
Proof.
  intros Hp Hq. apply map_eq. intros k. unfold untagged. rewrite !map_lookup_filter. destruct (decide (k = name)) as [->|Hne].
  - rewrite lookup_insert_eq. simpl. rewrite option_guard_False by naive_solver. destruct (ports !! name) as [q|] eqn:He; [|done].
    simpl. rewrite option_guard_False; [done|]. intros Hn. by apply Hn, Hq.
  - by rewrite lookup_insert_ne.
Qed.

(** A command that only makes or changes ports with the tag. *)
Lemma vsStep_tagged id ports c ports' :
  vsStep ports c = Some ports' →
  match c with
  | AddPort _ _ columns => extID id ∈ columns
  | SetInterface name _ => ∀ q, ports !! name = Some q → tagged id q
  | DelPort _ => False
  end →
  untagged id ports' = untagged id ports ∧
  match c with
  | AddPort _ name _ | SetInterface name _ | DelPort name => (∀ q, ports' !! name = Some q → tagged id q) ∧ ∀ k, k ≠ name → ports' !! k = ports !! k
  end.
Proof.
  destruct c as [bridge name columns|name columns|name]; simpl; [| |done]; intros Hs Ht.
  - destruct (ports !! name) eqn:Hn; [done|]. injection Hs as <-. split; [|split].
    + apply untagged_insert; [done|]. by rewrite Hn.
    + intros q. rewrite lookup_insert_eq. by intros [= <-].
    + intros k Hk. by rewrite lookup_insert_ne.
  - destruct (ports !! name) as [p|] eqn:Hn; [|done]. simpl in Hs. injection Hs as <-.
    assert (tagged id (mk_vPort (vp_bridge p) (vp_columns p ++ columns))) as Hp.
    { apply elem_of_app. left. by apply Ht. }
    split; [|split].
    + apply untagged_insert; [done|]. intros q Hq. apply Ht. congruence.
    + intros q. rewrite lookup_insert_eq. by intros [= <-].
    + intros k Hk. by rewrite lookup_insert_ne.
Qed.

Lemma vsRun_ovs a mac id ports ports' :
  vsRun ports (ovsCommands (IFName (IPString a)) a mac id) = Some ports' →
  untagged id ports' = untagged id ports ∧ ports' !! "--" = ports !! "--".
Proof.
  destruct (portNames_plain a) as (Ho & Hb & Hq). unfold ovsCommands. destruct (PatchPorts (IPString a)) as [peerBr peerKelda].
  cbn [fst snd vsRun mbind option_bind] in *. intros Hr.
  apply bind_Some in Hr as (p1 & Hs1 & Hr). apply bind_Some in Hr as (p2 & Hs2 & Hr). apply bind_Some in Hr as (p3 & Hs3 & Hr).
  apply bind_Some in Hr as (p4 & Hs4 & Hr). apply bind_Some in Hr as (p5 & Hs5 & [= <-]).
  destruct (vsStep_tagged id _ _ _ Hs1) as (Hu1 & Ht1 & Hk1); [by left|].
  destruct (vsStep_tagged id _ _ _ Hs2) as (Hu2 & Ht2 & Hk2); [by left|].
  destruct (vsStep_tagged id _ _ _ Hs3) as (Hu3 & Ht3 & Hk3); [done|].
  destruct (vsStep_tagged id _ _ _ Hs4) as (Hu4 & Ht4 & Hk4); [by left|].
  destruct (vsStep_tagged id _ _ _ Hs5) as (Hu5 & Ht5 & Hk5); [done|].
  split; [congruence|]. rewrite Hk5, Hk4, Hk3, Hk2, Hk1; done.
Qed.

(** The ports that are there afterwards. *)
Lemma vsRun_ports a mac id ports ports' :
  vsRun ports (ovsCommands (IFName (IPString a)) a mac id) = Some ports' →
  let outer := shortName (IPString a) in let q := shortName ("q_" +:+ IPString a) in let br := shortName ("br_" +:+ IPString a) in
  let tag := "external-ids:cni-container-id=" +:+ id in
  ports !! outer = None ∧ ports !! q = None ∧ ports !! br = None ∧
  ports' =
    <[br := mk_vPort "br-int" [tag; "type=patch"; "options:peer=" +:+ q; "external-ids:attached-mac=" +:+ macString mac;
                               "external-ids:iface-id=" +:+ IPString a]]>
    (<[q := mk_vPort "kelda-int" [tag; "type=patch"; "options:peer=" +:+ br]]> (<[outer := mk_vPort "kelda-int" [tag]]> ports)).
Proof.
  intros Hr outer q br tag. unfold ovsCommands, PatchPorts in Hr. rewrite !shortName_eq in Hr.
  fold outer q br in Hr. change (extID id) with tag in Hr. cbn [fst snd vsRun mbind option_bind vsStep] in Hr.
  destruct (ports !! outer) eqn:Ho; [done|]. cbn [vsRun mbind option_bind vsStep] in Hr.
  rewrite lookup_insert in Hr. case_decide as Hoq; [done|]. destruct (ports !! q) eqn:Hq; [done|]. cbn [vsRun mbind option_bind vsStep] in Hr.
  rewrite lookup_insert_eq in Hr. cbn [vsRun mbind option_bind vsStep vp_bridge vp_columns] in Hr. rewrite insert_insert_eq in Hr.
  rewrite lookup_insert in Hr. case_decide as Hqb; [done|]. rewrite lookup_insert in Hr. case_decide as Hob; [done|].
  destruct (ports !! br) eqn:Hb; [done|]. cbn [vsRun mbind option_bind vsStep] in Hr.
  rewrite lookup_insert_eq in Hr. cbn [vsRun mbind option_bind vsStep vp_bridge vp_columns] in Hr. rewrite insert_insert_eq in Hr.
  injection Hr as <-. done.
Qed.

Lemma wp_AddFlows n cs w Q : (∀ r w', view w' = view w → Q r w') → wp (AddFlows n cs) w Q.
Proof.
  intros HQ. unfold AddFlows, openflowPorts. wp_bind. wp_bind. eapply wp_mono; [apply (cni_Open_ok _ _ _ _ Hnl)|]. intros [[]|e] w1 Hw1.
  - wp_bind. eapply wp_mono; [apply (OpenFlowPorts_ok _ _ _ _ Hnl)|]. intros r w2 Hw2.
    wp_bind. eapply wp_mono; [apply (cni_Disconnect_ok _ _ _ _ Hnl)|]. intros [] w3 Hw3. wp_ret. destruct r as [ports|e]; [|wp_ret; apply HQ; congruence].
    wp_bind. eapply wp_mono; [apply (ofctl_ok _ _ _ _ Hnl)|]. intros [[]|e] w4 Hw4; wp_ret; apply HQ; congruence.
  - wp_ret. wp_ret. by apply HQ.
Qed.

Lemma wp_setupOVS n a mac id w Q :
  (∀ ports w', vsRun (cv_ports (view w)) (ovsCommands (IFName (IPString a)) a mac id) = Some ports →
     view w' = set_cv_ports ports (view w) → ∀ r, Q r w') →
  (∀ e w', view w' = view w → Q (Err e) w') →
  wp (setupOVS n (IFName (IPString a)) a mac id) w Q.
Proof.
  intros HV HE. unfold setupOVS. rewrite ovsArgs_commands.
  eapply wp_orFail; [apply (vsctl_ok _ _ _ _ Hnl), ovsCommands_plain| |exact HE]. intros [] w1 (ports & Hr & Hw1).
  unfold orFail. wp_bind. apply wp_AddFlows. intros [[]|e] w2 Hw2; wp_ret; (eapply HV; [exact Hr|congruence]).
Qed.

(** ** The two together *)

(** The host before the pod: nothing on it is the container's. *)
Record clean args (v : cniView) : Prop := {
  cl_ns : cv_ns v = root;
  cl_links : ∀ k l, cv_links v !! k = Some l → vl_ns l = root → vl_alias l ≠ ContainerID args;
  cl_ports : untagged (ContainerID args) (cv_ports v) = cv_ports v;
  cl_dash : cv_ports v !! "--" = None;
}.

(** What may be left of the container: a pair of links, and ports with its tag. *)
Definition pairLeft args (v v' : cniView) : Prop := ∃ i j outerName up inner, i ≠ j ∧ cv_links v !! i = None ∧ cv_links v !! j = None ∧
  innerOk i inner ∧ cv_links v' = <[i := outerLink args j outerName up]> (<[j := inner]> (cv_links v)).
Record residue args (v v' : cniView) : Prop := {
  re_ns : cv_ns v' = root;
  re_links : cv_links v' = cv_links v ∨ pairLeft args v v';
  re_ports : untagged (ContainerID args) (cv_ports v') = cv_ports v;
  re_dash : cv_ports v' !! "--" = None;
}.

(** A pod connected to the network, as [cmdAdd] reports it, with the address [a] of
    its annotation: the outer link [i] and the inner link [j], and the three ports. *)
Record connected args (v v' : cniView) (res : cniResult) (a i j : Z) : Prop := {
  co_new : i ≠ j ∧ cv_links v !! i = None ∧ cv_links v !! j = None;
  co_address : ∃ pod ipStr, grepPodName (Args args) = Val pod ∧ pods pod !! "keldaIP" = Some ipStr ∧ ParseIP ipStr = Some (IP4 a);
  co_links : cv_links v' =
    <[i := mk_vLink (shortName (IPString a)) (ContainerID args) root j [] [] [] true]>
    (<[j := mk_vLink (IfName args) "" (nsOf (Netns args)) i (macOf a) [(a, 4294967295%Z)]
              [mk_Route false j None None (Some gateway); mk_Route true j (Some (Net4 subnet subnetMask)) (Some a) None] true]>
      (cv_links v));
  co_ports :
    let outer := shortName (IPString a) in let q := shortName ("q_" +:+ IPString a) in let br := shortName ("br_" +:+ IPString a) in
    let tag := "external-ids:cni-container-id=" +:+ ContainerID args in
    cv_ports v !! outer = None ∧ cv_ports v !! q = None ∧ cv_ports v !! br = None ∧
    cv_ports v' =
      <[br := mk_vPort "br-int" [tag; "type=patch"; "options:peer=" +:+ q; "external-ids:attached-mac=" +:+ macString (macOf a);
                                 "external-ids:iface-id=" +:+ IPString a]]>
      (<[q := mk_vPort "kelda-int" [tag; "type=patch"; "options:peer=" +:+ br]]>
        (<[outer := mk_vPort "kelda-int" [tag]]> (cv_ports v)));
  co_ns : cv_ns v' = root;
  co_result : res = mk_cniResult (IfName args) (macString (macOf a)) (Netns args) (a, 4294967295%Z) gateway;
}.

Lemma residue_refl args v : clean args v → residue args v v.
Proof. intros [Hns Hl Hp Hd]. split; [done|by left|done|done]. Qed.

Lemma residue_pair args i j v outerName up inner ports :
  i ≠ j → cv_links v !! i = None → cv_links v !! j = None → innerOk i inner →
  untagged (ContainerID args) ports = cv_ports v → ports !! "--" = None →
  residue args v (withPair args i j (cv_links v) outerName up inner ports root).
Proof. intros Hij Hi Hj Hin Hp Hd. split; [done| |done|done]. right. by exists i, j, outerName, up, inner. Qed.

(** Every outcome of [cmdDel] on what is left. *)
Lemma wp_cmdDel_residue args v w :
  ContainerID args ≠ "" → clean args v → residue args v (view w) →
  wp (cmdDel args) w (λ r w', residue args v (view w') ∧ (r = Val () → view w' = v) ∧ (view w = v → view w' = v)).
Proof.
  intros Hid Hc Hres. destruct Hres as [Hns Hl Hp Hd].
  assert (∀ w', view w' = view w ∨ view w' = set_cv_ports (untagged (ContainerID args) (cv_ports (view w))) (view w) →
    residue args v (view w') ∧ (view w = v → view w' = v)) as Hmid.
  { intros w' [->| ->]; [done|]. rewrite Hp. split.
    - split; [done|exact Hl|apply Hc|apply Hc].
    - intros ->. by destruct v. }
  apply wp_cmdDel; [done| | |].
  - intros e w' Hw'. destruct (Hmid w' Hw') as [Hr Hv]. done.
  - intros w' Hw' Hno. destruct (Hmid w' (or_intror Hw')) as [Hr Hv]. split; [done|]. split; [|done]. intros _. rewrite Hw', Hp.
    assert (cv_links (view w) = cv_links v) as Hls.
    { destruct Hl as [Hl|(i & j & outerName & up & inner & Hij & Hi & Hj & Hin & Hl)]; [done|]. exfalso.
      apply (Hno i (outerLink args j outerName up)); [rewrite Hl; apply lookup_insert_eq|done..]. }
    destruct v as [L P N], (view w) as [L' P' N']. simpl in *. unfold set_cv_ports. simpl. f_equal; [done|]. destruct Hc as [Hcn _ _ _]. simpl in Hcn. congruence.
  - intros k l w' Hk Ha Hlns Hw'. assert (view w' = v) as Hv; [|by rewrite Hv; split; [apply residue_refl|]].
    rewrite Hw', Hp. assert (delete (vl_peer l) (delete k (cv_links (view w))) = cv_links v) as Hls.
    { destruct Hl as [Hl|(i & j & outerName & up & inner & Hij & Hi & Hj & [Hin _] & Hl)].
      - exfalso. rewrite Hl in Hk. apply (cl_links _ _ Hc k l Hk); [congruence|done].
      - rewrite Hl in Hk |- *. apply lookup_insert_Some in Hk as [[<- <-]|[_ Hk]].
        + rewrite delete_insert_id by (rewrite lookup_insert_ne; done). simpl. by rewrite delete_insert_id.
        + apply lookup_insert_Some in Hk as [[<- <-]|[_ Hk]]; [congruence|]. exfalso. apply (cl_links _ _ Hc k l Hk); [congruence|done]. }
    destruct v as [L P N], (view w) as [L' P' N']. simpl in *. unfold set_cv_ports, set_cv_links. simpl. f_equal; [done|].
    destruct Hc as [Hcn _ _ _]. simpl in Hcn. congruence.
Qed.

(** [getIPMac] answers the annotated address and its MAC. *)
Lemma wp_getIPMac pod w Q :
  (∀ ipStr z, pods pod !! "keldaIP" = Some ipStr → ParseIP ipStr ≠ Some (IP6 z)) →
  (∀ e w', view w' = view w → Q (Err e) w') →
  (∀ ipStr a w', view w' = view w → pods pod !! "keldaIP" = Some ipStr → ParseIP ipStr = Some (IP4 a) → Q (Val ((a, CIDRMask4 32), macOf a)) w') →
  wp (getIPMac pod) w Q.
Proof.
  intros H4 HE HV. unfold getIPMac. wp_bind. eapply wp_mono; [apply (getPodAnnotations_ok _ _ _ _ Hnl)|]. intros [ann|e] w1; [intros [Hw1 ->]|intros Hw1; wp_ret; by apply HE].
  destruct (pods pod !! "keldaIP") as [ipStr|] eqn:Hip; [|wp_ret; by apply HE].
  destruct (ParseIP ipStr) as [[a|z]|] eqn:Hparse; [|by destruct (H4 ipStr z)|wp_ret; by apply HE].
  destruct (IPToMac (IP4 a)) as [mac|] eqn:Hmac; [|done]. destruct (ParseMAC_IPToMac _ _ Hmac) as [Hp _].
  wp_bind. unfold wp, lift. rewrite Hp. by eapply HV.
Qed.

(** [cmdAdd] connects the pod, or leaves no more than [cmdDel] removes. *)
Lemma wp_cmdAddResult n args w :
  clean args (view w) → (∀ a, IfName args ≠ IFName (IPString a)) →
  (∀ pod ipStr z, pods pod !! "keldaIP" = Some ipStr → ParseIP ipStr ≠ Some (IP6 z)) →
  wp (cmdAddResult n args) w (λ r w', residue args (view w) (view w') ∧ ∀ res, r = Val res → ∃ a i j, connected args (view w) (view w') res a i j).
Proof.
  intros Hc Hif H4. pose proof Hc as [Hns Hl Hp Hd]. unfold cmdAddResult.
  assert (∀ e w', view w' = view w → residue args (view w) (view w') ∧ ∀ res, (Err e : result cniResult) = Val res → ∃ a i j, connected args (view w) (view w') res a i j) as HE.
  { intros e w' ->. split; [by apply residue_refl|done]. }
  destruct (grepPodName (Args args)) as [pod|e] eqn:Hgrep; [|wp_ret; by apply HE].
  wp_bind. apply wp_getIPMac; [intros; by eapply H4|intros; wp_ret; by apply HE|].
  intros ipStr a w1 Hw1 Hann Hparse. simpl.
  eapply wp_orFail; [apply (AddVeth_ok _ _ _ _ Hnl)| |intros e w' Hw'; apply HE; congruence].
  intros [] w2 (i & j & Hij & Hi & Hj & Hne & Hw2 & Hfree). rewrite Hw1 in Hi, Hj, Hw2, Hfree. rewrite Hns in Hw2, Hfree.
  assert (∀ e up inner w', innerOk i inner → view w' = withPair args i j (cv_links (view w)) (IFName (IPString a)) up inner (cv_ports (view w)) root →
    residue args (view w) (view w') ∧ ∀ res, (Err e : result cniResult) = Val res → ∃ a i j, connected args (view w) (view w') res a i j) as HE'.
  { intros e up inner w' Hin ->. split; [by apply residue_pair|done]. }
  assert (view w2 = withPair args i j (cv_links (view w)) (IFName (IPString a)) false
    (newInner i (IFName ("-" +:+ IFName (IPString a)))) (cv_ports (view w)) root) as Hw2'.
  { rewrite Hw2. unfold withPair, set_cv_links. simpl. by rewrite Hns. }
  wp_bind. eapply wp_setupPod; [exact Hij|exact Hi|exact Hne|exact Hfree|exact Hw2'| |intros e inner w' Hin Hw'; wp_ret; by eapply HE'].
  intros w3 Hw3. wp_bind.
  eapply wp_setupOuterLink; [exact Hij|exact Hi|exact Hfree|apply Hif|exact Hw3| |intros e w' Hw'; wp_ret; by eapply HE'; [|exact Hw']].
  intros w4 Hw4. unfold orFail at 1. wp_bind. apply wp_setupOVS; rewrite Hw4; simpl.
  - intros ports w5 Hr Hw5 r. destruct (vsRun_ovs _ _ _ _ _ Hr) as [Hu Hdash].
    assert (residue args (view w) (view w5)) as Hres.
    { rewrite Hw5. unfold set_cv_ports. simpl. apply residue_pair; [done|done|done|done|congruence|congruence]. }
    destruct r as [[]|e]; wp_ret; (split; [exact Hres|]); [|done]. intros res [= <-].
    exists a, i, j. pose proof (vsRun_ports _ _ _ _ _ Hr) as Hports. rewrite Hw5. split; [done|by exists pod, ipStr| |exact Hports|done|done].
    simpl. unfold outerLink. by rewrite shortName_eq.
  - intros e w5 Hw5. wp_ret. by eapply HE'; [|exact Hw5].
Qed.

(** The kubelet calls [cmdDel] until it succeeds: whether one of [k] calls did. *)
Fixpoint cmdDels (k : nat) (args : CmdArgs) : M W bool :=
  match k with
  | 0 => mret false
  | S k =>
    let! r := cmdDel args in
    let! later := cmdDels k args in
    mret (match r with Val _ => true | Err _ => later end)
  end.

Lemma wp_cmdDels k args v w :
  ContainerID args ≠ "" → clean args v → residue args v (view w) →
  wp (cmdDels k args) w (λ b w', residue args v (view w') ∧ (b = true ∨ view w = v → view w' = v)).
Proof.
  intros Hid Hc. revert w. induction k as [|k IH]; intros w Hres; simpl.
  - wp_ret. split; [done|]. by intros [?|?].
  - wp_bind. eapply wp_mono; [by apply wp_cmdDel_residue|]. intros r w1 (Hr1 & Hv1 & Hk1). wp_bind. eapply wp_mono; [by apply IH|].
    intros b w2 [Hr2 Hv2]. wp_ret. split; [done|]. intros Hor. apply Hv2. destruct r as [[]|e].
    + right. by apply Hv1.
    + destruct Hor as [?|?]; [by left|right; by apply Hk1].
Qed.

End spec.
