(* ===== verification/CniSim.v ===== *)
(** * Package cni: a simulated host

    Links, namespaces and ports as the view of the laws itself, with a counter of
    calls of netlink after which they fail, the laws for it, and the theorem on
    concrete pods. *)

From S2P Require Import Prelude GoStrings Join Blueprint DbRows Backoff Providers GoNet Ip Ovn Openflow Docker Cni CniSpec.

(** ** ovs-vsctl reads its arguments *)

(** The words up to the next start of a command. *)
Fixpoint vsWords (args : list string) : list string * list string :=
  match args with
  | [] => ([], [])
  | a :: rest => if bool_decide (a = "--") then ([], args) else let '(ws, rest) := vsWords rest in (a :: ws, rest)
  end.
Definition vsParse1 (words : list string) : option vsCommand :=
  match words with
  | "add-port" :: bridge :: name :: columns => Some (AddPort bridge name columns)
  | "set" :: "Interface" :: name :: columns => Some (SetInterface name columns)
  | ["del-port"; name] => Some (DelPort name)
  | _ => None
  end.
Fixpoint vsParse (fuel : nat) (args : list string) : option (list vsCommand) :=
  match fuel, args with
  | _, [] => Some []
  | S fuel, "--" :: args =>
    let '(words, rest) := vsWords args in
    c ← vsParse1 words; cs ← vsParse fuel rest; Some (c :: cs)
  | _, _ => None
  end.

Lemma vsWords_app ws rest : "--" ∉ ws → (rest = [] ∨ head rest = Some "--") → vsWords (ws ++ rest) = (ws, rest).
Proof.
  intros Hws Hrest. induction ws as [|a ws IH]; simpl.
  - destruct rest as [|b rest]; [done|]. destruct Hrest as [?|[= ->]]; [done|]. done.
  - apply not_elem_of_cons in Hws as [Ha Hws]. rewrite bool_decide_eq_false_2 by done. by rewrite IH.
Qed.

Lemma printCommand_cons c : printCommand c = "--" :: tail (printCommand c).
Proof. by destruct c. Qed.

Lemma printCommands_head cs : printCommands cs = [] ∨ head (printCommands cs) = Some "--".
Proof. destruct cs as [|c cs]; [by left|right]. unfold printCommands. csimpl. by rewrite printCommand_cons. Qed.

Lemma vsParse_print fuel cs : Forall plainCommand cs → length cs ≤ fuel → vsParse fuel (printCommands cs) = Some cs.
Proof.
  revert fuel. induction cs as [|c cs IH]; intros fuel Hp Hl; [by destruct fuel|]. destruct fuel as [|fuel]; simpl in Hl; [lia|].
  apply Forall_cons in Hp as [Hc Hp]. unfold printCommands. csimpl. rewrite printCommand_cons. simpl.
  change (concat (printCommand <$> cs)) with (printCommands cs). rewrite vsWords_app by (done || apply printCommands_head).
  assert (vsParse1 (tail (printCommand c)) = Some c) as -> by by destruct c. simpl. by rewrite IH by (done || lia).
Qed.

Lemma printCommands_length cs : length cs ≤ length (printCommands cs).
Proof.
  induction cs as [|c cs IH]; [done|]. unfold printCommands. csimpl. rewrite length_app, printCommand_cons. simpl.
  change (concat (printCommand <$> cs)) with (printCommands cs). lia.
Qed.

(** ** The host *)

(** [ch_left]: how many more calls succeed. *)
Record cniHost := mk_cniHost { ch_view : cniView; ch_left : nat }.

Definition simCall {A} (f : cniView → result (A * cniView)) : M cniHost (result A) := λ h,
  match ch_left h with
  | 0 => Ok (Err "interrupted", mk_cniHost (ch_view h) 0)
  | S n =>
    match f (ch_view h) with
    | Val (a, v) => Ok (Val a, mk_cniHost v n)
    | Err e => Ok (Err e, mk_cniHost (ch_view h) n)
    end
  end.
Definition simAlter (i : Z) (f : vLink → vLink) (v : cniView) : result (unit * cniView) :=
  match cv_links v !! i with Some _ => Val ((), set_cv_links (alter f i (cv_links v)) v) | None => Err "no such device" end.
Definition simFind (p : vLink → bool) (v : cniView) : option (Z * vLink) :=
  head (filter (λ kl, p kl.2 ∧ vl_ns kl.2 = cv_ns v) (map_to_list (cv_links v))).

Section sim.
Context (root : Z) (pods : string → gmap string string).

Definition simAddVeth (name alias peer : string) (v : cniView) : result (unit * cniView) :=
  if bool_decide (name ≠ peer ∧ map_Forall (λ _ l, vl_ns l = cv_ns v → vl_name l ≠ name ∧ vl_name l ≠ peer) (cv_links v)) then
    let i := fresh (dom (cv_links v)) in
    let j := fresh ({[i]} ∪ dom (cv_links v)) in
    Val ((), set_cv_links (<[i := mk_vLink name alias (cv_ns v) j [] [] [] false]>
                             (<[j := mk_vLink peer "" (cv_ns v) i [] [] [] false]> (cv_links v))) v)
  else Err "file exists".

Definition simNl : Nl cniHost := {|
  AddVeth name alias peer _ := simCall (simAddVeth name alias peer);
  nl_LinkByName name := simCall (λ v, match simFind (λ l, bool_decide (vl_name l = name)) v with Some (i, _) => Val (i, v) | None => Err "no such device" end);
  LinkByAlias alias := simCall (λ v, Val ((λ kl, (kl.1, vl_name kl.2)) <$> simFind (λ l, bool_decide (vl_alias l = alias)) v, v));
  LinkDel i := simCall (λ v, match cv_links v !! i with
    | Some l => Val ((), set_cv_links (delete (vl_peer l) (delete i (cv_links v))) v) | None => Err "no such device" end);
  nl_LinkSetUp i := simCall (simAlter i set_vl_up);
  LinkSetNs i ns := simCall (simAlter i (set_vl_ns ns));
  LinkSetName i name := simCall (simAlter i (set_vl_name name));
  LinkSetHardwareAddr i mac := simCall (simAlter i (set_vl_mac mac));
  nl_AddrAdd i ip := simCall (simAlter i (add_vl_addr ip));
  RouteAdd r := simCall (simAlter (rt_LinkIndex r) (add_vl_route r));
  GetNetns := simCall (λ v, Val (cv_ns v, v));
  GetNetnsFromPath path := simCall (λ v, Val (Z.of_nat (String.length path), v));
  SetNetns ns := λ h, if bool_decide (ns = root) then Ok (Val (), mk_cniHost (set_cv_ns ns (ch_view h)) (ch_left h))
    else simCall (λ v, Val ((), set_cv_ns ns v)) h;
  CloseNsHandle _ := mret (Val ());
  vsctl args := simCall (λ v, match cs ← vsParse (length args) args; vsRun (cv_ports v) cs with
    | Some ports => Val ((), set_cv_ports ports v) | None => Err "exit status 1" end);
  getPodAnnotations pod := simCall (λ v, Val (pods pod, v));
|}.
#[local] Existing Instance simNl.

#[local] Instance simCni_client : OvsdbClient cniHost := {
  Open := mret (Val ());
  Disconnect := mret ();
  CreateLogicalSwitch _ := mret (Err "");
  LogicalSwitchExists _ := mret (Err "");
  ListSwitchPorts := mret (Err "");
  ListSwitchPort _ := mret (Err "");
  CreateSwitchPort _ _ := mret (Err "");
  DeleteSwitchPort _ _ := mret (Err "");
  UpdateSwitchPortAddresses _ _ := mret (Err "");
  CreateLogicalRouter _ := mret (Err "");
  LogicalRouterExists _ := mret (Err "");
  ListRouterPorts := mret (Err "");
  CreateRouterPort _ _ := mret (Err "");
  DeleteRouterPort _ _ := mret (Err "");
  ListACLs := mret (Err "");
  CreateACLs _ _ := mret (Err "");
  DeleteACLs _ _ := mret (Err "");
  ListAddressSets := mret (Err "");
  CreateAddressSets _ := mret (Err "");
  DeleteAddressSets _ := mret (Err "");
  ListLoadBalancers := mret (Err "");
  CreateLoadBalancer _ _ _ := mret (Err "");
  DeleteLoadBalancer _ _ := mret (Err "");
  OpenFlowPorts := mret (Val ∅);
  ListPortsByTag key id := simCall (λ v,
    Val (fst <$> filter (λ kv, ("external-ids:" +:+ key +:+ "=" +:+ id) ∈ vp_columns kv.2) (map_to_list (cv_ports v)), v));
}.
#[local] Instance simCni_ofctl : Ofctl cniHost := λ _ _, mret (Val ()).

Lemma simCall_may {A} f (eff : A → cniView → cniView → Prop) : (∀ v a v', f v = Val (a, v') → eff a v v') → may cniHost ch_view (simCall f) eff.
Proof.
  intros Hf h. unfold wp, simCall. destruct (ch_left h) as [|n]; [done|]. destruct (f (ch_view h)) as [[a v']|e] eqn:He; [|done]. by apply Hf.
Qed.

Lemma simAlter_alters i f : alters cniHost ch_view (simCall (simAlter i f)) i f.
Proof. apply simCall_may. intros v [] v'. unfold simAlter. destruct (cv_links v !! i) eqn:Hi; [|done]. intros [= <-]. split; [by eexists|done]. Qed.

Lemma simFind_some p v i l : simFind p v = Some (i, l) → cv_links v !! i = Some l ∧ p l ∧ vl_ns l = cv_ns v.
Proof.
  unfold simFind. intros Hh%head_Some_elem_of. apply list_elem_of_filter in Hh as [[Hp Hns] Hin]. by apply elem_of_map_to_list in Hin.
Qed.
Lemma simFind_none p v : simFind p v = None → ∀ i l, cv_links v !! i = Some l → vl_ns l = cv_ns v → ¬ p l.
Proof.
  unfold simFind. intros Hh i l Hl Hns Hp. apply elem_of_map_to_list in Hl.
  assert ((i, l) ∈ filter (λ kl, p kl.2 ∧ vl_ns kl.2 = cv_ns v) (map_to_list (cv_links v))) as Hin by by apply list_elem_of_filter.
  destruct (filter _ _); [by apply not_elem_of_nil in Hin|done].
Qed.

Lemma simAddVeth_ok name alias peer v v' : simAddVeth name alias peer v = Val ((), v') →
  ∃ i j, i ≠ j ∧ cv_links v !! i = None ∧ cv_links v !! j = None ∧ name ≠ peer ∧
    v' = set_cv_links (<[i := mk_vLink name alias (cv_ns v) j [] [] [] false]>
                         (<[j := mk_vLink peer "" (cv_ns v) i [] [] [] false]> (cv_links v))) v ∧
    ∀ k l, cv_links v !! k = Some l → vl_ns l = cv_ns v → vl_name l ≠ name ∧ vl_name l ≠ peer.
Proof.
  unfold simAddVeth. case_bool as [[Hne Hall]|?]; [|done]. intros [= <-].
  set (i := fresh (dom (cv_links v))). set (j := fresh ({[i]} ∪ dom (cv_links v))). exists i, j.
  pose proof (is_fresh (dom (cv_links v))) as Hi. pose proof (is_fresh ({[i]} ∪ dom (cv_links v))) as Hj. fold i in Hi. fold j in Hj.
  apply not_elem_of_union in Hj as [Hij Hj]. split_and!; [set_solver|by apply not_elem_of_dom|by apply not_elem_of_dom|done|done|].
  intros k l Hl. by apply (Hall k l).
Qed.

Lemma simVsctl_ok cs : Forall plainCommand cs → may cniHost ch_view (vsctl (printCommands cs)) (λ _ v v',
  ∃ ports, vsRun (cv_ports v) cs = Some ports ∧ v' = set_cv_ports ports v).
Proof.
  intros Hp. apply simCall_may. intros v [] v'. rewrite vsParse_print by (done || apply printCommands_length). simpl.
  destruct (vsRun _ _) as [ports|]; [|done]. intros [= <-]. by exists ports.
Qed.

Lemma simListPorts_ok id : may cniHost ch_view (ListPortsByTag containerIDTag id) (λ names v v', v' = v ∧ NoDup names ∧
  ∀ name, name ∈ names ↔ ∃ p, cv_ports v !! name = Some p ∧ tagged id p).
Proof.
  apply simCall_may. intros v names v' [= <- <-]. split; [done|]. split.
  - apply NoDup_fmap_fst; [|apply NoDup_filter, NoDup_map_to_list].
    intros k p p' Hp Hp'. apply list_elem_of_filter in Hp as [_ Hp%elem_of_map_to_list]. apply list_elem_of_filter in Hp' as [_ Hp'%elem_of_map_to_list].
    congruence.
  - intros name. rewrite list_elem_of_fmap. split.
    + intros ([k p] & -> & Hin). apply list_elem_of_filter in Hin as [Ht Hin%elem_of_map_to_list]. by exists p.
    + intros (p & Hp & Ht). exists (name, p). split; [done|]. apply list_elem_of_filter. split; [done|]. by apply elem_of_map_to_list.
Qed.

(** A path names the namespace with the number of its length. *)
Definition simNs (path : string) : Z := Z.of_nat (String.length path).

Lemma simNl_laws : NlLaws cniHost ch_view pods simNs.
Proof.
  split; try (intros; apply simAlter_alters); try done.
  - intros. apply simCall_may. intros v [] v'. apply simAddVeth_ok.
  - intros. apply simCall_may. intros v i v'. destruct (simFind _ v) as [[k l]|] eqn:Hf; [|done]. intros [= <- <-].
    apply simFind_some in Hf as (Hl & Hn%bool_decide_unpack & Hns). split; [done|]. by exists l.
  - intros. apply simCall_may. intros v found v' [= <- <-]. split; [done|]. destruct (simFind _ v) as [[k l]|] eqn:Hf; simpl.
    + apply simFind_some in Hf as (Hl & Hn%bool_decide_unpack & Hns). by exists l.
    + intros i l Hl Hns Ha. apply (simFind_none _ _ Hf i l Hl Hns). by apply bool_decide_pack.
  - intros. apply simCall_may. intros v [] v'. destruct (cv_links v !! i) as [l|]; [|done]. intros [= <-]. by exists l.
  - apply simCall_may. by intros v ns v' [= <- <-].
  - intros. apply simCall_may. by intros v ns v' [= <- <-].
  - intros ns h. unfold wp. simpl. case_bool as [?|?]; [done|]. apply (simCall_may _ (λ _ v v', v' = set_cv_ns ns v)). by intros v [] v' [= <-].
  - apply simVsctl_ok.
  - intros. apply simCall_may. by intros v ann v' [= <- <-].
  - apply simListPorts_ok.
Qed.

Lemma simRoot h : wp (SetNetns root) h (λ r h', r = Val () ∧ ch_view h' = set_cv_ns root (ch_view h)).
Proof. unfold wp. simpl. by rewrite bool_decide_eq_true_2. Qed.
End sim.

(** ** A pod *)

#[local] Existing Instance fixed_order.
#[local] Instance demo_cni_v6 : ParseIPv6 := { parseIPv6 _ := None }.
#[local] Existing Instances simCni_client simCni_ofctl.

Definition demo_pods (pod : string) : gmap string string := if bool_decide (pod = "web-1") then {["keldaIP" := "10.0.0.7"]} else ∅.
#[local] Instance demo_Nl : Nl cniHost := simNl 1 demo_pods.
Definition demo_args : CmdArgs := mk_CmdArgs "c0ffee" "/proc/42/ns/net" "eth0" "IgnoreUnknown=1;K8S_POD_NAME=web-1;".
(** A host with a link and a port of its own; the namespace of the thread is 1. *)
Definition demo_cniView : cniView :=
  mk_cniView {[1%Z := mk_vLink "ens3" "" 1 0 [] [] [] true]} {["kelda-int" := mk_vPort "kelda-int" []]} 1.

(** [cmdAdd] interrupted after [k] calls, then [cmdDel] when all succeed again:
    whether [cmdAdd] succeeded, the links and ports it left, and whether the
    host is as before. *)
Definition demo_addDel (k : nat) : outcome (bool * (nat * nat) * bool) :=
  r ← cmdAddResult 0 demo_args (mk_cniHost demo_cniView k);
  let '(added, h) := r in
  r' ← cmdDel demo_args (mk_cniHost (ch_view h) 100);
  let '(_, h') := r' in
  Ok (match added with Val _ => true | Err _ => false end, (size (cv_links (ch_view h)), size (cv_ports (ch_view h))),
      bool_decide (ch_view h' = demo_cniView)).

Example addDel_example : demo_addDel <$> [0; 2; 8; 15; 16] =
  [Ok (false, (1, 1), true); Ok (false, (3, 1), true); Ok (false, (3, 1), true); Ok (false, (3, 1), true); Ok (true, (3, 4), true)].
Proof. vm_compute. reflexivity. Qed.

Lemma demo_clean : clean 1 demo_args demo_cniView.
Proof.
  split; [done| |vm_compute; reflexivity|vm_compute; reflexivity]. intros k l Hl _. assert (map_Forall (λ _ l, vl_alias l ≠ ContainerID demo_args) (cv_links demo_cniView)) as Hall by vm_decide.
  by apply (Hall k).
Qed.

