(* ===== verification/Api.v ===== *)
(** * Package api: the server and its client

    [src/api/common.go], [src/api/client] and [src/api/server/server.go]: the gRPC
    service the command line speaks to, on the daemon and on the minions, and the
    client of it.  The generated gRPC stubs are the class [ApiNet]; a client is the
    address it is connected to.  JSON on rows is the class [JsonRows]. *)

From S2P Require Import Prelude GoStrings Join Blueprint DbRows Db DbSpec DbTxn DbFrame Providers Backoff Cloud Kube.

(** ** Addresses *)

Definition DefaultSocket : string := "unix:///tmp/kelda.sock".
Definition DefaultRemotePort : Z := 9000.

Definition ParseListenAddress (lAddr : string) : result (string * string) :=
  match splitOn "://" 0 lAddr with
  | [proto; addr] =>
    if bool_decide (proto ≠ "unix") && bool_decide (proto ≠ "tcp")
    then Err ("malformed listen address: " +:+ lAddr) else Val (proto, addr)
  | _ => Err ("malformed listen address: " +:+ lAddr)
  end.

Definition RemoteAddress (host : string) : string := "tcp://" +:+ host +:+ ":" +:+ fmtInt DefaultRemotePort.

(** ** The client *)

(** [pb.Counter] *)
Record Counter := mk_Counter { ct_Pkg : string; ct_Name : string; ct_Value : Z; ct_PrevValue : Z }.

(** The stubs: [Dial] is [connection.Client], the others are the calls of the service
    at an address. *)
Class ApiNet (W : Type) := {
  Dial : string → string → M W (result unit);
  pbQuery : string → string → M W (result string);
  pbQueryCounters : string → M W (result (list Counter));
  pbQueryMinionCounters : string → string → M W (result (list Counter));
  pbSetSecret : string → string → string → M W (result unit);
  pbDeploy : string → string → M W (result unit);
  pbVersion : string → M W (result string);
  pbClose : string → M W (result unit);
}.

(** [json.Marshal] and [json.Unmarshal] on slices of rows. *)
Class JsonRows (T : Type) := {
  marshalRows : list T → result string;
  unmarshalRows : string → result (list T);
}.

(** [context.DeadlineExceeded] *)
Definition DeadlineExceeded : string := "context deadline exceeded".
Definition daemonTimeoutError (host connectError : string) : string :=
  "Unable to connect to the Kelda daemon at " +:+ host +:+ ": " +:+ connectError +:+
  ". Is the kelda daemon running? If not, you can start it with `kelda daemon`.".

(** [NoLeaderError.Error] *)
Definition NoLeaderError (errorStrs : list string) : string :=
  if bool_decide (errorStrs = []) then "no leader found" else "no leader found: " +:+ Join_strings "; " errorStrs.

Section client.
Context {W : Type} `{ApiNet W}.

(** [New] *)
Definition newClient (lAddr : string) : M W (result string) :=
  match ParseListenAddress lAddr with
  | Err e => mret (Err e)
  | Val (proto, addr) =>
    let! r := Dial proto addr in
    match r with
    | Err e => mret (Err (if bool_decide (e = DeadlineExceeded) then daemonTimeoutError lAddr e else e))
    | Val _ => mret (Val addr)
    end
  end.

Definition query {T} `{RowType T} `{JsonRows T} (client : string) : M W (result (list T)) :=
  let? reply := pbQuery client (row_table T) in
  mret (unmarshalRows reply).

Context `{JsonRows Machine} `{JsonRows Container} `{JsonRows Etcd} `{JsonRows Connection} `{JsonRows LoadBalancer}
  `{JsonRows Blueprint} `{JsonRows Image}.

Definition QueryMachines : string → M W (result (list Machine)) := query.
Definition QueryContainers : string → M W (result (list Container)) := query.
Definition QueryEtcd : string → M W (result (list Etcd)) := query.
Definition QueryConnections : string → M W (result (list Connection)) := query.
Definition QueryLoadBalancers : string → M W (result (list LoadBalancer)) := query.
Definition QueryBlueprints : string → M W (result (list Blueprint)) := query.
Definition QueryImages : string → M W (result (list Image)) := query.

(** ** The leader of the cluster *)

Definition publicIPOf (machines : list Machine) (ip : string) : result string :=
  match filter (λ m, m_PrivateIP m = ip) machines with
  | m :: _ => Val (m_PublicIP m)
  | [] => Err ("no machine with private IP " +:+ ip)
  end.

Definition getLeaderIP (machines : list Machine) (daemonIP : string) : M W (result string) :=
  let? remoteClient := newClient (RemoteAddress daemonIP) in
  let! r :=
    let? etcds := QueryEtcd remoteClient in
    match etcds with
    | e :: _ =>
      if bool_decide (e_LeaderIP e = "") then mret (Err ("no leader information on host " +:+ daemonIP))
      else mret (publicIPOf machines (e_LeaderIP e))
    | [] => mret (Err ("no leader information on host " +:+ daemonIP))
    end in
  let! _ := pbClose remoteClient in
  mret r.

(** The loop over the machines. *)
Fixpoint askMachines (machines ms : list Machine) (errorStrs : list string) : M W (result string) :=
  match ms with
  | [] => mret (Err (NoLeaderError errorStrs))
  | m :: ms =>
    if bool_decide (m_PublicIP m = "") || bool_decide (m_Status m ≠ Connected) then askMachines machines ms errorStrs
    else
      let! r := getLeaderIP machines (m_PublicIP m) in
      match r with
      | Val ip => mret (Val ip)
      | Err e => askMachines machines ms (errorStrs ++ [m_PublicIP m +:+ " - " +:+ e])
      end
  end.
Definition GetLeaderIP (machines : list Machine) : M W (result string) :=
  if bool_decide (machines = []) then mret (Err "no machines to query") else askMachines machines machines [].

Definition Leader (machines : list Machine) : M W (result string) :=
  let? leaderIP := GetLeaderIP machines in
  newClient (RemoteAddress leaderIP).
End client.

(** ** Looking up a name *)

Definition prefixOf (id s : string) : bool := hasPrefix s id.

(** The two loops stop at the second match; [choice] is the first. *)
Fixpoint findMachineLoop (id : string) (choice : option Machine) (machines : list Machine) : result (option Machine) :=
  match machines with
  | [] => Val choice
  | m :: machines =>
    if negb (prefixOf id (m_CloudID m)) then findMachineLoop id choice machines
    else
      match choice with
      | Some c => Err ("ambiguous machines " +:+ quote (m_CloudID c) +:+ " and " +:+ quote (m_CloudID m))
      | None => findMachineLoop id (Some m) machines
      end
  end.
Definition findMachine (machines : list Machine) (id : string) : result Machine :=
  match findMachineLoop id None machines with
  | Err e => Err e
  | Val None => Err ("no machine " +:+ quote id)
  | Val (Some m) => Val m
  end.

Fixpoint findContainerLoop (id : string) (choice : option Container) (hostnames : gmap string Container) (containers : list Container)
    : result (option Container * gmap string Container) :=
  match containers with
  | [] => Val (choice, hostnames)
  | c :: containers =>
    let hostnames := <[c_Hostname c := c]> hostnames in
    if negb (prefixOf id (c_BlueprintID c)) then findContainerLoop id choice hostnames containers
    else
      match choice with
      | Some c' => Err ("ambiguous choices " +:+ c_BlueprintID c' +:+ " and " +:+ c_BlueprintID c)
      | None => findContainerLoop id (Some c) hostnames containers
      end
  end.
Definition findContainer (containers : list Container) (id : string) : result Container :=
  match findContainerLoop id None ∅ containers with
  | Err e => Err e
  | Val (Some c, _) => Val c
  | Val (None, hostnames) =>
    match hostnames !! id with
    | Some c => Val c
    | None => Err ("no container " +:+ quote id)
    end
  end.

Inductive target := TMachine (m : Machine) | TContainer (c : Container).

Definition FuzzyLookup {W} `{ApiNet W} `{JsonRows Machine} `{JsonRows Container} (client name : string) : M W (result target) :=
  let! machines := QueryMachines client in
  let machine := match machines with Err e => Err e | Val machines => findMachine machines name end in
  let! containers := QueryContainers client in
  let container := match containers with Err e => Err e | Val containers => findContainer containers name end in
  mret (match machine, container with
        | Err machineError, Err containerError => Err (machineError +:+ ", " +:+ containerError)
        | Val m, Val c => Err ("ambiguous IDs: machine " +:+ quote (m_CloudID m) +:+ ", container " +:+ quote (c_BlueprintID c))
        | Val m, Err _ => Val (TMachine m)
        | Err _, Val c => Val (TContainer c)
        end).

(** ** The server *)

(** What a query answers with: the rows of one table. *)
Inductive anyRows := AnyRows (T : Type) (json : JsonRows T) (rows : list T).
Arguments AnyRows {_} _ _.
Definition marshalAny (r : anyRows) : result string := match r with AnyRows _ rows => marshalRows rows end.

Definition errDaemonOnlyRPC : string := "only defined on the daemon".

Section server.
Context `{MapOrder} {W : Type} `{ApiNet W} `{KubeAPI W} (sha1x : string → string).
Context `{!JsonRows Machine} `{!JsonRows Container} `{!JsonRows Etcd} `{!JsonRows Connection} `{!JsonRows LoadBalancer}
  `{!JsonRows Blueprint} `{!JsonRows Image}.

Definition localRows {T} `{RowType T} `{json : JsonRows T} : M store (result anyRows) :=
  let! rows := connSelect (T := T) None in mret (Val (AnyRows json rows)).

Definition queryLocal (table : string) : M store (result anyRows) :=
  if bool_decide (table = MachineTable) then localRows (T := Machine)
  else if bool_decide (table = ContainerTable) then localRows (T := Container)
  else if bool_decide (table = EtcdTable) then localRows (T := Etcd)
  else if bool_decide (table = ConnectionTable) then localRows (T := Connection)
  else if bool_decide (table = LoadBalancerTable) then localRows (T := LoadBalancer)
  else if bool_decide (table = BlueprintTable) then localRows (T := Blueprint)
  else if bool_decide (table = ImageTable) then localRows (T := Image)
  else mret (Err ("unrecognized table: " +:+ table)).

(** The rows of a query of the leader's client. *)
Definition remoteRows {T} `{RowType T} `{json : JsonRows T} (client : string) : M W (result anyRows) :=
  let? rows := query (T := T) client in mret (Val (AnyRows json rows)).

(** The second switch of [queryFromDaemon]. *)
Definition queryLeader (table : string) (leaderClient : string) : M W (result anyRows) :=
  if bool_decide (table = ContainerTable) then remoteRows (T := Container) leaderClient
  else if bool_decide (table = ConnectionTable) then remoteRows (T := Connection) leaderClient
  else if bool_decide (table = LoadBalancerTable) then remoteRows (T := LoadBalancer) leaderClient
  else if bool_decide (table = ImageTable) then remoteRows (T := Image) leaderClient
  else mret (Err ("unrecognized table: " +:+ table)).

Definition queryFromDaemon (table : string) : M (store * W) (result anyRows) :=
  if bool_decide (table = MachineTable) || bool_decide (table = BlueprintTable) then onFst (queryLocal table)
  else
    let! machines := onFst (connSelectFromMachine None) in
    let? leaderClient := onSnd (Leader machines) in
    let! r := onSnd (queryLeader table leaderClient) in
    let! _ := onSnd (pbClose leaderClient) in
    mret r.

Definition Query (runningOnDaemon : bool) (table : string) : M (store * W) (result string) :=
  let? rows := (if runningOnDaemon then queryFromDaemon table else onFst (queryLocal table)) in
  mret (marshalAny rows).

(** [newSecretClient] is [NewSecretClient]; it may fail to reach the API server. *)
Definition SetSecret (newSecretClient : M W (result unit)) (runningOnDaemon : bool) (name value : string)
    : M (store * W) (result unit) :=
  if runningOnDaemon then
    let! machines := onFst (connSelectFromMachine None) in
    let? leaderClient := onSnd (Leader machines) in
    let! r := onSnd (pbSetSecret leaderClient name value) in
    let! _ := onSnd (pbClose leaderClient) in
    mret r
  else
    let? _ := onSnd newSecretClient in
    onSnd (secretSet sha1x name value).

Definition QueryMinionCounters (runningOnDaemon : bool) (host : string) : M W (result (list Counter)) :=
  if runningOnDaemon then
    let? clnt := newClient (RemoteAddress host) in
    pbQueryCounters clnt
  else mret (Err errDaemonOnlyRPC).
End server.

(** ** Deploying *)

Section deploy.
Context `{MapOrder}.
(** [blueprint.FromJSON] and [reference.ParseAnyReference]. *)
Context (FromJSON : string → result bpBlueprint) (ParseAnyReference : string → result unit).

Fixpoint checkImages (containers : list bpContainer) : result unit :=
  match containers with
  | [] => Val ()
  | c :: containers =>
    match ParseAnyReference (bpi_Name (bpc_Image c)) with
    | Err e => Err ("could not parse container image " +:+ bpi_Name (bpc_Image c) +:+ ": " +:+ e)
    | Val _ => checkImages containers
    end
  end.

(** The region of the first machine; [ValidRegions] panics on an unknown provider. *)
Definition checkRegion (machines : list bpMachine) : outcome (result unit) :=
  match machines with
  | [] => Ok (Val ())
  | first :: _ =>
    let! regions := validRegions (bpm_Provider first) in
    if SliceContains regions (bpm_Region first) then Ok (Val ())
    else Ok (Err ("region: " +:+ bpm_Region first +:+ " is not supported for provider: " +:+ bpm_Provider first))
  end.

Definition deployTxn (newBlueprint : bpBlueprint) (view : Database) : M store unit :=
  let! r := GetBlueprint view in
  let! bp :=
    match r with
    | Err _ => InsertBlueprint view
    | Val bp =>
      (if bool_decide (bp_Namespace (b_Blueprint bp) ≠ bp_Namespace newBlueprint) then
         let! dbms := SelectFromMachine view None in forM_ dbms (RemoveT view)
       else mret ()) ;;;
      mret bp
    end in
  CommitT view (mk_Blueprint (b_ID bp) newBlueprint).

Definition vagrantWarning : string :=
  "The Vagrant provider is still in development. The blueprint will continue to run, but there may be some errors.".

Definition Deploy (runningOnDaemon : bool) (deployment : string) : M store (result unit) :=
  if runningOnDaemon then
    match FromJSON deployment with
    | Err e => mret (Err e)
    | Val newBlueprint =>
      match checkImages (bp_Containers newBlueprint) with
      | Err e => mret (Err e)
      | Val _ =>
        let? _ := lift (checkRegion (bp_Machines newBlueprint)) in
        Run [BlueprintTable; MachineTable] (deployTxn newBlueprint) ;;;
        mret (if existsb (λ machine, bool_decide (bpm_Provider machine = Vagrant)) (bp_Machines newBlueprint)
              then Err vagrantWarning else Val ())
      end
    end
  else mret (Err errDaemonOnlyRPC).
End deploy.
