(* ===== verification/ApiSpec.v ===== *)
(** * Package api: what the server and the client guarantee

    Deploying a blueprint; finding a machine or a container by its name; and queries
    that travel from the daemon to the leader of the cluster.  The network is a map
    from addresses to the databases of the servers that listen there, which answer
    with the handlers of [Api]. *)

From S2P Require Import Prelude GoStrings Join Blueprint DbRows Db DbSpec DbTxn DbFrame Engine Providers Backoff Cloud Kube MinionServer Api.

(** ** Deploying *)

Definition deployTables : list string := [BlueprintTable; MachineTable].

(** The namespace of the blueprint in the database changes. *)
Definition namespaceChanges (s : store) (bp : bpBlueprint) : Prop :=
  Exists (λ b, bp_Namespace (b_Blueprint b) ≠ bp_Namespace bp) (vals (tbl Blueprint s)).
#[export] Instance namespaceChanges_dec s bp : Decision (namespaceChanges s bp).
Proof. unfold namespaceChanges. apply _. Defined.

(** The database after deploying [bp]. *)
Record deployed (bp : bpBlueprint) (s s' : store) : Prop := {
  dp_ok : DbOK (list_to_set deployTables) s';
  dp_blueprint : ∃ id, vals (tbl Blueprint s') = [mk_Blueprint id bp] ∧ (∀ b, vals (tbl Blueprint s) = [b] → id = b_ID b);
  dp_machines : tbl Machine s' = if decide (namespaceChanges s bp) then ∅ else tbl Machine s;
  dp_others : ∀ tn, tn ∉ deployTables → abs_rows s' !! tn = abs_rows s !! tn;
}.

Section deploy.
Context `{MapOrder} (FromJSON : string → result bpBlueprint) (ParseAnyReference : string → result unit).
Implicit Types (s : store) (bp : bpBlueprint) (view : Database).

(** The machines go when the namespace changes. *)
Lemma wp_dropMachines view s b bp Q :
  DbOK view s → MachineTable ∈ view →
  (∀ s', stepped view MachineTable s s' →
     tbl Machine s' = (if decide (bp_Namespace (b_Blueprint b) ≠ bp_Namespace bp) then ∅ else tbl Machine s) → Q () s') →
  wp (if bool_decide (bp_Namespace (b_Blueprint b) ≠ bp_Namespace bp) then
        let! dbms := SelectFromMachine view None in forM_ dbms (RemoveT view)
      else mret ()) s Q.
Proof.
  intros Hok Hin HQ. case_bool as [Hne|Heq].
  - wp_bind. unfold SelectFromMachine. apply (wp_select_all (T := Machine)); [done|done|]. intros dbms s1 Hs1 Hl.
    apply (wp_remove_all (T := Machine) view s1 dbms []); [by eapply same_ok|done|by rewrite app_nil_r, (same_tbl _ _ Hs1), Hl|].
    intros s2 Hst Hv. apply HQ; [by eapply same_stepped_l|]. rewrite decide_True by done.
    by apply vals_nil, Permutation_nil_r.
  - wp_ret. apply HQ; [by apply stepped_refl|]. by rewrite decide_False.
Qed.

Lemma wp_deployTxn bp s Q :
  DbOK (list_to_set deployTables) s → at_most_one Blueprint s →
  (∀ s', deployed bp s s' → Q () s') → wp (deployTxn bp (list_to_set deployTables)) s Q.
Proof.
  intros Hok Hone HQ. unfold deployTxn. set (view := list_to_set deployTables : Database) in *.
  assert (BlueprintTable ∈ view ∧ MachineTable ∈ view) as [HinB HinM] by (unfold view; set_solver).
  assert (∀ id old s1, vals (tbl Blueprint s1) ≡ₚ [old] → b_ID old = id → DbOK view s1 →
    (∀ b, vals (tbl Blueprint s) = [b] → id = b_ID b) →
    tbl Machine s1 = (if decide (namespaceChanges s bp) then ∅ else tbl Machine s) →
    (∀ tn, tn ∉ deployTables → abs_rows s1 !! tn = abs_rows s !! tn) →
    wp (CommitT view (mk_Blueprint id bp)) s1 Q) as Hcommit.
  { intros id old s1 Hv Hid Hok1 Hb Hm Ho. eapply (wp_frame_commit view s1 old); [exact Hok1|exact HinB|exact Hv|done|]. intros s2 [Hok2 Ho2 _] Hv2.
    apply HQ. split; [done| | |].
    - exists id. by apply singleton_eq in Hv2.
    - rewrite <-Hm. by apply (only_tbl _ _ _ Ho2).
    - intros tn Htn. rewrite (Ho2 tn) by (intros ->; apply Htn; set_solver). by apply Ho. }
  wp_bind. apply wp_GetBlueprint_any; [done|done|done|]. intros r s1 Hs1 Hr. pose proof (same_ok _ _ _ Hs1 Hok) as Hok1. pose proof (proj1 Hs1) as Habs1.
  wp_bind. destruct r as [b|e].
  - wp_bind. apply wp_dropMachines; [done|done|]. intros s2 [Hok2 Ho2 _] Hm2. wp_ret.
    assert (vals (tbl Blueprint s) = [b]) as Hb by (by rewrite <-(same_tbl _ _ Hs1)).
    assert (∀ P Q : Prop, ∀ `{Decision P, Decision Q} (x y : gmap Z Machine), P ↔ Q → (if decide P then x else y) = if decide Q then x else y) as Hif.
    { intros P P' ?? x y HP. by repeat case_decide; naive_solver. }
    eapply (Hcommit _ b); [|done|done| | |].
    + rewrite (only_tbl _ _ _ Ho2) by done. by rewrite Hr.
    + intros b'. rewrite Hb. by intros [= ->].
    + rewrite Hm2, (same_tbl _ _ Hs1). apply Hif. unfold namespaceChanges. rewrite Hb, Exists_cons, Exists_nil. tauto.
    + intros tn Htn. rewrite (Ho2 tn) by (intros ->; apply Htn; set_solver). by rewrite Habs1.
  - unfold InsertBlueprint. apply (wp_frame_insert (T := Blueprint)); [done|done|]. intros id s2 [Hok2 Ho2 _] _ Hv2.
    assert (vals (tbl Blueprint s) = []) as Hb by (by rewrite <-(same_tbl _ _ Hs1)).
    eapply Hcommit; [by rewrite Hv2, Hr|done|done| | |].
    + by rewrite Hb.
    + rewrite (only_tbl _ _ _ Ho2) by done. rewrite (same_tbl _ _ Hs1), decide_False; [done|]. unfold namespaceChanges. rewrite Hb. by intros ?%Exists_nil.
    + intros tn Htn. rewrite (Ho2 tn) by (intros ->; apply Htn; set_solver). by rewrite Habs1.
Qed.

Definition usesVagrant bp : bool := bool_decide (Exists (λ m, bpm_Provider m = "Vagrant") (bp_Machines bp)).
Lemma usesVagrant_eq bp : existsb (λ machine, bool_decide (bpm_Provider machine = Vagrant)) (bp_Machines bp) = usesVagrant bp.
Proof.
  unfold usesVagrant. induction (bp_Machines bp) as [|m ms IH]; [done|]. simpl. rewrite IH.
  rewrite (bool_decide_ext (Exists _ (m :: ms)) (bpm_Provider m = "Vagrant" ∨ Exists (λ m, bpm_Provider m = "Vagrant") ms))
    by apply Exists_cons. by rewrite bool_decide_or.
Qed.

(** The regions of the providers. *)
Definition knownRegions : list (string * list string) :=
  [("Amazon", ["us-east-1"; "ap-southeast-2"; "us-west-1"; "us-west-2"]);
   ("Google", ["us-central1-a"; "us-east1-b"; "europe-west1-b"]);
   ("DigitalOcean", ["nyc1"; "nyc2"; "lon1"; "sfo1"; "sfo2"]);
   ("Vagrant", [""])].

(** Every image of the containers can be parsed. *)
Definition imageOK (c : bpContainer) : Prop := ∃ x, ParseAnyReference (bpi_Name (bpc_Image c)) = Val x.

(** What becomes of a deployment: [Ok (Val bp)] if [bp] is accepted, [Ok (Err e)] if
    it is refused with the error [e], and a panic. *)
Inductive deployVerdict (deployment : string) : outcome (result bpBlueprint) → Prop :=
  | NotJSON e : FromJSON deployment = Err e → deployVerdict deployment (Ok (Err e))
  | BadImage bp before c after e :
      FromJSON deployment = Val bp → bp_Containers bp = before ++ c :: after → Forall imageOK before →
      ParseAnyReference (bpi_Name (bpc_Image c)) = Err e →
      deployVerdict deployment (Ok (Err ("could not parse container image " +:+ bpi_Name (bpc_Image c) +:+ ": " +:+ e)))
  | BadRegion bp m ms regions :
      FromJSON deployment = Val bp → Forall imageOK (bp_Containers bp) → bp_Machines bp = m :: ms →
      (bpm_Provider m, regions) ∈ knownRegions → bpm_Region m ∉ regions →
      deployVerdict deployment (Ok (Err ("region: " +:+ bpm_Region m +:+ " is not supported for provider: " +:+ bpm_Provider m)))
  | UnknownProvider bp m ms :
      FromJSON deployment = Val bp → Forall imageOK (bp_Containers bp) → bp_Machines bp = m :: ms →
      bpm_Provider m ∉ knownRegions.*1 → deployVerdict deployment (Panic "Unimplemented")
  | Acceptable bp :
      FromJSON deployment = Val bp → Forall imageOK (bp_Containers bp) →
      (∀ m, head (bp_Machines bp) = Some m → ∃ regions, (bpm_Provider m, regions) ∈ knownRegions ∧ bpm_Region m ∈ regions) →
      deployVerdict deployment (Ok (Val bp)).

(** The checks that [Deploy] makes. *)
Definition deployChecks (deployment : string) : outcome (result bpBlueprint) :=
  match FromJSON deployment with
  | Err e => Ok (Err e)
  | Val bp =>
    match checkImages ParseAnyReference (bp_Containers bp) with
    | Err e => Ok (Err e)
    | Val _ => let! r := checkRegion (bp_Machines bp) in Ok (match r with Err e => Err e | Val _ => Val bp end)
    end
  end.

Lemma checkImages_ok cs :
  match checkImages ParseAnyReference cs with
  | Val _ => Forall imageOK cs
  | Err msg => ∃ before c after e, cs = before ++ c :: after ∧ Forall imageOK before ∧
      ParseAnyReference (bpi_Name (bpc_Image c)) = Err e ∧
      msg = "could not parse container image " +:+ bpi_Name (bpc_Image c) +:+ ": " +:+ e
  end.
Proof.
  induction cs as [|c cs IH]; [constructor|]. simpl. destruct (ParseAnyReference _) as [x|e] eqn:Hp.
  - assert (imageOK c) as Hc by (by exists x). destruct (checkImages _ cs) as [[]|msg]; [by constructor|].
    destruct IH as (before & c' & after & e & -> & Hb & He & ->). exists (c :: before), c', after, e. split_and!; [done|by constructor|done|done].
  - exists [], c, cs, e. split_and!; [done|constructor|done|done].
Qed.
Lemma validRegions_ok p :
  match validRegions p with
  | Ok regions => (p, regions) ∈ knownRegions ∧ ∀ regions', (p, regions') ∈ knownRegions → regions' = regions
  | Panic msg => p ∉ knownRegions.*1 ∧ msg = "Unimplemented"
  end.
Proof.
  unfold validRegions, knownRegions, Amazon, Google, DigitalOcean, Vagrant.
  repeat case_bool; subst; (split; [set_solver|]); [..|done]; intros regions'; rewrite !elem_of_cons, elem_of_nil; naive_solver.
Qed.
Lemma checkRegion_ok ms :
  match checkRegion ms with
  | Ok (Val _) => ∀ m, head ms = Some m → ∃ regions, (bpm_Provider m, regions) ∈ knownRegions ∧ bpm_Region m ∈ regions
  | Ok (Err msg) => ∃ m ms' regions, ms = m :: ms' ∧ (bpm_Provider m, regions) ∈ knownRegions ∧ bpm_Region m ∉ regions ∧
      msg = "region: " +:+ bpm_Region m +:+ " is not supported for provider: " +:+ bpm_Provider m
  | Panic msg => ∃ m ms', ms = m :: ms' ∧ bpm_Provider m ∉ knownRegions.*1 ∧ msg = "Unimplemented"
  end.
Proof.
  destruct ms as [|m ms]; [done|]. simpl. pose proof (validRegions_ok (bpm_Provider m)) as Hv. destruct (validRegions _) as [regions|msg]; simpl.
  - destruct (SliceContains regions (bpm_Region m)) eqn:Hc.
    + apply elem_of_SliceContains in Hc. intros m' [= <-]. exists regions. tauto.
    + exists m, ms, regions. split_and!; [done|tauto| |done]. rewrite <-elem_of_SliceContains. congruence.
  - exists m, ms. tauto.
Qed.

Lemma deployChecks_verdict deployment : deployVerdict deployment (deployChecks deployment).
Proof.
  unfold deployChecks. destruct (FromJSON deployment) as [bp|e] eqn:Hj; [|by constructor].
  pose proof (checkImages_ok (bp_Containers bp)) as Hi. destruct (checkImages _ _) as [[]|msg].
  - pose proof (checkRegion_ok (bp_Machines bp)) as Hr. destruct (checkRegion _) as [[[]|msg]|msg]; simpl.
    + by eapply Acceptable.
    + destruct Hr as (m & ms & regions & ? & ? & ? & ->). by eapply BadRegion.
    + destruct Hr as (m & ms & ? & ? & ->). by eapply UnknownProvider.
  - destruct Hi as (before & c & after & e & ? & ? & ? & ->). by eapply BadImage.
Qed.

Lemma checkImages_all cs : Forall imageOK cs → checkImages ParseAnyReference cs = Val ().
Proof. induction 1 as [|c cs [x Hx] _ IH]; [done|]. simpl. by rewrite Hx. Qed.
(** The verdict is determined. *)
Lemma deployVerdict_checks deployment v : deployVerdict deployment v → deployChecks deployment = v.
Proof.
  unfold deployChecks. intros [e Hj|bp before c after e Hj Hc Hb He|bp m ms regions Hj Hi Hm Hreg Hno|bp m ms Hj Hi Hm Hno|bp Hj Hi Hm]; rewrite Hj; [done|..].
  - assert (checkImages ParseAnyReference (bp_Containers bp) = Err ("could not parse container image " +:+ bpi_Name (bpc_Image c) +:+ ": " +:+ e)) as ->; [|done].
    rewrite Hc. clear Hc. induction Hb as [|x before [y Hx] _ IH]; simpl; [by rewrite He|by rewrite Hx].
  - rewrite checkImages_all by done. rewrite Hm. simpl. pose proof (validRegions_ok (bpm_Provider m)) as Hv. destruct (validRegions _) as [rs|msg]; simpl.
    + destruct Hv as [_ Hu]. rewrite <-(Hu _ Hreg). destruct (SliceContains regions (bpm_Region m)) eqn:Hc; [by apply elem_of_SliceContains in Hc|done].
    + destruct Hv as [Hout _]. destruct Hout. apply list_elem_of_fmap. by exists (bpm_Provider m, regions).
  - rewrite checkImages_all by done. rewrite Hm. simpl. pose proof (validRegions_ok (bpm_Provider m)) as Hv. destruct (validRegions _) as [rs|msg]; simpl.
    + destruct Hv as [Hin _]. destruct Hno. apply list_elem_of_fmap. by exists (bpm_Provider m, rs).
    + by destruct Hv as [_ ->].
  - rewrite checkImages_all by done. destruct (bp_Machines bp) as [|m ms]; [done|]. simpl. destruct (Hm m eq_refl) as (regions & Hreg & Hin).
    pose proof (validRegions_ok (bpm_Provider m)) as Hv. destruct (validRegions _) as [rs|msg]; simpl.
    + destruct Hv as [_ Hu]. rewrite <-(Hu _ Hreg). apply elem_of_SliceContains in Hin. by rewrite Hin.
    + destruct Hv as [Hout _]. destruct Hout. apply list_elem_of_fmap. by exists (bpm_Provider m, regions).
Qed.

Lemma wp_Deploy deployment v s Q :
  deployVerdict deployment (Ok v) → DbOK (list_to_set deployTables) s → at_most_one Blueprint s →
  match v with
  | Err e => Q (Err e) s
  | Val bp => ∀ s', deployed bp s s' → Q (if usesVagrant bp then Err vagrantWarning else Val ()) s'
  end →
  wp (Deploy FromJSON ParseAnyReference true deployment) s Q.
Proof.
  intros Hv%deployVerdict_checks Hok Hone HQ. revert Hv. unfold deployChecks, Deploy. intros Hv. destruct (FromJSON deployment) as [bp|e]; [|by injection Hv as <-].
  destruct (checkImages _ _) as [[]|e]; [|by injection Hv as <-].
  unfold lift, tryM. wp_bind. unfold wp at 1. destruct (checkRegion (bp_Machines bp)) as [[[]|e]|e]; [| |done].
  - injection Hv as <-. wp_bind. apply wp_Run; [exact (DbOK_tables _ _ Hok)|]. apply wp_deployTxn; [done|done|].
    intros s1 [Hok1 [id [Hb Hid]] Hm Ho] s2 Hs2. wp_ret. rewrite usesVagrant_eq. apply HQ. split.
    + by eapply same_ok.
    + exists id. by rewrite (same_tbl _ _ Hs2).
    + by rewrite (same_tbl _ _ Hs2).
    + intros tn Htn. destruct Hs2 as [-> _]. by apply Ho.
  - injection Hv as <-. wp_ret. done.
Qed.
End deploy.

(** ** Names *)

Lemma stripPrefix_Some p s t : stripPrefix p s = Some t ↔ s = p +:+ t.
Proof.
  revert s. induction p as [|a p IH]; intros s; simpl.
  - assert (∀ x : string, Some s = Some x ↔ s = x) as <-; [|by destruct s]. intros x. split; [by intros [= ->]|by intros ->].
  - destruct s as [|b s]; simpl; [split; [done|by intros ?]|]. case_bool as [->|Hne].
    + rewrite IH. split; [by intros ->|by intros [= ->]].
    + split; [done|]. intros [= -> _]. done.
Qed.

(** [id] is a prefix of [s]. *)
Definition isPrefix (id s : string) : Prop := ∃ t, s = id +:+ t.
#[export] Instance isPrefix_dec id s : Decision (isPrefix id s).
Proof.
  destruct (stripPrefix id s) as [t|] eqn:Hs; [left; exists t; by apply stripPrefix_Some|right].
  intros [t Ht%stripPrefix_Some]. congruence.
Defined.

Lemma prefixOf_spec id s : prefixOf id s = bool_decide (isPrefix id s).
Proof.
  unfold prefixOf, hasPrefix, isPrefix. apply bool_decide_ext. split; intros [t Ht]; exists t; by apply stripPrefix_Some.
Qed.

Section lookup.
Implicit Types (id : string).

Lemma findMachineLoop_spec id machines choice :
  match findMachineLoop id choice machines with
  | Val r => option_list r = option_list choice ++ filter (λ m, isPrefix id (m_CloudID m)) machines
  | Err _ => 2 ≤ length (option_list choice ++ filter (λ m, isPrefix id (m_CloudID m)) machines)
  end.
Proof.
  revert choice. induction machines as [|m machines IH]; intros choice; simpl; [by rewrite app_nil_r|].
  rewrite prefixOf_spec, filter_cons. case_bool as [Hp|Hp]; simpl.
  - rewrite decide_True by done. destruct choice as [c|]; simpl; [lia|apply (IH (Some m))].
  - rewrite decide_False by done. apply IH.
Qed.

Lemma findMachine_spec machines id m :
  findMachine machines id = Val m ↔ filter (λ m, isPrefix id (m_CloudID m)) machines = [m].
Proof.
  unfold findMachine. pose proof (findMachineLoop_spec id machines None) as Hl.
  destruct (findMachineLoop id None machines) as [[c|]|e]; simpl in Hl.
  - rewrite <-Hl. split; by intros [= ->].
  - rewrite <-Hl. done.
  - split; [done|]. intros Hf. rewrite Hf in Hl. simpl in Hl. lia.
Qed.

(** The last container with each hostname. *)
Definition lastNamed (id : string) (containers : list Container) : option Container :=
  last (filter (λ c, c_Hostname c = id) containers).

Lemma findContainerLoop_spec id containers choice hosts :
  match findContainerLoop id choice hosts containers with
  | Val (r, hosts') => option_list r = option_list choice ++ filter (λ c, isPrefix id (c_BlueprintID c)) containers ∧
      hosts' !! id = match lastNamed id containers with Some c => Some c | None => hosts !! id end
  | Err _ => 2 ≤ length (option_list choice ++ filter (λ c, isPrefix id (c_BlueprintID c)) containers)
  end.
Proof.
  revert choice hosts. induction containers as [|c containers IH]; intros choice hosts; simpl; [by rewrite app_nil_r|].
  assert (∀ c0, match lastNamed id (c :: containers) with Some c => Some c | None => hosts !! id end = Some c0 ↔
    match lastNamed id containers with Some c => Some c | None => <[c_Hostname c := c]> hosts !! id end = Some c0) as Hlast.
  { intros c0. unfold lastNamed. rewrite filter_cons. case_decide as Hh.
    - rewrite Hh, lookup_insert_eq. rewrite last_cons. by destruct (last _).
    - by rewrite lookup_insert_ne. }
  assert (match lastNamed id (c :: containers) with Some c => Some c | None => hosts !! id end =
    match lastNamed id containers with Some c => Some c | None => <[c_Hostname c := c]> hosts !! id end) as ->.
  { apply option_eq. exact Hlast. }
  rewrite prefixOf_spec, filter_cons. case_bool as [Hp|Hp]; simpl.
  - rewrite decide_True by done. destruct choice as [c'|]; simpl; [lia|apply (IH (Some c))].
  - rewrite decide_False by done. apply IH.
Qed.

Lemma findContainer_spec containers id c :
  findContainer containers id = Val c ↔
    filter (λ c, isPrefix id (c_BlueprintID c)) containers = [c] ∨
    filter (λ c, isPrefix id (c_BlueprintID c)) containers = [] ∧ lastNamed id containers = Some c.
Proof.
  unfold findContainer. pose proof (findContainerLoop_spec id containers None ∅) as Hl.
  destruct (findContainerLoop id None ∅ containers) as [[[c'|] hosts]|e]; simpl in Hl.
  - destruct Hl as [<- _]. split; [intros [= ->]; by left|]. by intros [[= ->]|[? _]].
  - destruct Hl as [<- ->]. rewrite lookup_empty. destruct (lastNamed id containers); naive_solver.
  - split; [done|]. intros [Hf|[Hf _]]; rewrite Hf in Hl; simpl in Hl; lia.
Qed.
End lookup.

(** ** Addresses *)

Lemma splitOn_single sep s y : sep ≠ "" → splitOn sep 0 s = [y] → y = s.
Proof.
  intros Hsep. revert y. induction s as [|a s IH]; intros y; simpl; [by intros [= <-]|]. destruct (stripPrefix sep (String a s)).
  - intros [= <- Hnil]. exfalso. assert (∀ k s, splitOn sep k s ≠ []) as Hne; [|by eapply Hne].
    clear. intros k s. revert k. induction s as [|b s IH]; intros k; simpl; [done|]. destruct k; [|apply IH].
    destruct (stripPrefix _ _); [done|]. specialize (IH 0). by destruct (splitOn sep 0 s).
  - destruct (splitOn sep 0 s) as [|x xs]; [done|]. intros [= <- ->]. f_equal. by apply IH.
Qed.

(** Where the server of a host listens. *)
Definition apiAddr (host : string) : string := host +:+ ":9000".

Lemma ParseListenAddress_remote host proto addr :
  ParseListenAddress (RemoteAddress host) = Val (proto, addr) → proto = "tcp" ∧ addr = apiAddr host.
Proof.
  unfold ParseListenAddress, RemoteAddress. change (splitOn "://" 0 ("tcp://" +:+ host +:+ ":" +:+ fmtInt DefaultRemotePort))
    with ("tcp" :: splitOn "://" 0 (host +:+ ":9000")).
  destruct (splitOn "://" 0 (host +:+ ":9000")) as [|x [|]] eqn:Hs; [done| |done]. apply splitOn_single in Hs; [|done]. subst x.
  by intros [= <- <-].
Qed.

Lemma splitOn_lacks s : lacks "/" s → splitOn "://" 0 s = [s].
Proof.
  induction s as [|a s IH]; [done|]. intros [Ha Hs]. cbn [splitOn].
  destruct (stripPrefix "://" (String a s)) as [t|] eqn:Hp; [exfalso|by rewrite IH].
  apply stripPrefix_Some in Hp. injection Hp as -> ->. by destruct Hs as [? _].
Qed.

Lemma ParseListenAddress_host host : lacks "/" host → ParseListenAddress (RemoteAddress host) = Val ("tcp", apiAddr host).
Proof.
  intros Hh. unfold ParseListenAddress, RemoteAddress. change (splitOn "://" 0 ("tcp://" +:+ host +:+ ":" +:+ fmtInt DefaultRemotePort))
    with ("tcp" :: splitOn "://" 0 (host +:+ ":9000")). rewrite splitOn_lacks; [done|]. apply lacks_app. split; [done|]. by repeat constructor.
Qed.

(** ** The network *)

(** Rows in JSON: what is read back, field by field, of rows that can be encoded. *)
Class JsonLaws (T : Type) `{JsonRows T} := {
  enc : T → Prop;
  wire : T → T;
  enc_wire : ∀ t, enc t → enc (wire t);
  rows_json : ∀ l, Forall enc l → ∃ js, marshalRows l = Val js ∧ unmarshalRows js = Val (wire <$> l);
}.

Section network.
Context `{MapOrder} {W : Type} `{ApiNet W} `{!KubeAPI W}.
Context `{JsonLaws Machine} `{JsonLaws Container} `{JsonLaws Etcd} `{JsonLaws Connection} `{JsonLaws LoadBalancer}
  `{JsonLaws Blueprint} `{JsonLaws Image}.
Context (FromJSON : string → result bpBlueprint) (ParseAnyReference : string → result unit).
(** The databases behind the addresses, and the addresses that can be reached and
    answer in time. *)
Context (nodes : W → gmap string store) (up : string → Prop) (daemonAddr : string).

Definition untouched (w w' : W) : Prop := ∀ addr, option_Forall2 same (nodes w !! addr) (nodes w' !! addr).

Lemma untouched_refl w : untouched w w.
Proof. intros addr. destruct (nodes w !! addr); by constructor. Qed.
Lemma untouched_trans w1 w2 w3 : untouched w1 w2 → untouched w2 w3 → untouched w1 w3.
Proof.
  intros Hu1 Hu2 addr. specialize (Hu1 addr). specialize (Hu2 addr). inversion Hu1 as [s1 s2 Hs Hs1 Hs2|Hs1 Hs2].
  - rewrite <-Hs2 in Hu2. inversion Hu2 as [x s3 Hs' Hx Hs3|]; subst. constructor. by eapply same_trans.
  - rewrite <-Hs2 in Hu2. inversion Hu2; subst. constructor.
Qed.

(** What the server of a database answers to a query that it serves itself. *)
Definition answer (table : string) (s : store) : option string :=
  match queryLocal table s with
  | Ok (Val rows, _) => match marshalAny rows with Val js => Some js | Err _ => None end
  | _ => None
  end.

(** A call reaches the server's handler or fails; it cannot fail at an address that is up,
    unless the handler does.  Elsewhere an error says nothing of the handler: a deployment
    whose answer is lost or late has taken effect all the same. *)
Record NetLaws : Prop := {
  Dial_ok : ∀ proto addr w, wp (Dial proto addr) w (λ r w', untouched w w' ∧ (up addr → r = Val ()));
  pbClose_ok : ∀ addr w, wp (pbClose addr) w (λ _ w', untouched w w');
  pbQuery_ok : ∀ addr table w, addr ≠ daemonAddr ∨ table ∈ deployTables →
    wp (pbQuery addr table) w (λ r w', untouched w w' ∧
      match r with
      | Val js => nodes w !! addr ≫= answer table = Some js
      | Err _ => up addr → nodes w !! addr ≫= answer table = None
      end);
  pbDeploy_ok : ∀ text w, wp (pbDeploy daemonAddr text) w (λ r w',
    (∃ e, r = Err e ∧ untouched w w' ∧
       (up daemonAddr → ∀ s, nodes w !! daemonAddr = Some s → ∃ msg, Deploy FromJSON ParseAnyReference true text s = Panic msg)) ∨
    ∃ s s' r', nodes w !! daemonAddr = Some s ∧ Deploy FromJSON ParseAnyReference true text s = Ok (r', s') ∧
      nodes w' = <[daemonAddr := s']> (nodes w) ∧ (r = r' ∨ (∃ e, r = Err e) ∧ ¬ up daemonAddr));
}.
Context (Hnet : NetLaws) (Hdaemon : ∀ host, daemonAddr ≠ apiAddr host).

(** The databases have the table, with rows that can be encoded. *)
Definition nodesOK (T : Type) `{RowType T} `{JsonLaws T} (w : W) : Prop :=
  ∀ addr s, nodes w !! addr = Some s → DbOK (list_to_set [row_table T]) s ∧ Forall enc (vals (tbl T s)).

Lemma nodesOK_untouched `{RowType T} `{JsonLaws T} w w' : untouched w w' → nodesOK T w → nodesOK T w'.
Proof.
  intros Hu Hok addr s' Hs'. specialize (Hu addr). rewrite Hs' in Hu. inversion Hu as [s x Hs Hn Hx|]; subst.
  destruct (Hok addr s) as [Hd He]; [done|]. split; [by eapply same_ok|by rewrite (same_tbl _ _ Hs)].
Qed.

Section query.
Context {T : Type} `{RowType T} `{JsonLaws T}.
Context (Hserved : queryLocal (row_table T) = localRows (T := T)).

Lemma answer_rows s : DbOK (list_to_set [row_table T]) s → Forall enc (vals (tbl T s)) →
  ∃ l js, l ≡ₚ vals (tbl T s) ∧ answer (row_table T) s = Some js ∧ unmarshalRows js = Val (wire <$> l).
Proof.
  intros Hok Henc. unfold answer. rewrite Hserved.
  assert (wp (localRows (T := T)) s (λ r _, ∃ l, r = Val (AnyRows _ l) ∧ l ≡ₚ vals (tbl T s))) as Hwp.
  { unfold localRows. wp_bind. apply wp_connSelect_all; [done|]. intros l s1 _ Hl. wp_ret. by exists l. }
  apply wp_run in Hwp as (r & s' & -> & l & -> & Hl). simpl. destruct (rows_json l) as (js & Hm & Hu); [by rewrite Hl|].
  exists l, js. by rewrite Hm.
Qed.

Lemma wp_query addr w Q :
  addr ≠ daemonAddr ∨ row_table T ∈ deployTables → nodesOK T w →
  (∀ r w', untouched w w' →
     match r with
     | Val rows => ∃ s l, nodes w !! addr = Some s ∧ l ≡ₚ vals (tbl T s) ∧ rows = wire <$> l
     | Err _ => up addr → nodes w !! addr = None
     end → Q r w') →
  wp (query (T := T) addr) w Q.
Proof.
  intros Haddr Hok HQ. unfold query. apply wp_try. eapply wp_mono; [by apply (pbQuery_ok Hnet)|]. intros [js|e] w1 [Hu Hr].
  - apply bind_Some in Hr as (s & Hs & Ha). destruct (Hok addr s Hs) as [Hd He]. destruct (answer_rows s Hd He) as (l & js' & Hl & Ha' & Hu').
    assert (js' = js) as -> by congruence. wp_ret. rewrite Hu'. apply HQ; [done|]. by exists s, l.
  - apply HQ; [done|]. intros Hup. specialize (Hr Hup). destruct (nodes w !! addr) as [s|] eqn:Hs; [|done].
    destruct (Hok addr s Hs) as [Hd He]. destruct (answer_rows s Hd He) as (l & js' & _ & Ha & _). simpl in Hr. congruence.
Qed.
End query.

(** *** The leader *)

Context (Hetcd : ∀ e : Etcd, e_LeaderIP (wire e) = e_LeaderIP e).

Definition connected (m : Machine) : Prop := m_PublicIP m ≠ "" ∧ m_Status m = Connected.
(** The machine [m] names the leader [lm]. *)
Definition names (machines : list Machine) (w : W) (m lm : Machine) : Prop :=
  ∃ s e, nodes w !! apiAddr (m_PublicIP m) = Some s ∧ e ∈ vals (tbl Etcd s) ∧ e_LeaderIP e ≠ "" ∧
    lm ∈ machines ∧ m_PrivateIP lm = e_LeaderIP e.
Definition leaderIP (machines : list Machine) (w : W) (ip : string) : Prop :=
  ∃ m lm, m ∈ machines ∧ connected m ∧ names machines w m lm ∧ ip = m_PublicIP lm.
(** [m] answers, with one row of etcd that names a machine. *)
Definition informed (machines : list Machine) (w : W) (m : Machine) : Prop :=
  connected m ∧ lacks "/" (m_PublicIP m) ∧ up (apiAddr (m_PublicIP m)) ∧
  ∃ s e, nodes w !! apiAddr (m_PublicIP m) = Some s ∧ vals (tbl Etcd s) = [e] ∧ e_LeaderIP e ≠ "" ∧ ∃ lm, lm ∈ machines ∧ m_PrivateIP lm = e_LeaderIP e.

Lemma same_lookup w w' addr s' : untouched w w' → nodes w' !! addr = Some s' → ∃ s, nodes w !! addr = Some s ∧ same s s'.
Proof. intros Hu Hs'. specialize (Hu addr). rewrite Hs' in Hu. inversion Hu as [s x Hs Hn Hx|]; subst. by exists s. Qed.
Lemma same_lookup_l w w' addr s : untouched w w' → nodes w !! addr = Some s → ∃ s', nodes w' !! addr = Some s' ∧ same s s'.
Proof. intros Hu Hs. specialize (Hu addr). rewrite Hs in Hu. inversion Hu as [x s' Hs' Hx Hn|]; subst. by exists s'. Qed.

Lemma wp_newClient host w Q :
  (∀ r w', untouched w w' → match r with Val addr => addr = apiAddr host | Err _ => lacks "/" host → ¬ up (apiAddr host) end → Q r w') →
  wp (newClient (RemoteAddress host)) w Q.
Proof.
  intros HQ. unfold newClient. destruct (ParseListenAddress (RemoteAddress host)) as [[proto addr]|e] eqn:Hp.
  - apply ParseListenAddress_remote in Hp as [-> ->]. wp_bind. eapply wp_mono; [apply (Dial_ok Hnet)|]. intros [[]|e] w1 [Hu Hup].
    + wp_ret. by apply HQ.
    + wp_ret. apply HQ; [done|]. intros _ Hu'. by specialize (Hup Hu').
  - wp_ret. apply HQ; [apply untouched_refl|]. intros Hl. by rewrite ParseListenAddress_host in Hp.
Qed.

Lemma publicIPOf_Val machines priv ip : publicIPOf machines priv = Val ip → ∃ lm, lm ∈ machines ∧ m_PrivateIP lm = priv ∧ ip = m_PublicIP lm.
Proof.
  unfold publicIPOf. destruct (filter _ _) as [|lm ms] eqn:Hf; [done|]. intros [= <-]. apply filter_first in Hf as [? ?]. by exists lm.
Qed.

Lemma wp_getLeaderIP machines m w Q :
  nodesOK Etcd w → m ∈ machines → connected m →
  (∀ r w', untouched w w' →
     match r with Val ip => leaderIP machines w ip | Err _ => ¬ informed machines w m end → Q r w') →
  wp (getLeaderIP machines (m_PublicIP m)) w Q.
Proof.
  intros Hok Hm Hc HQ. unfold getLeaderIP. apply wp_try. apply wp_newClient. intros [addr|e] w1 Hu1 Hr; [subst addr|].
  2:{ apply HQ; [done|]. intros (_ & Hl & Hup & _). by apply Hr. }
  assert (∀ r w2, untouched w w2 → match r with Val ip => leaderIP machines w ip | Err _ => ¬ informed machines w m end →
    wp (let! _ := pbClose (apiAddr (m_PublicIP m)) in mret r) w2 Q) as Hclose.
  { intros r w2 Hu2 Hpost. wp_bind. eapply wp_mono; [apply (pbClose_ok Hnet)|]. intros ? w3 Hu3. wp_ret. apply HQ; [by eapply untouched_trans|done]. }
  wp_bind. apply wp_try. unfold QueryEtcd.
  eapply (wp_query (T := Etcd)); [done|left; intros He; by destruct (Hdaemon (m_PublicIP m))|by eapply nodesOK_untouched|].
  intros [etcds|e] w2 Hu2 Hr2.
  2:{ apply Hclose; [by eapply untouched_trans|]. intros (_ & _ & Hup & s & e' & Hs & _).
      destruct (same_lookup_l _ _ _ _ Hu1 Hs) as (s' & Hs' & _). specialize (Hr2 Hup). congruence. }
  destruct Hr2 as (s1 & l & Hs1 & Hl & ->). destruct (same_lookup _ _ _ _ Hu1 Hs1) as (s & Hs & Hsame). rewrite (same_tbl _ _ Hsame) in Hl.
  assert (∀ s0 e0, nodes w !! apiAddr (m_PublicIP m) = Some s0 → vals (tbl Etcd s0) = [e0] → l = [e0]) as Hone.
  { intros s0 e0 Hs0 Hv. assert (s0 = s) as -> by congruence. rewrite Hv in Hl. by apply Permutation_singleton_r in Hl. }
  destruct l as [|e l]; csimpl.
  - wp_ret. apply Hclose; [by eapply untouched_trans|]. intros (_ & _ & _ & s0 & e0 & Hs0 & Hv & _). by specialize (Hone _ _ Hs0 Hv).
  - rewrite Hetcd. case_bool as [He|He]; wp_ret; (apply Hclose; [by eapply untouched_trans|]).
    + intros (_ & _ & _ & s0 & e0 & Hs0 & Hv & Hne & _). specialize (Hone _ _ Hs0 Hv) as [= -> ->]. done.
    + destruct (publicIPOf machines (e_LeaderIP e)) as [ip|] eqn:Hp.
      * apply publicIPOf_Val in Hp as (lm & Hlm & Hpriv & ->). exists m, lm. split_and!; [done|done| |done].
        exists s, e. split_and!; [done|rewrite <-Hl; by left|done|done|done].
      * intros (_ & _ & _ & s0 & e0 & Hs0 & Hv & _ & lm & Hlm & Hpriv). specialize (Hone _ _ Hs0 Hv) as [= -> ->].
        unfold publicIPOf in Hp. destruct (filter _ _) eqn:Hf; [|done]. by eapply (filter_nil_not _ _ _ Hf Hlm).
Qed.

Lemma informed_untouched machines w w' m : untouched w w' → informed machines w m → informed machines w' m.
Proof.
  intros Hu (Hc & Hl & Hup & s & e & Hs & Hv & Hne & Hlm). destruct (same_lookup_l _ _ _ _ Hu Hs) as (s' & Hs' & Hsame).
  split_and!; [done|done|done|]. exists s', e. by rewrite (same_tbl _ _ Hsame).
Qed.
Lemma leaderIP_untouched machines w w' ip : untouched w w' → leaderIP machines w' ip → leaderIP machines w ip.
Proof.
  intros Hu (m & lm & Hm & Hc & (s' & e & Hs' & He & Hne & Hlm & Hpriv) & ->). destruct (same_lookup _ _ _ _ Hu Hs') as (s & Hs & Hsame).
  rewrite (same_tbl _ _ Hsame) in He. exists m, lm. split_and!; [done|done| |done]. by exists s, e.
Qed.

Lemma wp_askMachines machines ms errs w Q :
  nodesOK Etcd w → ms ⊆ machines →
  (∀ r w', untouched w w' →
     match r with Val ip => leaderIP machines w ip | Err _ => ∀ m, m ∈ ms → ¬ informed machines w m end → Q r w') →
  wp (askMachines machines ms errs) w Q.
Proof.
  intros Hok Hsub HQ. revert errs w Hok HQ. induction ms as [|m ms IH]; intros errs w Hok HQ; simpl.
  - wp_ret. apply HQ; [apply untouched_refl|]. intros m Hm. by apply not_elem_of_nil in Hm.
  - assert (ms ⊆ machines) as Hsub' by set_solver. destruct (decide (connected m)) as [Hc|Hc].
    + destruct Hc as [Hip Hst] eqn:Heq. rewrite !bool_decide_eq_false_2 by naive_solver. simpl. wp_bind.
      apply wp_getLeaderIP; [done|set_solver|done|]. intros [ip|e] w1 Hu1 Hr.
      * wp_ret. by apply HQ.
      * apply (IH Hsub'); [by eapply nodesOK_untouched|]. intros r w2 Hu2 Hr2. apply HQ; [by eapply untouched_trans|].
        destruct r as [ip|e']; [by eapply leaderIP_untouched|]. intros m' [->|Hm']%elem_of_cons; [done|].
        intros Hinf. by eapply Hr2; [|eapply informed_untouched].
    + assert (bool_decide (m_PublicIP m = "") || bool_decide (m_Status m ≠ Connected) = true) as ->.
      { apply orb_true_iff. rewrite !bool_decide_eq_true. unfold connected in Hc. destruct (decide (m_PublicIP m = "")); [by left|right]. tauto. }
      apply (IH Hsub'); [done|]. intros r w1 Hu1 Hr. apply HQ; [done|]. destruct r as [ip|e]; [done|].
      intros m' [->|Hm']%elem_of_cons; [|by apply Hr]. by intros [? _].
Qed.

(** A leader is found when one machine is informed, and it is one that a machine names. *)
Lemma wp_GetLeaderIP machines w Q :
  nodesOK Etcd w →
  (∀ r w', untouched w w' →
     match r with Val ip => leaderIP machines w ip | Err _ => ∀ m, m ∈ machines → ¬ informed machines w m end → Q r w') →
  wp (GetLeaderIP machines) w Q.
Proof.
  intros Hok HQ. unfold GetLeaderIP. case_bool as [->|Hne].
  - wp_ret. apply HQ; [apply untouched_refl|]. intros m Hm. by apply not_elem_of_nil in Hm.
  - by apply wp_askMachines.
Qed.

Lemma wp_Leader machines w Q :
  nodesOK Etcd w →
  (∀ r w', untouched w w' →
     match r with
     | Val addr => ∃ ip, leaderIP machines w ip ∧ addr = apiAddr ip
     | Err _ => (∀ m, m ∈ machines → ¬ informed machines w m) ∨ ∃ ip, leaderIP machines w ip ∧ (lacks "/" ip → ¬ up (apiAddr ip))
     end → Q r w') →
  wp (Leader machines) w Q.
Proof.
  intros Hok HQ. unfold Leader. apply wp_try. apply wp_GetLeaderIP; [done|]. intros [ip|e] w1 Hu1 Hr.
  - apply wp_newClient. intros [addr|e] w2 Hu2 Hr2; (apply HQ; [by eapply untouched_trans|]).
    + by exists ip.
    + right. by exists ip.
  - apply HQ; [done|]. by left.
Qed.

(** *** A query that goes through the daemon *)

Section proxied.
Context {T : Type} `{RowType T} `{JsonLaws T}.
Context (Hserved : queryLocal (row_table T) = localRows (T := T)) (Hleader : ∀ client, queryLeader (row_table T) client = remoteRows (T := T) client).
Context (Hother : row_table T ∉ deployTables).

(** The machines can be reached, and one of them knows the leader. *)
Definition clusterUp (machines : list Machine) (w : W) : Prop :=
  (∀ m, m ∈ machines → lacks "/" (m_PublicIP m) ∧ up (apiAddr (m_PublicIP m)) ∧ is_Some (nodes w !! apiAddr (m_PublicIP m))) ∧
  ∃ m, m ∈ machines ∧ informed machines w m.

Lemma clusterUp_leader machines w ip : clusterUp machines w → leaderIP machines w ip →
  lacks "/" ip ∧ up (apiAddr ip) ∧ is_Some (nodes w !! apiAddr ip).
Proof. intros [Hall _] (m & lm & _ & _ & (s & e & _ & _ & _ & Hlm & _) & ->). by apply Hall. Qed.

Lemma wp_queryFromDaemon s w Q :
  DbOK (list_to_set [MachineTable]) s → nodesOK Etcd w → nodesOK T w →
  (∀ r s' w', same s s' → untouched w w' →
     match r with
     | Val rows => ∃ ip sl l, leaderIP (vals (tbl Machine s)) w ip ∧ nodes w !! apiAddr ip = Some sl ∧ l ≡ₚ vals (tbl T sl) ∧ rows = AnyRows _ (wire <$> l)
     | Err _ => ¬ clusterUp (vals (tbl Machine s)) w
     end → Q r (s', w')) →
  wp (queryFromDaemon (row_table T)) (s, w) Q.
Proof.
  intros Hok Hetcds HT HQ. unfold queryFromDaemon.
  assert (row_table T ≠ MachineTable ∧ row_table T ≠ BlueprintTable) as [Hn1 Hn2] by (unfold deployTables in Hother; set_solver).
  rewrite !bool_decide_eq_false_2 by done. simpl. wp_bind. apply wp_onFst. cbn [fst snd]. unfold connSelectFromMachine.
  apply wp_connSelect_all; [done|]. intros machines s1 Hs1 Hl. apply wp_try, wp_onSnd. cbn [fst snd].
  assert (∀ m, m ∈ machines ↔ m ∈ vals (tbl Machine s)) as Hin by (intros m; by rewrite Hl).
  assert (∀ w ip, leaderIP machines w ip → leaderIP (vals (tbl Machine s)) w ip) as Hlead.
  { intros w0 ip (m & lm & Hm%Hin & Hc & (s0 & e & ? & ? & ? & Hlm%Hin & ?) & ->). exists m, lm. split_and!; [done|done| |done]. by exists s0, e. }
  apply wp_Leader; [done|]. intros [addr|e] w1 Hu1 Hr.
  - destruct Hr as (ip & Hip & ->). apply Hlead in Hip. wp_bind. apply wp_onSnd. cbn [fst snd]. rewrite Hleader. unfold remoteRows. apply wp_try.
    eapply (wp_query (T := T)); [done|left; intros He; by destruct (Hdaemon ip)|by eapply nodesOK_untouched|].
    assert (∀ r w2, untouched w w2 →
      match r with
      | Val rows => ∃ ip sl l, leaderIP (vals (tbl Machine s)) w ip ∧ nodes w !! apiAddr ip = Some sl ∧ l ≡ₚ vals (tbl T sl) ∧ rows = AnyRows _ (wire <$> l)
      | Err _ => ¬ clusterUp (vals (tbl Machine s)) w
      end → wp (let! _ := onSnd (pbClose (apiAddr ip)) in mret r) (s1, w2) Q) as Hclose.
    { intros r w2 Hu2 Hpost. wp_bind. apply wp_onSnd. cbn [fst snd]. eapply wp_mono; [apply (pbClose_ok Hnet)|]. intros ? w3 Hu3. wp_ret.
      apply HQ; [done|by eapply untouched_trans|done]. }
    intros [rows|e] w2 Hu2 Hr2.
    + destruct Hr2 as (sl1 & l & Hsl1 & Hll & ->). destruct (same_lookup _ _ _ _ Hu1 Hsl1) as (sl & Hsl & Hsame). rewrite (same_tbl _ _ Hsame) in Hll.
      wp_ret. apply Hclose; [by eapply untouched_trans|]. by exists ip, sl, l.
    + apply Hclose; [by eapply untouched_trans|]. intros Hcl. destruct (clusterUp_leader _ _ _ Hcl Hip) as (_ & Hup & sl & Hsl).
      destruct (same_lookup_l _ _ _ _ Hu1 Hsl) as (sl1 & Hsl1 & _). specialize (Hr2 Hup). congruence.
  - apply HQ; [done|done|]. intros Hcl. destruct Hr as [Hno|(ip & Hip%Hlead & Hdown)].
    + destruct Hcl as [_ (m & Hm & Hc & Hlk & Hup & s0 & e0 & Hs0 & Hv & Hne & lm & Hlm & Hpriv)]. apply (Hno m); [by apply Hin|].
      split_and!; [done|done|done|]. exists s0, e0. split_and!; [done|done|done|]. exists lm. split; [by apply Hin|done].
    + destruct (clusterUp_leader _ _ _ Hcl Hip) as (Hlk & Hup & _). by apply Hdown.
Qed.
End proxied.
End network.

(** ** Properties *)

(** C31: [Deploy] on the daemon.  A deployment that does not parse, has an image whose
    reference does not parse, or whose first machine is in a region its provider
    does not have, is answered with an error and leaves the database as it is; one
    whose first machine has an unknown provider crashes the daemon.  Any other
    replaces the blueprint, in the row there was if there was one, and leaves every
    other table as it is, but for the machines: all their rows are removed if
    the namespace changes, and none if it stays.  A blueprint with a Vagrant machine is
    deployed and answered with an error all the same. *)
Theorem Deploy_exact `{MapOrder} FromJSON ParseAnyReference deployment s :
  DbOK (list_to_set deployTables) s → at_most_one Blueprint s →
  (∃ v, deployVerdict FromJSON ParseAnyReference deployment v) ∧
  ∀ v, deployVerdict FromJSON ParseAnyReference deployment v →
  match v with
  | Panic msg => Deploy FromJSON ParseAnyReference true deployment s = Panic msg
  | Ok (Err e) => Deploy FromJSON ParseAnyReference true deployment s = Ok (Err e, s)
  | Ok (Val bp) => wp (Deploy FromJSON ParseAnyReference true deployment) s (λ r s', deployed bp s s' ∧
      r = if decide (Exists (λ m, bpm_Provider m = "Vagrant") (bp_Machines bp))
          then Err "The Vagrant provider is still in development. The blueprint will continue to run, but there may be some errors."
          else Val ())
  end.
Proof.
  intros Hok Hone. split; [eexists; apply deployChecks_verdict|]. intros v Hv. destruct v as [[bp|e]|msg].
  - eapply wp_Deploy; [exact Hv|done|done|]. intros s' Hd. split; [done|]. unfold usesVagrant. by case_bool; case_decide.
  - assert (wp (Deploy FromJSON ParseAnyReference true deployment) s (λ r s', r = Err e ∧ s' = s)) as Hwp by (by eapply wp_Deploy; [exact Hv|..]).
    by apply wp_run in Hwp as (r & s' & -> & -> & ->).
  - apply deployVerdict_checks in Hv. revert Hv. unfold deployChecks, Deploy. destruct (FromJSON deployment); [|done]. destruct (checkImages _ _); [|done].
    unfold tryM, lift, mbind, M_bind. destruct (checkRegion _); [done|]. by intros [= ->].
Qed.

(** The daemon is told of a provider it does not know: it panics. *)
Lemma Deploy_unknown_provider `{MapOrder} FromJSON ParseAnyReference deployment bp m ms s :
  FromJSON deployment = Val bp → checkImages ParseAnyReference (bp_Containers bp) = Val () →
  bp_Machines bp = m :: ms → bpm_Provider m ∉ AllProviders →
  Deploy FromJSON ParseAnyReference true deployment s = Panic "Unimplemented".
Proof.
  intros Hj Hi Hm Hp. unfold Deploy. rewrite Hj, Hi, Hm. unfold tryM, lift, mbind, M_bind, checkRegion, validRegions.
  unfold AllProviders in Hp. rewrite !not_elem_of_cons in Hp. destruct Hp as (? & ? & ? & ? & _). by rewrite !bool_decide_eq_false_2.
Qed.

(** C32: a query to the daemon about a table of the cluster ([T] is any that
    [queryFromDaemon] asks the leader for).  The answer holds the rows, as JSON carries
    them, of the database of a machine that some connected machine of the daemon's
    machine table names as the leader of etcd; no database changes.  The daemon answers
    with rows whenever its machines can be reached and one of them that is connected
    knows the leader. *)
Theorem daemon_query_follows_leader `{MapOrder} {W} `{ApiNet W}
    `{JsonLaws Machine} `{JsonLaws Container} `{JsonLaws Etcd} `{JsonLaws Connection} `{JsonLaws LoadBalancer} `{JsonLaws Blueprint} `{JsonLaws Image}
    FromJSON ParseAnyReference nodes up daemonAddr {T} `{RowType T} `{JsonLaws T} s (w : W) :
  NetLaws FromJSON ParseAnyReference nodes up daemonAddr → (∀ host, daemonAddr ≠ apiAddr host) →
  (∀ e : Etcd, e_LeaderIP (wire e) = e_LeaderIP e) →
  queryLocal (row_table T) = localRows (T := T) → (∀ client, queryLeader (row_table T) client = remoteRows (T := T) client) →
  row_table T ∉ deployTables →
  DbOK (list_to_set [MachineTable]) s → nodesOK nodes Etcd w → nodesOK nodes T w →
  wp (Query true (row_table T)) (s, w) (λ r st, same s st.1 ∧ untouched nodes w st.2 ∧
    match r with
    | Val js => ∃ ip sl l, leaderIP nodes (vals (tbl Machine s)) w ip ∧ nodes w !! apiAddr ip = Some sl ∧
        l ≡ₚ vals (tbl T sl) ∧ marshalRows (wire <$> l) = Val js
    | Err _ => ¬ clusterUp nodes up (vals (tbl Machine s)) w
    end).
Proof.
  intros Hnet Hd Hetcd Hs Hl Ho Hok He HT. unfold Query. apply wp_try.
  eapply wp_queryFromDaemon; [done..|]. intros [rows|e] s' w' Hsame Hu Hr; [|done]. destruct Hr as (ip & sl & l & Hip & Hsl & Hp & ->).
  wp_ret. split_and!; [done|done|]. simpl. destruct (rows_json (wire <$> l)) as (js & Hjs & _).
  - apply Forall_fmap. destruct (HT _ _ Hsl) as [_ Henc]. rewrite <-Hp in Henc. eapply Forall_impl; [exact Henc|]. intros t Ht. by apply enc_wire.
  - rewrite Hjs. by exists ip, sl, l.
Qed.

(** finding what a user means by a name.  A machine is found exactly when the name is
    a prefix of the cloud ID of that machine and of no other; a container exactly when it
    is a prefix of its blueprint ID and of no other's, or a prefix of none and the
    container is the last with that hostname.  So a hostname that is also the beginning of
    one other container's ID finds that one. *)
Theorem lookup_exact machines containers id :
  (∀ m, findMachine machines id = Val m ↔ filter (λ m, isPrefix id (m_CloudID m)) machines = [m]) ∧
  (∀ c, findContainer containers id = Val c ↔
    filter (λ c, isPrefix id (c_BlueprintID c)) containers = [c] ∨
    filter (λ c, isPrefix id (c_BlueprintID c)) containers = [] ∧ lastNamed id containers = Some c).
Proof. split; [intros m; apply findMachine_spec|intros c; apply findContainer_spec]. Qed.
