(* ===== verification/Cli.v ===== *)
(** * Package command: the commands that talk to the daemon

    [run.go], [stop.go], [secret.go], [version.go], [log.go], [ssh.go] and [counter.go] of
    [src/cli/command], and [Run] of [src/cli/cli.go].  A command is connected to the
    address [client] and returns its exit code.  The console is what is typed and what
    is printed; log messages are left out. *)

From S2P Require Import Prelude GoStrings Join Blueprint DbRows Db Providers Supervisor Api.

(** ** The console *)

(** [stdin]: what each call of [ReadLine] answers, until the end of the input; [stdout]: what
    each call of a function that prints has printed. *)
Record console := mk_console { stdin : list string; stdout : list string }.

Definition Println (s : string) : M console unit := modify (λ c, mk_console (stdin c) (stdout c ++ [s])).

Definition isSpace (c : ascii) : bool :=
  let n := nat_of_ascii c in bool_decide (n = 32) || bool_decide (9 ≤ n ≤ 13).
Fixpoint trimLeft (s : string) : string :=
  match s with String c s' => if isSpace c then trimLeft s' else s | "" => "" end.
Fixpoint trimRight (s : string) : string :=
  match s with
  | "" => ""
  | String c s' => match trimRight s' with "" => if isSpace c then "" else String c "" | t => String c t end
  end.
(** [strings.TrimSpace], on ASCII. *)
Definition TrimSpace (s : string) : string := trimRight (trimLeft s).

(** The two answers. *)
Definition yesNo (response : string) : option bool :=
  let r := ToLower (TrimSpace response) in
  if bool_decide (r = "y") || bool_decide (r = "yes") then Some true
  else if bool_decide (r = "n") || bool_decide (r = "no") then Some false
  else None.

(** The loop of [confirm]: the answer, the lines left, and how often it asked. *)
Fixpoint confirmLoop (lines : list string) : result bool * list string * nat :=
  match lines with
  | [] => (Err "EOF", [], 1)
  | response :: lines =>
    match yesNo response with
    | Some b => (Val b, lines, 1)
    | None => let '(r, rest, n) := confirmLoop lines in (r, rest, S n)
    end
  end.
Definition confirm (prompt : string) : M console (result bool) := λ c,
  let '(r, rest, n) := confirmLoop (stdin c) in
  Ok (r, mk_console rest (stdout c ++ replicate n (prompt +:+ " [y/n]: "))).

(** ** kelda run and kelda stop *)

(** The options of the two commands. *)
Record RunCmd := mk_RunCmd { rc_blueprint : string; rc_force : bool; rc_blueprintArgs : list string }.
Record StopCmd := mk_StopCmd { sc_namespace : string; sc_onlyContainers : bool; sc_force : bool }.

Definition Run_Parse (r : RunCmd) (args : list string) : result RunCmd :=
  if bool_decide (rc_blueprint r = "") then
    match args with
    | [] => Err "no blueprint specified"
    | blueprint :: args => Val (mk_RunCmd blueprint (rc_force r) args)
    end
  else Val (mk_RunCmd (rc_blueprint r) (rc_force r) args).
Definition Stop_Parse (s : StopCmd) (args : list string) : StopCmd :=
  match args with [] => s | ns :: _ => mk_StopCmd ns (sc_onlyContainers s) (sc_force s) end.

Definition pluralize (count : Z) (singular : string) : string :=
  if bool_decide (count = 1%Z) then fmtInt count +:+ " " +:+ singular else fmtInt count +:+ " " +:+ singular +:+ "s".

(** [strings.SplitAfter] on newlines. *)
Fixpoint splitAfterNewline (s : string) : list string :=
  match s with
  | "" => [""]
  | String c s =>
    if bool_decide (c = "010"%char) then String c "" :: splitAfterNewline s
    else match splitAfterNewline s with x :: xs => String c x :: xs | [] => [] end
  end.

Section deploying.
Context {W : Type} `{ApiNet W} `{JsonRows Blueprint}.
(** [blueprint.FromFileWithArgs], [Blueprint.String], [json.Indent], the unified
    difference of two texts and the two colours of the terminal. *)
Context (compile : string → list string → result bpBlueprint) (bpString : bpBlueprint → string).
Context (Indent : string → result string) (unifiedDiff : string → string → result string) (green red : string → string).

(** [None] is [errNoBlueprint]. *)
Definition getCurrentDeployment (client : string) : M W (result (option bpBlueprint)) :=
  let? blueprints := QueryBlueprints client in
  match blueprints with
  | [] => mret (Val None)
  | [b] => mret (Val (Some (b_Blueprint b)))
  | _ => panic "unreached"
  end.

Definition diffDeployment (currRaw newRaw : string) : result string :=
  match Indent currRaw, Indent newRaw with
  | Err e, _ => Err e
  | _, Err e => Err e
  | Val curr, Val new => unifiedDiff curr new
  end.

Definition colorizeDiff (toColorize : string) : string :=
  Join_strings "" ((λ line, if hasPrefix line "+" then green line else if hasPrefix line "-" then red line else line)
                     <$> splitAfterNewline toColorize).

(** Print the difference and ask; [None] to go on, or the exit code. *)
Definition confirmRun (curr : bpBlueprint) (deployment : string) : M console (option Z) :=
  match diffDeployment (bpString curr) deployment with
  | Err _ => mret (Some 1%Z)
  | Val diff =>
    (if bool_decide (diff = "") then Println "No change." else Println (colorizeDiff diff)) ;;;
    let! shouldDeploy := confirm "Continue with deployment?" in
    match shouldDeploy with
    | Err _ => mret (Some 1%Z)
    | Val false => Println "Deployment aborted by user." ;;; mret (Some 0%Z)
    | Val true => mret None
    end
  end.

Definition Run_Run (r : RunCmd) (client : string) : M (console * W) Z :=
  match compile (rc_blueprint r) (rc_blueprintArgs r) with
  | Err _ => mret 1%Z
  | Val compiled =>
    let deployment := bpString compiled in
    let! curr := onSnd (getCurrentDeployment client) in
    let! stop :=
      match curr with
      | Err _ => mret (Some 1%Z)
      | Val None => mret None
      | Val (Some curr) => if rc_force r then mret None else onFst (confirmRun curr deployment)
      end in
    match stop with
    | Some code => mret code
    | None =>
      let! d := onSnd (pbDeploy client deployment) in
      match d with
      | Err _ => mret 1%Z
      | Val _ => onFst (Println "Your blueprint is being deployed. Check its status with `kelda show`.") ;;; mret 0%Z
      end
    end
  end.

(** The blueprint that [stop] deploys in place of [currDepl]. *)
Definition stoppedBlueprint (s : StopCmd) (currDepl : bpBlueprint) : bpBlueprint :=
  let namespace := if bool_decide (sc_namespace s = "") then bp_Namespace currDepl else sc_namespace s in
  let machines := if sc_onlyContainers s then bp_Machines currDepl else [] in
  mk_bpBlueprint [] [] [] [] machines [] [] namespace.

(** Tell what will be stopped and ask. *)
Definition confirmStop (s : StopCmd) (currDepl newCluster : bpBlueprint) : M console (option Z) :=
  let tracked := bool_decide (bp_Namespace currDepl = bp_Namespace newCluster) in
  if tracked && bool_decide (bpString currDepl = bpString newCluster) then Println "Nothing to stop." ;;; mret (Some 0%Z)
  else
    (if tracked then
       let containersDelta := (Z.of_nat (length (bp_Containers currDepl)) - Z.of_nat (length (bp_Containers newCluster)))%Z in
       let machinesDelta := (Z.of_nat (length (bp_Machines currDepl)) - Z.of_nat (length (bp_Machines newCluster)))%Z in
       Println ("This will stop " +:+ pluralize containersDelta "container" +:+ " and " +:+ pluralize machinesDelta "machine" +:+ ".")
     else Println "This will stop an unknown number of machines and containers.") ;;;
    if sc_force s then mret None
    else
      let! shouldStop := confirm "Continue stopping deployment?" in
      match shouldStop with
      | Err _ => mret (Some 1%Z)
      | Val false => Println "Stop aborted by user." ;;; mret (Some 0%Z)
      | Val true => mret None
      end.

Definition Stop_Run (s : StopCmd) (client : string) : M (console * W) Z :=
  let! curr := onSnd (getCurrentDeployment client) in
  match curr with
  | Err _ => mret 1%Z
  | Val curr =>
    let currDepl := default empty_blueprint curr in
    let newCluster := stoppedBlueprint s currDepl in
    if sc_onlyContainers s && bool_decide (bp_Namespace newCluster ≠ bp_Namespace currDepl) then mret 1%Z
    else
      let! stop := onFst (confirmStop s currDepl newCluster) in
      match stop with
      | Some code => mret code
      | None =>
        let! d := onSnd (pbDeploy client (bpString newCluster)) in
        mret (match d with Err _ => 1%Z | Val _ => 0%Z end)
      end
  end.
End deploying.

(** ** kelda secret and kelda version *)

Section simple.
Context {W : Type} `{ApiNet W}.

Definition Secret_Parse (args : list string) : result (string * string) :=
  match args with [name; value] => Val (name, value) | _ => Err "a name and value must be supplied" end.
Definition Secret_Run (name value client : string) : M W Z :=
  let! r := pbSetSecret client name value in
  mret (match r with Err _ => 1%Z | Val _ => 0%Z end).

(** [tlsIO.ReadCredentials] is [readCredentials]. *)
Definition fetchDaemonVersion (readCredentials : M W (result unit)) (host : string) : M W (result string) :=
  let? _ := readCredentials in
  let? c := newClient host in
  let! r := pbVersion c in
  let! _ := pbClose c in
  mret r.

Definition fetchingVersionStr : string := "Fetching daemon version...".
Definition carriageReturn : string := String (ascii_of_nat 13) "".
Definition Version_Run (clientVersion : string) (readCredentials : M W (result unit)) (host : string) : M (console * W) Z :=
  onFst (Println ("Client Version: " +:+ clientVersion)) ;;;
  onFst (Println fetchingVersionStr) ;;;
  let! r := onSnd (fetchDaemonVersion readCredentials host) in
  onFst (Println (carriageReturn +:+ Join_strings "" (replicate (String.length fetchingVersionStr) " ") +:+ carriageReturn)) ;;;
  match r with
  | Err _ => mret 1%Z
  | Val daemonVersion => onFst (Println ("Daemon Version: " +:+ daemonVersion)) ;;; mret 0%Z
  end.
End simple.

(** ** kelda logs and kelda ssh *)

(** [ssh.Client]; a client is the host it is connected to.  A command that ends with
    a nonzero status is an error with that status. *)
Inductive sshError := ExitError (status : Z) | SshFailed (msg : string).
Class Ssh (W : Type) := {
  sshNew : string → string → M W (result unit);
  sshRun : string → bool → string → M W (option sshError);
  sshShell : string → M W (option sshError);
  sshCombinedOutput : string → string → M W (result string);
  sshDisconnect : string → M W unit;
}.

Record LogCmd := mk_LogCmd { lc_privateKey : string; lc_shouldTail : bool; lc_target : string }.
Record SSHCmd := mk_SSHCmd { ss_target : string; ss_privateKey : string; ss_allocatePTY : bool; ss_args : list string }.

Definition Log_Parse (l : LogCmd) (args : list string) : result LogCmd :=
  match args with
  | [] => Err "must specify a target container or machine"
  | target :: _ => Val (mk_LogCmd (lc_privateKey l) (lc_shouldTail l) target)
  end.
Definition SSH_Parse (s : SSHCmd) (args : list string) : result SSHCmd :=
  match args with
  | [] => Err "must specify a target"
  | target :: args => Val (mk_SSHCmd target (ss_privateKey s) (ss_allocatePTY s) args)
  end.

Section remote.
Context {W : Type} `{ApiNet W} `{Ssh W} `{JsonRows Machine} `{JsonRows Container} `{JsonRows Etcd}.

(** The host that has the logs, and the command that prints them. *)
Definition logCommand (l : LogCmd) (client : string) : M W (option (string * list string)) :=
  let follow := if lc_shouldTail l then ["--follow"] else [] in
  let! i := FuzzyLookup client (lc_target l) in
  match i with
  | Err _ => mret None
  | Val (TMachine m) => mret (Some (m_PublicIP m, ["docker"; "logs"] ++ follow ++ ["minion"]))
  | Val (TContainer c) =>
    if bool_decide (c_PodName c = "") then mret None
    else
      let! machines := QueryMachines client in
      match machines with
      | Err _ => mret None
      | Val machines =>
        let! host := GetLeaderIP machines in
        match host with
        | Err _ => mret None
        | Val host => mret (Some (host, ["docker"; "exec"; KubeAPIServerName; "kubectl"; "logs"] ++ follow ++ [c_PodName c]))
        end
      end
  end.

Definition Log_Run (l : LogCmd) (client : string) : M W Z :=
  let! t := logCommand l client in
  match t with
  | None => mret 1%Z
  | Some (host, cmd) =>
    let! ssh := sshNew host (lc_privateKey l) in
    match ssh with
    | Err _ => mret 1%Z
    | Val _ =>
      let! err := sshRun host false (Join_strings " " cmd) in
      sshDisconnect host ;;;
      mret (match err with Some _ => 1%Z | None => 0%Z end)
    end
  end.

Definition containerExec (host podName : string) (allocatePTY : bool) (cmd : string) : M W (option sshError) :=
  let flags := if allocatePTY then "-it" else "" in
  sshRun host allocatePTY (Join_strings " "
    ["docker"; "exec"; flags; KubeAPIServerName; "kubectl"; "exec"; flags; podName; "--"; cmd]).

(** What [Run] returns for the error of the command. *)
Definition sshExit (err : option sshError) : Z :=
  match err with None => 0%Z | Some (ExitError status) => status | Some (SshFailed _) => 1%Z end.

Definition withSsh (host privateKey : string) (k : M W (option sshError)) : M W Z :=
  let! r := sshNew host privateKey in
  match r with
  | Err _ => mret 1%Z
  | Val _ => let! err := k in sshDisconnect host ;;; mret (sshExit err)
  end.

Definition SSH_Run (isTerminal : bool) (s : SSHCmd) (client : string) : M W Z :=
  let allocatePTY := ss_allocatePTY s || bool_decide (ss_args s = []) in
  if allocatePTY && negb isTerminal then mret 1%Z
  else
    let! i := FuzzyLookup client (ss_target s) in
    let cmd := Join_strings " " (ss_args s) in
    let shouldLogin := bool_decide (cmd = "") in
    match i with
    | Err _ => mret 1%Z
    | Val (TMachine m) =>
      withSsh (m_PublicIP m) (ss_privateKey s)
        (if shouldLogin then sshShell (m_PublicIP m) else sshRun (m_PublicIP m) (ss_allocatePTY s) cmd)
    | Val (TContainer c) =>
      if bool_decide (c_PodName c = "") then mret 1%Z
      else
        let! machines := QueryMachines client in
        match machines with
        | Err _ => mret 1%Z
        | Val machines =>
          let! leader := GetLeaderIP machines in
          match leader with
          | Err _ => mret 1%Z
          | Val leaderIP =>
            withSsh leaderIP (ss_privateKey s)
              (if shouldLogin then containerExec leaderIP (c_PodName c) true "sh"
               else containerExec leaderIP (c_PodName c) (ss_allocatePTY s) cmd)
          end
        end
    end.
End remote.

(** ** kelda counters *)

Definition daemonTarget : string := "daemon".

(** The lines of [printCounters] in the order of packages and names, before they are aligned. *)
Section counters.
Context {W : Type} `{ApiNet W} `{JsonRows Machine} `{JsonRows Container}.

Definition queryCounters (client tgt : string) : M W (result (list Counter)) :=
  if bool_decide (tgt = daemonTarget) then pbQueryCounters client
  else
    let! i := FuzzyLookup client tgt in
    match i with
    | Err e => mret (Err ("resolve machine: " +:+ e))
    | Val (TContainer _) => mret (Err ("could not find machine: " +:+ tgt))
    | Val (TMachine m) => pbQueryMinionCounters client (m_PublicIP m)
    end.

Definition tab : string := String (ascii_of_nat 9) "".
(** A difference of two 64-bit counters. *)
Definition sub64 (a b : Z) : Z := ((a - b) mod 2 ^ 64)%Z.

Definition byPkg (counters : list Counter) : gmap string (list Counter) :=
  foldl (λ m c, <[ct_Pkg c := default [] (m !! ct_Pkg c) ++ [c]]> m) ∅ counters.
Definition byName (counters : list Counter) : gmap string Counter := foldl (λ m c, <[ct_Name c := c]> m) ∅ counters.
(** The keys of a map, sorted. *)
Definition sortedKeys {A} (m : gmap string A) : list string := Strings_sort (map_to_list m).*1.

Definition counterLine (name : string) (c : Counter) : string :=
  "    " +:+ name +:+ tab +:+ fmtInt (ct_Value c) +:+ tab +:+ fmtInt (sub64 (ct_Value c) (ct_PrevValue c)).
Definition printCounters (target : string) (counters : list Counter) : list string :=
  [target; "COUNTER" +:+ tab +:+ "VALUE" +:+ tab +:+ "DELTA"; tab +:+ tab] ++
  concat ((λ pkg, (pkg +:+ tab +:+ tab +:+ tab) ::
    let names := byName (default [] (byPkg counters !! pkg)) in
    omap (λ n, counterLine n <$> names !! n) (sortedKeys names)) <$> sortedKeys (byPkg counters)).

Definition Counters_Parse (all : bool) (args : list string) : result (list string) :=
  if bool_decide (args = []) && negb all then Err "must specify a target" else Val args.

(** The loop over the targets: [i] of them are done. *)
Fixpoint countersLoop (client : string) (i : nat) (targets : list string) : M (console * W) Z :=
  match targets with
  | [] => mret 0%Z
  | target :: targets =>
    let! counters := onSnd (queryCounters client target) in
    match counters with
    | Err _ => let! errorCount := countersLoop client (S i) targets in mret (1 + errorCount)%Z
    | Val counters =>
      (if bool_decide (i ≠ 0) then onFst (Println "") else mret ()) ;;;
      onFst (modify (λ c, mk_console (stdin c) (stdout c ++ printCounters target counters))) ;;;
      countersLoop client (S i) targets
    end
  end.
Definition Counters_Run (targets : list string) (all : bool) (client : string) : M (console * W) Z :=
  let! targets :=
    if all then
      let! machines := onSnd (QueryMachines client) in
      mret (daemonTarget :: match machines with Err _ => [] | Val machines => m_CloudID <$> machines end)
    else mret targets in
  countersLoop client 0 targets.
End counters.

(** ** The command line ([cli.go]) *)

(** [Run] after the arguments are parsed: the exit status. *)
Definition runCommand {S} (BeforeRun : M S (result unit)) (run : M S Z) (AfterRun : M S (result unit)) : M S Z :=
  let! before := BeforeRun in
  match before with
  | Err _ => mret 1%Z
  | Val _ =>
    let! exitCode := run in
    let! after := AfterRun in
    mret (match after with Err _ => if bool_decide (exitCode = 0%Z) then 1%Z else exitCode | Val _ => exitCode end)
  end.
