(* ===== verification/CliSpec.v ===== *)
(** * Package command: what [kelda run] and [kelda stop] do to the daemon

    The commands over a network on which the daemon answers with the handlers of the
    API server. *)

From S2P Require Import Prelude GoStrings Join Blueprint DbRows Db DbSpec DbTxn DbFrame Engine Providers Cloud Kube MinionServer Api ApiSpec Cli.

(** A line typed, without the space around it and in lower case. *)
Definition typed (line : string) : string := ToLower (TrimSpace line).
(** Among the lines typed, the first that is an answer is a yes, or a no. *)
Definition answersWith (words : list string) (c : console) : Prop :=
  ∃ before line after, stdin c = before ++ line :: after ∧
    Forall (λ l, typed l ∉ ["y"; "yes"; "n"; "no"]) before ∧ typed line ∈ words.
Definition saysYes : console → Prop := answersWith ["y"; "yes"].
Definition saysNo : console → Prop := answersWith ["n"; "no"].

(** What [confirm] makes of them. *)
Definition answered (c : console) : result bool := (confirmLoop (stdin c)).1.1.

Lemma answered_yes_no c :
  match answered c with
  | Val true => saysYes c ∧ ¬ saysNo c
  | Val false => saysNo c ∧ ¬ saysYes c
  | Err _ => ¬ saysYes c ∧ ¬ saysNo c
  end.
Proof.
  unfold answered, saysYes, saysNo, answersWith. destruct c as [lines out]. simpl. clear out.
  assert (∀ words : list string, ¬ ∃ before line after, [] = before ++ line :: after ∧
    Forall (λ l, typed l ∉ ["y"; "yes"; "n"; "no"]) before ∧ typed line ∈ words) as Hnil.
  { intros words (before & line & after & Heq & _). by destruct before. }
  induction lines as [|l lines IH]; [split; apply Hnil|]. simpl.
  assert (match yesNo l with Some true => typed l ∈ ["y"; "yes"] | Some false => typed l ∈ ["n"; "no"] | None => typed l ∉ ["y"; "yes"; "n"; "no"] end) as Hl.
  { unfold yesNo, typed. repeat case_bool; simpl; set_solver. }
  assert (typed l ∈ ["y"; "yes"; "n"; "no"] → ∀ words : list string, (∃ before line after, l :: lines = before ++ line :: after ∧
    Forall (λ l, typed l ∉ ["y"; "yes"; "n"; "no"]) before ∧ typed line ∈ words) → typed l ∈ words) as Hfirst.
  { intros Hin words ([|b before] & line & after & [= <- ->] & Hb & Hw); [done|]. apply Forall_cons in Hb as [Hb _]. done. }
  assert (typed l ∉ ["y"; "yes"; "n"; "no"] → ∀ words : list string, words ⊆ ["y"; "yes"; "n"; "no"] → (∃ before line after, l :: lines = before ++ line :: after ∧
    Forall (λ l, typed l ∉ ["y"; "yes"; "n"; "no"]) before ∧ typed line ∈ words) ↔ ∃ before line after, lines = before ++ line :: after ∧
    Forall (λ l, typed l ∉ ["y"; "yes"; "n"; "no"]) before ∧ typed line ∈ words) as Hskip.
  { intros Hno words Hw. split.
    - intros ([|b before] & line & after & [= <- ->] & Hb & Hin); [by apply Hw in Hin|]. apply Forall_cons in Hb as [_ Hb]. by exists before, line, after.
    - intros (before & line & after & -> & Hb & Hin). exists (l :: before), line, after. split_and!; [done|by constructor|done]. }
  destruct (yesNo l) as [[]|]; simpl.
  - split; [by exists [], l, lines|]. intros Hn. apply Hfirst in Hn; [|set_solver]. rewrite !elem_of_cons, elem_of_nil in Hl, Hn.
    destruct Hl as [Hl|[Hl|[]]]; rewrite Hl in Hn; naive_solver.
  - split; [by exists [], l, lines|]. intros Hn. apply Hfirst in Hn; [|set_solver]. rewrite !elem_of_cons, elem_of_nil in Hl, Hn.
    destruct Hl as [Hl|[Hl|[]]]; rewrite Hl in Hn; naive_solver.
  - destruct (confirmLoop lines) as [[r rest] n]. simpl in *. specialize (Hskip Hl).
    pose proof (Hskip ["y"; "yes"] ltac:(set_solver)) as Hy. pose proof (Hskip ["n"; "no"] ltac:(set_solver)) as Hn.
    destruct r as [[]|]; by rewrite Hy, Hn.
Qed.

Lemma deployed_same bp s s1 s' : same s s1 → deployed bp s1 s' → deployed bp s s'.
Proof.
  intros Hs [Hok (id & Hb & Hid) Hm Ho]. split; [done| | |].
  - exists id. split; [done|]. intros b Hb'. apply Hid. by rewrite (same_tbl _ _ Hs).
  - rewrite Hm, (same_tbl (T := Machine) _ _ Hs). assert (namespaceChanges s1 bp ↔ namespaceChanges s bp) as Hiff.
    { unfold namespaceChanges. by rewrite (same_tbl _ _ Hs). }
    repeat case_decide; tauto.
  - intros tn Htn. rewrite Ho by done. by destruct Hs as [-> _].
Qed.

Section commands.
Context `{MapOrder} {W : Type} `{ApiNet W}.
Context `{JsonLaws Machine} `{JsonLaws Container} `{JsonLaws Etcd} `{JsonLaws Connection} `{JsonLaws LoadBalancer}
  `{JsonLaws Blueprint} `{JsonLaws Image}.
Context (FromJSON : string → result bpBlueprint) (ParseAnyReference : string → result unit).
Context (nodes : W → gmap string store) (up : string → Prop) (daemonAddr : string).
Context (Hnet : NetLaws FromJSON ParseAnyReference nodes up daemonAddr).
Context (Hbp : ∀ b : Blueprint, b_Blueprint (wire b) = b_Blueprint b).
Context (bpString : bpBlueprint → string).

Notation untouched := (untouched nodes).

(** The daemon's database. *)
Record daemonAt (w : W) (s : store) : Prop := {
  da_node : nodes w !! daemonAddr = Some s;
  da_ok : DbOK (list_to_set deployTables) s;
  da_one : at_most_one Blueprint s;
}.

Lemma daemonAt_untouched w w' s : untouched w w' → daemonAt w s → ∃ s', daemonAt w' s' ∧ same s s'.
Proof.
  intros Hu [Hn Hok Hone]. destruct (same_lookup_l _ _ _ _ _ Hu Hn) as (s' & Hs' & Hsame). exists s'. split; [|done]. split; [done|by eapply same_ok|].
  unfold at_most_one. by rewrite (same_tbl _ _ Hsame).
Qed.

Lemma wp_getCurrentDeployment w s Q :
  nodesOK nodes Blueprint w → daemonAt w s →
  (∀ r w', untouched w w' →
     match r with
     | Val curr => curr = b_Blueprint <$> head (vals (tbl Blueprint s))
     | Err _ => ¬ up daemonAddr
     end → Q r w') →
  wp (getCurrentDeployment daemonAddr) w Q.
Proof.
  intros Hok [Hn _ Hone] HQ. unfold getCurrentDeployment, QueryBlueprints. apply wp_try.
  eapply (wp_query _ _ _ _ _ Hnet (T := Blueprint)); [done|right; vm_decide|done|].
  intros [rows|e] w1 Hu Hr.
  - destruct Hr as (s' & l & Hs' & Hl & ->). assert (s' = s) as -> by congruence. destruct Hone as [Hv|[b Hv]]; rewrite Hv in Hl.
    + apply Permutation_nil_r in Hl as ->. wp_ret. apply HQ; [done|]. by rewrite Hv.
    + apply Permutation_singleton_r in Hl as ->. csimpl. wp_ret. apply HQ; [done|]. rewrite Hv. simpl. by rewrite Hbp.
  - apply HQ; [done|]. intros Hup. specialize (Hr Hup). congruence.
Qed.

(** The daemon has deployed [bp] over [s]; the other databases are as they were. *)
Definition daemonDeployed (bp : bpBlueprint) (s : store) (w w' : W) : Prop :=
  (∃ s', nodes w' !! daemonAddr = Some s' ∧ deployed bp s s') ∧
  ∀ addr, addr ≠ daemonAddr → option_Forall2 same (nodes w !! addr) (nodes w' !! addr).

(** The daemon accepts [bp] as it is sent. *)
Definition accepted (bp : bpBlueprint) : Prop := deployVerdict FromJSON ParseAnyReference (bpString bp) (Ok (Val bp)).
Definition deployCode (bp : bpBlueprint) : Z := if usesVagrant bp then 1 else 0.

Lemma wp_sendDeploy bp w w1 s Q :
  FromJSON (bpString bp) = Val bp → daemonAt w s → untouched w w1 →
  (∀ e w', untouched w w' → ¬ (up daemonAddr ∧ accepted bp) → Q (Err e) w') →
  (∀ r w', daemonDeployed bp s w w' → (r = (if usesVagrant bp then Err vagrantWarning else Val ()) ∨ (∃ e, r = Err e) ∧ ¬ up daemonAddr) → Q r w') →
  wp (pbDeploy daemonAddr (bpString bp)) w1 Q.
Proof.
  intros Hjs Hda Hu HE HV. destruct (daemonAt_untouched _ _ _ Hu Hda) as (s1 & [Hn1 Hok1 Hone1] & Hsame).
  assert (∀ v, deployVerdict FromJSON ParseAnyReference (bpString bp) (Ok v) →
    wp (Deploy FromJSON ParseAnyReference true (bpString bp)) s1 (λ r s2, match v with
      | Err e => r = Err e ∧ s2 = s1 | Val bp' => deployed bp' s1 s2 ∧ r = if usesVagrant bp' then Err vagrantWarning else Val () end)) as Hwp.
  { intros v Hv. eapply wp_Deploy; [exact Hv|done|done|]. destruct v as [bp'|e]; [|done]. by intros s2 Hd. }
  assert (deployVerdict FromJSON ParseAnyReference (bpString bp) (Ok (Val bp)) ∨
    (∃ e, deployVerdict FromJSON ParseAnyReference (bpString bp) (Ok (Err e))) ∨ ∃ msg, Deploy FromJSON ParseAnyReference true (bpString bp) s1 = Panic msg) as Hcases.
  { pose proof (deployChecks_verdict FromJSON ParseAnyReference (bpString bp)) as Hv. revert Hv. unfold deployChecks, Deploy. rewrite Hjs.
    destruct (checkImages _ _) as [[]|e]; [|intros; right; left; by exists e].
    unfold tryM, lift, mbind, M_bind. destruct (checkRegion _) as [[[]|e]|e]; simpl; intros; [by left|right; left; by exists e|right; right; by exists e]. }
  eapply wp_mono; [apply (pbDeploy_ok _ _ _ _ _ Hnet)|]. intros r w2 [(e & -> & Hu2 & Hp)|(s0 & s2 & r0 & Hs0 & Hdep & Hn2 & Hr)].
  - apply HE; [by eapply untouched_trans|]. intros [Hup Hacc]. destruct (Hp Hup s1 Hn1) as (msg & Hmsg).
    specialize (Hwp _ Hacc). unfold wp in Hwp. by rewrite Hmsg in Hwp.
  - assert (s0 = s1) as -> by congruence. destruct Hcases as [Hv|[[e Hv]|[msg Hmsg]]]; [| |congruence].
    + specialize (Hwp _ Hv). unfold wp in Hwp. rewrite Hdep in Hwp. destruct Hwp as [Hd ->]. apply HV; [|destruct Hr as [->|?]; [by left|by right]]. split.
      * exists s2. rewrite Hn2, lookup_insert_eq. split; [done|]. by eapply deployed_same.
      * intros addr Ha. rewrite Hn2, lookup_insert_ne by done. apply Hu.
    + pose proof (Hwp _ Hv) as Hw. unfold wp in Hw. rewrite Hdep in Hw. destruct Hw as [-> ->].
      assert (∃ e', r = Err e') as [e' ->] by (destruct Hr as [->|[? _]]; eauto).
      apply HE; [|intros [_ Hacc]; apply deployVerdict_checks in Hacc, Hv; congruence].
      eapply untouched_trans; [exact Hu|]. intros addr. rewrite Hn2. destruct (decide (addr = daemonAddr)) as [->|Hne].
      * rewrite lookup_insert_eq, Hn1. by constructor.
      * rewrite lookup_insert_ne by done. destruct (nodes w1 !! addr); by constructor.
Qed.

Lemma wp_confirm prompt c Q :
  (∀ c', Q (answered c) c') → wp (confirm prompt) c Q.
Proof. intros HQ. unfold wp, confirm, answered in *. by destruct (confirmLoop (stdin c)) as [[r rest] n]. Qed.
Lemma wp_Println s c Q : (∀ c', stdin c' = stdin c → Q () c') → wp (Println s) c Q.
Proof. intros HQ. by apply HQ. Qed.

(** *** Running a blueprint *)

Section run.
Context (compile : string → list string → result bpBlueprint).
Context (Indent : string → result string) (unifiedDiff : string → string → result string) (green red : string → string).

(** The user agrees, or need not be asked; or says no. *)
Definition consents (force : bool) (c : console) (current : list Blueprint) : Prop :=
  force = true ∨ current = [] ∨ saysYes c.
Definition refuses (force : bool) (c : console) (current : list Blueprint) : Prop :=
  force = false ∧ current ≠ [] ∧ saysNo c.

Lemma wp_confirmRun curr deployment c Q :
  (∀ stop c', match stop with
     | None => saysYes c
     | Some code => code = 1%Z ∧ (¬ saysYes c ∨ ∃ e, diffDeployment Indent unifiedDiff (bpString curr) deployment = Err e) ∨
         code = 0%Z ∧ saysNo c ∧ ¬ saysYes c
     end → Q stop c') →
  wp (confirmRun bpString Indent unifiedDiff green red curr deployment) c Q.
Proof.
  intros HQ. unfold confirmRun. destruct (diffDeployment _ _ _ _) as [diff|e]; [|wp_ret; apply HQ; left; split; [done|right; by exists e]].
  wp_bind. assert (∀ c', stdin c' = stdin c → wp (let! shouldDeploy := confirm "Continue with deployment?" in
    match shouldDeploy with Err _ => mret (Some 1%Z) | Val false => Println "Deployment aborted by user." ;;; mret (Some 0%Z) | Val true => mret None end) c' Q) as Hask.
  { intros c1 Hin. assert (answered c1 = answered c) as Ha by (unfold answered; by rewrite Hin). wp_bind. apply wp_confirm. intros c2. rewrite Ha.
    pose proof (answered_yes_no c) as Hans. destruct (answered c) as [[]|e].
    - wp_ret. apply HQ. tauto.
    - wp_bind. apply wp_Println. intros c3 _. wp_ret. apply HQ. by right.
    - wp_ret. apply HQ. left. split; [done|left; tauto]. }
  case_bool; apply wp_Println; apply Hask.
Qed.

Lemma wp_Run_Run r bp c w s :
  compile (rc_blueprint r) (rc_blueprintArgs r) = Val bp → FromJSON (bpString bp) = Val bp → nodesOK nodes Blueprint w → daemonAt w s →
  wp (Run_Run compile bpString Indent unifiedDiff green red r daemonAddr) (c, w) (λ code st,
    let current := vals (tbl Blueprint s) in
    (untouched w st.2 ∧ (code = 1%Z ∨ code = 0%Z ∧ refuses (rc_force r) c current) ∧
       ¬ (up daemonAddr ∧ accepted bp ∧ consents (rc_force r) c current ∧ ∀ x y, ∃ d, diffDeployment Indent unifiedDiff x y = Val d)) ∨
    (daemonDeployed bp s w st.2 ∧ (code = deployCode bp ∨ code = 1%Z ∧ ¬ up daemonAddr) ∧ consents (rc_force r) c current)).
Proof.
  intros Hcomp Hjs Hok Hda. unfold Run_Run. rewrite Hcomp. wp_bind. apply wp_onSnd. cbn [fst snd]. eapply wp_getCurrentDeployment; [done|done|].
  intros curr w1 Hu1 Hcurr.
  assert (∀ c1, consents (rc_force r) c (vals (tbl Blueprint s)) →
    wp (let! d := onSnd (pbDeploy daemonAddr (bpString bp)) in
        match d with Err _ => mret 1%Z | Val _ => onFst (Println "Your blueprint is being deployed. Check its status with `kelda show`.") ;;; mret 0%Z end) (c1, w1)
      (λ code st, (untouched w st.2 ∧ (code = 1%Z ∨ code = 0%Z ∧ refuses (rc_force r) c (vals (tbl Blueprint s))) ∧
         ¬ (up daemonAddr ∧ accepted bp ∧ consents (rc_force r) c (vals (tbl Blueprint s)) ∧ ∀ x y, ∃ d, diffDeployment Indent unifiedDiff x y = Val d)) ∨
       (daemonDeployed bp s w st.2 ∧ (code = deployCode bp ∨ code = 1%Z ∧ ¬ up daemonAddr) ∧ consents (rc_force r) c (vals (tbl Blueprint s))))) as Hsend.
  { intros c1 Hcon. wp_bind. apply wp_onSnd. cbn [fst snd]. eapply wp_sendDeploy; [exact Hjs|exact Hda|exact Hu1| |].
    - intros e w2 Hu2 Hno. wp_ret. left. split_and!; [done|by left|]. tauto.
    - intros d w2 Hd [->|[[e ->] Hdown]].
      + unfold deployCode. destruct (usesVagrant bp); [wp_ret; right; by auto|]. wp_bind. apply wp_onFst. apply wp_Println. intros c2 _. wp_ret. right. by auto.
      + wp_ret. right. by auto. }
  wp_bind. destruct curr as [[curr|]|e].
  - destruct (vals (tbl Blueprint s)) as [|b bs] eqn:Hv; [done|]. destruct (rc_force r) eqn:Hf.
    + wp_ret. apply Hsend. by left.
    + apply wp_onFst. cbn [fst snd]. apply wp_confirmRun. intros [code|] c1 Hstop.
      * wp_ret. left. split_and!; [done| |].
        { destruct Hstop as [[-> _]|[-> [Hans _]]]; [by left|right]. by split_and!. }
        intros (_ & _ & [?|[?|Hans]] & Hdiff); [done|done|]. destruct Hstop as [[_ [He|[e He]]]|[_ [_ He]]]; [done| |done].
        destruct (Hdiff (bpString curr) (bpString bp)) as [d Hd]. congruence.
      * apply Hsend. right. by right.
  - destruct (vals (tbl Blueprint s)) as [|b bs] eqn:Hv; [|done]. wp_ret. apply Hsend. right. by left.
  - wp_ret. wp_ret. left. split_and!; [done|by left|]. by intros [? _].
Qed.

End run.

(** *** Stopping *)

Definition currentOf (s : store) : bpBlueprint := default empty_blueprint (b_Blueprint <$> head (vals (tbl Blueprint s))).
Definition nothingToStop (curr new : bpBlueprint) : Prop := bp_Namespace curr = bp_Namespace new ∧ bpString curr = bpString new.
Definition stopConsent (sc : StopCmd) (c : console) : Prop := sc_force sc = true ∨ saysYes c.

Lemma wp_confirmStop sc curr new c Q :
  (∀ stop c', match stop with
     | None => stopConsent sc c ∧ ¬ nothingToStop curr new
     | Some code => code = 1%Z ∧ ¬ stopConsent sc c ∨
         code = 0%Z ∧ (nothingToStop curr new ∨ sc_force sc = false ∧ saysNo c ∧ ¬ saysYes c)
     end → Q stop c') →
  wp (confirmStop bpString sc curr new) c Q.
Proof.
  intros HQ. unfold confirmStop.
  destruct (bool_decide (bp_Namespace curr = bp_Namespace new) && bool_decide (bpString curr = bpString new)) eqn:Hn.
  - apply andb_true_iff in Hn as [Hn1%bool_decide_eq_true Hn2%bool_decide_eq_true]. wp_bind. apply wp_Println. intros c1 _. wp_ret. apply HQ. right.
    split; [done|by left].
  - assert (¬ nothingToStop curr new) as Hnot.
    { intros [Hn1 Hn2]. by rewrite !bool_decide_eq_true_2 in Hn. }
    wp_bind. assert (∀ c1, stdin c1 = stdin c → wp (if sc_force sc then mret None else
      let! shouldStop := confirm "Continue stopping deployment?" in
      match shouldStop with Err _ => mret (Some 1%Z) | Val false => Println "Stop aborted by user." ;;; mret (Some 0%Z) | Val true => mret None end) c1 Q) as Hask.
    { intros c1 Hin. assert (answered c1 = answered c) as Ha by (unfold answered; by rewrite Hin). destruct (sc_force sc) eqn:Hf.
      - wp_ret. apply HQ. split; [by left|done].
      - wp_bind. apply wp_confirm. intros c2. rewrite Ha. pose proof (answered_yes_no c) as Hans. destruct (answered c) as [[]|e].
        + wp_ret. apply HQ. split; [right; tauto|done].
        + wp_bind. apply wp_Println. intros c3 _. wp_ret. apply HQ. right. split; [done|by right].
        + wp_ret. apply HQ. left. split; [done|]. intros [?|?]; [congruence|tauto]. }
    case_bool; apply wp_Println; apply Hask.
Qed.

Lemma wp_Stop_Run sc c w s :
  let new := stoppedBlueprint sc (currentOf s) in
  FromJSON (bpString new) = Val new → nodesOK nodes Blueprint w → daemonAt w s →
  wp (Stop_Run bpString sc daemonAddr) (c, w) (λ code st,
    (untouched w st.2 ∧ (code = 1%Z ∨ code = 0%Z ∧ (nothingToStop (currentOf s) new ∨ sc_force sc = false ∧ saysNo c)) ∧
       ¬ (up daemonAddr ∧ accepted new ∧ stopConsent sc c ∧ ¬ nothingToStop (currentOf s) new ∧
          (sc_onlyContainers sc = true → bp_Namespace new = bp_Namespace (currentOf s)))) ∨
    (daemonDeployed new s w st.2 ∧ (code = deployCode new ∨ code = 1%Z ∧ ¬ up daemonAddr) ∧ stopConsent sc c)).
Proof.
  intros new Hjs Hok Hda. unfold Stop_Run. wp_bind. apply wp_onSnd. cbn [fst snd]. eapply wp_getCurrentDeployment; [done|done|].
  intros [curr|e] w1 Hu1 Hcurr; [|wp_ret; left; split_and!; [done|by left|by intros [? _]]].
  assert (default empty_blueprint curr = currentOf s) as -> by by rewrite Hcurr. fold new.
  destruct (sc_onlyContainers sc && bool_decide (bp_Namespace new ≠ bp_Namespace (currentOf s))) eqn:Honly.
  - apply andb_true_iff in Honly as [Ho Hns%bool_decide_eq_true]. wp_ret. left. split_and!; [done|by left|]. intros (_ & _ & _ & _ & Hsame). by apply Hns, Hsame.
  - wp_bind. apply wp_onFst. cbn [fst snd]. apply wp_confirmStop. intros [code|] c1 Hstop.
    + wp_ret. left. split_and!; [done| |].
      * destruct Hstop as [[-> _]|[-> Hs]]; [by left|right]. tauto.
      * intros (_ & _ & Hcon & Hsome & _). destruct Hstop as [[_ ?]|[_ [?|(Hf & _ & Hans)]]]; [done|done|]. destruct Hcon as [?|?]; [congruence|done].
    + destruct Hstop as [Hcon Hsome]. wp_bind. apply wp_onSnd. cbn [fst snd]. eapply wp_sendDeploy; [exact Hjs|exact Hda|exact Hu1| |].
      * intros e w2 Hu2 Hno. wp_ret. left. split_and!; [done|by left|]. tauto.
      * intros d w2 Hd Hr. wp_ret. right. split_and!; [done| |done]. destruct Hr as [->|[[e ->] ?]]; [left|by right].
        unfold deployCode. by destruct (usesVagrant new).
Qed.
End commands.

(** ** Properties *)

Section properties.
Context `{MapOrder} {W : Type} `{ApiNet W}.
Context `{JsonLaws Machine} `{JsonLaws Container} `{JsonLaws Etcd} `{JsonLaws Connection} `{JsonLaws LoadBalancer}
  `{JsonLaws Blueprint} `{JsonLaws Image}.

(** C33: [kelda run] of a blueprint that compiles.  Either no database changes, and the
    command fails, or the user, who was asked because there was a blueprint and no [-f],
    said no; or the daemon has deployed exactly that blueprint, and there was no blueprint
    before, or [-f], or the user said yes: of the lines typed, the first that is "y",
    "yes", "n" or "no", up to case and surrounding space, is a yes.  The latter happens
    whenever the daemon can be reached and answers in time, accepts the blueprint, the texts
    can be compared and there is such consent.  The exit code of a deployment is 0, or 1 if
    a machine is of Vagrant or the answer of the daemon was lost. *)
Theorem run_deploys_with_consent FromJSON ParseAnyReference nodes up daemonAddr compile bpString Indent unifiedDiff green red r bp c (w : W) s :
  NetLaws FromJSON ParseAnyReference nodes up daemonAddr → (∀ b : Blueprint, b_Blueprint (wire b) = b_Blueprint b) →
  compile (rc_blueprint r) (rc_blueprintArgs r) = Val bp → FromJSON (bpString bp) = Val bp →
  nodesOK nodes Blueprint w → daemonAt nodes daemonAddr w s →
  wp (Run_Run compile bpString Indent unifiedDiff green red r daemonAddr) (c, w) (λ code st,
    let current := vals (tbl Blueprint s) in
    let consent := rc_force r = true ∨ current = [] ∨ saysYes c in
    (untouched nodes w st.2 ∧ (code = 1%Z ∨ code = 0%Z ∧ rc_force r = false ∧ current ≠ [] ∧ saysNo c) ∧
       ¬ (up daemonAddr ∧ accepted FromJSON ParseAnyReference bpString bp ∧ consent ∧
          (∀ x, ∃ y, Indent x = Val y) ∧ ∀ x y, ∃ d, unifiedDiff x y = Val d)) ∨
    (daemonDeployed nodes daemonAddr bp s w st.2 ∧ (code = deployCode bp ∨ code = 1%Z ∧ ¬ up daemonAddr) ∧ consent)).
Proof.
  intros Hnet Hbp Hcomp Hjs Hok Hda. eapply wp_mono; [by eapply wp_Run_Run|]. intros code st [(Hu & Hcode & Hno)|Hdep]; [left|by right].
  split_and!; [done|done|]. intros (Hup & Hacc & Hcon & Hind & Hdiff). apply Hno. split_and!; [done..|].
  intros x y. unfold diffDeployment. destruct (Hind x) as [x' ->], (Hind y) as [y' ->]. apply Hdiff.
Qed.

(** C34: [kelda stop] for the namespace that the daemon has (or for none, which means the
    same), when the daemon can be reached, accepts the blueprint it is sent, there is something
    to stop and the user consents or says [-f]: the daemon's blueprint keeps the namespace and has no containers, no
    load balancers, no connections, and no machines, or with [-containers] the machines it had;
    the machine table is as it was, so that the machines are still known to be stopped; and no
    other database changes. *)
Theorem stop_empties_blueprint FromJSON ParseAnyReference nodes up daemonAddr bpString sc c (w : W) s :
  let curr := currentOf s in
  let new := stoppedBlueprint sc curr in
  NetLaws FromJSON ParseAnyReference nodes up daemonAddr → (∀ b : Blueprint, b_Blueprint (wire b) = b_Blueprint b) →
  FromJSON (bpString new) = Val new → nodesOK nodes Blueprint w → daemonAt nodes daemonAddr w s →
  up daemonAddr → accepted FromJSON ParseAnyReference bpString new → bpString curr ≠ bpString new → stopConsent sc c →
  sc_namespace sc = "" ∨ sc_namespace sc = bp_Namespace curr →
  wp (Stop_Run bpString sc daemonAddr) (c, w) (λ code st,
    code = deployCode new ∧ (∀ addr, addr ≠ daemonAddr → option_Forall2 same (nodes w !! addr) (nodes st.2 !! addr)) ∧
    ∃ s' id, nodes st.2 !! daemonAddr = Some s' ∧
      vals (tbl Blueprint s') = [mk_Blueprint id (mk_bpBlueprint [] [] [] [] (if sc_onlyContainers sc then bp_Machines curr else []) [] [] (bp_Namespace curr))] ∧
      tbl Machine s' = tbl Machine s).
Proof.
  intros curr new Hnet Hbp Hjs Hok Hda Hup Hacc Hne Hcon Hns.
  assert (new = mk_bpBlueprint [] [] [] [] (if sc_onlyContainers sc then bp_Machines curr else []) [] [] (bp_Namespace curr)) as Hnew.
  { unfold new, stoppedBlueprint. f_equal. case_bool; [done|]. destruct Hns; congruence. }
  eapply wp_mono; [eapply wp_Stop_Run; [exact Hnet|exact Hbp|exact Hjs|exact Hok|exact Hda]|]. intros code st [(_ & _ & Hno)|(Hd & [->|[_ ?]] & _)]; [| |done].
  - destruct Hno. split_and!; [done|done|done|by intros [_ ?]|]. intros _. change (bp_Namespace new = bp_Namespace curr). by rewrite Hnew.
  - destruct Hd as [(s' & Hs' & [Hok' (id & Hb & _) Hm _]) Hothers]. split_and!; [done|done|]. exists s', id. rewrite <-Hnew. split_and!; [done|done|].
    rewrite Hm. apply decide_False. unfold namespaceChanges. intros Hex. apply Exists_exists in Hex as (b & Hb' & Hn). apply Hn. change (bp_Namespace (b_Blueprint b) = bp_Namespace new). rewrite Hnew. simpl.
    destruct Hda as [_ _ [Hv|[b0 Hv]]]; rewrite Hv in Hb'; [by apply not_elem_of_nil in Hb'|]. apply list_elem_of_singleton in Hb' as ->. unfold curr, currentOf. by rewrite Hv.
Qed.
End properties.
