(* ===== verification/Show.v ===== *)
(** * Package command: kelda show

    [src/cli/command/show.go]: the tables of machines and containers, as the lines handed
    to the tab writer, and [run], whose two goroutines share a variable. *)

From S2P Require Import Prelude GoStrings Join Blueprint DbRows Db Providers Api Cli.

(** ** The tables *)

Definition ShortUUID (uuid : string) : string := if bool_decide (String.length uuid < 12) then uuid else String.substring 0 12 uuid.

Definition tabbed (fields : list string) : string := Join_strings tab fields.
(** The floating IP if there is one. *)
Definition shownIP (m : Machine) : string := if bool_decide (m_FloatingIP m ≠ "") then m_FloatingIP m else m_PublicIP m.

Definition machineLine (m : Machine) : string :=
  tabbed [ShortUUID (m_CloudID m); m_Role m; m_Provider m; m_Region m; m_Size m; shownIP m; m_Status m].
Definition writeMachines (machines : list Machine) : list string :=
  tabbed ["MACHINE"; "ROLE"; "PROVIDER"; "REGION"; "SIZE"; "PUBLIC IP"; "STATUS"] :: (machineLine <$> SortMachines machines).

Definition portStr (c : Connection) : string :=
  fmtInt (cn_MinPort c) +:+ (if bool_decide (cn_MinPort c ≠ cn_MaxPort c) then "-" +:+ fmtInt (cn_MaxPort c) else "").
Definition connToPorts (connections : list Connection) : gmap string (list string) :=
  foldl (λ ports c,
    if SliceContains (cn_From c) PublicInternetLabel
    then foldl (λ ports to, <[to := default [] (ports !! to) ++ [portStr c]]> ports) ports (cn_To c)
    else ports) ∅ connections.

Definition truncLength : nat := 30.
Definition containerStr (image : string) (args : list string) (truncate : bool) : string :=
  if bool_decide (image = "") then ""
  else
    let container := image +:+ " " +:+ Join_strings " " args in
    if truncate && bool_decide (truncLength < String.length container)
    then String.substring 0 truncLength container +:+ "..." else container.

(** The machine, if there is one, and the ports that are open to the public. *)
Definition publicIPStr (m : option Machine) (publicPorts : list string) : string :=
  let hostPublicIP := match m with Some m => shownIP m | None => "" end in
  if bool_decide (hostPublicIP = "") then ""
  else
    match publicPorts with
    | [] => ""
    | [p] => hostPublicIP +:+ ":" +:+ p
    | ps => hostPublicIP +:+ ":[" +:+ Join_strings "," ps +:+ "]"
    end.

Definition ipIDMap (machines : list Machine) : gmap string string := foldl (λ ids m, <[m_PrivateIP m := m_CloudID m]> ids) ∅ machines.
Definition idMachineMap (machines : list Machine) : gmap string Machine := foldl (λ ms m, <[m_CloudID m := m]> ms) ∅ machines.

(** The machine that a container is shown on. *)
Definition machineOf (machines : list Machine) (c : Container) : string := default "" (ipIDMap machines !! c_Minion c).
Definition machineDBC (machines : list Machine) (containers : list Container) : gmap string (list Container) :=
  foldl (λ groups dbc, let id := machineOf machines dbc in <[id := default [] (groups !! id) ++ [dbc]]> groups) ∅ containers.

Section write.
Context `{GoSort}.
(** [units.HumanDuration] of the time since a creation that is not zero, and " ago". *)
Context (ago : Z → string).

(** The machines in order, each with its containers in order. *)
Definition containerGroups (machines : list Machine) (containers : list Container) : list (string * list Container) :=
  let groups := machineDBC machines containers in
  (λ id, (id, Sort Container_less (default [] (groups !! id)))) <$> sortedKeys groups.

Definition containerLine (machines : list Machine) (ports : gmap string (list string)) (truncate : bool) (machineID : string) (dbc : Container) : string :=
  tabbed [ShortUUID (c_BlueprintID dbc); ShortUUID machineID; containerStr (c_Image dbc) (c_Command dbc) truncate; c_Hostname dbc; c_Status dbc;
          (if bool_decide (c_Created dbc = 0%Z) then "" else ago (c_Created dbc));
          publicIPStr (idMachineMap machines !! machineID) (default [] (ports !! c_Hostname dbc))].

(** Groups are set apart by a blank line. *)
Fixpoint separated (groups : list (list string)) : list string :=
  match groups with
  | [] => []
  | [g] => g
  | g :: groups => g ++ tabbed (replicate 7 "") :: separated groups
  end.

Definition writeContainers (containers : list Container) (machines : list Machine) (connections : list Connection) (truncate : bool) : list string :=
  tabbed ["CONTAINER"; "MACHINE"; "COMMAND"; "HOSTNAME"; "STATUS"; "CREATED"; "PUBLIC IP"] ::
  separated ((λ g : string * list Container, containerLine machines (connToPorts connections) truncate g.1 <$> g.2) <$> containerGroups machines containers).

(** ** Two queries at once *)

(** Each goroutine assigns the error of its query to the variable [err] of the function, and then
    sends what is in it. *)
Inductive showEvent := AssignConnections | AssignContainers | SendConnections | SendContainers.
#[export] Instance showEvent_eq_dec : EqDecision showEvent.
Proof. solve_decision. Defined.
Record showRace := mk_showRace { sr_err : option string; sr_connections : option string; sr_containers : option string }.

Definition raceStep (connectionsErr containersErr : option string) (st : showRace) (ev : showEvent) : showRace :=
  match ev with
  | AssignConnections => mk_showRace connectionsErr (sr_connections st) (sr_containers st)
  | AssignContainers => mk_showRace containersErr (sr_connections st) (sr_containers st)
  | SendConnections => mk_showRace (sr_err st) (sr_err st) (sr_containers st)
  | SendContainers => mk_showRace (sr_err st) (sr_connections st) (sr_err st)
  end.
Definition race (order : list showEvent) (connectionsErr containersErr : option string) : showRace :=
  foldl (raceStep connectionsErr containersErr) (mk_showRace None None None) order.

(** The orders in which the four steps can happen. *)
Definition showOrders : list (list showEvent) :=
  [[AssignConnections; SendConnections; AssignContainers; SendContainers];
   [AssignContainers; SendContainers; AssignConnections; SendConnections];
   [AssignConnections; AssignContainers; SendConnections; SendContainers];
   [AssignConnections; AssignContainers; SendContainers; SendConnections];
   [AssignContainers; AssignConnections; SendConnections; SendContainers];
   [AssignContainers; AssignConnections; SendContainers; SendConnections]].

Definition errOf {A} (r : result A) : option string := match r with Err e => Some e | Val _ => None end.
Definition rowsOf {A} (r : result (list A)) : list A := match r with Val l => l | Err _ => [] end.

Definition Show_run {W} `{ApiNet W} `{JsonRows Machine} `{JsonRows Container} `{JsonRows Connection}
    (order : list showEvent) (noTruncate : bool) (client : string) : M (console * W) (result unit) :=
  let! machines := onSnd (QueryMachines client) in
  match machines with
  | Err e => mret (Err ("unable to query machines: " +:+ e))
  | Val machines =>
    forM_ (writeMachines machines ++ [""]) (λ l, onFst (Println l)) ;;;
    if negb (existsb (λ m, bool_decide (m_Status m = Connected) || bool_decide (m_Status m = Reconnecting)) machines) then mret (Val ())
    else
      let! connections := onSnd (QueryConnections client) in
      let! containers := onSnd (QueryContainers client) in
      let sent := race order (errOf connections) (errOf containers) in
      match sr_connections sent, sr_containers sent with
      | Some e, _ => mret (Err ("unable to query connections: " +:+ e))
      | None, Some e => mret (Err ("unable to query containers: " +:+ e))
      | None, None =>
        forM_ (writeContainers (rowsOf containers) machines (rowsOf connections) (negb noTruncate)) (λ l, onFst (Println l)) ;;;
        mret (Val ())
      end
  end.
End write.

(** ** What is shown *)

Lemma machineDBC_lookup machines containers id :
  machineDBC machines containers !! id =
    match filter (λ c, machineOf machines c = id) containers with [] => None | cs => Some cs end.
Proof.
  unfold machineDBC. induction containers as [|c cs IH] using rev_ind; [done|]. rewrite foldl_app, filter_app, filter_cons, filter_nil. cbn [foldl].
  destruct (decide (machineOf machines c = id)) as [<-|Hne].
  - rewrite lookup_insert_eq, IH. by destruct (filter _ cs).
  - rewrite lookup_insert_ne by done. rewrite IH. rewrite app_nil_r. done.
Qed.

Lemma sortedKeys_perm {A} (m : gmap string A) : sortedKeys m ≡ₚ (map_to_list m).*1.
Proof. apply Strings_sort_perm. Qed.

Lemma machineDBC_keys machines containers id : id ∈ sortedKeys (machineDBC machines containers) ↔ ∃ c, c ∈ containers ∧ machineOf machines c = id.
Proof.
  rewrite sortedKeys_perm, list_elem_of_fmap. split.
  - intros ([id' cs] & -> & Hin%elem_of_map_to_list). simpl. rewrite machineDBC_lookup in Hin. destruct (filter _ _) as [|c l] eqn:Hf; [done|].
    apply filter_first in Hf as [? ?]. by exists c.
  - intros (c & Hc & Hid). assert (c ∈ filter (λ c, machineOf machines c = id) containers) as Hin by by apply list_elem_of_filter.
    exists (id, filter (λ c, machineOf machines c = id) containers). split; [done|]. apply elem_of_map_to_list. rewrite machineDBC_lookup.
    destruct (filter _ _); [by apply not_elem_of_nil in Hin|done].
Qed.

(** Groups by a key with the keys all different make up the list. *)
Lemma groups_perm {A B} `{EqDecision B} (f : A → B) (keys : list B) (l : list A) :
  NoDup keys → (∀ x, x ∈ l → f x ∈ keys) → concat ((λ k, filter (λ x, f x = k) l) <$> keys) ≡ₚ l.
Proof.
  intros Hnd. revert l. induction Hnd as [|k keys Hk Hnd IH]; intros l Hin; csimpl.
  - destruct l as [|x l]; [done|]. exfalso. eapply not_elem_of_nil, Hin. by left.
  - rewrite (filter_split (λ x, f x = k) l) at 2. apply Permutation_app; [done|].
    rewrite <-(IH (filter (λ x, f x ≠ k) l)) at 1.
    + assert (((λ k0, filter (λ x, f x = k0) l) <$> keys) = ((λ k0, filter (λ x, f x = k0) (filter (λ x, f x ≠ k) l)) <$> keys)) as ->; [|done].
      apply list_fmap_ext. intros i k' Hk'. apply list_elem_of_lookup_2 in Hk'. assert (k' ≠ k) as Hne by congruence. clear Hin.
      induction l as [|x l IHl]; [done|]. rewrite !filter_cons. destruct (decide (f x = k)) as [Hx|Hx].
      * rewrite (decide_False (P := f x ≠ k)) by tauto. rewrite decide_False by congruence. exact IHl.
      * rewrite (decide_True (P := f x ≠ k)) by done. rewrite filter_cons. destruct (decide (f x = k')); [by f_equal|exact IHl].
    + intros x Hx. apply list_elem_of_filter in Hx as [Hne Hx]. apply Hin, elem_of_cons in Hx as [?|?]; [done|done].
Qed.

Lemma containerGroups_perm `{GoSort} machines containers : concat (containerGroups machines containers).*2 ≡ₚ containers.
Proof.
  unfold containerGroups. rewrite <-list_fmap_compose. transitivity (concat ((λ id, filter (λ c, machineOf machines c = id) containers) <$> sortedKeys (machineDBC machines containers))).
  - induction (sortedKeys (machineDBC machines containers)) as [|k ks IH]; csimpl; [done|]. apply Permutation_app; [|done].
    simpl. rewrite Sort_perm, machineDBC_lookup. by destruct (filter _ _).
  - apply groups_perm.
    + rewrite sortedKeys_perm. apply NoDup_fst_map_to_list.
    + intros c Hc. apply machineDBC_keys. by exists c.
Qed.

Lemma ipIDMap_lookup machines ip : ipIDMap machines !! ip = m_CloudID <$> last (filter (λ m, m_PrivateIP m = ip) machines).
Proof.
  unfold ipIDMap. induction machines as [|m ms IH] using rev_ind; [done|]. rewrite foldl_app, filter_app, filter_cons, filter_nil. cbn [foldl].
  destruct (decide (m_PrivateIP m = ip)) as [<-|Hne].
  - by rewrite lookup_insert_eq, last_snoc.
  - rewrite lookup_insert_ne by done. by rewrite app_nil_r.
Qed.

Lemma last_filter_Some {A} (P : A → Prop) `{∀ x, Decision (P x)} l x : last (filter P l) = Some x → x ∈ l ∧ P x.
Proof. intros Hl%last_Some_elem_of. apply list_elem_of_filter in Hl. tauto. Qed.

Lemma Container_less_order :
  (∀ x y, Container_less x y = true → Container_less y x = false) ∧ Transitive (notLess Container_less).
Proof.
  unfold Container_less, notLess. split; [intros x y; apply strLess_asym|]. intros x y z Hxy Hyz.
  destruct (strLess (c_BlueprintID z) (c_BlueprintID x)) eqn:Hzx; [|done]. exfalso.
  destruct (strLess (c_BlueprintID x) (c_BlueprintID y)) eqn:Hlt; [rewrite (strLess_trans _ _ _ Hzx Hlt) in Hyz; done|].
  rewrite (strLess_total _ _ Hlt Hxy) in Hzx. congruence.
Qed.

(** ** Properties *)

(** the table of [kelda show].  Whatever the sorting algorithm, every container is listed exactly once;
    the machines' groups have different IDs, and each group is in the order of blueprint IDs; and a
    container is listed with the cloud ID of a machine whose private IP is the container's
    minion, or with none when there is no such machine.  (A container that is not scheduled has the empty minion
    and is so listed with a machine that has no private IP yet.) *)
Theorem show_lists_every_container `{GoSort} machines containers :
  concat (containerGroups machines containers).*2 ≡ₚ containers ∧
  NoDup (containerGroups machines containers).*1 ∧
  ∀ id cs, (id, cs) ∈ containerGroups machines containers →
    StronglySorted (notLess Container_less) cs ∧
    ∀ c, c ∈ cs →
      (∃ m, m ∈ machines ∧ m_PrivateIP m = c_Minion c ∧ id = m_CloudID m) ∨
      id = "" ∧ ∀ m, m ∈ machines → m_PrivateIP m ≠ c_Minion c.
Proof.
  split_and!; [apply containerGroups_perm| |].
  - unfold containerGroups. rewrite <-list_fmap_compose. simpl. change (NoDup ((λ id, id) <$> sortedKeys (machineDBC machines containers))).
    rewrite list_fmap_id, sortedKeys_perm. apply NoDup_fst_map_to_list.
  - intros id cs Hin. unfold containerGroups in Hin. apply list_elem_of_fmap in Hin as (k & [= -> ->] & Hk). split.
    + apply Sort_sorted; apply Container_less_order.
    + intros c Hc. rewrite Sort_perm, machineDBC_lookup in Hc.
      assert (machineOf machines c = k) as <-.
      { destruct (filter _ _) as [|c0 l] eqn:Hf; [by apply not_elem_of_nil in Hc|]. simpl in Hc. rewrite <-Hf in Hc. by apply list_elem_of_filter in Hc as [? _]. }
      unfold machineOf. rewrite ipIDMap_lookup. destruct (last _) as [m|] eqn:Hl; simpl.
      * left. apply last_filter_Some in Hl as [? ?]. by exists m.
      * right. split; [done|]. intros m Hm He. apply last_None in Hl. by eapply (filter_nil_not _ _ _ Hl Hm).
Qed.

(** A container that is not scheduled is listed on a machine that is still booting. *)
Lemma show_misplaces_unscheduled machines m c :
  c_Minion c = "" → filter (λ m, m_PrivateIP m = "") machines = [m] → machineOf machines c = m_CloudID m.
Proof. intros Hc Hm. unfold machineOf. by rewrite ipIDMap_lookup, Hc, Hm. Qed.

Lemma Println_all `{W : Type} (lines : list string) (c : console) (w : W) :
  forM_ lines (λ l, onFst (Println l)) (c, w) = Ok ((), (mk_console (stdin c) (stdout c ++ lines), w)).
Proof.
  revert c. induction lines as [|l lines IH]; intros c; simpl; [by rewrite app_nil_r; destruct c|].
  unfold mbind, M_bind. simpl. rewrite IH. simpl. by rewrite <-app_assoc.
Qed.

Section lost.
Context `{GoSort} (ago : Z → string) {W : Type} `{ApiNet W} `{JsonRows Machine} `{JsonRows Container} `{JsonRows Connection}.

(** [kelda show] when the query for connections fails and the others succeed.  If the goroutine of the
    connections is done before the other begins, the error is reported; but if both have assigned to the shared
    variable before the first of them sends it, the error is lost: the command succeeds and lists the
    containers as if none of their ports were open. *)
Theorem show_loses_error noTruncate client (c : console) (w w1 w2 w3 : W) machines e containers :
  QueryMachines client w = Ok (Val machines, w1) →
  existsb (λ m, bool_decide (m_Status m = Connected) || bool_decide (m_Status m = Reconnecting)) machines = true →
  QueryConnections client w1 = Ok (Err e, w2) → QueryContainers client w2 = Ok (Val containers, w3) →
  let shown := stdout c ++ writeMachines machines ++ [""] in
  Show_run ago [AssignConnections; SendConnections; AssignContainers; SendContainers] noTruncate client (c, w) =
    Ok (Err ("unable to query connections: " +:+ e), (mk_console (stdin c) shown, w3)) ∧
  Show_run ago [AssignConnections; AssignContainers; SendConnections; SendContainers] noTruncate client (c, w) =
    Ok (Val (), (mk_console (stdin c) (shown ++ writeContainers ago containers machines [] (negb noTruncate)), w3)).
Proof.
  intros Hm Hup Hcn Hct shown.
  assert (∀ order, Show_run ago order noTruncate client (c, w) =
    match sr_connections (race order (Some e) None), sr_containers (race order (Some e) None) with
    | Some e, _ => Ok (Err ("unable to query connections: " +:+ e), (mk_console (stdin c) shown, w3))
    | None, Some e => Ok (Err ("unable to query containers: " +:+ e), (mk_console (stdin c) shown, w3))
    | None, None => Ok (Val (), (mk_console (stdin c) (shown ++ writeContainers ago containers machines [] (negb noTruncate)), w3))
    end) as Hrun; [|split; apply Hrun].
  intros order. unfold Show_run. unfold mbind at 1, M_bind at 1, onSnd at 1. cbn [fst snd]. rewrite Hm. cbn [fst snd].
  unfold mbind at 1, M_bind at 1. rewrite Println_all, Hup. cbn [negb]. unfold mbind at 1, M_bind at 1, onSnd at 1. cbn [fst snd]. rewrite Hcn.
  unfold mbind at 1, M_bind at 1, onSnd at 1. cbn [fst snd]. rewrite Hct. cbn [errOf rowsOf].
  destruct (sr_connections _); [done|]. destruct (sr_containers _); [done|].
  unfold mbind, M_bind. rewrite Println_all. done.
Qed.
End lost.
