(* ===== verification/Counters.v ===== *)
(** * Package counter

    [src/counter/counter.go]: counters by package and name.  [Inc] may run at any time on any goroutine, also
    between the steps of [Dump], which keeps the other dumps out with a mutex. *)

From S2P Require Import Prelude GoStrings Join Blueprint DbRows Db Api Cli.

(** ** The operations *)

(** [all] *)
Definition counters : Type := gmap (string * string) Counter.
(** [atomic.AddUint64(&v, 1)] *)
Definition add64 (a b : Z) : Z := ((a + b) mod 2 ^ 64)%Z.

Definition bump (c : Counter) : Counter := mk_Counter (ct_Pkg c) (ct_Name c) (add64 (ct_Value c) 1) (ct_PrevValue c).
Definition counterOf (pkg name : string) (all : counters) : Counter := default (mk_Counter pkg name 0 0) (all !! (pkg, name)).
Definition Inc (pkg name : string) : M counters unit := modify (λ all, <[(pkg, name) := bump (counterOf pkg name all)]> all).

(** The closure of [Dump] for one counter, with nothing in between: the copy, and the counter after it. *)
Definition dumpOne (c : Counter) : Counter * Counter := (c, mk_Counter (ct_Pkg c) (ct_Name c) (ct_Value c) (ct_Value c)).
Definition Dump `{MapOrder} (n : nat) : M counters (list Counter) := λ all,
  Ok ((λ kv, (dumpOne kv.2).1) <$> range n all, (λ c, (dumpOne c).2) <$> all).

(** ** One counter among goroutines *)

Inductive counterEvent := EInc | ECopy | ELoad | EStore.
#[export] Instance counterEvent_eq_dec : EqDecision counterEvent.
Proof. solve_decision. Defined.

(** Where the dump is: not at this counter; it has the copy; it has loaded the value as well. *)
Inductive dumpState := Idle | Copied (cpy : Z * Z) | Loaded (cpy : Z * Z) (val : Z).
(** The counter, the dump, and the differences that [kelda counters] has shown for it. *)
Record cell := mk_cell { ce_value : Z; ce_prev : Z; ce_dump : dumpState; ce_deltas : list Z }.

Inductive counterStep : cell → counterEvent → cell → Prop :=
  | step_inc v p d ds : counterStep (mk_cell v p d ds) EInc (mk_cell (add64 v 1) p d ds)
  | step_copy v p ds : counterStep (mk_cell v p Idle ds) ECopy (mk_cell v p (Copied (v, p)) ds)
  | step_load v p cpy ds : counterStep (mk_cell v p (Copied cpy) ds) ELoad (mk_cell v p (Loaded cpy v) ds)
  | step_store v p cpy val ds :
    counterStep (mk_cell v p (Loaded cpy val) ds) EStore (mk_cell v val Idle (ds ++ [sub64 cpy.1 cpy.2])).

Inductive counterRun : list counterEvent → cell → Prop :=
  | run_start : counterRun [] (mk_cell 0 0 Idle [])
  | run_step evs c ev c' : counterRun evs c → counterStep c ev c' → counterRun (evs ++ [ev]) c'.

(** The increments after a copy and before the load that follows it; [open] if there is such a copy. *)
Definition windowStep (st : bool * Z) (ev : counterEvent) : bool * Z :=
  match ev with
  | EInc => (st.1, if st.1 then (st.2 + 1)%Z else st.2)
  | ECopy => (true, st.2)
  | ELoad => (false, st.2)
  | EStore => st
  end.
Definition window (evs : list counterEvent) : bool * Z := foldl windowStep (false, 0%Z) evs.
Definition between (evs : list counterEvent) : Z := (window evs).2.
Definition sumZ (l : list Z) : Z := foldr Z.add 0%Z l.
Definition incs (evs : list counterEvent) : Z := Z.of_nat (length (filter (λ ev, ev = EInc) evs)).

(** ** Properties *)

Definition m64 (a b : Z) : Prop := ((a - b) mod 2 ^ 64 = 0)%Z.

Lemma m64_spec a b : m64 a b ↔ ∃ q, (a = b + q * 2 ^ 64)%Z.
Proof.
  unfold m64. rewrite Z.mod_divide by lia. split; intros [q Hq]; exists q; lia.
Qed.
Lemma m64_add64 a b : m64 (add64 a b) (a + b).
Proof. apply m64_spec. unfold add64. exists (- ((a + b) / 2 ^ 64))%Z. pose proof (Z.div_mod (a + b) (2 ^ 64)). lia. Qed.
Lemma m64_sub64 a b : m64 (sub64 a b) (a - b).
Proof. apply m64_spec. unfold sub64. exists (- ((a - b) / 2 ^ 64))%Z. pose proof (Z.div_mod (a - b) (2 ^ 64)). lia. Qed.

Lemma sumZ_snoc l x : sumZ (l ++ [x]) = (sumZ l + x)%Z.
Proof. induction l as [|y l IH]; simpl; [lia|]. rewrite IH. lia. Qed.
Lemma window_snoc evs ev : window (evs ++ [ev]) = windowStep (window evs) ev.
Proof. unfold window. by rewrite foldl_app. Qed.
Lemma incs_snoc evs ev : incs (evs ++ [ev]) = (incs evs + if decide (ev = EInc) then 1 else 0)%Z.
Proof. unfold incs. rewrite filter_app, length_app, filter_cons, filter_nil. case_decide; simpl; lia. Qed.

(** What holds at every point of a run. *)
Record countsOK (evs : list counterEvent) (c : cell) : Prop := {
  co_value : m64 (ce_value c) (incs evs);
  co_open : (window evs).1 = match ce_dump c with Copied _ => true | _ => false end;
  co_dump : match ce_dump c with
    | Idle => m64 (ce_prev c) (sumZ (ce_deltas c) + between evs)
    | Copied (v, p) => m64 (p + (ce_value c - v)) (sumZ (ce_deltas c) + between evs)
    | Loaded (v, p) val => m64 (p + (val - v)) (sumZ (ce_deltas c) + between evs)
    end;
}.

Lemma counterRun_ok evs c : counterRun evs c → countsOK evs c.
Proof.
  induction 1 as [|evs c ev c' _ [Hv Ho Hd] Hst]; [split; [by apply m64_spec; exists 0%Z|done|by apply m64_spec; exists 0%Z]|].
  destruct Hst as [v p d ds|v p ds|v p cpy ds|v p cpy val ds]; simpl in *;
    (split; [rewrite incs_snoc|rewrite window_snoc; simpl|unfold between in *; rewrite window_snoc; simpl]); simpl; try done;
    try (by replace (incs evs + 0)%Z with (incs evs) by lia).
  - pose proof (m64_add64 v 1) as Ha. apply m64_spec in Ha as [q Hq], Hv as [r Hr]. apply m64_spec. exists (q + r)%Z. lia.
  - rewrite Ho. destruct d as [|[v0 p0]|[v0 p0] val]; [done| |done].
    pose proof (m64_add64 v 1) as Ha. apply m64_spec in Ha as [q Hq], Hd as [r Hr]. apply m64_spec. exists (q + r)%Z. lia.
  - apply m64_spec in Hd as [q Hq]. apply m64_spec. exists q. lia.
  - destruct cpy as [v0 p0]. simpl. rewrite sumZ_snoc. pose proof (m64_sub64 v0 p0) as Hs. apply m64_spec in Hs as [q Hq], Hd as [r Hr].
    apply m64_spec. exists (r - q)%Z. lia.
Qed.

(** the differences that dumps show for a counter, while goroutines increment it at any time.  When no dump is at the
    counter, what it has recorded as shown is the sum of the differences and of the increments that fell between
    the copy of a dump and its load, modulo [2 ^ 64]: those increments are in no difference, ever.  Without such
    an increment the differences add up to the value at the last dump. *)
Theorem counter_deltas evs v p ds :
  counterRun evs (mk_cell v p Idle ds) →
  m64 v (incs evs) ∧ m64 p (sumZ ds + between evs).
Proof. intros Hr. by destruct (counterRun_ok _ _ Hr) as [Hv _ Hd]. Qed.

(** One increment before the dump and one between its two reads: the value is two, and the differences that
    this dump and the next show add up to one. *)
Lemma counter_deltas_witness :
  counterRun [EInc; ECopy; EInc; ELoad; EStore; ECopy; ELoad; EStore] (mk_cell 2 2 Idle [1; 0]%Z) ∧
  m64 2 (incs [EInc; ECopy; EInc; ELoad; EStore; ECopy; ELoad; EStore]) ∧
  m64 2 (sumZ [1; 0]%Z + between [EInc; ECopy; EInc; ELoad; EStore; ECopy; ELoad; EStore]).
Proof.
  assert (counterRun [EInc; ECopy; EInc; ELoad; EStore; ECopy; ELoad; EStore] (mk_cell 2 2 Idle [1; 0]%Z)) as Hr.
  { apply (run_step [EInc; ECopy; EInc; ELoad; EStore; ECopy; ELoad] (mk_cell 2 2 (Loaded (2, 2)%Z 2) [1%Z]) EStore); [|apply (step_store 2 2 (2, 2)%Z 2 [1%Z])].
    apply (run_step [EInc; ECopy; EInc; ELoad; EStore; ECopy] (mk_cell 2 2 (Copied (2, 2)%Z) [1%Z]) ELoad); [|apply step_load].
    apply (run_step [EInc; ECopy; EInc; ELoad; EStore] (mk_cell 2 2 Idle [1%Z]) ECopy); [|apply step_copy].
    apply (run_step [EInc; ECopy; EInc; ELoad] (mk_cell 2 0 (Loaded (1, 0)%Z 2) []) EStore); [|apply (step_store 2 0 (1, 0)%Z 2 [])].
    apply (run_step [EInc; ECopy; EInc] (mk_cell 2 0 (Copied (1, 0)%Z) []) ELoad); [|apply step_load].
    apply (run_step [EInc; ECopy] (mk_cell 1 0 (Copied (1, 0)%Z) []) EInc); [|apply (step_inc 1 0)].
    apply (run_step [EInc] (mk_cell 1 0 Idle []) ECopy); [|apply step_copy].
    apply (run_step [] (mk_cell 0 0 Idle []) EInc); [apply run_start|apply (step_inc 0 0)]. }
  split; [exact Hr|]. exact (counter_deltas _ _ _ _ Hr).
Defined.

(** The three steps of a dump with nothing in between are the closure of [Dump]. *)
Lemma dumpOne_steps c ds :
  let '(cpy, c') := dumpOne c in
  ∃ c1 c2, counterStep (mk_cell (ct_Value c) (ct_PrevValue c) Idle ds) ECopy c1 ∧ counterStep c1 ELoad c2 ∧
    counterStep c2 EStore (mk_cell (ct_Value c') (ct_PrevValue c') Idle (ds ++ [sub64 (ct_Value cpy) (ct_PrevValue cpy)])).
Proof.
  destruct c as [pkg name v p]. simpl. exists (mk_cell v p (Copied (v, p)) ds), (mk_cell v p (Loaded (v, p) v) ds).
  split_and!; [apply step_copy|apply step_load|apply (step_store v p (v, p) v ds)].
Qed.
