(* ===== verification/DebugLogs.v ===== *)
(** * Package command: kelda debug-logs

    [src/cli/command/debug.go]: which logs are fetched from which hosts, where they are put, and what
    the exit code says about them. *)

From S2P Require Import Prelude GoStrings Join Blueprint DbRows Db Providers Supervisor Api ApiSpec Cli.

(** ** What to fetch *)

Record logCmd := mk_logCmd { lg_name : string; lg_cmd : string }.
Record logTarget := mk_logTarget { lt_ip : string; lt_dir : string; lt_id : string; lt_cmds : list logCmd }.

Definition containerDir : string := "containers".
Definition machineDir : string := "machines".

(** Formatted with the host of the daemon. *)
Definition daemonCmds (host : string) : list logCmd :=
  [mk_logCmd "counters" ("counters -H=" +:+ host +:+ " -all"); mk_logCmd "ps" ("ps -H=" +:+ host); mk_logCmd "version" ("version -H=" +:+ host)].

Definition machineCmds : list logCmd :=
  [mk_logCmd "cloud-init" "sudo cat /var/log/cloud-init-output.log"; mk_logCmd "docker-ps" "docker ps -a"; mk_logCmd "minion" "docker logs minion";
   mk_logCmd EtcdName ("docker logs " +:+ EtcdName); mk_logCmd OvsdbName ("docker logs " +:+ OvsdbName);
   mk_logCmd "syslog" "sudo cat /var/log/syslog"; mk_logCmd "journalctl" "sudo journalctl -xe"; mk_logCmd "uname" "uname -a";
   mk_logCmd "dmesg" "dmesg"; mk_logCmd "uptime" "uptime"].

Definition logsForContainers (containerNames : list string) : list logCmd := (λ name, mk_logCmd name ("docker logs " +:+ name)) <$> containerNames.

Definition masterMachineCmds : list logCmd :=
  logsForContainers [OvnnorthdName; RegistryName; KubeAPIServerName; KubeControllerManagerName; KubeSchedulerName] ++
  [mk_logCmd "kube-cluster-info" ("docker exec " +:+ KubeAPIServerName +:+ " kubectl cluster-info dump");
   mk_logCmd "kube-resources" ("docker exec " +:+ KubeAPIServerName +:+ " kubectl get all --export=true -o=yaml")].
Definition workerMachineCmds : list logCmd := logsForContainers [OvncontrollerName; OvsvswitchdName; KubeletName].
Definition containerCmds (podName : string) : list logCmd := [mk_logCmd "logs" ("docker exec kube-apiserver kubectl logs " +:+ podName)].

Definition machinesToTargets (machines : list Machine) : list logTarget :=
  omap (λ m,
    if bool_decide (m_PublicIP m = "") then None
    else Some (mk_logTarget (m_PublicIP m) machineDir (m_CloudID m)
      (machineCmds ++ (if bool_decide (m_Role m = Worker) then workerMachineCmds else masterMachineCmds)))) machines.

Definition containersToTargets (leaderIP : string) (containers : list Container) : list logTarget :=
  omap (λ c,
    if bool_decide (c_Minion c = "") then None
    else Some (mk_logTarget leaderIP containerDir (c_Hostname c) (containerCmds (c_PodName c)))) containers.

(** [choice] with an empty id is none. *)
Fixpoint findTargetLoop (id : string) (choice : logTarget) (targets : list logTarget) : result logTarget :=
  match targets with
  | [] => if bool_decide (lt_id choice = "") then Err ("no target with id " +:+ id) else Val choice
  | t :: targets =>
    if negb (prefixOf id (lt_id t)) then findTargetLoop id choice targets
    else if bool_decide (lt_id choice ≠ "") then Err ("ambiguous ids " +:+ lt_id choice +:+ " and " +:+ lt_id t)
    else findTargetLoop id t targets
  end.
Definition findTarget (targets : list logTarget) (id : string) : result logTarget := findTargetLoop id (mk_logTarget "" "" "" []) targets.

Fixpoint filterTargets (targets : list logTarget) (ids : list string) : result (list logTarget) :=
  match ids with
  | [] => Val []
  | id :: ids =>
    match findTarget targets id with
    | Err e => Err e
    | Val t => match filterTargets targets ids with Err e => Err e | Val ts => Val (t :: ts) end
    end
  end.

(** [strings.Fields], on ASCII: the words, and the one that is being read. *)
Fixpoint fieldsLoop (s : string) : string * list string :=
  match s with
  | "" => ("", [])
  | String c s =>
    let '(word, words) := fieldsLoop s in
    if isSpace c then ("", if bool_decide (word = "") then words else word :: words) else (String c word, words)
  end.
Definition Fields (s : string) : list string := let '(word, words) := fieldsLoop s in if bool_decide (word = "") then words else word :: words.

(** ** Fetching *)

(** The file system, and commands run on this host.  [walkTar] is the walk over a directory with [ballUp]
    and the end of the archive: the contents of the archive. *)
Class LocalHost (W : Type) := {
  fsMkdir : string → M W (result unit);
  fsWriteFile : string → string → M W (result unit);
  fsRemoveAll : string → M W (result unit);
  walkTar : string → M W (result string);
  execOutput : list string → M W (result string);
}.

Record DebugCmd := mk_DebugCmd {
  db_privateKey : string; db_outPath : string; db_all : bool; db_containers : bool; db_machines : bool; db_tar : bool;
  db_ids : list string; db_host : string;
}.

Definition Debug_Parse (d : DebugCmd) (args : list string) : result (list string) :=
  if bool_decide (args = []) && negb (db_all d || db_machines d || db_containers d)
  then Err "must supply at least one ID or set option" else Val args.

Section debug.
Context {W : Type} `{ApiNet W} `{Ssh W} `{LocalHost W} `{JsonRows Machine} `{JsonRows Container} `{JsonRows Etcd}.

(** [errno++] *)
Definition counted {A} (m : M W (result A)) : M W Z := let! r := m in mret (match r with Err _ => 1%Z | Val _ => 0%Z end).
(** The sum over a loop. *)
Fixpoint sumM {A} (f : A → M W Z) (xs : list A) : M W Z :=
  match xs with
  | [] => mret 0%Z
  | x :: xs => let! n := f x in let! rest := sumM f xs in mret (n + rest)%Z
  end.

Definition tarball (root : string) : M W Z :=
  let! buf := walkTar root in
  match buf with
  | Err _ => mret 1%Z
  | Val buf =>
    let! r := fsRemoveAll root in
    match r with
    | Err _ => mret 1%Z
    | Val _ => counted (fsWriteFile (root +:+ ".tar") buf)
    end
  end.

Definition daemonLog (rootDir : string) (cmd : logCmd) : M W Z :=
  counted (let? result := execOutput ("kelda" :: Fields (lg_cmd cmd)) in fsWriteFile (pathJoin rootDir (lg_name cmd)) result).

Definition targetPath (rootDir : string) (t : logTarget) : string := pathJoin (pathJoin rootDir (lt_dir t)) (lt_id t).
Definition targetLog (rootDir : string) (t : logTarget) (cmd : logCmd) : M W Z :=
  counted (let? result := sshCombinedOutput (lt_ip t) (lg_cmd cmd) in fsWriteFile (pathJoin (targetPath rootDir t) (lg_name cmd)) result).

Definition targetLogs (rootDir privateKey : string) (t : logTarget) : M W Z :=
  let! made := fsMkdir (targetPath rootDir t) in
  match made with
  | Err _ => mret 1%Z
  | Val _ =>
    let! conn := sshNew (lt_ip t) privateKey in
    match conn with
    | Err _ => mret 1%Z
    | Val _ => sumM (targetLog rootDir t) (lt_cmds t)
    end
  end.

Definition downloadLogs (d : DebugCmd) (targets : list logTarget) : M W Z :=
  let rootDir := db_outPath d in
  let! r := fsMkdir (pathJoin rootDir machineDir) in
  match r with
  | Err _ => mret 1%Z
  | Val _ =>
    let! r := fsMkdir (pathJoin rootDir containerDir) in
    match r with
    | Err _ => mret 1%Z
    | Val _ =>
      let! daemonErrs := sumM (daemonLog rootDir) (daemonCmds (db_host d)) in
      let! targetErrs := sumM (targetLogs rootDir (db_privateKey d)) targets in
      let! tarErrs := if db_tar d then tarball rootDir else mret 0%Z in
      mret (daemonErrs + targetErrs + tarErrs)%Z
    end
  end.

(** The targets, of the machines and containers as far as they are known. *)
Definition chooseTargets (d : DebugCmd) (machines : result (list Machine)) (containers : result (list Container)) (leaderIP : result string)
    : result (list logTarget) :=
  let wantMachines := db_machines d || db_all d in
  let wantContainers := db_containers d || db_all d in
  let mTargets := match machines with Val ms => machinesToTargets ms | Err _ => [] end in
  let cTargets := match containers, leaderIP with Val cs, Val ip => containersToTargets ip cs | _, _ => [] end in
  if negb (wantMachines || wantContainers) then filterTargets (cTargets ++ mTargets) (db_ids d)
  else Val ((if wantMachines then mTargets else []) ++ (if wantContainers then cTargets else [])).

(** [now] is the timestamp in the default name. *)
Definition Debug_Run (now : string) (d : DebugCmd) (client : string) : M W Z :=
  let outPath := if bool_decide (db_outPath d = "") then "debug_logs_" +:+ now else db_outPath d in
  let d := mk_DebugCmd (db_privateKey d) outPath (db_all d) (db_containers d) (db_machines d) (db_tar d) (db_ids d) (db_host d) in
  let! made := fsMkdir outPath in
  match made with
  | Err _ => mret 1%Z
  | Val _ =>
    let! machines := QueryMachines client in
    let! containers := QueryContainers client in
    let! leaderIP := GetLeaderIP (match machines with Val ms => ms | Err _ => [] end) in
    let errs := ((match machines with Err _ => 1 | Val _ => 0 end) + (match containers with Err _ => 1 | Val _ => 0 end) +
                 (match leaderIP with Err _ => 1 | Val _ => 0 end))%Z in
    match chooseTargets d machines containers leaderIP with
    | Err _ => mret 1%Z
    | Val targets => let! n := downloadLogs d targets in mret (errs + n)%Z
    end
  end.
End debug.

(** ** What the exit code says *)

Section spec.
Context {W : Type} `{Ssh W} `{LocalHost W} (files : W → gmap string string) (prints : string → string → string → Prop) (local : list string → string → Prop).

Definition keeps_files {A} (m : M W A) : Prop := ∀ w, wp m w (λ _ w', files w' = files w).

(** What commands print is what [prints] says of a host and [local] of this one. *)
Record DebugLaws : Prop := {
  Mkdir_keeps : ∀ path, keeps_files (fsMkdir path);
  sshNew_keeps : ∀ host key, keeps_files (sshNew host key);
  WriteFile_ok : ∀ path content w, wp (fsWriteFile path content) w (λ r w',
    (∀ q, q ≠ path → files w' !! q = files w !! q) ∧ (r = Val () → files w' !! path = Some content));
  RemoveAll_ok : ∀ root w, wp (fsRemoveAll root) w (λ r w', r = Val () →
    ∀ q, files w' !! q = if decide (isPrefix (root +:+ "/") q) then None else files w !! q);
  walkTar_keeps : ∀ root, keeps_files (walkTar root);
  execOutput_ok : ∀ args w, wp (execOutput args) w (λ r w', files w' = files w ∧ ∀ out, r = Val out → local args out);
  sshOutput_ok : ∀ host cmd w, wp (sshCombinedOutput host cmd) w (λ r w', files w' = files w ∧ ∀ out, r = Val out → prints host cmd out);
}.
Context (Hlaws : DebugLaws).

(** A file to be written, and what may be in it. *)
Definition task : Type := string * (string → Prop).
(** [m] writes no other files, and returns zero only if it has written all of them. *)
Definition does (m : M W Z) (tasks : list task) : Prop := ∀ w, wp m w (λ n w',
  (0 ≤ n)%Z ∧ (∀ q, q ∉ tasks.*1 → files w' !! q = files w !! q) ∧
  (n = 0%Z → Forall (λ t, ∃ out, t.2 out ∧ files w' !! t.1 = Some out) tasks)).

Lemma does_write {A} (get : M W (result A)) (show : A → string) path (good : string → Prop) :
  (∀ w, wp get w (λ r w', files w' = files w ∧ ∀ a, r = Val a → good (show a))) →
  does (counted (let? a := get in fsWriteFile path (show a))) [(path, good)].
Proof.
  intros Hget w. unfold counted. wp_bind. apply wp_try. eapply wp_mono; [apply Hget|]. intros [a|e] w1 [Hf Hg].
  - eapply wp_mono; [apply (WriteFile_ok Hlaws)|]. intros r w2 [Ho Hw]. wp_ret. split_and!; [destruct r; lia| |].
    + intros q Hq. rewrite <-Hf. apply Ho. csimpl in *. set_solver.
    + destruct r as [[]|]; [|done]. intros _. constructor; [|done]. exists (show a). split; [by apply Hg|by apply Hw].
  - wp_ret. split_and!; [lia|by rewrite Hf|done].
Qed.

Lemma does_sumM {A} (f : A → M W Z) (tasks : A → list task) xs :
  (∀ x, x ∈ xs → does (f x) (tasks x)) → NoDup (concat (tasks <$> xs)).*1 → does (sumM f xs) (concat (tasks <$> xs)).
Proof.
  induction xs as [|x xs IH]; intros Hf Hnd w; simpl.
  - wp_ret. split_and!; [lia|done|by constructor].
  - csimpl in Hnd. rewrite fmap_app in Hnd. apply NoDup_app in Hnd as (_ & Hdis & Hnd).
    wp_bind. eapply wp_mono; [apply (Hf x); by left|]. intros n w1 (Hn & Ho & Hz).
    wp_bind. eapply wp_mono; [apply IH; [intros y Hy; apply Hf; by right|done]|]. intros rest w2 (Hn2 & Ho2 & Hz2). wp_ret. csimpl. rewrite fmap_app. split_and!.
    + lia.
    + intros q Hq. rewrite not_elem_of_app in Hq. destruct Hq as [Hq1 Hq2]. by rewrite (Ho2 _ Hq2), (Ho _ Hq1).
    + intros Hsum. apply Forall_app. split; [|apply Hz2; lia]. specialize (Hz ltac:(lia)). rewrite Forall_forall in Hz |- *.
      intros t Ht. destruct (Hz t Ht) as (out & Hg & Hout). exists out. split; [done|]. rewrite Ho2; [done|]. apply Hdis. by apply list_elem_of_fmap_2.
Qed.

(** The files of a target, and all of them. *)
Definition logPath (rootDir : string) (t : logTarget) (cmd : logCmd) : string := pathJoin (targetPath rootDir t) (lg_name cmd).
Definition targetTasks (rootDir : string) (t : logTarget) : list task := (λ cmd, (logPath rootDir t cmd, prints (lt_ip t) (lg_cmd cmd))) <$> lt_cmds t.
Definition daemonTasks (rootDir host : string) : list task :=
  (λ cmd, (pathJoin rootDir (lg_name cmd), local ("kelda" :: Fields (lg_cmd cmd)))) <$> daemonCmds host.
Definition logTasks (d : DebugCmd) (targets : list logTarget) : list task :=
  daemonTasks (db_outPath d) (db_host d) ++ concat (targetTasks (db_outPath d) <$> targets).

Lemma concat_singletons {A B} (f : A → B) (l : list A) : concat ((λ x, [f x]) <$> l) = f <$> l.
Proof. induction l as [|x l IH]; [done|]. csimpl. by rewrite IH. Qed.

Lemma does_sumM1 {A} (f : A → M W Z) (tk : A → task) xs :
  (∀ x, x ∈ xs → does (f x) [tk x]) → NoDup (tk <$> xs).*1 → does (sumM f xs) (tk <$> xs).
Proof. intros Hf Hnd. rewrite <-(concat_singletons tk xs) in Hnd |- *. by apply does_sumM. Qed.

Lemma does_daemonLogs rootDir host : NoDup (daemonTasks rootDir host).*1 → does (sumM (daemonLog rootDir) (daemonCmds host)) (daemonTasks rootDir host).
Proof.
  unfold daemonTasks. intros Hnd. apply does_sumM1; [|done]. intros cmd _. unfold daemonLog.
  apply (does_write _ id). intros w. apply (execOutput_ok Hlaws).
Qed.

Lemma does_targetLogs rootDir key t : NoDup (targetTasks rootDir t).*1 → does (targetLogs rootDir key t) (targetTasks rootDir t).
Proof.
  intros Hnd w. unfold targetLogs.
  assert (∀ w', files w' = files w → (0 ≤ 1)%Z ∧ (∀ q, q ∉ (targetTasks rootDir t).*1 → files w' !! q = files w !! q) ∧
    (1%Z = 0%Z → Forall (λ t, ∃ out, t.2 out ∧ files w' !! t.1 = Some out) (targetTasks rootDir t))) as HE.
  { intros w' Hw'. rewrite Hw'. done. }
  wp_bind. eapply wp_mono; [apply (Mkdir_keeps Hlaws)|]. intros [[]|e] w1 Hw1; [|wp_ret; by apply HE].
  wp_bind. eapply wp_mono; [apply (sshNew_keeps Hlaws)|]. intros [[]|e] w2 Hw2; [|wp_ret; apply HE; congruence].
  rewrite Hw1 in Hw2. rewrite <-Hw2. unfold targetTasks in *. apply does_sumM1; [|done]. intros cmd _. unfold targetLog.
  apply (does_write _ id). intros w'. apply (sshOutput_ok Hlaws).
Qed.

Lemma does_downloadLogs d targets :
  db_tar d = false → NoDup (logTasks d targets).*1 →
  ∀ w, wp (downloadLogs d targets) w (λ n w', (0 ≤ n)%Z ∧ (n = 0%Z → Forall (λ t, ∃ out, t.2 out ∧ files w' !! t.1 = Some out) (logTasks d targets))).
Proof.
  intros Htar Hnd w. unfold downloadLogs, logTasks in *. rewrite Htar. rewrite fmap_app in Hnd. apply NoDup_app in Hnd as (Hnd1 & Hdis & Hnd2).
  wp_bind. eapply wp_mono; [apply (Mkdir_keeps Hlaws)|]. intros [[]|e] w1 Hw1; [|by wp_ret].
  wp_bind. eapply wp_mono; [apply (Mkdir_keeps Hlaws)|]. intros [[]|e] w2 Hw2; [|by wp_ret].
  wp_bind. eapply wp_mono; [by apply does_daemonLogs|]. intros n1 w3 (Hn1 & _ & Hz1).
  wp_bind. eapply wp_mono; [apply (does_sumM _ (targetTasks (db_outPath d))); [|done]|].
  { intros t Ht. apply does_targetLogs. apply list_elem_of_split in Ht as (l1 & l2 & ->). rewrite fmap_app, fmap_cons, concat_app in Hnd2. simpl in Hnd2.
    rewrite !fmap_app in Hnd2. apply NoDup_app in Hnd2 as (_ & _ & Hnd2). by apply NoDup_app in Hnd2 as (? & _). }
  intros n2 w4 (Hn2 & Ho2 & Hz2). wp_bind. wp_ret. wp_ret. split; [lia|]. intros Hsum. apply Forall_app. split; [|apply Hz2; lia].
  specialize (Hz1 ltac:(lia)). rewrite Forall_forall in Hz1 |- *. intros t Ht. destruct (Hz1 t Ht) as (out & Hg & Hout). exists out. split; [done|].
  rewrite Ho2; [done|]. apply Hdis. by apply list_elem_of_fmap_2.
Qed.

(** The directory is removed before the archive is written: if writing it fails, the logs are gone. *)
Lemma tarball_loses_logs root w :
  wp (walkTar root) w (λ r w1, ∃ buf, r = Val buf ∧ wp (fsRemoveAll root) w1 (λ r w2, r = Val () ∧
    wp (fsWriteFile (root +:+ ".tar") buf) w2 (λ r w3, ∃ e, r = Err e))) →
  wp (tarball root) w (λ n w', n = 1%Z ∧ ∀ q, isPrefix (root +:+ "/") q → q ≠ root +:+ ".tar" → files w' !! q = None).
Proof.
  intros Hw. unfold tarball. wp_bind. eapply wp_mono; [exact Hw|]. intros r w1 (buf & -> & Hw1). wp_bind.
  eapply wp_mono; [exact (wp_and _ _ _ _ Hw1 (RemoveAll_ok Hlaws root w1))|]. intros r w2 [[-> Hw2] Hrm]. unfold counted. wp_bind.
  eapply wp_mono; [exact (wp_and _ _ _ _ Hw2 (WriteFile_ok Hlaws _ buf w2))|]. intros r w3 [[e ->] [Ho _]]. wp_ret. split; [done|].
  intros q Hq Hne. rewrite Ho by done. rewrite (Hrm eq_refl). by rewrite decide_True.
Qed.
End spec.

(** ** Properties *)

(** [kelda debug-logs] without the archive.  If fetching the logs of the targets ends with code 0, then for every command of
    every target there is a file that holds what the command printed on the target's host, and for every command of the
    daemon one that holds what it printed here, provided no two of them are given the same file. *)
Theorem debug_logs_complete {W} `{Ssh W} `{LocalHost W} (files : W → gmap string string) prints local d targets w :
  DebugLaws files prints local → db_tar d = false → NoDup (logTasks prints local d targets).*1 →
  wp (downloadLogs d targets) w (λ n w', (0 ≤ n)%Z ∧ (n = 0%Z →
    (∀ t cmd, t ∈ targets → cmd ∈ lt_cmds t → ∃ out, prints (lt_ip t) (lg_cmd cmd) out ∧ files w' !! logPath (db_outPath d) t cmd = Some out) ∧
    ∀ cmd, cmd ∈ daemonCmds (db_host d) → ∃ out, local ("kelda" :: Fields (lg_cmd cmd)) out ∧ files w' !! pathJoin (db_outPath d) (lg_name cmd) = Some out)).
Proof.
  intros Hlaws Htar Hnd. eapply wp_mono; [by apply does_downloadLogs|]. intros n w' [Hn Hz]. split; [done|]. intros Hn0.
  specialize (Hz Hn0). unfold logTasks in Hz. rewrite Forall_forall in Hz. split.
  - intros t cmd Ht Hc. apply (Hz (logPath (db_outPath d) t cmd, prints (lt_ip t) (lg_cmd cmd))). apply elem_of_app. right. apply elem_of_concat.
    exists (targetTasks prints (db_outPath d) t). split; [by apply list_elem_of_fmap_2|]. unfold targetTasks. apply list_elem_of_fmap. by exists cmd.
  - intros cmd Hc. apply (Hz (pathJoin (db_outPath d) (lg_name cmd), local ("kelda" :: Fields (lg_cmd cmd)))). apply elem_of_app. left.
    unfold daemonTasks. apply list_elem_of_fmap. by exists cmd.
Qed.
