(* ===== verification/Inspect.v ===== *)
(** * Package inspect: kelda inspect

    The graph of a blueprint and its Graphviz text ([graph.go], [viz.go] and
    [inspect.go] of [src/cli/command/inspect]).  The nodes of a graph hold references to maps of
    connections, and those maps hold copies of nodes with such references: the maps are in a heap. *)

From S2P Require Import Prelude GoStrings Join Blueprint DbRows Db Providers.

(** ** Graphs *)

(** [Connections] is the location of a map. *)
Record Node := mk_Node { n_Name : string; n_Connections : nat }.
Notation heap := (list (gmap string Node)).
Record Edge := mk_Edge { e_From : string; e_To : string }.
#[export] Instance Edge_eq_dec : EqDecision Edge.
Proof. solve_decision. Defined.
(** [Graph.Nodes], and the heap. *)
Record Graph := mk_Graph { g_Nodes : gmap string Node; g_heap : heap }.

Definition addNode (hostname : string) (g : Graph) : Graph :=
  mk_Graph (<[hostname := mk_Node hostname (length (g_heap g))]> (g_Nodes g)) (g_heap g ++ [∅]).

(** The body of the two loops of [addConnection]. *)
Definition addEdge (from to : string) (g : Graph) : result Graph :=
  match g_Nodes g !! from with
  | None => Err ("no node: " +:+ from)
  | Some fromNode =>
    match g_Nodes g !! to with
    | None => Err ("no node: " +:+ to)
    | Some toNode => Val (mk_Graph (g_Nodes g) (alter <[to := toNode]> (n_Connections fromNode) (g_heap g)))
    end
  end.
Fixpoint addEdges (edges : list (string * string)) (g : Graph) : result Graph :=
  match edges with
  | [] => Val g
  | (from, to) :: edges => match addEdge from to g with Val g => addEdges edges g | Err e => Err e end
  end.
Definition addConnection (fromSlice toSlice : list string) (g : Graph) : result Graph :=
  addEdges (from ← fromSlice; to ← toSlice; [(from, to)]) g.
Fixpoint addConnections (conns : list bpConnection) (g : Graph) : result Graph :=
  match conns with
  | [] => Val g
  | conn :: conns =>
    match addConnection (bpcn_From conn) (bpcn_To conn) g with Val g => addConnections conns g | Err e => Err e end
  end.

Definition nodeNames (bp : bpBlueprint) : list string :=
  (bpc_Hostname <$> bp_Containers bp) ++ (bpl_Name <$> bp_LoadBalancers bp) ++ [PublicInternetLabel].
Definition newGraph (bp : bpBlueprint) : result Graph :=
  addConnections (bp_Connections bp) (foldl (λ g name, addNode name g) (mk_Graph ∅ []) (nodeNames bp)).

(** ** Graphviz *)

Section viz.
Context `{MapOrder}.

(** Each loop over a map has an order of its own. *)
Fixpoint edgesFrom (n : nat) (h : heap) (nodes : list Node) : list Edge :=
  match nodes with
  | [] => []
  | nd :: nodes =>
    ((λ edge, mk_Edge (n_Name nd) (n_Name edge)) <$> (range n (default ∅ (h !! n_Connections nd))).*2) ++ edgesFrom (S n) h nodes
  end.
Definition GetConnections (n : nat) (g : Graph) : list Edge := edgesFrom (S n) (g_heap g) (range n (g_Nodes g)).*2.

Definition nodeLine (node : string) : string := "    " +:+ quote node +:+ ";".
Definition edgeLine (edge : Edge) : string := "    " +:+ quote (e_From edge) +:+ " -> " +:+ quote (e_To edge) +:+ ";".
Definition dotText (nodes connections : list string) : string :=
  "strict digraph {" +:+ newline +:+ Join_strings newline nodes +:+ newline +:+ Join_strings newline connections +:+ newline +:+ "}" +:+ newline.
Definition makeGraphviz (n : nat) (g : Graph) : string :=
  let nodes := Strings_sort (nodeLine <$> (range n (g_Nodes g)).*1) in
  let connections := Strings_sort (edgeLine <$> GetConnections (S n) g) in
  dotText nodes connections.
End viz.

(** ** The command *)

Record InspectCmd := mk_InspectCmd { ic_configPath : string; ic_outputType : string; ic_blueprintArgs : list string }.
Definition Inspect_Parse (args : list string) : result InspectCmd :=
  match args with
  | configPath :: outputType :: blueprintArgs =>
    if bool_decide (outputType ∈ ["pdf"; "ascii"; "graphviz"]) then Val (mk_InspectCmd configPath outputType blueprintArgs)
    else Err "output type not supported"
  | _ => Err "not enough arguments"
  end.

(** [filepath.Ext] and [strings.TrimSuffix] *)
Fixpoint extLoop (s ext : string) : string :=
  match s with
  | "" => ext
  | String c s' =>
    if bool_decide (c = "/"%char) then extLoop s' "" else if bool_decide (c = "."%char) then extLoop s' s else extLoop s' ext
  end.
Definition TrimSuffix (s suffix : string) : string :=
  let n := String.length s - String.length suffix in
  if bool_decide (String.substring n (String.length suffix) s = suffix) then String.substring 0 n s else s.
Definition stripExtension (configPath : string) : string := TrimSuffix configPath (extLoop configPath "").

(** Creating and writing a file, and running a command. *)
Class VizHost (W : Type) := {
  vizCreate : string → M W (result unit);
  vizWrite : string → string → M W unit;
  vizExec : list string → M W unit;
}.

Section command.
Context `{MapOrder} {W : Type} `{VizHost W}.

(** [rm] is deferred.  No format but the three of [Parse] gets here: the command would be nil. *)
Definition graphviz (outputFormat slug dot : string) : M W unit :=
  let! r := vizCreate (slug +:+ ".dot") in
  match r with
  | Err e => panic e
  | Val _ =>
    vizWrite (slug +:+ ".dot") dot ;;;
    if bool_decide (outputFormat = "graphviz") then mret ()
    else
      (if bool_decide (outputFormat = "ascii") then vizExec ["graph-easy"; "--input=" +:+ slug +:+ ".dot"; "--as_ascii"]
       else if bool_decide (outputFormat = "pdf") then vizExec ["dot"; "-Tpdf"; "-o"; slug +:+ ".pdf"; slug +:+ ".dot"]
       else panic "invalid memory address or nil pointer dereference") ;;;
      vizExec ["rm"; slug +:+ ".dot"]
  end.
Definition viz (n : nat) (configPath : string) (g : Graph) (outputFormat : string) : M W unit :=
  graphviz outputFormat (stripExtension configPath) (makeGraphviz n g).

(** [blueprint.FromFileWithArgs] is [compile]. *)
Definition Inspect_Run (compile : string → list string → result bpBlueprint) (n : nat) (i : InspectCmd) : M W Z :=
  match compile (ic_configPath i) (ic_blueprintArgs i) with
  | Err _ => mret 1%Z
  | Val bp =>
    match newGraph bp with
    | Err _ => mret 1%Z
    | Val g => viz n (ic_configPath i) g (ic_outputType i) ;;; mret 0%Z
    end
  end.
End command.

Example stripExtension_tests : stripExtension <$> ["slug.blueprint"; "a/b/c/slug.blueprint"; "foo"; "./foo/bar.js"; "a.b/c"] = ["slug"; "a/b/c/slug"; "foo"; "./foo/bar"; "a.b/c"].
Proof. reflexivity. Qed.

(** ** What is drawn *)

(** The edges that a blueprint asks for, in the order of the loops. *)
Definition connPairs (conns : list bpConnection) : list (string * string) :=
  conn ← conns; from ← bpcn_From conn; to ← bpcn_To conn; [(from, to)].

(** The text: every name once and every edge once, sorted. *)
Definition dotOf (names : list string) (pairs : list (string * string)) : string :=
  dotText (Strings_sort (nodeLine <$> remove_dups names)) (Strings_sort ((λ p, edgeLine (mk_Edge p.1 p.2)) <$> remove_dups pairs)).

Lemma addEdges_app l1 l2 g : addEdges (l1 ++ l2) g = match addEdges l1 g with Val g => addEdges l2 g | Err e => Err e end.
Proof. revert g. induction l1 as [|[from to] l1 IH]; intros g; [done|]. simpl. destruct (addEdge from to g); [apply IH|done]. Qed.
Lemma addConnections_edges conns g : addConnections conns g = addEdges (connPairs conns) g.
Proof.
  revert g. induction conns as [|conn conns IH]; intros g; [done|]. unfold connPairs. csimpl. rewrite addEdges_app.
  unfold addConnection. destruct (addEdges _ g); [apply IH|done].
Qed.

(** A graph with the nodes [names] and the edges [E].  No two nodes share a map. *)
Record drawn (names : list string) (E : list (string * string)) (g : Graph) : Prop := {
  dr_names : ∀ name, is_Some (g_Nodes g !! name) ↔ name ∈ names;
  dr_node : ∀ name nd, g_Nodes g !! name = Some nd → n_Name nd = name ∧ ∃ m, g_heap g !! n_Connections nd = Some m ∧
    (∀ to, is_Some (m !! to) ↔ (name, to) ∈ E) ∧ ∀ to nd', m !! to = Some nd' → n_Name nd' = to;
  dr_apart : ∀ a b x y, g_Nodes g !! a = Some x → g_Nodes g !! b = Some y → n_Connections x = n_Connections y → a = b;
}.

Lemma drawn_addNode names g name : drawn names [] g → drawn (names ++ [name]) [] (addNode name g).
Proof.
  intros [Hn Hd Ha]. unfold addNode. split; simpl.
  - intros other. rewrite lookup_insert_is_Some', elem_of_app, list_elem_of_singleton, Hn. naive_solver.
  - intros other nd [[<- <-]|[Hne Ho]]%lookup_insert_Some; simpl.
    + split; [done|]. exists ∅. rewrite lookup_app_r, Nat.sub_diag by done. split_and!; [done| |done].
      intros to. rewrite lookup_empty. split; [by intros [? ?]|by intros ?%not_elem_of_nil].
    + destruct (Hd _ _ Ho) as (He & m & Hm & Hrest). split; [done|]. exists m. split; [|done]. by apply lookup_app_l_Some.
  - intros a b x y [[<- <-]|[Hna Hx]]%lookup_insert_Some [[<- <-]|[Hnb Hy]]%lookup_insert_Some; simpl; [done| | |by eapply Ha].
    + destruct (Hd _ _ Hy) as (_ & m & Hm%lookup_lt_Some & _). lia.
    + destruct (Hd _ _ Hx) as (_ & m & Hm%lookup_lt_Some & _). lia.
Qed.

Lemma drawn_nodes names : drawn names [] (foldl (λ g name, addNode name g) (mk_Graph ∅ []) names).
Proof.
  induction names as [|name names IH] using rev_ind; [|rewrite foldl_snoc; by apply drawn_addNode].
  split; simpl; [|done|done]. intros name. rewrite lookup_empty. split; [by intros [? ?]|by intros ?%not_elem_of_nil].
Qed.

Lemma drawn_addEdge names E g from to :
  drawn names E g → from ∈ names → to ∈ names → ∃ g', addEdge from to g = Val g' ∧ drawn names (E ++ [(from, to)]) g'.
Proof.
  intros [Hn Hd Ha] [f Hf]%Hn [t Ht]%Hn. unfold addEdge. rewrite Hf, Ht. eexists. split; [done|]. split; simpl; [done| |done].
  intros name nd Hnd. destruct (Hd _ _ Hnd) as (He & m & Hm & Hmem & Hnames). split; [done|].
  destruct (decide (name = from)) as [->|Hne].
  - rewrite Hnd in Hf. simplify_eq. exists (<[to := t]> m). rewrite list_lookup_alter_eq, Hm. split_and!; [done| |].
    + intros x. rewrite lookup_insert_is_Some', elem_of_app, list_elem_of_singleton, Hmem. naive_solver.
    + intros x nd' [[<- <-]|[_ Hx]]%lookup_insert_Some; [by apply (Hd _ _ Ht)|by apply Hnames].
  - exists m. rewrite list_lookup_alter_ne by (intros Heq; apply Hne; by eapply Ha). split_and!; [done| |done].
    intros x. rewrite elem_of_app, list_elem_of_singleton, Hmem. naive_solver.
Qed.

Lemma drawn_addEdges names E g pairs :
  drawn names E g →
  if decide (Forall (λ p, p.1 ∈ names ∧ p.2 ∈ names) pairs) then ∃ g', addEdges pairs g = Val g' ∧ drawn names (E ++ pairs) g'
  else ∃ p x, p ∈ pairs ∧ (x = p.1 ∨ x = p.2) ∧ x ∉ names ∧ addEdges pairs g = Err ("no node: " +:+ x).
Proof.
  revert E g. induction pairs as [|[from to] pairs IH]; intros E g Hg.
  { rewrite decide_True by done. exists g. by rewrite app_nil_r. }
  destruct (decide (from ∈ names ∧ to ∈ names)) as [[Hf Ht]|Hno].
  - destruct (drawn_addEdge _ _ _ _ _ Hg Hf Ht) as (g' & Hadd & Hg'). specialize (IH _ _ Hg'). simpl. rewrite Hadd.
    destruct (decide (Forall _ ((from, to) :: pairs))) as [[_ Hall]%Forall_cons|Hall].
    + rewrite decide_True in IH by done. rewrite <-app_assoc in IH. exact IH.
    + rewrite decide_False in IH by (intros ?; apply Hall; by constructor). destruct IH as (p & x & Hp & ?). exists p, x. split; [by right|done].
  - rewrite decide_False by (by intros [? _]%Forall_cons). exists (from, to). simpl. unfold addEdge.
    destruct (g_Nodes g !! from) as [f|] eqn:Hf; [destruct (g_Nodes g !! to) as [t|] eqn:Ht|].
    + destruct Hno. split; apply (dr_names _ _ _ Hg); eauto.
    + exists to. split_and!; [by left|by right| |done]. intros [? ?]%(dr_names _ _ _ Hg). congruence.
    + exists from. split_and!; [by left|by left| |done]. intros [? ?]%(dr_names _ _ _ Hg). congruence.
Qed.

Section render.
Context `{MapOrder}.

Definition edgePair (e : Edge) : string * string := (e_From e, e_To e).

Lemma edgesFrom_spec names E g n nodes :
  drawn names E g → (∀ nd, nd ∈ nodes → g_Nodes g !! n_Name nd = Some nd) → NoDup (n_Name <$> nodes) →
  NoDup (edgePair <$> edgesFrom n (g_heap g) nodes) ∧
  ∀ from to, (from, to) ∈ edgePair <$> edgesFrom n (g_heap g) nodes ↔ from ∈ n_Name <$> nodes ∧ (from, to) ∈ E.
Proof.
  intros Hg. revert n. induction nodes as [|nd nodes IH]; intros n Hin Hnd.
  { split; [constructor|]. intros from to. simpl. rewrite !elem_of_nil. naive_solver. }
  csimpl in Hnd. apply NoDup_cons in Hnd as [Hnew Hnd]. destruct (IH (S n)) as [IHd IHe]; [by intros nd' ?; apply Hin; right|done|].
  destruct (dr_node _ _ _ Hg _ _ (Hin nd ltac:(by left))) as (_ & m & Hm & Hmem & Hnames). simpl. rewrite Hm. simpl.
  assert ((edgePair <$> ((λ edge, mk_Edge (n_Name nd) (n_Name edge)) <$> (range n m).*2)) = (λ to, (n_Name nd, to)) <$> (range n m).*1) as Heq.
  { rewrite <-!list_fmap_compose. apply list_fmap_ext. intros i [to nd'] Hi%list_elem_of_lookup_2. apply elem_of_range in Hi. simpl. unfold edgePair. simpl.
    by rewrite (Hnames _ _ Hi). }
  rewrite fmap_app, Heq. assert (∀ from to, (from, to) ∈ (λ to, (n_Name nd, to)) <$> (range n m).*1 ↔ from = n_Name nd ∧ (from, to) ∈ E) as Hhead.
  { intros from to. rewrite list_elem_of_fmap. setoid_rewrite list_elem_of_fmap. split.
    - intros (x & [= -> ->] & [x' nd'] & -> & Hx%elem_of_range). split; [done|]. apply Hmem. by exists nd'.
    - intros [-> [nd' Hx]%Hmem]. exists to. split; [done|]. exists (to, nd'). by rewrite elem_of_range. }
  split.
  - apply NoDup_app. split_and!; [| |done].
    + apply NoDup_fmap_2; [by intros ? ? [= ->]|]. rewrite range_perm. apply NoDup_fst_map_to_list.
    + intros [from to] [-> _]%Hhead [? _]%IHe. done.
  - intros from to. csimpl. rewrite elem_of_app, Hhead, IHe, elem_of_cons. naive_solver.
Qed.

Lemma drawn_makeGraphviz names E g n : drawn names E g → (∀ p, p ∈ E → p.1 ∈ names) → makeGraphviz n g = dotOf names E.
Proof.
  intros Hg HE. unfold makeGraphviz, dotOf. f_equal.
  - apply Strings_sort_unique, fmap_Permutation, NoDup_Permutation; [|apply NoDup_remove_dups|].
    + rewrite range_perm. apply NoDup_fst_map_to_list.
    + intros name. rewrite elem_of_remove_dups, <-(dr_names _ _ _ Hg), list_elem_of_fmap. split.
      * intros ([k nd] & -> & Hk%elem_of_range). by exists nd.
      * intros [nd Hk]. exists (name, nd). by rewrite elem_of_range.
  - apply Strings_sort_unique. unfold GetConnections.
    assert ((range (S n) (g_Nodes g)).*2 ≡ₚ (map_to_list (g_Nodes g)).*2) as Hperm by by rewrite range_perm.
    destruct (edgesFrom_spec names E g (S (S n)) (range (S n) (g_Nodes g)).*2) as [Hnd Hmem]; [done| | |].
    + intros nd Hin. apply range_vals in Hin as [k Hk]. by destruct (dr_node _ _ _ Hg _ _ Hk) as [-> _].
    + rewrite Hperm, <-list_fmap_compose. erewrite list_fmap_ext; [apply (NoDup_fst_map_to_list (g_Nodes g))|].
      intros i [k nd] Hi%list_elem_of_lookup_2. apply elem_of_map_to_list in Hi. simpl. by destruct (dr_node _ _ _ Hg _ _ Hi) as [-> _].
    + set (edges := edgesFrom _ _ _) in *. trans ((λ p, edgeLine (mk_Edge p.1 p.2)) <$> (edgePair <$> edges)).
      { rewrite <-list_fmap_compose. erewrite (list_fmap_ext edgeLine); [done|]. by intros i [from to]. }
      apply fmap_Permutation, NoDup_Permutation; [done|apply NoDup_remove_dups|]. intros [from to]. rewrite Hmem, elem_of_remove_dups. split; [naive_solver|].
      intros Hin. split; [|done]. pose proof (HE _ Hin) as [nd Hk]%(dr_names _ _ _ Hg). simpl in *. apply list_elem_of_fmap. exists nd.
      destruct (dr_node _ _ _ Hg _ _ Hk) as [-> _]. split; [done|]. apply range_vals. by exists from.
Qed.
End render.

(** ** Properties *)

