(* ===== verification/ApiSim.v ===== *)
(** * Package api: a simulated network

    A network whose servers answer with the handlers of [Api], an encoding of rows, and the
    theorems of [ApiSpec], [CliSpec], [Show] and [DebugLogs] on concrete databases and files. *)

From S2P Require Import Prelude GoStrings Join Blueprint DbRows Db DbSpec DbTxn DbFrame Engine Providers Cloud Kube MinionServer Api ApiSpec Cli CliSpec Show DebugLogs.

(** ** Rows in JSON *)

(** Rows that are all the same are encoded by their number. *)
Definition countJson {T} `{EqDecision T} (demo : T) : JsonRows T := {|
  marshalRows l := if bool_decide (Forall (eq demo) l) then Val (Join_strings "" (replicate (length l) "x")) else Err "unsupported value";
  unmarshalRows js := Val (replicate (String.length js) demo);
|}.
Definition countJson_laws {T} `{EqDecision T} (demo : T) : @JsonLaws T (countJson demo).
Proof.
  refine {| enc t := demo = t; wire t := t |}; [done|]. intros l Hl. simpl. rewrite bool_decide_eq_true_2 by done. eexists. split; [done|].
  rewrite list_fmap_id. f_equal. assert (∀ n, String.length (Join_strings "" (replicate n "x")) = n) as Hlen.
  { intros n. induction n as [|n IH]; [done|]. destruct n as [|n]; [done|]. change (S (String.length (Join_strings "" (replicate (S n) "x"))) = S (S n)). by rewrite IH. }
  rewrite Hlen. apply replicate_as_elem_of. split; [done|]. intros x Hx. rewrite Forall_forall in Hl. symmetry. by apply Hl.
Defined.

Definition demo_m : Machine := mk_Machine 1 Amazon "us-west-1" "m4.large" 0 [] "" false "i-1" "1.1.1.1" "10.1.1.1" Connected Master true.
Definition demo_c : Container := mk_Container 2 "10.0.0.7" "10.1.1.1" "c0ffee" "web-1" "running" [] ∅ ∅ "web" 0 false [] "nginx" "".
Definition demo_e : Etcd := mk_Etcd 1 ["10.1.1.1"] true "10.1.1.1".
Definition demo_machine_bp : bpMachine := mk_bpMachine Amazon Master "m4.large" 0 "us-west-1" [] "" false.
Definition demo_old : bpBlueprint := mk_bpBlueprint [] [] [] [] [demo_machine_bp] [] [] "ns".
Definition demo_b : Blueprint := mk_Blueprint 2 demo_old.

#[local] Existing Instance fixed_order.
#[local] Instance demo_jm : JsonRows Machine := countJson demo_m.
#[local] Instance demo_jc : JsonRows Container := countJson demo_c.
#[local] Instance demo_je : JsonRows Etcd := countJson demo_e.
#[local] Instance demo_jcn : JsonRows Connection := countJson (mk_Connection 1 [] [] 0 0).
#[local] Instance demo_jl : JsonRows LoadBalancer := countJson (row_zero 1).
#[local] Instance demo_jb : JsonRows Blueprint := countJson demo_b.
#[local] Instance demo_ji : JsonRows Image := countJson (row_zero 1).
#[local] Instance demo_jm' : JsonLaws Machine := countJson_laws demo_m.
#[local] Instance demo_jc' : JsonLaws Container := countJson_laws demo_c.
#[local] Instance demo_je' : JsonLaws Etcd := countJson_laws demo_e.
#[local] Instance demo_jcn' : JsonLaws Connection := countJson_laws _.
#[local] Instance demo_jl' : JsonLaws LoadBalancer := countJson_laws _.
#[local] Instance demo_jb' : JsonLaws Blueprint := countJson_laws demo_b.
#[local] Instance demo_ji' : JsonLaws Image := countJson_laws _.

(** ** The network *)

(** Two blueprints have a text. *)
Definition demo_new : bpBlueprint := mk_bpBlueprint [mk_bpContainer "c" (mk_bpImage "nginx" "") [] ∅ ∅ "web" false []] [] [] [] [demo_machine_bp] [] [] "ns".
Definition demo_stopped : bpBlueprint := mk_bpBlueprint [] [] [] [] [] [] [] "ns".
Definition demo_String (bp : bpBlueprint) : string :=
  if bool_decide (bp = demo_new) then "new" else if bool_decide (bp = demo_stopped) then "stopped" else "other".
Definition demo_FromJSON (text : string) : result bpBlueprint :=
  if bool_decide (text = "new") then Val demo_new else if bool_decide (text = "stopped") then Val demo_stopped else Err "unable to parse blueprint".
Definition demo_ref (image : string) : result unit := Val ().

Definition simNet : Type := gmap string store.
#[local] Instance simNet_api : ApiNet simNet := {
  Dial _ _ := mret (Val ());
  pbQuery addr table := λ w, Ok (match w !! addr ≫= answer table with Some js => Val js | None => Err "rpc error" end, w);
  pbQueryCounters _ := mret (Val []);
  pbQueryMinionCounters _ _ := mret (Val []);
  pbSetSecret _ _ _ := mret (Val ());
  pbDeploy addr text := λ w,
    match w !! addr with
    | None => Ok (Err "rpc error", w)
    | Some s =>
      match Deploy demo_FromJSON demo_ref true text s with
      | Ok (r, s') => Ok (r, <[addr := s']> w)
      | Panic _ => Ok (Err "transport is closing", w)
      end
    end;
  pbVersion _ := mret (Val "0.1");
  pbClose _ := mret (Val ());
}.

Definition demo_socket : string := "/tmp/kelda.sock".

Lemma simNet_laws : NetLaws (W := simNet) demo_FromJSON demo_ref id (λ _, True) demo_socket.
Proof.
  split; intros; unfold wp; cbn [Dial pbClose pbQuery pbDeploy simNet_api].
  - split; [apply untouched_refl|done].
  - apply untouched_refl.
  - split; [apply untouched_refl|]. by destruct (id w !! addr ≫= answer table) eqn:Ha; unfold id in Ha; rewrite Ha.
  - unfold id. destruct (w !! demo_socket) as [s|] eqn:Hs.
    + destruct (Deploy demo_FromJSON demo_ref true text s) as [[r s']|msg] eqn:Hd.
      * right. exists s, s', r. split_and!; [done..|by left].
      * left. eexists. split_and!; [done|apply untouched_refl|]. 
        intros _ s0 Hs0. pose proof (eq_trans (eq_sym Hs) Hs0) as [= <-]. by exists msg.
    + left. eexists. split_and!; [done|apply untouched_refl|]. intros _ s0 Hs0. by pose proof (eq_trans (eq_sym Hs) Hs0).
Qed.

Lemma demo_socket_apart host : demo_socket ≠ apiAddr host.
Proof.
  intros He. assert (∀ s x, last (String.list_ascii_of_string (s +:+ String x "")) = Some x) as Hlast.
  { intros s x. induction s as [|a s IH]; [done|]. simpl. rewrite last_cons. by rewrite IH. }
  assert (apiAddr host = (host +:+ ":900") +:+ "0") as Ha by (unfold apiAddr; by rewrite app_assoc_s).
  pose proof (Hlast (host +:+ ":900") "0"%char) as Hl. rewrite <-Ha, <-He in Hl. done.
Qed.

(** ** Databases *)

(** The daemon's, with a machine and a blueprint, and the leader's. *)
Definition demo_daemon : store := storeOf [RMachine demo_m; RBlueprint demo_b].
Definition demo_leader : store := storeOf [REtcd demo_e; RContainer demo_c].
Definition demo_net : simNet := {[demo_socket := demo_daemon; apiAddr "1.1.1.1" := demo_leader]}.

Lemma demo_nodesOK {T} `{RowType T} `{JsonLaws T} :
  (DbOK (list_to_set [row_table T]) demo_daemon ∧ Forall enc (vals (tbl T demo_daemon))) →
  (DbOK (list_to_set [row_table T]) demo_leader ∧ Forall enc (vals (tbl T demo_leader))) → nodesOK id T demo_net.
Proof.
  intros Hd Hl addr s. unfold id, demo_net. rewrite lookup_insert_Some, lookup_singleton_Some. by intros [[_ <-]|[_ [_ <-]]].
Qed.

(** ** The theorems *)

(** Deployments that are refused: an image and a region. *)
Definition demo_refused (text : string) : result bpBlueprint :=
  if bool_decide (text = "image") then Val (mk_bpBlueprint [mk_bpContainer "c" (mk_bpImage "?" "") [] ∅ ∅ "web" false []] [] [] [] [] [] [] "ns")
  else if bool_decide (text = "region") then Val (mk_bpBlueprint [] [] [] [] [mk_bpMachine "Amazon" "Master" "m4.large" 0 "nowhere" [] "" false] [] [] "ns")
  else demo_FromJSON text.
Definition demo_strict (image : string) : result unit := if bool_decide (image = "?") then Err "invalid reference format" else Val ().

Lemma Deploy_exact_witness :
  wp (Deploy demo_refused demo_strict true "new") demo_daemon (λ r s', deployed demo_new demo_daemon s' ∧ r = Val ()) ∧
  Deploy demo_refused demo_strict true "image" demo_daemon =
    Ok (Err "could not parse container image ?: invalid reference format", demo_daemon) ∧
  Deploy demo_refused demo_strict true "region" demo_daemon =
    Ok (Err "region: nowhere is not supported for provider: Amazon", demo_daemon).
Proof.
  assert (∀ text, (∃ v, deployVerdict demo_refused demo_strict text v) ∧ ∀ v, deployVerdict demo_refused demo_strict text v →
    match v with
    | Panic msg => Deploy demo_refused demo_strict true text demo_daemon = Panic msg
    | Ok (Err e) => Deploy demo_refused demo_strict true text demo_daemon = Ok (Err e, demo_daemon)
    | Ok (Val bp) => wp (Deploy demo_refused demo_strict true text) demo_daemon (λ r s', deployed bp demo_daemon s' ∧
        r = if decide (Exists (λ m, bpm_Provider m = "Vagrant") (bp_Machines bp))
            then Err "The Vagrant provider is still in development. The blueprint will continue to run, but there may be some errors."
            else Val ())
    end) as Hall.
  { intros text. refine (Deploy_exact demo_refused demo_strict text demo_daemon _ _); [vm_decide|]. right. exists demo_b. vm_compute. reflexivity. }
  split_and!.
  - refine (proj2 (Hall "new") (Ok (Val demo_new)) _). apply Acceptable; [reflexivity| |].
    + repeat constructor. by exists ().
    + intros m [= <-]. eexists. split; [by left|]. vm_decide.
  - refine (proj2 (Hall "image") (Ok (Err _)) _).
    refine (BadImage demo_refused demo_strict "image" _ [] (mk_bpContainer "c" (mk_bpImage "?" "") [] ∅ ∅ "web" false []) []
      "invalid reference format" eq_refl eq_refl _ eq_refl). constructor.
  - refine (proj2 (Hall "region") (Ok (Err _)) _).
    refine (BadRegion demo_refused demo_strict "region" _ (mk_bpMachine "Amazon" "Master" "m4.large" 0 "nowhere" [] "" false) [] _ eq_refl _ eq_refl _ _); [constructor|by left|vm_decide].
Defined.

Example Deploy_examples :
  match Deploy demo_FromJSON demo_ref true "stopped" demo_daemon with
  | Ok (r, s') => (r, b_Blueprint <$> vals (tbl Blueprint s'), length (vals (tbl Machine s')))
  | Panic _ => (Err "", [], 0)
  end = (Val (), [demo_stopped], 1).
Proof. vm_compute. reflexivity. Qed.

Lemma demo_containers : nodesOK (W := simNet) id Container demo_net.
Proof. apply demo_nodesOK; (split; [vm_decide|]); vm_compute; repeat constructor. Qed.
Lemma demo_etcds : nodesOK (W := simNet) id Etcd demo_net.
Proof. apply demo_nodesOK; (split; [vm_decide|]); vm_compute; repeat constructor. Qed.
Lemma demo_blueprints : nodesOK (W := simNet) id Blueprint demo_net.
Proof. apply demo_nodesOK; (split; [vm_decide|]); vm_compute; repeat constructor. Qed.

Lemma daemon_query_follows_leader_witness :
  wp (Query true ContainerTable) (demo_daemon, demo_net) (λ r st, same demo_daemon st.1 ∧ untouched (W := simNet) id demo_net st.2 ∧
    match r with
    | Val js => ∃ ip sl l, leaderIP (W := simNet) id (vals (tbl Machine demo_daemon)) demo_net ip ∧ demo_net !! apiAddr ip = Some sl ∧
        l ≡ₚ vals (tbl Container sl) ∧ marshalRows (wire <$> l) = Val js
    | Err _ => ¬ clusterUp (W := simNet) id (λ _, True) (vals (tbl Machine demo_daemon)) demo_net
    end).
Proof.
  refine (daemon_query_follows_leader (W := simNet) demo_FromJSON demo_ref id (λ _, True) demo_socket (T := Container) demo_daemon demo_net
    simNet_laws demo_socket_apart _ _ _ _ _ demo_etcds demo_containers); [done|done|done|vm_decide|vm_decide].
Defined.

Example daemon_query_example : fst <$> (match Query true ContainerTable (demo_daemon, demo_net) with Ok r => Some r | Panic _ => None end) = Some (Val "x").
Proof. vm_compute. reflexivity. Qed.

Definition demo_compile (path : string) (args : list string) : result bpBlueprint := Val demo_new.
Definition demo_typed : console := mk_console ["what?"; " Yes "] [].
Lemma demo_daemonAt : daemonAt (W := simNet) id demo_socket demo_net demo_daemon.
Proof. split; [vm_compute; reflexivity|vm_decide|]. right. exists demo_b. vm_compute. reflexivity. Qed.

(** With "Yes" typed after a line that is no answer it is deployed; with "n" it is not. *)
Lemma run_deploys_with_consent_witness :
  wp (Run_Run demo_compile demo_String Val (λ x y, Val (x +:+ y)) id id (mk_RunCmd "bp.js" false []) demo_socket) (demo_typed, demo_net) (λ code st,
    daemonDeployed (W := simNet) id demo_socket demo_new demo_daemon demo_net st.2 ∧ code = 0%Z) ∧
  wp (Run_Run demo_compile demo_String Val (λ x y, Val (x +:+ y)) id id (mk_RunCmd "bp.js" false []) demo_socket) (mk_console ["n"; "y"] [], demo_net) (λ code st,
    untouched (W := simNet) id demo_net st.2).
Proof.
  pose proof (λ c, run_deploys_with_consent (W := simNet) demo_FromJSON demo_ref id (λ _, True) demo_socket demo_compile demo_String Val (λ x y, Val (x +:+ y)) id id
    (mk_RunCmd "bp.js" false []) demo_new c demo_net demo_daemon simNet_laws (λ _, eq_refl) eq_refl ltac:(vm_compute; reflexivity) demo_blueprints demo_daemonAt) as Hrun.
  assert (vals (tbl Blueprint demo_daemon) = [demo_b]) as Hb by (vm_compute; reflexivity).
  assert (saysYes demo_typed) as Hyes.
  { exists ["what?"], " Yes ", []. split_and!; [done| |]; [repeat constructor|]; vm_decide. }
  assert (¬ saysYes (mk_console ["n"; "y"] [])) as Hno.
  { intros ([|a before] & line & after & Heq & Hbf & Hin); simpl in Heq; injection Heq as Hfirst _; subst.
    - revert Hin. vm_decide.
    - apply Forall_cons in Hbf as [Hbf _]. revert Hbf. vm_decide. }
  split.
  - eapply wp_mono; [exact (Hrun demo_typed)|]. intros code st [(_ & _ & Hnot)|(Hd & [->|[_ Hdown]] & _)];
      [|split; [exact Hd|vm_compute; reflexivity]|by destruct Hdown].
    destruct Hnot. split; [exact I|]. split; [|split; [by right; right|split; intros; by eexists]].
    apply Acceptable; [vm_compute; reflexivity|repeat constructor; by exists ()|]. intros m [= <-]. eexists. split; [by left|vm_decide].
  - eapply wp_mono; [exact (Hrun (mk_console ["n"; "y"] []))|]. intros code st [(Hu & _)|(_ & _ & Hcon)]; [done|]. exfalso.
    rewrite Hb in Hcon. destruct Hcon as [?|[?|Hcon]]; [discriminate|discriminate|exact (Hno Hcon)].
Defined.

Example run_example :
  match Run_Run demo_compile demo_String Val (λ x y, Val (x +:+ y)) id id (mk_RunCmd "bp.js" false []) demo_socket (demo_typed, demo_net) with
  | Ok (code, (c, w)) => (code, length (stdout c), (λ s, b_Blueprint <$> vals (tbl Blueprint s)) <$> w !! demo_socket)
  | Panic _ => (2%Z, 0, None)
  end = (0%Z, 4, Some [demo_new]).
Proof. vm_compute. reflexivity. Qed.

Lemma stop_empties_blueprint_witness :
  wp (Stop_Run demo_String (mk_StopCmd "" false true) demo_socket) (demo_typed, demo_net) (λ code st,
    code = deployCode demo_stopped ∧ (∀ addr, addr ≠ demo_socket → option_Forall2 same (demo_net !! addr) (st.2 !! addr)) ∧
    ∃ s' id, st.2 !! demo_socket = Some s' ∧ vals (tbl Blueprint s') = [mk_Blueprint id demo_stopped] ∧ tbl Machine s' = tbl Machine demo_daemon).
Proof.
  refine (stop_empties_blueprint (W := simNet) demo_FromJSON demo_ref id (λ _, True) demo_socket demo_String (mk_StopCmd "" false true) demo_typed demo_net demo_daemon
    simNet_laws _ _ demo_blueprints demo_daemonAt I _ _ _ _); [done|vm_compute; reflexivity| |vm_compute; discriminate|by left|by left].
  apply Acceptable; [vm_compute; reflexivity|constructor|done].
Defined.

(** ** kelda show *)

#[local] Existing Instance stable_sort.
(** A database with a connection that cannot be encoded. *)
Definition demo_broken : store := storeOf [RMachine demo_m; RConnection (mk_Connection 5 ["public"] ["web"] 80 80); RContainer demo_c].
Definition demo_broken_net : simNet := {[demo_socket := demo_broken]}.

Lemma show_loses_error_witness :
  let shown := writeMachines [demo_m] ++ [""] in
  Show_run (λ _, "") [AssignConnections; SendConnections; AssignContainers; SendContainers] false demo_socket (mk_console [] [], demo_broken_net) =
    Ok (Err "unable to query connections: rpc error", (mk_console [] shown, demo_broken_net)) ∧
  Show_run (λ _, "") [AssignConnections; AssignContainers; SendConnections; SendContainers] false demo_socket (mk_console [] [], demo_broken_net) =
    Ok (Val (), (mk_console [] (shown ++ writeContainers (λ _, "") [demo_c] [demo_m] [] true), demo_broken_net)).
Proof.
  refine (show_loses_error (W := simNet) (λ _, "") false demo_socket (mk_console [] []) demo_broken_net demo_broken_net demo_broken_net demo_broken_net
    [demo_m] "rpc error" [demo_c] _ _ _ _); vm_compute; reflexivity.
Defined.

Example show_example : writeContainers (λ _, "") [demo_c] [demo_m] [mk_Connection 5 ["public"] ["web"] 80 80] true !! 1 =
  Some (tabbed ["c0ffee"; "i-1"; "nginx "; "web"; "running"; ""; "1.1.1.1:80"]).
Proof. vm_compute. reflexivity. Qed.

(** ** kelda debug-logs *)

(** Files, and commands that print their own text. *)
#[local] Instance simFiles_ssh : Ssh (gmap string string) := {
  sshNew _ _ := mret (Val ());
  sshRun _ _ _ := mret None;
  sshShell _ := mret None;
  sshCombinedOutput host cmd := mret (Val (host +:+ "$ " +:+ cmd));
  sshDisconnect _ := mret ();
}.
#[local] Instance simFiles_host : LocalHost (gmap string string) := {
  fsMkdir _ := mret (Val ());
  fsWriteFile path content := λ fs, Ok (Val (), <[path := content]> fs);
  fsRemoveAll root := λ fs, Ok (Val (), filter (λ kv, ¬ isPrefix (root +:+ "/") kv.1) fs);
  walkTar _ := mret (Val "archive");
  execOutput args := mret (Val (Join_strings " " args));
}.
Definition demo_prints (host cmd out : string) : Prop := out = host +:+ "$ " +:+ cmd.
Definition demo_local (args : list string) (out : string) : Prop := out = Join_strings " " args.

Lemma simFiles_laws : DebugLaws (W := gmap string string) id demo_prints demo_local.
Proof.
  split; try (intros; intros w; done); intros; unfold wp; simpl; unfold id; try done.
  - split; [intros q Hq; by apply lookup_insert_ne|intros _; apply lookup_insert_eq].
  - intros _ q. rewrite map_lookup_filter. destruct (w !! q) as [x|]; simpl; case_decide as Hp; try done.
    + by rewrite option_guard_False by tauto.
    + by rewrite option_guard_True.
  - split; [done|]. by intros out [= <-].
  - split; [done|]. by intros out [= <-].
Qed.

Definition demo_debug : DebugCmd := mk_DebugCmd "" "logs" true false false false [] "unix:///tmp/kelda.sock".
Definition demo_targets : list logTarget := machinesToTargets [demo_m] ++ containersToTargets "1.1.1.1" [demo_c].

Lemma debug_logs_complete_witness :
  wp (downloadLogs demo_debug demo_targets) (∅ : gmap string string) (λ n fs, (0 ≤ n)%Z ∧ (n = 0%Z →
    (∀ t cmd, t ∈ demo_targets → cmd ∈ lt_cmds t → ∃ out, demo_prints (lt_ip t) (lg_cmd cmd) out ∧ fs !! logPath "logs" t cmd = Some out) ∧
    ∀ cmd, cmd ∈ daemonCmds "unix:///tmp/kelda.sock" → ∃ out, demo_local ("kelda" :: Fields (lg_cmd cmd)) out ∧ fs !! pathJoin "logs" (lg_name cmd) = Some out)).
Proof.
  refine (debug_logs_complete (W := gmap string string) id demo_prints demo_local demo_debug demo_targets ∅ simFiles_laws eq_refl _).
  assert (bool_decide (NoDup (logTasks demo_prints demo_local demo_debug demo_targets).*1) = true) as Hnd by (vm_compute; reflexivity).
  by apply bool_decide_eq_true in Hnd.
Defined.

Example debug_logs_example :
  match downloadLogs demo_debug demo_targets (∅ : gmap string string) with
  | Ok (n, fs) => (n, size fs, fs !! "logs/containers/web/logs")
  | Panic _ => ((-1)%Z, 0, None)
  end = (0%Z, 21, Some "1.1.1.1$ docker exec kube-apiserver kubectl logs web-1").
Proof. vm_compute. reflexivity. Qed.
